(* ===== verification/_CoqProject ===== *)
-Q . S2P
Prelude.v
Bytes.v
Text.v
Checksum.v
World.v
Sample.v
Pcap.v
Packet.v
Arp.v
Ipv4.v
NativeUdp.v
Nintendo.v
Dhcp.v
Relay.v
Discovery.v
Options.v
Address.v
Sha1.v
LanClient.v
Startup.v
Session.v
Base64.v
Stream.v
Rpc.v
WebSocket.v
Server.v
Quoting.v
Desktop.v
Controller.v
Supervisor.v
Proxy.v
Uvl.v
Gateway.v
Stack.v
Instance.v
MacApp.v
Pbuf.v
InetChksum.v
Setup.v
Window.v
Tcp.v
TcpRecv.v
TcpSend.v
TcpConn.v
Ip4Frag.v
