(* ===== verification/Prelude.v ===== *)
(** * GRID0 Relay: a verification development

    GRID0 Relay lets a Nintendo Switch on a home network play over an overlay
    network.  It captures frames on the Wi-Fi adapter, rewrites the datagrams of
    the console for the ZeroTier adapter and back, hands the console an address
    by DHCP, answers ARP for a gateway that does not exist, and passes the
    console's other traffic to the Internet through a TCP/IP stack of its own.
    Around this program are a relay server, a remote control, and desktop
    applications that start it as administrator.

    The development translates these programs into functions and proves what
    they promise.  Names are those of the sources; paths below are relative to
    src/.

    ** Conventions

    Machine integers are [Z] with their wrap-around written out ([u8], [u16],
    [u32], [u64]).  Bytes are [Z] in the range of [is_byte], a pointer is the list
    of bytes from it to the end of its object.  A function that may stop the
    process has a result of type [outcome]: an access outside an object, a null
    pointer, a failing assertion, a shift out of range, an uncaught exception, a
    call of [exit], a division by zero.  Stateful code is a function of its state,
    in a state and fault monad where it is long ([M] of the relay, [H] of the heap
    of packet buffers, [U] and [C] of connections) with the weakest precondition
    [wp] for proofs.  What the environment decides (the clock, system calls,
    memory, other programs) is an argument, a stream of answers in the state, or
    an event of its own; no theorem fixes it beyond its hypotheses.

    ** The relay

    - [Bytes], [Text], [Checksum]: the access macros of src/helper.h, strings, and
      the checksum routines of src/lan-play.c and src/ipv4/ipv4.c, equal to the
      one's complement sum of RFC 1071; rewriting a datagram's addresses leaves
      valid checksums and every other byte.
    - [World], [Sample]: [struct lan_play] with what is outside of it, and one
      concrete state that the witnesses start from.
    - [Pcap], [Packet], [Arp], [Ipv4], [NativeUdp], [Nintendo]: src/pcaploop.cpp,
      packet.c, arp.c, ipv4/, native-udp.c, nintendo_oui.h.  The ARP table
      implements a map of latest bindings and drops one only when it is full of
      fresher ones; reserved ports are held once.
    - [Dhcp]: src/dhcp-server.c.  The lease table never has two live leases of
      one address, every request gets the reply the table calls for, and a console
      goes without an offer only when there is no address or slot left.
    - [Relay], [Discovery]: the two capture handlers and the discovery timer of
      src/lan-play.c.  Datagrams are translated as documented, the recorded
      console is one that a captured frame claimed to be and is kept, the sweep
      probes hosts 2 to 254 of both networks.
    - [Options], [Address], [Startup], [Instance], [Session]: src/main.c and the
      start and stop of the relay.  A start on any host either fails or
      establishes the invariant [relay_ok], which every event keeps, so that no
      sequence of frames and ticks makes a memory error, under the conditions on
      captured frames and the clock that [Session] states and that each exclude a
      fault of the code; the options are fixed by the start; at most one relay
      runs.
    - [Sha1], [LanClient]: the client of a relay server, src/lan-client.c, with the
      SHA-1 of src/sha1.c (equal to the standard's) and fragments that arrive in
      any order.

    ** The way to the Internet

    - [Proxy], [Gateway]: src/gateway.cpp and the proxies.  Replies return to the
      address and port whose socket they arrive at, as datagrams with valid
      checksums, and none is lost while that socket is kept and the console's MAC
      is known; bytes are copied between the two connections one
      block at a time, and nothing is lost when one side is slow.
    - [Uvl], [Stack]: uv_lwip/, the binding of the TCP/IP stack to the event loop.
      A connection implements two byte streams over the calls of lwIP.
    - [Pbuf], [InetChksum]: the packet buffers and checksums of lwip/src/core.
    - [Ip4Frag]: ipv4/ip4_frag.c of lwip/src/core.  What is split for the
      interface is put together again from the parts in any order.
    - [Tcp], [TcpRecv], [TcpSend], [TcpConn]: tcp_in.c, tcp.c and tcp_out.c of
      lwip/src/core in the configuration of the relay.  [Tcp] has the definitions;
      [TcpRecv] proves that segments which arrive in any order become the peer's
      stream, [TcpSend] that the queues hold the sender's stream without gaps,
      [TcpConn] that an open connection keeps both under any sequence of segments,
      reads, writes, output and timer ticks, and how a listener's connection
      opens.  Its last module evaluates what happens outside the conditions.

    ** Remote control and relay server

    - [Base64], [Stream], [Rpc], [WebSocket]: src/rpc/.  The command language gets
      exactly what follows the token; a start applies the whole configuration; the
      loops over received blocks end.
    - [Server]: server/src/.  Only clients that proved the password are served, no
      sequence of datagrams from proper ports makes a handler throw, packets go
      where they belong.

    ** Desktop applications

    - [Quoting], [Desktop], [Controller], [Supervisor], [Setup], [Window]: desktop/.
      Settings that pass the check are accepted by the relay, the command run as
      administrator is read back as meant, the controller holds exactly the
      resources of its state and every stop completes, the process that runs has
      the addresses the window shows, and only verified installers are run.
    - [MacApp]: the model of macos/Grid0RelayApp.

    ** Bounds and fuel

    Recursion that is not structural has a counter that is shown to be enough
    where the function is used: the length of the input for parsers ([dhcp_options],
    [parse_options], the frames of [WebSocket]), the number of buffers for loops
    over a chain ([steps]), the number of parts of a packet ([send_parts]), a
    constant for folding carries.  Theorems state that the code returns; where it
    may stop on what it is sent, as the decoder of WebSocket frames may, the
    termination and the properties of the runs that return are theorems of their
    own, and the stops are evaluated beside them.

    TCP numbers are positions modulo 2^32; the conditions of [TcpConn] keep those
    that are compared less than half the number space apart, which is what the
    comparison macros need.

    ** Not modelled

    - lwIP beyond packet buffers, checksums, IPv4 fragments and the connections of
      TCP: the lists of control blocks and their lookup in tcp_input, keep-alive,
      polling and the fast timer of TCP; IPv4 input and output, IPv6, ICMP, network
      interfaces and the start of the stack.  [Stack] and [Uvl] see these through
      the calls of the raw interface, whose answers are inputs.
    - Libraries: libpcap and Npcap, libuv, Qt, AppKit and SwiftUI, Node.js, and the
      operating systems.  Their answers are inputs; what the code relies on is a
      hypothesis of the theorem that uses it.
    - Printing: the log (base/llog.c), hex dumps, the listing of adapters, and
      texts of the user interfaces.
    - The entries of the graphical applications, SwiftUI views, the monitor page
      of the relay server, tests, packaging and build scripts. *)

From Stdlib Require Export ZArith Lia.
From stdpp Require Export base tactics decidable list gmap numbers.
#[global] Open Scope Z_scope.

(** ** Machine integers

    C's unsigned integers are kept as [Z] with their wrap-around written out. *)

Definition u8 (z : Z) : Z := z mod 256.
Definition u16 (z : Z) : Z := z mod 65536.
Definition u32 (z : Z) : Z := z mod 4294967296.
Definition u64 (z : Z) : Z := z mod 18446744073709551616.

Definition is_byte (z : Z) : Prop := 0 <= z < 256.
#[global] Instance is_byte_dec z : Decision (is_byte z).
Proof. unfold is_byte. apply _. Defined.

Abbreviation bytes := (Forall is_byte).

Create HintDb relay.

Lemma u8_byte z : is_byte (u8 z).
Proof. unfold is_byte, u8. apply Z.mod_pos_bound. lia. Qed.
Lemma u8_small z : is_byte z -> u8 z = z.
Proof. unfold is_byte, u8. intros. apply Z.mod_small. lia. Qed.
Lemma u16_bound z : 0 <= u16 z < 65536.
Proof. unfold u16. apply Z.mod_pos_bound. lia. Qed.
Lemma u16_small z : 0 <= z < 65536 -> u16 z = z.
Proof. unfold u16. intros. apply Z.mod_small. lia. Qed.
Lemma u32_bound z : 0 <= u32 z < 4294967296.
Proof. unfold u32. apply Z.mod_pos_bound. lia. Qed.
Lemma u32_small z : 0 <= z < 4294967296 -> u32 z = z.
Proof. unfold u32. intros. apply Z.mod_small. lia. Qed.
#[export] Hint Resolve u8_byte u16_bound u32_bound : relay.

(** ** Outcomes

    A C function either returns or stops the process.  An access outside the
    object it was derived from is [OutOfBounds], a null pointer that is
    followed is [NullDeref], a failing [assert] is [AssertFail], a shift by the
    width of the type or more is [BadShift], an exception nobody catches is
    [Uncaught], a call of [exit] is [Exited], a division by zero is
    [DivByZero]; a loop that runs out of the fuel of its model is [OutOfFuel]. *)

Inductive fault := OutOfBounds | NullDeref | AssertFail | BadShift | Uncaught | Exited | DivByZero | OutOfFuel.

Inductive outcome (A : Type) :=
| Ok (a : A)
| Stop (f : fault).
Arguments Ok {A} a.
Arguments Stop {A} f.

Definition obind {A B} (o : outcome A) (k : A -> outcome B) : outcome B :=
  match o with Ok a => k a | Stop f => Stop f end.

(** State passing with faults: the handlers of the relay. *)
Definition SE (S A : Type) : Type := S -> outcome (A * S).

Section Monad.
Context {S : Type}.

Definition ret {A} (a : A) : SE S A := fun s => Ok (a, s).
Definition bind {A B} (m : SE S A) (k : A -> SE S B) : SE S B :=
  fun s => match m s with Ok (a, s') => k a s' | Stop f => Stop f end.
Definition lift {A} (o : outcome A) : SE S A :=
  fun s => match o with Ok a => Ok (a, s) | Stop f => Stop f end.
Definition stop {A} (f : fault) : SE S A := fun _ => Stop f.
Definition gets {A} (f : S -> A) : SE S A := fun s => Ok (f s, s).
Definition modify (f : S -> S) : SE S unit := fun s => Ok (tt, f s).

(** Total correctness: the run does not stop and its result satisfies [Q]. *)
Definition wp {A} (m : SE S A) (Q : A -> S -> Prop) (s : S) : Prop :=
  match m s with Ok (a, s') => Q a s' | Stop _ => False end.

Lemma wp_ret {A} (a : A) Q s : Q a s -> wp (ret a) Q s.
Proof. done. Qed.
Lemma wp_bind {A B} (m : SE S A) (k : A -> SE S B) Q s :
  wp m (fun a => wp (k a) Q) s -> wp (bind m k) Q s.
Proof. unfold wp, bind. by destruct (m s) as [[a s']|]. Qed.
Lemma wp_gets {A} (f : S -> A) Q s : Q (f s) s -> wp (gets f) Q s.
Proof. done. Qed.
Lemma wp_modify f (Q : unit -> S -> Prop) s : Q tt (f s) -> wp (modify f) Q s.
Proof. done. Qed.
Lemma wp_lift {A} (o : outcome A) (a : A) Q s : o = Ok a -> Q a s -> wp (lift o) Q s.
Proof. by intros ->. Qed.
Lemma wp_mono {A} (m : SE S A) (P Q : A -> S -> Prop) s :
  wp m P s -> (forall a s', P a s' -> Q a s') -> wp m Q s.
Proof. unfold wp. destruct (m s) as [[a s']|]; auto. Qed.
Lemma wp_both {A} (m : SE S A) (P Q : A -> S -> Prop) s : wp m P s -> wp m Q s -> wp m (fun a s' => P a s' /\ Q a s') s.
Proof. unfold wp. by destruct (m s) as [[a s']|]. Qed.
Lemma wp_run {A} (m : SE S A) Q s :
  wp m Q s <-> exists a s', m s = Ok (a, s') /\ Q a s'.
Proof.
  unfold wp. destruct (m s) as [[a s']|]; split.
  - eauto.
  - intros (? & ? & ? & ?). by simplify_eq.
  - done.
  - intros (? & ? & ? & ?). done.
Qed.
Lemma bind_Ok {A B} (m : SE S A) (k : A -> SE S B) s a s' :
  m s = Ok (a, s') -> bind m k s = k a s'.
Proof. unfold bind. by intros ->. Qed.

(** Partial correctness: if the run returns, its result satisfies [Q].  For
    invariants, which also hold when the process was stopped. *)
Definition wlp {A} (m : SE S A) (Q : A -> S -> Prop) (s : S) : Prop :=
  match m s with Ok (a, s') => Q a s' | Stop _ => True end.

Lemma wlp_ret {A} (a : A) Q s : Q a s -> wlp (ret a) Q s.
Proof. done. Qed.
Lemma wlp_stop {A} f Q s : wlp (A := A) (stop f) Q s.
Proof. done. Qed.
Lemma wlp_bind {A B} (m : SE S A) (k : A -> SE S B) Q s :
  wlp m (fun a => wlp (k a) Q) s -> wlp (bind m k) Q s.
Proof. unfold wlp, bind. by destruct (m s) as [[a s']|]. Qed.
Lemma wlp_gets {A} (f : S -> A) Q s : Q (f s) s -> wlp (gets f) Q s.
Proof. done. Qed.
Lemma wlp_modify f (Q : unit -> S -> Prop) s : Q tt (f s) -> wlp (modify f) Q s.
Proof. done. Qed.
Lemma wlp_lift {A} (o : outcome A) Q s : (forall a, o = Ok a -> Q a s) -> wlp (lift o) Q s.
Proof. unfold wlp, lift. destruct o; auto. Qed.
Lemma wlp_mono {A} (m : SE S A) (P Q : A -> S -> Prop) s :
  wlp m P s -> (forall a s', P a s' -> Q a s') -> wlp m Q s.
Proof. unfold wlp. destruct (m s) as [[a s']|]; auto. Qed.
Lemma wlp_run {A} (m : SE S A) Q s :
  wlp m Q s <-> forall a s', m s = Ok (a, s') -> Q a s'.
Proof.
  unfold wlp. destruct (m s) as [[a s']|]; split; try done.
  - by intros ? ? ? [= <- <-].
  - eauto.
Qed.
Lemma wp_wlp {A} (m : SE S A) Q s : wp m (fun _ _ => True) s -> wlp m Q s -> wp m Q s.
Proof. unfold wp, wlp. by destruct (m s) as [[a s']|]. Qed.

(** *** What a run may change

    [respects R m]: a run of [m] that returns relates the states before and
    after by [R].  For a preorder this composes along the code. *)
Definition respects (R : relation S) {A} (m : SE S A) : Prop :=
  forall s a s', m s = Ok (a, s') -> R s s'.

Section Respects.
Context (R : relation S) `{!PreOrder R}.

Lemma respects_ret {A} (a : A) : respects R (ret a).
Proof. intros s ? ? [= <- <-]. reflexivity. Qed.
Lemma respects_stop {A} f : respects R (A := A) (stop f).
Proof. by intros s ? ? ?. Qed.
Lemma respects_gets {A} (f : S -> A) : respects R (gets f).
Proof. intros s ? ? [= <- <-]. reflexivity. Qed.
Lemma respects_lift {A} (o : outcome A) : respects R (lift o).
Proof. intros s ? ?. unfold lift. destruct o; intros [= <- <-]. reflexivity. Qed.
Lemma respects_modify f : (forall s, R s (f s)) -> respects R (modify f).
Proof. intros H s ? ? [= <- <-]. apply H. Qed.
Lemma respects_bind {A B} (m : SE S A) (k : A -> SE S B) :
  respects R m -> (forall a, respects R (k a)) -> respects R (bind m k).
Proof.
  intros Hm Hk s b s'. unfold bind. destruct (m s) as [[a s1]|] eqn:E; [|done].
  intros Hs. transitivity s1; [by eapply Hm|by eapply Hk].
Qed.
Lemma respects_bind_lift {A B} (o : outcome A) (k : A -> SE S B) :
  (forall a, o = Ok a -> respects R (k a)) -> respects R (bind (lift o) k).
Proof.
  intros Hk s b s'. unfold bind, lift. destruct o as [a|]; [|done]. by apply Hk.
Qed.
Lemma wp_respects {A} (m : SE S A) Q s :
  respects R m -> wp m Q s -> wp m (fun a s' => R s s' /\ Q a s') s.
Proof.
  intros Hr. unfold wp. destruct (m s) as [[a s']|] eqn:E; [|done]. split; [by eapply Hr|done].
Qed.
End Respects.

(** an invariant is preserved *)
Definition stays (P : S -> Prop) (s s' : S) : Prop := P s -> P s'.
#[global] Instance stays_preorder P : PreOrder (stays P).
Proof. split; [by intros ? ?|]. intros s1 s2 s3 H1 H2 ?. by apply H2, H1. Qed.

Lemma respects_wlp (R : relation S) {A} (m : SE S A) s :
  respects R m -> wlp m (fun _ s' => R s s') s.
Proof. intros Hr. unfold wlp. destruct (m s) as [[a s']|] eqn:E; [|done]. by eapply Hr. Qed.
Lemma wlp_to_respects (R : relation S) {A} (m : SE S A) :
  (forall s, wlp m (fun _ s' => R s s') s) -> respects R m.
Proof. intros H s a s' E. specialize (H s). unfold wlp in H. by rewrite E in H. Qed.
Lemma wlp_respects (R : relation S) {A} (m : SE S A) Q s :
  respects R m -> wlp m Q s -> wlp m (fun a s' => R s s' /\ Q a s') s.
Proof.
  intros Hr. unfold wlp. destruct (m s) as [[a s']|] eqn:E; [|done]. split; [by eapply Hr|done].
Qed.

Lemma respects_mono (R1 R2 : relation S) {A} (m : SE S A) :
  (forall s s', R1 s s' -> R2 s s') -> respects R1 m -> respects R2 m.
Proof. intros H Hm s a s' E. eauto. Qed.
End Monad.

Declare Scope relay_scope.
Delimit Scope relay_scope with relay.
#[global] Open Scope relay_scope.

(** Lemmas of the form [respects _ f] for the functions of the model. *)
Create HintDb respects.
Create HintDb respects_state.

(** Walks along the code of a function: the monad's operations, conditionals
    and matches are opened, calls are looked up in the hint database. *)
Ltac respects_step :=
  lazymatch goal with
  | |- respects _ (bind (lift _) _) => apply (respects_bind_lift _); intros ? ?
  | |- respects _ (bind _ _) => apply (respects_bind _); [|intros ?]
  | |- respects _ (ret _) => apply (respects_ret _)
  | |- respects _ (stop _) => apply (respects_stop _)
  | |- respects _ (gets _) => apply (respects_gets _)
  | |- respects _ (lift _) => apply (respects_lift _)
  | |- respects _ (modify _) => apply (respects_modify _); intros ?; auto with respects_state
  | |- respects _ (if ?b then _ else _) => destruct b
  | |- respects _ (match ?x with _ => _ end) => destruct x
  | |- respects _ (let _ := _ in _) => cbv zeta
  | |- respects _ ((fun _ => _) _) => cbv beta
  | |- respects _ _ => solve [auto with respects]
  end.
Ltac solve_respects := intros; repeat respects_step.

Notation "'try' x := o 'in' k" := (obind o (fun x => k))
  (at level 10, x binder, o at level 100, k at level 200) : relay_scope.
Notation "'let*' x := m 'in' k" := (bind m (fun x => k))
  (at level 10, x binder, m at level 100, k at level 200) : relay_scope.
Notation "'let?' x := o 'in' k" := (bind (lift o) (fun x => k))
  (at level 10, x binder, o at level 100, k at level 200) : relay_scope.
Notation "m ;;; k" := (bind m (fun _ => k))
  (at level 199, k at level 200, right associativity) : relay_scope.

(** ** Field update for records

    [set f g r] is [r] with field [f] mapped by [g].  A record declares its
    eta expansion once; the setter of a projection is found from it. *)

Class Eta (R : Type) := eta : R -> R.
Class Setter {R T : Type} (proj : R -> T) := set : (T -> T) -> R -> R.
Arguments set {R T} proj {_} _ _ : rename.

Ltac find_setter :=
  lazymatch goal with
  | |- @Setter ?R ?T ?proj =>
      lazymatch constr:(@eta R _) with
      | @eta _ ?i =>
          let e := lazymatch i with
            | ?h ?a => let e := eval unfold h in i in eval cbv beta in e
            | _ => eval unfold i in i
            end in
          let p := eval pattern proj in e in
          lazymatch p with
          | ?s proj =>
              let t := eval cbv beta in (fun (g : T -> T) (r : R) => s (fun x => g (proj x)) r) in
              exact t
          end
      end
  end.
#[export] Hint Extern 0 (Setter _) => find_setter : typeclass_instances.

Notation "r <| f := v |>" := (set f (fun _ => v) r)
  (at level 1, f at level 10, v at level 200, left associativity,
   format "r  <| f  :=  v |>") : relay_scope.
Notation "r <| f ::= g |>" := (set f g r)
  (at level 1, f at level 10, g at level 200, left associativity,
   format "r  <| f  ::=  g |>") : relay_scope.
