(* ===== verification/Bytes.v ===== *)
(** * Buffers, pointers and the access macros of [helper.h]

    A pointer into a packet is the list of the bytes from it to the end of the
    object it points into; reading or writing past the end is the fault
    [OutOfBounds].  The macros of src/src/helper.h are defined on such
    pointers, with the pure readers ([getb], [be16], [field]) they agree with
    when the access is in bounds. *)
From S2P Require Import Prelude.

(** ** Readers and writers *)

Definition blen (p : list Z) : Z := Z.of_nat (length p).

Definition ptr (p : list Z) (k : Z) : list Z := drop (Z.to_nat k) p.

Definition getb (p : list Z) (i : Z) : Z := nth (Z.to_nat i) p 0.
Definition be16 (p : list Z) (i : Z) : Z := getb p i * 256 + getb p (i + 1).
Definition field (p : list Z) (i n : Z) : list Z := take (Z.to_nat n) (drop (Z.to_nat i) p).

Definition READ_NET8 (p : list Z) (i : Z) : outcome Z :=
  if (0 <=? i) && (i <? blen p) then Ok (getb p i) else Stop OutOfBounds.

Definition READ_NET16 (p : list Z) (i : Z) : outcome Z :=
  if (0 <=? i) && (i + 2 <=? blen p) then Ok (be16 p i) else Stop OutOfBounds.

(** [memcpy] from [p + i], [n] bytes *)
Definition rdn (p : list Z) (i n : Z) : outcome (list Z) :=
  if (0 <=? i) && (0 <=? n) && (i + n <=? blen p) then Ok (field p i n) else Stop OutOfBounds.

Definition splice (p : list Z) (i : Z) (d : list Z) : list Z :=
  take (Z.to_nat i) p ++ d ++ drop (Z.to_nat i + length d) p.

(** [memcpy] of the bytes [d] to [p + i] *)
Definition wrn (p : list Z) (i : Z) (d : list Z) : outcome (list Z) :=
  if (0 <=? i) && (i + blen d <=? blen p) then Ok (splice p i d) else Stop OutOfBounds.

Definition WRITE_NET8 (p : list Z) (i v : Z) : outcome (list Z) := wrn p i [u8 v].

Definition net16 (v : Z) : list Z := [u8 (v / 256); u8 v].
Definition WRITE_NET16 (p : list Z) (i v : Z) : outcome (list Z) := wrn p i (net16 v).

(** [memcmp] of two addresses that were loaded from memory *)
Definition CMP_IPV4 (a b : list Z) : bool := bool_decide (a = b).
Definition CMP_MAC (a b : list Z) : bool := bool_decide (a = b).

(** [*(uint32_t * )p] on the little-endian host the build targets *)
Definition load32 (p : list Z) : Z :=
  getb p 0 + 256 * (getb p 1 + 256 * (getb p 2 + 256 * getb p 3)).

Definition IS_SUBNET (ip net mask : list Z) : bool :=
  Z.land (load32 ip) (load32 mask) =? load32 net.

Definition IS_BROADCAST (ip net mask : list Z) : bool :=
  Z.lor (load32 net) (u32 (Z.lnot (load32 mask))) =? load32 ip.

(** ** Lemmas *)

Ltac bool_lia :=
  repeat match goal with
  | H : _ && _ = true |- _ => apply andb_prop in H as [? ?]
  | H : _ && _ = false |- _ => apply andb_false_iff in H as [?|?]
  | H : _ || _ = true |- _ => apply orb_prop in H as [?|?]
  | H : _ || _ = false |- _ => apply orb_false_iff in H as [? ?]
  | H : (_ <=? _) = true |- _ => apply Z.leb_le in H
  | H : (_ <=? _) = false |- _ => apply Z.leb_gt in H
  | H : (_ <? _) = true |- _ => apply Z.ltb_lt in H
  | H : (_ <? _) = false |- _ => apply Z.ltb_ge in H
  | H : (_ =? _) = true |- _ => apply Z.eqb_eq in H
  | H : (_ =? _) = false |- _ => apply Z.eqb_neq in H
  | H : negb _ = true |- _ => apply negb_true_iff in H
  | H : negb _ = false |- _ => apply negb_false_iff in H
  end.

Lemma blen_nonneg p : 0 <= blen p.
Proof. unfold blen. lia. Qed.
Lemma blen_app p q : blen (p ++ q) = blen p + blen q.
Proof. unfold blen. rewrite length_app. lia. Qed.
Lemma blen_cons x p : blen (x :: p) = 1 + blen p.
Proof. unfold blen. cbn [length]. lia. Qed.
Lemma blen_nil : blen [] = 0.
Proof. reflexivity. Qed.
Lemma blen_repeat x n : blen (repeat x n) = Z.of_nat n.
Proof. unfold blen. rewrite repeat_length. lia. Qed.
Lemma blen_replicate x n : blen (replicate n x) = Z.of_nat n.
Proof. unfold blen. rewrite length_replicate. lia. Qed.
Lemma blen_net16 v : blen (net16 v) = 2.
Proof. reflexivity. Qed.

Lemma net16_value v : u8 (v / 256) * 256 + u8 v = u16 v.
Proof.
  unfold u8, u16. change 65536 with (256 * 256). rewrite Z.rem_mul_r by lia. lia.
Qed.

Lemma READ_NET8_ok p i : 0 <= i < blen p -> READ_NET8 p i = Ok (getb p i).
Proof.
  intros. unfold READ_NET8.
  by rewrite (proj2 (Z.leb_le 0 i)), (proj2 (Z.ltb_lt i _)) by lia.
Qed.
Lemma READ_NET16_ok p i : 0 <= i -> i + 2 <= blen p -> READ_NET16 p i = Ok (be16 p i).
Proof.
  intros. unfold READ_NET16.
  by rewrite (proj2 (Z.leb_le 0 i)), (proj2 (Z.leb_le (i+2) _)) by lia.
Qed.
Lemma rdn_ok p i n : 0 <= i -> 0 <= n -> i + n <= blen p -> rdn p i n = Ok (field p i n).
Proof.
  intros. unfold rdn.
  by rewrite (proj2 (Z.leb_le 0 i)), (proj2 (Z.leb_le 0 n)), (proj2 (Z.leb_le (i+n) _)) by lia.
Qed.
Lemma rdn_stop p i n : 0 <= n -> blen p < i + n -> rdn p i n = Stop OutOfBounds.
Proof. unfold rdn, blen. intros. repeat case_match; try done; lia. Qed.
Lemma wrn_stop p i d : blen p < i + blen d -> wrn p i d = Stop OutOfBounds.
Proof. unfold wrn, blen. intros. repeat case_match; try done; lia. Qed.
Lemma wrn_ok p i d : 0 <= i -> i + blen d <= blen p -> wrn p i d = Ok (splice p i d).
Proof.
  intros. unfold wrn.
  by rewrite (proj2 (Z.leb_le 0 i)), (proj2 (Z.leb_le (i + _) _)) by lia.
Qed.
Lemma WRITE_NET8_ok p i v : 0 <= i < blen p -> WRITE_NET8 p i v = Ok (splice p i [u8 v]).
Proof. intros. apply wrn_ok; [lia|]. unfold blen in *. cbn. lia. Qed.
Lemma WRITE_NET16_ok p i v :
  0 <= i -> i + 2 <= blen p -> WRITE_NET16 p i v = Ok (splice p i (net16 v)).
Proof. intros. apply wrn_ok; [lia|]. rewrite blen_net16. lia. Qed.

Lemma blen_ptr p k : 0 <= k -> blen (ptr p k) = Z.max 0 (blen p - k).
Proof. intros. unfold blen, ptr. rewrite length_drop. lia. Qed.
Lemma blen_field p i n :
  0 <= i -> 0 <= n -> i + n <= blen p -> blen (field p i n) = n.
Proof. intros. unfold blen, field in *. rewrite length_take, length_drop. lia. Qed.

Lemma getb_ptr p k i : 0 <= k -> 0 <= i -> getb (ptr p k) i = getb p (k + i).
Proof.
  intros. unfold getb, ptr. rewrite !nth_lookup, lookup_drop. do 2 f_equal. lia.
Qed.
Lemma be16_ptr p k i : 0 <= k -> 0 <= i -> be16 (ptr p k) i = be16 p (k + i).
Proof. intros. unfold be16. rewrite !getb_ptr by lia. do 2 f_equal. lia. Qed.
Lemma field_ptr p k i n : 0 <= k -> 0 <= i -> field (ptr p k) i n = field p (k + i) n.
Proof. intros. unfold field, ptr. rewrite drop_drop. do 2 f_equal. lia. Qed.
Lemma ptr_ptr p k i : 0 <= k -> 0 <= i -> ptr (ptr p k) i = ptr p (k + i).
Proof. intros. unfold ptr. rewrite drop_drop. f_equal. lia. Qed.
Lemma ptr_0 p : ptr p 0 = p.
Proof. reflexivity. Qed.

Lemma getb_byte p i : bytes p -> is_byte (getb p i).
Proof.
  intros Hb. unfold getb. rewrite nth_lookup.
  destruct (p !! Z.to_nat i) eqn:E; cbn.
  - rewrite Forall_lookup in Hb. eauto.
  - unfold is_byte. lia.
Qed.
Lemma be16_bound p i : bytes p -> 0 <= be16 p i < 65536.
Proof.
  intros Hb. unfold be16.
  pose proof (getb_byte p i Hb). pose proof (getb_byte p (i+1) Hb).
  unfold is_byte in *. lia.
Qed.
Lemma bytes_ptr p k : bytes p -> bytes (ptr p k).
Proof. apply Forall_drop. Qed.
Lemma bytes_field p i n : bytes p -> bytes (field p i n).
Proof. intros. by apply Forall_take, Forall_drop. Qed.
Lemma bytes_splice p i d : bytes p -> bytes d -> bytes (splice p i d).
Proof.
  intros. unfold splice. rewrite !Forall_app.
  eauto using Forall_take, Forall_drop.
Qed.
Lemma bytes_net16 v : bytes (net16 v).
Proof. repeat constructor; apply u8_byte. Qed.
#[export] Hint Resolve bytes_ptr bytes_field bytes_splice bytes_net16 getb_byte : relay.

Lemma blen_splice p i d : 0 <= i -> i + blen d <= blen p -> blen (splice p i d) = blen p.
Proof.
  unfold blen, splice. intros.
  rewrite !length_app, length_take, length_drop. lia.
Qed.

Lemma getb_app_l p q i : 0 <= i < blen p -> getb (p ++ q) i = getb p i.
Proof. unfold getb, blen. intros. rewrite app_nth1 by lia. done. Qed.
Lemma getb_app_r p q i : blen p <= i -> getb (p ++ q) i = getb q (i - blen p).
Proof. unfold getb, blen. intros. rewrite app_nth2 by lia. f_equal. lia. Qed.

Lemma getb_splice p i d j :
  0 <= i -> i + blen d <= blen p -> 0 <= j ->
  getb (splice p i d) j = if (i <=? j) && (j <? i + blen d) then getb d (j - i) else getb p j.
Proof.
  intros Hi Hd Hj. unfold splice.
  assert (Ht : blen (take (Z.to_nat i) p) = i)
    by (unfold blen in *; rewrite length_take; lia).
  destruct (Z.leb_spec i j); cbn [andb].
  - rewrite getb_app_r by lia. rewrite Ht.
    destruct (Z.ltb_spec j (i + blen d)).
    + rewrite getb_app_l by lia. done.
    + rewrite getb_app_r by lia.
      replace (drop (Z.to_nat i + length d) p) with (ptr p (i + blen d))
        by (unfold ptr, blen; f_equal; lia).
      pose proof (blen_nonneg d).
      rewrite getb_ptr by lia. f_equal. lia.
  - rewrite getb_app_l by lia. unfold getb.
    rewrite !nth_lookup, lookup_take_lt by lia. done.
Qed.

Lemma field_lookup p i n j :
  0 <= i -> 0 <= n -> 0 <= j < n -> i + n <= blen p -> getb (field p i n) j = getb p (i + j).
Proof.
  intros. unfold getb, field. rewrite !nth_lookup, lookup_take_lt, lookup_drop by lia.
  do 2 f_equal. lia.
Qed.

(** Two buffers of the same length with the same bytes are equal. *)
Lemma buffer_ext p q :
  blen p = blen q -> (forall i, 0 <= i < blen p -> getb p i = getb q i) -> p = q.
Proof.
  unfold blen, getb. intros Hl Hg.
  apply (nth_ext p q 0 0); [lia|]. intros n Hn.
  specialize (Hg (Z.of_nat n)). rewrite Nat2Z.id in Hg. apply Hg. lia.
Qed.

Lemma field_splice_same p i d n :
  0 <= i -> n = blen d -> i + blen d <= blen p -> field (splice p i d) i n = d.
Proof.
  intros Hi -> Hl. unfold field, splice.
  rewrite drop_app_length' by (unfold blen in *; rewrite length_take; lia).
  rewrite take_app_length' by (unfold blen; lia). done.
Qed.
Lemma field_splice_other p i d j n :
  0 <= i -> i + blen d <= blen p -> 0 <= j -> 0 <= n -> j + n <= blen p ->
  j + n <= i \/ i + blen d <= j ->
  field (splice p i d) j n = field p j n.
Proof.
  intros. pose proof (blen_nonneg d). apply buffer_ext.
  - rewrite !blen_field; rewrite ?blen_splice; lia.
  - intros k Hk. rewrite blen_field in Hk by (rewrite ?blen_splice; lia).
    rewrite !field_lookup by (rewrite ?blen_splice; lia).
    rewrite getb_splice by lia.
    destruct (Z.leb_spec i (j + k)), (Z.ltb_spec (j + k) (i + blen d)); cbn; try done; lia.
Qed.
Lemma be16_splice_other p i d j :
  0 <= i -> i + blen d <= blen p -> 0 <= j -> j + 2 <= blen p ->
  j + 2 <= i \/ i + blen d <= j ->
  be16 (splice p i d) j = be16 p j.
Proof.
  intros. pose proof (blen_nonneg d). unfold be16. rewrite !getb_splice by lia.
  destruct (Z.leb_spec i j), (Z.ltb_spec j (i + blen d)),
    (Z.leb_spec i (j + 1)), (Z.ltb_spec (j + 1) (i + blen d)); cbn; try done; lia.
Qed.
Lemma be16_splice_same p i v :
  0 <= i -> i + 2 <= blen p -> be16 (splice p i (net16 v)) i = u16 v.
Proof.
  intros. unfold be16. rewrite !getb_splice by (rewrite ?blen_net16; lia).
  rewrite blen_net16.
  destruct (Z.leb_spec i i), (Z.ltb_spec i (i + 2)), (Z.leb_spec i (i + 1)),
    (Z.ltb_spec (i + 1) (i + 2)); try lia.
  cbn [andb]. rewrite Z.sub_diag. replace (i + 1 - i) with 1 by lia.
  change (getb (net16 v) 0) with (u8 (v / 256)).
  change (getb (net16 v) 1) with (u8 v). apply net16_value.
Qed.
Lemma getb_splice_other p i d j :
  0 <= i -> i + blen d <= blen p -> 0 <= j -> j < i \/ i + blen d <= j ->
  getb (splice p i d) j = getb p j.
Proof.
  intros. pose proof (blen_nonneg d). rewrite getb_splice by lia.
  destruct (Z.leb_spec i j), (Z.ltb_spec j (i + blen d)); cbn; try done; lia.
Qed.
Lemma getb_splice_8 p i v : 0 <= i < blen p -> getb (splice p i [u8 v]) i = u8 v.
Proof.
  intros. rewrite getb_splice by (unfold blen in *; cbn; lia).
  change (blen [u8 v]) with 1.
  destruct (Z.leb_spec i i), (Z.ltb_spec i (i + 1)); try lia.
  cbn [andb]. rewrite Z.sub_diag. done.
Qed.

Lemma field_splice_in p i d n :
  0 <= i -> i + blen d <= n -> n <= blen p ->
  field (splice p i d) 0 n = splice (field p 0 n) i d.
Proof.
  intros. pose proof (blen_nonneg d). apply buffer_ext.
  - rewrite blen_splice by (rewrite ?blen_field; lia).
    rewrite !blen_field by (rewrite ?blen_splice; lia). done.
  - intros k Hk. rewrite blen_field in Hk by (rewrite ?blen_splice; lia).
    rewrite field_lookup by (rewrite ?blen_splice; lia).
    rewrite !getb_splice by (rewrite ?blen_field; lia).
    rewrite Z.add_0_l. destruct (_ && _); [done|]. by rewrite field_lookup by lia.
Qed.
Lemma field_splice_shift p i d o n :
  0 <= o -> o <= i -> i + blen d <= o + n -> o + n <= blen p ->
  field (splice p i d) o n = splice (field p o n) (i - o) d.
Proof.
  intros. pose proof (blen_nonneg d). apply buffer_ext.
  - rewrite blen_splice by (rewrite ?blen_field; lia).
    rewrite !blen_field by (rewrite ?blen_splice; lia). done.
  - intros k Hk. rewrite blen_field in Hk by (rewrite ?blen_splice; lia).
    rewrite field_lookup by (rewrite ?blen_splice; lia).
    rewrite !getb_splice by (rewrite ?blen_field; lia).
    replace ((i <=? o + k) && (o + k <? i + blen d))
      with ((i - o <=? k) && (k <? i - o + blen d)).
    + destruct (_ && _) eqn:E.
      * f_equal. lia.
      * by rewrite field_lookup by lia.
    + destruct (Z.leb_spec i (o + k)), (Z.ltb_spec (o + k) (i + blen d)),
        (Z.leb_spec (i - o) k), (Z.ltb_spec k (i - o + blen d)); try lia; done.
Qed.

(** Writing right after what was written so far. *)
Lemma splice_app p q i d :
  i = blen p -> blen d <= blen q -> splice (p ++ q) i d = (p ++ d) ++ drop (length d) q.
Proof.
  intros -> Hd. unfold splice, blen in *.
  rewrite take_app_length' by lia. rewrite <- app_assoc. f_equal. f_equal.
  rewrite Nat2Z.id, <- drop_drop, drop_app_length. done.
Qed.

Lemma field_all p n : n = blen p -> field p 0 n = p.
Proof. intros ->. unfold field, blen. rewrite Nat2Z.id. apply take_ge. cbn. lia. Qed.
Lemma field_app_l p q n : n = blen p -> field (p ++ q) 0 n = p.
Proof. intros ->. unfold field, blen. rewrite Nat2Z.id. apply take_app_length. Qed.

Lemma field_app_within p q i n : 0 <= i -> 0 <= n -> i + n <= blen p -> field (p ++ q) i n = field p i n.
Proof. intros. unfold field, blen in *. rewrite drop_app_le, take_app_le by (rewrite ?length_drop; lia). done. Qed.
Lemma field_app_past p q i n : blen p <= i -> field (p ++ q) i n = field q (i - blen p) n.
Proof. intros. unfold field, blen in *. rewrite drop_app_ge by lia. do 2 f_equal. lia. Qed.
Lemma field_app_across p q i k n :
  0 <= i -> 0 <= k -> i + k = blen p -> 0 <= n -> field (p ++ q) i (k + n) = field p i k ++ field q 0 n.
Proof.
  intros. unfold field, blen in *. rewrite drop_app_le by lia. rewrite (take_ge (drop _ p)) by (rewrite length_drop; lia).
  rewrite take_app_ge by (rewrite length_drop; lia). f_equal. cbn. f_equal. rewrite length_drop. lia.
Qed.
Lemma field_split p i k n : 0 <= i -> 0 <= k <= n -> field p i n = field p i k ++ field p (i + k) (n - k).
Proof.
  intros. unfold field. rewrite <- (take_drop (Z.to_nat k) (take (Z.to_nat n) _)) at 1. rewrite take_take, skipn_firstn_comm, drop_drop.
  f_equal; f_equal; [lia|lia|f_equal; lia].
Qed.
Lemma field_none p i n : n <= 0 -> field p i n = [].
Proof. intros. unfold field. replace (Z.to_nat n) with 0%nat by lia. done. Qed.
Lemma splice_nil p i : splice p i [] = p.
Proof. unfold splice. cbn. rewrite Nat.add_0_r. apply take_drop. Qed.
(** two writes, the second behind the first *)
Lemma splice_seq p i d e : 0 <= i -> i + blen d <= blen p -> splice (splice p i d) (i + blen d) e = splice p i (d ++ e).
Proof.
  intros. unfold splice, blen in *. rewrite (app_assoc (take (Z.to_nat i) p) d).
  assert (El : length (take (Z.to_nat i) p ++ d) = (Z.to_nat i + length d)%nat) by (rewrite length_app, length_take; lia).
  replace (Z.to_nat (i + Z.of_nat (length d))) with (Z.to_nat i + length d)%nat by lia.
  rewrite take_app_length' by done. rewrite <- !app_assoc. do 3 f_equal.
  rewrite <- drop_drop, app_assoc, (drop_app_length' (take _ p ++ d)) by done. rewrite drop_drop, length_app. f_equal. lia.
Qed.

Lemma CMP_IPV4_spec a b : CMP_IPV4 a b = true <-> a = b.
Proof. unfold CMP_IPV4. apply bool_decide_eq_true. Qed.
Lemma CMP_MAC_spec a b : CMP_MAC a b = true <-> a = b.
Proof. unfold CMP_MAC. apply bool_decide_eq_true. Qed.
Lemma CMP_IPV4_false a b : CMP_IPV4 a b = false <-> a <> b.
Proof. unfold CMP_IPV4. apply bool_decide_eq_false. Qed.
Lemma CMP_MAC_false a b : CMP_MAC a b = false <-> a <> b.
Proof. unfold CMP_MAC. apply bool_decide_eq_false. Qed.

(** concrete bytes *)
Lemma sample_bytes l : forallb (fun b => (0 <=? b) && (b <? 256)) l = true -> bytes l.
Proof. rewrite forallb_forall, Forall_forall. intros H x Hx. specialize (H x Hx). unfold is_byte. bool_lia. lia. Qed.
