(* ===== verification/Text.v ===== *)
(** * Text: strings of the sources

    A [std::string] is the list of its bytes.  What the sources use of it:
    [find] of a character, [substr], and comparison with literals.  [Utf8] is
    the encoding of text that JavaScript and Qt convert from and to. *)

From stdpp Require Import strings.
From S2P Require Import Prelude Bytes.

#[local] Open Scope Z_scope.

(** the bytes of a string literal *)
Definition text (s : string) : list Z := map (fun c => Z.of_nat (Ascii.nat_of_ascii c)) (String.list_ascii_of_string s).

(** [std::string::find] of a character *)
Fixpoint find_from (s : list Z) (c : Z) (i : Z) : option Z :=
  match s with
  | [] => None
  | b :: s => if b =? c then Some i else find_from s c (i + 1)
  end.
Definition find (s : list Z) (c : Z) : option Z := find_from s c 0.

(** [s.substr(i)] and [s.substr(0, i)], for [i] up to the length *)
Definition substr_from (s : list Z) (i : Z) : list Z := drop (Z.to_nat i) s.
Definition substr_to (s : list Z) (i : Z) : list Z := take (Z.to_nat i) s.

(** the characters up to the first NUL: [%.*s], and a string given to C *)
Fixpoint until_nul (l : list Z) : list Z :=
  match l with [] => [] | b :: l => if b =? 0 then [] else b :: until_nul l end.

(** the string of C++ bytes given to C *)
Definition c_str (s : list Z) : string :=
  String.string_of_list_ascii (map (fun b => Ascii.ascii_of_nat (Z.to_nat b)) (until_nul s)).

Definition eqs (s : list Z) (l : string) : bool := bool_decide (s = text l).

(** ** Bytes one by one *)

(** a property of all 256 bytes, by trying them *)
Lemma byte_cases (P : Z -> bool) : forallb P (map Z.of_nat (seq 0 256)) = true -> forall b, is_byte b -> P b = true.
Proof.
  intros H b Hb. rewrite forallb_forall in H. apply H. apply in_map_iff. exists (Z.to_nat b).
  unfold is_byte in Hb. split; [lia|]. apply in_seq. lia.
Qed.
Lemma below_cases (n : nat) (P : Z -> bool) : forallb P (map Z.of_nat (seq 0 n)) = true -> forall b, 0 <= b < Z.of_nat n -> P b = true.
Proof.
  intros H b Hb. rewrite forallb_forall in H. apply H. apply in_map_iff. exists (Z.to_nat b).
  split; [lia|]. apply in_seq. lia.
Qed.

(** ** [find] *)

Lemma find_from_none s c : forall i, find_from s c i = None <-> ~ In c s.
Proof.
  induction s as [|b s IH]; intros i; cbn; [tauto|]. destruct (Z.eqb_spec b c) as [->|Hne].
  - split; [done|]. intros H. destruct H. by left.
  - rewrite IH. tauto.
Qed.
Lemma find_from_some s c : forall i j, find_from s c i = Some j ->
  exists a b, s = a ++ c :: b /\ j = i + blen a /\ ~ In c a.
Proof.
  induction s as [|x s IH]; intros i j; cbn; [done|]. destruct (Z.eqb_spec x c) as [->|Hne].
  - intros [= <-]. exists [], s. split_and!; [done|unfold blen; cbn; lia|auto].
  - intros H. destruct (IH _ _ H) as (a & b & -> & -> & Ha). exists (x :: a), b.
    split_and!; [done|unfold blen; cbn [length]; lia|]. cbn. tauto.
Qed.
Lemma find_from_app a c b : ~ In c a -> forall i, find_from (a ++ c :: b) c i = Some (i + blen a).
Proof.
  induction a as [|x a IH]; intros Hn i; cbn.
  - rewrite Z.eqb_refl. f_equal. unfold blen. cbn. lia.
  - cbn in Hn. destruct (Z.eqb_spec x c); [tauto|]. rewrite IH by tauto. f_equal. unfold blen. cbn [length]. lia.
Qed.

(** ** UTF-8 *)

Module Utf8.
Definition encode_char (c : Z) : list Z :=
  if c <? 128 then [c] else
  if c <? 2048 then [192 + c / 64; 128 + c mod 64] else
  if c <? 65536 then [224 + c / 4096; 128 + c / 64 mod 64; 128 + c mod 64] else
  [240 + c / 262144; 128 + c / 4096 mod 64; 128 + c / 64 mod 64; 128 + c mod 64].
Definition encode (s : list Z) : list Z := flat_map encode_char s.

Definition within (lo hi b : Z) : bool := (lo <=? b) && (b <=? hi).
Definition replacement : Z := 65533.

(** every maximal ill-formed part is replaced, as the Encoding Standard has it *)
Fixpoint decode (l : list Z) : list Z :=
  match l with
  | [] => []
  | b :: r =>
      if b <? 128 then b :: decode r else
      if within 194 223 b then
        match r with
        | c :: r1 => if within 128 191 c then ((b - 192) * 64 + (c - 128)) :: decode r1 else replacement :: decode r
        | [] => [replacement]
        end
      else if within 224 239 b then
        match r with
        | c :: r1 =>
            if within (if b =? 224 then 160 else 128) (if b =? 237 then 159 else 191) c then
              match r1 with
              | d :: r2 =>
                  if within 128 191 d then ((b - 224) * 4096 + (c - 128) * 64 + (d - 128)) :: decode r2
                  else replacement :: decode r1
              | [] => [replacement]
              end
            else replacement :: decode r
        | [] => [replacement]
        end
      else if within 240 244 b then
        match r with
        | c :: r1 =>
            if within (if b =? 240 then 144 else 128) (if b =? 244 then 143 else 191) c then
              match r1 with
              | d :: r2 =>
                  if within 128 191 d then
                    match r2 with
                    | e :: r3 =>
                        if within 128 191 e
                        then ((b - 240) * 262144 + (c - 128) * 4096 + (d - 128) * 64 + (e - 128)) :: decode r3
                        else replacement :: decode r2
                    | [] => [replacement]
                    end
                  else replacement :: decode r1
              | [] => [replacement]
              end
            else replacement :: decode r
        | [] => [replacement]
        end
      else replacement :: decode r
  end.

(** a code point that text may contain *)
Definition scalar (c : Z) : Prop := 0 <= c < 55296 \/ 57344 <= c < 1114112.

Lemma within_true lo hi b : lo <= b <= hi -> within lo hi b = true.
Proof. unfold within. intros. apply andb_true_iff. split; apply Z.leb_le; lia. Qed.
Lemma within_false lo hi b : ~ lo <= b <= hi -> within lo hi b = false.
Proof. unfold within. intros. apply andb_false_iff. destruct (Z.leb_spec lo b); [right|by left]. apply Z.leb_gt. lia. Qed.

Lemma decode_char c rest : scalar c -> decode (encode_char c ++ rest) = c :: decode rest.
Proof.
  intros Hc. unfold scalar in Hc. unfold encode_char.
  destruct (Z.ltb_spec c 128) as [H|H]; [cbn [app decode]; by destruct (Z.ltb_spec c 128); [|lia]|].
  destruct (Z.ltb_spec c 2048) as [H1|H1]; [|destruct (Z.ltb_spec c 65536) as [H2|H2]]; cbn [app decode].
  - destruct (Z.ltb_spec (192 + c / 64) 128); [Z.div_mod_to_equations; lia|].
    rewrite !within_true by (Z.div_mod_to_equations; lia). f_equal. Z.div_mod_to_equations; lia.
  - destruct (Z.ltb_spec (224 + c / 4096) 128); [Z.div_mod_to_equations; lia|].
    rewrite within_false, within_true by (Z.div_mod_to_equations; lia).
    rewrite within_true by (destruct (Z.eqb_spec (224 + c / 4096) 224), (Z.eqb_spec (224 + c / 4096) 237); Z.div_mod_to_equations; lia).
    rewrite within_true by (Z.div_mod_to_equations; lia). f_equal. Z.div_mod_to_equations; lia.
  - destruct (Z.ltb_spec (240 + c / 262144) 128); [Z.div_mod_to_equations; lia|].
    rewrite within_false, (within_false 224), within_true by (Z.div_mod_to_equations; lia).
    rewrite within_true by (destruct (Z.eqb_spec (240 + c / 262144) 240), (Z.eqb_spec (240 + c / 262144) 244); Z.div_mod_to_equations; lia).
    rewrite !within_true by (Z.div_mod_to_equations; lia). f_equal. Z.div_mod_to_equations; lia.
Qed.
Lemma utf8_round_trip s : Forall scalar s -> decode (encode s) = s.
Proof.
  induction 1 as [|c s Hc Hs IH]; [done|]. unfold encode. cbn [flat_map]. fold (encode s).
  by rewrite decode_char, IH.
Qed.
End Utf8.
