(* ===== verification/Checksum.v ===== *)
(** * Internet checksums

    The four checksum routines of the relay: [ipv4_header_checksum] and
    [udp_checksum] of src/src/lan-play.c, [calc_checksum] and
    [calc_payload_checksum] of src/src/ipv4/ipv4.c, and the address rewriting
    that uses them.  The reference is the one's complement sum of RFC 1071 on
    a list of bytes ([wsum], [ones], [csum]). *)
From S2P Require Import Prelude Bytes.

Definition IPV4_HEADER_LEN : Z := 20.
Definition IPV4_OFF_VER_LEN : Z := 0.
Definition IPV4_OFF_TOTAL_LEN : Z := 2.
Definition IPV4_OFF_ID : Z := 4.
Definition IPV4_OFF_FLAGS_FRAG_OFFSET : Z := 6.
Definition IPV4_OFF_TTL : Z := 8.
Definition IPV4_OFF_PROTOCOL : Z := 9.
Definition IPV4_OFF_CHECKSUM : Z := 10.
Definition IPV4_OFF_SRC : Z := 12.
Definition IPV4_OFF_DST : Z := 16.
Definition IPV4_PROTOCOL_ICMP : Z := 1.
Definition IPV4_PROTOCOL_UDP : Z := 17.

(** ** The routines *)

(** [while (sum >> 16) sum = (sum & 0xffff) + (sum >> 16);] *)
Fixpoint fold_carry (fuel : nat) (sum : Z) : outcome Z :=
  if Z.shiftr sum 16 =? 0 then Ok sum else
  match fuel with
  | O => Stop OutOfFuel
  | S fuel => fold_carry fuel (u32 (Z.land sum 65535 + Z.shiftr sum 16))
  end.

(** the [n] iterations of a loop that adds the 16-bit words from [p] on *)
Fixpoint add_words (n : nat) (p : list Z) (sum : Z) : outcome Z :=
  match n with
  | O => Ok sum
  | S n =>
      try hi := READ_NET8 p 0 in
      try lo := READ_NET8 p 1 in
      add_words n (ptr p 2) (u32 (sum + Z.lor (Z.shiftl hi 8) lo))
  end.

Definition checksum_add_bytes (sum : Z) (p : list Z) (len : Z) : outcome Z :=
  let n := Z.to_nat (len / 2) in
  try sum := add_words n p sum in
  if len mod 2 =? 0 then Ok sum else
  try last := READ_NET8 (ptr p (2 * Z.of_nat n)) 0 in
  Ok (u32 (sum + Z.shiftl last 8)).

(** [for (i = 0; i + 1 < len; i += 2) sum += (packet[i] << 8) | packet[i + 1];] *)
Fixpoint index_words (n : nat) (packet : list Z) (i sum : Z) : outcome Z :=
  match n with
  | O => Ok sum
  | S n =>
      try hi := READ_NET8 packet i in
      try lo := READ_NET8 packet (i + 1) in
      index_words n packet (i + 2) (u32 (sum + Z.lor (Z.shiftl hi 8) lo))
  end.

Definition ipv4_header_checksum (packet : list Z) (len : Z) : outcome Z :=
  try sum := index_words (Z.to_nat (len / 2)) packet 0 0 in
  try sum := (if Z.land len 1 =? 0 then Ok sum else
              try last := READ_NET8 packet (len - 1) in
              Ok (u32 (sum + Z.shiftl last 8))) in
  try sum := fold_carry 2 sum in
  Ok (u16 (Z.lnot sum)).

Definition udp_checksum (ip : list Z) (header_len total_len : Z) : outcome Z :=
  let udp := ptr ip header_len in
  let udp_len := total_len - header_len in
  try sum := checksum_add_bytes 0 (ptr ip IPV4_OFF_SRC) 8 in
  let sum := u32 (sum + IPV4_PROTOCOL_UDP) in
  let sum := u32 (sum + u16 udp_len) in
  try sum := checksum_add_bytes sum udp udp_len in
  try sum := fold_carry 2 sum in
  let result := u16 (Z.lnot sum) in
  Ok (if result =? 0 then 65535 else result).

Definition rewrite_ipv4_addresses (ip : list Z) (captured_len : Z) (src dst : list Z)
    : outcome (bool * list Z) :=
  if captured_len <? IPV4_HEADER_LEN then Ok (false, ip) else
  try ver_len := READ_NET8 ip IPV4_OFF_VER_LEN in
  let header_len := Z.land ver_len 15 * 4 in
  try total_len := READ_NET16 ip IPV4_OFF_TOTAL_LEN in
  if (header_len <? IPV4_HEADER_LEN) || (captured_len <? header_len) ||
     (total_len <? header_len) || (captured_len <? total_len) then Ok (false, ip) else
  try ip := wrn ip IPV4_OFF_SRC src in
  try ip := wrn ip IPV4_OFF_DST dst in
  try ip := WRITE_NET16 ip IPV4_OFF_CHECKSUM 0 in
  try sum := ipv4_header_checksum ip header_len in
  try ip := WRITE_NET16 ip IPV4_OFF_CHECKSUM sum in
  try protocol := READ_NET8 ip IPV4_OFF_PROTOCOL in
  if (protocol =? IPV4_PROTOCOL_UDP) && (header_len + 8 <=? total_len) then
    try ip := WRITE_NET16 ip (header_len + 6) 0 in
    try sum := udp_checksum ip header_len total_len in
    try ip := WRITE_NET16 ip (header_len + 6) sum in
    Ok (true, ip)
  else Ok (true, ip).

(** [while (sum > 0xffff) sum -= 0xffff;] *)
Fixpoint sub_ffff (fuel : nat) (sum : Z) : outcome Z :=
  if sum <=? 65535 then Ok sum else
  match fuel with
  | O => Stop OutOfFuel
  | S fuel => sub_ffff fuel (sum - 65535)
  end.

Definition calc_checksum (buffer : list Z) (len : Z) : outcome Z :=
  let n := Z.to_nat (Z.max 0 len / 2) in
  try sum := add_words n buffer 0 in
  let left := len - 2 * Z.of_nat n in
  try sum := (if left =? 0 then Ok sum else
              try last := READ_NET8 (ptr buffer (2 * Z.of_nat n)) 0 in
              Ok (u32 (sum + last))) in
  try sum := sub_ffff (Z.to_nat (sum / 65535)) sum in
  Ok (u16 (Z.lnot sum)).

(** [struct payload]: a chain of parts, each a pointer and a length *)
Record payload := mkPayload { pl_ptr : list Z; pl_len : Z }.

(** the bytes a part sends when its length is what it points to *)
Definition part (d : list Z) : payload := mkPayload d (blen d).

Fixpoint payload_sum (parts : list payload) (offset sum : Z) : outcome Z :=
  match parts with
  | [] => Ok sum
  | p :: rest =>
      let buf := ptr (pl_ptr p) (2 * offset) in
      let len := pl_len p - offset in
      let n := Z.to_nat (Z.max 0 len / 2) in
      try sum := add_words n buf sum in
      let buf := ptr buf (2 * Z.of_nat n) in
      let len := len - 2 * Z.of_nat n in
      if len =? 0 then payload_sum rest 0 sum else
      try hi := READ_NET8 buf 0 in
      match rest with
      | next :: _ =>
          try lo := READ_NET8 (pl_ptr next) 0 in
          payload_sum rest 1 (u32 (sum + Z.lor (Z.shiftl hi 8) lo))
      | [] => payload_sum rest 1 (u32 (sum + Z.shiftl hi 8))
      end
  end.

Definition calc_payload_checksum (parts : list payload) : outcome Z :=
  try sum := payload_sum parts 0 0 in
  try sum := sub_ffff (Z.to_nat (sum / 65535)) sum in
  Ok (u16 (Z.lnot sum)).

(** ** Reference: RFC 1071 *)

Fixpoint wsum (l : list Z) : Z :=
  match l with
  | [] => 0
  | [a] => a * 256
  | a :: b :: l => a * 256 + b + wsum l
  end.

(** the value of a sum in one's complement arithmetic on 16 bits *)
Definition ones (s : Z) : Z := if s =? 0 then 0 else (s - 1) mod 65535 + 1.

Definition csum (l : list Z) : Z := 65535 - ones (wsum l).

(** ** Lemmas *)

Lemma land_word hi lo : is_byte lo -> Z.land lo (hi * 256) = 0.
Proof.
  unfold is_byte. intros Hlo. apply Z.bits_inj'. intros n Hn.
  rewrite Z.land_spec, Z.bits_0. change 256 with (2 ^ 8).
  destruct (Z.ltb_spec n 8).
  - by rewrite Z.mul_pow2_bits_low, andb_false_r by lia.
  - rewrite <- (Z.mod_small lo (2 ^ 8)) by lia.
    by rewrite Z.mod_pow2_bits_high by lia.
Qed.
Lemma lor_word hi lo : is_byte lo -> Z.lor (Z.shiftl hi 8) lo = hi * 256 + lo.
Proof.
  intros Hlo. rewrite Z.lor_comm, Z.shiftl_mul_pow2 by lia. change (2 ^ 8) with 256.
  rewrite <- Z.lxor_lor, <- Z.add_nocarry_lxor by auto using land_word. lia.
Qed.

Lemma u32_add_l a b : u32 (u32 a + b) = u32 (a + b).
Proof. unfold u32. by rewrite Z.add_mod_idemp_l by lia. Qed.

Lemma wsum_nonneg l : bytes l -> 0 <= wsum l.
Proof.
  revert l. fix IH 1. intros [|a [|b l]] H; cbn [wsum]; [lia| |].
  - inversion H; subst. unfold is_byte in *. lia.
  - inversion H as [|? ? Ha H']; subst. inversion H' as [|? ? Hb Hl]; subst.
    specialize (IH l Hl). unfold is_byte in *. lia.
Qed.
Lemma wsum_bound l : bytes l -> wsum l <= 32768 * (blen l + 1).
Proof.
  revert l. fix IH 1. intros [|a [|b l]] H; cbn [wsum].
  - unfold blen; cbn; lia.
  - inversion H; subst. unfold is_byte, blen in *. cbn [length]. lia.
  - inversion H as [|? ? Ha H']; subst. inversion H' as [|? ? Hb Hl]; subst.
    specialize (IH l Hl). unfold is_byte, blen in *. cbn [length]. lia.
Qed.
Lemma wsum_app p q : Z.even (blen p) = true -> wsum (p ++ q) = wsum p + wsum q.
Proof.
  revert p. fix IH 1. intros [|a [|b p]] H.
  - done.
  - done.
  - cbn [app wsum]. rewrite IH; [lia|].
    rewrite !blen_cons in H. rewrite <- H.
    replace (1 + (1 + blen p)) with (blen p + 2 * 1) by lia.
    by rewrite Z.even_add_mul_2.
Qed.

Lemma field_cons2 p n :
  0 <= n -> 2 + n <= blen p ->
  field p 0 (2 + n) = getb p 0 :: getb p 1 :: field (ptr p 2) 0 n.
Proof.
  intros Hn Hl. unfold field. rewrite Z2Nat.inj_add by lia.
  destruct p as [|a [|b p]]; unfold blen in Hl; cbn in Hl; [lia|lia|]. done.
Qed.

Lemma add_words_ok n p sum :
  bytes p -> 2 * Z.of_nat n <= blen p -> 0 <= sum < 4294967296 ->
  add_words n p sum = Ok (u32 (sum + wsum (field p 0 (2 * Z.of_nat n)))).
Proof.
  revert p sum. induction n as [|n IH]; intros p sum Hb Hl Hs.
  - cbn. by rewrite Z.add_0_r, u32_small by lia.
  - cbn [add_words]. rewrite !READ_NET8_ok by lia. cbn [obind].
    rewrite lor_word by auto with relay.
    rewrite IH; [|auto with relay|rewrite blen_ptr; lia|apply u32_bound].
    rewrite u32_add_l. do 2 f_equal.
    replace (2 * Z.of_nat (S n)) with (2 + 2 * Z.of_nat n) by lia.
    rewrite field_cons2 by lia. cbn [wsum]. lia.
Qed.

Lemma index_words_ptr n p i sum :
  0 <= i -> i + 2 * Z.of_nat n <= blen p ->
  index_words n p i sum = add_words n (ptr p i) sum.
Proof.
  revert i sum. induction n as [|n IH]; intros i sum Hi Hl; [done|].
  cbn [index_words add_words].
  rewrite !READ_NET8_ok by (rewrite ?blen_ptr; lia). cbn [obind].
  rewrite IH by lia. rewrite !getb_ptr, ptr_ptr, Z.add_0_r by lia. done.
Qed.

Lemma field_odd p n :
  0 <= n -> n + 1 <= blen p -> field p 0 (n + 1) = field p 0 n ++ [getb p n].
Proof.
  intros Hn Hl. unfold field, getb, blen in *. rewrite !drop_0.
  rewrite nth_lookup. destruct (p !! Z.to_nat n) eqn:E.
  - replace (Z.to_nat (n + 1)) with (S (Z.to_nat n)) by lia.
    by rewrite (take_S_r _ _ z).
  - apply lookup_ge_None in E. lia.
Qed.

Lemma wsum_odd p n :
  bytes p -> 0 <= n -> Z.even n = true -> n + 1 <= blen p ->
  wsum (field p 0 (n + 1)) = wsum (field p 0 n) + getb p n * 256.
Proof.
  intros. rewrite field_odd by lia. rewrite wsum_app.
  - done.
  - rewrite blen_field by lia. done.
Qed.

Lemma half_split n : 0 <= n -> n = 2 * Z.of_nat (Z.to_nat (n / 2)) + n mod 2.
Proof. intros. rewrite Z2Nat.id by (apply Z.div_pos; lia). apply Z.div_mod. lia. Qed.

Lemma even_twice k : Z.even (2 * k) = true.
Proof. rewrite Z.even_mul. done. Qed.

Lemma checksum_add_bytes_ok sum p len :
  bytes p -> 0 <= len <= blen p -> 0 <= sum < 4294967296 ->
  checksum_add_bytes sum p len = Ok (u32 (sum + wsum (field p 0 len))).
Proof.
  intros Hb Hl Hs. unfold checksum_add_bytes.
  pose proof (half_split len ltac:(lia)) as Hh.
  pose proof (Z.mod_pos_bound len 2 ltac:(lia)) as Hm.
  set (n := Z.to_nat (len / 2)) in *.
  rewrite add_words_ok by (auto || lia). cbn [obind].
  destruct (Z.eqb_spec (len mod 2) 0) as [E|E].
  - by replace len with (2 * Z.of_nat n) by lia.
  - rewrite READ_NET8_ok by (rewrite blen_ptr; lia). cbn [obind].
    rewrite u32_add_l, getb_ptr, Z.add_0_r, Z.shiftl_mul_pow2 by lia.
    replace (field p 0 len) with (field p 0 (2 * Z.of_nat n + 1)) by (f_equal; lia).
    rewrite wsum_odd by (auto using even_twice || lia). do 2 f_equal. lia.
Qed.

(** *** One's complement values *)

Lemma ones_range s : 0 <= s -> 0 <= ones s <= 65535.
Proof.
  intros. unfold ones. destruct (Z.eqb_spec s 0); [lia|].
  pose proof (Z.mod_pos_bound (s - 1) 65535 ltac:(lia)). lia.
Qed.
Lemma ones_small s : 0 <= s <= 65535 -> ones s = s.
Proof.
  intros. unfold ones. destruct (Z.eqb_spec s 0); [lia|].
  rewrite Z.mod_small by lia. lia.
Qed.
Lemma ones_sub s k : 0 < s -> 0 < s + 65535 * k -> ones (s + 65535 * k) = ones s.
Proof.
  intros. unfold ones.
  destruct (Z.eqb_spec s 0), (Z.eqb_spec (s + 65535 * k) 0); try lia.
  replace (s + 65535 * k - 1) with (s - 1 + k * 65535) by lia.
  by rewrite Z.mod_add by lia.
Qed.
(** adding the complement of a sum to it gives minus zero *)
Lemma ones_complement s : 0 <= s -> ones (s + (65535 - ones s)) = 65535.
Proof.
  intros Hs. unfold ones at 2. destruct (Z.eqb_spec s 0) as [->|Hn]; [done|].
  pose proof (Z.div_mod (s - 1) 65535 ltac:(lia)) as Hd.
  pose proof (Z.mod_pos_bound (s - 1) 65535 ltac:(lia)) as Hb.
  set (r := (s - 1) mod 65535) in *. set (q := (s - 1) / 65535) in *.
  replace (s + (65535 - (r + 1))) with (65535 + 65535 * q) by lia.
  apply Z.eq_trans with (ones 65535); [|done]. apply ones_sub; lia.
Qed.

Lemma fold_carry_stop f s : 0 <= s < 65536 -> fold_carry f s = Ok s.
Proof.
  intros. assert (Hz : Z.shiftr s 16 = 0).
  { rewrite Z.shiftr_div_pow2 by lia. apply Z.div_small. lia. }
  destruct f; cbn [fold_carry]; by rewrite Hz.
Qed.
Lemma fold_carry_step f s :
  65536 <= s < 4294967296 -> fold_carry (S f) s = fold_carry f (s mod 65536 + s / 65536).
Proof.
  intros Hs. cbn [fold_carry].
  change 65535 with (Z.ones 16). rewrite Z.land_ones, Z.shiftr_div_pow2 by lia.
  change (2 ^ 16) with 65536.
  pose proof (Z.div_mod s 65536 ltac:(lia)). pose proof (Z.mod_pos_bound s 65536 ltac:(lia)).
  destruct (Z.eqb_spec (s / 65536) 0); [lia|].
  rewrite u32_small by lia. done.
Qed.
Lemma fold_carry_ok s : 0 <= s < 4294967296 -> fold_carry 2 s = Ok (ones s).
Proof.
  intros Hs. destruct (Z.ltb_spec s 65536).
  { rewrite fold_carry_stop, ones_small by lia. done. }
  rewrite fold_carry_step by lia.
  pose proof (Z.div_mod s 65536 ltac:(lia)) as Hd.
  pose proof (Z.mod_pos_bound s 65536 ltac:(lia)) as Hm.
  set (q := s / 65536) in *. set (r := s mod 65536) in *.
  replace (ones s) with (ones (r + q)).
  2:{ replace s with (r + q + 65535 * q) by lia. symmetry. apply ones_sub; lia. }
  destruct (Z.ltb_spec (r + q) 65536).
  { rewrite fold_carry_stop, ones_small by lia. done. }
  rewrite fold_carry_step by lia.
  assert ((r + q) / 65536 = 1) as Hq by (symmetry; apply (Z.div_unique _ _ _ (r + q - 65536)); lia).
  assert ((r + q) mod 65536 = r + q - 65536) as Hr by (symmetry; apply (Z.mod_unique _ _ 1); lia).
  rewrite Hq, Hr, fold_carry_stop by lia. f_equal.
  replace (r + q) with (r + q - 65535 + 65535 * 1) at 2 by lia.
  rewrite ones_sub, ones_small by lia. lia.
Qed.

Lemma sub_ffff_ok f s : 0 <= s -> s / 65535 <= Z.of_nat f -> sub_ffff f s = Ok (ones s).
Proof.
  revert s. induction f as [|f IH]; intros s Hs Hf; cbn [sub_ffff].
  - pose proof (Z.div_mod s 65535 ltac:(lia)). pose proof (Z.mod_pos_bound s 65535 ltac:(lia)).
    destruct (Z.leb_spec s 65535); [|lia]. by rewrite ones_small by lia.
  - destruct (Z.leb_spec s 65535); [by rewrite ones_small by lia|].
    rewrite IH; [|lia|].
    + f_equal. replace s with (s - 65535 + 65535 * 1) at 2 by lia. symmetry. apply ones_sub; lia.
    + replace (s - 65535) with (s + -1 * 65535) by lia. rewrite Z.div_add by lia. lia.
Qed.

Lemma sub_ffff_total s : 0 <= s -> sub_ffff (Z.to_nat (s / 65535)) s = Ok (ones s).
Proof. intros. pose proof (Z.div_pos s 65535). apply sub_ffff_ok; lia. Qed.

Lemma lnot_16 s : 0 <= s <= 65535 -> u16 (Z.lnot s) = 65535 - s.
Proof.
  intros. unfold Z.lnot, u16. symmetry. apply (Z.mod_unique _ _ (-1)); lia.
Qed.

Lemma csum_bound l : bytes l -> 0 <= csum l <= 65535.
Proof. intros H. pose proof (ones_range (wsum l) (wsum_nonneg l H)). unfold csum. lia. Qed.

(** [ipv4_header_checksum] computes the reference checksum of the first [len]
    bytes: no 32-bit wrap-around for the lengths a frame can have. *)
Lemma wsum_small l : bytes l -> blen l <= 131070 -> 0 <= wsum l < 4294967296.
Proof. intros Hb Hl. pose proof (wsum_nonneg l Hb). pose proof (wsum_bound l Hb). lia. Qed.

Lemma ipv4_header_checksum_ok p len :
  bytes p -> 0 <= len <= blen p -> len <= 131070 ->
  ipv4_header_checksum p len = Ok (csum (field p 0 len)).
Proof.
  intros Hb Hl Hs. unfold ipv4_header_checksum.
  pose proof (half_split len ltac:(lia)) as Hh.
  pose proof (Z.mod_pos_bound len 2 ltac:(lia)) as Hm.
  set (n := Z.to_nat (len / 2)) in *.
  rewrite index_words_ptr, ptr_0, add_words_ok by (auto || lia). cbn [obind].
  assert (Hf : bytes (field p 0 len)) by auto with relay.
  pose proof (wsum_small (field p 0 len) Hf ltac:(rewrite blen_field; lia)) as Hw.
  replace (Z.land len 1) with (len mod 2) by (symmetry; apply (Z.land_ones len 1); lia).
  match goal with |- obind ?o _ = _ => assert (o = Ok (wsum (field p 0 len))) as -> end.
  { rewrite Z.add_0_l. destruct (Z.eqb_spec (len mod 2) 0) as [E|E].
    - replace (2 * Z.of_nat n) with len by lia. by rewrite u32_small by lia.
    - rewrite READ_NET8_ok by lia. cbn [obind].
      rewrite u32_add_l, Z.shiftl_mul_pow2 by lia.
      replace (field p 0 len) with (field p 0 (2 * Z.of_nat n + 1)) in * by (f_equal; lia).
      rewrite wsum_odd in * by (auto using even_twice || lia).
      replace (len - 1) with (2 * Z.of_nat n) by lia.
      by rewrite u32_small by lia. }
  cbn [obind]. rewrite fold_carry_ok by lia. cbn [obind].
  pose proof (ones_range (wsum (field p 0 len)) ltac:(lia)).
  by rewrite lnot_16 by lia.
Qed.

Lemma udp_checksum_ok ip hl tl :
  bytes ip -> 20 <= hl -> hl <= tl <= blen ip -> tl <= 65535 ->
  udp_checksum ip hl tl =
    Ok (let c := 65535 - ones (wsum (field ip 12 8) + 17 + (tl - hl) + wsum (field ip hl (tl - hl)))
        in if c =? 0 then 65535 else c).
Proof.
  intros Hb Hh Ht Hm. unfold udp_checksum, IPV4_OFF_SRC, IPV4_PROTOCOL_UDP.
  rewrite checksum_add_bytes_ok by (auto with relay || (rewrite ?blen_ptr; lia)). cbn [obind].
  rewrite checksum_add_bytes_ok by (auto with relay || (rewrite ?blen_ptr; lia) || apply u32_bound).
  cbn [obind]. rewrite !field_ptr, !Z.add_0_r, Z.add_0_l by lia.
  assert (H1 : bytes (field ip 12 8)) by auto with relay.
  assert (H2 : bytes (field ip hl (tl - hl))) by auto with relay.
  pose proof (wsum_nonneg _ H1). pose proof (wsum_nonneg _ H2).
  pose proof (wsum_bound _ H1) as B1. pose proof (wsum_bound _ H2) as B2.
  rewrite blen_field in B1, B2 by lia.
  rewrite !u32_add_l, u16_small, (u32_small (wsum _ + 17)), u32_small by lia.
  rewrite fold_carry_ok by lia. cbn [obind].
  set (s := wsum _ + 17 + _ + _) in *.
  pose proof (ones_range s ltac:(lia)). by rewrite lnot_16 by lia.
Qed.

(** Putting the complement of a sum in an even position of the summed bytes. *)
Lemma wsum_splice l i v :
  bytes l -> 0 <= i -> Z.even i = true -> i + 2 <= blen l ->
  wsum (splice l i (net16 v)) = wsum (splice l i (net16 0)) + u16 v.
Proof.
  intros Hb Hi He Hl. unfold splice, net16. cbn [length].
  assert (He' : Z.even (blen (take (Z.to_nat i) l)) = true).
  { replace (blen (take (Z.to_nat i) l)) with i; [done|].
    unfold blen in *. rewrite length_take. lia. }
  rewrite !(wsum_app (take _ _)) by done. cbn [app wsum].
  pose proof (net16_value v). pose proof (net16_value 0).
  change (u16 0) with 0 in *. lia.
Qed.

(** Data whose checksum field was set from the sum of the data with that field
    zero verifies: its checksum is zero. *)
Lemma csum_splice_valid z k :
  bytes z -> 0 <= k -> Z.even k = true -> k + 2 <= blen z ->
  csum (splice z k (net16 (csum (splice z k (net16 0))))) = 0.
Proof.
  intros Hb Hk He Hl. set (h := splice z k (net16 0)). unfold csum at 1.
  assert (Hz : bytes h) by (unfold h; auto with relay).
  rewrite wsum_splice by (auto; lia). fold h.
  pose proof (csum_bound h Hz). rewrite u16_small by lia.
  unfold csum. rewrite ones_complement by (by apply wsum_nonneg). lia.
Qed.
Lemma header_checksum_valid p hl :
  bytes p -> 20 <= hl <= blen p -> hl <= 65535 ->
  csum (field (splice p 10 (net16 (csum (field (splice p 10 (net16 0)) 0 hl)))) 0 hl) = 0.
Proof.
  intros Hb Hh Hm. rewrite !field_splice_in by (rewrite ?blen_net16; lia).
  apply csum_splice_valid; [auto with relay|lia|done|rewrite blen_field; lia].
Qed.

(** The same for the UDP checksum, which also covers the addresses: the sum as
    a function of the value in the checksum field. *)
Lemma udp_checksum_splice p hl tl v :
  bytes p -> 20 <= hl -> hl + 8 <= tl <= blen p -> tl <= 65535 ->
  udp_checksum (splice p (hl + 6) (net16 v)) hl tl =
    Ok (let c := 65535 - ones (wsum (field p 12 8) + 17 + (tl - hl)
                   + wsum (splice (field p hl (tl - hl)) 6 (net16 0)) + u16 v)
        in if c =? 0 then 65535 else c).
Proof.
  intros Hb Hh Ht Hm.
  rewrite udp_checksum_ok; [|auto with relay|done|rewrite blen_splice by (rewrite ?blen_net16; lia); lia|done].
  rewrite (field_splice_other p _ _ 12) by (rewrite ?blen_net16; lia).
  rewrite (field_splice_shift p) by (rewrite ?blen_net16; lia).
  replace (hl + 6 - hl) with 6 by lia.
  rewrite wsum_splice; [by rewrite Z.add_assoc|auto with relay|lia|done|rewrite blen_field; lia].
Qed.

Lemma udp_checksum_valid p hl tl c :
  bytes p -> 20 <= hl -> hl + 8 <= tl <= blen p -> tl <= 65535 ->
  udp_checksum (splice p (hl + 6) (net16 0)) hl tl = Ok c ->
  0 <= c <= 65535 /\
  udp_checksum (splice p (hl + 6) (net16 c)) hl tl = Ok 65535.
Proof.
  intros Hb Hh Ht Hm. rewrite !udp_checksum_splice by done.
  assert (Hz : bytes (splice (field p hl (tl - hl)) 6 (net16 0))) by auto with relay.
  assert (Ha : bytes (field p 12 8)) by auto with relay.
  pose proof (wsum_nonneg _ Hz). pose proof (wsum_nonneg _ Ha).
  set (s := wsum (field p 12 8) + 17 + (tl - hl) + _).
  assert (17 <= s) by lia. clearbody s. change (u16 0) with 0. rewrite Z.add_0_r. cbn beta zeta.
  pose proof (ones_range s ltac:(lia)) as Hr.
  destruct (Z.eqb_spec (65535 - ones s) 0) as [E|E]; intros [= <-].
  - split; [lia|]. change (u16 65535) with 65535.
    replace (s + 65535) with (s + 65535 * 1) by lia. rewrite ones_sub, E by lia. done.
  - split; [lia|]. rewrite u16_small, ones_complement by lia. done.
Qed.

Lemma splice_splice p i a b :
  0 <= i -> blen a = blen b -> i + blen a <= blen p -> splice (splice p i a) i b = splice p i b.
Proof.
  intros. apply buffer_ext.
  - rewrite !blen_splice; rewrite ?blen_splice; lia.
  - intros k Hk. rewrite !blen_splice in Hk by (rewrite ?blen_splice; lia).
    rewrite !getb_splice by (rewrite ?blen_splice; lia).
    replace (blen a) with (blen b) by lia. by destruct (_ && _).
Qed.

(** ** Address rewriting *)

Definition ihl (ip : list Z) : Z := Z.land (getb ip 0) 15 * 4.
Definition total_length (ip : list Z) : Z := be16 ip 2.

(** the checks of [rewrite_ipv4_addresses] *)
Definition rewritable (ip : list Z) (captured_len : Z) : Prop :=
  20 <= ihl ip /\ ihl ip <= total_length ip <= captured_len.

(** does [rewrite_ipv4_addresses] touch a UDP checksum? *)
Definition has_udp (ip : list Z) : Prop :=
  getb ip 9 = 17 /\ ihl ip + 8 <= total_length ip.

(** [ip'] is [ip] with new addresses and repaired checksums, and nothing else
    changed: what a receiver of the translated datagram relies on. *)
Record readdressed (ip ip' src dst : list Z) : Prop := {
  re_len : blen ip' = blen ip;
  re_bytes : bytes ip';
  re_src : field ip' 12 4 = src;
  re_dst : field ip' 16 4 = dst;
  re_header : ipv4_header_checksum ip' (ihl ip) = Ok 0;
  re_udp : has_udp ip -> udp_checksum ip' (ihl ip) (total_length ip) = Ok 65535;
  re_rest : forall i, 0 <= i < 10 \/ 20 <= i ->
    (has_udp ip -> i < ihl ip + 6 \/ ihl ip + 8 <= i) -> getb ip' i = getb ip i
}.

Lemma ihl_bound ip : 0 <= ihl ip <= 60.
Proof.
  unfold ihl. change 15 with (Z.ones 4). rewrite Z.land_ones by lia.
  pose proof (Z.mod_pos_bound (getb ip 0) (2 ^ 4) ltac:(lia)). lia.
Qed.

Section Rewrite.
Context (ip src dst : list Z) (cap : Z).
Context (Hip : bytes ip) (Hsrc : bytes src) (Hdst : bytes dst).
Context (Ls : blen src = 4) (Ld : blen dst = 4).
Context (Hcap : 20 <= cap <= blen ip) (Hmax : cap <= 65535).

Let addressed := splice (splice ip 12 src) 16 dst.

Lemma addressed_len : blen addressed = blen ip.
Proof. unfold addressed. rewrite !blen_splice; rewrite ?blen_splice; lia. Qed.
Lemma addressed_bytes : bytes addressed.
Proof. unfold addressed. auto with relay. Qed.
Lemma addressed_src : field addressed 12 4 = src.
Proof.
  unfold addressed. rewrite field_splice_other by (rewrite ?blen_splice; lia).
  apply field_splice_same; lia.
Qed.
Lemma addressed_dst : field addressed 16 4 = dst.
Proof. unfold addressed. apply field_splice_same; rewrite ?blen_splice; lia. Qed.
Lemma addressed_rest i : 0 <= i < 12 \/ 20 <= i -> getb addressed i = getb ip i.
Proof.
  intros. unfold addressed. rewrite !getb_splice_other; rewrite ?blen_splice; lia || done.
Qed.

Let headed := splice addressed 10 (net16 (csum (field (splice addressed 10 (net16 0)) 0 (ihl ip)))).

Lemma headed_len : blen headed = blen ip.
Proof. unfold headed. rewrite blen_splice; rewrite ?addressed_len, ?blen_net16; lia. Qed.
Lemma headed_bytes : bytes headed.
Proof. unfold headed. pose proof addressed_bytes. auto with relay. Qed.
Lemma headed_rest i : 0 <= i < 10 \/ 20 <= i -> getb headed i = getb ip i.
Proof.
  intros. unfold headed. pose proof addressed_len.
  rewrite getb_splice_other by (rewrite ?blen_net16; lia). apply addressed_rest. lia.
Qed.

Lemma readdressed_headed :
  20 <= ihl ip <= blen ip -> (has_udp ip -> udp_checksum headed (ihl ip) (total_length ip) = Ok 65535) ->
  readdressed ip headed src dst.
Proof.
  intros Hh Hu. pose proof addressed_len as Hl. pose proof addressed_bytes as Hb.
  pose proof (ihl_bound ip). split; try done.
  - apply headed_len.
  - apply headed_bytes.
  - unfold headed. rewrite field_splice_other by (rewrite ?blen_net16; lia). apply addressed_src.
  - unfold headed. rewrite field_splice_other by (rewrite ?blen_net16; lia). apply addressed_dst.
  - rewrite ipv4_header_checksum_ok by (rewrite ?headed_len; auto using headed_bytes; lia).
    unfold headed. rewrite header_checksum_valid by (auto; lia). done.
  - intros. apply headed_rest. lia.
Qed.
(** the guards, read off the buffer *)
Lemma rewrite_guards :
  (ihl ip <? 20) || (cap <? ihl ip) || (total_length ip <? ihl ip) || (cap <? total_length ip) = false
  <-> rewritable ip cap.
Proof.
  unfold rewritable. split.
  - intros. bool_lia. lia.
  - intros. rewrite !orb_false_iff, !Z.ltb_ge. lia.
Qed.

Lemma rewrite_header_steps :
  rewritable ip cap ->
  rewrite_ipv4_addresses ip cap src dst =
    if (getb ip 9 =? 17) && (ihl ip + 8 <=? total_length ip) then
      try q := WRITE_NET16 headed (ihl ip + 6) 0 in
      try sum := udp_checksum q (ihl ip) (total_length ip) in
      try q := WRITE_NET16 q (ihl ip + 6) sum in
      Ok (true, q)
    else Ok (true, headed).
Proof.
  intros Hr. unfold rewrite_ipv4_addresses, IPV4_HEADER_LEN, IPV4_OFF_VER_LEN, IPV4_OFF_TOTAL_LEN,
    IPV4_OFF_SRC, IPV4_OFF_DST, IPV4_OFF_CHECKSUM, IPV4_OFF_PROTOCOL, IPV4_PROTOCOL_UDP.
  destruct (Z.ltb_spec cap 20); [lia|].
  rewrite READ_NET8_ok, READ_NET16_ok by lia. cbn [obind].
  change (Z.land (getb ip 0) 15 * 4) with (ihl ip). change (be16 ip 2) with (total_length ip).
  rewrite (proj2 rewrite_guards Hr). destruct Hr as (H1 & H2 & H3).
  pose proof addressed_len as Hl. pose proof addressed_bytes as Hb. pose proof headed_len.
  rewrite (wrn_ok ip) by lia. cbn [obind].
  rewrite wrn_ok by (rewrite ?blen_splice; lia). cbn [obind]. fold addressed.
  rewrite WRITE_NET16_ok by lia. cbn [obind].
  rewrite ipv4_header_checksum_ok
    by (auto with relay || (rewrite ?blen_splice; rewrite ?blen_net16; lia)).
  cbn [obind].
  rewrite WRITE_NET16_ok by (rewrite ?blen_splice; rewrite ?blen_net16; lia). cbn [obind].
  rewrite splice_splice by (rewrite ?blen_net16; lia). fold headed.
  rewrite READ_NET8_ok by lia. cbn [obind]. by rewrite headed_rest by lia.
Qed.

Lemma rewrite_ok :
  rewritable ip cap ->
  exists ip', rewrite_ipv4_addresses ip cap src dst = Ok (true, ip') /\ readdressed ip ip' src dst.
Proof.
  intros Hr. rewrite rewrite_header_steps by done. destruct Hr as (H1 & H2 & H3).
  pose proof headed_len as Hl. pose proof headed_bytes as Hb. pose proof (ihl_bound ip).
  destruct (_ && _) eqn:E.
  2:{ eexists. split; [done|]. apply readdressed_headed; [lia|].
      intros [? ?]. exfalso. bool_lia; lia. }
  bool_lia. rewrite WRITE_NET16_ok by lia. cbn [obind].
  destruct (udp_checksum (splice headed (ihl ip + 6) (net16 0)) (ihl ip) (total_length ip))
    as [c|f] eqn:Ec; cycle 1.
  { rewrite udp_checksum_splice in Ec by (done || lia). done. }
  apply udp_checksum_valid in Ec as [Hc Hv]; [|done|lia..]. cbn [obind].
  rewrite WRITE_NET16_ok by (rewrite ?blen_splice; rewrite ?blen_net16; lia). cbn [obind].
  rewrite splice_splice by (rewrite ?blen_net16; lia). eexists. split; [done|].
  pose proof addressed_len. pose proof addressed_src. pose proof addressed_dst. split.
  - rewrite blen_splice; rewrite ?blen_net16; lia.
  - auto with relay.
  - rewrite field_splice_other by (rewrite ?blen_net16; lia). unfold headed.
    by rewrite field_splice_other by (rewrite ?blen_net16; lia).
  - rewrite field_splice_other by (rewrite ?blen_net16; lia). unfold headed.
    by rewrite field_splice_other by (rewrite ?blen_net16; lia).
  - rewrite ipv4_header_checksum_ok
      by (auto with relay || (rewrite ?blen_splice; rewrite ?blen_net16; lia)).
    rewrite field_splice_other by (rewrite ?blen_net16; lia).
    unfold headed. rewrite header_checksum_valid by (auto using addressed_bytes; lia). done.
  - done.
  - intros i Hi Hu. rewrite getb_splice_other; rewrite ?blen_net16; try lia.
    + apply headed_rest. lia.
    + destruct Hu; [split; done| |]; lia.
Qed.

Lemma rewrite_rejects :
  ~ rewritable ip cap -> rewrite_ipv4_addresses ip cap src dst = Ok (false, ip).
Proof.
  intros Hr. unfold rewrite_ipv4_addresses, IPV4_HEADER_LEN, IPV4_OFF_VER_LEN, IPV4_OFF_TOTAL_LEN.
  destruct (Z.ltb_spec cap 20); [done|].
  rewrite READ_NET8_ok, READ_NET16_ok by lia. cbn [obind].
  change (Z.land (getb ip 0) 15 * 4) with (ihl ip). change (be16 ip 2) with (total_length ip).
  rewrite <- rewrite_guards in Hr. by destruct (_ || _).
Qed.
End Rewrite.

Lemma rewrite_short ip cap src dst :
  cap < 20 -> rewrite_ipv4_addresses ip cap src dst = Ok (false, ip).
Proof. intros. unfold rewrite_ipv4_addresses, IPV4_HEADER_LEN. by destruct (Z.ltb_spec cap 20); [|lia]. Qed.

#[global] Instance rewritable_dec ip cap : Decision (rewritable ip cap).
Proof. unfold rewritable. apply _. Defined.

(** *** A datagram at the front of a larger buffer *)

Lemma getb_front p n i : 0 <= i < n -> n <= blen p -> getb (field p 0 n) i = getb p i.
Proof. intros. by rewrite field_lookup, Z.add_0_l by lia. Qed.
Lemma be16_front p n i : 0 <= i -> i + 2 <= n -> n <= blen p -> be16 (field p 0 n) i = be16 p i.
Proof. intros. unfold be16. by rewrite !getb_front by lia. Qed.
Lemma ihl_front p n : 0 < n <= blen p -> ihl (field p 0 n) = ihl p.
Proof. intros. unfold ihl. by rewrite getb_front by lia. Qed.
Lemma total_front p n : 4 <= n <= blen p -> total_length (field p 0 n) = total_length p.
Proof. intros. unfold total_length. by rewrite be16_front by lia. Qed.
Lemma field_front p n i m : 0 <= i -> 0 <= m -> i + m <= n -> n <= blen p -> field (field p 0 n) i m = field p i m.
Proof.
  intros. apply buffer_ext; [rewrite !blen_field; rewrite ?blen_field; lia|]. intros k Hk.
  rewrite blen_field in Hk by (rewrite ?blen_field; lia).
  rewrite !field_lookup by (rewrite ?blen_field; lia). by rewrite Z.add_0_l.
Qed.

Lemma readdressed_front ip ip' src dst n :
  bytes ip -> 20 <= n <= blen ip -> n <= 65535 -> rewritable ip n -> readdressed ip ip' src dst ->
  readdressed (field ip 0 n) (field ip' 0 n) src dst.
Proof.
  intros Hb Hn Hm (Hh & Ht1 & Ht2) [Hl Hb' Hs Hd Hck Hu Hrest].
  assert (Eu : has_udp (field ip 0 n) <-> has_udp ip).
  { unfold has_udp. by rewrite ihl_front, total_front, getb_front by lia. }
  split.
  - rewrite !blen_field by lia. done.
  - auto with relay.
  - by rewrite field_front by lia.
  - by rewrite field_front by lia.
  - rewrite ihl_front by lia. rewrite ipv4_header_checksum_ok in Hck |- * by (rewrite ?blen_field; auto with relay; lia).
    by rewrite field_front by lia.
  - rewrite Eu, ihl_front, total_front by lia. intros Hudp. specialize (Hu Hudp). destruct Hudp as [_ Hlen].
    rewrite udp_checksum_ok in Hu |- * by (rewrite ?blen_field; auto with relay; lia).
    by rewrite !field_front by lia.
  - intros i Hi Hx. rewrite ihl_front in Hx by lia. destruct (Z.ltb_spec i n).
    + rewrite !getb_front by lia. apply Hrest; [done|]. intros Hq. apply Hx, Eu, Hq.
    + unfold getb. rewrite !nth_overflow; [done|..]; unfold blen in *; pose proof (blen_field ip 0 n); pose proof (blen_field ip' 0 n);
        unfold blen in *; lia.
Qed.

(** ** The checksums of src/src/ipv4/ipv4.c *)

Lemma calc_checksum_sum p len :
  bytes p -> 0 <= len <= blen p -> len <= 131070 ->
  calc_checksum p len =
    Ok (if Z.even len then csum (field p 0 len)
        else 65535 - ones (wsum (field p 0 (len - 1)) + getb p (len - 1))).
Proof.
  intros Hb Hl Hs. unfold calc_checksum. rewrite Z.max_r by lia.
  pose proof (half_split len ltac:(lia)) as Hh. rewrite Zmod_even in Hh.
  set (n := Z.to_nat (len / 2)) in *. set (e := 2 * Z.of_nat n) in *.
  assert (e <= len <= e + 1) by (destruct (Z.even len); lia).
  rewrite add_words_ok by (auto || lia). cbn [obind]. fold e. rewrite Z.add_0_l.
  assert (Hf : bytes (field p 0 e)) by auto with relay.
  assert (Hbl : blen (field p 0 e) = e) by (rewrite blen_field; lia).
  pose proof (wsum_small _ Hf ltac:(lia)) as Hw. pose proof (wsum_bound _ Hf) as Hu.
  rewrite u32_small by lia. destruct (Z.even len) eqn:He.
  - replace (len - e) with 0 by lia. cbn [Z.eqb obind].
    rewrite sub_ffff_total by lia.
    cbn [obind]. pose proof (ones_range (wsum (field p 0 e)) ltac:(lia)).
    rewrite lnot_16 by lia. assert (e = len) as -> by lia. done.
  - replace (len - e) with 1 by lia. cbn [Z.eqb]. replace (len - 1) with e by lia.
    rewrite READ_NET8_ok by (rewrite blen_ptr; lia). cbn [obind].
    rewrite getb_ptr, Z.add_0_r by lia. pose proof (getb_byte p e Hb). unfold is_byte in *.
    rewrite u32_small by lia.
    rewrite sub_ffff_total by lia.
    cbn [obind]. pose proof (ones_range (wsum (field p 0 e) + getb p e) ltac:(lia)).
    by rewrite lnot_16 by lia.
Qed.

(** every part but the last has an even length *)
Fixpoint even_parts (parts : list (list Z)) : Prop :=
  match parts with
  | [] | [_] => True
  | p :: rest => Z.even (blen p) = true /\ even_parts rest
  end.

Lemma payload_sum_ok parts sum :
  Forall bytes parts -> even_parts parts ->
  0 <= sum -> sum + wsum (concat parts) < 4294967296 ->
  payload_sum (part <$> parts) 0 sum = Ok (sum + wsum (concat parts)).
Proof.
  revert sum. induction parts as [|p rest IH]; intros sum Hb He Hs Hw.
  - cbn. f_equal. lia.
  - inversion Hb as [|? ? Hp Hr]; subst. cbn [fmap list_fmap payload_sum concat] in *.
    cbn [pl_ptr pl_len part]. rewrite Z.mul_0_r, ptr_0, Z.sub_0_r.
    pose proof (blen_nonneg p). rewrite Z.max_r by lia.
    pose proof (half_split (blen p) ltac:(lia)) as Hh. rewrite Zmod_even in Hh.
    set (n := Z.to_nat (blen p / 2)) in *.
    assert (2 * Z.of_nat n <= blen p) by (destruct (Z.even (blen p)); lia).
    assert (Hcc : bytes (concat rest)) by (by apply Forall_concat).
    pose proof (wsum_nonneg _ Hcc).
    destruct (Z.even (blen p)) eqn:Hev.
    + rewrite wsum_app in * by done. pose proof (wsum_nonneg _ Hp).
      rewrite add_words_ok by (auto || lia). cbn [obind].
      rewrite field_all, u32_small by lia. replace (blen p - 2 * Z.of_nat n) with 0 by lia.
      cbn [Z.eqb]. destruct rest as [|q rest']; [cbn; f_equal; lia|].
      rewrite IH by (try apply He; done || lia). f_equal. lia.
    + destruct rest as [|q rest']; [|cbn in He; destruct He; congruence].
      cbn [concat] in *. rewrite app_nil_r in *.
      assert (Hps : wsum p = wsum (field p 0 (2 * Z.of_nat n)) + getb p (2 * Z.of_nat n) * 256).
      { rewrite <- wsum_odd by (auto using even_twice || lia). by rewrite field_all by lia. }
      pose proof (wsum_nonneg (field p 0 (2 * Z.of_nat n)) ltac:(auto with relay)).
      pose proof (getb_byte p (2 * Z.of_nat n) Hp). unfold is_byte in *.
      rewrite add_words_ok by (auto || lia). cbn [obind]. rewrite u32_small by lia.
      replace (blen p - 2 * Z.of_nat n) with 1 by lia. cbn [Z.eqb].
      rewrite READ_NET8_ok by (rewrite blen_ptr; lia). cbn [obind fmap list_fmap payload_sum].
      rewrite getb_ptr, Z.add_0_r, Z.shiftl_mul_pow2, u32_small by lia. f_equal. lia.
Qed.

Lemma calc_payload_checksum_ok parts :
  Forall bytes parts -> even_parts parts -> blen (concat parts) <= 131070 ->
  calc_payload_checksum (part <$> parts) = Ok (csum (concat parts)).
Proof.
  intros Hb He Hl. assert (Hc : bytes (concat parts)) by (by apply Forall_concat).
  pose proof (wsum_small _ Hc Hl). unfold calc_payload_checksum.
  rewrite payload_sum_ok by (done || lia). cbn [obind]. rewrite Z.add_0_l.
  rewrite sub_ffff_total by lia.
  cbn [obind]. pose proof (ones_range (wsum (concat parts)) ltac:(lia)).
  by rewrite lnot_16 by lia.
Qed.

(** ** Properties *)

(** C4. [rewrite_ipv4_addresses] never leaves the captured bytes.  It accepts
    exactly the datagrams whose header and total length fit the capture; on
    those it sets both addresses, leaves a header checksum that verifies (sum
    zero) and, for UDP, a UDP checksum that verifies, and changes no other
    byte.  On all others it returns false and the buffer is unchanged.  Neither
    the version nor the fragment offset is looked at: the UDP checksum is
    written into every packet with protocol 17 and eight bytes of data. *)
Theorem rewrite_ipv4_addresses_correct (ip src dst : list Z) (captured_len : Z) :
  bytes ip -> bytes src -> bytes dst -> blen src = 4 -> blen dst = 4 ->
  captured_len <= blen ip -> captured_len <= 65535 ->
  exists r ip', rewrite_ipv4_addresses ip captured_len src dst = Ok (r, ip') /\
    (r = true -> 20 <= captured_len /\ rewritable ip captured_len /\ readdressed ip ip' src dst) /\
    (r = false -> (captured_len < 20 \/ ~ rewritable ip captured_len) /\ ip' = ip).
Proof.
  intros Hi Hs Hd Ls Ld Hl Hm. destruct (Z.ltb_spec captured_len 20).
  { exists false, ip. rewrite rewrite_short by lia. split_and!; [done|done|auto]. }
  destruct (decide (rewritable ip captured_len)) as [Hr|Hr].
  - destruct (rewrite_ok ip src dst captured_len) as (ip' & -> & ?); try done.
    exists true, ip'. split_and!; done.
  - exists false, ip. rewrite rewrite_rejects by done. split_and!; [done|done|auto].
Qed.

Definition sample_udp : list Z :=
  [69;0;0;32; 0;1;0;0; 64;17;0;0; 10;0;0;1; 10;0;0;2;
   48;57;48;57; 0;12;0;0; 1;2;3;4].

Lemma rewrite_ipv4_addresses_witness :
  exists r ip', rewrite_ipv4_addresses sample_udp 32 [10;147;17;9] [10;147;17;1] = Ok (r, ip') /\
    (r = true -> 20 <= 32 /\ rewritable sample_udp 32 /\
      readdressed sample_udp ip' [10;147;17;9] [10;147;17;1]) /\
    (r = false -> (32 < 20 \/ ~ rewritable sample_udp 32) /\ ip' = sample_udp).
Proof.
  apply rewrite_ipv4_addresses_correct;
    first [by apply (bool_decide_unpack _); vm_compute | by vm_compute].
Defined.

(** A fragment of a UDP datagram is damaged: in this one, at offset 8 of its
    datagram, the data bytes 6 and 7 are replaced by a checksum. *)
Definition sample_fragment : list Z :=
  [69;0;0;30; 0;1;0;1; 64;17;0;0; 10;0;0;1; 10;0;0;2; 1;2;3;4;5;6;7;8;9;10].
Theorem udp_fragment_damaged :
  exists ip', rewrite_ipv4_addresses sample_fragment 30 [10;147;17;9] [10;147;17;1] = Ok (true, ip') /\
    field sample_fragment 20 10 = [1;2;3;4;5;6;7;8;9;10] /\ field ip' 20 6 = [1;2;3;4;5;6] /\ field ip' 26 2 <> [7;8].
Proof. eexists. split; [vm_compute; reflexivity|]. repeat split. vm_compute. discriminate. Qed.

(** [calc_checksum] is the Internet checksum on every even length; on an
    odd length it is what the code sums instead, the last byte in the low half
    of its word. *)
Theorem calc_checksum_value (buffer : list Z) (len : Z) :
  bytes buffer -> 0 <= len <= blen buffer -> len <= 131070 ->
  calc_checksum buffer len =
    Ok (if Z.even len then csum (field buffer 0 len)
        else 65535 - ones (wsum (field buffer 0 (len - 1)) + getb buffer (len - 1))).
Proof. apply calc_checksum_sum. Qed.

Lemma calc_checksum_value_witness :
  calc_checksum sample_udp 20 = Ok (csum (field sample_udp 0 20)) /\
  exists c, calc_checksum sample_udp 31 = Ok c.
Proof.
  assert (Hb : bytes sample_udp) by (by apply (bool_decide_unpack _); vm_compute).
  split.
  - apply (calc_checksum_value sample_udp 20 Hb); vm_compute; done.
  - eexists. apply (calc_checksum_value sample_udp 31 Hb); vm_compute; done.
Defined.

(** The odd-length branch of [calc_checksum] is not the Internet checksum:
    an ICMP echo with one byte of data gets a checksum no receiver accepts. *)
Theorem calc_checksum_odd_rejected :
  exists icmp c, bytes icmp /\ blen icmp = 9 /\ getb icmp 2 = 0 /\ getb icmp 3 = 0 /\
    calc_checksum icmp 9 = Ok c /\ csum (splice icmp 2 (net16 c)) <> 0.
Proof.
  exists [0;0;0;0;0;1;0;1;97], 65436. split_and!; try by vm_compute.
  by apply (bool_decide_unpack _); vm_compute.
Qed.

(** [calc_payload_checksum] of a chain of parts is the Internet checksum of
    their concatenation when only the last part may have an odd length. *)
Theorem calc_payload_checksum_concat (parts : list (list Z)) :
  Forall bytes parts -> even_parts parts -> blen (concat parts) <= 131070 ->
  calc_payload_checksum (part <$> parts) = Ok (csum (concat parts)).
Proof. apply calc_payload_checksum_ok. Qed.

Lemma calc_payload_checksum_witness :
  calc_payload_checksum (part <$> [[1;2;3;4]; [5;6]; [7]]) = Ok (csum [1;2;3;4;5;6;7]).
Proof.
  apply (calc_payload_checksum_concat [[1;2;3;4]; [5;6]; [7]]).
  - by apply (bool_decide_unpack _); vm_compute.
  - done.
  - by vm_compute.
Defined.

(** An odd part that is not the last one makes [calc_payload_checksum]
    skip a byte of the next part: the result is not the checksum of the
    concatenation. *)
Theorem calc_payload_checksum_odd_part :
  calc_payload_checksum (part <$> [[1]; [2; 3; 4; 5]]) <> Ok (csum [1; 2; 3; 4; 5]).
Proof. by vm_compute. Qed.
