(* ===== verification/World.v ===== *)
(** * The state of the relay

    [struct lan_play] and the structures it is made of, with the fields of the
    C declarations (src/src/lan-play.h, packet.h, arp.h, dhcp-server.h,
    native-udp.c, pcaploop.cpp).  The fields of [struct lan_play] are grouped
    in sub-records by the part of the program that owns them.

    [world] adds what the code observes and does outside its own memory: the
    command line options, the results of system calls as streams indexed by a
    counter of calls, and the list of effects, latest first. *)
From stdpp Require Import strings.
From S2P Require Import Prelude Bytes.

#[local] Open Scope Z_scope.

(** ** Constants of config.h, packet.h, arp.h *)

Definition BUFFER_SIZE : Z := 2048.
Definition ETHER_MTU : Z := 1500.
Definition ARP_CACHE_LEN : nat := 100.
Definition ETHER_OFF_DST : Z := 0.
Definition ETHER_OFF_SRC : Z := 6.
Definition ETHER_OFF_TYPE : Z := 12.
Definition ETHER_OFF_END : Z := 14.
Definition ETHER_HEADER_LEN : Z := 14.
Definition ETHER_TYPE_ARP : Z := 2054.
Definition ETHER_TYPE_IPV4 : Z := 2048.
Definition ARP_LEN : Z := 28.

Definition NONE_IP : list Z := [0;0;0;0].
Definition NONE_MAC : list Z := [0;0;0;0;0;0].
Definition BROADCASE_MAC : list Z := [255;255;255;255;255;255].

(** ** ARP cache and packet context *)

Record arp_item := mkArpItem { ai_ip : list Z; ai_mac : list Z; expire_at : Z }.

(** [pc_arg] and [buffer] are null in the context that only holds the
    ZeroTier neighbours; [pc_mac] points at the MAC of a capture interface,
    which does not change after it was opened. *)
Record packet_ctx := mkPacketCtx {
  pc_arg : bool;
  buffer : option (list Z);
  buffer_len : Z;
  pc_ip : list Z;
  subnet_net : list Z;
  subnet_mask : list Z;
  pc_mac : option (list Z);
  identification : Z;
  arp_list : list arp_item;
  arp_ttl : Z;
  pc_upload_byte : Z;
  pc_download_byte : Z;
  pc_upload_packet : Z;
  pc_download_packet : Z
}.
#[global] Instance eta_packet_ctx : Eta packet_ctx := fun r =>
  mkPacketCtx (pc_arg r) (buffer r) (buffer_len r) (pc_ip r) (subnet_net r) (subnet_mask r)
    (pc_mac r) (identification r) (arp_list r) (arp_ttl r) (pc_upload_byte r)
    (pc_download_byte r) (pc_upload_packet r) (pc_download_packet r).

(** ** Capture interfaces *)

Record uv_pcap_interf := mkInterf {
  if_mac : list Z;
  if_ipv4 : list Z;
  if_netmask : list Z;
  has_ipv4 : bool;
  delivered : Z;
  send_failures : Z;
  read_failures : Z;
  full_batches : Z
}.
#[global] Instance eta_uv_pcap_interf : Eta uv_pcap_interf := fun r =>
  mkInterf (if_mac r) (if_ipv4 r) (if_netmask r) (has_ipv4 r) (delivered r)
    (send_failures r) (read_failures r) (full_batches r).

(** [interfaces] has the [count] opened elements; [pcap_map] holds indices
    into it, as the C++ map holds pointers. *)
Record uv_pcap := mkPcap { pcap_map : gmap Z nat; interfaces : list uv_pcap_interf }.
#[global] Instance eta_uv_pcap : Eta uv_pcap := fun r => mkPcap (pcap_map r) (interfaces r).

(** ** DHCP leases *)

Record dhcp_lease := mkLease {
  lease_mac : list Z;
  lease_ip : list Z;
  expires : Z;
  offered : bool;
  used : bool
}.

Record dhcp_server_state := mkDhcp {
  leases : list dhcp_lease;
  offers_sent : Z;
  acks_sent : Z;
  naks_sent : Z;
  ignored_non_nintendo : Z;
  lost_races : Z
}.
#[global] Instance eta_dhcp : Eta dhcp_server_state := fun r =>
  mkDhcp (leases r) (offers_sent r) (acks_sent r) (naks_sent r) (ignored_non_nintendo r)
    (lost_races r).

(** ** Host UDP endpoints: [ports] is the linked list, head first *)

Record native_udp_guard := mkGuard {
  guard_ip : list Z;
  ports : list Z;
  guard_count : Z;
  received : Z
}.
#[global] Instance eta_guard : Eta native_udp_guard := fun r =>
  mkGuard (guard_ip r) (ports r) (guard_count r) (received r).

(** ** Fragments of the relay-server client *)

Record lan_client_fragment := mkFrag {
  fr_local_id : Z;
  fr_src : list Z;
  fr_id : Z;
  fr_part : Z;
  fr_used : bool;
  fr_total_len : Z;
  fr_buffer : list Z
}.
#[global] Instance eta_frag : Eta lan_client_fragment := fun r =>
  mkFrag (fr_local_id r) (fr_src r) (fr_id r) (fr_part r) (fr_used r) (fr_total_len r) (fr_buffer r).

Definition LC_FRAG_COUNT : nat := 100.
(** a slot of the table that was never used *)
Definition no_frag : lan_client_fragment := mkFrag 0 [0; 0; 0; 0] 0 0 false 0 (replicate (Z.to_nat ETHER_MTU) 0).

(** ** The groups of [struct lan_play] *)

Record adapters := mkAdapters {
  wifi_mac : list Z;
  wifi_ip : list Z;
  wifi_netmask : list Z;
  wifi_subnet : list Z;
  wifi_broadcast : list Z;
  wifi_subnet_known : bool;
  zerotier_mac : list Z;
  zerotier_ip : list Z;
  zerotier_netmask : list Z;
  zerotier_broadcast_ip : list Z
}.
#[global] Instance eta_adapters : Eta adapters := fun r =>
  mkAdapters (wifi_mac r) (wifi_ip r) (wifi_netmask r) (wifi_subnet r) (wifi_broadcast r)
    (wifi_subnet_known r) (zerotier_mac r) (zerotier_ip r) (zerotier_netmask r)
    (zerotier_broadcast_ip r).

Record counters := mkCounters {
  wifi_arp_rx : Z;
  wifi_ipv4_rx : Z;
  zerotier_arp_rx : Z;
  zerotier_ipv4_rx : Z;
  wifi_tx : Z;
  wifi_probe_tx : Z;
  zerotier_tx : Z
}.
#[global] Instance eta_counters : Eta counters := fun r =>
  mkCounters (wifi_arp_rx r) (wifi_ipv4_rx r) (zerotier_arp_rx r) (zerotier_ipv4_rx r)
    (wifi_tx r) (wifi_probe_tx r) (zerotier_tx r).

Record switch_state := mkSwitch {
  switch_mac : list Z;
  switch_ip : list Z;
  switch_seen : bool;
  switch_mac_confirmed : bool;
  switch_nintendo_oui : bool;
  switch_dhcp : bool;
  switch_mac_conflicts : Z;
  warned_broadcast_mismatch : bool;
  warned_direct_switch_delivery : bool
}.
#[global] Instance eta_switch : Eta switch_state := fun r =>
  mkSwitch (switch_mac r) (switch_ip r) (switch_seen r) (switch_mac_confirmed r)
    (switch_nintendo_oui r) (switch_dhcp r) (switch_mac_conflicts r)
    (warned_broadcast_mismatch r) (warned_direct_switch_delivery r).

Record discovery := mkDiscovery {
  switch_discovery_host : Z;
  switch_discovery_pause_ticks : Z;
  switch_discovery_wifi_phase : bool;
  switch_discovery_timer_active : bool
}.
#[global] Instance eta_discovery : Eta discovery := fun r =>
  mkDiscovery (switch_discovery_host r) (switch_discovery_pause_ticks r)
    (switch_discovery_wifi_phase r) (switch_discovery_timer_active r).

Record delivery_probe := mkProbe {
  wifi_delivery_probe_sent : bool;
  wifi_delivery_probe_replied : bool;
  wifi_delivery_probe_payload : list Z;
  wifi_delivery_probe_ip : list Z;
  wifi_delivery_probe_mac : list Z
}.
#[global] Instance eta_probe : Eta delivery_probe := fun r =>
  mkProbe (wifi_delivery_probe_sent r) (wifi_delivery_probe_replied r)
    (wifi_delivery_probe_payload r) (wifi_delivery_probe_ip r) (wifi_delivery_probe_mac r).

(** [captures] tells for each of the five dumpers whether it is open. *)
Record capture_state := mkCaptures {
  capture_format : bool;
  captures : list bool;
  capture_pending : list Z;
  capture_last_flush_us : list Z;
  capture_start_ns : Z;
  capture_start_time : Z
}.
#[global] Instance eta_captures : Eta capture_state := fun r =>
  mkCaptures (capture_format r) (captures r) (capture_pending r) (capture_last_flush_us r)
    (capture_start_ns r) (capture_start_time r).

(** [struct slp_addr_in]: an IPv4 or IPv6 address with a port *)
Inductive slp_addr_in := SockAddr4 (ip : list Z) (port : Z) | SockAddr6 (ip : list Z) (port : Z).

Record client_state := mkClient {
  pmtu : Z;
  broadcast : bool;
  next_real_broadcast : bool;
  frag_id : Z;
  local_id : Z;
  server_addr : option slp_addr_in;
  frags : list lan_client_fragment;
  username : option (list Z);
  key : list Z;
  cl_upload_byte : Z;
  cl_download_byte : Z;
  cl_upload_packet : Z;
  cl_download_packet : Z
}.
#[global] Instance eta_client : Eta client_state := fun r =>
  mkClient (pmtu r) (broadcast r) (next_real_broadcast r) (frag_id r) (local_id r) (server_addr r) (frags r)
    (username r) (key r) (cl_upload_byte r) (cl_download_byte r) (cl_upload_packet r)
    (cl_download_packet r).

Record lan_play := mkLanPlay {
  lp_packet_ctx : packet_ctx;
  lp_pcap : uv_pcap;
  lp_zerotier_pcap : uv_pcap;
  ingress_zerotier : bool;
  lp_counters : counters;
  lp_discovery : discovery;
  lp_adapters : adapters;
  lp_switch : switch_state;
  dhcp_state : dhcp_server_state;
  zerotier_neighbors : packet_ctx;
  udp_guard : option native_udp_guard;
  lp_probe : delivery_probe;
  lp_captures : capture_state;
  lp_client : client_state
}.
#[global] Instance eta_lan_play : Eta lan_play := fun r =>
  mkLanPlay (lp_packet_ctx r) (lp_pcap r) (lp_zerotier_pcap r) (ingress_zerotier r)
    (lp_counters r) (lp_discovery r) (lp_adapters r) (lp_switch r) (dhcp_state r)
    (zerotier_neighbors r) (udp_guard r) (lp_probe r) (lp_captures r) (lp_client r).

(** ** Options and environment *)

(** The command line; a string option that was not given is [None] ([NULL]). *)
Record cli_options := mkOptions {
  opt_help : bool;
  opt_version : bool;
  opt_broadcast : bool;
  opt_pmtu : Z;
  opt_fake_internet : bool;
  opt_list_if : bool;
  opt_diagnostics : bool;
  opt_status_events : bool;
  opt_discover_switch : bool;
  opt_dhcp_server : bool;
  opt_capture_prefix : option string;
  opt_netif_ipaddr : option string;
  opt_netif : option string;
  opt_zerotier_name : option string;
  opt_subnet : option string;
  opt_gateway_ip : option string;
  opt_netif_netmask : option string;
  opt_relay_server_addr : option string;
  opt_relay_username : option string;
  opt_relay_password : option string;
  opt_relay_password_file : option string;
  opt_socks5_server_addr : option string;
  opt_socks5_username : option string;
  opt_socks5_password : option string;
  opt_socks5_password_file : option string;
  opt_rpc : option string;
  opt_rpc_token : option string;
  opt_rpc_protocol : option string
}.
#[global] Instance eta_options : Eta cli_options := fun r =>
  mkOptions (opt_help r) (opt_version r) (opt_broadcast r) (opt_pmtu r) (opt_fake_internet r) (opt_list_if r)
    (opt_diagnostics r) (opt_status_events r) (opt_discover_switch r) (opt_dhcp_server r) (opt_capture_prefix r)
    (opt_netif_ipaddr r) (opt_netif r) (opt_zerotier_name r) (opt_subnet r) (opt_gateway_ip r) (opt_netif_netmask r)
    (opt_relay_server_addr r) (opt_relay_username r) (opt_relay_password r) (opt_relay_password_file r)
    (opt_socks5_server_addr r) (opt_socks5_username r) (opt_socks5_password r) (opt_socks5_password_file r)
    (opt_rpc r) (opt_rpc_token r) (opt_rpc_protocol r).

(** [options.zerotier_if] is not null *)
Definition opt_zerotier_if (o : cli_options) : bool :=
  match opt_zerotier_name o with Some _ => true | None => false end.

(** What the code gets from outside, as a function of the number of outside
    calls made before.  [env_lwip] is the list of packets the TCP/IP stack
    hands to its output function while it processes one input packet;
    [env_junk] the contents of memory that was not initialised; [ndebug]
    whether [assert] is compiled out. *)
Record env := mkEnv {
  env_time : nat -> Z;
  env_hrtime : nat -> Z;
  env_send_rc : nat -> Z;
  env_flush_rc : nat -> Z;
  env_socket_rc : nat -> Z;
  env_alloc_ok : nat -> bool;
  env_lwip : nat -> list Z -> list (list Z);
  env_junk : nat -> Z;
  ndebug : bool
}.
#[global] Instance eta_env : Eta env := fun r =>
  mkEnv (env_time r) (env_hrtime r) (env_send_rc r) (env_flush_rc r) (env_socket_rc r) (env_alloc_ok r) (env_lwip r)
    (env_junk r) (ndebug r).

Inductive wire := Wifi | ZeroTier.
#[global] Instance wire_eq_dec : EqDecision wire.
Proof. solve_decision. Defined.

(** The first argument of [diagnostic_log_frame] and [capture_frame] *)
Inductive direction := RxWifi | TxWifi | RxZeroTier | TxZeroTier | HostWifi | HostZeroTier.
#[global] Instance direction_eq_dec : EqDecision direction.
Proof. solve_decision. Defined.

(** The lines [diagnostic_log_frame] writes, with the values they show *)
Inductive log_line :=
| LogArp (opcode : Z) (src sender target : list Z)
| LogMalformed (len : Z)
| LogUdpLength
| LogUdp (src : list Z) (sport : Z) (dst : list Z) (dport len : Z)
| LogUdpHash (payload_len hash : Z) (ether_dst : list Z)
| LogIcmp (type code : Z) (src dst : list Z)
| LogQuoted (src : list Z) (sport : Z) (dst : list Z) (dport : Z)
| LogOther (proto : Z) (src dst : list Z) (len : Z).

(** Machine-readable DHCP events of the log *)
Inductive dhcp_event_kind := DhcpOffered | DhcpAssigned | DhcpLost.

Inductive event :=
| Sent (w : wire) (i : nat) (frame : list Z)
| Dumped (file : nat) (sec usec : Z) (frame : list Z)
| DumpClosed (file : nat)
| Logged (d : direction) (l : log_line)
| PrintedPacket (bytes : list Z)
| DhcpEvent (k : dhcp_event_kind) (mac ip : list Z)
| SwitchDetected (ip mac : list Z) (dhcp : bool)
| ProxyUdp (src : list Z) (srcport : Z) (dst : list Z) (dstport : Z) (payload : list Z)
| LwipInput (packet : list Z)
| Bound (ip : list Z) (port : Z)
| Closed (port : Z)
| ClientSent (datagram : list Z)
| ServerInfo (text : list Z)
| AskLogin.

Record world := mkWorld {
  lp : lan_play;
  options : cli_options;
  environment : env;
  tick : nat;
  dhcp_ip_id : Z;
  output : list event
}.
#[global] Instance eta_world : Eta world := fun r =>
  mkWorld (lp r) (options r) (environment r) (tick r) (dhcp_ip_id r) (output r).

Abbreviation M := (SE world).

(** ** Access *)

Definition ext {A} (f : env -> nat -> A) : M A :=
  let* v := gets (fun w => f (environment w) (tick w)) in
  modify (fun w => w <| tick ::= S |>) ;;;
  ret v.
Definition time_now : M Z := ext env_time.
Definition uv_hrtime : M Z := ext env_hrtime.

Definition emit (e : event) : M unit := modify (fun w => w <| output ::= cons e |>).

Definition getlp {A} (f : lan_play -> A) : M A := gets (fun w => f (lp w)).
Definition setlp (f : lan_play -> lan_play) : M unit := modify (fun w => w <| lp ::= f |>).
Definition option_of {A} (f : cli_options -> A) : M A := gets (fun w => f (options w)).

(** a local array that is not initialised *)
Definition uninit (n : Z) : M (list Z) :=
  gets (fun w => map (fun i => u8 (env_junk (environment w) i)) (seq 0 (Z.to_nat n))).

(** [assert(0); return r;] *)
Definition assert_fails (r : Z) : M Z :=
  let* nd := gets (fun w => ndebug (environment w)) in
  if nd then ret r else stop AssertFail.
