(* ===== verification/Sample.v ===== *)
(** * Sample: one concrete state of the relay

    A relay on a home network: Wi-Fi adapter 192.168.1.10/24, ZeroTier adapter
    10.147.17.5/24, the default fake gateway 10.147.17.1, as [lan_play_init]
    leaves it, with no Switch seen yet.  The witnesses of the theorems run the
    model from this state. *)

From stdpp Require Import strings.
From S2P Require Import Prelude Bytes World.

Module Sample.

Definition wifi_mac : list Z := [2; 17; 34; 51; 68; 85].
Definition zt_mac : list Z := [2; 170; 187; 204; 221; 238].
(* 98:b6:e9 is one of the vendor prefixes of the table *)
Definition console_mac : list Z := [152; 182; 233; 1; 2; 3].
Definition peer_mac : list Z := [6; 1; 2; 3; 4; 5].
Definition peer_ip : list Z := [10; 147; 17; 9].
Definition console_ip : list Z := [10; 147; 17; 5].

Definition no_items : list arp_item := replicate ARP_CACHE_LEN (mkArpItem NONE_IP NONE_MAC 0).

Definition ctx : packet_ctx :=
  mkPacketCtx true (Some (replicate (Z.to_nat BUFFER_SIZE) 0)) BUFFER_SIZE
    [10; 147; 17; 1] [10; 147; 17; 0] [255; 255; 255; 0] (Some wifi_mac) 0 no_items 30 0 0 0 0.
Definition neighbors : packet_ctx :=
  mkPacketCtx false None 0 NONE_IP NONE_IP NONE_IP None 0 no_items 30 0 0 0 0.

Definition interf (mac ip mask : list Z) : uv_pcap :=
  mkPcap ∅ [mkInterf mac ip mask true 0 0 0 0].

Definition nets : adapters :=
  mkAdapters wifi_mac [192; 168; 1; 10] [255; 255; 255; 0] [192; 168; 1; 0] [192; 168; 1; 255] true
    zt_mac [10; 147; 17; 5] [255; 255; 255; 0] [10; 147; 17; 255].

Definition no_switch : switch_state :=
  mkSwitch NONE_MAC NONE_IP false false false false 0 false false.
Definition a_switch : switch_state :=
  mkSwitch console_mac console_ip true true true false 0 false false.

Definition state : lan_play :=
  mkLanPlay ctx (interf wifi_mac [192; 168; 1; 10] [255; 255; 255; 0])
    (interf zt_mac [10; 147; 17; 5] [255; 255; 255; 0]) false
    (mkCounters 0 0 0 0 0 0 0) (mkDiscovery 2 0 true true) nets no_switch
    (mkDhcp (replicate 8 (mkLease NONE_MAC NONE_IP 0 false false)) 0 0 0 0 0)
    neighbors (Some (mkGuard [10; 147; 17; 5] [] 0 0)) (mkProbe false false (replicate 16 0) NONE_IP NONE_MAC)
    (mkCaptures false (replicate 5 false) (replicate 5 0) (replicate 5 0) 0 0)
    (mkClient 0 false false 0 0 None (replicate LC_FRAG_COUNT no_frag) None (replicate 20 0) 0 0 0 0).

Definition environment : env :=
  mkEnv (fun _ => 1000) (fun n => 1000000 * Z.of_nat n) (fun _ => 0) (fun _ => 0) (fun _ => 0) (fun _ => true)
    (fun _ _ => []) (fun _ => 0) false.

Definition settings : cli_options :=
  mkOptions false false false 0 false false false false true true None None (Some "wlan0"%string) (Some "zt0"%string)
    None None None None None None None None None None None None None None.

Definition relay : world := mkWorld state settings environment 0 0 [].
(** the same after the console was seen *)
Definition relay_seen : world := relay <| lp ::= set lp_switch (fun _ => a_switch) |>.

End Sample.
