(* ===== verification/Pcap.v ===== *)
(** * Capture interfaces, packet captures and frame diagnostics

    The sending half of src/src/pcaploop.cpp, and from src/src/lan-play.c the
    capture files ([flush_capture], [close_captures], [capture_frame]), the
    frame log ([diagnostic_log_frame], [diagnostic_count_rx]) and
    [lan_play_send_packet], through which every frame for the console leaves. *)
From S2P Require Import Prelude Bytes Checksum World.

Definition ARP_OFF_HARDWARE : Z := 0.
Definition ARP_OFF_PROTOCOL : Z := 2.
Definition ARP_OFF_HARDWARE_SIZE : Z := 4.
Definition ARP_OFF_PROTOCOL_SIZE : Z := 5.
Definition ARP_OFF_OPCODE : Z := 6.
Definition ARP_OFF_SENDER_MAC : Z := 8.
Definition ARP_OFF_SENDER_IP : Z := 14.
Definition ARP_OFF_TARGET_MAC : Z := 18.
Definition ARP_OFF_TARGET_IP : Z := 24.

(** ** Interfaces *)

(** the 48-bit key of a MAC: [memcpy] into a little-endian 64-bit integer *)
Definition mac2int (mac : list Z) : Z := foldr (fun b r => b + 256 * r) 0 (take 6 mac).

Definition int2mac (i : Z) : list Z :=
  map (fun k => u8 (Z.shiftr i (8 * Z.of_nat k))) (seq 0 6).

(** leading one bits of one byte of a mask: [while (m & 0x80)] *)
Fixpoint leading_ones (fuel : nat) (m prefix : Z) : Z * Z :=
  match fuel with
  | O => (m, prefix)
  | S fuel =>
      if Z.land m 128 =? 0 then (m, prefix)
      else leading_ones fuel (u8 (Z.shiftl m 1)) (prefix + 1)
  end.

Fixpoint mask_to_prefix_from (mask : list Z) (prefix : Z) : Z :=
  match mask with
  | [] => prefix
  | m :: rest =>
      let (m, prefix) := leading_ones 8 m prefix in
      if m =? 0 then mask_to_prefix_from rest prefix else prefix
  end.
Definition mask_to_prefix (mask : list Z) : Z := mask_to_prefix_from (take 4 mask) 0.

Definition pcap_of (w : wire) (l : lan_play) : uv_pcap :=
  match w with Wifi => lp_pcap l | ZeroTier => lp_zerotier_pcap l end.
Definition set_pcap (w : wire) (f : uv_pcap -> uv_pcap) (l : lan_play) : lan_play :=
  match w with Wifi => l <| lp_pcap ::= f |> | ZeroTier => l <| lp_zerotier_pcap ::= f |> end.

Definition upd_interf (w : wire) (i : nat) (f : uv_pcap_interf -> uv_pcap_interf) : M unit :=
  setlp (set_pcap w (set interfaces (alter f i))).

(** The source address is replaced by the interface's for the injection and
    restored afterwards, so the caller's buffer is unchanged. *)
Definition uv_pcap_interf_sendpacket (w : wire) (i : nat) (data : list Z) (size : Z) : M Z :=
  let* h := getlp (fun l => interfaces (pcap_of w l) !! i) in
  match h with
  | None => stop OutOfBounds
  | Some h =>
      let? old := rdn data 6 6 in
      let? d := wrn data 6 (if_mac h) in
      let? frame := rdn d 0 size in
      emit (Sent w i frame) ;;;
      let* ret' := ext env_send_rc in
      (if ret' =? 0 then ret tt else
         upd_interf w i (set send_failures (fun n => u64 (n + 1)))) ;;;
      ret ret'
  end.

Fixpoint send_on_all (w : wire) (i n : nat) (data : list Z) (size result : Z) : M Z :=
  match n with
  | O => ret result
  | S n =>
      let* r := uv_pcap_interf_sendpacket w i data size in
      send_on_all w (S i) n data size (if r =? 0 then result else r)
  end.

Definition uv_pcap_sendpacket (w : wire) (data : list Z) (size : Z) : M Z :=
  let? src := rdn data 6 6 in
  let* handle := getlp (pcap_of w) in
  match pcap_map handle !! mac2int src with
  | Some i => uv_pcap_interf_sendpacket w i data size
  | None => send_on_all w 0 (length (interfaces handle)) data size 0
  end.

(** [uv_pcap_callback], with the frame handler it ends in as an argument *)
Definition uv_pcap_callback (w : wire) (h : nat) (packet : list Z) (caplen : Z)
    (cb : list Z -> M unit) : M unit :=
  upd_interf w h (set delivered (fun n => u64 (n + 1))) ;;;
  if caplen <? 14 then ret tt else
  let? dst := rdn packet 0 6 in
  setlp (set_pcap w (set pcap_map (insert (mac2int dst) h))) ;;;
  let* i := getlp (fun l => interfaces (pcap_of w l) !! h) in
  match i with
  | None => stop OutOfBounds
  | Some i => cb (if_mac i)
  end.

Definition uv_pcap_get_mac (h : uv_pcap) : option (list Z) :=
  match interfaces h with [i] => Some (if_mac i) | _ => None end.

Definition uv_pcap_get_ipv4 (h : uv_pcap) : option (list Z * list Z) :=
  match interfaces h with
  | [i] => if has_ipv4 i then Some (if_ipv4 i, if_netmask i) else None
  | _ => None
  end.

(** ** Packet captures *)

Definition capture_index (d : direction) : nat :=
  match d with
  | RxWifi => 0 | TxWifi => 1 | RxZeroTier => 2 | TxZeroTier => 3
  | HostWifi | HostZeroTier => 4
  end.

Definition capture_open (i : nat) (l : lan_play) : bool :=
  default false (captures (lp_captures l) !! i).

Definition flush_capture (i : nat) : M unit :=
  let* open := getlp (capture_open i) in
  if negb open then ret tt else
  let* rc := ext env_flush_rc in
  (if rc =? 0 then ret tt else
     emit (DumpClosed i) ;;;
     setlp (set lp_captures (set captures (insert i false)))) ;;;
  setlp (set lp_captures (set capture_pending (insert i 0))).

Fixpoint close_capture_files (i n : nat) : M unit :=
  match n with
  | O => ret tt
  | S n =>
      flush_capture i ;;;
      let* open := getlp (capture_open i) in
      (if open then emit (DumpClosed i) else ret tt) ;;;
      setlp (set lp_captures (set captures (insert i false))) ;;;
      close_capture_files (S i) n
  end.

Definition close_captures : M unit :=
  close_capture_files 0 5 ;;;
  setlp (set lp_captures (set capture_format (fun _ => false))).

Definition capture_frame (d : direction) (packet : list Z) (len : Z) : M unit :=
  let index := capture_index d in
  let* open := getlp (capture_open index) in
  if (len <=? 0) || negb open then ret tt else
  let* now := uv_hrtime in
  let* start_ns := getlp (fun l => capture_start_ns (lp_captures l)) in
  let* start_time := getlp (fun l => capture_start_time (lp_captures l)) in
  let elapsed_us := u64 (now - start_ns) / 1000 in
  let? data := rdn packet 0 len in
  emit (Dumped index (start_time + elapsed_us / 1000000) (elapsed_us mod 1000000) data) ;;;
  setlp (set lp_captures (set capture_pending (alter (fun n => u32 (n + 1)) index))) ;;;
  let* pending := getlp (fun l => default 0 (capture_pending (lp_captures l) !! index)) in
  let* last := getlp (fun l => default 0 (capture_last_flush_us (lp_captures l) !! index)) in
  if (32 <=? pending) || (100000 <=? u64 (elapsed_us - last)) then
    flush_capture index ;;;
    setlp (set lp_captures (set capture_last_flush_us (insert index elapsed_us)))
  else ret tt.

(** ** Diagnostics *)

(** FNV-1a over the first [n] bytes from [p] *)
Fixpoint fnv1a (n : nat) (p : list Z) (hash : Z) : outcome Z :=
  match n with
  | O => Ok hash
  | S n =>
      try b := READ_NET8 p 0 in
      fnv1a n (ptr p 1) (u32 (Z.lxor hash b * 16777619))
  end.

Definition log_udp (packet ip : list Z) (header_len total_len len : Z) : outcome (list log_line) :=
  try udp_len := READ_NET16 ip (header_len + 4) in
  if (udp_len <? 8) || (total_len - header_len <? udp_len) then Ok [LogUdpLength] else
  try hash := fnv1a (Z.to_nat (udp_len - 8)) (ptr ip (header_len + 8)) 2166136261 in
  try src := rdn ip IPV4_OFF_SRC 4 in
  try sport := READ_NET16 ip header_len in
  try dst := rdn ip IPV4_OFF_DST 4 in
  try dport := READ_NET16 ip (header_len + 2) in
  try edst := rdn packet 0 6 in
  Ok [LogUdp src sport dst dport len; LogUdpHash (udp_len - 8) hash edst].

Definition log_quoted (icmp : list Z) (available : Z) : outcome (list log_line) :=
  let quoted := ptr icmp 8 in
  if available <? 20 then Ok [] else
  try q0 := READ_NET8 quoted 0 in
  if negb (Z.shiftr q0 4 =? 4) then Ok [] else
  let qhl := Z.land q0 15 * 4 in
  if (qhl <? 20) || (available <? qhl + 4) then Ok [] else
  try q9 := READ_NET8 quoted 9 in
  if negb (q9 =? 17) then Ok [] else
  try src := rdn quoted 12 4 in
  try sport := READ_NET16 quoted qhl in
  try dst := rdn quoted 16 4 in
  try dport := READ_NET16 quoted (qhl + 2) in
  Ok [LogQuoted src sport dst dport].

Definition log_icmp (ip : list Z) (header_len total_len : Z) : outcome (list log_line) :=
  let icmp := ptr ip header_len in
  try type := READ_NET8 icmp 0 in
  try code := READ_NET8 icmp 1 in
  try src := rdn ip 12 4 in
  try dst := rdn ip 16 4 in
  try quoted :=
    (if (type =? 3) || (type =? 11) then log_quoted icmp (total_len - header_len - 8) else Ok []) in
  Ok (LogIcmp type code src dst :: quoted).

Definition log_ipv4 (packet : list Z) (len : Z) : outcome (list log_line) :=
  let ip := ptr packet ETHER_HEADER_LEN in
  try ver_len := READ_NET8 ip IPV4_OFF_VER_LEN in
  let header_len := Z.land ver_len 15 * 4 in
  try total_len := READ_NET16 ip IPV4_OFF_TOTAL_LEN in
  if negb (Z.shiftr ver_len 4 =? 4) || (header_len <? 20) || (total_len <? header_len) ||
     (len - ETHER_HEADER_LEN <? total_len) then Ok [LogMalformed len] else
  try fragment := READ_NET16 ip IPV4_OFF_FLAGS_FRAG_OFFSET in
  let fragment := negb (Z.land fragment 16383 =? 0) in
  try protocol := READ_NET8 ip IPV4_OFF_PROTOCOL in
  if (protocol =? IPV4_PROTOCOL_UDP) && negb fragment && (header_len + 8 <=? total_len) then
    log_udp packet ip header_len total_len len
  else if (protocol =? IPV4_PROTOCOL_ICMP) && negb fragment && (header_len + 8 <=? total_len) then
    log_icmp ip header_len total_len
  else
    try src := rdn ip IPV4_OFF_SRC 4 in
    try dst := rdn ip IPV4_OFF_DST 4 in
    Ok [LogOther protocol src dst len].

Definition log_arp (packet : list Z) : outcome (list log_line) :=
  let arp := ptr packet ETHER_HEADER_LEN in
  try opcode := READ_NET16 arp ARP_OFF_OPCODE in
  try src := rdn packet 6 6 in
  try sender := rdn arp ARP_OFF_SENDER_IP 4 in
  try target := rdn arp ARP_OFF_TARGET_IP 4 in
  Ok [LogArp opcode src sender target].

(** the lines written for one frame when diagnostics are on *)
Definition frame_log (packet : list Z) (len : Z) : outcome (list log_line) :=
  if len <? ETHER_HEADER_LEN then Ok [] else
  try type := READ_NET16 packet ETHER_OFF_TYPE in
  if (type =? ETHER_TYPE_ARP) && (ETHER_HEADER_LEN + ARP_LEN <=? len) then log_arp packet
  else if (type =? ETHER_TYPE_IPV4) && (ETHER_HEADER_LEN + IPV4_HEADER_LEN <=? len) then
    log_ipv4 packet len
  else Ok [].

Fixpoint emit_log (d : direction) (ls : list log_line) : M unit :=
  match ls with
  | [] => ret tt
  | l :: ls => emit (Logged d l) ;;; emit_log d ls
  end.

Definition diagnostic_log_frame (d : direction) (packet : list Z) (len : Z) : M unit :=
  capture_frame d packet len ;;;
  let* diagnostics := option_of opt_diagnostics in
  if negb diagnostics || (len <? ETHER_HEADER_LEN) then ret tt else
  let? ls := frame_log packet len in
  emit_log d ls.

Definition count (f : counters -> counters) : M unit := setlp (set lp_counters f).

Definition diagnostic_count_rx (zerotier : bool) (packet : list Z) (len : Z) : M unit :=
  if len <? ETHER_HEADER_LEN then ret tt else
  let? type := READ_NET16 packet ETHER_OFF_TYPE in
  let inc := fun n => u64 (n + 1) in
  if type =? ETHER_TYPE_ARP then
    (if zerotier then count (set zerotier_arp_rx inc) else count (set wifi_arp_rx inc))
  else if type =? ETHER_TYPE_IPV4 then
    (if zerotier then count (set zerotier_ipv4_rx inc) else count (set wifi_ipv4_rx inc))
  else ret tt.

(** ** Sending to the console *)

Definition lan_play_send_packet (data : list Z) (size : Z) : M Z :=
  count (set wifi_tx (fun n => u64 (n + 1))) ;;;
  diagnostic_log_frame TxWifi data size ;;;
  uv_pcap_sendpacket Wifi data size.

(** ** What input and output leave alone *)

(** the parts of an open capture handle that decide where frames go *)
Definition pcap_ids (h : uv_pcap) : gmap Z nat * list (list Z) :=
  (pcap_map h, if_mac <$> interfaces h).

(** The injections so far, latest first. *)
Definition sent_of (e : event) : list (wire * nat * list Z) :=
  match e with Sent w i f => [(w, i, f)] | _ => [] end.
Definition trace (w : world) : list (wire * nat * list Z) :=
  concat (sent_of <$> output w).

(** Sending, logging and capturing change only counters, capture state, the
    call counter and the output. *)
Record io_frame (w w' : world) : Prop := {
  io_ctx : lp_packet_ctx (lp w') = lp_packet_ctx (lp w);
  io_neighbors : zerotier_neighbors (lp w') = zerotier_neighbors (lp w);
  io_wifi : pcap_ids (lp_pcap (lp w')) = pcap_ids (lp_pcap (lp w));
  io_zt : pcap_ids (lp_zerotier_pcap (lp w')) = pcap_ids (lp_zerotier_pcap (lp w));
  io_ingress : ingress_zerotier (lp w') = ingress_zerotier (lp w);
  io_discovery : lp_discovery (lp w') = lp_discovery (lp w);
  io_adapters : lp_adapters (lp w') = lp_adapters (lp w);
  io_switch : lp_switch (lp w') = lp_switch (lp w);
  io_dhcp : dhcp_state (lp w') = dhcp_state (lp w);
  io_guard : udp_guard (lp w') = udp_guard (lp w);
  io_probe : lp_probe (lp w') = lp_probe (lp w);
  io_client : lp_client (lp w') = lp_client (lp w);
  io_options : options w' = options w;
  io_env : environment w' = environment w;
  io_id : dhcp_ip_id w' = dhcp_ip_id w;
  io_tick : (tick w <= tick w')%nat
}.

#[global] Instance io_frame_preorder : PreOrder io_frame.
Proof.
  split.
  - intros w. by split.
  - intros w1 w2 w3 [] []. split; etrans; done.
Qed.

(** no injection *)
Definition no_send (w w' : world) : Prop := trace w' = trace w.
#[global] Instance no_send_preorder : PreOrder no_send.
Proof. split; [done|]. unfold no_send. intros ???. congruence. Qed.

Lemma pcap_ids_alter f i h :
  (forall x, if_mac (f x) = if_mac x) -> pcap_ids (set interfaces (alter f i) h) = pcap_ids h.
Proof.
  intros Hf. unfold pcap_ids. cbn. f_equal. apply list_eq. intros k.
  rewrite !list_lookup_fmap. destruct (decide (i = k)) as [->|Hn].
  - rewrite list_lookup_alter_eq. destruct (_ !! k); cbn; by rewrite ?Hf.
  - by rewrite list_lookup_alter_ne.
Qed.

Ltac io_frame_easy := split; cbn; reflexivity || lia || auto.
#[export] Hint Extern 1 (io_frame _ _) => solve [io_frame_easy] : respects_state.
#[export] Hint Extern 1 (no_send _ _) => reflexivity : respects_state.

Section PcapRespects.
Lemma ext_io {A} (f : env -> nat -> A) : respects io_frame (ext f).
Proof. unfold ext. solve_respects. Qed.
Lemma ext_quiet {A} (f : env -> nat -> A) : respects no_send (ext f).
Proof. unfold ext. solve_respects. Qed.
Lemma emit_io e : respects io_frame (emit e).
Proof. unfold emit. solve_respects. Qed.
Lemma emit_quiet e : sent_of e = [] -> respects no_send (emit e).
Proof.
  intros He w [] w' [= <-]. unfold no_send, trace. cbn. by rewrite He.
Qed.
End PcapRespects.
#[export] Hint Resolve ext_io ext_quiet emit_io : respects.
#[export] Hint Extern 1 (respects no_send (emit _)) => (apply emit_quiet; reflexivity) : respects.

Lemma upd_interf_io w i f :
  (forall x, if_mac (f x) = if_mac x) -> respects io_frame (upd_interf w i f).
Proof.
  intros Hf. unfold upd_interf, setlp. apply respects_modify. intros s.
  destruct w; split; cbn [lp set eta_world] ; try done; by apply pcap_ids_alter.
Qed.
Lemma upd_interf_quiet w i f : respects no_send (upd_interf w i f).
Proof. unfold upd_interf, setlp. solve_respects. Qed.
#[export] Hint Resolve upd_interf_quiet : respects.
#[export] Hint Extern 1 (respects io_frame (upd_interf _ _ _)) =>
  (apply upd_interf_io; reflexivity) : respects.

Lemma uv_pcap_interf_sendpacket_io w i data size :
  respects io_frame (uv_pcap_interf_sendpacket w i data size).
Proof. unfold uv_pcap_interf_sendpacket, getlp. solve_respects. Qed.
#[export] Hint Resolve uv_pcap_interf_sendpacket_io : respects.

Lemma send_on_all_io w i n data size r : respects io_frame (send_on_all w i n data size r).
Proof. revert i r. induction n as [|n IH]; intros; cbn; solve_respects. Qed.
#[export] Hint Resolve send_on_all_io : respects.

Lemma uv_pcap_sendpacket_io w data size : respects io_frame (uv_pcap_sendpacket w data size).
Proof. unfold uv_pcap_sendpacket, getlp. solve_respects. Qed.
#[export] Hint Resolve uv_pcap_sendpacket_io : respects.

Section CaptureRespects.
Lemma flush_capture_io i : respects io_frame (flush_capture i).
Proof. unfold flush_capture, getlp, setlp. solve_respects. Qed.
Lemma flush_capture_quiet i : respects no_send (flush_capture i).
Proof. unfold flush_capture, getlp, setlp. solve_respects. Qed.
#[local] Hint Resolve flush_capture_io flush_capture_quiet : respects.
Lemma capture_frame_io d p len : respects io_frame (capture_frame d p len).
Proof. unfold capture_frame, getlp, setlp, uv_hrtime. solve_respects. Qed.
Lemma capture_frame_quiet d p len : respects no_send (capture_frame d p len).
Proof. unfold capture_frame, getlp, setlp, uv_hrtime. solve_respects. Qed.
Lemma emit_log_io d ls : respects io_frame (emit_log d ls).
Proof. induction ls; cbn; solve_respects. Qed.
Lemma emit_log_quiet d ls : respects no_send (emit_log d ls).
Proof. induction ls; cbn; solve_respects. Qed.
#[local] Hint Resolve capture_frame_io capture_frame_quiet emit_log_io emit_log_quiet : respects.
Lemma diagnostic_log_frame_io d p len : respects io_frame (diagnostic_log_frame d p len).
Proof. unfold diagnostic_log_frame, option_of. solve_respects. Qed.
Lemma diagnostic_log_frame_quiet d p len : respects no_send (diagnostic_log_frame d p len).
Proof. unfold diagnostic_log_frame, option_of. solve_respects. Qed.
End CaptureRespects.
#[export] Hint Resolve flush_capture_io flush_capture_quiet
  diagnostic_log_frame_io diagnostic_log_frame_quiet : respects.

Lemma diagnostic_count_rx_io z p len : respects io_frame (diagnostic_count_rx z p len).
Proof. unfold diagnostic_count_rx, count, setlp. solve_respects. Qed.
Lemma diagnostic_count_rx_quiet z p len : respects no_send (diagnostic_count_rx z p len).
Proof. unfold diagnostic_count_rx, count, setlp. solve_respects. Qed.
Lemma count_io f : respects io_frame (count f).
Proof. unfold count, setlp. solve_respects. Qed.
Lemma count_quiet f : respects no_send (count f).
Proof. unfold count, setlp. solve_respects. Qed.
#[export] Hint Resolve diagnostic_count_rx_io diagnostic_count_rx_quiet count_io count_quiet : respects.

Lemma lan_play_send_packet_io data size : respects io_frame (lan_play_send_packet data size).
Proof. unfold lan_play_send_packet. solve_respects. Qed.
#[export] Hint Resolve lan_play_send_packet_io : respects.

(** ** Sending succeeds, and what is sent *)

(** one open interface, as [lan_play_init] requires of both adapters *)
Definition one_interface (h : uv_pcap) (mac : list Z) : Prop :=
  blen mac = 6 /\ snd (pcap_ids h) = [mac] /\
  map_Forall (fun _ j => j = 0%nat) (fst (pcap_ids h)).

Lemma one_interface_ids h h' mac :
  pcap_ids h' = pcap_ids h -> one_interface h mac -> one_interface h' mac.
Proof. unfold one_interface. by intros ->. Qed.

Lemma one_interface_lookup h mac :
  one_interface h mac -> exists i, interfaces h = [i] /\ if_mac i = mac.
Proof.
  intros (_ & Hs & _). unfold pcap_ids in Hs. cbn in Hs.
  destruct (interfaces h) as [|i [|? ?]]; simplify_eq/=. eauto.
Qed.

Lemma interf_sendpacket_spec w wr mac data size :
  one_interface (pcap_of wr (lp w)) mac -> 12 <= blen data -> 0 <= size <= blen data ->
  wp (uv_pcap_interf_sendpacket wr 0 data size)
    (fun _ w' => trace w' = (wr, 0%nat, field (splice data 6 mac) 0 size) :: trace w) w.
Proof.
  intros Hone Hd Hs. destruct (one_interface_lookup _ _ Hone) as (i & Hi & Hm).
  destruct Hone as [Hl _].
  unfold uv_pcap_interf_sendpacket, getlp. apply wp_bind, wp_gets. rewrite Hi. cbn [lookup list_lookup].
  apply wp_bind. eapply wp_lift; [apply rdn_ok; lia|].
  apply wp_bind. eapply wp_lift; [apply wrn_ok; rewrite ?Hm; lia|].
  apply wp_bind. eapply wp_lift; [apply rdn_ok; rewrite ?blen_splice; rewrite ?Hm; lia|].
  apply wp_bind, wp_modify. apply wp_bind, wp_bind, wp_gets, wp_bind, wp_modify, wp_ret.
  apply wp_bind. destruct (_ =? 0).
  - apply wp_ret, wp_ret. unfold trace. cbn. by rewrite Hm.
  - apply wp_modify, wp_ret. unfold trace. cbn. by rewrite Hm.
Qed.

Lemma uv_pcap_sendpacket_spec w wr mac data size :
  one_interface (pcap_of wr (lp w)) mac -> 12 <= blen data -> 0 <= size <= blen data ->
  wp (uv_pcap_sendpacket wr data size)
    (fun _ w' => trace w' = (wr, 0%nat, field (splice data 6 mac) 0 size) :: trace w) w.
Proof.
  intros Hone Hd Hs. unfold uv_pcap_sendpacket, getlp.
  apply wp_bind. eapply wp_lift; [apply rdn_ok; lia|]. apply wp_bind, wp_gets.
  destruct (one_interface_lookup _ _ Hone) as (i & Hi & _).
  destruct (_ !! _) as [j|] eqn:E.
  - destruct Hone as (? & ? & Hz). apply Hz in E as ->. by apply interf_sendpacket_spec.
  - rewrite Hi. cbn [length send_on_all]. apply wp_bind.
    eapply wp_mono; [by apply interf_sendpacket_spec|]. intros. by apply wp_ret.
Qed.

(** *** The log reads only the frame *)

Lemma fnv1a_ok n p h : Z.of_nat n <= blen p -> exists h', fnv1a n p h = Ok h'.
Proof.
  revert p h. induction n as [|n IH]; intros p h Hl; [by eexists|].
  cbn [fnv1a]. rewrite READ_NET8_ok by lia. cbn [obind]. apply IH. rewrite blen_ptr; lia.
Qed.

Ltac in_bounds := rewrite ?blen_ptr by lia; lia.

Lemma log_udp_ok packet ip hl tl len :
  20 <= hl -> hl + 8 <= tl <= blen ip -> 6 <= blen packet ->
  exists ls, log_udp packet ip hl tl len = Ok ls.
Proof.
  intros Hh Ht Hp. unfold log_udp, IPV4_OFF_SRC, IPV4_OFF_DST.
  rewrite READ_NET16_ok by lia. cbn [obind].
  destruct (_ || _) eqn:E; [by eexists|]. bool_lia.
  destruct (fnv1a_ok (Z.to_nat (be16 ip (hl + 4) - 8)) (ptr ip (hl + 8)) 2166136261) as [h ->];
    [in_bounds|]. cbn [obind].
  rewrite !rdn_ok, !READ_NET16_ok by lia. by eexists.
Qed.

Lemma log_quoted_ok icmp avail :
  8 + avail <= blen icmp -> exists ls, log_quoted icmp avail = Ok ls.
Proof.
  intros Hl. unfold log_quoted. destruct (Z.ltb_spec avail 20); [by eexists|].
  rewrite READ_NET8_ok by in_bounds. cbn [obind].
  destruct (negb _); [by eexists|]. destruct (_ || _) eqn:E; [by eexists|]. bool_lia.
  rewrite READ_NET8_ok by in_bounds. cbn [obind]. destruct (negb _); [by eexists|].
  rewrite !rdn_ok, !READ_NET16_ok by in_bounds. by eexists.
Qed.

Lemma log_icmp_ok ip hl tl :
  20 <= hl -> hl + 8 <= tl <= blen ip -> exists ls, log_icmp ip hl tl = Ok ls.
Proof.
  intros Hh Ht. unfold log_icmp.
  rewrite !READ_NET8_ok, !rdn_ok by in_bounds. cbn [obind].
  destruct (_ || _); [|by eexists].
  destruct (log_quoted_ok (ptr ip hl) (tl - hl - 8)) as [ls ->]; [in_bounds|].
  by eexists.
Qed.

Lemma frame_log_ok packet len :
  len <= blen packet -> exists ls, frame_log packet len = Ok ls.
Proof.
  intros Hl. unfold frame_log, ETHER_HEADER_LEN, ETHER_OFF_TYPE, ARP_LEN, IPV4_HEADER_LEN.
  destruct (Z.ltb_spec len 14); [by eexists|].
  rewrite READ_NET16_ok by lia. cbn [obind]. destruct (_ && _) eqn:Ea.
  { bool_lia. unfold log_arp, ETHER_HEADER_LEN, ARP_OFF_OPCODE, ARP_OFF_SENDER_IP, ARP_OFF_TARGET_IP.
    rewrite READ_NET16_ok, !rdn_ok by in_bounds. by eexists. }
  clear Ea. destruct (_ && _) eqn:Ei; [|by eexists]. bool_lia.
  unfold log_ipv4, ETHER_HEADER_LEN, IPV4_OFF_VER_LEN, IPV4_OFF_TOTAL_LEN,
    IPV4_OFF_FLAGS_FRAG_OFFSET, IPV4_OFF_PROTOCOL.
  rewrite !READ_NET8_ok, !READ_NET16_ok by in_bounds. cbn [obind].
  destruct (_ || _) eqn:Em; [by eexists|]. bool_lia.
  destruct (_ && _) eqn:Eu.
  { bool_lia. apply log_udp_ok; [lia|in_bounds|lia]. }
  clear Eu. destruct (_ && _) eqn:Ec.
  { bool_lia. apply log_icmp_ok; [lia|in_bounds]. }
  unfold IPV4_OFF_SRC, IPV4_OFF_DST. rewrite !rdn_ok by in_bounds. by eexists.
Qed.

Lemma emit_log_spec d ls w : wp (emit_log d ls) (fun _ _ => True) w.
Proof.
  revert w. induction ls as [|l ls IH]; intros w; [done|].
  cbn. apply wp_bind, wp_modify, IH.
Qed.

Lemma flush_capture_spec i w : wp (flush_capture i) (fun _ _ => True) w.
Proof.
  unfold flush_capture, getlp, setlp. apply wp_bind, wp_gets. destruct (negb _); [done|].
  apply wp_bind, wp_bind, wp_gets, wp_bind, wp_modify, wp_ret.
  apply wp_bind. destruct (_ =? 0); done.
Qed.

Lemma capture_frame_spec d packet len w :
  len <= blen packet -> wp (capture_frame d packet len) (fun _ _ => True) w.
Proof.
  intros Hl. unfold capture_frame, getlp, setlp, uv_hrtime.
  apply wp_bind, wp_gets. destruct (_ || _) eqn:E; [done|]. bool_lia.
  apply wp_bind, wp_bind, wp_gets, wp_bind, wp_modify, wp_ret.
  apply wp_bind, wp_gets, wp_bind, wp_gets. apply wp_bind.
  eapply wp_lift; [apply rdn_ok; lia|].
  apply wp_bind, wp_modify, wp_bind, wp_modify, wp_bind, wp_gets, wp_bind, wp_gets.
  destruct (_ || _); [|done]. apply wp_bind. eapply wp_mono; [apply flush_capture_spec|]. done.
Qed.

Lemma diagnostic_log_frame_spec d packet len w :
  len <= blen packet ->
  wp (diagnostic_log_frame d packet len) (fun _ w' => io_frame w w' /\ trace w' = trace w) w.
Proof.
  intros Hl. apply (wp_respects io_frame); [auto with respects|].
  eapply wp_mono with (P := fun _ w' => no_send w w' /\ True); [|by intros ?? [? _]].
  apply (wp_respects no_send); [auto with respects|].
  unfold diagnostic_log_frame, option_of. apply wp_bind.
  eapply wp_mono; [by apply capture_frame_spec|]. intros [] w1 _.
  apply wp_bind, wp_gets. destruct (_ || _) eqn:E; [done|]. bool_lia.
  destruct (frame_log_ok packet len Hl) as [ls ->].
  apply wp_bind. eapply wp_lift; [done|]. apply emit_log_spec.
Qed.

Lemma diagnostic_count_rx_spec z packet len w :
  len <= blen packet ->
  wp (diagnostic_count_rx z packet len) (fun _ w' => io_frame w w' /\ trace w' = trace w) w.
Proof.
  intros Hl. apply (wp_respects io_frame); [auto with respects|].
  eapply wp_mono with (P := fun _ w' => no_send w w' /\ True); [|by intros ?? [? _]].
  apply (wp_respects no_send); [auto with respects|].
  unfold diagnostic_count_rx, ETHER_HEADER_LEN, ETHER_OFF_TYPE. destruct (Z.ltb_spec len 14); [done|].
  apply wp_bind. eapply wp_lift; [apply READ_NET16_ok; lia|].
  destruct (_ =? _); [by destruct z|]. destruct (_ =? _); [by destruct z|done].
Qed.

Lemma lan_play_send_packet_spec w mac data size :
  one_interface (lp_pcap (lp w)) mac -> 12 <= blen data -> 0 <= size <= blen data ->
  wp (lan_play_send_packet data size) (fun _ w' => io_frame w w' /\
    trace w' = (Wifi, 0%nat, field (splice data 6 mac) 0 size) :: trace w) w.
Proof.
  intros Hone Hd Hs. apply (wp_respects io_frame); [auto with respects|].
  unfold lan_play_send_packet. apply wp_bind, wp_modify. apply wp_bind.
  eapply wp_mono; [apply diagnostic_log_frame_spec; lia|]. intros [] w1 [Hf Ht]. cbn in Hf.
  eapply wp_mono; [apply uv_pcap_sendpacket_spec; [|done|done]|].
  - eapply one_interface_ids; [apply (io_wifi _ _ Hf)|done].
  - intros rc w2 ->. by rewrite Ht.
Qed.
