(* ===== verification/Packet.v ===== *)
(** * Packet contexts and Ethernet output

    The sending half of src/src/packet.c: [send_payloads] gathers a chain of
    parts in the context's buffer and hands the frame to the Wi-Fi adapter. *)
From S2P Require Import Prelude Bytes Checksum World Pcap.

(** The two packet contexts of [struct lan_play]; functions of packet.c and
    arp.c take a pointer to one of them. *)
Inductive ctx := WifiCtx | NeighborCtx.

Definition get_ctx (c : ctx) (l : lan_play) : packet_ctx :=
  match c with WifiCtx => lp_packet_ctx l | NeighborCtx => zerotier_neighbors l end.
Definition upd_ctx (c : ctx) (f : packet_ctx -> packet_ctx) (l : lan_play) : lan_play :=
  match c with
  | WifiCtx => l <| lp_packet_ctx ::= f |>
  | NeighborCtx => l <| zerotier_neighbors ::= f |>
  end.
Definition getctx {A} (c : ctx) (f : packet_ctx -> A) : M A := getlp (fun l => f (get_ctx c l)).
Definition setctx (c : ctx) (f : packet_ctx -> packet_ctx) : M unit := setlp (upd_ctx c f).

Definition arp_list_init : list arp_item :=
  replicate ARP_CACHE_LEN (mkArpItem NONE_IP NONE_MAC 0).

Definition AnyMac : list Z := [255;255;255;255;255;255].

Definition packet_init (buf : list Z) (len : Z) (ip net mask : list Z) (ttl : Z) : packet_ctx :=
  mkPacketCtx true (Some buf) len ip net mask (Some AnyMac) 0 arp_list_init ttl 0 0 0 0.

(** the loop of [send_payloads]; [None] after a failed size check *)
Fixpoint copy_parts (self : ctx) (parts : list payload) (off total_len : Z) : M (option Z) :=
  match parts with
  | [] => ret (Some total_len)
  | part :: rest =>
      let* limit := getctx self buffer_len in
      if limit <=? off + pl_len part then
        let* r := assert_fails (-1) in ret None
      else
        let* b := getctx self buffer in
        match b with
        | None => stop NullDeref
        | Some b =>
            let? d := rdn (pl_ptr part) 0 (pl_len part) in
            let? b := wrn b off d in
            setctx self (set buffer (fun _ => Some b)) ;;;
            copy_parts self rest (off + pl_len part) (u16 (total_len + pl_len part))
        end
  end.

Definition send_payloads (self : ctx) (parts : list payload) : M Z :=
  let* n := copy_parts self parts 0 0 in
  match n with
  | None => ret (-1)
  | Some total_len =>
      setctx self (set pc_upload_packet (fun n => u64 (n + 1))) ;;;
      setctx self (set pc_upload_byte (fun n => u64 (n + total_len))) ;;;
      let* arg := getctx self pc_arg in
      let* b := getctx self buffer in
      match arg, b with
      | true, Some b => lan_play_send_packet b total_len
      | _, _ => stop NullDeref
      end
  end.

Definition ether_header (dst src : list Z) (type : Z) : M (list Z) :=
  let* b := uninit ETHER_HEADER_LEN in
  let? b := wrn b ETHER_OFF_DST dst in
  let? b := wrn b ETHER_OFF_SRC src in
  let? b := WRITE_NET16 b ETHER_OFF_TYPE type in
  ret b.

Definition send_ether_ex (self : ctx) (dst src : list Z) (type : Z) (parts : list payload) : M Z :=
  let* b := ether_header dst src type in
  send_payloads self (mkPayload b ETHER_HEADER_LEN :: parts).

Definition send_ether (self : ctx) (dst : list Z) (type : Z) (parts : list payload) : M Z :=
  let* mac := getctx self pc_mac in
  match mac with
  | None => stop NullDeref
  | Some mac => send_ether_ex self dst mac type parts
  end.

Definition payload_total_len (parts : list payload) : Z :=
  foldl (fun n p => u16 (n + pl_len p)) 0 parts.

Definition packet_set_mac (self : ctx) (mac : list Z) : M unit :=
  setctx self (set pc_mac (fun _ => Some mac)).

Record ether_frame := mkEther {
  eth_raw : list Z;
  eth_raw_len : Z;
  eth_dst : list Z;
  eth_src : list Z;
  eth_type : Z;
  eth_payload : list Z
}.

Definition parse_ether (packet : list Z) (len : Z) : outcome ether_frame :=
  try dst := rdn packet ETHER_OFF_DST 6 in
  try src := rdn packet ETHER_OFF_SRC 6 in
  try type := READ_NET16 packet ETHER_OFF_TYPE in
  Ok (mkEther packet len dst src type (ptr packet ETHER_OFF_END)).

(** ** What sending leaves alone *)

(** Everything but one packet context: its buffer and counters may change,
    its addresses and its ARP table may not. *)
Definition ctx_ids (c : packet_ctx) :=
  (pc_arg c, buffer_len c, (pc_ip c, subnet_net c, subnet_mask c), pc_mac c, arp_list c, arp_ttl c).

Record ctx_frame (w w' : world) : Prop := {
  cf_ctx : ctx_ids (lp_packet_ctx (lp w')) = ctx_ids (lp_packet_ctx (lp w));
  cf_buffer : blen <$> buffer (lp_packet_ctx (lp w')) = blen <$> buffer (lp_packet_ctx (lp w));
  cf_neighbors : ctx_ids (zerotier_neighbors (lp w')) = ctx_ids (zerotier_neighbors (lp w));
  cf_wifi : pcap_ids (lp_pcap (lp w')) = pcap_ids (lp_pcap (lp w));
  cf_zt : pcap_ids (lp_zerotier_pcap (lp w')) = pcap_ids (lp_zerotier_pcap (lp w));
  cf_ingress : ingress_zerotier (lp w') = ingress_zerotier (lp w);
  cf_discovery : lp_discovery (lp w') = lp_discovery (lp w);
  cf_adapters : lp_adapters (lp w') = lp_adapters (lp w);
  cf_switch : lp_switch (lp w') = lp_switch (lp w);
  cf_dhcp : dhcp_state (lp w') = dhcp_state (lp w);
  cf_guard : udp_guard (lp w') = udp_guard (lp w);
  cf_probe : lp_probe (lp w') = lp_probe (lp w);
  cf_client : lp_client (lp w') = lp_client (lp w);
  cf_options : options w' = options w;
  cf_env : environment w' = environment w;
  cf_id : dhcp_ip_id w' = dhcp_ip_id w;
  cf_tick : (tick w <= tick w')%nat
}.
#[global] Instance ctx_frame_preorder : PreOrder ctx_frame.
Proof.
  split.
  - intros w. by split.
  - intros w1 w2 w3 [] []. split; etrans; done.
Qed.

Lemma io_ctx_frame w w' : io_frame w w' -> ctx_frame w w'.
Proof. intros []. split; congruence || done. Qed.
Lemma respects_io_ctx {A} (m : M A) : respects io_frame m -> respects ctx_frame m.
Proof. apply respects_mono, io_ctx_frame. Qed.

Ltac ctx_frame_easy := split; cbn; reflexivity || lia || auto.
#[export] Hint Extern 1 (ctx_frame _ _) => solve [ctx_frame_easy] : respects_state.
#[export] Hint Extern 4 (respects ctx_frame _) =>
  (apply respects_io_ctx; solve [auto with respects]) : respects.

Lemma splice_len b off d b' : wrn b off d = Ok b' -> blen b' = blen b.
Proof.
  unfold wrn. destruct (_ && _) eqn:E; [|done]. intros [= <-]. bool_lia. apply blen_splice; lia.
Qed.

Lemma set_buffer_frame self w b b' off d :
  buffer (get_ctx self (lp w)) = Some b -> wrn b off d = Ok b' ->
  ctx_frame w (w <| lp ::= upd_ctx self (set buffer (fun _ => Some b')) |>).
Proof.
  intros Hb Hw. apply splice_len in Hw. destruct self; split; cbn in *; try done.
  rewrite Hb. cbn. by rewrite Hw.
Qed.

Lemma copy_parts_frame self parts off n : respects ctx_frame (copy_parts self parts off n).
Proof.
  revert off n. induction parts as [|p rest IH]; intros off n; [apply respects_ret; apply _|].
  cbn [copy_parts]. unfold getctx, getlp. apply respects_bind; [apply _|apply respects_gets; apply _|].
  intros limit. destruct (_ <=? _).
  { unfold assert_fails. solve_respects. }
  intros w a w'. unfold bind at 1. cbn [gets].
  destruct (buffer (get_ctx self (lp w))) as [b|] eqn:Eb; [|done].
  unfold bind at 1, lift at 1. destruct (rdn _ _ _) as [d|]; [|done].
  unfold bind at 1, lift at 1. destruct (wrn b off d) as [b'|] eqn:Ew; [|done].
  unfold bind, setctx, setlp, modify. intros Hc. transitivity (w <| lp ::= upd_ctx self (set buffer (fun _ => Some b')) |>).
  - by eapply set_buffer_frame.
  - by eapply IH.
Qed.
#[export] Hint Resolve copy_parts_frame : respects.

Lemma setctx_frame c f :
  (forall x, ctx_ids (f x) = ctx_ids x /\ buffer (f x) = buffer x) -> respects ctx_frame (setctx c f).
Proof.
  intros Hf. unfold setctx, setlp. apply respects_modify. intros w.
  destruct c; split; cbn; try done; try apply Hf. f_equal. apply Hf.
Qed.
#[export] Hint Extern 1 (respects ctx_frame (setctx _ _)) =>
  (apply setctx_frame; intros; split; reflexivity) : respects.

Lemma send_payloads_frame self parts : respects ctx_frame (send_payloads self parts).
Proof. unfold send_payloads, getctx, getlp. solve_respects. Qed.
#[export] Hint Resolve send_payloads_frame : respects.
Lemma ether_header_frame dst src type : respects io_frame (ether_header dst src type).
Proof. unfold ether_header, uninit. solve_respects. Qed.
#[export] Hint Resolve ether_header_frame : respects.
Lemma send_ether_ex_frame self dst src type parts :
  respects ctx_frame (send_ether_ex self dst src type parts).
Proof. unfold send_ether_ex. solve_respects. Qed.
#[export] Hint Resolve send_ether_ex_frame : respects.
Lemma send_ether_frame self dst type parts : respects ctx_frame (send_ether self dst type parts).
Proof. unfold send_ether, getctx, getlp. solve_respects. Qed.
#[export] Hint Resolve send_ether_frame : respects.

(** ** What is sent *)

Definition ether (dst src : list Z) (type : Z) (body : list Z) : list Z :=
  dst ++ src ++ net16 type ++ body.

Definition part_bytes (p : payload) : list Z := field (pl_ptr p) 0 (pl_len p).
Definition payload_bytes (parts : list payload) : list Z := concat (part_bytes <$> parts).
Definition valid_part (p : payload) : Prop := 0 <= pl_len p <= blen (pl_ptr p).

Lemma payload_bytes_one d n : n = blen d -> payload_bytes [mkPayload d n] = d.
Proof. intros ->. cbn. rewrite app_nil_r. by apply field_all. Qed.

Lemma valid_one d n : 0 <= n <= blen d -> Forall valid_part [mkPayload d n].
Proof. intros. by constructor. Qed.

Lemma blen_part p : valid_part p -> blen (part_bytes p) = pl_len p.
Proof. intros []. unfold part_bytes. apply blen_field; lia. Qed.

Lemma splice_cat p i j a b :
  0 <= i -> j = i + blen a -> i + blen a + blen b <= blen p ->
  splice (splice p i a) j b = splice p i (a ++ b).
Proof.
  intros Hi -> Hl. pose proof (blen_nonneg a). pose proof (blen_nonneg b).
  assert (Hs : blen (splice p i a) = blen p) by (rewrite blen_splice; lia).
  apply buffer_ext.
  - rewrite !blen_splice; rewrite ?Hs, ?blen_app; lia.
  - intros k Hk. rewrite blen_splice in Hk by (rewrite ?Hs; lia).
    rewrite getb_splice by lia. rewrite (getb_splice p i (a ++ b)) by (rewrite ?blen_app; lia).
    rewrite blen_app. rewrite (getb_splice p i a) by lia.
    destruct (Z.leb_spec (i + blen a) k), (Z.ltb_spec k (i + blen a + blen b)),
      (Z.leb_spec i k), (Z.ltb_spec k (i + blen a)), (Z.ltb_spec k (i + (blen a + blen b)));
      cbn [andb]; try lia; try done.
    + rewrite getb_app_r by lia. f_equal. lia.
    + by rewrite getb_app_l by lia.
Qed.


Lemma splice_all p d : blen d = blen p -> splice p 0 d = d.
Proof.
  intros Hl. unfold splice. cbn [Z.to_nat take app]. rewrite drop_ge, app_nil_r; [done|].
  unfold blen in *. lia.
Qed.

Lemma splice_prefix p d : blen d <= blen p -> field (splice p 0 d) 0 (blen d) = d.
Proof. intros. apply field_splice_same; lia. Qed.

(** the state in which the Wi-Fi context can send *)
Record sendable (w : world) (mac : list Z) : Prop := {
  sd_arg : pc_arg (lp_packet_ctx (lp w)) = true;
  sd_limit : buffer_len (lp_packet_ctx (lp w)) = BUFFER_SIZE;
  sd_buffer : blen <$> buffer (lp_packet_ctx (lp w)) = Some BUFFER_SIZE;
  sd_wire : one_interface (lp_pcap (lp w)) mac
}.

Lemma sendable_frame w w' mac : ctx_frame w w' -> sendable w mac -> sendable w' mac.
Proof.
  intros [] []. unfold ctx_ids in *. split.
  - congruence.
  - congruence.
  - congruence.
  - by eapply one_interface_ids.
Qed.

Lemma copy_parts_spec parts off n w b :
  Forall valid_part parts -> 0 <= off -> 0 <= n ->
  off + blen (payload_bytes parts) < buffer_len (lp_packet_ctx (lp w)) ->
  n + blen (payload_bytes parts) < 65536 ->
  buffer (lp_packet_ctx (lp w)) = Some b -> blen b = buffer_len (lp_packet_ctx (lp w)) ->
  wp (copy_parts WifiCtx parts off n) (fun r w' =>
    r = Some (n + blen (payload_bytes parts)) /\
    buffer (lp_packet_ctx (lp w')) = Some (splice b off (payload_bytes parts)) /\
    trace w' = trace w) w.
Proof.
  revert off n w b. induction parts as [|p rest IH]; intros off n w b Hv Ho Hn Hl Hm Hb Hbl.
  - change (blen (payload_bytes [])) with 0 in *. apply wp_ret.
    change (payload_bytes []) with (@nil Z). rewrite splice_nil by lia.
    split_and!; [f_equal; lia|done|done].
  - inversion Hv as [|? ? Hp Hr]; subst. cbn [payload_bytes fmap list_fmap concat] in *.
    fold (payload_bytes rest) in *. rewrite blen_app, blen_part in * by done.
    pose proof (blen_nonneg (payload_bytes rest)). destruct Hp as [Hp0 Hp1].
    cbn [copy_parts]. apply wp_bind, wp_gets. cbn [get_ctx].
    destruct (Z.leb_spec (buffer_len (lp_packet_ctx (lp w))) (off + pl_len p)); [lia|].
    apply wp_bind, wp_gets. cbn [get_ctx]. rewrite Hb.
    apply wp_bind. eapply wp_lift; [apply rdn_ok; lia|]. fold (part_bytes p).
    assert (Hbp : blen (part_bytes p) = pl_len p) by (by apply blen_part).
    apply wp_bind. eapply wp_lift; [apply wrn_ok; lia|].
    apply wp_bind, wp_modify. rewrite u16_small by lia.
    eapply wp_mono; [eapply IH; cbn; try done; try lia|].
    { rewrite blen_splice by lia. lia. }
    intros r w' (-> & Hb' & Ht). split_and!; [f_equal; lia| |].
    + rewrite Hb'. f_equal. apply splice_cat; lia.
    + rewrite Ht. done.
Qed.

Lemma send_payloads_spec parts w mac :
  sendable w mac -> Forall valid_part parts ->
  12 <= blen (payload_bytes parts) < BUFFER_SIZE ->
  wp (send_payloads WifiCtx parts) (fun _ w' => ctx_frame w w' /\
    trace w' = (Wifi, 0%nat, splice (payload_bytes parts) 6 mac) :: trace w) w.
Proof.
  intros [Ha Hlim Hb Hone] Hv [Hl1 Hl2]. apply (wp_respects ctx_frame); [auto with respects|].
  unfold BUFFER_SIZE in *. destruct (buffer (lp_packet_ctx (lp w))) as [b|] eqn:Eb; [|done].
  cbn in Hb. assert (Hbl : blen b = 2048) by congruence.
  unfold send_payloads. apply wp_bind.
  eapply wp_mono; [apply (wp_respects ctx_frame); [auto with respects|]|].
  { eapply copy_parts_spec; try done; lia. }
  intros r w1 (Hf & -> & Hb1 & Ht). cbn [Z.add].
  apply wp_bind, wp_modify, wp_bind, wp_modify, wp_bind, wp_gets, wp_bind, wp_gets. cbn.
  destruct Hf. unfold ctx_ids in *. replace (pc_arg (lp_packet_ctx (lp w1))) with true by congruence.
  rewrite Hb1. destruct Hone as (Hm6 & Hone).
  eapply wp_mono; [apply (lan_play_send_packet_spec _ mac)|].
  - cbn. by eapply one_interface_ids.
  - rewrite blen_splice; lia.
  - rewrite blen_splice by lia. lia.
  - intros rc w2 [_ ->]. cbn. rewrite <- Ht. do 2 f_equal.
    set (d := payload_bytes parts) in *.
    rewrite field_splice_in by (rewrite ?blen_splice; lia). f_equal. apply splice_prefix. lia.
Qed.

Lemma ether_header_spec dst src type w :
  blen dst = 6 -> blen src = 6 ->
  wp (ether_header dst src type) (fun b w' => b = dst ++ src ++ net16 type /\ w' = w) w.
Proof.
  intros Hd Hs. unfold ether_header, ETHER_HEADER_LEN, ETHER_OFF_DST, ETHER_OFF_SRC, ETHER_OFF_TYPE.
  apply wp_bind, wp_gets.
  set (b := map _ _). assert (Hb : blen b = 14) by (unfold b, blen; rewrite length_map, length_seq; done).
  apply wp_bind. eapply wp_lift; [apply wrn_ok; lia|].
  apply wp_bind. eapply wp_lift; [apply wrn_ok; rewrite ?blen_splice; lia|].
  apply wp_bind. eapply wp_lift; [apply WRITE_NET16_ok; rewrite ?blen_splice; rewrite ?blen_splice; lia|].
  apply wp_ret. split; [|done].
  rewrite (splice_cat b) by lia.
  rewrite splice_cat by (rewrite ?blen_app, ?blen_net16; lia).
  rewrite splice_all by (rewrite !blen_app, blen_net16; lia). by rewrite <- app_assoc.
Qed.

Lemma splice_ether dst src type body mac :
  blen dst = 6 -> blen src = 6 -> blen mac = 6 ->
  splice (ether dst src type body) 6 mac = ether dst mac type body.
Proof.
  intros Hd Hs Hm. unfold ether. rewrite splice_app.
  - rewrite <- app_assoc. do 2 f_equal. rewrite drop_app_length'; [done|]. unfold blen in *. lia.
  - done.
  - rewrite blen_app. pose proof (blen_nonneg (net16 type ++ body)). lia.
Qed.

(** [send_ether]: one frame on the Wi-Fi adapter, from the adapter's address *)
Lemma send_ether_spec dst type parts w mac pm :
  sendable w mac -> pc_mac (lp_packet_ctx (lp w)) = Some pm -> blen pm = 6 -> blen dst = 6 ->
  Forall valid_part parts -> 14 + blen (payload_bytes parts) < BUFFER_SIZE ->
  wp (send_ether WifiCtx dst type parts) (fun _ w' => ctx_frame w w' /\
    trace w' = (Wifi, 0%nat, ether dst mac type (payload_bytes parts)) :: trace w) w.
Proof.
  intros Hs Hpm Hp6 Hd6 Hv Hl. pose proof (sd_wire _ _ Hs) as (Hm6 & _).
  unfold send_ether. apply wp_bind, wp_gets. cbn [get_ctx]. rewrite Hpm.
  unfold send_ether_ex. apply wp_bind.
  eapply wp_mono; [by apply ether_header_spec|]. intros b w' [-> ->].
  assert (Hbl : blen (dst ++ pm ++ net16 type) = 14) by (rewrite !blen_app, blen_net16; lia).
  assert (Hpb : payload_bytes (mkPayload (dst ++ pm ++ net16 type) ETHER_HEADER_LEN :: parts)
    = ether dst pm type (payload_bytes parts)).
  { unfold payload_bytes. cbn. unfold part_bytes at 1. cbn [pl_ptr pl_len].
    rewrite field_all by (rewrite Hbl; done). unfold ether. by rewrite <- !app_assoc. }
  pose proof (blen_nonneg (payload_bytes parts)).
  eapply wp_mono; [apply send_payloads_spec; [done| |]|].
  - constructor; [|done]. unfold valid_part, ETHER_HEADER_LEN. cbn [pl_ptr pl_len]. lia.
  - rewrite Hpb. unfold ether. rewrite !blen_app, blen_net16. lia.
  - intros rc w' [Hf Ht]. split; [done|]. rewrite Ht, Hpb, splice_ether by done. done.
Qed.

(** ** Stepping through writes to a local buffer *)

Lemma wp_wrn {A} b i d (k : list Z -> M A) Q w :
  0 <= i -> i + blen d <= blen b ->
  (forall b', b' = splice b i d -> blen b' = blen b -> wp (k b') Q w) ->
  wp (bind (lift (wrn b i d)) k) Q w.
Proof.
  intros Hi Hl Hk. apply wp_bind. eapply wp_lift; [by apply wrn_ok|].
  apply Hk; [done|]. by apply blen_splice.
Qed.
Lemma wp_uninit {A} n (k : list Z -> M A) Q w :
  0 <= n -> (forall b, bytes b -> blen b = n -> wp (k b) Q w) -> wp (bind (uninit n) k) Q w.
Proof.
  intros Hn Hk. apply wp_bind, wp_gets, Hk.
  - induction (seq _ _); constructor; [apply u8_byte|done].
  - unfold blen. rewrite length_map, length_seq. lia.
Qed.

(** simplify the length of a concatenation *)
Ltac blen_simp := rewrite ?blen_app, ?blen_net16, ?blen_cons, ?blen_nil.

(** one write to a local buffer; its length is remembered *)
Ltac write_step :=
  eapply (wp_wrn _); [lia|blen_simp; lia|];
  let L := fresh "L" in intros ? -> L.

(** consecutive writes from the start of [b] on, joined *)
Ltac join_writes b := rewrite !(splice_cat b) by (blen_simp; lia).
