(* ===== verification/Arp.v ===== *)
(** * ARP: the cache, requests and proxy replies

    src/src/arp.c, and the ARP senders of src/src/lan-play.c.  The cache is a
    fixed table searched from the front; [ArpSpec] is what it promises its
    users, a map from addresses to their last binding. *)
From S2P Require Import Prelude Bytes Checksum World Pcap Packet Sample.

Definition ARP_HARDTYPE_ETHER : Z := 1.
Definition ARP_OPCODE_REQUEST : Z := 1.
Definition ARP_OPCODE_REPLY : Z := 2.

(** ** Packets *)

Record arp := mkArp {
  hardware_type : Z;
  protocol_type : Z;
  hardware_size : Z;
  protocol_size : Z;
  opcode : Z;
  sender_mac : list Z;
  sender_ip : list Z;
  target_mac : list Z;
  target_ip : list Z
}.

Definition parse_arp (ether : ether_frame) : outcome arp :=
  let packet := eth_payload ether in
  try ht := READ_NET16 packet ARP_OFF_HARDWARE in
  try pt := READ_NET16 packet ARP_OFF_PROTOCOL in
  try hs := READ_NET8 packet ARP_OFF_HARDWARE_SIZE in
  try ps := READ_NET8 packet ARP_OFF_PROTOCOL_SIZE in
  try op := READ_NET16 packet ARP_OFF_OPCODE in
  try smac := rdn packet ARP_OFF_SENDER_MAC 6 in
  try sip := rdn packet ARP_OFF_SENDER_IP 4 in
  try tmac := rdn packet ARP_OFF_TARGET_MAC 6 in
  try tip := rdn packet ARP_OFF_TARGET_IP 4 in
  Ok (mkArp ht pt hs ps op smac sip tmac tip).

(** the pointer arguments that may be null are options *)
Definition deref {A} (p : option A) : outcome A :=
  match p with Some a => Ok a | None => Stop NullDeref end.

Definition send_arp_ex (self : ctx) (dst_mac : list Z) (op : Z) (smac : option (list Z))
    (sip tmac tip : list Z) : M Z :=
  let* b := uninit ARP_LEN in
  let? b := WRITE_NET16 b ARP_OFF_HARDWARE ARP_HARDTYPE_ETHER in
  let? b := WRITE_NET16 b ARP_OFF_PROTOCOL ETHER_TYPE_IPV4 in
  let? b := WRITE_NET8 b ARP_OFF_HARDWARE_SIZE 6 in
  let? b := WRITE_NET8 b ARP_OFF_PROTOCOL_SIZE 4 in
  let? b := WRITE_NET16 b ARP_OFF_OPCODE (u8 op) in
  let? smac := deref smac in
  let? b := wrn b ARP_OFF_SENDER_MAC smac in
  let? b := wrn b ARP_OFF_SENDER_IP sip in
  let? b := wrn b ARP_OFF_TARGET_MAC tmac in
  let? b := wrn b ARP_OFF_TARGET_IP tip in
  send_ether self dst_mac ETHER_TYPE_ARP [mkPayload b ARP_LEN].

Definition send_arp (self : ctx) (op : Z) (smac : option (list Z)) (sip tmac tip : list Z) : M Z :=
  send_arp_ex self tmac op smac sip tmac tip.

Definition send_arp_request (self : ctx) (tip : list Z) : M Z :=
  let* mac := getctx self pc_mac in
  let* ip := getctx self pc_ip in
  send_arp_ex self BROADCASE_MAC ARP_OPCODE_REQUEST mac ip NONE_MAC tip.

(** ** The cache *)

(** the search loop of [arp_has_ip] and [arp_get_mac_by_ip] *)
Fixpoint arp_find (l : list arp_item) (ip : list Z) (now : Z) : option (list Z) :=
  match l with
  | [] => None
  | item :: l =>
      if CMP_IPV4 (ai_ip item) ip && (now <? expire_at item) then Some (ai_mac item)
      else arp_find l ip now
  end.

Definition arp_has_ip (self : ctx) (ip : list Z) : M bool :=
  let* now := time_now in
  let* l := getctx self arp_list in
  ret (bool_decide (is_Some (arp_find l ip now))).

Definition arp_get_mac_by_ip (self : ctx) (ip : list Z) : M (option (list Z)) :=
  let* now := time_now in
  let* l := getctx self arp_list in
  match arp_find l ip now with
  | Some mac => ret (Some mac)
  | None =>
      let* r := send_arp_request self ip in
      ret None
  end.

(** the loop of [arp_set]: the table with the entry stored, if a slot fits *)
Fixpoint arp_store (l : list arp_item) (mac ip : list Z) (now ttl : Z) : option (list arp_item) :=
  match l with
  | [] => None
  | item :: l =>
      if CMP_IPV4 (ai_ip item) NONE_IP || CMP_IPV4 (ai_ip item) ip || (expire_at item <? now)
      then Some (mkArpItem ip mac (now + ttl) :: l)
      else cons item <$> arp_store l mac ip now ttl
  end.

Definition arp_set (self : ctx) (mac ip : list Z) : M bool :=
  let* now := time_now in
  let* l := getctx self arp_list in
  let* ttl := getctx self arp_ttl in
  match arp_store l mac ip now ttl with
  | Some l => setctx self (set arp_list (fun _ => l)) ;;; ret true
  | None => ret false
  end.

(** [arp_for_each]: the callback sees the live entries until it returns
    non-zero *)
Fixpoint for_each_live (l : list arp_item) (now : Z) (cb : arp_item -> M Z) : M unit :=
  match l with
  | [] => ret tt
  | item :: l =>
      if now <? expire_at item then
        let* r := cb item in
        if r =? 0 then for_each_live l now cb else ret tt
      else for_each_live l now cb
  end.

Definition arp_for_each (self : ctx) (cb : arp_item -> M Z) : M unit :=
  let* now := time_now in
  let* l := getctx self arp_list in
  for_each_live l now cb.

(** ** The ARP senders of lan-play.c *)

(** the frame of both senders; the request does not write the target MAC *)
Definition zerotier_arp_frame (dst : list Z) (op : Z) (zmac sip : list Z)
    (tmac : option (list Z)) (tip : list Z) : outcome (list Z) :=
  let frame := replicate 42 0 in
  try f := wrn frame ETHER_OFF_DST dst in
  try f := wrn f ETHER_OFF_SRC zmac in
  try f := WRITE_NET16 f 12 ETHER_TYPE_ARP in
  try f := WRITE_NET16 f 14 ARP_HARDTYPE_ETHER in
  try f := WRITE_NET16 f 16 ETHER_TYPE_IPV4 in
  try f := WRITE_NET8 f 18 6 in
  try f := WRITE_NET8 f 19 4 in
  try f := WRITE_NET16 f 20 op in
  try f := wrn f (ETHER_HEADER_LEN + ARP_OFF_SENDER_MAC) zmac in
  try f := wrn f (ETHER_HEADER_LEN + ARP_OFF_SENDER_IP) sip in
  try f := match tmac with
           | Some tmac => wrn f (ETHER_HEADER_LEN + ARP_OFF_TARGET_MAC) tmac
           | None => Ok f
           end in
  wrn f (ETHER_HEADER_LEN + ARP_OFF_TARGET_IP) tip.

Definition send_zerotier_frame (frame : list Z) (size : Z) : M Z :=
  count (set zerotier_tx (fun n => u64 (n + 1))) ;;;
  diagnostic_log_frame TxZeroTier frame size ;;;
  uv_pcap_sendpacket ZeroTier frame size.

Definition lan_play_send_zerotier_arp (sip tip : list Z) : M Z :=
  let* zmac := getlp (fun l => zerotier_mac (lp_adapters l)) in
  let? frame := zerotier_arp_frame BROADCASE_MAC ARP_OPCODE_REQUEST zmac sip None tip in
  send_zerotier_frame frame 42.

Definition lan_play_send_zerotier_arp_reply (tmac tip sip : list Z) : M Z :=
  let* zmac := getlp (fun l => zerotier_mac (lp_adapters l)) in
  let? frame := zerotier_arp_frame tmac ARP_OPCODE_REPLY zmac tip (Some tmac) sip in
  send_zerotier_frame frame 42.

(** ** Requests *)

Definition arp_request (self : ctx) (a : arp) : M Z :=
  let* net := getctx self subnet_net in
  let* mask := getctx self subnet_mask in
  if negb (IS_SUBNET (target_ip a) net mask) then ret 0 else
  if CMP_IPV4 (target_ip a) (sender_ip a) then ret 0 else
  if CMP_IPV4 (sender_ip a) NONE_IP then ret 0 else
  let* arg := getctx self pc_arg in
  if negb arg then stop NullDeref else
  let* ingress := getlp ingress_zerotier in
  if ingress then
    let* zip := getlp (fun l => zerotier_ip (lp_adapters l)) in
    if negb (CMP_IPV4 (target_ip a) zip) then ret 0 else
    lan_play_send_zerotier_arp_reply (sender_mac a) (target_ip a) (sender_ip a)
  else
    let* ip := getctx self pc_ip in
    (if CMP_IPV4 (target_ip a) ip then ret tt else
     let* has := arp_has_ip self (target_ip a) in
     let* zif := option_of opt_zerotier_if in
     if negb has && negb zif then
       let* r := lan_play_send_zerotier_arp (sender_ip a) (target_ip a) in ret tt
     else ret tt) ;;;
    let* mac := getctx self pc_mac in
    send_arp self ARP_OPCODE_REPLY mac (target_ip a) (sender_mac a) (sender_ip a).

Definition arp_reply (self : ctx) (a : arp) : M Z := ret 0.

Definition process_arp (self : ctx) (ether : ether_frame) : M Z :=
  let? a := parse_arp ether in
  if negb (hardware_type a =? ARP_HARDTYPE_ETHER) || negb (protocol_type a =? ETHER_TYPE_IPV4) ||
     negb (hardware_size a =? 6) || negb (protocol_size a =? 4) then ret (-1) else
  let* r := arp_set self (sender_mac a) (sender_ip a) in
  if opcode a =? ARP_OPCODE_REQUEST then arp_request self a
  else if opcode a =? ARP_OPCODE_REPLY then arp_reply self a
  else ret (-1).

(** ** The cache implements a map with expiry *)

(** What a neighbour table promises: a lookup at a time not before the last
    store sees, for every address but 0.0.0.0, the last binding stored for it
    until that binding expires.  [table_ok t now] holds of the tables reached
    by stores with the fixed lifetime up to [now]. *)
Class NeighborTable (T : Type) (ttl : Z) := {
  table_get : T -> list Z -> Z -> option (list Z);
  table_put : T -> list Z -> list Z -> Z -> option T;
  table_ok : T -> Z -> Prop;
  table_ok_put t now now' mac ip t' :
    table_ok t now -> now <= now' -> table_put t mac ip now' = Some t' -> table_ok t' now';
  table_get_put t now now' at_ mac ip ip' t' :
    table_ok t now -> now <= now' -> now' <= at_ -> ip' <> NONE_IP ->
    table_put t mac ip now' = Some t' ->
    table_get t' ip' at_ =
      if CMP_IPV4 ip' ip then (if at_ <? now' + ttl then Some mac else None)
      else table_get t ip' at_
}.

Definition arp_table_ok (ttl : Z) (l : list arp_item) (now : Z) : Prop :=
  Forall (fun x => expire_at x <= now + ttl) l.

Lemma arp_find_expired l ip now :
  Forall (fun y => ai_ip y = ip -> expire_at y <= now) l -> arp_find l ip now = None.
Proof.
  induction 1 as [|y l Hy Hl IH]; [done|]. cbn. destruct (CMP_IPV4 _ _) eqn:E; [|done].
  apply CMP_IPV4_spec in E. destruct (Z.ltb_spec now (expire_at y)); [|done].
  specialize (Hy E). lia.
Qed.

Section Store.
Context (ttl : Z).

Lemma arp_store_shape l mac ip now l' :
  arp_store l mac ip now ttl = Some l' ->
  Forall (fun x => expire_at x <= now + ttl) l ->
  Forall (fun x => expire_at x <= now + ttl) l'.
Proof.
  revert l'. induction l as [|x l IH]; intros l' Hs Hf; [done|].
  inversion Hf; subst. cbn in Hs. destruct (_ || _).
  - injection Hs as <-. constructor; [cbn; lia|done].
  - apply fmap_Some in Hs as (l1 & Hs & ->). constructor; [done|]. by apply IH.
Qed.

Lemma arp_store_find l mac ip now l' ip' at_ :
  arp_store l mac ip now ttl = Some l' ->
  Forall (fun x => expire_at x <= now + ttl) l ->
  now <= at_ -> ip' <> NONE_IP ->
  arp_find l' ip' at_ =
    if CMP_IPV4 ip' ip then (if at_ <? now + ttl then Some mac else None)
    else arp_find l ip' at_.
Proof.
  revert l'. induction l as [|x l IH]; intros l' Hs Hf Ha Hip; [done|].
  inversion Hf as [|? ? Hx Hl]; subst. cbn in Hs.
  destruct (_ || _) eqn:E.
  - injection Hs as <-. cbn [arp_find ai_ip expire_at ai_mac].
    destruct (CMP_IPV4 ip' ip) eqn:Ei.
    + apply CMP_IPV4_spec in Ei as ->. rewrite (proj2 (CMP_IPV4_spec ip ip)) by done. cbn [andb].
      destruct (Z.ltb_spec at_ (now + ttl)); [done|]. apply arp_find_expired.
      eapply Forall_impl; [|exact Hl]. cbn. intros. lia.
    + replace (CMP_IPV4 ip ip') with false
        by (symmetry; apply CMP_IPV4_false; apply CMP_IPV4_false in Ei; congruence).
      cbn [andb]. destruct (CMP_IPV4 (ai_ip x) ip') eqn:Ex; [|done].
      apply CMP_IPV4_spec in Ex. subst ip'. cbn [andb].
      bool_lia.
      * by apply CMP_IPV4_spec in H.
      * apply CMP_IPV4_spec in H. apply CMP_IPV4_false in Ei. congruence.
      * by destruct (Z.ltb_spec at_ (expire_at x)); [lia|].
  - apply fmap_Some in Hs as (l1 & Hs & ->). bool_lia.
    apply CMP_IPV4_false in H1. cbn [arp_find]. rewrite (IH l1) by done.
    destruct (CMP_IPV4 ip' ip) eqn:Ei; [|done]. apply CMP_IPV4_spec in Ei as ->.
    by rewrite (proj2 (CMP_IPV4_false (ai_ip x) ip)).
Qed.

Lemma arp_table_later l now now' :
  now <= now' -> Forall (fun x => expire_at x <= now + ttl) l ->
  Forall (fun x => expire_at x <= now' + ttl) l.
Proof. intros. eapply Forall_impl; [|done]. cbn. intros. lia. Qed.

#[export] Program Instance arp_neighbor_table : NeighborTable (list arp_item) ttl := {
  table_get := arp_find;
  table_put l mac ip now := arp_store l mac ip now ttl;
  table_ok := arp_table_ok ttl
}.
Next Obligation.
  intros l now now' mac ip l' Hf Hle Hs. eapply arp_store_shape; [exact Hs|].
  by eapply arp_table_later.
Qed.
Next Obligation.
  intros l now now' at_ mac ip ip' l' Hf Hle Ha Hip Hs.
  eapply arp_store_find; [exact Hs| |done|done]. by eapply arp_table_later.
Qed.
End Store.

(** A full table: every entry is live and for another address. *)
Lemma arp_store_full l mac ip now ttl :
  arp_store l mac ip now ttl = None <->
  Forall (fun x => ai_ip x <> NONE_IP /\ ai_ip x <> ip /\ now <= expire_at x) l.
Proof.
  induction l as [|x l IH]; cbn; [done|]. rewrite Forall_cons_iff, <- IH.
  destruct (_ || _) eqn:E; bool_lia.
  - apply CMP_IPV4_spec in H. split; [done|]. tauto.
  - apply CMP_IPV4_spec in H. split; [done|]. tauto.
  - split; [done|]. lia.
  - apply CMP_IPV4_false in H, H1. rewrite fmap_None. tauto.
Qed.

Lemma arp_list_init_ok ttl now : 0 <= now + ttl -> arp_table_ok ttl arp_list_init now.
Proof. intros H. by apply Forall_replicate. Qed.

(** *** Histories of stores *)

Record binding := mkBinding { at_time : Z; bound_mac : list Z; bound_ip : list Z }.

(** the last binding for an address, until it expires *)
Fixpoint latest (ttl : Z) (h : list binding) (ip : list Z) (now : Z) : option (list Z) :=
  match h with
  | [] => None
  | b :: h =>
      if CMP_IPV4 ip (bound_ip b)
      then (if now <? at_time b + ttl then Some (bound_mac b) else None)
      else latest ttl h ip now
  end.

Section History.
Context {T : Type} {ttl : Z} `{!NeighborTable T ttl}.

(** the table after a history, with the stores that found a slot, latest
    first *)
Fixpoint replay (ops : list binding) (t : T) (h : list binding) : T * list binding :=
  match ops with
  | [] => (t, h)
  | b :: ops =>
      match table_put t (bound_mac b) (bound_ip b) (at_time b) with
      | Some t' => replay ops t' (b :: h)
      | None => replay ops t h
      end
  end.

(** times do not decrease, from [now] on to [last] *)
Fixpoint ordered (now : Z) (ops : list binding) (last : Z) : Prop :=
  match ops with
  | [] => now <= last
  | b :: ops => now <= at_time b /\ ordered (at_time b) ops last
  end.

Lemma ordered_le now ops last : ordered now ops last -> now <= last.
Proof.
  revert now. induction ops as [|b ops IH]; cbn; [done|]. intros now [H1 H2].
  apply IH in H2. lia.
Qed.
Lemma ordered_weaken now now' ops last : now' <= now -> ordered now ops last -> ordered now' ops last.
Proof. destruct ops; cbn; [lia|]. intros ? []. split; [lia|done]. Qed.

Lemma replay_refines ops t h now last :
  table_ok t now -> ordered now ops last ->
  (forall ip at_, ip <> NONE_IP -> now <= at_ -> table_get t ip at_ = latest ttl h ip at_) ->
  let (t', h') := replay ops t h in
  forall ip at_, ip <> NONE_IP -> last <= at_ -> table_get t' ip at_ = latest ttl h' ip at_.
Proof.
  revert t h now. induction ops as [|b ops IH]; intros t h now Hok Ho Hsim; cbn [replay].
  { intros ip at_ Hip Hat. cbn in Ho. apply Hsim; [done|lia]. }
  destruct Ho as [Hb Ho]. destruct (table_put t _ _ _) as [t'|] eqn:Ep.
  - eapply IH; [by eapply table_ok_put|done|]. intros ip at_ Hip Hat. cbn [latest].
    erewrite table_get_put; [|done..]. destruct (CMP_IPV4 _ _); [done|]. apply Hsim; [done|lia].
  - apply (IH t h now); [done|by eapply ordered_weaken|done].
Qed.
End History.

(** *** Which stores are kept *)

(** the stores of a history for other addresses that are at most [ttl] seconds
    old *)
Definition recent (ttl : Z) (h : list binding) (ip : list Z) (now : Z) : list binding :=
  filter (fun b => bound_ip b <> ip /\ now <= at_time b + ttl) h.

(** the stores kept out of a sequence, latest first: all of them, but for those
    that come when as many recent stores for other addresses were kept as the
    cache has slots *)
Inductive kept_stores (ttl : Z) : list binding -> list binding -> list binding -> Prop :=
  | kept_none h : kept_stores ttl [] h h
  | kept_store b ops h h' : kept_stores ttl ops (b :: h) h' -> kept_stores ttl (b :: ops) h h'
  | refused_store b ops h h' :
      (ARP_CACHE_LEN <= length (recent ttl h (bound_ip b) (at_time b)))%nat ->
      kept_stores ttl ops h h' -> kept_stores ttl (b :: ops) h h'.

(** the slots that a store for [ip] may not use *)
Definition busy (l : list arp_item) (ip : list Z) (now : Z) : list arp_item :=
  filter (fun x => ai_ip x <> NONE_IP /\ ai_ip x <> ip /\ now <= expire_at x) l.

Lemma arp_store_busy ttl l b l' ip t :
  arp_store l (bound_mac b) (bound_ip b) (at_time b) ttl = Some l' ->
  length l' = length l /\ (length (busy l' ip t) <= length (busy l ip t) + length (recent ttl [b] ip t))%nat.
Proof.
  revert l'. induction l as [|x l IH]; intros l'; cbn [arp_store]; [done|]. destruct (_ || _).
  - intros [= <-]. split; [done|]. unfold busy, recent. rewrite !filter_cons. cbn [ai_ip expire_at].
    repeat case_decide; cbn [length filter list_filter]; try lia. tauto.
  - intros (l1 & (Hl & IH1)%IH & ->)%fmap_Some. split; [cbn; by rewrite Hl|]. unfold busy in *.
    rewrite !filter_cons. case_decide; cbn [length]; lia.
Qed.

Lemma arp_store_refused ttl l b :
  arp_store l (bound_mac b) (bound_ip b) (at_time b) ttl = None -> length (busy l (bound_ip b) (at_time b)) = length l.
Proof.
  intros H%arp_store_full. unfold busy. induction H; [done|]. rewrite filter_cons_True by done. cbn. by f_equal.
Qed.

Lemma replay_kept ttl ops l h :
  length l = ARP_CACHE_LEN -> (forall ip t, length (busy l ip t) <= length (recent ttl h ip t))%nat ->
  kept_stores ttl ops h (replay (NeighborTable0 := arp_neighbor_table ttl) ops l h).2.
Proof.
  revert l h. induction ops as [|b ops IH]; intros l h Hl Hb; [constructor|].
  cbn [replay table_put arp_neighbor_table]. destruct (arp_store l _ _ _ _) as [l'|] eqn:E.
  - destruct (arp_store_busy _ _ _ _ [] 0 E) as [El _]. apply kept_store, IH; [congruence|]. intros ip t.
    destruct (arp_store_busy _ _ _ _ ip t E) as [_ Hc]. specialize (Hb ip t). unfold recent in *.
    rewrite filter_cons in *. cbn [filter list_filter] in Hc. case_decide; cbn [length] in *; lia.
  - apply refused_store; [|by apply IH]. rewrite <- Hl, <- (arp_store_refused _ _ _ E). apply Hb.
Qed.

(** a sequence that is no longer than the cache is kept *)
Lemma kept_short ttl ops h h' :
  kept_stores ttl ops h h' -> (length ops + length h <= ARP_CACHE_LEN)%nat -> h' = rev ops ++ h.
Proof.
  induction 1 as [h|b ops h h' Hk IH|b ops h h' Hc Hk IH]; cbn; [done|..]; intros Hl.
  - rewrite IH by (cbn; lia). by rewrite <- app_assoc.
  - pose proof (length_filter (fun b' => bound_ip b' <> bound_ip b /\ at_time b <= at_time b' + ttl) h). unfold recent in Hc. lia.
Qed.

Lemma busy_init ip t : busy arp_list_init ip t = [].
Proof.
  unfold busy, arp_list_init. induction ARP_CACHE_LEN as [|n IH]; [done|]. cbn [replicate].
  rewrite filter_cons_False; [done|]. cbn. by intros [? _].
Qed.

Lemma arp_find_init ip now : 0 <= now -> arp_find arp_list_init ip now = None.
Proof. intros. apply arp_find_expired. apply Forall_replicate. cbn. lia. Qed.

(** ** What ARP leaves alone *)

(** the parts of a packet context fixed after initialisation, but for the
    address packets are sent from *)
Definition ctx_cfg (c : packet_ctx) :=
  (pc_arg c, buffer_len c, (pc_ip c, subnet_net c, subnet_mask c), pc_mac c, arp_ttl c).

(** As [ctx_frame], but the ARP tables may change. *)
Record net_frame (w w' : world) : Prop := {
  nf_ctx : ctx_cfg (lp_packet_ctx (lp w')) = ctx_cfg (lp_packet_ctx (lp w));
  nf_buffer : blen <$> buffer (lp_packet_ctx (lp w')) = blen <$> buffer (lp_packet_ctx (lp w));
  nf_neighbors : ctx_cfg (zerotier_neighbors (lp w')) = ctx_cfg (zerotier_neighbors (lp w));
  nf_wifi : pcap_ids (lp_pcap (lp w')) = pcap_ids (lp_pcap (lp w));
  nf_zt : pcap_ids (lp_zerotier_pcap (lp w')) = pcap_ids (lp_zerotier_pcap (lp w));
  nf_ingress : ingress_zerotier (lp w') = ingress_zerotier (lp w);
  nf_discovery : lp_discovery (lp w') = lp_discovery (lp w);
  nf_adapters : lp_adapters (lp w') = lp_adapters (lp w);
  nf_switch : lp_switch (lp w') = lp_switch (lp w);
  nf_dhcp : dhcp_state (lp w') = dhcp_state (lp w);
  nf_guard : udp_guard (lp w') = udp_guard (lp w);
  nf_probe : lp_probe (lp w') = lp_probe (lp w);
  nf_client : lp_client (lp w') = lp_client (lp w);
  nf_options : options w' = options w;
  nf_env : environment w' = environment w;
  nf_id : dhcp_ip_id w' = dhcp_ip_id w;
  nf_tick : (tick w <= tick w')%nat
}.
#[global] Instance net_frame_preorder : PreOrder net_frame.
Proof.
  split.
  - intros w. by split.
  - intros w1 w2 w3 [] []. split; etrans; done.
Qed.

Lemma ctx_net_frame w w' : ctx_frame w w' -> net_frame w w'.
Proof. intros []. split; unfold ctx_ids, ctx_cfg in *; congruence || done. Qed.
Lemma respects_ctx_net {A} (m : M A) : respects ctx_frame m -> respects net_frame m.
Proof. apply respects_mono, ctx_net_frame. Qed.

Ltac net_frame_easy := split; cbn; reflexivity || lia || auto.
#[export] Hint Extern 1 (net_frame _ _) => solve [net_frame_easy] : respects_state.
#[export] Hint Extern 4 (respects net_frame _) =>
  (apply respects_ctx_net; solve [auto with respects]) : respects.

Lemma setctx_net_frame c f :
  (forall x, ctx_cfg (f x) = ctx_cfg x /\ buffer (f x) = buffer x) -> respects net_frame (setctx c f).
Proof.
  intros Hf. unfold setctx, setlp. apply respects_modify. intros w.
  destruct c; split; cbn; try done; try apply Hf. f_equal. apply Hf.
Qed.
#[export] Hint Extern 1 (respects net_frame (setctx _ _)) =>
  (apply setctx_net_frame; intros; split; reflexivity) : respects.

Lemma setctx_quiet c f : respects no_send (setctx c f).
Proof. unfold setctx, setlp. solve_respects. Qed.
Lemma time_now_io : respects io_frame time_now.
Proof. apply ext_io. Qed.
Lemma time_now_quiet : respects no_send time_now.
Proof. apply ext_quiet. Qed.
#[export] Hint Resolve setctx_quiet time_now_io time_now_quiet : respects.

Lemma send_arp_ex_frame self d op sm si tm ti : respects ctx_frame (send_arp_ex self d op sm si tm ti).
Proof. unfold send_arp_ex, uninit. solve_respects. Qed.
#[export] Hint Resolve send_arp_ex_frame : respects.
Lemma send_arp_request_frame self ip : respects ctx_frame (send_arp_request self ip).
Proof. unfold send_arp_request, getctx, getlp. solve_respects. Qed.
#[export] Hint Resolve send_arp_request_frame : respects.
Lemma arp_has_ip_frame self ip : respects io_frame (arp_has_ip self ip).
Proof. unfold arp_has_ip, getctx, getlp. solve_respects. Qed.
Lemma arp_has_ip_quiet self ip : respects no_send (arp_has_ip self ip).
Proof. unfold arp_has_ip, getctx, getlp. solve_respects. Qed.
#[export] Hint Resolve arp_has_ip_frame arp_has_ip_quiet : respects.
Lemma arp_get_mac_by_ip_frame self ip : respects ctx_frame (arp_get_mac_by_ip self ip).
Proof. unfold arp_get_mac_by_ip, getctx, getlp. solve_respects. Qed.
Lemma arp_set_frame self mac ip : respects net_frame (arp_set self mac ip).
Proof. unfold arp_set, getctx, getlp. solve_respects. Qed.
Lemma arp_set_quiet self mac ip : respects no_send (arp_set self mac ip).
Proof. unfold arp_set, getctx, getlp. solve_respects. Qed.
#[export] Hint Resolve arp_get_mac_by_ip_frame arp_set_frame arp_set_quiet : respects.
Lemma send_zerotier_frame_io f n : respects io_frame (send_zerotier_frame f n).
Proof. unfold send_zerotier_frame. solve_respects. Qed.
#[export] Hint Resolve send_zerotier_frame_io : respects.
Lemma send_zerotier_arp_io s t : respects io_frame (lan_play_send_zerotier_arp s t).
Proof. unfold lan_play_send_zerotier_arp, getlp. solve_respects. Qed.
Lemma send_zerotier_arp_reply_io m t s : respects io_frame (lan_play_send_zerotier_arp_reply m t s).
Proof. unfold lan_play_send_zerotier_arp_reply, getlp. solve_respects. Qed.
#[export] Hint Resolve send_zerotier_arp_io send_zerotier_arp_reply_io : respects.
Lemma arp_request_frame self a : respects ctx_frame (arp_request self a).
Proof. unfold arp_request, getctx, getlp, option_of, send_arp. solve_respects. Qed.
#[export] Hint Resolve arp_request_frame : respects.
Lemma process_arp_frame self e : respects net_frame (process_arp self e).
Proof. unfold process_arp, arp_reply. solve_respects. Qed.
#[export] Hint Resolve process_arp_frame : respects.

(** ** What ARP sends *)

Definition arp_packet (op : Z) (smac sip tmac tip : list Z) : list Z :=
  net16 ARP_HARDTYPE_ETHER ++ net16 ETHER_TYPE_IPV4 ++ [6; 4] ++ net16 op ++
  smac ++ sip ++ tmac ++ tip.

Lemma blen_arp_packet op smac sip tmac tip :
  blen smac = 6 -> blen sip = 4 -> blen tmac = 6 -> blen tip = 4 ->
  blen (arp_packet op smac sip tmac tip) = 28.
Proof. intros. unfold arp_packet. blen_simp. lia. Qed.

(** Peel a buffer of known length into its bytes. *)
Lemma blen_S l n : 0 < n -> blen l = n -> exists a l', l = a :: l' /\ blen l' = n - 1.
Proof. destruct l as [|a l]; rewrite ?blen_nil, ?blen_cons; intros; [lia|]. exists a, l. split; [done|lia]. Qed.
Lemma blen_O l : blen l = 0 -> l = [].
Proof. destruct l; [done|]. rewrite blen_cons. pose proof (blen_nonneg l). lia. Qed.
Ltac explode H :=
  lazymatch type of H with
  | blen ?l = 0 => apply blen_O in H; subst l
  | blen ?l = ?n =>
      let a := fresh "x" in let l' := fresh "l" in let E := fresh in let H' := fresh in
      destruct (blen_S l n ltac:(lia) H) as (a & l' & E & H'); clear H; subst l;
      let m := eval vm_compute in (n - 1) in change (blen l' = m) in H'; explode H'
  end.

Lemma zerotier_arp_frame_spec dst op zmac sip tmac tip :
  blen dst = 6 -> blen zmac = 6 -> blen sip = 4 -> blen (default NONE_MAC tmac) = 6 -> blen tip = 4 ->
  zerotier_arp_frame dst op zmac sip tmac tip =
    Ok (ether dst zmac ETHER_TYPE_ARP (arp_packet op zmac sip (default NONE_MAC tmac) tip)).
Proof.
  intros H1 H2 H3 H4 H5. explode H1. explode H2. explode H3. explode H5.
  destruct tmac as [tmac|]; [change (blen tmac = 6) in H4; explode H4|clear H4]; reflexivity.
Qed.

(** *** Well-formed tables *)

Definition wf_item (x : arp_item) : Prop := blen (ai_ip x) = 4 /\ blen (ai_mac x) = 6.
Definition wf_tables (w : world) : Prop :=
  Forall wf_item (arp_list (lp_packet_ctx (lp w))) /\
  Forall wf_item (arp_list (zerotier_neighbors (lp w))).

Lemma arp_find_wf l ip now mac : Forall wf_item l -> arp_find l ip now = Some mac -> blen mac = 6.
Proof.
  induction 1 as [|x l [_ Hx] Hl IH]; cbn; [done|]. destruct (_ && _); [|done].
  intros [= <-]. done.
Qed.
Lemma arp_store_wf l mac ip now ttl l' :
  Forall wf_item l -> blen mac = 6 -> blen ip = 4 -> arp_store l mac ip now ttl = Some l' ->
  Forall wf_item l'.
Proof.
  intros Hl Hm Hi. revert l'. induction Hl as [|x l Hx Hl IH]; cbn; intros l'; [done|].
  destruct (_ || _).
  - intros [= <-]. by constructor.
  - intros (l1 & Hs & ->)%fmap_Some. constructor; [done|]. by apply IH.
Qed.

Lemma ctx_frame_tables w w' : ctx_frame w w' -> stays wf_tables w w'.
Proof. intros [] [H1 H2]. unfold ctx_ids in *. split; congruence. Qed.
Lemma respects_ctx_tables {A} (m : M A) : respects ctx_frame m -> respects (stays wf_tables) m.
Proof. apply respects_mono, ctx_frame_tables. Qed.
#[export] Hint Extern 4 (respects (stays wf_tables) _) =>
  (apply respects_ctx_tables; solve [auto with respects]) : respects.

Lemma arp_set_wf self mac ip :
  blen mac = 6 -> blen ip = 4 -> respects (stays wf_tables) (arp_set self mac ip).
Proof.
  intros Hm Hi w b w' E Hw. unfold arp_set, time_now, ext, getctx, getlp, setctx, setlp in E.
  unfold bind, gets, modify, ret in E. cbn in E.
  destruct (arp_store _ _ _ _ _) as [l|] eqn:Es; injection E as <- <-; [|done].
  destruct Hw as [H1 H2]. split; destruct self; cbn in *; try done;
    by eapply arp_store_wf; [|exact Hm|exact Hi|exact Es].
Qed.

Lemma rdn_len p i n d : rdn p i n = Ok d -> blen d = n.
Proof.
  unfold rdn. destruct (_ && _) eqn:E; [|done]. intros [= <-]. bool_lia. apply blen_field; lia.
Qed.
#[export] Hint Resolve rdn_len : relay.

(** inversion of a sequence of reads *)
Lemma obind_Ok {A B} (o : outcome A) (k : A -> outcome B) b :
  obind o k = Ok b -> exists a, o = Ok a /\ k a = Ok b.
Proof. destruct o; [eauto|done]. Qed.
Ltac inv_obind H :=
  repeat (apply obind_Ok in H as (? & ? & H)); try (injection H as <-).

Lemma parse_arp_wf e a : parse_arp e = Ok a ->
  blen (sender_mac a) = 6 /\ blen (sender_ip a) = 4 /\ blen (target_mac a) = 6 /\ blen (target_ip a) = 4.
Proof. unfold parse_arp. intros H. inv_obind H. cbn. split_and!; eauto with relay. Qed.

Lemma process_arp_tables self e : respects (stays wf_tables) (process_arp self e).
Proof.
  unfold process_arp, arp_reply. apply (respects_bind_lift _). intros a Ha.
  apply parse_arp_wf in Ha as (? & ? & ? & ?). destruct (_ || _); [apply (respects_ret _)|].
  apply (respects_bind _); [by apply arp_set_wf|]. intros _. solve_respects.
Qed.
#[export] Hint Resolve process_arp_tables : respects.

(** ** A relay that is up

    Both adapters are open with one interface, the send buffer is allocated
    and every stored address has its length; [wm] and [zm] are the adapters'
    addresses, [pm] the one the packet context sends from. *)

Record wf_adapters (a : adapters) : Prop := {
  wa_wifi_mac : blen (wifi_mac a) = 6;
  wa_wifi_ip : blen (wifi_ip a) = 4;
  wa_zt_mac : blen (zerotier_mac a) = 6;
  wa_zt_ip : blen (zerotier_ip a) = 4;
  wa_zt_mask : blen (zerotier_netmask a) = 4;
  wa_zt_bcast : blen (zerotier_broadcast_ip a) = 4;
  wa_bytes : bytes (zerotier_ip a) /\ bytes (zerotier_broadcast_ip a) /\ bytes (wifi_ip a) /\
    bytes (zerotier_netmask a);
  wa_wifi_net : wifi_subnet_known a = true ->
    blen (wifi_subnet a) = 4 /\ blen (wifi_netmask a) = 4 /\ blen (wifi_broadcast a) = 4
}.

Record ready (w : world) (wm zm pm : list Z) : Prop := {
  rd_send : sendable w wm;
  rd_zt : one_interface (lp_zerotier_pcap (lp w)) zm;
  rd_mac : pc_mac (lp_packet_ctx (lp w)) = Some pm;
  rd_mac6 : blen pm = 6;
  rd_ip : blen (pc_ip (lp_packet_ctx (lp w))) = 4;
  rd_ip_bytes : bytes (pc_ip (lp_packet_ctx (lp w)));
  rd_tables : wf_tables w;
  rd_adapters : wf_adapters (lp_adapters (lp w))
}.

Lemma sendable_net w w' mac : net_frame w w' -> sendable w mac -> sendable w' mac.
Proof.
  intros [] []. unfold ctx_cfg in *. split; try congruence. by eapply one_interface_ids.
Qed.
Lemma ready_net w w' wm zm pm :
  net_frame w w' -> wf_tables w' -> ready w wm zm pm -> ready w' wm zm pm.
Proof.
  intros Hf Ht []. split; try done.
  - by eapply sendable_net.
  - destruct Hf. by eapply one_interface_ids.
  - destruct Hf. unfold ctx_cfg in *. congruence.
  - destruct Hf. unfold ctx_cfg in *. congruence.
  - destruct Hf. unfold ctx_cfg in *. congruence.
  - destruct Hf. congruence.
Qed.
Lemma ready_ctx w w' wm zm pm : ctx_frame w w' -> ready w wm zm pm -> ready w' wm zm pm.
Proof.
  intros Hf Hr. eapply ready_net; [by apply ctx_net_frame| |done].
  eapply ctx_frame_tables; [done|]. apply Hr.
Qed.
Lemma ready_io w w' wm zm pm : io_frame w w' -> ready w wm zm pm -> ready w' wm zm pm.
Proof. intros. by eapply ready_ctx; [apply io_ctx_frame|]. Qed.

Lemma ready_same w w' wm zm pm :
  lp_packet_ctx (lp w') = lp_packet_ctx (lp w) -> zerotier_neighbors (lp w') = zerotier_neighbors (lp w) ->
  pcap_ids (lp_pcap (lp w')) = pcap_ids (lp_pcap (lp w)) ->
  pcap_ids (lp_zerotier_pcap (lp w')) = pcap_ids (lp_zerotier_pcap (lp w)) ->
  lp_adapters (lp w') = lp_adapters (lp w) -> ready w wm zm pm -> ready w' wm zm pm.
Proof.
  intros Hc Hn Hw Hz Ha [[] ? ? ? ? ? ? ?]. split; try congruence.
  - split; try congruence. by eapply one_interface_ids.
  - by eapply one_interface_ids.
  - unfold wf_tables in *. by rewrite Hc, Hn.
Qed.

(** a run that keeps everything but the tables, and the tables' form *)
Lemma wp_net {A} (m : M A) Q w wm zm pm :
  respects net_frame m -> respects (stays wf_tables) m -> ready w wm zm pm ->
  wp m Q w -> wp m (fun a w' => net_frame w w' /\ ready w' wm zm pm /\ Q a w') w.
Proof.
  intros H1 H2 Hr Hq. eapply wp_mono.
  { apply (wp_respects net_frame); [exact H1|].
    apply (wp_respects (stays wf_tables)); [exact H2|exact Hq]. }
  intros a w' (Hf & Ht & Ha). split_and!; [done| |done].
  eapply ready_net; [done| |done]. apply Ht, Hr.
Qed.
Lemma wp_ctx {A} (m : M A) Q w wm zm pm :
  respects ctx_frame m -> ready w wm zm pm ->
  wp m Q w -> wp m (fun a w' => ctx_frame w w' /\ ready w' wm zm pm /\ Q a w') w.
Proof.
  intros H1 Hr Hq. eapply wp_mono; [apply (wp_respects ctx_frame); [exact H1|exact Hq]|].
  intros a w' (Hf & Ha). split_and!; [done|by eapply ready_ctx|done].
Qed.

Section Specs.
Context (wm zm pm : list Z).

Lemma send_arp_ex_spec w dst op smac sip tmac tip :
  ready w wm zm pm -> blen dst = 6 -> blen smac = 6 -> blen sip = 4 -> blen tmac = 6 ->
  blen tip = 4 -> is_byte op ->
  wp (send_arp_ex WifiCtx dst op (Some smac) sip tmac tip) (fun _ w' => ctx_frame w w' /\
    ready w' wm zm pm /\
    trace w' = (Wifi, 0%nat, ether dst wm ETHER_TYPE_ARP (arp_packet op smac sip tmac tip)) :: trace w) w.
Proof.
  intros Hr Hd Hs Hsi Ht Hti Hop. apply wp_ctx; [auto with respects|done|].
  unfold send_arp_ex, ARP_LEN, WRITE_NET16, WRITE_NET8, ARP_OFF_HARDWARE, ARP_OFF_PROTOCOL,
    ARP_OFF_HARDWARE_SIZE, ARP_OFF_PROTOCOL_SIZE, ARP_OFF_OPCODE, ARP_OFF_SENDER_MAC,
    ARP_OFF_SENDER_IP, ARP_OFF_TARGET_MAC, ARP_OFF_TARGET_IP.
  rewrite (u8_small op) by done.
  apply wp_uninit; [lia|]. intros b0 _ L0.
  do 5 write_step. apply wp_bind. eapply wp_lift; [done|]. do 4 write_step.
  join_writes b0. rewrite splice_all, <- !app_assoc by (blen_simp; lia).
  set (b := arp_packet op smac sip tmac tip).
  match goal with |- context [mkPayload ?d _] => change d with b end.
  assert (Hb : blen b = 28) by (by apply blen_arp_packet).
  assert (Hpb : payload_bytes [mkPayload b 28] = b) by (by apply payload_bytes_one).
  destruct Hr. eapply wp_mono; [apply (send_ether_spec _ _ _ _ wm pm); try done|].
  - apply valid_one. lia.
  - rewrite Hpb. unfold BUFFER_SIZE. lia.
  - intros rc w' [_ ->]. by rewrite Hpb.
Qed.

Lemma send_arp_request_spec w tip :
  ready w wm zm pm -> blen tip = 4 ->
  wp (send_arp_request WifiCtx tip) (fun _ w' => ctx_frame w w' /\ ready w' wm zm pm /\
    trace w' = (Wifi, 0%nat, ether BROADCASE_MAC wm ETHER_TYPE_ARP
      (arp_packet ARP_OPCODE_REQUEST pm (pc_ip (lp_packet_ctx (lp w))) NONE_MAC tip)) :: trace w) w.
Proof.
  intros Hr Ht. unfold send_arp_request. apply wp_bind, wp_gets, wp_bind, wp_gets. cbn [get_ctx].
  pose proof Hr as []. rewrite rd_mac0. by apply send_arp_ex_spec.
Qed.

Lemma send_zerotier_frame_spec w frame n :
  ready w wm zm pm -> 12 <= blen frame -> 0 <= n <= blen frame ->
  wp (send_zerotier_frame frame n) (fun _ w' => ctx_frame w w' /\ ready w' wm zm pm /\
    trace w' = (ZeroTier, 0%nat, field (splice frame 6 zm) 0 n) :: trace w) w.
Proof.
  intros Hr Hl Hn. apply wp_ctx; [auto with respects|done|].
  unfold send_zerotier_frame. apply wp_bind, wp_modify, wp_bind.
  eapply wp_mono; [apply diagnostic_log_frame_spec; lia|]. intros [] w1 [Hf Ht].
  eapply wp_mono; [apply (uv_pcap_sendpacket_spec _ ZeroTier zm); try done|].
  - eapply one_interface_ids; [apply (io_zt _ _ Hf)|]. apply Hr.
  - intros rc w2 ->. by rewrite Ht.
Qed.

Lemma zerotier_ether_spec w dst src type body n :
  ready w wm zm pm -> blen dst = 6 -> blen src = 6 -> n = 14 + blen body ->
  wp (send_zerotier_frame (ether dst src type body) n) (fun _ w' => ctx_frame w w' /\
    ready w' wm zm pm /\ trace w' = (ZeroTier, 0%nat, ether dst zm type body) :: trace w) w.
Proof.
  intros Hr Hd Hs ->. pose proof (blen_nonneg body).
  assert (Hl : forall s, blen s = 6 -> blen (ether dst s type body) = 14 + blen body)
    by (intros; unfold ether; blen_simp; lia).
  pose proof (rd_zt _ _ _ _ Hr) as (Hz & _).
  eapply wp_mono; [apply send_zerotier_frame_spec; [done| |]; rewrite Hl by done; lia|].
  intros rc w' (? & ? & ->). split_and!; [done|done|].
  rewrite splice_ether, field_all by (done || rewrite ?Hl by done; done). done.
Qed.

Lemma send_zerotier_arp_spec w sip tip :
  ready w wm zm pm -> blen sip = 4 -> blen tip = 4 ->
  wp (lan_play_send_zerotier_arp sip tip) (fun _ w' => ctx_frame w w' /\ ready w' wm zm pm /\
    trace w' = (ZeroTier, 0%nat, ether BROADCASE_MAC zm ETHER_TYPE_ARP
      (arp_packet ARP_OPCODE_REQUEST (zerotier_mac (lp_adapters (lp w))) sip NONE_MAC tip)) :: trace w) w.
Proof.
  intros Hr Hs Ht. pose proof (rd_adapters _ _ _ _ Hr) as [].
  unfold lan_play_send_zerotier_arp. apply wp_bind, wp_gets, wp_bind.
  eapply wp_lift; [by apply zerotier_arp_frame_spec|]. cbn [default].
  apply zerotier_ether_spec; try done. by rewrite blen_arp_packet.
Qed.

Lemma send_zerotier_arp_reply_spec w tmac tip sip :
  ready w wm zm pm -> blen sip = 4 -> blen tip = 4 -> blen tmac = 6 ->
  wp (lan_play_send_zerotier_arp_reply tmac tip sip) (fun _ w' => ctx_frame w w' /\
    ready w' wm zm pm /\
    trace w' = (ZeroTier, 0%nat, ether tmac zm ETHER_TYPE_ARP
      (arp_packet ARP_OPCODE_REPLY (zerotier_mac (lp_adapters (lp w))) tip tmac sip)) :: trace w) w.
Proof.
  intros Hr Hs Ht Hm. pose proof (rd_adapters _ _ _ _ Hr) as [].
  unfold lan_play_send_zerotier_arp_reply. apply wp_bind, wp_gets, wp_bind.
  eapply wp_lift; [by apply zerotier_arp_frame_spec|].
  apply zerotier_ether_spec; try done. by rewrite blen_arp_packet.
Qed.

(** *** Lookups *)

(** the binding the clock of the next call sees *)
Definition known_mac (self : ctx) (w : world) (ip : list Z) : option (list Z) :=
  arp_find (arp_list (get_ctx self (lp w))) ip (env_time (environment w) (tick w)).

Lemma arp_has_ip_spec self ip w :
  wp (arp_has_ip self ip) (fun b w' => io_frame w w' /\ trace w' = trace w /\
    b = bool_decide (is_Some (known_mac self w ip))) w.
Proof.
  apply (wp_respects io_frame); [auto with respects|].
  apply (wp_respects no_send); [auto with respects|].
  by apply wp_bind, wp_bind, wp_gets, wp_bind, wp_modify, wp_ret, wp_bind, wp_gets, wp_ret.
Qed.

Lemma arp_get_mac_by_ip_hit self ip w mac :
  known_mac self w ip = Some mac ->
  wp (arp_get_mac_by_ip self ip) (fun r w' => io_frame w w' /\ trace w' = trace w /\ r = Some mac) w.
Proof.
  intros Hk. apply wp_bind, wp_bind, wp_gets, wp_bind, wp_modify, wp_ret, wp_bind, wp_gets.
  unfold known_mac in Hk. destruct self; cbn in *; rewrite Hk; apply wp_ret;
    (split; [io_frame_easy|done]).
Qed.

Lemma arp_get_mac_by_ip_miss ip w :
  ready w wm zm pm -> blen ip = 4 -> known_mac WifiCtx w ip = None ->
  wp (arp_get_mac_by_ip WifiCtx ip) (fun r w' => ctx_frame w w' /\ ready w' wm zm pm /\
    r = None /\ trace w' = (Wifi, 0%nat, ether BROADCASE_MAC wm ETHER_TYPE_ARP
      (arp_packet ARP_OPCODE_REQUEST pm (pc_ip (lp_packet_ctx (lp w))) NONE_MAC ip)) :: trace w) w.
Proof.
  intros Hr Hi Hk. apply wp_ctx; [auto with respects|done|].
  apply wp_bind, wp_bind, wp_gets, wp_bind, wp_modify, wp_ret, wp_bind, wp_gets. cbn.
  unfold known_mac in Hk. cbn in Hk. rewrite Hk. apply wp_bind.
  set (w1 := w <| tick ::= S |>).
  assert (Hr1 : ready w1 wm zm pm) by (eapply ready_io; [io_frame_easy|done]).
  eapply wp_mono; [by apply send_arp_request_spec|]. intros rc w' (_ & _ & Ht). by apply wp_ret.
Qed.

Lemma arp_set_spec self mac ip w : wp (arp_set self mac ip) (fun _ w' => trace w' = trace w) w.
Proof.
  eapply wp_mono; [apply (wp_respects no_send (arp_set self mac ip) (fun _ _ => True))|by intros ?? [? _]].
  { auto with respects. }
  apply wp_bind, wp_bind, wp_gets, wp_bind, wp_modify, wp_ret, wp_bind, wp_gets, wp_bind, wp_gets.
  by destruct (arp_store _ _ _ _ _).
Qed.

Lemma arp_set_ready self mac ip w :
  ready w wm zm pm -> blen mac = 6 -> blen ip = 4 ->
  wp (arp_set self mac ip) (fun _ w' => net_frame w w' /\ ready w' wm zm pm /\ trace w' = trace w) w.
Proof.
  intros Hr Hm Hi. apply (wp_net _ (fun _ w' => trace w' = trace w)); [auto with respects| |done|].
  - by apply arp_set_wf.
  - apply arp_set_spec.
Qed.

(** *** Proxy ARP *)

(** the answer to a request: to the console for every other address of the
    subnet, to a ZeroTier peer only for the relay's managed address *)
Definition arp_answer (w : world) (a : arp) : list (wire * nat * list Z) :=
  let c := lp_packet_ctx (lp w) in
  if negb (IS_SUBNET (target_ip a) (subnet_net c) (subnet_mask c)) ||
     CMP_IPV4 (target_ip a) (sender_ip a) || CMP_IPV4 (sender_ip a) NONE_IP then [] else
  if ingress_zerotier (lp w) then
    if CMP_IPV4 (target_ip a) (zerotier_ip (lp_adapters (lp w))) then
      [(ZeroTier, 0%nat, ether (sender_mac a) zm ETHER_TYPE_ARP
         (arp_packet ARP_OPCODE_REPLY (zerotier_mac (lp_adapters (lp w))) (target_ip a)
            (sender_mac a) (sender_ip a)))]
    else []
  else
    [(Wifi, 0%nat, ether (sender_mac a) wm ETHER_TYPE_ARP
       (arp_packet ARP_OPCODE_REPLY pm (target_ip a) (sender_mac a) (sender_ip a)))].

Definition wf_arp (a : arp) : Prop :=
  blen (sender_mac a) = 6 /\ blen (sender_ip a) = 4 /\ blen (target_ip a) = 4.

Lemma arp_request_spec a w :
  ready w wm zm pm -> wf_arp a -> opt_zerotier_if (options w) = true ->
  wp (arp_request WifiCtx a) (fun _ w' => ctx_frame w w' /\ ready w' wm zm pm /\
    trace w' = arp_answer w a ++ trace w) w.
Proof.
  intros Hr (Hm & Hs & Ht) Hz. apply wp_ctx; [auto with respects|done|].
  unfold arp_request, arp_answer. apply wp_bind, wp_gets, wp_bind, wp_gets. cbn [get_ctx].
  destruct (IS_SUBNET _ _ _); cbn [negb orb]; [|by apply wp_ret].
  destruct (CMP_IPV4 (target_ip a) (sender_ip a)); cbn [orb]; [by apply wp_ret|].
  destruct (CMP_IPV4 (sender_ip a) NONE_IP); [by apply wp_ret|].
  apply wp_bind, wp_gets. cbn [get_ctx]. rewrite (sd_arg _ _ (rd_send _ _ _ _ Hr)). cbn [negb].
  apply wp_bind, wp_gets. destruct (ingress_zerotier (lp w)).
  { apply wp_bind, wp_gets. destruct (CMP_IPV4 _ _); cbn [negb]; [|by apply wp_ret].
    eapply wp_mono; [by apply send_zerotier_arp_reply_spec|]. by intros rc w' (_ & _ & ->). }
  apply wp_bind, wp_gets, wp_bind.
  eapply wp_mono with (P := fun _ w' => io_frame w w' /\ trace w' = trace w).
  { destruct (CMP_IPV4 _ _); [by apply wp_ret|]. apply wp_bind.
    eapply wp_mono; [apply arp_has_ip_spec|]. intros b w1 (Hf & Htr & _).
    apply wp_bind, wp_gets. rewrite (io_options _ _ Hf), Hz, andb_false_r. by apply wp_ret. }
  intros [] w1 [Hf Htr]. assert (Hr1 : ready w1 wm zm pm) by (by eapply ready_io).
  apply wp_bind, wp_gets. cbn [get_ctx]. rewrite (rd_mac _ _ _ _ Hr1).
  eapply wp_mono; [apply send_arp_ex_spec; try done; apply Hr|].
  intros rc w2 (_ & _ & ->). by rewrite Htr.
Qed.
End Specs.

(** ** The sample state is ready *)

Lemma sample_ready : ready Sample.relay Sample.wifi_mac Sample.zt_mac Sample.wifi_mac.
Proof.
  split; try done.
  - repeat constructor; done.
  - split; apply Forall_replicate; done.
  - split; try done. split_and!; repeat constructor; done.
Qed.
Lemma sample_ready_seen : ready Sample.relay_seen Sample.wifi_mac Sample.zt_mac Sample.wifi_mac.
Proof. eapply ready_same; [..|exact sample_ready]; done. Qed.

(** ** Properties *)


(** A store fails only when all entries of the cache are live and belong to
    other addresses; otherwise the cache keeps its size. *)
Theorem arp_cache_full l mac ip now ttl :
  match arp_store l mac ip now ttl with
  | None => Forall (fun x => ai_ip x <> NONE_IP /\ ai_ip x <> ip /\ now <= expire_at x) l
  | Some l' => length l' = length l
  end.
Proof.
  destruct (arp_store _ _ _ _ _) as [l'|] eqn:E; [|by apply arp_store_full in E].
  revert l' E. induction l as [|x l IH]; intros l' E; [done|]. cbn in E. destruct (_ || _).
  - by injection E as <-.
  - apply fmap_Some in E as (l1 & E & ->). cbn. by rewrite (IH l1).
Qed.

(** Proxy ARP: a request is answered exactly when it asks, with a proper
    sender address, for another address of the subnet; on Wi-Fi for every such
    address with the relay's own MAC, on the overlay only for the managed
    address; the reply is a well-formed ARP reply to the asker, and nothing else
    is sent. *)
Theorem proxy_arp_answers wm zm pm a w :
  ready w wm zm pm -> wf_arp a -> opt_zerotier_if (options w) = true ->
  wp (arp_request WifiCtx a) (fun _ w' => trace w' = arp_answer wm zm pm w a ++ trace w) w.
Proof.
  intros Hr Ha Hz. eapply wp_mono; [by apply (arp_request_spec wm zm pm)|]. by intros _ w' (_ & _ & Ht).
Qed.

(** ** Witnesses *)

Definition sample_stores : list binding :=
  [mkBinding 5 Sample.peer_mac Sample.peer_ip; mkBinding 7 Sample.console_mac Sample.peer_ip].

Definition sample_arp : arp :=
  mkArp 1 2048 6 4 1 Sample.console_mac Sample.console_ip NONE_MAC Sample.peer_ip.
Lemma proxy_arp_witness :
  wp (arp_request WifiCtx sample_arp) (fun _ w' =>
    trace w' = arp_answer Sample.wifi_mac Sample.zt_mac Sample.wifi_mac Sample.relay sample_arp ++ trace Sample.relay)
    Sample.relay.
Proof. apply proxy_arp_answers; [apply sample_ready|by repeat split|reflexivity]. Defined.
