(* ===== verification/Ipv4.v ===== *)
(** * IPv4: parsing, local delivery, the ZeroTier senders and the gateway

    src/src/ipv4/ipv4.c, icmp.c and udp.c, the IPv4 senders of
    src/src/lan-play.c, the receiving half of src/src/packet.c, and from
    src/src/gateway.cpp the dispatch of a packet to the UDP proxy or to the
    TCP/IP stack.  The stack (lwIP) and the proxies are outside: the former
    answers through [env_lwip], datagrams for the latter are output events. *)
From S2P Require Import Prelude Bytes Checksum World Sample Pcap Packet Arp.

Definition IPV4_OFF_DSCP_ECN : Z := 1.
Definition IPV4_OFF_END : Z := 20.
Definition UDP_OFF_SRCPORT : Z := 0.
Definition UDP_OFF_DSTPORT : Z := 2.
Definition UDP_OFF_LENGTH : Z := 4.
Definition UDP_OFF_CHECKSUM : Z := 6.
Definition UDP_OFF_END : Z := 8.
Definition IPV4P_OFF_SRC : Z := 0.
Definition IPV4P_OFF_DST : Z := 4.
Definition IPV4P_OFF_ZERO : Z := 8.
Definition IPV4P_OFF_PROTOCOL : Z := 9.
Definition IPV4P_OFF_LENGTH : Z := 10.
Definition IPV4P_OFF_END : Z := 12.

(** ** Senders *)

(** the local [frame] array of the IPv4 senders of lan-play.c, filled *)
Definition ipv4_frame (dst src packet : list Z) (len : Z) : M (list Z) :=
  let* f := uninit (ETHER_MTU + ETHER_HEADER_LEN) in
  let? f := wrn f ETHER_OFF_DST dst in
  let? f := wrn f ETHER_OFF_SRC src in
  let? f := WRITE_NET16 f ETHER_OFF_TYPE ETHER_TYPE_IPV4 in
  let? d := rdn packet 0 len in
  let? f := wrn f ETHER_HEADER_LEN d in
  ret f.

Definition lan_play_send_wifi_ipv4 (dst_mac ip : list Z) (ip_len : Z) : M Z :=
  if (ip_len <? IPV4_HEADER_LEN) || (ETHER_MTU <? ip_len) then ret (-1) else
  let* mac := getlp (fun l => wifi_mac (lp_adapters l)) in
  let* frame := ipv4_frame dst_mac mac ip ip_len in
  lan_play_send_packet frame (ip_len + ETHER_HEADER_LEN).

Definition lan_play_dhcp_send (dst_mac ip : list Z) (ip_len : Z) : M Z :=
  lan_play_send_wifi_ipv4 dst_mac ip ip_len.

Definition lan_play_send_zerotier_ipv4_broadcast (packet : list Z) (len : Z) : M Z :=
  if (len <? IPV4_HEADER_LEN) || (ETHER_MTU <? len) then ret (-1) else
  let* mac := getlp (fun l => zerotier_mac (lp_adapters l)) in
  let* frame := ipv4_frame BROADCASE_MAC mac packet len in
  send_zerotier_frame frame (len + ETHER_HEADER_LEN).

Definition lan_play_send_zerotier_ipv4 (dst_ip packet : list Z) (len : Z) : M Z :=
  if (len <? IPV4_HEADER_LEN) || (ETHER_MTU <? len) then ret (-1) else
  let* has := arp_has_ip NeighborCtx dst_ip in
  let* dst := (if has then arp_get_mac_by_ip NeighborCtx dst_ip else ret None) in
  match dst with
  | None =>
      let* zip := getlp (fun l => zerotier_ip (lp_adapters l)) in
      let* r := lan_play_send_zerotier_arp zip dst_ip in
      lan_play_send_zerotier_ipv4_broadcast packet len
  | Some dst =>
      let* mac := getlp (fun l => zerotier_mac (lp_adapters l)) in
      let* frame := ipv4_frame dst mac packet len in
      send_zerotier_frame frame (len + ETHER_HEADER_LEN)
  end.

(** src/src/lan-client.c: the relay-server client hands IPv4 to ZeroTier *)
Definition lan_client_send_ipv4 (dst_ip packet : list Z) (len : Z) : M Z :=
  lan_play_send_zerotier_ipv4 dst_ip packet len.

Definition lan_play_gateway_send_packet (self : ctx) (data : list Z) (len : Z) : M Z :=
  let? dst := rdn data IPV4_OFF_DST 4 in
  let* mac := arp_get_mac_by_ip self dst in
  match mac with
  | None => ret 0
  | Some mac => send_ether self mac ETHER_TYPE_IPV4 [mkPayload data (u16 len)]
  end.

Definition ipv4_header (id total protocol : Z) (src dst : list Z) : M (list Z) :=
  let* b := uninit IPV4_HEADER_LEN in
  let? b := WRITE_NET8 b IPV4_OFF_VER_LEN 69 in
  let? b := WRITE_NET8 b IPV4_OFF_DSCP_ECN 0 in
  let? b := WRITE_NET16 b IPV4_OFF_TOTAL_LEN total in
  let? b := WRITE_NET16 b IPV4_OFF_ID id in
  let? b := WRITE_NET16 b IPV4_OFF_FLAGS_FRAG_OFFSET 0 in
  let? b := WRITE_NET8 b IPV4_OFF_TTL 128 in
  let? b := WRITE_NET8 b IPV4_OFF_PROTOCOL protocol in
  let? b := WRITE_NET16 b IPV4_OFF_CHECKSUM 0 in
  let? b := wrn b IPV4_OFF_SRC src in
  let? b := wrn b IPV4_OFF_DST dst in
  let? checksum := calc_checksum b IPV4_HEADER_LEN in
  let? b := WRITE_NET16 b IPV4_OFF_CHECKSUM checksum in
  ret b.

Definition send_ipv4_ex (self : ctx) (src dst : list Z) (protocol : Z) (parts : list payload) : M Z :=
  let* id := getctx self identification in
  setctx self (set identification (fun n => u16 (n + 1))) ;;;
  let* b := ipv4_header id (IPV4_HEADER_LEN + payload_total_len parts) protocol src dst in
  let* dst_mac := arp_get_mac_by_ip self dst in
  match dst_mac with
  | None => ret 0
  | Some dst_mac => send_ether self dst_mac ETHER_TYPE_IPV4 (mkPayload b IPV4_HEADER_LEN :: parts)
  end.

Definition send_ipv4 (self : ctx) (dst : list Z) (protocol : Z) (parts : list payload) : M Z :=
  let* ip := getctx self pc_ip in
  send_ipv4_ex self ip dst protocol parts.

Definition send_udp_ex (self : ctx) (src : list Z) (srcport : Z) (dst : list Z) (dstport : Z)
    (parts : list payload) : M Z :=
  let udp_length := u16 (UDP_OFF_END + payload_total_len parts) in
  let* b := uninit UDP_OFF_END in
  let? b := WRITE_NET16 b UDP_OFF_SRCPORT srcport in
  let? b := WRITE_NET16 b UDP_OFF_DSTPORT dstport in
  let? b := WRITE_NET16 b UDP_OFF_LENGTH udp_length in
  let? b := WRITE_NET16 b UDP_OFF_CHECKSUM 0 in
  let* h := uninit IPV4P_OFF_END in
  let? h := wrn h IPV4P_OFF_SRC src in
  let? h := wrn h IPV4P_OFF_DST dst in
  let? h := WRITE_NET8 h IPV4P_OFF_ZERO 0 in
  let? h := WRITE_NET8 h IPV4P_OFF_PROTOCOL IPV4_PROTOCOL_UDP in
  let? h := WRITE_NET16 h IPV4P_OFF_LENGTH udp_length in
  let? checksum := calc_payload_checksum
    (mkPayload h IPV4P_OFF_END :: mkPayload b UDP_OFF_END :: parts) in
  let? b := WRITE_NET16 b UDP_OFF_CHECKSUM checksum in
  send_ipv4_ex self src dst IPV4_PROTOCOL_UDP (mkPayload b UDP_OFF_END :: parts).

(** ** Parsers *)

Record ipv4 := mkIpv4 {
  ip_version : Z;
  ip_header_len : Z;
  ip_dscp : Z;
  ip_ecn : Z;
  ip_total_len : Z;
  ip_identification : Z;
  ip_flags : Z;
  ip_fragment_offset : Z;
  ip_ttl : Z;
  ip_protocol : Z;
  ip_checksum : Z;
  ip_src : list Z;
  ip_dst : list Z;
  ip_payload : list Z
}.

Definition parse_ipv4 (ether : ether_frame) : outcome ipv4 :=
  let packet := eth_payload ether in
  try t := READ_NET8 packet IPV4_OFF_VER_LEN in
  let version := Z.shiftr t 4 in
  let header_len := Z.land t 15 * 4 in
  try t := READ_NET8 packet IPV4_OFF_DSCP_ECN in
  let dscp := Z.shiftr t 2 in
  let ecn := Z.land t 3 in
  try total_len := READ_NET16 packet IPV4_OFF_TOTAL_LEN in
  try identification := READ_NET16 packet IPV4_OFF_ID in
  try fl := READ_NET16 packet IPV4_OFF_FLAGS_FRAG_OFFSET in
  try ttl := READ_NET8 packet IPV4_OFF_TTL in
  try protocol := READ_NET8 packet IPV4_OFF_PROTOCOL in
  try checksum := READ_NET16 packet IPV4_OFF_PROTOCOL in
  try src := rdn packet IPV4_OFF_SRC 4 in
  try dst := rdn packet IPV4_OFF_DST 4 in
  Ok (mkIpv4 version header_len dscp ecn total_len identification (Z.shiftr fl 13)
        (Z.land fl 8191) ttl protocol checksum src dst (ptr packet header_len)).

Record udp := mkUdp {
  udp_srcport : Z;
  udp_dstport : Z;
  udp_length_ : Z;
  udp_checksum_ : Z;
  udp_payload : list Z
}.

Definition parse_udp (ip : ipv4) : outcome udp :=
  let packet := ip_payload ip in
  try sport := READ_NET16 packet UDP_OFF_SRCPORT in
  try dport := READ_NET16 packet UDP_OFF_DSTPORT in
  try len := READ_NET16 packet UDP_OFF_LENGTH in
  try sum := READ_NET16 packet UDP_OFF_CHECKSUM in
  Ok (mkUdp sport dport len sum (ptr packet UDP_OFF_END)).

(** ** The gateway *)

(** the packets the stack outputs while it handles an input *)
Fixpoint uvl_outputs (self : ctx) (packets : list (list Z)) : M unit :=
  match packets with
  | [] => ret tt
  | p :: packets =>
      let* r := lan_play_gateway_send_packet self p (blen p) in
      uvl_outputs self packets
  end.

Definition processUdp (data : list Z) (data_len : Z) : M Z :=
  let? version := (if 0 <? data_len then
                     try b := READ_NET8 data 0 in Ok (Z.shiftr b 4)
                   else Ok 0) in
  if negb (version =? 4) then ret (-1) else
  if data_len <? IPV4_OFF_END then ret (-1) else
  let? protocol := READ_NET8 data IPV4_OFF_PROTOCOL in
  if negb (protocol =? IPV4_PROTOCOL_UDP) then ret (-1) else
  let? b := READ_NET8 data 0 in
  let ipv4_header_len := Z.land b 15 * 4 in
  let udp_base := ptr data ipv4_header_len in
  let? src := rdn data IPV4_OFF_SRC 4 in
  let? dst := rdn data IPV4_OFF_DST 4 in
  let? srcport := READ_NET16 udp_base UDP_OFF_SRCPORT in
  let? dstport := READ_NET16 udp_base UDP_OFF_DSTPORT in
  let len := u16 (data_len - ipv4_header_len - UDP_OFF_END) in
  let? payload := rdn (ptr udp_base UDP_OFF_END) 0 len in
  emit (ProxyUdp src srcport dst dstport payload) ;;;
  ret 0.

Definition onPacket (self : ctx) (data : list Z) (data_len : Z) : M unit :=
  let* r := processUdp data data_len in
  if r =? 0 then ret tt else
  let? b := rdn data 0 data_len in
  emit (LwipInput b) ;;;
  let* outputs := ext (fun e n => env_lwip e n b) in
  uvl_outputs self outputs.

Definition gateway_on_packet (self : ctx) (data : list Z) (data_len : Z) : M unit :=
  onPacket self (ptr data ETHER_OFF_END) (data_len - ETHER_OFF_END).

(** ** Processing *)

Definition process_icmp (self : ctx) (ip : ipv4) : M Z :=
  let* payload := uninit BUFFER_SIZE in
  let icmp_len := ip_total_len ip - ip_header_len ip in
  let? d := rdn (ip_payload ip) 0 icmp_len in
  let? payload := wrn payload 0 d in
  let? payload := WRITE_NET8 payload 0 0 in
  let? payload := WRITE_NET16 payload 2 0 in
  let? sum := calc_checksum payload icmp_len in
  let? payload := WRITE_NET16 payload 2 sum in
  let* r := send_ipv4 self (ip_src ip) IPV4_PROTOCOL_ICMP [mkPayload payload (u16 icmp_len)] in
  ret 0.

Definition is_nintendo_lan_broadcast (ip : list Z) : bool :=
  (getb ip 0 =? 10) && (getb ip 1 =? 255) && (getb ip 2 =? 255) && (getb ip 3 =? 255).

(** [send_ether] of the received datagram to the local network *)
Definition send_local (self : ctx) (dst : list Z) (ether : ether_frame) (ip : ipv4) : M Z :=
  send_ether self dst ETHER_TYPE_IPV4 [mkPayload (eth_payload ether) (ip_total_len ip)].

Definition process_ipv4 (self : ctx) (ether : ether_frame) : M Z :=
  let? ip := parse_ipv4 ether in
  let* r := arp_set self (eth_src ether) (ip_src ip) in
  let* my_ip := getctx self pc_ip in
  let* net := getctx self subnet_net in
  let* mask := getctx self subnet_mask in
  let* arg := getctx self pc_arg in
  let* ingress := getlp ingress_zerotier in
  if CMP_IPV4 (ip_dst ip) my_ip then
    if ip_protocol ip =? IPV4_PROTOCOL_ICMP then process_icmp self ip else ret 0
  else if is_nintendo_lan_broadcast (ip_dst ip) then
    if negb arg then stop NullDeref else
    if ingress then send_local self BROADCASE_MAC ether ip
    else lan_play_send_zerotier_ipv4_broadcast (eth_payload ether) (ip_total_len ip)
  else if IS_SUBNET (ip_dst ip) net mask then
    if negb arg then stop NullDeref else
    if IS_BROADCAST (ip_dst ip) net mask then
      if ingress then send_local self BROADCASE_MAC ether ip
      else lan_client_send_ipv4 (ip_dst ip) (eth_payload ether) (ip_total_len ip)
    else if negb ingress then
      lan_client_send_ipv4 (ip_dst ip) (eth_payload ether) (ip_total_len ip)
    else
      let* has := arp_has_ip self (ip_dst ip) in
      if has then
        let* junk := uninit 6 in
        let* mac := arp_get_mac_by_ip self (ip_dst ip) in
        send_local self (default junk mac) ether ip
      else lan_client_send_ipv4 (ip_dst ip) (eth_payload ether) (ip_total_len ip)
  else
    let* mac := getctx self pc_mac in
    let? mac := deref mac in
    if CMP_MAC mac (eth_dst ether) then
      if negb arg then stop NullDeref else
      gateway_on_packet self (eth_raw ether) (eth_raw_len ether) ;;; ret 0
    else ret 0.

Definition process_ether (self : ctx) (packet : list Z) (len : Z) : M Z :=
  let? ether := parse_ether packet len in
  let* mac := getctx self pc_mac in
  let? mac := deref mac in
  if CMP_MAC (eth_src ether) mac then ret 0 else
  if eth_type ether =? ETHER_TYPE_ARP then process_arp self ether
  else if eth_type ether =? ETHER_TYPE_IPV4 then process_ipv4 self ether
  else ret 0.

(** the header of a captured frame: [len] on the wire, [caplen] captured *)
Record pcap_pkthdr := mkPkthdr { pkt_caplen : Z; pkt_len : Z }.

Definition print_packet (h : pcap_pkthdr) (packet : list Z) : M unit :=
  let? b := rdn packet 0 (pkt_len h) in
  emit (PrintedPacket b).

Definition get_packet (self : ctx) (h : pcap_pkthdr) (packet : list Z) : M unit :=
  if 65536 <=? pkt_len h then print_packet h packet else
  setctx self (set pc_download_packet (fun n => u64 (n + 1))) ;;;
  setctx self (set pc_download_byte (fun n => u64 (n + pkt_len h))) ;;;
  let* r := process_ether self packet (pkt_len h) in
  if r =? 0 then ret tt else print_packet h packet.

(** ** What IPv4 processing leaves alone *)

Lemma ipv4_frame_io d s p n : respects io_frame (ipv4_frame d s p n).
Proof. unfold ipv4_frame, uninit. solve_respects. Qed.
Lemma ipv4_frame_quiet d s p n : respects no_send (ipv4_frame d s p n).
Proof. unfold ipv4_frame, uninit. solve_respects. Qed.
#[export] Hint Resolve ipv4_frame_io ipv4_frame_quiet : respects.
Lemma send_wifi_ipv4_io d p n : respects io_frame (lan_play_send_wifi_ipv4 d p n).
Proof. unfold lan_play_send_wifi_ipv4, getlp. solve_respects. Qed.
#[export] Hint Resolve send_wifi_ipv4_io : respects.
Lemma send_zerotier_ipv4_broadcast_io p n : respects io_frame (lan_play_send_zerotier_ipv4_broadcast p n).
Proof. unfold lan_play_send_zerotier_ipv4_broadcast, getlp. solve_respects. Qed.
#[export] Hint Resolve send_zerotier_ipv4_broadcast_io : respects.
Lemma send_zerotier_ipv4_frame d p n : respects ctx_frame (lan_play_send_zerotier_ipv4 d p n).
Proof. unfold lan_play_send_zerotier_ipv4, getlp. solve_respects. Qed.
#[export] Hint Resolve send_zerotier_ipv4_frame : respects.
Lemma gateway_send_packet_frame s d n : respects ctx_frame (lan_play_gateway_send_packet s d n).
Proof. unfold lan_play_gateway_send_packet. solve_respects. Qed.
#[export] Hint Resolve gateway_send_packet_frame : respects.
Lemma ipv4_header_io i t p s d : respects io_frame (ipv4_header i t p s d).
Proof. unfold ipv4_header, uninit. solve_respects. Qed.
#[export] Hint Resolve ipv4_header_io : respects.
Lemma send_ipv4_ex_frame c s d p ps : respects ctx_frame (send_ipv4_ex c s d p ps).
Proof. unfold send_ipv4_ex, getctx, getlp. solve_respects. Qed.
#[export] Hint Resolve send_ipv4_ex_frame : respects.
Lemma send_ipv4_frame c d p ps : respects ctx_frame (send_ipv4 c d p ps).
Proof. unfold send_ipv4, getctx, getlp. solve_respects. Qed.
#[export] Hint Resolve send_ipv4_frame : respects.
Lemma send_udp_ex_frame c s sp d dp ps : respects ctx_frame (send_udp_ex c s sp d dp ps).
Proof. unfold send_udp_ex, uninit. solve_respects. Qed.
Lemma uvl_outputs_frame c ps : respects ctx_frame (uvl_outputs c ps).
Proof. induction ps; cbn; solve_respects. Qed.
#[export] Hint Resolve uvl_outputs_frame : respects.
Lemma gateway_on_packet_frame c d n : respects ctx_frame (gateway_on_packet c d n).
Proof. unfold gateway_on_packet, onPacket, processUdp. solve_respects. Qed.
#[export] Hint Resolve gateway_on_packet_frame : respects.
Lemma process_icmp_frame c i : respects ctx_frame (process_icmp c i).
Proof. unfold process_icmp, uninit. solve_respects. Qed.
#[export] Hint Resolve process_icmp_frame : respects.

Lemma process_ipv4_frame c e : respects net_frame (process_ipv4 c e).
Proof.
  unfold process_ipv4, getctx, getlp, send_local, lan_client_send_ipv4, uninit. solve_respects.
Qed.
#[export] Hint Resolve process_ipv4_frame : respects.
Lemma process_ether_frame c p n : respects net_frame (process_ether c p n).
Proof. unfold process_ether, getctx, getlp. solve_respects. Qed.
#[export] Hint Resolve process_ether_frame : respects.
Lemma get_packet_frame c h p : respects net_frame (get_packet c h p).
Proof. unfold get_packet, print_packet. solve_respects. Qed.
#[export] Hint Resolve get_packet_frame : respects.

Lemma parse_ipv4_wf e i : parse_ipv4 e = Ok i -> blen (ip_src i) = 4 /\ blen (ip_dst i) = 4.
Proof. unfold parse_ipv4. intros H. cbv zeta in H. inv_obind H. cbn. split; eauto with relay. Qed.
Lemma parse_ether_wf p n e : parse_ether p n = Ok e -> blen (eth_src e) = 6 /\ blen (eth_dst e) = 6.
Proof. unfold parse_ether. intros H. inv_obind H. cbn. split; eauto with relay. Qed.

Lemma process_ipv4_tables c e :
  blen (eth_src e) = 6 -> respects (stays wf_tables) (process_ipv4 c e).
Proof.
  intros He. unfold process_ipv4, getctx, getlp, send_local, lan_client_send_ipv4, uninit.
  apply (respects_bind_lift _). intros i Hi. apply parse_ipv4_wf in Hi as [? ?].
  apply (respects_bind _); [by apply arp_set_wf|]. solve_respects.
Qed.
Lemma process_ether_tables c p n : respects (stays wf_tables) (process_ether c p n).
Proof.
  unfold process_ether, getctx, getlp. apply (respects_bind_lift _). intros e He.
  apply parse_ether_wf in He as [? ?]. repeat respects_step. by apply process_ipv4_tables.
Qed.

(** ** What is sent *)

Lemma ipv4_frame_spec dst src packet len w :
  blen dst = 6 -> blen src = 6 -> 0 <= len <= ETHER_MTU -> len <= blen packet ->
  wp (ipv4_frame dst src packet len) (fun f w' => w' = w /\ blen f = 1514 /\
    field f 0 (len + 14) = ether dst src ETHER_TYPE_IPV4 (field packet 0 len)) w.
Proof.
  intros Hd Hs [Hl0 Hl1] Hp. unfold ETHER_MTU in *.
  unfold ipv4_frame, ETHER_OFF_DST, ETHER_OFF_SRC, ETHER_OFF_TYPE, ETHER_HEADER_LEN, ETHER_MTU, WRITE_NET16.
  apply wp_uninit; [lia|]. intros b _ Lb. do 3 write_step.
  apply wp_bind. eapply wp_lift; [apply rdn_ok; lia|].
  set (d := field packet 0 len). assert (Hd' : blen d = len) by (apply blen_field; lia).
  write_step. apply wp_ret. split_and!; [done|lia|].
  join_writes b. rewrite <- !app_assoc. fold (ether dst src ETHER_TYPE_IPV4 d).
  assert (He : blen (ether dst src ETHER_TYPE_IPV4 d) = len + 14) by (unfold ether; blen_simp; lia).
  rewrite <- He. apply splice_prefix. lia.
Qed.

Lemma frame_from f dst src type d mac n :
  blen dst = 6 -> blen src = 6 -> blen mac = 6 -> n = 14 + blen d -> n <= blen f ->
  field f 0 n = ether dst src type d ->
  field (splice f 6 mac) 0 n = ether dst mac type d.
Proof.
  intros ? ? ? -> Hl He. pose proof (blen_nonneg d).
  rewrite field_splice_in by lia. by rewrite He, splice_ether.
Qed.

(** Calls to the clock during one event see the same second. *)
Definition stable_clock (w : world) (t : Z) : Prop :=
  forall i, (tick w <= i)%nat -> env_time (environment w) i = t.

Lemma stable_ctx w w' t : ctx_frame w w' -> stable_clock w t -> stable_clock w' t.
Proof. intros Hf H i Hi. rewrite (cf_env _ _ Hf). apply H. pose proof (cf_tick _ _ Hf). lia. Qed.
Lemma stable_io w w' t : io_frame w w' -> stable_clock w t -> stable_clock w' t.
Proof. intros. by eapply stable_ctx; [apply io_ctx_frame|]. Qed.
Lemma stable_net w w' t : net_frame w w' -> stable_clock w t -> stable_clock w' t.
Proof. intros Hf H i Hi. rewrite (nf_env _ _ Hf). apply H. pose proof (nf_tick _ _ Hf). lia. Qed.

Section Specs.
Context (wm zm pm : list Z).

Lemma send_wifi_ipv4_spec w dst packet len :
  ready w wm zm pm -> blen dst = 6 -> 20 <= len <= ETHER_MTU -> len <= blen packet ->
  wp (lan_play_send_wifi_ipv4 dst packet len) (fun _ w' => io_frame w w' /\ ready w' wm zm pm /\
    trace w' = (Wifi, 0%nat, ether dst wm ETHER_TYPE_IPV4 (field packet 0 len)) :: trace w) w.
Proof.
  intros Hr Hd Hl Hp. unfold ETHER_MTU in *.
  eapply wp_mono with (P := fun _ w' => io_frame w w' /\ trace w' = _).
  2:{ intros rc w' [Hf Ht]. split_and!; [done|by eapply ready_io|exact Ht]. }
  apply (wp_respects io_frame); [auto with respects|].
  unfold lan_play_send_wifi_ipv4, IPV4_HEADER_LEN, ETHER_MTU.
  destruct (_ || _) eqn:E; [bool_lia; lia|]. apply wp_bind, wp_gets, wp_bind.
  pose proof (rd_adapters _ _ _ _ Hr) as []. pose proof (rd_send _ _ _ _ Hr) as [_ _ _ Hone].
  eapply wp_mono; [apply ipv4_frame_spec; try done; unfold ETHER_MTU; lia|].
  intros f w' (-> & Hfl & Hf). unfold ETHER_HEADER_LEN.
  eapply wp_mono; [apply (lan_play_send_packet_spec _ wm); try done; lia|].
  intros rc w' [_ ->]. do 2 f_equal. apply (frame_from _ _ (wifi_mac (lp_adapters (lp w)))); try done.
  - apply Hone.
  - rewrite blen_field by lia. lia.
  - lia.
Qed.

Lemma zerotier_frame_spec w f dst src packet n :
  ready w wm zm pm -> blen dst = 6 -> blen src = 6 -> 0 <= n <= 1500 -> n <= blen packet ->
  blen f = 1514 -> field f 0 (n + 14) = ether dst src ETHER_TYPE_IPV4 (field packet 0 n) ->
  wp (send_zerotier_frame f (n + 14)) (fun _ w' => ctx_frame w w' /\ ready w' wm zm pm /\
    trace w' = (ZeroTier, 0%nat, ether dst zm ETHER_TYPE_IPV4 (field packet 0 n)) :: trace w) w.
Proof.
  intros Hr Hd Hs Hn Hp Hfl Hf. eapply wp_mono; [apply send_zerotier_frame_spec; try done; lia|].
  intros rc w' (? & ? & ->). split_and!; [done..|]. do 2 f_equal.
  pose proof (rd_zt _ _ _ _ Hr) as [? _].
  apply (frame_from _ _ src); try done; [rewrite blen_field by lia; lia|lia].
Qed.

Lemma zerotier_broadcast_spec w packet len :
  ready w wm zm pm -> 20 <= len <= ETHER_MTU -> len <= blen packet ->
  wp (lan_play_send_zerotier_ipv4_broadcast packet len) (fun _ w' => ctx_frame w w' /\
    ready w' wm zm pm /\
    trace w' = (ZeroTier, 0%nat, ether BROADCASE_MAC zm ETHER_TYPE_IPV4 (field packet 0 len)) :: trace w) w.
Proof.
  intros Hr Hl Hp. unfold ETHER_MTU in *.
  unfold lan_play_send_zerotier_ipv4_broadcast, IPV4_HEADER_LEN, ETHER_MTU.
  destruct (_ || _) eqn:E; [bool_lia; lia|]. apply wp_bind, wp_gets, wp_bind.
  pose proof (rd_adapters _ _ _ _ Hr) as [].
  eapply wp_mono; [apply ipv4_frame_spec; try done; unfold ETHER_MTU; lia|].
  intros f w' (-> & Hfl & Hf). eapply zerotier_frame_spec; try done; lia.
Qed.

(** the frames for a datagram to a ZeroTier peer, latest first: unicast to a
    known neighbour, else an ARP request and the datagram by broadcast *)
Definition zerotier_delivery (w : world) (t : Z) (dst d : list Z) : list (wire * nat * list Z) :=
  match arp_find (arp_list (zerotier_neighbors (lp w))) dst t with
  | Some mac => [(ZeroTier, 0%nat, ether mac zm ETHER_TYPE_IPV4 d)]
  | None =>
      [(ZeroTier, 0%nat, ether BROADCASE_MAC zm ETHER_TYPE_IPV4 d);
       (ZeroTier, 0%nat, ether BROADCASE_MAC zm ETHER_TYPE_ARP
          (arp_packet ARP_OPCODE_REQUEST (zerotier_mac (lp_adapters (lp w)))
             (zerotier_ip (lp_adapters (lp w))) NONE_MAC dst))]
  end.

Lemma send_zerotier_ipv4_spec w t dst packet len :
  ready w wm zm pm -> stable_clock w t -> blen dst = 4 ->
  20 <= len <= ETHER_MTU -> len <= blen packet ->
  wp (lan_play_send_zerotier_ipv4 dst packet len) (fun _ w' => ctx_frame w w' /\
    ready w' wm zm pm /\
    trace w' = zerotier_delivery w t dst (field packet 0 len) ++ trace w) w.
Proof.
  intros Hr Hc Hd Hl Hp. apply wp_ctx; [auto with respects|done|].
  unfold lan_play_send_zerotier_ipv4, IPV4_HEADER_LEN, zerotier_delivery.
  destruct (_ || _) eqn:E; [bool_lia; unfold ETHER_MTU in *; lia|].
  apply wp_bind. eapply wp_mono; [apply arp_has_ip_spec|].
  intros has w1 (Hf1 & Ht1 & ->). unfold known_mac. cbn [get_ctx]. rewrite (Hc (tick w)) by lia.
  pose proof (ready_io _ _ _ _ _ Hf1 Hr) as Hr1. pose proof (stable_io _ _ _ Hf1 Hc) as Hc1.
  pose proof (rd_adapters _ _ _ _ Hr1) as Hw1. rewrite <- (io_adapters _ _ Hf1).
  destruct (arp_find _ dst t) as [mac|] eqn:Ek; cbn [is_Some bool_decide].
  - rewrite (bool_decide_eq_true_2 _) by eauto. apply wp_bind.
    eapply wp_mono; [apply (arp_get_mac_by_ip_hit NeighborCtx dst w1 mac)|].
    { unfold known_mac. cbn [get_ctx]. by rewrite (io_neighbors _ _ Hf1), (Hc1 (tick w1)) by lia. }
    intros r w2 (Hf2 & Ht2 & ->). pose proof (ready_io _ _ _ _ _ Hf2 Hr1) as Hr2.
    pose proof (rd_adapters _ _ _ _ Hr2) as []. apply wp_bind, wp_gets, wp_bind.
    assert (blen mac = 6) by (eapply arp_find_wf; [apply Hr|exact Ek]).
    eapply wp_mono; [apply ipv4_frame_spec; try done; unfold ETHER_MTU in *; lia|].
    intros f w' (-> & Hfl & Hf). eapply wp_mono.
    { unfold ETHER_MTU in *. eapply zerotier_frame_spec; [done| | | | | |exact Hf]; done || lia. }
    intros rc w' (_ & _ & ->). by rewrite Ht2, Ht1.
  - rewrite (bool_decide_eq_false_2 _) by (intros []; done). apply wp_bind, wp_ret.
    destruct Hw1. apply wp_bind, wp_gets, wp_bind.
    eapply wp_mono; [by apply send_zerotier_arp_spec|]. intros rc w2 (Hf2 & Hr2 & Ht2).
    eapply wp_mono; [by apply zerotier_broadcast_spec|]. intros rc' w3 (_ & _ & ->).
    by rewrite Ht2, Ht1.
Qed.

(** a datagram outside the sizes an adapter takes is dropped *)
Lemma send_zerotier_ipv4_reject w dst packet len :
  len < 20 \/ 1500 < len -> lan_play_send_zerotier_ipv4 dst packet len w = Ok (-1, w).
Proof.
  intros H. unfold lan_play_send_zerotier_ipv4, IPV4_HEADER_LEN, ETHER_MTU.
  destruct (_ || _) eqn:E; [done|]. bool_lia. lia.
Qed.
End Specs.

(** ** Datagrams the relay builds *)

Definition ipv4_hdr (id total protocol : Z) (src dst : list Z) (sum : Z) : list Z :=
  [69] ++ [0] ++ net16 total ++ net16 id ++ net16 0 ++ [128] ++ [protocol] ++ net16 sum ++ src ++ dst.

Definition ipv4_hdr_sum (id total protocol : Z) (src dst : list Z) : Z :=
  csum (ipv4_hdr id total protocol src dst 0).

Lemma blen_ipv4_hdr id total protocol src dst sum :
  blen src = 4 -> blen dst = 4 -> blen (ipv4_hdr id total protocol src dst sum) = 20.
Proof. intros. unfold ipv4_hdr. blen_simp. lia. Qed.

Lemma bytes_ipv4_hdr id total protocol src dst sum :
  is_byte protocol -> bytes src -> bytes dst -> bytes (ipv4_hdr id total protocol src dst sum).
Proof.
  intros. unfold ipv4_hdr. rewrite !Forall_app. unfold is_byte in *.
  split_and!; auto with relay; repeat constructor; unfold is_byte; lia.
Qed.

Lemma ipv4_hdr_splice id total protocol src dst sum sum' :
  blen src = 4 -> blen dst = 4 ->
  splice (ipv4_hdr id total protocol src dst sum) 10 (net16 sum') = ipv4_hdr id total protocol src dst sum'.
Proof. intros H1 H2. explode H1. explode H2. reflexivity. Qed.

(** the header checksum of every datagram the relay builds verifies *)
Lemma ipv4_hdr_valid id total protocol src dst :
  is_byte protocol -> bytes src -> bytes dst -> blen src = 4 -> blen dst = 4 ->
  csum (ipv4_hdr id total protocol src dst (ipv4_hdr_sum id total protocol src dst)) = 0.
Proof.
  intros Hp Hs Hd Ls Ld. set (h := fun c => ipv4_hdr id total protocol src dst c).
  pose proof (header_checksum_valid (h 0) 20) as Hv. unfold h in Hv.
  rewrite !ipv4_hdr_splice in Hv by done.
  rewrite !field_all in Hv by (symmetry; by apply blen_ipv4_hdr).
  apply Hv; [by apply bytes_ipv4_hdr|rewrite blen_ipv4_hdr by done; lia|lia].
Qed.

Lemma ipv4_header_spec id total protocol src dst w :
  is_byte protocol -> bytes src -> bytes dst -> blen src = 4 -> blen dst = 4 ->
  wp (ipv4_header id total protocol src dst) (fun b w' => w' = w /\
    b = ipv4_hdr id total protocol src dst (ipv4_hdr_sum id total protocol src dst)) w.
Proof.
  intros Hp Hs Hd Ls Ld. unfold ipv4_header, IPV4_HEADER_LEN, WRITE_NET8, WRITE_NET16,
    IPV4_OFF_VER_LEN, IPV4_OFF_DSCP_ECN, IPV4_OFF_TOTAL_LEN, IPV4_OFF_ID, IPV4_OFF_FLAGS_FRAG_OFFSET,
    IPV4_OFF_TTL, IPV4_OFF_PROTOCOL, IPV4_OFF_CHECKSUM, IPV4_OFF_SRC, IPV4_OFF_DST.
  rewrite (u8_small protocol) by done. apply wp_uninit; [lia|]. intros b _ Lb. do 10 write_step.
  join_writes b. rewrite splice_all, <- !app_assoc by (blen_simp; lia).
  set (h := ipv4_hdr id total protocol src dst 0).
  match goal with |- context [calc_checksum ?d _] => change d with h end.
  assert (Hh : blen h = 20) by (by apply blen_ipv4_hdr).
  apply wp_bind. eapply wp_lift.
  { apply calc_checksum_sum; [by apply bytes_ipv4_hdr|lia|lia]. }
  cbn [Z.even]. rewrite field_all by lia. eapply (wp_wrn _); [lia|blen_simp; lia|].
  intros b' -> _. apply wp_ret. split; [done|]. by apply ipv4_hdr_splice.
Qed.

Section Icmp.
Context (wm zm pm : list Z).

(** an ARP hit delivers the datagram, a miss asks for the address *)
Definition local_delivery (w : world) (t : Z) (dst d : list Z) : list (wire * nat * list Z) :=
  match arp_find (arp_list (lp_packet_ctx (lp w))) dst t with
  | Some mac => [(Wifi, 0%nat, ether mac wm ETHER_TYPE_IPV4 d)]
  | None => [(Wifi, 0%nat, ether BROADCASE_MAC wm ETHER_TYPE_ARP
               (arp_packet ARP_OPCODE_REQUEST pm (pc_ip (lp_packet_ctx (lp w))) NONE_MAC dst))]
  end.

(** resolve and send: the tail of [send_ipv4_ex] and of the gateway's sender *)
Lemma resolve_send_spec w t dst parts :
  ready w wm zm pm -> stable_clock w t -> blen dst = 4 -> Forall valid_part parts ->
  14 + blen (payload_bytes parts) < BUFFER_SIZE ->
  wp (let* mac := arp_get_mac_by_ip WifiCtx dst in
      match mac with None => ret 0 | Some mac => send_ether WifiCtx mac ETHER_TYPE_IPV4 parts end)
    (fun _ w' => ctx_frame w w' /\ ready w' wm zm pm /\
      trace w' = local_delivery w t dst (payload_bytes parts) ++ trace w) w.
Proof.
  intros Hr Hc Hd Hv Hl. apply wp_ctx; [solve_respects|done|]. apply wp_bind. unfold local_delivery.
  assert (Hk : known_mac WifiCtx w dst = arp_find (arp_list (lp_packet_ctx (lp w))) dst t)
    by (unfold known_mac; by rewrite Hc).
  destruct (arp_find _ dst t) as [mac|] eqn:E.
  - eapply wp_mono; [by apply arp_get_mac_by_ip_hit|]. intros r w1 (Hf & Ht & ->).
    assert (Hr1 : ready w1 wm zm pm) by (by eapply ready_io).
    assert (blen mac = 6) by (eapply arp_find_wf; [|exact E]; apply Hr). destruct Hr1.
    eapply wp_mono; [by apply (send_ether_spec _ _ _ _ wm pm)|]. intros rc w2 [_ ->]. by rewrite Ht.
  - eapply wp_mono; [by apply arp_get_mac_by_ip_miss|]. intros r w1 (_ & _ & -> & Ht). by apply wp_ret.
Qed.

Lemma total_len_foldl parts : forall a, Forall valid_part parts -> 0 <= a -> a + blen (payload_bytes parts) <= 65535 ->
  foldl (fun total_len part => u16 (total_len + pl_len part)) a parts = a + blen (payload_bytes parts).
Proof.
  induction parts as [|p parts IH]; intros a Hv Ha Hl; cbn [foldl]; [change (blen (payload_bytes [])) with 0; lia|].
  apply Forall_cons_iff in Hv as [Hp Hv]. unfold payload_bytes in *. cbn [fmap list_fmap concat] in *. rewrite blen_app in Hl |- *.
  unfold valid_part in Hp. assert (E : blen (part_bytes p) = pl_len p) by (unfold part_bytes; apply blen_field; lia).
  rewrite E in *. pose proof (blen_nonneg (concat (part_bytes <$> parts))). rewrite u16_small by lia. rewrite IH by (done || lia). lia.
Qed.

Lemma send_ipv4_ex_spec w t src dst protocol parts :
  ready w wm zm pm -> stable_clock w t -> blen src = 4 -> bytes src -> blen dst = 4 -> bytes dst ->
  is_byte protocol -> Forall valid_part parts -> 34 + blen (payload_bytes parts) < BUFFER_SIZE ->
  let id := identification (lp_packet_ctx (lp w)) in
  let n := blen (payload_bytes parts) in
  wp (send_ipv4_ex WifiCtx src dst protocol parts) (fun _ w' => ctx_frame w w' /\
    ready w' wm zm pm /\
    trace w' = local_delivery w t dst (ipv4_hdr id (20 + n) protocol src dst
      (ipv4_hdr_sum id (20 + n) protocol src dst) ++ payload_bytes parts) ++ trace w) w.
Proof.
  intros Hr Hc Hs Bs Hd Bd Hp Hv Hl id n. apply wp_ctx; [auto with respects|done|].
  unfold BUFFER_SIZE in *. unfold send_ipv4_ex. apply wp_bind, wp_gets.
  cbn [get_ctx]. fold id. apply wp_bind, wp_modify.
  set (w1 := w <| lp ::= _ |>).
  assert (Hf1 : ctx_frame w w1) by ctx_frame_easy.
  assert (Hr1 : ready w1 wm zm pm) by (by eapply ready_ctx).
  assert (Hc1 : stable_clock w1 t) by (by eapply stable_ctx).
  assert (Hn : payload_total_len parts = n) by (unfold payload_total_len; rewrite total_len_foldl by (done || lia); lia).
  apply wp_bind. rewrite Hn.
  eapply wp_mono; [by apply ipv4_header_spec|]. intros b w' [-> ->].
  set (h := ipv4_hdr _ _ _ _ _ _). assert (Hh : blen h = 20) by (by apply blen_ipv4_hdr).
  assert (Hpb : payload_bytes (mkPayload h 20 :: parts) = h ++ payload_bytes parts).
  { unfold payload_bytes. cbn [fmap list_fmap concat]. unfold part_bytes at 1. cbn [pl_ptr pl_len]. by rewrite (field_all h) by lia. }
  unfold IPV4_HEADER_LEN. eapply wp_mono; [apply (resolve_send_spec w1 t); try done|].
  - constructor; [|done]. unfold valid_part. cbn [pl_ptr pl_len]. lia.
  - rewrite Hpb. blen_simp. unfold BUFFER_SIZE. lia.
  - intros rc w2 (_ & _ & ->). rewrite Hpb. done.
Qed.

Lemma send_ipv4_spec w t dst protocol d n :
  ready w wm zm pm -> stable_clock w t -> blen dst = 4 -> bytes dst ->
  is_byte protocol ->
  0 <= n <= blen d -> 34 + n < BUFFER_SIZE ->
  let ip := pc_ip (lp_packet_ctx (lp w)) in
  let id := identification (lp_packet_ctx (lp w)) in
  wp (send_ipv4 WifiCtx dst protocol [mkPayload d n]) (fun _ w' => ctx_frame w w' /\
    ready w' wm zm pm /\
    trace w' = local_delivery w t dst (ipv4_hdr id (20 + n) protocol ip dst
      (ipv4_hdr_sum id (20 + n) protocol ip dst) ++ field d 0 n) ++ trace w) w.
Proof.
  intros Hr Hc Hd Bd Hp Hn Hl ip id. unfold send_ipv4. apply wp_bind, wp_gets. cbn [get_ctx]. fold ip.
  assert (Hpb : payload_bytes [mkPayload d n] = field d 0 n) by (unfold payload_bytes; cbn; by rewrite app_nil_r).
  assert (Hn' : blen (payload_bytes [mkPayload d n]) = n) by (rewrite Hpb; apply blen_field; lia).
  pose proof (send_ipv4_ex_spec w t ip dst protocol [mkPayload d n]) as H. rewrite Hn', Hpb in H.
  apply H; try done; [apply Hr|apply Hr|by apply valid_one].
Qed.
End Icmp.

(** ** ICMP echo *)

(** what [calc_checksum] computes of all the bytes of a buffer *)
Definition calc_value (p : list Z) : Z :=
  if Z.even (blen p) then csum p
  else 65535 - ones (wsum (field p 0 (blen p - 1)) + getb p (blen p - 1)).

Lemma field_field p n m : 0 <= m <= n -> n <= blen p -> field (field p 0 n) 0 m = field p 0 m.
Proof.
  intros. unfold field. rewrite !drop_0, take_take. f_equal. lia.
Qed.

Lemma calc_checksum_field p n :
  bytes p -> 0 <= n <= blen p -> n <= 131070 -> calc_checksum p n = Ok (calc_value (field p 0 n)).
Proof.
  intros Hb Hn Hm. rewrite calc_checksum_sum by done. unfold calc_value. rewrite blen_field by lia.
  destruct (Z.even n) eqn:He; [done|].
  assert (0 < n) by (destruct (Z.eq_dec n 0) as [->|]; [done|lia]).
  rewrite field_field, field_lookup by lia. by rewrite Z.add_0_l.
Qed.

(** the answer to an ICMP message: type 0 and a new checksum *)
Definition icmp_echo (d : list Z) : list Z :=
  let z := splice (splice d 0 [0]) 2 (net16 0) in splice z 2 (net16 (calc_value z)).

Section Process.
Context (wm zm pm : list Z).

Definition icmp_datagram (w : world) (src e : list Z) : list Z :=
  let ip := pc_ip (lp_packet_ctx (lp w)) in
  let id := identification (lp_packet_ctx (lp w)) in
  ipv4_hdr id (20 + blen e) IPV4_PROTOCOL_ICMP ip src
    (ipv4_hdr_sum id (20 + blen e) IPV4_PROTOCOL_ICMP ip src) ++ e.

Lemma process_icmp_spec w t i :
  ready w wm zm pm -> stable_clock w t ->
  blen (ip_src i) = 4 -> bytes (ip_src i) -> bytes (ip_payload i) ->
  let n := ip_total_len i - ip_header_len i in
  0 <= n <= blen (ip_payload i) -> 34 + n < BUFFER_SIZE ->
  wp (process_icmp WifiCtx i) (fun r w' => ctx_frame w w' /\ ready w' wm zm pm /\ r = 0 /\
    exists e, blen e = n /\ (4 <= n -> e = icmp_echo (field (ip_payload i) 0 n)) /\
      trace w' = local_delivery wm pm w t (ip_src i) (icmp_datagram w (ip_src i) e) ++ trace w) w.
Proof.
  intros Hr Hc Ls Bs Bp n Hn Hl. apply wp_ctx; [auto with respects|done|].
  unfold BUFFER_SIZE in *. unfold process_icmp, BUFFER_SIZE, WRITE_NET8, WRITE_NET16. fold n.
  apply wp_uninit; [lia|]. intros p0 B0 L0. apply wp_bind. eapply wp_lift; [apply rdn_ok; lia|].
  set (d := field (ip_payload i) 0 n). assert (Ld : blen d = n) by (apply blen_field; lia).
  assert (Bd : bytes d) by (unfold d; auto with relay).
  do 3 write_step. set (p3 := splice (splice _ 0 [u8 0]) 2 (net16 0)).
  assert (B3 : bytes p3) by (unfold p3; repeat apply bytes_splice; auto with relay; by repeat constructor).
  assert (L3 : blen p3 = 2048) by (unfold p3; lia).
  apply wp_bind. eapply wp_lift; [apply calc_checksum_field; [done|lia|lia]|].
  eapply (wp_wrn _); [lia|blen_simp; lia|]. intros p4 E4 L4. apply wp_bind.
  rewrite u16_small by lia.
  eapply wp_mono; [apply (send_ipv4_spec wm zm pm w t); try done; unfold BUFFER_SIZE; lia|].
  intros rc w' (_ & _ & Ht). apply wp_ret. split; [done|]. exists (field p4 0 n).
  assert (Le : blen (field p4 0 n) = n) by (apply blen_field; lia).
  split_and!; [done| |].
  - intros H4. subst p4. unfold icmp_echo. rewrite field_splice_in by (rewrite ?blen_net16; lia).
    assert (Hz : field p3 0 n = splice (splice d 0 [0]) 2 (net16 0)).
    { unfold p3. rewrite field_splice_in by (rewrite ?blen_net16; lia). f_equal.
      rewrite field_splice_in by (rewrite ?blen_cons, ?blen_nil; lia). f_equal.
      rewrite <- Ld. apply splice_prefix. lia. }
    by rewrite Hz.
  - rewrite Ht. unfold icmp_datagram. by rewrite Le.
Qed.

(** *** The gateway *)

(** packets from the TCP/IP stack fit the frame buffer: they carry an IPv4
    header and respect the interface MTU *)
Definition stack_output_ok (e : env) : Prop :=
  forall n b, Forall (fun p => 20 <= blen p <= ETHER_MTU) (env_lwip e n b).

Lemma uvl_outputs_spec w t ps :
  ready w wm zm pm -> stable_clock w t -> Forall (fun p => 20 <= blen p <= ETHER_MTU) ps ->
  wp (uvl_outputs WifiCtx ps) (fun _ _ => True) w.
Proof.
  intros Hr Hc Hp. revert w Hr Hc. induction Hp as [|p ps Hp Hps IH]; intros w Hr Hc; [done|].
  unfold ETHER_MTU in Hp. cbn [uvl_outputs]. apply wp_bind. unfold lan_play_gateway_send_packet.
  apply wp_bind. eapply wp_lift; [apply rdn_ok; unfold IPV4_OFF_DST; lia|].
  rewrite u16_small by lia.
  eapply wp_mono; [apply (resolve_send_spec wm zm pm w t); try done|].
  - unfold IPV4_OFF_DST. apply blen_field; lia.
  - apply valid_one. lia.
  - rewrite payload_bytes_one by done. unfold BUFFER_SIZE. lia.
  - intros rc w' (Hf & Hr' & _). apply IH; [done|]. by eapply stable_ctx.
Qed.

(** a datagram whose UDP header was captured *)
Definition udp_captured (body : list Z) (n : Z) : Prop := getb body 9 = 17 -> ihl body + 8 <= n.

Lemma processUdp_spec w body n :
  20 <= n -> n <= 65535 -> n <= blen body -> udp_captured body n ->
  wp (processUdp body n) (fun r w' => io_frame w w' /\ (r = 0 \/ r = -1)) w.
Proof.
  intros H1 H2 Hle Hu. apply (wp_respects io_frame); [unfold processUdp; solve_respects|].
  unfold processUdp. destruct (Z.ltb_spec 0 n); [|lia]. apply wp_bind.
  eapply wp_lift; [rewrite READ_NET8_ok by lia; reflexivity|].
  destruct (negb _); [apply wp_ret; auto|].
  unfold IPV4_OFF_END. destruct (Z.ltb_spec n 20); [lia|].
  apply wp_bind. eapply wp_lift; [apply READ_NET8_ok; unfold IPV4_OFF_PROTOCOL; lia|].
  destruct (negb _) eqn:Ep; [apply wp_ret; auto|]. bool_lia. specialize (Hu Ep).
  apply wp_bind. eapply wp_lift; [apply READ_NET8_ok; lia|]. fold (ihl body).
  pose proof (ihl_bound body).
  do 2 (apply wp_bind; eapply wp_lift; [apply rdn_ok; unfold IPV4_OFF_SRC, IPV4_OFF_DST; lia|]).
  do 2 (apply wp_bind; eapply wp_lift;
    [apply READ_NET16_ok; unfold UDP_OFF_SRCPORT, UDP_OFF_DSTPORT; rewrite ?blen_ptr; lia|]).
  unfold UDP_OFF_END. rewrite u16_small by lia. apply wp_bind.
  eapply wp_lift; [apply rdn_ok; rewrite ?blen_ptr; rewrite ?blen_ptr; lia|].
  apply wp_bind, wp_modify, wp_ret. auto.
Qed.

(** A UDP packet that ends before its header does: the length of its payload
    wraps around, and 65528 bytes are passed on. *)
Theorem short_udp_overreads w :
  processUdp ([69; 0; 0; 20; 0; 1; 0; 0; 64; 17; 0; 0; 10; 147; 17; 7; 8; 8; 8; 8] ++ replicate 60 0) 20 w = Stop OutOfBounds.
Proof. vm_compute. reflexivity. Qed.

Lemma gateway_on_packet_spec w t raw n :
  ready w wm zm pm -> stable_clock w t -> stack_output_ok (environment w) ->
  34 <= n <= 65535 -> n <= blen raw -> udp_captured (ptr raw 14) (n - 14) ->
  wp (gateway_on_packet WifiCtx raw n) (fun _ _ => True) w.
Proof.
  intros Hr Hc Ho Hl Hn Hu. unfold gateway_on_packet, ETHER_OFF_END, onPacket.
  assert (Hb : blen (ptr raw 14) = blen raw - 14) by (rewrite blen_ptr; lia).
  apply wp_bind. eapply wp_mono; [apply processUdp_spec; try done; lia|].
  intros r w1 [Hf [-> | ->]]; cbn [Z.eqb]; [done|].
  apply wp_bind. eapply wp_lift; [apply rdn_ok; lia|]. apply wp_bind, wp_modify.
  apply wp_bind, wp_bind, wp_gets, wp_bind, wp_modify, wp_ret.
  set (w2 := w1 <| output ::= _ |> <| tick ::= S |>).
  assert (Hf2 : io_frame w w2) by (etrans; [exact Hf|]; subst w2; io_frame_easy).
  apply (uvl_outputs_spec w2 t); [by eapply ready_io|by eapply stable_io|].
  cbn. rewrite (io_env _ _ Hf). apply Ho.
Qed.

(** *** Frames from the console *)

Lemma parse_ether_ok f n :
  14 <= blen f ->
  parse_ether f n = Ok (mkEther f n (field f 0 6) (field f 6 6) (be16 f 12) (ptr f 14)).
Proof.
  intros. unfold parse_ether, ETHER_OFF_DST, ETHER_OFF_SRC, ETHER_OFF_TYPE, ETHER_OFF_END.
  by rewrite !rdn_ok, READ_NET16_ok by lia.
Qed.

Record parsed (body : list Z) (i : ipv4) : Prop := {
  pr_total : ip_total_len i = total_length body;
  pr_header : ip_header_len i = ihl body;
  pr_src : ip_src i = field body 12 4;
  pr_dst : ip_dst i = field body 16 4;
  pr_protocol : ip_protocol i = getb body 9;
  pr_payload : ip_payload i = ptr body (ihl body)
}.
Lemma parse_ipv4_ok e :
  20 <= blen (eth_payload e) -> exists i, parse_ipv4 e = Ok i /\ parsed (eth_payload e) i.
Proof.
  intros. unfold parse_ipv4, IPV4_OFF_VER_LEN, IPV4_OFF_DSCP_ECN, IPV4_OFF_TOTAL_LEN, IPV4_OFF_ID,
    IPV4_OFF_FLAGS_FRAG_OFFSET, IPV4_OFF_TTL, IPV4_OFF_PROTOCOL, IPV4_OFF_SRC, IPV4_OFF_DST.
  rewrite !READ_NET8_ok, !READ_NET16_ok, !rdn_ok by lia. cbn [obind].
  eexists. split; [reflexivity|]. by split.
Qed.

(** an IPv4 frame whose header and total length fit what was captured *)
Record captured_ipv4 (f : list Z) (n : Z) : Prop := {
  ci_bytes : bytes f;
  ci_len : 34 <= n <= 1514 /\ n <= blen f;
  ci_header : 20 <= ihl (ptr f 14);
  ci_total : ihl (ptr f 14) <= total_length (ptr f 14) <= n - 14
}.

Lemma send_local_spec w dst e i :
  ready w wm zm pm -> blen dst = 6 -> 0 <= ip_total_len i <= 1500 -> ip_total_len i <= blen (eth_payload e) ->
  wp (send_local WifiCtx dst e i) (fun _ _ => True) w.
Proof.
  intros Hr Hd Hl Hp. pose proof Hr as []. eapply wp_mono; [apply (send_ether_spec _ _ _ w wm pm); try done|done].
  - apply valid_one. lia.
  - unfold payload_bytes. cbn [fmap list_fmap concat]. unfold part_bytes. cbn [pl_ptr pl_len]. rewrite app_nil_r, blen_field by lia. unfold BUFFER_SIZE. lia.
Qed.

Lemma process_ipv4_total w t f n :
  ready w wm zm pm -> stable_clock w t -> stack_output_ok (environment w) ->
  captured_ipv4 f n -> udp_captured (ptr f 14) (n - 14) ->
  wp (process_ipv4 WifiCtx (mkEther f n (field f 0 6) (field f 6 6) (be16 f 12) (ptr f 14)))
    (fun _ _ => True) w.
Proof.
  intros Hr Hc Ho [Hb Hl Hh Ht] Hu. set (e := mkEther _ _ _ _ _ _). set (body := ptr f 14) in *.
  assert (Lb : blen body = blen f - 14) by (unfold body; rewrite blen_ptr; lia).
  assert (Bb : bytes body) by (unfold body; auto with relay).
  destruct (parse_ipv4_ok e) as (i & Hp & []); [cbn; fold body; lia|]. cbn [eth_payload e] in *.
  unfold process_ipv4. apply wp_bind. eapply wp_lift; [exact Hp|].
  assert (Ls : blen (ip_src i) = 4) by (rewrite pr_src0; apply blen_field; lia).
  assert (Ld : blen (ip_dst i) = 4) by (rewrite pr_dst0; apply blen_field; lia).
  assert (L6 : blen (eth_src e) = 6) by (apply blen_field; lia).
  apply wp_bind. eapply wp_mono; [by apply (arp_set_ready wm zm pm)|].
  intros r w1 (Hf & Hr1 & _). pose proof (stable_net _ _ _ Hf Hc) as Hc1.
  do 5 (apply wp_bind, wp_gets). cbn [get_ctx].
  rewrite (sd_arg _ _ (rd_send _ _ _ _ Hr1)). cbn [negb].
  rewrite pr_total0. unfold BUFFER_SIZE, ETHER_MTU in *.
  subst e. cbn [eth_payload eth_raw eth_raw_len eth_dst].
  destruct (CMP_IPV4 _ _).
  { destruct (_ =? _); [|done]. eapply wp_mono; [apply (process_icmp_spec w1 t); try done|done].
    - rewrite pr_src0. auto with relay.
    - rewrite pr_payload0. auto with relay.
    - rewrite pr_total0, pr_header0, pr_payload0, blen_ptr; lia.
    - rewrite pr_total0, pr_header0. unfold BUFFER_SIZE. lia. }
  assert (Hz : forall w2, ready w2 wm zm pm -> stable_clock w2 t ->
    wp (lan_client_send_ipv4 (ip_dst i) body (total_length body)) (fun _ _ => True) w2).
  { intros w2 Hr2 Hc2. eapply wp_mono; [apply (send_zerotier_ipv4_spec wm zm pm w2 t); try done; unfold ETHER_MTU; lia|done]. }
  assert (Hloc : forall w2 m, ready w2 wm zm pm -> blen m = 6 ->
    wp (send_local WifiCtx m (mkEther f n (field f 0 6) (field f 6 6) (be16 f 12) body) i) (fun _ _ => True) w2).
  { intros w2 m Hr2 Lm. apply send_local_spec; try done; rewrite pr_total0; cbn [eth_payload]; lia. }
  destruct (is_nintendo_lan_broadcast _).
  { destruct (ingress_zerotier _); [by apply Hloc|].
    eapply wp_mono; [apply (zerotier_broadcast_spec wm zm pm); try done; unfold ETHER_MTU; lia|done]. }
  destruct (IS_SUBNET _ _ _).
  { destruct (IS_BROADCAST _ _ _), (ingress_zerotier _); cbn [negb]; try (by apply Hz); [by apply Hloc|].
    apply wp_bind. eapply wp_mono; [apply arp_has_ip_spec|]. intros b w2 (Hf2 & _ & ->).
    pose proof (ready_io _ _ _ _ _ Hf2 Hr1) as Hr2. pose proof (stable_io _ _ _ Hf2 Hc1) as Hc2.
    case_bool_decide as Hk; [|by apply Hz]. apply wp_uninit; [lia|]. intros junk _ Lj. apply wp_bind.
    destruct Hk as [m Hk]. assert (Hk2 : known_mac WifiCtx w2 (ip_dst i) = Some m).
    { revert Hk. unfold known_mac. cbn [get_ctx]. by rewrite (io_ctx _ _ Hf2), (Hc1 (tick w1)), (Hc2 (tick w2)) by lia. }
    eapply wp_mono; [by apply arp_get_mac_by_ip_hit|]. intros ? w3 (Hf3 & _ & ->). cbn [default].
    apply Hloc; [by eapply ready_io|]. eapply arp_find_wf; [|exact Hk2]. apply Hr2. }
  apply wp_bind, wp_gets. cbn [get_ctx]. rewrite (rd_mac _ _ _ _ Hr1). apply wp_bind.
  eapply wp_lift; [done|]. destruct (CMP_MAC _ _); [|done]. apply wp_bind.
  eapply wp_mono; [apply (gateway_on_packet_spec w1 t); try done; cbn; try lia|done].
  by rewrite (nf_env _ _ Hf).
Qed.

(** An ARP frame of the console, answered or not, is processed. *)
Lemma process_arp_wifi w n f :
  ready w wm zm pm -> opt_zerotier_if (options w) = true -> 42 <= blen f ->
  wp (process_arp WifiCtx (mkEther f n (field f 0 6) (field f 6 6) (be16 f 12) (ptr f 14)))
    (fun _ _ => True) w.
Proof.
  intros Hr Hz Hl. unfold process_arp. assert (Lb : blen (ptr f 14) = blen f - 14) by (rewrite blen_ptr; lia).
  destruct (parse_arp _) as [a|] eqn:Ea; cycle 1.
  { exfalso. revert Ea. unfold parse_arp. cbn [eth_payload].
    unfold ARP_OFF_HARDWARE, ARP_OFF_PROTOCOL, ARP_OFF_HARDWARE_SIZE, ARP_OFF_PROTOCOL_SIZE, ARP_OFF_OPCODE,
      ARP_OFF_SENDER_MAC, ARP_OFF_SENDER_IP, ARP_OFF_TARGET_MAC, ARP_OFF_TARGET_IP.
    by rewrite !READ_NET16_ok, !READ_NET8_ok, !rdn_ok by lia. }
  apply parse_arp_wf in Ea as (? & ? & ? & ?). apply wp_bind. eapply wp_lift; [done|].
  destruct (_ || _); [done|]. apply wp_bind. eapply wp_mono; [by apply (arp_set_ready wm zm pm)|].
  intros r w1 (Hf & Hr1 & _). destruct (_ =? _).
  - eapply wp_mono; [apply (arp_request_spec wm zm pm); [done|done|by rewrite (nf_options _ _ Hf)]|done].
  - by destruct (_ =? _).
Qed.

Lemma get_packet_total w t f n :
  ready w wm zm pm -> stable_clock w t -> stack_output_ok (environment w) ->
  opt_zerotier_if (options w) = true -> bytes f -> 14 <= n <= 1514 -> n <= blen f ->
  (be16 f 12 = ETHER_TYPE_ARP -> 42 <= n) ->
  (be16 f 12 = ETHER_TYPE_IPV4 -> captured_ipv4 f n /\ udp_captured (ptr f 14) (n - 14)) ->
  wp (get_packet WifiCtx (mkPkthdr n n) f) (fun _ _ => True) w.
Proof.
  intros Hr Hc Ho Hz Hb Hl Hn Ha H4. unfold get_packet. cbn [pkt_len].
  destruct (Z.leb_spec 65536 n); [lia|]. apply wp_bind, wp_modify, wp_bind, wp_modify.
  set (w1 := w <| lp ::= _ |> <| lp ::= _ |>). assert (Hf : ctx_frame w w1) by ctx_frame_easy.
  pose proof (ready_ctx _ _ _ _ _ Hf Hr) as Hr1. pose proof (stable_ctx _ _ _ Hf Hc) as Hc1.
  apply wp_bind. unfold process_ether. rewrite parse_ether_ok by lia.
  apply wp_bind with (m := lift _). eapply wp_lift; [done|]. apply wp_bind, wp_gets. cbn [get_ctx].
  rewrite (rd_mac _ _ _ _ Hr1). apply wp_bind. eapply wp_lift; [done|].
  assert (Hp : forall r w', wp (if r =? 0 then ret tt else print_packet (mkPkthdr n n) f) (fun _ _ => True) w').
  { intros r w'. destruct (r =? 0); [done|]. unfold print_packet. cbn [pkt_len]. apply wp_bind.
    eapply wp_lift; [apply rdn_ok; lia|]. done. }
  cbn [eth_src eth_type]. destruct (CMP_MAC _ _); [apply wp_ret, Hp|].
  destruct (Z.eqb_spec (be16 f 12) ETHER_TYPE_ARP).
  { eapply wp_mono; [apply process_arp_wifi; [done|done|]; specialize (Ha e); lia|]. intros; apply Hp. }
  destruct (Z.eqb_spec (be16 f 12) ETHER_TYPE_IPV4); [|apply wp_ret, Hp].
  destruct (H4 e) as [Hci Hu].
  eapply wp_mono; [by apply (process_ipv4_total w1 t)|]. intros; apply Hp.
Qed.
End Process.

(** ** Properties *)

Lemma icmp_echo_valid d :
  bytes d -> Z.even (blen d) = true -> 4 <= blen d ->
  csum (icmp_echo d) = 0 /\ getb (icmp_echo d) 0 = 0 /\ getb (icmp_echo d) 1 = getb d 1 /\
  forall k, 4 <= k -> getb (icmp_echo d) k = getb d k.
Proof.
  intros Hb He Hl. unfold icmp_echo. set (y := splice d 0 [0]). set (z := splice y 2 (net16 0)).
  assert (Ly : blen y = blen d) by (unfold y; rewrite blen_splice; rewrite ?blen_cons, ?blen_nil; lia).
  assert (By : bytes y) by (unfold y; apply bytes_splice; [done|]; repeat constructor; done).
  assert (Lz : blen z = blen d) by (unfold z; rewrite blen_splice; rewrite ?blen_net16; lia).
  assert (Hg : forall k v, 0 <= k -> k < 2 \/ 4 <= k -> getb (splice z 2 (net16 v)) k = getb y k).
  { intros k v Hk Hr. unfold z. rewrite !getb_splice by (rewrite ?blen_splice, ?blen_net16; rewrite ?blen_net16; lia).
    rewrite !blen_net16. by destruct (Z.leb_spec 2 k), (Z.ltb_spec k (2 + 2)); cbn; try lia. }
  unfold calc_value. rewrite Lz, He. split_and!.
  - assert (E : z = splice z 2 (net16 0)).
    { apply buffer_ext; [rewrite blen_splice; rewrite ?blen_net16; lia|]. intros k Hk. rewrite Lz in Hk.
      unfold z. rewrite !getb_splice by (rewrite ?blen_splice, ?blen_net16; rewrite ?blen_net16; lia).
      by destruct (_ && _). }
    rewrite E at 2. apply csum_splice_valid; [unfold z; auto with relay|lia|done|lia].
  - rewrite Hg by lia. unfold y. by rewrite getb_splice by (rewrite ?blen_cons, ?blen_nil; lia).
  - rewrite Hg by lia. unfold y. by rewrite getb_splice by (rewrite ?blen_cons, ?blen_nil; lia).
  - intros k Hk. rewrite Hg by lia. unfold y. rewrite getb_splice by (rewrite ?blen_cons, ?blen_nil; lia).
    rewrite blen_cons, blen_nil. by destruct (Z.ltb_spec k (0 + (1 + 0))); [lia|rewrite andb_false_r].
Qed.

(** An ICMP message of even length to the fake gateway is answered by an
    echo reply to its sender, or by an ARP request while the sender's MAC is
    unknown: type 0, the message's code, identifier and data, an ICMP checksum
    and a header checksum that verify. *)
Theorem echo_answered wm zm pm w t i :
  ready w wm zm pm -> stable_clock w t ->
  blen (ip_src i) = 4 -> bytes (ip_src i) -> bytes (ip_payload i) ->
  let n := ip_total_len i - ip_header_len i in
  4 <= n <= blen (ip_payload i) -> 34 + n < BUFFER_SIZE -> Z.even n = true ->
  wp (process_icmp WifiCtx i) (fun r w' => r = 0 /\ exists e, blen e = n /\ csum e = 0 /\ getb e 0 = 0 /\
    getb e 1 = getb (ip_payload i) 1 /\ (forall k, 4 <= k < n -> getb e k = getb (ip_payload i) k) /\
    csum (take 20 (icmp_datagram w (ip_src i) e)) = 0 /\
    trace w' = local_delivery wm pm w t (ip_src i) (icmp_datagram w (ip_src i) e) ++ trace w) w.
Proof.
  intros Hr Hc Ls Bs Bp n Hn Hl He.
  eapply wp_mono; [apply (process_icmp_spec wm zm pm w t i); done || lia|]. fold n.
  intros r w' (_ & _ & -> & e & Le & Ee & Ht). specialize (Ee ltac:(lia)).
  assert (Lf : blen (field (ip_payload i) 0 n) = n) by (apply blen_field; lia).
  destruct (icmp_echo_valid (field (ip_payload i) 0 n)) as (V0 & V1 & V2 & V3); [auto with relay|by rewrite Lf|lia|].
  rewrite <- Ee in *. split; [done|]. exists e. split_and!; try done.
  - rewrite V2. by rewrite field_lookup by lia.
  - intros k Hk. rewrite V3 by lia. by rewrite field_lookup by lia.
  - pose proof (rd_ip _ _ _ _ Hr). pose proof (rd_ip_bytes _ _ _ _ Hr). unfold icmp_datagram. rewrite take_app_length'.
    + by apply ipv4_hdr_valid.
    + pose proof (blen_ipv4_hdr (identification (lp_packet_ctx (lp w))) (20 + blen e) IPV4_PROTOCOL_ICMP
        (pc_ip (lp_packet_ctx (lp w))) (ip_src i) (ipv4_hdr_sum (identification (lp_packet_ctx (lp w))) (20 + blen e)
        IPV4_PROTOCOL_ICMP (pc_ip (lp_packet_ctx (lp w))) (ip_src i))) as Hb. unfold blen in Hb at 3. specialize (Hb H Ls). lia.
Qed.

(** A datagram for an overlay peer is sent to the peer's MAC when the
    neighbour table knows it, and otherwise broadcast, after an ARP request for
    the peer; nothing else is sent. *)
Theorem overlay_unicast wm zm pm w t dst packet len :
  ready w wm zm pm -> stable_clock w t -> blen dst = 4 -> 20 <= len <= ETHER_MTU -> len <= blen packet ->
  wp (lan_play_send_zerotier_ipv4 dst packet len)
    (fun _ w' => trace w' = zerotier_delivery zm w t dst (field packet 0 len) ++ trace w) w.
Proof. intros. eapply wp_mono; [by apply (send_zerotier_ipv4_spec wm zm pm w t)|]. by intros rc w' (_ & _ & Ht). Qed.

(** The parser of IPv4 headers takes the checksum from the offset of the
    protocol: for every header, the value is the protocol and the first byte of
    the checksum. *)
Theorem parse_ipv4_checksum_misread e i :
  20 <= blen (eth_payload e) -> parse_ipv4 e = Ok i ->
  ip_checksum i = 256 * ip_protocol i + getb (eth_payload e) 10.
Proof.
  intros Hl. unfold parse_ipv4, IPV4_OFF_VER_LEN, IPV4_OFF_DSCP_ECN, IPV4_OFF_TOTAL_LEN, IPV4_OFF_ID,
    IPV4_OFF_FLAGS_FRAG_OFFSET, IPV4_OFF_TTL, IPV4_OFF_PROTOCOL, IPV4_OFF_SRC, IPV4_OFF_DST.
  rewrite !READ_NET8_ok, !READ_NET16_ok, !rdn_ok by lia. cbn [obind]. intros [= <-]. cbn [ip_checksum ip_protocol]. unfold be16. change (9 + 1) with 10. lia.
Qed.

(** ** Witnesses *)

Definition sample_echo : list Z := [8; 0; 0; 0; 0; 1; 0; 1; 97; 98].
Definition sample_icmp : ipv4 :=
  mkIpv4 4 20 0 0 30 0 0 0 64 1 0 Sample.console_ip [10; 147; 17; 1] sample_echo.
Lemma echo_answered_witness :
  wp (process_icmp WifiCtx sample_icmp) (fun r w' => r = 0 /\ exists e, blen e = 10 /\ csum e = 0 /\ getb e 0 = 0 /\
    getb e 1 = getb sample_echo 1 /\ (forall k, 4 <= k < 10 -> getb e k = getb sample_echo k) /\
    csum (take 20 (icmp_datagram Sample.relay Sample.console_ip e)) = 0 /\
    trace w' = local_delivery Sample.wifi_mac Sample.wifi_mac Sample.relay 1000 Sample.console_ip
      (icmp_datagram Sample.relay Sample.console_ip e) ++ trace Sample.relay) Sample.relay.
Proof.
  apply (echo_answered Sample.wifi_mac Sample.zt_mac Sample.wifi_mac Sample.relay 1000 sample_icmp);
    [apply sample_ready|intros ? ?; reflexivity|reflexivity|apply sample_bytes; reflexivity
    |apply sample_bytes; reflexivity|split; discriminate|reflexivity|reflexivity].
Defined.

Lemma overlay_unicast_witness :
  wp (lan_play_send_zerotier_ipv4 Sample.peer_ip (replicate 20 0) 20)
    (fun _ w' => trace w' = zerotier_delivery Sample.zt_mac Sample.relay 1000 Sample.peer_ip (replicate 20 0) ++
      trace Sample.relay) Sample.relay.
Proof.
  apply (overlay_unicast Sample.wifi_mac Sample.zt_mac Sample.wifi_mac Sample.relay 1000 Sample.peer_ip (replicate 20 0) 20);
    [apply sample_ready|intros ? ?; reflexivity|reflexivity|split; discriminate|discriminate].
Defined.

Lemma parse_ipv4_witness :
  exists i, parse_ipv4 (mkEther [] 0 [] [] 0 sample_udp) = Ok i /\
    ip_checksum i = 256 * ip_protocol i + getb sample_udp 10.
Proof.
  eexists. split; [vm_compute; reflexivity|].
  apply (parse_ipv4_checksum_misread (mkEther [] 0 [] [] 0 sample_udp)); [discriminate|vm_compute; reflexivity].
Defined.

(** *** A neighbour that expires between two clock readings *)

(** the neighbour is live at the first reading of the clock, not at the second *)
Definition expiring : world :=
  Sample.relay
    <| lp ::= set zerotier_neighbors (set arp_list (fun l => <[0%nat := mkArpItem Sample.peer_ip Sample.peer_mac 1001]> l)) |>
    <| environment ::= (fun e => mkEnv (fun n => 1000 + Z.of_nat n) (env_hrtime e) (env_send_rc e) (env_flush_rc e)
        (env_socket_rc e) (env_alloc_ok e) (env_lwip e) (env_junk e) (ndebug e)) |>.

(** The sender to the overlay looks a neighbour up twice, and reads the
    clock each time.  When the entry expires between the two readings, the second
    lookup asks for the address through the packet context of the neighbour
    table, which belongs to no adapter, and its null MAC is dereferenced. *)
Theorem neighbour_expiry_race :
  lan_play_send_zerotier_ipv4 Sample.peer_ip (replicate 20 0) 20 expiring = Stop NullDeref.
Proof. by vm_compute. Qed.
