(* ===== verification/NativeUdp.v ===== *)
(** * Host UDP endpoints

    src/src/native-udp.c: while the console's datagrams leave by packet
    injection, the relay holds the same UDP ports on the host so that nothing
    else answers for them.  Socket calls are the environment's. *)
From S2P Require Import Prelude Bytes World Sample Pcap Packet Arp.

Definition MAX_UDP_PORTS : Z := 64.
(** error codes of libuv on the Linux build *)
Definition UV_EINVAL : Z := -22.
Definition UV_ENOSPC : Z := -28.
Definition UV_ENOMEM : Z := -12.

Definition setguard (f : native_udp_guard -> native_udp_guard) : M unit :=
  setlp (set udp_guard (fmap f)).

Definition native_udp_guard_create (ip : list Z) : M Z :=
  setlp (set udp_guard (fun _ => None)) ;;;
  let* ok := ext env_alloc_ok in
  if negb ok then ret UV_ENOMEM else
  setlp (set udp_guard (fun _ => Some (mkGuard ip [] 0 0))) ;;;
  ret 0.

Definition native_udp_guard_reserve (port : Z) : M Z :=
  let* guard := getlp udp_guard in
  match guard with
  | None => ret UV_EINVAL
  | Some guard =>
      if port =? 0 then ret UV_EINVAL else
      if existsb (Z.eqb port) (ports guard) then ret 0 else
      if MAX_UDP_PORTS <=? guard_count guard then ret UV_ENOSPC else
      let* ok := ext env_alloc_ok in
      if negb ok then ret UV_ENOMEM else
      let* rc := ext env_socket_rc in
      if negb (rc =? 0) then ret rc else
      let* rc := ext env_socket_rc in
      let* rc := (if rc =? 0 then ext env_socket_rc else ret rc) in
      if negb (rc =? 0) then emit (Closed port) ;;; ret rc else
      setguard (set ports (cons port)) ;;;
      setguard (set guard_count (fun n => u32 (n + 1))) ;;;
      emit (Bound (guard_ip guard) port) ;;;
      ret 0
  end.

(** [drain_datagram]: [nread] and whether the datagram has a sender address *)
Definition drain_datagram (nread : Z) (address : bool) : M unit :=
  if nread <? 0 then ret tt
  else if address then setguard (set received (fun n => u64 (n + 1)))
  else ret tt.

Definition native_udp_guard_received (guard : option native_udp_guard) : Z :=
  match guard with Some g => received g | None => 0 end.

Fixpoint close_ports (ps : list Z) : M unit :=
  match ps with
  | [] => ret tt
  | p :: ps => emit (Closed p) ;;; close_ports ps
  end.

Definition native_udp_guard_close : M unit :=
  let* guard := getlp udp_guard in
  match guard with
  | None => ret tt
  | Some g => close_ports (ports g)
  end.

(** ** The invariant of the guard *)

Record guard_ok (g : native_udp_guard) : Prop := {
  gk_nodup : NoDup (ports g);
  gk_ports : Forall (fun p => 0 < p <= 65535) (ports g);
  gk_count : guard_count g = Z.of_nat (length (ports g));
  gk_max : guard_count g <= MAX_UDP_PORTS
}.

Definition holds_port (w : world) (port : Z) : Prop :=
  exists g, udp_guard (lp w) = Some g /\ port ∈ ports g.

(** all that a reservation may change *)
Record guard_frame (w w' : world) : Prop := {
  gf_lp : (lp w') <| udp_guard := None |> = (lp w) <| udp_guard := None |>;
  gf_options : options w' = options w;
  gf_env : environment w' = environment w;
  gf_id : dhcp_ip_id w' = dhcp_ip_id w;
  gf_trace : trace w' = trace w;
  gf_tick : (tick w <= tick w')%nat
}.
#[global] Instance guard_frame_preorder : PreOrder guard_frame.
Proof.
  split.
  - intros w. by split.
  - intros w1 w2 w3 [] []. split; etrans; done.
Qed.
(** any part of the state but the guard is the same *)
Lemma guard_frame_field {A} (f : lan_play -> A) w w' :
  (forall l, f (l <| udp_guard := None |>) = f l) -> guard_frame w w' -> f (lp w') = f (lp w).
Proof. intros Hf Hg. rewrite <- (Hf (lp w')), (gf_lp _ _ Hg). apply Hf. Qed.
Ltac guard_frame_easy := split; cbn; reflexivity || lia || auto.
#[export] Hint Extern 1 (guard_frame _ _) => solve [guard_frame_easy] : respects_state.

Lemma reserve_frame port : respects guard_frame (native_udp_guard_reserve port).
Proof.
  unfold native_udp_guard_reserve, getlp, setguard, setlp, emit, ext. solve_respects.
Qed.
#[export] Hint Resolve reserve_frame : respects.

Lemma existsb_elem port ps : existsb (Z.eqb port) ps = true <-> port ∈ ps.
Proof.
  induction ps as [|p ps IH]; cbn.
  - split; [done|]. by intros ?%not_elem_of_nil.
  - rewrite orb_true_iff, IH, Z.eqb_eq, elem_of_cons. done.
Qed.

Lemma reserve_spec port w :
  0 <= port <= 65535 ->
  (forall g, udp_guard (lp w) = Some g -> guard_ok g) ->
  wp (native_udp_guard_reserve port) (fun r w' => guard_frame w w' /\
    (forall g, udp_guard (lp w') = Some g -> guard_ok g) /\
    (r = 0 -> holds_port w' port) /\
    (r <> 0 -> udp_guard (lp w') = udp_guard (lp w) /\ ~ holds_port w' port) /\
    (forall p, holds_port w p -> holds_port w' p)) w.
Proof.
  intros Hp Hok. apply (wp_respects guard_frame); [auto with respects|].
  unfold native_udp_guard_reserve. apply wp_bind, wp_gets.
  destruct (udp_guard (lp w)) as [g|] eqn:Eg.
  2:{ apply wp_ret. rewrite ?Eg. split_and!; try done. intros _. split; [done|]. intros (g & E & _). congruence. }
  pose proof (Hok g eq_refl) as [Hnd Hf Hc Hm].
  assert (Hkeep : forall w1 r, udp_guard (lp w1) = Some g -> r <> 0 -> port ∉ ports g ->
    wp (ret r) (fun r w' => (forall g0, udp_guard (lp w') = Some g0 -> guard_ok g0) /\
      (r = 0 -> holds_port w' port) /\ (r <> 0 -> udp_guard (lp w') = Some g /\ ~ holds_port w' port) /\
      (forall p, holds_port w p -> holds_port w' p)) w1).
  { intros w1 r E1 Hr Hno. apply wp_ret. rewrite E1. unfold holds_port. rewrite Eg, E1. split_and!; try done.
    intros _. split; [done|]. by intros (g0 & [= <-] & Hin). }
  destruct (Z.eqb_spec port 0) as [->|Hp0].
  { apply Hkeep; [done|done|]. intros Hin%list_elem_of_In. rewrite Forall_forall in Hf. specialize (Hf _ Hin). lia. }
  destruct (existsb _ _) eqn:Ee.
  { apply existsb_elem in Ee. apply wp_ret. rewrite Eg. split_and!; try done. by exists g. }
  assert (Hno : port ∉ ports g) by (rewrite <- existsb_elem; by rewrite Ee).
  destruct (Z.leb_spec MAX_UDP_PORTS (guard_count g)); [by apply Hkeep|].
  do 2 apply wp_bind. apply wp_gets, wp_bind, wp_modify, wp_ret.
  destruct (negb _); [by apply Hkeep|].
  do 2 apply wp_bind. apply wp_gets, wp_bind, wp_modify, wp_ret.
  destruct (negb _) eqn:E1; [bool_lia; by apply Hkeep|].
  do 2 apply wp_bind. apply wp_gets, wp_bind, wp_modify, wp_ret. clear E1.
  apply wp_bind. set (w1 := _ <| tick ::= S |>). assert (E1 : udp_guard (lp w1) = Some g) by done.
  clearbody w1. set (rc := env_socket_rc _ _).
  eapply wp_mono with (P := fun rc w2 => udp_guard (lp w2) = Some g).
  { destruct (rc =? 0); [|done]. by apply wp_bind, wp_gets, wp_bind, wp_modify, wp_ret. }
  intros rc' w2 E2. destruct (negb _) eqn:Er.
  { bool_lia. apply wp_bind, wp_modify. by apply Hkeep. }
  do 3 apply wp_bind, wp_modify. apply wp_ret.
  unfold holds_port. cbn. rewrite E2, Eg. cbn. unfold MAX_UDP_PORTS in *. split_and!.
  - intros g0 [= <-]. split; cbn.
    + by constructor.
    + constructor; [lia|done].
    + rewrite u32_small; lia.
    + rewrite u32_small; unfold MAX_UDP_PORTS; lia.
  - intros _. eexists. split; [done|]. cbn. apply elem_of_cons. by left.
  - done.
  - intros p (g0 & [= <-] & Hin). eexists. split; [done|]. cbn. apply elem_of_cons. by right.
Qed.

(** ** Properties *)

(** C36. Reserving a host port keeps the list of ports free of duplicates, within
    1 to 65535 and at most 64 long, and its counter exact.  It reports success
    exactly when the port is held afterwards, never gives up a port, changes
    nothing else of the relay, and sends nothing. *)
Theorem port_reserved port w :
  0 <= port <= 65535 -> (forall g, udp_guard (lp w) = Some g -> guard_ok g) ->
  wp (native_udp_guard_reserve port) (fun r w' => guard_frame w w' /\
    (forall g, udp_guard (lp w') = Some g -> guard_ok g) /\
    (r = 0 <-> holds_port w' port) /\ (forall p, holds_port w p -> holds_port w' p)) w.
Proof.
  intros Hp Hok. eapply wp_mono; [by apply reserve_spec|]. intros r w' (Hf & Hok' & H0 & H1 & Hk).
  do 2 (split; [done|]). split; [split; [done|]|done]. intros Hh. destruct (decide (r = 0)) as [|Hn]; [done|]. by destruct (H1 Hn).
Qed.

Lemma port_reserved_witness :
  wp (native_udp_guard_reserve 35000) (fun r w' => guard_frame Sample.relay w' /\
    (forall g, udp_guard (lp w') = Some g -> guard_ok g) /\
    (r = 0 <-> holds_port w' 35000) /\ (forall p, holds_port Sample.relay p -> holds_port w' p)) Sample.relay.
Proof.
  apply port_reserved; [lia|]. intros g [= <-]. split; [constructor|constructor|reflexivity|discriminate].
Defined.
