(* ===== verification/Nintendo.v ===== *)
(** * Nintendo vendor prefixes

    The table of src/src/nintendo_oui.h and its lookup, which decide whether a
    Wi-Fi device is treated as a console. *)
From S2P Require Import Prelude Bytes.

Definition NINTENDO_OUIS : list (list Z) := [
  [0;9;191]; [0;22;86]; [0;23;171]; [0;25;29]; [0;25;253]; [0;26;233]; [0;27;122]; [0;27;234];
  [0;28;190]; [0;29;188]; [0;30;53]; [0;30;169]; [0;31;50]; [0;31;197]; [0;33;71]; [0;33;189];
  [0;34;76]; [0;34;170]; [0;34;215]; [0;35;49]; [0;35;204]; [0;36;30]; [0;36;68]; [0;36;243];
  [0;37;160]; [0;38;89]; [0;39;9]; [4;3;214]; [24;42;123]; [28;69;134]; [32;11;207]; [32;28;58];
  [40;207;81]; [44;16;193]; [48;137;236]; [52;47;189]; [52;175;44]; [56;112;53]; [56;198;206];
  [60;169;171]; [64;68;247]; [64;210;138]; [64;244;7]; [72;49;119]; [72;165;231]; [72;241;235];
  [76;48;106]; [80;35;109]; [88;47;64]; [88;176;62]; [88;189;163]; [92;12;230]; [92;82;30];
  [96;26;199]; [96;107;255]; [100;181;198]; [112;44;9]; [112;72;247]; [112;240;136];
  [116;132;105]; [116;249;202]; [120;32;165]; [120;129;140]; [120;162;160]; [124;187;138];
  [128;210;229]; [132;192;101]; [140;86;197]; [140;205;232]; [144;69;40]; [148;88;203];
  [148;142;109]; [152;65;92]; [152;182;233]; [152;226;85]; [152;232;250]; [156;230;53];
  [164;56;204]; [164;92;39]; [164;192;225]; [164;193;232]; [172;250;228]; [184;104;112];
  [184;120;38]; [184;138;236]; [184;174;110]; [188;116;75]; [188;137;166]; [188;158;187];
  [188;206;37]; [192;164;207]; [200;72;5]; [200;145;67]; [204;91;49]; [204;158;0]; [204;251;101];
  [208;85;9]; [212;240;87]; [216;107;131]; [216;107;247]; [220;104;235]; [220;205;24];
  [224;12;127]; [224;231;81]; [224;239;191]; [224;246;181]; [232;78;206]; [232;160;205];
  [232;218;32]; [236;196;13]
].

(** [memcmp] of the first three bytes with each row *)
Definition is_nintendo_mac (mac : list Z) : bool :=
  existsb (fun oui => bool_decide (take 3 mac = oui)) NINTENDO_OUIS.

Lemma is_nintendo_mac_true mac :
  is_nintendo_mac mac = true <-> exists oui, In oui NINTENDO_OUIS /\ take 3 mac = oui.
Proof.
  unfold is_nintendo_mac. rewrite existsb_exists. split.
  - intros (o & Hi & Hb). exists o. split; [done|]. by apply bool_decide_eq_true in Hb.
  - intros (o & Hi & Ho). exists o. split; [done|]. by apply bool_decide_eq_true.
Qed.

Lemma nintendo_unicast mac : is_nintendo_mac mac = true -> Z.land (getb mac 0) 3 = 0.
Proof.
  intros (oui & Hi & Ho)%is_nintendo_mac_true.
  assert (Hall : forallb (fun o => Z.land (getb o 0) 3 =? 0) NINTENDO_OUIS = true) by (by vm_compute).
  rewrite forallb_forall in Hall. specialize (Hall _ Hi). apply Z.eqb_eq in Hall.
  subst oui. by destruct mac.
Qed.

(** A MAC is a Nintendo one exactly when its first three bytes are a row of
    the table; such an address is never multicast (nor broadcast) and never a
    locally administered one. *)
Theorem is_nintendo_mac_prefix (mac : list Z) :
  is_nintendo_mac mac = true <->
  (exists oui, In oui NINTENDO_OUIS /\ take 3 mac = oui) /\ Z.land (getb mac 0) 3 = 0.
Proof.
  split.
  - intros H. split; [by apply is_nintendo_mac_true|by apply nintendo_unicast].
  - intros [H _]. by apply is_nintendo_mac_true.
Qed.
