(* ===== verification/Dhcp.v ===== *)
(** * The DHCP server for consoles

    src/src/dhcp-server.c: parsing of client packets, address choice, the lease
    table and replies.  [lease_ok] is the invariant of the table;
    [dhcp_server_consume] preserves it.  Replies are built in the first
    [ip_len] bytes of the local packet, the only ones initialised and sent. *)
From S2P Require Import Prelude Bytes Checksum World Nintendo Pcap Packet Arp Ipv4 Sample.

Definition DHCP_LEASE_COUNT : nat := 8.
Definition DHCP_LEASE_TIME : Z := 3600.
Definition DHCP_OFFER_TIME : Z := 120.

Definition DHCP_OP_BOOTREQUEST : Z := 1.
Definition DHCP_OP_BOOTREPLY : Z := 2.
Definition DHCP_HTYPE_ETHER : Z := 1.
Definition DHCP_MSG_DISCOVER : Z := 1.
Definition DHCP_MSG_OFFER : Z := 2.
Definition DHCP_MSG_REQUEST : Z := 3.
Definition DHCP_MSG_ACK : Z := 5.
Definition DHCP_MSG_NAK : Z := 6.
Definition DHCP_MSG_RELEASE : Z := 7.
Definition DHCP_OPT_MSG_TYPE : Z := 53.
Definition DHCP_OPT_SERVER_ID : Z := 54.
Definition DHCP_OPT_REQ_IP : Z := 50.
Definition DHCP_OPT_LEASE_TIME : Z := 51.
Definition DHCP_OPT_MASK : Z := 1.
Definition DHCP_OPT_ROUTER : Z := 3.
Definition DHCP_OPT_DNS : Z := 6.
Definition DHCP_OPT_BROADCAST : Z := 28.
Definition DHCP_OPT_END : Z := 255.
Definition DHCP_MAGIC : Z := 1669485411.
Definition DHCP_MIN_LEN : Z := 300.

Record dhcp_request := mkRequest {
  xid : Z;
  flags : Z;
  chaddr : list Z;
  msg_type : Z;
  requested_ip : list Z;
  has_requested_ip : bool;
  server_id : list Z;
  has_server_id : bool;
  ciaddr : list Z
}.
#[global] Instance eta_request : Eta dhcp_request := fun r =>
  mkRequest (xid r) (flags r) (chaddr r) (msg_type r) (requested_ip r) (has_requested_ip r)
    (server_id r) (has_server_id r) (ciaddr r).

(** ** The lease table *)

Definition no_lease : dhcp_lease := mkLease NONE_MAC NONE_IP 0 false false.

Definition dhcp_server_init : dhcp_server_state :=
  mkDhcp (replicate DHCP_LEASE_COUNT no_lease) 0 0 0 0 0.

Definition dhcp_sweep_expired (ls : list dhcp_lease) (now : Z) : list dhcp_lease :=
  map (fun l => if used l && (expires l <=? now) then no_lease else l) ls.

(** the index of the slot, for the pointer the code returns *)
Fixpoint dhcp_find_mac (ls : list dhcp_lease) (mac : list Z) : option nat :=
  match ls with
  | [] => None
  | l :: ls => if used l && CMP_MAC (lease_mac l) mac then Some O else S <$> dhcp_find_mac ls mac
  end.

Fixpoint find_free (ls : list dhcp_lease) : option nat :=
  match ls with
  | [] => None
  | l :: ls => if negb (used l) then Some O else S <$> find_free ls
  end.

Definition ipv4_to_u32 (ip : list Z) : Z :=
  Z.lor (Z.lor (Z.lor (Z.shiftl (getb ip 0) 24) (Z.shiftl (getb ip 1) 16)) (Z.shiftl (getb ip 2) 8)) (getb ip 3).

Definition u32_to_ipv4 (v : Z) : list Z :=
  [Z.land (Z.shiftr v 24) 255; Z.land (Z.shiftr v 16) 255; Z.land (Z.shiftr v 8) 255; Z.land v 255].

Definition getleases : M (list dhcp_lease) := getlp (fun l => leases (dhcp_state l)).
Definition setleases (f : list dhcp_lease -> list dhcp_lease) : M unit :=
  setlp (set dhcp_state (set leases f)).

(** the inner loops of [dhcp_pick_ip]: a live lease on [ip], not of [except] *)
Definition lease_taken (ls : list dhcp_lease) (now : Z) (ip : list Z) (except : option (list Z)) : bool :=
  existsb (fun l => used l && (now <? expires l) && CMP_IPV4 (lease_ip l) ip &&
    match except with Some mac => negb (CMP_MAC (lease_mac l) mac) | None => true end) ls.

(** the pool below the broadcast address; [fuel] bounds the 24 candidates *)
Fixpoint pick_pool (fuel : nat) (cand net bcast gw self now : Z) : M (option (list Z)) :=
  if negb ((net <? cand) && (u32 (bcast - cand) <=? 24)) then ret None else
  match fuel with
  | O => stop OutOfFuel
  | S fuel =>
      let next := pick_pool fuel (u32 (cand - 1)) net bcast gw self now in
      let ip := u32_to_ipv4 cand in
      if (cand =? gw) || (cand =? self) then next else
      let* seen := getlp (fun l => switch_seen (lp_switch l)) in
      let* sip := getlp (fun l => switch_ip (lp_switch l)) in
      if seen && CMP_IPV4 ip sip then next else
      let* has := arp_has_ip WifiCtx ip in
      if has then next else
      let* ls := getleases in
      if lease_taken ls now ip None then next else ret (Some ip)
  end.

(** the part of [dhcp_pick_ip] after the check for an own lease *)
Definition dhcp_pick_new (mac : list Z) (now : Z) : M (option (list Z)) :=
  let* a := getlp lp_adapters in
  let* gw_ip := getlp (fun l => pc_ip (lp_packet_ctx l)) in
  let net := Z.land (ipv4_to_u32 (zerotier_ip a)) (ipv4_to_u32 (zerotier_netmask a)) in
  let bcast := ipv4_to_u32 (zerotier_broadcast_ip a) in
  let gw := ipv4_to_u32 gw_ip in
  let self := ipv4_to_u32 (zerotier_ip a) in
  let ip := u32_to_ipv4 self in
  let* ls := getleases in
  let taken := lease_taken ls now ip (Some mac) in
  let* prefer :=
    (if taken then ret false else
     let* has := arp_has_ip WifiCtx ip in
     if has then ret false else
     let* seen := getlp (fun l => switch_seen (lp_switch l)) in
     let* sip := getlp (fun l => switch_ip (lp_switch l)) in
     ret (negb seen || CMP_IPV4 ip sip)) in
  if prefer then ret (Some ip) else
  pick_pool 25 (u32 (bcast - 1)) net bcast gw self now.

Definition dhcp_pick_ip (mac : list Z) : M (option (list Z)) :=
  let* now := time_now in
  let* ls := getleases in
  match dhcp_find_mac ls mac ≫= fun i => ls !! i with
  | Some own => if now <? expires own then ret (Some (lease_ip own)) else dhcp_pick_new mac now
  | None => dhcp_pick_new mac now
  end.

(** the slot written, if there is one *)
Definition dhcp_claim (mac ip : list Z) (offered : bool) : M (option nat) :=
  let* now := time_now in
  let* ls := getleases in
  let slot := match dhcp_find_mac ls mac with Some i => Some i | None => find_free ls end in
  match slot with
  | None => ret None
  | Some i =>
      let lease := mkLease mac ip (now + if offered then DHCP_OFFER_TIME else DHCP_LEASE_TIME) offered true in
      setleases (insert i lease) ;;;
      ret (Some i)
  end.

(** ** Replies *)

Definition dhcp_opt (p : list Z) (off code : Z) (data : list Z) : outcome (list Z * Z) :=
  try p := WRITE_NET8 p off code in
  try p := WRITE_NET8 p (off + 1) (blen data) in
  try p := wrn p (off + 2) data in
  Ok (p, off + 2 + blen data).

Definition lease_time_be : list Z :=
  let lease := DHCP_LEASE_TIME in
  [Z.land (Z.shiftr lease 24) 255; Z.land (Z.shiftr lease 16) 255;
   Z.land (Z.shiftr lease 8) 255; Z.land lease 255].

(** the BOOTP payload: [dhcp] points 28 bytes into the zeroed packet *)
Definition dhcp_payload (p dst_mac : list Z) (req : dhcp_request) (type : Z) (yiaddr gw mask bcast : list Z)
    : outcome (list Z) :=
  try p := WRITE_NET8 p 0 DHCP_OP_BOOTREPLY in
  try p := WRITE_NET8 p 1 DHCP_HTYPE_ETHER in
  try p := WRITE_NET8 p 2 6 in
  try p := WRITE_NET8 p 3 0 in
  try p := WRITE_NET16 p 4 (u16 (Z.shiftr (xid req) 16)) in
  try p := WRITE_NET16 p 6 (u16 (Z.land (xid req) 65535)) in
  try p := WRITE_NET16 p 10 (flags req) in
  try p := wrn p 16 yiaddr in
  try p := wrn p 20 gw in
  try p := wrn p 28 dst_mac in
  try p := WRITE_NET16 p 236 (u16 (Z.shiftr DHCP_MAGIC 16)) in
  try p := WRITE_NET16 p 238 (u16 (Z.land DHCP_MAGIC 65535)) in
  try po := dhcp_opt p 240 DHCP_OPT_MSG_TYPE [u8 type] in
  try po := (if type =? DHCP_MSG_NAK then Ok po else
    try po := dhcp_opt po.1 po.2 DHCP_OPT_SERVER_ID gw in
    try po := dhcp_opt po.1 po.2 DHCP_OPT_LEASE_TIME lease_time_be in
    try po := dhcp_opt po.1 po.2 DHCP_OPT_MASK mask in
    try po := dhcp_opt po.1 po.2 DHCP_OPT_ROUTER gw in
    try po := dhcp_opt po.1 po.2 DHCP_OPT_DNS gw in
    dhcp_opt po.1 po.2 DHCP_OPT_BROADCAST bcast) in
  WRITE_NET8 po.1 po.2 DHCP_OPT_END.

(** the IPv4 and UDP headers around it, with their checksums *)
Definition dhcp_headers (ip gw : list Z) (id ip_len udp_len : Z) : outcome (list Z) :=
  try ip := WRITE_NET8 ip IPV4_OFF_VER_LEN 69 in
  try ip := WRITE_NET16 ip IPV4_OFF_TOTAL_LEN (u16 ip_len) in
  try ip := WRITE_NET16 ip IPV4_OFF_ID id in
  try ip := WRITE_NET8 ip IPV4_OFF_TTL 64 in
  try ip := WRITE_NET8 ip IPV4_OFF_PROTOCOL IPV4_PROTOCOL_UDP in
  try ip := wrn ip IPV4_OFF_SRC gw in
  try ip := wrn ip IPV4_OFF_DST [255;255;255;255] in
  try ip := WRITE_NET16 ip IPV4_OFF_CHECKSUM 0 in
  try sum := ipv4_header_checksum ip IPV4_HEADER_LEN in
  try ip := WRITE_NET16 ip IPV4_OFF_CHECKSUM sum in
  try ip := WRITE_NET16 ip (IPV4_HEADER_LEN + UDP_OFF_SRCPORT) 67 in
  try ip := WRITE_NET16 ip (IPV4_HEADER_LEN + UDP_OFF_DSTPORT) 68 in
  try ip := WRITE_NET16 ip (IPV4_HEADER_LEN + UDP_OFF_LENGTH) (u16 udp_len) in
  try ip := WRITE_NET16 ip (IPV4_HEADER_LEN + UDP_OFF_CHECKSUM) 0 in
  try sum := udp_checksum ip IPV4_HEADER_LEN ip_len in
  WRITE_NET16 ip (IPV4_HEADER_LEN + UDP_OFF_CHECKSUM) sum.

Definition dhcp_send_reply (dst_mac : list Z) (req : dhcp_request) (type : Z) (yiaddr : list Z) : M Z :=
  let dhcp_len := DHCP_MIN_LEN in
  let udp_len := UDP_OFF_END + dhcp_len in
  let ip_len := IPV4_HEADER_LEN + udp_len in
  if ETHER_MTU <? ip_len then ret (-1) else
  let* gw := getlp (fun l => pc_ip (lp_packet_ctx l)) in
  let* mask := getlp (fun l => zerotier_netmask (lp_adapters l)) in
  let* bcast := getlp (fun l => zerotier_broadcast_ip (lp_adapters l)) in
  let? dhcp := dhcp_payload (replicate (Z.to_nat dhcp_len) 0) dst_mac req type yiaddr gw mask bcast in
  modify (set dhcp_ip_id (fun n => u16 (n + 1))) ;;;
  let* id := gets dhcp_ip_id in
  let? ip := dhcp_headers (replicate 28 0 ++ dhcp) gw id ip_len udp_len in
  lan_play_dhcp_send BROADCASE_MAC ip (u16 ip_len).

(** ** Requests *)

(** the option loop: [dhcp] points at the BOOTP payload *)
Fixpoint dhcp_options (fuel : nat) (dhcp : list Z) (off end_ : Z) (req : dhcp_request)
    : outcome dhcp_request :=
  if negb (off + 1 <? end_) then Ok req else
  match fuel with
  | O => Stop OutOfFuel
  | S fuel =>
      try code := READ_NET8 dhcp off in
      if code =? DHCP_OPT_END then Ok req else
      if code =? 0 then dhcp_options fuel dhcp (off + 1) end_ req else
      if end_ <? off + 2 then Ok req else
      try olen := READ_NET8 dhcp (off + 1) in
      if end_ <? off + 2 + olen then Ok req else
      let data := ptr dhcp (off + 2) in
      try req :=
        (if (code =? DHCP_OPT_MSG_TYPE) && (olen =? 1) then
           try b := READ_NET8 data 0 in Ok (req <| msg_type := b |>)
         else if (code =? DHCP_OPT_REQ_IP) && (olen =? 4) then
           try ip := rdn data 0 4 in Ok (req <| requested_ip := ip |> <| has_requested_ip := true |>)
         else if (code =? DHCP_OPT_SERVER_ID) && (olen =? 4) then
           try ip := rdn data 0 4 in Ok (req <| server_id := ip |> <| has_server_id := true |>)
         else Ok req) in
      dhcp_options fuel dhcp (off + 2 + olen) end_ req
  end.

(** [None] when the packet is not a DHCP request for the server *)
Definition dhcp_parse (frame : list Z) (len : Z) : outcome (option dhcp_request) :=
  if len <? ETHER_HEADER_LEN + IPV4_HEADER_LEN + UDP_OFF_END + 240 then Ok None else
  try type := READ_NET16 frame ETHER_OFF_TYPE in
  if negb (type =? ETHER_TYPE_IPV4) then Ok None else
  let ip := ptr frame ETHER_HEADER_LEN in
  try ver_len := READ_NET8 ip IPV4_OFF_VER_LEN in
  let hlen := Z.land ver_len 15 * 4 in
  if negb (Z.shiftr ver_len 4 =? 4) || (hlen <? IPV4_HEADER_LEN) then Ok None else
  try total := READ_NET16 ip IPV4_OFF_TOTAL_LEN in
  if (total <? hlen + UDP_OFF_END) || (len - ETHER_HEADER_LEN <? total) then Ok None else
  try protocol := READ_NET8 ip IPV4_OFF_PROTOCOL in
  if negb (protocol =? IPV4_PROTOCOL_UDP) then Ok None else
  let udp := ptr ip hlen in
  try dport := READ_NET16 udp UDP_OFF_DSTPORT in
  if negb (dport =? 67) then Ok None else
  try ulen := READ_NET16 udp UDP_OFF_LENGTH in
  if (ulen <? UDP_OFF_END + 240) || (total <? hlen + ulen) then Ok None else
  let dhcp := ptr udp UDP_OFF_END in
  try op := READ_NET8 dhcp 0 in
  try htype := READ_NET8 dhcp 1 in
  try hln := READ_NET8 dhcp 2 in
  if negb (op =? DHCP_OP_BOOTREQUEST) || negb (htype =? DHCP_HTYPE_ETHER) || negb (hln =? 6) then Ok None else
  try m1 := READ_NET16 dhcp 236 in
  try m2 := READ_NET16 dhcp 238 in
  if negb (m1 =? u16 (Z.shiftr DHCP_MAGIC 16)) || negb (m2 =? u16 (Z.land DHCP_MAGIC 65535)) then Ok None else
  try x1 := READ_NET16 dhcp 4 in
  try x2 := READ_NET16 dhcp 6 in
  try fl := READ_NET16 dhcp 10 in
  try ci := rdn dhcp 12 4 in
  try ch := rdn dhcp 28 6 in
  let req := mkRequest (Z.lor (Z.shiftl x1 16) x2) fl ch 0 NONE_IP false NONE_IP false ci in
  let end_ := hlen + ulen - UDP_OFF_END in
  try req := dhcp_options (Z.to_nat end_) dhcp 240 end_ req in
  Ok (if msg_type req =? 0 then None else Some req).

(** ** The server *)

Definition dhcp_in_our_subnet (a : adapters) (ip : list Z) : bool :=
  let mask := ipv4_to_u32 (zerotier_netmask a) in
  let net := Z.land (ipv4_to_u32 (zerotier_ip a)) mask in
  Z.land (ipv4_to_u32 ip) mask =? net.

Definition countdhcp (f : dhcp_server_state -> dhcp_server_state) : M unit :=
  setlp (set dhcp_state f).
Definition inc (n : Z) : Z := u64 (n + 1).

Definition dhcp_discover (mac : list Z) (req : dhcp_request) : M unit :=
  let* ip := dhcp_pick_ip mac in
  match ip with
  | None => ret tt
  | Some ip =>
      let* slot := dhcp_claim mac ip true in
      match slot with
      | None => ret tt
      | Some _ =>
          let* r := dhcp_send_reply mac req DHCP_MSG_OFFER ip in
          if r =? 0 then
            countdhcp (set offers_sent inc) ;;; emit (DhcpEvent DhcpOffered mac ip)
          else ret tt
      end
  end.

Definition dhcp_handle_request (mac : list Z) (req : dhcp_request) : M unit :=
  let* ls := getleases in
  let slot := dhcp_find_mac ls mac in
  let* now := time_now in
  let want := if has_requested_ip req then requested_ip req else ciaddr req in
  let has_want := has_requested_ip req || negb (CMP_IPV4 (ciaddr req) NONE_IP) in
  let* a := getlp lp_adapters in
  let otherwise :=
    if has_want && dhcp_in_our_subnet a want then
      let* r := dhcp_send_reply mac req DHCP_MSG_NAK NONE_IP in
      if r =? 0 then countdhcp (set naks_sent inc) else ret tt
    else if has_want then
      countdhcp (set lost_races inc) ;;; emit (DhcpEvent DhcpLost mac want)
    else ret tt in
  match slot ≫= fun i => ls !! i with
  | Some lease =>
      if (now <? expires lease) && has_want && CMP_IPV4 want (lease_ip lease) then
        let* s := dhcp_claim mac (lease_ip lease) false in
        let* r := dhcp_send_reply mac req DHCP_MSG_ACK (lease_ip lease) in
        if r =? 0 then
          countdhcp (set acks_sent inc) ;;; emit (DhcpEvent DhcpAssigned mac (lease_ip lease))
        else ret tt
      else otherwise
  | None => otherwise
  end.

Definition dhcp_release (mac : list Z) : M unit :=
  let* ls := getleases in
  match dhcp_find_mac ls mac with
  | Some i => setleases (insert i no_lease)
  | None => ret tt
  end.

Definition dhcp_server_consume (frame : list Z) (len : Z) : M bool :=
  let* on := option_of opt_dhcp_server in
  let* known := getlp (fun l => wifi_subnet_known (lp_adapters l)) in
  if negb on || negb known then ret false else
  let? req := dhcp_parse frame len in
  match req with
  | None => ret false
  | Some req =>
      let* now := time_now in
      setleases (fun ls => dhcp_sweep_expired ls now) ;;;
      let? mac := rdn frame ETHER_OFF_SRC 6 in
      if negb (is_nintendo_mac mac) then
        countdhcp (set ignored_non_nintendo inc) ;;; ret true
      else
      (if msg_type req =? DHCP_MSG_DISCOVER then dhcp_discover mac req
       else if msg_type req =? DHCP_MSG_REQUEST then dhcp_handle_request mac req
       else if msg_type req =? DHCP_MSG_RELEASE then dhcp_release mac
       else ret tt) ;;;
      ret true
  end.

(** ** Addresses as integers *)

Lemma lor_shift hi k lo : 0 <= k -> 0 <= lo < 2 ^ k -> Z.lor (Z.shiftl hi k) lo = hi * 2 ^ k + lo.
Proof.
  intros Hk Hlo. rewrite Z.shiftl_mul_pow2 by lia.
  rewrite <- Z.lxor_lor, <- Z.add_nocarry_lxor; [done|..]; apply Z.bits_inj'; intros n Hn;
    rewrite Z.land_spec, Z.bits_0; (destruct (Z.ltb_spec n k);
      [by rewrite Z.mul_pow2_bits_low by lia
      |rewrite <- (Z.mod_small lo (2 ^ k)) by lia; by rewrite Z.mod_pow2_bits_high, andb_false_r by lia]).
Qed.

Lemma ipv4_to_u32_value ip : bytes ip ->
  ipv4_to_u32 ip = ((getb ip 0 * 256 + getb ip 1) * 256 + getb ip 2) * 256 + getb ip 3.
Proof.
  intros Hb. unfold ipv4_to_u32.
  pose proof (getb_byte ip 0 Hb). pose proof (getb_byte ip 1 Hb).
  pose proof (getb_byte ip 2 Hb). pose proof (getb_byte ip 3 Hb). unfold is_byte in *.
  rewrite <- !Z.lor_assoc. rewrite (lor_shift (getb ip 2)) by lia.
  rewrite (lor_shift (getb ip 1)) by lia. rewrite (lor_shift (getb ip 0)) by lia. lia.
Qed.

Lemma ipv4_to_u32_bound ip : bytes ip -> 0 <= ipv4_to_u32 ip < 4294967296.
Proof.
  intros Hb. rewrite ipv4_to_u32_value by done.
  pose proof (getb_byte ip 0 Hb). pose proof (getb_byte ip 1 Hb).
  pose proof (getb_byte ip 2 Hb). pose proof (getb_byte ip 3 Hb). unfold is_byte in *. lia.
Qed.

Lemma land_255 v : Z.land v 255 = v mod 256.
Proof. change 255 with (Z.ones 8). by rewrite Z.land_ones by lia. Qed.

Lemma u32_to_ipv4_value v :
  u32_to_ipv4 v = [v / 16777216 mod 256; v / 65536 mod 256; v / 256 mod 256; v mod 256].
Proof. unfold u32_to_ipv4. rewrite !land_255, !Z.shiftr_div_pow2 by lia. done. Qed.

Lemma u32_to_ipv4_bytes v : bytes (u32_to_ipv4 v) /\ blen (u32_to_ipv4 v) = 4.
Proof. rewrite u32_to_ipv4_value. split; [|done]. repeat constructor; apply Z.mod_pos_bound; lia. Qed.

Lemma u32_round_trip ip : bytes ip -> blen ip = 4 -> u32_to_ipv4 (ipv4_to_u32 ip) = ip.
Proof.
  intros Hb Hl. explode Hl. rewrite ipv4_to_u32_value, u32_to_ipv4_value by done.
  set (l := [x; x0; x1; x2]). change (getb l 0) with x. change (getb l 1) with x0.
  change (getb l 2) with x1. change (getb l 3) with x2. subst l.
  inversion_clear Hb as [|? ? H1 Hb']. inversion_clear Hb' as [|? ? H2 Hb].
  inversion_clear Hb as [|? ? H3 Hb']. inversion_clear Hb' as [|? ? H4 _]. unfold is_byte in *.
  repeat f_equal; Z.to_euclidean_division_equations; lia.
Qed.

Lemma ipv4_round_trip v : 0 <= v < 4294967296 -> ipv4_to_u32 (u32_to_ipv4 v) = v.
Proof.
  intros Hv. rewrite ipv4_to_u32_value by apply u32_to_ipv4_bytes. rewrite u32_to_ipv4_value.
  set (l := [_; _; _; _]). change (getb l 0) with (v / 16777216 mod 256).
  change (getb l 1) with (v / 65536 mod 256). change (getb l 2) with (v / 256 mod 256).
  change (getb l 3) with (v mod 256). Z.to_euclidean_division_equations; lia.
Qed.

(** ** The lease invariant *)

(** the addresses the server hands out: its own managed address, or one of
    the pool between the network and the broadcast address *)
Definition assignable (a : adapters) (gw ip : list Z) : Prop :=
  ip = zerotier_ip a \/
  (blen ip = 4 /\ bytes ip /\
   Z.land (ipv4_to_u32 (zerotier_ip a)) (ipv4_to_u32 (zerotier_netmask a)) < ipv4_to_u32 ip
     < ipv4_to_u32 (zerotier_broadcast_ip a) /\
   ipv4_to_u32 ip <> ipv4_to_u32 gw).

Record lease_ok (a : adapters) (gw : list Z) (ls : list dhcp_lease) (t : Z) : Prop := {
  lk_len : length ls = DHCP_LEASE_COUNT;
  lk_each : forall i l, ls !! i = Some l -> used l = true ->
    is_nintendo_mac (lease_mac l) = true /\ assignable a gw (lease_ip l);
  lk_macs : forall i j li lj, ls !! i = Some li -> ls !! j = Some lj ->
    used li = true -> used lj = true -> lease_mac li = lease_mac lj -> i = j;
  lk_ips : forall i j li lj, ls !! i = Some li -> ls !! j = Some lj ->
    used li = true -> used lj = true -> t < expires li -> t < expires lj ->
    lease_ip li = lease_ip lj -> i = j
}.

Lemma lease_ok_later a gw ls t t' : t <= t' -> lease_ok a gw ls t -> lease_ok a gw ls t'.
Proof.
  intros Ht []. split; try done. intros i j li lj Hi Hj Ui Uj Ei Ej. eapply lk_ips0; try done; lia.
Qed.

Lemma lease_ok_sweep a gw ls t now :
  lease_ok a gw ls t -> lease_ok a gw (dhcp_sweep_expired ls now) t.
Proof.
  intros []. unfold dhcp_sweep_expired.
  assert (Hl : forall i l, map (fun l => if used l && (expires l <=? now) then no_lease else l) ls !! i = Some l ->
    used l = true -> ls !! i = Some l).
  { intros i l Hi Hu. apply list_lookup_fmap_Some in Hi as (l0 & -> & Hl0).
    rewrite Hl0. by destruct (used l0 && _). }
  split.
  - by rewrite length_map.
  - eauto.
  - intros i j li lj Hi Hj Ui Uj. eapply lk_macs0; eauto.
  - intros i j li lj Hi Hj Ui Uj. eapply lk_ips0; eauto.
Qed.

Lemma dhcp_find_mac_Some ls mac i :
  dhcp_find_mac ls mac = Some i -> exists l, ls !! i = Some l /\ used l = true /\ lease_mac l = mac.
Proof.
  revert i. induction ls as [|l ls IH]; intros i; cbn; [done|].
  destruct (_ && _) eqn:E.
  - intros [= <-]. bool_lia. apply CMP_MAC_spec in H0. by exists l.
  - intros (j & Hj & ->)%fmap_Some. destruct (IH j Hj) as (l' & ? & ? & ?). by exists l'.
Qed.
Lemma dhcp_find_mac_None ls mac i l :
  dhcp_find_mac ls mac = None -> ls !! i = Some l -> used l = true -> lease_mac l <> mac.
Proof.
  revert i. induction ls as [|l0 ls IH]; intros i; cbn; [done|].
  destruct (_ && _) eqn:E; [done|]. intros Hn%fmap_None. destruct i; cbn.
  - intros [= <-] Hu. rewrite Hu in E. cbn in E. by apply CMP_MAC_false in E.
  - by apply IH.
Qed.
Lemma find_free_Some ls i : find_free ls = Some i -> exists l, ls !! i = Some l /\ used l = false.
Proof.
  revert i. induction ls as [|l ls IH]; intros i; cbn; [done|]. destruct (used l) eqn:E; cbn.
  - intros (j & Hj & ->)%fmap_Some. apply IH, Hj.
  - intros [= <-]. by exists l.
Qed.

Lemma find_free_None ls i l : find_free ls = None -> ls !! i = Some l -> used l = true.
Proof.
  revert i. induction ls as [|l0 ls IH]; intros i; cbn; [done|]. destruct (used l0) eqn:E; cbn; [|done].
  intros Hn%fmap_None. destruct i; cbn; [by intros [= <-]|by apply IH].
Qed.

(** the slot [dhcp_claim] writes for a MAC *)
Definition slot_for (ls : list dhcp_lease) (mac : list Z) : option nat :=
  match dhcp_find_mac ls mac with Some i => Some i | None => find_free ls end.

Lemma slot_for_lt ls mac i : slot_for ls mac = Some i -> (i < length ls)%nat.
Proof.
  unfold slot_for. destruct (dhcp_find_mac ls mac) eqn:E.
  - intros [= <-]. apply dhcp_find_mac_Some in E as (l & Hl & _). by eapply lookup_lt_Some.
  - intros (l & Hl & _)%find_free_Some. by eapply lookup_lt_Some.
Qed.

(** no other slot than [slot_for] has the MAC *)
Lemma slot_for_unique a gw ls t mac i j lj :
  lease_ok a gw ls t -> slot_for ls mac = Some i -> ls !! j = Some lj -> used lj = true ->
  lease_mac lj = mac -> i = j.
Proof.
  intros Hok. unfold slot_for. destruct (dhcp_find_mac ls mac) as [k|] eqn:E.
  - intros [= <-] Hj Uj Hm. apply dhcp_find_mac_Some in E as (l & Hl & Ul & Hml).
    eapply lk_macs; eauto. congruence.
  - intros _ Hj Uj Hm. by destruct (dhcp_find_mac_None _ _ _ _ E Hj Uj).
Qed.

Lemma lease_ok_insert a gw ls t mac ip e o i :
  lease_ok a gw ls t -> slot_for ls mac = Some i ->
  is_nintendo_mac mac = true -> assignable a gw ip ->
  (forall j lj, ls !! j = Some lj -> used lj = true -> t < expires lj -> lease_ip lj = ip -> lease_mac lj = mac) ->
  lease_ok a gw (<[i := mkLease mac ip e o true]> ls) t.
Proof.
  intros Hok Hs Hn Ha Hfree. pose proof (slot_for_unique a gw ls t mac i) as Hu. specialize (fun j lj => Hu j lj Hok Hs).
  split.
  - rewrite length_insert. apply Hok.
  - intros j l Hj. apply list_lookup_insert_Some in Hj as [(-> & <- & _)|[_ Hj]]; [done|]. by eapply lk_each.
  - intros j k lj lk Hj Hk Uj Uk Hm.
    apply list_lookup_insert_Some in Hj as [(-> & <- & _)|[? Hj]];
      apply list_lookup_insert_Some in Hk as [(-> & <- & _)|[? Hk]]; cbn in *; try done.
    + by apply (Hu k lk).
    + symmetry. by apply (Hu j lj).
    + by eapply lk_macs.
  - intros j k lj lk Hj Hk Uj Uk Ej Ek Hm.
    apply list_lookup_insert_Some in Hj as [(-> & <- & _)|[? Hj]];
      apply list_lookup_insert_Some in Hk as [(-> & <- & _)|[? Hk]]; cbn in *; try done.
    + apply (Hu k lk); try done. by eapply Hfree.
    + symmetry. apply (Hu j lj); try done. by eapply Hfree.
    + by eapply lk_ips.
Qed.

Lemma lease_ok_release a gw ls t i : lease_ok a gw ls t -> lease_ok a gw (<[i := no_lease]> ls) t.
Proof.
  intros Hok. assert (Hl : forall j l, <[i := no_lease]> ls !! j = Some l -> used l = true -> ls !! j = Some l).
  { intros j l Hj Hu. by apply list_lookup_insert_Some in Hj as [(-> & <- & _)|[_ Hj]]. }
  split.
  - rewrite length_insert. apply Hok.
  - intros. eapply lk_each; eauto.
  - intros j k lj lk Hj Hk Uj Uk. eapply lk_macs; eauto.
  - intros j k lj lk Hj Hk Uj Uk. eapply lk_ips; eauto.
Qed.

Lemma lease_ok_init a gw t : lease_ok a gw (replicate DHCP_LEASE_COUNT no_lease) t.
Proof.
  assert (Hl : forall i l, replicate DHCP_LEASE_COUNT no_lease !! i = Some l -> used l = true -> False).
  { intros i l Hi. by apply lookup_replicate in Hi as [-> _]. }
  split; [done|..]; intros; exfalso; eauto.
Qed.

Lemma lease_taken_false ls now ip ex j lj :
  lease_taken ls now ip ex = false -> ls !! j = Some lj -> used lj = true -> now < expires lj ->
  lease_ip lj = ip -> ex = Some (lease_mac lj).
Proof.
  intros Ht Hj Hu He Hi. unfold lease_taken in Ht.
  rewrite <- not_true_iff_false, existsb_exists in Ht.
  destruct (decide (ex = Some (lease_mac lj))) as [->|Hx]; [done|]. exfalso. apply Ht. exists lj.
  split; [by eapply list_elem_of_In, list_elem_of_lookup_2|].
  rewrite Hu, (proj2 (Z.ltb_lt _ _) He), (proj2 (CMP_IPV4_spec _ _) Hi). cbn.
  destruct ex as [m|]; [|done]. apply negb_true_iff, CMP_MAC_false. congruence.
Qed.

Lemma lease_taken_true ls now ip ex :
  lease_taken ls now ip ex = true -> exists j lj, ls !! j = Some lj /\ used lj = true /\ now < expires lj /\
    lease_ip lj = ip /\ ex <> Some (lease_mac lj).
Proof.
  unfold lease_taken. rewrite existsb_exists. intros (l & [j Hj]%list_elem_of_In%list_elem_of_lookup & H).
  exists j, l. bool_lia. split_and!; try done; [by apply CMP_IPV4_spec|].
  intros ->. apply negb_true_iff, CMP_MAC_false in H0. done.
Qed.

(** ** What the server leaves alone *)

(** All but the server's own state, counters, captures and output. *)
Record dhcp_frame (w w' : world) : Prop := {
  df_ctx : lp_packet_ctx (lp w') = lp_packet_ctx (lp w);
  df_neighbors : zerotier_neighbors (lp w') = zerotier_neighbors (lp w);
  df_wifi : pcap_ids (lp_pcap (lp w')) = pcap_ids (lp_pcap (lp w));
  df_zt : pcap_ids (lp_zerotier_pcap (lp w')) = pcap_ids (lp_zerotier_pcap (lp w));
  df_ingress : ingress_zerotier (lp w') = ingress_zerotier (lp w);
  df_discovery : lp_discovery (lp w') = lp_discovery (lp w);
  df_adapters : lp_adapters (lp w') = lp_adapters (lp w);
  df_switch : lp_switch (lp w') = lp_switch (lp w);
  df_guard : udp_guard (lp w') = udp_guard (lp w);
  df_probe : lp_probe (lp w') = lp_probe (lp w);
  df_client : lp_client (lp w') = lp_client (lp w);
  df_options : options w' = options w;
  df_env : environment w' = environment w;
  df_tick : (tick w <= tick w')%nat
}.
#[global] Instance dhcp_frame_preorder : PreOrder dhcp_frame.
Proof.
  split.
  - intros w. by split.
  - intros w1 w2 w3 [] []. split; etrans; done.
Qed.
Lemma io_dhcp_frame w w' : io_frame w w' -> dhcp_frame w w'.
Proof. intros []. by split. Qed.
Lemma respects_io_dhcp {A} (m : M A) : respects io_frame m -> respects dhcp_frame m.
Proof. apply respects_mono, io_dhcp_frame. Qed.
Lemma ready_dhcp w w' wm zm pm : dhcp_frame w w' -> ready w wm zm pm -> ready w' wm zm pm.
Proof. intros []. by apply ready_same. Qed.
Ltac dhcp_frame_easy := split; cbn; reflexivity || lia || auto.
#[export] Hint Extern 1 (dhcp_frame _ _) => solve [dhcp_frame_easy] : respects_state.
#[export] Hint Extern 4 (respects dhcp_frame _) =>
  (apply respects_io_dhcp; solve [auto with respects]) : respects.

Lemma pick_pool_io fuel c n b g s t : respects io_frame (pick_pool fuel c n b g s t).
Proof.
  revert c. induction fuel as [|fuel IH]; intros c; cbn [pick_pool]; unfold getleases, getlp; solve_respects.
Qed.
#[export] Hint Resolve pick_pool_io : respects.
Lemma dhcp_pick_ip_io mac : respects io_frame (dhcp_pick_ip mac).
Proof. unfold dhcp_pick_ip, dhcp_pick_new, getleases, getlp. solve_respects. Qed.
#[export] Hint Resolve dhcp_pick_ip_io : respects.
Lemma dhcp_claim_frame mac ip o : respects dhcp_frame (dhcp_claim mac ip o).
Proof. unfold dhcp_claim, getleases, setleases, getlp, setlp. solve_respects. Qed.
#[export] Hint Resolve dhcp_claim_frame : respects.
Lemma dhcp_send_reply_frame m r t y : respects dhcp_frame (dhcp_send_reply m r t y).
Proof. unfold dhcp_send_reply, getlp, lan_play_dhcp_send. solve_respects. Qed.
#[export] Hint Resolve dhcp_send_reply_frame : respects.
Lemma countdhcp_frame f : respects dhcp_frame (countdhcp f).
Proof. unfold countdhcp, setlp. solve_respects. Qed.
Lemma setleases_frame f : respects dhcp_frame (setleases f).
Proof. unfold setleases, setlp. solve_respects. Qed.
#[export] Hint Resolve countdhcp_frame setleases_frame : respects.
Lemma dhcp_discover_frame m r : respects dhcp_frame (dhcp_discover m r).
Proof. unfold dhcp_discover. solve_respects. Qed.
Lemma dhcp_handle_request_frame m r : respects dhcp_frame (dhcp_handle_request m r).
Proof. unfold dhcp_handle_request, getleases, getlp. solve_respects. Qed.
Lemma dhcp_release_frame m : respects dhcp_frame (dhcp_release m).
Proof. unfold dhcp_release, getleases, getlp. solve_respects. Qed.
#[export] Hint Resolve dhcp_discover_frame dhcp_handle_request_frame dhcp_release_frame : respects.
Lemma dhcp_server_consume_frame f n : respects dhcp_frame (dhcp_server_consume f n).
Proof. unfold dhcp_server_consume, option_of, getlp. solve_respects. Qed.
#[export] Hint Resolve dhcp_server_consume_frame : respects.

(** replies do not touch the leases *)
Definition same_leases (w w' : world) : Prop :=
  leases (dhcp_state (lp w')) = leases (dhcp_state (lp w)).
#[global] Instance same_leases_preorder : PreOrder same_leases.
Proof. split; [done|]. unfold same_leases. intros ???. congruence. Qed.
#[export] Hint Extern 1 (same_leases _ _) => reflexivity : respects_state.
Lemma respects_io_leases {A} (m : M A) : respects io_frame m -> respects same_leases m.
Proof. apply respects_mono. intros w w' []. unfold same_leases. congruence. Qed.
#[export] Hint Extern 4 (respects same_leases _) =>
  (apply respects_io_leases; solve [auto with respects]) : respects.
Lemma dhcp_send_reply_leases m r t y : respects same_leases (dhcp_send_reply m r t y).
Proof. unfold dhcp_send_reply, getlp, lan_play_dhcp_send. solve_respects. Qed.
#[export] Hint Resolve dhcp_send_reply_leases : respects.

(** everything the server sends goes to the Wi-Fi adapter *)
Definition only_wifi (w w' : world) : Prop :=
  exists l, trace w' = l ++ trace w /\ Forall (fun x => x.1.1 = Wifi) l.
#[global] Instance only_wifi_preorder : PreOrder only_wifi.
Proof.
  split.
  - intros w. by exists [].
  - intros w1 w2 w3 (l1 & E1 & F1) (l2 & E2 & F2). exists (l2 ++ l1).
    rewrite E2, E1, app_assoc. split; [done|]. by apply Forall_app.
Qed.
Lemma no_send_only_wifi w w' : no_send w w' -> only_wifi w w'.
Proof. intros E. by exists []. Qed.
Lemma respects_quiet_wifi {A} (m : M A) : respects no_send m -> respects only_wifi m.
Proof. apply respects_mono, no_send_only_wifi. Qed.
#[export] Hint Extern 1 (only_wifi _ _) => (by exists []) : respects_state.
#[export] Hint Extern 4 (respects only_wifi _) =>
  (apply respects_quiet_wifi; solve [auto with respects]) : respects.

Lemma interf_sendpacket_wifi i d n : respects only_wifi (uv_pcap_interf_sendpacket Wifi i d n).
Proof.
  unfold uv_pcap_interf_sendpacket, getlp. repeat respects_step.
  unfold emit. apply (respects_modify _). intros w. exists [(Wifi, i, a1)]. split; [done|]. by repeat constructor.
Qed.
#[export] Hint Resolve interf_sendpacket_wifi : respects.
Lemma send_on_all_wifi i n d s r : respects only_wifi (send_on_all Wifi i n d s r).
Proof. revert i r. induction n as [|n IH]; intros; cbn; solve_respects. Qed.
#[export] Hint Resolve send_on_all_wifi : respects.
Lemma uv_pcap_sendpacket_wifi d n : respects only_wifi (uv_pcap_sendpacket Wifi d n).
Proof. unfold uv_pcap_sendpacket, getlp. solve_respects. Qed.
#[export] Hint Resolve uv_pcap_sendpacket_wifi : respects.
Lemma lan_play_send_packet_wifi d n : respects only_wifi (lan_play_send_packet d n).
Proof. unfold lan_play_send_packet. solve_respects. Qed.
#[export] Hint Resolve lan_play_send_packet_wifi : respects.
Lemma send_wifi_ipv4_wifi d p n : respects only_wifi (lan_play_send_wifi_ipv4 d p n).
Proof. unfold lan_play_send_wifi_ipv4, getlp. solve_respects. Qed.
#[export] Hint Resolve send_wifi_ipv4_wifi : respects.
Lemma pick_pool_quiet fuel c n b g s t : respects no_send (pick_pool fuel c n b g s t).
Proof.
  revert c. induction fuel as [|fuel IH]; intros c; cbn [pick_pool]; unfold getleases, getlp; solve_respects.
Qed.
#[export] Hint Resolve pick_pool_quiet : respects.
Lemma dhcp_pick_ip_quiet mac : respects no_send (dhcp_pick_ip mac).
Proof. unfold dhcp_pick_ip, dhcp_pick_new, getleases, getlp. solve_respects. Qed.
Lemma dhcp_claim_quiet mac ip o : respects no_send (dhcp_claim mac ip o).
Proof. unfold dhcp_claim, getleases, setleases, getlp, setlp. solve_respects. Qed.
#[export] Hint Resolve dhcp_pick_ip_quiet dhcp_claim_quiet : respects.
Lemma dhcp_send_reply_wifi m r t y : respects only_wifi (dhcp_send_reply m r t y).
Proof. unfold dhcp_send_reply, getlp, lan_play_dhcp_send. solve_respects. Qed.
#[export] Hint Resolve dhcp_send_reply_wifi : respects.
Lemma dhcp_server_consume_wifi f n : respects only_wifi (dhcp_server_consume f n).
Proof.
  unfold dhcp_server_consume, option_of, dhcp_discover, dhcp_handle_request, dhcp_release,
    countdhcp, setleases, getleases, getlp, setlp. solve_respects.
Qed.

(** ** The invariant is preserved *)

Definition monotone_clock (w : world) : Prop :=
  forall i j, (i <= j)%nat -> env_time (environment w) i <= env_time (environment w) j.

(** the current time: what the next call to the clock returns *)
Definition now_of (w : world) : Z := env_time (environment w) (tick w).

Definition leases_ok (w : world) : Prop :=
  lease_ok (lp_adapters (lp w)) (pc_ip (lp_packet_ctx (lp w))) (leases (dhcp_state (lp w))) (now_of w).

Record dhcp_net_ok (w : world) : Prop := {
  dn_ip : bytes (zerotier_ip (lp_adapters (lp w))) /\ blen (zerotier_ip (lp_adapters (lp w))) = 4;
  dn_gw : bytes (pc_ip (lp_packet_ctx (lp w)));
  dn_bcast : bytes (zerotier_broadcast_ip (lp_adapters (lp w)));
  dn_nonzero : 0 < ipv4_to_u32 (zerotier_broadcast_ip (lp_adapters (lp w)));
  dn_mono : monotone_clock w
}.
Lemma dhcp_net_frame w w' : dhcp_frame w w' -> dhcp_net_ok w -> dhcp_net_ok w'.
Proof.
  intros [] []. split; try congruence. unfold monotone_clock. by rewrite df_env0.
Qed.
Lemma now_frame w w' : dhcp_frame w w' -> dhcp_net_ok w -> now_of w <= now_of w'.
Proof. intros [] []. unfold now_of. rewrite df_env0. by apply dn_mono0. Qed.

(** same leases at a later time *)
Lemma leases_ok_frame w w' :
  dhcp_frame w w' -> same_leases w w' -> dhcp_net_ok w -> leases_ok w -> leases_ok w'.
Proof.
  intros Hf Hs Hn Hok. pose proof (now_frame _ _ Hf Hn). destruct Hf. unfold leases_ok, same_leases in *.
  rewrite df_adapters0, df_ctx0, Hs. by eapply lease_ok_later.
Qed.

Lemma time_now_wp (Q : Z -> world -> Prop) w :
  Q (now_of w) (w <| tick ::= S |>) -> wp time_now Q w.
Proof. intros H. by apply wp_bind, wp_gets, wp_bind, wp_modify, wp_ret. Qed.

(** *** Choice of an address *)

Lemma pick_pool_spec fuel k net bcast gw self now w :
  0 <= net -> 0 < bcast < 4294967296 -> 1 <= k <= bcast -> 26 - k <= Z.of_nat fuel ->
  wp (pick_pool fuel (bcast - k) net bcast gw self now) (fun r w' => io_frame w w' /\
    forall ip, r = Some ip -> exists v, ip = u32_to_ipv4 v /\ net < v < bcast /\ v <> gw /\
      lease_taken (leases (dhcp_state (lp w))) now ip None = false) w.
Proof.
  intros Hn Hb. revert k w. induction fuel as [|fuel IH]; intros k w Hk Hf;
    (apply (wp_respects io_frame); [auto with respects|]); cbn [pick_pool];
    rewrite (u32_small (bcast - (bcast - k))) by lia;
    (destruct (negb _) eqn:E; [by apply wp_ret|]); bool_lia; [lia|].
  assert (Hnext : forall w', io_frame w w' ->
    wp (pick_pool fuel (u32 (bcast - k - 1)) net bcast gw self now) (fun r _ => forall ip, r = Some ip ->
      exists v, ip = u32_to_ipv4 v /\ net < v < bcast /\ v <> gw /\
        lease_taken (leases (dhcp_state (lp w))) now ip None = false) w').
  { intros w' Hw. rewrite u32_small by lia. replace (bcast - k - 1) with (bcast - (k + 1)) by lia.
    eapply wp_mono; [apply IH; lia|]. intros r w2 [_ Hr]. by rewrite <- (io_dhcp _ _ Hw). }
  destruct (_ || _) eqn:Eg; [by apply Hnext|]. bool_lia.
  apply wp_bind, wp_gets, wp_bind, wp_gets. destruct (_ && _); [by apply Hnext|].
  apply wp_bind. eapply wp_mono; [apply arp_has_ip_spec|]. intros has w1 (Hf1 & _ & _).
  destruct has; [by apply Hnext|]. apply wp_bind, wp_gets.
  destruct (lease_taken _ _ _ _) eqn:Et; [by apply Hnext|]. apply wp_ret. intros ip [= <-].
  exists (bcast - k). rewrite (io_dhcp _ _ Hf1) in Et. split_and!; [done|lia|lia|done|done].
Qed.

(** an address that is free for a console: no device of the local network has
    it, and it is the relay's own address, when the console is known by it or
    not at all and no other live lease has it, or one of the 24 below the
    broadcast address, when it is neither the gateway's nor the relay's nor the
    console's and no live lease has it *)
Definition pool_free (w : world) (v : Z) : Prop :=
  let ip := u32_to_ipv4 v in
  v <> ipv4_to_u32 (pc_ip (lp_packet_ctx (lp w))) /\ v <> ipv4_to_u32 (zerotier_ip (lp_adapters (lp w))) /\
  (switch_seen (lp_switch (lp w)) = true -> switch_ip (lp_switch (lp w)) <> ip) /\
  known_mac WifiCtx w ip = None /\
  forall j lj, leases (dhcp_state (lp w)) !! j = Some lj -> used lj = true -> now_of w < expires lj -> lease_ip lj <> ip.
Definition relay_free (w : world) (mac : list Z) : Prop :=
  let ip := zerotier_ip (lp_adapters (lp w)) in
  (switch_seen (lp_switch (lp w)) = true -> switch_ip (lp_switch (lp w)) = ip) /\
  known_mac WifiCtx w ip = None /\
  forall j lj, leases (dhcp_state (lp w)) !! j = Some lj -> used lj = true -> now_of w < expires lj ->
    lease_ip lj = ip -> lease_mac lj = mac.
Definition overlay_net (w : world) : Z :=
  let a := lp_adapters (lp w) in Z.land (ipv4_to_u32 (zerotier_ip a)) (ipv4_to_u32 (zerotier_netmask a)).
Definition overlay_bcast (w : world) : Z := ipv4_to_u32 (zerotier_broadcast_ip (lp_adapters (lp w))).

(** there is no address for the console, or no slot to write a lease to *)
Definition no_address (w : world) (mac : list Z) : Prop :=
  (forall j lj, leases (dhcp_state (lp w)) !! j = Some lj -> used lj = true -> lease_mac lj = mac -> expires lj <= now_of w) /\
  ~ relay_free w mac /\
  forall v, overlay_net w < v < overlay_bcast w -> overlay_bcast w - v <= 24 -> ~ pool_free w v.
Definition no_slot (w : world) (mac : list Z) : Prop :=
  forall j lj, leases (dhcp_state (lp w)) !! j = Some lj -> used lj = true /\ lease_mac lj <> mac.

Lemma arp_find_later l ip t t' : t <= t' -> arp_find l ip t = None -> arp_find l ip t' = None.
Proof.
  intros Ht. induction l as [|x l IH]; [done|]. cbn [arp_find]. destruct (CMP_IPV4 _ _); cbn [andb]; [|done].
  destruct (Z.ltb_spec t (expire_at x)), (Z.ltb_spec t' (expire_at x)); try done; lia.
Qed.
(** a device that is not in the ARP table is not in it later *)
Lemma known_mac_later w w' ip :
  io_frame w w' -> monotone_clock w -> known_mac WifiCtx w ip = None -> known_mac WifiCtx w' ip = None.
Proof.
  intros Hf Hm. unfold known_mac, get_ctx. rewrite (io_ctx _ _ Hf), (io_env _ _ Hf). apply arp_find_later, Hm, (io_tick _ _ Hf).
Qed.

Lemma pick_pool_none fuel k w0 w net gw self now bcast :
  0 <= net -> 0 < bcast < 4294967296 -> 1 <= k <= bcast -> 26 - k <= Z.of_nat fuel ->
  io_frame w0 w -> monotone_clock w0 -> now = now_of w0 -> gw = ipv4_to_u32 (pc_ip (lp_packet_ctx (lp w0))) ->
  self = ipv4_to_u32 (zerotier_ip (lp_adapters (lp w0))) ->
  wp (pick_pool fuel (bcast - k) net bcast gw self now) (fun r _ => r = None ->
    forall v, net < v -> v <= bcast - k -> bcast - v <= 24 -> ~ pool_free w0 v) w.
Proof.
  intros Hn Hb Hk Hf Hw Hm -> -> ->. revert k w Hk Hf Hw.
  induction fuel as [|fuel IH]; intros k w Hk Hf Hw; cbn [pick_pool];
    rewrite (u32_small (bcast - (bcast - k))) by lia;
    (destruct (negb _) eqn:E; [apply wp_ret; intros _ v ? ? ?; bool_lia; lia|]); bool_lia; [lia|].
  assert (Hnext : forall w', io_frame w0 w' -> ~ pool_free w0 (bcast - k) ->
    wp (pick_pool fuel (u32 (bcast - k - 1)) net bcast (ipv4_to_u32 (pc_ip (lp_packet_ctx (lp w0))))
      (ipv4_to_u32 (zerotier_ip (lp_adapters (lp w0)))) (now_of w0)) (fun r _ => r = None ->
      forall v, net < v -> v <= bcast - k -> bcast - v <= 24 -> ~ pool_free w0 v) w').
  { intros w' Hw' Hno. rewrite u32_small by lia. replace (bcast - k - 1) with (bcast - (k + 1)) by lia.
    eapply wp_mono; [apply IH; [lia|lia|done]|]. intros r w2 Hr Er v H1 H2 H3.
    destruct (decide (v = bcast - k)) as [->|]; [done|]. apply Hr; [done|lia..]. }
  destruct (_ || _) eqn:Eg; [apply Hnext; [done|]; intros (H1 & H2 & _); apply orb_true_iff in Eg as [Eg|Eg]; bool_lia; lia|]. bool_lia.
  apply wp_bind, wp_gets, wp_bind, wp_gets.
  destruct (_ && _) eqn:Es.
  { apply Hnext; [done|]. rewrite (io_switch _ _ Hw) in Es. bool_lia.
    intros (_ & _ & Hs & _). apply Hs; [done|]. symmetry. by apply CMP_IPV4_spec. }
  apply wp_bind. eapply wp_mono; [apply arp_has_ip_spec|]. intros has w1 (Hf1 & _ & Eh). assert (Hw1 : io_frame w0 w1) by (by etrans).
  destruct has.
  { apply Hnext; [done|]. intros (_ & _ & _ & Hk' & _). pose proof (known_mac_later _ _ _ Hw Hm Hk') as Hx.
    symmetry in Eh. apply bool_decide_eq_true in Eh as [? ?]. congruence. }
  apply wp_bind, wp_gets. rewrite (io_dhcp _ _ Hw1). destruct (lease_taken _ _ _ _) eqn:Et; [|by apply wp_ret].
  apply Hnext; [done|]. intros (_ & _ & _ & _ & Hl). apply lease_taken_true in Et as (j & lj & ? & ? & ? & ? & _). by eapply Hl.
Qed.

(** an address the server may hand out to a console, and which no live lease
    of another console has *)
Definition offerable (w : world) (mac ip : list Z) : Prop :=
  assignable (lp_adapters (lp w)) (pc_ip (lp_packet_ctx (lp w))) ip /\
  forall j lj, leases (dhcp_state (lp w)) !! j = Some lj -> used lj = true ->
    now_of w < expires lj -> lease_ip lj = ip -> lease_mac lj = mac.

Lemma dhcp_pick_ip_spec mac w :
  dhcp_net_ok w -> leases_ok w ->
  wp (dhcp_pick_ip mac) (fun r w' => io_frame w w' /\ forall ip, r = Some ip -> offerable w mac ip) w.
Proof.
  intros Hn Hok. apply (wp_respects io_frame); [auto with respects|].
  unfold dhcp_pick_ip. apply wp_bind, time_now_wp, wp_bind, wp_gets. cbn [lp set eta_world].
  set (w1 := w <| tick ::= S |>). assert (Hf1 : io_frame w w1) by io_frame_easy.
  set (ls := leases (dhcp_state (lp w))) in *.
  assert (Hnew : wp (dhcp_pick_new mac (now_of w)) (fun r _ => forall ip, r = Some ip -> offerable w mac ip) w1).
  { destruct Hn as [[Bi Li] Bg Bb Hz _]. unfold dhcp_pick_new.
    apply wp_bind, wp_gets, wp_bind, wp_gets, wp_bind, wp_gets. change (lp w1) with (lp w).
    rewrite u32_round_trip by done. apply wp_bind.
    eapply wp_mono with (P := fun b w' => io_frame w w' /\
      (b = true -> lease_taken ls (now_of w) (zerotier_ip (lp_adapters (lp w))) (Some mac) = false)).
    { destruct (lease_taken _ _ _ _) eqn:Et; [by apply wp_ret|]. apply wp_bind.
      eapply wp_mono; [apply arp_has_ip_spec|]. intros has w2 (Hf2 & _ & _).
      destruct has; [by apply wp_ret; split; [etrans|]|]. apply wp_bind, wp_gets, wp_bind, wp_gets, wp_ret.
      split; [by etrans|]. done. }
    intros b w2 [Hf2 Ht]. destruct b.
    - apply wp_ret. intros ip [= <-]. split; [by left|]. intros j lj Hj Hu He Hi.
      pose proof (lease_taken_false _ _ _ _ _ _ (Ht eq_refl) Hj Hu He Hi). congruence.
    - pose proof (ipv4_to_u32_bound _ Bb) as Hbb. rewrite u32_small by lia.
      set (net := Z.land _ (ipv4_to_u32 (zerotier_netmask _))).
      assert (Hnn : 0 <= net) by (apply Z.land_nonneg; left; apply ipv4_to_u32_bound, Bi).
      eapply wp_mono; [apply pick_pool_spec; lia|].
      intros r w3 [_ Hr] ip ->. destruct (Hr ip eq_refl) as (v & -> & Hv & Hg & Htk). split.
      + right. fold net. rewrite ipv4_round_trip by lia.
        split_and!; [apply u32_to_ipv4_bytes|apply u32_to_ipv4_bytes|lia|lia|done].
      + intros j lj Hj Hu He Hi. rewrite (io_dhcp _ _ Hf2) in Htk.
        pose proof (lease_taken_false _ _ _ _ _ _ Htk Hj Hu He Hi). done. }
  destruct (dhcp_find_mac ls mac) as [i|] eqn:Ei; cbn; [|exact Hnew].
  apply dhcp_find_mac_Some in Ei as (own & Hi & Ui & Hm). rewrite Hi.
  destruct (Z.ltb_spec (now_of w) (expires own)); [|exact Hnew].
  apply wp_ret. intros ip [= <-]. split; [by eapply (lk_each _ _ _ _ Hok)|].
  intros j lj Hj Hu He Hip. assert (j = i) as -> by (eapply (lk_ips _ _ _ _ Hok); eauto).
  fold ls in Hj. congruence.
Qed.

(** the server gives up only when no address is left *)
Lemma dhcp_pick_ip_none mac w :
  dhcp_net_ok w -> leases_ok w -> wp (dhcp_pick_ip mac) (fun r w' => r = None -> no_address w mac) w.
Proof.
  intros Hn Hok. unfold dhcp_pick_ip. apply wp_bind, time_now_wp, wp_bind, wp_gets. cbn [lp set eta_world].
  set (w1 := w <| tick ::= S |>). assert (Hf1 : io_frame w w1) by io_frame_easy.
  set (ls := leases (dhcp_state (lp w))) in *. destruct Hn as [[Bi Li] Bg Bb Hz Hm].
  assert (Hnew : wp (dhcp_pick_new mac (now_of w)) (fun r _ => r = None -> ~ relay_free w mac /\
    forall v, overlay_net w < v < overlay_bcast w -> overlay_bcast w - v <= 24 -> ~ pool_free w v) w1).
  { unfold dhcp_pick_new.
    apply wp_bind, wp_gets, wp_bind, wp_gets, wp_bind, wp_gets. change (lp w1) with (lp w).
    rewrite u32_round_trip by done. apply wp_bind.
    eapply wp_mono with (P := fun b w' => io_frame w w' /\ (b = false -> ~ relay_free w mac)).
    { destruct (lease_taken _ _ _ _) eqn:Et.
      { apply wp_ret. split; [done|]. intros _ (_ & _ & Hl). apply lease_taken_true in Et as (j & lj & Hj & Hu & He & Hi & Hx).
        apply Hx. by rewrite (Hl j lj). }
      apply wp_bind. eapply wp_mono; [apply arp_has_ip_spec|]. intros has w2 (Hf2 & _ & Eh).
      assert (Hw2 : io_frame w w2) by (by etrans). destruct has.
      - apply wp_ret. split; [done|]. intros _ (_ & Hk & _). pose proof (known_mac_later _ _ _ Hf1 Hm Hk) as Hx.
        symmetry in Eh. apply bool_decide_eq_true in Eh as [? ?]. congruence.
      - apply wp_bind, wp_gets, wp_bind, wp_gets, wp_ret. split; [done|]. intros [E1 E2]%orb_false_iff (Hs & _).
        rewrite (io_switch _ _ Hw2) in E1, E2. apply negb_false_iff in E1. apply CMP_IPV4_false in E2. by rewrite Hs in E2. }
    intros b w2 [Hf2 Ht]. destruct b; [by apply wp_ret|].
    pose proof (ipv4_to_u32_bound _ Bb) as Hbb. rewrite u32_small by lia.
    eapply wp_mono; [apply (pick_pool_none 25 1 w w2); try done; try lia|].
    { apply Z.land_nonneg; left; apply ipv4_to_u32_bound, Bi. }
    intros r w3 Hr Er. split; [by apply Ht|]. intros v [Hv1 Hv2] Hv3. unfold overlay_net, overlay_bcast in *. apply Hr; done || lia. }
  assert (Hown : (forall j lj, ls !! j = Some lj -> used lj = true -> lease_mac lj = mac -> expires lj <= now_of w) ->
    wp (dhcp_pick_new mac (now_of w)) (fun r _ => r = None -> no_address w mac) w1).
  { intros Ho. eapply wp_mono; [exact Hnew|]. intros r w2 Hr Er. split; [exact Ho|by apply Hr]. }
  destruct (dhcp_find_mac ls mac) as [i|] eqn:Ei; cbn.
  2:{ apply Hown. intros j lj Hj Hu Hx. by destruct (dhcp_find_mac_None _ _ _ _ Ei Hj Hu). }
  pose proof Ei as (own & Hi & Ui & Hmac)%dhcp_find_mac_Some. rewrite Hi.
  destruct (Z.ltb_spec (now_of w) (expires own)); [by apply wp_ret|]. apply Hown.
  intros j lj Hj Hu Hx. assert (i = j) as -> by (eapply (lk_macs _ _ _ _ Hok); eauto; congruence). fold ls in Hj.
  rewrite Hi in Hj. by injection Hj as <-.
Qed.

(** *** Writing a lease *)

Lemma dhcp_claim_spec mac ip o w :
  dhcp_net_ok w -> leases_ok w -> is_nintendo_mac mac = true -> offerable w mac ip ->
  wp (dhcp_claim mac ip o) (fun r w' => dhcp_frame w w' /\ leases_ok w' /\
    (r = None -> no_slot w mac) /\
    forall i, r = Some i -> exists e, leases (dhcp_state (lp w')) !! i = Some (mkLease mac ip e o true)) w.
Proof.
  intros Hn Hok Hm [Ha Hfree]. apply (wp_respects dhcp_frame); [auto with respects|].
  unfold dhcp_claim. apply wp_bind, time_now_wp, wp_bind, wp_gets. cbn [lp set eta_world].
  set (ls := leases (dhcp_state (lp w))) in *. fold (slot_for ls mac).
  assert (Hle : now_of w <= env_time (environment w) (S (tick w))) by (apply (dn_mono _ Hn); lia).
  destruct (slot_for ls mac) as [i|] eqn:Ei.
  - apply wp_bind, wp_modify, wp_ret. unfold leases_ok, now_of. cbn. split_and!; [|done|].
    + eapply lease_ok_later; [exact Hle|]. by apply lease_ok_insert.
    + intros ? [= <-]. eexists. apply list_lookup_insert_eq. by eapply slot_for_lt.
  - apply wp_ret. split_and!; [|intros _|done].
    + unfold leases_ok, now_of. cbn. by eapply lease_ok_later.
    + unfold slot_for in Ei. destruct (dhcp_find_mac ls mac) eqn:Em; [done|]. intros j lj Hj.
      pose proof (find_free_None _ _ _ Ei Hj). split; [done|]. by eapply dhcp_find_mac_None.
Qed.

(** a live lease of the console itself may be claimed again *)
Lemma offerable_own w mac i l :
  leases_ok w -> leases (dhcp_state (lp w)) !! i = Some l -> used l = true -> now_of w < expires l ->
  lease_mac l = mac -> offerable w mac (lease_ip l).
Proof.
  intros Hok Hi Hu He Hm. split; [by eapply (lk_each _ _ _ _ Hok)|].
  intros j lj Hj Uj Ej Hip. assert (j = i) as -> by (eapply (lk_ips _ _ _ _ Hok); eauto). congruence.
Qed.
Lemma offerable_later w w' mac ip :
  dhcp_frame w w' -> same_leases w w' -> dhcp_net_ok w -> offerable w mac ip -> offerable w' mac ip.
Proof.
  intros Hf Hs Hn [Ha Hfree]. pose proof (now_frame _ _ Hf Hn). destruct Hf. split.
  - by rewrite df_adapters0, df_ctx0.
  - intros j lj. rewrite Hs. intros Hj Hu He. apply (Hfree j lj); try done. lia.
Qed.

(** a reply keeps the leases, whether or not it can be built *)
Lemma reply_wlp m r t y w :
  dhcp_net_ok w -> leases_ok w -> wlp (dhcp_send_reply m r t y) (fun _ w' => dhcp_frame w w' /\ leases_ok w') w.
Proof.
  intros Hn Hok. apply wlp_run. intros a w' E. pose proof (dhcp_send_reply_frame _ _ _ _ _ _ _ E).
  split; [done|]. eapply leases_ok_frame; try done. by eapply dhcp_send_reply_leases.
Qed.
Lemma wp_to_wlp {A} (m : M A) Q w : wp m Q w -> wlp m Q w.
Proof. unfold wp, wlp. by destruct (m w) as [[a w']|]. Qed.

(** counters and events *)
Lemma leases_ok_ext w w' :
  lp_adapters (lp w') = lp_adapters (lp w) -> lp_packet_ctx (lp w') = lp_packet_ctx (lp w) ->
  leases (dhcp_state (lp w')) = leases (dhcp_state (lp w)) -> environment w' = environment w ->
  tick w' = tick w -> leases_ok w -> leases_ok w'.
Proof. unfold leases_ok, now_of. by intros -> -> -> -> ->. Qed.

Lemma dhcp_discover_wlp mac req w :
  dhcp_net_ok w -> leases_ok w -> is_nintendo_mac mac = true ->
  wlp (dhcp_discover mac req) (fun _ w' => leases_ok w') w.
Proof.
  intros Hn Hok Hm. unfold dhcp_discover. apply wlp_bind.
  eapply wlp_mono; [apply wp_to_wlp; by apply dhcp_pick_ip_spec|]. intros r w1 [Hf Hr].
  assert (Hd : dhcp_frame w w1) by (by apply io_dhcp_frame).
  assert (Hs : same_leases w w1) by (unfold same_leases; by rewrite (io_dhcp _ _ Hf)).
  pose proof (leases_ok_frame _ _ Hd Hs Hn Hok) as Hok1. pose proof (dhcp_net_frame _ _ Hd Hn) as Hn1.
  destruct r as [ip|]; [|by apply wlp_ret]. specialize (Hr ip eq_refl).
  apply wlp_bind. eapply wlp_mono; [apply wp_to_wlp, dhcp_claim_spec; try done; by eapply offerable_later|].
  intros s w2 (Hd2 & Hok2 & _). destruct s as [i|]; [|by apply wlp_ret]. apply wlp_bind.
  eapply wlp_mono; [apply reply_wlp; [by eapply dhcp_net_frame|done]|]. intros rc w3 [_ Hok3].
  destruct (rc =? 0); [|by apply wlp_ret]. apply wlp_bind, wlp_modify, wlp_modify. by eapply leases_ok_ext.
Qed.

Lemma dhcp_handle_request_wlp mac req w :
  dhcp_net_ok w -> leases_ok w -> is_nintendo_mac mac = true ->
  wlp (dhcp_handle_request mac req) (fun _ w' => leases_ok w') w.
Proof.
  intros Hn Hok Hm. unfold dhcp_handle_request. apply wlp_bind, wlp_gets.
  set (ls := leases (dhcp_state (lp w))). apply wlp_bind, wp_to_wlp, time_now_wp.
  set (w1 := w <| tick ::= S |>). assert (Hd : dhcp_frame w w1) by dhcp_frame_easy.
  assert (Hs : same_leases w w1) by done.
  pose proof (leases_ok_frame _ _ Hd Hs Hn Hok) as Hok1. pose proof (dhcp_net_frame _ _ Hd Hn) as Hn1.
  set (want := if has_requested_ip req then _ else _). set (has_want := _ || _).
  apply wlp_bind, wlp_gets.
  set (other := if has_want && _ then _ else _).
  assert (Hother : wlp other (fun _ w' => leases_ok w') w1).
  { subst other. destruct (has_want && _).
    - apply wlp_bind. eapply wlp_mono; [by apply reply_wlp|]. intros rc w2 [_ Hok2].
      destruct (rc =? 0); [|by apply wlp_ret]. apply wlp_modify. by eapply leases_ok_ext.
    - destruct has_want; [|by apply wlp_ret]. apply wlp_bind, wlp_modify, wlp_modify. by eapply leases_ok_ext. }
  clearbody other. destruct (dhcp_find_mac ls mac) as [i|] eqn:Ei; cbn [mbind option_bind]; [|exact Hother].
  apply dhcp_find_mac_Some in Ei as (l & Hi & Hu & Hml). rewrite Hi.
  destruct (_ && _) eqn:Ew; [|exact Hother]. bool_lia.
  apply wlp_bind. eapply wlp_mono; [apply wp_to_wlp, dhcp_claim_spec; try done|].
  { eapply offerable_later; try done. by eapply offerable_own. }
  intros s w2 (Hd2 & Hok2 & _). apply wlp_bind.
  eapply wlp_mono; [apply reply_wlp; [by eapply dhcp_net_frame|done]|]. intros rc w3 [_ Hok3].
  destruct (rc =? 0); [|by apply wlp_ret]. apply wlp_bind, wlp_modify, wlp_modify. by eapply leases_ok_ext.
Qed.

Lemma dhcp_release_wlp mac w : leases_ok w -> wlp (dhcp_release mac) (fun _ w' => leases_ok w') w.
Proof.
  intros Hok. unfold dhcp_release. apply wlp_bind, wlp_gets. destruct (dhcp_find_mac _ _); [|by apply wlp_ret].
  apply wlp_modify. unfold leases_ok in *. cbn. by apply lease_ok_release.
Qed.

Lemma dhcp_server_consume_leases frame len w :
  dhcp_net_ok w -> leases_ok w ->
  wlp (dhcp_server_consume frame len) (fun _ w' => leases_ok w') w.
Proof.
  intros Hn Hok. unfold dhcp_server_consume. apply wlp_bind, wlp_gets, wlp_bind, wlp_gets.
  destruct (_ || _); [by apply wlp_ret|]. apply wlp_bind, wlp_lift. intros [req|] _; [|by apply wlp_ret].
  apply wlp_bind, wp_to_wlp, time_now_wp, wlp_bind, wlp_modify.
  set (w1 := _ <| lp ::= _ |>). assert (Hd : dhcp_frame w w1) by dhcp_frame_easy.
  pose proof (dhcp_net_frame _ _ Hd Hn) as Hn1. pose proof (now_frame _ _ Hd Hn) as Hle.
  assert (Hok1 : leases_ok w1).
  { unfold leases_ok. cbn. apply lease_ok_sweep. by eapply lease_ok_later. }
  apply wlp_bind, wlp_lift. intros mac _. destruct (is_nintendo_mac mac) eqn:Em; cbn [negb].
  2:{ apply wlp_bind, wlp_modify, wlp_ret. by eapply leases_ok_ext. }
  apply wlp_bind. eapply wlp_mono with (P := fun _ w' => leases_ok w'); [|by intros; apply wlp_ret].
  destruct (_ =? _); [by apply dhcp_discover_wlp|]. destruct (_ =? _); [by apply dhcp_handle_request_wlp|].
  destruct (_ =? _); [by apply dhcp_release_wlp|by apply wlp_ret].
Qed.

(** ** The replies *)

Definition dhcp_reply_options (type : Z) (gw mask bcast : list Z) : list Z :=
  [DHCP_OPT_MSG_TYPE; 1; u8 type] ++
  (if type =? DHCP_MSG_NAK then [] else
     [DHCP_OPT_SERVER_ID; 4] ++ gw ++ [DHCP_OPT_LEASE_TIME; 4] ++ [0; 0; 14; 16] ++
     [DHCP_OPT_MASK; 4] ++ mask ++ [DHCP_OPT_ROUTER; 4] ++ gw ++ [DHCP_OPT_DNS; 4] ++ gw ++
     [DHCP_OPT_BROADCAST; 4] ++ bcast) ++ [DHCP_OPT_END].

(** the fixed part: reply, Ethernet, the client's transaction, the address
    given, the relay as server, the client's MAC, the magic cookie *)
Definition dhcp_reply_fixed (mac : list Z) (req : dhcp_request) (yiaddr gw : list Z) : list Z :=
  [DHCP_OP_BOOTREPLY; DHCP_HTYPE_ETHER; 6; 0] ++
  net16 (u16 (Z.shiftr (xid req) 16)) ++ net16 (u16 (Z.land (xid req) 65535)) ++
  [0; 0] ++ net16 (flags req) ++ [0; 0; 0; 0] ++ yiaddr ++ gw ++ [0; 0; 0; 0] ++ mac ++
  replicate 202 0 ++ [99; 130; 83; 99].

Definition dhcp_reply (mac : list Z) (req : dhcp_request) (type : Z) (yiaddr gw mask bcast : list Z) : list Z :=
  let d := dhcp_reply_fixed mac req yiaddr gw ++ dhcp_reply_options type gw mask bcast in
  d ++ replicate (300 - length d) 0.

Lemma dhcp_payload_ok mac req type yiaddr gw mask bcast :
  blen mac = 6 -> blen yiaddr = 4 -> blen gw = 4 -> blen mask = 4 -> blen bcast = 4 ->
  dhcp_payload (replicate 300 0) mac req type yiaddr gw mask bcast =
    Ok (dhcp_reply mac req type yiaddr gw mask bcast).
Proof.
  intros H1 H2 H3 H4 H5. explode H1. explode H2. explode H3. explode H4. explode H5.
  unfold dhcp_payload, dhcp_reply, dhcp_reply_options. destruct (type =? DHCP_MSG_NAK); reflexivity.
Qed.

Lemma wrn_prefix p tl i d :
  0 <= i -> i + blen d <= blen p -> wrn (p ++ tl) i d = Ok (splice p i d ++ tl).
Proof.
  intros Hi Hl. pose proof (blen_nonneg tl). pose proof (blen_nonneg d).
  rewrite wrn_ok by (blen_simp; lia). f_equal.
  unfold splice, blen in *. rewrite take_app_le by lia. rewrite <- !app_assoc. do 2 f_equal.
  by rewrite drop_app_le by lia.
Qed.

Definition dhcp_packet (gw : list Z) (id sum c : Z) (dhcp : list Z) : list Z :=
  ([69; 0] ++ net16 328 ++ net16 id ++ [0; 0] ++ [64; 17] ++ net16 sum ++ gw ++ [255; 255; 255; 255] ++
   net16 67 ++ net16 68 ++ net16 308 ++ net16 c) ++ dhcp.

(** the headers before the checksums are written *)
Definition dhcp_blank (gw : list Z) (id : Z) : list Z :=
  [69; 0] ++ net16 328 ++ net16 id ++ [0; 0] ++ [64; 17] ++ [0; 0] ++ gw ++ [255; 255; 255; 255] ++
  [0; 0; 0; 0; 0; 0; 0; 0].

Definition dhcp_sum (gw : list Z) (id : Z) (dhcp : list Z) : Z :=
  csum (field (dhcp_packet gw id 0 0 dhcp) 0 20).

Section Packet.
Context (gw dhcp : list Z) (id : Z).
Context (Lg : blen gw = 4) (Bg : bytes gw) (Ld : blen dhcp = 300) (Bd : bytes dhcp).

Lemma blen_dhcp_packet sum c : blen (dhcp_packet gw id sum c dhcp) = 328.
Proof. unfold dhcp_packet. blen_simp. lia. Qed.
Lemma bytes_dhcp_packet sum c : bytes (dhcp_packet gw id sum c dhcp).
Proof.
  unfold dhcp_packet. rewrite !Forall_app. split_and!; auto with relay;
    repeat constructor; unfold is_byte; lia.
Qed.
Lemma dhcp_packet_sum sum sum' c :
  splice (dhcp_packet gw id sum c dhcp) 10 (net16 sum') = dhcp_packet gw id sum' c dhcp.
Proof. clear -Lg. explode Lg. reflexivity. Qed.
Lemma dhcp_packet_udp sum c c' :
  splice (dhcp_packet gw id sum c dhcp) 26 (net16 c') = dhcp_packet gw id sum c' dhcp.
Proof. clear -Lg. explode Lg. reflexivity. Qed.

Lemma dhcp_header_valid c : ipv4_header_checksum (dhcp_packet gw id (dhcp_sum gw id dhcp) c dhcp) 20 = Ok 0.
Proof.
  pose proof blen_dhcp_packet as Hl. pose proof bytes_dhcp_packet as Hb.
  rewrite ipv4_header_checksum_ok by (rewrite ?Hl; try apply Hb; lia). f_equal.
  pose proof (header_checksum_valid (dhcp_packet gw id 0 c dhcp) 20 (Hb _ _)) as Hv.
  rewrite !dhcp_packet_sum in Hv.
  replace (field (dhcp_packet gw id 0 c dhcp) 0 20) with (field (dhcp_packet gw id 0 0 dhcp) 0 20) in Hv.
  - apply Hv; rewrite ?Hl; lia.
  - rewrite <- (dhcp_packet_udp 0 0 c). rewrite field_splice_other; rewrite ?Hl, ?blen_net16; lia || done.
Qed.

Lemma dhcp_blank_sum : csum (field (dhcp_blank gw id ++ dhcp) 0 20) = dhcp_sum gw id dhcp.
Proof.
  unfold dhcp_sum. f_equal. unfold dhcp_blank, dhcp_packet. clear -Lg. explode Lg. reflexivity.
Qed.

Lemma dhcp_headers_steps :
  dhcp_headers (replicate 28 0 ++ dhcp) gw id 328 308 =
    (try sum := ipv4_header_checksum (dhcp_blank gw id ++ dhcp) 20 in
     try sum' := udp_checksum (dhcp_packet gw id sum 0 dhcp) 20 328 in
     Ok (dhcp_packet gw id sum sum' dhcp)).
Proof.
  unfold dhcp_headers, IPV4_OFF_VER_LEN, IPV4_OFF_TOTAL_LEN, IPV4_OFF_ID, IPV4_OFF_TTL, IPV4_OFF_PROTOCOL,
    IPV4_PROTOCOL_UDP, IPV4_OFF_SRC, IPV4_OFF_DST, IPV4_OFF_CHECKSUM, IPV4_HEADER_LEN, UDP_OFF_SRCPORT,
    UDP_OFF_DSTPORT, UDP_OFF_LENGTH, UDP_OFF_CHECKSUM, WRITE_NET8, WRITE_NET16.
  clear Bg Bd Ld. explode Lg.
  do 8 (rewrite wrn_prefix by (by vm_compute); cbn [obind]).
  match goal with |- obind (ipv4_header_checksum (?d ++ dhcp) _) _ = _ => set (b := d) end.
  change b with (dhcp_blank [x; x0; x1; x2] id). destruct (ipv4_header_checksum _ _) as [sum|]; [|done]. cbn [obind].
  do 5 (rewrite wrn_prefix by (by vm_compute); cbn [obind]).
  match goal with |- obind (udp_checksum ?d _ _) _ = _ => change d with (dhcp_packet [x; x0; x1; x2] id sum 0 dhcp) end.
  destruct (udp_checksum _ _ _) as [c|]; [|done]. cbn [obind].
  unfold dhcp_packet at 1. rewrite wrn_prefix by (by vm_compute). reflexivity.
Qed.

(** both checksums of a reply verify *)
Lemma dhcp_headers_ok :
  exists c, dhcp_headers (replicate 28 0 ++ dhcp) gw id 328 308 = Ok (dhcp_packet gw id (dhcp_sum gw id dhcp) c dhcp) /\
    ipv4_header_checksum (dhcp_packet gw id (dhcp_sum gw id dhcp) c dhcp) 20 = Ok 0 /\
    udp_checksum (dhcp_packet gw id (dhcp_sum gw id dhcp) c dhcp) 20 328 = Ok 65535.
Proof.
  pose proof blen_dhcp_packet as Hl. pose proof bytes_dhcp_packet as Hb.
  assert (Bz : bytes (dhcp_blank gw id ++ dhcp)).
  { unfold dhcp_blank. rewrite !Forall_app. split_and!; auto with relay; repeat constructor; unfold is_byte; lia. }
  assert (Lz : blen (dhcp_blank gw id) = 28) by (unfold dhcp_blank; blen_simp; lia).
  rewrite dhcp_headers_steps. rewrite ipv4_header_checksum_ok by (blen_simp; done || lia). cbn [obind].
  rewrite dhcp_blank_sum. set (p := dhcp_packet gw id (dhcp_sum gw id dhcp) 0 dhcp).
  destruct (udp_checksum p 20 328) as [c|] eqn:Ec; cycle 1.
  { unfold p in Ec. rewrite udp_checksum_ok in Ec by (rewrite ?Hl; try apply Hb; lia). done. }
  exists c. split_and!; [done|apply dhcp_header_valid|].
  destruct (udp_checksum_valid p 20 328 c) as [_ Hv]; try (unfold p; rewrite ?Hl; try apply Hb; lia).
  - unfold p. change (20 + 6) with 26. by rewrite dhcp_packet_udp.
  - unfold p in Hv. change (20 + 6) with 26 in Hv. by rewrite dhcp_packet_udp in Hv.
Qed.
End Packet.

Ltac byte_list :=
  lazymatch goal with
  | |- bytes [] => apply Forall_nil
  | |- bytes (_ :: _) => apply Forall_cons;
      [first [apply Z.mod_pos_bound; reflexivity | vm_compute; split; congruence] | byte_list]
  end.

Lemma dhcp_reply_ok mac req type yi gw mask bcast :
  blen mac = 6 -> blen yi = 4 -> blen gw = 4 -> blen mask = 4 -> blen bcast = 4 ->
  bytes mac -> bytes yi -> bytes gw -> bytes mask -> bytes bcast ->
  blen (dhcp_reply mac req type yi gw mask bcast) = 300 /\ bytes (dhcp_reply mac req type yi gw mask bcast).
Proof.
  intros H1 H2 H3 H4 H5 B1 B2 B3 B4 B5. split.
  - explode H1. explode H2. explode H3. explode H4. explode H5.
    unfold dhcp_reply, dhcp_reply_options. by destruct (type =? DHCP_MSG_NAK).
  - unfold dhcp_reply, dhcp_reply_fixed, dhcp_reply_options. rewrite !Forall_app.
    assert (Hz : forall n, bytes (replicate n 0)) by (intros; apply Forall_replicate; unfold is_byte; lia).
    split_and!; auto with relay; try solve [byte_list].
    destruct (type =? DHCP_MSG_NAK); [constructor|]. rewrite !Forall_app.
    split_and!; auto; byte_list.
Qed.

Section ServerSpecs.
Context (wm zm pm : list Z).

(** the frame of a reply: a broadcast from the relay's gateway address whose
    checksums verify and which carries the DHCP message *)
Definition dhcp_sent (w : world) (mac : list Z) (req : dhcp_request) (type : Z) (yi f : list Z) : Prop :=
  let a := lp_adapters (lp w) in
  let gw := pc_ip (lp_packet_ctx (lp w)) in
  let d := dhcp_reply mac req type yi gw (zerotier_netmask a) (zerotier_broadcast_ip a) in
  exists id sum c, f = ether BROADCASE_MAC wm ETHER_TYPE_IPV4 (dhcp_packet gw id sum c d) /\
    ipv4_header_checksum (dhcp_packet gw id sum c d) 20 = Ok 0 /\
    udp_checksum (dhcp_packet gw id sum c d) 20 328 = Ok 65535.

Lemma dhcp_send_reply_spec w mac req type yi :
  ready w wm zm pm -> blen mac = 6 -> bytes mac -> blen yi = 4 -> bytes yi ->
  wp (dhcp_send_reply mac req type yi) (fun _ w' => dhcp_frame w w' /\
    exists f, dhcp_sent w mac req type yi f /\ trace w' = (Wifi, 0%nat, f) :: trace w) w.
Proof.
  intros Hr Lm Bm Ly By. apply (wp_respects dhcp_frame); [auto with respects|].
  pose proof (rd_adapters _ _ _ _ Hr) as [_ _ _ _ Lmask Lb (_ & Bb & _ & Bmask) _].
  pose proof (rd_ip _ _ _ _ Hr) as Lg. pose proof (rd_ip_bytes _ _ _ _ Hr) as Bg.
  unfold dhcp_send_reply, IPV4_HEADER_LEN, UDP_OFF_END, DHCP_MIN_LEN, ETHER_MTU. cbn [Z.add Z.ltb Pos.add Z.compare Pos.compare].
  change (1500 <? 20 + (8 + 300)) with false. cbv iota.
  do 3 (apply wp_bind, wp_gets). apply wp_bind. eapply wp_lift; [apply dhcp_payload_ok; assumption|].
  destruct (dhcp_reply_ok mac req type yi (pc_ip (lp_packet_ctx (lp w))) (zerotier_netmask (lp_adapters (lp w)))
    (zerotier_broadcast_ip (lp_adapters (lp w)))) as [Ld Bd]; [assumption..|].
  set (d := dhcp_reply _ _ _ _ _ _ _) in *. apply wp_bind, wp_modify, wp_bind, wp_gets.
  set (w1 := set dhcp_ip_id _ w). apply wp_bind.
  destruct (dhcp_headers_ok (pc_ip (lp_packet_ctx (lp w))) d (dhcp_ip_id w1)) as (c & Hh & Hv1 & Hv2); [assumption..|].
  eapply wp_lift; [exact Hh|]. set (p := dhcp_packet _ _ _ _ _) in *.
  assert (Hp : blen p = 328) by (by apply blen_dhcp_packet).
  change (u16 (20 + (8 + 300))) with 328. unfold lan_play_dhcp_send.
  assert (Hr1 : ready w1 wm zm pm) by (by eapply ready_same; [..|exact Hr]).
  eapply wp_mono; [apply (send_wifi_ipv4_spec wm zm pm w1); try done; unfold ETHER_MTU; lia|].
  intros rc w' (_ & _ & Ht). eexists. split; [|rewrite Ht; reflexivity].
  exists (dhcp_ip_id w1), (dhcp_sum (pc_ip (lp_packet_ctx (lp w))) (dhcp_ip_id w1) d), c.
  split_and!; [|done|done]. rewrite field_all by lia. done.
Qed.

Lemma dhcp_sent_frame w w' mac req type yi f :
  dhcp_frame w w' -> dhcp_sent w' mac req type yi f -> dhcp_sent w mac req type yi f.
Proof. intros []. unfold dhcp_sent. by rewrite df_ctx0, df_adapters0. Qed.

(** the reply from a later state of the same run *)
Lemma reply_later w w1 mac req type yi :
  dhcp_frame w w1 -> no_send w w1 -> ready w wm zm pm ->
  blen mac = 6 -> bytes mac -> blen yi = 4 -> bytes yi ->
  wp (dhcp_send_reply mac req type yi) (fun _ w' =>
    exists f, dhcp_sent w mac req type yi f /\ trace w' = (Wifi, 0%nat, f) :: trace w) w1.
Proof.
  intros Hf Hq Hr ? ? ? ?. eapply wp_mono; [apply dhcp_send_reply_spec; [by eapply ready_dhcp|done..]|].
  intros rc w' (_ & f & Hs & Ht). exists f. rewrite Ht, Hq. split; [by eapply dhcp_sent_frame|done].
Qed.

Lemma assignable_bytes w ip :
  ready w wm zm pm -> assignable (lp_adapters (lp w)) (pc_ip (lp_packet_ctx (lp w))) ip -> blen ip = 4 /\ bytes ip.
Proof.
  intros Hr [->|(? & ? & _)]; [|done]. destruct (rd_adapters _ _ _ _ Hr) as [_ _ _ ? _ _ [? _] _]. done.
Qed.

(** a DISCOVER is answered by one OFFER of an address the console may have,
    which the lease table then holds for it; by nothing only when there is no
    address or no slot *)
Definition discover_outcome (w : world) (mac : list Z) (req : dhcp_request) (w' : world) : Prop :=
  (no_address w mac \/ no_slot w mac) /\ trace w' = trace w \/
  exists ip f i e, offerable w mac ip /\ dhcp_sent w mac req DHCP_MSG_OFFER ip f /\
    trace w' = (Wifi, 0%nat, f) :: trace w /\
    leases (dhcp_state (lp w')) !! i = Some (mkLease mac ip e true true).

Lemma dhcp_discover_spec mac req w :
  ready w wm zm pm -> dhcp_net_ok w -> leases_ok w -> is_nintendo_mac mac = true ->
  blen mac = 6 -> bytes mac -> wp (dhcp_discover mac req) (fun _ w' => discover_outcome w mac req w') w.
Proof.
  intros Hr Hn Hok Hm Lm Bm. unfold dhcp_discover. apply wp_bind.
  eapply wp_mono; [apply (wp_respects no_send); [auto with respects|];
    apply wp_both; [by apply dhcp_pick_ip_spec|by apply dhcp_pick_ip_none]|].
  intros r w1 (Hq & [Hf Hip] & Hnone).
  destruct r as [ip|]; [|apply wp_ret; left; split; [left; by apply Hnone|done]]. specialize (Hip ip eq_refl).
  assert (Hd : dhcp_frame w w1) by (by apply io_dhcp_frame).
  assert (Hs : same_leases w w1) by (unfold same_leases; by rewrite (io_dhcp _ _ Hf)).
  pose proof (leases_ok_frame _ _ Hd Hs Hn Hok) as Hok1. pose proof (dhcp_net_frame _ _ Hd Hn) as Hn1.
  destruct (assignable_bytes w ip Hr (proj1 Hip)) as [Li Bi].
  apply wp_bind. eapply wp_mono; [apply (wp_respects no_send); [auto with respects|]|].
  { apply dhcp_claim_spec; try done. by eapply offerable_later. }
  intros s w2 (Hq2 & Hd2 & _ & Hns & Hl). destruct s as [i|].
  2:{ apply wp_ret. left. split; [right|by rewrite Hq2, Hq]. unfold no_slot. rewrite <- Hs. by apply Hns. }
  destruct (Hl i eq_refl) as [e He]. apply wp_bind.
  eapply wp_mono; [apply (wp_respects same_leases); [auto with respects|]|].
  { apply (reply_later w); try done; [by etrans|by unfold no_send; rewrite Hq2, Hq]. }
  intros rc w3 (Hs3 & f & Hf3 & Ht3). unfold same_leases in Hs3. rewrite <- Hs3 in He.
  destruct (rc =? 0); [apply wp_bind, wp_modify, wp_modify|apply wp_ret]; right; by exists ip, f, i, e.
Qed.

(** the answer to a REQUEST: an ACK of the console's own live lease when that
    is what it asks for, a NAK when it asks for another address of our subnet *)
Definition request_want (req : dhcp_request) : option (list Z) :=
  if has_requested_ip req then Some (requested_ip req)
  else if CMP_IPV4 (ciaddr req) NONE_IP then None else Some (ciaddr req).
Definition request_answer (w : world) (mac : list Z) (req : dhcp_request) : option (Z * list Z) :=
  let ls := leases (dhcp_state (lp w)) in
  want ← request_want req;
  match dhcp_find_mac ls mac ≫= fun i => ls !! i with
  | Some l =>
      if (now_of w <? expires l) && CMP_IPV4 want (lease_ip l) then Some (DHCP_MSG_ACK, lease_ip l)
      else if dhcp_in_our_subnet (lp_adapters (lp w)) want then Some (DHCP_MSG_NAK, NONE_IP) else None
  | None => if dhcp_in_our_subnet (lp_adapters (lp w)) want then Some (DHCP_MSG_NAK, NONE_IP) else None
  end.
Definition answered (w : world) (mac : list Z) (req : dhcp_request) (ans : option (Z * list Z)) (w' : world) : Prop :=
  match ans with
  | Some (type, yi) => exists f, dhcp_sent w mac req type yi f /\ trace w' = (Wifi, 0%nat, f) :: trace w
  | None => trace w' = trace w
  end.

Lemma dhcp_handle_request_spec mac req w :
  ready w wm zm pm -> dhcp_net_ok w -> leases_ok w -> is_nintendo_mac mac = true -> blen mac = 6 -> bytes mac ->
  wp (dhcp_handle_request mac req) (fun _ w' => answered w mac req (request_answer w mac req) w') w.
Proof.
  intros Hr Hn Hok Hm Lm Bm. unfold dhcp_handle_request. apply wp_bind, wp_gets.
  set (ls := leases (dhcp_state (lp w))). apply wp_bind, time_now_wp.
  set (w1 := w <| tick ::= S |>). assert (Hd : dhcp_frame w w1) by dhcp_frame_easy.
  assert (Hs : same_leases w w1) by done.
  set (want := if has_requested_ip req then _ else _). set (has_want := _ || _).
  assert (Ew : request_want req = if has_want then Some want else None).
  { subst want has_want. unfold request_want. destruct (has_requested_ip req); [done|]. cbn. by destruct (CMP_IPV4 _ _). }
  unfold request_answer. rewrite Ew. fold ls. clearbody want has_want. apply wp_bind, wp_gets.
  change (lp_adapters (lp w1)) with (lp_adapters (lp w)).
  set (other := if has_want && _ then _ else _).
  assert (Hother : wp other (fun _ w' => answered w mac req (if has_want then
    (if dhcp_in_our_subnet (lp_adapters (lp w)) want then Some (DHCP_MSG_NAK, NONE_IP) else None) else None) w') w1).
  { subst other. destruct has_want; [|by apply wp_ret]. cbn [andb].
    destruct (dhcp_in_our_subnet _ _); [|by apply wp_bind, wp_modify, wp_modify].
    apply wp_bind. eapply wp_mono; [apply (reply_later w w1); try done; by repeat constructor|].
    intros rc w2 Hsent. by destruct (rc =? 0); [apply wp_modify|apply wp_ret]. }
  clearbody other. destruct (dhcp_find_mac ls mac) as [i|] eqn:Ei; cbn [mbind option_bind];
    [|by destruct has_want].
  apply dhcp_find_mac_Some in Ei as (l & Hi & Hu & Hml). rewrite Hi.
  destruct (_ && CMP_IPV4 want (lease_ip l)) eqn:E.
  2:{ destruct has_want; [|exact Hother]. rewrite andb_true_r in E. cbn. rewrite E. exact Hother. }
  bool_lia. rewrite H1. cbn. rewrite (proj2 (Z.ltb_lt _ _) H), H0. cbn.
  destruct (assignable_bytes w (lease_ip l) Hr) as [Li Bi]; [by eapply (lk_each _ _ _ _ Hok)|].
  apply wp_bind. eapply wp_mono; [apply (wp_respects no_send); [auto with respects|]|].
  { apply dhcp_claim_spec; [by eapply dhcp_net_frame|by eapply leases_ok_frame|done|].
    eapply offerable_later; try done. by eapply offerable_own. }
  intros s w2 (Hq2 & Hd2 & _). apply wp_bind.
  eapply wp_mono; [apply (reply_later w w2); try done; by etrans|].
  intros rc w3 Hsent. destruct (rc =? 0); [by apply wp_bind, wp_modify, wp_modify|by apply wp_ret].
Qed.
End ServerSpecs.

(** ** Requests are parsed within bounds *)

(** the option loop stops, and reads below its limit *)
Lemma dhcp_options_ok fuel dhcp off end_ req :
  bytes dhcp -> 0 <= off -> end_ - off <= Z.of_nat fuel -> end_ <= blen dhcp ->
  exists r, dhcp_options fuel dhcp off end_ req = Ok r.
Proof.
  intros Hb. revert off req. induction fuel as [|fuel IH]; intros off req Ho Hf He; cbn [dhcp_options];
    destruct (negb _) eqn:E; try (by eexists); bool_lia; [lia|].
  rewrite READ_NET8_ok by lia. cbn [obind].
  destruct (_ =? _); [by eexists|]. destruct (_ =? _); [apply IH; lia|].
  destruct (_ <? _) eqn:E2; [by eexists|]. bool_lia. rewrite READ_NET8_ok by lia. cbn [obind].
  pose proof (getb_byte dhcp (off + 1) Hb) as Hl. set (olen := getb dhcp (off + 1)) in *. clearbody olen.
  unfold is_byte in Hl. destruct (_ <? _) eqn:E3; [by eexists|]. bool_lia.
  assert (Hp : blen (ptr dhcp (off + 2)) = blen dhcp - (off + 2)) by (rewrite blen_ptr by lia; lia).
  destruct (_ && _) eqn:C1; [bool_lia; rewrite READ_NET8_ok by lia; cbn [obind]; apply IH; lia|].
  destruct (_ && _) eqn:C2 in |- *; [bool_lia; rewrite rdn_ok by lia; cbn [obind]; apply IH; lia|].
  destruct (_ && _) eqn:C3 in |- *; [bool_lia; rewrite rdn_ok by lia; cbn [obind]; apply IH; lia|].
  cbn [obind]. apply IH; lia.
Qed.

(** the header length is counted twice in the limit of the option loop, so it
    reads up to one IPv4 header beyond the datagram *)
Lemma dhcp_parse_ok frame len :
  bytes frame -> len + 60 <= blen frame -> exists r, dhcp_parse frame len = Ok r.
Proof.
  intros Hb Hl. unfold dhcp_parse, ETHER_HEADER_LEN, IPV4_HEADER_LEN, UDP_OFF_END, ETHER_OFF_TYPE, IPV4_OFF_VER_LEN,
    IPV4_OFF_TOTAL_LEN, IPV4_OFF_PROTOCOL, UDP_OFF_DSTPORT, UDP_OFF_LENGTH in *.
  destruct (_ <? _) eqn:E0; [by eexists|]. bool_lia.
  rewrite READ_NET16_ok by lia. cbn [obind]. destruct (negb _); [by eexists|].
  set (ip := ptr frame 14). assert (Li : blen ip = blen frame - 14) by (subst ip; rewrite blen_ptr by lia; lia).
  rewrite READ_NET8_ok by lia. cbn [obind]. pose proof (ihl_bound ip) as Hh. unfold ihl in Hh.
  set (hlen := Z.land (getb ip 0) 15 * 4) in *. clearbody hlen.
  destruct (_ || _) eqn:E1; [by eexists|]. bool_lia. rewrite READ_NET16_ok by lia. cbn [obind].
  destruct (_ || _) eqn:E2 in |- *; [by eexists|]. bool_lia. rewrite READ_NET8_ok by lia. cbn [obind].
  destruct (negb _); [by eexists|]. set (udp := ptr ip hlen).
  assert (Lu : blen udp = blen frame - 14 - hlen) by (subst udp; rewrite blen_ptr by lia; lia).
  rewrite READ_NET16_ok by lia. cbn [obind]. destruct (negb _); [by eexists|].
  rewrite READ_NET16_ok by lia. cbn [obind]. destruct (_ || _) eqn:E3 in |- *; [by eexists|]. bool_lia.
  set (d := ptr udp 8). assert (Ld : blen d = blen frame - 22 - hlen) by (subst d; rewrite blen_ptr by lia; lia).
  assert (Bd : bytes d) by (subst d udp ip; auto with relay).
  rewrite !READ_NET8_ok by lia. cbn [obind]. destruct (_ || _); [by eexists|].
  rewrite !READ_NET16_ok by lia. cbn [obind]. destruct (_ || _); [by eexists|].
  rewrite !rdn_ok by lia. cbn [obind].
  destruct (dhcp_options_ok (Z.to_nat (hlen + be16 udp 4 - 8)) d 240 (hlen + be16 udp 4 - 8)
    (mkRequest (Z.lor (Z.shiftl (be16 d 4) 16) (be16 d 6)) (be16 d 10) (field d 28 6) 0 NONE_IP false NONE_IP false
       (field d 12 4))) as [r ->]; [done|lia|lia|lia|]. by eexists.
Qed.

(** ** The server as a whole *)

(** the state in which a request is handled: expired leases are gone *)
Definition swept (w : world) : world :=
  w <| tick ::= S |> <| lp ::= set dhcp_state (set leases (fun ls => dhcp_sweep_expired ls (now_of w))) |>.

Section Server.
Context (wm zm pm : list Z).

Lemma swept_frame w : dhcp_frame w (swept w).
Proof. dhcp_frame_easy. Qed.
Lemma swept_ok w : dhcp_net_ok w -> leases_ok w -> leases_ok (swept w).
Proof.
  intros Hn Hok. pose proof (now_frame _ _ (swept_frame w) Hn). unfold leases_ok. cbn.
  apply lease_ok_sweep. by eapply lease_ok_later.
Qed.

(** what the server sends for a request of a console *)
Definition served (w : world) (mac : list Z) (req : dhcp_request) (w' : world) : Prop :=
  if msg_type req =? DHCP_MSG_DISCOVER then discover_outcome wm w mac req w'
  else if msg_type req =? DHCP_MSG_REQUEST then answered wm w mac req (request_answer w mac req) w'
  else trace w' = trace w.

Lemma dhcp_server_consume_spec w frame len r :
  ready w wm zm pm -> dhcp_net_ok w -> leases_ok w -> bytes frame -> 12 <= blen frame ->
  opt_dhcp_server (options w) = true -> wifi_subnet_known (lp_adapters (lp w)) = true ->
  dhcp_parse frame len = Ok r ->
  wp (dhcp_server_consume frame len) (fun b w' => b = bool_decide (is_Some r) /\
    match r with
    | None => w' = w
    | Some req =>
        if is_nintendo_mac (field frame 6 6) then served (swept w) (field frame 6 6) req w' else trace w' = trace w
    end) w.
Proof.
  intros Hr Hn Hok Hb Hl Ho Hk Hp. unfold dhcp_server_consume, option_of, getlp.
  apply wp_bind, wp_gets, wp_bind, wp_gets. rewrite Ho, Hk. cbn [negb orb].
  apply wp_bind. eapply wp_lift; [exact Hp|]. destruct r as [req|]; [|by apply wp_ret].
  apply wp_bind, time_now_wp, wp_bind, wp_modify. fold (swept w).
  apply wp_bind. eapply wp_lift; [unfold ETHER_OFF_SRC; apply rdn_ok; lia|].
  destruct (is_nintendo_mac (field frame 6 6)) eqn:Em; cbn [negb];
    [|by apply wp_bind, wp_modify, wp_ret].
  assert (Lm : blen (field frame 6 6) = 6) by (apply blen_field; lia).
  assert (Bm : bytes (field frame 6 6)) by auto with relay. pose proof (swept_frame w) as Hf.
  assert (Hr' : ready (swept w) wm zm pm) by (by eapply ready_dhcp).
  assert (Hn' : dhcp_net_ok (swept w)) by (by eapply dhcp_net_frame). pose proof (swept_ok w Hn Hok) as Hok'.
  apply wp_bind. eapply wp_mono with (P := fun _ w' => served (swept w) (field frame 6 6) req w');
    [|intros [] w' Hs; by apply wp_ret]. unfold served.
  destruct (_ =? _); [by eapply dhcp_discover_spec|]. destruct (_ =? _); [by eapply dhcp_handle_request_spec|].
  destruct (_ =? _); [|by apply wp_ret]. unfold dhcp_release. apply wp_bind, wp_gets.
  destruct (dhcp_find_mac _ _); [by apply wp_modify|by apply wp_ret].
Qed.

(** every frame is handled, whatever it holds *)
Lemma dhcp_server_consume_total w frame len :
  ready w wm zm pm -> dhcp_net_ok w -> leases_ok w -> bytes frame -> 14 <= len -> len + 60 <= blen frame ->
  wp (dhcp_server_consume frame len) (fun _ w' =>
    ready w' wm zm pm /\ dhcp_net_ok w' /\ leases_ok w' /\ only_wifi w w') w.
Proof.
  intros Hr Hn Hok Hb Hl Hs. destruct (dhcp_parse_ok frame len Hb Hs) as [r Hp].
  eapply wp_mono; [apply (wp_respects dhcp_frame); [auto with respects|];
    apply (wp_respects only_wifi); [apply dhcp_server_consume_wifi|];
    apply wp_wlp; [|by apply dhcp_server_consume_leases]|].
  - destruct (opt_dhcp_server (options w)) eqn:Ho, (wifi_subnet_known (lp_adapters (lp w))) eqn:Hk;
      [eapply wp_mono; [eapply dhcp_server_consume_spec; eauto; lia|done]|..];
      unfold dhcp_server_consume, option_of, getlp; apply wp_bind, wp_gets, wp_bind, wp_gets;
      rewrite Ho, Hk; by apply wp_ret.
  - intros b w' (Hf & Hw & Hok'). split_and!; [by eapply ready_dhcp|by eapply dhcp_net_frame|done|done].
Qed.
End Server.

(** ** Sessions *)

(** the server over a sequence of captured frames, each with its length *)
Fixpoint dhcp_session (fs : list (list Z * Z)) : M unit :=
  match fs with
  | [] => ret tt
  | (frame, len) :: fs => dhcp_server_consume frame len ;;; dhcp_session fs
  end.

(** a captured frame in a buffer that reaches one IPv4 header beyond it *)
Definition roomy (f : list Z * Z) : Prop := bytes f.1 /\ 14 <= f.2 /\ f.2 + 60 <= blen f.1.

(** C5. From any state whose lease table is consistent, with a clock that does
    not go back, the DHCP server handles every sequence of frames to its end,
    whatever they hold, when 60 bytes can be read behind each of them
    ([roomy]; without them the option loop may leave the buffer, see
    [dhcp_parse_overreads]).  The table stays consistent: one slot per console,
    Nintendo consoles only, addresses of the pool or the managed address only,
    and no address in two live leases.  It sends on the Wi-Fi adapter only. *)
Theorem dhcp_session_safe fs w wm zm pm :
  ready w wm zm pm -> dhcp_net_ok w -> leases_ok w -> Forall roomy fs ->
  wp (dhcp_session fs) (fun _ w' => ready w' wm zm pm /\ leases_ok w' /\ only_wifi w w') w.
Proof.
  intros Hr Hn Hok Hfs. revert w Hr Hn Hok. induction Hfs as [|[f n] fs (Hb & Hn1 & Hn2) Hfs IH];
    intros w Hr Hn Hok; cbn [dhcp_session]; [by apply wp_ret|].
  apply wp_bind. eapply wp_mono; [by eapply dhcp_server_consume_total|].
  intros _ w1 (Hr1 & Hnet1 & Hok1 & Hw1). eapply wp_mono; [by apply IH|].
  intros _ w2 (Hr2 & Hok2 & Hw2). split_and!; [done|done|by etrans].
Qed.

(** C6. While the server runs, a request that [dhcp_parse] recognises is always
    consumed.  A console gets exactly the answer the protocol asks for.  A
    DISCOVER gets one OFFER of an address that no other live lease holds, which
    is then recorded for the console; nothing is sent only when there is no
    address for it (it has no live lease, and neither the relay's address nor
    one of the 24 of the pool is free) or all slots are others'.  A REQUEST gets
    an ACK of its own live lease when it asks for that, a NAK when it asks for
    another address of the subnet, and else nothing.  Other messages, and
    devices without a Nintendo prefix, get nothing. *)
Theorem dhcp_server_answers w wm zm pm frame len req :
  ready w wm zm pm -> dhcp_net_ok w -> leases_ok w -> bytes frame -> 12 <= blen frame ->
  opt_dhcp_server (options w) = true -> wifi_subnet_known (lp_adapters (lp w)) = true ->
  dhcp_parse frame len = Ok (Some req) ->
  wp (dhcp_server_consume frame len) (fun b w' => b = true /\
    if is_nintendo_mac (field frame 6 6) then served wm (swept w) (field frame 6 6) req w'
    else trace w' = trace w) w.
Proof.
  intros. eapply wp_mono; [by eapply dhcp_server_consume_spec|]. intros b w' [-> H']. by split.
Qed.

(** A lease address survives the round trip through the integers the
    server computes with. *)
Theorem lease_address_round_trip ip v :
  bytes ip -> blen ip = 4 -> 0 <= v < 4294967296 ->
  u32_to_ipv4 (ipv4_to_u32 ip) = ip /\ ipv4_to_u32 (u32_to_ipv4 v) = v.
Proof. intros. split; [by apply u32_round_trip|by apply ipv4_round_trip]. Qed.

(** *** Concrete requests *)

Definition sample_bootp (options : list Z) : list Z :=
  [1; 1; 6; 0; 1; 2; 3; 4; 0; 0; 0; 0] ++ replicate 16 0 ++ Sample.console_mac ++ replicate 202 0 ++
  [99; 130; 83; 99] ++ options.
Definition sample_request (options : list Z) : list Z :=
  let n := 240 + blen options in
  BROADCASE_MAC ++ Sample.console_mac ++ [8; 0] ++
  [69; 0] ++ net16 (28 + n) ++ [0; 0; 0; 0; 64; 17; 0; 0; 0; 0; 0; 0; 255; 255; 255; 255] ++
  net16 68 ++ net16 67 ++ net16 (8 + n) ++ [0; 0] ++ sample_bootp options.
Definition sample_discover : list Z := sample_request [53; 1; 1; 255].

(** The limit of the option loop counts the IPv4 header twice: a request
    that fills its frame and whose options have no end mark is read beyond the
    end of the frame. *)
Theorem dhcp_parse_overreads :
  let frame := sample_request [53; 1; 1; 0] in
  dhcp_parse frame (blen frame) = Stop OutOfBounds /\
  exists req, dhcp_parse (frame ++ [255; 0]) (blen frame) = Ok (Some req) /\ msg_type req = DHCP_MSG_DISCOVER.
Proof. split; [done|]. eexists. by vm_compute. Qed.

Lemma sample_net_ok : dhcp_net_ok Sample.relay.
Proof. split; try done; try split; try done; repeat constructor; done. Qed.
Lemma sample_leases_ok : leases_ok Sample.relay.
Proof. apply lease_ok_init. Qed.

Lemma dhcp_session_witness :
  wp (dhcp_session [(sample_discover ++ replicate 60 0, blen sample_discover)])
    (fun _ w' => ready w' Sample.wifi_mac Sample.zt_mac Sample.wifi_mac /\ leases_ok w' /\ only_wifi Sample.relay w')
    Sample.relay.
Proof.
  apply dhcp_session_safe; [apply sample_ready|apply sample_net_ok|apply sample_leases_ok|].
  apply Forall_cons; [|apply Forall_nil]. split; [apply sample_bytes; reflexivity|]. split; discriminate.
Defined.

Lemma dhcp_server_answers_witness :
  exists req, dhcp_parse sample_discover (blen sample_discover) = Ok (Some req) /\
  wp (dhcp_server_consume sample_discover (blen sample_discover)) (fun b w' => b = true /\
    served Sample.wifi_mac (swept Sample.relay) Sample.console_mac req w') Sample.relay.
Proof.
  eexists. split; [vm_compute; reflexivity|].
  eapply (dhcp_server_answers Sample.relay Sample.wifi_mac Sample.zt_mac Sample.wifi_mac sample_discover);
    [apply sample_ready|apply sample_net_ok|apply sample_leases_ok|apply sample_bytes; reflexivity|discriminate
    |reflexivity|reflexivity|vm_compute; reflexivity].
Defined.

Lemma lease_address_witness :
  u32_to_ipv4 (ipv4_to_u32 [10; 147; 17; 5]) = [10; 147; 17; 5] /\ ipv4_to_u32 (u32_to_ipv4 177409285) = 177409285.
Proof. apply lease_address_round_trip; [apply sample_bytes; reflexivity|reflexivity|lia]. Defined.
