(* ===== verification/Relay.v ===== *)
(** * Relay: the two capture handlers

    src/src/lan-play.c: translation of datagrams between the Wi-Fi adapter and
    the ZeroTier adapter, discovery of the local Switch, the delivery probe, and
    the handlers that libpcap calls with each captured frame.  A condition of
    the C code that reads memory only behind other checks is a function with
    result [outcome bool] that reads in the same order.  Lines written to the log
    are left out, but for the detection event the desktop application reads. *)

From S2P Require Import Prelude Bytes Checksum World Sample Pcap Packet Arp Ipv4 NativeUdp Nintendo Dhcp.

(** ** Destinations *)

Definition quads : list Z := [0; 1; 2; 3].

Definition is_zerotier_destination (a : adapters) (ip : list Z) : bool :=
  CMP_IPV4 ip (zerotier_broadcast_ip a) ||
  forallb (fun i => Z.land (getb ip i) (getb (zerotier_netmask a) i) =?
                    Z.land (getb (zerotier_ip a) i) (getb (zerotier_netmask a) i)) quads.

Definition ip_in_subnet (ip net mask : list Z) : bool :=
  forallb (fun i => Z.land (getb ip i) (getb mask i) =? getb net i) quads.

(** [~b] cast to a byte *)
Definition not8 (b : Z) : Z := u8 (Z.lnot b).

(** ** From the console to the overlay *)

(** an ICMP port-unreachable of the console *)
Definition is_port_unreachable (ip : list Z) (ip_len : Z) : outcome bool :=
  try ver_len := READ_NET8 ip IPV4_OFF_VER_LEN in
  let icmp_header_len := Z.land ver_len 15 * 4 in
  try frag := READ_NET16 ip IPV4_OFF_FLAGS_FRAG_OFFSET in
  let icmp_fragment := negb (Z.land frag 16383 =? 0) in
  try protocol := READ_NET8 ip IPV4_OFF_PROTOCOL in
  if (protocol =? IPV4_PROTOCOL_ICMP) && negb icmp_fragment &&
     (IPV4_HEADER_LEN <=? icmp_header_len) && (icmp_header_len + 8 <=? ip_len) then
    let icmp := ptr ip icmp_header_len in
    try type := READ_NET8 icmp 0 in
    if type =? 3 then try code := READ_NET8 icmp 1 in Ok (code =? 3) else Ok false
  else Ok false.

(** a whole UDP datagram to the LAN-play port: the checks before
    [READ_NET16(ip, header_len + 2) == 35000] *)
Definition to_game_port (ip : list Z) (header_len ip_len : Z) : outcome bool :=
  try protocol := READ_NET8 ip IPV4_OFF_PROTOCOL in
  if negb (protocol =? IPV4_PROTOCOL_UDP) then Ok false else
  try frag := READ_NET16 ip IPV4_OFF_FLAGS_FRAG_OFFSET in
  if negb (header_len + 8 <=? ip_len) || negb (Z.land frag 16383 =? 0) then Ok false else
  try port := READ_NET16 ip (header_len + 2) in
  Ok (port =? 35000).

(** the source port of a datagram that has one *)
Definition udp_source_port (ip : list Z) (header_len ip_len : Z) : outcome (option Z) :=
  try protocol := READ_NET8 ip IPV4_OFF_PROTOCOL in
  if negb (protocol =? IPV4_PROTOCOL_UDP) then Ok None else
  try frag := READ_NET16 ip IPV4_OFF_FLAGS_FRAG_OFFSET in
  if negb (Z.land frag 8191 =? 0) || negb (header_len + 8 <=? ip_len) then Ok None else
  try port := READ_NET16 ip header_len in
  Ok (Some port).

Definition setswitch (f : switch_state -> switch_state) : M unit := setlp (set lp_switch f).

Definition lan_play_relay_wifi_ipv4 (frame : list Z) (frame_len : Z) : M bool :=
  let ip := ptr frame ETHER_HEADER_LEN in
  let* sw := getlp lp_switch in
  if negb (switch_seen sw) || (frame_len <? ETHER_HEADER_LEN + IPV4_HEADER_LEN) then ret false else
  let? src := rdn ip IPV4_OFF_SRC 4 in
  if negb (CMP_IPV4 src (switch_ip sw)) then ret false else
  let? ip_len := READ_NET16 ip IPV4_OFF_TOTAL_LEN in
  let? original_dst := rdn ip IPV4_OFF_DST 4 in
  let* a := getlp lp_adapters in
  if (ETHER_MTU <? ip_len) || (frame_len <? ETHER_HEADER_LEN + ip_len) ||
     (negb (is_nintendo_lan_broadcast original_dst) && negb (is_zerotier_destination a original_dst))
  then ret false else
  let? unreachable := is_port_unreachable ip ip_len in
  if unreachable then ret true else
  let* translated := uninit ETHER_MTU in
  let? datagram := rdn ip 0 ip_len in
  let? translated := wrn translated 0 datagram in
  let dst := if is_nintendo_lan_broadcast original_dst then zerotier_broadcast_ip a else original_dst in
  let? '(ok, translated) := rewrite_ipv4_addresses translated ip_len (zerotier_ip a) dst in
  if negb ok then ret false else
  let? ver_len := READ_NET8 ip 0 in
  let header_len := Z.land ver_len 15 * 4 in
  let? game := (if warned_broadcast_mismatch sw then Ok false else to_game_port ip header_len ip_len) in
  (if game && is_nintendo_lan_broadcast original_dst && negb (CMP_IPV4 original_dst dst)
   then setswitch (set warned_broadcast_mismatch (fun _ => true)) else ret tt) ;;;
  let? port := udp_source_port ip header_len ip_len in
  let* rc := match port with Some port => native_udp_guard_reserve port | None => ret 0 end in
  if negb (rc =? 0) then ret true else
  (if CMP_IPV4 dst (zerotier_broadcast_ip a)
   then lan_play_send_zerotier_ipv4_broadcast translated ip_len
   else lan_play_send_zerotier_ipv4 dst translated ip_len) ;;;
  ret true.

(** ** The delivery probe *)

(** the bytes of a [uint64_t] in memory *)
Fixpoint le_bytes (n : nat) (v : Z) : list Z :=
  match n with O => [] | S n => v mod 256 :: le_bytes n (v / 256) end.

(** "ZLLPROBE" *)
Definition probe_magic : list Z := [90; 76; 76; 80; 82; 79; 66; 69].

Definition setprobe (f : delivery_probe -> delivery_probe) : M unit := setlp (set lp_probe f).

(** the echo request before its addresses are set *)
Definition probe_datagram (payload : list Z) : outcome (list Z) :=
  let ip := replicate 44 0 in
  try ip := WRITE_NET8 ip 0 69 in
  try ip := WRITE_NET8 ip 8 64 in
  try ip := WRITE_NET8 ip 9 1 in
  try ip := WRITE_NET16 ip 2 44 in
  try ip := WRITE_NET8 ip 20 8 in
  try ip := WRITE_NET16 ip 24 23116 in
  try ip := WRITE_NET16 ip 26 1 in
  try ip := wrn ip 28 payload in
  try sum := ipv4_header_checksum (ptr ip 20) 24 in
  WRITE_NET16 ip 22 sum.

Definition probe_wifi_delivery : M unit :=
  let* p := getlp lp_probe in
  if wifi_delivery_probe_sent p then ret tt else
  let* nonce := uv_hrtime in
  let payload := probe_magic ++ le_bytes 8 (u64 nonce) in
  setprobe (set wifi_delivery_probe_payload (fun _ => payload)) ;;;
  let? ip := probe_datagram payload in
  let* sw := getlp lp_switch in
  let* wifi := getlp (fun l => wifi_ip (lp_adapters l)) in
  let* gw := getlp (fun l => pc_ip (lp_packet_ctx l)) in
  let probe_src := if switch_dhcp sw then wifi else gw in
  let? '(_, ip) := rewrite_ipv4_addresses ip 44 probe_src (switch_ip sw) in
  setprobe (set wifi_delivery_probe_ip (fun _ => switch_ip sw)) ;;;
  setprobe (set wifi_delivery_probe_mac (fun _ => switch_mac sw)) ;;;
  setprobe (set wifi_delivery_probe_sent (fun _ => true)) ;;;
  lan_play_send_wifi_ipv4 (switch_mac sw) ip 44 ;;;
  ret tt.

(** the checks on an echo reply, in the order of the code: [icmp] is looked at
    once the datagram is known to hold it *)
Definition is_probe_reply (a : adapters) (gw : list Z) (dhcp : bool) (p : delivery_probe)
    (frame : list Z) (len : Z) : outcome bool :=
  if negb (wifi_delivery_probe_sent p) || (len <? 14 + 44) then Ok false else
  try type := READ_NET16 frame 12 in
  try src := rdn frame ETHER_OFF_SRC 6 in
  try dst := rdn frame ETHER_OFF_DST 6 in
  if negb (type =? ETHER_TYPE_IPV4) || negb (CMP_MAC src (wifi_delivery_probe_mac p)) ||
     negb (CMP_MAC dst (wifi_mac a)) then Ok false else
  let ip := ptr frame 14 in
  try ver_len := READ_NET8 ip 0 in
  let hlen := Z.land ver_len 15 * 4 in
  try total := READ_NET16 ip 2 in
  try protocol := READ_NET8 ip 9 in
  try frag := READ_NET16 ip 6 in
  try ip_src := rdn ip 12 4 in
  try ip_dst := rdn ip 16 4 in
  if negb (Z.shiftr ver_len 4 =? 4) || (hlen <? 20) || negb (total =? hlen + 24) || (len - 14 <? total) ||
     negb (protocol =? 1) || negb (Z.land frag 16383 =? 0) ||
     negb (CMP_IPV4 ip_src (wifi_delivery_probe_ip p)) ||
     negb (CMP_IPV4 ip_dst (if dhcp then wifi_ip a else gw)) then Ok false else
  let icmp := ptr ip hlen in
  try type := READ_NET8 icmp 0 in
  try code := READ_NET8 icmp 1 in
  try id := READ_NET16 icmp 4 in
  try seq := READ_NET16 icmp 6 in
  try payload := rdn icmp 8 16 in
  if negb (type =? 0) || negb (code =? 0) || negb (id =? 23116) || negb (seq =? 1) ||
     negb (bool_decide (payload = wifi_delivery_probe_payload p)) then Ok false else
  try hsum := ipv4_header_checksum ip hlen in
  if negb (hsum =? 0) then Ok false else
  try isum := ipv4_header_checksum icmp 24 in
  Ok (isum =? 0).

Definition consume_wifi_delivery_reply (frame : list Z) (len : Z) : M bool :=
  let* a := getlp lp_adapters in
  let* gw := getlp (fun l => pc_ip (lp_packet_ctx l)) in
  let* dhcp := getlp (fun l => switch_dhcp (lp_switch l)) in
  let* p := getlp lp_probe in
  let? reply := is_probe_reply a gw dhcp p frame len in
  if negb reply then ret false else
  setprobe (set wifi_delivery_probe_replied (fun _ => true)) ;;;
  ret true.

(** ** From the overlay to the console *)

Definition lan_play_relay_zerotier_ipv4 (frame : list Z) (frame_len : Z) : M bool :=
  let ip := ptr frame ETHER_HEADER_LEN in
  let* sw := getlp lp_switch in
  if negb (switch_seen sw) || (frame_len <? ETHER_HEADER_LEN + IPV4_HEADER_LEN) then ret false else
  let? ip_len := READ_NET16 ip IPV4_OFF_TOTAL_LEN in
  let? original_dst := rdn ip IPV4_OFF_DST 4 in
  let* a := getlp lp_adapters in
  let broadcast := CMP_IPV4 original_dst (zerotier_broadcast_ip a) in
  let for_switch := negb broadcast && CMP_IPV4 original_dst (switch_ip sw) in
  if (ETHER_MTU <? ip_len) || (frame_len <? ETHER_HEADER_LEN + ip_len) ||
     (negb broadcast && negb (CMP_IPV4 original_dst (zerotier_ip a)) && negb for_switch) then ret false else
  (if for_switch && negb (warned_direct_switch_delivery sw)
   then setswitch (set warned_direct_switch_delivery (fun _ => true)) else ret tt) ;;;
  let* translated := uninit ETHER_MTU in
  let? datagram := rdn ip 0 ip_len in
  let? translated := wrn translated 0 datagram in
  let dst := if broadcast then zerotier_broadcast_ip a else switch_ip sw in
  let? src := rdn ip IPV4_OFF_SRC 4 in
  let? '(ok, translated) := rewrite_ipv4_addresses translated ip_len src dst in
  if negb ok then ret false else
  let* rc := lan_play_send_wifi_ipv4 (if broadcast then BROADCASE_MAC else switch_mac sw) translated ip_len in
  let? ver_len := READ_NET8 ip 0 in
  let header_len := Z.land ver_len 15 * 4 in
  let? game := (if (rc =? 0) && negb broadcast then to_game_port ip header_len ip_len else Ok false) in
  (if game then probe_wifi_delivery else ret tt) ;;;
  ret true.

(** ** The local Switch *)

(** The sender of a frame as a candidate: its address, and whether the frame
    shows that the Ethernet source is its own ([direct]).  [None] where the
    code returns before it looks at the address. *)
Definition switch_claim (a : adapters) (frame : list Z) (len : Z) : outcome (option (list Z * bool)) :=
  if len <? ETHER_HEADER_LEN then Ok None else
  try b6 := READ_NET8 frame 6 in
  if negb (Z.land b6 1 =? 0) then Ok None else
  try mac := rdn frame 6 6 in
  if CMP_MAC mac NONE_MAC then Ok None else
  let body := ptr frame ETHER_HEADER_LEN in
  try type := READ_NET16 frame ETHER_OFF_TYPE in
  if type =? ETHER_TYPE_ARP then
    if len <? ETHER_HEADER_LEN + ARP_LEN then Ok None else
    try hardware := READ_NET16 body ARP_OFF_HARDWARE in
    try protocol := READ_NET16 body ARP_OFF_PROTOCOL in
    try hlen := READ_NET8 body 4 in
    try plen := READ_NET8 body 5 in
    try opcode := READ_NET16 body ARP_OFF_OPCODE in
    try sender := rdn body ARP_OFF_SENDER_MAC 6 in
    if negb (hardware =? 1) || negb (protocol =? ETHER_TYPE_IPV4) || negb (hlen =? 6) || negb (plen =? 4) ||
       (negb (opcode =? ARP_OPCODE_REQUEST) && negb (opcode =? ARP_OPCODE_REPLY)) ||
       negb (CMP_MAC sender mac) then Ok None else
    try ip := rdn body ARP_OFF_SENDER_IP 4 in
    Ok (Some (ip, true))
  else if type =? ETHER_TYPE_IPV4 then
    if len <? ETHER_HEADER_LEN + IPV4_HEADER_LEN then Ok None else
    try b0 := READ_NET8 body 0 in
    if negb (Z.shiftr b0 4 =? 4) then Ok None else
    let header := Z.land b0 15 * 4 in
    try total := READ_NET16 body IPV4_OFF_TOTAL_LEN in
    if (header <? IPV4_HEADER_LEN) || (total <? header) || (len - ETHER_HEADER_LEN <? total) then Ok None else
    try ip := rdn body IPV4_OFF_SRC 4 in
    try dst := rdn body IPV4_OFF_DST 4 in
    try ether_dst := rdn frame ETHER_OFF_DST 6 in
    Ok (Some (ip, CMP_MAC ether_dst BROADCASE_MAC &&
                  (CMP_IPV4 dst (zerotier_broadcast_ip a) || is_nintendo_lan_broadcast dst)))
  else Ok None.

(** a candidate's address: in one of the two networks, and not one with a
    meaning of its own *)
Definition wifi_destination (a : adapters) (ip : list Z) : bool :=
  wifi_subnet_known a && ip_in_subnet ip (wifi_subnet a) (wifi_netmask a).
Definition candidate_address (a : adapters) (gw ip : list Z) : bool :=
  let zt_dest := is_zerotier_destination a ip in
  let wifi_dest := wifi_destination a ip in
  negb ((negb zt_dest && negb wifi_dest) || CMP_IPV4 ip (zerotier_broadcast_ip a) || CMP_IPV4 ip gw) &&
  negb (wifi_dest && (CMP_IPV4 ip (wifi_broadcast a) || CMP_IPV4 ip (wifi_subnet a))) &&
  negb (forallb (fun i => Z.land (getb ip i) (not8 (getb (zerotier_netmask a) i)) =? 0) quads).
Definition is_dhcp_candidate (a : adapters) (ip : list Z) : bool :=
  wifi_destination a ip && negb (is_zerotier_destination a ip).

Definition learn_local_switch (frame : list Z) (len : Z) : M bool :=
  let* a := getlp lp_adapters in
  let* gw := getlp (fun l => pc_ip (lp_packet_ctx l)) in
  let? claim := switch_claim a frame len in
  match claim with
  | None => ret false
  | Some (ip, direct) =>
      if negb (candidate_address a gw ip) then ret false else
      let? mac := rdn frame 6 6 in
      let dhcp := is_dhcp_candidate a ip in
      if dhcp && negb (is_nintendo_mac mac) then ret false else
      let* sw := getlp lp_switch in
      if switch_seen sw && negb (CMP_IPV4 ip (switch_ip sw)) then ret false else
      let changed := negb (switch_seen sw) || negb (CMP_MAC mac (switch_mac sw)) in
      if switch_seen sw && changed && (switch_mac_confirmed sw || negb direct) then
        setswitch (set switch_mac_conflicts (fun n => u64 (n + 1))) ;;; ret true
      else
      setswitch (fun s => s <| switch_ip := ip |> <| switch_mac := mac |> <| switch_seen := true |>
                            <| switch_mac_confirmed ::= (fun c => c || direct) |>) ;;;
      (if negb changed then ret tt else
       arp_set WifiCtx mac ip ;;;
       setswitch (set switch_dhcp (fun _ => dhcp)) ;;;
       (if is_nintendo_mac mac then setswitch (set switch_nintendo_oui (fun _ => true)) else ret tt) ;;;
       probe_wifi_delivery ;;;
       let* diagnostics := option_of opt_diagnostics in
       let* status := option_of opt_status_events in
       if diagnostics || status then emit (SwitchDetected ip mac dhcp) else ret tt) ;;;
      ret true
  end.

(** ** The handlers *)

Definition lan_play_pcap_handler (h : pcap_pkthdr) (packet mac : list Z) : M unit :=
  if pkt_caplen h <? ETHER_HEADER_LEN then ret tt else
  let? src := rdn packet ETHER_OFF_SRC 6 in
  if CMP_MAC src mac then diagnostic_log_frame HostWifi packet (pkt_caplen h) else
  setlp (set ingress_zerotier (fun _ => false)) ;;;
  diagnostic_count_rx false packet (pkt_caplen h) ;;;
  diagnostic_log_frame RxWifi packet (pkt_caplen h) ;;;
  let* reply := consume_wifi_delivery_reply packet (pkt_caplen h) in
  if reply then ret tt else
  let* dhcp := dhcp_server_consume packet (pkt_caplen h) in
  if dhcp then ret tt else
  let* learned := learn_local_switch packet (pkt_caplen h) in
  if negb learned then ret tt else
  packet_set_mac WifiCtx mac ;;;
  let* relayed :=
    (if pkt_caplen h <? ETHER_HEADER_LEN + IPV4_HEADER_LEN then ret false else
     let? type := READ_NET16 packet ETHER_OFF_TYPE in
     if type =? ETHER_TYPE_IPV4 then lan_play_relay_wifi_ipv4 packet (u16 (pkt_caplen h)) else ret false) in
  if relayed then ret tt else
  get_packet WifiCtx h packet.

(** the overlay peer a frame comes from, if it shows one *)
Definition overlay_peer (packet : list Z) (caplen : Z) : outcome (option (list Z)) :=
  let body := ptr packet ETHER_HEADER_LEN in
  try type := READ_NET16 packet ETHER_OFF_TYPE in
  if (type =? ETHER_TYPE_IPV4) && (ETHER_HEADER_LEN + IPV4_HEADER_LEN <=? caplen) then
    try b0 := READ_NET8 body 0 in
    if Z.shiftr b0 4 =? 4 then try ip := rdn body IPV4_OFF_SRC 4 in Ok (Some ip) else Ok None
  else if (type =? ETHER_TYPE_ARP) && (ETHER_HEADER_LEN + ARP_LEN <=? caplen) then
    try hardware := READ_NET16 body ARP_OFF_HARDWARE in
    try protocol := READ_NET16 body ARP_OFF_PROTOCOL in
    try hlen := READ_NET8 body 4 in
    try plen := READ_NET8 body 5 in
    try sender := rdn body ARP_OFF_SENDER_MAC 6 in
    try src := rdn packet ETHER_OFF_SRC 6 in
    if (hardware =? 1) && (protocol =? ETHER_TYPE_IPV4) && (hlen =? 6) && (plen =? 4) && CMP_MAC sender src
    then try ip := rdn body ARP_OFF_SENDER_IP 4 in Ok (Some ip) else Ok None
  else Ok None.

Definition learn_overlay_peer (packet : list Z) (caplen : Z) : M unit :=
  let? peer := overlay_peer packet caplen in
  match peer with
  | None => ret tt
  | Some ip =>
      let* a := getlp lp_adapters in
      let? src := rdn packet ETHER_OFF_SRC 6 in
      if is_zerotier_destination a ip && negb (CMP_IPV4 ip (zerotier_ip a)) &&
         negb (CMP_IPV4 ip (zerotier_broadcast_ip a)) && (Z.land (getb src 0) 1 =? 0)
      then arp_set NeighborCtx src ip ;;; ret tt else ret tt
  end.

Definition lan_play_zerotier_pcap_handler (h : pcap_pkthdr) (packet mac : list Z) : M unit :=
  if pkt_caplen h <? ETHER_HEADER_LEN then ret tt else
  let? src := rdn packet ETHER_OFF_SRC 6 in
  if CMP_MAC src mac then diagnostic_log_frame HostZeroTier packet (pkt_caplen h) else
  learn_overlay_peer packet (pkt_caplen h) ;;;
  setlp (set ingress_zerotier (fun _ => true)) ;;;
  diagnostic_count_rx true packet (pkt_caplen h) ;;;
  diagnostic_log_frame RxZeroTier packet (pkt_caplen h) ;;;
  packet_set_mac WifiCtx mac ;;;
  let* relayed :=
    (if pkt_caplen h <? ETHER_HEADER_LEN + IPV4_HEADER_LEN then ret false else
     let? type := READ_NET16 packet ETHER_OFF_TYPE in
     if type =? ETHER_TYPE_IPV4 then lan_play_relay_zerotier_ipv4 packet (u16 (pkt_caplen h)) else ret false) in
  (if relayed then ret tt else get_packet WifiCtx h packet) ;;;
  setlp (set ingress_zerotier (fun _ => false)).

(** ** What the handlers leave alone *)

(** the parts fixed when the relay starts, and the side a frame came from *)
Record relay_frame (w w' : world) : Prop := {
  rl_ctx : (pc_ip (lp_packet_ctx (lp w')), subnet_net (lp_packet_ctx (lp w')), subnet_mask (lp_packet_ctx (lp w')))
    = (pc_ip (lp_packet_ctx (lp w)), subnet_net (lp_packet_ctx (lp w)), subnet_mask (lp_packet_ctx (lp w)));
  rl_adapters : lp_adapters (lp w') = lp_adapters (lp w);
  rl_ingress : ingress_zerotier (lp w') = ingress_zerotier (lp w);
  rl_options : options w' = options w;
  rl_env : environment w' = environment w;
  rl_tick : (tick w <= tick w')%nat
}.
#[global] Instance relay_frame_preorder : PreOrder relay_frame.
Proof.
  split.
  - intros w. by split.
  - intros w1 w2 w3 [] []. split; etrans; done.
Qed.
Ltac relay_frame_easy := split; cbn; reflexivity || lia || auto.
#[export] Hint Extern 1 (relay_frame _ _) => solve [relay_frame_easy] : respects_state.

Lemma net_relay_frame w w' : net_frame w w' -> relay_frame w w'.
Proof. intros []. unfold ctx_cfg in *. split; congruence || done. Qed.
Lemma dhcp_relay_frame w w' : dhcp_frame w w' -> relay_frame w w'.
Proof. intros []. split; congruence || done. Qed.
Lemma guard_relay_frame w w' : guard_frame w w' -> relay_frame w w'.
Proof.
  intros Hg. pose proof Hg as []. split; try done.
  - by apply (guard_frame_field (fun l => (pc_ip (lp_packet_ctx l), subnet_net (lp_packet_ctx l), subnet_mask (lp_packet_ctx l)))).
  - by apply (guard_frame_field lp_adapters).
  - by apply (guard_frame_field ingress_zerotier).
Qed.
Lemma ready_guard w w' wm zm pm : guard_frame w w' -> ready w wm zm pm -> ready w' wm zm pm.
Proof.
  intros Hg. apply ready_same.
  - by apply (guard_frame_field lp_packet_ctx).
  - by apply (guard_frame_field zerotier_neighbors).
  - by apply (guard_frame_field (fun l => pcap_ids (lp_pcap l))).
  - by apply (guard_frame_field (fun l => pcap_ids (lp_zerotier_pcap l))).
  - by apply (guard_frame_field lp_adapters).
Qed.
Lemma stable_relay w w' t : relay_frame w w' -> stable_clock w t -> stable_clock w' t.
Proof. intros [] H i Hi. rewrite rl_env0. apply H. lia. Qed.

(** ** The delivery probe *)

(** the Switch that was learned has well-formed addresses *)
Definition wf_switch (s : switch_state) : Prop :=
  switch_seen s = true -> blen (switch_mac s) = 6 /\ blen (switch_ip s) = 4 /\ bytes (switch_mac s) /\ bytes (switch_ip s).

Lemma le_bytes_ok n v : blen (le_bytes n v) = Z.of_nat n /\ bytes (le_bytes n v).
Proof.
  revert v. induction n as [|n IH]; intros v; [by split|]. destruct (IH (v / 256)) as [Hl Hb]. split.
  - cbn [le_bytes]. rewrite blen_cons, Hl. lia.
  - constructor; [apply Z.mod_pos_bound; lia|done].
Qed.

Definition probe_icmp (sum : Z) (payload : list Z) : list Z :=
  [8; 0] ++ net16 sum ++ net16 23116 ++ net16 1 ++ payload.
Definition probe_ip (sum : Z) (payload : list Z) : list Z :=
  [69; 0; 0; 44; 0; 0; 0; 0; 64; 1; 0; 0; 0; 0; 0; 0; 0; 0; 0; 0] ++ probe_icmp sum payload.

Lemma probe_datagram_ok payload :
  blen payload = 16 -> bytes payload ->
  let sum := csum (probe_icmp 0 payload) in
  probe_datagram payload = Ok (probe_ip sum payload) /\ ipv4_header_checksum (probe_icmp sum payload) 24 = Ok 0.
Proof.
  intros Hl Hb sum. assert (Bz : forall v, bytes (probe_icmp v payload)).
  { intros v. unfold probe_icmp. rewrite !Forall_app. split_and!; auto with relay. byte_list. }
  assert (Lz : forall v, blen (probe_icmp v payload) = 24) by (intros; unfold probe_icmp; blen_simp; lia).
  assert (Hs : forall v, probe_icmp v payload = splice (probe_icmp 0 payload) 2 (net16 v)).
  { intros v. explode Hl. reflexivity. }
  split.
  - unfold probe_datagram. assert (E : ipv4_header_checksum (probe_icmp 0 payload) 24 = Ok sum).
    { rewrite ipv4_header_checksum_ok by (done || rewrite ?Lz; lia). f_equal. unfold sum. f_equal.
      by rewrite field_all by (rewrite Lz; lia). }
    transitivity (obind (ipv4_header_checksum (probe_icmp 0 payload) 24) (fun sum => Ok (probe_ip sum payload)));
      [|by rewrite E]. clear -Hl. explode Hl. reflexivity.
  - rewrite ipv4_header_checksum_ok by (done || rewrite ?Lz; lia). rewrite field_all by (rewrite Lz; lia).
    unfold sum. rewrite (Hs (csum _)). rewrite (Hs 0) at 2. f_equal.
    apply csum_splice_valid; [done|lia|done|rewrite Lz; lia].
Qed.

(** all that the delivery probe may change: its own record, counters, captures *)
Record probe_frame (w w' : world) : Prop := {
  pf_ctx : lp_packet_ctx (lp w') = lp_packet_ctx (lp w);
  pf_neighbors : zerotier_neighbors (lp w') = zerotier_neighbors (lp w);
  pf_wifi : pcap_ids (lp_pcap (lp w')) = pcap_ids (lp_pcap (lp w));
  pf_zt : pcap_ids (lp_zerotier_pcap (lp w')) = pcap_ids (lp_zerotier_pcap (lp w));
  pf_ingress : ingress_zerotier (lp w') = ingress_zerotier (lp w);
  pf_adapters : lp_adapters (lp w') = lp_adapters (lp w);
  pf_switch : lp_switch (lp w') = lp_switch (lp w);
  pf_dhcp : dhcp_state (lp w') = dhcp_state (lp w);
  pf_guard : udp_guard (lp w') = udp_guard (lp w);
  pf_options : options w' = options w;
  pf_env : environment w' = environment w;
  pf_tick : (tick w <= tick w')%nat
}.
#[global] Instance probe_frame_preorder : PreOrder probe_frame.
Proof.
  split.
  - intros w. by split.
  - intros w1 w2 w3 [] []. split; etrans; done.
Qed.
Ltac probe_frame_easy := split; cbn; reflexivity || lia || auto.
#[export] Hint Extern 1 (probe_frame _ _) => solve [probe_frame_easy] : respects_state.
Lemma io_probe_frame w w' : io_frame w w' -> probe_frame w w'.
Proof. by intros []. Qed.
Lemma respects_io_probe {A} (m : M A) : respects io_frame m -> respects probe_frame m.
Proof. apply respects_mono, io_probe_frame. Qed.
#[export] Hint Extern 4 (respects probe_frame _) =>
  (apply respects_io_probe; solve [auto with respects]) : respects.
Lemma ready_probe w w' wm zm pm : probe_frame w w' -> ready w wm zm pm -> ready w' wm zm pm.
Proof. intros []. by apply ready_same. Qed.
Lemma probe_relay_frame w w' : probe_frame w w' -> relay_frame w w'.
Proof. intros []. split; congruence || done. Qed.

Lemma probe_wifi_delivery_frame : respects probe_frame probe_wifi_delivery.
Proof. unfold probe_wifi_delivery, uv_hrtime, ext, setprobe, setlp, getlp. solve_respects. Qed.
Lemma consume_reply_frame f n : respects probe_frame (consume_wifi_delivery_reply f n).
Proof. unfold consume_wifi_delivery_reply, setprobe, setlp, getlp. solve_respects. Qed.
#[export] Hint Resolve probe_wifi_delivery_frame consume_reply_frame : respects.

Section Probe.
Context (wm zm pm : list Z).

(** the echo request on the wire: from the relay to the console, with the
    payload the relay remembers and checksums that verify *)
Definition probe_sent (w : world) (payload f : list Z) : Prop :=
  let sw := lp_switch (lp w) in
  let src := if switch_dhcp sw then wifi_ip (lp_adapters (lp w)) else pc_ip (lp_packet_ctx (lp w)) in
  let sum := csum (probe_icmp 0 payload) in
  exists p, readdressed (probe_ip sum payload) p src (switch_ip sw) /\
    f = ether (switch_mac sw) wm ETHER_TYPE_IPV4 p.

Lemma probe_wifi_delivery_spec w :
  ready w wm zm pm -> wf_switch (lp_switch (lp w)) -> switch_seen (lp_switch (lp w)) = true ->
  wp probe_wifi_delivery (fun _ w' => probe_frame w w' /\
    if wifi_delivery_probe_sent (lp_probe (lp w)) then w' = w else
    wifi_delivery_probe_sent (lp_probe (lp w')) = true /\
    exists f, probe_sent w (wifi_delivery_probe_payload (lp_probe (lp w'))) f /\
      trace w' = (Wifi, 0%nat, f) :: trace w) w.
Proof.
  intros Hr Hw Hs. destruct (Hw Hs) as (Lm & Li & Bm & Bi). apply (wp_respects probe_frame); [auto with respects|].
  unfold probe_wifi_delivery. apply wp_bind, wp_gets.
  destruct (wifi_delivery_probe_sent _) eqn:Ep; [by apply wp_ret|].
  apply wp_bind, wp_bind, wp_gets, wp_bind, wp_modify, wp_ret, wp_bind, wp_modify.
  set (payload := probe_magic ++ _). destruct (le_bytes_ok 8 (u64 (env_hrtime (environment w) (tick w)))) as [Ln Bn].
  assert (Hl : blen payload = 16) by (unfold payload; rewrite blen_app, Ln; done).
  assert (Hb : bytes payload) by (unfold payload; rewrite Forall_app; split; [unfold probe_magic; byte_list|done]). clearbody payload.
  destruct (probe_datagram_ok payload Hl Hb) as [Hd _]. apply wp_bind. eapply wp_lift; [exact Hd|].
  set (d := probe_ip _ _) in *. do 3 apply wp_bind, wp_gets. cbn [lp set eta_world].
  set (src := if switch_dhcp _ then _ else _).
  destruct (rd_adapters _ _ _ _ Hr) as [_ Lw _ _ _ _ (_ & _ & Bw & _) _].
  assert (Ls : blen src = 4) by (subst src; by destruct (switch_dhcp _); [|apply (rd_ip _ _ _ _ Hr)]).
  assert (Bs : bytes src) by (subst src; by destruct (switch_dhcp _); [|apply (rd_ip_bytes _ _ _ _ Hr)]).
  assert (Ld : blen d = 44) by (unfold d, probe_ip, probe_icmp; blen_simp; lia).
  assert (Bd : bytes d).
  { unfold d, probe_ip, probe_icmp. rewrite !Forall_app. split_and!; auto with relay; byte_list. }
  assert (Hw44 : rewritable d 44).
  { assert (Hi : ihl d = 20) by reflexivity. assert (Ht : total_length d = 44) by reflexivity.
    unfold rewritable. rewrite Hi, Ht. lia. }
  destruct (rewrite_ok d src (switch_ip (lp_switch (lp w))) 44) as (p & Hp & Hre); [assumption || lia..|].
  apply wp_bind. eapply wp_lift; [exact Hp|]. cbv beta iota.
  do 3 apply wp_bind, wp_modify. apply wp_bind.
  assert (Lp : blen p = 44) by (rewrite (re_len _ _ _ _ Hre); done).
  eapply wp_mono; [apply (wp_respects io_frame); [auto with respects|];
    apply (send_wifi_ipv4_spec wm zm pm); [by eapply ready_probe; [|exact Hr]; probe_frame_easy|done
      |unfold ETHER_MTU; lia|lia]|].
  intros rc w' (Hio & _ & _ & Ht). apply wp_ret. rewrite (io_probe _ _ Hio). split; [done|]. eexists. split; [|exact Ht].
  exists p. split; [done|]. by rewrite field_all by lia.
Qed.

Lemma is_probe_reply_ok a gw dhcp p frame len :
  bytes frame -> len <= blen frame -> exists b, is_probe_reply a gw dhcp p frame len = Ok b.
Proof.
  intros Hb Hl. unfold is_probe_reply, ETHER_OFF_SRC, ETHER_OFF_DST.
  destruct (_ || _) eqn:E0; [by eexists|]. bool_lia.
  rewrite READ_NET16_ok, !rdn_ok by lia. cbn [obind]. destruct (_ || _); [by eexists|].
  set (ip := ptr frame 14). assert (Li : blen ip = blen frame - 14) by (subst ip; rewrite blen_ptr by lia; lia).
  assert (Bi : bytes ip) by (subst ip; auto with relay). pose proof (ihl_bound ip) as Hh.
  rewrite !READ_NET8_ok, !READ_NET16_ok, !rdn_ok by lia. cbn [obind]. unfold ihl in Hh.
  set (hlen := Z.land (getb ip 0) 15 * 4) in *. clearbody hlen.
  destruct (_ || _) eqn:E1; [by eexists|]. bool_lia.
  set (icmp := ptr ip hlen). assert (Lc : blen icmp = blen ip - hlen) by (subst icmp; rewrite blen_ptr by lia; lia).
  assert (Bc : bytes icmp) by (subst icmp; auto with relay).
  rewrite !READ_NET8_ok, !READ_NET16_ok, rdn_ok by lia. cbn [obind]. destruct (_ || _); [by eexists|].
  rewrite !ipv4_header_checksum_ok by (done || lia). cbn [obind]. by destruct (negb _); eexists.
Qed.

Lemma consume_reply_spec w frame len :
  bytes frame -> len <= blen frame ->
  wp (consume_wifi_delivery_reply frame len) (fun b w' => probe_frame w w' /\ trace w' = trace w /\
    is_probe_reply (lp_adapters (lp w)) (pc_ip (lp_packet_ctx (lp w))) (switch_dhcp (lp_switch (lp w))) (lp_probe (lp w))
      frame len = Ok b) w.
Proof.
  intros Hb Hl. apply (wp_respects probe_frame); [auto with respects|].
  unfold consume_wifi_delivery_reply. do 4 apply wp_bind, wp_gets.
  destruct (is_probe_reply_ok (lp_adapters (lp w)) (pc_ip (lp_packet_ctx (lp w))) (switch_dhcp (lp_switch (lp w)))
    (lp_probe (lp w)) frame len Hb Hl) as [b E]. apply wp_bind. eapply wp_lift; [exact E|].
  destruct b; [by apply wp_bind, wp_modify, wp_ret|by apply wp_ret].
Qed.
End Probe.

(** ** The local Switch *)

Section Learn.
Context (wm zm pm : list Z).

(** what a claim says of the frame it was found in *)
Record claims (frame : list Z) (len : Z) (ip : list Z) (direct : bool) : Prop := {
  cm_len : 34 <= len;
  cm_unicast : Z.land (getb frame 6) 1 = 0;
  cm_nonzero : field frame 6 6 <> NONE_MAC;
  cm_arp : be16 frame 12 = ETHER_TYPE_ARP -> 42 <= len /\ ip = field frame 28 4 /\ direct = true /\
    field frame 22 6 = field frame 6 6;
  cm_ipv4 : be16 frame 12 = ETHER_TYPE_IPV4 -> ip = field frame 26 4 /\
    20 <= ihl (ptr frame 14) /\ ihl (ptr frame 14) <= total_length (ptr frame 14) <= len - 14;
  cm_type : be16 frame 12 = ETHER_TYPE_ARP \/ be16 frame 12 = ETHER_TYPE_IPV4
}.

Lemma switch_claim_ok a frame len :
  bytes frame -> len <= blen frame ->
  exists c, switch_claim a frame len = Ok c /\ forall ip direct, c = Some (ip, direct) -> claims frame len ip direct.
Proof.
  intros Hb Hl. unfold switch_claim, ETHER_HEADER_LEN, ARP_LEN, IPV4_HEADER_LEN, ETHER_OFF_TYPE, ETHER_OFF_DST.
  destruct (Z.ltb_spec len 14); [by eexists|].
  rewrite READ_NET8_ok by lia. cbn [obind]. destruct (negb _) eqn:E6; [by eexists|]. bool_lia.
  rewrite rdn_ok by lia. cbn [obind]. destruct (CMP_MAC _ _) eqn:Ez; [by eexists|]. apply CMP_MAC_false in Ez.
  assert (Lb : blen (ptr frame 14) = blen frame - 14) by (rewrite blen_ptr by lia; lia).
  rewrite READ_NET16_ok by lia. cbn [obind]. destruct (Z.eqb_spec (be16 frame 12) ETHER_TYPE_ARP) as [Ea|Ea].
  - destruct (Z.ltb_spec len (14 + 28)); [by eexists|].
    unfold ARP_OFF_HARDWARE, ARP_OFF_PROTOCOL, ARP_OFF_OPCODE, ARP_OFF_SENDER_MAC, ARP_OFF_SENDER_IP.
    rewrite !READ_NET16_ok, !READ_NET8_ok, !rdn_ok by lia. cbn [obind].
    destruct (_ || _) eqn:E1; [by eexists|].
    assert (Hm : field frame 22 6 = field frame 6 6).
    { apply orb_false_iff in E1 as [_ E1]. apply negb_false_iff, CMP_MAC_spec in E1. by rewrite field_ptr in E1 by lia. }
    eexists. split; [done|]. intros ip direct [= <- <-]. rewrite field_ptr by lia.
    split; try done; [lia|by rewrite Ea|by left].
  - destruct (Z.eqb_spec (be16 frame 12) ETHER_TYPE_IPV4) as [Ei|Ei]; [|by eexists].
    destruct (Z.ltb_spec len (14 + 20)); [by eexists|]. unfold IPV4_OFF_TOTAL_LEN, IPV4_OFF_SRC, IPV4_OFF_DST.
    rewrite READ_NET8_ok by lia. cbn [obind]. destruct (negb _); [by eexists|].
    rewrite READ_NET16_ok by lia. cbn [obind]. fold (ihl (ptr frame 14)). change (be16 (ptr frame 14) 2) with (total_length (ptr frame 14)).
    destruct (_ || _) eqn:E1; [by eexists|]. bool_lia. rewrite !rdn_ok by lia. cbn [obind].
    eexists. split; [done|]. intros ip direct [= <- <-]. rewrite field_ptr by lia.
    split; try done. by right.
Qed.

Lemma claims_ip frame len ip direct :
  bytes frame -> len <= blen frame -> claims frame len ip direct -> blen ip = 4 /\ bytes ip.
Proof.
  intros Hb Hl Hc. pose proof (cm_len _ _ _ _ Hc). destruct (cm_type _ _ _ _ Hc) as [E|E].
  - destruct (cm_arp _ _ _ _ Hc E) as (? & -> & _). split; [apply blen_field; lia|auto with relay].
  - destruct (cm_ipv4 _ _ _ _ Hc E) as (-> & _). split; [apply blen_field; lia|auto with relay].
Qed.

(** the rest of the state around the learning of a Switch *)
Record kept (w w' : world) : Prop := {
  kp_relay : relay_frame w w';
  kp_guard : udp_guard (lp w') = udp_guard (lp w);
  kp_dhcp : dhcp_state (lp w') = dhcp_state (lp w)
}.
#[global] Instance kept_preorder : PreOrder kept.
Proof. split; [by split|]. intros w1 w2 w3 [] []. split; etrans; done. Qed.

(** the Switch after a claim was taken *)
Definition claimed (mac ip : list Z) (direct : bool) (s : switch_state) : switch_state :=
  s <| switch_ip := ip |> <| switch_mac := mac |> <| switch_seen := true |>
    <| switch_mac_confirmed ::= (fun c => c || direct) |>.

(** the last part of [learn_local_switch], for a MAC that is new *)
Definition adopt (mac ip : list Z) (dhcp : bool) : M unit :=
  arp_set WifiCtx mac ip ;;;
  setswitch (set switch_dhcp (fun _ => dhcp)) ;;;
  (if is_nintendo_mac mac then setswitch (set switch_nintendo_oui (fun _ => true)) else ret tt) ;;;
  probe_wifi_delivery ;;;
  let* diagnostics := option_of opt_diagnostics in
  let* status := option_of opt_status_events in
  if diagnostics || status then emit (SwitchDetected ip mac dhcp) else ret tt.

Definition same_console (s s' : switch_state) : Prop :=
  switch_seen s' = switch_seen s /\ switch_mac s' = switch_mac s /\ switch_ip s' = switch_ip s /\
  switch_mac_confirmed s' = switch_mac_confirmed s.

Lemma adopt_spec w mac ip dhcp :
  ready w wm zm pm -> switch_seen (lp_switch (lp w)) = true -> wf_switch (lp_switch (lp w)) ->
  blen mac = 6 -> blen ip = 4 ->
  wp (adopt mac ip dhcp) (fun _ w' => ready w' wm zm pm /\ same_console (lp_switch (lp w)) (lp_switch (lp w')) /\ kept w w') w.
Proof.
  intros Hr Hs Hw Lm Li. unfold adopt. apply wp_bind. eapply wp_mono; [by apply (arp_set_ready wm zm pm)|].
  intros _ w1 (Hf1 & Hr1 & _). apply wp_bind, wp_modify, wp_bind.
  eapply wp_mono with (P := fun _ w2 => ready w2 wm zm pm /\
    same_console (lp_switch (lp w)) (lp_switch (lp w2)) /\ kept w w2).
  { destruct (is_nintendo_mac mac); [apply wp_modify|apply wp_ret];
      (split_and!; [by eapply ready_same; [..|exact Hr1]|unfold same_console; cbn; by rewrite (nf_switch _ _ Hf1)|]);
      (split; cbn; [|apply Hf1|apply Hf1]; etrans; [by apply net_relay_frame|relay_frame_easy]). }
  intros _ w2 (Hr2 & (Es & Em & Ei & Ec) & Hk2). apply wp_bind.
  eapply wp_mono; [apply (probe_wifi_delivery_spec wm zm pm); [done|unfold wf_switch; rewrite Es, Em, Ei; exact Hw|congruence]|].
  intros _ w3 [Hf3 _]. do 2 apply wp_bind, wp_gets.
  assert (H3 : ready w3 wm zm pm /\ same_console (lp_switch (lp w)) (lp_switch (lp w3)) /\ kept w w3).
  { split_and!; [by eapply ready_probe|unfold same_console; by rewrite (pf_switch _ _ Hf3)|].
    etrans; [exact Hk2|]. split; [by apply probe_relay_frame|apply Hf3|apply Hf3]. }
  destruct H3 as (? & ? & [? ? ?]).
  destruct (_ || _); [apply wp_modify|by apply wp_ret]. split_and!; [by eapply ready_io; [|done]; io_frame_easy|done|].
  split; cbn; [|done|done]. etrans; [done|]. relay_frame_easy.
Qed.

Lemma learn_local_switch_spec w frame len :
  ready w wm zm pm -> wf_switch (lp_switch (lp w)) -> bytes frame -> len <= blen frame ->
  wp (learn_local_switch frame len) (fun b w' => ready w' wm zm pm /\ wf_switch (lp_switch (lp w')) /\ kept w w' /\
    (b = false -> w' = w) /\
    (b = true -> exists ip direct, claims frame len ip direct /\
      switch_seen (lp_switch (lp w')) = true /\ switch_ip (lp_switch (lp w')) = ip)) w.
Proof.
  intros Hr Hw Hb Hl. unfold learn_local_switch. do 2 apply wp_bind, wp_gets.
  destruct (switch_claim_ok (lp_adapters (lp w)) frame len Hb Hl) as (c & Hc & Hcl).
  assert (Hno : wp (ret false) (fun b w' => ready w' wm zm pm /\ wf_switch (lp_switch (lp w')) /\ kept w w' /\
    (b = false -> w' = w) /\ (b = true -> exists ip direct, claims frame len ip direct /\
      switch_seen (lp_switch (lp w')) = true /\ switch_ip (lp_switch (lp w')) = ip)) w) by (apply wp_ret; by split_and!).
  apply wp_bind. eapply wp_lift; [exact Hc|]. destruct c as [[ip direct]|]; [|exact Hno].
  specialize (Hcl ip direct eq_refl). destruct (negb _); [exact Hno|].
  pose proof (cm_len _ _ _ _ Hcl) as Hlen. destruct (claims_ip _ _ _ _ Hb Hl Hcl) as [Li Bi].
  apply wp_bind. eapply wp_lift; [apply rdn_ok; lia|]. set (mac := field frame 6 6).
  assert (Lm : blen mac = 6) by (apply blen_field; lia). assert (Bm : bytes mac) by (unfold mac; auto with relay).
  destruct (_ && _); [exact Hno|]. apply wp_bind, wp_gets.
  destruct (_ && negb _) eqn:Eip; [exact Hno|]. destruct (_ && _) eqn:Ecf in |- *.
  { assert (Hseen : switch_seen (lp_switch (lp w)) = true) by (by destruct (switch_seen _)).
    rewrite Hseen in Eip. apply wp_bind, wp_modify, wp_ret. cbn. destruct (CMP_IPV4 ip _) eqn:Ec.
    - apply CMP_IPV4_spec in Ec. split_and!; [by eapply ready_same; [..|exact Hr]|done|by split|done|].
      intros _. by exists ip, direct.
    - done. }
  apply wp_bind, wp_modify. fold (adopt mac ip (is_dhcp_candidate (lp_adapters (lp w)) ip)). set (w1 := w <| lp ::= _ |>).
  assert (Hr1 : ready w1 wm zm pm) by (by eapply ready_same; [..|exact Hr]).
  assert (Hw1 : wf_switch (lp_switch (lp w1))) by (intros _; by split_and!).
  assert (Hk1 : kept w w1) by (split; [relay_frame_easy|done|done]).
  apply wp_bind. eapply wp_mono with (P := fun _ w' => ready w' wm zm pm /\
    same_console (lp_switch (lp w1)) (lp_switch (lp w')) /\ kept w w').
  { destruct (negb (_ || _)); [apply wp_ret; by split_and!|].
    eapply wp_mono; [by apply adopt_spec|]. intros _ w' (? & ? & ?). split_and!; [done|done|by etrans]. }
  intros _ w' (? & (Es & Em & Ei & _) & ?). apply wp_ret. split_and!; try done.
  - intros _. rewrite Em, Ei. by split_and!.
  - intros _. exists ip, direct. by rewrite Es, Ei.
Qed.
End Learn.

(** ** The console that was found is kept *)

Record sticky (w w' : world) : Prop := {
  sk_seen : switch_seen (lp_switch (lp w)) = true -> switch_seen (lp_switch (lp w')) = true;
  sk_ip : switch_seen (lp_switch (lp w)) = true -> switch_ip (lp_switch (lp w')) = switch_ip (lp_switch (lp w));
  sk_confirmed : switch_mac_confirmed (lp_switch (lp w)) = true -> switch_mac_confirmed (lp_switch (lp w')) = true;
  sk_mac : switch_seen (lp_switch (lp w)) = true -> switch_mac_confirmed (lp_switch (lp w)) = true ->
    switch_mac (lp_switch (lp w')) = switch_mac (lp_switch (lp w))
}.
#[global] Instance sticky_preorder : PreOrder sticky.
Proof.
  split.
  - intros w. by split.
  - intros w1 w2 w3 [S1 I1 C1 M1] [S2 I2 C2 M2]. split; auto.
    + intros H. by rewrite I2, I1 by auto.
    + intros H H'. by rewrite M2, M1 by auto.
Qed.
Definition same_switch (w w' : world) : Prop := lp_switch (lp w') = lp_switch (lp w).
Lemma same_sticky w w' : same_switch w w' -> sticky w w'.
Proof. intros E. split; by rewrite E. Qed.
Lemma respects_same_sticky {A} (m : M A) : respects same_switch m -> respects sticky m.
Proof. apply respects_mono, same_sticky. Qed.
Lemma respects_net_switch {A} (m : M A) : respects net_frame m -> respects same_switch m.
Proof. apply respects_mono. by intros ? ? []. Qed.
Lemma respects_dhcp_switch {A} (m : M A) : respects dhcp_frame m -> respects same_switch m.
Proof. apply respects_mono. by intros ? ? []. Qed.
Lemma respects_probe_switch {A} (m : M A) : respects probe_frame m -> respects same_switch m.
Proof. apply respects_mono. by intros ? ? []. Qed.
Lemma respects_guard_switch {A} (m : M A) : respects guard_frame m -> respects same_switch m.
Proof. apply respects_mono. intros w w' Hg. by apply (guard_frame_field lp_switch). Qed.
Ltac same_switch_hint :=
  first [apply respects_net_switch; solve [auto with respects]
        |apply respects_dhcp_switch; solve [auto with respects]
        |apply respects_probe_switch; solve [auto with respects]
        |apply respects_guard_switch; solve [auto with respects]].
#[export] Hint Extern 4 (respects same_switch _) => same_switch_hint : respects.
#[export] Hint Extern 5 (respects sticky _) =>
  (apply respects_same_sticky; solve [auto with respects]) : respects.
#[export] Hint Extern 1 (sticky _ _) => (split; cbn; done) : respects_state.

Lemma relay_wifi_sticky f n : respects sticky (lan_play_relay_wifi_ipv4 f n).
Proof. unfold lan_play_relay_wifi_ipv4, uninit, setswitch, setlp, getlp. solve_respects. Qed.
Lemma relay_zerotier_sticky f n : respects sticky (lan_play_relay_zerotier_ipv4 f n).
Proof. unfold lan_play_relay_zerotier_ipv4, uninit, setswitch, setlp, getlp. solve_respects. Qed.
#[export] Hint Resolve relay_wifi_sticky relay_zerotier_sticky : respects.

Lemma adopt_sticky mac ip dhcp : respects sticky (adopt mac ip dhcp).
Proof. unfold adopt, setswitch, setlp, option_of, emit. solve_respects. Qed.

(** A claim is taken only from the address of the console that was seen, and
    replaces its MAC only while that was not confirmed. *)
Lemma learn_local_switch_sticky f n : respects sticky (learn_local_switch f n).
Proof.
  apply wlp_to_respects. intros w. unfold learn_local_switch. do 2 apply wlp_bind, wlp_gets.
  apply wlp_bind, wlp_lift. intros [[ip direct]|] _; [|by apply wlp_ret].
  destruct (negb _); [by apply wlp_ret|]. apply wlp_bind, wlp_lift. intros mac _.
  destruct (_ && _); [by apply wlp_ret|]. apply wlp_bind, wlp_gets. set (sw := lp_switch (lp w)).
  destruct (switch_seen sw && negb _) eqn:Ei; [by apply wlp_ret|].
  destruct (switch_seen sw && _ && _) eqn:Ec.
  { apply wlp_bind, wlp_modify, wlp_ret. by split. }
  apply wlp_bind, wlp_modify. fold (adopt mac ip (is_dhcp_candidate (lp_adapters (lp w)) ip)). set (w1 := w <| lp ::= _ |>).
  assert (H1 : sticky w w1).
  { destruct (switch_seen sw) eqn:Es; [|split; cbn; fold sw; [congruence..|by intros ->|congruence]].
    apply negb_false_iff, CMP_IPV4_spec in Ei. split; cbn; fold sw; [done|done|by intros ->|].
    intros _ Hc. rewrite Hc in Ec. cbn in Ec. rewrite andb_true_r in Ec. by apply negb_false_iff, CMP_MAC_spec in Ec. }
  clearbody w1. apply wlp_bind. apply wlp_run. intros [] w2 E2.
  assert (H2 : sticky w1 w2) by (destruct (negb _) in E2; [by injection E2 as ->|by apply adopt_sticky in E2]).
  apply wlp_ret. by etrans.
Qed.
#[export] Hint Resolve learn_local_switch_sticky : respects.

Lemma learn_overlay_peer_frame f n : respects net_frame (learn_overlay_peer f n).
Proof. unfold learn_overlay_peer, getlp. solve_respects. Qed.
#[export] Hint Resolve learn_overlay_peer_frame : respects.

Lemma pcap_handler_sticky h f mac : respects sticky (lan_play_pcap_handler h f mac).
Proof. unfold lan_play_pcap_handler, packet_set_mac, setctx, setlp. solve_respects. Qed.
Lemma zerotier_handler_sticky h f mac : respects sticky (lan_play_zerotier_pcap_handler h f mac).
Proof. unfold lan_play_zerotier_pcap_handler, packet_set_mac, setctx, setlp. solve_respects. Qed.
#[export] Hint Resolve pcap_handler_sticky zerotier_handler_sticky : respects.

(** ** Translation *)

(** the console's port-unreachable, as a predicate on the datagram *)
Definition unreachable (ip : list Z) (ip_len : Z) : bool :=
  (getb ip 9 =? 1) && (Z.land (be16 ip 6) 16383 =? 0) && (20 <=? ihl ip) && (ihl ip + 8 <=? ip_len) &&
  (getb ip (ihl ip) =? 3) && (getb ip (ihl ip + 1) =? 3).

Lemma is_port_unreachable_ok ip ip_len :
  20 <= blen ip -> ip_len <= blen ip -> is_port_unreachable ip ip_len = Ok (unreachable ip ip_len).
Proof.
  intros Hi Hl. unfold is_port_unreachable, unreachable, IPV4_OFF_VER_LEN, IPV4_OFF_FLAGS_FRAG_OFFSET, IPV4_OFF_PROTOCOL,
    IPV4_HEADER_LEN, IPV4_PROTOCOL_ICMP.
  rewrite !READ_NET8_ok, READ_NET16_ok by lia. cbn [obind]. fold (ihl ip). rewrite negb_involutive.
  destruct (_ && _) eqn:E; [|done]. bool_lia. pose proof (ihl_bound ip).
  rewrite !READ_NET8_ok by (rewrite blen_ptr by lia; lia). cbn [obind]. rewrite !getb_ptr, Z.add_0_r by lia.
  by destruct (_ =? 3).
Qed.
Lemma to_game_port_ok ip hl n : 20 <= blen ip -> 0 <= hl -> n <= blen ip -> exists b, to_game_port ip hl n = Ok b.
Proof.
  intros Hi Hh Hn. unfold to_game_port, IPV4_OFF_PROTOCOL, IPV4_OFF_FLAGS_FRAG_OFFSET.
  rewrite READ_NET8_ok, READ_NET16_ok by lia. cbn [obind]. destruct (negb _); [by eexists|]. cbn [obind].
  destruct (_ || _) eqn:E; [by eexists|]. bool_lia. rewrite READ_NET16_ok by lia. by eexists.
Qed.
(** the source port of a datagram: that of a UDP datagram, or of the first
    fragment of one, whose header is complete *)
Definition source_port (ip : list Z) : option Z :=
  if bool_decide (getb ip 9 = 17 /\ Z.land (be16 ip 6) 8191 = 0 /\ ihl ip + 8 <= total_length ip)
  then Some (be16 ip (ihl ip)) else None.

Lemma udp_source_port_ok ip :
  20 <= blen ip -> total_length ip <= blen ip -> udp_source_port ip (ihl ip) (total_length ip) = Ok (source_port ip).
Proof.
  intros Hi Hn. pose proof (ihl_bound ip). unfold udp_source_port, source_port, IPV4_OFF_PROTOCOL, IPV4_PROTOCOL_UDP, IPV4_OFF_FLAGS_FRAG_OFFSET.
  rewrite READ_NET8_ok, READ_NET16_ok by lia. cbn [obind].
  case_bool_decide as E; destruct (Z.eqb_spec (getb ip 9) 17); cbn [negb obind]; try done; try lia;
    destruct (Z.eqb_spec (Z.land (be16 ip 6) 8191) 0), (Z.leb_spec (ihl ip + 8) (total_length ip)); cbn; try done; try lia.
  by rewrite READ_NET16_ok by lia.
Qed.

Lemma source_port_bound ip q : bytes ip -> source_port ip = Some q -> 0 <= q <= 65535.
Proof.
  intros Hb. unfold source_port. case_bool_decide; [|done]. intros [= <-]. pose proof (be16_bound ip (ihl ip) Hb). lia.
Qed.

(** what is sent for a datagram with this source port: the frames, once the
    host holds the port; a datagram without one is always sent *)
Definition sent_if_held (port : option Z) (w w' : world) (fs : list (wire * nat * list Z)) : Prop :=
  match port with
  | None => trace w' = fs ++ trace w
  | Some q => (holds_port w q -> holds_port w' q) /\
      (holds_port w' q /\ trace w' = fs ++ trace w \/ ~ holds_port w' q /\ trace w' = trace w)
  end.

(** where the relay sends what the console sends to [d] *)
Definition overlay_target (a : adapters) (d : list Z) : option (list Z) :=
  if is_nintendo_lan_broadcast d then Some (zerotier_broadcast_ip a)
  else if is_zerotier_destination a d then Some d else None.

(** the datagrams of the console that the relay forwards, and to whom *)
Record forwardable (w : world) (frame : list Z) (n : Z) (dst : list Z) : Prop := {
  fw_seen : switch_seen (lp_switch (lp w)) = true;
  fw_len : 34 <= n;
  fw_src : field frame 26 4 = switch_ip (lp_switch (lp w));
  fw_fits : total_length (ptr frame 14) <= ETHER_MTU /\ 14 + total_length (ptr frame 14) <= n;
  fw_dst : overlay_target (lp_adapters (lp w)) (field frame 30 4) = Some dst;
  fw_icmp : unreachable (ptr frame 14) (total_length (ptr frame 14)) = false;
  fw_header : rewritable (field frame 14 (total_length (ptr frame 14))) (total_length (ptr frame 14))
}.

(** the datagram as it was captured *)
Definition datagram (frame : list Z) : list Z := field frame 14 (total_length (ptr frame 14)).

Definition guards_ok (w : world) : Prop := forall g, udp_guard (lp w) = Some g -> guard_ok g.

Lemma rdn_body frame k m :
  0 <= k -> 0 <= m -> 14 + k + m <= blen frame -> rdn (ptr frame 14) k m = Ok (field frame (14 + k) m).
Proof. intros. rewrite rdn_ok by (rewrite ?blen_ptr; lia). by rewrite field_ptr by lia. Qed.

Section Translate.
Context (wm zm pm : list Z).

(** the frames on the overlay, latest first *)
Definition overlay_frames (w : world) (t : Z) (dst p : list Z) : list (wire * nat * list Z) :=
  if CMP_IPV4 dst (zerotier_broadcast_ip (lp_adapters (lp w)))
  then [(ZeroTier, 0%nat, ether BROADCASE_MAC zm ETHER_TYPE_IPV4 p)]
  else zerotier_delivery zm w t dst p.

(** copying a datagram to the front of a frame buffer and rewriting it there *)
Lemma rewrite_copy b d src dst :
  bytes b -> blen b = 1500 -> bytes d -> 20 <= blen d <= 1500 -> bytes src -> bytes dst -> blen src = 4 -> blen dst = 4 ->
  wrn b 0 d = Ok (splice b 0 d) /\
  exists r b', rewrite_ipv4_addresses (splice b 0 d) (blen d) src dst = Ok (r, b') /\ blen b' = 1500 /\
    (r = true <-> rewritable d (blen d)) /\ (r = true -> readdressed d (field b' 0 (blen d)) src dst).
Proof.
  intros Bb Lb Bd Ld Bs Bt Ls Lt. split; [apply wrn_ok; lia|].
  set (q := splice b 0 d). assert (Lq : blen q = 1500) by (subst q; rewrite blen_splice; lia).
  assert (Bq : bytes q) by (subst q; auto with relay).
  assert (Eq : field q 0 (blen d) = d) by (apply field_splice_same; lia).
  assert (Er : rewritable q (blen d) <-> rewritable d (blen d)).
  { assert (E : rewritable (field q 0 (blen d)) (blen d) <-> rewritable d (blen d)) by (by rewrite Eq).
    rewrite <- E. unfold rewritable. by rewrite ihl_front, total_front by lia. }
  destruct (decide (rewritable q (blen d))) as [Hr|Hr].
  - destruct (rewrite_ok q src dst (blen d)) as (q' & Hq & Hre); [assumption || lia..|].
    exists true, q'. split_and!; [done|by rewrite (re_len _ _ _ _ Hre)|by rewrite <- Er|].
    intros _. rewrite <- Eq at 1. apply readdressed_front; done || lia.
  - exists false, q. rewrite rewrite_rejects by (assumption || lia). split_and!; [done|done|by rewrite <- Er|done].
Qed.

(** what follows the rewriting: reserve the source port, then send *)
Lemma forward_spec w t dst b port len :
  ready w wm zm pm -> stable_clock w t -> guards_ok w -> blen dst = 4 -> 20 <= len <= 1500 -> len <= blen b ->
  (forall q, port = Some q -> 0 <= q <= 65535) ->
  wp (let* rc := match port with Some port => native_udp_guard_reserve port | None => ret 0 end in
      if negb (rc =? 0) then ret true else
      (if CMP_IPV4 dst (zerotier_broadcast_ip (lp_adapters (lp w)))
       then lan_play_send_zerotier_ipv4_broadcast b len else lan_play_send_zerotier_ipv4 dst b len) ;;; ret true)
    (fun r w' => ready w' wm zm pm /\ guards_ok w' /\ relay_frame w w' /\ (same_switch w w' /\ same_leases w w') /\
      r = true /\ sent_if_held port w w' (overlay_frames w t dst (field b 0 len))) w.
Proof.
  intros Hr Hc Hg Ld Hl Hb Hq. apply wp_bind.
  eapply wp_mono with (P := fun rc w1 => guard_frame w w1 /\ guards_ok w1 /\
    match port with
    | None => rc = 0
    | Some q => (rc = 0 -> holds_port w1 q) /\ (rc <> 0 -> ~ holds_port w1 q) /\ (holds_port w q -> holds_port w1 q)
    end).
  { destruct port as [q|]; [|by apply wp_ret]. eapply wp_mono; [apply reserve_spec; [by apply Hq|done]|].
    intros rc w1 (Hf & Hok & H0 & H1 & H2). split_and!; [done..| |apply H2]. intros Hn. by apply H1. }
  intros rc w1 (Hf & Hg1 & Hp). assert (Hrel : relay_frame w w1) by (by apply guard_relay_frame).
  assert (Hsl : same_switch w w1 /\ same_leases w w1).
  { split; [by apply (guard_frame_field lp_switch)|by apply (guard_frame_field (fun l => leases (dhcp_state l)))]. }
  pose proof (ready_guard _ _ _ _ _ Hf Hr) as Hr1. destruct (negb (rc =? 0)) eqn:Erc; bool_lia.
  { apply wp_ret. split_and!; try apply Hsl; try done. destruct port as [q|]; [|done]. destruct Hp as (_ & Hp & Hk).
    split; [done|]. right. split; [by apply Hp|apply Hf]. }
  apply wp_bind. eapply wp_mono with (P := fun _ w' => ctx_frame w1 w' /\ ready w' wm zm pm /\
    trace w' = overlay_frames w t dst (field b 0 len) ++ trace w1).
  { unfold overlay_frames. destruct (CMP_IPV4 _ _).
    - eapply wp_mono; [apply (zerotier_broadcast_spec wm zm pm); done|]. by intros rc' w'.
    - eapply wp_mono; [apply (send_zerotier_ipv4_spec wm zm pm w1 t); try done; by eapply stable_relay|].
      intros rc' w' (? & ? & Ht). split_and!; try done. rewrite Ht. unfold zerotier_delivery.
      by rewrite (guard_frame_field zerotier_neighbors w w1), (guard_frame_field lp_adapters w w1). }
  intros rc' w' (Hf' & Hr' & Ht). apply wp_ret.
  assert (Eg : udp_guard (lp w') = udp_guard (lp w1)) by apply Hf'.
  assert (Hsl' : same_switch w w' /\ same_leases w w').
  { unfold same_switch, same_leases in *. by rewrite (cf_switch _ _ Hf'), (cf_dhcp _ _ Hf'). }
  split_and!; try apply Hsl'; try done.
  - intros g. rewrite Eg. apply Hg1.
  - etrans; [exact Hrel|]. by apply net_relay_frame, ctx_net_frame.
  - rewrite (gf_trace _ _ Hf) in Ht. destruct port as [q|]; [|done]. unfold sent_if_held, holds_port in *. rewrite Eg.
    destruct Hp as (Hh & _ & Hk). split; [done|]. left. split; [by apply Hh|done].
Qed.

(** The console's datagram: whatever the frame holds, the relay stays within
    it; a datagram it forwards is sent with the relay's overlay address, once
    the host holds its source port. *)
Lemma relay_wifi_ipv4_spec w t frame n :
  ready w wm zm pm -> stable_clock w t -> guards_ok w -> bytes frame -> n <= blen frame ->
  wp (lan_play_relay_wifi_ipv4 frame n) (fun b w' => ready w' wm zm pm /\ guards_ok w' /\ relay_frame w w' /\
    (same_console (lp_switch (lp w)) (lp_switch (lp w')) /\ same_leases w w') /\
    (b = false -> trace w' = trace w) /\
    forall dst, forwardable w frame n dst -> b = true /\ exists p,
      readdressed (datagram frame) p (zerotier_ip (lp_adapters (lp w))) dst /\
      sent_if_held (source_port (ptr frame 14)) w w' (overlay_frames w t dst p)) w.
Proof.
  intros Hr Hc Hg Hb Hn. set (Q := fun b w' => _).
  assert (Hno : forall b w', (forall dst, ~ forwardable w frame n dst) -> w' = w -> Q b w').
  { intros b w' Hf ->. split_and!; try done. intros dst Hd. by destruct (Hf dst). }
  unfold lan_play_relay_wifi_ipv4, ETHER_HEADER_LEN, IPV4_HEADER_LEN, IPV4_OFF_SRC, IPV4_OFF_DST, IPV4_OFF_TOTAL_LEN.
  set (ip := ptr frame 14). apply wp_bind, wp_gets.
  destruct (_ || _) eqn:E0; [apply wp_ret, Hno; [|done]; intros dst []; bool_lia; congruence || lia|].
  bool_lia. assert (Li : blen ip = blen frame - 14) by (subst ip; rewrite blen_ptr by lia; lia).
  assert (Bi : bytes ip) by (subst ip; auto with relay).
  apply wp_bind. eapply wp_lift; [apply rdn_body; lia|]. change (14 + 12) with 26.
  destruct (CMP_IPV4 (field frame 26 4) _) eqn:Es; cbn [negb];
    [|apply wp_ret, Hno; [|done]; intros dst []; by apply CMP_IPV4_false in Es].
  apply wp_bind. eapply wp_lift; [apply READ_NET16_ok; lia|]. set (len := be16 ip 2).
  assert (Hlen : 0 <= len < 65536) by (by apply be16_bound).
  apply wp_bind. eapply wp_lift; [apply rdn_body; lia|]. change (14 + 16) with 30. apply wp_bind, wp_gets. set (a := lp_adapters (lp w)).
  destruct (_ || _) eqn:E1.
  { apply wp_ret, Hno; [|done]. intros dst [_ _ _ F4 F5 _ _]. unfold overlay_target in F5. fold a in F5.
    change (total_length (ptr frame 14)) with len in F4.
    destruct (is_nintendo_lan_broadcast _), (is_zerotier_destination _ _); cbn in E1; bool_lia; try done; lia. }
  assert (Hfit : len <= 1500 /\ 14 + len <= n) by (unfold ETHER_MTU in *; bool_lia; lia).
  apply wp_bind. eapply wp_lift; [apply is_port_unreachable_ok; lia|].
  destruct (unreachable ip len) eqn:Eu.
  { apply wp_ret, Hno; [|done]. intros dst [_ _ _ _ _ F6 _]. change (unreachable ip len = false) in F6. congruence. }
  set (dst := if is_nintendo_lan_broadcast _ then _ else _).
  assert (Ht : overlay_target a (field frame 30 4) = Some dst).
  { unfold overlay_target, dst. destruct (is_nintendo_lan_broadcast _), (is_zerotier_destination _ _); try done.
    by rewrite orb_true_r in E1. }
  destruct (rd_adapters _ _ _ _ Hr) as [_ _ _ La _ Lc (Ba & Bc & _) _].
  assert (Hdst : blen dst = 4 /\ bytes dst).
  { subst dst. destruct (is_nintendo_lan_broadcast _); [done|]. split; [apply blen_field; lia|auto with relay]. }
  clearbody dst. clear E1. apply wp_uninit; [done|]. intros b Bb Lb. unfold ETHER_MTU in Lb.
  apply wp_bind. eapply wp_lift; [apply rdn_body; lia|]. change (14 + 0) with 14. set (d := field frame 14 len).
  assert (Ld : blen d = len) by (apply blen_field; lia). assert (Bd : bytes d) by (unfold d; auto with relay).
  apply wp_bind. eapply wp_lift; [apply wrn_ok; lia|].
  assert (Hrw : forall dst', forwardable w frame n dst' -> rewritable d len) by (by intros dst' [_ _ _ _ _ _ F7]).
  destruct (Z.ltb_spec len 20).
  { apply wp_bind. eapply wp_lift; [by apply rewrite_short|]. apply wp_ret, Hno; [|done].
    intros dst' (? & ? & ?)%Hrw. lia. }
  destruct (rewrite_copy b d (zerotier_ip a) dst) as (_ & r & b' & Hre & Lb' & Hiff & Hok); [assumption || lia || apply Hdst..|].
  rewrite Ld in *. apply wp_bind. eapply wp_lift; [exact Hre|]. cbv beta iota.
  destruct r; cbn [negb]; [|apply wp_ret, Hno; [|done]; intros dst' ?%Hrw%Hiff; done].
  specialize (Hok eq_refl). apply wp_bind. eapply wp_lift; [apply READ_NET8_ok; lia|]. fold (ihl ip).
  pose proof (ihl_bound ip). destruct (to_game_port_ok ip (ihl ip) len) as [game Hgame]; [lia..|]. apply wp_bind.
  eapply wp_lift with (a := if warned_broadcast_mismatch (lp_switch (lp w)) then false else game);
    [by destruct (warned_broadcast_mismatch _)|].
  apply wp_bind. eapply wp_mono with (P := fun _ w1 => w1 = w \/ w1 = w <| lp ::= set lp_switch (set warned_broadcast_mismatch (fun _ => true)) |>).
  { destruct (_ && negb _); [apply wp_modify; by right|apply wp_ret; by left]. }
  intros _ w1 Hw1. assert (Hf1 : relay_frame w w1) by (destruct Hw1 as [-> | ->]; [done|relay_frame_easy]).
  assert (Hr1 : ready w1 wm zm pm) by (destruct Hw1 as [-> | ->]; [done|by eapply ready_same; [..|exact Hr]]).
  assert (Et : trace w1 = trace w) by (by destruct Hw1 as [-> | ->]).
  assert (En : zerotier_neighbors (lp w1) = zerotier_neighbors (lp w)) by (by destruct Hw1 as [-> | ->]).
  assert (Eg1 : udp_guard (lp w1) = udp_guard (lp w)) by (by destruct Hw1 as [-> | ->]).
  assert (Hs1 : same_console (lp_switch (lp w)) (lp_switch (lp w1)) /\ same_leases w w1) by (by destruct Hw1 as [-> | ->]).
  assert (Hg1 : guards_ok w1) by (by destruct Hw1 as [-> | ->]). clear Hw1.
  apply wp_bind. eapply wp_lift; [apply udp_source_port_ok; [lia|change (len <= blen ip); lia]|]. unfold a. rewrite <- (rl_adapters _ _ Hf1).
  eapply wp_mono; [apply (forward_spec w1 t); (done || lia || apply Hdst || by eapply stable_relay) || by intros q; apply source_port_bound|].
  intros r w' (Hr' & Hg' & Hf' & [Hs' Hl'] & -> & Hh). unfold Q.
  rewrite Hs'. unfold same_leases in *. rewrite Hl'. destruct Hs1 as [Hs1 Hl1].
  split; [done|]. split; [done|]. split; [by etrans|]. split; [by split|]. split; [done|].
  intros dst' Hfw. split; [done|]. assert (dst' = dst) as -> by (destruct Hfw; fold a in fw_dst0; congruence).
  exists (field b' 0 len). split; [exact Hok|]. fold ip. revert Hh. unfold sent_if_held, holds_port.
  rewrite Et, Eg1. unfold overlay_frames, zerotier_delivery. by rewrite En, (rl_adapters _ _ Hf1).
Qed.
End Translate.

(** ** From the overlay *)

(** where a datagram from the overlay goes on the local network: address and
    Ethernet destination *)
Definition local_target (w : world) (d : list Z) : option (list Z * list Z) :=
  let a := lp_adapters (lp w) in
  let sw := lp_switch (lp w) in
  if CMP_IPV4 d (zerotier_broadcast_ip a) then Some (zerotier_broadcast_ip a, BROADCASE_MAC)
  else if CMP_IPV4 d (zerotier_ip a) || CMP_IPV4 d (switch_ip sw) then Some (switch_ip sw, switch_mac sw)
  else None.

Record deliverable (w : world) (frame : list Z) (n : Z) (dst mac : list Z) : Prop := {
  dl_seen : switch_seen (lp_switch (lp w)) = true;
  dl_len : 34 <= n;
  dl_fits : total_length (ptr frame 14) <= ETHER_MTU /\ 14 + total_length (ptr frame 14) <= n;
  dl_dst : local_target w (field frame 30 4) = Some (dst, mac);
  dl_header : rewritable (datagram frame) (total_length (ptr frame 14))
}.

(** the flags that record a warning *)
Definition warned_only (w w' : world) : Prop :=
  w' = w \/ w' = w <| lp ::= set lp_switch (set warned_direct_switch_delivery (fun _ => true)) |>.

Section Deliver.
Context (wm zm pm : list Z).

(** the frames on the local network, latest first: the datagram, then perhaps
    a delivery probe *)
Definition delivered_frames (w : world) (dst mac src : list Z) (frame : list Z) (w' : world) : Prop :=
  exists p, readdressed (datagram frame) p src dst /\
    let d := (Wifi, 0%nat, ether mac wm ETHER_TYPE_IPV4 p) in
    trace w' = d :: trace w \/
    exists f, probe_sent wm w (wifi_delivery_probe_payload (lp_probe (lp w'))) f /\
      trace w' = (Wifi, 0%nat, f) :: d :: trace w.

Lemma after_delivery w w1 frame len ip (go : bool) :
  ready w1 wm zm pm -> wf_switch (lp_switch (lp w1)) -> switch_seen (lp_switch (lp w1)) = true ->
  ip = ptr frame 14 -> 20 <= blen ip -> len <= blen ip -> kept w w1 -> same_console (lp_switch (lp w)) (lp_switch (lp w1)) ->
  wp (let? ver_len := READ_NET8 ip 0 in
      let header_len := Z.land ver_len 15 * 4 in
      let? game := (if go then to_game_port ip header_len len else Ok false) in
      (if game then probe_wifi_delivery else ret tt) ;;; ret true)
    (fun b w' => ready w' wm zm pm /\ same_console (lp_switch (lp w)) (lp_switch (lp w')) /\ kept w w' /\ b = true /\
      (trace w' = trace w1 \/ exists f, probe_sent wm w1 (wifi_delivery_probe_payload (lp_probe (lp w'))) f /\
        trace w' = (Wifi, 0%nat, f) :: trace w1)) w1.
Proof.
  intros Hr Hw Hs Ei Li Hl Hk Hc. apply wp_bind. eapply wp_lift; [apply READ_NET8_ok; lia|]. fold (ihl ip).
  pose proof (ihl_bound ip). destruct (to_game_port_ok ip (ihl ip) len) as [game Hg]; [lia..|]. apply wp_bind.
  eapply wp_lift with (a := if go then game else false); [by destruct go|]. apply wp_bind.
  destruct (if go then game else false); [|apply wp_ret, wp_ret; split_and!; auto].
  eapply wp_mono; [by apply (probe_wifi_delivery_spec wm zm pm)|]. intros _ w' [Hf Ht]. apply wp_ret.
  split_and!; [by eapply ready_probe|by rewrite (pf_switch _ _ Hf)| |done|].
  - etrans; [exact Hk|]. split; [by apply probe_relay_frame|apply Hf|apply Hf].
  - destruct (wifi_delivery_probe_sent _); [left; by rewrite Ht|right]. destruct Ht as (_ & f & ? & ?). by exists f.
Qed.

Lemma probe_sent_same w w1 payload f :
  switch_dhcp (lp_switch (lp w1)) = switch_dhcp (lp_switch (lp w)) -> same_console (lp_switch (lp w)) (lp_switch (lp w1)) ->
  relay_frame w w1 -> probe_sent wm w1 payload f -> probe_sent wm w payload f.
Proof.
  intros Ed (_ & Em & Ei & _) [Hc Ha _ _ _ _]. unfold probe_sent. injection Hc as Hc _ _.
  by rewrite Ed, Em, Ei, Ha, Hc.
Qed.

(** the translation of a datagram that is to be delivered *)
Lemma deliver_spec w w1 frame len (bc : bool) dst mac :
  ready w wm zm pm -> wf_switch (lp_switch (lp w)) -> switch_seen (lp_switch (lp w)) = true ->
  bytes frame -> 34 <= blen frame -> len = total_length (ptr frame 14) -> len <= 1500 -> 14 + len <= blen frame ->
  blen dst = 4 -> bytes dst -> blen mac = 6 -> warned_only w w1 ->
  wp (let* translated := uninit ETHER_MTU in
      let? datagram := rdn (ptr frame 14) 0 len in
      let? translated := wrn translated 0 datagram in
      let? src := rdn (ptr frame 14) 12 4 in
      let? '(ok, translated) := rewrite_ipv4_addresses translated len src dst in
      if negb ok then ret false else
      let* rc := lan_play_send_wifi_ipv4 mac translated len in
      let? ver_len := READ_NET8 (ptr frame 14) 0 in
      let header_len := Z.land ver_len 15 * 4 in
      let? game := (if (rc =? 0) && negb bc then to_game_port (ptr frame 14) header_len len else Ok false) in
      (if game then probe_wifi_delivery else ret tt) ;;; ret true)
    (fun b w' => if b then rewritable (datagram frame) len /\ ready w' wm zm pm /\ kept w w' /\
        same_console (lp_switch (lp w)) (lp_switch (lp w')) /\ delivered_frames w dst mac (field frame 26 4) frame w'
      else ~ rewritable (datagram frame) len /\ w' = w1) w1.
Proof.
  intros Hr Hw Hs Bf Lf El Hl1 Hl2 Ld Bd Lm Hx.
  assert (Hlen : 0 <= len < 65536) by (subst len; apply be16_bound; auto with relay).
  assert (Lip : blen (ptr frame 14) = blen frame - 14) by (rewrite blen_ptr by lia; lia).
  assert (Hk : kept w w1) by (destruct Hx as [-> | ->]; [done|]; split; [relay_frame_easy|done|done]).
  assert (Hr1 : ready w1 wm zm pm) by (destruct Hx as [-> | ->]; [done|by eapply ready_same; [..|exact Hr]]).
  assert (Hc1 : same_console (lp_switch (lp w)) (lp_switch (lp w1)) /\
    switch_dhcp (lp_switch (lp w1)) = switch_dhcp (lp_switch (lp w)) /\ trace w1 = trace w) by (by destruct Hx as [-> | ->]).
  destruct Hc1 as (Hc1 & Ed1 & Et1). apply wp_uninit; [done|]. intros b Bb Lb. unfold ETHER_MTU in Lb.
  apply wp_bind. eapply wp_lift; [apply rdn_body; lia|]. change (14 + 0) with 14.
  assert (Ed : field frame 14 len = datagram frame) by (unfold datagram; congruence). rewrite Ed.
  assert (Lg : blen (datagram frame) = len) by (rewrite <- Ed; apply blen_field; lia).
  assert (Bg : bytes (datagram frame)) by (rewrite <- Ed; auto with relay).
  apply wp_bind. eapply wp_lift; [apply wrn_ok; lia|].
  apply wp_bind. eapply wp_lift; [apply rdn_body; lia|]. change (14 + 12) with 26.
  destruct (Z.ltb_spec len 20).
  { apply wp_bind. eapply wp_lift; [by apply rewrite_short|]. apply wp_ret. split; [|done]. intros (? & ? & ?). lia. }
  destruct (rewrite_copy b (datagram frame) (field frame 26 4) dst) as (_ & r & b' & Hre & Lb' & Hiff & Hok);
    [assumption || lia || auto with relay..|apply blen_field; lia|assumption|].
  rewrite Lg in *. apply wp_bind. eapply wp_lift; [exact Hre|]. cbv beta iota.
  destruct r; cbn [negb]; [|apply wp_ret; split; [|done]; intros ?%Hiff; done]. specialize (Hok eq_refl).
  apply wp_bind. eapply wp_mono; [apply (send_wifi_ipv4_spec wm zm pm); try done; unfold ETHER_MTU; lia|].
  intros rc w2 (Hio & Hr2 & Ht2). destruct Hc1 as (Es & Em & Ei & Ec).
  assert (Hc2 : same_console (lp_switch (lp w)) (lp_switch (lp w2))) by (unfold same_console; by rewrite (io_switch _ _ Hio)).
  assert (Hk2 : kept w w2).
  { etrans; [exact Hk|]. split; [by apply net_relay_frame, ctx_net_frame, io_ctx_frame|apply Hio|apply Hio]. }
  eapply wp_mono; [apply (after_delivery w w2 frame len (ptr frame 14)); try done|].
  - unfold wf_switch. by rewrite (io_switch _ _ Hio), Es, Em, Ei.
  - rewrite (io_switch _ _ Hio). congruence.
  - lia.
  - lia.
  - intros r w' (Hr' & Hc' & Hk' & -> & Ht). split_and!; try done; [by apply Hiff|].
    exists (field b' 0 len). split; [done|]. rewrite Ht2, Et1 in Ht. destruct Ht as [Ht|(f & Hp & Ht)]; [by left|right].
    exists f. split; [|done]. eapply (probe_sent_same w w2); [|done|apply Hk2|done]. by rewrite (io_switch _ _ Hio).
Qed.

Lemma relay_zerotier_ipv4_spec w frame n :
  ready w wm zm pm -> wf_switch (lp_switch (lp w)) -> bytes frame -> n <= blen frame ->
  wp (lan_play_relay_zerotier_ipv4 frame n) (fun b w' => ready w' wm zm pm /\ kept w w' /\
    same_console (lp_switch (lp w)) (lp_switch (lp w')) /\ (b = false -> trace w' = trace w) /\
    forall dst mac, deliverable w frame n dst mac ->
      b = true /\ delivered_frames w dst mac (field frame 26 4) frame w') w.
Proof.
  intros Hr Hw Hb Hn. set (Q := fun b w' => _).
  assert (Hno : forall b w', (forall dst mac, ~ deliverable w frame n dst mac) -> warned_only w w' -> Q b w').
  { intros b w' Hf Hx. assert (Hk : kept w w') by (destruct Hx as [-> | ->]; [done|]; split; [relay_frame_easy|done|done]).
    split_and!; try done; try (by destruct Hx as [-> | ->]); [|intros dst mac Hd; by destruct (Hf dst mac)].
    destruct Hx as [-> | ->]; [done|]. by eapply ready_same; [..|exact Hr]. }
  unfold lan_play_relay_zerotier_ipv4, ETHER_HEADER_LEN, IPV4_HEADER_LEN, IPV4_OFF_SRC, IPV4_OFF_DST, IPV4_OFF_TOTAL_LEN.
  set (ip := ptr frame 14). apply wp_bind, wp_gets.
  destruct (_ || _) eqn:E0; [apply wp_ret, Hno; [|by left]; intros ? ? []; bool_lia; congruence || lia|].
  bool_lia. assert (Li : blen ip = blen frame - 14) by (subst ip; rewrite blen_ptr by lia; lia).
  assert (Bi : bytes ip) by (subst ip; auto with relay).
  apply wp_bind. eapply wp_lift; [apply READ_NET16_ok; lia|]. set (len := be16 ip 2).
  assert (Hlen : 0 <= len < 65536) by (by apply be16_bound).
  apply wp_bind. eapply wp_lift; [apply rdn_body; lia|]. change (14 + 16) with 30. apply wp_bind, wp_gets.
  set (a := lp_adapters (lp w)). set (bc := CMP_IPV4 (field frame 30 4) (zerotier_broadcast_ip a)).
  destruct (_ || _) eqn:E1.
  { apply wp_ret, Hno; [|by left]. intros dst mac [_ _ F3 F4 _]. unfold local_target in F4. fold a in F4. fold bc in F4.
    change (total_length (ptr frame 14)) with len in F3.
    destruct bc, (CMP_IPV4 _ (zerotier_ip a)), (CMP_IPV4 _ _); cbn in *; bool_lia; try done; lia. }
  assert (Hfit : len <= 1500 /\ 14 + len <= n) by (unfold ETHER_MTU in *; bool_lia; lia).
  set (dst := if bc then zerotier_broadcast_ip a else switch_ip (lp_switch (lp w))).
  set (mac := if bc then BROADCASE_MAC else switch_mac (lp_switch (lp w))).
  assert (Ht : local_target w (field frame 30 4) = Some (dst, mac)).
  { unfold local_target. fold a. fold bc. subst dst mac. destruct bc; [done|]. cbn in E1.
    destruct (CMP_IPV4 _ (zerotier_ip a)); [done|]. destruct (CMP_IPV4 _ _); [done|]. by rewrite orb_true_r in E1. }
  clear E1. destruct (Hw H) as (Lm & Lsi & Bm & Bsi).
  destruct (rd_adapters _ _ _ _ Hr) as [_ _ _ La _ Lc (Ba & Bc & _) _].
  assert (Hd : blen dst = 4 /\ bytes dst) by (subst dst; by destruct bc).
  assert (Hm : blen mac = 6) by (subst mac; by destruct bc).
  apply wp_bind. eapply wp_mono with (P := fun _ w1 => warned_only w w1).
  { destruct (_ && _); [apply wp_modify; by right|apply wp_ret; by left]. }
  intros _ w1 Hx. eapply wp_mono; [apply (deliver_spec w w1 frame len bc dst mac); done || lia || apply Hd|].
  intros b w'. destruct b.
  - intros (_ & ? & ? & ? & Hdl). split_and!; try done. intros dst' mac' [_ _ _ F4 _].
    rewrite F4 in Ht. by injection Ht as -> ->.
  - intros [Hrw ->]. by apply Hno; [intros ? ? []|].
Qed.
End Deliver.

(** ** The handlers are safe *)

(** the invariant of the running relay: both adapters are open, the tables and
    the Switch record are well formed, the lease table and the list of host
    ports are consistent *)
Record relay_ok (wm zm : list Z) (w : world) : Prop := {
  ok_ready : exists pm, ready w wm zm pm;
  ok_switch : wf_switch (lp_switch (lp w));
  ok_guards : guards_ok w;
  ok_net : dhcp_net_ok w;
  ok_leases : leases_ok w;
  ok_zerotier : opt_zerotier_if (options w) = true;
  ok_stack : stack_output_ok (environment w);
  ok_subnet : blen (subnet_net (lp_packet_ctx (lp w))) = 4
}.

Lemma leases_relay w w' :
  relay_frame w w' -> same_leases w w' -> dhcp_net_ok w -> leases_ok w -> dhcp_net_ok w' /\ leases_ok w'.
Proof.
  intros [Hc Ha Hi Ho He Ht] Hs Hn Hok. injection Hc as Hc _ _. split.
  - destruct Hn. split; try congruence. unfold monotone_clock. by rewrite He.
  - unfold leases_ok in *. rewrite Ha, Hc, Hs. eapply lease_ok_later; [|exact Hok].
    unfold now_of. rewrite He. apply (dn_mono _ Hn). lia.
Qed.

(** one step of a handler *)
Lemma relay_ok_step wm zm pm w w' :
  relay_frame w w' -> ready w' wm zm pm -> wf_switch (lp_switch (lp w')) -> guards_ok w' -> same_leases w w' ->
  relay_ok wm zm w -> relay_ok wm zm w'.
Proof.
  intros Hf Hr Hw Hg Hs []. destruct (leases_relay w w') as [? ?]; [done..|]. destruct Hf. split; try done.
  - by exists pm.
  - congruence.
  - by rewrite rl_env0.
  - injection rl_ctx0 as _ -> _. done.
Qed.
Lemma relay_ok_net wm zm pm w w' : net_frame w w' -> ready w' wm zm pm -> relay_ok wm zm w -> relay_ok wm zm w'.
Proof.
  intros Hf Hr Hok. pose proof Hok as [_ Hw Hg _ _ _ _ _]. apply (relay_ok_step _ _ pm w); try done.
  - by apply net_relay_frame.
  - by rewrite (nf_switch _ _ Hf).
  - unfold guards_ok. by rewrite (nf_guard _ _ Hf).
  - unfold same_leases. by rewrite (nf_dhcp _ _ Hf).
Qed.

Lemma relay_ok_io wm zm w w' : io_frame w w' -> relay_ok wm zm w -> relay_ok wm zm w'.
Proof.
  intros Hf Hok. pose proof Hok as [[pm Hr] Hw Hg _ _ _ _ _]. apply (relay_ok_step _ _ pm w); try done.
  - by apply net_relay_frame, ctx_net_frame, io_ctx_frame.
  - by eapply ready_io.
  - by rewrite (io_switch _ _ Hf).
  - unfold guards_ok. by rewrite (io_guard _ _ Hf).
  - unfold same_leases. by rewrite (io_dhcp _ _ Hf).
Qed.

Lemma get_packet_tables c h p : respects (stays wf_tables) (get_packet c h p).
Proof.
  unfold get_packet, print_packet, setctx, setlp, emit.
  assert (H := process_ether_tables c). destruct c; repeat respects_step; try (by intros [? ?]); apply H.
Qed.

(** what the hypotheses of the handlers say of a captured frame: [n] bytes of
    it were captured, none was cut off, and the buffer of the capture library
    reaches beyond them by one IPv4 header *)
Record captured (f : list Z) (n : Z) : Prop := {
  cp_bytes : bytes f;
  cp_len : 0 <= n <= 1514;
  cp_room : n + 60 <= blen f;
  cp_udp : be16 f 12 = ETHER_TYPE_IPV4 -> udp_captured (ptr f 14) (n - 14)
}.

(** a frame whose headers state no more than was captured *)
Record honest (f : list Z) (n : Z) : Prop := {
  hf_arp : be16 f 12 = ETHER_TYPE_ARP -> 42 <= n;
  hf_ipv4 : be16 f 12 = ETHER_TYPE_IPV4 -> 34 <= n /\ 20 <= ihl (ptr f 14) <= total_length (ptr f 14) /\ total_length (ptr f 14) <= n - 14
}.
Lemma claims_honest f n ip direct : claims f n ip direct -> honest f n.
Proof. intros Hcl. split; intros E; [apply (cm_arp _ _ _ _ Hcl E)|]. pose proof (cm_len _ _ _ _ Hcl). destruct (cm_ipv4 _ _ _ _ Hcl E) as (? & ? & ?). lia. Qed.

Lemma process_honest wm zm mac w t f n :
  ready w wm zm mac -> stable_clock w t -> stack_output_ok (environment w) ->
  opt_zerotier_if (options w) = true -> captured f n -> 14 <= n -> honest f n ->
  wp (get_packet WifiCtx (mkPkthdr n n) f) (fun _ w' => net_frame w w' /\ ready w' wm zm mac) w.
Proof.
  intros Hr Hc Ho Hz [Hb Hn Hroom Hu] H14 [Ha H4]. eapply wp_mono.
  - apply (wp_net _ (fun _ _ => True)); [auto with respects|apply get_packet_tables|exact Hr|].
    apply (get_packet_total wm zm mac w t); try done; [lia|lia|].
    intros E. split; [|by apply Hu]. destruct (H4 E) as (? & ? & ?). split; [done|lia|lia|lia].
  - by intros _ w' (? & ? & _).
Qed.

Lemma ready_set_mac w wm zm pm mac :
  ready w wm zm pm -> blen mac = 6 -> ready (w <| lp ::= upd_ctx WifiCtx (set pc_mac (fun _ => Some mac)) |>) wm zm mac.
Proof. intros [[] ? ? ? ? ? [] ?] Hm. by split. Qed.

Lemma wf_same_console s s' : same_console s s' -> wf_switch s -> wf_switch s'.
Proof. intros (Es & Em & Ei & _) Hw. unfold wf_switch. by rewrite Es, Em, Ei. Qed.

(** the part of the Wi-Fi handler after the Switch was learned *)
Lemma wifi_forward_ok wm zm pm w t f n mac ip direct :
  relay_ok wm zm w -> ready w wm zm pm -> stable_clock w t -> ingress_zerotier (lp w) = false -> blen mac = 6 ->
  captured f n -> claims f n ip direct ->
  wp (packet_set_mac WifiCtx mac ;;;
      let* relayed :=
        (if n <? ETHER_HEADER_LEN + IPV4_HEADER_LEN then ret false else
         let? type := READ_NET16 f ETHER_OFF_TYPE in
         if type =? ETHER_TYPE_IPV4 then lan_play_relay_wifi_ipv4 f (u16 n) else ret false) in
      if relayed then ret tt else get_packet WifiCtx (mkPkthdr n n) f) (fun _ w' => relay_ok wm zm w') w.
Proof.
  intros Hok Hr Hc Hi Lm Hcap Hcl. pose proof Hcap as [Hb Hn Hroom _]. apply wp_bind, wp_modify. set (w1 := w <| lp ::= _ |>).
  assert (Hr1 : ready w1 wm zm mac) by (by eapply ready_set_mac).
  assert (Hf1 : relay_frame w w1) by relay_frame_easy.
  assert (Hok1 : relay_ok wm zm w1) by (apply (relay_ok_step _ _ mac w); try done; apply Hok).
  pose proof (stable_relay _ _ _ Hf1 Hc) as Hc1. clearbody w1. rewrite <- (rl_ingress _ _ Hf1) in Hi.
  pose proof Hok1 as [_ Hw1 Hg1 _ _ Hz1 Hst1 _].
  apply wp_bind. eapply wp_mono with (P := fun _ w2 => relay_ok wm zm w2 /\ ready w2 wm zm mac /\ relay_frame w1 w2).
  { unfold ETHER_HEADER_LEN, IPV4_HEADER_LEN, ETHER_OFF_TYPE.
    destruct (n <? 14 + 20); [by apply wp_ret|]. apply wp_bind. eapply wp_lift; [apply READ_NET16_ok; lia|].
    destruct (_ =? _); [|by apply wp_ret]. rewrite u16_small by lia.
    eapply wp_mono; [apply (relay_wifi_ipv4_spec wm zm mac w1 t); done || lia|].
    intros b w2 (Hr2 & Hg2 & Hf2 & [Hs2 Hl2] & _). split_and!; [|done|done].
    apply (relay_ok_step _ _ mac w1); try done. by eapply wf_same_console. }
  intros relayed w2 (Hok2 & Hr2 & Hf2). destruct relayed; [by apply wp_ret|].
  pose proof Hok2 as [_ Hw2 Hg2 _ _ Hz2 Hst2 _].
  eapply wp_mono; [eapply (process_honest wm zm mac w2 t); try done; [by eapply stable_relay|destruct Hcl; lia|by eapply claims_honest]|].
  intros _ w3 [Hf3 Hr3]. by apply (relay_ok_net _ _ mac w2).
Qed.

Lemma consume_ok wm zm w f n :
  relay_ok wm zm w -> captured f n -> 14 <= n ->
  wp (dhcp_server_consume f n) (fun _ w' => relay_ok wm zm w' /\ relay_frame w w' /\ only_wifi w w') w.
Proof.
  intros Hok [Hb Hn Hroom _] Hl. pose proof Hok as [[pm Hr] Hw Hg Hnet Hls Hz Hst Hsn]. eapply wp_mono.
  - apply (wp_respects dhcp_frame); [auto with respects|]. by eapply dhcp_server_consume_total.
  - intros _ w' (Hf & Hr' & Hn' & Hl' & Ho). split_and!; [|by apply dhcp_relay_frame|done].
    split; try done.
    + by exists pm.
    + by rewrite (df_switch _ _ Hf).
    + unfold guards_ok. by rewrite (df_guard _ _ Hf).
    + by rewrite (df_options _ _ Hf).
    + by rewrite (df_env _ _ Hf).
    + by rewrite (df_ctx _ _ Hf).
Qed.

Lemma reply_ok wm zm w f n :
  relay_ok wm zm w -> bytes f -> n <= blen f ->
  wp (consume_wifi_delivery_reply f n) (fun _ w' => relay_ok wm zm w' /\ relay_frame w w') w.
Proof.
  intros Hok Hb Hn. pose proof Hok as [[pm Hr] Hw Hg _ _ _ _ _].
  eapply wp_mono; [by apply consume_reply_spec|]. intros b w' (Hf & _ & _).
  pose proof (probe_relay_frame _ _ Hf) as Hrel. split; [|done].
  apply (relay_ok_step _ _ pm w); try done.
  - by eapply ready_probe.
  - by rewrite (pf_switch _ _ Hf).
  - unfold guards_ok. by rewrite (pf_guard _ _ Hf).
  - unfold same_leases. by rewrite (pf_dhcp _ _ Hf).
Qed.

Lemma relay_ok_ingress wm zm w b : relay_ok wm zm w -> relay_ok wm zm (w <| lp ::= set ingress_zerotier (fun _ => b) |>).
Proof.
  intros [[pm Hr] ? ? Hn ? ? ? ?]. split; try done; [exists pm; by eapply ready_same; [..|exact Hr]|].
  destruct Hn. by split.
Qed.

Lemma overlay_peer_ok f n : bytes f -> 14 <= n -> n <= blen f ->
  exists p, overlay_peer f n = Ok p /\ forall ip, p = Some ip -> blen ip = 4.
Proof.
  intros Hb H14 Hn. unfold overlay_peer, ETHER_HEADER_LEN, ETHER_OFF_TYPE, IPV4_HEADER_LEN, ARP_LEN, IPV4_OFF_SRC, ARP_OFF_HARDWARE,
    ARP_OFF_PROTOCOL, ARP_OFF_SENDER_MAC, ARP_OFF_SENDER_IP, ETHER_OFF_SRC.
  assert (Lb : blen (ptr f 14) = blen f - 14) by (rewrite blen_ptr; lia).
  assert (H4 : forall i, 0 <= i -> i + 4 <= blen (ptr f 14) -> exists p, Ok (Some (field (ptr f 14) i 4)) = Ok p /\ forall ip, p = Some ip -> blen ip = 4).
  { intros i Hi Hl. eexists. split; [done|]. intros ip [= <-]. apply blen_field; lia. }
  rewrite READ_NET16_ok by lia. cbn [obind].
  destruct ((_ =? ETHER_TYPE_IPV4) && _) eqn:E1; [|destruct ((_ =? ETHER_TYPE_ARP) && _) eqn:E2].
  - bool_lia. rewrite READ_NET8_ok by lia. cbn [obind]. destruct (_ =? 4); [|by exists None].
    rewrite rdn_ok by lia. cbn [obind]. apply H4; lia.
  - clear E1. bool_lia. rewrite !READ_NET16_ok, !READ_NET8_ok, !rdn_ok by lia. cbn [obind]. destruct (_ && _); [|by exists None]. apply H4; lia.
  - by exists None.
Qed.

Lemma learn_overlay_ok wm zm w f n : relay_ok wm zm w -> bytes f -> 14 <= n -> n <= blen f ->
  wp (learn_overlay_peer f n) (fun _ w' => relay_ok wm zm w' /\ relay_frame w w') w.
Proof.
  intros Hok Hb H14 Hn. unfold learn_overlay_peer. destruct (overlay_peer_ok f n) as (p & -> & Hp); [done..|].
  apply wp_bind. eapply wp_lift; [done|]. destruct p as [ip|]; [|by apply wp_ret]. specialize (Hp ip eq_refl).
  apply wp_bind, wp_gets, wp_bind. eapply wp_lift; [apply rdn_ok; unfold ETHER_OFF_SRC; lia|].
  destruct (_ && _); [|by apply wp_ret]. apply wp_bind. pose proof Hok as [[pm Hr] _ _ _ _ _ _ _].
  assert (L6 : blen (field f ETHER_OFF_SRC 6) = 6) by (apply blen_field; unfold ETHER_OFF_SRC; lia).
  eapply wp_mono; [by apply (arp_set_ready wm zm pm)|]. intros r w' (Hf & Hr' & _). apply wp_ret.
  split; [by apply (relay_ok_net wm zm pm w)|by apply net_relay_frame].
Qed.

Lemma overlay_relay_ok wm zm pm w f n : relay_ok wm zm w -> ready w wm zm pm -> captured f n -> 14 <= n ->
  wp (if n <? ETHER_HEADER_LEN + IPV4_HEADER_LEN then ret false else
      let? type := READ_NET16 f ETHER_OFF_TYPE in
      if type =? ETHER_TYPE_IPV4 then lan_play_relay_zerotier_ipv4 f (u16 n) else ret false)
    (fun _ w' => relay_ok wm zm w' /\ ready w' wm zm pm /\ relay_frame w w') w.
Proof.
  intros Hok Hr [Hb Hn Hroom _] H14. destruct (_ <? _); [by apply wp_ret|]. apply wp_bind.
  eapply wp_lift; [apply READ_NET16_ok; unfold ETHER_OFF_TYPE; lia|]. destruct (_ =? _); [|by apply wp_ret].
  rewrite u16_small by lia. pose proof Hok as [_ Hw Hg _ _ _ _ _].
  eapply wp_mono; [apply (relay_zerotier_ipv4_spec wm zm pm w f n); done || lia|].
  intros b w' (Hr' & [Hk Eg Ed] & Hs & _). split_and!; [|done|done].
  apply (relay_ok_step _ _ pm w); try done; [by eapply wf_same_console|unfold guards_ok; by rewrite Eg|unfold same_leases; congruence].
Qed.

(** ** Properties *)

(** The Wi-Fi handler takes every captured frame, from the console or
    anyone else, to its end: it reads and writes only memory that is there,
    fails no assertion, and keeps the invariant of the relay. *)
Lemma wifi_handler_ok wm zm w t f n mac :
  relay_ok wm zm w -> stable_clock w t -> blen mac = 6 -> captured f n ->
  wp (lan_play_pcap_handler (mkPkthdr n n) f mac) (fun _ w' => relay_ok wm zm w') w.
Proof.
  intros Hok Hc Lm Hcap. pose proof Hcap as [Hb Hn Hroom _].
  unfold lan_play_pcap_handler, ETHER_OFF_SRC. cbn [pkt_caplen]. unfold ETHER_HEADER_LEN at 1.
  destruct (Z.ltb_spec n 14); [by apply wp_ret|]. apply wp_bind. eapply wp_lift; [apply rdn_ok; lia|].
  destruct (CMP_MAC _ _).
  { eapply wp_mono; [apply diagnostic_log_frame_spec; lia|]. intros _ w' [Hf _]. by eapply relay_ok_io. }
  apply wp_bind, wp_modify. set (w1 := w <| lp ::= _ |>).
  assert (Hok1 : relay_ok wm zm w1) by (by apply relay_ok_ingress).
  assert (Hc1 : stable_clock w1 t) by done. assert (Hi1 : ingress_zerotier (lp w1) = false) by done. clearbody w1.
  apply wp_bind. eapply wp_mono; [apply diagnostic_count_rx_spec; lia|]. intros _ w2 [Hf2 _].
  apply wp_bind. eapply wp_mono; [apply diagnostic_log_frame_spec; lia|]. intros _ w3 [Hf3 _].
  assert (Hf : io_frame w1 w3) by (by etrans). pose proof (relay_ok_io _ _ _ _ Hf Hok1) as Hok3.
  pose proof (stable_io _ _ _ Hf Hc1) as Hc3. rewrite <- (io_ingress _ _ Hf) in Hi1. clear Hf Hf2 Hf3.
  apply wp_bind. eapply wp_mono; [apply reply_ok; done || lia|]. intros r w4 [Hok4 Hf4]. destruct r; [by apply wp_ret|].
  apply wp_bind. eapply wp_mono; [by apply consume_ok|]. intros r w5 (Hok5 & Hf5 & _). destruct r; [by apply wp_ret|].
  assert (Hf : relay_frame w3 w5) by (by etrans). rewrite <- (rl_ingress _ _ Hf) in Hi1.
  pose proof (stable_relay _ _ _ Hf Hc3) as Hc5. pose proof Hok5 as [[pm Hr5] Hw5 Hg5 _ _ _ _ _].
  apply wp_bind. eapply wp_mono; [apply (learn_local_switch_spec wm zm pm); done || lia|].
  intros b w6 (Hr6 & Hw6 & [Hk6 Eg6 Ed6] & _ & Hl6). destruct b; [|apply wp_ret]; cbn [negb].
  - destruct (Hl6 eq_refl) as (ip & direct & Hcl & _). rewrite <- (rl_ingress _ _ Hk6) in Hi1.
    eapply (wifi_forward_ok wm zm pm w6 t); try done; [|by eapply stable_relay].
    apply (relay_ok_step _ _ pm w5); try done; [unfold guards_ok; by rewrite Eg6|unfold same_leases; congruence].
  - apply (relay_ok_step _ _ pm w5); try done; [unfold guards_ok; by rewrite Eg6|unfold same_leases; congruence].
Qed.

(** The ZeroTier handler takes every captured frame whose headers state no
    more than was captured to its end, in the same way. *)
Lemma zerotier_handler_ok wm zm w t f n mac :
  relay_ok wm zm w -> stable_clock w t -> blen mac = 6 -> captured f n -> honest f n ->
  wp (lan_play_zerotier_pcap_handler (mkPkthdr n n) f mac) (fun _ w' => relay_ok wm zm w') w.
Proof.
  intros Hok Hc Lm Hcap Hh. pose proof Hcap as [Hb Hn Hroom _].
  unfold lan_play_zerotier_pcap_handler, ETHER_OFF_SRC. cbn [pkt_caplen]. unfold ETHER_HEADER_LEN at 1.
  destruct (Z.ltb_spec n 14); [by apply wp_ret|]. apply wp_bind. eapply wp_lift; [apply rdn_ok; lia|].
  destruct (CMP_MAC _ _).
  { eapply wp_mono; [apply diagnostic_log_frame_spec; lia|]. intros _ w' [Hf _]. by eapply relay_ok_io. }
  apply wp_bind. eapply wp_mono; [apply (learn_overlay_ok wm zm); done || lia|]. intros _ w1 [Hok1 Hf1].
  pose proof (stable_relay _ _ _ Hf1 Hc) as Hc1. clear Hok Hc Hf1.
  apply wp_bind, wp_modify. set (w2 := w1 <| lp ::= _ |>).
  assert (Hok2 : relay_ok wm zm w2) by (by apply relay_ok_ingress).
  assert (Hc2 : stable_clock w2 t) by done. clearbody w2. clear Hok1 Hc1.
  apply wp_bind. eapply wp_mono; [apply diagnostic_count_rx_spec; lia|]. intros _ w3 [Hf3 _].
  apply wp_bind. eapply wp_mono; [apply diagnostic_log_frame_spec; lia|]. intros _ w4 [Hf4 _].
  assert (Hf : io_frame w2 w4) by (by etrans). pose proof (relay_ok_io _ _ _ _ Hf Hok2) as Hok4.
  pose proof (stable_io _ _ _ Hf Hc2) as Hc4. clear Hf Hf3 Hf4 Hok2 Hc2.
  apply wp_bind, wp_modify. set (w5 := w4 <| lp ::= _ |>). pose proof Hok4 as [[pm Hr4] ? ? ? ? ? ? ?].
  assert (Hr5 : ready w5 wm zm mac) by (by eapply ready_set_mac).
  assert (Hf5 : relay_frame w4 w5) by relay_frame_easy.
  assert (Hok5 : relay_ok wm zm w5) by (by apply (relay_ok_step _ _ mac w4)).
  pose proof (stable_relay _ _ _ Hf5 Hc4) as Hc5. clearbody w5.
  apply wp_bind. eapply wp_mono; [apply (overlay_relay_ok wm zm mac w5); done || lia|].
  intros relayed w6 (Hok6 & Hr6 & Hf6). pose proof (stable_relay _ _ _ Hf6 Hc5) as Hc6.
  apply wp_bind. eapply wp_mono with (P := fun _ w7 => relay_ok wm zm w7).
  { destruct relayed; [by apply wp_ret|]. eapply wp_mono; [apply (process_honest wm zm mac w6 t); done || lia || apply Hok6|].
    intros _ w7 [Hf7 Hr7]. by apply (relay_ok_net wm zm mac w6). }
  intros _ w7 Hok7. apply wp_modify. by apply relay_ok_ingress.
Qed.


(** The console's ICMP port-unreachable messages are taken from the wire
    and forwarded to nobody. *)
Theorem port_unreachable_dropped w frame n :
  34 <= n <= blen frame -> bytes frame -> switch_seen (lp_switch (lp w)) = true ->
  field frame 26 4 = switch_ip (lp_switch (lp w)) ->
  is_Some (overlay_target (lp_adapters (lp w)) (field frame 30 4)) ->
  total_length (ptr frame 14) <= ETHER_MTU -> 14 + total_length (ptr frame 14) <= n ->
  unreachable (ptr frame 14) (total_length (ptr frame 14)) = true ->
  lan_play_relay_wifi_ipv4 frame n w = Ok (true, w).
Proof.
  intros Hn Hb Hs Hsrc [dst Ht] H1 H2 Hu. enough (H : wp (lan_play_relay_wifi_ipv4 frame n) (fun b w' => b = true /\ w' = w) w).
  { unfold wp in H. destruct (lan_play_relay_wifi_ipv4 frame n w) as [[b w']|]; [|done]. by destruct H as [-> ->]. }
  assert (Li : blen (ptr frame 14) = blen frame - 14) by (rewrite blen_ptr by lia; lia).
  unfold lan_play_relay_wifi_ipv4, ETHER_HEADER_LEN, IPV4_HEADER_LEN, IPV4_OFF_SRC, IPV4_OFF_DST, IPV4_OFF_TOTAL_LEN.
  apply wp_bind, wp_gets. rewrite Hs. destruct (Z.ltb_spec n (14 + 20)); [lia|]. cbn [negb orb].
  apply wp_bind. eapply wp_lift; [apply rdn_body; lia|]. change (14 + 12) with 26.
  rewrite (proj2 (CMP_IPV4_spec _ _) Hsrc). cbn [negb].
  apply wp_bind. eapply wp_lift; [apply READ_NET16_ok; lia|]. fold (total_length (ptr frame 14)).
  apply wp_bind. eapply wp_lift; [apply rdn_body; lia|]. change (14 + 16) with 30. apply wp_bind, wp_gets.
  destruct (_ || _) eqn:E.
  { exfalso. unfold overlay_target in Ht.
    destruct (is_nintendo_lan_broadcast _), (is_zerotier_destination _ _); cbn in E; bool_lia; try done; lia. }
  apply wp_bind. eapply wp_lift; [apply is_port_unreachable_ok; lia|]. rewrite Hu. by apply wp_ret.
Qed.


(** A frame that an adapter itself sent, and that libpcap reports back, is
    logged and nothing else: no handler sends anything for it or changes the
    state of the relay, so no frame loops between the adapters. *)
Theorem own_frames_ignored f n mac w :
  14 <= n <= blen f -> field f 6 6 = mac ->
  wp (lan_play_pcap_handler (mkPkthdr n n) f mac) (fun _ w' => io_frame w w' /\ trace w' = trace w) w /\
  wp (lan_play_zerotier_pcap_handler (mkPkthdr n n) f mac) (fun _ w' => io_frame w w' /\ trace w' = trace w) w.
Proof.
  intros Hn <-. unfold lan_play_pcap_handler, lan_play_zerotier_pcap_handler, ETHER_HEADER_LEN, ETHER_OFF_SRC. cbn [pkt_caplen].
  destruct (Z.ltb_spec n 14); [lia|].
  split; (apply wp_bind; eapply wp_lift; [apply rdn_ok; lia|]; rewrite (proj2 (CMP_MAC_spec _ _) eq_refl);
    apply diagnostic_log_frame_spec; lia).
Qed.

(** DHCP requests of local devices stay local: when the DHCP server runs,
    whatever the Wi-Fi handler sends for one goes to the Wi-Fi adapter. *)
Theorem dhcp_stays_local wm zm w f n mac req :
  relay_ok wm zm w -> captured f n -> 14 <= n ->
  opt_dhcp_server (options w) = true -> wifi_subnet_known (lp_adapters (lp w)) = true ->
  dhcp_parse f n = Ok (Some req) ->
  wp (lan_play_pcap_handler (mkPkthdr n n) f mac) (fun _ w' => only_wifi w w') w.
Proof.
  intros Hok Hcap Hl Hon Hk Hp. pose proof Hcap as [Hb Hn Hroom _].
  unfold lan_play_pcap_handler, ETHER_OFF_SRC, ETHER_HEADER_LEN. cbn [pkt_caplen].
  destruct (Z.ltb_spec n 14); [lia|]. apply wp_bind. eapply wp_lift; [apply rdn_ok; lia|].
  destruct (CMP_MAC _ _).
  { eapply wp_mono; [apply diagnostic_log_frame_spec; lia|]. intros _ w' [_ Ht]. by exists []. }
  apply wp_bind, wp_modify. set (w1 := w <| lp ::= _ |>).
  assert (Hok1 : relay_ok wm zm w1) by (by apply relay_ok_ingress).
  assert (Hs1 : opt_dhcp_server (options w1) = true /\ wifi_subnet_known (lp_adapters (lp w1)) = true /\ trace w1 = trace w) by done.
  clearbody w1. destruct Hs1 as (Hon1 & Hk1 & Et1).
  apply wp_bind. eapply wp_mono; [apply diagnostic_count_rx_spec; lia|]. intros _ w2 [Hf2 Et2].
  apply wp_bind. eapply wp_mono; [apply diagnostic_log_frame_spec; lia|]. intros _ w3 [Hf3 Et3].
  assert (Hf : io_frame w1 w3) by (by etrans). pose proof (relay_ok_io _ _ _ _ Hf Hok1) as Hok3.
  assert (Et : trace w3 = trace w) by congruence. pose proof Hok3 as [[pm Hr3] Hw3 Hg3 _ _ _ _ _].
  apply wp_bind. eapply wp_mono; [apply consume_reply_spec; done || lia|]. intros r w4 (Hf4 & Et4 & _).
  destruct r; [apply wp_ret; exists []; split; [cbn; congruence|constructor]|].
  assert (Hok4 : relay_ok wm zm w4).
  { apply (relay_ok_step _ _ pm w3); try done.
    - by apply probe_relay_frame.
    - by eapply ready_probe.
    - by rewrite (pf_switch _ _ Hf4).
    - unfold guards_ok. by rewrite (pf_guard _ _ Hf4).
    - unfold same_leases. by rewrite (pf_dhcp _ _ Hf4). }
  pose proof Hok4 as [[pm4 Hr4] _ _ Hn4 Hl4 _ _ _]. apply wp_bind. eapply wp_mono.
  { apply (wp_respects only_wifi); [apply dhcp_server_consume_wifi|].
    apply (dhcp_server_consume_spec wm zm pm4 w4 f n (Some req)); try done || lia.
    - by rewrite (pf_options _ _ Hf4), (io_options _ _ Hf).
    - by rewrite (pf_adapters _ _ Hf4), (io_adapters _ _ Hf). }
  intros b w5 (Hw5 & -> & _). apply wp_ret. destruct Hw5 as (l & Hl5 & Hf5). exists l. split; [congruence|done].
Qed.

(** the Switch on record is one the rules of discovery allow *)
Definition sound_switch (w : world) : Prop :=
  let a := lp_adapters (lp w) in
  let sw := lp_switch (lp w) in
  switch_seen sw = true ->
  candidate_address a (pc_ip (lp_packet_ctx (lp w))) (switch_ip sw) = true /\
  (is_dhcp_candidate a (switch_ip sw) = true -> is_nintendo_mac (switch_mac sw) = true) /\
  Z.land (getb (switch_mac sw) 0) 1 = 0 /\ switch_mac sw <> NONE_MAC.

Lemma sound_same w w' :
  relay_frame w w' -> same_console (lp_switch (lp w)) (lp_switch (lp w')) -> sound_switch w -> sound_switch w'.
Proof.
  intros [Hc Ha _ _ _ _] (Es & Em & Ei & _) H. injection Hc as Hc _ _. unfold sound_switch. by rewrite Ha, Hc, Es, Em, Ei.
Qed.

Lemma switch_claim_mac a f n ip direct :
  switch_claim a f n = Ok (Some (ip, direct)) ->
  exists mac, rdn f 6 6 = Ok mac /\ Z.land (getb mac 0) 1 = 0 /\ mac <> NONE_MAC.
Proof.
  unfold switch_claim. destruct (n <? ETHER_HEADER_LEN); [done|]. intros H.
  apply obind_Ok in H as (b6 & Hb6 & H). destruct (negb _) eqn:E6; [done|]. bool_lia.
  apply obind_Ok in H as (mac & Hm & H). destruct (CMP_MAC _ _) eqn:Ez; [done|]. exists mac. split; [done|].
  split; [|by apply CMP_MAC_false in Ez]. unfold rdn in Hm. destruct (_ && _) eqn:Eb in Hm; [|done]. injection Hm as <-.
  unfold READ_NET8 in Hb6. destruct (_ && _) in Hb6; [|done]. injection Hb6 as <-. bool_lia.
  by rewrite field_lookup by lia.
Qed.

(** the frame claims an IPv4 address for the Ethernet address that sent it: as
    the sender of an ARP message or the source of an IPv4 packet *)
Definition speaks_for (f : list Z) (n : Z) (mac ip : list Z) : Prop :=
  field f 6 6 = mac /\
  (be16 f 12 = ETHER_TYPE_ARP /\ 42 <= n /\ field f 22 6 = mac /\ field f 28 4 = ip \/
   be16 f 12 = ETHER_TYPE_IPV4 /\ 34 <= n /\ Z.shiftr (getb f 14) 4 = 4 /\ field f 26 4 = ip).

Lemma rdn_Ok p i n x : rdn p i n = Ok x -> x = field p i n.
Proof. unfold rdn. destruct (_ && _); [|done]. by intros [= <-]. Qed.
Lemma READ_NET8_Ok p i x : READ_NET8 p i = Ok x -> x = getb p i.
Proof. unfold READ_NET8. destruct (_ && _); [|done]. by intros [= <-]. Qed.
Lemma READ_NET16_Ok p i x : READ_NET16 p i = Ok x -> x = be16 p i.
Proof. unfold READ_NET16. destruct (_ && _); [|done]. by intros [= <-]. Qed.

Lemma switch_claim_speaks a f n ip direct mac :
  switch_claim a f n = Ok (Some (ip, direct)) -> rdn f 6 6 = Ok mac -> speaks_for f n mac ip.
Proof.
  unfold switch_claim, ETHER_HEADER_LEN, ARP_LEN, IPV4_HEADER_LEN, ETHER_OFF_TYPE. destruct (n <? 14); [done|]. intros H Hm.
  apply obind_Ok in H as (b6 & _ & H). destruct (negb _); [done|].
  rewrite Hm in H. cbn [obind] in H. destruct (CMP_MAC mac NONE_MAC); [done|].
  apply rdn_Ok in Hm. split; [done|].
  apply obind_Ok in H as (type & Ht%READ_NET16_Ok & H). subst type.
  destruct (Z.eqb_spec (be16 f 12) ETHER_TYPE_ARP).
  - left. destruct (Z.ltb_spec n (14 + 28)); [done|].
    repeat (apply obind_Ok in H as (? & ? & H)). destruct (_ || _) eqn:E; [done|].
    apply obind_Ok in H as (? & Hi%rdn_Ok & [= <- <-]). rewrite field_ptr in Hi by done.
    bool_lia; (match goal with H : CMP_MAC _ mac = true |- _ => apply CMP_MAC_spec in H as -> end;
      match goal with H : rdn _ ARP_OFF_SENDER_MAC 6 = Ok _ |- _ => apply rdn_Ok in H; rewrite field_ptr in H by done end;
      by split_and!; [|lia| |]).
  - destruct (Z.eqb_spec (be16 f 12) ETHER_TYPE_IPV4); [|done]. right. destruct (Z.ltb_spec n (14 + 20)); [done|].
    apply obind_Ok in H as (b0 & Hb0%READ_NET8_Ok & H). destruct (negb _) eqn:E4; [done|]. bool_lia.
    apply obind_Ok in H as (total & _ & H). destruct (_ || _); [done|].
    apply obind_Ok in H as (? & Hi%rdn_Ok & H). rewrite field_ptr in Hi by done. inv_obind H. subst.
    rewrite getb_ptr in E4 by done. by split_and!; [|lia| |].
Qed.

(** the same console, networks and gateway *)
Record console_frame (w w' : world) : Prop := {
  cn_adapters : lp_adapters (lp w') = lp_adapters (lp w);
  cn_ip : pc_ip (lp_packet_ctx (lp w')) = pc_ip (lp_packet_ctx (lp w));
  cn_switch : same_console (lp_switch (lp w)) (lp_switch (lp w'))
}.
#[global] Instance console_frame_preorder : PreOrder console_frame.
Proof.
  split; [by split|]. intros w1 w2 w3 [? ? (? & ? & ? & ?)] [? ? (? & ? & ? & ?)].
  split; [congruence..|]. unfold same_console. split_and!; congruence.
Qed.
Lemma net_console w w' : net_frame w w' -> console_frame w w'.
Proof. intros H. split; [apply H|pose proof (nf_ctx _ _ H) as E; unfold ctx_cfg in E; congruence|]. unfold same_console. by rewrite (nf_switch _ _ H). Qed.
Lemma dhcp_console w w' : dhcp_frame w w' -> console_frame w w'.
Proof. intros H. split; [apply H|by rewrite (df_ctx _ _ H)|]. unfold same_console. by rewrite (df_switch _ _ H). Qed.
Lemma probe_console w w' : probe_frame w w' -> console_frame w w'.
Proof. intros H. split; [apply H|by rewrite (pf_ctx _ _ H)|]. unfold same_console. by rewrite (pf_switch _ _ H). Qed.
Lemma guard_console w w' : guard_frame w w' -> console_frame w w'.
Proof.
  intros Hg. split; [by apply (guard_frame_field lp_adapters)|by apply (guard_frame_field (fun l => pc_ip (lp_packet_ctx l)))|].
  unfold same_console. by rewrite (guard_frame_field lp_switch w w').
Qed.
Ltac console_hint :=
  first [eapply respects_mono; [exact net_console|solve [auto with respects]]
        |eapply respects_mono; [exact dhcp_console|solve [auto with respects]]
        |eapply respects_mono; [exact probe_console|solve [auto with respects]]
        |eapply respects_mono; [exact guard_console|solve [auto with respects]]].
#[export] Hint Extern 4 (respects console_frame _) => console_hint : respects.
#[export] Hint Extern 1 (console_frame _ _) => (by repeat split) : respects_state.

Lemma relay_wifi_console f n : respects console_frame (lan_play_relay_wifi_ipv4 f n).
Proof. unfold lan_play_relay_wifi_ipv4, uninit, setswitch, setlp, getlp. solve_respects. Qed.
Lemma relay_zerotier_console f n : respects console_frame (lan_play_relay_zerotier_ipv4 f n).
Proof. unfold lan_play_relay_zerotier_ipv4, uninit, setswitch, setlp, getlp. solve_respects. Qed.
Lemma adopt_console mac ip dhcp : respects console_frame (adopt mac ip dhcp).
Proof. unfold adopt, setswitch, setlp, option_of, emit. solve_respects. Qed.
#[export] Hint Resolve relay_wifi_console relay_zerotier_console adopt_console : respects.

Lemma sound_console w w' : console_frame w w' -> sound_switch w -> sound_switch w'.
Proof. intros [Ha Hc (Es & Em & Ei & _)] H. unfold sound_switch. by rewrite Ha, Hc, Es, Em, Ei. Qed.
Lemma respects_sound {A} (m : M A) : respects console_frame m -> respects (stays sound_switch) m.
Proof. apply respects_mono. exact sound_console. Qed.

(** What a frame makes the relay record is what the frame claims and the rules
    allow: so a property of the recorded Switch that these two give is kept. *)
Section Learned.
Context (P : world -> Prop) (f : list Z) (n : Z).
Hypothesis P_console : forall w w', console_frame w w' -> P w -> P w'.
Hypothesis P_learned : forall w, speaks_for f n (switch_mac (lp_switch (lp w))) (switch_ip (lp_switch (lp w))) -> sound_switch w -> P w.

Lemma respects_kept {A} (m : M A) : respects console_frame m -> respects (stays P) m.
Proof. apply respects_mono. exact P_console. Qed.

Lemma learn_keeps : respects (stays P) (learn_local_switch f n).
Proof.
  apply wlp_to_respects. intros w. unfold learn_local_switch. do 2 apply wlp_bind, wlp_gets.
  apply wlp_bind, wlp_lift. intros [[ip direct]|] Hcl; [|by apply wlp_ret].
  destruct (candidate_address _ _ ip) eqn:Eca; cbn [negb]; [|by apply wlp_ret].
  destruct (switch_claim_mac _ _ _ _ _ Hcl) as (mac & Hm & Hu & Hz).
  pose proof (switch_claim_speaks _ _ _ _ _ _ Hcl Hm) as Hc.
  apply wlp_bind, wlp_lift. rewrite Hm. intros ? [= <-].
  destruct (_ && negb (is_nintendo_mac mac)) eqn:En; [by apply wlp_ret|]. apply wlp_bind, wlp_gets.
  destruct (_ && negb (CMP_IPV4 _ _)); [by apply wlp_ret|]. destruct (_ && (_ || negb direct)).
  { apply wlp_bind, wlp_modify, wlp_ret. intros H. apply (P_console w); [by repeat split|done]. }
  apply wlp_bind, wlp_modify. fold (adopt mac ip (is_dhcp_candidate (lp_adapters (lp w)) ip)). set (w1 := w <| lp ::= _ |>).
  assert (H1 : P w1).
  { apply P_learned; [exact Hc|]. intros _. split_and!; [done| |done|done]. cbn. intros Hd. rewrite Hd in En. by apply negb_false_iff in En. }
  clearbody w1. apply wlp_bind, wlp_run. intros [] w2 E2. apply wlp_ret. intros _.
  destruct (negb _) in E2; [by injection E2 as <-|]. by apply (P_console w1); [apply adopt_console in E2|].
Qed.
End Learned.

Lemma pcap_handler_keeps (P : world -> Prop) h f mac :
  (forall w w', console_frame w w' -> P w -> P w') ->
  (forall w, speaks_for f (pkt_caplen h) (switch_mac (lp_switch (lp w))) (switch_ip (lp_switch (lp w))) -> sound_switch w -> P w) ->
  respects (stays P) (lan_play_pcap_handler h f mac).
Proof.
  intros Pc Pl. pose proof (learn_keeps P f (pkt_caplen h) Pc Pl).
  unfold lan_play_pcap_handler, packet_set_mac, setctx, setlp. repeat respects_step; try (apply respects_kept; [exact Pc|auto with respects]).
  all: try done; intros H'; apply (Pc s); [by repeat split|done].
Qed.
Lemma zerotier_handler_console h f mac : respects console_frame (lan_play_zerotier_pcap_handler h f mac).
Proof. unfold lan_play_zerotier_pcap_handler, packet_set_mac, setctx, setlp. solve_respects. Qed.

(** ** Witnesses *)

Definition sample_ipv4 (src_mac src dst : list Z) (protocol : Z) (body : list Z) : list Z :=
  BROADCASE_MAC ++ src_mac ++ [8; 0] ++
  [69; 0] ++ net16 (20 + blen body) ++ [0; 1; 0; 0; 64; protocol; 0; 0] ++ src ++ dst ++ body.
(** a datagram to the LAN-play port *)
Definition sample_game (src_mac src dst : list Z) : list Z :=
  sample_ipv4 src_mac src dst 17 (net16 35000 ++ net16 35000 ++ net16 12 ++ [0; 0; 1; 2; 3; 4]).
Definition game_out : list Z := sample_game Sample.console_mac Sample.console_ip Sample.peer_ip.
Definition game_in : list Z := sample_game Sample.peer_mac Sample.peer_ip Sample.console_ip.

Lemma sample_guards : guards_ok Sample.relay.
Proof. intros g [= <-]. split; done || constructor. Qed.
Lemma sample_ok : relay_ok Sample.wifi_mac Sample.zt_mac Sample.relay.
Proof.
  split; [exists Sample.wifi_mac; apply sample_ready|done|apply sample_guards|apply sample_net_ok|apply sample_leases_ok|done| |done].
  intros n b. constructor.
Qed.
Lemma sample_clock : stable_clock Sample.relay 1000.
Proof. done. Qed.


Definition unreachable_frame : list Z :=
  sample_ipv4 Sample.console_mac Sample.console_ip Sample.peer_ip 1 [3; 3; 0; 0; 0; 0; 0; 0].
Lemma port_unreachable_witness :
  lan_play_relay_wifi_ipv4 unreachable_frame 42 Sample.relay_seen = Ok (true, Sample.relay_seen).
Proof.
  apply port_unreachable_dropped; [split; discriminate|apply sample_bytes; reflexivity|reflexivity|reflexivity
    |eexists; reflexivity|discriminate|discriminate|reflexivity].
Defined.


Lemma own_frames_witness :
  let f := sample_game Sample.wifi_mac Sample.console_ip Sample.peer_ip in
  wp (lan_play_pcap_handler (mkPkthdr 46 46) f Sample.wifi_mac)
    (fun _ w' => io_frame Sample.relay w' /\ trace w' = trace Sample.relay) Sample.relay /\
  wp (lan_play_zerotier_pcap_handler (mkPkthdr 46 46) f Sample.wifi_mac)
    (fun _ w' => io_frame Sample.relay w' /\ trace w' = trace Sample.relay) Sample.relay.
Proof. apply own_frames_ignored; [split; discriminate|reflexivity]. Defined.

Lemma dhcp_stays_local_witness :
  wp (lan_play_pcap_handler (mkPkthdr 286 286) (sample_discover ++ replicate 60 0) Sample.wifi_mac)
    (fun _ w' => only_wifi Sample.relay w') Sample.relay.
Proof.
  eapply (dhcp_stays_local Sample.wifi_mac Sample.zt_mac); [apply sample_ok| |discriminate|reflexivity|reflexivity
    |vm_compute; reflexivity].
  split; [apply sample_bytes; reflexivity|lia|discriminate|intros _ _; discriminate].
Defined.

(** ** What the overlay can do *)

(** an ICMP echo request to the fake gateway whose total length is larger than
    the frame *)
Definition lying_echo : list Z :=
  BROADCASE_MAC ++ Sample.peer_mac ++ [8; 0] ++
  [69; 0] ++ net16 1000 ++ [0; 1; 0; 0; 64; 1; 0; 0] ++ Sample.peer_ip ++ [10; 147; 17; 1] ++ [8; 0; 0; 0; 0; 0; 0; 0].

(** Frames from the overlay that are not relayed go through the legacy
    packet processor without the length checks that guard the Wi-Fi side: one
    42-byte echo request that claims 1000 bytes makes the relay read beyond the
    captured frame. *)
Theorem overlay_echo_overreads :
  lan_play_zerotier_pcap_handler (mkPkthdr 42 42) lying_echo Sample.zt_mac Sample.relay_seen = Stop OutOfBounds.
Proof. by vm_compute. Qed.

(** an ARP reply of an overlay peer for an address of the local network *)
Definition foreign_claim (ip : list Z) : list Z :=
  BROADCASE_MAC ++ Sample.peer_mac ++ [8; 6] ++
  arp_packet ARP_OPCODE_REPLY Sample.peer_mac ip NONE_MAC [10; 147; 17; 1].

(** The ARP table of the Wi-Fi side is not out of reach of the overlay: an
    ARP message of an overlay peer is entered in it, under the peer's MAC, even
    for the address of the local console. *)
Theorem overlay_arp_enters_wifi_table :
  exists w', lan_play_zerotier_pcap_handler (mkPkthdr 42 42) (foreign_claim Sample.console_ip) Sample.zt_mac
      Sample.relay_seen = Ok (tt, w') /\
    arp_find (arp_list (lp_packet_ctx (lp w'))) Sample.console_ip 1000 = Some Sample.peer_mac.
Proof. eexists. split; [vm_compute; reflexivity|]. by vm_compute. Qed.
