(* ===== verification/Discovery.v ===== *)
(** * Discovery: the ARP sweep for a local Switch

    src/src/lan-play.c: [lan_play_send_wifi_arp_probe] and the 50 ms timer
    [switch_discovery_timer_cb], which probes hosts 2 to 254 of the Wi-Fi /24 (if
    the adapter has an address) and then of the overlay subnet, waits 600 ticks
    and starts over, until a Switch was seen.  The file ends with the event loop
    of the relay as a sequence of inputs, and what holds over all of them. *)

From S2P Require Import Prelude Bytes Checksum World Sample Pcap Packet Arp Ipv4 NativeUdp Nintendo Dhcp Relay.

Definition wifi_arp_probe_frame (wifi target_ip sender_ip : list Z) : outcome (list Z) :=
  let frame := replicate 42 0 in
  try f := wrn frame ETHER_OFF_DST (replicate 6 255) in
  try f := wrn f ETHER_OFF_SRC wifi in
  try f := WRITE_NET16 f ETHER_OFF_TYPE ETHER_TYPE_ARP in
  try f := WRITE_NET16 f (ETHER_HEADER_LEN + ARP_OFF_HARDWARE) ARP_HARDTYPE_ETHER in
  try f := WRITE_NET16 f (ETHER_HEADER_LEN + ARP_OFF_PROTOCOL) ETHER_TYPE_IPV4 in
  try f := WRITE_NET8 f (ETHER_HEADER_LEN + ARP_OFF_HARDWARE_SIZE) 6 in
  try f := WRITE_NET8 f (ETHER_HEADER_LEN + ARP_OFF_PROTOCOL_SIZE) 4 in
  try f := WRITE_NET16 f (ETHER_HEADER_LEN + ARP_OFF_OPCODE) ARP_OPCODE_REQUEST in
  try f := wrn f (ETHER_HEADER_LEN + ARP_OFF_SENDER_MAC) wifi in
  try f := wrn f (ETHER_HEADER_LEN + ARP_OFF_SENDER_IP) sender_ip in
  wrn f (ETHER_HEADER_LEN + ARP_OFF_TARGET_IP) target_ip.

Definition lan_play_send_wifi_arp_probe (target_ip sender_ip : list Z) : M Z :=
  let* wifi := getlp (fun l => wifi_mac (lp_adapters l)) in
  let? frame := wifi_arp_probe_frame wifi target_ip sender_ip in
  count (set wifi_probe_tx (fun n => u64 (n + 1))) ;;;
  uv_pcap_sendpacket Wifi frame 42.

Definition setdiscovery (f : discovery -> discovery) : M unit := setlp (set lp_discovery f).

(** [target_ip[3] = host] after a copy of the address [net] *)
Definition with_host (net : list Z) (host : Z) : outcome (list Z) := WRITE_NET8 net 3 host.

Definition switch_discovery_timer_cb : M unit :=
  let* sw := getlp lp_switch in
  if switch_seen sw then setdiscovery (set switch_discovery_timer_active (fun _ => false)) else
  let* d := getlp lp_discovery in
  if negb (switch_discovery_pause_ticks d =? 0) then
    setdiscovery (set switch_discovery_pause_ticks (fun n => n - 1))
  else
  let* a := getlp lp_adapters in
  let* ctx := getlp lp_packet_ctx in
  let wifi_phase := switch_discovery_wifi_phase d && wifi_subnet_known a in
  let sender_ip := if wifi_phase then wifi_ip a else pc_ip ctx in
  let? target_ip := with_host (if wifi_phase then wifi_ip a else subnet_net ctx) (switch_discovery_host d) in
  let? own := READ_NET8 (wifi_ip a) 3 in
  (if wifi_phase && (switch_discovery_host d =? own) then ret 0
   else lan_play_send_wifi_arp_probe target_ip sender_ip) ;;;
  let host := u8 (switch_discovery_host d + 1) in
  if (host =? 0) || (host =? 255) then
    setdiscovery (set switch_discovery_host (fun _ => 2)) ;;;
    if wifi_phase then setdiscovery (set switch_discovery_wifi_phase (fun _ => false))
    else setdiscovery (fun d => d <| switch_discovery_wifi_phase := wifi_subnet_known a |>
                                  <| switch_discovery_pause_ticks := 600 |>)
  else setdiscovery (set switch_discovery_host (fun _ => host)).

(** ** The probes *)

Section Sweep.
Context (wm zm pm : list Z).

Lemma wifi_arp_probe_frame_ok wifi target sender :
  blen wifi = 6 -> blen target = 4 -> blen sender = 4 ->
  wifi_arp_probe_frame wifi target sender =
    Ok (ether BROADCASE_MAC wifi ETHER_TYPE_ARP (arp_packet ARP_OPCODE_REQUEST wifi sender NONE_MAC target)).
Proof. intros H1 H2 H3. explode H1. explode H2. explode H3. reflexivity. Qed.

(** the probe on the wire *)
Definition probe (w : world) (sender target : list Z) : list Z :=
  ether BROADCASE_MAC wm ETHER_TYPE_ARP
    (arp_packet ARP_OPCODE_REQUEST (wifi_mac (lp_adapters (lp w))) sender NONE_MAC target).

Lemma arp_probe_io t s : respects io_frame (lan_play_send_wifi_arp_probe t s).
Proof. unfold lan_play_send_wifi_arp_probe, getlp. solve_respects. Qed.
Lemma arp_probe_spec w target sender :
  ready w wm zm pm -> blen target = 4 -> blen sender = 4 ->
  wp (lan_play_send_wifi_arp_probe target sender) (fun _ w' => io_frame w w' /\
    trace w' = (Wifi, 0%nat, probe w sender target) :: trace w) w.
Proof.
  intros Hr Lt Ls. apply (wp_respects io_frame); [apply arp_probe_io|].
  unfold lan_play_send_wifi_arp_probe. apply wp_bind, wp_gets.
  destruct (rd_adapters _ _ _ _ Hr) as [Lw _ _ _ _ _ _ _]. pose proof (sd_wire _ _ (rd_send _ _ _ _ Hr)) as Hw.
  apply wp_bind. eapply wp_lift; [by apply wifi_arp_probe_frame_ok|]. set (f := ether _ _ _ _).
  assert (Lf : blen f = 42).
  { unfold f, ether. rewrite !blen_app, blen_net16, blen_arp_packet, Lw by done. reflexivity. }
  apply wp_bind, wp_modify. eapply wp_mono; [apply (uv_pcap_sendpacket_spec _ Wifi wm); [done|lia|lia]|].
  intros rc w' ->. do 2 f_equal. unfold probe. destruct Hw as [Lwm _].
  eapply frame_from; [done|exact Lw|done|by rewrite blen_arp_packet|lia|by rewrite field_all by lia].
Qed.

(** what the timer keeps *)
Record swept_frame (w w' : world) : Prop := {
  sw_ready : ready w wm zm pm -> ready w' wm zm pm;
  sw_adapters : lp_adapters (lp w') = lp_adapters (lp w);
  sw_ctx : lp_packet_ctx (lp w') = lp_packet_ctx (lp w);
  sw_switch : lp_switch (lp w') = lp_switch (lp w)
}.
#[export] Instance swept_frame_preorder : PreOrder swept_frame.
Proof. split; [by split|]. intros w1 w2 w3 [] []. split; [auto|congruence..]. Qed.

(** the state in which the timer probes host [h] *)
Definition at_host (w : world) (h : Z) (phase : bool) : Prop :=
  switch_seen (lp_switch (lp w)) = false /\ blen (subnet_net (lp_packet_ctx (lp w))) = 4 /\
  switch_discovery_host (lp_discovery (lp w)) = h /\ switch_discovery_pause_ticks (lp_discovery (lp w)) = 0 /\
  switch_discovery_wifi_phase (lp_discovery (lp w)) && wifi_subnet_known (lp_adapters (lp w)) = phase.

(** what it sends there: nothing to the relay's own address *)
Definition probed (w : world) (phase : bool) (h : Z) : list (wire * nat * list Z) :=
  let a := lp_adapters (lp w) in
  if phase && (h =? getb (wifi_ip a) 3) then []
  else [(Wifi, 0%nat, probe w (if phase then wifi_ip a else pc_ip (lp_packet_ctx (lp w)))
          (splice (if phase then wifi_ip a else subnet_net (lp_packet_ctx (lp w))) 3 [h]))].

Definition next_discovery (known phase : bool) (d : discovery) : discovery :=
  if switch_discovery_host d =? 254 then
    let d := d <| switch_discovery_host := 2 |> in
    if phase then d <| switch_discovery_wifi_phase := false |>
    else d <| switch_discovery_wifi_phase := known |> <| switch_discovery_pause_ticks := 600 |>
  else d <| switch_discovery_host := switch_discovery_host d + 1 |>.

Lemma timer_spec w h phase :
  ready w wm zm pm -> at_host w h phase -> 2 <= h <= 254 ->
  wp switch_discovery_timer_cb (fun _ w' => swept_frame w w' /\
    lp_discovery (lp w') = next_discovery (wifi_subnet_known (lp_adapters (lp w))) phase (lp_discovery (lp w)) /\
    trace w' = probed w phase h ++ trace w) w.
Proof.
  intros Hr (Hs & Ln & Hh & Hp & Hph) Hb. unfold switch_discovery_timer_cb. apply wp_bind, wp_gets. rewrite Hs.
  apply wp_bind, wp_gets. rewrite Hp. cbn [Z.eqb negb]. do 2 apply wp_bind, wp_gets. cbv zeta. rewrite Hph, Hh.
  destruct (rd_adapters _ _ _ _ Hr) as [_ Lw _ _ _ _ _ _]. set (a := lp_adapters (lp w)) in *.
  set (net := if phase then wifi_ip a else subnet_net _). assert (Lt : blen net = 4) by (subst net; by destruct phase).
  apply wp_bind. eapply wp_lift; [unfold with_host; apply WRITE_NET8_ok; lia|]. rewrite u8_small by (unfold is_byte; lia).
  apply wp_bind. eapply wp_lift; [apply READ_NET8_ok; lia|]. apply wp_bind.
  eapply wp_mono with (P := fun _ w1 => io_frame w w1 /\ trace w1 = probed w phase h ++ trace w).
  { unfold probed. fold a. fold net. destruct (phase && (h =? _)); [by apply wp_ret|]. apply arp_probe_spec; [done| |].
    - rewrite blen_splice; rewrite ?Lt; done.
    - destruct phase; [done|apply Hr]. }
  intros _ w1 [Hf Ht]. rewrite u8_small by (unfold is_byte; lia). unfold next_discovery. rewrite Hh.
  assert (Hframe : forall f, swept_frame w (w1 <| lp ::= set lp_discovery f |>)).
  { intros f. split; [intros; by eapply ready_same; [..|by eapply ready_io; [exact Hf|]]|apply Hf|apply Hf|apply Hf]. }
  destruct (Z.eqb_spec (h + 1) 0); [lia|]. cbn [orb]. destruct (Z.eqb_spec (h + 1) 255), (Z.eqb_spec h 254); try lia.
  - apply wp_bind, wp_modify. rewrite <- (io_discovery _ _ Hf). destruct phase; apply wp_modify;
      (split_and!; [|done|done]); by apply (Hframe (fun d => _ (_ d))).
  - apply wp_modify. rewrite <- (io_discovery _ _ Hf). split_and!; [apply Hframe|done|done].
Qed.

Fixpoint ticks (n : nat) : M unit :=
  match n with O => ret tt | S n => switch_discovery_timer_cb ;;; ticks n end.

Lemma probed_same w w1 phase h : swept_frame w w1 -> probed w1 phase h = probed w phase h.
Proof. intros [_ Ha Hc _]. unfold probed, probe. by rewrite Ha, Hc. Qed.

(** the hosts from [h], [n] of them *)
Fixpoint hosts (h : Z) (n : nat) : list Z := match n with O => [] | S n => h :: hosts (h + 1) n end.
(** the probes to them, latest first *)
Definition sweep (w : world) (phase : bool) (hs : list Z) : list (wire * nat * list Z) :=
  concat (map (probed w phase) (rev hs)).

Lemma sweep_cons w phase h hs : sweep w phase (h :: hs) = sweep w phase hs ++ probed w phase h.
Proof. unfold sweep. cbn [rev]. rewrite map_app, concat_app. cbn [map concat]. by rewrite app_nil_r. Qed.

Lemma ticks_spec n w h phase :
  ready w wm zm pm -> at_host w h phase -> 2 <= h -> h + Z.of_nat n = 255 ->
  wp (ticks n) (fun _ w' => swept_frame w w' /\ (n = O \/
    lp_discovery (lp w') = next_discovery (wifi_subnet_known (lp_adapters (lp w))) phase
      ((lp_discovery (lp w)) <| switch_discovery_host := 254 |>)) /\
    trace w' = sweep w phase (hosts h n) ++ trace w) w.
Proof.
  revert w h. induction n as [|n IH]; intros w h Hr Ha Hh Hn; cbn [ticks hosts]; [apply wp_ret; split_and!; [done|by left|done]|].
  apply wp_bind. eapply wp_mono; [eapply (timer_spec w h phase); [done..|lia]|]. intros _ w1 (Hf & Hd & Ht).
  destruct Ha as (Hs & Ln & Eh & Ep & Eph). unfold next_discovery in Hd. rewrite Eh in Hd.
  destruct n as [|n'].
  - cbn [ticks hosts]. apply wp_ret. split_and!; [done| |by rewrite sweep_cons]. right. rewrite Hd.
    destruct (Z.eqb_spec h 254); [|lia]. done.
  - destruct (Z.eqb_spec h 254); [lia|]. eapply wp_mono.
    { apply (IH w1 (h + 1)); [by apply Hf| |lia|lia]. unfold at_host.
      rewrite Hd, (sw_adapters _ _ Hf), (sw_ctx _ _ Hf), (sw_switch _ _ Hf). by split_and!. }
    intros _ w2 (Hf2 & Hd2 & Ht2). split_and!; [by etrans| |].
    + right. destruct Hd2 as [?|Hd2]; [done|]. rewrite Hd2, Hd, (sw_adapters _ _ Hf). done.
    + rewrite Ht2, Ht, sweep_cons, app_assoc. f_equal. f_equal. unfold sweep. f_equal. apply map_ext. intros x. by apply probed_same.
Qed.

Lemma pause_spec n w :
  ready w wm zm pm -> switch_seen (lp_switch (lp w)) = false ->
  switch_discovery_pause_ticks (lp_discovery (lp w)) = Z.of_nat n ->
  wp (ticks n) (fun _ w' => swept_frame w w' /\
    lp_discovery (lp w') = (lp_discovery (lp w)) <| switch_discovery_pause_ticks := 0 |> /\ trace w' = trace w) w.
Proof.
  revert w. induction n as [|n IH]; intros w Hr Hs Hp; cbn [ticks].
  { apply wp_ret. split_and!; [done| |done]. destruct (lp_discovery (lp w)). cbn in *. by subst. }
  apply wp_bind. unfold switch_discovery_timer_cb. apply wp_bind, wp_gets. rewrite Hs. apply wp_bind, wp_gets.
  destruct (Z.eqb_spec (switch_discovery_pause_ticks (lp_discovery (lp w))) 0); [lia|]. cbn [negb].
  apply wp_modify. set (w1 := w <| lp ::= _ |>).
  assert (Hf : swept_frame w w1) by (split; [intros; by eapply ready_same; [..|exact Hr]|done..]).
  eapply wp_mono; [apply IH; [by apply Hf|done|cbn; lia]|]. intros _ w2 (Hf2 & Hd2 & Ht2).
  split_and!; [by etrans|by rewrite Hd2|by rewrite Ht2].
Qed.
End Sweep.

Lemma wp_ticks_app n m Q w : wp (ticks n) (fun _ => wp (ticks m) Q) w -> wp (ticks (n + m)) Q w.
Proof.
  revert w. induction n as [|n IH]; intros w; cbn [ticks Nat.add]; [done|]. intros H. apply wp_bind.
  unfold wp, bind in H. unfold wp at 1. destruct (switch_discovery_timer_cb w) as [[[] w1]|]; [|done]. by apply IH.
Qed.

(** ** The relay over time *)

(** what the event loop hands to the relay *)
Inductive input :=
| WifiFrame (h : pcap_pkthdr) (packet mac : list Z)
| ZeroTierFrame (h : pcap_pkthdr) (packet mac : list Z)
| DiscoveryTick.

Definition step (i : input) : M unit :=
  match i with
  | WifiFrame h packet mac => lan_play_pcap_handler h packet mac
  | ZeroTierFrame h packet mac => lan_play_zerotier_pcap_handler h packet mac
  | DiscoveryTick => switch_discovery_timer_cb
  end.
Fixpoint run (ins : list input) : M unit :=
  match ins with [] => ret tt | i :: ins => step i ;;; run ins end.

Lemma arp_probe_console t s : respects console_frame (lan_play_send_wifi_arp_probe t s).
Proof. eapply respects_mono; [exact net_console|]. apply respects_ctx_net, respects_io_ctx, arp_probe_io. Qed.
#[export] Hint Resolve arp_probe_console : respects.
Lemma timer_console : respects console_frame switch_discovery_timer_cb.
Proof. unfold switch_discovery_timer_cb, setdiscovery, setlp, getlp. solve_respects. Qed.

Lemma console_sticky w w' : console_frame w w' -> sticky w w'.
Proof. intros [_ _ (Es & Em & Ei & Ec)]. split; congruence. Qed.
Lemma step_sticky i : respects sticky (step i).
Proof. destruct i; cbn [step]; auto with respects. apply (respects_mono _ _ _ console_sticky), timer_console. Qed.

(** the recorded Switch is one that a Wi-Fi frame of [ins] claimed to be, and
    one the rules of discovery allow *)
Definition claimed_in (ins : list input) (mac ip : list Z) : Prop :=
  exists h f m, WifiFrame h f m ∈ ins /\ speaks_for f (pkt_caplen h) mac ip.
Definition recorded_from (ins : list input) (w : world) : Prop :=
  sound_switch w /\
  (switch_seen (lp_switch (lp w)) = true -> claimed_in ins (switch_mac (lp_switch (lp w))) (switch_ip (lp_switch (lp w)))).
Lemma recorded_console ins w w' : console_frame w w' -> recorded_from ins w -> recorded_from ins w'.
Proof.
  intros Hc [H1 H2]. split; [by eapply sound_console|]. destruct Hc as [_ _ (Es & Em & Ei & _)]. by rewrite Es, Em, Ei.
Qed.
Lemma step_recorded ins i : i ∈ ins -> respects (stays (recorded_from ins)) (step i).
Proof.
  intros Hi. destruct i as [h f m|h f m|]; cbn [step].
  - apply pcap_handler_keeps; [apply recorded_console|]. intros w Hc Hs. split; [done|]. intros _. by exists h, f, m.
  - eapply respects_mono; [exact (recorded_console ins)|apply zerotier_handler_console].
  - eapply respects_mono; [exact (recorded_console ins)|apply timer_console].
Qed.
Lemma run_recorded all ins : (forall i, i ∈ ins -> i ∈ all) -> respects (stays (recorded_from all)) (run ins).
Proof.
  induction ins as [|i ins IH]; intros Hs; cbn [run]; [apply (respects_ret _)|]. apply (respects_bind _).
  - apply step_recorded, Hs. by left.
  - intros []. apply IH. intros j Hj. apply Hs. by right.
Qed.
Lemma run_respects (R : relation world) `{!PreOrder R} ins : (forall i, respects R (step i)) -> respects R (run ins).
Proof. intros H. induction ins as [|i ins IH]; cbn [run]; [apply (respects_ret R)|]. apply (respects_bind R); [done|]. by intros []. Qed.

(** ** Properties *)

(** C7. Whatever frames arrive and however often the timer fires, a Switch
    once seen keeps its IPv4 address, and once its MAC was confirmed by an ARP
    message or a broadcast it keeps that MAC: nobody on either network can take
    its place while the relay runs. *)
Theorem switch_kept ins w w' :
  run ins w = Ok (tt, w') -> sticky w w'.
Proof. apply run_respects; [apply _|exact step_sticky]. Qed.

(** C8. Over every run of a relay that has seen no Switch yet, the Switch on
    record is one that a frame captured on the Wi-Fi adapter in this run claimed
    to be: a frame from its MAC with its address as the sender of an ARP message
    or the source of an IPv4 packet.  It is also one the rules of discovery
    allow: a unicast MAC; an address of the overlay subnet or of the Wi-Fi
    subnet, which is neither the fake gateway nor a network or broadcast
    address; and on the Wi-Fi subnet only with a Nintendo vendor prefix. *)
Theorem switch_sound ins w w' :
  switch_seen (lp_switch (lp w)) = false -> run ins w = Ok (tt, w') ->
  switch_seen (lp_switch (lp w')) = true ->
  sound_switch w' /\ claimed_in ins (switch_mac (lp_switch (lp w'))) (switch_ip (lp_switch (lp w'))).
Proof.
  intros Hs Hr Hs'. destruct (run_recorded ins ins (fun _ H => H) w tt w' Hr) as [H1 H2].
  - split; intros H; congruence.
  - split; [done|by apply H2].
Qed.

(** C10. Without a Switch the discovery timer is periodic.  From the beginning of
    a round it sends one ARP probe to each host 2 to 254 of the /24 network
    around the relay's Wi-Fi address, other than the relay itself, if the Wi-Fi
    subnet is known; then one to each host 2 to 254 of the first 256 addresses of
    the overlay subnet; then nothing for 600 ticks; and is where it began, after
    1106 ticks (853 without a Wi-Fi subnet) of 50 ms. *)
Theorem discovery_cycle wm zm pm w :
  let known := wifi_subnet_known (lp_adapters (lp w)) in
  ready w wm zm pm -> at_host w 2 known -> switch_discovery_wifi_phase (lp_discovery (lp w)) = known ->
  wp (ticks ((if known then 253 else 0) + (253 + 600))) (fun _ w' => lp_discovery (lp w') = lp_discovery (lp w) /\
    trace w' = sweep wm w false (hosts 2 253) ++ (if known then sweep wm w true (hosts 2 253) else []) ++ trace w) w.
Proof.
  intros known Hr Ha Hph. apply wp_ticks_app.
  eapply wp_mono with (P := fun _ w1 => swept_frame wm zm pm w w1 /\ at_host w1 2 false /\
    lp_discovery (lp w1) = (lp_discovery (lp w)) <| switch_discovery_wifi_phase := false |> /\
    trace w1 = (if known then sweep wm w true (hosts 2 253) else []) ++ trace w).
  { unfold at_host in Ha. destruct Ha as (Hs & Ln & Eh & Ep & Eph). destruct known eqn:Ek.
    - eapply wp_mono; [by apply (ticks_spec wm zm pm 253 w 2 true)|]. intros _ w1 (Hf1 & [?|Hd1] & Ht1); [done|].
      assert (Hd : lp_discovery (lp w1) = (lp_discovery (lp w)) <| switch_discovery_wifi_phase := false |>).
      { rewrite Hd1. cbn. destruct (lp_discovery (lp w)). cbn in *. by subst. }
      split_and!; try done. unfold at_host.
      rewrite Hd, (sw_adapters _ _ _ _ _ Hf1), (sw_ctx _ _ _ _ _ Hf1), (sw_switch _ _ _ _ _ Hf1). by split_and!.
    - apply wp_ret. split_and!; try done. destruct (lp_discovery (lp w)). cbn in *. by subst. }
  intros _ w1 (Hf1 & Ha1 & Hd1 & Ht1).
  apply wp_ticks_app. eapply wp_mono; [apply (ticks_spec wm zm pm 253 w1 2 false); [by apply Hf1|done..]|].
  intros _ w2 (Hf2 & Hd2 & Ht2). destruct Hd2 as [?|Hd2]; [done|].
  assert (Hf : swept_frame wm zm pm w w2) by (by etrans). destruct Ha as (Hs & _ & Eh & Ep & _).
  eapply wp_mono; [apply (pause_spec wm zm pm 600 w2); [by apply Hf|by rewrite (sw_switch _ _ _ _ _ Hf)|by rewrite Hd2]|].
  intros _ w3 (Hf3 & Hd3 & Ht3). split.
  - rewrite Hd3, Hd2, Hd1, (sw_adapters _ _ _ _ _ Hf1). fold known. rewrite <- Hph.
    destruct (lp_discovery (lp w)). cbn in *. by subst.
  - rewrite Ht3, Ht2, Ht1. f_equal. unfold sweep. f_equal. apply map_ext. intros x. by eapply probed_same.
Qed.

(** ** Witnesses *)

Definition sample_run : list input :=
  [WifiFrame (mkPkthdr 46 46) game_out Sample.wifi_mac; DiscoveryTick].

Lemma switch_kept_witness :
  exists w', run sample_run Sample.relay_seen = Ok (tt, w') /\ sticky Sample.relay_seen w'.
Proof.
  eexists. split; [vm_compute; reflexivity|]. apply (switch_kept sample_run). vm_compute. reflexivity.
Defined.

Lemma switch_sound_witness :
  exists w', run sample_run Sample.relay = Ok (tt, w') /\ switch_mac (lp_switch (lp w')) = Sample.console_mac /\
    sound_switch w' /\ claimed_in sample_run (switch_mac (lp_switch (lp w'))) (switch_ip (lp_switch (lp w'))).
Proof.
  eexists. split; [vm_compute; reflexivity|]. split; [reflexivity|].
  apply (switch_sound sample_run Sample.relay); [reflexivity|vm_compute; reflexivity|reflexivity].
Defined.

Lemma discovery_cycle_witness :
  wp (ticks (253 + (253 + 600))) (fun _ w' => lp_discovery (lp w') = lp_discovery (lp Sample.relay) /\
    trace w' = sweep Sample.wifi_mac Sample.relay false (hosts 2 253) ++
      sweep Sample.wifi_mac Sample.relay true (hosts 2 253) ++ trace Sample.relay) Sample.relay.
Proof.
  pose proof (discovery_cycle Sample.wifi_mac Sample.zt_mac Sample.wifi_mac Sample.relay sample_ready) as H. cbv zeta in H.
  rewrite (eq_refl : wifi_subnet_known (lp_adapters (lp Sample.relay)) = true) in H. cbv iota in H.
  apply H; [by repeat split|reflexivity].
Defined.
