(* ===== verification/Options.v ===== *)
(** * Options: the command line

    src/src/main.c: [parse_arguments], and what [main] and [old_main] decide
    from its result.  The options are global, so [parse_arguments] is a function
    of their earlier values; strings are Rocq strings.  The two options of the
    Windows build are left out. *)

From Stdlib Require Import Ascii.
From stdpp Require Import strings pretty.
From S2P Require Import Prelude Bytes World Sample.

#[local] Open Scope string_scope.
#[local] Open Scope Z_scope.

(** ** Numbers *)

Definition is_digit (c : Ascii.ascii) : bool :=
  let n := Ascii.nat_of_ascii c in (48 <=? n)%nat && (n <=? 57)%nat.
Definition digit (c : Ascii.ascii) : Z := Z.of_nat (Ascii.nat_of_ascii c) - 48.
(** the white space [atoi] and [strtol] skip *)
Definition is_blank (c : Ascii.ascii) : bool :=
  let n := Ascii.nat_of_ascii c in (n =? 32)%nat || ((9 <=? n)%nat && (n <=? 13)%nat).

(** the digits at the front of a string, and the rest *)
Fixpoint read_digits (s : string) (acc : Z) : Z * string :=
  match s with
  | String c s' => if is_digit c then read_digits s' (10 * acc + digit c) else (acc, s)
  | EmptyString => (acc, s)
  end.
Fixpoint skip_blanks (s : string) : string :=
  match s with
  | String c s' => if is_blank c then skip_blanks s' else s
  | EmptyString => s
  end.
(** sign, then digits: whether there was a digit, the value, the rest *)
Definition read_number (s : string) : bool * Z * string :=
  let s := skip_blanks s in
  let (sign, s) := match s with
    | String "-"%char s => (-1, s)
    | String "+"%char s => (1, s)
    | _ => (1, s)
    end in
  let (v, rest) := read_digits s 0 in
  (negb (String.eqb rest s), sign * v, rest).

Definition atoi (s : string) : Z := (read_number s).1.2.

(** ** The loop over the arguments *)

(** what one argument does: set a flag, or take the next argument *)
Inductive effect :=
| Flag (f : cli_options -> cli_options)
| Param (f : string -> cli_options -> cli_options)
| Unknown.

Definition streq (a b : string) : bool := String.eqb a b.

Definition option_effect (arg : string) : effect :=
  if streq arg "--help" then Flag (set opt_help (fun _ => true)) else
  if streq arg "--version" then Flag (set opt_version (fun _ => true)) else
  if streq arg "--netif" then Param (fun v => set opt_netif (fun _ => Some v)) else
  if streq arg "--zerotier-if" then Param (fun v => set opt_zerotier_name (fun _ => Some v)) else
  if streq arg "--subnet" then Param (fun v => set opt_subnet (fun _ => Some v)) else
  if streq arg "--gateway" then Param (fun v => set opt_gateway_ip (fun _ => Some v)) else
  if streq arg "--relay-server-addr" then Param (fun v => set opt_relay_server_addr (fun _ => Some v)) else
  if streq arg "--username" then Param (fun v => set opt_relay_username (fun _ => Some v)) else
  if streq arg "--password" then Param (fun v => set opt_relay_password (fun _ => Some v)) else
  if streq arg "--password-file" then Param (fun v => set opt_relay_password_file (fun _ => Some v)) else
  if streq arg "--socks5-server-addr" then Param (fun v => set opt_socks5_server_addr (fun _ => Some v)) else
  if streq arg "--list-if" then Flag (set opt_list_if (fun _ => true)) else
  if streq arg "--diagnostics" then Flag (set opt_diagnostics (fun _ => true)) else
  if streq arg "--status-events" then Flag (set opt_status_events (fun _ => true)) else
  if streq arg "--capture-prefix" then
    Param (fun v o => o <| opt_capture_prefix := Some v |> <| opt_diagnostics := true |>) else
  if streq arg "--no-discover-switch" then Flag (set opt_discover_switch (fun _ => false)) else
  if streq arg "--dhcp" then Flag (set opt_dhcp_server (fun _ => true)) else
  if streq arg "--broadcast" then
    Flag (fun o => o <| opt_broadcast := true |> <| opt_relay_server_addr := Some "255.255.255.255:11451" |>) else
  if streq arg "--pmtu" then Param (fun v => set opt_pmtu (fun _ => atoi v)) else
  if streq arg "--fake-internet" then Flag (set opt_fake_internet (fun _ => true)) else
  if streq arg "--set-ionbf" then Flag id else
  if streq arg "--rpc" then Param (fun v => set opt_rpc (fun _ => Some v)) else
  if streq arg "--rpc-token" then Param (fun v => set opt_rpc_token (fun _ => Some v)) else
  if streq arg "--rpc-protocol" then Param (fun v => set opt_rpc_protocol (fun _ => Some v)) else
  Unknown.

(** [false] when an argument lacks its parameter; the options set until then
    stay set *)
Fixpoint parse_loop (args : list string) (o : cli_options) : bool * cli_options :=
  match args with
  | [] => (true, o)
  | arg :: rest =>
      match option_effect arg with
      | Flag f => parse_loop rest (f o)
      | Param f => match rest with [] => (false, o) | v :: rest => parse_loop rest (f v o) end
      | Unknown => parse_loop rest o
      end
  end.

(** the options before the loop; [capture_prefix] is the one that is not reset *)
Definition defaults (prev : cli_options) : cli_options :=
  mkOptions false false false 0 false false false false true false (opt_capture_prefix prev)
    None None None None None None None None None None None None None None None None None.

Definition given {A} (o : option A) : bool := match o with Some _ => true | None => false end.

(** a user name goes with exactly one source of the password *)
Definition credentials_ok (username password file : option string) : bool :=
  negb (given username) || (given password || given file) && negb (given password && given file).

Definition parse_arguments (prev : cli_options) (argv : list string) : Z * cli_options :=
  match argv with
  | [] => (-1, prev)
  | _ :: args =>
      let (ok, o) := parse_loop args (defaults prev) in
      if negb ok then (-1, o) else
      if opt_help o || opt_version o || opt_list_if o || given (opt_rpc o) then (0, o) else
      if negb (credentials_ok (opt_socks5_username o) (opt_socks5_password o) (opt_socks5_password_file o)) then (-1, o) else
      if negb (credentials_ok (opt_relay_username o) (opt_relay_password o) (opt_relay_password_file o)) then (-1, o) else
      (0, o)
  end.

(** ** What the process becomes *)

Inductive action :=
| Exit (code : Z)
| RunRpc (addr : string) (token protocol : option string)
| RunRelay (netif zerotier : string).

(** what the operating system answers while the process starts: whether
    libpcap lists its devices, whether the instance lock was obtained
    ([acquire_relay_instance]), and the status of [lan_play_init] *)
Record launch := mkLaunch {
  can_list : bool;
  instance_acquired : bool;
  init_status : Z
}.

Definition old_main (l : launch) (o : cli_options) : action :=
  if opt_version o then Exit 0 else
  if opt_list_if o then Exit (if can_list l then 0 else 1) else
  match opt_zerotier_name o, opt_netif o with
  | Some z, Some n =>
      if negb (instance_acquired l) then Exit 2 else
      if negb (init_status l =? 0) then Exit (init_status l) else
      RunRelay n z
  | _, _ => Exit 2
  end.

Definition main (l : launch) (prev : cli_options) (argv : list string) : action :=
  let (rc, o) := parse_arguments prev argv in
  if negb (rc =? 0) then Exit 1 else
  if opt_help o then Exit 0 else
  match opt_rpc o with
  | Some addr => RunRpc addr (opt_rpc_token o) (opt_rpc_protocol o)
  | None => old_main l o
  end.

(** ** Composition *)

Lemma parse_loop_app a b o o' : parse_loop a o = (true, o') -> parse_loop (a ++ b) o = parse_loop b o'.
Proof.
  remember (length a) as n eqn:E. revert a o E. induction (lt_wf n) as [n _ IH]. intros a o -> H.
  destruct a as [|arg a]; [by injection H as ->|]. cbn in *. destruct (option_effect arg) as [f|f|].
  - apply (IH (length a)); [cbn; lia|done|done].
  - destruct a as [|v a]; [done|]. cbn in *. apply (IH (length a)); [lia|done|done].
  - apply (IH (length a)); [cbn; lia|done|done].
Qed.

(** ** Numbers written in decimal are read back *)

Lemma pretty_char_digit x : (x < 10)%N -> is_digit (pretty_N_char x) = true /\ digit (pretty_N_char x) = Z.of_N x.
Proof.
  intros Hx. assert (x = 0 \/ x = 1 \/ x = 2 \/ x = 3 \/ x = 4 \/ x = 5 \/ x = 6 \/ x = 7 \/ x = 8 \/ x = 9)%N
    as Hc by lia. repeat destruct Hc as [->|Hc]; subst; by vm_compute.
Qed.

(** strings that start with a digit: neither blanks nor a sign *)
Definition numeral (s : string) : Prop := exists c s', s = String c s' /\ is_digit c = true.

Lemma numeral_read s : numeral s ->
  read_number s = let (v, rest) := read_digits s 0 in (negb (String.eqb rest s), v, rest).
Proof.
  intros (c & s' & -> & Hc). unfold read_number.
  assert (is_blank c = false) as Hb.
  { by destruct c as [[] [] [] [] [] [] [] []]. }
  cbn [skip_blanks]. rewrite Hb.
  destruct c as [[] [] [] [] [] [] [] []]; try discriminate Hc; destruct (read_digits _ 0); by rewrite Z.mul_1_l.
Qed.

Lemma pretty_go_read x : forall s, read_digits (pretty_N_go x s) 0 = read_digits s (Z.of_N x).
Proof.
  induction (N.lt_wf_0 x) as [x _ IH]. intros s. destruct (decide (0 < x)%N) as [Hx|Hx].
  - rewrite pretty_N_go_step, IH by (done || by apply N.div_lt).
    destruct (pretty_char_digit (x `mod` 10)%N) as [Hd Hv]; [by apply N.mod_lt|].
    cbn [read_digits]. rewrite Hd, Hv, N2Z.inj_div, N2Z.inj_mod. f_equal. symmetry. by apply Z.div_mod.
  - assert (x = 0)%N as -> by lia. done.
Qed.
Lemma pretty_go_numeral x : forall s, (0 < x)%N \/ numeral s -> numeral (pretty_N_go x s).
Proof.
  induction (N.lt_wf_0 x) as [x _ IH]. intros s Hs. destruct (decide (0 < x)%N) as [Hx|Hx].
  - rewrite pretty_N_go_step by done. apply IH; [by apply N.div_lt|]. right.
    destruct (pretty_char_digit (x `mod` 10)%N) as [Hd _]; [by apply N.mod_lt|]. by repeat eexists.
  - assert (x = 0)%N as -> by lia. by destruct Hs.
Qed.

Lemma atoi_pretty (z : Z) : atoi (pretty z) = z.
Proof.
  unfold atoi. destruct z as [|p|p]; [done| |].
  - change (pretty (Z.pos p)) with (pretty_N_go (N.pos p) "").
    rewrite numeral_read by (apply pretty_go_numeral; left; lia). rewrite pretty_go_read. done.
  - change (pretty (Z.neg p)) with (String "-"%char (pretty_N_go (N.pos p) "")).
    unfold read_number. cbn [skip_blanks]. change (is_blank "-") with false. cbn iota.
    rewrite pretty_go_read. done.
Qed.

(** ** Writing the options back *)

Definition flag (name : string) (b : bool) : list string := if b then [name] else [].
Definition param (name : string) (v : option string) : list string :=
  match v with Some s => [name; s] | None => [] end.

(** a command line for the options *)
Definition render (o : cli_options) : list string :=
  flag "--help" (opt_help o) ++ flag "--version" (opt_version o) ++ param "--netif" (opt_netif o) ++
  param "--zerotier-if" (opt_zerotier_name o) ++ param "--subnet" (opt_subnet o) ++
  param "--gateway" (opt_gateway_ip o) ++ flag "--broadcast" (opt_broadcast o) ++
  param "--relay-server-addr" (opt_relay_server_addr o) ++ param "--username" (opt_relay_username o) ++
  param "--password" (opt_relay_password o) ++ param "--password-file" (opt_relay_password_file o) ++
  param "--socks5-server-addr" (opt_socks5_server_addr o) ++ flag "--list-if" (opt_list_if o) ++
  flag "--diagnostics" (opt_diagnostics o) ++ flag "--status-events" (opt_status_events o) ++
  param "--capture-prefix" (opt_capture_prefix o) ++ flag "--no-discover-switch" (negb (opt_discover_switch o)) ++
  flag "--dhcp" (opt_dhcp_server o) ++ param "--pmtu" (Some (pretty (opt_pmtu o))) ++ flag "--fake-internet" (opt_fake_internet o) ++
  param "--rpc" (opt_rpc o) ++ param "--rpc-token" (opt_rpc_token o) ++ param "--rpc-protocol" (opt_rpc_protocol o).

(** the options a command line can give: captures imply diagnostics, and the
    broadcast mode an address *)
Record expressible (o : cli_options) : Prop := {
  ex_capture : opt_capture_prefix o <> None -> opt_diagnostics o = true;
  ex_broadcast : opt_broadcast o = true -> opt_relay_server_addr o <> None;
  ex_unset : opt_netif_ipaddr o = None /\ opt_netif_netmask o = None /\ opt_socks5_username o = None /\
    opt_socks5_password o = None /\ opt_socks5_password_file o = None
}.

Lemma flag_step name f (g : bool -> cli_options -> cli_options) b rest o :
  option_effect name = Flag f -> f o = g true o -> o = g false o ->
  parse_loop (flag name b ++ rest) o = parse_loop rest (g b o).
Proof. intros He Ht Hf. destruct b; cbn [flag app parse_loop]; [by rewrite He, Ht|by rewrite <- Hf]. Qed.
Lemma param_step name f (g : option string -> cli_options -> cli_options) v rest o :
  option_effect name = Param f -> (forall s, f s o = g (Some s) o) -> o = g None o ->
  parse_loop (param name v ++ rest) o = parse_loop rest (g v o).
Proof. intros He Ht Hf. destruct v; cbn [param app parse_loop]; [by rewrite He, Ht|by rewrite <- Hf]. Qed.

Lemma broadcast_step b v rest o :
  opt_broadcast o = false -> opt_relay_server_addr o = None -> (b = true -> v <> None) ->
  parse_loop (flag "--broadcast" b ++ param "--relay-server-addr" v ++ rest) o =
    parse_loop rest (o <| opt_broadcast := b |> <| opt_relay_server_addr := v |>).
Proof. intros Hb Hr Hv. destruct o. cbn in *. subst. destruct b, v; try done. by destruct Hv. Qed.
Lemma capture_step v rest o :
  opt_capture_prefix o = None -> (v <> None -> opt_diagnostics o = true) ->
  parse_loop (param "--capture-prefix" v ++ rest) o = parse_loop rest (o <| opt_capture_prefix := v |>).
Proof. intros Hc Hd. destruct o. cbn in *. subst. destruct v; [|done]. by rewrite Hd. Qed.

Lemma pmtu_step p rest o :
  parse_loop (param "--pmtu" (Some (pretty p)) ++ rest) o = parse_loop rest (o <| opt_pmtu := p |>).
Proof.
  transitivity (parse_loop rest (o <| opt_pmtu := atoi (pretty p) |>)); [reflexivity|]. by rewrite atoi_pretty.
Qed.

Ltac flag_rule g := rewrite (flag_step _ _ g) by reflexivity.
Ltac param_rule g := rewrite (param_step _ _ g) by reflexivity.

Lemma parse_render prev o :
  opt_capture_prefix prev = None -> expressible o -> parse_loop (render o) (defaults prev) = (true, o).
Proof.
  intros Hp [Hc Hb Hu]. rewrite <- (app_nil_r (render o)). unfold render, defaults. rewrite Hp.
  destruct o as [h v b p f li di se ds dh c nip n z su g nm ra ru rp rpf so sou sop sopf rpc rpct rpcp].
  cbn -[param flag app] in *. destruct Hu as (-> & -> & -> & -> & ->). subst. rewrite <- !app_assoc.
  flag_rule (fun b o => o <| opt_help := b |>). flag_rule (fun b o => o <| opt_version := b |>).
  param_rule (fun v o => o <| opt_netif := v |>). param_rule (fun v o => o <| opt_zerotier_name := v |>).
  param_rule (fun v o => o <| opt_subnet := v |>). param_rule (fun v o => o <| opt_gateway_ip := v |>).
  rewrite broadcast_step by done.
  param_rule (fun v o => o <| opt_relay_username := v |>). param_rule (fun v o => o <| opt_relay_password := v |>).
  param_rule (fun v o => o <| opt_relay_password_file := v |>). param_rule (fun v o => o <| opt_socks5_server_addr := v |>).
  flag_rule (fun b o => o <| opt_list_if := b |>). flag_rule (fun b o => o <| opt_diagnostics := b |>).
  flag_rule (fun b o => o <| opt_status_events := b |>). rewrite capture_step by done.
  flag_rule (fun b o => o <| opt_discover_switch := negb b |>). flag_rule (fun b o => o <| opt_dhcp_server := b |>).
  rewrite pmtu_step.
  flag_rule (fun b o => o <| opt_fake_internet := b |>). param_rule (fun v o => o <| opt_rpc := v |>).
  param_rule (fun v o => o <| opt_rpc_token := v |>). param_rule (fun v o => o <| opt_rpc_protocol := v |>).
  cbn. by rewrite negb_involutive.
Qed.

(** ** Properties *)

(** Every setting of the options that a command line can express is what
    the parser reads back from the command line written for it. *)
Theorem command_line_round_trip prev o name :
  opt_capture_prefix prev = None -> expressible o ->
  (parse_arguments prev (name :: render o)).2 = o.
Proof.
  intros Hp He. unfold parse_arguments. rewrite parse_render by done. cbn.
  repeat (destruct (_ || _) || destruct (negb _)); done.
Qed.

(** The process becomes the relay only with both adapters named, never
    together with --help, --version, --list-if or --rpc, and a user name only
    with exactly one source of its password; the instance lock is held and
    the relay was initialised. *)
Theorem relay_started l prev argv netif zerotier :
  main l prev argv = RunRelay netif zerotier ->
  instance_acquired l = true /\ init_status l = 0 /\
  let o := (parse_arguments prev argv).2 in
  opt_netif o = Some netif /\ opt_zerotier_name o = Some zerotier /\
  opt_help o = false /\ opt_version o = false /\ opt_list_if o = false /\ opt_rpc o = None /\
  (given (opt_relay_username o) = true -> given (opt_relay_password o) = negb (given (opt_relay_password_file o))).
Proof.
  unfold main. destruct (parse_arguments prev argv) as [rc o] eqn:E. cbn.
  destruct (Z.eqb_spec rc 0) as [->|]; [|done]. cbn [negb]. destruct (opt_help o) eqn:Eh; [done|].
  destruct (opt_rpc o) eqn:Er; [done|]. unfold old_main. destruct (opt_version o) eqn:Ev; [done|].
  destruct (opt_list_if o) eqn:El; [done|].
  destruct (opt_zerotier_name o) as [z|] eqn:Ez; [|done]. destruct (opt_netif o) as [n|] eqn:En; [|done].
  destruct (instance_acquired l); [|done]. destruct (Z.eqb_spec (init_status l) 0); [|done].
  intros [= -> ->]. split_and!; try done. revert E. unfold parse_arguments.
  destruct argv as [|name args]; [done|]. destruct (parse_loop args (defaults prev)) as [ok o'].
  destruct ok; [|done]. cbn [negb]. destruct (_ || _ || _ || _) eqn:Ea.
  { intros [= <-]. by rewrite Eh, Ev, El, Er in Ea. }
  destruct (negb _) ; [done|]. destruct (credentials_ok (opt_relay_username o') _ _) eqn:Ec; [|done]. intros [= <-].
  unfold credentials_ok in Ec.
  by destruct (given (opt_relay_username o')), (given (opt_relay_password o')), (given (opt_relay_password_file o')).
Qed.

(** Arguments are read from left to right, independently of each other:
    what follows a complete command line continues from the options it set. *)
Theorem arguments_compose a b o o' :
  parse_loop a o = (true, o') -> parse_loop (a ++ b) o = parse_loop b o'.
Proof. apply parse_loop_app. Qed.

Definition sample_argv : list string :=
  ["grid0-relay"; "--netif"; "wlan0"; "--zerotier-if"; "zt0"; "--username"; "u"; "--password"; "p"; "--bogus"].
Lemma relay_started_witness :
  opt_netif (parse_arguments (defaults Sample.settings) sample_argv).2 = Some "wlan0" /\
  given (opt_relay_password (parse_arguments (defaults Sample.settings) sample_argv).2) = true.
Proof.
  destruct (relay_started (mkLaunch true true 0) (defaults Sample.settings) sample_argv "wlan0" "zt0" eq_refl)
    as (_ & _ & Hn & _ & _ & _ & _ & _ & Hc).
  split; [exact Hn|exact (Hc eq_refl)].
Defined.
Lemma arguments_compose_witness :
  parse_loop (["--dhcp"] ++ ["--subnet"; "10.13.0.0/16"]) (defaults Sample.settings) =
    parse_loop ["--subnet"; "10.13.0.0/16"] ((defaults Sample.settings) <| opt_dhcp_server := true |>).
Proof. apply (arguments_compose ["--dhcp"] ["--subnet"; "10.13.0.0/16"]). reflexivity. Defined.
Definition sample_options : cli_options :=
  (parse_arguments (defaults Sample.settings) sample_argv).2.
Lemma command_line_witness :
  (parse_arguments (defaults Sample.settings) ("grid0-relay" :: render sample_options)).2 = sample_options.
Proof.
  apply (command_line_round_trip (defaults Sample.settings) sample_options "grid0-relay").
  - reflexivity.
  - constructor; vm_compute; try done; repeat split.
Defined.
