(* ===== verification/Address.v ===== *)
(** * Address: addresses as text

    The parsers of addresses the start-up of the relay uses: [parse_ipv4] and
    [parse_subnet] of src/src/lan-play.c, [str2ip], [parse_ip_port] and
    [parse_addr] of src/src/helper.c, [capture_names_equal] of
    src/src/capture-name.h.  The C library's [strtol], [inet_pton] and
    [sscanf] are written out as far as they are used; the name service
    ([getaddrinfo]) is an argument. *)

From Stdlib Require Import Ascii.
From stdpp Require Import strings pretty.
From S2P Require Import Prelude Bytes World Pcap Options.

#[local] Open Scope string_scope.
#[local] Open Scope Z_scope.

Definition IP_STR_LEN : Z := 16.
Definition SERVER_IP : string := "10.147.17.1".
Definition SUBNET_NET : string := "10.147.17.0".
Definition SUBNET_MASK : string := "255.255.255.0".

Definition strlen (s : string) : Z := Z.of_nat (String.length s).

(** the text before the first [c] and the text after it *)
Fixpoint strchr (c : ascii) (s : string) : option (string * string) :=
  match s with
  | EmptyString => None
  | String d s =>
      if Ascii.eqb d c then Some (EmptyString, s)
      else '(a, b) ← strchr c s; Some (String d a, b)
  end.

(** ** The C library *)

Definition LONG_MAX : Z := 2 ^ 63 - 1.
(** value, the text from [*end] on, and whether [errno] was set; without a
    digit [*end] is the start of the text *)
Definition strtol (s : string) : Z * string * bool :=
  let '(ok, v, rest) := read_number s in
  if negb ok then (0, s, false) else
  if LONG_MAX <? v then (LONG_MAX, rest, true) else
  if v <? - LONG_MAX - 1 then (- LONG_MAX - 1, rest, true) else
  (v, rest, false).

(** [inet_pton(AF_INET, ...)]: [octets] are complete, [cur] is the octet whose
    digits are being read *)
Fixpoint inet_pton_from (s : string) (octets : list Z) (cur : option Z) : option (list Z) :=
  match s with
  | EmptyString =>
      match cur with
      | Some v => if (length octets =? 3)%nat then Some (octets ++ [v])%list else None
      | None => None
      end
  | String c s =>
      if is_digit c then
        match cur with
        | Some v =>
            if v =? 0 then None else
            if 255 <? 10 * v + digit c then None else
            inet_pton_from s octets (Some (10 * v + digit c))
        | None => if (4 <=? length octets)%nat then None else inet_pton_from s octets (Some (digit c))
        end
      else
        match cur with
        | Some v =>
            if negb (Ascii.eqb c ".") then None else
            if (length octets =? 3)%nat then None else
            inet_pton_from s (octets ++ [v])%list None
        | None => None
        end
  end.
Definition inet_pton (s : string) : option (list Z) := inet_pton_from s [] None.

(** [sscanf(s, "%d.%d.%d.%d", ...)] into an array that holds [p] *)
Fixpoint scan_dotted (s : string) (p : list Z) : list Z :=
  match p with
  | [] => []
  | old :: p =>
      let '(ok, v, rest) := read_number s in
      if negb ok then old :: p else
      v :: match rest with
           | String "."%char rest => scan_dotted rest p
           | _ => p
           end
  end.

(** ** lan-play.c *)

Definition parse_ipv4 (text : string) : option (list Z) := inet_pton text.

(** byte [i] of the mask *)
Definition mask_byte (prefix i : Z) : Z :=
  let remaining := prefix - i * 8 in
  if 8 <=? remaining then 255 else
  if remaining <=? 0 then 0 else u8 (Z.shiftl 255 (8 - remaining)).
Definition prefix_mask (prefix : Z) : list Z := map (mask_byte prefix) [0; 1; 2; 3].

Definition parse_subnet (text : string) : option (list Z * list Z) :=
  if IP_STR_LEN <=? strlen text then None else
  '(address, slash) ← strchr "/" text;
  let '(prefix, rest, erange) := strtol slash in
  if erange || negb (String.eqb rest "") || (prefix <? 0) || (32 <? prefix) then None else
  net ← parse_ipv4 address;
  let mask := prefix_mask prefix in
  Some (zip_with Z.land net mask, mask).

(** ** helper.c *)

(** [junk]: the four integers before the call *)
Definition str2ip (junk : list Z) (ip : string) : list Z := map u8 (scan_dotted ip junk).

(** the address, the port, and whether the address was in brackets *)
Definition parse_ip_port (str : string) (out_addr_len : Z) : option (string * Z * bool) :=
  if (strlen str <? 1) || (1000 <? strlen str) then None else
  '(is_ipv6, addr, port) ←
    (match str with
     | String "["%char rest =>
         '(addr, rest) ← strchr "]" rest;
         match rest with String ":"%char port => Some (true, addr, port) | _ => None end
     | _ => '(addr, port) ← strchr ":" str; Some (false, addr, port)
     end);
  if out_addr_len <=? strlen addr then None else
  if 6 <=? strlen port then None else
  let '(v, rest, _) := strtol port in
  if String.eqb port "" || negb (String.eqb rest "") then None else
  if (v <? 0) || (65535 <? v) then None else
  Some (addr, v, is_ipv6).

(** what the name service answers first *)
Inductive addrinfo := Info4 (ip : list Z) | Info6 (ip : list Z) | InfoOther.

Definition parse_addr (getaddrinfo : string -> bool -> option addrinfo) (str : string) : option slp_addr_in :=
  '(addr, port, is_ipv6) ← parse_ip_port str 128;
  info ← getaddrinfo addr is_ipv6;
  match info with
  | Info4 ip => Some (SockAddr4 ip port)
  | Info6 ip => Some (SockAddr6 ip port)
  | InfoOther => None
  end.

(** ** capture-name.h *)

Definition lower (c : ascii) : ascii :=
  let n := nat_of_ascii c in
  if (65 <=? n)%nat && (n <=? 90)%nat then ascii_of_nat (n + 32) else c.
Fixpoint equal_ignoring_case (a b : string) : bool :=
  match a, b with
  | EmptyString, EmptyString => true
  | String x a, String y b => if Ascii.eqb (lower x) (lower y) then equal_ignoring_case a b else false
  | _, _ => false
  end.
Definition capture_names_equal (a b : option string) (windows : bool) : bool :=
  match a, b with
  | Some a, Some b => if negb windows then String.eqb a b else equal_ignoring_case a b
  | _, _ => false
  end.

(** ** Strings *)

Lemma string_app_cons c a b : String c a +:+ b = String c (a +:+ b).
Proof. done. Qed.
Lemma string_length_app a b : String.length (a +:+ b) = (String.length a + String.length b)%nat.
Proof. induction a; [done|]. rewrite string_app_cons. cbn. by f_equal. Qed.
Lemma string_app_nil_r a : a +:+ "" = a.
Proof. induction a; [done|]. rewrite string_app_cons. by f_equal. Qed.
Lemma string_app_assoc a b c : (a +:+ b) +:+ c = a +:+ (b +:+ c).
Proof. induction a; [done|]. rewrite !string_app_cons. by f_equal. Qed.
Lemma strlen_app a b : strlen (a +:+ b) = strlen a + strlen b.
Proof. unfold strlen. rewrite string_length_app. lia. Qed.

(** no character of [s] is [c] *)
Definition free_of (c : ascii) (s : string) : Prop := strchr c s = None.
Lemma strchr_app c a b : free_of c a -> strchr c (a +:+ String c b) = Some (a, b).
Proof.
  unfold free_of. induction a as [|d a IH]; rewrite ?string_app_cons; cbn [strchr].
  - intros _. change (strchr c (String c b) = Some ("", b)). cbn [strchr]. by rewrite Ascii.eqb_refl.
  - destruct (Ascii.eqb d c); [done|]. destruct (strchr c a) as [[]|]; [done|]. intros _. by rewrite IH.
Qed.
Lemma free_of_app c a b : free_of c a -> free_of c b -> free_of c (a +:+ b).
Proof.
  unfold free_of. intros Ha Hb. induction a as [|d a IH]; [done|]. rewrite string_app_cons. cbn [strchr] in *.
  destruct (Ascii.eqb d c); [done|]. destruct (strchr c a) as [[]|]; [done|]. by rewrite IH.
Qed.

(** ** Decimal numbers *)

Lemma pretty_nonneg (z : Z) : 0 <= z -> pretty z = (pretty (Z.to_N z) : string).
Proof. intros Hz. by destruct z. Qed.

(** the text [t] does not start with a digit *)
Definition ends_number (t : string) : Prop :=
  match t with String c _ => is_digit c = false | EmptyString => True end.

Lemma read_digits_stop t v : ends_number t -> read_digits t v = (v, t).
Proof. destruct t as [|c t]; cbn; [done|]. intros ->. done. Qed.

Lemma pretty_go_app x s t : pretty_N_go x (s +:+ t) = pretty_N_go x s +:+ t.
Proof.
  revert s. induction (N.lt_wf_0 x) as [x _ IH]. intros s. destruct (decide (0 < x)%N) as [Hx|Hx].
  - rewrite (pretty_N_go_step x (s +:+ t)), (pretty_N_go_step x s) by done.
    rewrite <- IH by (by apply N.div_lt). done.
  - assert (x = 0)%N as -> by lia. done.
Qed.

(** a nonnegative number in decimal in front of [t] *)
Lemma read_pretty z t : 0 <= z -> ends_number t ->
  numeral (pretty z +:+ t) /\ read_digits (pretty z +:+ t) 0 = (z, t).
Proof.
  intros Hz Ht. rewrite pretty_nonneg by done. unfold pretty, pretty_N. destruct (decide _) as [E|E].
  - assert (z = 0) as -> by lia. split; [by repeat eexists|].
    change (read_digits t 0 = (0, t)). by apply read_digits_stop.
  - rewrite <- pretty_go_app, pretty_go_read. split; [apply pretty_go_numeral; left; lia|].
    rewrite Z2N.id by done. by apply read_digits_stop.
Qed.

Lemma string_app_neq a b : a <> "" -> String.eqb b (a +:+ b) = false.
Proof.
  intros Ha. apply String.eqb_neq. intros E. apply (f_equal String.length) in E.
  rewrite string_length_app in E. destruct a; [done|]. cbn in E. lia.
Qed.
Lemma numeral_front a : numeral a -> a <> "".
Proof. by intros (? & ? & -> & _). Qed.

Lemma read_number_pretty z t : 0 <= z -> ends_number t -> read_number (pretty z +:+ t) = (true, z, t).
Proof.
  intros Hz Ht. destruct (read_pretty z t Hz Ht) as [Hn Hr]. rewrite numeral_read, Hr by done.
  destruct (read_pretty z "" Hz I) as [Hn' _]. rewrite string_app_nil_r in Hn'.
  rewrite string_app_neq by (by apply numeral_front). done.
Qed.

(** ** Dotted addresses *)

Fixpoint dotted (ip : list Z) : string :=
  match ip with
  | [] => ""
  | [a] => pretty a
  | a :: ip => pretty a +:+ String "." (dotted ip)
  end.

Lemma pton_pretty_go x octets : forall s, (0 < x <= 255)%N -> (length octets < 4)%nat ->
  inet_pton_from (pretty_N_go x s) octets None = inet_pton_from s octets (Some (Z.of_N x)).
Proof.
  induction (N.lt_wf_0 x) as [x _ IH]. intros s Hx Ho. rewrite pretty_N_go_step by lia.
  pose proof (N.div_mod x 10 ltac:(lia)) as Hdm. pose proof (N.mod_lt x 10 ltac:(lia)) as Hm.
  pose proof (N.div_lt x 10 ltac:(lia) ltac:(lia)) as Hlt.
  revert Hdm Hm Hlt. generalize (x `div` 10)%N (x `mod` 10)%N. intros q m Hdm Hm Hlt.
  destruct (pretty_char_digit m Hm) as [Hd Hv]. destruct (decide (0 < q)%N) as [Hq|Hq].
  - rewrite IH by lia. cbn [inet_pton_from]. rewrite Hd, Hv.
    destruct (Z.eqb_spec (Z.of_N q) 0); [lia|]. destruct (Z.ltb_spec 255 (10 * Z.of_N q + Z.of_N m)); [lia|].
    do 2 f_equal. lia.
  - assert (q = 0)%N as -> by lia. rewrite pretty_N_go_0. cbn [inet_pton_from]. rewrite Hd, Hv.
    destruct (Nat.leb_spec 4 (length octets)); [lia|]. do 2 f_equal. lia.
Qed.
Lemma pton_pretty v t octets : is_byte v -> (length octets < 4)%nat ->
  inet_pton_from (pretty v +:+ t) octets None = inet_pton_from t octets (Some v).
Proof.
  intros Hv Ho. rewrite pretty_nonneg by apply Hv. unfold pretty, pretty_N. destruct (decide _) as [E|E].
  - assert (v = 0) as -> by (destruct Hv; lia). change ("0" +:+ t) with (String "0" t). cbn [inet_pton_from].
    by rewrite (proj2 (Nat.leb_gt _ _)).
  - rewrite <- pretty_go_app, pton_pretty_go by (done || (destruct Hv; lia)). by rewrite Z2N.id by apply Hv.
Qed.

Lemma pton_dotted ip : forall octets, (length octets + length ip = 4)%nat -> (0 < length ip)%nat -> bytes ip ->
  inet_pton_from (dotted ip) octets None = Some (octets ++ ip)%list.
Proof.
  induction ip as [|a ip IH]; intros octets Hl H0 Hb; [cbn in H0; lia|].
  apply Forall_cons_iff in Hb as [Ha Hb]. destruct ip as [|b ip].
  - cbn [dotted]. rewrite <- (string_app_nil_r (pretty a)), pton_pretty by (done || (cbn in Hl; lia)).
    cbn [inet_pton_from]. by rewrite (proj2 (Nat.eqb_eq _ _)) by (cbn in Hl; lia).
  - change (dotted (a :: b :: ip)) with (pretty a +:+ String "." (dotted (b :: ip))).
    rewrite pton_pretty by (done || (cbn in Hl; lia)). cbn [inet_pton_from].
    change (is_digit ".") with false. cbn match.
    rewrite (proj2 (Nat.eqb_neq _ _)) by (cbn in Hl; lia). rewrite IH; [|cbn in *; rewrite length_app; cbn; lia|cbn; lia|done].
    by rewrite <- app_assoc.
Qed.

Lemma inet_pton_dotted ip : blen ip = 4 -> bytes ip -> inet_pton (dotted ip) = Some ip.
Proof. intros Hl Hb. unfold blen in Hl. apply (pton_dotted ip []); [cbn; lia|lia|done]. Qed.

Lemma digit_range c : is_digit c = true -> 0 <= digit c <= 9.
Proof.
  unfold is_digit, digit. destruct (Nat.leb_spec 48 (nat_of_ascii c)), (Nat.leb_spec (nat_of_ascii c) 57); try done; lia.
Qed.
(** only addresses come out *)
Lemma pton_from_ok s : forall octets cur ip,
  inet_pton_from s octets cur = Some ip -> bytes octets -> (length octets <= 3)%nat ->
  (forall v, cur = Some v -> is_byte v) -> blen ip = 4 /\ bytes ip.
Proof.
  induction s as [|c s IH]; cbn [inet_pton_from]; intros octets cur ip He Hb Hl Hc.
  - destruct cur as [v|]; [|done]. destruct (Nat.eqb_spec (length octets) 3); [|done]. injection He as <-.
    unfold blen. rewrite length_app. split; [cbn; lia|]. apply Forall_app. split; [done|]. constructor; [by apply Hc|done].
  - destruct (is_digit c) eqn:Ed.
    + destruct cur as [v|].
      * destruct (v =? 0); [done|]. destruct (Z.ltb_spec 255 (10 * v + digit c)); [done|].
        apply IH in He; [done..|]. intros ? [= <-]. apply digit_range in Ed. specialize (Hc v eq_refl).
        unfold is_byte in *. lia.
      * destruct (4 <=? length octets)%nat; [done|]. apply IH in He; [done..|]. intros ? [= <-].
        apply digit_range in Ed. unfold is_byte. lia.
    + destruct cur as [v|]; [|done]. destruct (negb _); [done|]. destruct (Nat.eqb_spec (length octets) 3); [done|].
      apply IH in He; [done| | |done].
      * apply Forall_app. split; [done|]. constructor; [by apply Hc|done].
      * rewrite length_app. cbn. lia.
Qed.
Lemma inet_pton_ok s ip : inet_pton s = Some ip -> blen ip = 4 /\ bytes ip.
Proof. intros H. eapply pton_from_ok; [exact H|constructor|cbn; lia|done]. Qed.

(** ** Subnets and endpoints *)

Lemma pretty_go_free c x : is_digit c = false -> forall s, free_of c s -> free_of c (pretty_N_go x s).
Proof.
  intros Hc. induction (N.lt_wf_0 x) as [x _ IH]. intros s Hs. destruct (decide (0 < x)%N) as [Hx|Hx].
  - rewrite pretty_N_go_step by done. apply IH; [by apply N.div_lt|].
    destruct (pretty_char_digit (x `mod` 10)%N) as [Hd _]; [by apply N.mod_lt|]. unfold free_of in *. cbn [strchr].
    destruct (Ascii.eqb_spec (pretty_N_char (x `mod` 10)) c) as [<-|]; [congruence|]. by rewrite Hs.
  - by assert (x = 0)%N as -> by lia.
Qed.
Lemma pretty_free c z : 0 <= z -> is_digit c = false -> free_of c (pretty z).
Proof.
  intros Hz Hc. rewrite pretty_nonneg by done. unfold pretty, pretty_N. destruct (decide _).
  - unfold free_of. cbn [strchr]. destruct (Ascii.eqb_spec "0" c) as [<-|]; done.
  - by apply pretty_go_free.
Qed.
Lemma free_of_cons c d s : d <> c -> free_of c s -> free_of c (String d s).
Proof. unfold free_of. cbn [strchr]. intros Hd ->. by destruct (Ascii.eqb_spec d c). Qed.
Lemma dotted_free c ip : bytes ip -> is_digit c = false -> c <> "."%char -> free_of c (dotted ip).
Proof.
  intros Hb Hc Hd. induction Hb as [|a ip Ha Hb IH]; [done|]. destruct ip as [|b ip].
  - apply pretty_free; [apply Ha|done].
  - apply free_of_app; [apply pretty_free; [apply Ha|done]|]. apply free_of_cons; [congruence|done].
Qed.

Lemma strtol_pretty z : 0 <= z <= LONG_MAX -> strtol (pretty z) = (z, "", false).
Proof.
  intros Hz. unfold strtol. rewrite <- (string_app_nil_r (pretty z)), read_number_pretty by (done || lia). cbn [negb].
  destruct (Z.ltb_spec LONG_MAX z); [lia|]. destruct (Z.ltb_spec z (- LONG_MAX - 1)); [unfold LONG_MAX in *; lia|done].
Qed.

Lemma byte_land (a : Z) : is_byte a <-> Z.land a (Z.ones 8) = a.
Proof.
  rewrite Z.land_ones by lia. unfold is_byte. split; intros H; [by apply Z.mod_small|].
  rewrite <- H. by apply Z.mod_pos_bound.
Qed.
Lemma land_byte a b : is_byte a -> is_byte (Z.land a b).
Proof. rewrite !byte_land. intros Ha. by rewrite (Z.land_comm a b), <- Z.land_assoc, Ha. Qed.
Lemma lor_byte a b : is_byte a -> is_byte b -> is_byte (Z.lor a b).
Proof. rewrite !byte_land. intros Ha Hb. by rewrite Z.land_lor_distr_l, Ha, Hb. Qed.

(** the text of a subnet *)
Definition subnet_text (ip : list Z) (prefix : Z) : string := dotted ip +:+ String "/" (pretty prefix).

Lemma prefix_cases (f : Z -> bool) : forallb f (map Z.of_nat (seq 0 33)) = true -> forall p, 0 <= p <= 32 -> f p = true.
Proof.
  intros H p Hp. rewrite forallb_forall in H. apply H, in_map_iff. exists (Z.to_nat p).
  rewrite in_seq. split; lia.
Qed.
Lemma mask_prefix p : 0 <= p <= 32 -> mask_to_prefix (prefix_mask p) = p.
Proof.
  intros Hp. apply Z.eqb_eq. apply (prefix_cases (fun p => mask_to_prefix (prefix_mask p) =? p)); [by vm_compute|done].
Qed.
Lemma mask_byte_ok p i : is_byte (mask_byte p i).
Proof. unfold mask_byte, is_byte. destruct (_ <=? _); [lia|]. destruct (_ <=? _); [lia|]. by apply Z.mod_pos_bound. Qed.
Lemma prefix_mask_wf p : blen (prefix_mask p) = 4 /\ bytes (prefix_mask p).
Proof. split; [done|]. repeat (constructor; [apply mask_byte_ok|]). constructor. Qed.

Lemma parse_subnet_text ip p : blen ip = 4 -> bytes ip -> 0 <= p <= 32 ->
  parse_subnet (subnet_text ip p) =
    if IP_STR_LEN <=? strlen (subnet_text ip p) then None
    else Some (zip_with Z.land ip (prefix_mask p), prefix_mask p).
Proof.
  intros Hl Hb Hp. unfold parse_subnet. destruct (IP_STR_LEN <=? _); [done|]. unfold subnet_text.
  rewrite strchr_app by (by apply dotted_free). cbn [mbind option_bind].
  rewrite strtol_pretty by (unfold LONG_MAX; lia). cbn [orb negb String.eqb].
  destruct (Z.ltb_spec p 0); [lia|]. destruct (Z.ltb_spec 32 p); [lia|]. cbn [orb].
  unfold parse_ipv4. by rewrite inet_pton_dotted.
Qed.

(** what [parse_subnet] returns is a network and a mask of four bytes each *)
Lemma parse_subnet_ok text net mask : parse_subnet text = Some (net, mask) ->
  exists p, 0 <= p <= 32 /\ mask = prefix_mask p /\ blen net = 4 /\ bytes net /\
    exists ip, blen ip = 4 /\ bytes ip /\ net = zip_with Z.land ip mask.
Proof.
  unfold parse_subnet. destruct (_ <=? _); [done|]. destruct (strchr _ _) as [[a s]|]; [|done]. cbn [mbind option_bind].
  destruct (strtol s) as [[p rest] e]. destruct (Z.ltb_spec p 0); [by rewrite orb_true_r|].
  destruct (Z.ltb_spec 32 p); [by rewrite orb_true_r|]. destruct (_ || _); [done|].
  destruct (parse_ipv4 a) as [ip|] eqn:E; [|done]. intros [= <- <-]. apply inet_pton_ok in E as [Hl Hb].
  destruct (prefix_mask_wf p) as [Lm Bm]. exists p. split_and!; [lia..|done| | |eauto].
  - unfold blen in *. rewrite length_zip_with. lia.
  - clear Lm. revert Bm. generalize (prefix_mask p). clear -Hb. induction Hb as [|x l Hx Hb IH]; [constructor|].
    intros [|m ms] Hm; [constructor|]. apply Forall_cons_iff in Hm as [Hm Hms]. constructor; [|by apply IH].
    by apply land_byte.
Qed.

(** an endpoint, with the address in brackets for IPv6 *)
Definition endpoint_text (v6 : bool) (addr : string) (port : Z) : string :=
  (if v6 then "[" +:+ addr +:+ "]:" else addr +:+ ":") +:+ pretty port.

(** an address the format can carry *)
Definition addressable (v6 : bool) (addr : string) : Prop :=
  strlen addr < 128 /\
  if v6 then free_of "]" addr
  else free_of ":" addr /\ match addr with String "["%char _ => False | _ => True end.

Lemma strlen_pretty p : 0 <= p <= 65535 -> 0 < strlen (pretty p) < 6.
Proof.
  intros Hp. rewrite pretty_nonneg by lia. unfold pretty, pretty_N. destruct (decide _) as [E|E]; [done|].
  assert (Hb : forall n x s, (N.to_nat x < 10 ^ n)%nat -> strlen (pretty_N_go x s) <= Z.of_nat n + strlen s).
  { induction n as [|n IH]; intros x s Hx.
    - assert (x = 0)%N as -> by (cbn in Hx; lia). rewrite pretty_N_go_0. lia.
    - destruct (decide (0 < x)%N); [|assert (x = 0)%N as -> by lia; rewrite pretty_N_go_0; lia].
      rewrite pretty_N_go_step by done. etrans; [apply IH|unfold strlen; cbn; lia].
      rewrite N2Nat.inj_div. apply Nat.Div0.div_lt_upper_bound. cbn in Hx |- *. lia. }
  split.
  - assert (numeral (pretty_N_go (Z.to_N p) "")) as (c & s & -> & _) by (apply pretty_go_numeral; left; lia).
    unfold strlen. cbn. lia.
  - specialize (Hb 5%nat (Z.to_N p) ""). unfold strlen in *. cbn [String.length] in Hb. 
    assert (N.to_nat (Z.to_N p) < 10 ^ 5)%nat; [|lia]. apply Nat2Z.inj_lt. rewrite Nat2Z.inj_pow. lia.
Qed.

Lemma parse_endpoint v6 addr port : addressable v6 addr -> 0 <= port <= 65535 ->
  parse_ip_port (endpoint_text v6 addr port) 128 = Some (addr, port, v6).
Proof.
  intros [Hl Ha] Hp. unfold parse_ip_port. pose proof (strlen_pretty port Hp) as Hpl.
  assert (0 <= strlen addr) by (unfold strlen; lia).
  assert (1 <= strlen (endpoint_text v6 addr port) <= 1000).
  { unfold endpoint_text. destruct v6; rewrite !strlen_app; change (strlen "[") with 1;
      change (strlen "]:") with 2; change (strlen ":") with 1; lia. }
  destruct (Z.ltb_spec (strlen (endpoint_text v6 addr port)) 1); [lia|].
  destruct (Z.ltb_spec 1000 (strlen (endpoint_text v6 addr port))); [lia|]. cbn [orb].
  assert (Hparts : match endpoint_text v6 addr port with
    | String "["%char rest => '(addr, rest) ← strchr "]" rest;
        match rest with String ":"%char port => Some (true, addr, port) | _ => None end
    | _ => '(addr, port) ← strchr ":" (endpoint_text v6 addr port); Some (false, addr, port)
    end = Some (v6, addr, pretty port)).
  { unfold endpoint_text. destruct v6.
    - rewrite !string_app_assoc. change ("[" +:+ ?x) with (String "[" x). change ("]:" +:+ ?x) with (String "]" (String ":" x)).
      cbn match. by rewrite strchr_app.
    - destruct Ha as [Hf Hb]. rewrite string_app_assoc. change (":" +:+ ?x) with (String ":" x).
      rewrite strchr_app by done. cbn [mbind option_bind].
      destruct addr as [|[[] [] [] [] [] [] [] []] addr]; by rewrite ?string_app_cons. }
  rewrite Hparts. cbn [mbind option_bind].
  destruct (Z.leb_spec 128 (strlen addr)); [lia|]. destruct (Z.leb_spec 6 (strlen (pretty port))); [lia|].
  rewrite strtol_pretty by (unfold LONG_MAX; lia).
  destruct (String.eqb_spec (pretty port) "") as [E|]; [rewrite E in Hpl; by destruct Hpl|]. cbn [orb negb String.eqb].
  destruct (Z.ltb_spec port 0); [lia|]. destruct (Z.ltb_spec 65535 port); [lia|]. done.
Qed.

(** ** Names of adapters *)

Fixpoint lowered (s : string) : string :=
  match s with EmptyString => EmptyString | String c s => String (lower c) (lowered s) end.
Lemma equal_ignoring_case_spec a : forall b, equal_ignoring_case a b = true <-> lowered a = lowered b.
Proof.
  induction a as [|x a IH]; intros [|y b]; cbn; try done.
  destruct (Ascii.eqb_spec (lower x) (lower y)) as [->|Hn].
  - rewrite IH. split; [by intros ->|by intros [=]].
  - split; [done|]. intros [=]. done.
Qed.

(** ** Properties *)

(** The text of a subnet, address and prefix length, is parsed to the mask
    with that prefix length and the address under the mask; the mask has the
    prefix length that the capture filter computes from it.  Texts of sixteen
    characters or more are refused. *)
Theorem subnet_round_trip ip p : blen ip = 4 -> bytes ip -> 0 <= p <= 32 ->
  mask_to_prefix (prefix_mask p) = p /\
  parse_subnet (subnet_text ip p) =
    if IP_STR_LEN <=? strlen (subnet_text ip p) then None
    else Some (zip_with Z.land ip (prefix_mask p), prefix_mask p).
Proof. intros Hl Hb Hp. split; [by apply mask_prefix|by apply parse_subnet_text]. Qed.
Lemma subnet_witness : parse_subnet (subnet_text [172; 16; 5; 9] 20) = Some ([172; 16; 0; 0], [255; 255; 240; 0]).
Proof.
  destruct (subnet_round_trip [172; 16; 5; 9] 20) as [_ ->]; [done|by apply sample_bytes|lia|reflexivity].
Defined.

(** Endpoints written as address and port, with the address in brackets for
    IPv6, are parsed back to both. *)
Theorem endpoint_round_trip v6 addr port : addressable v6 addr -> 0 <= port <= 65535 ->
  parse_ip_port (endpoint_text v6 addr port) 128 = Some (addr, port, v6).
Proof. apply parse_endpoint. Qed.
Lemma endpoint_witness : parse_ip_port "[fe80::1]:11451" 128 = Some ("fe80::1", 11451, true).
Proof. apply (endpoint_round_trip true "fe80::1" 11451); [done|lia]. Defined.

(** Valid subnets whose text has sixteen characters or more, such as
    192.168.100.0/24, are refused: the buffer for the text is sized for an
    address without a prefix length. *)
Theorem subnet_text_too_long :
  parse_subnet "192.168.10.0/24" = Some ([192; 168; 10; 0], [255; 255; 255; 0]) /\
  parse_subnet "192.168.100.0/24" = None.
Proof. done. Qed.

(** A subnet with an empty prefix length is accepted and means every
    address: [strtol] reads 0 from the empty text and reports no error. *)
Theorem subnet_empty_prefix ip : blen ip = 4 -> bytes ip -> strlen (dotted ip) < 15 ->
  parse_subnet (dotted ip +:+ "/") = Some ([0; 0; 0; 0], [0; 0; 0; 0]).
Proof.
  intros Hl Hb Hs. unfold parse_subnet. rewrite strlen_app. change (strlen "/") with 1. unfold IP_STR_LEN.
  destruct (Z.leb_spec 16 (strlen (dotted ip) + 1)); [lia|]. rewrite strchr_app by (by apply dotted_free).
  cbn [mbind option_bind]. change (strtol "") with (0, "", false). cbn [orb negb String.eqb Z.ltb Z.compare].
  unfold parse_ipv4. rewrite inet_pton_dotted by done.
  destruct ip as [|a [|b [|c [|d [|]]]]]; try (unfold blen in Hl; cbn in Hl; lia).
  cbn. by rewrite !Z.land_0_r.
Qed.
Lemma subnet_empty_prefix_witness : parse_subnet "10.13.0.0/" = Some ([0; 0; 0; 0], [0; 0; 0; 0]).
Proof. apply (subnet_empty_prefix [10; 13; 0; 0]); [done|by apply sample_bytes|done]. Defined.

(** Adapter names are compared exactly, and on Windows up to the case of
    ASCII letters; a missing name equals none. *)
Theorem capture_names_spec a b windows :
  capture_names_equal a b windows = true <->
  exists x y, a = Some x /\ b = Some y /\ if windows then lowered x = lowered y else x = y.
Proof.
  unfold capture_names_equal. destruct a as [x|], b as [y|]; try (split; [done|by intros (? & ? & ? & ? & _)]).
  split.
  - intros H. exists x, y. split_and!; [done..|].
    destruct windows; [by apply equal_ignoring_case_spec|by apply String.eqb_eq].
  - intros (? & ? & [= <-] & [= <-] & H).
    destruct windows; [by apply equal_ignoring_case_spec|by apply String.eqb_eq].
Qed.
