(* ===== verification/Sha1.v ===== *)
(** * Sha1: the hash of the relay password

    src/src/sha1.c on a little-endian machine: [SHA1Init], [SHA1Update],
    [SHA1Transform] with its expansion of the sixteen message words in place,
    and [SHA1Final].  [Fips] is the hash as the standard defines it; the
    theorem of this file is that any sequence of updates computes it. *)

From S2P Require Import Prelude Bytes.

#[local] Open Scope Z_scope.

Record SHA1_CTX := mkSha { state : list Z; count0 : Z; count1 : Z; sha_buffer : list Z }.

Definition rol (value bits : Z) : Z := Z.lor (u32 (Z.shiftl value bits)) (Z.shiftr value (32 - bits)).

(** ** One block *)

Abbreviation word l i := (nth i l 0).

(** a 32-bit word of the buffer, as the machine loads it *)
Definition load_le32 (p : list Z) : Z :=
  getb p 0 + 256 * getb p 1 + 65536 * getb p 2 + 16777216 * getb p 3.
Definition load_block (p : list Z) : list Z :=
  map (fun i => load_le32 (ptr p (4 * Z.of_nat i))) (seq 0 16).

Definition blk0 (block : list Z) (i : nat) : Z * list Z :=
  let v := Z.lor (Z.land (rol (word block i) 24) 4278255360) (Z.land (rol (word block i) 8) 16711935) in
  (v, <[i := v]> block).
Definition blk (block : list Z) (i : nat) : Z * list Z :=
  let v := rol (Z.lxor (Z.lxor (Z.lxor (word block (Nat.land (i + 13) 15)) (word block (Nat.land (i + 8) 15)))
    (word block (Nat.land (i + 2) 15))) (word block (Nat.land i 15))) 1 in
  (v, <[Nat.land i 15 := v]> block).

(** the five working variables, in the order of the arguments of the next round *)
Record vars := mkVars { va : Z; vb : Z; vc : Z; vd : Z; ve : Z }.

(** one of R0 to R4: [z] and [w] change, and the next round has them in the
    next place *)
Definition R (i : nat) (r : vars) (block : list Z) : vars * list Z :=
  let 'mkVars v w x y z := r in
  let (m, block) := if (i <? 16)%nat then blk0 block i else blk block i in
  let '(f, k) :=
    if (i <? 20)%nat then (Z.lxor (Z.land w (Z.lxor x y)) y, 1518500249) else
    if (i <? 40)%nat then (Z.lxor (Z.lxor w x) y, 1859775393) else
    if (i <? 60)%nat then (Z.lor (Z.land (Z.lor w x) y) (Z.land w x), 2400959708) else
    (Z.lxor (Z.lxor w x) y, 3395469782) in
  (mkVars (u32 (z + (f + m + k + rol v 5))) v (rol w 30) x y, block).

Fixpoint rounds (n i : nat) (r : vars) (block : list Z) : vars * list Z :=
  match n with
  | O => (r, block)
  | S n => let (r, block) := R i r block in rounds n (S i) r block
  end.

Definition SHA1Transform (state buffer : list Z) : list Z :=
  let (r, _) := rounds 80 0 (mkVars (word state 0) (word state 1) (word state 2) (word state 3) (word state 4))
    (load_block buffer) in
  [u32 (word state 0 + va r); u32 (word state 1 + vb r); u32 (word state 2 + vc r);
   u32 (word state 3 + vd r); u32 (word state 4 + ve r)].

(** ** The stream *)

Definition SHA1Init : SHA1_CTX :=
  mkSha [1732584193; 4023233417; 2562383102; 271733878; 3285377520] 0 0 (replicate 64 0).

(** [for ( ; i + 63 < len; i += 64)] *)
Fixpoint update_blocks (fuel : nat) (state data : list Z) (i len : Z) : list Z * Z :=
  match fuel with
  | O => (state, i)
  | S fuel =>
      if u32 (i + 63) <? len then update_blocks fuel (SHA1Transform state (ptr data i)) data (u32 (i + 64)) len
      else (state, i)
  end.

Definition SHA1Update (context : SHA1_CTX) (data : list Z) (len : Z) : SHA1_CTX :=
  let j := count0 context in
  let c0 := u32 (j + u32 (Z.shiftl len 3)) in
  let c1 := if c0 <? j then u32 (count1 context + 1) else count1 context in
  let c1 := u32 (c1 + Z.shiftr len 29) in
  let j := Z.land (Z.shiftr j 3) 63 in
  if 63 <? u32 (j + len) then
    let i := 64 - j in
    let buffer := splice (sha_buffer context) j (field data 0 i) in
    let (st, i) := update_blocks (Z.to_nat len) (SHA1Transform (state context) buffer) data i len in
    mkSha st c0 c1 (splice buffer 0 (field data i (len - i)))
  else
    mkSha (state context) c0 c1 (splice (sha_buffer context) j (field data 0 len)).

(** [while ((context->count[0] & 504) != 448)] *)
Fixpoint pad (fuel : nat) (context : SHA1_CTX) : SHA1_CTX :=
  match fuel with
  | O => context
  | S fuel =>
      if Z.land (count0 context) 504 =? 448 then context
      else pad fuel (SHA1Update context [0] 1)
  end.

Definition SHA1Final (context : SHA1_CTX) : list Z :=
  let finalcount := map (fun i =>
    Z.land (Z.shiftr (if (4 <=? i)%nat then count0 context else count1 context)
      ((3 - Z.land (Z.of_nat i) 3) * 8)) 255) (seq 0 8) in
  let context := SHA1Update context [128] 1 in
  let context := pad 64 context in
  let context := SHA1Update context finalcount 8 in
  map (fun i => Z.land (Z.shiftr (word (state context) (Nat.shiftr i 2)) ((3 - Z.land (Z.of_nat i) 3) * 8)) 255)
    (seq 0 20).

(** ** The standard *)

Module Fips.

Definition Ch (x y z : Z) : Z := Z.lxor (Z.land x y) (Z.land (Z.lnot x) z).
Definition Parity (x y z : Z) : Z := Z.lxor (Z.lxor x y) z.
Definition Maj (x y z : Z) : Z := Z.lxor (Z.lxor (Z.land x y) (Z.land x z)) (Z.land y z).
Definition f (t : nat) : Z -> Z -> Z -> Z :=
  if (t <? 20)%nat then Ch else if (t <? 40)%nat then Parity else if (t <? 60)%nat then Maj else Parity.
Definition K (t : nat) : Z :=
  if (t <? 20)%nat then 1518500249 else if (t <? 40)%nat then 1859775393 else
  if (t <? 60)%nat then 2400959708 else 3395469782.

Definition load_be32 (p : list Z) : Z :=
  getb p 3 + 256 * getb p 2 + 65536 * getb p 1 + 16777216 * getb p 0.

(** the message schedule: the sixteen words of the block and [n] more *)
Fixpoint expand (n : nat) (W : list Z) : list Z :=
  match n with
  | O => W
  | S n =>
      let t := length W in
      expand n (W ++ [rol (Z.lxor (Z.lxor (Z.lxor (word W (t - 3)) (word W (t - 8))) (word W (t - 14))) (word W (t - 16))) 1])
  end.
Definition schedule (block : list Z) : list Z :=
  expand 64 (map (fun i => load_be32 (ptr block (4 * Z.of_nat i))) (seq 0 16)).

Definition step (W : list Z) (r : vars) (t : nat) : vars :=
  let 'mkVars a b c d e := r in
  mkVars (u32 (rol a 5 + f t b c d + e + K t + word W t)) a (rol b 30) c d.

Definition compress (H block : list Z) : list Z :=
  let r := foldl (step (schedule block))
    (mkVars (word H 0) (word H 1) (word H 2) (word H 3) (word H 4)) (seq 0 80) in
  [u32 (va r + word H 0); u32 (vb r + word H 1); u32 (vc r + word H 2); u32 (vd r + word H 3); u32 (ve r + word H 4)].

(** [n] blocks of 64 bytes *)
Fixpoint absorb (n : nat) (H msg : list Z) : list Z :=
  match n with
  | O => H
  | S n => absorb n (compress H (take 64 msg)) (drop 64 msg)
  end.

Definition be32 (v : Z) : list Z := [u8 (v / 16777216); u8 (v / 65536); u8 (v / 256); u8 v].
Definition padded (msg : list Z) : list Z :=
  msg ++ [128] ++ replicate (Z.to_nat ((55 - blen msg) mod 64)) 0 ++
  be32 (8 * blen msg / 4294967296) ++ be32 (8 * blen msg).
Definition sha1 (msg : list Z) : list Z :=
  flat_map be32 (absorb (length (padded msg) / 64) (state SHA1Init) (padded msg)).

End Fips.

(** ** One block is the standard's compression *)

Lemma join_testbit a b n : is_byte a -> 0 <= n -> Z.testbit (a + 256 * b) n = if n <? 8 then Z.testbit a n else Z.testbit b (n - 8).
Proof.
  unfold is_byte. intros Ha Hn. change 256 with (2 ^ 8) in *.
  destruct (Z.ltb_spec n 8).
  - rewrite <- (Z.mod_pow2_bits_low _ 8 n), Z.mul_comm, Z.mod_add by lia. by rewrite Z.mod_small.
  - replace n with (n - 8 + 8) at 1 by lia. rewrite <- Z.div_pow2_bits by lia.
    by rewrite Z.mul_comm, Z.div_add, Z.div_small by lia.
Qed.
Lemma byte_high a n : is_byte a -> 8 <= n -> Z.testbit a n = false.
Proof.
  unfold is_byte. intros Ha Hn. rewrite <- (Z.mod_small a (2 ^ 8)) by lia. by apply Z.mod_pow2_bits_high.
Qed.
Lemma word_testbit a b c d n : is_byte a -> is_byte b -> is_byte c -> is_byte d -> 0 <= n ->
  Z.testbit (a + 256 * b + 65536 * c + 16777216 * d) n =
    if n <? 8 then Z.testbit a n else if n <? 16 then Z.testbit b (n - 8) else
    if n <? 24 then Z.testbit c (n - 16) else Z.testbit d (n - 24).
Proof.
  intros Ha Hb Hc Hd Hn. replace (a + _ + _ + _) with (a + 256 * (b + 256 * (c + 256 * d))) by lia.
  rewrite join_testbit by done. destruct (Z.ltb_spec n 8); [done|]. rewrite join_testbit by (done || lia).
  destruct (Z.ltb_spec (n - 8) 8), (Z.ltb_spec n 16); try lia; [done|]. rewrite join_testbit by (done || lia).
  destruct (Z.ltb_spec (n - 8 - 8) 8), (Z.ltb_spec n 24); try lia; f_equal; lia.
Qed.
Lemma u32_testbit z n : 0 <= n -> Z.testbit (u32 z) n = (n <? 32) && Z.testbit z n.
Proof.
  intros Hn. unfold u32. change 4294967296 with (2 ^ 32). destruct (Z.ltb_spec n 32).
  - by rewrite Z.mod_pow2_bits_low.
  - by rewrite Z.mod_pow2_bits_high.
Qed.
Lemma rol_testbit v k n : 0 <= n -> 0 <= k <= 32 ->
  Z.testbit (rol v k) n = (n <? 32) && Z.testbit v (n - k) || Z.testbit v (n + 32 - k).
Proof.
  intros Hn Hk. unfold rol. rewrite Z.lor_spec, Z.shiftr_spec, u32_testbit, Z.shiftl_spec by lia.
  do 2 f_equal. lia.
Qed.

(** the value of one bit at a concrete position *)
Ltac eval_closed t := let v := eval vm_compute in t in change t with v.
Ltac eval_index := repeat match goal with
  | |- context [Z.testbit ?w ?n] =>
      let v := eval vm_compute in n in progress change (Z.testbit w n) with (Z.testbit w v)
  | |- context [?x <? ?y] => eval_closed (x <? y)
  end.
Ltac one_bit :=
  eval_index; repeat match goal with
    | |- context [Z.testbit (_ + _ + _ + _) (Z.neg ?p)] => rewrite (Z.testbit_neg_r _ (Z.neg p)) by lia
    | |- context [Z.testbit (_ + _ + _ + _) ?n] => rewrite (word_testbit _ _ _ _ n) by (done || lia)
    end;
  eval_index; cbn iota; repeat match goal with
    | |- context [Z.testbit (Z.pos ?x) ?n] => eval_closed (Z.testbit (Z.pos x) n)
    | H : is_byte ?a |- context [Z.testbit ?a ?n] => rewrite (byte_high a n H) by lia
    end;
  rewrite ?andb_false_r, ?andb_false_l, ?orb_false_r, ?andb_true_r, ?andb_true_l, ?orb_false_l; reflexivity.

Lemma swap_word a b c d : is_byte a -> is_byte b -> is_byte c -> is_byte d ->
  let w := a + 256 * b + 65536 * c + 16777216 * d in
  Z.lor (Z.land (rol w 24) 4278255360) (Z.land (rol w 8) 16711935) = d + 256 * c + 65536 * b + 16777216 * a.
Proof.
  intros Ha Hb Hc Hd w. apply Z.bits_inj'. intros n Hn. rewrite Z.lor_spec, !Z.land_spec, !rol_testbit by lia.
  rewrite (word_testbit d c b a) by done.
  destruct (Z.ltb_spec n 32) as [H32|H32].
  - assert (In n (map Z.of_nat (seq 0 32))) as Hin.
    { apply in_map_iff. exists (Z.to_nat n). rewrite in_seq. split; lia. }
    cbn in Hin. subst w.
    repeat (destruct Hin as [<-|Hin]; [solve [one_bit]|]). done.
  - cbn [andb orb]. subst w. rewrite !word_testbit by (done || lia).
    repeat match goal with |- context [?x <? ?y] => destruct (Z.ltb_spec x y); try lia end.
    by rewrite (byte_high d), (byte_high d), (byte_high a) by (done || lia).
Qed.

Lemma ch_eq w x y : Z.lxor (Z.land w (Z.lxor x y)) y = Fips.Ch w x y.
Proof.
  apply Z.bits_inj'. intros n Hn. unfold Fips.Ch.
  rewrite !Z.lxor_spec, !Z.land_spec, Z.lxor_spec, Z.lnot_spec by done.
  by destruct (Z.testbit w n), (Z.testbit x n), (Z.testbit y n).
Qed.
Lemma maj_eq w x y : Z.lor (Z.land (Z.lor w x) y) (Z.land w x) = Fips.Maj w x y.
Proof.
  apply Z.bits_inj'. intros n Hn. unfold Fips.Maj.
  rewrite Z.lor_spec, !Z.lxor_spec, !Z.land_spec, Z.lor_spec.
  by destruct (Z.testbit w n), (Z.testbit x n), (Z.testbit y n).
Qed.

(** the schedule grows at its end only *)
Lemma expand_prefix n : forall W i, (i < length W)%nat -> word (Fips.expand n W) i = word W i.
Proof.
  induction n as [|n IH]; intros W i Hi; [done|]. cbn [Fips.expand]. rewrite IH by (rewrite length_app; lia).
  by rewrite app_nth1.
Qed.
Lemma expand_step n : forall W i, (length W <= i < length W + n)%nat -> (16 <= length W)%nat ->
  let E := Fips.expand n W in
  word E i = rol (Z.lxor (Z.lxor (Z.lxor (word E (i - 3)) (word E (i - 8))) (word E (i - 14))) (word E (i - 16))) 1.
Proof.
  induction n as [|n IH]; intros W i Hi HW E; [lia|]. subst E. cbn [Fips.expand].
  set (v := rol _ 1). destruct (decide (i = length W)) as [->|Hne].
  - rewrite !(expand_prefix n) by (rewrite length_app; cbn; lia).
    rewrite (app_nth2 W) by lia. rewrite Nat.sub_diag. rewrite !app_nth1 by lia. done.
  - apply IH; rewrite length_app; cbn; lia.
Qed.
Lemma block_words block : length (map (fun i => Fips.load_be32 (ptr block (4 * Z.of_nat i))) (seq 0 16)) = 16%nat.
Proof. by rewrite length_map, length_seq. Qed.
Lemma schedule_step block t : (16 <= t < 80)%nat ->
  let W := Fips.schedule block in
  word W t = rol (Z.lxor (Z.lxor (Z.lxor (word W (t - 3)) (word W (t - 8))) (word W (t - 14))) (word W (t - 16))) 1.
Proof.
  intros Ht. unfold Fips.schedule. generalize (block_words block). generalize (map (fun i => Fips.load_be32 (ptr block (4 * Z.of_nat i))) (seq 0 16)).
  intros B HB. refine (expand_step 64 B t _ _); lia.
Qed.
Lemma schedule_word block t : (t < 16)%nat ->
  word (Fips.schedule block) t = Fips.load_be32 (ptr block (4 * Z.of_nat t)).
Proof.
  intros Ht. unfold Fips.schedule. pose proof (block_words block) as HB. rewrite expand_prefix by lia. clear HB.
  assert (E : nth t (seq 0 16) 0%nat = t) by (by rewrite seq_nth).
  rewrite <- E at 2. clear E. generalize (seq 0 16) (length_seq 16 0). intros l Hl.
  rewrite <- (map_nth (fun i => Fips.load_be32 (ptr block (4 * Z.of_nat i)))).
  apply nth_indep. by rewrite length_map, Hl.
Qed.

#[local] Opaque Fips.schedule.

(** the block in place holds the sixteen latest words of the schedule, and
    before round 16 the raw words that were not used yet *)
Definition rolling (p : list Z) (t : nat) (block : list Z) : Prop :=
  length block = 16%nat /\
  (forall s, (s < t)%nat -> (t <= s + 16)%nat -> word block (s mod 16) = word (Fips.schedule p) s) /\
  (forall s, (t <= s < 16)%nat -> word block s = load_le32 (ptr p (4 * Z.of_nat s))).

Lemma rolling_start p : rolling p 0 (load_block p).
Proof.
  assert (Hn : length (load_block p) = 16%nat) by (unfold load_block; by rewrite length_map, length_seq).
  split; [|split]; [done|lia|]. intros s [_ Hs]. 
  assert (E : nth s (seq 0 16) 0%nat = s) by (by rewrite seq_nth).
  rewrite <- E at 2. revert Hn. clear E. unfold load_block. generalize (seq 0 16). intros l Hl. rewrite <- (map_nth (fun i => load_le32 (ptr p (4 * Z.of_nat i)))).
  apply nth_indep. by rewrite Hl.
Qed.

Lemma word_insert block i j v : length block = 16%nat -> (i < 16)%nat ->
  word (<[i := v]> block) j = if decide (j = i) then v else word block j.
Proof.
  intros Hl Hi. rewrite !nth_lookup. destruct (decide _) as [->|Hn].
  - by rewrite list_lookup_insert_eq by lia.
  - by rewrite list_lookup_insert_ne.
Qed.

(** storing the next word keeps the window *)
Lemma rolling_insert p t block v : rolling p t block -> (t < 80)%nat -> v = word (Fips.schedule p) t ->
  rolling p (S t) (<[t mod 16 := v]> block)%nat.
Proof.
  intros (Hl & Hw & Hr) Ht ->. assert (t mod 16 < 16)%nat by (by apply Nat.mod_upper_bound). split; [|split].
  - by rewrite length_insert.
  - intros s Hs Hs'. rewrite word_insert by done. destruct (decide _) as [E|E].
    + assert (s = t) as ->; [|done].
      pose proof (Nat.div_mod_eq s 16). pose proof (Nat.div_mod_eq t 16). lia.
    + assert (s <> t) by congruence. apply Hw; lia.
  - intros s Hs. rewrite word_insert by done. rewrite (Nat.mod_small t) in * by lia.
    destruct (decide _); [lia|]. apply Hr. lia.
Qed.

Lemma land_15 n : Nat.land n 15 = (n mod 16)%nat.
Proof. change 15%nat with (Nat.ones 4). by rewrite Nat.land_ones. Qed.
Lemma rolling_word p t block k : rolling p t block -> (16 <= t)%nat -> (1 <= k <= 16)%nat ->
  word block (Nat.land (t + (16 - k)) 15) = word (Fips.schedule p) (t - k).
Proof.
  intros (_ & Hw & _) Ht Hk. rewrite <- Hw by lia. f_equal. rewrite land_15.
  replace (t + (16 - k))%nat with (t - k + 1 * 16)%nat by lia. by rewrite Nat.Div0.mod_add.
Qed.
Lemma blk_spec p t block : rolling p t block -> (16 <= t < 80)%nat ->
  (blk block t).1 = word (Fips.schedule p) t /\ rolling p (S t) (blk block t).2.
Proof.
  intros Hr Ht. unfold blk. cbn [fst snd].
  pose proof (rolling_word p t block 3 Hr ltac:(lia) ltac:(lia)) as E3.
  pose proof (rolling_word p t block 8 Hr ltac:(lia) ltac:(lia)) as E8.
  pose proof (rolling_word p t block 14 Hr ltac:(lia) ltac:(lia)) as E14.
  pose proof (rolling_word p t block 16 Hr ltac:(lia) ltac:(lia)) as E16.
  cbn [Nat.sub] in *. rewrite Nat.add_0_r in E16. rewrite E3, E8, E14, E16.
  rewrite <- (schedule_step p t Ht). split; [done|]. rewrite land_15. by apply rolling_insert; [|lia|].
Qed.
Lemma blk0_spec p t block : rolling p t block -> (t < 16)%nat -> bytes p ->
  (blk0 block t).1 = word (Fips.schedule p) t /\ rolling p (S t) (blk0 block t).2.
Proof.
  intros Hr Ht Hb. assert (E : (blk0 block t).1 = word (Fips.schedule p) t).
  { unfold blk0. cbn [fst]. destruct Hr as (_ & _ & Hr). rewrite Hr by lia. rewrite schedule_word by done.
    set (q := ptr p _). assert (Hq : bytes q) by (by apply bytes_ptr).
    apply (swap_word (getb q 0) (getb q 1) (getb q 2) (getb q 3)); by apply getb_byte. }
  split; [done|]. unfold blk0 in *. cbn [fst snd] in *. rewrite <- (Nat.mod_small t 16) at 2 by done.
  by apply rolling_insert; [|lia|].
Qed.

Lemma R_spec p t r block : rolling p t block -> (t < 80)%nat -> bytes p ->
  exists block', R t r block = (Fips.step (Fips.schedule p) r t, block') /\ rolling p (S t) block'.
Proof.
  intros Hr Ht Hb. unfold R. destruct r as [v w x y z].
  assert (Hm : exists m block', (if (t <? 16)%nat then blk0 block t else blk block t) = (m, block') /\
    m = word (Fips.schedule p) t /\ rolling p (S t) block').
  { destruct (Nat.ltb_spec t 16).
    - destruct (blk0_spec p t block) as [E Hr']; [done..|]. exists (blk0 block t).1, (blk0 block t).2.
      split; [apply surjective_pairing|by split].
    - destruct (blk_spec p t block) as [E Hr']; [done..|]. exists (blk block t).1, (blk block t).2.
      split; [apply surjective_pairing|by split]. }
  destruct Hm as (m & block' & -> & -> & Hr'). exists block'. split; [|done].
  unfold Fips.step, Fips.f, Fips.K. generalize (word (Fips.schedule p) t). intros m.
  destruct (t <? 20)%nat; [rewrite ch_eq; do 3 f_equal; lia|]. destruct (t <? 40)%nat; [unfold Fips.Parity; do 3 f_equal; lia|].
  destruct (t <? 60)%nat; [rewrite maj_eq; do 3 f_equal; lia|]. unfold Fips.Parity. do 3 f_equal. lia.
Qed.

Lemma rounds_spec p : bytes p -> forall n t r block, rolling p t block -> (t + n <= 80)%nat ->
  (rounds n t r block).1 = foldl (Fips.step (Fips.schedule p)) r (seq t n).
Proof.
  intros Hb. induction n as [|n IH]; intros t r block Hr Ht; [done|]. cbn [rounds seq foldl].
  destruct (R_spec p t r block) as (block' & -> & Hr'); [done|lia|done|]. apply IH; [done|lia].
Qed.

Lemma transform_spec st p : bytes p -> SHA1Transform st p = Fips.compress st p.
Proof.
  intros Hb. unfold SHA1Transform, Fips.compress.
  set (r := mkVars _ _ _ _ _). pose proof (rounds_spec p Hb 80 0 r (load_block p) (rolling_start p) ltac:(lia)) as E.
  destruct (rounds 80 0 r (load_block p)) as [r' b]. cbn [fst] in E. subst r'.
  by rewrite !(Z.add_comm (word st _)).
Qed.

Lemma getb_take p n i : 0 <= i < Z.of_nat n -> getb (take n p) i = getb p i.
Proof. intros Hi. unfold getb. rewrite !nth_lookup, lookup_take_lt by lia. done. Qed.
Lemma compress_take H p : Fips.compress H (take 64 p) = Fips.compress H p.
Proof.
  assert (E : Fips.schedule (take 64 p) = Fips.schedule p).
  { Transparent Fips.schedule. unfold Fips.schedule. f_equal. apply map_ext_in. intros i Hi. apply in_seq in Hi.
    unfold Fips.load_be32. rewrite !getb_ptr, !getb_take by lia. done. }
  unfold Fips.compress. by rewrite E.
Qed.
#[local] Opaque Fips.schedule Fips.compress SHA1Transform.

(** ** The stream *)

Definition digest_of (msg : list Z) : list Z := Fips.absorb (length msg / 64) (state SHA1Init) msg.
(** the bytes after the last full block *)
Definition tail_of (msg : list Z) : list Z := drop (64 * (length msg / 64)) msg.

Lemma absorb_app n : forall m H a b, length a = (64 * n)%nat ->
  Fips.absorb (n + m) H (a ++ b) = Fips.absorb m (Fips.absorb n H a) b.
Proof.
  induction n as [|n IH]; intros m H a b Ha.
  - destruct a; [done|cbn in Ha; lia].
  - cbn [Nat.add Fips.absorb]. rewrite take_app_le, drop_app_le by lia. apply IH. rewrite length_drop. lia.
Qed.
Lemma absorb_front n : forall H a b, length a = (64 * n)%nat -> Fips.absorb n H (a ++ b) = Fips.absorb n H a.
Proof. intros H a b Ha. rewrite <- (Nat.add_0_r n) at 1. by rewrite absorb_app. Qed.

Lemma length_tail msg : length (tail_of msg) = (length msg mod 64)%nat.
Proof. unfold tail_of. rewrite length_drop. pose proof (Nat.div_mod_eq (length msg) 64). lia. Qed.

Lemma split_tail msg data : (length (msg ++ data) / 64 = length msg / 64 + (length (tail_of msg ++ data)) / 64)%nat.
Proof.
  rewrite !length_app, length_tail.
  replace (length msg + length data)%nat with (length msg mod 64 + length data + (length msg / 64) * 64)%nat
    by (pose proof (Nat.div_mod_eq (length msg) 64); lia).
  rewrite Nat.div_add by lia. lia.
Qed.
Lemma digest_extend msg data :
  digest_of (msg ++ data) = Fips.absorb (length (tail_of msg ++ data) / 64) (digest_of msg) (tail_of msg ++ data).
Proof.
  unfold digest_of at 1. rewrite split_tail. set (n := (length msg / 64)%nat).
  assert (Hf : length (take (64 * n) msg) = (64 * n)%nat).
  { rewrite length_take. subst n. pose proof (Nat.div_mod_eq (length msg) 64). lia. }
  assert (Hd : digest_of msg = Fips.absorb n (state SHA1Init) (take (64 * n) msg)).
  { rewrite <- (absorb_front n _ _ (drop (64 * n) msg) Hf). by rewrite take_drop. }
  rewrite Hd, <- absorb_app by done. f_equal. unfold tail_of. fold n. by rewrite app_assoc, take_drop.
Qed.
Lemma tail_extend msg data :
  tail_of (msg ++ data) = drop (64 * (length (tail_of msg ++ data) / 64)) (tail_of msg ++ data).
Proof.
  unfold tail_of at 1. rewrite split_tail. set (n := (length msg / 64)%nat).
  assert (Hf : length (take (64 * n) msg) = (64 * n)%nat).
  { rewrite length_take. subst n. pose proof (Nat.div_mod_eq (length msg) 64). lia. }
  rewrite Nat.mul_add_distr_l, <- drop_drop. f_equal. unfold tail_of. fold n. apply drop_app_le.
  rewrite length_take in Hf. lia.
Qed.

Record hashed (ctx : SHA1_CTX) (msg : list Z) : Prop := {
  hs_state : state ctx = digest_of msg;
  hs_buffer : length (sha_buffer ctx) = 64%nat;
  hs_bytes : bytes (sha_buffer ctx);
  hs_tail : take (length (tail_of msg)) (sha_buffer ctx) = tail_of msg;
  hs_count : count1 ctx * 4294967296 + count0 ctx = 8 * blen msg;
  hs_count0 : 0 <= count0 ctx < 4294967296;
  hs_count1 : 0 <= count1 ctx < 4294967296
}.

Lemma hashed_init : hashed SHA1Init [].
Proof. split; try done. cbn [sha_buffer SHA1Init]. by apply Forall_replicate. Qed.

(** the 64-bit counter of bits in two halves *)
Lemma count_step j c1 len n : 0 <= j < 4294967296 -> 0 <= c1 < 4294967296 -> 0 <= len < 4294967296 ->
  c1 * 4294967296 + j = 8 * n -> 8 * (n + len) < 18446744073709551616 ->
  let c0' := u32 (j + u32 (Z.shiftl len 3)) in
  let c1' := u32 ((if c0' <? j then u32 (c1 + 1) else c1) + Z.shiftr len 29) in
  c1' * 4294967296 + c0' = 8 * (n + len) /\ 0 <= c0' < 4294967296 /\ 0 <= c1' < 4294967296.
Proof.
  intros Hj Hc Hl Hn Hb c0' c1'. split; [|split; apply u32_bound].
  assert (Hs : Z.shiftl len 3 = 8 * len) by (rewrite Z.shiftl_mul_pow2 by lia; lia).
  assert (Hr : Z.shiftr len 29 = len / 536870912) by (by rewrite Z.shiftr_div_pow2).
  assert (Hm : u32 (Z.shiftl len 3) = 8 * len - 4294967296 * (len / 536870912)).
  { rewrite Hs. unfold u32. rewrite Z.mod_eq by lia.
    replace (8 * len / 4294967296) with (len / 536870912); [done|].
    change 4294967296 with (8 * 536870912). by rewrite Z.div_mul_cancel_l. }
  pose proof (u32_bound (Z.shiftl len 3)) as Bm. subst c0' c1'. rewrite Hr. rewrite Hm in *. clear Hs Hr Hm.
  revert Bm. generalize (len / 536870912). intros q Bm.
  set (m := 8 * len - 4294967296 * q) in *. assert (Hq : 8 * len = m + 4294967296 * q) by lia. clearbody m.
  assert (Hc0 : u32 (j + m) = if 4294967296 <=? j + m then j + m - 4294967296 else j + m).
  { destruct (Z.leb_spec 4294967296 (j + m)); [|by apply u32_small; lia].
    unfold u32. symmetry. apply (Z.mod_unique _ _ 1); lia. }
  rewrite Hc0. destruct (Z.leb_spec 4294967296 (j + m)), (Z.ltb_spec (j + m - 4294967296) j), (Z.ltb_spec (j + m) j); try lia.
  - rewrite (u32_small (c1 + 1)) by lia. rewrite u32_small by lia. lia.
  - rewrite u32_small by lia. lia.
Qed.

Lemma count_offset j c1 n : 0 <= j -> c1 * 4294967296 + j = 8 * n -> Z.land (Z.shiftr j 3) 63 = n mod 64.
Proof.
  intros Hj Hn. change 63 with (Z.ones 6). rewrite Z.land_ones, Z.shiftr_div_pow2 by lia.
  change (2 ^ 3) with 8. change (2 ^ 6) with 64.
  replace j with ((n - c1 * 536870912) * 8) by lia. rewrite Z.div_mul by lia.
  replace (n - c1 * 536870912) with (n + (- c1 * 8388608) * 64) by lia. by rewrite Z.mod_add.
Qed.

Lemma update_blocks_spec data len : bytes data -> len < 4294967168 -> forall fuel st i,
  0 <= i <= len -> (len - i) / 64 <= Z.of_nat fuel ->
  update_blocks fuel st data i len =
    (Fips.absorb (Z.to_nat ((len - i) / 64)) st (ptr data i), i + 64 * ((len - i) / 64)).
Proof.
  intros Hb Hl. induction fuel as [|fuel IH]; intros st i Hi Hf.
  - assert ((len - i) / 64 = 0) as -> by (pose proof (Z.div_pos (len - i) 64); lia). cbn. f_equal. lia.
  - cbn [update_blocks]. rewrite (u32_small (i + 63)), (u32_small (i + 64)) by lia.
    destruct (Z.ltb_spec (i + 63) len).
    + assert (E : (len - i) / 64 = (len - (i + 64)) / 64 + 1).
      { replace (len - i) with (len - (i + 64) + 1 * 64) by lia. by rewrite Z.div_add. }
      rewrite IH by lia. assert (0 <= (len - (i + 64)) / 64) by (apply Z.div_pos; lia).
      rewrite E, Z.add_1_r, Z2Nat.inj_succ by done. cbn [Fips.absorb].
      rewrite transform_spec by (by apply bytes_ptr). rewrite compress_take. f_equal; [|lia]. f_equal.
      unfold ptr. rewrite drop_drop. f_equal. lia.
    + rewrite Z.div_small by lia. cbn. f_equal. lia.
Qed.

(** what [memcpy] leaves at the front of the buffer *)
Lemma take_splice p j d : (j + length d <= length p)%nat ->
  take (j + length d) (splice p (Z.of_nat j) d) = take j p ++ d.
Proof.
  intros Hl. unfold splice, blen. rewrite Nat2Z.id, app_assoc. apply take_app_length'. rewrite length_app, length_take. lia.
Qed.

Lemma length_splice p i d : 0 <= i -> i + blen d <= blen p -> length (splice p i d) = length p.
Proof. intros Hi Hd. pose proof (blen_splice p i d Hi Hd). unfold blen in *. lia. Qed.

Section Update.
Context (ctx : SHA1_CTX) (msg data : list Z).
Hypothesis Hh : hashed ctx msg.
Hypothesis Hb : bytes data.
Hypothesis Hl : blen data < 4294967168.

Let r : nat := length (tail_of msg).
Let Hr : (r < 64)%nat.
Proof. unfold r. rewrite length_tail. apply Nat.mod_upper_bound. lia. Qed.

Lemma update_short : (r + length data < 64)%nat ->
  let buffer := splice (sha_buffer ctx) (Z.of_nat r) (field data 0 (blen data)) in
  state ctx = digest_of (msg ++ data) /\ take (length (tail_of (msg ++ data))) buffer = tail_of (msg ++ data).
Proof.
  intros Hs buffer. assert (HX : (length (tail_of msg ++ data) / 64)%nat = 0%nat).
  { apply Nat.div_small. rewrite length_app. exact Hs. }
  rewrite digest_extend, tail_extend, HX, Nat.mul_0_r, drop_0. split; [apply Hh|].
  subst buffer. rewrite field_all by done. rewrite length_app. fold r. rewrite take_splice.
  - subst r. by rewrite (hs_tail _ _ Hh).
  - rewrite (hs_buffer _ _ Hh). lia.
Qed.

Lemma update_long : (64 <= r + length data)%nat ->
  let i := 64 - Z.of_nat r in
  let buffer := splice (sha_buffer ctx) (Z.of_nat r) (field data 0 i) in
  let k := (blen data - i) / 64 in
  buffer = tail_of msg ++ take (64 - r) data /\
  Fips.absorb (Z.to_nat k) (Fips.compress (digest_of msg) buffer) (ptr data i) = digest_of (msg ++ data) /\
  tail_of (msg ++ data) = ptr data (i + 64 * k).
Proof.
  intros Hs i buffer k. unfold blen in *.
  assert (Hi : Z.to_nat i = (64 - r)%nat) by (subst i; lia).
  assert (Hbuf : buffer = tail_of msg ++ take (64 - r) data).
  { subst buffer. unfold field. rewrite drop_0, Hi. unfold splice, blen. rewrite Nat2Z.id, length_take.
    rewrite (drop_ge (sha_buffer ctx)) by (rewrite (hs_buffer _ _ Hh); lia). rewrite app_nil_r. f_equal. apply (hs_tail _ _ Hh). }
  assert (Hk : (length (tail_of msg ++ data) / 64)%nat = S (Z.to_nat k)).
  { rewrite length_app. fold r. replace (r + length data)%nat with ((r + length data - 64) + 1 * 64)%nat by lia.
    rewrite Nat.div_add by lia. subst k i. rewrite Nat.add_1_r. f_equal. apply Nat2Z.inj. rewrite Nat2Z.inj_div, Z2Nat.id.
    - f_equal. lia.
    - apply Z.div_pos; lia. }
  assert (Htl : length (tail_of msg ++ take (64 - r) data) = 64%nat) by (rewrite length_app, length_take; fold r; lia).
  assert (HX : tail_of msg ++ data = (tail_of msg ++ take (64 - r) data) ++ drop (64 - r) data).
  { by rewrite <- app_assoc, take_drop. }
  split; [done|]. rewrite digest_extend, tail_extend, Hk. cbn [Fips.absorb]. rewrite HX, take_app_length' by done.
  rewrite Hbuf. split.
  - f_equal. unfold ptr. rewrite Hi. symmetry. by apply drop_app_length'.
  - rewrite Nat.mul_succ_r, Nat.add_comm, <- drop_drop. rewrite drop_app_length' by done. unfold ptr. rewrite drop_drop. f_equal.
    assert (0 <= k) by (apply Z.div_pos; lia). lia.
Qed.

Lemma update_spec : 8 * (blen msg + blen data) < 18446744073709551616 ->
  hashed (SHA1Update ctx data (blen data)) (msg ++ data).
Proof.
  intros Hc. pose proof (blen_nonneg data) as H0. unfold SHA1Update.
  destruct (count_step (count0 ctx) (count1 ctx) (blen data) (blen msg)) as (Ec & Bc0 & Bc1);
    [apply Hh|apply Hh|lia|apply Hh|done|].
  set (c0 := u32 (count0 ctx + _)) in *. set (c1 := u32 ((if c0 <? _ then _ else _) + _)) in *.
  rewrite (count_offset _ (count1 ctx) (blen msg)) by apply Hh.
  assert (Ej : blen msg mod 64 = Z.of_nat r).
  { unfold blen, r. rewrite length_tail, Nat2Z.inj_mod. done. }
  rewrite Ej, u32_small by lia. destruct (Z.ltb_spec 63 (Z.of_nat r + blen data)) as [Hs|Hs].
  - assert (Hs' : (64 <= r + length data)%nat) by (unfold blen in Hs; lia).
    destruct (update_long Hs') as (Hbuf & Hd & Ht). rewrite update_blocks_spec; [|done|done|lia|].
    2:{ apply Z.div_le_upper_bound; [lia|]. lia. }
    set (i := 64 - Z.of_nat r) in *. set (k := (blen data - i) / 64) in *.
    assert (Hk : 0 <= k /\ 64 * k <= blen data - i < 64 * k + 64).
    { subst k. pose proof (Z.div_mod (blen data - i) 64 ltac:(lia)). pose proof (Z.mod_pos_bound (blen data - i) 64 ltac:(lia)).
      split; [apply Z.div_pos|]; lia. }
    assert (Hbb : bytes (splice (sha_buffer ctx) (Z.of_nat r) (field data 0 i))).
    { apply bytes_splice; [apply Hh|by apply bytes_field]. }
    assert (Hf : field data (i + 64 * k) (blen data - (i + 64 * k)) = tail_of (msg ++ data)).
    { rewrite Ht. unfold field, ptr. apply take_ge. rewrite length_drop. unfold blen. lia. }
    assert (Hlen : (length (tail_of (msg ++ data)) <= 64)%nat) by (rewrite length_tail; pose proof (Nat.mod_upper_bound (length (msg ++ data)) 64 ltac:(lia)); lia).
    assert (Hl1 : length (splice (sha_buffer ctx) (Z.of_nat r) (field data 0 i)) = 64%nat).
    { rewrite Hbuf, length_app, length_take. fold r. lia. }
    rewrite transform_spec by done. rewrite (hs_state _ _ Hh), Hd, Hf. split; cbn [state sha_buffer count0 count1]; try done.
    + rewrite length_splice; unfold blen; lia.
    + apply bytes_splice; [done|]. rewrite <- Hf. by apply bytes_field.
    + apply (take_splice _ 0); lia.
    + rewrite Ec, blen_app. done.
  - assert (Hs' : (r + length data < 64)%nat) by (unfold blen in Hs; lia). destruct (update_short Hs') as [Hd Ht].
    split; cbn [state sha_buffer count0 count1]; try done.
    + pose proof (hs_buffer _ _ Hh). rewrite field_all by done.
      rewrite length_splice; unfold blen; lia.
    + apply bytes_splice; [apply Hh|by apply bytes_field].
    + rewrite Ec, blen_app. done.
Qed.
End Update.

(** ** The end of the message *)

Lemma land_504 c : Z.land c 504 = 8 * Z.land (Z.shiftr c 3) 63.
Proof.
  rewrite Z.mul_comm, <- (Z.shiftl_mul_pow2 _ 3) by lia. apply Z.bits_inj'. intros n Hn.
  change 504 with (Z.shiftl 63 3). rewrite Z.land_spec, !Z.shiftl_spec by done. destruct (Z.lt_ge_cases n 3).
  - by rewrite !(Z.testbit_neg_r _ (n - 3)), andb_false_r by lia.
  - rewrite Z.land_spec, Z.shiftr_spec by lia. by replace (n - 3 + 3) with n by lia.
Qed.

Lemma pad_spec : forall fuel ctx msg k, hashed ctx msg -> k = Z.to_nat ((56 - blen msg) mod 64) -> (k <= fuel)%nat ->
  8 * (blen msg + Z.of_nat k) < 18446744073709551616 -> hashed (pad fuel ctx) (msg ++ replicate k 0).
Proof.
  induction fuel as [|fuel IH]; intros ctx msg k Hh Hk Hf Hb.
  - assert (k = 0%nat) as -> by lia. by rewrite app_nil_r.
  - cbn [pad]. pose proof (Z.mod_pos_bound (56 - blen msg) 64 ltac:(lia)) as Bk.
    rewrite land_504, (count_offset _ (count1 ctx) (blen msg)) by apply Hh.
    pose proof (Z.div_mod (blen msg) 64 ltac:(lia)) as D1. pose proof (Z.mod_pos_bound (blen msg) 64 ltac:(lia)) as B1.
    pose proof (Z.div_mod (56 - blen msg) 64 ltac:(lia)) as D2.
    destruct (Z.eqb_spec (8 * (blen msg mod 64)) 448).
    + assert (k = 0%nat) as -> by lia. by rewrite app_nil_r.
    + destruct k as [|k]; [lia|]. change (replicate (S k) 0) with ([0] ++ replicate k 0). rewrite app_assoc.
      apply IH; [apply (update_spec ctx msg [0]); [done|by apply sample_bytes|done|unfold blen at 2; cbn [length]; lia]| |lia|].
      * rewrite blen_app. change (blen [0]) with 1. apply Nat2Z.inj. rewrite Z2Nat.id by (apply Z.mod_pos_bound; lia).
        apply (Z.mod_unique _ _ ((56 - blen msg) / 64)); lia.
      * rewrite blen_app. change (blen [0]) with 1. lia.
Qed.

Lemma land_byte_shift c k : 0 <= k -> Z.land (Z.shiftr c k) 255 = u8 (c / 2 ^ k).
Proof. intros Hk. change 255 with (Z.ones 8). by rewrite Z.land_ones, Z.shiftr_div_pow2. Qed.

Lemma be32_low v c1 c0 : v = c1 * 4294967296 + c0 -> Fips.be32 v = Fips.be32 c0.
Proof.
  intros ->. unfold Fips.be32, u8.
  replace (c1 * 4294967296 + c0) with (c0 + c1 * 256 * 16777216) at 1 by lia. rewrite Z.div_add, Z.mod_add by lia.
  replace (c1 * 4294967296 + c0) with (c0 + c1 * 65536 * 65536) at 1 by lia. rewrite Z.div_add by lia.
  replace (c0 / 65536 + c1 * 65536) with (c0 / 65536 + c1 * 256 * 256) by lia. rewrite Z.mod_add by lia.
  replace (c1 * 4294967296 + c0) with (c0 + c1 * 16777216 * 256) by lia. rewrite Z.div_add, Z.mod_add by lia.
  replace (c0 / 256 + c1 * 16777216) with (c0 / 256 + c1 * 65536 * 256) by lia. by rewrite Z.mod_add by lia.
Qed.

Lemma finalcount_spec ctx msg : hashed ctx msg ->
  map (fun i => Z.land (Z.shiftr (if (4 <=? i)%nat then count0 ctx else count1 ctx) ((3 - Z.land (Z.of_nat i) 3) * 8)) 255)
    (seq 0 8) = Fips.be32 (8 * blen msg / 4294967296) ++ Fips.be32 (8 * blen msg).
Proof.
  intros [_ _ _ _ Hc Hc0 _]. symmetry in Hc. rewrite (be32_low (8 * blen msg) (count1 ctx) (count0 ctx)) by done.
  rewrite Hc at 1. rewrite Z.add_comm, Z.div_add, Z.div_small, Z.add_0_l by lia.
  cbn [map seq Nat.leb]. unfold Fips.be32. cbn [app].
  rewrite !land_byte_shift by (vm_compute; discriminate). cbn. by rewrite !Z.div_1_r.
Qed.

Lemma absorb_words n : forall H msg, length H = 5%nat -> length (Fips.absorb n H msg) = 5%nat.
Proof. induction n as [|n IH]; intros H msg HH; [done|]. cbn [Fips.absorb]. by apply IH. Qed.

Lemma output_spec st : length st = 5%nat ->
  map (fun i => Z.land (Z.shiftr (word st (Nat.shiftr i 2)) ((3 - Z.land (Z.of_nat i) 3) * 8)) 255) (seq 0 20) =
    flat_map Fips.be32 st.
Proof.
  intros Hl. destruct st as [|a [|b [|c [|d [|e [|]]]]]]; try done. cbn [seq map].
  rewrite !land_byte_shift by (vm_compute; discriminate). unfold Fips.be32. cbn. by rewrite !Z.div_1_r.
Qed.

Lemma absorb_length n : forall H msg, length H = 5%nat -> length (Fips.absorb n H msg) = 5%nat.
Proof. induction n as [|n IH]; intros H msg Hl; [done|]. by apply IH. Qed.
Lemma blen_sha1 msg : blen (Fips.sha1 msg) = 20.
Proof.
  unfold Fips.sha1. pose proof (absorb_length (length (Fips.padded msg) / 64) (state SHA1Init) (Fips.padded msg) eq_refl) as Hl.
  revert Hl. generalize (Fips.absorb (length (Fips.padded msg) / 64) (state SHA1Init) (Fips.padded msg)). intros l Hl.
  by destruct l as [|? [|? [|? [|? [|? [|]]]]]].
Qed.
Lemma sha1_bytes msg : bytes (Fips.sha1 msg).
Proof.
  unfold Fips.sha1. generalize (Fips.absorb (length (Fips.padded msg) / 64) (state SHA1Init) (Fips.padded msg)). intros l.
  induction l as [|x l IH]; cbn [flat_map]; [constructor|]. apply Forall_app_2; [|exact IH].
  unfold Fips.be32. repeat constructor; unfold is_byte; apply Z.mod_pos_bound; lia.
Qed.

Lemma final_spec ctx msg : hashed ctx msg -> 8 * (blen msg + 128) < 18446744073709551616 ->
  SHA1Final ctx = Fips.sha1 msg.
Proof.
  intros Hh Hb. unfold SHA1Final. rewrite (finalcount_spec _ _ Hh). pose proof (blen_nonneg msg).
  assert (H1 : hashed (SHA1Update ctx [128] 1) (msg ++ [128])).
  { apply (update_spec ctx msg [128]); [done|by apply sample_bytes|done|unfold blen at 2; cbn [length]; lia]. }
  set (k := Z.to_nat ((55 - blen msg) mod 64)). pose proof (Z.mod_pos_bound (55 - blen msg) 64 ltac:(lia)) as Bk.
  assert (Hm : blen (msg ++ [128]) = blen msg + 1) by (by rewrite blen_app).
  assert (H2 : hashed (pad 64 (SHA1Update ctx [128] 1)) ((msg ++ [128]) ++ replicate k 0)).
  { apply pad_spec; [done| |subst k; lia|rewrite Hm; subst k; lia]. rewrite Hm. subst k. do 2 f_equal. lia. }
  assert (H3 : hashed (SHA1Update (pad 64 (SHA1Update ctx [128] 1))
      (Fips.be32 (8 * blen msg / 4294967296) ++ Fips.be32 (8 * blen msg)) 8) (Fips.padded msg)).
  { unfold Fips.padded. fold k. rewrite !app_assoc, <- (app_assoc (_ ++ _) (Fips.be32 _)).
    apply (update_spec _ _ (Fips.be32 _ ++ Fips.be32 _) H2); [|done|].
    - apply Forall_app. split; repeat (constructor; [apply u8_byte|]); constructor.
    - assert (E8 : forall a b, blen (Fips.be32 a ++ Fips.be32 b) = 8) by done.
      rewrite E8, (blen_app (msg ++ [128])), Hm, blen_replicate. subst k. lia. }
  cbn [state]. rewrite (hs_state _ _ H3). unfold Fips.sha1. rewrite output_spec; [done|]. by apply absorb_words.
Qed.

(** ** Properties *)

(** the messages of the comment at the top of sha1.c *)
Definition abc : list Z := [97; 98; 99].
Definition two_blocks : list Z := concat (map (fun i => map (fun k => 97 + Z.of_nat (i + k)) (seq 0 4)) (seq 0 14)).

(** C11. However a message is cut into pieces, initialising, updating with the
    pieces and finishing gives the SHA-1 digest that the standard defines for
    the whole message, for messages below 2^61 bytes. *)
Theorem sha1_correct chunks :
  Forall (fun d => bytes d /\ blen d < 4294967168) chunks ->
  8 * (blen (concat chunks) + 128) < 18446744073709551616 ->
  SHA1Final (foldl (fun ctx d => SHA1Update ctx d (blen d)) SHA1Init chunks) = Fips.sha1 (concat chunks).
Proof.
  intros Hc Hb. apply final_spec; [|done].
  enough (H : forall ctx msg, hashed ctx msg -> 8 * (blen (msg ++ concat chunks) + 128) < 18446744073709551616 ->
    hashed (foldl (fun ctx d => SHA1Update ctx d (blen d)) ctx chunks) (msg ++ concat chunks)).
  { apply (H SHA1Init []); [apply hashed_init|done]. }
  clear Hb. induction Hc as [|d chunks [Hd Hl] Hc IH]; intros ctx msg Hh Hb.
  - by rewrite app_nil_r.
  - cbn [concat foldl] in *. rewrite app_assoc in *. apply IH; [|done]. apply update_spec; try done.
    rewrite !blen_app in Hb. pose proof (blen_nonneg (concat chunks)). lia.
Qed.
Lemma sha1_witness :
  SHA1Final (SHA1Update (SHA1Update SHA1Init [97] 1) [98; 99] 2) = Fips.sha1 abc /\
  Fips.sha1 abc = [169; 153; 62; 54; 71; 6; 129; 106; 186; 62; 37; 113; 120; 80; 194; 108; 156; 208; 216; 157] /\
  Fips.sha1 two_blocks =
    [132; 152; 62; 68; 28; 59; 210; 110; 186; 174; 74; 161; 249; 81; 41; 229; 229; 70; 112; 241].
Proof.
  split; [|split; vm_compute; reflexivity].
  apply (sha1_correct [[97]; [98; 99]]); [|reflexivity].
  constructor; [|constructor; [|constructor]]; split; reflexivity || (apply sample_bytes; reflexivity).
Defined.
