(* ===== verification/LanClient.v ===== *)
(** * LanClient: the client of a relay server

    src/src/lan-client.c: datagrams to and from a relay server, the
    fragmentation of IPv4 packets that do not fit the path's MTU and their
    reassembly, broadcasts, and the login.  The reassembly table of one hundred
    slots is [frags]; [frag_step] is what one fragment does to it. *)

From S2P Require Import Prelude Bytes Text Checksum World Sample Pcap Packet Arp Ipv4 Sha1.

#[local] Open Scope Z_scope.

Definition LC_FRAG_SRC : Z := 0.
Definition LC_FRAG_DST : Z := 4.
Definition LC_FRAG_ID : Z := 8.
Definition LC_FRAG_PART : Z := 10.
Definition LC_FRAG_TOTAL_PART : Z := 11.
Definition LC_FRAG_LEN : Z := 12.
Definition LC_FRAG_PMTU : Z := 14.
Definition LC_FRAG_HEADER_LEN : Z := 16.
Definition MIN_FRAG_PAYLOAD_LEN : Z := 500.
Definition CLIENT_RECV_BUF_LEN : Z := 4096.

Definition LAN_CLIENT_TYPE_KEEPALIVE : Z := 0.
Definition LAN_CLIENT_TYPE_IPV4 : Z := 1.
Definition LAN_CLIENT_TYPE_IPV4_FRAG : Z := 3.
Definition LAN_CLIENT_TYPE_AUTH_ME : Z := 4.
Definition LAN_CLIENT_TYPE_INFO : Z := 16.

Definition setclient (f : client_state -> client_state) : M unit := setlp (set lp_client f).
Definition getclient {A} (f : client_state -> A) : M A := getlp (fun l => f (lp_client l)).

(** ** Starting and stopping *)

(** [None] is [exit(1)] *)
Definition lan_client_init : M (option Z) :=
  let* c := getclient id in
  if negb (pmtu c =? 0) && (pmtu c <? MIN_FRAG_PAYLOAD_LEN) then ret None else
  setclient (fun c => c <| frag_id := 0 |> <| local_id := 0 |> <| next_real_broadcast := true |>
    <| frags := replicate LC_FRAG_COUNT no_frag |>) ;;;
  let* _ := ext env_socket_rc in
  let* _ := (if broadcast c then ext env_socket_rc else
             match server_addr c with Some (SockAddr6 _ _) => ext env_socket_rc | _ => ret 0 end) in
  let* _ := ext env_socket_rc in
  let* _ := ext env_socket_rc in
  let* rc := ext env_socket_rc in
  if negb (rc =? 0) then ret (Some rc) else
  let* rc := ext env_socket_rc in
  if negb (rc =? 0) then ret (Some rc) else
  let* rc := ext env_socket_rc in
  if negb (rc =? 0) then ret (Some rc) else
  setclient (fun c => c <| cl_upload_byte := 0 |> <| cl_download_byte := 0 |> <| cl_upload_packet := 0 |>
    <| cl_download_packet := 0 |>) ;;;
  ret (Some rc).

Definition lan_client_close : M Z :=
  let* rc := ext env_socket_rc in
  if negb (rc =? 0) then ret rc else
  let* rc := ext env_socket_rc in
  if negb (rc =? 0) then ret rc else
  ext env_socket_rc.

(** ** Packets for the console *)

Definition lan_client_arp_for_each_cb (packet : list Z) (len : Z) (item : arp_item) : M Z :=
  let* rc := send_ether WifiCtx (ai_mac item) ETHER_TYPE_IPV4 [mkPayload packet len] in
  ret 0.

Definition lan_client_on_broadcast (packet : list Z) (len : Z) : M Z :=
  let* next := getclient next_real_broadcast in
  if next then
    setclient (set next_real_broadcast (fun _ => false)) ;;;
    send_ether WifiCtx BROADCASE_MAC ETHER_TYPE_IPV4 [mkPayload packet len]
  else
    arp_for_each WifiCtx (lan_client_arp_for_each_cb packet len) ;;;
    ret 0.

Definition lan_client_process (packet : list Z) (len : Z) : M Z :=
  if len =? 0 then ret 0 else
  let? dst := rdn packet 16 4 in
  let* c := getctx WifiCtx id in
  if IS_BROADCAST dst (subnet_net c) (subnet_mask c) then lan_client_on_broadcast packet len else
  let* mac := arp_get_mac_by_ip WifiCtx dst in
  match mac with
  | None => ret 0
  | Some mac => send_ether WifiCtx mac ETHER_TYPE_IPV4 [mkPayload packet len]
  end.

(** ** Reassembly *)

Record lan_client_fragment_header := mkFragHeader {
  fh_src : list Z;
  fh_dst : list Z;
  fh_id : Z;
  fh_part : Z;
  fh_total_part : Z;
  fh_len : Z;
  fh_pmtu : Z
}.

Definition frag_header (packet : list Z) : outcome lan_client_fragment_header :=
  try src := rdn packet LC_FRAG_SRC 4 in
  try dst := rdn packet LC_FRAG_DST 4 in
  try id := READ_NET16 packet LC_FRAG_ID in
  try part := READ_NET8 packet LC_FRAG_PART in
  try total_part := READ_NET8 packet LC_FRAG_TOTAL_PART in
  try len := READ_NET16 packet LC_FRAG_LEN in
  try pmtu := READ_NET16 packet LC_FRAG_PMTU in
  Ok (mkFragHeader src dst id part total_part len pmtu).

Definition matches (h : lan_client_fragment_header) (f : lan_client_fragment) : bool :=
  fr_used f && (fr_id f =? fh_id h) && CMP_IPV4 (fr_src f) (fh_src h).

(** the index of the first element with the property *)
Fixpoint first_index {A} (p : A -> bool) (l : list A) : option nat :=
  match l with
  | [] => None
  | x :: l => if p x then Some O else S <$> first_index p l
  end.

(** the slot whose number is farthest from [local], and the distance *)
Fixpoint farthest (l : list lan_client_fragment) (i : nat) (local max_dif : Z) (to_delete : option nat) : Z * option nat :=
  match l with
  | [] => (max_dif, to_delete)
  | f :: l =>
      let dif := Z.abs (fr_local_id f - local) in
      if fr_used f && (max_dif <? dif) then farthest l (S i) local dif (Some i)
      else farthest l (S i) local max_dif to_delete
  end.

Definition take_slot (h : lan_client_fragment_header) (i : nat) (c : client_state) : client_state :=
  let take f := f <| fr_used := true |> <| fr_id := fh_id h |> <| fr_local_id := u16 (local_id c) |>
    <| fr_src := fh_src h |> <| fr_part := 0 |> in
  c <| frags ::= alter take i |> <| local_id := local_id c + 1 |>.

(** the slot for the fragment, taken if it is new; [None] if the table is full *)
Definition find_slot (h : lan_client_fragment_header) (c : client_state) : option nat * client_state :=
  match first_index (matches h) (frags c) with
  | Some i => (Some i, c)
  | None =>
      match first_index (fun f => negb (fr_used f)) (frags c) with
      | Some i => (Some i, take_slot h i c)
      | None =>
          let (max_dif, to_delete) := farthest (frags c) 0 (local_id c) 0 None in
          if Z.of_nat LC_FRAG_COUNT <? max_dif then
            match to_delete with
            | Some i => (Some i, take_slot h i c)
            | None => (None, c)
            end
          else (None, c)
      end
  end.

(** the fragment goes into its slot; the packet and its length when it is complete *)
Definition store_frag (h : lan_client_fragment_header) (packet : list Z) (f : lan_client_fragment) :
    outcome (lan_client_fragment * option (list Z * Z)) :=
  if 31 <=? fh_part h then Stop BadShift else
  let f := f <| fr_part := u8 (Z.lor (fr_part f) (Z.shiftl 1 (fh_part h))) |> in
  try data := rdn packet LC_FRAG_HEADER_LEN (fh_len h) in
  try b := wrn (fr_buffer f) (fh_pmtu h * fh_part h) data in
  let f := f <| fr_buffer := b |> in
  let f := if fh_part h =? fh_total_part h - 1
    then f <| fr_total_len := u16 ((fh_total_part h - 1) * fh_pmtu h + fh_len h) |> else f in
  if 32 <=? fh_total_part h then Stop BadShift else
  if Z.lnot (Z.shiftl (Z.lnot 0) (fh_total_part h)) =? fr_part f then
    Ok (f <| fr_used := false |>, Some (fr_buffer f, fr_total_len f))
  else Ok (f, None).

(** one fragment: the new table, and the packet if it is complete *)
Definition frag_step (packet : list Z) (c : client_state) : outcome (client_state * option (list Z * Z)) :=
  try h := frag_header packet in
  let (slot, c) := find_slot h c in
  match slot with
  | None => Ok (c, None)
  | Some i =>
      match frags c !! i with
      | None => Stop OutOfBounds
      | Some f =>
          try r := store_frag h packet f in
          Ok (c <| frags ::= insert i r.1 |>, r.2)
      end
  end.

(** fragments one after the other: the table at the end and the packets that were completed *)
Fixpoint frag_run (ps : list (list Z)) (c : client_state) : outcome (client_state * list (list Z * Z)) :=
  match ps with
  | [] => Ok (c, [])
  | p :: ps =>
      try r := frag_step p c in
      try r' := frag_run ps r.1 in
      Ok (r'.1, option_list r.2 ++ r'.2)
  end.

Definition lan_client_process_frag (packet : list Z) (len : Z) : M Z :=
  let* c := getclient id in
  let? r := frag_step packet c in
  setclient (fun _ => r.1) ;;;
  match r.2 with
  | Some (buffer, total_len) => lan_client_process buffer total_len
  | None => ret 0
  end.

Definition lan_client_real_broadcast_timer : M unit := setclient (set next_real_broadcast (fun _ => true)).

(** ** Sending *)

Definition lan_client_send_raw (bufs : list (list Z)) : M Z :=
  let total_len := blen (concat bufs) in
  if total_len =? 0 then ret 0 else
  emit (ClientSent (concat bufs)) ;;;
  let* rc := ext env_socket_rc in
  setclient (set cl_upload_packet (fun n => u64 (n + 1))) ;;;
  setclient (set cl_upload_byte (fun n => u64 (n + total_len))) ;;;
  ret rc.

Definition frag_header_bytes (src dst : list Z) (id part total_part part_len pmtu : Z) : list Z :=
  src ++ dst ++ net16 id ++ [u8 part; u8 total_part] ++ net16 part_len ++ net16 pmtu.

(** [while (pos < len)] *)
Fixpoint send_parts (fuel : nat) (src dst packet : list Z) (len pmtu id total_part i pos : Z) : M Z :=
  match fuel with
  | O => stop OutOfFuel
  | S fuel =>
      if pos <? len then
        let part_len := Z.min pmtu (len - pos) in
        let? part := rdn packet pos part_len in
        let* rc := lan_client_send_raw
          [[LAN_CLIENT_TYPE_IPV4_FRAG]; frag_header_bytes src dst id i total_part part_len pmtu; part] in
        if negb (rc =? 0) then ret rc else
        send_parts fuel src dst packet len pmtu id total_part (i + 1) (pos + part_len)
      else ret 0
  end.

Definition lan_client_send (type : Z) (packet : list Z) (len : Z) : M Z :=
  let* c := getclient id in
  let total_part := len / pmtu c + (if pmtu c * (len / pmtu c) <? len then 1 else 0) in
  if (type =? LAN_CLIENT_TYPE_IPV4) && (0 <? pmtu c) && (1 <? total_part) then
    setclient (set frag_id (fun n => n + 1)) ;;;
    let? src := rdn packet 12 4 in
    let? dst := rdn packet 16 4 in
    send_parts (S (Z.to_nat len)) src dst packet len (pmtu c) (frag_id c) total_part 0 0
  else
    let? body := rdn packet 0 len in
    lan_client_send_raw [[type]; body].

Definition lan_client_send_keepalive : M Z := lan_client_send LAN_CLIENT_TYPE_KEEPALIVE [] 0.
Definition lan_client_keepalive_timer : M unit := let* _ := lan_client_send_keepalive in ret tt.
Definition lan_client_send_auth_me (packet : list Z) (len : Z) : M Z := lan_client_send LAN_CLIENT_TYPE_AUTH_ME packet len.

(** ** Receiving *)

Definition lan_client_process_auth_me (packet : list Z) (len : Z) : M unit :=
  let* c := getclient id in
  match username c with
  | None => emit AskLogin
  | Some name =>
      let? auth_type := READ_NET8 packet 0 in
      if negb (auth_type =? 0) then ret tt else
      let challenge_len := u16 (len - 1) in
      let? challenge := rdn packet 1 challenge_len in
      let response_len := u16 (20 + u16 (blen name)) in
      let hash := SHA1Final (SHA1Update (SHA1Update SHA1Init (key c) 20) challenge challenge_len) in
      let? response := wrn (replicate (Z.to_nat response_len) 0) 0 hash in
      let? response := wrn response 20 (take (Z.to_nat (u16 (blen name))) name) in
      let* _ := lan_client_send_auth_me response response_len in
      ret tt
  end.

(** [buffer] is the receive buffer of the client, of which [nread] bytes are
    the datagram *)
Definition lan_client_on_recv (nread : Z) (buffer : list Z) : M unit :=
  if nread <=? 0 then ret tt else
  let recv_len := u16 nread in
  let? first := READ_NET8 buffer 0 in
  let type := Z.land first 127 in
  setclient (set cl_download_packet (fun n => u64 (n + 1))) ;;;
  setclient (set cl_download_byte (fun n => u64 (n + recv_len))) ;;;
  if type =? LAN_CLIENT_TYPE_KEEPALIVE then ret tt else
  if type =? LAN_CLIENT_TYPE_IPV4 then
    let* _ := lan_client_process (ptr buffer 1) (u16 (recv_len - 1)) in ret tt else
  if type =? LAN_CLIENT_TYPE_IPV4_FRAG then
    let* _ := lan_client_process_frag (ptr buffer 1) (u16 (recv_len - 1)) in ret tt else
  if type =? LAN_CLIENT_TYPE_AUTH_ME then lan_client_process_auth_me (ptr buffer 1) (u16 (recv_len - 1)) else
  if type =? LAN_CLIENT_TYPE_INFO then
    let? text := rdn buffer 1 (recv_len - 1) in emit (ServerInfo (until_nul text))
  else ret tt.

(** ** Lists and masks *)

Lemma first_index_some {A} (p : A -> bool) l i : first_index p l = Some i -> exists x, l !! i = Some x /\ p x = true.
Proof.
  revert i. induction l as [|x l IH]; intros i; cbn; [done|]. destruct (p x) eqn:E; [intros [= <-]; by exists x|].
  destruct (first_index p l); [|done]. intros [= <-]. by apply IH.
Qed.
Lemma first_index_insert {A} (p : A -> bool) l i x :
  p x = true -> (first_index p l = Some i \/ (first_index p l = None /\ (i < length l)%nat)) -> first_index p (<[i := x]> l) = Some i.
Proof.
  intros Hx. revert i. induction l as [|y l IH]; intros i; cbn; [intros [?|[_ ?]]; [done|lia]|].
  destruct (p y) eqn:E.
  - intros [[= <-]|[? _]]; [|done]. cbn. by rewrite Hx.
  - destruct i as [|i]; cbn; [by rewrite Hx|]. rewrite E. intros [H|[H Hl]].
    + destruct (first_index p l) as [k|] eqn:Ek; [|done]. injection H as ->. by rewrite IH; [|left].
    + destruct (first_index p l) eqn:Ek; [done|]. rewrite IH; [done|right]. split; [done|lia].
Qed.

Lemma elem_of_middle {A} (x j : A) S T : j ∈ S ++ x :: T <-> j ∈ (x :: S) ++ T.
Proof. by rewrite <- Permutation_middle. Qed.
Lemma elem_of_snoc {A} (x j : A) S : j ∈ S ++ [x] <-> j ∈ x :: S.
Proof. by rewrite Permutation_app_comm. Qed.

(** the bits of the parts received so far *)
Definition mask (S : list Z) : Z := foldr (fun i m => Z.lor m (Z.shiftl 1 i)) 0 S.

Lemma shiftl_1_testbit i n : 0 <= i -> 0 <= n -> Z.testbit (Z.shiftl 1 i) n = (n =? i).
Proof. intros Hi Hn. rewrite Z.shiftl_1_l. rewrite Z.pow2_bits_eqb by done. apply Z.eqb_sym. Qed.
Lemma mask_testbit S n : Forall (fun i => 0 <= i) S -> 0 <= n -> Z.testbit (mask S) n = bool_decide (n ∈ S).
Proof.
  intros HS Hn. induction HS as [|i S Hi HS IH]; cbn [mask foldr].
  - by rewrite Z.bits_0, bool_decide_eq_false_2 by apply not_elem_of_nil.
  - rewrite Z.lor_spec, shiftl_1_testbit by done. fold (mask S). rewrite IH.
    destruct (Z.eqb_spec n i) as [->|Hne].
    + rewrite orb_true_r. symmetry. apply bool_decide_eq_true_2, elem_of_cons. by left.
    + rewrite orb_false_r. apply bool_decide_ext. rewrite elem_of_cons. split; [by right|by intros [?|?]].
Qed.
Lemma mask_u8 S : Forall (fun i => 0 <= i < 8) S -> u8 (mask S) = mask S.
Proof.
  intros HS. unfold u8. change 256 with (2 ^ 8). rewrite <- Z.land_ones by lia. apply Z.bits_inj'. intros n Hn.
  assert (HS0 : Forall (fun i => 0 <= i) S) by (eapply List.Forall_impl; [|exact HS]; cbn; lia).
  rewrite Z.land_spec, Z.testbit_ones_nonneg, mask_testbit by (done || lia).
  destruct (Z.ltb_spec n 8); [by rewrite andb_true_r|]. rewrite andb_false_r. symmetry.
  apply bool_decide_eq_false_2. intros Hin%list_elem_of_In. rewrite Forall_forall in HS. specialize (HS _ Hin). lia.
Qed.
(** the comparison with [~(~0 << n)] tells whether all parts are there *)
Lemma mask_full S n : Forall (fun i => 0 <= i < n) S -> 0 <= n ->
  Z.lnot (Z.shiftl (Z.lnot 0) n) = mask S <-> forall i, 0 <= i < n -> i ∈ S.
Proof.
  intros HS Hn. assert (HS0 : Forall (fun i => 0 <= i) S) by (eapply List.Forall_impl; [|exact HS]; cbn; lia).
  assert (E : Z.lnot (Z.shiftl (Z.lnot 0) n) = Z.ones n).
  { rewrite Z.ones_equiv, Z.shiftl_mul_pow2 by done. unfold Z.lnot. lia. }
  rewrite E. split.
  - intros Hm i Hi. apply (bool_decide_eq_true_1 (i ∈ S)). rewrite <- mask_testbit, <- Hm by (done || lia).
    rewrite Z.testbit_ones_nonneg by lia. apply Z.ltb_lt. lia.
  - intros Hall. apply Z.bits_inj'. intros k Hk. rewrite Z.testbit_ones_nonneg, mask_testbit by done.
    destruct (Z.ltb_spec k n).
    + symmetry. apply bool_decide_eq_true_2, Hall. lia.
    + symmetry. apply bool_decide_eq_false_2. intros Hin%list_elem_of_In. rewrite Forall_forall in HS. specialize (HS _ Hin). lia.
Qed.

(** ** Fragments of one packet *)

(** offsets in a buffer as natural numbers *)
Ltac eval_offsets := repeat match goal with
  | |- context [Z.to_nat ?z] => let v := eval vm_compute in (Z.to_nat z) in progress change (Z.to_nat z) with v
  end.

Section Reassembly.
Context (packet : list Z) (len mtu id n : Z) (src dst : list Z).
Hypothesis Hmtu : 0 < mtu <= 65535.
Hypothesis Hlen : 0 < len <= ETHER_MTU.
Hypothesis Hpkt : len <= blen packet.
Hypothesis Hn : 0 < n <= 8.
Hypothesis Hcover : (n - 1) * mtu < len <= n * mtu.
Hypothesis Hsrc : blen src = 4.
Hypothesis Hdst : blen dst = 4.

Definition part_len (i : Z) : Z := Z.min mtu (len - i * mtu).
Definition fragment (i : Z) : list Z :=
  frag_header_bytes src dst id i n (part_len i) mtu ++ field packet (i * mtu) (part_len i).

Lemma part_range i : 0 <= i < n -> 0 < part_len i <= len /\ 0 <= i * mtu /\ i * mtu + part_len i <= len /\ i * mtu <= 65535.
Proof using All. intros Hi. unfold part_len, ETHER_MTU in *. nia. Qed.
Lemma last_part : (n - 1) * mtu + part_len (n - 1) = len.
Proof using All. unfold part_len. nia. Qed.

Definition header_of (i : Z) : lan_client_fragment_header := mkFragHeader src dst (u16 id) i n (part_len i) mtu.

Lemma blen_header i : blen (frag_header_bytes src dst id i n (part_len i) mtu) = 16.
Proof using All. unfold frag_header_bytes. rewrite !blen_app, Hsrc, Hdst. done. Qed.

Lemma fragment_header i rest : 0 <= i < n -> frag_header (fragment i ++ rest) = Ok (header_of i).
Proof using All.
  intros Hi. destruct (part_range i Hi) as (Hp & _ & Hp2 & _). unfold fragment, header_of, frag_header.
  rewrite <- app_assoc. set (data := field packet _ _ ++ rest). set (p := _ ++ data).
  assert (Hpl : 16 <= blen p) by (unfold p; rewrite blen_app, blen_header; pose proof (blen_nonneg data); lia).
  rewrite !rdn_ok by (unfold LC_FRAG_SRC, LC_FRAG_DST; lia). cbn [obind].
  rewrite !READ_NET16_ok, !READ_NET8_ok by (unfold LC_FRAG_ID, LC_FRAG_PART, LC_FRAG_TOTAL_PART, LC_FRAG_LEN, LC_FRAG_PMTU; lia).
  cbn [obind]. unfold blen in Hsrc, Hdst.
  destruct src as [|s1 [|s2 [|s3 [|s4 [|]]]]]; cbn in Hsrc; try lia. destruct dst as [|d1 [|d2 [|d3 [|d4 [|]]]]]; cbn in Hdst; try lia.
  unfold p, frag_header_bytes, net16, be16, getb, field. eval_offsets. cbn [nth take drop app].
  rewrite !net16_value, !u8_small by (unfold is_byte; lia). unfold ETHER_MTU in *. by rewrite (u16_small (part_len i)), (u16_small mtu) by lia.
Qed.
Lemma fragment_data i rest : 0 <= i < n ->
  rdn (fragment i ++ rest) LC_FRAG_HEADER_LEN (part_len i) = Ok (field packet (i * mtu) (part_len i)).
Proof using All.
  intros Hi. destruct (part_range i Hi) as (Hp & H0 & Hp2 & _). unfold LC_FRAG_HEADER_LEN, fragment.
  assert (Hf : blen (field packet (i * mtu) (part_len i)) = part_len i) by (rewrite blen_field; lia).
  rewrite rdn_ok by (rewrite ?blen_app, ?blen_header, ?Hf; pose proof (blen_nonneg rest); lia). f_equal.
  rewrite <- app_assoc. unfold field at 1. rewrite drop_app_length' by (pose proof (blen_header i); unfold blen in *; lia).
  apply take_app_length'. unfold blen in Hf. lia.
Qed.

(** a slot that has received the parts [S] of the packet *)
Record slot_of (S : list Z) (f : lan_client_fragment) : Prop := {
  so_used : fr_used f = true;
  so_id : fr_id f = u16 id;
  so_src : fr_src f = src;
  so_part : fr_part f = mask S;
  so_parts : Forall (fun i => 0 <= i < n) S;
  so_buffer : blen (fr_buffer f) = ETHER_MTU;
  so_data : forall i, i ∈ S -> field (fr_buffer f) (i * mtu) (part_len i) = field packet (i * mtu) (part_len i);
  so_total : n - 1 ∈ S -> fr_total_len f = len
}.

Lemma parts_disjoint i j : 0 <= i < n -> 0 <= j < n -> i <> j ->
  i * mtu + part_len i <= j * mtu \/ j * mtu + part_len j <= i * mtu.
Proof using All. intros Hi Hj Hne. unfold part_len. destruct (Z.lt_ge_cases i j); [left|right]; nia. Qed.

Lemma store_part S f i rest : slot_of S f -> 0 <= i < n ->
  exists f', slot_of (i :: S) f' /\
  store_frag (header_of i) (fragment i ++ rest) f =
    (if Z.lnot (Z.shiftl (Z.lnot 0) n) =? mask (i :: S) then Ok (f' <| fr_used := false |>, Some (fr_buffer f', fr_total_len f')) else Ok (f', None)).
Proof using All.
  intros [Hu Hi1 Hs1 Hm Hps Hb Hd Ht] Hi. destruct (part_range i Hi) as (Hp & H0 & Hp2 & Hp3).
  assert (HS : Forall (fun i => 0 <= i < n) (i :: S)) by (by constructor).
  assert (Hdata : blen (field packet (i * mtu) (part_len i)) = part_len i) by (rewrite blen_field; lia).
  unfold store_frag. cbn [header_of fh_part fh_len fh_pmtu fh_total_part].
  destruct (Z.leb_spec 31 i); [lia|]. rewrite fragment_data by done. cbn [obind].
  rewrite wrn_ok by (cbn; rewrite ?Hdata, ?Hb; unfold ETHER_MTU in *; lia). cbn [obind]. destruct (Z.leb_spec 32 n); [lia|].
  set (b := splice _ _ _). set (t := if i =? n - 1 then len else fr_total_len f).
  set (f' := mkFrag (fr_local_id f) (fr_src f) (fr_id f) (mask (i :: S)) true t b).
  assert (Hf' : slot_of (i :: S) f').
  { split; cbn; try done.
    - unfold b. rewrite blen_splice by (cbn; rewrite ?Hdata, ?Hb; unfold ETHER_MTU in *; lia). done.
    - intros j Hj. unfold b. cbn [fr_buffer set]. rewrite (Z.mul_comm mtu i). apply elem_of_cons in Hj.
      destruct (decide (j = i)) as [->|Hne].
      + by rewrite field_splice_same by (cbn; rewrite ?Hdata, ?Hb; unfold ETHER_MTU in *; lia).
      + destruct Hj as [?|Hj]; [done|]. assert (Hjr : 0 <= j < n) by (apply list_elem_of_In in Hj; rewrite Forall_forall in Hps; by apply Hps).
        destruct (part_range j Hjr) as (? & ? & ? & ?).
        rewrite field_splice_other; [by apply Hd|..]; cbn; rewrite ?Hdata, ?Hb; try (unfold ETHER_MTU in *; lia).
        destruct (parts_disjoint i j); auto; lia.
    - intros Hj. unfold t. destruct (Z.eqb_spec i (n - 1)); [done|]. apply Ht. apply elem_of_cons in Hj as [?|?]; [lia|done]. }
  exists f'. split; [done|].
  assert (Hmask : u8 (Z.lor (fr_part f) (Z.shiftl 1 i)) = mask (i :: S)).
  { rewrite Hm. change (Z.lor (mask S) (Z.shiftl 1 i)) with (mask (i :: S)). apply mask_u8.
    eapply List.Forall_impl; [|exact HS]. cbn. lia. }
  assert (Hlast : i = n - 1 -> u16 ((n - 1) * mtu + part_len i) = len).
  { intros ->. rewrite last_part. apply u16_small. unfold ETHER_MTU in *. lia. }
  assert (E : (if i =? n - 1
     then f <| fr_part := u8 (Z.lor (fr_part f) (Z.shiftl 1 i)) |> <| fr_buffer := b |> <| fr_total_len := u16 ((n - 1) * mtu + part_len i) |>
     else f <| fr_part := u8 (Z.lor (fr_part f) (Z.shiftl 1 i)) |> <| fr_buffer := b |>) = f').
  { unfold f', t. destruct (Z.eqb_spec i (n - 1)); destruct f; cbn in *; subst; unfold set; cbn; by rewrite Hmask, ?Hlast. }
  by rewrite E.
Qed.

(** the table has the slot [s] for the packet, and it is the first that matches *)
Definition holding (c : client_state) (s : nat) (S : list Z) : Prop :=
  exists f, slot_of S f /\ frags c !! s = Some f /\ forall i, first_index (matches (header_of i)) (frags c) = Some s.

Lemma slot_matches S f i : slot_of S f -> matches (header_of i) f = true.
Proof using All.
  intros [Hu Hi Hs]. unfold matches. cbn. rewrite Hu, Hi, Hs, Z.eqb_refl. cbn. by apply CMP_IPV4_spec.
Qed.

Lemma next_part c s S i rest : holding c s S -> 0 <= i < n -> ~ (forall j, 0 <= j < n -> j ∈ i :: S) ->
  exists c', frag_step (fragment i ++ rest) c = Ok (c', None) /\ holding c' s (i :: S).
Proof using All.
  intros (f & Hf & Hl & Hx) Hi Hnot. unfold frag_step. rewrite fragment_header by done. cbn [obind].
  unfold find_slot. rewrite Hx, Hl. destruct (store_part S f i rest Hf Hi) as (f' & Hf' & ->).
  destruct (Z.eqb_spec (Z.lnot (Z.shiftl (Z.lnot 0) n)) (mask (i :: S))) as [E|E].
  { destruct Hnot. by apply (proj1 (mask_full (i :: S) n (so_parts _ _ Hf') ltac:(lia))). }
  cbn. eexists. split; [done|]. exists f'. split_and!; [done| |].
  - cbn. apply list_lookup_insert_eq. by apply lookup_lt_Some in Hl.
  - intros j. cbn. apply first_index_insert; [by eapply slot_matches|]. left. apply Hx.
Qed.

Lemma full_buffer S f : slot_of S f -> (forall j, 0 <= j < n -> j ∈ S) ->
  fr_total_len f = len /\ field (fr_buffer f) 0 len = field packet 0 len.
Proof using All.
  intros [_ _ _ _ _ Hb Hd Ht] Hall. split; [apply Ht, Hall; lia|]. unfold ETHER_MTU in *.
  apply list_eq. intros k. destruct (decide (k < Z.to_nat len)%nat) as [Hk|Hk].
  2:{ rewrite !lookup_ge_None_2; [done|..]; unfold field; rewrite length_take, length_drop; lia. }
  set (i := Z.of_nat k / mtu). assert (Hdm := Z.div_mod (Z.of_nat k) mtu ltac:(lia)). assert (Hm := Z.mod_pos_bound (Z.of_nat k) mtu ltac:(lia)).
  fold i in Hdm. set (r := Z.of_nat k mod mtu) in *. assert (Hi : 0 <= i < n) by (split; [apply Z.div_pos|]; nia).
  specialize (Hd i (Hall i Hi)). assert (Hr : r < part_len i) by (unfold part_len; lia).
  apply (f_equal (fun l => l !! Z.to_nat r)) in Hd. revert Hd. unfold field.
  rewrite !lookup_take_lt, !lookup_drop by lia. rewrite !Nat.add_0_l.
  replace (Z.to_nat (i * mtu) + Z.to_nat r)%nat with k by nia. done.
Qed.

Lemma last_fragment c s S i rest : holding c s S -> 0 <= i < n -> (forall j, 0 <= j < n -> j ∈ i :: S) ->
  exists c' b, frag_step (fragment i ++ rest) c = Ok (c', Some (b, len)) /\ field b 0 len = field packet 0 len /\ blen b = ETHER_MTU.
Proof using All.
  intros (f & Hf & Hl & Hx) Hi Hall. unfold frag_step. rewrite fragment_header by done. cbn [obind].
  unfold find_slot. rewrite Hx, Hl. destruct (store_part S f i rest Hf Hi) as (f' & Hf' & ->).
  destruct (Z.eqb_spec (Z.lnot (Z.shiftl (Z.lnot 0) n)) (mask (i :: S))) as [E|E].
  - destruct (full_buffer _ _ Hf' Hall) as [Ht Hb]. cbn. rewrite Ht. eexists _, _. split_and!; [done|done|apply Hf'].
  - destruct E. by apply (proj2 (mask_full (i :: S) n (so_parts _ _ Hf') ltac:(lia))).
Qed.

Lemma first_part c s i rest : 0 <= i < n ->
  first_index (matches (header_of i)) (frags c) = None ->
  first_index (fun f => negb (fr_used f)) (frags c) = Some s ->
  Forall (fun f => blen (fr_buffer f) = ETHER_MTU) (frags c) ->
  let c' := take_slot (header_of i) s c in
  holding c' s [] /\ frag_step (fragment i ++ rest) c = frag_step (fragment i ++ rest) c'.
Proof using All.
  intros Hi Hnone Hfree Hbuf c'. destruct (first_index_some _ _ _ Hfree) as (f & Hf & _).
  assert (Hh : holding c' s []).
  { set (g := f <| fr_used := true |> <| fr_id := u16 id |> <| fr_local_id := u16 (local_id c) |>
      <| fr_src := src |> <| fr_part := 0 |>).
    assert (Hg : slot_of [] g).
    { split; try done; [|by intros ? ?%elem_of_nil|by intros ?%elem_of_nil].
      rewrite Forall_forall in Hbuf. apply (Hbuf f), list_elem_of_In, list_elem_of_lookup. by exists s. }
    assert (E : frags c' = <[s := g]> (frags c)).
    { unfold c', take_slot. destruct c. cbn in *. unfold set. cbn. apply list_eq. intros k.
      destruct (decide (k = s)) as [->|].
      - rewrite list_lookup_alter_eq, Hf, list_lookup_insert_eq by (by apply lookup_lt_Some in Hf). done.
      - by rewrite list_lookup_alter_ne, list_lookup_insert_ne by done. }
    exists g. rewrite E. split_and!; [done|apply list_lookup_insert_eq; by apply lookup_lt_Some in Hf|].
    intros j. apply first_index_insert; [by eapply slot_matches|]. right. split; [done|by apply lookup_lt_Some in Hf]. }
  split; [done|]. unfold frag_step. rewrite fragment_header by done. cbn [obind].
  destruct Hh as (g & _ & _ & Hx). unfold find_slot at 2. rewrite Hx. unfold find_slot. by rewrite Hnone, Hfree.
Qed.

Lemma more_parts parts i rest c s S :
  holding c s S -> Forall (fun p => 0 <= p.1 < n) (parts ++ [(i, rest)]) -> i ∉ S ++ parts.*1 ->
  (forall j, 0 <= j < n -> j ∈ S ++ (parts ++ [(i, rest)]).*1) ->
  exists c' b, frag_run (map (fun p => fragment p.1 ++ p.2) (parts ++ [(i, rest)])) c = Ok (c', [(b, len)]) /\
    field b 0 len = field packet 0 len /\ blen b = ETHER_MTU.
Proof using All.
  revert c S. induction parts as [|p parts IH]; intros c S Hh Hr Hi Hall; cbn [app map frag_run fst snd];
    apply Forall_cons_iff in Hr as [Hp Hr].
  - destruct (last_fragment c s S i rest Hh Hp) as (c' & b & -> & Hb & Hl).
    { intros j Hj. by apply elem_of_snoc, Hall. }
    cbn. by exists c', b.
  - destruct (next_part c s S p.1 p.2 Hh Hp) as (c' & -> & Hh').
    { intros Hc. apply Hi. apply Forall_app in Hr as [_ [Hr _]%Forall_cons_iff]. apply elem_of_middle, elem_of_app. left. by apply Hc. }
    cbn [obind fst snd]. destruct (IH c' (p.1 :: S) Hh' Hr) as (c'' & b & -> & Hb & Hl).
    + intros Hi'. by apply Hi, elem_of_middle.
    + intros j Hj. by apply elem_of_middle, Hall.
    + by exists c'', b.
Qed.
End Reassembly.

Lemma first_index_none {A} (p : A -> bool) l : Forall (fun x => p x = false) l -> first_index p l = None.
Proof. induction 1 as [|x l Hx _ IH]; cbn; [done|]. by rewrite Hx, IH. Qed.
Lemma first_index_exists {A} (p : A -> bool) l : Exists (fun x => p x = true) l -> exists i, first_index p l = Some i.
Proof.
  induction 1 as [x l Hx|x l _ [i IH]]; cbn; [rewrite Hx; by eexists|].
  destruct (p x); [by eexists|]. rewrite IH. by eexists.
Qed.

Definition in_use (id : Z) (src : list Z) (f : lan_client_fragment) : bool :=
  fr_used f && (fr_id f =? u16 id) && CMP_IPV4 (fr_src f) src.

(** C12. Reassembly inverts fragmentation.  Let a packet of [len] bytes be cut
    into [n] fragments of [mtu] bytes, and let the fragments arrive one after
    the other, in any order, any of them any number of times and each followed
    by any bytes of the receive buffer, the last one to arrive being the only
    one that was missing.  If the table has a free slot and none in use for this
    sender and identification, then no step faults, and exactly one packet is
    completed, when the last fragment arrives: it has the length and the bytes of
    the original.  Fragments of other packets do not come between them here, and
    repetitions that come after the packet was completed begin a new one
    ([late_fragments_repeat]). *)
Theorem fragments_reassemble packet len mtu id n src dst c parts i rest :
  0 < mtu <= 65535 -> 0 < len <= ETHER_MTU -> len <= blen packet -> 0 < n <= 8 -> (n - 1) * mtu < len <= n * mtu ->
  blen src = 4 -> blen dst = 4 ->
  Forall (fun f => in_use id src f = false) (frags c) -> Exists (fun f => negb (fr_used f) = true) (frags c) ->
  Forall (fun f => blen (fr_buffer f) = ETHER_MTU) (frags c) ->
  Forall (fun p => 0 <= p.1 < n) (parts ++ [(i, rest)]) -> i ∉ parts.*1 ->
  (forall j, 0 <= j < n -> j ∈ (parts ++ [(i, rest)]).*1) ->
  exists c' b,
    frag_run (map (fun p => fragment packet len mtu id n src dst p.1 ++ p.2) (parts ++ [(i, rest)])) c = Ok (c', [(b, len)]) /\
    field b 0 len = field packet 0 len.
Proof.
  intros Hmtu Hlen Hpkt Hn Hcover Hsrc Hdst Hnone Hfree Hbuf Hr Hi Hall. apply first_index_exists in Hfree as [s Hs].
  assert (exists p ps, parts ++ [(i, rest)] = p :: ps) as (p & ps & E) by (destruct parts; by eexists _, _).
  rewrite E in Hr. apply Forall_cons_iff in Hr as Hr'. destruct Hr' as [Hp _].
  destruct (first_part packet len mtu id n src dst Hmtu Hlen Hpkt Hn Hcover Hsrc Hdst c s p.1 p.2 Hp
    (first_index_none _ _ Hnone) Hs Hbuf) as [Hh Hf].
  rewrite E. cbn [map frag_run]. rewrite Hf.
  destruct (more_parts packet len mtu id n src dst Hmtu Hlen Hpkt Hn Hcover Hsrc Hdst parts i rest _ s [] Hh)
    as (c' & b & H & Hb & _); [by rewrite E|done..|].
  rewrite E in H. exists c', b. done.
Qed.

Module Cut.
Definition packet : list Z := map (fun i => Z.of_nat i mod 251) (seq 0 1200).
Definition src : list Z := [10; 147; 17; 9].
Definition dst : list Z := [10; 147; 17; 5].
Definition empty : client_state := lp_client (lp Sample.relay).
End Cut.

Lemma reassemble_witness :
  match frag_run (map (fun i => fragment Cut.packet 1200 500 65540 3 Cut.src Cut.dst i ++ [7; 7]) [2; 0; 2; 1]) Cut.empty with
  | Ok (_, [(b, l)]) => l = 1200 /\ field b 0 1200 = Cut.packet
  | _ => False
  end.
Proof.
  destruct (fragments_reassemble Cut.packet 1200 500 65540 3 Cut.src Cut.dst Cut.empty [(2, [7; 7]); (0, [7; 7]); (2, [7; 7])] 1 [7; 7])
    as (c' & b & H & Hb).
  1-7: unfold ETHER_MTU; vm_compute; intuition congruence.
  - apply Forall_replicate. done.
  - constructor. done.
  - apply Forall_replicate. done.
  - repeat constructor; done.
  - compute_done.
  - intros j Hj. assert (j = 0 \/ j = 1 \/ j = 2) as [-> | [-> | ->]] by lia; compute_done.
  - cbn [map app] in H |- *. unfold fst, snd in H. rewrite H. split; [done|]. rewrite Hb. done.
Defined.

(** Once more all the fragments of a packet: it is completed a second time. *)
Example late_fragments_repeat :
  match frag_run (map (fun i => fragment Cut.packet 900 500 7 2 Cut.src Cut.dst i) [0; 1; 0; 1]) Cut.empty with
  | Ok (_, l) => map (fun x => (field x.1 0 900, x.2)) l = [(field Cut.packet 0 900, 900); (field Cut.packet 0 900, 900)]
  | Stop _ => False
  end.
Proof. vm_compute. reflexivity. Qed.

(** ** What is sent *)

Definition FragSent packet len mtu id n src dst i : event :=
  ClientSent (LAN_CLIENT_TYPE_IPV4_FRAG :: fragment packet len mtu id n src dst i).

Lemma send_raw_spec bufs (Q : Z -> world -> Prop) w : concat bufs <> [] ->
  (forall rc w', output w' = ClientSent (concat bufs) :: output w -> Q rc w') -> wp (lan_client_send_raw bufs) Q w.
Proof.
  intros Hne HQ. unfold lan_client_send_raw.
  destruct (Z.eqb_spec (blen (concat bufs)) 0) as [E|_]; [destruct (concat bufs); cbn in *; [done|unfold blen in E; cbn in E; lia]|].
  apply wp_bind, wp_modify. apply wp_bind. unfold ext. apply wp_bind, wp_gets, wp_bind, wp_modify, wp_ret.
  apply wp_bind, wp_modify, wp_bind, wp_modify, wp_ret. by apply HQ.
Qed.

Lemma send_parts_spec fuel packet len mtu id n src dst i w :
  0 < mtu -> 0 < n -> (n - 1) * mtu < len <= n * mtu -> len <= blen packet -> 0 <= i <= n -> n - i < Z.of_nat fuel ->
  wp (send_parts fuel src dst packet len mtu id n i (Z.min (i * mtu) len)) (fun rc w' =>
    exists k, i <= k <= n /\ (rc = 0 -> k = n) /\
      output w' = rev (map (FragSent packet len mtu id n src dst) (seqZ i (k - i))) ++ output w) w.
Proof.
  intros Hmtu Hn Hcover Hpkt. revert i w. induction fuel as [|fuel IH]; intros i w Hi Hf; [lia|]. cbn [send_parts].
  destruct (Z.ltb_spec (Z.min (i * mtu) len) len) as [Hlt|Hge].
  2:{ apply wp_ret. exists i. rewrite Z.sub_diag. split_and!; [lia|lia|intros _; nia|done]. }
  assert (i * mtu < len) by lia. assert (i < n) by nia. rewrite !(Z.min_l (i * mtu) len) by lia.
  apply wp_bind. eapply wp_lift; [apply rdn_ok; nia|]. apply wp_bind.
  assert (Epart : Z.min mtu (len - i * mtu) = part_len len mtu i) by done. rewrite Epart.
  apply send_raw_spec; [done|]. intros rc w' Hw'.
  assert (Hout : output w' = FragSent packet len mtu id n src dst i :: output w).
  { rewrite Hw'. unfold FragSent, fragment. cbn [concat app]. by rewrite app_nil_r. }
  destruct (Z.eqb_spec rc 0) as [->|Hrc]; cbn [negb].
  - replace (i * mtu + part_len len mtu i) with (Z.min ((i + 1) * mtu) len) by (unfold part_len; lia).
    eapply wp_mono; [apply IH; lia|]. intros rc w'' (k & Hk & Hrc & ->). exists k. split_and!; [lia|lia|done|].
    rewrite Hout, (seqZ_cons i (k - i)) by lia. cbn [map rev]. rewrite <- app_assoc. cbn [app].
    replace (Z.succ i) with (i + 1) by lia. by replace (Z.pred (k - i)) with (k - (i + 1)) by lia.
  - apply wp_ret. exists (i + 1). split_and!; [lia|lia|done|]. replace (i + 1 - i) with 1 by lia. rewrite Hout. done.
Qed.

(** An IPv4 packet that does not fit the path's MTU is sent as its
    fragments: the datagrams that leave the socket are the first [k] of the
    [n] fragments, in order, with the addresses of the packet and the next
    identification, and [k] is [n] unless the socket reported an error. *)
Theorem packet_fragmented packet len n w :
  let c := lp_client (lp w) in
  20 <= blen packet -> len <= blen packet -> 0 < pmtu c -> 1 < n -> (n - 1) * pmtu c < len <= n * pmtu c ->
  wp (lan_client_send LAN_CLIENT_TYPE_IPV4 packet len) (fun rc w' =>
    exists k, 0 <= k <= n /\ (rc = 0 -> k = n) /\
      output w' = rev (map (FragSent packet len (pmtu c) (frag_id c) n (field packet 12 4) (field packet 16 4)) (seqZ 0 k))
                  ++ output w) w.
Proof.
  intros c Hp Hpkt Hmtu Hn Hcover. unfold lan_client_send. apply wp_bind, wp_gets. fold c. unfold id.
  assert (En : len / pmtu c + (if pmtu c * (len / pmtu c) <? len then 1 else 0) = n).
  { pose proof (Z.div_mod len (pmtu c) ltac:(lia)). pose proof (Z.mod_pos_bound len (pmtu c) ltac:(lia)).
    destruct (Z.ltb_spec (pmtu c * (len / pmtu c)) len); nia. }
  rewrite En. destruct (Z.ltb_spec 0 (pmtu c)); [|lia]. destruct (Z.ltb_spec 1 n); [|lia]. cbn [andb Z.eqb Pos.eqb LAN_CLIENT_TYPE_IPV4].
  apply wp_bind, wp_modify. apply wp_bind. eapply wp_lift; [apply rdn_ok; lia|].
  apply wp_bind. eapply wp_lift; [apply rdn_ok; lia|].
  eapply wp_mono; [rewrite <- (Z.min_l 0 len) at 2 by nia; apply (send_parts_spec _ packet len (pmtu c) (frag_id c) n _ _ 0); first [lia|nia]|].
  intros rc w' (k & Hk & Hrc & ->). exists k. by rewrite Z.sub_0_r.
Qed.

Lemma fragmented_witness :
  let w := Sample.relay <| lp ::= set lp_client (set pmtu (fun _ => 500)) |> in
  exists w', lan_client_send LAN_CLIENT_TYPE_IPV4 Cut.packet 1200 w = Ok (0, w') /\ length (output w') = 3%nat.
Proof.
  intros w. pose proof (packet_fragmented Cut.packet 1200 3 w) as H. cbn zeta in H.
  change (pmtu (lp_client (lp w))) with 500 in H.
  assert (H' := H ltac:(by vm_compute) ltac:(by vm_compute) ltac:(lia) ltac:(lia) ltac:(lia)). clear H.
  apply wp_run in H' as (rc & w' & E & k & Hk & Hrc & Hout). exists w'.
  assert (Erc : rc = 0) by (by apply (f_equal (fun o => match o with Ok (r, _) => r | _ => 1 end)) in E; vm_compute in E).
  subst rc. split; [done|]. rewrite Hout, (Hrc eq_refl). done.
Defined.

(** ** The login *)

Lemma blen_SHA1Final ctx : blen (SHA1Final ctx) = 20.
Proof. unfold blen, SHA1Final. by rewrite length_map, length_seq. Qed.

Lemma splice_append z a b : blen z = blen a + blen b -> splice (splice z 0 a) (blen a) b = a ++ b.
Proof.
  unfold splice, blen. intros Hz. change (Z.to_nat 0) with 0%nat. rewrite take_0, app_nil_l, Nat2Z.id, take_app_length. f_equal.
  rewrite drop_ge; [by rewrite app_nil_r|]. rewrite length_app, length_drop. lia.
Qed.

Lemma auth_hash key challenge : bytes key -> blen key = 20 -> bytes challenge -> blen challenge <= 65535 ->
  SHA1Final (SHA1Update (SHA1Update SHA1Init key 20) challenge (blen challenge)) = Fips.sha1 (key ++ challenge).
Proof.
  intros Hk Hl Hc Hcl. assert (H1 : hashed (SHA1Update SHA1Init key 20) key).
  { rewrite <- Hl. apply (update_spec SHA1Init [] key); [apply hashed_init|done|lia|change (blen []) with 0; lia]. }
  assert (H2 : hashed (SHA1Update (SHA1Update SHA1Init key 20) challenge (blen challenge)) (key ++ challenge)).
  { apply update_spec; [done|done|lia|lia]. }
  apply final_spec; [done|rewrite blen_app; lia].
Qed.

(** The answer to a login challenge.  The datagram sent is the type, then
    the SHA-1 digest of the stored key followed by the challenge, then the user
    name, whatever the length of the challenge. *)
Theorem auth_response packet len name w :
  let c := lp_client (lp w) in
  username c = Some name -> blen name <= 65515 -> bytes (key c) -> blen (key c) = 20 ->
  bytes packet -> 0 < len <= blen packet -> len <= 65535 -> getb packet 0 = 0 ->
  wp (lan_client_process_auth_me packet len) (fun _ w' =>
    output w' = ClientSent (LAN_CLIENT_TYPE_AUTH_ME :: Fips.sha1 (key c ++ field packet 1 (len - 1)) ++ name) :: output w) w.
Proof.
  intros c Hn Hnl Hk Hkl Hb Hlen Hlen' H0. unfold lan_client_process_auth_me. apply wp_bind, wp_gets. unfold id. fold c. rewrite Hn.
  apply wp_bind. eapply wp_lift; [apply READ_NET8_ok; lia|]. rewrite H0. cbn [Z.eqb negb]. rewrite (u16_small (len - 1)) by lia.
  apply wp_bind. eapply wp_lift; [apply rdn_ok; lia|]. pose proof (blen_nonneg name) as Hn0.
  rewrite (u16_small (blen name)), u16_small by lia. set (challenge := field packet 1 (len - 1)).
  assert (Hcl : blen challenge = len - 1) by (unfold challenge; rewrite blen_field; lia).
  assert (Hcb : bytes challenge) by (by apply bytes_field).
  rewrite <- Hcl, auth_hash by (done || lia). rewrite take_ge by (unfold blen; lia).
  set (hash := Fips.sha1 _). assert (Hh : blen hash = 20).
  { unfold hash. rewrite <- auth_hash by (done || lia). apply blen_SHA1Final. }
  set (z := replicate _ 0). assert (Hz : blen z = 20 + blen name) by (unfold z, blen at 1; rewrite length_replicate; lia).
  apply wp_bind. eapply wp_lift; [apply wrn_ok; lia|]. apply wp_bind. eapply wp_lift; [apply wrn_ok; [lia|rewrite blen_splice; lia]|].
  assert (E : splice (splice z 0 hash) 20 name = hash ++ name).
  { rewrite <- Hh. apply splice_append. lia. }
  rewrite E. apply wp_bind. unfold lan_client_send_auth_me, lan_client_send. apply wp_bind, wp_gets. cbn [andb Z.eqb Pos.eqb LAN_CLIENT_TYPE_AUTH_ME LAN_CLIENT_TYPE_IPV4].
  apply wp_bind. eapply wp_lift; [apply rdn_ok; rewrite ?blen_app; lia|].
  apply send_raw_spec; [done|]. intros rc w' Hw'. apply wp_ret. rewrite Hw'. cbn [concat app]. rewrite app_nil_r. do 3 f_equal.
  unfold field. rewrite drop_0, take_ge; [done|]. rewrite length_app. unfold blen in *. lia.
Qed.

Lemma auth_witness :
  let w := Sample.relay <| lp ::= set lp_client (set username (fun _ => Some [97; 98])) |> in
  exists w' u, lan_client_process_auth_me [0; 1; 2; 3] 4 w = Ok (u, w') /\
    output w' = [ClientSent (4 :: Fips.sha1 (replicate 20 0 ++ [1; 2; 3]) ++ [97; 98])].
Proof.
  intros w. assert (B : bytes (replicate 20 0)) by (by apply Forall_replicate).
  assert (B' : bytes [0; 1; 2; 3]) by (by repeat constructor).
  assert (N : blen [97; 98] <= 65515) by (by vm_compute). assert (L : 0 < 4 <= blen [0; 1; 2; 3]) by (by vm_compute).
  assert (L' : 4 <= 65535) by lia. pose proof (auth_response [0; 1; 2; 3] 4 [97; 98] w) as H. cbn zeta in H.
  change (username (lp_client (lp w))) with (Some [97; 98]) in H. change (key (lp_client (lp w))) with (replicate 20 0) in H.
  change (field [0; 1; 2; 3] 1 (4 - 1)) with [1; 2; 3] in H. change (output w) with (@nil event) in H.
  specialize (H eq_refl N B eq_refl B' L L' eq_refl).
  apply wp_run in H as (u & w' & E & Hout). exists w', u. split; [exact E|exact Hout].
Defined.

(** ** Datagrams the client does not survive *)

Lemma auth_me_empty packet name w :
  username (lp_client (lp w)) = Some name -> 0 < blen packet < 65536 -> getb packet 0 = 0 ->
  lan_client_process_auth_me packet 0 w = Stop OutOfBounds.
Proof.
  intros Hn Hb H0. unfold lan_client_process_auth_me, getclient, getlp, bind at 1, gets. unfold id. rewrite Hn.
  unfold bind at 1, lift. rewrite READ_NET8_ok, H0 by lia. cbn [Z.eqb negb]. unfold bind at 1.
  change (u16 (0 - 1)) with 65535. by rewrite rdn_stop by lia.
Qed.

(** A login request of one byte: the length of the challenge wraps around to
    65535, and the hash reads that many bytes from the receive buffer. *)
Theorem auth_me_overreads buffer name w :
  1 < blen buffer <= CLIENT_RECV_BUF_LEN -> username (lp_client (lp w)) = Some name ->
  Z.land (getb buffer 0) 127 = LAN_CLIENT_TYPE_AUTH_ME -> getb buffer 1 = 0 ->
  lan_client_on_recv 1 buffer w = Stop OutOfBounds.
Proof.
  unfold CLIENT_RECV_BUF_LEN. intros Hb Hn H0 H1. unfold lan_client_on_recv. cbn [Z.leb Z.compare Pos.compare].
  change (u16 1) with 1. erewrite bind_Ok; [|unfold lift; by rewrite READ_NET8_ok by lia]. rewrite H0.
  do 2 (erewrite bind_Ok; [|reflexivity]).
  cbn [Z.eqb Pos.eqb LAN_CLIENT_TYPE_AUTH_ME LAN_CLIENT_TYPE_KEEPALIVE LAN_CLIENT_TYPE_IPV4 LAN_CLIENT_TYPE_IPV4_FRAG].
  apply (auth_me_empty _ name); [by destruct w as [[? ? ? ? ? ? ? ? ? ? ? ? ? []]]| |].
  - rewrite blen_ptr by lia. lia.
  - by rewrite getb_ptr by lia.
Qed.

(** A fragment whose offset is beyond the buffer of the slot is copied there:
    nothing bounds the offset or the length that the datagram states. *)
Theorem fragment_overflows c packet h i f :
  frag_header packet = Ok h -> LC_FRAG_HEADER_LEN + fh_len h <= blen packet -> 0 <= fh_len h ->
  0 <= fh_part h < 31 -> 0 <= fh_pmtu h -> blen (fr_buffer f) = ETHER_MTU -> ETHER_MTU < fh_pmtu h * fh_part h + fh_len h ->
  first_index (matches h) (frags c) = Some i -> frags c !! i = Some f ->
  frag_step packet c = Stop OutOfBounds.
Proof.
  intros Hh Hp Hl Hpart Hpm Hb Ho Hi Hf. unfold frag_step. rewrite Hh. cbn [obind]. unfold find_slot. rewrite Hi, Hf.
  unfold store_frag. destruct (Z.leb_spec 31 (fh_part h)); [lia|]. rewrite rdn_ok by (unfold LC_FRAG_HEADER_LEN in *; lia).
  cbn [obind]. rewrite wrn_stop; [done|]. change (fr_buffer (f <| fr_part := _ |>)) with (fr_buffer f).
  rewrite blen_field by (unfold LC_FRAG_HEADER_LEN in *; lia). lia.
Qed.
