(* ===== verification/Startup.v ===== *)
(** * Startup: opening the adapters, starting and stopping the relay

    From src/src/pcaploop.cpp the opening of the capture interfaces
    ([set_filter], [uv_pcap_interf_init], [uv_pcap_open_live], [uv_pcap_init],
    [uv_pcap_close]; the Linux build), from src/src/lan-play.c [open_captures],
    [init_pcap], [init_zerotier_pcap], [lan_play_init] and [lan_play_close].

    What the operating system answers while the relay starts is the record
    [startup]: the devices libpcap lists for each of the two adapters and how
    each call on them ends, the name service, and the results of the calls that
    create files and timers.  A theorem of this file is that a start that
    succeeds establishes the invariant [relay_ok] of the running relay. *)

From Stdlib Require Import Ascii.
From stdpp Require Import strings pretty.
From S2P Require Import Prelude Bytes Text Checksum World Sample Pcap Packet Arp Ipv4 NativeUdp Nintendo Dhcp Relay.
From S2P Require Import Discovery Options Address Sha1 LanClient.

#[local] Open Scope string_scope.
#[local] Open Scope Z_scope.

(** ** Devices *)

(** [pcap_addr_t]: whether it is an IPv4 address, the address and its mask *)
Record pcap_addr := mkPcapAddr { pa_inet : bool; pa_addr : list Z; pa_netmask : option (list Z) }.

(** [pcap_if_t], with the results of the calls that open it *)
Record pcap_if := mkPcapIf {
  dev_name : string;
  dev_addresses : list pcap_addr;
  dev_create : bool;
  dev_set_timeout : Z;
  dev_set_snaplen : Z;
  dev_set_promisc : Z;
  dev_activate : Z;
  dev_datalink : Z;
  (** the hardware address, [None] when the request for it fails *)
  dev_hwaddr : option (list Z);
  (** whether the filter compiles and installs *)
  dev_setfilter : string -> bool;
  dev_immediate : Z;
  dev_poll : Z
}.

Record startup := mkStartup {
  su_wifi : option (list pcap_if);
  su_zerotier : option (list pcap_if);
  su_resolve : string -> bool -> option addrinfo;
  su_gateway : Z;
  su_open_dead : bool;
  (** exclusive creation of the file; attaching a dumper to the n-th file *)
  su_create : string -> bool;
  su_dump_open : nat -> bool;
  su_timer_init : Z;
  su_timer_start : Z
}.

Definition DLT_EN10MB : Z := 1.

(** ** The capture filter *)

Definition snprintf (size : nat) (s : string) : string := String.substring 0 (size - 1) s.

Definition hex_digit (v : Z) : ascii :=
  ascii_of_nat (Z.to_nat (if v <? 10 then 48 + v else 87 + v)).
(** [%02x] *)
Definition hex2 (v : Z) : string := String (hex_digit (v / 16)) (String (hex_digit (v mod 16)) "").

Fixpoint hex_mac (mac : list Z) : string :=
  match mac with
  | [] => ""
  | [b] => hex2 b
  | b :: mac => hex2 b +:+ ":" +:+ hex_mac mac
  end.

Definition capture_match (i : uv_pcap_interf) (subnet : string) : string :=
  if has_ipv4 i && negb (foldr Z.lor 0 (if_netmask i) =? 0) then
    snprintf 256 ("net " +:+ subnet +:+ " or net " +:+ dotted (zip_with Z.land (if_ipv4 i) (if_netmask i)) +:+ "/" +:+
      pretty (mask_to_prefix (if_netmask i)) +:+ " or arp or udp port 67 or udp port 68")
  else
    snprintf 256 ("net " +:+ subnet +:+ " or arp or udp port 67 or udp port 68").

Definition set_filter (d : pcap_if) (mac : list Z) (match_ : string) : bool * string :=
  let filter := snprintf 384 ("(" +:+ match_ +:+ ") and (not ether src " +:+ hex_mac mac +:+ " or icmp)") in
  (dev_setfilter d filter, filter).

(** ** Opening *)

(** the slot of the array after the call; [ExitProcess] is [exit(1)] *)
Inductive opened :=
| Opened (i : uv_pcap_interf) (filter : string)
| NotOpened (i : uv_pcap_interf)
| ExitProcess.

(** the first IPv4 address of the device *)
Fixpoint first_inet (l : list pcap_addr) : option pcap_addr :=
  match l with
  | [] => None
  | a :: l => if negb (pa_inet a) then first_inet l else Some a
  end.

Definition uv_pcap_interf_init (i : uv_pcap_interf) (d : pcap_if) (mac : list Z) : Z * uv_pcap_interf :=
  (dev_poll d, i <| if_mac := mac |>).

Definition uv_pcap_open_live (interf : uv_pcap_interf) (d : pcap_if) (subnet : string) : opened :=
  if negb (dev_create d) then NotOpened interf else
  if negb (dev_set_timeout d =? 0) then NotOpened interf else
  if negb (dev_set_snaplen d =? 0) then NotOpened interf else
  if negb (dev_set_promisc d =? 0) then NotOpened interf else
  if dev_activate d <? 0 then NotOpened interf else
  if negb (dev_datalink d =? DLT_EN10MB) then NotOpened interf else
  match dev_hwaddr d with
  | None => ExitProcess
  | Some mac =>
      if CMP_MAC NONE_MAC mac then NotOpened interf else
      let interf := match first_inet (dev_addresses d) with
        | None => interf <| has_ipv4 := false |>
        | Some a => interf <| if_ipv4 := pa_addr a |> <| if_netmask := default NONE_IP (pa_netmask a) |> <| has_ipv4 := true |>
        end in
      let (ok, filter) := set_filter d mac (capture_match interf subnet) in
      if negb ok then NotOpened interf else
      if dev_immediate d =? -1 then NotOpened interf else
      let (rc, interf) := uv_pcap_interf_init interf d mac in
      if negb (rc =? 0) then NotOpened interf else
      Opened interf filter
  end.

(** the loop that turns a number given as adapter into the name of the device *)
Fixpoint select_netif (i : Z) (devs : list pcap_if) (netif : option string) : option string :=
  match devs with
  | [] => netif
  | d :: devs =>
      let netif := match netif with
        | Some n => if i =? atoi n then Some (dev_name d) else Some n
        | None => None
        end in
      select_netif (i + 1) devs netif
  end.

Definition blank_interf : uv_pcap_interf := mkInterf NONE_MAC NONE_IP NONE_IP false 0 0 0 0.

(** [Some] of the opened interfaces; [None] after [exit] *)
Fixpoint open_named (devs : list pcap_if) (netif subnet : string) : option (list uv_pcap_interf) :=
  match devs with
  | [] => Some []
  | d :: devs =>
      if capture_names_equal (Some (dev_name d)) (Some netif) false then
        match uv_pcap_open_live blank_interf d subnet with
        | Opened i _ => Some [i]
        | NotOpened _ => Some []
        | ExitProcess => None
        end
      else open_named devs netif subnet
  end.

(** [slot] is the element of the array that the next device is opened in *)
Fixpoint open_all (devs : list pcap_if) (slot : uv_pcap_interf) (subnet : string) : option (list uv_pcap_interf) :=
  match devs with
  | [] => Some []
  | d :: devs =>
      match uv_pcap_open_live slot d subnet with
      | Opened i _ => rest ← open_all devs blank_interf subnet; Some (i :: rest)
      | NotOpened slot => open_all devs slot subnet
      | ExitProcess => None
      end
  end.

(** the status and the new handle; [None] after [exit] *)
Definition uv_pcap_init (alldevs : option (list pcap_if)) (netif : option string) (subnet : string) :
    option (Z * uv_pcap) :=
  match alldevs with
  | None => Some (-1, mkPcap ∅ [])
  | Some devs =>
      let netif := select_netif 1 devs netif in
      match devs with
      | [] => Some (-1, mkPcap ∅ [])
      | _ =>
          interfaces ← (match netif with
            | Some n => open_named devs n subnet
            | None => open_all devs blank_interf subnet
            end);
          Some (if (length interfaces =? 0)%nat then -1 else 0, mkPcap ∅ interfaces)
      end
  end.

(** ** Capture files *)

Definition capture_suffixes : list string := ["wifi-rx"; "wifi-tx"; "zerotier-rx"; "zerotier-tx"; "host"].

Fixpoint open_capture_files (su : startup) (prefix : string) (i : nat) (suffixes : list string) : M Z :=
  match suffixes with
  | [] => ret 0
  | suffix :: suffixes =>
      let path := prefix +:+ "-" +:+ suffix +:+ ".pcap" in
      if 4096 <=? strlen path then close_captures ;;; ret (-1) else
      if negb (su_create su path) then close_captures ;;; ret (-1) else
      if negb (su_dump_open su i) then close_captures ;;; ret (-1) else
      setlp (set lp_captures (set captures (insert i true))) ;;;
      open_capture_files su prefix (S i) suffixes
  end.

Definition open_captures (su : startup) : M Z :=
  let* prefix := option_of opt_capture_prefix in
  match prefix with
  | None => ret 0
  | Some prefix =>
      setlp (set lp_captures (set capture_format (fun _ => su_open_dead su))) ;;;
      if negb (su_open_dead su) then ret (-1) else
      let* t := time_now in
      setlp (set lp_captures (set capture_start_time (fun _ => t))) ;;;
      let* t := uv_hrtime in
      setlp (set lp_captures (set capture_start_ns (fun _ => t))) ;;;
      setlp (set lp_captures (set capture_pending (fun _ => replicate 5 0))) ;;;
      setlp (set lp_captures (set capture_last_flush_us (fun _ => replicate 5 0))) ;;;
      open_capture_files su prefix 0 capture_suffixes
  end.

(** ** Starting the relay *)

(** the messages of the failing starts, with the status of the call where the
    code reports it; [Exits] is the [exit(1)] while an adapter is opened *)
Inductive init_error :=
| BadRelayServer | BadSubnet | BadGateway | GatewayOutsideSubnet
| WifiCapture | ZeroTierCapture | NoWifiMac | NoZeroTierMac | NoZeroTierAddress | ZeroTierOutsideSubnet
| ZeroWifiMac | ZeroZeroTierMac | BadSocksServer | GatewayFailed (rc : Z) | NoEndpoints (rc : Z)
| PortTaken (port rc : Z) | NoCaptures | NoTimer (rc : Z) | TimerNotStarted (rc : Z) | Exits.

(** a step of the start: a value, or the error it returns with *)
Abbreviation I A := (M (A + init_error)).
Definition fail {A} (e : init_error) : I A := ret (inr e).
Definition pass {A} (a : A) : I A := ret (inl a).
Definition attempt {A B} (m : I A) (k : A -> I B) : I B :=
  let* r := m in match r with inl a => k a | inr e => fail e end.
Notation "'let!' x := m 'in' k" := (attempt m (fun x => k))
  (at level 10, x binder, m at level 100, k at level 200) : relay_scope.
Definition unless (b : bool) (e : init_error) : I unit := if b then pass tt else fail e.
Definition given_or {A} (o : option A) (e : init_error) : I A := match o with Some a => pass a | None => fail e end.

Definition setadapters (f : adapters -> adapters) : M unit := setlp (set lp_adapters f).

Definition init_client (su : startup) (o : cli_options) : I unit :=
  setclient (fun c => c <| broadcast := opt_broadcast o |> <| pmtu := opt_pmtu o |>) ;;;
  let! _ := match opt_relay_server_addr o with
    | None => pass tt
    | Some a =>
        let! addr := given_or (parse_addr (su_resolve su) a) BadRelayServer in
        setclient (set server_addr (fun _ => Some addr)) ;;; pass tt
    end in
  setclient (set username (fun _ => text <$> opt_relay_username o)) ;;;
  match opt_relay_password o with
  | None => pass tt
  | Some p =>
      setclient (set key (fun _ => SHA1Final (SHA1Update SHA1Init (text p) (u32 (strlen p))))) ;;; pass tt
  end.

(** the network, its mask and the text for the capture filter *)
Definition init_subnet (o : cli_options) : I (list Z * list Z * string) :=
  match opt_subnet o with
  | Some text =>
      let! nm := given_or (parse_subnet text) BadSubnet in
      pass (nm.1, nm.2, snprintf 20 text)
  | None =>
      let* junk := uninit 4 in
      pass (str2ip junk SUBNET_NET, str2ip junk SUBNET_MASK, snprintf 20 (SUBNET_NET +:+ "/24"))
  end.

Definition init_gateway_ip (o : cli_options) : I (list Z) :=
  match opt_gateway_ip o with
  | Some text => given_or (parse_ipv4 text) BadGateway
  | None => let* junk := uninit 4 in pass (str2ip junk SERVER_IP)
  end.

(** [(ip[i] & mask[i]) == net[i]] for the four bytes *)
Fixpoint in_network (ip mask net : list Z) : bool :=
  match ip, mask, net with
  | a :: ip, m :: mask, n :: net => (Z.land a m =? n) && in_network ip mask net
  | _, _, _ => true
  end.

Definition init_pcap (su : startup) (o : cli_options) (filter : string) : I unit :=
  match uv_pcap_init (su_wifi su) (opt_netif o) filter with
  | None => fail Exits
  | Some (rc, h) => setlp (set lp_pcap (fun _ => h)) ;;; unless (rc =? 0) WifiCapture
  end.
Definition init_zerotier_pcap (su : startup) (o : cli_options) (filter : string) : I unit :=
  match uv_pcap_init (su_zerotier su) (opt_zerotier_name o) filter with
  | None => fail Exits
  | Some (rc, h) => setlp (set lp_zerotier_pcap (fun _ => h)) ;;; unless (rc =? 0) ZeroTierCapture
  end.

Definition init_wifi_adapter : I unit :=
  let* h := getlp lp_pcap in
  let! mac := given_or (uv_pcap_get_mac h) NoWifiMac in
  setadapters (set wifi_mac (fun _ => mac)) ;;;
  match uv_pcap_get_ipv4 h with
  | None => pass tt
  | Some (ip, mask) =>
      let subnet := zip_with Z.land ip mask in
      setadapters (fun a => a <| wifi_ip := ip |> <| wifi_netmask := mask |> <| wifi_subnet := subnet |>
        <| wifi_broadcast := zip_with (fun s m => Z.lor s (not8 m)) subnet mask |> <| wifi_subnet_known := true |>) ;;;
      pass tt
  end.

(** the loop over the four bytes: each byte of the broadcast address is stored
    before the byte of the address is checked *)
Fixpoint init_zerotier_broadcast (i : nat) (ip own_mask mask net : list Z) : I unit :=
  match ip, own_mask, mask, net with
  | a :: ip, om :: own_mask, m :: mask, n :: net =>
      setadapters (set zerotier_broadcast_ip (insert i (Z.lor a (not8 om)))) ;;;
      if negb (Z.land a m =? n) then fail ZeroTierOutsideSubnet else
      init_zerotier_broadcast (S i) ip own_mask mask net
  | _, _, _, _ => pass tt
  end.

Definition init_zerotier_adapter (net mask : list Z) : I unit :=
  let* h := getlp lp_zerotier_pcap in
  let! mac := given_or (uv_pcap_get_mac h) NoZeroTierMac in
  setadapters (set zerotier_mac (fun _ => mac)) ;;;
  let! am := given_or (uv_pcap_get_ipv4 h) NoZeroTierAddress in
  setadapters (fun a => a <| zerotier_ip := am.1 |> <| zerotier_netmask := am.2 |>) ;;;
  init_zerotier_broadcast 0 am.1 am.2 mask net.

Definition game_ports : list Z := [35000; 49152; 49153; 49154; 49155].
Fixpoint reserve_ports (ports : list Z) : I unit :=
  match ports with
  | [] => pass tt
  | p :: ports =>
      let* rc := native_udp_guard_reserve p in
      if negb (rc =? 0) then
        native_udp_guard_close ;;;
        setlp (set udp_guard (fun _ => None)) ;;;
        fail (PortTaken p rc)
      else reserve_ports ports
  end.

Definition init_discovery (su : startup) (o : cli_options) : I unit :=
  if negb (opt_discover_switch o) then pass tt else
  let* known := getlp (fun l => wifi_subnet_known (lp_adapters l)) in
  setlp (set lp_discovery (fun d => d <| switch_discovery_host := 2 |> <| switch_discovery_pause_ticks := 0 |>
    <| switch_discovery_wifi_phase := known |>)) ;;;
  if negb (su_timer_init su =? 0) then fail (NoTimer (su_timer_init su)) else
  if negb (su_timer_start su =? 0) then fail (TimerNotStarted (su_timer_start su)) else
  setlp (set lp_discovery (set switch_discovery_timer_active (fun _ => true))) ;;;
  pass tt.

(** the static [SEND_BUFFER] *)
Definition send_buffer (l : lan_play) : list Z :=
  default (replicate (Z.to_nat BUFFER_SIZE) 0) (buffer (lp_packet_ctx l)).

Definition lan_play_init (su : startup) : I Z :=
  let* o := option_of id in
  setlp (set zerotier_neighbors (fun c => c <| arp_list := arp_list_init |> <| arp_ttl := 30 |>)) ;;;
  setlp (set dhcp_state (fun _ => dhcp_server_init)) ;;;
  let! _ := init_client su o in
  let! nmf := init_subnet o in
  let '(net, mask, filter) := nmf in
  let! ip := init_gateway_ip o in
  let! _ := unless (in_network ip mask net) GatewayOutsideSubnet in
  let! _ := init_pcap su o filter in
  let! _ := init_zerotier_pcap su o filter in
  let! _ := init_wifi_adapter in
  let! _ := init_zerotier_adapter net mask in
  let* a := getlp lp_adapters in
  let! _ := unless (negb (CMP_MAC (wifi_mac a) NONE_MAC)) ZeroWifiMac in
  let! _ := unless (negb (CMP_MAC (zerotier_mac a) NONE_MAC)) ZeroZeroTierMac in
  setlp (fun l => l <| lp_packet_ctx := packet_init (send_buffer l) BUFFER_SIZE ip net mask 30 |>) ;;;
  let! _ := match opt_socks5_server_addr o with
    | None => pass tt
    | Some s => let! _ := given_or (parse_addr (su_resolve su) s) BadSocksServer in pass tt
    end in
  let! _ := unless (su_gateway su =? 0) (GatewayFailed (su_gateway su)) in
  let* rc := native_udp_guard_create (zerotier_ip a) in
  let! _ := unless (rc =? 0) (NoEndpoints rc) in
  let! _ := reserve_ports game_ports in
  let* rc := open_captures su in
  let! _ := unless (rc =? 0) NoCaptures in
  let! _ := init_discovery su o in
  pass 0.

(** ** Stopping the relay *)

Definition uv_pcap_close (w : wire) : M unit := setlp (set_pcap w (set pcap_map (fun _ => ∅))).

Definition packet_close : M Z := ret 0.

Definition lan_play_close : M Z :=
  let* o := option_of id in
  (if opt_discover_switch o then setlp (set lp_discovery (set switch_discovery_timer_active (fun _ => false))) else ret tt) ;;;
  native_udp_guard_close ;;;
  setlp (set udp_guard (fun _ => None)) ;;;
  close_captures ;;;
  uv_pcap_close Wifi ;;;
  uv_pcap_close ZeroTier ;;;
  let* ret' := packet_close in
  if negb (ret' =? 0) then ret ret' else
  match opt_relay_server_addr o with
  | Some _ =>
      let* ret' := lan_client_close in
      ret ret'
  | None => ret 0
  end.

(** ** Reasoning about the steps of the start *)

(** if the step succeeds, its result satisfies [Q]; it never faults *)
Definition iwp {A} (m : I A) (Q : A -> world -> Prop) (w : world) : Prop :=
  wp m (fun r w' => match r with inl a => Q a w' | inr _ => True end) w.

Lemma iwp_pass {A} (a : A) Q w : Q a w -> iwp (pass a) Q w.
Proof. done. Qed.
Lemma iwp_fail {A} e Q w : iwp (A := A) (fail e) Q w.
Proof. done. Qed.
Lemma iwp_attempt {A B} (m : I A) (k : A -> I B) Q w :
  iwp m (fun a => iwp (k a) Q) w -> iwp (attempt m k) Q w.
Proof.
  intros H. apply wp_bind. eapply wp_mono; [exact H|]. intros [a|e] w' Hr; [exact Hr|done].
Qed.
Lemma iwp_mono {A} (m : I A) (P Q : A -> world -> Prop) w :
  iwp m P w -> (forall a w', P a w' -> Q a w') -> iwp m Q w.
Proof. intros H HPQ. eapply wp_mono; [exact H|]. intros [a|e] w' Hr; [by apply HPQ|done]. Qed.
Lemma iwp_unless b e (Q : unit -> world -> Prop) w : (b = true -> Q tt w) -> iwp (unless b e) Q w.
Proof. intros H. unfold unless. destruct b; [by apply iwp_pass, H|apply iwp_fail]. Qed.
Lemma iwp_given {A} (o : option A) e Q w : (forall a, o = Some a -> Q a w) -> iwp (given_or o e) Q w.
Proof. intros H. unfold given_or. destruct o; [by apply iwp_pass, H|apply iwp_fail]. Qed.
Lemma iwp_modify {A} f (k : I A) Q w : iwp k Q (f w) -> iwp (modify f ;;; k) Q w.
Proof. intros H. by apply wp_bind, wp_modify. Qed.
Lemma iwp_gets {A B} (f : world -> A) (k : A -> I B) Q w : iwp (k (f w)) Q w -> iwp (bind (gets f) k) Q w.
Proof. intros H. by apply wp_bind, wp_gets. Qed.

(** *** The parts that do not touch the network *)

(** only the client's part of the state may differ *)
Definition client_only (w w' : world) : Prop := exists c, w' = w <| lp ::= set lp_client (fun _ => c) |>.

Lemma init_client_spec su o w : iwp (init_client su o) (fun _ w' => client_only w w') w.
Proof.
  unfold init_client, setclient, setlp. apply iwp_modify, iwp_attempt.
  eapply iwp_mono with (P := fun _ w' => client_only w w').
  - destruct (opt_relay_server_addr o); [|apply iwp_pass; by eexists].
    apply iwp_attempt, iwp_given. intros a _. apply iwp_modify, iwp_pass. by eexists.
  - intros _ w' [c ->]. apply iwp_modify. destruct (opt_relay_password o); [apply iwp_modify|]; apply iwp_pass; by eexists.
Qed.

Lemma str2ip_constant junk : length junk = 4%nat ->
  str2ip junk SUBNET_NET = [10; 147; 17; 0] /\ str2ip junk SUBNET_MASK = [255; 255; 255; 0] /\
  str2ip junk SERVER_IP = [10; 147; 17; 1].
Proof. intros Hj. destruct junk as [|a [|b [|c [|d [|]]]]]; try discriminate Hj. by split_and!. Qed.

(** four bytes *)
Definition quad (l : list Z) : Prop := blen l = 4 /\ bytes l.
Lemma quad_sample l : length l = 4%nat -> forallb (fun b => (0 <=? b) && (b <? 256)) l = true -> quad l.
Proof. intros Hl Hb. split; [unfold blen; lia|by apply sample_bytes]. Qed.

Lemma init_subnet_spec o w :
  iwp (init_subnet o) (fun r w' => w' = w /\ quad r.1.1 /\ quad r.1.2) w.
Proof.
  unfold init_subnet. destruct (opt_subnet o) as [t|].
  - apply iwp_attempt, iwp_given. intros [net mask] E. apply parse_subnet_ok in E as (p & _ & -> & ? & ? & _).
    apply iwp_pass. split_and!; [done|by split|apply prefix_mask_wf].
  - unfold uninit. apply iwp_gets. apply iwp_pass. cbn [fst snd].
    destruct (str2ip_constant (map (fun i => u8 (env_junk (environment w) i)) (seq 0 (Z.to_nat 4)))) as (-> & -> & _); [done|].
    split_and!; [done|by apply quad_sample..].
Qed.
Lemma init_gateway_spec o w : iwp (init_gateway_ip o) (fun ip w' => w' = w /\ quad ip) w.
Proof.
  unfold init_gateway_ip. destruct (opt_gateway_ip o) as [t|].
  - apply iwp_given. intros ip E. apply inet_pton_ok in E. by split.
  - unfold uninit. apply iwp_gets, iwp_pass.
    destruct (str2ip_constant (map (fun i => u8 (env_junk (environment w) i)) (seq 0 (Z.to_nat 4)))) as (_ & _ & ->); [done|].
    split; [done|by apply quad_sample].
Qed.

(** *** The adapters *)

(** what libpcap reports of a device: hardware addresses of six bytes, IPv4
    addresses and masks of four, and no assigned address is 0.0.0.0 *)
Record device_ok (d : pcap_if) : Prop := {
  dk_mac : forall mac, dev_hwaddr d = Some mac -> blen mac = 6;
  dk_addresses : Forall (fun a => pa_inet a = true -> quad (pa_addr a) /\ pa_addr a <> NONE_IP /\
    forall m, pa_netmask a = Some m -> quad m) (dev_addresses d)
}.
Definition devices_ok (devs : option (list pcap_if)) : Prop :=
  forall l, devs = Some l -> Forall device_ok l.

Record interf_ok (i : uv_pcap_interf) : Prop := {
  ik_mac : blen (if_mac i) = 6;
  ik_nonzero : if_mac i <> NONE_MAC;
  ik_ipv4 : has_ipv4 i = true -> quad (if_ipv4 i) /\ quad (if_netmask i) /\ if_ipv4 i <> NONE_IP
}.

Lemma first_inet_in l a : first_inet l = Some a -> In a l /\ pa_inet a = true.
Proof.
  induction l as [|x l IH]; [done|]. cbn. destruct (pa_inet x) eqn:E; cbn.
  - intros [= ->]. auto.
  - intros [? ?]%IH. auto.
Qed.

Lemma open_live_ok slot d subnet i f :
  device_ok d -> uv_pcap_open_live slot d subnet = Opened i f -> interf_ok i.
Proof.
  intros [Hm Ha]. unfold uv_pcap_open_live. destruct (negb (dev_create d)); [done|].
  do 3 (destruct (negb (_ =? 0)); [done|]). destruct (_ <? 0); [done|]. destruct (negb (_ =? DLT_EN10MB)); [done|].
  destruct (dev_hwaddr d) as [mac|] eqn:Em; [|done]. destruct (CMP_MAC NONE_MAC mac) eqn:En; [done|].
  apply CMP_MAC_false in En. set (i1 := match first_inet _ with Some _ => _ | None => _ end).
  assert (Hi1 : has_ipv4 i1 = true -> quad (if_ipv4 i1) /\ quad (if_netmask i1) /\ if_ipv4 i1 <> NONE_IP).
  { subst i1. destruct (first_inet _) as [a|] eqn:Ef; [|done]. intros _. apply first_inet_in in Ef as [Hin Hinet].
    rewrite Forall_forall in Ha. destruct (Ha _ Hin Hinet) as (Hq & Hz & Hk). cbn. split_and!; [done| |done].
    destruct (pa_netmask a) as [m|]; [by apply Hk|by apply quad_sample]. }
  clearbody i1. destruct (set_filter _ _ _) as [ok fl]. destruct (negb ok); [done|].
  destruct (_ =? -1); [done|]. cbn. destruct (negb _); [done|]. intros [= <- <-]. split; [by apply Hm|done|exact Hi1].
Qed.

Lemma select_some devs : forall k n, exists n', select_netif k devs (Some n) = Some n'.
Proof. induction devs as [|d devs IH]; intros k n; [by exists n|]. cbn. destruct (_ =? _); apply IH. Qed.

Lemma open_named_ok devs n subnet l : Forall device_ok devs -> open_named devs n subnet = Some l ->
  l = [] \/ exists i, l = [i] /\ interf_ok i.
Proof.
  intros Hd. induction Hd as [|d devs Hd _ IH]; cbn; [intros [= <-]; by left|].
  destruct (String.eqb _ _); [|done]. destruct (uv_pcap_open_live _ _ _) as [i f|i|] eqn:E; [|intros [= <-]; by left|done].
  intros [= <-]. right. exists i. split; [done|]. by eapply open_live_ok.
Qed.

(** an adapter that was named is opened as the only interface of its handle *)
Lemma uv_pcap_init_named devs n subnet h :
  devices_ok devs -> uv_pcap_init devs (Some n) subnet = Some (0, h) -> exists i, h = mkPcap ∅ [i] /\ interf_ok i.
Proof.
  intros Hd. unfold uv_pcap_init. destruct devs as [devs|]; [|done].
  destruct (select_some devs 1 n) as [n' ->]. destruct devs as [|d devs]; [done|].
  destruct (open_named _ n' subnet) as [l|] eqn:E; [|done]. intros [= E0 <-].
  apply open_named_ok in E as [->|(i & -> & Hi)]; [done| |by apply Hd]. by exists i.
Qed.

Section Adapters.
Context (su : startup) (o : cli_options) (filter : string).

Lemma init_pcap_spec n w : devices_ok (su_wifi su) -> opt_netif o = Some n ->
  iwp (init_pcap su o filter) (fun _ w' => exists i, w' = w <| lp ::= set lp_pcap (fun _ => mkPcap ∅ [i]) |> /\ interf_ok i) w.
Proof.
  intros Hd Hn. unfold init_pcap. rewrite Hn. destruct (uv_pcap_init _ _ _) as [[rc h]|] eqn:E; [|apply iwp_fail].
  apply iwp_modify, iwp_unless. intros Hrc. apply Z.eqb_eq in Hrc as ->.
  apply uv_pcap_init_named in E as (i & -> & Hi); [|done]. by exists i.
Qed.
Lemma init_zerotier_pcap_spec n w : devices_ok (su_zerotier su) -> opt_zerotier_name o = Some n ->
  iwp (init_zerotier_pcap su o filter)
    (fun _ w' => exists i, w' = w <| lp ::= set lp_zerotier_pcap (fun _ => mkPcap ∅ [i]) |> /\ interf_ok i) w.
Proof.
  intros Hd Hn. unfold init_zerotier_pcap. rewrite Hn. destruct (uv_pcap_init _ _ _) as [[rc h]|] eqn:E; [|apply iwp_fail].
  apply iwp_modify, iwp_unless. intros Hrc. apply Z.eqb_eq in Hrc as ->.
  apply uv_pcap_init_named in E as (i & -> & Hi); [|done]. by exists i.
Qed.
End Adapters.

Lemma quad_cases l : quad l -> exists a b c d, l = [a; b; c; d] /\ is_byte a /\ is_byte b /\ is_byte c /\ is_byte d.
Proof.
  intros [Hl Hb]. unfold blen in Hl. destruct l as [|a [|b [|c [|d [|]]]]]; cbn in Hl; try lia.
  exists a, b, c, d. rewrite !Forall_cons_iff in Hb. by destruct Hb as (? & ? & ? & ? & _).
Qed.
Lemma quad_zip f p q : (forall x y, is_byte x -> is_byte y -> is_byte (f x y)) -> quad p -> quad q -> quad (zip_with f p q).
Proof.
  intros Hf (a & b & c & d & -> & ? & ? & ? & ?)%quad_cases (a' & b' & c' & d' & -> & ? & ? & ? & ?)%quad_cases.
  split; [done|]. cbn. repeat (constructor; [by apply Hf|]). constructor.
Qed.
Lemma not8_byte m : is_byte (not8 m).
Proof. apply u8_byte. Qed.

(** the Wi-Fi half of the adapters *)
Record wifi_side (a : adapters) : Prop := {
  ws_ip : quad (wifi_ip a);
  ws_net : wifi_subnet_known a = true ->
    blen (wifi_subnet a) = 4 /\ blen (wifi_netmask a) = 4 /\ blen (wifi_broadcast a) = 4
}.
(** the last byte of [zerotier_mac] on: what the other half keeps *)
Definition zerotier_half (a : adapters) := (zerotier_mac a, zerotier_ip a, zerotier_netmask a, zerotier_broadcast_ip a).
Definition wifi_half (a : adapters) :=
  (wifi_mac a, wifi_ip a, wifi_netmask a, wifi_subnet a, wifi_broadcast a, wifi_subnet_known a).

Lemma init_wifi_adapter_spec i w :
  lp_pcap (lp w) = mkPcap ∅ [i] -> interf_ok i -> wifi_side (lp_adapters (lp w)) ->
  iwp init_wifi_adapter (fun _ w' => exists a, w' = w <| lp ::= set lp_adapters (fun _ => a) |> /\
    wifi_mac a = if_mac i /\ wifi_side a /\ zerotier_half a = zerotier_half (lp_adapters (lp w))) w.
Proof.
  intros Hh Hi Hw. unfold init_wifi_adapter, getlp, setadapters, setlp. apply iwp_gets. rewrite Hh.
  apply iwp_attempt, iwp_given. intros mac [= <-]. apply iwp_modify. cbn [uv_pcap_get_ipv4 interfaces].
  destruct (has_ipv4 i) eqn:E4.
  - destruct (ik_ipv4 _ Hi E4) as (Hq & Hm & _). apply iwp_modify, iwp_pass. eexists. split; [done|]. cbn.
    pose proof (quad_zip Z.land _ _ (fun x y Hx _ => land_byte x y Hx) Hq Hm) as Hs. split_and!; [done| |done].
    split; [done|]. intros _. cbn. split_and!; [apply Hs|apply Hm|]. apply (quad_zip (fun s m => Z.lor s (not8 m))); [|done..].
    intros x y Hx _. apply lor_byte; [done|apply not8_byte].
  - apply iwp_pass. eexists. split; [done|]. cbn. split_and!; [done| |done]. by destruct Hw.
Qed.

Lemma broadcast_loop w ip om mask net :
  quad ip -> quad om -> quad mask -> quad net -> blen (zerotier_broadcast_ip (lp_adapters (lp w))) = 4 ->
  iwp (init_zerotier_broadcast 0 ip om mask net) (fun _ w' => in_network ip mask net = true /\
    w' = w <| lp ::= set lp_adapters (set zerotier_broadcast_ip (fun _ => zip_with (fun a m => Z.lor a (not8 m)) ip om)) |>) w.
Proof.
  intros (a & b & c & d & -> & _)%quad_cases (a' & b' & c' & d' & -> & _)%quad_cases
    (ma & mb & mc & md & -> & _)%quad_cases (na & nb & nc & nd & -> & _)%quad_cases Hl.
  cbn [init_zerotier_broadcast in_network zip_with]. unfold setadapters, setlp.
  destruct (Z.land a ma =? na); [|by apply iwp_modify, iwp_fail]. cbn [negb]. apply iwp_modify.
  destruct (Z.land b mb =? nb); [|by apply iwp_modify, iwp_fail]. cbn [negb]. apply iwp_modify.
  destruct (Z.land c mc =? nc); [|by apply iwp_modify, iwp_fail]. cbn [negb]. apply iwp_modify.
  destruct (Z.land d md =? nd); [|by apply iwp_modify, iwp_fail]. cbn [negb]. apply iwp_modify.
  apply iwp_pass. split; [done|]. destruct w as [[? ? ? ? ? ? [? ? ? ? ? ? ? ? ? bc] ? ? ? ? ? ? ?] ? ? ? ? ?].
  cbn in Hl. unfold blen in Hl. destruct bc as [|? [|? [|? [|? [|]]]]]; cbn in Hl; try lia. reflexivity.
Qed.

Lemma init_zerotier_adapter_spec i net mask w :
  lp_zerotier_pcap (lp w) = mkPcap ∅ [i] -> interf_ok i -> quad net -> quad mask ->
  blen (zerotier_broadcast_ip (lp_adapters (lp w))) = 4 ->
  iwp (init_zerotier_adapter net mask) (fun _ w' => exists a, w' = w <| lp ::= set lp_adapters (fun _ => a) |> /\
    wifi_half a = wifi_half (lp_adapters (lp w)) /\ zerotier_mac a = if_mac i /\ quad (zerotier_ip a) /\
    zerotier_ip a <> NONE_IP /\ quad (zerotier_netmask a) /\ in_network (zerotier_ip a) mask net = true /\
    zerotier_broadcast_ip a = zip_with (fun x m => Z.lor x (not8 m)) (zerotier_ip a) (zerotier_netmask a)) w.
Proof.
  intros Hh Hi Hn Hm Hb. unfold init_zerotier_adapter, getlp, setadapters, setlp. apply iwp_gets. rewrite Hh.
  apply iwp_attempt, iwp_given. intros mac [= <-]. apply iwp_modify, iwp_attempt, iwp_given. intros [ip om] E.
  cbn [uv_pcap_get_ipv4 interfaces] in E. destruct (has_ipv4 i) eqn:E4; [|done]. injection E as <- <-.
  destruct (ik_ipv4 _ Hi E4) as (Hq & Ho & Hz). apply iwp_modify. cbn [fst snd].
  eapply iwp_mono; [apply broadcast_loop; [done..|exact Hb]|]. intros _ w' [Hin ->]. eexists. split; [|split_and!]; try done.
Qed.

(** *** The running relay *)

(** what the state must satisfy before a start: as left by the static
    initialisation, or by an earlier run *)
Record restartable (w : world) : Prop := {
  ra_wifi : wifi_side (lp_adapters (lp w));
  ra_broadcast : blen (zerotier_broadcast_ip (lp_adapters (lp w))) = 4;
  ra_switch : wf_switch (lp_switch (lp w));
  ra_guard : udp_guard (lp w) = None;
  ra_buffer : blen (send_buffer (lp w)) = BUFFER_SIZE;
  ra_clock : monotone_clock w;
  ra_stack : stack_output_ok (environment w)
}.

Lemma broadcast_positive ip m : quad ip -> quad m -> ip <> NONE_IP ->
  0 < ipv4_to_u32 (zip_with (fun x m => Z.lor x (not8 m)) ip m).
Proof.
  intros Hip Hm Hne. assert (Hq : quad (zip_with (fun x m => Z.lor x (not8 m)) ip m)).
  { apply quad_zip; [|done..]. intros x y Hx _. apply lor_byte; [done|apply not8_byte]. }
  destruct (ipv4_to_u32_bound _ (proj2 Hq)) as [H0 _].
  destruct (Z.eq_dec (ipv4_to_u32 (zip_with (fun x m => Z.lor x (not8 m)) ip m)) 0) as [E|]; [|lia].
  destruct Hne. assert (Hz : zip_with (fun x m => Z.lor x (not8 m)) ip m = NONE_IP).
  { rewrite <- (u32_round_trip _ (proj2 Hq) (proj1 Hq)), E. done. }
  apply quad_cases in Hip as (a & b & c & d & -> & _). apply quad_cases in Hm as (a' & b' & c' & d' & -> & _).
  cbn in Hz. injection Hz as Ea Eb Ec Ed. apply Z.lor_eq_0_iff in Ea as [-> _], Eb as [-> _], Ec as [-> _], Ed as [-> _]. done.
Qed.

Lemma arp_list_init_wf : Forall wf_item arp_list_init.
Proof. by apply Forall_replicate. Qed.

Lemma no_leases_ok a gw t : lease_ok a gw (leases dhcp_server_init) t.
Proof.
  assert (Hn : forall i l, leases dhcp_server_init !! i = Some l -> used l = false).
  { intros i l H. apply lookup_replicate in H as [-> _]. done. }
  split; [done|..]; intros; exfalso; repeat match goal with H : _ !! _ = Some _ |- _ => apply Hn in H end; congruence.
Qed.

Section Assemble.
Context (w : world) (i j : uv_pcap_interf) (buf ip net mask : list Z).
Hypothesis Hi : interf_ok i.
Hypothesis Hj : interf_ok j.
Hypothesis Hip : quad ip.
Hypothesis Hnet : quad net.
Hypothesis Hbuf : blen buf = BUFFER_SIZE.
Hypothesis Hwifi : lp_pcap (lp w) = mkPcap ∅ [i].
Hypothesis Hzt : lp_zerotier_pcap (lp w) = mkPcap ∅ [j].
Hypothesis Hctx : lp_packet_ctx (lp w) = packet_init buf BUFFER_SIZE ip net mask 30.
Hypothesis Hnb : arp_list (zerotier_neighbors (lp w)) = arp_list_init.
Hypothesis Hdhcp : dhcp_state (lp w) = dhcp_server_init.
Hypothesis Hclk : monotone_clock w.

Let a := lp_adapters (lp w).
Hypothesis Hwm : wifi_mac a = if_mac i.
Hypothesis Hws : wifi_side a.
Hypothesis Hzm : zerotier_mac a = if_mac j.
Hypothesis Hzi : quad (zerotier_ip a).
Hypothesis Hzn : zerotier_ip a <> NONE_IP.
Hypothesis Hzk : quad (zerotier_netmask a).
Hypothesis Hzb : zerotier_broadcast_ip a = zip_with (fun x m => Z.lor x (not8 m)) (zerotier_ip a) (zerotier_netmask a).

Lemma broadcast_quad : quad (zerotier_broadcast_ip a).
Proof using Hzb Hzi Hzk.
  rewrite Hzb. apply quad_zip; [|done..]. intros x y Hx _. apply lor_byte; [done|apply not8_byte].
Qed.

Lemma assembled_ready : ready w (if_mac i) (if_mac j) AnyMac.
Proof using All.
  pose proof broadcast_quad as Hbq. split.
  - split; rewrite ?Hctx; try done; [cbn; by rewrite Hbuf|]. rewrite Hwifi. split_and!; [apply Hi|done|apply map_Forall_empty].
  - rewrite Hzt. split_and!; [apply Hj|done|apply map_Forall_empty].
  - by rewrite Hctx.
  - done.
  - rewrite Hctx. apply Hip.
  - rewrite Hctx. apply Hip.
  - unfold wf_tables. rewrite Hctx, Hnb. split; apply arp_list_init_wf.
  - fold a. split; [rewrite Hwm; apply Hi|apply Hws|rewrite Hzm; apply Hj|apply Hzi|apply Hzk|apply Hbq| |apply Hws].
    split_and!; [apply Hzi|apply Hbq|apply Hws|apply Hzk].
Qed.

Lemma assembled :
  wf_switch (lp_switch (lp w)) -> udp_guard (lp w) = None -> opt_zerotier_if (options w) = true ->
  stack_output_ok (environment w) -> relay_ok (if_mac i) (if_mac j) w.
Proof using All.
  intros Hsw Hg Ho Hst. split; [by exists AnyMac; apply assembled_ready|done| | | |done|done|rewrite Hctx; apply Hnet].
  - intros g. by rewrite Hg.
  - split; fold a.
    + split; apply Hzi.
    + rewrite Hctx. apply Hip.
    + apply broadcast_quad.
    + rewrite Hzb. by apply broadcast_positive.
    + exact Hclk.
  - unfold leases_ok. rewrite Hdhcp. apply no_leases_ok.
Qed.
End Assemble.

(** *** Ports, files and the timer *)

Lemma relay_ok_guard wm zm w w' : guard_frame w w' -> guards_ok w' -> relay_ok wm zm w -> relay_ok wm zm w'.
Proof.
  intros Hf Hg Hok. destruct (ok_ready _ _ _ Hok) as [pm Hr].
  assert (Hs : forall A (f : lan_play -> A), (forall l, f (l <| udp_guard := None |>) = f l) -> f (lp w') = f (lp w)).
  { intros A f Hl. by apply (guard_frame_field f). }
  apply (relay_ok_step _ _ pm w); [| | |done| |done].
  - split; try apply Hf; [|by apply (Hs _ lp_adapters)|by apply (Hs _ ingress_zerotier)].
    apply (Hs _ (fun l => (pc_ip (lp_packet_ctx l), subnet_net (lp_packet_ctx l), subnet_mask (lp_packet_ctx l)))). done.
  - apply (ready_same w); [by apply (Hs _ lp_packet_ctx)|by apply (Hs _ zerotier_neighbors)
      |by apply (Hs _ (fun l => pcap_ids (lp_pcap l)))|by apply (Hs _ (fun l => pcap_ids (lp_zerotier_pcap l)))
      |by apply (Hs _ lp_adapters)|done].
  - rewrite (Hs _ lp_switch) by done. apply Hok.
  - unfold same_leases. by apply (Hs _ (fun l => leases (dhcp_state l))).
Qed.

Lemma guard_create_spec wm zm ip w : relay_ok wm zm w ->
  wp (native_udp_guard_create ip) (fun rc w' => relay_ok wm zm w' /\ guard_frame w w') w.
Proof.
  intros Hok. unfold native_udp_guard_create, setlp, ext. apply wp_bind, wp_modify, wp_bind, wp_bind, wp_gets, wp_bind, wp_modify, wp_ret.
  destruct (negb _).
  - apply wp_ret. set (w' := _ <| tick ::= S |>). assert (guard_frame w w') by (split; done || (cbn; lia)).
    split; [|done]. by apply (relay_ok_guard _ _ w).
  - apply wp_bind, wp_modify, wp_ret. set (w' := _ <| lp ::= _ |>). assert (guard_frame w w') by (split; done || (cbn; lia)).
    split; [|done]. apply (relay_ok_guard _ _ w); try done. intros g [= <-]. by split; try constructor.
Qed.

Lemma close_ports_spec ps : forall w, wp (close_ports ps) (fun _ w' => w' = w <| output ::= app (rev (map Closed ps)) |>) w.
Proof.
  induction ps as [|p ps IH]; intros w; [by destruct w|]. cbn [close_ports]. unfold emit. apply wp_bind, wp_modify.
  eapply wp_mono; [apply IH|]. intros _ w' ->. destruct w. unfold set. cbn. by rewrite <- app_assoc.
Qed.
Lemma guard_close_spec w : wp native_udp_guard_close (fun _ w' => w' =
  w <| output ::= app (rev (map Closed (default [] (ports <$> udp_guard (lp w))))) |>) w.
Proof.
  unfold native_udp_guard_close, getlp. apply wp_bind, wp_gets. destruct (udp_guard (lp w)) as [g|].
  - apply close_ports_spec.
  - apply wp_ret. by destruct w.
Qed.

Lemma reserve_ports_spec wm zm ps : Forall (fun p => 0 <= p <= 65535) ps -> forall w, relay_ok wm zm w ->
  iwp (reserve_ports ps) (fun _ w' => relay_ok wm zm w' /\ guard_frame w w' /\
    (forall p, p ∈ ps -> holds_port w' p) /\ (forall p, holds_port w p -> holds_port w' p)) w.
Proof.
  induction 1 as [|p ps Hp Hps IH]; intros w Hok; cbn [reserve_ports].
  { apply iwp_pass. split_and!; [done..| |done]. by intros p Hp%not_elem_of_nil. }
  apply wp_bind. eapply wp_mono; [apply reserve_spec; [done|apply Hok]|].
  intros rc w1 (Hf & Hg & Hheld & _ & Hkeep). assert (Hok1 : relay_ok wm zm w1) by (by apply (relay_ok_guard _ _ w)).
  destruct (Z.eqb_spec rc 0) as [->|Hrc]; cbn [negb].
  - eapply iwp_mono; [apply IH; done|]. intros _ w2 (Hok2 & Hf2 & Hall & Hkeep2). split_and!; [done|by etrans| |auto].
    intros q [-> | Hq]%elem_of_cons; auto.
  - apply wp_bind. eapply wp_mono; [apply guard_close_spec|]. intros _ w2 _. by apply iwp_modify, iwp_fail.
Qed.

Lemma close_files_io n : forall i, respects io_frame (close_capture_files i n).
Proof.
  induction n as [|n IH]; intros i; cbn [close_capture_files]; [apply (respects_ret _)|].
  unfold getlp, emit, setlp. repeat (respects_step; try apply IH).
Qed.
Lemma close_captures_io : respects io_frame close_captures.
Proof. unfold close_captures, setlp. apply (respects_bind _); [apply close_files_io|]. intros _. solve_respects. Qed.
#[export] Hint Resolve close_captures_io : respects.
Lemma open_files_io su prefix l : forall i, respects io_frame (open_capture_files su prefix i l).
Proof.
  induction l as [|s l IH]; intros i; cbn [open_capture_files]; unfold setlp; [apply (respects_ret _)|].
  repeat (respects_step; try apply IH).
Qed.
#[export] Hint Resolve open_files_io : respects.
Lemma open_captures_io su : respects io_frame (open_captures su).
Proof. unfold open_captures, option_of, setlp, time_now, uv_hrtime, ext. solve_respects. Qed.

Lemma close_files_total n : forall i w, wp (close_capture_files i n) (fun _ _ => True) w.
Proof.
  induction n as [|n IH]; intros i w; cbn [close_capture_files]; [done|].
  apply wp_bind. eapply wp_mono; [apply flush_capture_spec|]. intros _ w1 _. unfold getlp, emit, setlp. apply wp_bind, wp_gets, wp_bind.
  destruct (capture_open _ _); [apply wp_modify|apply wp_ret]; apply wp_bind, wp_modify, IH.
Qed.
Lemma close_captures_total w : wp close_captures (fun _ _ => True) w.
Proof. unfold close_captures. apply wp_bind. eapply wp_mono; [apply close_files_total|]. intros _ w1 _. by apply wp_modify. Qed.
Lemma open_files_total su prefix l : forall i w, wp (open_capture_files su prefix i l) (fun _ _ => True) w.
Proof.
  assert (Hc : forall w, wp (close_captures ;;; ret (-1)) (fun _ _ => True) w).
  { intros w. apply wp_bind. eapply wp_mono; [apply close_captures_total|]. done. }
  induction l as [|s l IH]; intros i w; cbn [open_capture_files]; [done|].
  destruct (_ <=? _); [apply Hc|]. destruct (negb _); [apply Hc|]. destruct (negb _); [apply Hc|].
  apply wp_bind, wp_modify, IH.
Qed.
Lemma open_captures_total su w : wp (open_captures su) (fun _ _ => True) w.
Proof.
  unfold open_captures, option_of, setlp, time_now, uv_hrtime, ext. apply wp_bind, wp_gets.
  destruct (opt_capture_prefix _); [|done]. apply wp_bind, wp_modify. destruct (negb _); [done|].
  do 2 (apply wp_bind, wp_bind, wp_gets, wp_bind, wp_modify, wp_ret, wp_bind, wp_modify).
  do 2 apply wp_bind, wp_modify. apply open_files_total.
Qed.

Lemma init_discovery_spec su o wm zm w : relay_ok wm zm w ->
  iwp (init_discovery su o) (fun _ w' => relay_ok wm zm w' /\ lp_adapters (lp w') = lp_adapters (lp w) /\
    lp_packet_ctx (lp w') = lp_packet_ctx (lp w) /\ udp_guard (lp w') = udp_guard (lp w) /\
    (opt_discover_switch o = true -> lp_discovery (lp w') = mkDiscovery 2 0 (wifi_subnet_known (lp_adapters (lp w))) true)) w.
Proof.
  intros Hok. unfold init_discovery. destruct (opt_discover_switch o); cbn [negb]; [|by apply iwp_pass].
  unfold getlp, setlp. apply iwp_gets, iwp_modify. destruct (negb _); [apply iwp_fail|]. destruct (negb _); [apply iwp_fail|].
  apply iwp_modify, iwp_pass. split_and!; try done. destruct (ok_ready _ _ _ Hok) as [pm Hr].
  apply (relay_ok_step _ _ pm w); try done; [by apply (ready_same w)|apply Hok|apply Hok].
Qed.

(** a start is tried with both adapters named *)
Section Start.
Context (su : startup) (w : world) (netif zerotier : string).
Hypothesis Hra : restartable w.
Hypothesis Hdw : devices_ok (su_wifi su).
Hypothesis Hdz : devices_ok (su_zerotier su).
Hypothesis Hnw : opt_netif (options w) = Some netif.
Hypothesis Hnz : opt_zerotier_name (options w) = Some zerotier.

(** the relay is up: the invariant holds, the network addresses are consistent
    and the host holds the ports of the games *)
Definition running (w' : world) : Prop :=
  (exists wm zm, relay_ok wm zm w') /\
  (let c := lp_packet_ctx (lp w') in
   in_network (pc_ip c) (subnet_mask c) (subnet_net c) = true /\
   in_network (zerotier_ip (lp_adapters (lp w'))) (subnet_mask c) (subnet_net c) = true) /\
  (forall p, p ∈ game_ports -> holds_port w' p) /\
  (opt_discover_switch (options w) = true ->
   lp_discovery (lp w') = mkDiscovery 2 0 (wifi_subnet_known (lp_adapters (lp w'))) true).

(** the last steps, from a relay whose network is up *)
Lemma start_services wm zm addr w1 : relay_ok wm zm w1 ->
  (let c := lp_packet_ctx (lp w1) in
   in_network (pc_ip c) (subnet_mask c) (subnet_net c) = true /\
   in_network (zerotier_ip (lp_adapters (lp w1))) (subnet_mask c) (subnet_net c) = true) ->
  iwp (let* rc := native_udp_guard_create addr in
       let! _ := unless (rc =? 0) (NoEndpoints rc) in
       let! _ := reserve_ports game_ports in
       let* rc := open_captures su in
       let! _ := unless (rc =? 0) NoCaptures in
       let! _ := init_discovery su (options w) in
       pass 0) (fun rc w' => rc = 0 /\ running w') w1.
Proof.
  intros Hok Hin. apply wp_bind. eapply wp_mono; [by apply (guard_create_spec wm zm)|].
  intros rc w2 [Hok2 Hf2]. apply iwp_attempt, iwp_unless. intros _. apply iwp_attempt.
  eapply iwp_mono; [apply (reserve_ports_spec wm zm); [repeat constructor; lia|done]|].
  intros _ w3 (Hok3 & Hf3 & Hheld & _). apply wp_bind.
  eapply wp_mono; [apply (wp_respects io_frame); [apply open_captures_io|apply open_captures_total]|].
  intros rc3 w4 [Hio _]. pose proof (relay_ok_io _ _ _ _ Hio Hok3) as Hok4.
  apply iwp_attempt, iwp_unless. intros _. apply iwp_attempt. eapply iwp_mono; [by apply (init_discovery_spec _ _ wm zm)|].
  intros _ w5 (Hok5 & Ha & Hc & Hg & Hd). apply iwp_pass. split; [done|].
  assert (Hf : guard_frame w1 w3) by (by etrans).
  assert (Ea : lp_adapters (lp w5) = lp_adapters (lp w1)).
  { rewrite Ha, (io_adapters _ _ Hio). by apply (guard_frame_field lp_adapters). }
  assert (Ec : lp_packet_ctx (lp w5) = lp_packet_ctx (lp w1)).
  { rewrite Hc, (io_ctx _ _ Hio). by apply (guard_frame_field lp_packet_ctx). }
  split_and!; [by exists wm, zm|by rewrite Ea, Ec| |].
  - intros p Hp. destruct (Hheld p Hp) as (g & Eg & Hin'). exists g. by rewrite Hg, (io_guard _ _ Hio).
  - intros Hds. by rewrite Hd, Ha.
Qed.

Lemma start_total : iwp (lan_play_init su) (fun rc w' => rc = 0 /\ running w') w.
Proof using All.
  unfold lan_play_init, option_of, getlp, setlp. apply iwp_gets, iwp_modify, iwp_modify, iwp_attempt.
  eapply iwp_mono; [apply init_client_spec|]. intros _ w1 [c ->].
  apply iwp_attempt. eapply iwp_mono; [apply init_subnet_spec|]. intros [[net mask] filter] w2 (-> & Hnet & Hmask). cbn [fst snd] in *.
  apply iwp_attempt. eapply iwp_mono; [apply init_gateway_spec|]. intros ip w3 [-> Hip].
  apply iwp_attempt, iwp_unless. intros Hgw. apply iwp_attempt.
  eapply iwp_mono; [by apply (init_pcap_spec _ _ _ netif)|]. intros _ w4 (i & -> & Hi). apply iwp_attempt.
  eapply iwp_mono; [by apply (init_zerotier_pcap_spec _ _ _ zerotier)|]. intros _ w5 (j & -> & Hj). apply iwp_attempt.
  eapply iwp_mono; [apply (init_wifi_adapter_spec i); [reflexivity|done|apply Hra]|].
  intros _ w6 (a & -> & Hwm & Hws & Hza). apply iwp_attempt. injection Hza as _ _ _ Hzb0.
  eapply iwp_mono; [apply (init_zerotier_adapter_spec j); [reflexivity|done..|]|].
  { change (blen (zerotier_broadcast_ip a) = 4). rewrite Hzb0. apply Hra. }
  intros _ w7 (b & -> & Hwh & Hzm & Hzi & Hzn & Hzk & Hzin & Hzb). change (lp_adapters (lp _)) with a in Hwh.
  apply iwp_gets, iwp_attempt, iwp_unless. intros _. apply iwp_attempt, iwp_unless. intros _. apply iwp_modify, iwp_attempt.
  eapply iwp_mono with (P := fun _ w' => w' = _).
  { destruct (opt_socks5_server_addr _); [|by apply iwp_pass]. apply iwp_attempt, iwp_given. intros ? _. by apply iwp_pass. }
  intros _ w8 ->. apply iwp_attempt, iwp_unless. intros _. injection Hwh as Ewm Ewi Ewn Ews Ewb Ewk.
  assert (Hws' : wifi_side b) by (destruct Hws as [H1 H2]; split; [by rewrite Ewi|by rewrite Ewk, Ewn, Ews, Ewb]).
  eapply (start_services (if_mac i) (if_mac j)); [|by split].
  apply (assembled _ i j (send_buffer (lp w)) ip net mask); try done; try apply Hra.
  - change (wifi_mac b = if_mac i). congruence.
  - unfold opt_zerotier_if. cbn. by rewrite Hnz.
Qed.
End Start.

(** ** Stopping *)

(** how often the capture file [i] is closed in a list of effects *)
Definition closes_file (i : nat) (e : event) : bool := match e with DumpClosed j => (j =? i)%nat | _ => false end.
Definition closes (i : nat) (evs : list event) : nat := length (List.filter (closes_file i) evs).
Lemma closes_app i l1 l2 : closes i (l1 ++ l2) = (closes i l1 + closes i l2)%nat.
Proof. unfold closes. by rewrite List.filter_app, length_app. Qed.

Lemma capture_open_insert i k l :
  capture_open k (l <| lp_captures ::= set captures (insert i false) |>) = negb (k =? i)%nat && capture_open k l.
Proof.
  unfold capture_open. cbn. destruct (Nat.eqb_spec k i) as [->|Hn]; cbn.
  - destruct (decide (i < length (captures (lp_captures l)))%nat).
    + by rewrite list_lookup_insert_eq.
    + by rewrite lookup_ge_None_2 by (rewrite length_insert; lia).
  - by rewrite list_lookup_insert_ne by congruence.
Qed.

(** one file: closed once if it is open, by the failing flush or after it *)
Lemma close_file_spec i w :
  wp (flush_capture i ;;;
      let* open := getlp (capture_open i) in
      (if open then emit (DumpClosed i) else ret tt) ;;;
      setlp (set lp_captures (set captures (insert i false))))
    (fun _ w' => output w' = (if capture_open i (lp w) then [DumpClosed i] else []) ++ output w /\
      forall k, capture_open k (lp w') = negb (k =? i)%nat && capture_open k (lp w))%list w.
Proof.
  unfold flush_capture, getlp, emit, setlp, ext. apply wp_bind, wp_bind, wp_gets.
  destruct (capture_open i (lp w)) eqn:Eo; cbn [negb].
  - do 2 apply wp_bind. apply wp_gets, wp_bind, wp_modify, wp_ret. apply wp_bind. destruct (_ =? 0).
    + apply wp_ret, wp_modify, wp_bind, wp_gets.
      change (capture_open i (lp _)) with (capture_open i (lp w)). rewrite Eo.
      apply wp_bind, wp_modify, wp_modify. split; [done|]. intros k. etrans; [apply capture_open_insert|done].
    + apply wp_bind, wp_modify, wp_modify, wp_modify, wp_bind, wp_gets. set (w1 := _ <| lp ::= _ |>).
      assert (Ek : forall k, capture_open k (lp w1) = negb (k =? i)%nat && capture_open k (lp w)) by (intros k; apply capture_open_insert).
      assert (Ew : output w1 = DumpClosed i :: output w) by done. clearbody w1.
      rewrite Ek, Nat.eqb_refl. cbn [negb andb]. apply wp_bind, wp_ret, wp_modify. split; [exact Ew|].
      intros k. rewrite <- Ek. etrans; [apply capture_open_insert|]. rewrite Ek. by destruct (k =? i)%nat.
  - apply wp_ret, wp_bind, wp_gets. rewrite Eo. apply wp_bind, wp_ret, wp_modify. split; [done|].
    intros k. apply capture_open_insert.
Qed.

(** the files [i] to [i + n - 1] *)
Definition among (i n k : nat) : bool := (i <=? k)%nat && (k <? i + n)%nat.
Lemma among_succ i n k : among i (S n) k = (k =? i)%nat || among (S i) n k.
Proof.
  unfold among. destruct (Nat.eqb_spec k i), (Nat.leb_spec i k), (Nat.leb_spec (S i) k), (Nat.ltb_spec k (i + S n)),
    (Nat.ltb_spec k (S i + n)); try lia; done.
Qed.
Lemma among_first i n : among (S i) n i = false.
Proof. unfold among. destruct (Nat.leb_spec (S i) i); [lia|done]. Qed.

(** effects [evs] close each of the files once if it was open, and no other *)
Record closed_files (i n : nat) (evs : list event) (w w' : world) : Prop := {
  cf_output : output w' = (evs ++ output w)%list;
  cf_once : forall k, closes k evs = if among i n k && capture_open k (lp w) then 1%nat else 0%nat;
  cf_closed : forall k, capture_open k (lp w') = negb (among i n k) && capture_open k (lp w)
}.

Lemma closed_files_step i n evs w w1 w' :
  output w1 = ((if capture_open i (lp w) then [DumpClosed i] else []) ++ output w)%list ->
  (forall k, capture_open k (lp w1) = negb (k =? i)%nat && capture_open k (lp w)) ->
  closed_files (S i) n evs w1 w' ->
  closed_files i (S n) (evs ++ (if capture_open i (lp w) then [DumpClosed i] else []))%list w w'.
Proof.
  intros Hout Hcap [Ho Hc Hk]. split.
  - by rewrite Ho, Hout, app_assoc.
  - intros k. rewrite closes_app, Hc, Hcap, among_succ. destruct (Nat.eqb_spec k i) as [->|Hn]; cbn [negb andb orb].
    + rewrite andb_false_r. destruct (capture_open i (lp w)); cbn; by rewrite ?Nat.eqb_refl.
    + destruct (capture_open i (lp w)); cbn; [|by rewrite Nat.add_0_r].
      destruct (Nat.eqb_spec i k); [congruence|]. cbn. by rewrite Nat.add_0_r.
  - intros k. rewrite Hk, Hcap, among_succ. destruct (Nat.eqb_spec k i) as [->|Hn]; cbn [negb andb orb]; [by rewrite andb_false_r|done].
Qed.

Lemma close_files_spec n : forall i w, wp (close_capture_files i n) (fun _ w' => exists evs, closed_files i n evs w w') w.
Proof.
  induction n as [|n IH]; intros i w; cbn [close_capture_files].
  - assert (E : forall k, among i 0 k = false) by (intros k; unfold among; destruct (Nat.leb_spec i k), (Nat.ltb_spec k (i + 0)); lia || done).
    apply wp_ret. exists []. split; [done|..]; intros k; by rewrite E.
  - pose proof (close_file_spec i w) as Hone. apply wp_run in Hone as (u & w1 & Hrun & Hout & Hcap).
    assert (Hrest : wp (close_capture_files (S i) n) (fun _ w' => exists evs, closed_files i (S n) evs w w') w1).
    { eapply wp_mono; [apply IH|]. intros _ w' [evs He]. eexists. by eapply closed_files_step. }
    revert Hrun Hrest. unfold wp, bind, getlp, gets, setlp, modify, emit, ret.
    destruct (flush_capture i w) as [[[] w0]|]; [|done]. destruct (capture_open i (lp w0)); intros [= <- <-]; auto.
Qed.

Lemma close_captures_spec w : wp close_captures (fun _ w' => (exists evs, closed_files 0 5 evs w w') /\
  capture_format (lp_captures (lp w')) = false) w.
Proof.
  unfold close_captures, setlp. apply wp_bind. eapply wp_mono; [apply close_files_spec|].
  intros _ w1 [evs []]. apply wp_modify. split; [|done]. by exists evs.
Qed.

(** ** Properties *)

(** C35. A start with both adapters named runs through without a fault, and if
    it succeeds it returns 0 with the relay running: the invariant of the
    handlers holds, the fake gateway and the ZeroTier address lie in the
    configured network, the host holds the game ports, and the discovery timer,
    unless it is disabled, starts with the first host. *)
Theorem start_establishes_invariant su w netif zerotier :
  restartable w -> devices_ok (su_wifi su) -> devices_ok (su_zerotier su) ->
  opt_netif (options w) = Some netif -> opt_zerotier_name (options w) = Some zerotier ->
  wp (lan_play_init su) (fun r w' => match r with inl rc => rc = 0 /\ running w w' | inr _ => True end) w.
Proof. apply start_total. Qed.

(** the state of the program before [main]: static storage *)
Definition zeroed : lan_play :=
  mkLanPlay (mkPacketCtx false None 0 NONE_IP NONE_IP NONE_IP None 0 [] 0 0 0 0 0) (mkPcap ∅ []) (mkPcap ∅ []) false
    (mkCounters 0 0 0 0 0 0 0) (mkDiscovery 0 0 false false)
    (mkAdapters NONE_MAC NONE_IP NONE_IP NONE_IP NONE_IP false NONE_MAC NONE_IP NONE_IP NONE_IP)
    Sample.no_switch (mkDhcp (replicate 8 no_lease) 0 0 0 0 0) Sample.neighbors None
    (mkProbe false false (replicate 16 0) NONE_IP NONE_MAC)
    (mkCaptures false (replicate 5 false) (replicate 5 0) (replicate 5 0) 0 0)
    (mkClient 0 false false 0 0 None (replicate LC_FRAG_COUNT no_frag) None (replicate 20 0) 0 0 0 0).

Definition sample_device (name : string) (mac ip : list Z) : pcap_if :=
  mkPcapIf name [mkPcapAddr false [] None; mkPcapAddr true ip (Some [255; 255; 255; 0])] true 0 0 0 0 1 (Some mac) (fun _ => true) 0 0.
Definition sample_devices : list pcap_if :=
  [sample_device "eth0" Sample.peer_mac [192; 168; 7; 7]; sample_device "wlan0" Sample.wifi_mac [192; 168; 1; 10];
   sample_device "zt0" Sample.zt_mac [10; 147; 17; 5]].
Definition sample_startup : startup :=
  mkStartup (Some sample_devices) (Some sample_devices) (fun _ _ => None) 0 true (fun _ => true) (fun _ => true) 0 0.
Definition sample_boot : world := mkWorld zeroed Sample.settings Sample.environment 0 0 [].

Lemma sample_device_ok name mac ip : blen mac = 6 -> quad ip -> ip <> NONE_IP -> device_ok (sample_device name mac ip).
Proof.
  intros Hm Hq Hz. split; [by intros ? [= <-]|]. constructor; [done|]. constructor; [|done].
  intros _. split_and!; [done..|]. intros m [= <-]. by apply quad_sample.
Qed.
Lemma sample_devices_ok : devices_ok (Some sample_devices).
Proof.
  intros l [= <-]. repeat (constructor; [apply sample_device_ok; [done|by apply quad_sample|done]|]). constructor.
Qed.
Lemma sample_restartable : restartable sample_boot.
Proof.
  split; try done; [split; [by apply quad_sample|done]|intros n b; constructor].
Qed.

(** the run succeeded and its final state satisfies [Q] *)
Definition started {A} (r : outcome ((A + init_error) * world)) : bool :=
  match r with Ok (inl _, _) => true | _ => false end.
Definition started_with {A} (r : outcome ((A + init_error) * world)) (Q : A -> world -> Prop) : Prop :=
  match r with Ok (inl a, w) => Q a w | _ => False end.
Lemma started_wp {A} (m : I A) Q w : iwp m Q w -> started (m w) = true -> started_with (m w) Q.
Proof. unfold iwp, wp. by destruct (m w) as [[[a|e] w']|f]. Qed.

Lemma start_witness :
  started_with (lan_play_init sample_startup sample_boot) (fun rc w' => rc = 0 /\ running sample_boot w').
Proof.
  apply started_wp; [|vm_compute; reflexivity].
  apply (start_establishes_invariant sample_startup sample_boot "wlan0" "zt0" sample_restartable
    sample_devices_ok sample_devices_ok eq_refl eq_refl).
Defined.

(** what stopping leaves: no host port, every capture file that was open closed
    exactly once and no other, the timer inactive *)
Record stopped (w w' : world) : Prop := {
  st_guard : udp_guard (lp w') = None;
  st_output : exists evs, output w' = (evs ++ rev (map Closed (default [] (ports <$> udp_guard (lp w)))) ++ output w)%list /\
    forall k, closes k evs = if among 0 5 k && capture_open k (lp w) then 1%nat else 0%nat;
  st_files : forall k, (k < 5)%nat -> capture_open k (lp w') = false;
  st_timer : opt_discover_switch (options w) = true -> switch_discovery_timer_active (lp_discovery (lp w')) = false
}.

Lemma stopped_guard w w1 w2 :
  lp_captures (lp w1) = lp_captures (lp w) -> udp_guard (lp w1) = udp_guard (lp w) -> output w1 = output w ->
  (opt_discover_switch (options w) = true -> switch_discovery_timer_active (lp_discovery (lp w1)) = false) ->
  w2 = w1 <| output ::= app (rev (map Closed (default [] (ports <$> udp_guard (lp w1))))) |> <| lp ::= set udp_guard (fun _ => None) |> ->
  wp (close_captures ;;; uv_pcap_close Wifi ;;; uv_pcap_close ZeroTier) (fun _ w' => stopped w w') w2.
Proof.
  intros Ec Eg Eo Ed E2. apply wp_bind.
  eapply wp_mono; [apply (wp_respects io_frame); [apply close_captures_io|apply close_captures_spec]|].
  intros _ w3 [Hio [[evs [Hout Hcl Hk]] _]]. unfold uv_pcap_close, setlp. apply wp_bind, wp_modify, wp_modify.
  assert (Hco : forall k, capture_open k (lp w2) = capture_open k (lp w)) by (intros k; subst w2; unfold capture_open; cbn; by rewrite Ec).
  split.
  - change (udp_guard (lp w3) = None). rewrite (io_guard _ _ Hio). by subst w2.
  - exists evs. split; [|intros k; by rewrite Hcl, Hco]. change (output w3 = (evs ++ rev (map Closed (default [] (ports <$> udp_guard (lp w)))) ++ output w)%list).
    rewrite Hout. subst w2. cbn. by rewrite Eg, Eo.
  - intros k Hk5. change (capture_open k (lp w3) = false). rewrite Hk. unfold among.
    destruct (Nat.ltb_spec k (0 + 5)); [done|cbn in *; lia].
  - intros Hd. change (switch_discovery_timer_active (lp_discovery (lp w3)) = false).
    rewrite (io_discovery _ _ Hio). subst w2. by apply Ed.
Qed.

Lemma close_total w :
  wp lan_play_close (fun rc w' => stopped w w' /\ (opt_relay_server_addr (options w) = None -> rc = 0)) w.
Proof.
  unfold lan_play_close, option_of, setlp. apply wp_bind, wp_gets, wp_bind.
  set (w1 := if opt_discover_switch (options w)
    then w <| lp ::= set lp_discovery (set switch_discovery_timer_active (fun _ => false)) |> else w).
  apply wp_mono with (P := fun _ w' => w' = w1); [subst w1; unfold id; by destruct (opt_discover_switch (options w))|].
  intros _ ? ->. apply wp_bind. eapply wp_mono; [apply guard_close_spec|]. intros _ w2 ->. apply wp_bind, wp_modify.
  assert (Hs := stopped_guard w w1 _ ltac:(subst w1; by destruct (opt_discover_switch _)) ltac:(subst w1; by destruct (opt_discover_switch _))
    ltac:(subst w1; by destruct (opt_discover_switch _)) ltac:(subst w1; by destruct (opt_discover_switch _)) eq_refl).
  revert Hs. generalize (w1 <| output ::= app (rev (map Closed (default [] (ports <$> udp_guard (lp w1))))) |> <| lp ::= set udp_guard (fun _ => None) |>).
  clear w1. intros w2 Hs. apply wp_run in Hs as (u & w3 & Hrun & Hst).
  unfold bind in Hrun. unfold wp, bind. destruct (close_captures w2) as [[[] wa]|]; [|done].
  destruct (uv_pcap_close Wifi wa) as [[[] wb]|]; [|done]. rewrite Hrun. cbn. unfold id.
  destruct (opt_relay_server_addr (options w)); [|done]. unfold lan_client_close, ext, bind, gets, modify, ret. cbn.
  assert (Ht : forall n, stopped w (w3 <| tick := n |>)) by (intros n; by destruct Hst).
  destruct (negb _); [split; [apply (Ht (S (tick w3)))|done]|]. destruct (negb _); [split; [apply (Ht (S (S (tick w3))))|done]|].
  split; [apply (Ht (S (S (S (tick w3)))))|done].
Qed.

(** Stopping the relay always returns, with every host port it held
    released, every open capture file closed exactly once and no other, and the
    timer stopped; the status is 0 unless a relay server was configured. *)
Theorem stop_releases w :
  wp lan_play_close (fun rc w' => stopped w w' /\ (opt_relay_server_addr (options w) = None -> rc = 0)) w.
Proof. apply close_total. Qed.
