(* ===== verification/Session.v ===== *)
(** * Session: the relay from its start to its end

    A session is what the event loop of [main] drives: the start, then captured
    frames of both adapters and ticks of the discovery timer in any order, then
    the stop.  The invariant of the handlers, [relay_ok], connects the parts:
    the start establishes it and each event keeps it. *)

From stdpp Require Import strings.
From S2P Require Import Prelude Bytes Checksum World Sample Pcap Packet Arp Ipv4 NativeUdp Nintendo Dhcp Relay.
From S2P Require Import Discovery Options Address Sha1 LanClient Startup.

#[local] Open Scope Z_scope.

(** The clock moves between events and never backwards; one event sees one
    second. *)
Definition advance (t : Z) : M unit :=
  modify (fun w => w <| environment ::= set env_time (fun _ _ => Z.max t (now_of w)) |>).

Fixpoint session (evs : list (Z * input)) : M unit :=
  match evs with
  | [] => ret tt
  | (t, i) :: evs => advance t ;;; step i ;;; session evs
  end.

(** what the capture library hands over: the captured bytes of a frame, on the
    ZeroTier side with headers that state no more than that *)
Definition input_ok (i : input) : Prop :=
  match i with
  | WifiFrame h f mac => exists n, h = mkPkthdr n n /\ blen mac = 6 /\ captured f n
  | ZeroTierFrame h f mac => exists n, h = mkPkthdr n n /\ blen mac = 6 /\ captured f n /\ honest f n
  | DiscoveryTick => True
  end.

(** ** Events *)

Lemma advance_ok wm zm t w : relay_ok wm zm w ->
  wp (advance t) (fun _ w' => relay_ok wm zm w' /\ stable_clock w' (Z.max t (now_of w))) w.
Proof.
  intros [[pm Hr] Hw Hg [] Hl Hz Hst Hs]. apply wp_modify. split; [|done]. split; try done.
  - exists pm. by eapply ready_same; [..|exact Hr].
  - split; try done. intros i j _. cbn. lia.
  - unfold leases_ok, now_of. cbn. eapply lease_ok_later; [|exact Hl]. unfold now_of. lia.
Qed.

Lemma relay_ok_discovery wm zm w f : relay_ok wm zm w -> relay_ok wm zm (w <| lp ::= set lp_discovery f |>).
Proof.
  intros [[pm Hr] ? ? Hn ? ? ? ?]. split; try done; [exists pm; by eapply ready_same; [..|exact Hr]|].
  destruct Hn. by split.
Qed.

Lemma timer_ok wm zm w : relay_ok wm zm w -> wp switch_discovery_timer_cb (fun _ w' => relay_ok wm zm w') w.
Proof.
  intros Hok. pose proof Hok as [[pm Hr] _ _ _ _ _ _ Hs]. unfold switch_discovery_timer_cb. apply wp_bind, wp_gets.
  destruct (switch_seen _); [apply wp_modify; by apply relay_ok_discovery|]. apply wp_bind, wp_gets.
  destruct (negb _); [apply wp_modify; by apply relay_ok_discovery|]. do 2 apply wp_bind, wp_gets. cbv zeta.
  destruct (rd_adapters _ _ _ _ Hr) as [_ Lw _ _ _ _ _ _]. set (phase := _ && wifi_subnet_known _).
  set (net := if phase then wifi_ip _ else subnet_net _). assert (Lt : blen net = 4) by (subst net; by destruct phase).
  apply wp_bind. eapply wp_lift; [unfold with_host; apply WRITE_NET8_ok; lia|].
  apply wp_bind. eapply wp_lift; [apply READ_NET8_ok; lia|]. apply wp_bind.
  eapply wp_mono with (P := fun _ w' => relay_ok wm zm w').
  { destruct (phase && _); [by apply wp_ret|]. eapply wp_mono; [apply (arp_probe_spec wm zm pm); [done| |]|].
    - rewrite blen_splice; rewrite ?Lt; done.
    - destruct phase; [done|apply Hr].
    - intros _ w' [Hf _]. by eapply relay_ok_io. }
  intros _ w1 Hok1. destruct (_ || _).
  - apply wp_bind, wp_modify. destruct phase; apply wp_modify; by do 2 apply relay_ok_discovery.
  - apply wp_modify. by apply relay_ok_discovery.
Qed.

Lemma step_ok wm zm t i w : relay_ok wm zm w -> stable_clock w t -> input_ok i ->
  wp (step i) (fun _ w' => relay_ok wm zm w') w.
Proof.
  intros Hok Hc Hi. destruct i as [h f mac|h f mac|]; cbn in *.
  - destruct Hi as (n & -> & ? & ?). by eapply wifi_handler_ok.
  - destruct Hi as (n & -> & ? & ? & ?). by eapply zerotier_handler_ok.
  - by apply timer_ok.
Qed.

Lemma session_keeps wm zm evs : forall w, relay_ok wm zm w -> Forall (fun e => input_ok e.2) evs ->
  wp (session evs) (fun _ w' => relay_ok wm zm w') w.
Proof.
  induction evs as [|[t i] evs IH]; intros w Hok He; cbn [session]; [by apply wp_ret|].
  apply Forall_cons_iff in He as [Hi He]. apply wp_bind. eapply wp_mono; [by apply (advance_ok wm zm)|].
  intros _ w1 [Hok1 Hc1]. apply wp_bind. eapply wp_mono; [apply (step_ok wm zm _ i w1 Hok1 Hc1 Hi)|]. intros [] w2 Hok2. by apply IH.
Qed.

(** ** The options are fixed when the relay starts *)

Definition same_options (w w' : world) : Prop := options w' = options w.
#[global] Instance same_options_preorder : PreOrder same_options.
Proof. split; [done|]. intros w1 w2 w3. unfold same_options. congruence. Qed.
Ltac options_hint :=
  first [eapply respects_mono; [exact nf_options|solve [auto with respects]]
        |eapply respects_mono; [exact df_options|solve [auto with respects]]
        |eapply respects_mono; [exact pf_options|solve [auto with respects]]
        |eapply respects_mono; [exact gf_options|solve [auto with respects]]].
#[export] Hint Extern 4 (respects same_options _) => options_hint : respects.
#[export] Hint Extern 1 (same_options _ _) => reflexivity : respects_state.

Lemma relay_wifi_options f n : respects same_options (lan_play_relay_wifi_ipv4 f n).
Proof. unfold lan_play_relay_wifi_ipv4, uninit, setswitch, setlp, getlp. solve_respects. Qed.
Lemma relay_zerotier_options f n : respects same_options (lan_play_relay_zerotier_ipv4 f n).
Proof. unfold lan_play_relay_zerotier_ipv4, uninit, setswitch, setlp, getlp. solve_respects. Qed.
Lemma adopt_options mac ip dhcp : respects same_options (adopt mac ip dhcp).
Proof. unfold adopt, setswitch, setlp, option_of, emit. solve_respects. Qed.
#[export] Hint Resolve relay_wifi_options relay_zerotier_options adopt_options : respects.
Lemma learn_options f n : respects same_options (learn_local_switch f n).
Proof. unfold learn_local_switch, setswitch, setlp, getlp, option_of, emit. solve_respects. Qed.
#[export] Hint Resolve learn_options : respects.
Lemma pcap_handler_options h f mac : respects same_options (lan_play_pcap_handler h f mac).
Proof. unfold lan_play_pcap_handler, packet_set_mac, setctx, setlp. solve_respects. Qed.
Lemma zerotier_handler_options h f mac : respects same_options (lan_play_zerotier_pcap_handler h f mac).
Proof. unfold lan_play_zerotier_pcap_handler, packet_set_mac, setctx, setlp. solve_respects. Qed.
Lemma arp_probe_options t s : respects same_options (lan_play_send_wifi_arp_probe t s).
Proof. eapply respects_mono; [exact nf_options|]. apply respects_ctx_net, respects_io_ctx, arp_probe_io. Qed.
#[export] Hint Resolve pcap_handler_options zerotier_handler_options arp_probe_options : respects.
Lemma timer_options : respects same_options switch_discovery_timer_cb.
Proof. unfold switch_discovery_timer_cb, setdiscovery, setlp, getlp. solve_respects. Qed.
#[export] Hint Resolve timer_options : respects.
Lemma session_options evs : respects same_options (session evs).
Proof.
  induction evs as [|[t i] evs IH]; cbn [session]; [apply (respects_ret _)|].
  unfold advance. destruct i; cbn [step]; repeat (respects_step; try apply IH).
Qed.

(** what a start makes of the options: the relay client has the two switches,
    and the address of the relay server when one is configured *)
Definition client_configured (su : startup) (o : cli_options) (c : client_state) : Prop :=
  broadcast c = opt_broadcast o /\ pmtu c = opt_pmtu o /\
  forall a, opt_relay_server_addr o = Some a -> exists addr, parse_addr (su_resolve su) a = Some addr /\ server_addr c = Some addr.

Definition same_client (w w' : world) : Prop := options w' = options w /\ lp_client (lp w') = lp_client (lp w).
#[global] Instance same_client_preorder : PreOrder same_client.
Proof. split; [done|]. intros w1 w2 w3 [? ?] [? ?]. split; congruence. Qed.
#[local] Hint Extern 1 (same_client _ _) => (by split) : respects_state.
Lemma io_same_client w w' : io_frame w w' -> same_client w w'.
Proof. intros H. split; apply H. Qed.
Lemma guard_same_client w w' : guard_frame w w' -> same_client w w'.
Proof. intros H. split; [apply H|by apply (guard_frame_field lp_client)]. Qed.

Lemma given_or_client {A} (o : option A) e : respects same_client (given_or o e).
Proof. unfold given_or, pass, fail. solve_respects. Qed.
Lemma zerotier_broadcast_client ip : forall i om m net, respects same_client (init_zerotier_broadcast i ip om m net).
Proof.
  induction ip as [|a ip IH]; intros i [|? om] [|? m] [|? net]; cbn [init_zerotier_broadcast]; try apply (respects_ret _).
  unfold setadapters, setlp, fail. repeat (respects_step; try apply IH).
Qed.
Lemma close_ports_client ps : respects same_client (close_ports ps).
Proof. induction ps as [|p ps IH]; cbn [close_ports]; unfold emit; repeat (respects_step; try apply IH). Qed.
Lemma reserve_ports_client ps : respects same_client (reserve_ports ps).
Proof.
  induction ps as [|p ps IH]; cbn [reserve_ports]; [apply (respects_ret _)|]. apply (respects_bind _).
  { eapply respects_mono; [exact guard_same_client|apply reserve_frame]. }
  intros rc. unfold native_udp_guard_close, getlp, setlp, fail. repeat (respects_step; try apply IH; try apply close_ports_client).
Qed.
Lemma open_captures_client su : respects same_client (open_captures su).
Proof. eapply respects_mono; [exact io_same_client|apply open_captures_io]. Qed.
#[local] Hint Resolve @given_or_client zerotier_broadcast_client reserve_ports_client open_captures_client : respects.

Lemma init_client_configures su w :
  wlp (init_client su (options w)) (fun r w' => options w' = options w /\
    match r with inl _ => client_configured su (options w) (lp_client (lp w')) | inr _ => True end) w.
Proof.
  unfold init_client, attempt, given_or, pass, fail, setclient, setlp. apply wlp_bind, wlp_modify. set (w1 := w <| lp ::= _ |>).
  apply wlp_bind. eapply wlp_mono with (P := fun r w' => options w' = options w /\
    match r with inl _ => client_configured su (options w) (lp_client (lp w')) | inr _ => True end).
  { destruct (opt_relay_server_addr (options w)) as [a|] eqn:Ea; [|apply wlp_ret; split; [done|]; split_and!; [done..|]; by rewrite Ea].
    apply wlp_bind. destruct (parse_addr (su_resolve su) a) as [addr|] eqn:Ep; apply wlp_ret; [|by apply wlp_ret].
    apply wlp_bind, wlp_modify, wlp_ret. split; [done|]. split_and!; [done..|]. rewrite Ea. intros ? [= <-]. by exists addr. }
  intros [[]|e] w2 [Ho Hc]; [|by apply wlp_ret]. apply wlp_bind, wlp_modify.
  destruct (opt_relay_password _); [apply wlp_bind, wlp_modify|]; by apply wlp_ret.
Qed.

Lemma init_applies su w :
  wlp (lan_play_init su) (fun r w' => options w' = options w /\
    match r with inl _ => client_configured su (options w) (lp_client (lp w')) | inr _ => True end) w.
Proof.
  unfold lan_play_init, option_of. apply wlp_bind, wlp_gets. unfold setlp at 1 2. do 2 apply wlp_bind, wlp_modify.
  set (w1 := _ <| lp ::= _ |>). change (id (options w)) with (options w1). change (options w) with (options w1). clearbody w1.
  unfold attempt at 1. apply wlp_bind. eapply wlp_mono; [apply init_client_configures|].
  intros [[]|e] w2 [Ho Hc]; [|by apply wlp_ret].
  eapply wlp_mono; [apply respects_wlp with (R := same_client)|].
  - unfold init_subnet, init_gateway_ip, init_pcap, init_zerotier_pcap, init_wifi_adapter, init_zerotier_adapter, init_discovery,
      unless, native_udp_guard_create, setadapters, setlp, getlp, uninit, ext, attempt, pass, fail. solve_respects.
  - intros r w3 [Ho3 Hc3]. rewrite Ho3, Hc3. split; [done|]. by destruct r.
Qed.

(** ** Properties *)


Definition sample_session : list (Z * input) :=
  [(5, DiscoveryTick); (2000, WifiFrame (mkPkthdr 46 46) (game_out ++ replicate 60 0) Sample.wifi_mac);
   (2001, ZeroTierFrame (mkPkthdr 46 46) (game_in ++ replicate 60 0) Sample.zt_mac); (1, DiscoveryTick)].

