(* ===== verification/Base64.v ===== *)
(** * Base64: the encoder of the WebSocket handshake

    src/src/rpc/base64.hpp.  A [std::string] is the list of its bytes;
    [Rfc4648] is the encoding of the standard, three bytes as one number of
    four digits in base 64. *)

From stdpp Require Import strings.
From S2P Require Import Prelude Bytes Text.

#[local] Open Scope Z_scope.

Definition base64_chars : list Z :=
  text "ABCDEFGHIJKLMNOPQRSTUVWXYZabcdefghijklmnopqrstuvwxyz0123456789+/".

Definition isalnum (c : Z) : bool :=
  ((48 <=? c) && (c <=? 57)) || ((65 <=? c) && (c <=? 90)) || ((97 <=? c) && (c <=? 122)).
Definition is_base64 (c : Z) : bool := isalnum c || (c =? 43) || (c =? 47).

(** [char_array_4] of the three bytes in [char_array_3] *)
Definition encode_group (a3 : list Z) : list Z :=
  [Z.shiftr (Z.land (getb a3 0) 252) 2;
   Z.shiftl (Z.land (getb a3 0) 3) 4 + Z.shiftr (Z.land (getb a3 1) 240) 4;
   Z.shiftl (Z.land (getb a3 1) 15) 2 + Z.shiftr (Z.land (getb a3 2) 192) 6;
   Z.land (getb a3 2) 63].

(** [while (in_len--)]: the text so far, and the bytes of the last group *)
Fixpoint encode_loop (l a3 ret : list Z) : list Z * list Z :=
  match l with
  | [] => (ret, a3)
  | b :: l =>
      let a3 := a3 ++ [b] in
      if length a3 =? 3 then encode_loop l [] (ret ++ map (getb base64_chars) (encode_group a3))
      else encode_loop l a3 ret
  end%nat.

Definition base64_encode (l : list Z) : list Z :=
  let (ret, a3) := encode_loop l [] [] in
  let i := length a3 in
  if (i =? 0)%nat then ret else
  let a4 := encode_group (a3 ++ replicate (3 - i) 0) in
  ret ++ map (getb base64_chars) (take (i + 1) a4) ++ replicate (3 - i) 61.

(** [base64_chars.find(c) & 0xff] *)
Definition char_value (c : Z) : Z := match find base64_chars c with Some i => Z.land i 255 | None => 255 end.

Definition decode_group (a4 : list Z) : list Z :=
  [u8 (Z.shiftl (getb a4 0) 2 + Z.shiftr (Z.land (getb a4 1) 48) 4);
   u8 (Z.shiftl (Z.land (getb a4 1) 15) 4 + Z.shiftr (Z.land (getb a4 2) 60) 2);
   u8 (Z.shiftl (Z.land (getb a4 2) 3) 6 + getb a4 3)].

Fixpoint decode_loop (s a4 ret : list Z) : list Z * list Z :=
  match s with
  | [] => (ret, a4)
  | c :: s =>
      if negb (c =? 61) && is_base64 c then
        let a4 := a4 ++ [c] in
        if (length a4 =? 4)%nat then decode_loop s [] (ret ++ decode_group (map char_value a4))
        else decode_loop s a4 ret
      else (ret, a4)
  end.

(** [stale] is what the rest of [char_array_4] holds at the end *)
Definition base64_decode (stale s : list Z) : list Z :=
  let (ret, a4) := decode_loop s [] [] in
  let i := length a4 in
  if (i =? 0)%nat then ret else
  ret ++ take (i - 1) (decode_group (map char_value a4 ++ stale)).

(** ** The standard *)

Module Rfc4648.
(** the digit [k] of [n] in base 64 *)
Definition digit (n : Z) (k : Z) : Z := n / 64 ^ k mod 64.
Definition char (n k : Z) : Z := getb base64_chars (digit n k).
Fixpoint encode (l : list Z) : list Z :=
  match l with
  | a :: b :: c :: l =>
      let n := a * 65536 + b * 256 + c in [char n 3; char n 2; char n 1; char n 0] ++ encode l
  | [a; b] => let n := a * 65536 + b * 256 in [char n 3; char n 2; char n 1; 61]
  | [a] => let n := a * 65536 in [char n 3; char n 2; 61; 61]
  | [] => []
  end.
End Rfc4648.

(** ** Groups of three bytes *)

(** lists of numbers equal up to divisions *)
Ltac list_arith := repeat (apply (f_equal2 (@cons Z))); try reflexivity; Z.div_mod_to_equations; lia.

Lemma byte_bits a : is_byte a ->
  Z.shiftr (Z.land a 252) 2 = a / 4 /\ Z.shiftl (Z.land a 3) 4 = a mod 4 * 16 /\ Z.shiftr (Z.land a 240) 4 = a / 16 /\
  Z.shiftl (Z.land a 15) 2 = a mod 16 * 4 /\ Z.shiftr (Z.land a 192) 6 = a / 64 /\ Z.land a 63 = a mod 64.
Proof.
  intros Ha.
  pose proof (byte_cases (fun a => (Z.shiftr (Z.land a 252) 2 =? a / 4) && (Z.shiftl (Z.land a 3) 4 =? a mod 4 * 16) &&
    (Z.shiftr (Z.land a 240) 4 =? a / 16) && (Z.shiftl (Z.land a 15) 2 =? a mod 16 * 4) &&
    (Z.shiftr (Z.land a 192) 6 =? a / 64) && (Z.land a 63 =? a mod 64)) ltac:(by vm_compute) a Ha) as H.
  cbn beta in H. rewrite !andb_true_iff, !Z.eqb_eq in H. tauto.
Qed.

Lemma encode_group_digits a b c : is_byte a -> is_byte b -> is_byte c ->
  let n := a * 65536 + b * 256 + c in
  encode_group [a; b; c] = [Rfc4648.digit n 3; Rfc4648.digit n 2; Rfc4648.digit n 1; Rfc4648.digit n 0].
Proof.
  intros Ha Hb Hc n. destruct (byte_bits a Ha) as (A1 & A2 & _), (byte_bits b Hb) as (_ & _ & B3 & B4 & _),
    (byte_bits c Hc) as (_ & _ & _ & _ & C5 & C6).
  unfold encode_group, getb. change (Z.to_nat 0) with 0%nat. change (Z.to_nat 1) with 1%nat. change (Z.to_nat 2) with 2%nat.
  cbn [nth]. rewrite A1, A2, B3, B4, C5, C6. unfold is_byte in *. unfold Rfc4648.digit, n.
  change (64 ^ 3) with 262144. change (64 ^ 2) with 4096. change (64 ^ 1) with 64. change (64 ^ 0) with 1.
  list_arith.
Qed.

Lemma sextet_range n k : 0 <= Rfc4648.digit n k < 64.
Proof. apply Z.mod_pos_bound. lia. Qed.

Lemma encode_chars a b c : is_byte a -> is_byte b -> is_byte c ->
  let n := a * 65536 + b * 256 + c in
  map (getb base64_chars) (encode_group [a; b; c]) =
    [Rfc4648.char n 3; Rfc4648.char n 2; Rfc4648.char n 1; Rfc4648.char n 0].
Proof. intros Ha Hb Hc n. by rewrite encode_group_digits. Qed.

(** lists by groups of three *)
Lemma by_threes (P : list Z -> Prop) :
  P [] -> (forall a, P [a]) -> (forall a b, P [a; b]) -> (forall a b c l, P l -> P (a :: b :: c :: l)) -> forall l, P l.
Proof.
  intros H0 H1 H2 H3 l. assert (H : forall n l, (length l <= n)%nat -> P l); [|by apply (H (length l))]. clear l.
  induction n as [|n IH]; intros l Hl; [by destruct l; [|cbn in Hl; lia]|].
  destruct l as [|a [|b [|c l]]]; auto. apply H3, IH. cbn in Hl. lia.
Qed.

Lemma encode_loop_spec l : bytes l -> forall ret,
  let (r, a3) := encode_loop l [] ret in
  (if (length a3 =? 0)%nat then r else
   r ++ map (getb base64_chars) (take (length a3 + 1) (encode_group (a3 ++ replicate (3 - length a3) 0))) ++ replicate (3 - length a3) 61)
  = ret ++ Rfc4648.encode l.
Proof.
  induction l as [|a|a b|a b c l IH] using by_threes; intros Hl ret.
  - cbn. by rewrite app_nil_r.
  - apply Forall_cons_iff in Hl as [Ha _]. cbn [encode_loop app length Nat.eqb Nat.sub replicate Nat.add].
    rewrite <- firstn_map, encode_chars by done. cbn [take app Rfc4648.encode]. by rewrite !Z.add_0_r.
  - apply Forall_cons_iff in Hl as [Ha [Hb _]%Forall_cons_iff]. cbn [encode_loop app length Nat.eqb Nat.sub replicate Nat.add].
    rewrite <- firstn_map, encode_chars by done. cbn [take app Rfc4648.encode]. by rewrite !Z.add_0_r.
  - apply Forall_cons_iff in Hl as [Ha [Hb [Hc Hl]%Forall_cons_iff]%Forall_cons_iff].
    cbn [encode_loop app length Nat.eqb]. rewrite encode_chars by done. specialize (IH Hl (ret ++ [Rfc4648.char (a * 65536 + b * 256 + c) 3;
      Rfc4648.char (a * 65536 + b * 256 + c) 2; Rfc4648.char (a * 65536 + b * 256 + c) 1; Rfc4648.char (a * 65536 + b * 256 + c) 0])).
    destruct (encode_loop l _ _) as [r a3]. rewrite IH, <- app_assoc. done.
Qed.

Lemma encode_rfc l : bytes l -> base64_encode l = Rfc4648.encode l.
Proof. intros Hl. pose proof (encode_loop_spec l Hl []) as H. unfold base64_encode. by destruct (encode_loop l [] []). Qed.

(** ** Decoding *)

Lemma char_facts d : 0 <= d < 64 ->
  let c := getb base64_chars d in char_value c = d /\ is_base64 c = true /\ c <> 61.
Proof.
  intros Hd c. subst c. pose proof (below_cases 64 (fun d => let c := getb base64_chars d in (char_value c =? d) && is_base64 c && negb (c =? 61))
    ltac:(by vm_compute) d Hd) as H. cbn zeta beta in H. rewrite !andb_true_iff, Z.eqb_eq, negb_true_iff, Z.eqb_neq in H. tauto.
Qed.

Lemma six_bits x : 0 <= x < 64 ->
  Z.shiftr (Z.land x 48) 4 = x / 16 /\ Z.land x 15 = x mod 16 /\ Z.shiftr (Z.land x 60) 2 = x / 4 /\ Z.land x 3 = x mod 4.
Proof.
  intros Hx. pose proof (below_cases 64 (fun x => (Z.shiftr (Z.land x 48) 4 =? x / 16) && (Z.land x 15 =? x mod 16) &&
    (Z.shiftr (Z.land x 60) 2 =? x / 4) && (Z.land x 3 =? x mod 4)) ltac:(by vm_compute) x Hx) as H.
  cbn beta in H. rewrite !andb_true_iff, !Z.eqb_eq in H. tauto.
Qed.

(** the two middle digits determine their bytes whatever follows *)
Lemma decode_group_digits a b c l : is_byte a -> is_byte b -> is_byte c ->
  let n := a * 65536 + b * 256 + c in
  take 1 (decode_group (Rfc4648.digit n 3 :: Rfc4648.digit n 2 :: l)) = [a] /\
  take 2 (decode_group (Rfc4648.digit n 3 :: Rfc4648.digit n 2 :: Rfc4648.digit n 1 :: l)) = [a; b] /\
  decode_group [Rfc4648.digit n 3; Rfc4648.digit n 2; Rfc4648.digit n 1; Rfc4648.digit n 0] = [a; b; c].
Proof.
  intros Ha Hb Hc n. unfold decode_group, getb. change (Z.to_nat 0) with 0%nat. change (Z.to_nat 1) with 1%nat.
  change (Z.to_nat 2) with 2%nat. change (Z.to_nat 3) with 3%nat. cbn [nth take].
  destruct (six_bits _ (sextet_range n 2)) as (A1 & A2 & _ & _), (six_bits _ (sextet_range n 1)) as (_ & _ & B3 & B4).
  rewrite A1, A2, B3, B4, !Z.shiftl_mul_pow2 by lia. unfold is_byte in *. unfold u8, Rfc4648.digit, n.
  change (64 ^ 3) with 262144. change (64 ^ 2) with 4096. change (64 ^ 1) with 64. change (64 ^ 0) with 1.
  change (2 ^ 2) with 4. change (2 ^ 4) with 16. change (2 ^ 6) with 64.
  split_and!; list_arith.
Qed.

Lemma decode_step n a4 k s ret : (length a4 < 3)%nat ->
  decode_loop (Rfc4648.char n k :: s) a4 ret = decode_loop s (a4 ++ [Rfc4648.char n k]) ret.
Proof.
  intros Hl. unfold Rfc4648.char. destruct (char_facts _ (sextet_range n k)) as (_ & Hb & He). cbn [decode_loop].
  apply Z.eqb_neq in He. rewrite He, Hb. cbn [negb andb]. rewrite length_app. cbn [length].
  destruct (Nat.eqb_spec (length a4 + 1) 4); [lia|done].
Qed.
Lemma char_digit n k : char_value (Rfc4648.char n k) = Rfc4648.digit n k.
Proof. apply char_facts, sextet_range. Qed.

Lemma decode_encode stale l : bytes l -> forall ret,
  let (r, a4) := decode_loop (Rfc4648.encode l) [] ret in
  (if (length a4 =? 0)%nat then r else r ++ take (length a4 - 1) (decode_group (map char_value a4 ++ stale))) = ret ++ l.
Proof.
  induction l as [|a|a b|a b c l IH] using by_threes; intros Hl ret.
  - cbn. by rewrite app_nil_r.
  - apply Forall_cons_iff in Hl as [Ha _]. cbn [Rfc4648.encode]. rewrite !decode_step by (cbn; lia).
    destruct (decode_group_digits a 0 0 stale) as (H & _ & _); [done..|]. cbn zeta in H. rewrite !Z.add_0_r in H.
    cbn [decode_loop Z.eqb Pos.eqb negb andb app length Nat.eqb Nat.sub map]. by rewrite !char_digit, H.
  - apply Forall_cons_iff in Hl as [Ha [Hb _]%Forall_cons_iff]. cbn [Rfc4648.encode]. rewrite !decode_step by (cbn; lia).
    destruct (decode_group_digits a b 0 stale) as (_ & H & _); [done..|]. cbn zeta in H. rewrite !Z.add_0_r in H.
    cbn [decode_loop Z.eqb Pos.eqb negb andb app length Nat.eqb Nat.sub map]. by rewrite !char_digit, H.
  - apply Forall_cons_iff in Hl as [Ha [Hb [Hc Hl]%Forall_cons_iff]%Forall_cons_iff].
    cbn [Rfc4648.encode app]. set (n := a * 65536 + b * 256 + c). rewrite !decode_step by (cbn; lia).
    cbn [app]. unfold Rfc4648.char at 1. destruct (char_facts _ (sextet_range n 0)) as (_ & H1 & H2%Z.eqb_neq).
    cbn [decode_loop]. rewrite H1, H2. cbn [negb andb app length Nat.eqb map]. fold (Rfc4648.char n 0). rewrite !char_digit.
    destruct (decode_group_digits a b c stale) as (_ & _ & H); [done..|]. fold n in H. rewrite H.
    specialize (IH Hl (ret ++ [a; b; c])). destruct (decode_loop _ _ _) as [r a4]. rewrite IH, <- app_assoc. done.
Qed.

(** ** Properties *)

(** The encoder computes the encoding of RFC 4648: groups of three bytes as
    four digits in base 64 over the standard alphabet, the last group padded. *)
Theorem base64_encode_rfc4648 l : bytes l -> base64_encode l = Rfc4648.encode l.
Proof. apply encode_rfc. Qed.

(** Decoding inverts encoding, whatever the part of the decoder's array
    that was never written holds. *)
Theorem base64_round_trip stale l : bytes l -> base64_decode stale (base64_encode l) = l.
Proof.
  intros Hl. pose proof (decode_encode stale l Hl []) as Hd. rewrite encode_rfc by done.
  unfold base64_decode. by destruct (decode_loop _ _ _).
Qed.

Lemma base64_rfc_witness : base64_encode (text "light w") = text "bGlnaHQgdw==" /\ base64_encode [255; 239] = Rfc4648.encode [255; 239].
Proof. split; [reflexivity|]. apply base64_encode_rfc4648. by repeat constructor. Defined.
Lemma base64_witness : base64_decode [7] (base64_encode [1; 0; 254; 9]) = [1; 0; 254; 9].
Proof. apply base64_round_trip. by repeat constructor. Defined.
