(* ===== verification/Stream.v ===== *)
(** * Stream: bytes of a connection as lines and as one buffer

    [ReadLine] of src/src/rpc/read-line.hpp cuts what a connection receives
    into lines; [BufferList] of src/src/rpc/buffer-list.hpp presents the
    received blocks as one sequence of bytes. *)

From S2P Require Import Prelude Bytes Text.

#[local] Open Scope Z_scope.

(** ** Lines *)

Module ReadLine.
Section Feed.
Context {S : Type} (callback : list Z -> SE S unit).

(** [line[len - 1]] of an empty line is an access outside the string *)
Definition chomp (line : list Z) : outcome (list Z) :=
  match line !! (length line - 1)%nat with
  | None => Stop OutOfBounds
  | Some c => Ok (if c =? 13 then substr_to line (blen line - 1) else line)
  end.

(** [while (index != npos)] *)
Fixpoint feed_loop (fuel : nat) (buffer : list Z) : SE S (list Z) :=
  match find buffer 10 with
  | None => ret buffer
  | Some index =>
      match fuel with
      | O => stop OutOfFuel
      | Datatypes.S fuel =>
          let? line := chomp (substr_to buffer index) in
          callback line ;;;
          feed_loop fuel (substr_from buffer (index + 1))
      end
  end.

(** the buffer left *)
Definition feed (buffer buf : list Z) : SE S (list Z) :=
  feed_loop (length (buffer ++ buf)) (buffer ++ buf).

Fixpoint feed_all (buffer : list Z) (chunks : list (list Z)) : SE S (list Z) :=
  match chunks with
  | [] => ret buffer
  | c :: chunks => let* buffer := feed buffer c in feed_all buffer chunks
  end.

(** ** Lines of a text *)

(** the lines of [b] that are complete, and what follows the last of them *)
Fixpoint raw_lines (b cur : list Z) : list (list Z) * list Z :=
  match b with
  | [] => ([], cur)
  | c :: b => if c =? 10 then let (ls, r) := raw_lines b [] in (cur :: ls, r) else raw_lines b (cur ++ [c])
  end.

Fixpoint deliver (ls : list (list Z)) : SE S unit :=
  match ls with
  | [] => ret tt
  | l :: ls => let? line := chomp l in callback line ;;; deliver ls
  end.

Lemma raw_lines_none b : ~ In 10 b -> forall cur, raw_lines b cur = ([], cur ++ b).
Proof.
  induction b as [|c b IH]; intros Hn cur; cbn; [by rewrite app_nil_r|]. cbn in Hn.
  destruct (Z.eqb_spec c 10); [tauto|]. rewrite IH by tauto. by rewrite <- app_assoc.
Qed.
Lemma raw_lines_line a b : ~ In 10 a -> forall cur,
  raw_lines (a ++ 10 :: b) cur = let (ls, r) := raw_lines b [] in ((cur ++ a) :: ls, r).
Proof.
  induction a as [|c a IH]; intros Hn cur; cbn; [by rewrite app_nil_r|]. cbn in Hn.
  destruct (Z.eqb_spec c 10); [tauto|]. rewrite IH by tauto. destruct (raw_lines b []). by rewrite <- app_assoc.
Qed.

(** the complete lines of [b], then the lines of the rest with [c] added *)
Lemma raw_lines_app b c : forall cur,
  raw_lines (b ++ c) cur =
    let (ls, r) := raw_lines b cur in let (ls', r') := raw_lines c r in (ls ++ ls', r').
Proof.
  induction b as [|x b IH]; intros cur; cbn; [by destruct (raw_lines c cur)|].
  destruct (x =? 10); [|apply IH]. rewrite IH. destruct (raw_lines b []) as [ls r]. by destruct (raw_lines c r).
Qed.
Lemma raw_lines_rest b : forall cur, ~ In 10 cur -> ~ In 10 (raw_lines b cur).2.
Proof.
  induction b as [|c b IH]; intros cur Hc; cbn; [done|]. destruct (Z.eqb_spec c 10).
  - specialize (IH [] ltac:(auto)). by destruct (raw_lines b []).
  - apply IH. rewrite in_app_iff. cbn. intuition.
Qed.

Lemma bind_ext {A B} (m m' : SE S A) (k k' : A -> SE S B) s :
  m s = m' s -> (forall a s', k a s' = k' a s') -> bind m k s = bind m' k' s.
Proof. unfold bind. intros -> Hk. destruct (m' s) as [[a s']|]; [apply Hk|done]. Qed.
Lemma bind_assoc {A B C} (m : SE S A) (k : A -> SE S B) (l : B -> SE S C) s :
  bind (bind m k) l s = bind m (fun a => bind (k a) l) s.
Proof. unfold bind. by destruct (m s) as [[a s']|]. Qed.

Lemma feed_loop_spec fuel : forall b s, (length b <= fuel)%nat ->
  feed_loop fuel b s = (deliver (raw_lines b []).1 ;;; ret (raw_lines b []).2) s.
Proof.
  induction fuel as [|fuel IH]; intros b s Hf; cbn [feed_loop]; destruct (find b 10) as [i|] eqn:E.
  - apply find_from_some in E as (a & c & -> & _). rewrite length_app in Hf. cbn in Hf. lia.
  - apply find_from_none in E. rewrite raw_lines_none by done. done.
  - apply find_from_some in E as (a & c & -> & -> & Ha). rewrite raw_lines_line by done.
    unfold substr_to, substr_from, blen. rewrite Z.add_0_l, Nat2Z.id, take_app_length.
    rewrite drop_app_ge by lia. replace (Z.to_nat (Z.of_nat (length a) + 1) - length a)%nat with 1%nat by lia. cbn [drop].
    specialize (fun s => IH c s). destruct (raw_lines c []) as [ls r]. cbn [fst snd app deliver] in *.
    rewrite bind_assoc. apply bind_ext; [done|]. intros line s'. rewrite bind_assoc. apply bind_ext; [done|].
    intros u s''. apply IH. rewrite length_app in Hf. cbn in Hf. lia.
  - apply find_from_none in E. rewrite raw_lines_none by done. done.
Qed.

Lemma deliver_app l1 l2 s : deliver (l1 ++ l2) s = (deliver l1 ;;; deliver l2) s.
Proof.
  revert s. induction l1 as [|l l1 IH]; intros s; cbn [deliver app]; [done|]. rewrite bind_assoc. apply bind_ext; [done|].
  intros line s'. rewrite bind_assoc. apply bind_ext; [done|]. intros u s''. apply IH.
Qed.

Lemma feed_all_spec chunks : forall buffer s, ~ In 10 buffer ->
  feed_all buffer chunks s =
    (deliver (raw_lines (buffer ++ concat chunks) []).1 ;;; ret (raw_lines (buffer ++ concat chunks) []).2) s.
Proof.
  induction chunks as [|c chunks IH]; intros buffer s Hb; cbn [feed_all concat].
  - rewrite app_nil_r. by rewrite raw_lines_none.
  - unfold feed. rewrite app_assoc, (raw_lines_app (buffer ++ c)). pose proof (raw_lines_rest (buffer ++ c) [] ltac:(auto)) as Hr.
    rewrite (bind_ext _ _ _ _ _ (feed_loop_spec _ _ s (Nat.le_refl _)) (fun _ _ => eq_refl)).
    destruct (raw_lines (buffer ++ c) []) as [ls r]. cbn [fst snd] in *.
    specialize (fun s => IH r s Hr). rewrite (raw_lines_app r), (raw_lines_none r) in IH by done. cbn [app] in IH.
    destruct (raw_lines (concat chunks) r) as [ls' r']. cbn [fst snd app] in *.
    rewrite bind_assoc, (bind_ext _ _ _ _ _ (deliver_app ls ls' s) (fun _ _ => eq_refl)), bind_assoc.
    apply bind_ext; [done|]. intros _ s'. apply IH.
Qed.

(** a line and how it is terminated *)
Definition terminated (p : bool * list Z) : list Z := p.2 ++ (if p.1 then [13; 10] else [10]).
Definition sendable_line (p : bool * list Z) : Prop :=
  ~ In 10 p.2 /\ (p.1 = false -> exists l c, p.2 = l ++ [c] /\ c <> 13).

Fixpoint each (ls : list (list Z)) : SE S unit :=
  match ls with [] => ret tt | l :: ls => callback l ;;; each ls end.

Lemma chomp_snoc l c : chomp (l ++ [c]) = Ok (if c =? 13 then l else l ++ [c]).
Proof.
  unfold chomp, substr_to, blen. rewrite length_app. cbn [length]. rewrite lookup_app_r by lia.
  replace (length l + 1 - 1 - length l)%nat with 0%nat by lia. cbn. destruct (c =? 13); [|done]. f_equal.
  replace (Z.to_nat (Z.of_nat (length l + 1) - 1)) with (length l) by lia. apply take_app_length.
Qed.

Lemma deliver_terminated ls s : Forall sendable_line ls ->
  (deliver (raw_lines (concat (map terminated ls)) []).1 ;;; ret (raw_lines (concat (map terminated ls)) []).2) s =
    (each (map snd ls) ;;; ret []) s.
Proof.
  intros H. revert s. induction H as [|[cr l] ls [Hn Hl] H IH]; intros s; [done|].
  cbn [map concat each]. set (rest := concat _) in *. set (raw := if cr then l ++ [13] else l).
  assert (E : terminated (cr, l) ++ rest = raw ++ 10 :: rest).
  { unfold terminated, raw. cbn. destruct cr; by rewrite <- !app_assoc. }
  rewrite E, raw_lines_line.
  2:{ unfold raw. destruct cr; [|done]. rewrite in_app_iff. intros [?|[?|[]]]; [by apply Hn|done]. }
  destruct (raw_lines rest []) as [ls' r']. cbn [fst snd app deliver] in *.
  assert (Ec : chomp raw = Ok l).
  { unfold raw. destruct cr; [by rewrite chomp_snoc|]. destruct (Hl eq_refl) as (l' & c & El & Hc). cbn in El. subst l.
    rewrite chomp_snoc. by destruct (Z.eqb_spec c 13). }
  rewrite Ec, !bind_assoc. unfold bind at 1, lift. rewrite bind_assoc. apply bind_ext; [done|]. intros _ s'. apply IH.
Qed.
End Feed.

(** Lines arrive whole.  Whatever blocks the network cuts a sequence of
    lines into, each line terminated by a line feed or by a carriage return and
    a line feed, the callback sees exactly those lines, in order and without
    their terminators, and nothing is left in the buffer. *)
Theorem lines_delivered {S} (callback : list Z -> SE S unit) ls chunks s :
  Forall sendable_line ls -> concat chunks = concat (map terminated ls) ->
  feed_all callback [] chunks s = (each callback (map snd ls) ;;; ret []) s.
Proof. intros Hl Hc. rewrite feed_all_spec, Hc by auto. by apply deliver_terminated. Qed.

Lemma lines_witness :
  feed_all (S := list (list Z)) (fun l => modify (cons l)) [] [[65; 13]; [10; 66]; [67; 10; 13]; [10]] [] =
    (each (fun l => modify (cons l)) [[65]; [66; 67]; []] ;;; ret []) [].
Proof.
  apply (lines_delivered _ [(true, [65]); (false, [66; 67]); (true, [])]); [|reflexivity].
  repeat constructor; cbn; try intuition congruence. intros _. by exists [66], 67.
Defined.

(** A line feed alone, after which the code looks at the character before the
    first. *)
Theorem empty_line_overreads {S} (callback : list Z -> SE S unit) s : feed callback [] [10] s = Stop OutOfBounds.
Proof. reflexivity. Qed.
End ReadLine.

(** ** Blocks *)

Module BufferList.

(** [list] has the blocks as they were allocated, [sizeList] how many bytes of
    each were received *)
Record buffer_list := mkBufferList {
  blocks : list (list Z);
  sizeList : list Z;
  totalSize : Z;
  offset : Z
}.

Definition new : buffer_list := mkBufferList [] [] 0 0.

Fixpoint get_loop (bufs : list (list Z)) (sizes : list Z) (left actId : Z) : outcome Z :=
  match sizes, bufs with
  | len :: sizes, item :: bufs =>
      if actId <=? u32 (left + len) then READ_NET8 item (u32 (actId - left))
      else get_loop bufs sizes (u32 (left + len)) actId
  | _, _ => Stop Uncaught
  end.
Definition get (bl : buffer_list) (k : Z) : outcome Z :=
  get_loop (blocks bl) (sizeList bl) 0 (u32 (k + offset bl)).

Definition size (bl : buffer_list) : Z := u32 (totalSize bl - offset bl).
Definition clear (bl : buffer_list) : buffer_list := mkBufferList [] [] 0 0.
Definition add (bl : buffer_list) (buf : list Z) (n : Z) : buffer_list :=
  mkBufferList (blocks bl ++ [buf]) (sizeList bl ++ [n]) (u32 (totalSize bl + n)) (offset bl).

(** [while (offset >= sizeList[0])] *)
Fixpoint advance_loop (bufs : list (list Z)) (sizes : list Z) (total off : Z) : outcome buffer_list :=
  match sizes with
  | [] => Stop OutOfBounds
  | len :: sizes' =>
      if len <=? off then advance_loop (tail bufs) sizes' (u32 (total - len)) (u32 (off - len))
      else Ok (mkBufferList bufs sizes total off)
  end.
Definition advance (bl : buffer_list) (n : Z) : outcome buffer_list :=
  advance_loop (blocks bl) (sizeList bl) (totalSize bl) (u32 (offset bl + n)).

(** [dst[i] = get(begin + i)] *)
Fixpoint copy_bytes (bl : buffer_list) (begin : Z) (n : nat) : outcome (list Z) :=
  match n with
  | O => Ok []
  | S n =>
      try b := get bl begin in
      try rest := copy_bytes bl (u32 (begin + 1)) n in
      Ok (b :: rest)
  end.
Definition copyTo (bl : buffer_list) (begin n : Z) : outcome (list Z) := copy_bytes bl begin (Z.to_nat n).

(** ** The sequence of bytes it stands for *)

Fixpoint received (bufs : list (list Z)) (sizes : list Z) : list Z :=
  match bufs, sizes with
  | b :: bufs, n :: sizes => field b 0 n ++ received bufs sizes
  | _, _ => []
  end.
Definition content (bl : buffer_list) : list Z := ptr (received (blocks bl) (sizeList bl)) (offset bl).

Definition total (sizes : list Z) : Z := foldr Z.add 0 sizes.

Record wf (bl : buffer_list) : Prop := {
  wf_blocks : Forall2 (fun b n => 0 <= n <= blen b) (blocks bl) (sizeList bl);
  wf_total : totalSize bl = total (sizeList bl) /\ totalSize bl < 4294967296;
  wf_offset : 0 <= offset bl <= totalSize bl
}.

Lemma received_length bufs sizes : Forall2 (fun b n => 0 <= n <= blen b) bufs sizes -> blen (received bufs sizes) = total sizes.
Proof.
  induction 1 as [|b n bufs sizes Hn H IH]; [done|]. cbn. rewrite blen_app, blen_field, IH by lia. done.
Qed.
Lemma total_nonneg bufs sizes : Forall2 (fun b n => 0 <= n <= blen b) bufs sizes -> 0 <= total sizes.
Proof. intros H. rewrite <- (received_length _ _ H). apply blen_nonneg. Qed.
Lemma received_app b1 s1 b2 s2 : length b1 = length s1 -> received (b1 ++ b2) (s1 ++ s2) = received b1 s1 ++ received b2 s2.
Proof.
  revert s1. induction b1 as [|b b1 IH]; intros [|n s1] Hl; try done. cbn. by rewrite IH, app_assoc by (by injection Hl).
Qed.
Lemma total_app s1 s2 : total (s1 ++ s2) = total s1 + total s2.
Proof. induction s1 as [|n s1 IH]; cbn; [done|]. unfold total in *. lia. Qed.

Lemma size_content bl : wf bl -> size bl = blen (content bl).
Proof.
  intros [Hb [Ht Hm] Ho]. unfold size, content. rewrite blen_ptr, (received_length _ _ Hb) by lia.
  rewrite u32_small by lia. lia.
Qed.

Lemma add_content bl buf n : wf bl -> 0 <= n <= blen buf -> totalSize bl + n < 4294967296 ->
  wf (add bl buf n) /\ content (add bl buf n) = content bl ++ field buf 0 n.
Proof.
  intros [Hb [Ht Hm] Ho] Hn Hs. pose proof (Forall2_length Hb) as Hl. split.
  - split; cbn.
    + apply Forall2_app; [done|]. constructor; [lia|constructor].
    + rewrite u32_small by lia. rewrite total_app. cbn. lia.
    + rewrite u32_small by lia. lia.
  - unfold content. cbn. rewrite received_app by done. unfold ptr. rewrite drop_app_le.
    + cbn. by rewrite app_nil_r.
    + pose proof (received_length _ _ Hb) as Hr. unfold blen in Hr. lia.
Qed.

(** the positions at which one block ends and the next begins *)
Fixpoint boundary (sizes : list Z) (i : Z) : Prop :=
  match sizes with
  | [] => False
  | n :: sizes => i = n \/ boundary sizes (i - n)
  end.

Lemma get_loop_spec bufs sizes : Forall2 (fun b n => 0 <= n <= blen b) bufs sizes -> forall left i,
  0 <= left -> left + total sizes < 4294967296 -> 0 <= i < total sizes -> ~ boundary sizes i ->
  get_loop bufs sizes left (left + i) = Ok (getb (received bufs sizes) i).
Proof.
  induction 1 as [|b n bufs sizes Hn H IH]; intros left i Hl Hs Hi Hb; [cbn in Hi; lia|].
  pose proof (total_nonneg _ _ H) as H0. cbn [total foldr] in *. fold (total sizes) in *. cbn [get_loop received boundary] in *.
  assert (Lf : blen (field b 0 n) = n) by (rewrite blen_field; lia).
  rewrite u32_small by lia. destruct (Z.leb_spec (left + i) (left + n)).
  - rewrite u32_small by lia. replace (left + i - left) with i by lia. rewrite READ_NET8_ok by lia. f_equal.
    rewrite getb_app_l by (rewrite Lf; intuition lia). rewrite field_lookup by intuition lia. done.
  - replace (left + i) with ((left + n) + (i - n)) by lia. rewrite IH by (intuition lia). f_equal.
    rewrite getb_app_r by lia. by rewrite Lf.
Qed.

Lemma get_spec bl k : wf bl -> 0 <= k < size bl -> ~ boundary (sizeList bl) (k + offset bl) ->
  get bl k = Ok (getb (content bl) k).
Proof.
  intros Hw Hk Hn. rewrite size_content in Hk by done. destruct Hw as [Hb [Ht Hm] Ho]. unfold content in *.
  pose proof (received_length _ _ Hb) as Hr. rewrite blen_ptr in Hk by lia. unfold get. rewrite u32_small by lia.
  rewrite <- (Z.add_0_l (k + offset bl)), get_loop_spec by (done || lia). by rewrite getb_ptr, Z.add_comm by lia.
Qed.

Lemma advance_loop_spec bufs sizes : Forall2 (fun b n => 0 <= n <= blen b) bufs sizes -> forall tot off,
  tot = total sizes -> tot < 4294967296 -> 0 <= off < tot ->
  exists bl, advance_loop bufs sizes tot off = Ok bl /\ wf bl /\ content bl = ptr (received bufs sizes) off.
Proof.
  induction 1 as [|b n bufs sizes Hn H IH]; intros tot off Ht Hm Ho; [cbn in Ht; lia|].
  cbn [advance_loop]. destruct (Z.leb_spec n off).
  - pose proof (total_nonneg _ _ H) as Hs0. cbn [total foldr] in Ht. fold (total sizes) in Ht.
    rewrite !u32_small by lia. cbn [tail]. destruct (IH (tot - n) (off - n)) as (bl & -> & Hw & Hc); [lia..|].
    exists bl. split_and!; [done|done|]. rewrite Hc. cbn [received]. unfold ptr. rewrite drop_app_ge.
    + f_equal. assert (Lf : blen (field b 0 n) = n) by (rewrite blen_field; lia). unfold blen in Lf. lia.
    + assert (Lf : blen (field b 0 n) = n) by (rewrite blen_field; lia). unfold blen in Lf. lia.
  - eexists. split_and!; [done| |done]. split; cbn [blocks sizeList totalSize offset]; [by constructor|done|lia].
Qed.

Lemma advance_spec bl n : wf bl -> 0 <= n < size bl ->
  exists bl', advance bl n = Ok bl' /\ wf bl' /\ content bl' = ptr (content bl) n.
Proof.
  intros Hw Hn. pose proof Hw as [Hb [Ht Hm] Ho]. rewrite size_content in Hn by done. unfold content in Hn.
  rewrite blen_ptr, (received_length _ _ Hb) in Hn by lia. unfold advance. rewrite u32_small by lia.
  destruct (advance_loop_spec _ _ Hb (totalSize bl) (offset bl + n)) as (bl' & -> & Hw' & Hc); [done|done|lia|].
  exists bl'. split_and!; [done|done|]. rewrite Hc. unfold content, ptr. rewrite drop_drop. f_equal. lia.
Qed.

(** within one block no position is a boundary *)
Lemma one_block_boundary n i : i < n -> ~ boundary [n] i.
Proof. cbn. lia. Qed.

(** taking everything ends in an access to the first element of an empty vector *)
Lemma advance_all_stops bl : wf bl -> advance bl (size bl) = Stop OutOfBounds.
Proof.
  intros [Hb [Ht Hm] Ho]. unfold advance, size. rewrite (u32_small (totalSize bl - offset bl)) by lia.
  replace (offset bl + (totalSize bl - offset bl)) with (totalSize bl) by lia. rewrite u32_small by lia.
  clear Ho. revert Ht Hm. generalize (totalSize bl). induction Hb as [|b n bufs sizes Hn H IH]; intros t Ht Hm; [done|].
  pose proof (total_nonneg _ _ H) as H0. cbn [advance_loop]. cbn [total foldr] in Ht. fold (total sizes) in Ht.
  destruct (Z.leb_spec n t); [|lia]. rewrite u32_small by lia. apply IH; lia.
Qed.

(** The list of blocks behaves as the sequence of the bytes received and
    not yet consumed: a block adds its bytes at the end; the size is the length;
    consuming fewer bytes than there are drops them from the front; and reading
    gives the byte at the index, except at an index where one block ends and the
    next begins. *)
Theorem buffer_list_refines bl : wf bl ->
  size bl = blen (content bl) /\
  (forall buf n, 0 <= n <= blen buf -> totalSize bl + n < 4294967296 ->
     wf (add bl buf n) /\ content (add bl buf n) = content bl ++ field buf 0 n) /\
  (forall n, 0 <= n < size bl -> exists bl', advance bl n = Ok bl' /\ wf bl' /\ content bl' = ptr (content bl) n) /\
  (forall k, 0 <= k < size bl -> ~ boundary (sizeList bl) (k + offset bl) -> get bl k = Ok (getb (content bl) k)).
Proof.
  intros Hw. split_and!; [by apply size_content|..]; intros.
  - by apply add_content.
  - by apply advance_spec.
  - by apply get_spec.
Qed.

Lemma buffer_list_witness :
  let bl := mkBufferList [[1; 2; 3; 0]; [4; 5]] [3; 2] 5 1 in
  get bl 0 = Ok 2 /\ get bl 1 = Ok 3 /\ get bl 3 = Ok 5 /\ size bl = 4.
Proof.
  intros bl. assert (Hw : wf bl) by (split; [|split; [reflexivity|done]|done]; constructor; [done|constructor; [done|constructor]]).
  destruct (buffer_list_refines bl Hw) as (Hs & _ & _ & Hg).
  split_and!; [apply (Hg 0)|apply (Hg 1)|apply (Hg 3)|exact Hs]; vm_compute; intuition congruence.
Defined.

(** At such an index it gives the byte behind the received part of the first
    block instead of the first byte of the second. *)
Theorem get_at_boundary b1 b2 n1 n2 : 0 <= n1 < blen b1 -> 0 < n2 <= blen b2 -> n1 + n2 < 4294967296 ->
  let bl := mkBufferList [b1; b2] [n1; n2] (n1 + n2) 0 in
  get bl n1 = Ok (getb b1 n1) /\ getb (content bl) n1 = getb b2 0.
Proof.
  intros H1 H2 Hs bl. assert (Lf : blen (field b1 0 n1) = n1) by (rewrite blen_field; lia). split.
  - unfold get, bl. cbn [blocks sizeList offset]. rewrite Z.add_0_r, u32_small by lia. cbn [get_loop].
    rewrite Z.add_0_l, u32_small by lia. destruct (Z.leb_spec n1 n1); [|lia].
    rewrite Z.sub_0_r, u32_small by lia. apply READ_NET8_ok; lia.
  - unfold content, bl. cbn [blocks sizeList offset received]. unfold ptr. rewrite drop_0. rewrite getb_app_r by lia.
    rewrite Lf, Z.sub_diag, getb_app_l by (rewrite blen_field; lia). by rewrite field_lookup by lia.
Qed.
End BufferList.
