(* ===== verification/Rpc.v ===== *)
(** * Rpc: remote control of the relay

    src/src/rpc/lan-play.cpp and rpc-server.cpp: the object [LanPlay] starts and
    stops the relay with the configuration it was given, and
    [RPCServerSession::onMessage] is the command language, one message and one
    reply of lines [key=value] at a time. *)

From stdpp Require Import strings pretty.
From S2P Require Import Prelude Bytes Text World Sample Relay Discovery Options Address Startup Session.

#[local] Open Scope Z_scope.

(** ** Replies *)

Fixpoint is_prefix (p s : list Z) : bool :=
  match p, s with
  | [], _ => true
  | a :: p, b :: s => (a =? b) && is_prefix p s
  | _, [] => false
  end.
(** [str.find(src, pos)] on the suffix from [pos] *)
Fixpoint find_sub (s src : list Z) (pos : nat) : option nat :=
  if is_prefix src s then Some pos else match s with [] => None | _ :: s => find_sub s src (S pos) end.

Fixpoint replace_loop (fuel : nat) (str src dst : list Z) (pos : option nat) : outcome (list Z) :=
  match pos with
  | None => Ok str
  | Some pos =>
      match fuel with
      | O => Stop OutOfFuel
      | S fuel =>
          let str := take pos str ++ dst ++ drop (pos + length src) str in
          replace_loop fuel str src dst (find_sub (drop (pos + length dst) str) src (pos + length dst))
      end
  end.
Definition stringReplace (str src dst : list Z) : outcome (list Z) :=
  replace_loop (S (length str)) str src dst (find_sub str src 0).

Definition escape (value : list Z) : outcome (list Z) :=
  try s := stringReplace value [34] [92; 34] in Ok ([34] ++ s ++ [34]).

(** the overloads of [kv] *)
Definition kv (key : string) (value : list Z) : outcome (list Z) :=
  try v := escape value in Ok (text key ++ [61] ++ v ++ [10]).
Definition kv_int (key : string) (value : Z) : list Z := text key ++ [61] ++ text (pretty value) ++ [10].
Definition kv_bool (key : string) (value : bool) : list Z :=
  text key ++ text (if value then "=true" else "=false") ++ [10].
Definition error (value : list Z) : outcome (list Z) := kv "error" value.

(** ** The controlled relay *)

Inductive LanPlayStatus := Stopped | Running.

Record LanPlayConfig := mkConfig {
  relayServer : list Z;
  socks5Server : list Z;
  fakeInternet : bool;
  cfg_broadcast : bool;
  cfg_pmtu : Z
}.
#[global] Instance eta_config : Eta LanPlayConfig := fun r =>
  mkConfig (relayServer r) (socks5Server r) (fakeInternet r) (cfg_broadcast r) (cfg_pmtu r).

Record LanPlay := mkControl {
  lastError : list Z;
  lastConfig : LanPlayConfig;
  status : LanPlayStatus;
  config : LanPlayConfig
}.
#[global] Instance eta_control : Eta LanPlay := fun r => mkControl (lastError r) (lastConfig r) (status r) (config r).

Definition initial_config : LanPlayConfig := mkConfig [] [] false false 0.
Definition initial_control : LanPlay := mkControl [] initial_config Stopped initial_config.

(** what the commands ask the host for *)
Record rpc_host := mkHost {
  host_startup : startup;
  (** [pcap_findalldevs]: the devices, or the message of the error *)
  host_devices : list pcap_if + list Z;
  host_description : pcap_if -> option (list Z);
  (** [lan_play->last_err] as a start that fails writes it, and as it was *)
  host_start_err : init_error -> list Z;
  host_last_err : list Z;
  host_version : list Z;
  (** milliseconds of the system clock *)
  host_time : Z;
  (** [what()] of [std::invalid_argument] *)
  host_what : list Z
}.

(** commands run on the control object and the relay *)
Abbreviation R A := (SE (LanPlay * world) A).
Definition getcontrol {A} (f : LanPlay -> A) : R A := gets (fun s => f s.1).
Definition setcontrol (f : LanPlay -> LanPlay) : R unit := modify (fun s => (f s.1, s.2)).
Definition onrelay {A} (m : M A) : R A :=
  fun s => match m s.2 with Ok (a, w) => Ok (a, (s.1, w)) | Stop f => Stop f end.

(** [OPTIONS_DEF]: a copy of the string, no string if it is empty *)
Definition options_def (s : list Z) : option string :=
  match until_nul s with [] => None | _ => Some (c_str s) end.

Definition applyConfig : R unit :=
  let* c := getcontrol config in
  onrelay (modify (fun w => w <| options ::= fun o => o <| opt_broadcast := cfg_broadcast c |>
    <| opt_fake_internet := fakeInternet c |> <| opt_pmtu := cfg_pmtu c |>
    <| opt_relay_server_addr := options_def (relayServer c) |>
    <| opt_socks5_server_addr := options_def (socks5Server c) |> |>)) ;;;
  setcontrol (set lastConfig (fun _ => c)).

Section Commands.
Context (host : rpc_host).

Definition start : R Z :=
  let* st := getcontrol status in
  match st with
  | Running => setcontrol (set lastError (fun _ => text "Already running")) ;;; ret (-1)
  | Stopped =>
      applyConfig ;;;
      let* r := onrelay (lan_play_init (host_startup host)) in
      match r with
      | inl rc =>
          (if rc =? 0 then setcontrol (set status (fun _ => Running))
           else setcontrol (set lastError (fun _ => host_last_err host))) ;;;
          ret rc
      | inr Exits => Prelude.stop Exited
      | inr e => setcontrol (set lastError (fun _ => host_start_err host e)) ;;; ret (-1)
      end
  end.

Definition stop : R Z :=
  let* st := getcontrol status in
  match st with
  | Stopped => setcontrol (set lastError (fun _ => text "Already stopped")) ;;; ret (-1)
  | Running =>
      let* rc := onrelay lan_play_close in
      (if rc =? 0 then setcontrol (set status (fun _ => Stopped))
       else setcontrol (set lastError (fun _ => host_last_err host))) ;;;
      ret rc
  end.

Record NetInterface := mkNetInterface { ni_name : list Z; ni_description : list Z; ni_ips : list (list Z) }.

Definition net_interface (d : pcap_if) : NetInterface :=
  mkNetInterface (text (dev_name d)) (default [] (host_description host d))
    (map (fun a => text (dotted (pa_addr a))) (List.filter pa_inet (dev_addresses d))).

Definition getNetInterfaces : R (option (list NetInterface)) :=
  match host_devices host with
  | inr e => setcontrol (set lastError (fun _ => e)) ;;; ret None
  | inl devs => ret (Some (map net_interface devs))
  end.

Record LanPlayStats := mkStats {
  stats_client : list Z;
  stats_packet : list Z;
  stats_time : Z
}.

(** the counters in the order of the reply *)
Definition getStats : R (option LanPlayStats) :=
  let* st := getcontrol status in
  match st with
  | Stopped => setcontrol (set lastError (fun _ => text "Not running")) ;;; ret None
  | Running =>
      let* l := onrelay (getlp id) in
      let c := lp_client l in
      let p := lp_packet_ctx l in
      ret (Some (mkStats [cl_download_byte c; cl_download_packet c; cl_upload_byte c; cl_upload_packet c]
        [pc_download_byte p; pc_download_packet p; pc_upload_byte p; pc_upload_packet p] (host_time host)))
  end.

(** ** Commands *)

Definition getConfig (prefix : string) (c : LanPlayConfig) : outcome (list Z) :=
  try a := kv "relayServer" (relayServer c) in
  try b := kv "socks5Server" (socks5Server c) in
  Ok (text "[" ++ text prefix ++ text "]" ++ [10] ++ a ++ b ++ kv_int "pmtu" (cfg_pmtu c) ++
      kv_bool "fakeInternet" (fakeInternet c) ++ kv_bool "broadcast" (cfg_broadcast c)).

Definition stats_item (prefix : string) (l : list Z) : list Z :=
  text prefix ++ [10] ++
  concat (zip_with kv_int ["downloadByte"; "downloadPacket"; "uploadByte"; "uploadPacket"]%string l).
Definition show_stats (s : LanPlayStats) : list Z :=
  text "[stats]" ++ [10] ++ kv_int "time" (stats_time s) ++
  stats_item "[stats.client]" (stats_client s) ++ stats_item "[stats.packet]" (stats_packet s).

Fixpoint show_ips (ips : list (list Z)) : outcome (list Z) :=
  match ips with
  | [] => Ok []
  | ip :: ips => try e := escape ip in try rest := show_ips ips in Ok (text "  " ++ e ++ text "," ++ [10] ++ rest)
  end.
Fixpoint show_interfaces (l : list NetInterface) : outcome (list Z) :=
  match l with
  | [] => Ok []
  | i :: l =>
      try a := kv "name" (ni_name i) in
      try b := kv "description" (ni_description i) in
      try c := show_ips (ni_ips i) in
      try rest := show_interfaces l in
      Ok (text "[[interfaces]]" ++ [10] ++ a ++ b ++ text "ips=[" ++ [10] ++ c ++ text "]" ++ [10] ++ rest)
  end.

(** [std::stoi(value, nullptr, 0)] *)
Inductive stoi_result := StoiValue (v : Z) | InvalidArgument | OutOfRange.

Definition is_space (c : Z) : bool := ((9 <=? c) && (c <=? 13)) || (c =? 32).
Fixpoint skip_spaces (s : list Z) : list Z :=
  match s with c :: s' => if is_space c then skip_spaces s' else s | [] => [] end.
Definition digit_value (c : Z) : Z :=
  if (48 <=? c) && (c <=? 57) then c - 48 else
  if (97 <=? c) && (c <=? 122) then c - 87 else
  if (65 <=? c) && (c <=? 90) then c - 55 else 36.
Fixpoint read_base (base : Z) (s : list Z) (acc : Z) : Z :=
  match s with c :: s' => if digit_value c <? base then read_base base s' (acc * base + digit_value c) else acc | [] => acc end.
(** the value after the sign; [None] when there is no digit *)
Definition read_radix (s : list Z) : option Z :=
  match s with
  | 48 :: x :: d :: s' =>
      if ((x =? 120) || (x =? 88)) && (digit_value d <? 16) then Some (read_base 16 (d :: s') 0)
      else Some (read_base 8 (x :: d :: s') 0)
  | 48 :: s' => Some (read_base 8 s' 0)
  | d :: s' => if digit_value d <? 10 then Some (read_base 10 (d :: s') 0) else None
  | [] => None
  end.
Definition stoi (value : list Z) : stoi_result :=
  let s := skip_spaces (until_nul value) in
  let '(sign, s) := match s with 45 :: s' => (-1, s') | 43 :: s' => (1, s') | _ => (1, s) end in
  match read_radix s with
  | None => InvalidArgument
  | Some v => if (-2147483648 <=? sign * v) && (sign * v <=? 2147483647) then StoiValue (sign * v) else OutOfRange
  end.

Definition setconfig (f : LanPlayConfig -> LanPlayConfig) : R (list Z) :=
  setcontrol (set config f) ;;;
  let* c := getcontrol config in
  lift (getConfig "config" c).
Definition report_error : R (list Z) := let* e := getcontrol lastError in lift (error e).

Definition split_message (message : list Z) : list Z * list Z :=
  match find message 61 with
  | None => (message, [])
  | Some ePos => (substr_to message ePos, substr_from message (ePos + 1))
  end.

Definition onMessage (message : list Z) : R (list Z) :=
  let (key, value) := split_message message in
  if eqs key "status" then
    let* st := getcontrol status in
    lift (kv "status" (text match st with Stopped => "None" | Running => "Running" end))
  else if eqs key "listIf" then
    let* l := getNetInterfaces in
    match l with Some l => lift (show_interfaces l) | None => report_error end
  else if eqs key "version" then lift (kv "version" (host_version host))
  else if eqs key "start" then
    let* rc := start in if rc =? 0 then lift (kv "status" (text "Running")) else report_error
  else if eqs key "stop" then
    let* rc := stop in if rc =? 0 then lift (kv "status" (text "None")) else report_error
  else if eqs key "config" then
    let* c := getcontrol config in lift (getConfig "config" c)
  else if eqs key "lastConfig" then
    let* c := getcontrol lastConfig in lift (getConfig "lastConfig" c)
  else if eqs key "relayServer" then setconfig (set relayServer (fun _ => value))
  else if eqs key "socks5Server" then setconfig (set socks5Server (fun _ => value))
  else if eqs key "fakeInternet" then setconfig (set fakeInternet (fun _ => eqs value "true"))
  else if eqs key "broadcast" then setconfig (set cfg_broadcast (fun _ => eqs value "true"))
  else if eqs key "pmtu" then
    match stoi value with
    | StoiValue v => setconfig (set cfg_pmtu (fun _ => v))
    | InvalidArgument => lift (error (host_what host))
    | OutOfRange => Prelude.stop Uncaught
    end
  else if eqs key "stats" then
    let* s := getStats in
    match s with Some s => ret (show_stats s) | None => report_error end
  else lift (error (text "command not found: " ++ key)).
End Commands.

(** ** The server that is run *)

Inductive rpc_server := WSServer (addr : string) (port : Z) | TCPServer (addr : string) (port : Z).

(** [None] is the status -1; otherwise the server runs and decides it *)
Definition rpc_main (bind_addr : string) (protocol : option string) : option rpc_server :=
  match parse_ip_port bind_addr 128 with
  | None => None
  | Some (addr, port, _) =>
      match protocol with
      | None => Some (WSServer addr port)
      | Some p =>
          if String.eqb p "ws" then Some (WSServer addr port) else
          if String.eqb p "tcp" then Some (TCPServer addr port) else None
      end
  end.

(** ** Quoting *)

Lemma find_sub_none s c pos : find_sub s [c] pos = None <-> ~ In c s.
Proof.
  revert pos. induction s as [|b s IH]; intros pos; cbn; [tauto|]. rewrite andb_true_r.
  destruct (Z.eqb_spec c b) as [->|Hne]; [intuition congruence|]. rewrite IH. intuition congruence.
Qed.
Lemma find_sub_some s c pos n : find_sub s [c] pos = Some n -> exists a b, s = a ++ c :: b /\ n = (pos + length a)%nat /\ ~ In c a.
Proof.
  revert pos. induction s as [|b s IH]; intros pos; cbn; [done|]. rewrite andb_true_r.
  destruct (Z.eqb_spec c b) as [->|Hne].
  - intros [= <-]. exists [], s. split_and!; [done|cbn; lia|auto].
  - intros H. destruct (IH _ H) as (x & y & -> & -> & Hx). exists (b :: x), y. split_and!; [done|cbn; lia|]. cbn. intuition congruence.
Qed.

Definition replaced (c : Z) (dst s : list Z) : list Z := flat_map (fun x => if x =? c then dst else [x]) s.
Lemma replaced_none c dst s : ~ In c s -> replaced c dst s = s.
Proof.
  induction s as [|b s IH]; intros Hn; cbn; [done|]. cbn in Hn. destruct (Z.eqb_spec b c); [tauto|]. cbn. f_equal. apply IH. tauto.
Qed.

Lemma replace_loop_spec fuel c dst : forall pre suf, (length suf < fuel)%nat ->
  replace_loop fuel (pre ++ suf) [c] dst (find_sub suf [c] (length pre)) = Ok (pre ++ replaced c dst suf).
Proof.
  induction fuel as [|fuel IH]; intros pre suf Hf; [lia|]. cbn [replace_loop].
  destruct (find_sub suf [c] (length pre)) as [n|] eqn:E.
  - apply find_sub_some in E as (a & b & -> & -> & Ha). cbn [length].
    assert (E1 : take (length pre + length a) (pre ++ a ++ c :: b) = pre ++ a).
    { rewrite app_assoc. apply take_app_length'. by rewrite length_app. }
    assert (E2 : drop (length pre + length a + 1) (pre ++ a ++ c :: b) = b).
    { rewrite app_assoc, drop_app_ge by (rewrite length_app; lia).
      replace (length pre + length a + 1 - length (pre ++ a))%nat with 1%nat by (rewrite length_app; lia). done. }
    rewrite E1, E2, app_assoc. rewrite <- !length_app, drop_app_length.
    rewrite (IH ((pre ++ a) ++ dst) b) by (rewrite length_app in Hf; cbn in Hf; lia). f_equal.
    unfold replaced. rewrite flat_map_app. cbn. rewrite Z.eqb_refl. fold (replaced c dst a). fold (replaced c dst b).
    rewrite (replaced_none c dst a) by done. by rewrite <- !app_assoc.
  - apply find_sub_none in E. by rewrite replaced_none.
Qed.

Lemma replace_char s c dst : stringReplace s [c] dst = Ok (replaced c dst s).
Proof. apply (replace_loop_spec (S (length s)) c dst []). lia. Qed.
Lemma escape_ok v : escape v = Ok ([34] ++ replaced 34 [92; 34] v ++ [34]).
Proof. unfold escape. by rewrite replace_char. Qed.
Lemma kv_ok key v : kv key v = Ok (text key ++ [61] ++ ([34] ++ replaced 34 [92; 34] v ++ [34]) ++ [10]).
Proof. unfold kv. by rewrite escape_ok. Qed.

(** a reader of quoted text: a backslash stands for the character after it *)
Fixpoint read_quoted (s acc : list Z) : option (list Z * list Z) :=
  match s with
  | [] => None
  | c :: s =>
      if c =? 34 then Some (acc, s) else
      if c =? 92 then match s with x :: s => read_quoted s (acc ++ [x]) | [] => None end
      else read_quoted s (acc ++ [c])
  end.
Definition read_kv (s : list Z) : option (list Z * list Z * list Z) :=
  match find s 61 with
  | Some i => match substr_from s (i + 1) with
              | 34 :: q => '(v, rest) ← read_quoted q []; Some (substr_to s i, v, rest)
              | _ => None
              end
  | None => None
  end.

Lemma read_quoted_spec v rest : ~ In 92 v -> forall acc,
  read_quoted (replaced 34 [92; 34] v ++ 34 :: rest) acc = Some (acc ++ v, rest).
Proof.
  induction v as [|x v IH]; intros Hn acc; [cbn; by rewrite app_nil_r|]. cbn in Hn. specialize (IH ltac:(tauto)).
  unfold replaced. cbn [flat_map]. fold (replaced 34 [92; 34] v). destruct (Z.eqb_spec x 34) as [->|Hx].
  - cbn. rewrite IH. by rewrite <- app_assoc.
  - cbn [app read_quoted]. destruct (Z.eqb_spec x 34), (Z.eqb_spec x 92); try tauto. rewrite IH. by rewrite <- app_assoc.
Qed.

(** A reply [key="value"] is read back as the key and the value, for every
    value without a backslash, quotes included. *)
Theorem reply_round_trip key v line rest :
  ~ In 61 (text key) -> ~ In 92 v -> kv key v = Ok line ->
  read_kv (line ++ rest) = Some (text key, v, 10 :: rest).
Proof.
  intros Hk Hv. rewrite kv_ok. intros [= <-]. unfold read_kv, find. rewrite <- !app_assoc. cbn [app].
  rewrite find_from_app by done. unfold substr_from, substr_to, blen. rewrite Z.add_0_l, Nat2Z.id.
  rewrite drop_app_ge by lia. replace (Z.to_nat (Z.of_nat (length (text key)) + 1) - length (text key))%nat with 1%nat by lia.
  cbn [drop]. rewrite <- app_assoc. cbn [app]. rewrite read_quoted_spec by done. cbn. by rewrite take_app_length.
Qed.

(** ** Commands *)

(** the command ended with a reply, the relay as it was and the same status *)
Definition harmless (s : LanPlay * world) (r : outcome (list Z * (LanPlay * world))) : Prop :=
  exists out c, r = Ok (out, (c, s.2)) /\ status c = status s.1.

Lemma error_ok e : exists out, error e = Ok out.
Proof. unfold error. rewrite kv_ok. by eexists. Qed.
Lemma getConfig_ok prefix c : exists out, getConfig prefix c = Ok out.
Proof. unfold getConfig. rewrite !kv_ok. cbn [obind]. by eexists. Qed.
Lemma show_ips_ok ips : exists out, show_ips ips = Ok out.
Proof. induction ips as [|ip ips [out IH]]; cbn; [by eexists|]. rewrite escape_ok, IH. by eexists. Qed.
Lemma show_interfaces_ok l : exists out, show_interfaces l = Ok out.
Proof.
  induction l as [|i l [out IH]]; cbn [show_interfaces]; [by eexists|]. rewrite !kv_ok. cbn [obind].
  destruct (show_ips_ok (ni_ips i)) as [? ->]. rewrite IH. by eexists.
Qed.

Lemma harmless_lift s o : (exists out, o = Ok out) -> harmless s (lift o s).
Proof. intros [out ->]. exists out, s.1. by destruct s. Qed.
Lemma harmless_report s f : (forall c, status (f c) = status c) -> harmless s ((setcontrol f ;;; report_error) s).
Proof.
  intros Hf. destruct s as [c w]. unfold bind, setcontrol, modify, report_error, getcontrol, gets, lift. cbn.
  destruct (error_ok (lastError (f c))) as [out ->]. by exists out, (f c).
Qed.
Lemma harmless_config f s : harmless s (setconfig f s).
Proof.
  destruct s as [c w]. unfold setconfig, setcontrol, modify, bind, getcontrol, gets, lift. cbn.
  destruct (getConfig_ok "config" (f (config c))) as [out Eo]. rewrite Eo.
  exists out, (c <| config ::= f |>). by split.
Qed.
Create HintDb rpc.
#[local] Hint Resolve harmless_lift harmless_report harmless_config getConfig_ok error_ok show_interfaces_ok : rpc.

(** Only the start of a stopped relay and the stop of a running one touch
    the relay.  Every other message, known or not, is answered, leaves the relay
    as it is and does not change the status, the number out of the range of
    [int] given as [pmtu] apart. *)
Theorem rpc_other_commands host m c w :
  let key := (split_message m).1 in let value := (split_message m).2 in
  ~ (key = text "start" /\ status c = Stopped) -> ~ (key = text "stop" /\ status c = Running) ->
  ~ (key = text "pmtu" /\ stoi value = OutOfRange) ->
  harmless (c, w) (onMessage host m (c, w)).
Proof.
  unfold onMessage. destruct (split_message m) as [key value]. cbn [fst snd]. intros H1 H2 H3.
  repeat match goal with |- context [if eqs key ?l then _ else _] =>
    let E := fresh in destruct (eqs key l) eqn:E; [apply bool_decide_eq_true in E|] end.
  - apply (harmless_lift (c, w)). rewrite kv_ok. by eexists.
  - unfold getNetInterfaces. destruct (host_devices host) as [devs|e].
    + apply (harmless_lift (c, w)). auto with rpc.
    + apply (harmless_report (c, w)). done.
  - apply harmless_lift. rewrite kv_ok. by eexists.
  - unfold start, getcontrol, gets, bind at 1. unfold bind at 1. cbn [fst]. destruct (status c) eqn:E; [tauto|].
    apply (harmless_report (c, w)). done.
  - unfold stop, getcontrol, gets, bind at 1. unfold bind at 1. cbn [fst]. destruct (status c) eqn:E; [|tauto].
    apply (harmless_report (c, w)). done.
  - apply (harmless_lift (c, w)). auto with rpc.
  - apply (harmless_lift (c, w)). auto with rpc.
  - auto with rpc.
  - auto with rpc.
  - auto with rpc.
  - auto with rpc.
  - destruct (stoi value) eqn:Es; [auto with rpc..|destruct H3; by split].
  - unfold getStats, getcontrol, gets, bind at 1. unfold bind at 1. cbn [fst]. destruct (status c) eqn:E.
    + apply (harmless_report (c, w)). done.
    + by eexists _, c.
  - auto with rpc.
Qed.

Lemma onrelay_wp {A} (m : M A) (Q : A -> LanPlay * world -> Prop) c w :
  wp m (fun a w' => Q a (c, w')) w -> wp (onrelay m) Q (c, w).
Proof. unfold wp, onrelay. cbn. by destruct (m w) as [[a w']|f]. Qed.

Lemma onMessage_start host : onMessage host (text "start") =
  (let* rc := start host in if rc =? 0 then lift (kv "status" (text "Running")) else report_error).
Proof. reflexivity. Qed.
Lemma onMessage_stop host : onMessage host (text "stop") =
  (let* rc := stop host in if rc =? 0 then lift (kv "status" (text "None")) else report_error).
Proof. reflexivity. Qed.

Lemma options_def_spec l : options_def l = if decide (until_nul l = []) then None else Some (c_str l).
Proof. unfold options_def. by destruct (until_nul l). Qed.

Lemma stop_running host c w : status c = Running ->
  wp (onMessage host (text "stop")) (fun out s => stopped w s.2 /\
    (opt_relay_server_addr (options w) = None -> status s.1 = Stopped /\ kv "status" (text "None") = Ok out)) (c, w).
Proof.
  intros Hc. rewrite onMessage_stop. apply wp_bind. unfold stop. apply wp_bind, wp_gets. cbn [fst]. rewrite Hc. apply wp_bind, onrelay_wp.
  eapply wp_mono; [apply close_total|]. intros rc w' [Hs Hrc]. destruct (Z.eqb_spec rc 0) as [->|Hne].
  - apply wp_bind, wp_modify, wp_ret. cbn [Z.eqb]. eapply wp_lift; [apply kv_ok|]. split; [done|]. intros _. split; [done|].
    by rewrite kv_ok.
  - apply wp_bind, wp_modify, wp_ret. destruct (Z.eqb_spec rc 0); [done|]. apply wp_bind, wp_gets.
    eapply wp_lift; [unfold error; apply kv_ok|]. split; [done|]. intros H. specialize (Hrc H). done.
Qed.

(** the options of the relay are those of a configuration *)
Definition configured (g : LanPlayConfig) (o : cli_options) : Prop :=
  opt_broadcast o = cfg_broadcast g /\ opt_fake_internet o = fakeInternet g /\ opt_pmtu o = cfg_pmtu g /\
  opt_relay_server_addr o = (if decide (until_nul (relayServer g) = []) then None else Some (c_str (relayServer g))) /\
  opt_socks5_server_addr o = (if decide (until_nul (socks5Server g) = []) then None else Some (c_str (socks5Server g))).

Lemma applyConfig_spec c w : exists w1, applyConfig (c, w) = Ok (tt, (c <| lastConfig := config c |>, w1)) /\
  configured (config c) (options w1) /\ opt_netif (options w1) = opt_netif (options w) /\
  opt_zerotier_name (options w1) = opt_zerotier_name (options w) /\ (restartable w -> restartable w1).
Proof.
  eexists. split; [reflexivity|]. split; [by repeat split; apply options_def_spec|]. split; [done|]. split; [done|]. intros Hra. by destruct Hra.
Qed.


Definition sample_host (su : startup) : rpc_host :=
  mkHost su (inl sample_devices) (fun _ => None) (fun _ => text "failed") [] (text "1.0") 0 (text "stoi").

Lemma reply_witness : read_kv (text "name=" ++ [34; 97; 92; 34; 98; 34; 10; 99]) = Some (text "name", [97; 34; 98], [10; 99]).
Proof.
  apply (reply_round_trip "name" [97; 34; 98] (text "name=" ++ [34; 97; 92; 34; 98; 34; 10]) [99]).
  - vm_compute. intuition discriminate.
  - cbn. intuition discriminate.
  - reflexivity.
Defined.

Lemma other_commands_witness :
  harmless (initial_control, Sample.relay) (onMessage (sample_host sample_startup) (text "pmtu=0x5dc") (initial_control, Sample.relay)).
Proof. apply rpc_other_commands; vm_compute; intuition discriminate. Defined.

(** a configuration with the switches set *)
Definition sample_control : LanPlay := mkControl [] initial_config Stopped (mkConfig [] [] true true 1400).


(** ** Commands that go wrong *)

(** A number outside the range of [int] throws an exception that nothing
    catches. *)
Theorem rpc_pmtu_uncaught host s : onMessage host (text "pmtu=2147483648") s = Stop Uncaught.
Proof. reflexivity. Qed.

(** A backslash is not escaped: at the end of a value it takes the closing quote. *)
Theorem reply_backslash : exists line, kv "description" [92] = Ok line /\ read_kv line = None.
Proof. eexists. split; [apply kv_ok|]. reflexivity. Qed.

(** A start that fails after the host ports were reserved keeps them: here the
    capture files cannot be created. *)
Theorem failed_start_keeps_ports :
  match onMessage (sample_host (mkStartup (Some sample_devices) (Some sample_devices) (fun _ _ => None) 0 false (fun _ => false) (fun _ => false) 0 0))
    (text "start") (initial_control, sample_boot <| options ::= set opt_capture_prefix (fun _ => Some "c"%string) |>) with
  | Ok (_, (c, w)) => status c = Stopped /\ ports <$> udp_guard (lp w) = Some [49155; 49154; 49153; 49152; 35000]
  | Stop _ => False
  end.
Proof. vm_compute. split; reflexivity. Qed.
