(* ===== verification/WebSocket.v ===== *)
(** * WebSocket: the connections of the remote control

    src/src/rpc/rpc-tcp-server.hpp and rpc-ws-server.cpp.  A connection
    receives blocks of bytes; a plain one takes them as lines, the other speaks
    HTTP until the handshake and WebSocket frames after it.  Both pass text to
    the session, [callback], once the client has presented the token.  The state
    of a connection ends in what it has done: the bytes written, latest first,
    the files it opened, the frames it handled, and whether it closed. *)

From stdpp Require Import strings gmap.
From S2P Require Import Prelude Bytes Text Base64 Stream Sha1.
Import ReadLine BufferList.

#[local] Open Scope Z_scope.

Section Connections.
(** the session and what it works on *)
Context {A : Type} (callback : list Z -> SE A (list Z)).

(** ** Plain connections *)

Record tcp_conn := mkTcp {
  tcp_rl : list Z;
  tcp_authed : bool;
  tcp_app : A;
  tcp_written : list (list Z)
}.
#[local] Instance eta_tcp : Eta tcp_conn := fun r => mkTcp (tcp_rl r) (tcp_authed r) (tcp_app r) (tcp_written r).

Definition AUTHORIZED : list Z := text "success=" ++ [34] ++ text "authorized" ++ [34].
Definition UNAUTHORIZED : list Z := text "error=" ++ [34] ++ text "authorized failed: invalid token" ++ [34].

(** [sendStr]; nothing is written for an empty string *)
Definition tcp_send (s : list Z) : SE tcp_conn unit :=
  match s with [] => ret tt | _ => modify (set tcp_written (cons s)) end.

Definition tcp_call (line : list Z) : SE tcp_conn (list Z) :=
  fun c => match callback line (tcp_app c) with
           | Ok (r, a) => Ok (r, c <| tcp_app := a |>)
           | Stop f => Stop f
           end.

Definition tcp_line (token line : list Z) : SE tcp_conn unit :=
  let* authed := gets tcp_authed in
  let* result :=
    (if authed then tcp_call line else
     if bool_decide (line = token) then modify (set tcp_authed (fun _ => true)) ;;; ret AUTHORIZED
     else ret UNAUTHORIZED) in
  tcp_send (result ++ [10] ++ text "# end" ++ [10]).

(** [onData] *)
Definition tcp_data (token data : list Z) : SE tcp_conn unit :=
  let* buffer := gets tcp_rl in
  let* buffer := feed (tcp_line token) buffer data in
  modify (set tcp_rl (fun _ => buffer)).

(** ** WebSocket connections *)

Inductive WSCState :=
| DO_HEADER | WAIT_HTTP | WAIT_DECODE_HEADER | WAITING_FOR_16_BIT_LENGTH | WAITING_FOR_64_BIT_LENGTH
| WAITING_FOR_MASK_KEY | WAITING_FOR_PAYLOAD | DEAD.
#[local] Instance wsc_eq : EqDecision WSCState.
Proof. solve_decision. Defined.

(** without [fin] and the reserved bits, which the code sets and never reads *)
Record WSFrame := mkFrame {
  f_opcode : Z;
  f_mask : bool;
  f_length : Z;
  f_maskBytes : list Z;
  f_data : list Z
}.
#[local] Instance eta_frame : Eta WSFrame := fun r => mkFrame (f_opcode r) (f_mask r) (f_length r) (f_maskBytes r) (f_data r).

Record ws_conn := mkWs {
  wsState : WSCState;
  ws_authed : bool;
  ws_path : list Z;
  ws_headers : gmap (list Z) (list Z);
  ws_rl : list Z;
  ws_bl : buffer_list;
  ws_frame : WSFrame;
  ws_app : A;
  ws_written : list (list Z);
  ws_opened : list (list Z);
  ws_frames : list WSFrame;
  ws_closed : bool
}.
#[local] Instance eta_ws : Eta ws_conn := fun r =>
  mkWs (wsState r) (ws_authed r) (ws_path r) (ws_headers r) (ws_rl r) (ws_bl r) (ws_frame r) (ws_app r) (ws_written r)
    (ws_opened r) (ws_frames r) (ws_closed r).

Definition CRLF : list Z := [13; 10].
Definition HTTP_RESP_400 : list Z :=
  text "HTTP/1.1 400 Bad Request" ++ CRLF ++ text "Content-Length: 0" ++ CRLF ++ text "Connection: Close" ++ CRLF ++ CRLF.
Definition HTTP_RESP_101_PART : list Z :=
  text "HTTP/1.1 101 Switching Protocols" ++ CRLF ++ text "Upgrade: websocket" ++ CRLF ++ text "Connection: Upgrade" ++ CRLF ++
  text "Sec-WebSocket-Protocol: switch-lan-play-rpc" ++ CRLF ++ text "Sec-WebSocket-Accept: ".
Definition WS_GUID : list Z := text "258EAFA5-E914-47DA-95CA-C5AB0DC85B11".

Definition getPath (line : list Z) : list Z :=
  match find line 32 with
  | None => []
  | Some ePos =>
      let line := substr_from line (ePos + 1) in
      match find line 32 with
      | None => []
      | Some ePos => if eqs (substr_from line (ePos + 1)) "HTTP/1.1" then substr_to line ePos else []
      end
  end.

Definition tolower (s : list Z) : list Z := map (fun c => if (65 <=? c) && (c <=? 90) then c + 32 else c) s.

(** [filename.find("..") != npos] *)
Fixpoint has_dotdot (s : list Z) : bool :=
  match s with
  | a :: (b :: _) as s' => ((a =? 46) && (b =? 46)) || has_dotdot s'
  | _ => false
  end.

Definition setws (f : ws_conn -> ws_conn) : SE ws_conn unit := modify f.

(** the answer, [[]] while the file is read; the file is opened for reading *)
Definition sendFile (path : list Z) : SE ws_conn (list Z) :=
  if has_dotdot path then ret HTTP_RESP_400 else
  let filename := match path with [] => text "index.html" | _ => path end in
  setws (set ws_opened (cons (text "http_root/" ++ filename))) ;;;
  ret [].

(** [while (line[ePos + 1] == ' ') ePos += 1], then the rest *)
Fixpoint header_value (s : list Z) : list Z :=
  match s with
  | c :: s' => if c =? 32 then header_value s' else s
  | [] => []
  end.

Definition header (h : gmap (list Z) (list Z)) (key : string) : list Z := default [] (h !! text key).

Definition ws_line (line : list Z) : SE ws_conn (list Z) :=
  let* c := gets id in
  match wsState c with
  | DO_HEADER =>
      let path := getPath line in
      setws (set ws_path (fun _ => path)) ;;;
      match path with
      | [] => setws (set wsState (fun _ => DEAD)) ;;; ret HTTP_RESP_400
      | _ => setws (set wsState (fun _ => WAIT_HTTP)) ;;; ret []
      end
  | WAIT_HTTP =>
      match line with
      | _ :: _ =>
          match find line 58 with
          | None => setws (set wsState (fun _ => DEAD)) ;;; ret HTTP_RESP_400
          | Some ePos =>
              setws (set ws_headers (insert (tolower (substr_to line ePos)) (header_value (substr_from line (ePos + 1))))) ;;;
              ret []
          end
      | [] =>
          let h := ws_headers c in
          if eqs (ws_path c) "/" && eqs (header h "upgrade") "websocket" && eqs (header h "connection") "Upgrade" &&
             eqs (header h "sec-websocket-version") "13" && eqs (header h "sec-websocket-protocol") "switch-lan-play-rpc" &&
             (0 <? blen (header h "sec-websocket-key"))
          then
            let key := header h "sec-websocket-key" ++ WS_GUID in
            let accept := base64_encode (SHA1Final (SHA1Update SHA1Init key (u32 (blen key)))) in
            setws (set wsState (fun _ => WAIT_DECODE_HEADER)) ;;;
            ret (HTTP_RESP_101_PART ++ accept ++ CRLF ++ CRLF)
          else
            setws (set wsState (fun _ => DEAD)) ;;;
            sendFile (substr_from (ws_path c) 1)
      end
  | _ => ret []
  end.

Definition ws_send (s : list Z) : SE ws_conn unit :=
  match s with [] => ret tt | _ => setws (set ws_written (cons s)) end.
(** the callback of [ReadLine]: answer the line *)
Definition ws_http (line : list Z) : SE ws_conn unit := let* r := ws_line line in ws_send r.

Definition sendText (s : list Z) : SE ws_conn unit :=
  let length := blen s in
  if length <? 126 then
    setws (set ws_written (fun o => s :: [129; Z.land length 127] :: o))
  else if length <? 65536 then
    setws (set ws_written (fun o => s :: [129; 126; u8 (Z.shiftr length 8); u8 length] :: o))
  else ret tt.

Definition ws_call (line : list Z) : SE ws_conn (list Z) :=
  fun c => match callback line (ws_app c) with
           | Ok (r, a) => Ok (r, c <| ws_app := a |>)
           | Stop f => Stop f
           end.

Definition onFrame (token : list Z) : SE ws_conn unit :=
  let* c := gets id in
  let f := ws_frame c in
  setws (set ws_frames (cons f)) ;;;
  if f_opcode f =? 8 then setws (set ws_closed (fun _ => true)) else
  if negb (f_opcode f =? 1) then ret tt else
  let line := f_data f in
  let* result :=
    (if ws_authed c then ws_call line else
     if bool_decide (line = token) then setws (set ws_authed (fun _ => true)) ;;; ret AUTHORIZED
     else ret UNAUTHORIZED) in
  match result with [] => ret tt | _ => sendText result end.

(** [frame.data[i] ^= frame.maskBytes[i % 4]] *)
Definition unmask (mask data : list Z) : list Z := imap (fun i b => Z.lxor b (nth (i mod 4) mask 0)) data.

Definition setframe (f : WSFrame -> WSFrame) : SE ws_conn unit := setws (set ws_frame f).
Definition setstate (st : WSCState) : SE ws_conn unit := setws (set wsState (fun _ => st)).
Definition consume (n : Z) : SE ws_conn unit :=
  let* bl := gets ws_bl in let? bl := advance bl n in setws (set ws_bl (fun _ => bl)).
Definition byte_at (k : Z) : SE ws_conn Z := let* bl := gets ws_bl in lift (get bl k).

(** the parts of the loop of [onData], one for each state; the first tells
    whether the loop is left *)
Definition decode_header : SE ws_conn bool :=
  let* bl := gets ws_bl in
  if 2 <=? size bl then
    let* first := byte_at 0 in
    let* second := byte_at 1 in
    let length := Z.land second 127 in
    setws (set ws_frame (fun _ => mkFrame (Z.land first 15) (negb (Z.land second 128 =? 0)) length [0; 0; 0; 0] [])) ;;;
    (if length =? 126 then setstate WAITING_FOR_16_BIT_LENGTH else
     if length =? 127 then setstate WAITING_FOR_64_BIT_LENGTH else
     setstate WAITING_FOR_MASK_KEY ;;; setframe (set f_data (fun _ => replicate (Z.to_nat length) 0))) ;;;
    consume 2 ;;;
    ret false
  else ret true.

Definition length16 : SE ws_conn unit :=
  let* bl := gets ws_bl in
  if 2 <=? size bl then
    let* a := byte_at 0 in
    let* b := byte_at 1 in
    let length := Z.lor (Z.shiftl (u8 a) 8) (u8 b) in
    setframe (fun f => f <| f_length := length |> <| f_data := replicate (Z.to_nat length) 0 |>) ;;;
    consume 2 ;;;
    setstate WAITING_FOR_MASK_KEY
  else ret tt.

(** an [int] is shifted by 56 *)
Definition length64 : SE ws_conn unit :=
  let* bl := gets ws_bl in
  if 8 <=? size bl then let* a := byte_at 0 in stop BadShift else ret tt.

Definition mask_key : SE ws_conn unit :=
  let* f := gets ws_frame in
  if f_mask f then
    let* bl := gets ws_bl in
    if 4 <=? size bl then
      let? m := copyTo bl 0 4 in
      setframe (set f_maskBytes (fun _ => m)) ;;;
      consume 4 ;;;
      setstate WAITING_FOR_PAYLOAD
    else ret tt
  else setstate WAITING_FOR_PAYLOAD.

Definition ws_payload (token : list Z) : SE ws_conn unit :=
  let* f := gets ws_frame in
  let* bl := gets ws_bl in
  if f_length f <=? size bl then
    let? data := copyTo bl 0 (u32 (f_length f)) in
    consume (u32 (f_length f)) ;;;
    setframe (set f_data (fun _ => if f_mask f then unmask (f_maskBytes f) data else data)) ;;;
    setstate WAIT_DECODE_HEADER ;;;
    onFrame token
  else ret tt.

Definition when (st : WSCState) (m : SE ws_conn unit) : SE ws_conn unit :=
  let* c := gets wsState in if bool_decide (c = st) then m else ret tt.

Definition ws_pass (token : list Z) : SE ws_conn bool :=
  let* st := gets wsState in
  let* leave := (if bool_decide (st = WAIT_DECODE_HEADER) then decode_header else ret false) in
  if (leave : bool) then ret true else
  when WAITING_FOR_16_BIT_LENGTH length16 ;;;
  when WAITING_FOR_64_BIT_LENGTH length64 ;;;
  when WAITING_FOR_MASK_KEY mask_key ;;;
  when WAITING_FOR_PAYLOAD (ws_payload token) ;;;
  ret false.

(** [do ... while (wsState == WAIT_DECODE_HEADER)] *)
Fixpoint ws_loop (fuel : nat) (token : list Z) : SE ws_conn unit :=
  match fuel with
  | O => stop OutOfFuel
  | S fuel =>
      let* leave := ws_pass token in
      if (leave : bool) then ret tt else
      let* st := gets wsState in
      if bool_decide (st = WAIT_DECODE_HEADER) then ws_loop fuel token else ret tt
  end.

(** [onData] of a block of which [n] bytes were received; a frame takes two
    bytes or more *)
Definition ws_data (token data : list Z) (n : Z) : SE ws_conn unit :=
  let* c := gets id in
  match wsState c with
  | DO_HEADER | WAIT_HTTP =>
      let* buffer := feed ws_http (ws_rl c) (field data 0 n) in
      setws (set ws_rl (fun _ => buffer))
  | DEAD => ret tt
  | _ =>
      let bl := add (ws_bl c) data n in
      setws (set ws_bl (fun _ => bl)) ;;;
      ws_loop (S (S (Z.to_nat (totalSize bl)))) token
  end.

(** ** One frame *)

(** the list of blocks is one block, in which [s] is left *)
Definition holds_one (bl : buffer_list) (s : list Z) : Prop :=
  exists b n off, bl = mkBufferList [b] [n] n off /\ 0 <= off < n /\ n <= blen b /\ n < 4294967296 /\ s = field b off (n - off).

Lemma holds_one_wf bl s : holds_one bl s -> wf bl /\ content bl = s /\ size bl = blen s /\ 0 < blen s < 4294967296.
Proof.
  intros (b & n & off & -> & Ho & Hn & Hm & ->). assert (Hw : wf (mkBufferList [b] [n] n off)).
  { split; cbn; [constructor; [lia|constructor]|lia|lia]. }
  split_and!; [done| | | |].
  - unfold content. cbn. rewrite app_nil_r. unfold ptr, field. rewrite drop_0. rewrite skipn_firstn_comm. f_equal. lia.
  - rewrite size_content by done. f_equal. unfold content. cbn. rewrite app_nil_r. unfold ptr, field. rewrite drop_0.
    rewrite skipn_firstn_comm. f_equal. lia.
  - rewrite blen_field by lia. lia.
  - rewrite blen_field by lia. lia.
Qed.
Lemma get_one bl s k : holds_one bl s -> 0 <= k < blen s -> get bl k = Ok (getb s k).
Proof.
  intros H Hk. destruct (holds_one_wf _ _ H) as (Hw & Hc & Hs & _). rewrite get_spec; [by rewrite Hc|done|by rewrite Hs|].
  destruct H as (b & n & off & -> & Ho & Hn & Hm & ->). rewrite blen_field in Hk by lia. cbn [sizeList offset].
  apply one_block_boundary. lia.
Qed.
Lemma advance_one bl s m : holds_one bl s -> 0 <= m < blen s -> exists bl', advance bl m = Ok bl' /\ holds_one bl' (ptr s m).
Proof.
  intros (b & n & off & -> & Ho & Hn & Hm & ->) Hk. rewrite blen_field in Hk by lia.
  unfold advance. cbn [blocks sizeList totalSize offset]. rewrite u32_small by lia. cbn [advance_loop].
  destruct (Z.leb_spec n (off + m)); [lia|]. eexists. split; [done|]. exists b, n, (off + m). split_and!; try lia; [done|].
  unfold ptr, field. rewrite skipn_firstn_comm, drop_drop. f_equal; [lia|]. f_equal. lia.
Qed.
Lemma copy_bytes_one bl s : holds_one bl s -> forall m k, 0 <= k -> k + Z.of_nat m <= blen s ->
  copy_bytes bl k m = Ok (field s k (Z.of_nat m)).
Proof.
  intros H. destruct (holds_one_wf _ _ H) as (_ & _ & _ & Hs). induction m as [|m IH]; intros k Hk Hm; [done|].
  cbn [copy_bytes]. rewrite (get_one _ s) by (done || lia). cbn [obind]. rewrite u32_small by lia. rewrite IH by lia. cbn [obind].
  f_equal. unfold field, getb. rewrite !Nat2Z.id, Z2Nat.inj_add by lia. change (Z.to_nat 1) with 1%nat.
  unfold blen in Hm. rewrite (drop_S s (nth (Z.to_nat k) s 0) (Z.to_nat k)).
  - cbn [take]. by rewrite Nat.add_1_r.
  - rewrite nth_lookup. destruct (s !! Z.to_nat k) eqn:E; [done|]. apply lookup_ge_None in E. lia.
Qed.
Lemma copy_one bl s m : holds_one bl s -> 0 <= m <= blen s -> copyTo bl 0 m = Ok (field s 0 m).
Proof. intros H Hm. unfold copyTo. rewrite (copy_bytes_one _ s) by (done || lia). by rewrite Z2Nat.id by lia. Qed.

(** the connection with another list of blocks, frame and state *)
Definition at_state (c : ws_conn) (bl : buffer_list) (f : WSFrame) (st : WSCState) : ws_conn :=
  c <| ws_bl := bl |> <| ws_frame := f |> <| wsState := st |>.

Lemma at_state_twice c bl f st bl' f' st' : at_state (at_state c bl f st) bl' f' st' = at_state c bl' f' st'.
Proof. by destruct c. Qed.

Lemma byte_at_spec c s k Q : holds_one (ws_bl c) s -> 0 <= k < blen s -> Q (getb s k) c -> wp (byte_at k) Q c.
Proof. intros Hs Hk HQ. apply wp_bind, wp_gets. eapply wp_lift; [by apply (get_one _ s)|done]. Qed.
Lemma consume_spec c s n Q : holds_one (ws_bl c) s -> 0 <= n < blen s ->
  (forall bl, holds_one bl (ptr s n) -> Q tt (c <| ws_bl := bl |>)) -> wp (consume n) Q c.
Proof.
  intros Hs Hn HQ. apply wp_bind, wp_gets. destruct (advance_one _ _ _ Hs Hn) as (bl & E & Hbl).
  apply wp_bind. eapply wp_lift; [done|]. apply wp_modify. by apply HQ.
Qed.

Lemma stage_eq {B} (m : SE ws_conn B) c (P : B -> ws_conn -> Prop) : wp m P c -> exists b c', m c = Ok (b, c') /\ P b c'.
Proof. apply wp_run. Qed.

Definition length_state (n : Z) : WSCState :=
  if n =? 126 then WAITING_FOR_16_BIT_LENGTH else if n =? 127 then WAITING_FOR_64_BIT_LENGTH else WAITING_FOR_MASK_KEY.

Lemma decode_header_spec c s : holds_one (ws_bl c) s -> 2 < blen s ->
  let n := Z.land (getb s 1) 127 in
  wp decode_header (fun r c' => r = false /\ exists bl d, holds_one bl (ptr s 2) /\
    c' = at_state c bl (mkFrame (Z.land (getb s 0) 15) (negb (Z.land (getb s 1) 128 =? 0)) n [0; 0; 0; 0] d) (length_state n)) c.
Proof.
  intros Hs Hl n. destruct (holds_one_wf _ _ Hs) as (_ & _ & Hz & _). unfold decode_header. apply wp_bind, wp_gets. rewrite Hz.
  destruct (Z.leb_spec 2 (blen s)); [|lia]. apply wp_bind, (byte_at_spec c s 0); [done|lia|].
  apply wp_bind, (byte_at_spec c s 1); [done|lia|]. cbv zeta. fold n. apply wp_bind, wp_modify. apply wp_bind.
  unfold length_state. destruct (n =? 126); [apply wp_modify|destruct (n =? 127); [apply wp_modify|apply wp_bind, wp_modify, wp_modify]];
    (apply wp_bind; eapply (consume_spec _ s); [done|lia|]; intros bl Hbl; apply wp_ret; split; [done|]; eexists bl, _; split; [done|];
     by destruct c).
Qed.

Lemma length16_spec c s : holds_one (ws_bl c) s -> 2 < blen s ->
  let n := Z.lor (Z.shiftl (u8 (getb s 0)) 8) (u8 (getb s 1)) in
  wp length16 (fun _ c' => exists bl d, holds_one bl (ptr s 2) /\
    c' = at_state c bl ((ws_frame c) <| f_length := n |> <| f_data := d |>) WAITING_FOR_MASK_KEY) c.
Proof.
  intros Hs Hl n. destruct (holds_one_wf _ _ Hs) as (_ & _ & Hz & _). unfold length16. apply wp_bind, wp_gets. rewrite Hz.
  destruct (Z.leb_spec 2 (blen s)); [|lia]. apply wp_bind, (byte_at_spec c s 0); [done|lia|].
  apply wp_bind, (byte_at_spec c s 1); [done|lia|]. cbv zeta. fold n. apply wp_bind, wp_modify. apply wp_bind.
  eapply (consume_spec _ s); [done|lia|]. intros bl Hbl. apply wp_modify. eexists bl, _. split; [done|]. by destruct c.
Qed.

Lemma mask_key_spec c s : holds_one (ws_bl c) s -> (f_mask (ws_frame c) = true -> 4 < blen s) ->
  wp mask_key (fun _ c' => exists bl, holds_one bl (if f_mask (ws_frame c) then ptr s 4 else s) /\
    c' = at_state c bl (if f_mask (ws_frame c) then (ws_frame c) <| f_maskBytes := field s 0 4 |> else ws_frame c) WAITING_FOR_PAYLOAD) c.
Proof.
  intros Hs Hl. destruct (holds_one_wf _ _ Hs) as (_ & _ & Hz & _). unfold mask_key. apply wp_bind, wp_gets.
  destruct (f_mask (ws_frame c)) eqn:E.
  - specialize (Hl eq_refl). apply wp_bind, wp_gets. rewrite Hz. destruct (Z.leb_spec 4 (blen s)); [|lia].
    apply wp_bind. eapply wp_lift; [apply (copy_one _ s); [done|lia]|]. apply wp_bind, wp_modify. apply wp_bind.
    eapply (consume_spec _ s); [done|lia|]. intros bl Hbl. apply wp_modify. exists bl. split; [done|]. by destruct c.
  - apply wp_modify. exists (ws_bl c). split; [done|]. by destruct c.
Qed.

(** the payload is copied, consumed and unmasked, then the frame is handled *)
Lemma ws_payload_eq token c s : holds_one (ws_bl c) s -> 0 <= f_length (ws_frame c) < blen s ->
  exists bl, holds_one bl (ptr s (f_length (ws_frame c))) /\
    ws_payload token c = onFrame token (at_state c bl ((ws_frame c) <| f_data :=
      if f_mask (ws_frame c) then unmask (f_maskBytes (ws_frame c)) (field s 0 (f_length (ws_frame c)))
      else field s 0 (f_length (ws_frame c)) |>) WAIT_DECODE_HEADER).
Proof.
  intros Hs Hl. destruct (holds_one_wf _ _ Hs) as (_ & _ & Hz & Hb). destruct (advance_one _ _ _ Hs Hl) as (bl & E & Hbl).
  exists bl. split; [done|]. unfold ws_payload, bind, gets, consume, setframe, setstate, setws, modify, lift. rewrite Hz.
  destruct (Z.leb_spec (f_length (ws_frame c)) (blen s)); [|lia]. rewrite u32_small by lia.
  unfold bind. rewrite (copy_one _ s) by (done || lia). unfold gets. cbv beta iota. rewrite E. by destruct c.
Qed.

Lemma when_hit st m c : wsState c = st -> when st m c = m c.
Proof. intros H. unfold when, bind, gets. by rewrite bool_decide_eq_true_2. Qed.
Lemma when_miss st m c : wsState c <> st -> when st m c = Ok (tt, c).
Proof. intros H. unfold when, bind, gets. by rewrite bool_decide_eq_false_2. Qed.

(** *** The encoding of a frame *)

Definition ws_length (n : Z) (masked : bool) : list Z :=
  let m := if masked then 128 else 0 in if n <? 126 then [m + n] else [m + 126; n / 256; n mod 256].
(** the last fragment of a message *)
Definition ws_bytes (opcode : Z) (mask : option (list Z)) (payload : list Z) : list Z :=
  [128 + opcode] ++ ws_length (blen payload) (bool_decide (is_Some mask)) ++
  match mask with Some m => m ++ unmask m payload | None => payload end.
Definition ws_decoded (opcode : Z) (mask : option (list Z)) (payload : list Z) : WSFrame :=
  mkFrame opcode (bool_decide (is_Some mask)) (blen payload) (default [0; 0; 0; 0] mask) payload.

Lemma unmask_twice m d : unmask m (unmask m d) = d.
Proof.
  apply list_eq. intros i. unfold unmask. rewrite !list_lookup_imap.
  destruct (d !! i); [|done]. cbn. by rewrite Z.lxor_assoc, Z.lxor_nilpotent, Z.lxor_0_r.
Qed.
Lemma blen_unmask m d : blen (unmask m d) = blen d.
Proof. unfold blen, unmask. by rewrite length_imap. Qed.

Lemma opcode_bits o : 0 <= o < 16 -> Z.land (128 + o) 15 = o.
Proof. intros Ho. pose proof (below_cases 16 (fun o => Z.land (128 + o) 15 =? o) ltac:(by vm_compute) o Ho) as H. cbn beta in H. lia. Qed.
Lemma length_bits n (b : bool) : 0 <= n < 128 ->
  let x := (if b then 128 else 0) + n in Z.land x 127 = n /\ negb (Z.land x 128 =? 0) = b.
Proof.
  intros Hn x. subst x. pose proof (below_cases 128 (fun n => (Z.land (128 + n) 127 =? n) && negb (Z.land (128 + n) 128 =? 0) &&
    (Z.land (0 + n) 127 =? n) && (Z.land (0 + n) 128 =? 0)) ltac:(by vm_compute) n Hn) as H. cbn beta in H.
  rewrite !andb_true_iff, !Z.eqb_eq, negb_true_iff, Z.eqb_neq in H. destruct H as (((H1 & H2) & H3) & H4).
  destruct b; [by split; [|apply Z.eqb_neq in H2; rewrite H2]|by rewrite H3, H4].
Qed.
Lemma lor_shift8 a b : is_byte a -> is_byte b -> Z.lor (Z.shiftl a 8) b = a * 256 + b.
Proof.
  intros Ha Hb. pose proof (byte_cases (fun a => forallb (fun b => Z.lor (Z.shiftl a 8) b =? a * 256 + b) (map Z.of_nat (seq 0 256)))
    ltac:(by vm_compute) a Ha) as H. cbn beta in H. pose proof (byte_cases _ H b Hb) as H'. cbn beta in H'. lia.
Qed.

Definition ws_body (mask : option (list Z)) (payload : list Z) : list Z :=
  match mask with Some m => m ++ unmask m payload | None => payload end.

Lemma field_prefix a b : field (a ++ b) 0 (blen a) = a.
Proof. unfold field, blen. rewrite drop_0, Nat2Z.id. apply take_app_length. Qed.
Lemma ptr_prefix a b : ptr (a ++ b) (blen a) = b.
Proof. unfold ptr, blen. rewrite Nat2Z.id. apply drop_app_length. Qed.

(** from the mask on *)
Lemma body_decoded token c o mask payload extra d :
  wsState c = WAITING_FOR_MASK_KEY -> ws_frame c = mkFrame o (bool_decide (is_Some mask)) (blen payload) [0; 0; 0; 0] d ->
  (forall m, mask = Some m -> blen m = 4) -> holds_one (ws_bl c) (ws_body mask payload ++ extra) -> extra <> [] ->
  exists bl, holds_one bl extra /\
    (when WAITING_FOR_MASK_KEY mask_key ;;; when WAITING_FOR_PAYLOAD (ws_payload token) ;;; ret false) c =
    (onFrame token ;;; ret false) (at_state c bl (ws_decoded o mask payload) WAIT_DECODE_HEADER).
Proof.
  intros Hst Hf Hm Hs He. pose proof (blen_nonneg payload) as H0.
  assert (Hx : 0 < blen extra) by (destruct extra; [done|unfold blen; cbn [length]; lia]).
  assert (Hlen : f_mask (ws_frame c) = true -> 4 < blen (ws_body mask payload ++ extra)).
  { rewrite Hf. cbn. intros H. destruct mask as [m|]; [|done]. specialize (Hm m eq_refl). unfold ws_body.
    rewrite !blen_app, blen_unmask. lia. }
  destruct (stage_eq _ _ _ (mask_key_spec c _ Hs Hlen)) as ([] & c2 & E2 & bl2 & Hbl2 & ->).
  erewrite bind_Ok; [|rewrite when_hit by done; exact E2]. clear E2 Hlen.
  set (c2 := at_state _ _ _ _). assert (Hst2 : wsState c2 = WAITING_FOR_PAYLOAD) by done.
  assert (Hf2 : ws_frame c2 = mkFrame o (bool_decide (is_Some mask)) (blen payload) (default [0; 0; 0; 0] mask) d).
  { change (ws_frame c2) with (if f_mask (ws_frame c) then (ws_frame c) <| f_maskBytes := field (ws_body mask payload ++ extra) 0 4 |> else ws_frame c).
    rewrite Hf. destruct mask as [m|]; [|done]. cbn. specialize (Hm m eq_refl). rewrite <- Hm, <- app_assoc, field_prefix. done. }
  assert (Hbl : holds_one (ws_bl c2) (match mask with Some m => unmask m payload | None => payload end ++ extra)).
  { change (ws_bl c2) with bl2. rewrite Hf in Hbl2. destruct mask as [m|]; cbn in Hbl2; [|done].
    specialize (Hm m eq_refl). rewrite <- Hm, <- app_assoc, ptr_prefix in Hbl2. done. }
  destruct (ws_payload_eq token c2 _ Hbl) as (bl & Hbl' & E).
  { rewrite Hf2. cbn [f_length]. rewrite blen_app. destruct mask; rewrite ?blen_unmask; lia. }
  exists bl. rewrite Hf2 in Hbl', E. cbn [f_length f_mask f_maskBytes] in Hbl', E.
  assert (Hd : forall x, blen x = blen payload -> field (x ++ extra) 0 (blen payload) = x /\ ptr (x ++ extra) (blen payload) = extra).
  { intros x Hx'. rewrite <- Hx'. by rewrite field_prefix, ptr_prefix. }
  split.
  - destruct mask as [m|]; [destruct (Hd (unmask m payload)) as [_ Hp]; [apply blen_unmask|]|destruct (Hd payload) as [_ Hp]; [done|]];
      by rewrite Hp in Hbl'.
  - unfold bind at 1. rewrite when_hit, E by done. unfold c2. rewrite at_state_twice. unfold ws_decoded.
    destruct mask as [m|]; cbn; [destruct (Hd (unmask m payload)) as [-> _]; [apply blen_unmask|]; by rewrite unmask_twice|].
    by destruct (Hd payload) as [-> _].
Qed.

Lemma getb_two a b l : getb (a :: b :: l) 0 = a /\ getb (a :: b :: l) 1 = b /\ ptr (a :: b :: l) 2 = l.
Proof. done. Qed.

(** One frame.  A complete frame at the start of a block, masked or not and
    with a payload of up to 65535 bytes, is decoded to its opcode and payload and
    handed on, provided at least one more byte follows it in the block; the
    decoder then stands at that byte. *)
Theorem ws_frame_decoded token c o mask payload extra :
  wsState c = WAIT_DECODE_HEADER -> holds_one (ws_bl c) (ws_bytes o mask payload ++ extra) ->
  0 <= o < 16 -> (forall m, mask = Some m -> blen m = 4) -> blen payload <= 65535 -> extra <> [] ->
  exists bl, holds_one bl extra /\
    ws_pass token c = (onFrame token ;;; ret false) (at_state c bl (ws_decoded o mask payload) WAIT_DECODE_HEADER).
Proof.
  intros Hst Hs Ho Hm Hp He. pose proof (blen_nonneg payload) as H0.
  assert (Hx : 0 < blen extra) by (destruct extra; [done|unfold blen; cbn [length]; lia]).
  pose proof (blen_nonneg (ws_body mask payload)) as Hb0.
  unfold ws_pass. unfold bind at 1, gets at 1. rewrite (bool_decide_eq_true_2 _ Hst). unfold ws_bytes, ws_length in Hs.
  destruct (Z.ltb_spec (blen payload) 126) as [Hshort|Hlong]; cbn [app] in Hs; fold (ws_body mask payload) in Hs.
  - destruct (length_bits (blen payload) (bool_decide (is_Some mask))) as [L1 L2]; [lia|].
    set (n := _ + blen payload) in *. set (s := _ :: n :: _) in Hs.
    destruct (getb_two (128 + o) n (ws_body mask payload ++ extra)) as (G0 & G1 & G2). fold s in G0, G1, G2.
    destruct (stage_eq _ _ _ (decode_header_spec c s Hs ltac:(unfold s; rewrite !blen_cons, blen_app; lia)))
      as (r & c2 & E2 & -> & bl2 & d & Hbl2 & ->). rewrite G0, G1, G2, L1, L2, opcode_bits in * by done.
    erewrite bind_Ok by exact E2. cbv iota. unfold length_state in *.
    destruct (Z.eqb_spec (blen payload) 126); [lia|]. destruct (Z.eqb_spec (blen payload) 127); [lia|].
    set (c2 := at_state _ _ _ _) in *. do 2 (erewrite bind_Ok; [|by apply when_miss]).
    destruct (body_decoded token c2 o mask payload extra d) as (bl & Hbl & E); try done.
    exists bl. split; [done|]. rewrite E. unfold c2. by rewrite at_state_twice.
  - destruct (length_bits 126 (bool_decide (is_Some mask))) as [L1 L2]; [lia|].
    set (n := _ + 126) in *. set (s := _ :: n :: _) in Hs. set (s2 := _ :: _ :: _ ++ extra) in s.
    destruct (getb_two (128 + o) n s2) as (G0 & G1 & G2). fold s in G0, G1, G2.
    destruct (getb_two (blen payload / 256) (blen payload mod 256) (ws_body mask payload ++ extra)) as (K0 & K1 & K2). fold s2 in K0, K1, K2.
    destruct (stage_eq _ _ _ (decode_header_spec c s Hs ltac:(unfold s, s2; rewrite !blen_cons, blen_app; lia)))
      as (r & c2 & E2 & -> & bl2 & d & Hbl2 & ->). rewrite G0, G1, G2, L1, L2, opcode_bits in * by done.
    erewrite bind_Ok by exact E2. cbv iota. change (length_state 126) with WAITING_FOR_16_BIT_LENGTH. set (c2 := at_state _ _ _ _) in *.
    destruct (stage_eq _ _ _ (length16_spec c2 s2 Hbl2 ltac:(unfold s2; rewrite !blen_cons, blen_app; lia)))
      as ([] & c3 & E3 & bl3 & d3 & Hbl3 & ->). rewrite K0, K1, K2 in *.
    rewrite !u8_small, lor_shift8 in * by (unfold is_byte; Z.div_mod_to_equations; lia).
    replace (blen payload / 256 * 256 + blen payload mod 256) with (blen payload) in * by (Z.div_mod_to_equations; lia).
    erewrite bind_Ok; [|rewrite when_hit by done; exact E3]. set (c3 := at_state _ _ _ WAITING_FOR_MASK_KEY) in *.
    erewrite bind_Ok; [|by apply when_miss].
    destruct (body_decoded token c3 o mask payload extra d3) as (bl & Hbl & E); try done.
    exists bl. split; [done|]. rewrite E. unfold c3, c2. by rewrite !at_state_twice.
Qed.

(** ** What a connection may do *)

(** the text frames handled, first to last; what a client said after it
    presented the token; and the session run on that *)
Definition texts (c : ws_conn) : list (list Z) := map f_data (List.filter (fun f => f_opcode f =? 1) (rev (ws_frames c))).
Fixpoint after_token (token : list Z) (ts : list (list Z)) : option (list (list Z)) :=
  match ts with
  | [] => None
  | t :: ts => if bool_decide (t = token) then Some ts else after_token token ts
  end.
Fixpoint called (ls : list (list Z)) (a : A) : outcome A :=
  match ls with [] => Ok a | l :: ls => try r := callback l a in called ls r.2 end.

(** the session [a] is reached exactly by what came after the token *)
Definition guarded (token : list Z) (a : A) (c : ws_conn) : Prop :=
  match after_token token (texts c) with
  | Some ls => ws_authed c = true /\ called ls a = Ok (ws_app c)
  | None => ws_authed c = false /\ ws_app c = a
  end.
Lemma guarded_same token a c c' :
  ws_frames c' = ws_frames c -> ws_authed c' = ws_authed c -> ws_app c' = ws_app c -> guarded token a c -> guarded token a c'.
Proof. intros E1 E2 E3. unfold guarded, texts. by rewrite E1, E2, E3. Qed.

Lemma after_token_app token ts t : after_token token (ts ++ [t]) =
  match after_token token ts with
  | Some ls => Some (ls ++ [t])
  | None => if bool_decide (t = token) then Some [] else None
  end.
Proof. induction ts as [|x ts IH]; cbn; [done|]. by destruct (bool_decide (x = token)). Qed.
Lemma after_token_spec token ts :
  match after_token token ts with
  | Some ls => exists before, ts = before ++ token :: ls /\ token ∉ before
  | None => token ∉ ts
  end.
Proof.
  induction ts as [|t ts IH]; cbn; [apply not_elem_of_nil|]. case_bool_decide as E; [subst; exists []; split; [done|apply not_elem_of_nil]|].
  destruct (after_token token ts) as [ls|]; [|by rewrite not_elem_of_cons]. destruct IH as (b & -> & Hb). exists (t :: b). by rewrite not_elem_of_cons.
Qed.
Lemma called_app ls l a : called (ls ++ [l]) a = obind (called ls a) (fun a => try r := callback l a in Ok r.2).
Proof. revert a. induction ls as [|x ls IH]; intros a; cbn; [done|]. destruct (callback x a); [apply IH|done]. Qed.
Lemma texts_cons c f c' : ws_frames c' = f :: ws_frames c -> texts c' = texts c ++ (if f_opcode f =? 1 then [f_data f] else []).
Proof. intros E. unfold texts. rewrite E. cbn [rev]. rewrite List.filter_app, map_app. cbn. by destruct (f_opcode f =? 1). Qed.

Lemma feed_respects {S} (R : relation S) `{!PreOrder R} cb : (forall l, respects R (cb l)) -> forall fuel b, respects R (feed_loop cb fuel b).
Proof.
  intros Hcb. induction fuel as [|fuel IH]; intros b; cbn [feed_loop]; destruct (find b 10); repeat respects_step; auto.
Qed.

(** an answer is written and nothing else changes *)
Lemma answer_same x r c c' : match x with [] => ret tt | _ => sendText x end c = Ok (r, c') ->
  ws_frames c' = ws_frames c /\ ws_authed c' = ws_authed c /\ ws_app c' = ws_app c.
Proof.
  destruct x as [|b x]; [by intros [= _ <-]|]. unfold sendText, setws, modify.
  destruct (_ <? 126); [by intros [= _ <-]|]. destruct (_ <? 65536); by intros [= _ <-].
Qed.

Lemma onFrame_guarded token a : respects (stays (guarded token a)) (onFrame token).
Proof.
  intros c r c'. unfold onFrame, bind, gets, id, setws, modify. set (f := ws_frame c). set (c1 := c <| ws_frames ::= cons f |>).
  intros H G. assert (T : forall c', ws_frames c' = f :: ws_frames c -> f_opcode f <> 1 -> texts c' = texts c).
  { intros x Ex Hn. rewrite (texts_cons c f x Ex). destruct (Z.eqb_spec (f_opcode f) 1); [done|apply app_nil_r]. }
  destruct (Z.eqb_spec (f_opcode f) 8) as [E8|_]; [injection H as _ <-; unfold guarded; erewrite T; [exact G|reflexivity|lia]|].
  destruct (Z.eqb_spec (f_opcode f) 1) as [Eo|Eo]; cbn [negb] in H; [|injection H as _ <-; unfold guarded; erewrite T; [exact G|reflexivity|lia]].
  unfold guarded in G |- *. destruct (after_token token (texts c)) as [ls|] eqn:Et; destruct G as [Ga Gc]; rewrite Ga in H.
  - unfold ws_call in H. change (ws_app c1) with (ws_app c) in H.
    destruct (callback (f_data f) (ws_app c)) as [[x b]|] eqn:Ec; [|done]. apply answer_same in H as (F1 & F2 & F3).
    rewrite (texts_cons c f c') by exact F1. rewrite Eo. cbn [Z.eqb Pos.eqb]. rewrite after_token_app, Et, called_app, Gc. cbn. rewrite Ec, F2, F3.
    split; [exact Ga|reflexivity].
  - case_bool_decide as Ef; unfold ret at 1 in H; [apply (answer_same AUTHORIZED) in H|apply (answer_same UNAUTHORIZED) in H]; destruct H as (F1 & F2 & F3);
      rewrite (texts_cons c f c') by exact F1; rewrite Eo; cbn [Z.eqb Pos.eqb]; rewrite after_token_app, Et.
    + rewrite bool_decide_eq_true_2 by done. rewrite F2, F3. split; [done|]. cbn. by rewrite <- Gc.
    + rewrite bool_decide_eq_false_2 by done. rewrite F2, F3. by split.
Qed.
#[local] Hint Resolve onFrame_guarded : respects.
Lemma setws_guarded token a f : (forall c, ws_frames (f c) = ws_frames c /\ ws_authed (f c) = ws_authed c /\ ws_app (f c) = ws_app c) ->
  respects (stays (guarded token a)) (setws f).
Proof. intros Hf c r c' [= _ <-]. destruct (Hf c) as (? & ? & ?). intros G; by apply (guarded_same token a c). Qed.
#[local] Hint Extern 1 (respects (stays (guarded _ _)) (setws _)) => (apply setws_guarded; intros ?; by repeat split) : respects.

Lemma ws_pass_guarded token a : respects (stays (guarded token a)) (ws_pass token).
Proof.
  unfold ws_pass, when, decode_header, length16, length64, mask_key, ws_payload, consume, byte_at, setframe, setstate.
  solve_respects.
Qed.
#[local] Hint Resolve ws_pass_guarded : respects.
Lemma ws_loop_guarded fuel token a : respects (stays (guarded token a)) (ws_loop fuel token).
Proof. induction fuel; cbn [ws_loop]; solve_respects. Qed.
Lemma ws_http_guarded token a l : respects (stays (guarded token a)) (ws_http l).
Proof. unfold ws_http, ws_line, ws_send, sendFile. solve_respects. Qed.
#[local] Hint Resolve ws_loop_guarded ws_http_guarded : respects.
Lemma ws_data_guarded token a d n : respects (stays (guarded token a)) (ws_data token d n).
Proof.
  unfold ws_data, feed. pose proof (fun fuel b => feed_respects (stays (guarded token a)) ws_http (ws_http_guarded token a) fuel b).
  repeat respects_step; auto.
Qed.

(** blocks one after the other *)
Fixpoint ws_run (token : list Z) (blocks : list (list Z * Z)) : SE ws_conn unit :=
  match blocks with [] => ret tt | (d, n) :: blocks => ws_data token d n ;;; ws_run token blocks end.
Lemma ws_run_respects (R : relation ws_conn) `{!PreOrder R} token : (forall d n, respects R (ws_data token d n)) ->
  forall bs, respects R (ws_run token bs).
Proof. intros H bs. induction bs as [|[d n] bs IH]; cbn [ws_run]; [apply (respects_ret R)|]. apply (respects_bind R); auto. Qed.

(** only files below [http_root] are opened *)
Definition rooted (f : list Z) : Prop := exists name, f = text "http_root/" ++ name /\ has_dotdot name = false.
Definition opens_rooted (c c' : ws_conn) : Prop := Forall rooted (ws_opened c) -> Forall rooted (ws_opened c').
#[local] Instance opens_preorder : PreOrder opens_rooted.
Proof. split; [by intros ? ?|]. intros c1 c2 c3 H1 H2 H. auto. Qed.
Lemma opens_same c c' : ws_opened c' = ws_opened c -> opens_rooted c c'.
Proof. unfold opens_rooted. by intros ->. Qed.
Lemma setws_opens f : (forall c, ws_opened (f c) = ws_opened c) -> respects opens_rooted (setws f).
Proof. intros Hf c r c' [= _ <-]. by apply opens_same. Qed.
#[local] Hint Extern 1 (respects opens_rooted (setws _)) => (apply setws_opens; done) : respects.

Lemma sendFile_opens p : respects opens_rooted (sendFile p).
Proof.
  unfold sendFile. destruct (has_dotdot p) eqn:E; [apply (respects_ret opens_rooted)|].
  intros c r c' [= _ <-] H. constructor; [|done]. eexists. split; [done|]. by destruct p.
Qed.
Lemma onFrame_opens token : respects opens_rooted (onFrame token).
Proof.
  unfold onFrame, sendText. repeat respects_step; auto with respects.
  intros c r c'. unfold ws_call. destruct (callback _ _) as [[? ?]|]; [|done]. intros [= _ <-]. by apply opens_same.
Qed.
#[local] Hint Resolve sendFile_opens onFrame_opens : respects.
Lemma ws_pass_opens token : respects opens_rooted (ws_pass token).
Proof.
  unfold ws_pass, when, decode_header, length16, length64, mask_key, ws_payload, consume, byte_at, setframe, setstate.
  solve_respects.
Qed.
#[local] Hint Resolve ws_pass_opens : respects.
Lemma ws_loop_opens fuel token : respects opens_rooted (ws_loop fuel token).
Proof. induction fuel; cbn [ws_loop]; solve_respects. Qed.
Lemma ws_http_opens l : respects opens_rooted (ws_http l).
Proof. unfold ws_http, ws_line, ws_send. solve_respects. Qed.
#[local] Hint Resolve ws_loop_opens ws_http_opens : respects.
Lemma ws_data_opens token d n : respects opens_rooted (ws_data token d n).
Proof.
  unfold ws_data, feed. pose proof (fun fuel b => feed_respects opens_rooted ws_http ws_http_opens fuel b).
  repeat respects_step; auto.
Qed.

(** ** The loop ends *)

(** the run does not end for want of fuel, and a result satisfies [Q] *)
Definition fwp {S B} (m : SE S B) (Q : B -> S -> Prop) (s : S) : Prop :=
  match m s with Ok (b, s') => Q b s' | Stop f => f <> OutOfFuel end.
Lemma fwp_bind {S B C} (m : SE S B) (k : B -> SE S C) Q s : fwp m (fun b => fwp (k b) Q) s -> fwp (bind m k) Q s.
Proof. unfold fwp, bind. by destruct (m s) as [[b s']|]. Qed.
Lemma fwp_mono {S B} (m : SE S B) (P Q : B -> S -> Prop) s : fwp m P s -> (forall b s', P b s' -> Q b s') -> fwp m Q s.
Proof. unfold fwp. destruct (m s) as [[b s']|]; auto. Qed.
Lemma fwp_gets {S B} (f : S -> B) (Q : B -> S -> Prop) s : Q (f s) s -> fwp (gets f) Q s.
Proof. done. Qed.
Lemma fwp_modify {S} (f : S -> S) (Q : unit -> S -> Prop) s : Q tt (f s) -> fwp (modify f) Q s.
Proof. done. Qed.
Lemma fwp_lift {S B} (o : outcome B) (Q : B -> S -> Prop) s : o <> Stop OutOfFuel -> (forall b, o = Ok b -> Q b s) -> fwp (lift o) Q s.
Proof. unfold fwp, lift. destruct o as [b|f]; [auto|]. intros H _ E. by destruct H; rewrite E. Qed.

Lemma get_fuel bl k : get bl k <> Stop OutOfFuel.
Proof.
  unfold get. generalize (u32 (k + offset bl)) 0. generalize (sizeList bl). induction (blocks bl) as [|b bs IH]; intros [|n ns] x l; try done.
  cbn [get_loop]. destruct (_ <=? _); [|apply IH]. unfold READ_NET8. by destruct (_ && _).
Qed.
Lemma copy_fuel bl n : forall k, copy_bytes bl k n <> Stop OutOfFuel.
Proof.
  induction n as [|n IH]; intros k; [done|]. cbn [copy_bytes]. pose proof (get_fuel bl k). destruct (get bl k); [|by intros [= ->]].
  cbn [obind]. specialize (IH (u32 (k + 1))). destruct (copy_bytes _ _ _); [done|by intros [= ->]].
Qed.

Lemma advance_some bl n : wf bl -> 0 <= n <= size bl ->
  match advance bl n with Ok bl' => wf bl' /\ size bl' = size bl - n | Stop f => f <> OutOfFuel end.
Proof.
  intros Hw Hn. destruct (Z.eq_dec n (size bl)) as [->|Hne]; [by rewrite advance_all_stops|].
  destruct (advance_spec bl n Hw) as (bl' & -> & Hw' & Hc); [lia|]. split; [done|].
  rewrite !size_content, Hc in * by done. rewrite blen_ptr by lia. lia.
Qed.

Definition sane (c : ws_conn) : Prop := wf (ws_bl c) /\ 0 <= f_length (ws_frame c).
Definition shrinks {B} (m : SE ws_conn B) : Prop :=
  forall c, sane c -> fwp m (fun _ c' => sane c' /\ size (ws_bl c') <= size (ws_bl c)) c.
Lemma shrinks_bind {B C} (m : SE ws_conn B) (k : B -> SE ws_conn C) : shrinks m -> (forall b, shrinks (k b)) -> shrinks (bind m k).
Proof.
  intros Hm Hk c Hw. apply fwp_bind. eapply fwp_mono; [by apply Hm|]. intros b c1 [Hw1 H1].
  eapply fwp_mono; [by apply Hk|]. intros x c2 [Hw2 H2]. split; [done|lia].
Qed.
(** the same blocks and length *)
Definition same_input (c c' : ws_conn) : Prop := ws_bl c' = ws_bl c /\ f_length (ws_frame c') = f_length (ws_frame c).
Lemma shrinks_same {B} (m : SE ws_conn B) : (forall c, fwp m (fun _ c' => same_input c c') c) -> shrinks m.
Proof. intros H c [Hw Hl]. eapply fwp_mono; [apply H|]. intros b c' [E1 E2]. unfold sane. rewrite E1, E2. split; [done|lia]. Qed.
Lemma size_bound bl : 0 <= size bl < 4294967296.
Proof. unfold size, u32. apply Z.mod_pos_bound. lia. Qed.

Lemma consume_fwp n c : wf (ws_bl c) -> 0 <= n <= size (ws_bl c) ->
  fwp (consume n) (fun _ c' => wf (ws_bl c') /\ size (ws_bl c') = size (ws_bl c) - n /\ ws_frame c' = ws_frame c) c.
Proof.
  intros Hw Hn. pose proof (advance_some _ _ Hw Hn) as H. unfold consume, fwp, bind, gets, lift, setws, modify.
  destruct (advance (ws_bl c) n); [|done]. by destruct H.
Qed.
Lemma byte_at_fwp k c (Q : Z -> ws_conn -> Prop) : (forall b, Q b c) -> fwp (byte_at k) Q c.
Proof. intros HQ. unfold byte_at, fwp, bind, gets, lift. pose proof (get_fuel (ws_bl c) k). destruct (get (ws_bl c) k); [apply HQ|congruence]. Qed.

Lemma decode_header_fwp c : wf (ws_bl c) ->
  fwp decode_header (fun r c' => r = true \/ (sane c' /\ size (ws_bl c') + 2 <= size (ws_bl c))) c.
Proof.
  intros Hw. unfold decode_header. apply fwp_bind, fwp_gets.
  destruct (Z.leb_spec 2 (size (ws_bl c))); [|by left]. apply fwp_bind, byte_at_fwp. intros a. apply fwp_bind, byte_at_fwp. intros b.
  cbv zeta. apply fwp_bind, fwp_modify, fwp_bind. assert (Hb : 0 <= Z.land b 127) by (apply Z.land_nonneg; lia).
  apply fwp_mono with (P := fun _ c1 => ws_bl c1 = ws_bl c /\ f_length (ws_frame c1) = Z.land b 127);
    [by destruct (_ =? 126); [|destruct (_ =? 127)]|]. intros [] c1 [E El].
  apply fwp_bind. eapply fwp_mono; [apply consume_fwp; rewrite ?E; [done|lia]|]. intros [] c2 (Hw2 & H2 & Hf). right.
  unfold sane. rewrite Hf, El. rewrite E in H2. split; [done|lia].
Qed.

Lemma length16_shrinks : shrinks length16.
Proof.
  intros c [Hw Hl]. unfold length16. apply fwp_bind, fwp_gets. destruct (Z.leb_spec 2 (size (ws_bl c))); [|by split; [|lia]].
  apply fwp_bind, byte_at_fwp. intros a. apply fwp_bind, byte_at_fwp. intros b. cbv zeta.
  assert (Hn : 0 <= Z.lor (Z.shiftl (u8 a) 8) (u8 b)).
  { apply Z.lor_nonneg. pose proof (u8_byte a) as Ha. pose proof (u8_byte b) as Hb. unfold is_byte in *. rewrite Z.shiftl_nonneg. lia. }
  apply fwp_bind, fwp_modify, fwp_bind.
  eapply fwp_mono; [apply consume_fwp; [done|cbn; lia]|]. intros [] c2 (Hw2 & H2 & Hf). apply fwp_modify. unfold sane. cbn in *.
  rewrite Hf. cbn. split; [done|]. lia.
Qed.
Lemma length64_shrinks : shrinks length64.
Proof.
  apply shrinks_same. intros c. unfold length64. apply fwp_bind, fwp_gets. destruct (8 <=? size (ws_bl c)); [|done].
  apply fwp_bind, byte_at_fwp. intros a. done.
Qed.
Lemma mask_key_shrinks : shrinks mask_key.
Proof.
  intros c [Hw Hl]. unfold mask_key. apply fwp_bind, fwp_gets. destruct (f_mask (ws_frame c)); [|split; [done|cbn; lia]].
  apply fwp_bind, fwp_gets. destruct (Z.leb_spec 4 (size (ws_bl c))); [|by split; [|lia]].
  apply fwp_bind, fwp_lift; [apply copy_fuel|]. intros m _. apply fwp_bind, fwp_modify, fwp_bind.
  eapply fwp_mono; [apply consume_fwp; [done|cbn; lia]|]. intros [] c2 (Hw2 & H2 & Hf). apply fwp_modify. unfold sane. cbn in *.
  rewrite Hf. cbn. split; [done|]. lia.
Qed.

Hypothesis callback_ends : forall l a, callback l a <> Stop OutOfFuel.

Lemma onFrame_shrinks token : shrinks (onFrame token).
Proof using callback_ends.
  apply shrinks_same. intros c. unfold onFrame. apply fwp_bind, fwp_gets. unfold id. apply fwp_bind, fwp_modify. destruct (_ =? 8); [done|]. destruct (negb _); [done|].
  apply fwp_bind. apply fwp_mono with (P := fun _ c1 => same_input c c1).
  { destruct (ws_authed c); [|by case_bool_decide]. unfold fwp, ws_call. cbn [ws_app set eta_ws]. pose proof (callback_ends (f_data (ws_frame c)) (ws_app c)).
    destruct (callback _ _) as [[? ?]|]; [done|congruence]. }
  intros x c1 E. destruct x as [|x0 x]; [done|]. unfold sendText. destruct (_ <? 126); [done|]. by destruct (_ <? 65536).
Qed.
Lemma ws_payload_shrinks token : shrinks (ws_payload token).
Proof using callback_ends.
  intros c [Hw Hl0]. unfold ws_payload. do 2 apply fwp_bind, fwp_gets.
  destruct (Z.leb_spec (f_length (ws_frame c)) (size (ws_bl c))) as [Hl|]; [|by split; [|lia]].
  pose proof (size_bound (ws_bl c)). rewrite u32_small by lia.
  apply fwp_bind, fwp_lift; [apply copy_fuel|]. intros d _. apply fwp_bind.
  eapply fwp_mono; [apply consume_fwp; [done|lia]|]. intros [] c1 (Hw1 & H1 & Hf1). do 2 apply fwp_bind, fwp_modify.
  eapply fwp_mono; [apply onFrame_shrinks; split; [done|]; cbn; by rewrite Hf1|]. cbn. intros [] c2 [Hs2 H2]. split; [done|lia].
Qed.
Lemma when_shrinks st m : shrinks m -> shrinks (when st m).
Proof. intros H c Hc. apply fwp_bind, fwp_gets. case_bool_decide; [by apply H|]. split; [done|lia]. Qed.

Lemma ws_pass_fwp token c : sane c ->
  fwp (ws_pass token) (fun r c' => r = true \/ (sane c' /\
    size (ws_bl c') + (if bool_decide (wsState c = WAIT_DECODE_HEADER) then 2 else 0) <= size (ws_bl c))) c.
Proof using callback_ends.
  intros Hc. unfold ws_pass. apply fwp_bind, fwp_gets. apply fwp_bind.
  eapply fwp_mono with (P := fun r c' => r = true \/ (sane c' /\
    size (ws_bl c') + (if bool_decide (wsState c = WAIT_DECODE_HEADER) then 2 else 0) <= size (ws_bl c))).
  { case_bool_decide; [apply decode_header_fwp, Hc|]. right. split; [done|lia]. }
  intros r c1 H1. destruct r; [by left|]. destruct H1 as [|[Hs1 H1]]; [done|].
  assert (Hrest : shrinks (when WAITING_FOR_16_BIT_LENGTH length16 ;;; when WAITING_FOR_64_BIT_LENGTH length64 ;;;
    when WAITING_FOR_MASK_KEY mask_key ;;; when WAITING_FOR_PAYLOAD (ws_payload token) ;;; ret false)).
  { repeat (apply shrinks_bind; [apply when_shrinks; auto using length16_shrinks, length64_shrinks, mask_key_shrinks, ws_payload_shrinks|intros _]).
    apply shrinks_same. done. }
  eapply fwp_mono; [by apply Hrest|]. intros r c2 [Hs2 H2]. right. split; [done|lia].
Qed.

Lemma ws_loop_fwp token fuel : forall c, sane c ->
  size (ws_bl c) + (if bool_decide (wsState c = WAIT_DECODE_HEADER) then 0 else 2) < 2 * Z.of_nat fuel ->
  fwp (ws_loop fuel token) (fun _ _ => True) c.
Proof using callback_ends.
  induction fuel as [|fuel IH]; intros c Hc Hf; cbn [ws_loop].
  { pose proof (size_bound (ws_bl c)). case_bool_decide; lia. }
  apply fwp_bind. eapply fwp_mono; [by apply ws_pass_fwp|]. intros r c1 H1. destruct r; [done|]. destruct H1 as [|[Hs1 H1]]; [done|].
  apply fwp_bind, fwp_gets. destruct (decide (wsState c1 = WAIT_DECODE_HEADER)) as [E|E]; [|by rewrite (bool_decide_eq_false_2 _ E)].
  rewrite (bool_decide_eq_true_2 _ E). apply IH; [done|]. rewrite (bool_decide_eq_true_2 _ E). case_bool_decide; lia.
Qed.

Lemma ws_http_fwp l c : fwp (ws_http l) (fun _ _ => True) c.
Proof.
  unfold ws_http. apply fwp_bind. apply fwp_mono with (P := fun _ _ => True); [|by intros [|] ?].
  unfold ws_line. apply fwp_bind, fwp_gets. unfold id, sendFile.
  destruct (wsState c); try done; repeat (case_match; try done).
Qed.
Lemma deliver_fwp ls : forall c, fwp (deliver ws_http ls) (fun _ _ => True) c.
Proof.
  induction ls as [|l ls IH]; intros c; cbn [deliver]; [done|]. apply fwp_bind, fwp_lift.
  - unfold chomp. by destruct (l !! _).
  - intros line _. apply fwp_bind. eapply fwp_mono; [apply ws_http_fwp|]. intros [] c' _. apply IH.
Qed.

(** ** Properties *)

(** C40. Handling a block ends: no state of the connection and no received bytes
    make its loops run forever, as long as the session answers. *)
Theorem ws_data_ends token c data n :
  sane c -> 0 <= n <= blen data -> totalSize (ws_bl c) + n < 4294967296 ->
  ws_data token data n c <> Stop OutOfFuel.
Proof using callback_ends.
  intros [Hw Hl] Hn Ht. enough (H : fwp (ws_data token data n) (fun _ _ => True) c).
  { unfold fwp in H. intros E. by rewrite E in H. }
  unfold ws_data. apply fwp_bind, fwp_gets. unfold id.
  destruct (add_content (ws_bl c) data n Hw Hn Ht) as [Hwa _]. set (bl := add _ _ _) in *.
  assert (Hloop : fwp (setws (set ws_bl (fun _ => bl)) ;;; ws_loop (S (S (Z.to_nat (totalSize bl)))) token) (fun _ _ => True) c).
  { apply fwp_bind, fwp_modify. apply ws_loop_fwp; [done|]. cbn [ws_bl set]. unfold size. destruct Hwa as [_ [? ?] ?].
    change (ws_bl (c <| ws_bl := bl |>)) with bl. rewrite u32_small by lia. case_bool_decide; lia. }
  destruct (wsState c); try exact Hloop; try done;
    (apply fwp_bind; eapply fwp_mono with (P := fun _ _ => True); [|done]; unfold feed, fwp;
     rewrite (feed_loop_spec ws_http) by done; apply (fwp_bind (deliver ws_http _)); eapply fwp_mono; [apply deliver_fwp|done]).
Qed.


(** Whatever a client sends, the connection opens no file but one named
    below [http_root], with a name in which no two dots follow each other. *)
Theorem ws_files_rooted token bs c c' :
  Forall rooted (ws_opened c) -> ws_run token bs c = Ok (tt, c') -> Forall rooted (ws_opened c').
Proof. intros Hc H. by apply (ws_run_respects opens_rooted token (ws_data_opens token) bs _ _ _ H). Qed.

(** The handshake.  At the empty line that ends a request for the root with
    the headers of a WebSocket client, the connection answers with the digest of
    the client's key and the protocol's identifier, SHA-1 and base 64 as the
    standards have them, and expects frames from then on. *)
Theorem ws_handshake c :
  let h := ws_headers c in let key := header h "sec-websocket-key" in
  wsState c = WAIT_HTTP -> ws_path c = text "/" -> header h "upgrade" = text "websocket" -> header h "connection" = text "Upgrade" ->
  header h "sec-websocket-version" = text "13" -> header h "sec-websocket-protocol" = text "switch-lan-play-rpc" ->
  bytes key -> 0 < blen key < 4000000000 ->
  ws_http [] c = Ok (tt, c <| wsState := WAIT_DECODE_HEADER |> <| ws_written ::= cons
    (HTTP_RESP_101_PART ++ Rfc4648.encode (Fips.sha1 (key ++ WS_GUID)) ++ CRLF ++ CRLF) |>).
Proof.
  intros h key Hst Hp Hu Hc Hv Hpr Hb Hk. unfold ws_http, bind at 1, ws_line. unfold bind at 1, gets, id. rewrite Hst. fold h. fold key.
  unfold eqs. rewrite Hp, Hu, Hc, Hv, Hpr, !bool_decide_eq_true_2 by done. cbn [andb].
  destruct (Z.ltb_spec 0 (blen key)); [|lia].
  assert (Hg : bytes WS_GUID) by (apply sample_bytes; reflexivity).
  assert (Hl : blen (key ++ WS_GUID) = blen key + 36) by (rewrite blen_app; done).
  rewrite u32_small by lia.
  assert (E : base64_encode (SHA1Final (SHA1Update SHA1Init (key ++ WS_GUID) (blen (key ++ WS_GUID)))) =
    Rfc4648.encode (Fips.sha1 (key ++ WS_GUID))).
  { assert (Hb2 : bytes (key ++ WS_GUID)) by (by apply Forall_app_2).
    rewrite (final_spec _ (key ++ WS_GUID)); [|apply (update_spec SHA1Init [] (key ++ WS_GUID)); [apply hashed_init|done|lia|]|lia].
    - apply encode_rfc. apply sha1_bytes.
    - change (blen []) with 0. lia. }
  rewrite E. generalize (Rfc4648.encode (Fips.sha1 (key ++ WS_GUID))). intros accept. by destruct c.
Qed.

(** What the server sends is a frame that the same decoder reads back: the
    two pieces written for a text of up to 65535 bytes are together one unmasked
    text frame with that payload. *)
Theorem ws_text_sent txt c : blen txt <= 65535 ->
  exists header, sendText txt c = Ok (tt, c <| ws_written ::= fun o => txt :: header :: o |>) /\ header ++ txt = ws_bytes 1 None txt.
Proof.
  intros Hs. pose proof (blen_nonneg txt) as H0. unfold sendText, setws, modify, ws_bytes, ws_length.
  rewrite bool_decide_eq_false_2 by (intros [? ?]; done). destruct (Z.ltb_spec (blen txt) 126).
  - eexists. split; [done|]. cbn [app]. destruct (length_bits (blen txt) false) as [L _]; [lia|]. cbn in L. rewrite Z.add_0_l in L. by rewrite L, Z.add_0_l.
  - destruct (Z.ltb_spec (blen txt) 65536); [|lia]. eexists. split; [done|]. cbn [app]. do 3 f_equal.
    + unfold u8. rewrite Z.shiftr_div_pow2 by lia. change (2 ^ 8) with 256. apply Z.mod_small. Z.div_mod_to_equations; lia.
Qed.

(** ** Plain connections *)

(** the replies of the session to lines, each with the mark that ends it *)
Definition framed (r : list Z) : list Z := r ++ [10] ++ text "# end" ++ [10].
Fixpoint answers (ls : list (list Z)) (a : A) : outcome (list (list Z) * A) :=
  match ls with
  | [] => Ok ([], a)
  | l :: ls =>
      match callback l a with
      | Stop f => Stop f
      | Ok (r, a) => try x := answers ls a in Ok (framed r :: x.1, x.2)
      end
  end.

Lemma framed_cons r : exists x l, framed r = x :: l.
Proof. unfold framed. destruct r; by eexists _, _. Qed.
Lemma tcp_line_eq token line c : tcp_line token line c =
  if tcp_authed c then
    match callback line (tcp_app c) with
    | Stop f => Stop f
    | Ok (r, a) => Ok (tt, c <| tcp_app := a |> <| tcp_written ::= cons (framed r) |>)
    end
  else if bool_decide (line = token) then Ok (tt, c <| tcp_authed := true |> <| tcp_written ::= cons (framed AUTHORIZED) |>)
  else Ok (tt, c <| tcp_written ::= cons (framed UNAUTHORIZED) |>).
Proof.
  unfold tcp_line, bind, gets, tcp_call. assert (Hs : forall r c1, tcp_send (framed r) c1 = Ok (tt, c1 <| tcp_written ::= cons (framed r) |>)).
  { intros r c1. unfold tcp_send. destruct (framed_cons r) as (x & l & ->). done. }
  destruct (tcp_authed c); [destruct (callback line (tcp_app c)) as [[r a]|]; [apply Hs|done]|].
  case_bool_decide; [unfold modify, ret at 1; apply Hs|unfold ret at 1; apply Hs].
Qed.

Lemma authed_session token ls : forall c, tcp_authed c = true ->
  each (tcp_line token) ls c = match answers ls (tcp_app c) with
    | Ok (out, a) => Ok (tt, c <| tcp_app := a |> <| tcp_written ::= app (rev out) |>)
    | Stop f => Stop f
    end.
Proof.
  induction ls as [|l ls IH]; intros c Ha; cbn [each answers]; [by destruct c|]. unfold bind. rewrite tcp_line_eq, Ha.
  destruct (callback l (tcp_app c)) as [[r a]|]; [|done]. rewrite IH by done. cbn. destruct (answers ls a) as [[out a']|]; [|done].
  cbn. f_equal. f_equal. destruct c. unfold set. cbn. f_equal. by rewrite <- app_assoc.
Qed.

(** A session over a plain connection.  Every line before the token is
    refused and does not reach the session; the token is acknowledged; every line
    after it is answered by the session, in order; each answer ends with its
    mark. *)
Theorem tcp_session token pre post c : tcp_authed c = false -> token ∉ pre ->
  each (tcp_line token) (pre ++ token :: post) c = match answers post (tcp_app c) with
    | Ok (out, a) => Ok (tt, c <| tcp_authed := true |> <| tcp_app := a |> <| tcp_written ::=
        app (rev (map (fun _ => framed UNAUTHORIZED) pre ++ framed AUTHORIZED :: out)) |>)
    | Stop f => Stop f
    end.
Proof.
  revert c. induction pre as [|l pre IH]; intros c Ha Hn; cbn [each app map]; unfold bind.
  - rewrite tcp_line_eq, Ha, bool_decide_eq_true_2 by done. rewrite authed_session by done. cbn.
    destruct (answers post (tcp_app c)) as [[out a]|]; [|done]. f_equal. f_equal. destruct c. unfold set. cbn. f_equal.
    by rewrite <- app_assoc.
  - rewrite tcp_line_eq, Ha. apply not_elem_of_cons in Hn as [Hl Hn]. rewrite bool_decide_eq_false_2 by congruence.
    rewrite IH by done. cbn. destruct (answers post (tcp_app c)) as [[out a]|]; [|done]. f_equal. f_equal.
    destruct c. unfold set. cbn. f_equal. by rewrite <- app_assoc.
Qed.
End Connections.

(** ** Witnesses *)

(** a session that remembers the lines it was given *)
Definition recorder (line : list Z) : SE (list (list Z)) (list Z) := modify (cons line) ;;; ret (text "ok").
Definition sample_frame : WSFrame := mkFrame 0 false 0 [0; 0; 0; 0] [].
Definition sample_ws (st : WSCState) (authed : bool) (bl : buffer_list) (h : gmap (list Z) (list Z)) : ws_conn (A := list (list Z)) :=
  mkWs st authed (text "/") h [] bl sample_frame [] [] [] [] false.

Lemma ws_frame_witness :
  let c := sample_ws WAIT_DECODE_HEADER true (mkBufferList [ws_bytes 1 (Some [9; 8; 7; 6]) (text "status") ++ [129]] [13] 13 0) ∅ in
  exists bl, holds_one bl [129] /\ ws_pass recorder [] c =
    (onFrame recorder [] ;;; ret false) (at_state c bl (ws_decoded 1 (Some [9; 8; 7; 6]) (text "status")) WAIT_DECODE_HEADER).
Proof.
  intros c. apply ws_frame_decoded; try done.
  - eexists _, _, _. split; [reflexivity|]. vm_compute. intuition congruence.
  - by intros m [= <-].
Defined.

Lemma ws_ends_witness : ws_data recorder [] [1; 128; 3] 3 (sample_ws WAIT_DECODE_HEADER true new ∅) <> Stop OutOfFuel.
Proof.
  apply ws_data_ends; [done| |done|done]. split; [|done]. split; cbn; [constructor|lia|lia].
Defined.

(** a wrong token, the token and a command, with one byte behind them *)
Definition sample_blocks : list (list Z * Z) :=
  let d := ws_bytes 1 (Some [9; 8; 7; 6]) (text "stop") ++ ws_bytes 1 (Some [1; 2; 3; 4]) (text "key") ++ ws_bytes 1 None (text "status") ++ [129] in [(d, blen d)].

Lemma ws_files_witness :
  match ws_run recorder [] [(text "GET /app.js HTTP/1.1" ++ CRLF ++ CRLF, 24)] (sample_ws DO_HEADER false new ∅) with
  | Ok (_, c') => Forall rooted (ws_opened c') /\ ws_opened c' <> []
  | Stop _ => False
  end.
Proof.
  destruct (ws_run _ _ _ _) as [[[] c']|] eqn:E; [|by vm_compute in E].
  split; [|vm_compute in E; by injection E as <-].
  refine (ws_files_rooted recorder [] _ (sample_ws DO_HEADER false new ∅) c' _ E). constructor.
Defined.

Lemma ws_handshake_witness :
  let h := <[text "upgrade" := text "websocket"]> (<[text "connection" := text "Upgrade"]> (<[text "sec-websocket-version" := text "13"]>
    (<[text "sec-websocket-protocol" := text "switch-lan-play-rpc"]> (<[text "sec-websocket-key" := text "x"]> ∅)))) in
  let c := sample_ws WAIT_HTTP false new h in
  match ws_http [] c with
  | Ok (_, c') => wsState c' = WAIT_DECODE_HEADER /\
      ws_written c' = [HTTP_RESP_101_PART ++ Rfc4648.encode (Fips.sha1 (header h "sec-websocket-key" ++ WS_GUID)) ++ CRLF ++ CRLF]
  | Stop _ => False
  end.
Proof.
  intros h c. assert (Hk : header h "sec-websocket-key" = text "x") by (vm_compute; reflexivity).
  rewrite (ws_handshake c).
  2-7: vm_compute; reflexivity.
  - split; reflexivity.
  - change (ws_headers c) with h. rewrite Hk. by repeat constructor.
  - change (ws_headers c) with h. rewrite Hk. by vm_compute.
Defined.

Lemma ws_text_witness : exists header,
  sendText (text "ok") (sample_ws WAIT_DECODE_HEADER true new ∅) =
    Ok (tt, mkWs WAIT_DECODE_HEADER true (text "/") ∅ [] new sample_frame [] [text "ok"; header] [] [] false) /\
  header ++ text "ok" = ws_bytes 1 None (text "ok").
Proof.
  destruct (ws_text_sent (text "ok") (sample_ws WAIT_DECODE_HEADER true new ∅)) as (h & E & Hh); [by vm_compute|]. exists h. split; [exact E|exact Hh].
Defined.

Lemma tcp_session_witness :
  each (tcp_line recorder (text "key")) ([text "stop"] ++ text "key" :: [text "status"]) (mkTcp [] false [] []) =
    Ok (tt, mkTcp [] true [text "status"] [framed (text "ok"); framed AUTHORIZED; framed UNAUTHORIZED]).
Proof. rewrite tcp_session; [reflexivity|reflexivity|compute_done]. Defined.

(** ** Frames the connection does not survive *)

(** A frame that fills its block, as a client sends it: consuming its last byte
    looks at the first element of an empty vector. *)
Theorem ws_frame_alone_stops :
  ws_data recorder [] (ws_bytes 1 (Some [9; 8; 7; 6]) (text "status")) 12 (sample_ws WAIT_DECODE_HEADER true new ∅) = Stop OutOfBounds.
Proof. reflexivity. Qed.

(** A frame with a length of 64 bits shifts an [int] by 56. *)
Theorem ws_long_frame_stops :
  ws_data recorder [] ([129; 127] ++ replicate 12 0) 14 (sample_ws WAIT_DECODE_HEADER true new ∅) = Stop BadShift.
Proof. reflexivity. Qed.
