(* ===== verification/Server.v ===== *)
(** * Server: the relay server

    [server/src]: the UDP server that connects LAN clients ([udpserver.ts]),
    its password providers ([auth]) and its command line ([main.ts]).

    A [Peer] is an object that the table of peers and the address cache share,
    also after it left the table; [heap] is the store of these objects and an
    object is its index.  What an [await] leaves for later is a [task]; its
    completion is an input of its own, so the inputs of [server_step] are the
    interleavings.  The table of peers is a JavaScript [Map], which keeps the
    order of insertion: the order of a broadcast.  A string is the list of its
    code points, a [Buffer] the list of its bytes; [SHA1] is the digest of the
    standard, as Node computes it. *)

From Stdlib Require Import Ascii.
From stdpp Require Import gmap strings pretty.
From S2P Require Import Prelude Bytes Text World Sample Address Sha1 LanClient.

#[local] Open Scope Z_scope.

(** ** Strings and buffers *)

(** [Buffer.from(s, 'hex')]: pairs of digits up to the first that is none *)
Definition hex_value (c : Z) : option Z :=
  if Utf8.within 48 57 c then Some (c - 48) else
  if Utf8.within 97 102 c then Some (c - 87) else
  if Utf8.within 65 70 c then Some (c - 55) else None.
Fixpoint from_hex (s : list Z) : list Z :=
  match s with
  | a :: b :: s =>
      match hex_value a, hex_value b with
      | Some x, Some y => (x * 16 + y) :: from_hex s
      | _, _ => []
      end
  | _ => []
  end.

(** the signed number of four bytes *)
Definition int32 (buf : list Z) (off : Z) : Z :=
  let v := ((getb buf off * 256 + getb buf (off + 1)) * 256 + getb buf (off + 2)) * 256 + getb buf (off + 3) in
  if v <? 2147483648 then v else v - 4294967296.

(** [buf.readInt32BE(off)], which throws outside the buffer *)
Definition readInt32BE (buf : list Z) (off : Z) : outcome Z :=
  if (0 <=? off) && (off + 4 <=? blen buf) then Ok (int32 buf off) else Stop Uncaught.

(** [createHash('SHA1')] over a buffer *)
Definition SHA1 (data : list Z) : list Z := Fips.sha1 data.

(** ** Password providers *)

(** an entry of the password file *)
Inductive JsonEntry := JPassword (pw : list Z) | JSha1 (hex : list Z).

Inductive AuthProvider :=
| CustomAuthProvider (username : list Z) (sha1 : list Z)
| JsonAuthProvider (table : gmap (list Z) JsonEntry)
| HttpAuthProvider (url : list Z).

(** [new CustomAuthProvider(username, password)] *)
Definition new_custom (username password : list Z) : AuthProvider :=
  CustomAuthProvider username (SHA1 (Utf8.encode password)).

(** what became of a lookup: the digest, or the message of the error thrown *)
Inductive lookup_result := Key (sha1 : list Z) | Failed (message : list Z).

(** the names every object has *)
Definition object_prototype : list (list Z) :=
  map text ["constructor"; "__defineGetter__"; "__defineSetter__"; "hasOwnProperty"; "__lookupGetter__";
            "__lookupSetter__"; "isPrototypeOf"; "propertyIsEnumerable"; "toString"; "valueOf"; "__proto__";
            "toLocaleString"]%string.

(** [this.read()] empties the table; when the file was read, the table is what
    it holds, or stays empty if that failed *)
Definition json_read (p : AuthProvider) : AuthProvider :=
  match p with JsonAuthProvider _ => JsonAuthProvider ∅ | _ => p end.
Definition json_loaded (r : option (gmap (list Z) JsonEntry)) (p : AuthProvider) : AuthProvider :=
  match p, r with
  | JsonAuthProvider _, Some t => JsonAuthProvider (delete (text "$schema") t)
  | _, _ => p
  end.

Section Server.
(** the message of the error that [Buffer.from(undefined, 'hex')] throws *)
Context (type_error : list Z).

(** [None]: the answer comes from the upstream server, later *)
Definition getUserPasswordSHA1 (p : AuthProvider) (username : list Z) : option lookup_result :=
  match p with
  | CustomAuthProvider u sha1 =>
      Some (if bool_decide (username = u) then Key sha1 else Failed (text "No such user"))
  | JsonAuthProvider table =>
      Some match table !! username with
      | Some (JPassword pw) => Key (SHA1 (Utf8.encode pw))
      | Some (JSha1 hex) => Key (from_hex hex)
      | None => if bool_decide (username ∈ object_prototype) then Failed type_error else Failed (text "No such user")
      end
  | HttpAuthProvider _ => None
  end.

(** what the upstream server's reply gives *)
Definition http_result (error : bool) (passwordSHA1 : list Z) : lookup_result :=
  if error then Failed (text "http auth: upstream error") else Key (from_hex passwordSHA1).

(** [verify], once the digest of the password is known *)
Definition verify (sha1 challenge response : list Z) : bool := bool_decide (SHA1 (sha1 ++ challenge) = response).

(** ** State *)

Record AddressInfo := mkAddr { address : string; port : Z }.
Definition addr2str (rinfo : AddressInfo) : string := address rinfo +:+ ":" +:+ pretty (port rinfo).

(** the buffer behind [peer.challenge]: its first byte is 255 while the random
    bytes are being written *)
Inductive challenge_state := Filling | Ready (random : list Z).

Record Peer := mkPeer { rinfo : AddressInfo; user : option (list Z); challenge : option challenge_state }.

Inductive task :=
| FillChallenge (peer : nat)
| Verification (peer : nat) (username response : list Z).

Record SLPServer := mkServer {
  authProvider : option AuthProvider;
  heap : list Peer;
  manager : list (string * (Z * nat));
  ipCache : gmap Z (nat * Z);
  upload : Z;
  download : Z;
  tasks : list task;
  sent : list (AddressInfo * list Z);
  running : bool
}.
#[global] Instance eta_peer : Eta Peer := fun r => mkPeer (rinfo r) (user r) (challenge r).
#[global] Instance eta_server : Eta SLPServer := fun r =>
  mkServer (authProvider r) (heap r) (manager r) (ipCache r) (upload r) (download r) (tasks r) (sent r) (running r).

Definition Timeout : Z := 30 * 1000.
Definition OFF_SRC : Z := 12.
Definition OFF_DST : Z := 16.

Inductive ForwarderType := Keepalive | Ipv4 | Ping | Ipv4Frag | AuthMe | Info | Unknown (type : Z).
Definition forwarder_type (n : Z) : ForwarderType :=
  if n =? 0 then Keepalive else if n =? 1 then Ipv4 else if n =? 2 then Ping else
  if n =? 3 then Ipv4Frag else if n =? 4 then AuthMe else if n =? 16 then Info else Unknown n.
Definition ForwarderTypeMap (t : ForwarderType) : list Z :=
  match t with Keepalive => [0] | Ipv4 => [1] | Ping => [2] | Ipv4Frag => [3] | AuthMe => [4] | Info => [16] | Unknown _ => [] end.

#[global] Instance forwarder_type_eq : EqDecision ForwarderType.
Proof. solve_decision. Defined.

(** ** Peers *)

Definition getpeer (peer : nat) : SE SLPServer Peer :=
  let* h := gets heap in
  match h !! peer with Some p => ret p | None => stop NullDeref end.
Definition setpeer (peer : nat) (f : Peer -> Peer) : SE SLPServer unit := modify (set heap (alter f peer)).

Definition entry (m : list (string * (Z * nat))) (key : string) : option (Z * nat) :=
  snd <$> List.find (fun e => String.eqb key e.1) m.

Definition manager_get (now : Z) (rinfo : AddressInfo) : SE SLPServer nat :=
  let key := addr2str rinfo in
  let expireAt := now + Timeout in
  let* m := gets manager in
  match entry m key with
  | None =>
      let* peer := gets (fun s => length (heap s)) in
      modify (set heap (fun h => h ++ [mkPeer rinfo None None])) ;;;
      modify (set manager (fun m => m ++ [(key, (expireAt, peer))])) ;;;
      ret peer
  | Some (_, peer) =>
      modify (set manager (map (fun e => if String.eqb key e.1 then (e.1, (expireAt, e.2.2)) else e))) ;;;
      ret peer
  end.

Definition manager_delete (rinfo : AddressInfo) : SE SLPServer unit :=
  modify (set manager (List.filter (fun e => negb (String.eqb (addr2str rinfo) e.1)))).

Definition manager_clearExpire (now : Z) : SE SLPServer unit :=
  modify (set manager (List.filter (fun e => negb (e.2.1 <? now)))).

Definition manager_all (m : list (string * (Z * nat))) (except : AddressInfo) : list nat :=
  map (fun e => e.2.2) (List.filter (fun e => negb (String.eqb (addr2str except) e.1)) m).

Definition getClientSize (s : SLPServer) : Z := Z.of_nat (length (manager s)).

(** [peer.user] of the values of the table *)
Definition getLogin (s : SLPServer) : Z :=
  Z.of_nat (length (List.filter (fun e => match heap s !! e.2.2 with Some p => bool_decide (is_Some (user p)) | None => false end) (manager s))).

(** ** Sending *)

(** [this.server.send(msg, port, address, callback)] throws on a socket that was
    closed and for a port that is not between 1 and 65535; what else goes wrong
    is told to the callback ([SendFailed]) *)
Definition socket_send (addr : AddressInfo) (msg : list Z) : SE SLPServer unit :=
  let* open := gets running in
  if negb open || negb ((0 <? port addr) && (port addr <? 65536)) then stop Uncaught else
  modify (set sent (cons (addr, msg))).

Definition sendToRaw (addr : AddressInfo) (msg : list Z) : SE SLPServer unit :=
  modify (set upload (fun n => n + blen msg)) ;;;
  socket_send addr msg.

Definition sendTo (peer : nat) (type : ForwarderType) (payload : list Z) : SE SLPServer unit :=
  let* p := getpeer peer in
  sendToRaw (rinfo p) (ForwarderTypeMap type ++ payload).

Fixpoint sendAll (peers : list nat) (type : ForwarderType) (payload : list Z) : SE SLPServer unit :=
  match peers with
  | [] => ret tt
  | peer :: peers => sendTo peer type payload ;;; sendAll peers type payload
  end.

Definition sendBroadcast (except : nat) (type : ForwarderType) (payload : list Z) : SE SLPServer unit :=
  let* p := getpeer except in
  let* m := gets manager in
  sendAll (manager_all m (rinfo p)) type payload.

Definition sendInfo (peer : nat) (info : list Z) : SE SLPServer unit := sendTo peer Info (Utf8.encode info).

(** ** Handlers *)

(** the lines that [onIpv4] and [onIpv4Frag] have in common *)
Definition route (now : Z) (peer : nat) (type : ForwarderType) (payload : list Z) (src dst : Z) : SE SLPServer unit :=
  modify (set ipCache (<[src := (peer, now + Timeout)]>)) ;;;
  let* cache := gets ipCache in
  match cache !! dst with
  | Some (peer, _) => sendTo peer type payload
  | None => sendBroadcast peer type payload
  end.

Definition onIpv4 (now : Z) (peer : nat) (payload : list Z) : SE SLPServer unit :=
  if blen payload <=? 20 then ret tt else
  let? src := readInt32BE payload OFF_SRC in
  let? dst := readInt32BE payload OFF_DST in
  route now peer Ipv4 payload src dst.

Definition onIpv4Frag (now : Z) (peer : nat) (payload : list Z) : SE SLPServer unit :=
  if blen payload <=? 20 then ret tt else
  let? src := readInt32BE payload 0 in
  let? dst := readInt32BE payload 4 in
  route now peer Ipv4Frag payload src dst.

Definition onPing (rinfo : AddressInfo) (msg : list Z) : SE SLPServer unit := sendToRaw rinfo (take 4 msg).

Definition onPacket (now : Z) (peer : nat) (type : ForwarderType) (payload : list Z) : SE SLPServer unit :=
  match type with
  | Ipv4 => onIpv4 now peer payload
  | Ipv4Frag => onIpv4Frag now peer payload
  | _ => ret tt
  end.

(** the rest of the login after the password was looked up; [partial] is what
    the buffer of the challenge holds if it is still being filled *)
Definition login (partial : list Z) (peer : nat) (username response : list Z) (r : lookup_result) : SE SLPServer unit :=
  let* p := getpeer peer in
  let challenge := match challenge p with Some (Ready c) => c | _ => partial end in
  match r with
  | Key sha1 =>
      if verify sha1 challenge response then setpeer peer (set user (fun _ => Some username))
      else
        sendInfo peer (text "Error when login: Wrong password") ;;;
        sendInfo peer (text "Error when login: Wrong password")
  | Failed message => sendInfo peer (text "Error when login: " ++ message)
  end.

Definition onNeedAuth (partial : list Z) (peer : nat) (type : ForwarderType) (payload : list Z) : SE SLPServer unit :=
  let* p := getpeer peer in
  match type with
  | AuthMe =>
      let* provider := gets authProvider in
      match provider, challenge p with
      | Some provider, Some _ =>
          if blen payload <=? 20 then ret tt else
          let response := take 20 payload in
          let username := Utf8.decode (drop 20 payload) in
          match getUserPasswordSHA1 provider username with
          | Some r => login partial peer username response r
          | None => modify (set tasks (fun l => l ++ [Verification peer username response]))
          end
      | _, _ => ret tt
      end
  | _ =>
      match challenge p with
      | None =>
          setpeer peer (set challenge (fun _ => Some Filling)) ;;;
          modify (set tasks (fun l => l ++ [FillChallenge peer]))
      | Some Filling => ret tt
      | Some (Ready c) => sendTo peer AuthMe (0 :: c)
      end
  end.

(** [parseHead] of a message that is not empty *)
Definition parseHead (msg : list Z) : ForwarderType * bool :=
  let firstByte := getb msg 0 in (forwarder_type (Z.land firstByte 127), negb (Z.land firstByte 128 =? 0)).

(** [t1] and [t2] are the values of the clock at its two readings *)
Definition onMessage (t1 t2 : Z) (partial : list Z) (msg : list Z) (rinfo : AddressInfo) : SE SLPServer unit :=
  if blen msg =? 0 then ret tt else
  modify (set download (fun n => n + blen msg)) ;;;
  let (type, isEncrypted) := parseHead msg in
  match type, isEncrypted with
  | Ping, false => onPing rinfo msg
  | _, _ =>
      let* peer := manager_get t1 rinfo in
      let payload := drop 1 msg in
      let* provider := gets authProvider in
      let* p := getpeer peer in
      match provider, user p with
      | Some _, None => onNeedAuth partial peer type payload
      | _, _ => onPacket t2 peer type payload
      end
  end.

(** [this.sendTo(peer, AuthMe, peer.challenge)] after the random bytes came *)
Definition challenge_filled (peer : nat) (random : list Z) : SE SLPServer unit :=
  setpeer peer (set challenge (fun _ => Some (Ready random))) ;;;
  sendTo peer AuthMe (0 :: random).

(** the socket reports an error: it is closed, which throws if it was closed
    before *)
Definition onError : SE SLPServer unit :=
  let* open := gets running in
  if open then modify (set running (fun _ => false)) else stop Uncaught.

(** the callback of [setInterval] *)
Definition onInterval (t1 t2 : Z) : SE SLPServer unit :=
  modify (fun s => s <| upload := 0 |> <| download := 0 |>) ;;;
  manager_clearExpire t1 ;;;
  modify (set ipCache (filter (fun e => t2 <= e.2.2))).

(** ** Events *)

Inductive server_input :=
| Message (t1 t2 : Z) (partial msg : list Z) (rinfo : AddressInfo)
| Filled (i : nat) (random : list Z)
| FillFailed (i : nat)
| Answered (i : nat) (partial : list Z) (r : lookup_result)
| SendFailed (rinfo : AddressInfo)
| SocketError
| Interval (t1 t2 : Z)
| TableRead
| TableLoaded (r : option (gmap (list Z) JsonEntry)).

(** An answer of the upstream server, or the end of the five seconds it has, is
    [Answered]; a completion of a task that is not open is no event.  When the
    random bytes cannot be had, [await randomFill] rejects; nothing handles the
    rejection of [onMessage]. *)
Definition server_step (e : server_input) : SE SLPServer unit :=
  match e with
  | Message t1 t2 partial msg rinfo => onMessage t1 t2 partial msg rinfo
  | Filled i random =>
      let* l := gets tasks in
      match l !! i with
      | Some (FillChallenge peer) => modify (set tasks (delete i)) ;;; challenge_filled peer random
      | _ => ret tt
      end
  | FillFailed i =>
      let* l := gets tasks in
      match l !! i with
      | Some (FillChallenge peer) => stop Uncaught
      | _ => ret tt
      end
  | Answered i partial r =>
      let* l := gets tasks in
      match l !! i with
      | Some (Verification peer username response) =>
          modify (set tasks (delete i)) ;;; login partial peer username response r
      | _ => ret tt
      end
  | SendFailed rinfo => manager_delete rinfo
  | SocketError => onError
  | Interval t1 t2 => onInterval t1 t2
  | TableRead => modify (set authProvider (fmap json_read))
  | TableLoaded r => modify (set authProvider (fmap (json_loaded r)))
  end.

Fixpoint server_run (es : list server_input) : SE SLPServer unit :=
  match es with
  | [] => ret tt
  | e :: es => server_step e ;;; server_run es
  end.
End Server.

(** ** The command line *)

Fixpoint parseArgs2Obj (args : list (list Z)) (argsObj : gmap (list Z) (option (list Z))) : gmap (list Z) (option (list Z)) :=
  let add key value := if bool_decide (take 2 key = text "--") then <[drop 2 key := value]> argsObj else argsObj in
  match args with
  | [] => argsObj
  | [key] => add key None
  | key :: value :: args => parseArgs2Obj args (add key (Some value))
  end.

(** a property that counts as given: a string that is not empty *)
Definition given_arg (argsObj : gmap (list Z) (option (list Z))) (name : string) : option (list Z) :=
  match argsObj !! text name with
  | Some (Some []) | Some None | None => None
  | Some (Some v) => Some v
  end.

(** [s.split(c)] *)
Fixpoint split_on (c : Z) (s : list Z) : list (list Z) :=
  match s with
  | [] => [[]]
  | b :: s =>
      if b =? c then [] :: split_on c s
      else match split_on c s with part :: parts => (b :: part) :: parts | [] => [[b]] end
  end.

(** the provider [main] chooses; [USE_HTTP_PROVIDER] is the environment's *)
Definition choose_provider (USE_HTTP_PROVIDER : option (list Z)) (argv : list (list Z)) : outcome (option AuthProvider) :=
  let argsObj := parseArgs2Obj argv ∅ in
  match USE_HTTP_PROVIDER with
  | Some (c :: url) => Ok (Some (HttpAuthProvider (c :: url)))
  | _ =>
      match given_arg argsObj "httpAuth", given_arg argsObj "jsonAuth", given_arg argsObj "simpleAuth" with
      | Some url, _, _ => Ok (Some (HttpAuthProvider url))
      | None, Some _, _ => Ok (Some (JsonAuthProvider ∅))
      | None, None, Some s =>
          match split_on 58 s with
          | username :: password :: _ => Ok (Some (new_custom username password))
          | _ => Stop Uncaught
          end
      | None, None, None => Ok None
      end
  end.

(** [new SLPServer(port, provider)] *)
Definition new_server (provider : option AuthProvider) : SLPServer := mkServer provider [] [] ∅ 0 0 [] [] true.

(** ** Addresses as keys *)

Lemma colon_split a b p q : free_of ":"%char p -> free_of ":"%char q -> a +:+ String ":" p = b +:+ String ":" q -> a = b /\ p = q.
Proof.
  revert b. induction a as [|c a IH]; intros [|d b] Hp Hq; rewrite ?string_app_cons.
  - change (String ":" p = String ":" q -> ""%string = ""%string /\ p = q). intros [= ->]. done.
  - change (String ":" p = String d (b +:+ String ":" q) -> ""%string = String d b /\ p = q). intros [= <- ->].
    exfalso. induction b as [|c b IHb]; [done|]. apply IHb. rewrite string_app_cons in Hp. unfold free_of in *. cbn [strchr] in Hp.
    destruct (Ascii.eqb c ":"%char); [done|]. by destruct (strchr _ (b +:+ _)) as [[]|].
  - change (String c (a +:+ String ":" p) = String ":" q -> String c a = ""%string /\ p = q). intros [= -> <-].
    exfalso. clear IH. induction a as [|c a IHa]; [done|]. apply IHa. rewrite string_app_cons in Hq. unfold free_of in *. cbn [strchr] in Hq.
    destruct (Ascii.eqb c ":"%char); [done|]. by destruct (strchr _ (a +:+ _)) as [[]|].
  - intros [= -> H]. destruct (IH b Hp Hq H) as [-> ->]. done.
Qed.
Lemma pretty_inj_nonneg p q : 0 <= p -> 0 <= q -> pretty p = (pretty q : string) -> p = q.
Proof.
  intros Hp Hq E. pose proof (read_number_pretty p ""%string Hp I) as H1. pose proof (read_number_pretty q ""%string Hq I) as H2.
  rewrite string_app_nil_r in *. rewrite E in H1. congruence.
Qed.
Lemma addr2str_inj a b : 0 <= port a -> 0 <= port b -> addr2str a = addr2str b -> a = b.
Proof.
  destruct a as [a p], b as [b q]. cbn [port]. intros Hp Hq E.
  change (a +:+ String ":" (pretty p) = b +:+ String ":" (pretty q)) in E. apply colon_split in E as [-> E]; [|by apply pretty_free..].
  apply pretty_inj_nonneg in E as ->; done.
Qed.
#[global] Instance addr_eq : EqDecision AddressInfo.
Proof. solve_decision. Defined.

(** ** The invariant *)

(** an address that a datagram can be sent to *)
Definition sendable (r : AddressInfo) : Prop := 0 < port r < 65536.
Lemma sendable_nonneg r : sendable r -> 0 <= port r.
Proof. unfold sendable. lia. Qed.
#[local] Hint Extern 0 (0 <= port _) => (apply sendable_nonneg; assumption) : core.

Definition task_peer (t : task) : nat := match t with FillChallenge p => p | Verification p _ _ => p end.

Record server_ok (s : SLPServer) : Prop := {
  ok_keys : NoDup (map fst (manager s));
  ok_entries : Forall (fun e => exists p, heap s !! e.2.2 = Some p /\ e.1 = addr2str (rinfo p)) (manager s);
  ok_cache : forall ip peer t, ipCache s !! ip = Some (peer, t) -> is_Some (heap s !! peer);
  ok_tasks : Forall (fun t => is_Some (heap s !! task_peer t)) (tasks s);
  ok_ports : Forall (fun p => sendable (rinfo p)) (heap s);
  ok_running : running s = true }.
Lemma ok_port s i p : server_ok s -> heap s !! i = Some p -> sendable (rinfo p).
Proof. intros Hok Hp. pose proof (ok_ports _ Hok) as P. rewrite Forall_lookup in P. by eapply P. Qed.

(** the peer objects of [s] are still there *)
Definition grows (s s' : SLPServer) : Prop :=
  forall i p, heap s !! i = Some p -> exists p', heap s' !! i = Some p' /\ rinfo p' = rinfo p.
#[global] Instance grows_preorder : PreOrder grows.
Proof.
  split; [intros s i p H; by exists p|]. intros s1 s2 s3 H1 H2 i p H.
  destruct (H1 _ _ H) as (p' & H' & E). destruct (H2 _ _ H') as (p'' & H'' & E'). exists p''. split; [done|congruence].
Qed.
Lemma grows_some s s' i : grows s s' -> is_Some (heap s !! i) -> is_Some (heap s' !! i).
Proof. intros H [p Hp]. destruct (H _ _ Hp) as (p' & -> & _). by eexists. Qed.

(** the addresses of the table, in order *)
Definition clients (s : SLPServer) : list AddressInfo := omap (fun e => rinfo <$> heap s !! e.2.2) (manager s).

Lemma ok_grow s s' : server_ok s -> grows s s' -> manager s' = manager s -> ipCache s' = ipCache s -> tasks s' = tasks s ->
  Forall (fun p => sendable (rinfo p)) (heap s') -> running s' = running s -> server_ok s'.
Proof.
  intros [K E C T P R] G Em Ec Et HP ER. split; [by rewrite Em|rewrite Em| |rewrite Et|done|congruence].
  - eapply List.Forall_impl; [|exact E]. intros e (p & Hp & ->). destruct (G _ _ Hp) as (p' & Hp' & Er). exists p'. by rewrite Er.
  - rewrite Ec. intros ip peer t H. eapply grows_some; [exact G|]. by eapply C.
  - eapply List.Forall_impl; [|exact T]. intros t. by apply grows_some.
Qed.

(** ** Runs *)

(** [s] after the datagrams [out] were sent, in this order *)
Definition sending (out : list (AddressInfo * list Z)) (s : SLPServer) : SLPServer :=
  s <| upload ::= Z.add (foldr (fun m n => blen m.2 + n) 0 out) |> <| sent ::= app (rev out) |>.

Lemma sending_ok out s : server_ok s -> server_ok (sending out s).
Proof. by intros []. Qed.
Lemma sending_app a b s : sending b (sending a s) = sending (a ++ b) s.
Proof.
  destruct s. unfold sending, set. cbn. f_equal.
  - induction a as [|m a IH]; cbn [foldr app]; lia.
  - by rewrite rev_app_distr, app_assoc.
Qed.

Lemma getpeer_eq i p s : heap s !! i = Some p -> getpeer i s = Ok (p, s).
Proof. unfold getpeer, bind, gets. by intros ->. Qed.
(** [s] can send to the peer [i], which is [p] *)
Definition reaches (s : SLPServer) (i : nat) (p : Peer) : Prop :=
  heap s !! i = Some p /\ sendable (rinfo p) /\ running s = true.
Lemma ok_reaches s i p : server_ok s -> heap s !! i = Some p -> reaches s i p.
Proof. intros Hok Hp. split; [done|]. split; [by eapply ok_port|apply Hok]. Qed.
#[local] Hint Extern 0 (reaches _ _ _) => (apply ok_reaches; assumption) : core.

Lemma sendToRaw_eq r m s : sendable r -> running s = true -> sendToRaw r m s = Ok (tt, sending [(r, m)] s).
Proof.
  intros [H1 H2] Hr. unfold sendToRaw, socket_send, modify, bind, gets, sending, set. cbn. rewrite Hr.
  rewrite (proj2 (Z.ltb_lt _ _) H1), (proj2 (Z.ltb_lt _ _) H2). cbn. destruct s. cbn. do 3 f_equal. lia.
Qed.
Lemma sendTo_eq i p t d s : reaches s i p -> sendTo i t d s = Ok (tt, sending [(rinfo p, ForwarderTypeMap t ++ d)] s).
Proof. intros (Hp & Hr & Hs). unfold sendTo. rewrite (bind_Ok _ _ _ _ _ (getpeer_eq _ _ _ Hp)). by apply sendToRaw_eq. Qed.
Lemma sendAll_eq t d peers addrs s : Forall2 (fun i a => exists p, reaches s i p /\ rinfo p = a) peers addrs ->
  sendAll peers t d s = Ok (tt, sending (map (fun a => (a, ForwarderTypeMap t ++ d)) addrs) s).
Proof.
  intros H. assert (G : forall out, sendAll peers t d (sending out s) =
    Ok (tt, sending (out ++ map (fun a => (a, ForwarderTypeMap t ++ d)) addrs) s)).
  { induction H as [|i a peers addrs (p & Hp & <-) H IH]; intros out; cbn [sendAll map]; [by rewrite app_nil_r|].
    rewrite (bind_Ok _ _ _ _ _ (sendTo_eq i p t d (sending out s) Hp)), sending_app, IH. by rewrite <- app_assoc. }
  specialize (G []). replace (sending [] s) with s in G; [done|]. by destruct s.
Qed.

Lemma entries_clients s m : server_ok s -> Forall (fun e => exists p, heap s !! e.2.2 = Some p /\ e.1 = addr2str (rinfo p)) m ->
  Forall2 (fun (e : string * (Z * nat)) a => e.1 = addr2str a /\ exists p, reaches s e.2.2 p /\ rinfo p = a) m
    (omap (fun e => rinfo <$> heap s !! e.2.2) m).
Proof.
  intros Hok. induction 1 as [|e m (p & Hp & He) Hm IH]; [constructor|]. cbn. rewrite Hp. cbn. constructor; [|done]. split; [done|]. exists p. by split.
Qed.
Lemma clients_ports s : server_ok s -> Forall (fun a => 0 <= port a) (clients s).
Proof.
  intros Hok. pose proof (ok_entries _ Hok) as E. unfold clients. induction E as [|e m (p & Hp & He) Hm IH]; [constructor|]. cbn. rewrite Hp. cbn.
  constructor; [|done]. by eapply sendable_nonneg, ok_port.
Qed.

Lemma sendBroadcast_eq i p t d s : server_ok s -> heap s !! i = Some p ->
  sendBroadcast i t d s = Ok (tt, sending (map (fun a => (a, ForwarderTypeMap t ++ d)) (filter (fun a => a <> rinfo p) (clients s))) s).
Proof.
  intros Hok Hp. unfold sendBroadcast. rewrite (bind_Ok _ _ _ _ _ (getpeer_eq _ _ _ Hp)). unfold bind, gets. apply sendAll_eq.
  pose proof (entries_clients s _ Hok (ok_entries _ Hok)) as H. pose proof (clients_ports _ Hok) as HP. fold (clients s) in H.
  assert (Hpp : 0 <= port (rinfo p)) by (by eapply sendable_nonneg, ok_port).
  unfold manager_all. revert HP. induction H as [|e a m l [He Hh] H IH]; intros HP; [constructor|].
  apply Forall_cons_iff in HP as [Ha HP]. cbn [List.filter]. rewrite filter_cons. destruct (String.eqb_spec (addr2str (rinfo p)) e.1) as [E|E]; cbn [negb].
  - rewrite decide_False; [by apply IH|]. intros Hn. apply Hn. rewrite He in E. by apply addr2str_inj in E.
  - rewrite decide_True; [|congruence]. cbn [map]. constructor; [done|by apply IH].
Qed.

(** the object the table has for an address *)
Definition peer_at (s : SLPServer) (r : AddressInfo) : option Peer :=
  match entry (manager s) (addr2str r) with Some (_, i) => heap s !! i | None => None end.

Lemma entry_in m k v : entry m k = Some v -> (k, v) ∈ m.
Proof.
  unfold entry. intros H. destruct (List.find _ m) as [[k' v']|] eqn:E; [|done]. injection H as <-.
  apply find_some in E as [Hin He]. cbn in He. apply String.eqb_eq in He as ->. by apply list_elem_of_In.
Qed.
Lemma entry_none m k : entry m k = None -> k ∉ map fst m.
Proof.
  unfold entry. destruct (List.find _ m) eqn:E; [done|]. intros _ Hin. apply list_elem_of_In, in_map_iff in Hin as (e & <- & Hin).
  pose proof (find_none _ _ E e Hin) as H. cbn in H. by rewrite String.eqb_refl in H.
Qed.
Lemma entry_same k m m' : Forall2 (fun e e' => e.1 = e'.1 /\ (k = e.1 -> e.2 = e'.2)) m m' -> entry m k = entry m' k.
Proof.
  unfold entry. induction 1 as [|e e' m m' [H1 H2] H IH]; [done|]. cbn [List.find]. rewrite <- H1.
  destruct (String.eqb_spec k e.1) as [->|]; [|done]. cbn. by rewrite H2.
Qed.

Lemma peer_at_rinfo s r p : server_ok s -> 0 <= port r -> peer_at s r = Some p -> rinfo p = r.
Proof.
  intros Hok Hr. pose proof (ok_entries _ Hok) as E. unfold peer_at. destruct (entry _ _) as [[t i]|] eqn:He; [|done]. intros Hp.
  apply entry_in in He. rewrite Forall_forall in E. destruct (E _ (proj1 (list_elem_of_In _ _) He)) as (p' & Hp' & Hk). cbn in Hp', Hk.
  rewrite Hp in Hp'. injection Hp' as <-. apply addr2str_inj in Hk; [done|done|]. by eapply sendable_nonneg, ok_port.
Qed.

Lemma default_rinfo s r : server_ok s -> 0 <= port r -> rinfo (default (mkPeer r None None) (peer_at s r)) = r.
Proof. intros Hok Hr. destruct (peer_at s r) eqn:E; [|done]. by eapply peer_at_rinfo. Qed.

(** [i] is the peer of the address [r], after the table of [s] was asked for it *)
Record met (t : Z) (r : AddressInfo) (i : nat) (s s' : SLPServer) : Prop := {
  met_ok : server_ok s';
  met_peer : heap s' !! i = Some (default (mkPeer r None None) (peer_at s r));
  met_entry : entry (manager s') (addr2str r) = Some (t + Timeout, i);
  met_rest : s' = s <| heap := heap s' |> <| manager := manager s' |>;
  met_others : filter (fun a => a <> r) (clients s') = filter (fun a => a <> r) (clients s);
  met_heap : heap s' = heap s \/ heap s' = heap s ++ [mkPeer r None None];
  met_keys : forall k, k <> addr2str r -> entry (manager s') k = entry (manager s) k }.

Lemma met_prefix t r i s s' : met t r i s s' -> heap s `prefix_of` heap s'.
Proof. intros Hm. destruct (met_heap _ _ _ _ _ Hm) as [->| ->]; [done|by apply prefix_app_r]. Qed.

Lemma manager_get_known t r s i told : server_ok s -> entry (manager s) (addr2str r) = Some (told, i) ->
  exists s', manager_get t r s = Ok (i, s') /\ met t r i s s'.
Proof.
  intros Hok He. unfold manager_get, bind, gets, modify, ret. rewrite He. eexists. split; [done|].
  set (f := fun e : string * (Z * nat) => if String.eqb (addr2str r) e.1 then (e.1, (t + Timeout, e.2.2)) else e).
  assert (Hf : forall e, (f e).1 = e.1 /\ (f e).2.2 = e.2.2) by (intros [k [x j]]; unfold f; cbn; by destruct (String.eqb _ _)).
  assert (Hin := entry_in _ _ _ He). destruct Hok as [K E C T P R]. split.
  - split; try done; cbn.
    + rewrite map_map. erewrite map_ext; [exact K|]. intros e. apply Hf.
    + apply Forall_map. eapply List.Forall_impl; [|exact E]. intros e (p & Hp & Hk). exists p. destruct (Hf e) as [-> ->]. done.
  - cbn. unfold peer_at. rewrite He. rewrite Forall_forall in E. destruct (E _ (proj1 (list_elem_of_In _ _) Hin)) as (p & Hp & _). cbn in Hp. by rewrite Hp.
  - cbn. revert He. unfold entry. clear -Hf. induction (manager s) as [|e m IH]; [done|]. cbn [List.find map]. rewrite (proj1 (Hf e)).
    destruct (String.eqb (addr2str r) e.1) eqn:E; [|apply IH]. cbn. intros [= H]. unfold f. rewrite E. cbn. by rewrite H.
  - by destruct s.
  - unfold clients. cbn. f_equal. clear -Hf. induction (manager s) as [|e m IH]; [done|]. cbn. destruct (Hf e) as [_ ->].
    fold f. change (map _ m) with (map f m). rewrite IH. done.
  - by left.
  - intros k Hk. cbn. unfold entry. clear -Hf Hk. induction (manager s) as [|e m IH]; [done|]. cbn [List.find map]. rewrite (proj1 (Hf e)).
    destruct (String.eqb_spec k e.1) as [E|]; [|apply IH]. cbn. unfold f. destruct (String.eqb_spec (addr2str r) e.1); [congruence|done].
Qed.

Lemma manager_get_new t r s : server_ok s -> sendable r -> entry (manager s) (addr2str r) = None ->
  exists s', manager_get t r s = Ok (length (heap s), s') /\ met t r (length (heap s)) s s'.
Proof.
  intros [K E C T P R] Hr He. unfold manager_get, bind, gets, modify, ret. rewrite He. eexists. split; [done|].
  assert (Hl : (heap s ++ [mkPeer r None None]) !! length (heap s) = Some (mkPeer r None None)) by (by apply list_lookup_middle).
  assert (Hsome : forall i p, heap s !! i = Some p -> (heap s ++ [mkPeer r None None]) !! i = Some p) by (intros; by apply lookup_app_l_Some).
  split.
  - split; cbn.
    + rewrite map_app. cbn. apply list.NoDup_app. split_and!; [done| |by apply NoDup_singleton].
      intros k Hk Hk'. apply list_elem_of_singleton in Hk' as ->. by apply entry_none in He.
    + apply Forall_app. split; [|constructor; [|constructor]; cbn; by eauto].
      eapply List.Forall_impl; [|exact E]. intros e (p & Hp & Hk). eauto.
    + intros ip i x H. destruct (C _ _ _ H) as [p Hp]. eauto.
    + eapply List.Forall_impl; [|exact T]. intros x [p Hp]. eauto.
    + apply Forall_app. by split; [|constructor].
    + done.
  - cbn. rewrite Hl. unfold peer_at. by rewrite He.
  - cbn. revert He. unfold entry. clear. induction (manager s) as [|e m IH]; cbn [List.find app].
    + cbn. by rewrite String.eqb_refl.
    + destruct (String.eqb _ e.1); [done|]. apply IH.
  - by destruct s.
  - unfold clients. cbn. rewrite omap_app. cbn. rewrite Hl. cbn. rewrite list.filter_app, filter_cons, decide_False by tauto.
    rewrite filter_nil, app_nil_r. f_equal. clear -E Hsome. induction E as [|e m (p & Hp & Hk) E IH]; [done|]. cbn.
    rewrite Hp, (Hsome _ _ Hp). cbn. by rewrite IH.
  - by right.
  - intros k Hk. cbn. unfold entry. clear -Hk. induction (manager s) as [|e m IH]; cbn [List.find app].
    + cbn. by destruct (String.eqb_spec k (addr2str r)).
    + destruct (String.eqb k e.1); [done|]. apply IH.
Qed.

Lemma manager_get_spec t r s : server_ok s -> sendable r ->
  exists i s', manager_get t r s = Ok (i, s') /\ met t r i s s'.
Proof.
  intros Hok Hr. destruct (entry (manager s) (addr2str r)) as [[told i]|] eqn:He.
  - exists i. by apply (manager_get_known t r s i told).
  - exists (length (heap s)). by apply manager_get_new.
Qed.

Lemma readInt32BE_ok buf off : 0 <= off -> off + 4 <= blen buf -> readInt32BE buf off = Ok (int32 buf off).
Proof. intros H1 H2. unfold readInt32BE. by rewrite (proj2 (Z.leb_le _ _) H1), (proj2 (Z.leb_le _ _) H2). Qed.

(** ** Safety of every event *)

Lemma setpeer_ok i f s : (forall p, rinfo (f p) = rinfo p) -> server_ok s -> server_ok (s <| heap ::= alter f i |>).
Proof.
  intros Hf Hok. apply (ok_grow s); try done.
  - intros j p Hj. cbn. destruct (decide (i = j)) as [->|Hn].
    + rewrite list_lookup_alter_eq, Hj. cbn. by eexists.
    + rewrite list_lookup_alter_ne by done. by exists p.
  - cbn. apply Forall_alter; [apply ok_ports, Hok|]. intros p _. by rewrite Hf.
Qed.
Lemma add_task_ok s t : server_ok s -> is_Some (heap s !! task_peer t) -> server_ok (s <| tasks ::= (fun l => l ++ [t]) |>).
Proof. intros [] Ht. split; try done. cbn. apply Forall_app. split; [done|]. by constructor. Qed.
Lemma del_task_ok s i : server_ok s -> server_ok (s <| tasks ::= delete i |>).
Proof. intros []. split; try done. cbn. by apply Forall_delete. Qed.
Lemma cache_ok s k i t : server_ok s -> is_Some (heap s !! i) -> server_ok (s <| ipCache ::= <[k := (i, t)]> |>).
Proof.
  intros [] Hi. split; try done. cbn. intros ip q x. destruct (decide (k = ip)) as [->|Hn].
  - rewrite lookup_insert_eq. by intros [= <- <-].
  - rewrite lookup_insert_ne by done. eauto.
Qed.

(** a run that ends well and keeps the invariant *)
Abbreviation safe m := (wp m (fun _ s => server_ok s)).

Section Safety.
Context (type_error : list Z).

Lemma sendTo_safe i t d s : server_ok s -> is_Some (heap s !! i) -> safe (sendTo i t d) s.
Proof. intros Hok [p Hp]. unfold wp. rewrite (sendTo_eq i p) by auto. by apply sending_ok. Qed.

Lemma login_safe partial i u resp r s : server_ok s -> is_Some (heap s !! i) -> safe (login partial i u resp r) s.
Proof.
  intros Hok [p Hp]. unfold login. apply wp_bind. unfold wp at 1. rewrite (getpeer_eq _ _ _ Hp).
  destruct r as [sha1|m]; [|apply sendTo_safe; by eauto]. destruct (verify _ _ _).
  - apply wp_modify. by apply setpeer_ok.
  - apply wp_bind. unfold sendInfo at 1, wp at 1. rewrite (sendTo_eq i p) by auto.
    apply sendTo_safe; [by apply sending_ok|]. cbn. by eauto.
Qed.

Lemma onNeedAuth_safe partial i t d s : server_ok s -> is_Some (heap s !! i) -> safe (onNeedAuth type_error partial i t d) s.
Proof.
  intros Hok [p Hp]. unfold onNeedAuth. apply wp_bind. unfold wp at 1. rewrite (getpeer_eq _ _ _ Hp).
  assert (Hch : safe (match challenge p with
      | None => setpeer i (set challenge (fun _ => Some Filling)) ;;; modify (set tasks (fun l => l ++ [FillChallenge i]))
      | Some Filling => ret tt
      | Some (Ready c) => sendTo i AuthMe (0 :: c) end) s).
  { destruct (challenge p) as [[|c]|]; [done|apply sendTo_safe; by eauto|]. apply wp_bind, wp_modify, wp_modify.
    apply add_task_ok; [by apply setpeer_ok|]. cbn. rewrite list_lookup_alter_eq, Hp. by eexists. }
  destruct t; try exact Hch. apply wp_bind, wp_gets. destruct (authProvider s) as [pr|]; [|done]. destruct (challenge p); [|done].
  destruct (blen d <=? 20); [done|]. destruct (getUserPasswordSHA1 _ _ _); [apply login_safe; by eauto|].
  apply wp_modify. apply add_task_ok; [done|]. by eexists.
Qed.

(** who a packet for [dst] from [r] goes to *)
Definition recipients (s : SLPServer) (r : AddressInfo) (dst : Z) : list AddressInfo :=
  match ipCache s !! dst with
  | Some (q, _) => match heap s !! q with Some p => [rinfo p] | None => [] end
  | None => filter (fun a => a <> r) (clients s)
  end.

Lemma route_eq now i p t d src dst s : server_ok s -> heap s !! i = Some p ->
  let s1 := s <| ipCache ::= <[src := (i, now + Timeout)]> |> in
  route now i t d src dst s = Ok (tt, sending (map (fun a => (a, ForwarderTypeMap t ++ d)) (recipients s1 (rinfo p) dst)) s1).
Proof.
  intros Hok Hp s1. assert (Hok1 : server_ok s1) by (apply cache_ok; [done|by eauto]).
  unfold route, bind at 1, modify. fold s1. unfold bind, gets, recipients.
  destruct (ipCache s1 !! dst) as [[q x]|] eqn:E; [|by apply sendBroadcast_eq].
  destruct (ok_cache _ Hok1 _ _ _ E) as [pq Hq]. rewrite Hq. apply sendTo_eq. auto.
Qed.

Lemma onPacket_safe now i t d s : server_ok s -> is_Some (heap s !! i) -> safe (onPacket now i t d) s.
Proof.
  intros Hok [p Hp]. assert (Hr : forall t src dst, safe (route now i t d src dst) s).
  { intros t' src dst. unfold wp. rewrite (route_eq now i p t' d src dst s Hok Hp). apply sending_ok, cache_ok; [done|by eauto]. }
  destruct t; cbn; try done; unfold onIpv4, onIpv4Frag; destruct (Z.leb_spec (blen d) 20); try done;
    (do 2 (apply wp_bind; eapply wp_lift; [apply readInt32BE_ok; unfold OFF_SRC, OFF_DST; lia|])); apply Hr.
Qed.

Lemma onMessage_safe t1 t2 partial msg r s : server_ok s -> sendable r -> safe (onMessage type_error t1 t2 partial msg r) s.
Proof.
  intros Hok Hr. unfold onMessage. destruct (blen msg =? 0); [done|]. apply wp_bind, wp_modify.
  set (s0 := set download _ s). assert (Hok0 : server_ok s0) by (by destruct Hok).
  destruct (parseHead msg) as [t enc]. assert (H : safe (let* peer := manager_get t1 r in
      let payload := drop 1 msg in let* provider := gets authProvider in let* p := getpeer peer in
      match provider, user p with
      | Some _, None => onNeedAuth type_error partial peer t payload
      | _, _ => onPacket t2 peer t payload
      end) s0).
  { destruct (manager_get_spec t1 r s0 Hok0 Hr) as (i & s1 & E & Hm). apply wp_bind. unfold wp at 1. rewrite E.
    apply wp_bind, wp_gets, wp_bind. unfold wp at 1. rewrite (getpeer_eq _ _ _ (met_peer _ _ _ _ _ Hm)).
    pose proof (met_ok _ _ _ _ _ Hm) as Hok1. pose proof (mk_is_Some _ _ (met_peer _ _ _ _ _ Hm)) as Hi.
    destruct (authProvider s1); [destruct (user _)|]; by (apply onPacket_safe || apply onNeedAuth_safe). }
  destruct t; try exact H. destruct enc; [exact H|]. unfold onPing, wp. rewrite sendToRaw_eq by (done || apply Hok0). by apply sending_ok.
Qed.

(** a datagram comes from an address that can be answered; the random bytes can
    be had, and the socket reports no error *)
Definition server_input_ok (e : server_input) : Prop :=
  match e with Message _ _ _ _ r => sendable r | FillFailed _ | SocketError => False | _ => True end.

Lemma task_some s i t : server_ok s -> tasks s !! i = Some t -> is_Some (heap s !! task_peer t).
Proof. intros [_ _ _ T _ _] Ht. rewrite Forall_lookup in T. by eapply T. Qed.

Lemma filter_keys (f : string * (Z * nat) -> bool) m : NoDup (map fst m) -> NoDup (map fst (List.filter f m)).
Proof.
  induction m as [|e m IH]; [done|]. cbn [map List.filter]. rewrite list.NoDup_cons. intros [Hn Hd]. destruct (f e); [|by apply IH].
  cbn [map]. apply list.NoDup_cons. split; [|by apply IH]. intros Hin. apply Hn. apply list_elem_of_In, in_map_iff in Hin as (x & <- & Hx).
  apply list_elem_of_In, in_map_iff. exists x. split; [done|]. by apply filter_In in Hx as [? _].
Qed.
Lemma filter_ok f s : server_ok s -> server_ok (s <| manager ::= List.filter f |>).
Proof.
  intros [K E C T P R]. split; try done; cbn; [by apply filter_keys|]. rewrite Forall_forall in *.
  intros e He. apply filter_In in He as [He _]. by apply E.
Qed.

Lemma server_step_safe e s : server_ok s -> server_input_ok e -> safe (server_step type_error e) s.
Proof.
  intros Hok He. destruct e as [t1 t2 partial msg r|i random|i|i partial r|r| |t1 t2| |r]; cbn [server_step server_input_ok] in *; try done.
  - by apply onMessage_safe.
  - apply wp_bind, wp_gets. destruct (tasks s !! i) as [[peer|]|] eqn:E; try done.
    destruct (task_some _ _ _ Hok E) as [p Hp]. apply wp_bind, wp_modify. unfold challenge_filled, setpeer. apply wp_bind, wp_modify.
    apply sendTo_safe; [by apply setpeer_ok, del_task_ok|]. cbn. cbn in Hp. rewrite list_lookup_alter_eq, Hp. by eexists.
  - apply wp_bind, wp_gets. destruct (tasks s !! i) as [[|peer u resp]|] eqn:E; try done.
    pose proof (task_some _ _ _ Hok E). apply wp_bind, wp_modify. apply login_safe; [by apply del_task_ok|done].
  - apply wp_modify. by apply filter_ok.
  - unfold onInterval, manager_clearExpire. do 2 apply wp_bind, wp_modify. apply wp_modify.
    assert (Hok1 : server_ok (s <| upload := 0 |> <| download := 0 |>)) by (by destruct Hok).
    apply (filter_ok (fun e => negb (e.2.1 <? t1))) in Hok1. destruct Hok1 as [K E C T P R]. split; try done. cbn.
    intros ip peer x H. apply map_lookup_filter_Some in H as [H _]. by eapply C.
  - apply wp_modify. by destruct Hok.
  - apply wp_modify. by destruct Hok.
Qed.

Lemma server_run_safe es : forall s, server_ok s -> Forall server_input_ok es -> safe (server_run type_error es) s.
Proof.
  induction es as [|e es IH]; intros s Hok He; [done|]. apply Forall_cons_iff in He as [He Hes]. cbn [server_run].
  apply wp_bind. eapply wp_mono; [by apply server_step_safe|]. intros [] s1 Hok1. by apply IH.
Qed.
Lemma new_server_ok p : server_ok (new_server p).
Proof. by split; cbn; try constructor. Qed.

(** ** One message *)

Definition counted (msg : list Z) (s : SLPServer) : SLPServer := s <| download ::= fun n => n + blen msg |>.

Lemma onMessage_enter t1 t2 partial msg r s :
  server_ok s -> sendable r -> msg <> [] -> parseHead msg <> (Ping, false) ->
  exists i s1, let p := default (mkPeer r None None) (peer_at s r) in
    met t1 r i (counted msg s) s1 /\ heap s1 !! i = Some p /\ rinfo p = r /\
    onMessage type_error t1 t2 partial msg r s =
      match authProvider s, user p with
      | Some _, None => onNeedAuth type_error partial i (parseHead msg).1 (drop 1 msg) s1
      | _, _ => onPacket t2 i (parseHead msg).1 (drop 1 msg) s1
      end.
Proof.
  intros Hok Hr Hm Hp. assert (Hok0 : server_ok (counted msg s)) by (by destruct Hok).
  destruct (manager_get_spec t1 r (counted msg s) Hok0 Hr) as (i & s1 & E & H). exists i, s1. intros p.
  pose proof (met_peer _ _ _ _ _ H) as Hi. change (peer_at (counted msg s) r) with (peer_at s r) in Hi. fold p in Hi.
  assert (Hrp : rinfo p = r) by (by apply default_rinfo).
  split_and!; [done..|]. unfold onMessage. assert (Hb : (blen msg =? 0) = false) by (destruct msg; [done|]; apply Z.eqb_neq; unfold blen; cbn; lia).
  rewrite Hb. unfold bind at 1, modify. fold (counted msg s). destruct (parseHead msg) as [t enc].
  assert (Ea : authProvider s1 = authProvider s) by (by rewrite (met_rest _ _ _ _ _ H)).
  assert (Hrest : (let* peer := manager_get t1 r in
      let payload := drop 1 msg in let* provider := gets authProvider in let* p := getpeer peer in
      match provider, user p with
      | Some _, None => onNeedAuth type_error partial peer t payload
      | _, _ => onPacket t2 peer t payload
      end) (counted msg s) = match authProvider s, user p with
      | Some _, None => onNeedAuth type_error partial i t (drop 1 msg) s1
      | _, _ => onPacket t2 i t (drop 1 msg) s1
      end).
  { rewrite (bind_Ok _ _ _ _ _ E). cbv zeta. unfold bind at 1, gets. rewrite (bind_Ok _ _ _ _ _ (getpeer_eq _ _ _ Hi)), Ea.
    by destruct (authProvider s), (user p). }
  destruct t; try exact Hrest. destruct enc; [exact Hrest|done].
Qed.

(** the server forwards what [r] sends *)
Definition admitted (s : SLPServer) (r : AddressInfo) : Prop :=
  authProvider s = None \/ exists p u, peer_at s r = Some p /\ user p = Some u.

(** the packets that carry addresses, and where *)
Definition addressed_type (b : Z) (t : ForwarderType) (off : Z) : Prop :=
  is_byte b /\ ((Z.land b 127 = 1 /\ t = Ipv4 /\ off = 12) \/ (Z.land b 127 = 3 /\ t = Ipv4Frag /\ off = 0)).

Lemma server_forward_spec t1 t2 partial b payload r t off s :
  server_ok s -> sendable r -> admitted s r -> addressed_type b t off -> 20 < blen payload ->
  exists i s', onMessage type_error t1 t2 partial (b :: payload) r s = Ok (tt, s') /\ server_ok s' /\
    (exists s1, met t1 r i (counted (b :: payload) s) s1 /\ heap s' = heap s1 /\ manager s' = manager s1) /\
    ipCache s' = <[int32 payload off := (i, t2 + Timeout)]> (ipCache s) /\
    authProvider s' = authProvider s /\ tasks s' = tasks s /\
    sent s' = rev (map (fun a => (a, ForwarderTypeMap t ++ payload)) (recipients s' r (int32 payload (off + 4)))) ++ sent s.
Proof.
  intros Hok Hr Ha [Hb Ht] Hl. assert (Hh : (parseHead (b :: payload)).1 = t).
  { unfold parseHead. change (getb (b :: payload) 0) with b. by destruct Ht as [(-> & -> & _)|(-> & -> & _)]. }
  destruct (onMessage_enter t1 t2 partial (b :: payload) r s Hok Hr) as (i & s1 & Hm & Hi & Hrp & E); [done| |].
  { intros H. rewrite H in Hh. cbn in Hh. destruct Ht as [(_ & -> & _)|(_ & -> & _)]; done. }
  set (p := default _ _) in *. rewrite Hh in E. cbn [drop] in E.
  assert (E' : onMessage type_error t1 t2 partial (b :: payload) r s = onPacket t2 i t payload s1).
  { rewrite E. destruct Ha as [->|(q & u & Hq & Hu)]; [done|]. destruct (authProvider s); [|done].
    assert (Hup : user p = Some u) by (unfold p; by rewrite Hq). by rewrite Hup. }
  assert (Er : onPacket t2 i t payload s1 = route t2 i t payload (int32 payload off) (int32 payload (off + 4)) s1).
  { destruct Ht as [(_ & -> & ->)|(_ & -> & ->)]; unfold onPacket, onIpv4, onIpv4Frag; destruct (Z.leb_spec (blen payload) 20); try lia;
      unfold OFF_SRC, OFF_DST; unfold bind, lift; by rewrite !readInt32BE_ok by lia. }
  pose proof (met_ok _ _ _ _ _ Hm) as Hok1. rewrite E', Er, (route_eq t2 i p t payload _ _ s1 Hok1 Hi), Hrp.
  pose proof (met_rest _ _ _ _ _ Hm) as Es1. eexists i, _. split; [done|]. split_and!.
  - apply sending_ok, cache_ok; [done|by eauto].
  - by exists s1.
  - cbn. by rewrite Es1.
  - cbn. by rewrite Es1.
  - cbn. by rewrite Es1.
  - cbn. f_equal. by rewrite Es1.
Qed.

Lemma met_peer_at t r i s s' r' : server_ok s -> 0 <= port r -> 0 <= port r' -> met t r i s s' ->
  r' <> r -> peer_at s' r' = peer_at s r'.
Proof.
  intros Hok Hr Hr' Hm Hne. unfold peer_at. rewrite (met_keys _ _ _ _ _ Hm) by (intros E; by apply addr2str_inj in E).
  destruct (entry (manager s) (addr2str r')) as [[x j]|] eqn:E; [|done]. apply entry_in in E.
  pose proof (ok_entries _ Hok) as En. rewrite Forall_forall in En. destruct (En _ (proj1 (list_elem_of_In _ _) E)) as (p & Hp & _). cbn in Hp.
  rewrite Hp. eapply prefix_lookup_Some; [exact Hp|]. apply (met_prefix _ _ _ _ _ Hm).
Qed.
Lemma met_self t r i s s' : met t r i s s' -> peer_at s' r = Some (default (mkPeer r None None) (peer_at s r)).
Proof. intros Hm. unfold peer_at at 1. rewrite (met_entry _ _ _ _ _ Hm). apply (met_peer _ _ _ _ _ Hm). Qed.
Lemma met_admitted t r i s s' r' : server_ok s -> 0 <= port r -> 0 <= port r' -> met t r i s s' -> admitted s r' -> admitted s' r'.
Proof.
  intros Hok Hr Hr' Hm [Ha|(p & u & Hp & Hu)]; [left; by rewrite (met_rest _ _ _ _ _ Hm)|right].
  destruct (decide (r' = r)) as [->|Hne].
  - rewrite (met_self _ _ _ _ _ Hm), Hp. by exists p, u.
  - rewrite (met_peer_at _ _ _ _ _ _ Hok Hr Hr' Hm Hne). by eauto.
Qed.

(** ** Properties *)

(** C16. Nothing a client, an upstream server or the password file does makes
    the server fail: from its start, whatever datagrams arrive from addresses
    with a port from 1 to 65535, and in whatever order the open lookups, random
    bytes, failed sends and timer callbacks come between them, no handler throws,
    and the tables stay consistent: one entry for an address, with the object of
    that address.  Three things are excluded, and end the server: a datagram from
    port 0 ([port_zero_uncaught]), random bytes that cannot be had
    ([fill_failure_uncaught]), and an error of the socket, after which sending
    throws. *)
Theorem server_never_fails provider es : Forall server_input_ok es ->
  wp (server_run type_error es) (fun _ s => server_ok s) (new_server provider).
Proof. apply server_run_safe, new_server_ok. Qed.

(** C17. Forwarding.  A packet or fragment of an admitted client goes, unchanged,
    to the client that last sent from the destination address, or, if the server
    knows none, once to each client of the table but the sender, in the order in
    which they came; and the sender is recorded for the source address. *)
Theorem server_forwards t1 t2 partial b payload r t off s :
  server_ok s -> sendable r -> admitted s r -> addressed_type b t off -> 20 < blen payload ->
  exists i s', server_step type_error (Message t1 t2 partial (b :: payload) r) s = Ok (tt, s') /\
    sent s' = rev (map (fun a => (a, ForwarderTypeMap t ++ payload)) (recipients s' r (int32 payload (off + 4)))) ++ sent s /\
    filter (fun a => a <> r) (clients s') = filter (fun a => a <> r) (clients s) /\
    ipCache s' = <[int32 payload off := (i, t2 + Timeout)]> (ipCache s) /\ rinfo <$> heap s' !! i = Some r.
Proof.
  intros Hok Hr Ha Ht Hl. destruct (server_forward_spec t1 t2 partial b payload r t off s Hok Hr Ha Ht Hl)
    as (i & s' & E & _ & (s1 & Hm & Eh & Em) & Ec & _ & _ & Es). exists i, s'. split_and!; [done|done| |done|].
  - unfold clients. rewrite Eh, Em. apply (met_others _ _ _ _ _ Hm).
  - rewrite Eh, (met_peer _ _ _ _ _ Hm). cbn [fmap option_fmap option_map]. f_equal. by apply default_rinfo; [destruct Hok|].
Qed.

(** Answers come back.  When one admitted client has sent a packet from an
    address, a packet that another then sends to that address goes to the first
    and to nobody else. *)
Theorem answer_returns t1 t2 t3 t4 partial b1 b2 p1 p2 ra rb ty1 ty2 off1 off2 s :
  server_ok s -> sendable ra -> sendable rb -> admitted s ra -> admitted s rb ->
  addressed_type b1 ty1 off1 -> addressed_type b2 ty2 off2 -> 20 < blen p1 -> 20 < blen p2 ->
  int32 p2 (off2 + 4) = int32 p1 off1 -> int32 p2 off2 <> int32 p1 off1 ->
  exists s1 s2, server_step type_error (Message t1 t2 partial (b1 :: p1) ra) s = Ok (tt, s1) /\
    server_step type_error (Message t3 t4 partial (b2 :: p2) rb) s1 = Ok (tt, s2) /\
    sent s2 = (ra, ForwarderTypeMap ty2 ++ p2) :: sent s1.
Proof.
  intros Hok Hra Hrb Ha Hb Ht1 Ht2 Hl1 Hl2 Hdst Hsrc.
  destruct (server_forward_spec t1 t2 partial b1 p1 ra ty1 off1 s Hok Hra Ha Ht1 Hl1)
    as (i & s1 & E1 & Hok1 & (m1 & Hm1 & Eh1 & Em1) & Ec1 & Ea1 & _ & _).
  assert (Hb1 : admitted s1 rb).
  { assert (Hokc : server_ok (counted (b1 :: p1) s)) by (by destruct Hok).
    assert (Hbc : admitted (counted (b1 :: p1) s) rb) by exact Hb.
    destruct (met_admitted _ _ _ _ _ _ Hokc (sendable_nonneg _ Hra) (sendable_nonneg _ Hrb) Hm1 Hbc) as [H|H]; [left|right; unfold peer_at in *; by rewrite Eh1, Em1].
    rewrite Ea1. by rewrite (met_rest _ _ _ _ _ Hm1) in H. }
  destruct (server_forward_spec t3 t4 partial b2 p2 rb ty2 off2 s1 Hok1 Hrb Hb1 Ht2 Hl2)
    as (j & s2 & E2 & Hok2 & (m2 & Hm2 & Eh2 & Em2) & Ec2 & _ & _ & Es2).
  exists s1, s2. split_and!; [done..|]. rewrite Es2. unfold recipients. rewrite Ec2, Hdst, lookup_insert_ne by done.
  rewrite Ec1, lookup_insert_eq, Eh2. assert (Hi : heap s1 !! i = Some (default (mkPeer ra None None) (peer_at s ra))).
  { rewrite Eh1. apply (met_peer _ _ _ _ _ Hm1). }
  rewrite (prefix_lookup_Some _ _ _ _ Hi (met_prefix _ _ _ _ _ Hm2)). cbn [map rev app].
  by rewrite default_rinfo.
Qed.

(** ** Logging in *)

(** nobody's login changed *)
Definition same_users (s s' : SLPServer) : Prop := forall i, (p ← heap s' !! i; user p) = (p ← heap s !! i; user p).

Lemma same_users_heap s s' : heap s' = heap s -> same_users s s'.
Proof. intros E i. by rewrite E. Qed.
Lemma same_users_alter i f s : (forall p, user (f p) = user p) -> same_users s (s <| heap ::= alter f i |>).
Proof.
  intros Hf j. cbn. destruct (decide (i = j)) as [->|Hn].
  - rewrite list_lookup_alter_eq. destruct (heap s !! j); cbn; [apply Hf|done].
  - by rewrite list_lookup_alter_ne.
Qed.
Lemma same_users_met t r i s s' : met t r i s s' -> same_users s s'.
Proof.
  intros Hm j. destruct (met_heap _ _ _ _ _ Hm) as [->| ->]; [done|]. destruct (heap s !! j) as [p|] eqn:E.
  - by rewrite (lookup_app_l_Some _ _ _ _ E).
  - destruct ((heap s ++ _) !! j) as [p'|] eqn:E'; [|done]. apply lookup_app_Some in E' as [E'|[_ E']]; [congruence|].
    by apply list_lookup_singleton_Some in E' as [_ <-].
Qed.

(** the bytes a response is checked against *)
Definition challenge_of (partial : list Z) (p : Peer) : list Z :=
  match challenge p with Some (Ready c) => c | _ => partial end.

Lemma login_eq partial i p u resp r s : reaches s i p -> exists out,
  login partial i u resp r s = Ok (tt, sending (map (fun m => (rinfo p, 16 :: m)) out)
    (if match r with Key k => verify k (challenge_of partial p) resp | Failed _ => false end
     then s <| heap ::= alter (set user (fun _ => Some u)) i |> else s)).
Proof.
  intros Hp. unfold login. rewrite (bind_Ok _ _ _ _ _ (getpeer_eq _ _ _ (proj1 Hp))). fold (challenge_of partial p).
  destruct r as [k|m]; [destruct (verify _ _ _)|].
  - exists []. by destruct s.
  - eexists [_; _]. unfold sendInfo. rewrite (bind_Ok _ _ _ _ _ (sendTo_eq _ _ _ _ _ Hp)). rewrite (sendTo_eq i p) by done.
    rewrite sending_app. done.
  - eexists [_]. unfold sendInfo. rewrite (sendTo_eq i p) by done. done.
Qed.

(** the digest a provider has for a user *)
Definition provider_digest (pr : AuthProvider) (u k : list Z) : Prop :=
  match pr with
  | CustomAuthProvider name sha1 => u = name /\ k = sha1
  | JsonAuthProvider table =>
      (exists pw, table !! u = Some (JPassword pw) /\ k = Fips.sha1 (Utf8.encode pw)) \/
      (exists hex, table !! u = Some (JSha1 hex) /\ k = from_hex hex)
  | HttpAuthProvider _ => False
  end.
Lemma lookup_digest pr u k : getUserPasswordSHA1 type_error pr u = Some (Key k) -> provider_digest pr u k.
Proof.
  destruct pr as [name sha1|table|url]; cbn; [| |done].
  - case_bool_decide; [|done]. by intros [= <-].
  - destruct (table !! u) as [[pw|hex]|]; [|intros [= <-]; eauto|case_bool_decide; done]. intros [= <-]. eauto.
Qed.

(** A login of the peer [p], the [i]-th object, as [u]: the response is the
    SHA-1 digest of the user's digest [k] and the challenge of [p], [partial]
    where that is still being filled.  The response and the name are those of
    the message, and [k] is what the provider has; or they are those of an
    earlier message, and [k] is the upstream server's answer. *)
Definition proven (s : SLPServer) (e : server_input) (i : nat) (p : Peer) (u : list Z) : Prop :=
  exists k c partial resp, resp = Fips.sha1 (k ++ c) /\
    match challenge p with Some (Ready random) => c = random | _ => c = partial end /\
    ((exists t1 t2 b payload r pr, e = Message t1 t2 partial (b :: payload) r /\ rinfo p = r /\ resp = take 20 payload /\
        u = Utf8.decode (drop 20 payload) /\ authProvider s = Some pr /\ provider_digest pr u k) \/
     (exists j, e = Answered j partial (Key k) /\ tasks s !! j = Some (Verification i u resp))).

Lemma verify_response k partial p resp : verify k (challenge_of partial p) resp = true ->
  exists c, resp = Fips.sha1 (k ++ c) /\ match challenge p with Some (Ready random) => c = random | _ => c = partial end.
Proof.
  intros H. apply bool_decide_eq_true in H. exists (challenge_of partial p). split; [done|].
  unfold challenge_of. by destruct (challenge p) as [[]|].
Qed.

(** what unauthenticated messages do: a login attempt, or no more than an answer
    to the sender and a new task *)
Lemma onNeedAuth_eq partial i p t d s : reaches s i p -> exists out s',
  onNeedAuth type_error partial i t d s = Ok (tt, sending (map (fun m => (rinfo p, m)) out) s') /\
  Forall (fun m => exists x, m = 4 :: x \/ m = 16 :: x) out /\
  ipCache s' = ipCache s /\ manager s' = manager s /\ sent s' = sent s /\
  (same_users s s' /\ (forall j, j <> i -> heap s' !! j = heap s !! j) \/
   exists pr k, let u := Utf8.decode (drop 20 d) in authProvider s = Some pr /\ getUserPasswordSHA1 type_error pr u = Some (Key k) /\
     challenge p <> None /\ verify k (challenge_of partial p) (take 20 d) = true /\ s' = s <| heap ::= alter (set user (fun _ => Some u)) i |>).
Proof.
  intros Hp. unfold onNeedAuth. rewrite (bind_Ok _ _ _ _ _ (getpeer_eq _ _ _ (proj1 Hp))).
  assert (Hsame : forall s', sending (map (fun m => (rinfo p, m)) []) s' = s') by (by intros []).
  assert (Hch : exists out s', match challenge p with
      | None => setpeer i (set challenge (fun _ => Some Filling)) ;;; modify (set tasks (fun l => l ++ [FillChallenge i]))
      | Some Filling => ret tt
      | Some (Ready c) => sendTo i AuthMe (0 :: c) end s = Ok (tt, sending (map (fun m => (rinfo p, m)) out) s') /\
      Forall (fun m => exists x, m = 4 :: x \/ m = 16 :: x) out /\
      ipCache s' = ipCache s /\ manager s' = manager s /\ sent s' = sent s /\
      same_users s s' /\ (forall j, j <> i -> heap s' !! j = heap s !! j)).
  { destruct (challenge p) as [[|c]|].
    - exists [], s. by rewrite Hsame.
    - exists [[4] ++ 0 :: c], s. rewrite (sendTo_eq i p) by done. split_and!; try done. constructor; [by exists (0 :: c); left|done].
    - unfold setpeer, modify, bind. eexists [], _. rewrite Hsame. split_and!; [done..| |].
      + by apply (same_users_alter i (set challenge (fun _ => Some Filling)) s).
      + intros j Hj. cbn. by rewrite list_lookup_alter_ne. }
  destruct t; try (destruct Hch as (out & s' & ? & ? & ? & ? & ? & ? & ?); exists out, s'; split_and!; try done; by left).
  unfold bind, gets. destruct (authProvider s) as [pr|] eqn:Epr; [|exists [], s; rewrite Hsame; split_and!; try done; by left].
  destruct (challenge p) eqn:Ec; [|exists [], s; rewrite Hsame; split_and!; try done; by left].
  destruct (blen d <=? 20); [exists [], s; rewrite Hsame; split_and!; try done; by left|].
  destruct (getUserPasswordSHA1 _ _ _) as [r|] eqn:Eg.
  - destruct (login_eq partial i p (Utf8.decode (drop 20 d)) (take 20 d) r s Hp) as [out E]. rewrite E.
    exists (map (cons 16) out). rewrite map_map. eexists. split; [done|]. split.
    { apply Forall_map, Forall_forall. intros m _. exists m. by right. }
    destruct r as [k|m]; [destruct (verify _ _ _) eqn:Ev|]; (split_and!; [done..|]); [right|by left|by left].
    exists pr, k. by split_and!.
  - unfold modify. eexists [], _. rewrite Hsame. split_and!; [done..|]. left. by split.
Qed.

Definition same_heap (s s' : SLPServer) : Prop := heap s' = heap s.
#[local] Instance same_heap_preorder : PreOrder same_heap.
Proof. split; [done|]. unfold same_heap. intros s1 s2 s3 H1 H2. congruence. Qed.

#[local] Hint Extern 1 (same_heap _ _) => exact eq_refl : respects_state.

Lemma getpeer_heap i : respects same_heap (getpeer i).
Proof. unfold getpeer. solve_respects. Qed.
#[local] Hint Resolve getpeer_heap : respects.
Lemma sendTo_heap i t d : respects same_heap (sendTo i t d).
Proof. unfold sendTo, sendToRaw, socket_send. solve_respects. Qed.
#[local] Hint Resolve sendTo_heap : respects.
Lemma sendAll_heap t d l : respects same_heap (sendAll l t d).
Proof. induction l; cbn [sendAll]; solve_respects. Qed.
#[local] Hint Resolve sendAll_heap : respects.
Lemma onPacket_heap now i t d : respects same_heap (onPacket now i t d).
Proof. unfold onPacket, onIpv4, onIpv4Frag, route, sendBroadcast. solve_respects. Qed.

(** C15. Strangers are contained.  With a password provider, a message from an
    address nobody has logged in from reaches no one else: all that is sent goes
    back to that address, none of it is a packet or a fragment, no address is
    recorded for it, and what the server knows of other addresses stays. *)
Theorem unauthenticated_contained t1 t2 partial msg r pr s :
  server_ok s -> sendable r -> authProvider s = Some pr -> (p ← peer_at s r; user p) = None ->
  exists s' out, server_step type_error (Message t1 t2 partial msg r) s = Ok (tt, s') /\
    sent s' = map (pair r) out ++ sent s /\ Forall (fun m => getb m 0 <> 1 /\ getb m 0 <> 3) out /\
    ipCache s' = ipCache s /\ (forall r', 0 <= port r' -> r' <> r -> peer_at s' r' = peer_at s r').
Proof.
  intros Hok Hr Hpr Hu. cbn [server_step]. destruct (decide (msg = [])) as [->|Hm]; [by exists s, []|].
  destruct (decide (parseHead msg = (Ping, false))) as [Hp|Hp].
  { destruct msg as [|b msg]; [done|]. unfold onMessage. destruct (Z.eqb_spec (blen (b :: msg)) 0); [rewrite blen_cons in *; pose proof (blen_nonneg msg); lia|].
    unfold bind at 1, modify. rewrite Hp. unfold onPing. rewrite sendToRaw_eq by (done || apply Hok). eexists _, [take 4 (b :: msg)]. split; [done|]. split_and!; try done. constructor; [|done].
    change (getb (take 4 (b :: msg)) 0) with b.
    unfold parseHead in Hp. change (getb (b :: msg) 0) with b in Hp. split; intros ->; done. }
  destruct (onMessage_enter t1 t2 partial msg r s Hok Hr Hm Hp) as (i & s1 & Hmet & Hi & Hrp & E). set (p := default _ _) in *.
  rewrite Hpr in E. assert (Hup : user p = None) by (unfold p; by destruct (peer_at s r)). rewrite Hup in E.
  destruct (onNeedAuth_eq partial i p (parseHead msg).1 (drop 1 msg) s1 (ok_reaches _ _ _ (met_ok _ _ _ _ _ Hmet) Hi)) as (out & s' & E' & Hout & Ec & Em & Es & Hcase).
  rewrite E, E'. exists (sending (map (fun m => (rinfo p, m)) out) s'), (rev out). split; [done|].
  pose proof (met_rest _ _ _ _ _ Hmet) as Er. split_and!.
  - cbn. rewrite Es, Er, Hrp, <- map_rev. done.
  - apply Forall_rev. eapply List.Forall_impl; [|exact Hout]. by intros m (x & [->| ->]).
  - cbn. rewrite Ec, Er. done.
  - intros r' Hr' Hne. assert (Hok0 : server_ok (counted msg s)) by (by destruct Hok).
    change (peer_at s r') with (peer_at (counted msg s) r'). rewrite <- (met_peer_at _ _ _ _ _ _ Hok0 (sendable_nonneg _ Hr) Hr' Hmet Hne). unfold peer_at.
    change (manager (sending _ s')) with (manager s'). change (heap (sending _ s')) with (heap s'). rewrite Em.
    destruct (entry (manager s1) (addr2str r')) as [[x j]|] eqn:Ee; [|done].
    assert (Hj : j <> i).
    { intros ->. pose proof (met_ok _ _ _ _ _ Hmet) as Hok1. assert (Hpa : peer_at s1 r' = Some p) by (unfold peer_at; by rewrite Ee).
      apply peer_at_rinfo in Hpa; [congruence|done|done]. }
    destruct Hcase as [[_ Hh]|(pr' & k & _ & _ & _ & _ & ->)]; [by apply Hh|]. cbn. by rewrite list_lookup_alter_ne.
Qed.

(** C14. Every login is proven.  Whatever event makes a client count as logged
    in, the response it sent is the SHA-1 digest of the digest of its password
    followed by the challenge of that client (what the challenge's buffer holds,
    while it is still being filled).  The response and the name are taken from
    the client's message, and the password's digest is the one the provider has
    for that name; or they are those of an open lookup, and the digest is what
    the upstream server answered. *)
Theorem login_proven e s s' i u :
  server_ok s -> server_input_ok e -> server_step type_error e s = Ok (tt, s') ->
  (p ← heap s' !! i; user p) = Some u -> (p ← heap s !! i; user p) <> Some u ->
  exists p, heap s !! i = Some p /\ proven s e i p u.
Proof.
  intros Hok He. destruct e as [t1 t2 partial msg r|j random|j|j partial r|r| |t1 t2| |r]; cbn [server_step server_input_ok] in *; try done.
  - intros E Hs' Hs. destruct (decide (msg = [])) as [->|Hm]; [by injection E as <-|].
    destruct (decide (parseHead msg = (Ping, false))) as [Hp|Hp].
    { exfalso. unfold onMessage in E. destruct (blen msg =? 0); [by injection E as <-|]. unfold bind at 1, modify in E. rewrite Hp in E.
      unfold onPing in E. rewrite sendToRaw_eq in E by (done || apply Hok). by injection E as <-. }
    destruct (onMessage_enter t1 t2 partial msg r s Hok He Hm Hp) as (k & s1 & Hmet & Hk & Hrp & E1). set (p := default _ _) in *.
    pose proof (same_users_met _ _ _ _ _ Hmet) as Hsu. rewrite E1 in E. clear E1.
    change (heap s) with (heap (counted msg s)) in Hs. rewrite <- (Hsu i) in Hs.
    assert (Hpk : onPacket t2 k (parseHead msg).1 (drop 1 msg) s1 <> Ok (tt, s')).
    { intros Ep. apply onPacket_heap in Ep. rewrite Ep in Hs'. done. }
    destruct (authProvider s) as [pr|] eqn:Epr; [|done]. destruct (user p); [done|].
    destruct (onNeedAuth_eq partial k p (parseHead msg).1 (drop 1 msg) s1 (ok_reaches _ _ _ (met_ok _ _ _ _ _ Hmet) Hk)) as (out & s2 & E' & _ & _ & _ & _ & Hcase).
    rewrite E' in E. injection E as <-. destruct Hcase as [[Hsame _]|(pr' & key & Epr' & Eg & Hch & Hv & ->)].
    { cbn in Hs'. exfalso. apply Hs. by rewrite <- (Hsame i). }
    cbn in Hs'. destruct (decide (k = i)) as [->|Hn]; [|rewrite list_lookup_alter_ne in Hs' by done; done].
    rewrite list_lookup_alter_eq, Hk in Hs'. injection Hs' as <-. exists p. split.
    { destruct (met_heap _ _ _ _ _ Hmet) as [Eh|Eh]; rewrite Eh in Hk; [done|]. apply lookup_app_Some in Hk as [Hk|[_ Hk]]; [done|].
      apply list_lookup_singleton_Some in Hk as [_ Hk]. by rewrite <- Hk in Hch. }
    destruct (verify_response _ _ _ _ Hv) as (c & Hc & Hcc). exists key, c, partial, (take 20 (drop 1 msg)). split; [done|]. split; [done|].
    left. destruct msg as [|b payload]; [done|]. cbn [drop] in *. exists t1, t2, b, payload, r, pr.
    rewrite (met_rest _ _ _ _ _ Hmet) in Epr'. cbn in Epr'. rewrite Epr in Epr'. injection Epr' as <-. apply lookup_digest in Eg. done.
  - unfold bind at 1, gets. destruct (tasks s !! j) as [[peer|]|] eqn:Ej; [|by intros [= <-]..].
    unfold challenge_filled, setpeer, bind at 1 2, modify. intros E Hs' Hs. apply sendTo_heap in E. rewrite E in Hs'. exfalso. apply Hs.
    rewrite <- Hs'. symmetry.
    refine (same_users_alter peer (set challenge (fun _ => Some (Ready random))) (s <| tasks ::= delete j |>) _ i). done.
  - unfold bind at 1, gets. destruct (tasks s !! j) as [[|k v resp]|] eqn:Ej; [by intros [= <-]| |by intros [= <-]].
    unfold bind, modify. pose proof (task_some _ _ _ Hok Ej) as [p Hp]. cbn in Hp. intros E Hs' Hs.
    set (s1 := set tasks (delete j) s) in E. assert (Hok1 : server_ok s1) by (by apply del_task_ok).
    destruct (login_eq partial k p v resp r s1 (ok_reaches _ _ _ Hok1 Hp)) as [out El].
    rewrite El in E. injection E as <-. cbn in Hs'.
    destruct r as [key|m]; [destruct (verify _ _ _) eqn:Ev|]; [|done..]. cbn in Hs'.
    destruct (decide (k = i)) as [->|Hn]; [|by rewrite list_lookup_alter_ne in Hs'].
    rewrite list_lookup_alter_eq, Hp in Hs'. injection Hs' as <-. exists p. split; [done|].
    destruct (verify_response _ _ _ _ Ev) as (c & Hc & Hcc). exists key, c, partial, resp. split_and!; [done|done|right; by exists j].
  - intros [= <-] ? ?. done.
  - unfold onInterval, manager_clearExpire, bind, modify. intros [= <-] ? ?. done.
  - intros [= <-] ? ?. done.
  - intros [= <-] ? ?. done.
Qed.

Lemma run_filled i random j s p : server_ok s -> tasks s !! j = Some (FillChallenge i) -> heap s !! i = Some p ->
  server_step type_error (Filled j random) s = Ok (tt, sending [(rinfo p, 4 :: 0 :: random)]
    (set heap (alter (set challenge (fun _ => Some (Ready random))) i) (set tasks (delete j) s))).
Proof.
  intros Hok Hj Hp. cbn [server_step]. unfold bind at 1, gets. rewrite Hj. unfold challenge_filled, setpeer, bind at 1 2, modify.
  set (s1 := set heap _ _). assert (H1 : heap s1 !! i = Some (set challenge (fun _ => Some (Ready random)) p)).
  { unfold s1. cbn. by rewrite list_lookup_alter_eq, Hp. }
  rewrite (sendTo_eq i (set challenge (fun _ => Some (Ready random)) p)); [done|]. split; [done|]. split; [|apply Hok].
  exact (ok_port _ _ _ Hok Hp).
Qed.

(** the first message of an address with a password provider *)
Lemma first_message t1 t2 partial r pr s : server_ok s -> sendable r -> authProvider s = Some pr -> peer_at s r = None ->
  exists i s1, server_step type_error (Message t1 t2 partial [0] r) s = Ok (tt, s1) /\ server_ok s1 /\
    heap s1 !! i = Some (mkPeer r None (Some Filling)) /\ entry (manager s1) (addr2str r) = Some (t1 + Timeout, i) /\
    tasks s1 = tasks s ++ [FillChallenge i] /\ sent s1 = sent s /\ authProvider s1 = Some pr.
Proof.
  intros Hok Hr Hpr Hn. pose proof (onMessage_safe t1 t2 partial [0] r s Hok Hr) as Hs. apply wp_run in Hs as ([] & s1 & E & Hok1).
  destruct (onMessage_enter t1 t2 partial [0] r s Hok Hr) as (i & m & Hm & Hi & _ & E'); [done..|]. rewrite Hn in Hi. cbn in Hi.
  rewrite Hpr, Hn in E'. cbn [user default from_option] in E'. rewrite E in E'. exists i, s1. split; [done|]. split; [done|].
  change (parseHead [0]).1 with Keepalive in E'. cbn [drop] in E'. unfold onNeedAuth in E'. rewrite (bind_Ok _ _ _ _ _ (getpeer_eq _ _ _ Hi)) in E'. cbn in E'.
  injection E' as ->. pose proof (met_rest _ _ _ _ _ Hm) as Er. cbn. split_and!.
  - by rewrite list_lookup_alter_eq, Hi.
  - apply (met_entry _ _ _ _ _ Hm).
  - by rewrite Er.
  - by rewrite Er.
  - by rewrite Er.
Qed.

(** the client's side *)
Lemma client_answers d rest name w :
  let c := lp_client (lp w) in
  username c = Some name -> blen name <= 65515 -> bytes (key c) -> blen (key c) = 20 -> bytes (4 :: 0 :: d ++ rest) -> blen d < 65000 ->
  wp (lan_client_on_recv (blen (4 :: 0 :: d)) (4 :: 0 :: d ++ rest)) (fun _ w' =>
    output w' = ClientSent (4 :: Fips.sha1 (key c ++ d) ++ name) :: output w) w.
Proof.
  intros c Hn Hnl Hk Hkl Hb Hd. pose proof (blen_nonneg d) as H0. pose proof (blen_nonneg rest) as H1. unfold lan_client_on_recv. rewrite !blen_cons.
  destruct (Z.leb_spec (1 + (1 + blen d)) 0); [lia|]. rewrite u16_small by lia.
  apply wp_bind. eapply wp_lift; [apply READ_NET8_ok; rewrite !blen_cons, blen_app; lia|]. change (getb (4 :: _) 0) with 4. cbn [Z.land Z.eqb].
  apply wp_bind, wp_modify, wp_bind, wp_modify. set (w1 := set lp _ (set lp _ w)).
  change (ptr (4 :: 0 :: d ++ rest) 1) with (0 :: d ++ rest). rewrite u16_small by lia.
  eapply wp_mono; [apply (auth_response (0 :: d ++ rest) (1 + (1 + blen d) - 1) name w1)|]; try done.
  - by apply Forall_cons_iff in Hb as [_ Hb].
  - rewrite blen_cons, blen_app. lia.
  - lia.
  - intros [] w' Ho. rewrite Ho. change (output w1) with (output w). change (key (lp_client (lp w1))) with (key c).
    replace (field (0 :: d ++ rest) 1 (1 + (1 + blen d) - 1 - 1)) with d; [done|].
    replace (1 + (1 + blen d) - 1 - 1) with (blen d) by lia. unfold field, blen. rewrite Nat2Z.id. symmetry. apply take_app_length.
Qed.

Lemma auth_accepted partial i p u k s pr :
  reaches s i p -> authProvider s = Some pr -> challenge p <> None -> getUserPasswordSHA1 type_error pr u = Some (Key k) ->
  Forall Utf8.scalar u -> u <> [] -> exists out,
  onNeedAuth type_error partial i AuthMe (Fips.sha1 (k ++ challenge_of partial p) ++ Utf8.encode u) s =
    Ok (tt, sending out (set heap (alter (set user (fun _ => Some u)) i) s)).
Proof.
  intros Hp Hpr Hch Hg Hsc Hne. unfold onNeedAuth. rewrite (bind_Ok _ _ _ _ _ (getpeer_eq _ _ _ (proj1 Hp))). unfold bind, gets. rewrite Hpr.
  destruct (challenge p) eqn:Ec; [|done]. pose proof (blen_sha1 (k ++ challenge_of partial p)) as Hl. set (h := Fips.sha1 _) in *.
  assert (Hl' : length h = 20%nat) by (unfold blen in Hl; lia).
  assert (Hu : 0 < blen (Utf8.encode u)).
  { destruct u as [|a u]; [done|]. unfold Utf8.encode. cbn [flat_map]. rewrite blen_app. pose proof (blen_nonneg (flat_map Utf8.encode_char u)).
    unfold Utf8.encode_char at 1. destruct (a <? 128), (a <? 2048), (a <? 65536); unfold blen at 1; cbn [length]; lia. }
  destruct (Z.leb_spec (blen (h ++ Utf8.encode u)) 20); [rewrite blen_app in *; lia|].
  rewrite <- Hl', drop_app_length, take_app_length, Utf8.utf8_round_trip, Hg by done.
  destruct (login_eq partial i p u h (Key k) s Hp) as [out E]. rewrite E.
  assert (Hv : verify k (challenge_of partial p) h = true) by (by apply bool_decide_eq_true). rewrite Hv. by eexists.
Qed.

(** C13. Logging in works.  A client that is set up with a user name and the
    digest of its password meets a server whose provider has that digest for
    that name: the client's first datagram makes the server send a challenge,
    the client answers it, and with the answer it is logged in under its name,
    whatever the random bytes of the challenge are. *)
Theorem login_succeeds t1 t2 t3 t4 partial random rest r pr u s w :
  let c := lp_client (lp w) in
  server_ok s -> sendable r -> authProvider s = Some pr -> peer_at s r = None ->
  getUserPasswordSHA1 type_error pr u = Some (Key (key c)) -> username c = Some (Utf8.encode u) ->
  Forall Utf8.scalar u -> u <> [] -> blen (Utf8.encode u) <= 65515 -> bytes (key c) -> blen (key c) = 20 ->
  blen random = 64 -> bytes random -> bytes rest ->
  exists s2 d, server_run type_error [Message t1 t2 partial [0] r; Filled (length (tasks s)) random] s = Ok (tt, s2) /\
    sent s2 = (r, d) :: sent s /\
    wp (lan_client_on_recv (blen d) (d ++ rest)) (fun _ w' => exists m, output w' = ClientSent m :: output w /\
      exists s3, server_step type_error (Message t3 t4 partial m r) s2 = Ok (tt, s3) /\ (p ← peer_at s3 r; user p) = Some u) w.
Proof.
  intros c Hok Hr Hpr Hn Hg Hu Hsc Hne Hul Hk Hkl Hrl Hrb Hrest.
  destruct (first_message t1 t2 partial r pr s Hok Hr Hpr Hn) as (i & s1 & E1 & Hok1 & Hi & He & Ht & Hs & Hpr1).
  assert (Ht' : tasks s1 !! length (tasks s) = Some (FillChallenge i)) by (rewrite Ht; by apply list_lookup_middle).
  pose proof (run_filled i random _ s1 _ Hok1 Ht' Hi) as E2. cbn [rinfo] in E2. set (s2 := sending _ _) in E2.
  assert (Hok2 : server_ok s2) by (apply sending_ok, setpeer_ok; [done|by apply del_task_ok]).
  exists s2, (4 :: 0 :: random). cbn [server_run]. rewrite (bind_Ok _ _ _ _ _ E1), (bind_Ok _ _ _ _ _ E2). split; [done|].
  split; [cbn; by rewrite Hs|]. eapply wp_mono; [apply (client_answers random rest (Utf8.encode u) w); try done; [|lia]|].
  { repeat constructor; [done..|]. apply Forall_app. by split. }
  intros [] w' Ho. fold c in Ho. exists (4 :: Fips.sha1 (key c ++ random) ++ Utf8.encode u). split; [done|].
  set (m := 4 :: _). assert (Hp2 : peer_at s2 r = Some (mkPeer r None (Some (Ready random)))).
  { unfold peer_at. change (manager s2) with (manager s1). rewrite He. change (heap s2) with (alter (set challenge (fun _ => Some (Ready random))) i (heap s1)).
    by rewrite list_lookup_alter_eq, Hi. }
  destruct (onMessage_enter t3 t4 partial m r s2 Hok2 Hr) as (i3 & m3 & Hm3 & Hi3 & _ & E3); [done..|].
  rewrite Hp2 in Hi3, E3. cbn [default from_option user] in E3. change (authProvider s2) with (authProvider s1) in E3. rewrite Hpr1 in E3.
  change (parseHead m).1 with AuthMe in E3. change (drop 1 m) with (Fips.sha1 (key c ++ random) ++ Utf8.encode u) in E3.
  assert (Hpr3 : authProvider m3 = Some pr) by (rewrite (met_rest _ _ _ _ _ Hm3); exact Hpr1).
  destruct (auth_accepted partial i3 _ u (key c) m3 pr (ok_reaches _ _ _ (met_ok _ _ _ _ _ Hm3) Hi3) Hpr3) as [out E4]; [done..|].
  eexists. split; [exact (eq_trans E3 E4)|]. unfold peer_at. change (manager (sending _ _)) with (manager m3).
  rewrite (met_entry _ _ _ _ _ Hm3). cbn. rewrite list_lookup_alter_eq. by rewrite Hi3.
Qed.
End Safety.

(** ** Examples *)

Module Clients.
Definition alice : AddressInfo := mkAddr "::ffff:192.0.2.1" 4000.
Definition bob : AddressInfo := mkAddr "::ffff:192.0.2.2" 4000.
(** a datagram from address [a] to address [b] of the network *)
Definition packet (a b : Z) : list Z := replicate 12 0 ++ [10; 147; 17; a; 10; 147; 17; b; 7].
Definition after (es : list server_input) (s : SLPServer) : SLPServer :=
  match server_run [] es s with Ok (_, s) => s | Stop _ => s end.
Definition hello (r : AddressInfo) : server_input := Message 0 0 [] [0] r.
Definition open_server : SLPServer := after [hello alice; hello bob] (new_server None).
Definition name : list Z := [97; 228].
Definition provider : AuthProvider := CustomAuthProvider name (Fips.sha1 (text "secret")).
Definition guarded_server : SLPServer := after [hello alice; hello bob] (new_server (Some provider)).

Definition challenged : SLPServer := after [Filled 0 (replicate 64 9)] guarded_server.
Definition response : server_input :=
  Message 3 3 [] (4 :: Fips.sha1 (Fips.sha1 (text "secret") ++ replicate 64 9) ++ Utf8.encode name) alice.
Definition client : world :=
  Sample.relay <| lp ::= set lp_client (fun c => c <| username := Some (Utf8.encode name) |> <| key := Fips.sha1 (text "secret") |>) |>.

Lemma after_ok es s : server_ok s -> Forall server_input_ok es -> server_ok (after es s).
Proof. intros Hs He. pose proof (server_run_safe [] es s Hs He) as H. unfold wp in H. unfold after. by destruct (server_run _ _ _) as [[]|]. Qed.
Lemma open_ok : server_ok open_server.
Proof. apply after_ok; [apply new_server_ok|by repeat constructor]. Qed.
Lemma guarded_ok : server_ok guarded_server.
Proof. apply after_ok; [apply new_server_ok|by repeat constructor]. Qed.
Lemma challenged_ok : server_ok challenged.
Proof. apply after_ok; [apply guarded_ok|by repeat constructor]. Qed.
End Clients.

Lemma server_witness :
  match server_run [] [Clients.hello Clients.alice; Message 5 5 [] [1; 2] Clients.bob; Interval 40000 40000] (new_server None) with
  | Ok (_, s) => server_ok s
  | Stop _ => False
  end.
Proof.
  apply (server_never_fails [] None [Clients.hello Clients.alice; Message 5 5 [] [1; 2] Clients.bob; Interval 40000 40000]).
  by repeat constructor.
Defined.

Lemma forwards_witness : exists i s',
  server_step [] (Message 1 1 [] (1 :: Clients.packet 2 3) Clients.alice) Clients.open_server = Ok (tt, s') /\
  sent s' = rev (map (fun a => (a, 1 :: Clients.packet 2 3)) (recipients s' Clients.alice (int32 (Clients.packet 2 3) 16))) ++ [] /\
  filter (fun a => a <> Clients.alice) (clients s') = [Clients.bob] /\ rinfo <$> heap s' !! i = Some Clients.alice.
Proof.
  destruct (server_forwards [] 1 1 [] 1 (Clients.packet 2 3) Clients.alice Ipv4 12 Clients.open_server Clients.open_ok)
    as (i & s' & E & Hs & Hc & _ & Hi); [done|by left|by split; [|left]|done|].
  exists i, s'. split; [exact E|]. split; [exact Hs|]. split; [rewrite Hc; by vm_compute|exact Hi].
Defined.

Lemma returns_witness : exists s1 s2,
  server_step [] (Message 1 1 [] (1 :: Clients.packet 2 3) Clients.alice) Clients.open_server = Ok (tt, s1) /\
  server_step [] (Message 2 2 [] (1 :: Clients.packet 3 2) Clients.bob) s1 = Ok (tt, s2) /\
  sent s2 = (Clients.alice, 1 :: Clients.packet 3 2) :: sent s1.
Proof.
  apply (answer_returns [] 1 1 2 2 [] 1 1 (Clients.packet 2 3) (Clients.packet 3 2) Clients.alice Clients.bob Ipv4 Ipv4 12 12
    Clients.open_server Clients.open_ok); try done; [by left|by left|by split; [|left]..].
Defined.

Lemma contained_witness : exists s' out,
  server_step [] (Message 1 1 [] (1 :: Clients.packet 2 3) Clients.alice) Clients.guarded_server = Ok (tt, s') /\
  sent s' = map (pair Clients.alice) out ++ [] /\ ipCache s' = ∅.
Proof.
  destruct (unauthenticated_contained [] 1 1 [] (1 :: Clients.packet 2 3) Clients.alice Clients.provider Clients.guarded_server
    Clients.guarded_ok) as (s' & out & E & Hs & _ & Hc & _); [done|by vm_compute|by vm_compute|].
  exists s', out. split; [exact E|]. split; [exact Hs|]. rewrite Hc. by vm_compute.
Defined.

Lemma proven_witness : exists p, heap Clients.challenged !! 0%nat = Some p /\ proven Clients.challenged Clients.response 0 p Clients.name.
Proof.
  destruct (server_step [] Clients.response Clients.challenged) as [[[] s']|] eqn:E; [|by vm_compute in E].
  apply (login_proven [] Clients.response Clients.challenged s' 0 Clients.name Clients.challenged_ok); [change (sendable Clients.alice); split; reflexivity|exact E| |by vm_compute].
  vm_compute in E. injection E as <-. reflexivity.
Defined.

Lemma login_witness :
  choose_provider None [text "--simpleAuth"; text "ab:secret"] = Ok (Some (new_custom [97; 98] (text "secret"))) /\
  exists s2 d, server_run [] [Message 1 1 [] [0] Clients.alice; Filled 0 (replicate 64 9)] (new_server (Some Clients.provider)) = Ok (tt, s2) /\
    sent s2 = [(Clients.alice, d)] /\
    wp (lan_client_on_recv (blen d) (d ++ [1; 2])) (fun _ w' => exists m, output w' = [ClientSent m] /\
      exists s3, server_step [] (Message 2 2 [] m Clients.alice) s2 = Ok (tt, s3) /\ (p ← peer_at s3 Clients.alice; user p) = Some Clients.name)
      Clients.client.
Proof.
  split; [by vm_compute|].
  assert (Hg : getUserPasswordSHA1 [] Clients.provider Clients.name = Some (Key (Fips.sha1 (text "secret")))) by reflexivity.
  pose proof (login_succeeds [] 1 1 2 2 [] (replicate 64 9) [1; 2] Clients.alice Clients.provider Clients.name
    (new_server (Some Clients.provider)) Clients.client) as H. cbv zeta in H.
  change (key (lp_client (lp Clients.client))) with (Fips.sha1 (text "secret")) in H.
  change (output Clients.client) with (@nil event) in H. refine (H _ _ _ _ Hg _ _ _ _ _ _ _ _ _); clear H Hg.
  - apply new_server_ok.
  - by vm_compute.
  - reflexivity.
  - reflexivity.
  - reflexivity.
  - repeat constructor; unfold Utf8.scalar; lia.
  - discriminate.
  - by vm_compute.
  - apply sha1_bytes.
  - apply blen_sha1.
  - reflexivity.
  - by apply Forall_replicate.
  - by repeat constructor.
Defined.

(** ** Behaviours to know *)

(** A datagram from port 0 ends the server as soon as it is answered. *)
Theorem port_zero_uncaught : server_run [] [Message 0 0 [] [2; 1; 1; 1] (mkAddr "::ffff:192.0.2.1" 0)] (new_server None) = Stop Uncaught.
Proof. by vm_compute. Qed.
(** It need not be answered: when another client broadcasts, it is sent to. *)
Theorem port_zero_broadcast_uncaught :
  server_run [] [Message 0 0 [] [0] (mkAddr "::ffff:192.0.2.1" 0); Message 1 1 [] (1 :: Clients.packet 2 255) Clients.bob] (new_server None) =
    Stop Uncaught.
Proof. by vm_compute. Qed.

(** The rejection of a random source that fails is handled nowhere. *)
Theorem fill_failure_uncaught :
  server_run [] [Clients.hello Clients.alice; FillFailed 0] (new_server (Some Clients.provider)) = Stop Uncaught.
Proof. by vm_compute. Qed.

(** A wrong password is reported twice. *)
Theorem wrong_password_told_twice partial i p u resp k s :
  reaches s i p -> verify k (challenge_of partial p) resp = false -> exists m,
  login partial i u resp (Key k) s = Ok (tt, sending [(rinfo p, m); (rinfo p, m)] s).
Proof.
  intros Hp Hv. unfold login. rewrite (bind_Ok _ _ _ _ _ (getpeer_eq _ _ _ (proj1 Hp))). fold (challenge_of partial p). rewrite Hv.
  unfold sendInfo. rewrite (bind_Ok _ _ _ _ _ (sendTo_eq _ _ _ _ _ Hp)), (sendTo_eq i p) by done. rewrite sending_app. by eexists.
Qed.

(** A client that has not logged in receives what others broadcast. *)
Theorem strangers_receive :
  let s := Clients.after [Clients.response] Clients.challenged in
  (p ← peer_at s Clients.bob; user p) = None /\
  match server_step [] (Message 4 4 [] (1 :: Clients.packet 2 255) Clients.alice) s with
  | Ok (_, s') => hd_error (sent s') = Some (Clients.bob, 1 :: Clients.packet 2 255)
  | Stop _ => False
  end.
Proof. by vm_compute. Qed.
