(* ===== verification/Quoting.v ===== *)
(** * Quoting: commands handed to a shell and to AppleScript

    The desktop applications start the relay as administrator through a command
    line that a shell splits, on macOS inside an AppleScript string.
    [desktop/model.cpp] quotes for both, and the Swift application
    [RelayModel.swift] has its own pair of functions.  [shell_words] is how a
    POSIX shell splits a simple command (XCU 2.2 and 2.6.5), undefined where a
    character it does not take literally is met unquoted; [applescript_literal]
    reads a string of AppleScript. *)

From Stdlib Require Import Ascii.
From stdpp Require Import strings.
From S2P Require Import Prelude Bytes Address.

#[local] Open Scope string_scope.

(** ** The code *)

(** [s.replace(c, by)] for a character [c] *)
Fixpoint replace_all (c : ascii) (by_ : string) (s : string) : string :=
  match s with
  | "" => ""
  | String d s => if Ascii.eqb d c then by_ +:+ replace_all c by_ s else String d (replace_all c by_ s)
  end.

Definition squote : ascii := "'".
Definition dquote : ascii := ascii_of_nat 34.
Definition backslash : ascii := "\".
Definition newline : ascii := ascii_of_nat 10.
Definition carriage_return : ascii := ascii_of_nat 13.

Definition quote_mark : string := String squote (String dquote (String squote (String dquote (String squote "")))).

Definition shellQuote (s : string) : string :=
  String squote (replace_all squote quote_mark s) +:+ String squote "".

Definition appleScriptQuote (s : string) : string :=
  let s := replace_all backslash (String backslash (String backslash "")) s in
  let s := replace_all dquote (String backslash (String dquote "")) s in
  let s := replace_all newline (String backslash "n") s in
  let s := replace_all carriage_return (String backslash "r") s in
  String dquote s +:+ String dquote "".

(** [list.join(' ')] *)
Fixpoint join_words (l : list string) : string :=
  match l with
  | [] => ""
  | [w] => w
  | w :: l => w +:+ String " " (join_words l)
  end.

(** The Swift application: the replacement for a quote has a backslash before
    each double quote, and line ends are left as they are in AppleScript. *)
Definition swift_quote_mark : string :=
  String squote (String backslash (String dquote (String squote (String backslash (String dquote (String squote "")))))).
Definition swift_shellQuote (s : string) : string :=
  String squote (replace_all squote swift_quote_mark s) +:+ String squote "".
Definition swift_appleScriptQuote (s : string) : string :=
  let s := replace_all backslash (String backslash (String backslash "")) s in
  let s := replace_all dquote (String backslash (String dquote "")) s in
  String dquote s +:+ String dquote "".

(** ** How a shell and AppleScript read *)

Inductive quoting := Plain | Single | Double.

(** characters with a meaning of their own outside quotes *)
Definition shell_special (c : ascii) : bool :=
  existsb (Ascii.eqb c) (String.list_ascii_of_string "|&;<>()$`*?[#~=%!{}" ++ [newline]).

Definition snoc (w : option string) (c : ascii) : option string := Some (default "" w +:+ String c "").

Fixpoint shell_words (q : quoting) (cur : option string) (s : string) : option (list string) :=
  match q, s with
  | Plain, "" => Some match cur with Some w => [w] | None => [] end
  | _, "" => None
  | Plain, String c s =>
      if Ascii.eqb c " " then
        match cur with Some w => cons w <$> shell_words Plain None s | None => shell_words Plain None s end
      else if Ascii.eqb c squote then shell_words Single (Some (default "" cur)) s
      else if Ascii.eqb c dquote then shell_words Double (Some (default "" cur)) s
      else if Ascii.eqb c backslash then
        match s with String d s => if Ascii.eqb d newline then None else shell_words Plain (snoc cur d) s | "" => None end
      else if shell_special c then None
      else shell_words Plain (snoc cur c) s
  | Single, String c s => if Ascii.eqb c squote then shell_words Plain cur s else shell_words Single (snoc cur c) s
  | Double, String c s =>
      if Ascii.eqb c dquote then shell_words Plain cur s
      else if Ascii.eqb c backslash || Ascii.eqb c "$" || Ascii.eqb c "`" then None
      else shell_words Double (snoc cur c) s
  end.

(** the rest of a literal after its opening quote, with what follows it *)
Fixpoint applescript_rest (s : string) : option (string * string) :=
  match s with
  | "" => None
  | String c s =>
      if Ascii.eqb c dquote then Some ("", s)
      else if Ascii.eqb c backslash then
        match s with
        | String d s =>
            let char := if Ascii.eqb d "n" then Some newline else if Ascii.eqb d "r" then Some carriage_return
              else if Ascii.eqb d dquote || Ascii.eqb d backslash then Some d else None in
            match char, applescript_rest s with
            | Some e, Some (w, rest) => Some (String e w, rest)
            | _, _ => None
            end
        | "" => None
        end
      else match applescript_rest s with Some (w, rest) => Some (String c w, rest) | None => None end
  end.
Definition applescript_literal (s : string) : option (string * string) :=
  match s with String c s => if Ascii.eqb c dquote then applescript_rest s else None | "" => None end.

(** ** Proofs *)

Lemma single_body v : forall w s,
  shell_words Single (Some w) (replace_all squote quote_mark v +:+ String squote s) = shell_words Plain (Some (w +:+ v)) s.
Proof.
  induction v as [|c v IH]; intros w s; cbn [replace_all].
  - change ("" +:+ String squote s) with (String squote s). cbn. by rewrite string_app_nil_r.
  - destruct (Ascii.eqb_spec c squote) as [->|Hc].
    + change (shell_words Single (Some w) ((quote_mark +:+ replace_all squote quote_mark v) +:+ String squote s) =
        shell_words Plain (Some (w +:+ String squote v)) s).
      rewrite string_app_assoc. change (shell_words Single (Some w) (quote_mark +:+ ?x)) with (shell_words Single (Some (w +:+ String squote "")) x).
      rewrite IH, string_app_assoc. done.
    + rewrite string_app_cons. cbn [shell_words]. destruct (Ascii.eqb_spec c squote); [done|]. unfold snoc. cbn [default from_option].
      rewrite IH, string_app_assoc. done.
Qed.
Lemma quoted_word v cur s : shell_words Plain cur (shellQuote v +:+ s) = shell_words Plain (Some (default "" cur +:+ v)) s.
Proof.
  unfold shellQuote. rewrite string_app_cons, string_app_cons, string_app_assoc.
  change (String squote "" +:+ s) with (String squote s). cbn [shell_words]. apply single_body.
Qed.
Lemma join_cons w v l : join_words (w :: v :: l) = w +:+ String " " (join_words (v :: l)).
Proof. done. Qed.

Lemma words_quoted args : shell_words Plain None (join_words (map shellQuote args)) = Some args.
Proof.
  induction args as [|v args IH]; [done|]. destruct args as [|v' args].
  - cbn [map join_words]. rewrite <- (string_app_nil_r (shellQuote v)), quoted_word. done.
  - cbn [map]. cbn [map] in IH. rewrite join_cons, quoted_word. cbn [shell_words Ascii.eqb]. rewrite IH. done.
Qed.

(** one character of an AppleScript literal *)
Definition escape_char (c : ascii) : string :=
  if Ascii.eqb c backslash then String backslash (String backslash "") else
  if Ascii.eqb c dquote then String backslash (String dquote "") else
  if Ascii.eqb c newline then String backslash "n" else
  if Ascii.eqb c carriage_return then String backslash "r" else String c "".
Fixpoint escaped (s : string) : string :=
  match s with "" => "" | String c s => escape_char c +:+ escaped s end.

Lemma replace_app c b x y : replace_all c b (x +:+ y) = replace_all c b x +:+ replace_all c b y.
Proof.
  induction x as [|d x IH]; [done|]. rewrite string_app_cons. cbn [replace_all]. destruct (Ascii.eqb d c); rewrite IH.
  - by rewrite string_app_assoc.
  - done.
Qed.
Lemma escaped_quote s : appleScriptQuote s = String dquote (escaped s) +:+ String dquote "".
Proof.
  unfold appleScriptQuote. do 2 f_equal. induction s as [|c s IH]; [done|]. cbn [escaped]. rewrite <- IH. clear IH.
  cbn [replace_all]. unfold escape_char.
  destruct (Ascii.eqb_spec c backslash) as [->|H1]; [by rewrite !replace_app|].
  cbn [replace_all]. destruct (Ascii.eqb_spec c dquote) as [->|H2]; [by rewrite !replace_app|].
  cbn [replace_all]. destruct (Ascii.eqb_spec c newline) as [->|H3]; [by rewrite !replace_app|].
  cbn [replace_all]. destruct (Ascii.eqb_spec c carriage_return) as [->|H4]; [done|done].
Qed.
Lemma escape_read c x : applescript_rest (escape_char c +:+ x) =
  match applescript_rest x with Some (w, rest) => Some (String c w, rest) | None => None end.
Proof.
  unfold escape_char. destruct (Ascii.eqb_spec c backslash) as [->|H1]; [done|].
  destruct (Ascii.eqb_spec c dquote) as [->|H2]; [done|]. destruct (Ascii.eqb_spec c newline) as [->|H3]; [done|].
  destruct (Ascii.eqb_spec c carriage_return) as [->|H4]; [done|]. change (String c "" +:+ x) with (String c x). cbn [applescript_rest].
  by destruct (Ascii.eqb_spec c dquote), (Ascii.eqb_spec c backslash).
Qed.
Lemma escaped_read s rest : applescript_rest (escaped s +:+ String dquote rest) = Some (s, rest).
Proof. induction s as [|c s IH]; [done|]. cbn [escaped]. by rewrite string_app_assoc, escape_read, IH. Qed.

Lemma literal_quoted s rest : applescript_literal (appleScriptQuote s +:+ rest) = Some (s, rest).
Proof.
  rewrite escaped_quote, string_app_cons, string_app_cons, string_app_assoc. cbn [applescript_literal]. apply escaped_read.
Qed.

(** ** Properties *)

(** C34. The command that is run as administrator is the one that was meant:
    whatever characters the words contain, AppleScript reads the script's string
    literal back as the quoted command, and the shell splits the quoted command
    into exactly those words. *)
Theorem command_survives args rest :
  shell_words Plain None (join_words (map shellQuote args)) = Some args /\
  applescript_literal (appleScriptQuote (join_words (map shellQuote args)) +:+ rest) = Some (join_words (map shellQuote args), rest).
Proof. split; [apply words_quoted|apply literal_quoted]. Qed.

(** The Swift application's quoting does not survive a quote: the word is not
    read back, and what stands between two quotes is outside the quotes. *)
Theorem swift_quote_breaks :
  shell_words Plain None (swift_shellQuote "it's") = None /\
  shell_words Plain None (swift_shellQuote "a' b 'c") = Some [String "a" (String dquote (String backslash (String dquote ""))); "b";
    String backslash (String dquote (String dquote "c"))].
Proof. done. Qed.
