(* ===== verification/Desktop.v ===== *)
(** * Desktop: the settings of the desktop application

    [desktop/model.cpp]: the adapters of the host, the preferences, their check
    and the command line the relay is started with.  A [QString] is a [string];
    the empty one stands for no text.  Qt's network and settings classes are
    outside: the text of an IPv4 address and its reading are parameters, an
    interface is a record of what Qt reports, and the store of settings is a
    map. *)

From Stdlib Require Import Ascii.
From stdpp Require Import gmap strings pretty.
From S2P Require Import Prelude Bytes World Sample Pcap Dhcp Options Address Startup.

#[local] Open Scope Z_scope.

Inductive os := Windows | MacOS | Linux.
#[export] Instance os_eq_dec : EqDecision os.
Proof. solve_decision. Defined.

(** ** Adapters *)

Record Adapter := mkAdapter {
  name : string; label : string; ip : string; mask : string; subnet : string; gateway : string;
  is_overlay : bool; is_wifi : bool; up : bool; hotspot : bool
}.
Definition no_adapter : Adapter := mkAdapter "" "" "" "" "" "" false false false false.

(** what Qt reports of an interface: for each address, if it is an IPv4 address,
    its value and that of its mask *)
Record interface := mkInterface {
  i_loopback : bool; i_name : string; i_label : string; i_up : bool; i_wifi : bool; i_entries : list (option (Z * Z))
}.

(** [a.contains(b, Qt::CaseInsensitive)] *)
Fixpoint starts_with (p s : string) : bool :=
  match p, s with
  | EmptyString, _ => true
  | String c p, String d s => Ascii.eqb c d && starts_with p s
  | String _ _, EmptyString => false
  end.
Fixpoint contains (s p : string) : bool :=
  starts_with p s || match s with String _ s => contains s p | EmptyString => false end.
Fixpoint lowercase (s : string) : string :=
  match s with String c s => String (lower c) (lowercase s) | EmptyString => EmptyString end.
Definition contains_nocase (s p : string) : bool := contains (lowercase s) (lowercase p).

(** [for (quint32 n = bits; n; n <<= 1) ++prefix]: at most 32 rounds *)
Fixpoint shifts (fuel : nat) (n prefix : Z) : Z :=
  match fuel with
  | O => prefix
  | S fuel => if n =? 0 then prefix else shifts fuel (u32 (Z.shiftl n 1)) (prefix + 1)
  end.

(** a value of the settings store; a file keeps a Boolean as its text *)
Inductive variant := VString (s : string) | VBool (b : bool).
Definition bool_text (b : bool) : string := if b then "true" else "false".
Definition variant_string (v : variant) : string := match v with VString s => s | VBool b => bool_text b end.
Definition variant_bool (v : variant) : bool :=
  match v with
  | VBool b => b
  | VString s => negb (String.eqb (lowercase s) "" || String.eqb (lowercase s) "0" || String.eqb (lowercase s) "false")
  end.

Abbreviation settings := (gmap string variant).
(** [s.value(key).toString()] and [s.value(key, d).toBool()] *)
Definition setting_string (s : settings) (key : string) : string :=
  match s !! key with Some v => variant_string v | None => "" end.
Definition setting_bool (s : settings) (key : string) (d : bool) : bool :=
  match s !! key with Some v => variant_bool v | None => d end.

Section Qt.
(** [QHostAddress(s).toIPv4Address(&ok)] and [QHostAddress(v).toString()] *)
Context (toIPv4Address : string -> option Z) (hostString : Z -> string).

Definition subnetFor (ip mask : string) : string :=
  match toIPv4Address ip, toIPv4Address mask with
  | Some addr, Some bits =>
      let inv := Z.lxor bits 4294967295 in
      if (bits =? 0) || negb (Z.land inv (u32 (inv + 1)) =? 0) then "" else
      hostString (Z.land addr bits) +:+ "/" +:+ pretty (shifts 32 bits 0)
  | _, _ => ""
  end.

(** the first IPv4 address of an interface *)
Fixpoint first_ipv4 (l : list (option (Z * Z))) : option (Z * Z) :=
  match l with [] => None | Some e :: _ => Some e | None :: l => first_ipv4 l end.

Definition adapter_of (i : interface) : Adapter :=
  let over := contains_nocase (i_name i +:+ " " +:+ i_label i) "zerotier" || starts_with "zt" (i_name i) || starts_with "feth" (i_name i) in
  let '(ip, mask, subnet, gateway) :=
    match first_ipv4 (i_entries i) with
    | Some (v, m) =>
        let ip := hostString v in let mask := hostString m in
        (ip, mask, subnetFor ip mask, hostString (u32 (Z.land v m + 1)))
    | None => ("", "", "", "")
    end%string in
  let hot := contains_nocase (i_name i +:+ " " +:+ i_label i) "Wi-Fi Direct" || String.eqb ip "192.168.137.1" in
  mkAdapter (i_name i) (i_label i) ip mask subnet gateway over (i_wifi i) (i_up i) hot.

Definition discoverAdapters (ifs : list interface) : list Adapter :=
  List.filter (fun a => negb (String.eqb (ip a) ""))
    (map adapter_of (List.filter (fun i => negb (i_loopback i)) ifs)).

(** ** Names of capture devices on Windows *)

Definition is_hex (c : ascii) : bool :=
  let n := Z.of_nat (nat_of_ascii c) in
  (48 <=? n) && (n <=? 57) || (65 <=? n) && (n <=? 70) || (97 <=? n) && (n <=? 102).

(** [n] hexadecimal digits, and what follows them *)
Fixpoint hex_digits (n : nat) (s : string) : option string :=
  match n, s with
  | O, _ => Some s
  | S n, String c s => if is_hex c then hex_digits n s else None
  | S _, EmptyString => None
  end.
Definition expect (c : ascii) (s : string) : option string :=
  match s with String d s => if Ascii.eqb c d then Some s else None | EmptyString => None end.

(** the text after a GUID in braces at the start of [s] *)
Definition after_guid (s : string) : option string :=
  s ← expect "{" s; s ← hex_digits 8 s; s ← expect "-" s; s ← hex_digits 4 s; s ← expect "-" s; s ← hex_digits 4 s;
  s ← expect "-" s; s ← hex_digits 4 s; s ← expect "-" s; s ← hex_digits 12 s; expect "}" s.

Definition npf_prefix : string := "\Device\NPF_".

(** [guid.match(s)] and its [captured(1)]; the end of the pattern also stands
    before a line feed that ends the text *)
Definition match_guid (s : string) : option string :=
  let body := if starts_with (lowercase npf_prefix) (lowercase s) then String.substring 12 (String.length s - 12) s else s in
  match after_guid body with
  | Some rest =>
      if String.eqb rest "" || String.eqb rest (String (ascii_of_nat 10) "")
      then Some (String.substring 0 (String.length body - String.length rest) body) else None
  | None => None
  end.

Definition upper (c : ascii) : ascii :=
  let n := nat_of_ascii c in if ((97 <=? n) && (n <=? 122))%nat then ascii_of_nat (n - 32) else c.
Fixpoint uppercase (s : string) : string :=
  match s with String c s => String (upper c) (uppercase s) | EmptyString => EmptyString end.

(** [resolveGuid] asks Windows for the GUID behind the name Qt uses *)
Definition windowsCaptureName (resolveGuid : string -> string) (name : string) : string :=
  let found := match match_guid name with Some g => Some g | None => match_guid (resolveGuid name) end in
  match found with Some g => npf_prefix +:+ uppercase g | None => "" end.

(** ** ZeroTier on this host *)

(** a JSON document, as [QJsonDocument] hands it over *)
#[warnings="-register-all"]
Inductive json :=
| JString (s : string)
| JArray (l : list json)
| JObject (fields : list (string * json))
| JOther.

Definition toString (v : json) : string := match v with JString s => s | _ => "" end.
Definition toArray (v : json) : list json := match v with JArray l => l | _ => [] end.
(** [v.toObject().value(key)] *)
Fixpoint field (key : string) (l : list (string * json)) : json :=
  match l with [] => JOther | (k, v) :: l => if String.eqb k key then v else field key l end.
Definition value (key : string) (v : json) : json := match v with JObject l => field key l | _ => JOther end.

(** [cidr.split('/').first()] *)
Definition before_slash (cidr : string) : string := match strchr "/" cidr with Some (ip, _) => ip | None => cidr end.
Definition nonempty (s : string) : bool := negb (String.eqb s "").

Definition network_ips (networkId : string) (net : json) : list string :=
  if String.eqb (lowercase (toString (value "id" net))) (lowercase networkId)
  then List.filter nonempty (map (fun a => before_slash (toString a)) (toArray (value "assignedAddresses" net)))
  else [].

Definition cliPath (o : os) (exists_ : string -> bool) : string :=
  match o with
  | Windows =>
      if exists_ "C:/Program Files (x86)/ZeroTier/One/zerotier-cli.bat"
      then "C:/Program Files (x86)/ZeroTier/One/zerotier-cli.bat"
      else "C:/Program Files/ZeroTier/One/zerotier-cli.bat"
  | MacOS => "/Library/Application Support/ZeroTier/One/zerotier-cli"
  | Linux => "/usr/bin/zerotier-cli"
  end.

(** [listnetworks] is the JSON the client prints within two seconds, or
    [None]; [JOther] also stands for output that is not JSON *)
Definition getZeroTierNetworkIPs (o : os) (exists_ : string -> bool) (listnetworks : option json) (networkId : string) :
    list string :=
  if negb (exists_ (cliPath o exists_)) then [] else
  match listnetworks with
  | Some (JArray networks) => concat (map (network_ips networkId) networks)
  | _ => []
  end.

Definition NETWORK_ID : string := "8bd5124fd68185ec".

(** the processes started, in order: [startDetached(path, args)] *)
Definition joinZeroTierNetwork (o : os) (exists_ : string -> bool) (networkId : string) : list (string * list string) :=
  if exists_ (cliPath o exists_) then [(cliPath o exists_, ["join"; networkId])] else [].

(** [bundled] is the cleaned path of the client beside the application *)
Definition ui_paths (o : os) (bundled : string) : list string :=
  match o with
  | Windows =>
      ["C:/Program Files (x86)/ZeroTier/One/zerotier_desktop_ui.exe"; "C:/Program Files/ZeroTier/One/zerotier_desktop_ui.exe";
       "C:/Program Files (x86)/ZeroTier/One/ZeroTier One.exe"; "C:/Program Files/ZeroTier/One/ZeroTier One.exe"; bundled]
  | MacOS => ["/Applications/ZeroTier.app/Contents/MacOS/ZeroTier"]
  | Linux => ["/usr/bin/zerotier-gui"; "/usr/sbin/zerotier-one"]
  end.
Definition launchZeroTierIfPresent (o : os) (exists_ : string -> bool) (startDetached : string -> bool) (bundled : string) :
    bool * list (string * list string) :=
  let join := joinZeroTierNetwork o exists_ NETWORK_ID in
  match List.find exists_ (ui_paths o bundled) with
  | Some path => (startDetached path, (path, []) :: join)
  | None => (false, join)
  end.

Definition bundledRelayPath (o : os) (applicationDirPath : string) : string :=
  match o with Windows => applicationDirPath +:+ "/grid0-relay.exe" | _ => applicationDirPath +:+ "/grid0-relay" end.

(** ** Preferences *)

Record Preferences := mkPreferences {
  localInterface : string; overlayInterface : string; p_gateway : string; relayPath : string;
  diagnostics : bool; capture : bool; discover : bool; dhcp : bool
}.
#[global] Instance eta_Preferences : Eta Preferences := fun r =>
  mkPreferences (localInterface r) (overlayInterface r) (p_gateway r) (relayPath r) (diagnostics r) (capture r) (discover r) (dhcp r).
Definition no_preferences : Preferences := mkPreferences "" "" "" "" false false true false.

Definition autoSelectOverlayAdapter (targetIPs : list string) (adapters : list Adapter) (p : Preferences) : Preferences :=
  match List.find (fun a => existsb (String.eqb (ip a)) targetIPs) adapters with
  | Some a => p <| overlayInterface := name a |>
  | None =>
      match List.find is_overlay adapters with
      | Some a => p <| overlayInterface := name a |>
      | None => p
      end
  end.

(** [load] also starts ZeroTier, which is [launchZeroTierIfPresent] *)
Definition load (s : settings) (targetIPs : list string) (ifs : list interface) : Preferences :=
  autoSelectOverlayAdapter targetIPs (discoverAdapters ifs)
    (mkPreferences (setting_string s "network/local") (setting_string s "network/overlay")
       (setting_string s "network/gateway") (setting_string s "advanced/relay")
       (setting_bool s "advanced/diagnostics" false) (setting_bool s "advanced/capture" false)
       (setting_bool s "advanced/discover" true) (setting_bool s "network/dhcp" false)).

Definition save (p : Preferences) (s : settings) : settings :=
  <["advanced/discover" := VBool (discover p)]> (<["network/dhcp" := VBool (dhcp p)]>
  (<["advanced/capture" := VBool (capture p)]> (<["advanced/diagnostics" := VBool (diagnostics p)]>
  (<["advanced/relay" := VString (relayPath p)]> (<["network/gateway" := VString (p_gateway p)]>
  (<["network/overlay" := VString (overlayInterface p)]> (<["network/local" := VString (localInterface p)]> s))))))).

Definition refreshAdapters (targetIPs : list string) (ifs : list interface) (p : Preferences) : list Adapter * Preferences :=
  let adapters := discoverAdapters ifs in (adapters, autoSelectOverlayAdapter targetIPs adapters p).

Definition overlay (p : Preferences) (all : list Adapter) : Adapter :=
  match List.find (fun a => String.eqb (name a) (overlayInterface p)) all with Some a => a | None => no_adapter end.

(** the messages of [validate], in the order of its tests *)
Inductive problem :=
| ChooseAdapters | SameAdapters | LocalUnavailable | HotspotOff | OverlayUnavailable | LocalUnresolved
| OverlayUnresolved | NotSlash24 | BadGateway | RelayMissing.

(** the text of the gateway in use *)
Definition effective_gateway (p : Preferences) (a : Adapter) : string :=
  if nonempty (p_gateway p) then p_gateway p else gateway a.

(** [value & 255] is neither the network's own address nor its broadcast *)
Definition bad_gateway (g : string) (a : Adapter) : bool :=
  match toIPv4Address g with
  | None => true
  | Some v => negb (String.eqb (subnetFor g (mask a)) (subnet a)) || (Z.land v 255 =? 0) || (Z.land v 255 =? 255) || String.eqb g (ip a)
  end.

Definition is_windows (o : os) : bool := match o with Windows => true | _ => false end.

Definition validate (o : os) (resolveGuid : string -> string) (isExecutable : string -> bool) (p : Preferences) (all : list Adapter) :
    option problem :=
  if negb (nonempty (localInterface p)) || negb (nonempty (overlayInterface p)) then Some ChooseAdapters else
  if String.eqb (localInterface p) (overlayInterface p) then Some SameAdapters else
  if negb (existsb (fun a => String.eqb (name a) (localInterface p) && up a) all) then Some LocalUnavailable else
  if is_windows o && dhcp p && negb (existsb (fun a => hotspot a && up a) all) then Some HotspotOff else
  let a := overlay p all in
  if negb (up a) || negb (nonempty (ip a)) then Some OverlayUnavailable else
  if is_windows o && negb (nonempty (windowsCaptureName resolveGuid (localInterface p))) then Some LocalUnresolved else
  if is_windows o && negb (nonempty (windowsCaptureName resolveGuid (overlayInterface p))) then Some OverlayUnresolved else
  if negb (String.eqb (mask a) "255.255.255.0") then Some NotSlash24 else
  if bad_gateway (effective_gateway p a) a then Some BadGateway else
  if negb (isExecutable (relayPath p)) then Some RelayMissing else
  None.

Definition capture_name (o : os) (resolveGuid : string -> string) (n : string) : string :=
  if is_windows o then windowsCaptureName resolveGuid n else n.

Definition arguments (o : os) (resolveGuid : string -> string) (p : Preferences) (all : list Adapter) (prefix : string) : list string :=
  let a := overlay p all in
  ["--netif"; capture_name o resolveGuid (localInterface p); "--zerotier-if"; capture_name o resolveGuid (overlayInterface p);
   "--subnet"; subnet a; "--gateway"; effective_gateway p a; "--status-events"]
  ++ (if diagnostics p then ["--diagnostics"] else [])
  ++ (if negb (discover p) then ["--no-discover-switch"] else [])
  ++ (if dhcp p then ["--dhcp"] else [])
  ++ (if capture p then ["--capture-prefix"; prefix] else []).

End Qt.

(** ** Lemmas *)

Lemma nonempty_spec s : nonempty s = true <-> s <> ""%string.
Proof. unfold nonempty. destruct (String.eqb_spec s ""); cbn; split; done. Qed.

Lemma dotted_inj p q : quad p -> quad q -> dotted p = dotted q -> p = q.
Proof. intros [? ?] [? ?] E. apply (f_equal inet_pton) in E. rewrite !inet_pton_dotted in E by done. by simplify_eq. Qed.

Lemma u32_quad v : quad (u32_to_ipv4 v).
Proof. split; apply u32_to_ipv4_bytes. Qed.

(** the mask of a /24 network clears the last byte of an address *)
Lemma mask24 v : 0 <= v < 4294967296 -> Z.land v 4294967040 = v - v mod 256.
Proof.
  intros Hv. change 4294967040 with (Z.shiftl (Z.ones 24) 8).
  assert (E : Z.land v (Z.shiftl (Z.ones 24) 8) = Z.shiftl (Z.land (Z.shiftr v 8) (Z.ones 24)) 8).
  { apply Z.bits_inj'. intros n Hn. rewrite Z.land_spec, !Z.shiftl_spec by done. destruct (Z.ltb_spec n 8).
    - rewrite !(Z.testbit_neg_r _ (n - 8)) by lia. by rewrite andb_false_r.
    - rewrite Z.land_spec, Z.shiftr_spec by lia. do 2 f_equal. lia. }
  rewrite E, Z.land_ones, Z.shiftr_div_pow2, Z.shiftl_mul_pow2 by lia. change (2 ^ 8) with 256. change (2 ^ 24) with 16777216.
  rewrite (Z.mod_small (v / 256)); Z.to_euclidean_division_equations; lia.
Qed.

Definition network24 (q : list Z) : list Z := firstn 3 q ++ [0].

Lemma network24_quad q : quad q -> quad (network24 q).
Proof. intros (a & b & c & d & -> & ? & ? & ? & ?)%quad_cases. split; [done|]. cbn. repeat (constructor; [done|]). by repeat constructor. Qed.
Lemma network24_u32 q : quad q -> Z.land (ipv4_to_u32 q) 4294967040 = ipv4_to_u32 (network24 q).
Proof.
  intros Hq. rewrite mask24 by (apply ipv4_to_u32_bound, Hq). rewrite !ipv4_to_u32_value by (apply network24_quad || idtac; try apply Hq; by apply network24_quad).
  destruct (quad_cases _ Hq) as (a & b & c & d & -> & ? & ? & ? & Hd). unfold is_byte in Hd. 
  unfold getb. change (Z.to_nat 0) with 0%nat; change (Z.to_nat 1) with 1%nat; change (Z.to_nat 2) with 2%nat; change (Z.to_nat 3) with 3%nat.
  cbn. Z.to_euclidean_division_equations; lia.
Qed.
Lemma network24_self q : quad q -> in_network q [255; 255; 255; 0] (network24 q) = true.
Proof.
  intros (a & b & c & d & -> & Ha & Hb & Hc & Hd)%quad_cases. cbn [network24 firstn app in_network].
  apply byte_land in Ha, Hb, Hc. change (Z.ones 8) with 255 in *. rewrite Ha, Hb, Hc, Z.land_0_r, !Z.eqb_refl. done.
Qed.

Lemma overlay_in p all : up (overlay p all) = true -> In (overlay p all) all.
Proof. unfold overlay. destruct (List.find _ _) eqn:E; [|done]. by apply find_some in E as [? _]. Qed.
Lemma overlay_name p all : up (overlay p all) = true -> name (overlay p all) = overlayInterface p.
Proof. unfold overlay. destruct (List.find _ _) eqn:E; [|done]. by apply find_some in E as [_ ?%String.eqb_eq]. Qed.

(** what [validate] has established when it finds no problem *)
Record checked toIPv4Address hostString (o : os) (resolveGuid : string -> string) (isExecutable : string -> bool)
    (p : Preferences) (all : list Adapter) : Prop := {
  ck_local : nonempty (localInterface p) = true;
  ck_names : localInterface p <> overlayInterface p;
  ck_local_up : exists a, In a all /\ name a = localInterface p /\ up a = true;
  ck_up : up (overlay p all) = true;
  ck_ip : ip (overlay p all) <> ""%string;
  ck_local_name : capture_name o resolveGuid (localInterface p) <> ""%string;
  ck_overlay_name : capture_name o resolveGuid (overlayInterface p) <> ""%string;
  ck_mask : mask (overlay p all) = "255.255.255.0"%string;
  ck_gateway : bad_gateway toIPv4Address hostString (effective_gateway p (overlay p all)) (overlay p all) = false;
  ck_relay : isExecutable (relayPath p) = true
}.

Lemma validate_checked toIPv4Address hostString o resolveGuid isExecutable p all :
  validate toIPv4Address hostString o resolveGuid isExecutable p all = None ->
  checked toIPv4Address hostString o resolveGuid isExecutable p all.
Proof.
  unfold validate. intros H.
  repeat match type of H with (if ?b then _ else _) = _ => destruct b eqn:?; [done|] end. clear H.
  rewrite ?negb_false_iff, ?orb_false_iff, ?negb_false_iff, ?String.eqb_neq, ?String.eqb_eq in *. destruct_and!.
  match goal with E : existsb _ all = true |- _ => apply existsb_exists in E as (a & ? & (? & ?)%andb_true_iff) end.
  unfold capture_name.
  constructor; try done; try (by apply nonempty_spec); [by exists a; rewrite <- String.eqb_eq|..];
    destruct o; cbn [is_windows andb] in *; rewrite ?negb_false_iff in *; by apply nonempty_spec.
Qed.

Section Launch.
(** Qt reads the dotted form of an address and prints it *)
Context (toIPv4Address : string -> option Z) (hostString : Z -> string).
Hypothesis reads_dotted : forall q, quad q -> toIPv4Address (dotted q) = Some (ipv4_to_u32 q).
Hypothesis prints_dotted : forall q, quad q -> hostString (ipv4_to_u32 q) = dotted q.

Lemma prints_u32 v : 0 <= v < 4294967296 -> hostString v = dotted (u32_to_ipv4 v).
Proof. intros Hv. rewrite <- (ipv4_round_trip v Hv) at 1. apply prints_dotted, u32_quad. Qed.

Lemma subnetFor_24 q : quad q ->
  subnetFor toIPv4Address hostString (dotted q) "255.255.255.0" = subnet_text (network24 q) 24.
Proof.
  intros Hq. unfold subnetFor. change "255.255.255.0"%string with (dotted [255; 255; 255; 0]).
  rewrite !reads_dotted by (done || by apply quad_sample). change (ipv4_to_u32 [255; 255; 255; 0]) with 4294967040.
  cbn [Z.eqb orb negb Z.lxor]. rewrite network24_u32, prints_dotted by (done || by apply network24_quad). done.
Qed.

(** an interface as Qt reports it has addresses of 32 bits *)
Definition entries_ok (i : interface) : Prop :=
  Forall (fun e => match e with Some (v, m) => 0 <= v < 4294967296 /\ 0 <= m < 4294967296 | None => True end) (i_entries i).

Lemma first_ipv4_in l e : first_ipv4 l = Some e -> In (Some e) l.
Proof. induction l as [|[x|] l IH]; cbn; [done| |]; intros H; simplify_eq; auto. Qed.

(** an adapter with the mask of a /24 network has the address, the subnet and
    the gateway of one interface *)
Lemma discovered_24 ifs a : Forall entries_ok ifs -> In a (discoverAdapters toIPv4Address hostString ifs) ->
  mask a = "255.255.255.0"%string ->
  exists q, quad q /\ ip a = dotted q /\ subnet a = subnet_text (network24 q) 24 /\
            gateway a = hostString (u32 (ipv4_to_u32 (network24 q) + 1)).
Proof.
  intros Hifs [Ha Hne]%filter_In Hm. apply in_map_iff in Ha as (i & <- & [Hi _]%filter_In).
  rewrite Forall_forall in Hifs. specialize (Hifs _ Hi). unfold entries_ok in Hifs.
  unfold adapter_of in *. destruct (first_ipv4 (i_entries i)) as [[v m]|] eqn:E; cbn in *; [|done].
  apply first_ipv4_in in E. rewrite Forall_forall in Hifs. destruct (Hifs _ E) as [Hv Hw].
  rewrite (prints_u32 m Hw) in *. change "255.255.255.0"%string with (dotted [255; 255; 255; 0]) in Hm.
  apply dotted_inj in Hm; [|apply u32_quad|by apply quad_sample].
  assert (m = 4294967040) as -> by (rewrite <- (ipv4_round_trip m Hw), Hm; done).
  rewrite (prints_u32 v Hv), Hm. exists (u32_to_ipv4 v). pose proof (u32_quad v) as Hq.
  split_and!; [done|done|by apply (subnetFor_24 _ Hq)|]. by rewrite <- (network24_u32 _ Hq), ipv4_round_trip.
Qed.

(** the gateway of a preference is the adapter's own or a dotted address *)
Definition dotted_gateway (p : Preferences) : Prop := p_gateway p = ""%string \/ exists q, quad q /\ p_gateway p = dotted q.

Lemma effective_dotted p a q : dotted_gateway p -> quad q -> gateway a = hostString (u32 (ipv4_to_u32 (network24 q) + 1)) ->
  exists g, quad g /\ effective_gateway p a = dotted g.
Proof.
  unfold effective_gateway. intros Hp Hq Hg. destruct (nonempty (p_gateway p)) eqn:E.
  - destruct Hp as [Hp|(g & ? & Hp)]; [by rewrite Hp in E|]. by exists g.
  - exists (u32_to_ipv4 (u32 (ipv4_to_u32 (network24 q) + 1))). split; [apply u32_quad|].
    rewrite Hg. apply prints_u32. apply Z.mod_pos_bound. lia.
Qed.

Lemma subnet_text_inj p q : quad p -> quad q -> subnet_text p 24 = subnet_text q 24 -> p = q.
Proof.
  intros Hp Hq E. apply (f_equal (strchr "/")) in E. unfold subnet_text in E.
  rewrite !strchr_app in E by (apply dotted_free; [apply Hp || apply Hq|done|done]). apply dotted_inj; [done..|]. congruence.
Qed.

(** a gateway that passes the check is a host of the adapter's network *)
Lemma gateway_checked a q g : quad q -> quad g -> ip a = dotted q -> mask a = "255.255.255.0"%string ->
  subnet a = subnet_text (network24 q) 24 -> bad_gateway toIPv4Address hostString (dotted g) a = false ->
  network24 g = network24 q /\ getb g 3 <> 0 /\ getb g 3 <> 255 /\ g <> q.
Proof.
  intros Hq Hg Hi Hm Hs. unfold bad_gateway. rewrite reads_dotted by done.
  rewrite Hm, Hs, Hi, subnetFor_24 by done.
  rewrite !orb_false_iff, negb_false_iff, String.eqb_eq, String.eqb_neq. intros [[[E H0] H255] Hne].
  apply subnet_text_inj in E; [|by apply network24_quad..]. rewrite land_255 in H0, H255.
  rewrite <- (u32_round_trip g), u32_to_ipv4_value by apply Hg. unfold getb. cbn [Z.to_nat nth].
  split_and!; [by rewrite <- u32_to_ipv4_value, u32_round_trip by apply Hg|by apply Z.eqb_neq..|].
  rewrite <- u32_to_ipv4_value, u32_round_trip by apply Hg. congruence.
Qed.

End Launch.

(** ** The command line the relay is started with *)

Definition launch_options (o : os) (resolveGuid : string -> string) (p : Preferences) (a : Adapter) (prefix : string) (prev : cli_options) : cli_options :=
  (defaults prev)
    <| opt_netif := Some (capture_name o resolveGuid (localInterface p)) |>
    <| opt_zerotier_name := Some (capture_name o resolveGuid (overlayInterface p)) |>
    <| opt_subnet := Some (subnet a) |> <| opt_gateway_ip := Some (effective_gateway p a) |> <| opt_status_events := true |>
    <| opt_diagnostics := diagnostics p || capture p |> <| opt_discover_switch := discover p |> <| opt_dhcp_server := dhcp p |>
    <| opt_capture_prefix := if capture p then Some prefix else opt_capture_prefix prev |>.

Lemma arguments_parse o resolveGuid p all prefix prev program :
  parse_arguments prev (program :: arguments o resolveGuid p all prefix) =
    (0, launch_options o resolveGuid p (overlay p all) prefix prev).
Proof.
  unfold arguments, launch_options. generalize (overlay p all). intros a. generalize (effective_gateway p a) (subnet a).
  generalize (capture_name o resolveGuid (localInterface p)) (capture_name o resolveGuid (overlayInterface p)).
  intros local over g net. destruct (diagnostics p), (discover p), (dhcp p), (capture p); vm_compute; reflexivity.
Qed.

(** *** The name of a capture device *)

(** a reader that consumes a front part of its input, whatever follows it, and
    does not tell upper from lower case *)
Record reader (f : string -> option string) : Prop := {
  rd_front : forall s r, f s = Some r -> exists u, s = u +:+ r /\ forall r', f (u +:+ r') = Some r';
  rd_case : forall s, f (uppercase s) = uppercase <$> f s
}.

Lemma upper_ascii c : is_hex (upper c) = is_hex c /\ upper (upper c) = upper c.
Proof. destruct c as [[] [] [] [] [] [] [] []]; by vm_compute. Qed.

Lemma uppercase_app a b : uppercase (a +:+ b) = uppercase a +:+ uppercase b.
Proof. induction a as [|c a IH]; [done|]. rewrite string_app_cons. cbn [uppercase]. by rewrite IH, string_app_cons. Qed.
Lemma uppercase_idem s : uppercase (uppercase s) = uppercase s.
Proof. induction s as [|c s IH]; [done|]. cbn. by rewrite IH, (proj2 (upper_ascii c)). Qed.
Lemma uppercase_length s : String.length (uppercase s) = String.length s.
Proof. induction s as [|c s IH]; [done|]. cbn. by rewrite IH. Qed.

Lemma hex_digits_reader n : reader (hex_digits n).
Proof.
  induction n as [|n [Hf Hc]]; constructor.
  - intros s r [= ->]. by exists ""%string.
  - done.
  - intros [|c s] r; [done|]. cbn. destruct (is_hex c) eqn:E; [|done]. intros (u & -> & Hu)%Hf.
    exists (String c u). split; [done|]. intros r'. rewrite string_app_cons. cbn. by rewrite E.
  - intros [|c s]; [done|]. cbn. rewrite (proj1 (upper_ascii c)). by destruct (is_hex c).
Qed.
Lemma expect_reader c : (forall d, Ascii.eqb c (upper d) = Ascii.eqb c d) -> reader (expect c).
Proof.
  intros Hu. constructor.
  - intros [|d s] r; [done|]. cbn. destruct (Ascii.eqb_spec c d) as [->|]; [|done]. intros [= ->].
    exists (String d ""). split; [done|]. intros r'. rewrite string_app_cons. cbn. by rewrite Ascii.eqb_refl.
  - intros [|d s]; [done|]. cbn. rewrite Hu. by destruct (Ascii.eqb c d).
Qed.
Lemma punctuation d : Ascii.eqb "{" (upper d) = Ascii.eqb "{" d /\ Ascii.eqb "}" (upper d) = Ascii.eqb "}" d /\ Ascii.eqb "-" (upper d) = Ascii.eqb "-" d.
Proof. destruct d as [[] [] [] [] [] [] [] []]; by vm_compute. Qed.
Lemma reader_then f g : reader f -> reader g -> reader (fun s => f s ≫= g).
Proof.
  intros [Ff Cf] [Fg Cg]. constructor.
  - intros s r. destruct (f s) as [t|] eqn:E; [|done]. cbn. intros (v & -> & Hv)%Fg. apply Ff in E as (u & -> & Hu).
    exists (u +:+ v). split; [by rewrite string_app_assoc|]. intros r'. rewrite string_app_assoc, Hu. apply Hv.
  - intros s. rewrite Cf. destruct (f s); cbn; [apply Cg|done].
Qed.

Lemma after_guid_reader : reader after_guid.
Proof.
  unfold after_guid.
  repeat (apply (reader_then (fun s => _) (fun s => _)); [apply hex_digits_reader || (apply expect_reader; apply punctuation)|]).
  apply expect_reader. apply punctuation.
Qed.

Lemma substring_front u r : String.substring 0 (String.length u) (u +:+ r) = u.
Proof. induction u as [|c u IH]; [by destruct r|]. rewrite string_app_cons. cbn [String.length String.substring]. by rewrite IH. Qed.
Lemma substring_back u r : String.substring (String.length u) (String.length r) (u +:+ r) = r.
Proof. induction u as [|c u IH]; [|apply IH]. rewrite <- (substring_front r "") at 3. by rewrite string_app_nil_r. Qed.

Lemma match_guid_sound s g : match_guid s = Some g -> after_guid g = Some ""%string.
Proof.
  unfold match_guid. set (body := if starts_with _ _ then _ else _). clearbody body.
  destruct (after_guid body) as [rest|] eqn:E; [|done]. destruct (_ || _); [|done]. intros [= <-].
  apply (rd_front _ after_guid_reader) in E as (u & -> & Hu).
  rewrite string_length_app, Nat.add_sub, substring_front. by rewrite <- (string_app_nil_r u) at 1.
Qed.
Lemma starts_with_app p s : starts_with p (p +:+ s) = true.
Proof. induction p as [|c p IH]; [done|]. rewrite string_app_cons. cbn. by rewrite Ascii.eqb_refl. Qed.
Lemma lowercase_app a b : lowercase (a +:+ b) = lowercase a +:+ lowercase b.
Proof. induction a as [|c a IH]; [done|]. rewrite string_app_cons. cbn [lowercase]. by rewrite IH, string_app_cons. Qed.

Lemma match_device g : after_guid g = Some ""%string -> match_guid (npf_prefix +:+ g) = Some g.
Proof.
  intros Hg. unfold match_guid. rewrite lowercase_app, starts_with_app, string_length_app.
  change (String.length npf_prefix) with 12%nat. rewrite Nat.add_comm, Nat.add_sub.
  rewrite (substring_back npf_prefix g : String.substring 12 _ _ = _). rewrite Hg. cbn [String.eqb orb]. rewrite Nat.sub_0_r.
  rewrite <- (string_app_nil_r g) at 2. by rewrite substring_front.
Qed.

Lemma capture_name_device resolve resolve' n d : windowsCaptureName resolve n = d -> d <> ""%string ->
  exists g, after_guid g = Some ""%string /\ d = npf_prefix +:+ g /\ windowsCaptureName resolve' d = d.
Proof.
  unfold windowsCaptureName. intros <-. destruct (match match_guid n with Some _ => _ | None => _ end) as [g|] eqn:E; [|done]. intros _.
  assert (Hg : after_guid g = Some ""%string) by (destruct (match_guid n) eqn:E'; simplify_eq; by eapply match_guid_sound).
  exists (uppercase g). assert (Hu : after_guid (uppercase g) = Some ""%string) by (by rewrite (rd_case _ after_guid_reader), Hg).
  split_and!; [done..|]. by rewrite (match_device _ Hu), uppercase_idem.
Qed.

(** *** Settings *)

(** a store read back from its file: each value as it was written, or its text *)
Definition reloaded (s s' : settings) : Prop :=
  forall k, s' !! k = s !! k \/ s' !! k = (fun v => VString (variant_string v)) <$> s !! k.

Lemma reloaded_string s s' k : reloaded s s' -> setting_string s' k = setting_string s k.
Proof. intros H. unfold setting_string. destruct (H k) as [-> | ->]; [done|]. by destruct (s !! k). Qed.
Lemma reloaded_bool s s' k d b : reloaded s s' -> s !! k = Some (VBool b) -> setting_bool s' k d = b.
Proof. intros H E. unfold setting_bool. destruct (H k) as [-> | ->]; rewrite E; [done|]. by destruct b. Qed.

Lemma saved_lookup p s :
  let s' := save p s in
  s' !! "network/local" = Some (VString (localInterface p)) /\ s' !! "network/overlay" = Some (VString (overlayInterface p)) /\
  s' !! "network/gateway" = Some (VString (p_gateway p)) /\ s' !! "advanced/relay" = Some (VString (relayPath p)) /\
  s' !! "advanced/diagnostics" = Some (VBool (diagnostics p)) /\ s' !! "advanced/capture" = Some (VBool (capture p)) /\
  s' !! "advanced/discover" = Some (VBool (discover p)) /\ s' !! "network/dhcp" = Some (VBool (dhcp p)).
Proof.
  cbv zeta. unfold save.
  split_and!; repeat (rewrite lookup_insert_ne by done); by rewrite lookup_insert_eq.
Qed.

(** ** Properties *)

Section Theorems.
Context (toIPv4Address : string -> option Z) (hostString : Z -> string).

(** Preferences survive: what was saved is what the next start loads, with
    Booleans that the file kept as text, and only the overlay adapter is chosen
    anew. *)
Theorem preferences_round_trip p s s' ips ifs : reloaded (save p s) s' ->
  load toIPv4Address hostString s' ips ifs = autoSelectOverlayAdapter ips (discoverAdapters toIPv4Address hostString ifs) p.
Proof.
  intros H. destruct (saved_lookup p s) as (E1 & E2 & E3 & E4 & E5 & E6 & E7 & E8). unfold load. f_equal.
  rewrite !(reloaded_string _ _ _ H), (reloaded_bool _ _ _ _ _ H E5), (reloaded_bool _ _ _ _ _ H E6),
    (reloaded_bool _ _ _ _ _ H E7), (reloaded_bool _ _ _ _ _ H E8).
  unfold setting_string. rewrite E1, E2, E3, E4. by destruct p.
Qed.

(** When some ZeroTier adapter is present, the overlay adapter loaded does
    not depend on the saved one: a saved choice is replaced. *)
Theorem saved_overlay_ignored s s' ips ifs : existsb is_overlay (discoverAdapters toIPv4Address hostString ifs) = true ->
  overlayInterface (load toIPv4Address hostString s ips ifs) = overlayInterface (load toIPv4Address hostString s' ips ifs).
Proof.
  intros (a & Ha & Ho)%existsb_exists. unfold load, autoSelectOverlayAdapter.
  destruct (List.find (fun a => existsb _ ips) _); [done|]. destruct (List.find is_overlay _) eqn:E; [done|].
  by rewrite (find_none _ _ E a Ha) in Ho.
Qed.

(** C19. The relay accepts the command line of checked preferences, when the
    gateway is left empty or written as four decimal numbers ([dotted_gateway];
    Qt reads other forms of an address too, which the relay refuses, see
    [short_gateway_refused]) and Qt reads and prints such addresses as they are:
    its options are the preferences, the gateway it reads is a host of the
    adapter's /24 network other than the adapter itself, and the subnet it reads
    is that network unless its text has 16 characters or more. *)
Theorem desktop_command_accepted o resolveGuid isExecutable p ifs prefix prev program :
  (forall q, quad q -> toIPv4Address (dotted q) = Some (ipv4_to_u32 q)) ->
  (forall q, quad q -> hostString (ipv4_to_u32 q) = dotted q) ->
  Forall entries_ok ifs -> dotted_gateway p ->
  let all := discoverAdapters toIPv4Address hostString ifs in
  validate toIPv4Address hostString o resolveGuid isExecutable p all = None ->
  let a := overlay p all in
  exists q g, quad q /\ quad g /\ ip a = dotted q /\ name a = overlayInterface p /\
    parse_arguments prev (program :: arguments o resolveGuid p all prefix) = (0, launch_options o resolveGuid p a prefix prev) /\
    parse_subnet (subnet a) = (if IP_STR_LEN <=? strlen (subnet a) then None else Some (network24 q, [255; 255; 255; 0])) /\
    parse_ipv4 (effective_gateway p a) = Some g /\
    in_network g [255; 255; 255; 0] (network24 q) = true /\ in_network q [255; 255; 255; 0] (network24 q) = true /\
    g <> q /\ getb g 3 <> 0 /\ getb g 3 <> 255.
Proof.
  intros H1 H2 Hifs Hgw all Hv a. apply validate_checked in Hv as [_ _ _ Hup _ _ _ Hm Hg _].
  destruct (discovered_24 _ _ H1 H2 _ _ Hifs (overlay_in _ _ Hup) Hm) as (q & Hq & Hi & Hs & Hga).
  destruct (effective_dotted _ H2 p _ q Hgw Hq Hga) as (g & Hgq & Hge).
  rewrite Hge in Hg. destruct (gateway_checked _ _ H1 H2 _ q g Hq Hgq Hi Hm Hs Hg) as (En & G0 & G255 & Gne).
  exists q, g. subst a all. rewrite arguments_parse, Hs, Hge.
  split_and!; try done; [by apply overlay_name|..].
  - destruct (network24_quad _ Hq). rewrite parse_subnet_text by (done || lia). destruct (_ <=? _); [done|]. do 2 f_equal.
    destruct (quad_cases _ Hq) as (x & y & z & t & -> & Hx%byte_land & Hy%byte_land & Hz%byte_land & _).
    cbn -[Z.land]. change (Z.ones 8) with 255 in *. change (mask_byte 24 0) with 255.
    change (mask_byte 24 1) with 255. change (mask_byte 24 2) with 255. by rewrite Hx, Hy, Hz.
  - by apply inet_pton_dotted; apply Hgq.
  - rewrite <- En. by apply network24_self.
  - by apply network24_self.
Qed.

(** The name of a capture device is the form the packet driver uses: the
    prefix and a GUID, and it is its own capture name whatever Windows answers. *)
Theorem capture_name_canonical resolve resolve' n d : windowsCaptureName resolve n = d -> d <> ""%string ->
  exists g, after_guid g = Some ""%string /\ d = npf_prefix +:+ g /\ windowsCaptureName resolve' d = d.
Proof. apply capture_name_device. Qed.

End Theorems.

(** ** Witnesses *)

Definition qt_reads (s : string) : option Z := ipv4_to_u32 <$> inet_pton s.
Definition qt_prints (v : Z) : string := dotted (u32_to_ipv4 v).
Lemma qt_reads_dotted q : quad q -> qt_reads (dotted q) = Some (ipv4_to_u32 q).
Proof. intros [? ?]. unfold qt_reads. by rewrite inet_pton_dotted. Qed.
Lemma qt_prints_dotted q : quad q -> qt_prints (ipv4_to_u32 q) = dotted q.
Proof. intros [? ?]. unfold qt_prints. by rewrite u32_round_trip. Qed.

Definition sample_interfaces (overlay_ip : list Z) : list interface :=
  [mkInterface true "lo" "lo" true false [Some (2130706433, 4278190080)];
   mkInterface false "wlan0" "wlan0" true true [None; Some (ipv4_to_u32 [192; 168; 1; 3], 4294967040)];
   mkInterface false "ztabcdef" "ZeroTier One" true false [Some (ipv4_to_u32 overlay_ip, 4294967040)]].
Definition sample_preferences : Preferences := mkPreferences "wlan0" "ztabcdef" "" "/opt/grid0-relay" false true true true.

Lemma preferences_witness :
  load qt_reads qt_prints (fmap (fun v => VString (variant_string v)) (save sample_preferences ∅)) [] [] = sample_preferences.
Proof.
  rewrite (preferences_round_trip qt_reads qt_prints sample_preferences ∅); [reflexivity|].
  intros k. right. apply lookup_fmap.
Defined.

Lemma overlay_ignored_witness :
  overlayInterface (load qt_reads qt_prints (save (sample_preferences <| overlayInterface := "ztmine"%string |>) ∅) [] (sample_interfaces [10; 42; 9; 123]))
  = overlayInterface (load qt_reads qt_prints ∅ [] (sample_interfaces [10; 42; 9; 123])).
Proof. apply (saved_overlay_ignored qt_reads qt_prints). vm_compute. reflexivity. Defined.

Lemma desktop_command_witness :
  let all := discoverAdapters qt_reads qt_prints (sample_interfaces [10; 42; 9; 123]) in
  parse_subnet (subnet (overlay sample_preferences all)) = Some ([10; 42; 9; 0], [255; 255; 255; 0]) /\
  exists g, parse_ipv4 (effective_gateway sample_preferences (overlay sample_preferences all)) = Some g /\
            in_network g [255; 255; 255; 0] [10; 42; 9; 0] = true.
Proof.
  intros all. assert (E : parse_subnet (subnet (overlay sample_preferences all)) = Some ([10; 42; 9; 0], [255; 255; 255; 0])) by (vm_compute; reflexivity).
  assert (Hl : (IP_STR_LEN <=? strlen (subnet (overlay sample_preferences all))) = false) by (vm_compute; reflexivity).
  split; [exact E|].
  destruct (desktop_command_accepted qt_reads qt_prints Linux (fun s => s) (fun _ => true) sample_preferences
    (sample_interfaces [10; 42; 9; 123]) "/tmp/p" Sample.settings "grid0-relay" qt_reads_dotted qt_prints_dotted)
    as (q & g & Hq & Hg & Hi & Hn & Ha & Hs & Hp & Hin & _).
  - repeat constructor; vm_compute; done.
  - left. reflexivity.
  - vm_compute. reflexivity.
  - exists g. split; [exact Hp|]. fold all in Hs. rewrite E, Hl in Hs. injection Hs as ->. exact Hin.
Defined.

Lemma capture_name_witness : exists g, after_guid g = Some ""%string /\
  windowsCaptureName (fun _ => ""%string) (npf_prefix +:+ "{01234567-ABCD-4321-ABCD-0123456789AB}") = npf_prefix +:+ g.
Proof.
  destruct (capture_name_canonical (fun _ => "{01234567-abcd-4321-abcd-0123456789ab}"%string) (fun _ => ""%string) "wireless_32768"
    (npf_prefix +:+ "{01234567-ABCD-4321-ABCD-0123456789AB}")) as (g & Hg & E & Hd); [vm_compute; reflexivity|done|].
  exists g. split; [exact Hg|]. by rewrite Hd.
Defined.

(** Qt also reads an address of fewer than four numbers, the last of which fills
    the bytes left: the check passes such a gateway, and the relay refuses it. *)
Definition qt_reads_short (s : string) : option Z :=
  if String.eqb s "10.42.2305" then Some (ipv4_to_u32 [10; 42; 9; 1]) else qt_reads s.
Theorem short_gateway_refused :
  let all := discoverAdapters qt_reads_short qt_prints (sample_interfaces [10; 42; 9; 123]) in
  let p := sample_preferences <| p_gateway := "10.42.2305"%string |> in
  validate qt_reads_short qt_prints Linux (fun s => s) (fun _ => true) p all = None /\
  parse_ipv4 (effective_gateway p (overlay p all)) = None.
Proof. vm_compute. done. Qed.

(** The check passes a network whose text the relay refuses: the subnet of
    192.168.100.7/24 has 16 characters. *)
Theorem desktop_subnet_refused :
  let all := discoverAdapters qt_reads qt_prints (sample_interfaces [192; 168; 100; 7]) in
  validate qt_reads qt_prints Linux (fun s => s) (fun _ => true) sample_preferences all = None /\
  subnet (overlay sample_preferences all) = "192.168.100.0/24"%string /\ parse_subnet "192.168.100.0/24" = None.
Proof. vm_compute. done. Qed.
