(* ===== verification/Controller.v ===== *)
(** * Controller: the relay as a process of the desktop application

    [desktop/controller.cpp], class [RelayController].  The object is a record;
    [out] collects, in order, the signals it emits and what it does to the
    process, the control socket and the files.  A handler is a function on the
    record, and [step] is the relation of the events Qt may deliver in a state:
    a timer fires only while it is active, the process ends only while it runs,
    a connection comes only while the server listens.  Received bytes are bytes,
    decoded text is a list of code points; the decoder is a parameter. *)

From Stdlib Require Import Ascii.
From stdpp Require Import strings pretty.
From S2P Require Import Prelude Bytes World Sample Dhcp Options Address Startup Quoting Desktop.

#[local] Open Scope Z_scope.

(** ** Text *)

(** the code points of an ASCII text *)
Definition codes (s : string) : list Z := map (fun c => Z.of_nat (nat_of_ascii c)) (String.list_ascii_of_string s).

(** [QChar::isSpace] *)
Definition isSpace (c : Z) : bool :=
  (9 <=? c) && (c <=? 13) || existsb (Z.eqb c) [32; 133; 160; 5760; 8232; 8233; 8239; 8287; 12288] || (8192 <=? c) && (c <=? 8202).
Fixpoint trim_front (l : list Z) : list Z :=
  match l with c :: r => if isSpace c then trim_front r else l | [] => [] end.
Definition trimmed (l : list Z) : list Z := rev (trim_front (rev (trim_front l))).

Fixpoint startsWith (p l : list Z) : bool :=
  match p, l with
  | [], _ => true
  | a :: p, b :: l => (a =? b) && startsWith p l
  | _ :: _, [] => false
  end.
(** what follows the first occurrence of [p] *)
Fixpoint after_first (p l : list Z) : option (list Z) :=
  if startsWith p l then Some (skipn (length p) l) else
  match l with [] => None | _ :: l => after_first p l end.
Definition text_contains (l p : list Z) : bool := match after_first p l with Some _ => true | None => false end.

(** ** The object *)

Inductive State := Idle | Authorizing | Starting | Running | Stopping.
#[export] Instance State_eq_dec : EqDecision State.
Proof. solve_decision. Defined.

Inductive message :=
| MInvalid (p : problem) | MHelperMissing | MCopyFailed | MNoReport | MNoLog | MNoEvent | MNoControl | MNoPkexec (command : string)
| MApprove | MStarting | MRunning | MMismatch | MLine (t : list Z) | MNotReady | MNotStopping
| MStopped | MCancelled | MNoAgent (command : string) | MExited | MError (t : list Z).

Inductive act :=
| StateChanged (s : State) | Message (m : message) | LineReceived (l : list Z) | SwitchDetected (t : list Z)
| Logged (bytes : list Z) | Launched (program : string) (args : list string)
| WroteStop | SetEvent | Terminated | Killed | Aborted.

Record controller := mkController {
  current : State;
  process : bool;
  listening : bool;
  socket : bool;
  socketDirectory : bool;
  log : option Z;
  lastError : list Z;
  manualCommand : string;
  pending : list Z;
  startupTimeout : bool;
  ready : bool;
  windowsStopEvent : bool;
  stopTimeout : bool;
  out : list act
}.
#[global] Instance eta_controller : Eta controller := fun r =>
  mkController (current r) (process r) (listening r) (socket r) (socketDirectory r) (log r) (lastError r) (manualCommand r)
    (pending r) (startupTimeout r) (ready r) (windowsStopEvent r) (stopTimeout r) (out r).
Definition RelayController : controller := mkController Idle false false false false None [] "" [] false false false false [].

Definition emit (a : act) (c : controller) : controller := c <| out ::= (fun l => l ++ [a]) |>.
Definition setState (s : State) (c : controller) : controller := emit (StateChanged s) (c <| current := s |>).
Definition busy (c : controller) : bool := match current c with Idle => false | _ => true end.

Definition LOG_LIMIT : Z := 16 * 1024 * 1024.
Definition PENDING_LIMIT : Z := 65536.

Section Text.
Context (fromUtf8 : list Z -> list Z).

(** the complete lines of [l] and what follows the last of them *)
Fixpoint split_lines (l : list Z) : list (list Z) * list Z :=
  match l with
  | [] => ([], [])
  | b :: l =>
      let (ls, rest) := split_lines l in
      if b =? 10 then ([] :: ls, rest) else
      match ls with [] => ([], b :: rest) | x :: ls => ((b :: x) :: ls, rest) end
  end.

Definition started_mark : list Z := codes "Relay started (PID ".
Definition switch_mark : list Z := codes "Detected local Switch candidate: ".

Definition receive_line (raw : list Z) (c : controller) : controller :=
  let line := trimmed (fromUtf8 raw) in
  let c := emit (LineReceived line) c in
  let c := if startsWith started_mark line && negb (bool_decide (current c = Stopping))
    then emit (Message MRunning) (setState Running (c <| ready := true |> <| startupTimeout := false |>)) else c in
  let c := match after_first switch_mark line with Some t => emit (SwitchDetected t) c | None => c end in
  let c := if text_contains line (codes "LAN broadcast mismatch:") then emit (Message MMismatch) c else c in
  if text_contains line (codes "[ERROR]") || startsWith (codes "Failed to start") line
  then emit (Message (MLine line)) (c <| lastError := line |>) else c.

Definition write_log (bytes : list Z) (c : controller) : controller :=
  match log c with
  | Some size => if size <? LOG_LIMIT then emit (Logged bytes) (c <| log := Some (size + blen bytes) |>) else c
  | None => c
  end.

(** [pending.right(65536)] *)
Definition right_bytes (l : list Z) : list Z := skipn (length l - Z.to_nat PENDING_LIMIT) l.

Definition receive (bytes : list Z) (c : controller) : controller :=
  let c := write_log bytes c in
  let (lines, rest) := split_lines (pending c ++ bytes) in
  let c := fold_left (fun c raw => receive_line raw c) lines c in
  c <| pending := if PENDING_LIMIT <? blen rest then right_bytes rest else rest |>.

(** ** Handlers *)

Context (o : os).

Definition stop (c : controller) : controller :=
  if negb (busy c) || bool_decide (current c = Stopping) then c else
  let c := setState Stopping (c <| startupTimeout := false |>) in
  if is_windows o then
    (if windowsStopEvent c then emit SetEvent c else c) <| stopTimeout := true |>
  else if socket c then emit WroteStop c
  else emit Terminated (c <| listening := false |>).

(** [finish(code, status)]: [rest] is what the socket, or on Windows the
    process, still has to read, [stderr] the error text of the process, as
    decoded, and [toUtf8] encodes it again *)
Context (toUtf8 : list Z -> list Z).

Definition final_message (requested : bool) (code : Z) (crashed : bool) (error : list Z) (c : controller) : message :=
  if requested then MStopped else
  if negb (ready c) || negb (code =? 0) || crashed then
    if bool_decide (o = Linux) && negb (ready c) && (code =? 126) then MCancelled else
    if bool_decide (o = Linux) && negb (ready c) && (code =? 127) then MNoAgent (manualCommand c) else
    if text_contains error (codes "-128") then MCancelled else
    if bool_decide (error = []) then MExited else MError error
  else MStopped.

Definition finish (code : Z) (crashed : bool) (rest stderr : list Z) (c : controller) : controller :=
  let c := c <| startupTimeout := false |> in
  let c := if is_windows o then (receive rest (c <| stopTimeout := false |>)) <| windowsStopEvent := false |> else c in
  let requested := bool_decide (current c = Stopping) in
  let c := if socket c then (emit Aborted (receive rest c)) <| socket := false |> else c in
  let c := c <| listening := false |> <| socketDirectory := false |> in
  let error := if is_windows o then lastError c else trimmed stderr in
  let c := match error with [] => c | _ => receive (toUtf8 error ++ [10]) c end in
  let c := setState Idle (c <| log := None |>) in
  emit (Message (final_message requested code crashed error c)) c.

(** the signals [finished] and [errorOccurred(FailedToStart)] of the process *)
Definition finished (code : Z) (crashed : bool) (rest stderr : list Z) (c : controller) : controller :=
  finish code crashed rest stderr (c <| process := false |>).
Definition failedToStart (errorString rest stderr : list Z) (c : controller) : controller :=
  finish 1 true rest stderr (emit (Message (MLine errorString)) (c <| lastError := errorString |> <| process := false |>)).

Definition newConnection (root : bool) (available : list Z) (c : controller) : controller :=
  if negb (is_windows o) && (negb root || socket c || bool_decide (current c = Stopping)) then emit Aborted c else
  let c := setState Starting (c <| socket := true |>) in
  receive available ((emit (Message MStarting) c) <| startupTimeout := true |>).

Definition readyRead (bytes : list Z) (c : controller) : controller := if socket c then receive bytes c else c.
(** on Windows the process writes to the application itself *)
Definition readyReadStandardOutput (bytes : list Z) (c : controller) : controller := receive bytes c.

Definition startup_timeout (c : controller) : controller :=
  stop (emit (Message MNotReady) (c <| startupTimeout := false |>)).
Definition stop_timeout (c : controller) : controller :=
  emit Killed (emit (Message MNotStopping) (c <| stopTimeout := false |>)).

(** ** Starting *)

Record file_info := mkFileInfo { fi_exists : bool; fi_size : Z; fi_modified : Z }.

(** what the host answers while the relay is started *)
Record host := mkHost {
  applicationDirPath : string;
  isExecutable : string -> bool;
  resolveGuid : string -> string;
  appImage : bool;
  helpers : string;
  mkpath : bool;
  fileName : string -> string;
  info : string -> file_info;
  copies : string -> string -> bool;
  reportDirectory : string;
  report_made : bool;
  log_opened : bool;
  event_created : bool;
  eventName : string;
  applicationPid : Z;
  listens : bool;
  fullServerName : string;
  uid : Z;
  pkexec : string
}.

(** the copy in the private directory, or [None] when the directory or the copy
    cannot be made; a copy that is there is used when it is as long and not older *)
Definition copyForRoot (h : host) (source : string) : option string :=
  if negb (mkpath h) then None else
  let destination := helpers h +:+ "/" +:+ fileName h source in
  let original := info h source in
  let existing := info h destination in
  if negb (fi_exists existing) || negb (fi_size existing =? fi_size original) || (fi_modified existing <? fi_modified original)
  then if copies h source destination then Some destination else None
  else Some destination.

Context (toIPv4Address : string -> option Z) (hostString : Z -> string) (encode : string -> list Z).

Definition osascript (command : list string) : list string :=
  ["-e"; "with timeout of 604800 seconds" +:+ String newline " do shell script " +:+
    appleScriptQuote (join_words (map shellQuote command)) +:+ " with administrator privileges" +:+ String newline "end timeout"]%string.

Definition start_windows (h : host) (p : Preferences) (adapters : list Adapter) (c : controller) : controller :=
  if negb (event_created h) then emit (Message MNoEvent) (c <| log := None |>) else
  let c := c <| windowsStopEvent := true |> <| pending := [] |> <| ready := false |> in
  let args := arguments o (resolveGuid h) p adapters (reportDirectory h +:+ "/packets") in
  let c := receive (encode ("Local adapter: " +:+ localInterface p +:+ " -> " +:+ nth 1 args "" +:+ String newline
    ("ZeroTier adapter: " +:+ overlayInterface p +:+ " -> " +:+ nth 3 args "" +:+ String newline ""))) c in
  let args := args ++ ["--stop-event"; eventName h; "--parent-pid"; pretty (applicationPid h)] in
  let c := (emit (Message MStarting) (setState Starting c)) <| startupTimeout := true |> in
  emit (Launched (relayPath p) args) (c <| process := true |>).

Definition start_posix (h : host) (p : Preferences) (adapters : list Adapter) (helper relay : string) (c : controller) : controller :=
  let c := c <| socketDirectory := true |> in
  if negb (listens h) then emit (Message MNoControl) (c <| log := None |>) else
  let args := arguments o (resolveGuid h) p adapters (reportDirectory h +:+ "/packets") in
  let command := [helper; fullServerName h; pretty (uid h); relay] ++ args in
  let c := c <| listening := true |> <| pending := [] |> <| ready := false |> in
  if bool_decide (o = Linux) then
    let c := c <| manualCommand := "sudo " +:+ join_words (map shellQuote (relay :: args)) |> in
    if negb (nonempty (pkexec h)) then
      emit (Message (MNoPkexec (manualCommand c))) (c <| log := None |> <| listening := false |> <| socketDirectory := false |>)
    else
      let c := emit (Message MApprove) (setState Authorizing c) in
      emit (Launched (pkexec h) command) (c <| process := true |>)
  else
    let c := emit (Message MApprove) (setState Authorizing c) in
    emit (Launched "/usr/bin/osascript" (osascript command)) (c <| process := true |>).

(** the helper and the relay that root can run: copies when the application
    runs from an AppImage *)
Definition root_programs (h : host) (helper relay : string) : option (string * string) :=
  if bool_decide (o = Linux) && appImage h then
    match copyForRoot h helper, copyForRoot h relay with Some a, Some b => Some (a, b) | _, _ => None end
  else Some (helper, relay).

Definition start (h : host) (p : Preferences) (adapters : list Adapter) (c : controller) : controller :=
  if busy c then c else
  let c := c <| lastError := [] |> in
  match validate toIPv4Address hostString o (resolveGuid h) (isExecutable h) p adapters with
  | Some e => emit (Message (MInvalid e)) c
  | None =>
      let helper := applicationDirPath h +:+ "/grid0-relay-supervisor" in
      if negb (is_windows o) && negb (isExecutable h helper) then emit (Message MHelperMissing) c else
      match root_programs h helper (relayPath p) with
      | None => emit (Message MCopyFailed) c
      | Some (helper, relay) =>
          if negb (report_made h) then emit (Message MNoReport) c else
          if negb (log_opened h) then emit (Message MNoLog) c else
          let c := c <| log := Some 0 |> in
          if is_windows o then start_windows h p adapters c else start_posix h p adapters helper relay c
      end
  end.

(** [~RelayController]: what is done, in order; [waits] tells whether the
    process ends in time on the stop event, [dies] whether it does when killed *)
Definition destroy (waits dies : bool) (c : controller) : list act :=
  (if is_windows o then (if windowsStopEvent c then [SetEvent] else []) ++ (if process c && negb waits then [Killed] else []) else [])
  ++ (if socket c then [Aborted] else [])
  ++ (if process c && negb (is_windows o && (waits || dies)) then [Terminated] else []).

(** ** Events *)

Inductive event :=
| EStart (h : host) (p : Preferences) (adapters : list Adapter)
| EStop
| EFinished (code : Z) (crashed : bool) (rest stderr : list Z)
| EFailedToStart (errorString rest stderr : list Z)
| EConnection (root : bool) (available : list Z)
| ESocket (bytes : list Z)
| EOutput (bytes : list Z)
| EStartupTimeout
| EStopTimeout.

(** what Qt may deliver in a state *)
Definition enabled (e : event) (c : controller) : bool :=
  match e with
  | EStart _ _ _ | EStop => true
  | EFinished _ _ _ _ | EFailedToStart _ _ _ => process c
  | EConnection _ _ => listening c
  | ESocket _ => socket c
  | EOutput _ => is_windows o && process c
  | EStartupTimeout => startupTimeout c
  | EStopTimeout => stopTimeout c
  end.
Definition handle (e : event) (c : controller) : controller :=
  match e with
  | EStart h p adapters => start h p adapters c
  | EStop => stop c
  | EFinished code crashed rest stderr => finished code crashed rest stderr c
  | EFailedToStart errorString rest stderr => failedToStart errorString rest stderr c
  | EConnection root available => newConnection root available c
  | ESocket bytes => readyRead bytes c
  | EOutput bytes => readyReadStandardOutput bytes c
  | EStartupTimeout => startup_timeout c
  | EStopTimeout => stop_timeout c
  end.

Inductive step (c : controller) : controller -> Prop :=
| step_event e : enabled e c = true -> step c (handle e c).
Definition reachable : controller -> Prop := rtc step RelayController.
End Text.

(** ** What receiving changes *)

Definition kept (c : controller) :=
  (process c, listening c, socket c, socketDirectory c, manualCommand c, windowsStopEvent c, stopTimeout c).

(** a line that reports the start is among the signals *)
Definition reports_start (l : list act) : Prop := exists line, In (LineReceived line) l /\ startsWith started_mark line = true.

(** either the state is as before, or the relay has reported that it runs *)
Record received (c c' : controller) : Prop := {
  rc_kept : kept c' = kept c;
  rc_state : (current c' = current c /\ ready c' = ready c /\ startupTimeout c' = startupTimeout c) \/
             (current c <> Stopping /\ current c' = Running /\ ready c' = true /\ startupTimeout c' = false);
  rc_log : log c' = None <-> log c = None;
  rc_out : exists new, out c' = out c ++ new /\ (current c' = current c \/ reports_start new)
}.
#[export] Instance received_preorder : PreOrder received.
Proof.
  split.
  - intros c. constructor; [done|by left|done|]. exists []. rewrite app_nil_r. auto.
  - intros a b c [K1 S1 L1 (n1 & O1 & R1)] [K2 S2 L2 (n2 & O2 & R2)]. constructor; [congruence| |by rewrite L2|].
    2: { exists (n1 ++ n2). rewrite O2, O1, app_assoc. split; [done|].
         destruct R1 as [R1|(l & ? & ?)]; [destruct R2 as [R2|(l & ? & ?)]; [left; congruence|]|]; right; exists l; rewrite in_app_iff; auto. }
    destruct S1 as [(E1 & E2 & E3)|(? & E1 & E2 & E3)], S2 as [(F1 & F2 & F3)|(? & F1 & F2 & F3)]; (left; split_and!; congruence) || (right; split_and!; congruence).
Qed.

Lemma received_emit a c : received c (emit a c).
Proof. constructor; [done|by left|done|]. exists [a]. auto. Qed.

Lemma received_timer c c' : received c c' -> startupTimeout c = false -> startupTimeout c' = false.
Proof. intros [_ [(_ & _ & ->)|(_ & _ & _ & ->)] _ _]; done. Qed.

#[local] Arguments receive : simpl never.
#[local] Arguments receive_line : simpl never.

Section Proofs.
Context (fromUtf8 : list Z -> list Z) (o : os) (toUtf8 : list Z -> list Z).
Context (toIPv4Address : string -> option Z) (hostString : Z -> string) (encode : string -> list Z).

Lemma receive_line_spec raw c : received c (receive_line fromUtf8 raw c).
Proof.
  unfold receive_line. set (line := trimmed _). cbv zeta.
  set (c1 := emit _ c). set (c2 := if startsWith _ _ && _ then _ else c1).
  set (c3 := match after_first _ _ with Some _ => _ | None => c2 end). set (c4 := if text_contains _ _ then _ else c3).
  assert (received c c2).
  { subst c2. destruct (startsWith _ _) eqn:E; cbn [andb]; [|apply received_emit].
    destruct (bool_decide_reflect (current c1 = Stopping)); [apply received_emit|].
    constructor; [done|by right|done|]. exists [LineReceived line; StateChanged Running; Message MRunning].
    cbn. rewrite <- !app_assoc. split; [done|]. right. exists line. split; [by left|done]. }
  assert (received c2 c3) by (subst c3; destruct (after_first _ _); [apply received_emit|done]).
  assert (received c3 c4) by (subst c4; destruct (text_contains _ _); [apply received_emit|done]).
  transitivity c4; [by do 2 (etransitivity; [eassumption|])|]. destruct (_ || _); [|done].
  constructor; [done|by left|done|]. exists [Message (MLine line)]. auto.
Qed.
Lemma receive_lines_spec ls : forall c, received c (fold_left (fun c raw => receive_line fromUtf8 raw c) ls c).
Proof. induction ls as [|l ls IH]; intros c; [done|]. cbn. etransitivity; [apply receive_line_spec|apply IH]. Qed.
Lemma write_log_spec bytes c : received c (write_log bytes c).
Proof.
  unfold write_log. destruct (log c) eqn:E; [|done]. destruct (_ <? _); [|done]. constructor; [done|by left|cbn; by rewrite E|].
  exists [Logged bytes]. auto.
Qed.
Lemma receive_spec bytes c : received c (receive fromUtf8 bytes c).
Proof.
  unfold receive. transitivity (write_log bytes c); [apply write_log_spec|].
  destruct (split_lines _) as [ls rest]. etransitivity; [apply (receive_lines_spec ls)|].
  constructor; [done|by left|done|]. exists []. rewrite app_nil_r. auto.
Qed.

(** ** The invariant *)

Definition resources (c : controller) := (process c, listening c, socket c, startupTimeout c, windowsStopEvent c, stopTimeout c).

(** what is held in each state, exactly *)
Definition held (c : controller) : Prop :=
  match current c with
  | Idle => resources c = (false, false, false, false, false, false)
  | Authorizing => is_windows o = false /\ ready c = false /\ resources c = (true, true, false, false, false, false)
  | Starting =>
      resources c = if is_windows o then (true, false, false, true, true, false) else (true, true, true, true, false, false)
  | Running => ready c = true /\
      resources c = if is_windows o then (true, false, false, false, true, false) else (true, true, true, false, false, false)
  | Stopping =>
      if is_windows o then exists t, resources c = (true, false, false, false, true, t)
      else exists connected, resources c = (true, connected, connected, false, false, false)
  end.
Definition inv (c : controller) : Prop := held c /\ (log c = None <-> current c = Idle).

Ltac kept_eq H := unfold kept in H; injection H as ?Kp ?Kl ?Ks ?Kd ?Km ?Kw ?Kt.

Ltac use_resources :=
  repeat match goal with
  | H : _ /\ _ |- _ => destruct H
  | H : exists _, _ |- _ => destruct H
  | R : resources _ = _ |- _ => unfold resources in R; injection R as ? ? ? ? ? ?
  | H : ?f ?c = ?b |- context [?f ?c] => is_var c; rewrite H
  end.

Lemma inv_received c c' : current c <> Idle -> current c <> Authorizing -> inv c -> received c c' -> inv c'.
Proof.
  intros Hi Ha [H HL] [K S L _]. kept_eq K. split.
  - unfold held, resources in *. rewrite Kp, Kl, Ks, Kw, Kt.
    destruct S as [(-> & -> & ->)|(Hs & -> & -> & ->)]; [done|]. split; [done|].
    destruct (current c); try done; [|destruct H as [_ H]]; destruct (is_windows o); injection H as ? ? ? ? ? ?; congruence.
  - rewrite L, HL. by destruct S as [(-> & _)|(_ & -> & _)].
Qed.

(** [finish] leaves nothing behind, whatever the state was *)
Lemma finish_idle code crashed rest stderr c : process c = false -> (is_windows o = false -> windowsStopEvent c = false /\ stopTimeout c = false) ->
  let c' := finish fromUtf8 o toUtf8 code crashed rest stderr c in
  inv c' /\ current c' = Idle /\ socketDirectory c' = false.
Proof.
  intros Hp Hw. unfold finish. cbv zeta. set (c1 := c <| startupTimeout := false |>).
  set (c2 := if is_windows o then _ else c1). set (c3 := if socket c2 then _ else c2).
  set (c4 := c3 <| listening := false |> <| socketDirectory := false |>).
  set (error := if is_windows o then lastError c4 else _). set (c5 := match error with [] => c4 | _ => _ end). cbv zeta.
  assert (F2 : process c2 = false /\ windowsStopEvent c2 = false /\ stopTimeout c2 = false /\ startupTimeout c2 = false).
  { subst c2. destruct (is_windows o) eqn:W.
    - pose proof (receive_spec rest (c1 <| stopTimeout := false |>)) as R. pose proof (rc_kept _ _ R) as K. kept_eq K.
      split_and!; [exact (eq_trans Kp Hp)|done|exact Kt|by apply (received_timer _ _ R)].
    - by destruct (Hw eq_refl). }
  destruct F2 as (P2 & W2 & T2 & S2).
  assert (F3 : socket c3 = false /\ process c3 = false /\ windowsStopEvent c3 = false /\ stopTimeout c3 = false /\ startupTimeout c3 = false).
  { subst c3. destruct (socket c2) eqn:E; [|by rewrite E]. pose proof (receive_spec rest c2) as R. pose proof (rc_kept _ _ R) as K. kept_eq K.
    split_and!; [done|exact (eq_trans Kp P2)|exact (eq_trans Kw W2)|exact (eq_trans Kt T2)|by apply (received_timer _ _ R)]. }
  destruct F3 as (F31 & F32 & F33 & F34 & F35).
  assert (F5 : received c4 c5) by (subst c5; destruct error; [done|apply receive_spec]).
  pose proof (received_timer _ _ F5 F35) as S5. pose proof (rc_kept _ _ F5) as K. kept_eq K.
  change (listening c4) with false in Kl. change (socketDirectory c4) with false in Kd. change (process c4) with (process c3) in Kp.
  change (socket c4) with (socket c3) in Ks. change (windowsStopEvent c4) with (windowsStopEvent c3) in Kw.
  change (stopTimeout c4) with (stopTimeout c3) in Kt. clearbody c5. clear Hw.
  split_and!; [|done|done]. split; [|done]. unfold held, resources. cbn. congruence.
Qed.

Lemma stop_inv c : inv c -> inv (stop o c).
Proof.
  intros [H HL]. unfold stop, busy. destruct (current c) eqn:E; cbn [negb orb]; [by split; rewrite ?E| | | |];
    rewrite ?bool_decide_eq_true_2, ?bool_decide_eq_false_2 by congruence; [..|by split; rewrite ?E].
  all: unfold held in H; rewrite E in H; destruct (is_windows o) eqn:W; use_resources; try done.
  all: cbn; use_resources; cbn;
    (split; [unfold held, resources; cbn; rewrite W; use_resources; eexists; reflexivity|cbn; rewrite HL; done]).
Qed.

Lemma new_connection_inv root available c : listening c = true -> inv c -> inv (newConnection fromUtf8 o root available c).
Proof.
  intros Hl [H HL]. unfold newConnection. destruct (is_windows o) eqn:W.
  - exfalso. unfold held in H. rewrite W in H.
    destruct (current c); use_resources; congruence.
  - cbn [negb andb]. destruct root; cbn [negb orb]; [|by split]. destruct (socket c) eqn:S; [by split|].
    destruct (bool_decide_reflect (current c = Stopping)); [by split|]. cbn [orb].
    eapply inv_received; [..|apply receive_spec]; [done..|]. split; [|cbn].
    + unfold held in *. cbn. rewrite W in *. destruct (current c); destruct_and?; try congruence; use_resources; try congruence.
      unfold resources. cbn. congruence.
    + rewrite HL. unfold held in H. rewrite W in H. split; [|done]. intros E. rewrite E in H. use_resources. congruence.
Qed.

Lemma idle_resources c : inv c -> current c = Idle -> resources c = (false, false, false, false, false, false).
Proof. intros [H _] E. unfold held in H. by rewrite E in H. Qed.

Lemma start_windows_inv h p adapters c : is_windows o = true -> current c = Idle ->
  resources c = (false, false, false, false, false, false) -> log c <> None -> inv (start_windows fromUtf8 o encode h p adapters c).
Proof.
  intros W E R HL. unfold start_windows. destruct (event_created h); cbn [negb].
  - cbv zeta. set (c1 := c <| windowsStopEvent := true |> <| pending := [] |> <| ready := false |>).
    match goal with |- context [receive fromUtf8 ?b c1] => pose proof (receive_spec b c1) as [K S L _]; set (c2 := receive _ _ c1) in * end.
    clearbody c2. kept_eq K. unfold c1 in *. cbn in *. use_resources. split; [|cbn; rewrite L; done].
    unfold held, resources. cbn. rewrite W. congruence.
  - use_resources. split; [|done]. unfold held, resources. cbn. rewrite E. congruence.
Qed.

Lemma start_posix_inv h p adapters helper relay c : is_windows o = false -> current c = Idle ->
  resources c = (false, false, false, false, false, false) -> log c <> None -> inv (start_posix o h p adapters helper relay c).
Proof.
  intros W E R HL. use_resources. unfold start_posix.
  destruct (listens h); cbn [negb]; [|by split; [unfold held, resources; cbn; rewrite E; congruence|]].
  destruct (bool_decide (o = Linux)); [destruct (nonempty (pkexec h))|]; cbn [negb]; cbv zeta;
    (split; [unfold held, resources; cbn; rewrite ?E; split_and?; congruence|done]).
Qed.

Lemma start_inv h p adapters c : inv c -> inv (start fromUtf8 o toIPv4Address hostString encode h p adapters c).
Proof.
  intros I. unfold start, busy. destruct (current c) eqn:E; try done. cbv zeta.
  pose proof (idle_resources c I E) as R. destruct I as [H HL].
  destruct (validate _ _ _ _ _ _ _); [by split|].
  destruct (_ && _); [by split|]. destruct (root_programs _ _ _ _) as [[hp rl]|]; [|by split].
  destruct (report_made h); cbn [negb]; [|by split]. destruct (log_opened h); cbn [negb]; [|by split].
  destruct (is_windows o) eqn:W; [by apply start_windows_inv|by apply start_posix_inv].
Qed.

Lemma held_running c : inv c -> process c = true -> current c <> Idle.
Proof. intros [H _] Hp E. unfold held in H. rewrite E in H. use_resources. congruence. Qed.
Lemma held_windows c : inv c -> is_windows o = false -> windowsStopEvent c = false /\ stopTimeout c = false.
Proof.
  intros [H _] W. unfold held in H. rewrite W in H.
  destruct (current c); use_resources; done.
Qed.

(** the timer only fires while the relay starts; [stop] clears it anyway *)
Lemma startup_timeout_inv c : startupTimeout c = true -> inv c -> inv (startup_timeout o c).
Proof.
  intros Ht I. assert (E : current c = Starting).
  { destruct I as [H _]. unfold held in H.
    destruct (current c), (is_windows o); use_resources; congruence. }
  pose proof (stop_inv c I) as J. revert J. unfold startup_timeout, stop, busy. cbn. rewrite E. cbn.
  destruct (is_windows o), (windowsStopEvent c), (socket c); done.
Qed.
Lemma stop_timeout_inv c : stopTimeout c = true -> inv c -> inv (stop_timeout c).
Proof.
  intros Ht [H HL]. split; [|exact HL]. unfold held in *. cbn.
  destruct (current c), (is_windows o); use_resources; try congruence.
  exists false. unfold resources. cbn. congruence.
Qed.

Lemma step_inv c c' : inv c -> step fromUtf8 o toUtf8 toIPv4Address hostString encode c c' -> inv c'.
Proof.
  intros I [e He]. destruct e; cbn [enabled handle] in *.
  - by apply start_inv.
  - by apply stop_inv.
  - apply finish_idle; [done|]. intros W. by destruct (held_windows c I W).
  - apply finish_idle; [done|]. intros W. by destruct (held_windows c I W).
  - by apply new_connection_inv.
  - unfold readyRead. rewrite He. eapply inv_received; [..|exact I|apply receive_spec]; intros E;
      destruct I as [H _]; unfold held in H; rewrite E in H; use_resources; congruence.
  - apply andb_true_iff in He as [W Hp]. eapply inv_received; [..|exact I|apply receive_spec]; intros E;
      destruct I as [H _]; unfold held in H; rewrite E in H; use_resources; congruence.
  - by apply startup_timeout_inv.
  - by apply stop_timeout_inv.
Qed.

(** ** Lines *)

Definition delivered (l : list act) : list (list Z) := omap (fun a => match a with LineReceived x => Some x | _ => None end) l.

Lemma delivered_app a b : delivered (a ++ b) = delivered a ++ delivered b.
Proof. apply omap_app. Qed.

Lemma split_lines_app a : forall b,
  split_lines (a ++ b) =
    ((split_lines a).1 ++ (split_lines ((split_lines a).2 ++ b)).1, (split_lines ((split_lines a).2 ++ b)).2).
Proof.
  induction a as [|x a IH]; intros b; [cbn; by destruct (split_lines b)|]. cbn [split_lines app]. rewrite IH.
  destruct (split_lines a) as [ls r]. cbn [fst snd]. destruct (x =? 10) eqn:E; [done|].
  destruct ls as [|l ls]; cbn [app fst snd]; [|done]. cbn [split_lines app]. rewrite E.
  by destruct (split_lines (r ++ b)) as [[|l ls'] r'].
Qed.

Lemma split_lines_rest l : (split_lines (split_lines l).2).1 = [].
Proof.
  induction l as [|b l IH]; [done|]. cbn [split_lines]. destruct (split_lines l) as [ls r]. destruct (b =? 10) eqn:E; [done|].
  destruct ls as [|x ls]; [|done]. cbn [snd split_lines]. cbn [snd] in IH. rewrite E. destruct (split_lines r) as [ls' r']. cbn in IH. by subst.
Qed.

Lemma receive_line_delivered raw c :
  delivered (out (receive_line fromUtf8 raw c)) = delivered (out c) ++ [trimmed (fromUtf8 raw)].
Proof.
  unfold receive_line. set (line := trimmed _). cbv zeta.
  set (c1 := emit _ c). set (c2 := if startsWith _ _ && _ then _ else c1).
  set (c3 := match after_first _ _ with Some _ => _ | None => c2 end). set (c4 := if text_contains _ _ then _ else c3).
  assert (E1 : delivered (out c1) = delivered (out c) ++ [line]) by apply delivered_app.
  assert (E2 : delivered (out c2) = delivered (out c1)).
  { subst c2. destruct (_ && _); [|done]. cbn. rewrite !delivered_app. cbn. by rewrite !app_nil_r. }
  assert (E3 : delivered (out c3) = delivered (out c2)).
  { subst c3. destruct (after_first _ _); [|done]. cbn. rewrite delivered_app. cbn. by rewrite app_nil_r. }
  assert (E4 : delivered (out c4) = delivered (out c3)).
  { subst c4. destruct (text_contains _ _); [|done]. cbn. rewrite delivered_app. cbn. by rewrite app_nil_r. }
  rewrite <- E1, <- E2, <- E3, <- E4. destruct (_ || _); [|done]. cbn. rewrite delivered_app. cbn. by rewrite app_nil_r.
Qed.
Lemma receive_delivered bytes c : let s := split_lines (pending c ++ bytes) in
  delivered (out (receive fromUtf8 bytes c)) = delivered (out c) ++ map (fun raw => trimmed (fromUtf8 raw)) s.1 /\
  pending (receive fromUtf8 bytes c) = if PENDING_LIMIT <? blen s.2 then right_bytes s.2 else s.2.
Proof.
  cbv zeta. unfold receive. set (c1 := write_log bytes c).
  assert (E1 : pending c1 = pending c /\ delivered (out c1) = delivered (out c)).
  { subst c1. unfold write_log. destruct (log c); [|done]. destruct (_ <? _); [|done]. cbn. rewrite delivered_app. cbn. by rewrite app_nil_r. }
  destruct E1 as [-> E1]. destruct (split_lines _) as [ls r]. cbn [fst snd]. split; [|done]. cbn. rewrite <- E1. generalize c1. clear.
  induction ls as [|l ls IH]; intros c; cbn; [by rewrite app_nil_r|]. rewrite IH, receive_line_delivered, <- app_assoc. done.
Qed.

(** no unfinished line grows beyond what is kept *)
Fixpoint fits (pending : list Z) (chunks : list (list Z)) : Prop :=
  match chunks with
  | [] => True
  | x :: chunks => let rest := (split_lines (pending ++ x)).2 in blen rest <= PENDING_LIMIT /\ fits rest chunks
  end.

(** ** Properties *)

(** The lines the relay prints are shown whole and in order, however the
    connection cuts them: the lines delivered are those of all bytes together,
    while no unfinished line exceeds 64 KiB. *)
Theorem relay_lines_delivered chunks c : (split_lines (pending c)).1 = [] -> fits (pending c) chunks ->
  delivered (out (fold_left (fun c x => receive fromUtf8 x c) chunks c)) =
    delivered (out c) ++ map (fun raw => trimmed (fromUtf8 raw)) (split_lines (pending c ++ concat chunks)).1.
Proof.
  revert c. induction chunks as [|x chunks IH]; intros c Hp Hf; cbn [fold_left concat].
  { rewrite app_nil_r, Hp. by rewrite app_nil_r. }
  cbn [fits] in Hf. destruct Hf as [Hl Hf]. destruct (receive_delivered x c) as [Hd Hr].
  replace (PENDING_LIMIT <? _) with false in Hr by (symmetry; apply Z.ltb_ge; done).
  rewrite IH; rewrite Hr; [|apply split_lines_rest|done].
  rewrite Hd, <- app_assoc, <- map_app. do 2 f_equal. rewrite app_assoc, (split_lines_app (pending c ++ x)). done.
Qed.

Abbreviation step' := (step fromUtf8 o toUtf8 toIPv4Address hostString encode).
Abbreviation handle' := (handle fromUtf8 o toUtf8 toIPv4Address hostString encode).

Lemma reachable_inv c : rtc step' RelayController c -> inv c.
Proof. apply rtc_ind_r; [by split|]. intros y z _ Hs I. by eapply step_inv. Qed.

(** C20. In every state the controller reaches, whatever the order of starts,
    stops, connections, output, timeouts and ends of the process, it holds
    exactly what belongs to its state: idle it holds nothing, while the relay
    starts the timeout is armed, running it has been told so. *)
Theorem controller_holds c : rtc step' RelayController c -> held c /\ (log c = None <-> current c = Idle).
Proof. apply reachable_inv. Qed.

Lemma stop_state c : current (stop o c) = current c \/ current (stop o c) = Stopping.
Proof.
  unfold stop. destruct (negb (busy c)); [by left|]. destruct (bool_decide _); [by left|]. right. cbn [orb].
  destruct (is_windows o); [by destruct (windowsStopEvent _)|by destruct (socket _)].
Qed.
Lemma finish_state code crashed rest stderr c : current (finish fromUtf8 o toUtf8 code crashed rest stderr c) = Idle.
Proof. done. Qed.
Lemma start_state h p adapters c : let c' := start fromUtf8 o toIPv4Address hostString encode h p adapters c in
  c' = c \/ (current c = Idle /\ current c' <> Running /\ current c' <> Stopping).
Proof.
  cbv zeta. unfold start, busy. destruct (current c) eqn:E; auto. right. split; [done|].
  cbv zeta. destruct (validate _ _ _ _ _ _ _); [cbn; by rewrite E|].
  destruct (_ && _); [cbn; by rewrite E|]. destruct (root_programs _ _ _ _) as [[hp rl]|]; [|cbn; by rewrite E].
  destruct (report_made h), (log_opened h); cbn [negb]; try (cbn; by rewrite E).
  destruct (is_windows o).
  - unfold start_windows. destruct (event_created h); cbn; [done|by rewrite E].
  - unfold start_posix. destruct (listens h), (bool_decide (o = Linux)), (nonempty (pkexec h)); cbn; by rewrite ?E.
Qed.

Lemma listening_posix c : inv c -> listening c = true -> is_windows o = false.
Proof. intros [H _] Hl. destruct (is_windows o) eqn:W; [|done]. unfold held in H. rewrite W in H. destruct (current c); use_resources; congruence. Qed.

Lemma received_running c c' : received c c' -> current c <> Running -> current c' = Running ->
  current c <> Stopping /\ exists new, out c' = out c ++ new /\ reports_start new.
Proof.
  intros [_ S _ (new & Ho & [E|R])] Hc Hr; [congruence|]. destruct S as [(E & _)|(? & _)]; [congruence|]. split; [done|]. by exists new.
Qed.

(** The application shows the relay as running only when the relay said so:
    a step into the running state delivers a line that reports the start, and
    none leads there from a stop that was requested. *)
Theorem running_was_reported e c : rtc step' RelayController c -> enabled o e c = true ->
  current c <> Running -> current (handle' e c) = Running ->
  current c <> Stopping /\ exists new, out (handle' e c) = out c ++ new /\ reports_start new.
Proof.
  intros I%reachable_inv He Hc. destruct e; cbn [handle enabled] in *; intros Hr; try done.
  - destruct (start_state h p adapters c) as [E|(_ & E & _)]; [|done]. by rewrite E in Hr.
  - destruct (stop_state c); congruence.
  - unfold newConnection in *. rewrite (listening_posix c I He) in *. cbn [negb andb] in *.
    destruct (negb root || _ || _) eqn:B; [done|]. apply orb_false_iff in B as [_ B%bool_decide_eq_false]. split; [done|].
    match type of Hr with current (receive _ _ ?d) = _ => destruct (received_running d _ (receive_spec available d)) as (_ & new & Ho & R); [done|done|] end.
    rewrite Ho. cbn. rewrite <- !app_assoc. eexists. split; [done|]. destruct R as (l & ? & ?). exists l. by rewrite !in_app_iff; auto.
  - unfold readyRead in *. rewrite He in *. by apply (received_running _ _ (receive_spec bytes c)).
  - by apply (received_running _ _ (receive_spec bytes c)).
  - unfold startup_timeout in Hr. destruct (stop_state (emit (Message MNotReady) (c <| startupTimeout := false |>))) as [E|E]; rewrite E in Hr; done.
Qed.

Definition ends (e : event) : bool := match e with EFinished _ _ _ _ | EFailedToStart _ _ _ => true | _ => false end.

Lemma received_stopping c c' : received c c' -> current c = Stopping -> current c' = Stopping.
Proof. intros [_ [(-> & _)|(? & _)] _ _]; done. Qed.

(** a stop that was requested lasts until the process ends *)
Lemma stopping_stays e c : inv c -> current c = Stopping -> enabled o e c = true -> ends e = false -> current (handle' e c) = Stopping.
Proof.
  intros I E He Hn. destruct e; cbn [handle enabled ends] in *; try done.
  - unfold start, busy. by rewrite E.
  - unfold stop, busy. by rewrite E.
  - unfold newConnection. by rewrite (listening_posix c I He), E, orb_true_r.
  - unfold readyRead. rewrite He. by apply (received_stopping _ _ (receive_spec bytes c)).
  - by apply (received_stopping _ _ (receive_spec bytes c)).
  - unfold startup_timeout, stop, busy. cbn. by rewrite E.
Qed.

Lemma requested_stays code crashed rest stderr c : current c = Stopping ->
  exists pre, out (finish fromUtf8 o toUtf8 code crashed rest stderr c) = pre ++ [Message MStopped].
Proof.
  intros E. unfold finish. cbv zeta. set (c1 := c <| startupTimeout := false |>). set (c2 := if is_windows o then _ else c1).
  assert (E2 : current c2 = Stopping).
  { subst c2. destruct (is_windows o); [|done]. apply (received_stopping _ _ (receive_spec rest (c1 <| stopTimeout := false |>))). done. }
  rewrite E2. rewrite bool_decide_eq_true_2 by done. eexists. reflexivity.
Qed.

(** C21. A stop completes: it makes exactly one request to the relay - the stop
    event, the message on the control connection, or, before the relay has
    connected, the end of the authorization - then nothing but the end of the
    process leads out of the stopping state, and that end leaves the controller
    idle, holding nothing, with the message that the relay stopped. *)
Theorem stop_completes c : rtc step' RelayController c -> current c <> Idle -> current c <> Stopping ->
  let c1 := stop o c in
  current c1 = Stopping /\
  out c1 = out c ++ [StateChanged Stopping; if is_windows o then SetEvent else if socket c then WroteStop else Terminated] /\
  forall c2, rtc (fun a b => exists e, enabled o e a = true /\ ends e = false /\ b = handle' e a) c1 c2 ->
    current c2 = Stopping /\
    forall e, enabled o e c2 = true -> ends e = true ->
      let c3 := handle' e c2 in
      current c3 = Idle /\ resources c3 = (false, false, false, false, false, false) /\ log c3 = None /\
      exists pre, out c3 = pre ++ [Message MStopped].
Proof.
  intros Hr Hi Hs c1. pose proof (reachable_inv c Hr) as I. pose proof (stop_inv c I) as I1. fold c1 in I1.
  assert (E : current c1 = Stopping /\ out c1 = out c ++ [StateChanged Stopping; if is_windows o then SetEvent else if socket c then WroteStop else Terminated]).
  { subst c1. clear I1. destruct I as [H _]. unfold held in H. unfold stop, busy. destruct (current c) eqn:E; try done.
    all: rewrite bool_decide_eq_false_2 by done; cbn [negb orb]; destruct (is_windows o); use_resources; try done; cbn; use_resources; cbn;
      by rewrite <- app_assoc. }
  destruct E as [E Eo]. split_and!; [done..|]. intros c2 Hc2.
  assert (I2 : inv c2 /\ current c2 = Stopping).
  { clear Eo. induction Hc2 as [|a b c2 (e & He & Hn & ->) _ IH]; [done|]. apply IH.
    - eapply step_inv; [done|]. by constructor.
    - by apply stopping_stays. }
  destruct I2 as [I2 E2]. split; [done|]. intros e He Hn c3.
  assert (I3 : inv c3) by (eapply step_inv; [done|by constructor]).
  assert (E3 : current c3 = Idle) by (by subst c3; destruct e). split_and!; [done|by apply idle_resources|by apply I3|].
  subst c3. destruct e; try done; by apply requested_stays.
Qed.

(** what is run as root: [pkexec] runs its arguments, AppleScript reads the
    string after [do shell script] and a shell splits it *)
Fixpoint drop_prefix (p s : string) : option string :=
  match p, s with
  | EmptyString, _ => Some s
  | String a p, String b s => if Ascii.eqb a b then drop_prefix p s else None
  | String _ _, EmptyString => None
  end.
Definition root_words (args : list string) : option (list string) :=
  match o with
  | Linux => Some args
  | MacOS =>
      match args with
      | [_; script] =>
          s ← drop_prefix ("with timeout of 604800 seconds" +:+ String newline " do shell script ") script;
          '(command, _) ← applescript_literal s; shell_words Plain None command
      | _ => None
      end
  | Windows => None
  end.

Lemma drop_prefix_app p s : drop_prefix p (p +:+ s) = Some s.
Proof. induction p as [|a p IH]; [done|]. rewrite string_app_cons. cbn. by rewrite Ascii.eqb_refl. Qed.

Lemma osascript_words command : o = MacOS -> root_words (osascript command) = Some command.
Proof.
  intros E. unfold root_words, osascript. rewrite E.
  set (lit := appleScriptQuote _). set (tail := _ +:+ String newline "end timeout").
  change (drop_prefix ?p ?x) with (drop_prefix p (p +:+ (lit +:+ tail))). rewrite drop_prefix_app.
  cbn [mbind option_bind]. unfold lit. rewrite literal_quoted. cbn [mbind option_bind]. apply words_quoted.
Qed.

(** A start hands the relay its command: with checked preferences and a
    host that lets the files be made, the process that is asked for runs the
    supervisor as root with the control socket, the user and the relay, and the
    relay's words are read by the relay as the preferences. *)
Lemma start_launches h p adapters helper relay prev c :
  o <> Windows -> current c = Idle ->
  validate toIPv4Address hostString o (resolveGuid h) (isExecutable h) p adapters = None ->
  isExecutable h (applicationDirPath h +:+ "/grid0-relay-supervisor") = true ->
  root_programs o h (applicationDirPath h +:+ "/grid0-relay-supervisor") (relayPath p) = Some (helper, relay) ->
  report_made h = true -> log_opened h = true -> listens h = true -> (o = Linux -> nonempty (pkexec h) = true) ->
  let args := arguments o (resolveGuid h) p adapters (reportDirectory h +:+ "/packets") in
  let c' := start fromUtf8 o toIPv4Address hostString encode h p adapters c in
  current c' = Authorizing /\
  (exists program words, out c' = out c ++ [StateChanged Authorizing; Message MApprove; Launched program words] /\
    root_words words = Some ([helper; fullServerName h; pretty (uid h); relay] ++ args)) /\
  parse_arguments prev (relay :: args) =
    (0, launch_options o (resolveGuid h) p (overlay p adapters) (reportDirectory h +:+ "/packets") prev).
Proof.
  intros Hw E Hv Hx Hp H1 H2 H3 H4 args c'. subst c' args. rewrite arguments_parse. unfold start, busy. rewrite E, Hv, Hx, Hp, H1, H2.
  destruct (is_windows o) eqn:W; [by destruct o|]. cbn [negb andb]. unfold start_posix. rewrite H3. cbn [negb].
  destruct (bool_decide_reflect (o = Linux)) as [El|Hl].
  - rewrite H4 by done. split_and!; [done| |done]. eexists _, _. split; [cbn; by rewrite <- !app_assoc|]. unfold root_words. by rewrite El.
  - split_and!; [done| |done]. eexists _, _. split; [cbn; by rewrite <- !app_assoc|]. apply osascript_words. by destruct o.
Qed.
End Proofs.

(** ** Witnesses *)

Definition sample_host : host :=
  mkHost "/opt/grid0" (fun _ => true) (fun s => s) false "/home/u/helpers" true (fun s => s) (fun _ => mkFileInfo true 1 1) (fun _ _ => true)
    "/home/u/reports/1" true true true "Local\Stop" 7 true "/tmp/zll-ui-1/control" 1000 "/usr/bin/pkexec".
Definition sample_adapters : list Adapter := discoverAdapters qt_reads qt_prints (sample_interfaces [10; 42; 9; 123]).

Abbreviation sample_handle := (handle (fun l => l) Linux (fun l => l) qt_reads qt_prints codes).
Abbreviation sample_step := (step (fun l => l) Linux (fun l => l) qt_reads qt_prints codes).
Definition launching : controller := sample_handle (EStart sample_host sample_preferences sample_adapters) RelayController.
Definition connecting : controller := sample_handle (EConnection true []) launching.
Definition started_line : list Z := codes "Relay started (PID 42)" ++ [10].

Lemma connecting_reachable : rtc sample_step RelayController connecting.
Proof.
  apply (rtc_l _ _ launching); [exact (step_event _ _ _ _ _ _ _ (EStart sample_host sample_preferences sample_adapters) eq_refl)|].
  apply rtc_once. apply (step_event _ _ _ _ _ _ launching (EConnection true [])). vm_compute. reflexivity.
Qed.

Lemma controller_witness : current connecting = Starting /\ resources connecting = (true, true, true, true, false, false).
Proof.
  split; [vm_compute; reflexivity|].
  destruct (controller_holds (fun l => l) Linux (fun l => l) qt_reads qt_prints codes connecting connecting_reachable) as [H _].
  unfold held in H. replace (current connecting) with Starting in H by (vm_compute; reflexivity). exact H.
Defined.

Lemma running_witness : current (sample_handle (ESocket started_line) connecting) = Running /\
  exists new, out (sample_handle (ESocket started_line) connecting) = out connecting ++ new /\ reports_start new.
Proof.
  assert (E : current (sample_handle (ESocket started_line) connecting) = Running) by (vm_compute; reflexivity).
  split; [exact E|].
  apply (running_was_reported (fun l => l) Linux (fun l => l) qt_reads qt_prints codes (ESocket started_line) connecting connecting_reachable);
    [vm_compute; reflexivity|vm_compute; discriminate|exact E].
Defined.

Lemma stop_witness : out (stop Linux connecting) = out connecting ++ [StateChanged Stopping; WroteStop].
Proof.
  destruct (stop_completes (fun l => l) Linux (fun l => l) qt_reads qt_prints codes connecting connecting_reachable) as (_ & E & _);
    [vm_compute; discriminate..|]. exact E.
Defined.

Lemma relay_lines_witness :
  delivered (out (fold_left (fun c x => receive (fun l => l) x c) [codes "Relay sta"; codes "rted" ++ [10] ++ codes "x"; [10]] RelayController))
  = [codes "Relay started"; codes "x"].
Proof.
  rewrite (relay_lines_delivered (fun l => l) [codes "Relay sta"; codes "rted" ++ [10] ++ codes "x"; [10]] RelayController);
    [vm_compute; reflexivity|reflexivity|]. cbn [fits]. vm_compute. repeat split; discriminate.
Defined.
