(* ===== verification/Supervisor.v ===== *)
(** * Supervisor: the process that runs the relay as root

    [desktop/posix-supervisor.cpp].  [main] checks its arguments and the user at
    the other end of the control socket, starts one child and loops: the record
    [supervisor] holds the loop's variables, [sent] and [signals] what went out.
    One iteration takes a [round]: what the clock, [poll], the reads, [send] and
    [waitpid] answer in it, and whether a signal handler ran before it. *)

From Stdlib Require Import Ascii.
From stdpp Require Import strings pretty.
From S2P Require Import Prelude Bytes World Sample Options Address Startup Quoting Desktop Controller.

#[local] Open Scope Z_scope.

(** ** Start *)

Definition ULONG_MAX : Z := 2 ^ 64 - 1.
(** [strtoul(s, &end, 10)]: the value and what was not read *)
Definition strtoul (s : string) : Z * string :=
  let '(found, v, rest) := read_number s in
  if negb found then (0, s) else
  if ULONG_MAX <? Z.abs v then (ULONG_MAX, rest) else (v mod 2 ^ 64, rest).

(** what the system calls of the start answer; [peer] is the user of the other
    end, [sun_path] the size of an address *)
Record system := mkSystem {
  sun_path : Z; connects : bool; peer : option Z; pipes : bool; forks : bool
}.

(** [None]: the supervisor leaves with status 2; otherwise the words the child
    is executed with *)
Definition start_child (sys : system) (argv : list string) : option (list string) :=
  match argv with
  | _ :: path :: gui_uid :: relay :: first :: rest =>
      let (uid, end_) := strtoul gui_uid in
      if negb (String.eqb end_ "") || (sun_path sys <=? strlen path) then None else
      if negb (connects sys) then None else
      match peer sys with
      | Some p => if negb (p =? uid) then None else
          if pipes sys && forks sys then Some (relay :: first :: rest) else None
      | None => None
      end
  | _ => None
  end.

(** ** The loop *)

Inductive signal := SIGINT | SIGKILL.

Record supervisor := mkSupervisor {
  interrupted : bool;
  stopping : bool;
  connected : bool;
  logOpen : bool;
  output : list Z;
  commands : list Z;
  deadline : option Z;
  signals : list signal;
  sent : list Z
}.
#[global] Instance eta_supervisor : Eta supervisor := fun r =>
  mkSupervisor (interrupted r) (stopping r) (connected r) (logOpen r) (output r) (commands r) (deadline r) (signals r) (sent r).
Definition begin : supervisor := mkSupervisor false false true true [] [] None [] [].

(** answers of the system: [Again] is [EAGAIN] or [EINTR] *)
Inductive read_result := Read (bytes : list Z) | Eof | Again | Failed.
Inductive send_result := Sent (n : nat) | SendAgain | SendFailed.
Inductive status := Exited (code : Z) | Signaled.
Inductive wait_result := Alive | Ended (s : status) | WaitInterrupted | WaitFailed.

(** [log_reads] are the successful reads of the pipe in this round, [log_eof]
    tells whether the last one found its end *)
Record round := mkRound {
  signalled : bool;
  now : Z;
  now_again : Z;
  connection : option read_result;
  log_ready : bool;
  log_reads : list (list Z);
  log_eof : bool;
  sends : send_result;
  waits : wait_result
}.

Definition OUTPUT_LIMIT : Z := 4 * 1024 * 1024.
Definition STOP : list Z := codes "STOP" ++ [10].

Definition stop_child (r : round) (s : supervisor) : supervisor :=
  let s := if interrupted s && negb (stopping s)
    then s <| signals ::= (fun l => l ++ [SIGINT]) |> <| stopping := true |> <| deadline := Some (now r + 5000) |> else s in
  if stopping s && match deadline s with Some d => d <? now_again r | None => false end
  then s <| signals ::= (fun l => l ++ [SIGKILL]) |> else s.

Definition drop_connection (s : supervisor) : supervisor := s <| connected := false |> <| interrupted := true |>.

Definition read_connection (r : round) (s : supervisor) : supervisor :=
  if negb (connected s) then s else
  match connection r with
  | None | Some Again => s
  | Some (Read bytes) =>
      let s := s <| commands ::= (fun l => l ++ bytes) |> in
      if text_contains (commands s) STOP || (64 <? blen (commands s)) then s <| interrupted := true |> else s
  | Some Eof | Some Failed => drop_connection s
  end.

(** one successful read of the pipe *)
Definition log_read (s : supervisor) (bytes : list Z) : supervisor :=
  let s := if connected s then s <| output ::= (fun l => l ++ bytes) |> else s in
  if OUTPUT_LIMIT <? blen (output s) then (drop_connection s) <| output := [] |> else s.
Definition read_logs (r : round) (s : supervisor) : supervisor :=
  if logOpen s && log_ready r then
    let s := fold_left log_read (log_reads r) s in
    if log_eof r then s <| logOpen := false |> else s
  else s.

(** [send(connection, output...)]: the socket takes at most what is there *)
Definition take_output (n : nat) (s : supervisor) : supervisor :=
  s <| sent := sent s ++ firstn n (output s) |> <| output := skipn n (output s) |>.
Definition send_output (r : round) (s : supervisor) : supervisor :=
  if connected s && negb (bool_decide (output s = [])) then
    match sends r with
    | Sent n => take_output n s
    | SendAgain => s
    | SendFailed => drop_connection s
    end
  else s.

Definition iteration (r : round) (s : supervisor) : supervisor :=
  let s := if signalled r then s <| interrupted := true |> else s in
  send_output r (read_logs r (read_connection r (stop_child r s))).

(** after the child has ended: what the pipe still holds, then at most twenty
    attempts to send it *)
Fixpoint flush (tries : list send_result) (s : supervisor) : supervisor :=
  match tries with
  | [] => s
  | t :: tries =>
      if connected s && negb (bool_decide (output s = []))
      then flush tries match t with Sent n => take_output n s | _ => s end else s
  end.
Definition drain (remaining : list (list Z)) (tries : list send_result) (s : supervisor) : supervisor :=
  flush (firstn 20 tries) (s <| output := output s ++ concat remaining |>).

(** [WIFEXITED(status) ? WEXITSTATUS(status) : 1] *)
Definition exit_status (st : status) : Z := match st with Exited code => code | Signaled => 1 end.

(** the loop over the rounds the system gives, then the end; [status] is still
    0 when [waitpid] fails *)
Fixpoint supervise (rounds : list round) (remaining : list (list Z)) (tries : list send_result) (s : supervisor) :
    supervisor * option Z :=
  match rounds with
  | [] => (s, None)
  | r :: rounds =>
      let s := iteration r s in
      match waits r with
      | Ended st => (drain remaining tries s, Some (exit_status st))
      | WaitFailed => (s, Some (exit_status (Exited 0)))
      | Alive | WaitInterrupted => supervise rounds remaining tries s
      end
  end.

(** ** Lemmas *)

Create HintDb supervisor.

(** the state after rounds in which the child did not end *)
Definition loop (rounds : list round) (s : supervisor) : supervisor := fold_left (fun s r => iteration r s) rounds s.
Definition alive (r : round) : Prop := waits r = Alive \/ waits r = WaitInterrupted.

Lemma supervise_alive pre rounds remaining tries s : Forall alive pre ->
  supervise (pre ++ rounds) remaining tries s = supervise rounds remaining tries (loop pre s).
Proof.
  intros H. revert s. induction H as [|r pre Hr _ IH]; intros s; [done|]. cbn. rewrite <- IH. by destruct Hr as [-> | ->].
Qed.

(** *** Signals *)

(** no signal before the stop, then one SIGINT and possibly SIGKILLs *)
Definition signals_ok (s : supervisor) : Prop :=
  if stopping s then (exists k, signals s = SIGINT :: replicate k SIGKILL) /\ interrupted s = true /\ deadline s <> None
  else signals s = [] /\ deadline s = None.

(** the parts of an iteration that do not signal *)
Record quiet (s s' : supervisor) : Prop := {
  qt_signals : signals s' = signals s;
  qt_stopping : stopping s' = stopping s;
  qt_deadline : deadline s' = deadline s;
  qt_interrupted : interrupted s = true -> interrupted s' = true;
  qt_connected : connected s = false -> connected s' = false;
  qt_dropped : connected s = true -> connected s' = false -> interrupted s' = true
}.
#[export] Instance quiet_preorder : PreOrder quiet.
Proof.
  split; [constructor; done || congruence|]. intros a b c [A1 A2 A3 A4 A5 A6] [B1 B2 B3 B4 B5 B6].
  constructor; [congruence..|auto|auto|]. intros Ha Hc. destruct (connected b) eqn:E; auto.
Qed.

Lemma drop_quiet s : quiet s (drop_connection s).
Proof. by constructor. Qed.
Lemma read_connection_quiet r s : quiet s (read_connection r s).
Proof.
  unfold read_connection. destruct (connected s) eqn:E; [|done]. cbn [negb].
  destruct (connection r) as [[b| | |]|]; [|apply drop_quiet|done|apply drop_quiet|done].
  cbv zeta. destruct (_ || _); constructor; try done; cbn; by rewrite E.
Qed.
Lemma log_read_quiet s b : quiet s (log_read s b).
Proof. unfold log_read. destruct (connected s) eqn:E; destruct (_ <? _); constructor; try done; cbn; congruence. Qed.
Lemma log_reads_quiet l : forall s, quiet s (fold_left log_read l s).
Proof. induction l as [|b l IH]; intros s; [done|]. cbn. etransitivity; [apply log_read_quiet|apply IH]. Qed.
Lemma read_logs_quiet r s : quiet s (read_logs r s).
Proof.
  unfold read_logs. destruct (_ && _); [|done]. cbv zeta. etransitivity; [apply (log_reads_quiet (log_reads r))|].
  destruct (log_eof r); [|done]. constructor; try done. cbn. congruence.
Qed.
Lemma send_output_quiet r s : quiet s (send_output r s).
Proof.
  unfold send_output. destruct (_ && _); [|done]. destruct (sends r); [|done|apply drop_quiet]. constructor; try done. cbn. congruence.
Qed.
Lemma after_stop_quiet r s : quiet s (send_output r (read_logs r (read_connection r s))).
Proof. etransitivity; [apply read_connection_quiet|]. etransitivity; [apply read_logs_quiet|apply send_output_quiet]. Qed.
#[export] Hint Resolve after_stop_quiet read_connection_quiet read_logs_quiet send_output_quiet : supervisor.

Lemma replicate_snoc {A} n (x : A) : replicate n x ++ [x] = replicate (S n) x.
Proof. induction n as [|n IH]; [done|]. cbn. by rewrite IH. Qed.

Lemma stop_child_ok r s : signals_ok s -> let s' := stop_child r s in
  signals_ok s' /\ connected s' = connected s /\ interrupted s' = interrupted s /\ stopping s' = interrupted s.
Proof.
  unfold stop_child, signals_ok. intros H. cbv zeta. destruct (stopping s) eqn:S.
  - destruct H as ((k & Hk) & Hi & Hd). rewrite andb_false_r, S. cbn [andb].
    destruct (match deadline s with Some _ => _ | None => _ end); cbn; rewrite S, Hk; split_and!; try done; [exists (1 + k)%nat|by exists k].
    cbn. by rewrite replicate_snoc.
  - destruct H as [Hs Hd]. destruct (interrupted s) eqn:I; cbn; rewrite ?S, ?Hd, ?Hs; cbn; [|by rewrite S, Hd, Hs].
    destruct (_ <? _); cbn; rewrite Hs; split_and!; try done; [by exists 1%nat|by exists 0%nat].
Qed.

Lemma signals_quiet s s' : quiet s s' -> signals_ok s -> signals_ok s'.
Proof. intros [E1 E2 E3 E4 _ _]. unfold signals_ok. rewrite E1, E2, E3. destruct (stopping s); [|done]. intros (? & ? & ?). auto. Qed.

Definition raised (r : round) (s : supervisor) : supervisor := if signalled r then s <| interrupted := true |> else s.
Lemma raised_ok r s : signals_ok s -> signals_ok (raised r s).
Proof. unfold raised, signals_ok. destruct (signalled r); [|done]. cbn. destruct (stopping s); [|done]. intros (? & _ & ?). done. Qed.

Lemma iteration_ok r s : signals_ok s -> signals_ok (iteration r s).
Proof. intros H. eapply signals_quiet; [apply after_stop_quiet|]. apply stop_child_ok. by apply raised_ok. Qed.
Lemma loop_ok rounds : forall s, signals_ok s -> signals_ok (loop rounds s).
Proof. induction rounds as [|r l IH]; intros s H; [done|]. cbn. apply IH. by apply iteration_ok. Qed.

Lemma iteration_stopping r s : signals_ok s -> stopping (iteration r s) = interrupted (raised r s) /\
  (interrupted s = true -> interrupted (iteration r s) = true).
Proof.
  intros H%(raised_ok r). pose proof (after_stop_quiet r (stop_child r (raised r s))) as [_ Hs _ Hi _ _].
  destruct (stop_child_ok r _ H) as (_ & _ & Ei & Es). unfold iteration. fold (raised r s). rewrite Hs, Es. split; [done|].
  intros I. apply Hi. rewrite Ei. unfold raised. by destruct (signalled r).
Qed.

(** *** The deadline *)

Lemma iteration_deadline r s d : signals_ok s -> deadline (iteration r s) = Some d -> deadline s = Some d \/ d = now r + 5000.
Proof.
  intros H%(raised_ok r). unfold iteration. fold (raised r s).
  rewrite (qt_deadline _ _ (after_stop_quiet r (stop_child r (raised r s)))).
  replace (deadline s) with (deadline (raised r s)) by (unfold raised; by destruct (signalled r)).
  unfold stop_child. cbv zeta. destruct (interrupted (raised r s) && negb (stopping (raised r s))); [|destruct (_ && _); auto].
  destruct (_ && _); cbn; intros [= <-]; auto.
Qed.
Lemma loop_deadline rounds : forall s d, signals_ok s -> deadline (loop rounds s) = Some d ->
  deadline s = Some d \/ exists r, In r rounds /\ d = now r + 5000.
Proof.
  induction rounds as [|r l IH]; intros s d H E; [by left|]. cbn in E. destruct (IH _ d (iteration_ok r s H) E) as [F|(r' & ? & ?)].
  - apply iteration_deadline in F as [?| ->]; [by left| |done]. right. exists r. split; [by left|done].
  - right. exists r'. split; [by right|done].
Qed.
Lemma iteration_kills r s d : signals_ok s -> deadline s = Some d -> d < now_again r ->
  exists l, signals (iteration r s) = l ++ [SIGKILL].
Proof.
  intros H%(raised_ok r) Hd Hn. unfold iteration. fold (raised r s).
  rewrite (qt_signals _ _ (after_stop_quiet r (stop_child r (raised r s)))).
  assert (Hd' : deadline (raised r s) = Some d) by (unfold raised; by destruct (signalled r)).
  unfold signals_ok in H. unfold stop_child. destruct (stopping (raised r s)) eqn:S; [|by destruct H; congruence].
  rewrite andb_false_r, S, Hd'. cbn [andb]. destruct (Z.ltb_spec d (now_again r)); [|lia]. eexists. reflexivity.
Qed.
Lemma deadline_stays rounds : forall s d, signals_ok s -> deadline s = Some d -> deadline (loop rounds s) = Some d.
Proof.
  induction rounds as [|r l IH]; intros s d H E; [done|]. cbn. apply IH; [by apply iteration_ok|].
  unfold iteration. fold (raised r s). rewrite (qt_deadline _ _ (after_stop_quiet r (stop_child r (raised r s)))).
  apply (raised_ok r) in H. assert (E' : deadline (raised r s) = Some d) by (unfold raised; by destruct (signalled r)).
  unfold signals_ok in H. unfold stop_child. destruct (stopping (raised r s)) eqn:S; [|by destruct H; congruence].
  rewrite andb_false_r. by destruct (_ && _).
Qed.

(** *** Commands *)

(** what was received on the control connection *)
Definition heard (rounds : list round) : list Z :=
  concat (map (fun r => match connection r with Some (Read b) => b | _ => [] end) rounds).

Definition listens_to (heard : list Z) (s : supervisor) : Prop :=
  interrupted s = true \/ (connected s = true /\ commands s = heard /\ text_contains heard STOP = false).

Lemma log_reads_commands l : forall s, commands (fold_left log_read l s) = commands s.
Proof.
  induction l as [|b l IH]; intros s; [done|]. cbn. rewrite IH. unfold log_read. by destruct (connected s), (_ <? _).
Qed.
Lemma later_commands r s : commands (send_output r (read_logs r s)) = commands s.
Proof.
  assert (E : commands (read_logs r s) = commands s).
  { unfold read_logs. destruct (_ && _); [|done]. cbv zeta. destruct (log_eof r); apply log_reads_commands. }
  rewrite <- E. unfold send_output. destruct (_ && _); [|done]. by destruct (sends r).
Qed.
Lemma iteration_listens r h s : signals_ok s -> listens_to h s ->
  listens_to (h ++ match connection r with Some (Read b) => b | _ => [] end) (iteration r s).
Proof.
  intros H [I|(C & E & N)]; [left; by apply iteration_stopping|].
  destruct (interrupted (iteration r s)) eqn:I; [by left|right]. unfold iteration in *. fold (raised r s) in *.
  assert (J : interrupted (raised r s) = false).
  { destruct (interrupted (raised r s)) eqn:J; [|done]. rewrite <- I. symmetry. apply (qt_interrupted _ _ (after_stop_quiet r (stop_child r (raised r s)))).
    destruct (stop_child_ok r _ (raised_ok r s H)) as (_ & _ & -> & _). done. }
  assert (R : raised r s = s) by (unfold raised in *; by destruct (signalled r)). rewrite R in *.
  set (s1 := stop_child r s) in *. assert (E1 : commands s1 = commands s /\ connected s1 = true).
  { subst s1. unfold stop_child. by destruct (_ && _), (_ && _). }
  destruct E1 as [E1 C1]. rewrite later_commands.
  assert (Q : quiet (read_connection r s1) (send_output r (read_logs r (read_connection r s1)))) by (transitivity (read_logs r (read_connection r s1)); auto with supervisor).
  assert (I2 : interrupted (read_connection r s1) = false) by (destruct (interrupted (read_connection r s1)) eqn:?; [|done]; rewrite <- I; symmetry; by apply Q).
  assert (K : connected (read_connection r s1) = true /\ commands (read_connection r s1) = h ++ match connection r with Some (Read b) => b | _ => [] end /\
              text_contains (h ++ match connection r with Some (Read b) => b | _ => [] end) STOP = false).
  { unfold read_connection in *. rewrite C1 in *. cbn [negb] in *. destruct (connection r) as [[b| | |]|]; try done; rewrite ?app_nil_r; try (split_and!; congruence).
    cbv zeta in *. cbn in *. rewrite E1, E in *. destruct (_ || _) eqn:O; [done|]. apply orb_false_iff in O as [O _]. split_and!; [exact C1|change (commands s1 ++ b = h ++ b); by rewrite E1|exact O]. }
  destruct K as (K1 & K2 & K3). split_and!; [|done..].
  destruct (connected (send_output _ _)) eqn:C2; [done|]. by rewrite (qt_dropped _ _ Q K1 C2) in I.
Qed.
Lemma loop_listens rounds : forall h s, signals_ok s -> listens_to h s -> listens_to (h ++ heard rounds) (loop rounds s).
Proof.
  induction rounds as [|r l IH]; intros h s H L; cbn; [by rewrite app_nil_r|]. unfold heard. cbn. rewrite app_assoc.
  apply IH; [by apply iteration_ok|by apply iteration_listens].
Qed.

(** *** Output *)

(** what was read from the child while the pipe was open *)
Fixpoint piped (open : bool) (rounds : list round) : list Z :=
  match rounds with
  | [] => []
  | r :: rounds => (if open && log_ready r then concat (log_reads r) else []) ++ piped (open && negb (log_ready r && log_eof r)) rounds
  end.

(** what was sent is the front of what was read; while connected, the rest is
    still to be sent, and never more than the limit *)
Record ordered (read : list Z) (s : supervisor) : Prop := {
  od_prefix : sent s `prefix_of` read;
  od_all : connected s = true -> sent s ++ output s = read;
  od_bound : blen (output s) <= OUTPUT_LIMIT
}.

Lemma log_read_ordered read s b : ordered read s -> ordered (read ++ b) (log_read s b) /\ logOpen (log_read s b) = logOpen s.
Proof.
  intros [P A B]. unfold log_read. destruct (connected s) eqn:C; cbn [set]; cbv zeta.
  - destruct (Z.ltb_spec OUTPUT_LIMIT (blen (output (s <| output ::= (fun l => l ++ b) |>)))) as [|Hb].
    + split; [|done]. constructor; cbn; [by apply prefix_app_r|done|by vm_compute].
    + split; [|done]. constructor; cbn; [by apply prefix_app_r| |done]. intros _. by rewrite app_assoc, A.
  - destruct (Z.ltb_spec OUTPUT_LIMIT (blen (output s))); [lia|]. split; [|done].
    constructor; [by apply prefix_app_r|congruence|done].
Qed.
Lemma log_reads_ordered l : forall read s, ordered read s ->
  ordered (read ++ concat l) (fold_left log_read l s) /\ logOpen (fold_left log_read l s) = logOpen s.
Proof.
  induction l as [|b l IH]; intros read s H; cbn; [by rewrite app_nil_r|].
  destruct (log_read_ordered read s b H) as [H1 E1]. destruct (IH _ _ H1) as [H2 E2]. rewrite app_assoc. split; [done|congruence].
Qed.

Lemma ordered_ext read s s' : ordered read s -> sent s' = sent s -> output s' = output s ->
  (connected s' = true -> connected s = true) -> ordered read s'.
Proof. intros [P A B] E1 E2 C. constructor; rewrite ?E1, ?E2; auto. Qed.

Lemma take_ordered n read s : connected s = true -> ordered read s -> ordered read (take_output n s).
Proof.
  intros C [P A B]. specialize (A C). constructor; cbn.
  - exists (skipn n (output s)). by rewrite <- app_assoc, firstn_skipn, A.
  - intros _. by rewrite <- app_assoc, firstn_skipn.
  - revert B. unfold blen. rewrite length_skipn. lia.
Qed.

Lemma iteration_ordered r read s : ordered read s ->
  ordered (read ++ if logOpen s && log_ready r then concat (log_reads r) else []) (iteration r s) /\
  logOpen (iteration r s) = logOpen s && negb (log_ready r && log_eof r).
Proof.
  intros H. unfold iteration. fold (raised r s). set (s1 := stop_child r (raised r s)).
  assert (H1 : ordered read s1 /\ logOpen s1 = logOpen s).
  { assert (E : sent s1 = sent s /\ output s1 = output s /\ connected s1 = connected s /\ logOpen s1 = logOpen s).
    { subst s1. unfold stop_child. cbv zeta. unfold raised. destruct (signalled r); by destruct (_ && _), (_ && _). }
    destruct E as (E1 & E2 & E3 & E4). split; [|done]. eapply ordered_ext; [done..|]. congruence. }
  destruct H1 as [H1 L1]. set (s2 := read_connection r s1). assert (H2 : ordered read s2 /\ logOpen s2 = logOpen s).
  { rewrite <- L1. subst s2. unfold read_connection. destruct (connected s1); [|done]. cbn [negb].
    destruct (connection r) as [[b| | |]|]; [destruct (_ || _)|..]; (split; [|done]); by eapply ordered_ext. }
  destruct H2 as [H2 L2]. set (s3 := read_logs r s2).
  assert (H3 : ordered (read ++ if logOpen s && log_ready r then concat (log_reads r) else []) s3 /\
               logOpen s3 = logOpen s && negb (log_ready r && log_eof r)).
  { subst s3. unfold read_logs. rewrite L2. destruct (logOpen s) eqn:E; cbn [andb]; [|by rewrite app_nil_r].
    destruct (log_ready r); cbn [andb]; [|by rewrite app_nil_r].
    destruct (log_reads_ordered (log_reads r) read s2 H2) as [H3 L3]. destruct (log_eof r); cbn [negb]; [|by rewrite L3].
    split; [|done]. by eapply ordered_ext. }
  destruct H3 as [H3 <-]. unfold send_output. destruct (connected s3) eqn:C; cbn [andb]; [|done].
  destruct (negb _); [|done]. destruct (sends r); [|done|]; (split; [|done]); [by apply take_ordered|by eapply ordered_ext].
Qed.
Lemma loop_ordered rounds : forall read s, ordered read s -> ordered (read ++ piped (logOpen s) rounds) (loop rounds s).
Proof.
  induction rounds as [|r l IH]; intros read s H; cbn; [by rewrite app_nil_r|].
  destruct (iteration_ordered r read s H) as [H1 E1]. rewrite app_assoc, <- E1. by apply IH.
Qed.

Lemma flush_ordered tries : forall read s, sent s `prefix_of` read -> (connected s = true -> sent s ++ output s = read) ->
  let s' := flush tries s in
  sent s' `prefix_of` read /\ connected s' = connected s /\ (connected s' = true -> sent s' ++ output s' = read).
Proof.
  induction tries as [|t tries IH]; intros read s P A; [done|]. cbn [flush].
  destruct (connected s) eqn:C; cbn [andb]; [|split_and!; congruence]. destruct (negb _); [|split_and!; auto].
  specialize (A eq_refl).
  assert (G : forall x, connected x = true -> sent x ++ output x = read ->
    sent (flush tries x) `prefix_of` read /\ connected (flush tries x) = true /\
    (connected (flush tries x) = true -> sent (flush tries x) ++ output (flush tries x) = read)).
  { intros x Cx Ax. rewrite <- Cx at 1. apply IH; [exists (output x); done|done]. }
  destruct t as [n| |]; apply G; try done. cbn. by rewrite <- app_assoc, firstn_skipn.
Qed.

Lemma strtoul_pretty z : 0 <= z <= ULONG_MAX -> strtoul (pretty z) = (z, ""%string).
Proof.
  intros Hz. unfold strtoul. rewrite <- (string_app_nil_r (pretty z)), read_number_pretty by (done || lia). cbn [negb].
  unfold ULONG_MAX in *. destruct (Z.ltb_spec (2 ^ 64 - 1) (Z.abs z)); [lia|]. by rewrite Z.mod_small by lia.
Qed.

(** ** Properties *)

(** What the child prints reaches the application in order and without
    gaps: what was sent is always the front of what the child wrote, together
    with what is buffered it is all of it while the connection holds, the buffer
    stays within 4 MiB while the child runs, the last of it is sent when the
    socket takes it, and the supervisor leaves with the child's status. *)
Theorem supervisor_output pre r st remaining tries s code :
  Forall alive pre -> waits r = Ended st -> supervise (pre ++ [r]) remaining tries begin = (s, code) ->
  let read := piped true (pre ++ [r]) ++ concat remaining in
  code = Some (exit_status st) /\ blen (output (loop (pre ++ [r]) begin)) <= OUTPUT_LIMIT /\
  sent s `prefix_of` read /\
  (connected s = true -> sent s ++ output s = read) /\
  (forall n rest, tries = Sent n :: rest -> connected s = true -> blen read <= Z.of_nat n -> sent s = read).
Proof.
  intros Hpre Hr Hs read. rewrite supervise_alive in Hs by done. cbn in Hs. rewrite Hr in Hs. injection Hs as <- <-.
  assert (H : ordered (piped true (pre ++ [r])) (loop (pre ++ [r]) begin)) by (apply (loop_ordered (pre ++ [r]) [] begin); by constructor).
  assert (E : iteration r (loop pre begin) = loop (pre ++ [r]) begin) by (unfold loop; by rewrite fold_left_app).
  rewrite E. set (e := loop (pre ++ [r]) begin) in *. clearbody e. destruct H as [P A B].
  unfold drain. set (e' := e <| output := output e ++ concat remaining |>).
  assert (P' : sent e' `prefix_of` read) by (by apply prefix_app_r).
  assert (A' : connected e' = true -> sent e' ++ output e' = read) by (cbn; intros C; by rewrite app_assoc, A).
  destruct (flush_ordered (firstn 20 tries) read e' P' A') as (F1 & F2 & F3). split_and!; try done.
  intros n rest -> C Hn. rewrite F2 in C. specialize (A' C). cbn [firstn flush].
  rewrite C. cbn [andb]. destruct (bool_decide_reflect (output e' = [])) as [Eo|Eo]; cbn [negb].
  - by rewrite Eo, app_nil_r in A'.
  - assert (Ht : output (take_output n e') = [] /\ sent (take_output n e') = read).
    { assert (Hl : (length (output e') <= n)%nat) by (revert Hn; rewrite <- A'; unfold blen; rewrite length_app; lia).
      split; cbn; [by apply skipn_all2|]. rewrite firstn_all2 by done. done. }
    destruct Ht as [Ho Hse]. destruct rest as [|t l]; cbn [firstn flush]; [done|].
    rewrite Ho, bool_decide_eq_true_2, andb_false_r by done. done.
Qed.

(** A request to stop is obeyed: once the bytes received contain the stop
    command, in whatever pieces they came, the next round interrupts the child,
    once, and any round more than five seconds later kills it. *)
Theorem stop_obeyed pre r mid late :
  text_contains (heard pre) STOP = true -> Forall (fun r' => now r' <= now r) pre ->
  now r + 5000 < now_again late ->
  (exists k, signals (loop (pre ++ [r]) begin) = SIGINT :: replicate k SIGKILL) /\
  exists k, signals (loop (pre ++ [r] ++ mid ++ [late]) begin) = SIGINT :: replicate (S k) SIGKILL.
Proof.
  intros Hh Hc Hl. assert (S0 : signals_ok begin) by done. assert (L0 : listens_to [] begin) by (by right).
  pose proof (loop_listens pre [] begin S0 L0) as L. pose proof (loop_ok pre begin S0) as S1.
  assert (I : interrupted (loop pre begin) = true) by (destruct L as [?|(_ & _ & ?)]; [done|cbn in *; congruence]).
  assert (S2 : signals_ok (loop (pre ++ [r]) begin)) by (by apply loop_ok).
  assert (T : stopping (loop (pre ++ [r]) begin) = true).
  { unfold loop. rewrite fold_left_app. cbn. fold (loop pre begin). destruct (iteration_stopping r _ S1) as [-> _].
    unfold raised. by destruct (signalled r). }
  pose proof S2 as S2'. unfold signals_ok in S2'. rewrite T in S2'. destruct S2' as (Hk & _ & Hd). split; [done|].
  destruct (deadline (loop (pre ++ [r]) begin)) as [d|] eqn:D; [|done].
  assert (Hd' : d <= now r + 5000).
  { destruct (loop_deadline (pre ++ [r]) begin d S0 D) as [|(r' & Hin & ->)]; [done|]. apply in_app_iff in Hin as [Hin|[->|[]]]; [|lia].
    rewrite Forall_forall in Hc. specialize (Hc _ Hin). cbn in Hc. lia. }
  set (s3 := loop mid (loop (pre ++ [r]) begin)).
  assert (E : loop (pre ++ [r] ++ mid ++ [late]) begin = iteration late s3) by (subst s3; unfold loop; rewrite !fold_left_app; done).
  assert (S3 : signals_ok s3) by (by apply loop_ok).
  destruct (iteration_kills late s3 d S3) as (l & Hlast); [by apply deadline_stays|lia|].
  pose proof (iteration_ok late s3 S3) as S4. rewrite E. unfold signals_ok in S4.
  destruct (stopping (iteration late s3)); [|by rewrite Hlast in S4; destruct S4 as [S4 _]; destruct l].
  destruct S4 as ((k & Hs) & _). rewrite Hs in Hlast |- *. destruct k as [|k]; [|by exists k]. by destruct l as [|? [|]].
Qed.

(** C18. Start works from the button to the relay's options: with checked
    preferences and a host that lets the files be made, the process the
    application asks for runs the supervisor as root with the words below, the
    supervisor, when the application's user is at the other end of the control
    socket, executes the relay with its words, and the relay reads them as the
    preferences. *)
Theorem start_reaches_relay fromUtf8 o toIPv4Address hostString encode h p adapters helper relay prev sys c :
  o <> Windows -> current c = Idle ->
  validate toIPv4Address hostString o (resolveGuid h) (isExecutable h) p adapters = None ->
  isExecutable h (applicationDirPath h +:+ "/grid0-relay-supervisor") = true ->
  root_programs o h (applicationDirPath h +:+ "/grid0-relay-supervisor") (relayPath p) = Some (helper, relay) ->
  report_made h = true -> log_opened h = true -> Controller.listens h = true -> (o = Linux -> nonempty (pkexec h) = true) ->
  0 <= uid h <= ULONG_MAX -> strlen (fullServerName h) < sun_path sys ->
  connects sys = true -> peer sys = Some (uid h) -> pipes sys = true -> forks sys = true ->
  let args := arguments o (resolveGuid h) p adapters (reportDirectory h +:+ "/packets") in
  let c' := start fromUtf8 o toIPv4Address hostString encode h p adapters c in
  current c' = Authorizing /\
  exists program words argv,
    out c' = out c ++ [StateChanged Authorizing; Message MApprove; Launched program words] /\
    root_words o words = Some argv /\ nth 0 argv ""%string = helper /\
    start_child sys argv = Some (relay :: args) /\
    parse_arguments prev (relay :: args) =
      (0, launch_options o (resolveGuid h) p (overlay p adapters) (reportDirectory h +:+ "/packets") prev).
Proof.
  intros Hw E Hv Hx Hp H1 H2 H3 H4 Hu Hs S1 S2 S3 S4 args c'.
  destruct (start_launches fromUtf8 o toIPv4Address hostString encode h p adapters helper relay prev c Hw E Hv Hx Hp H1 H2 H3 H4)
    as (Hc & (program & words & Ho & Hr) & Hpa).
  split; [done|]. exists program, words. eexists. split_and!; [done|done|done| |done].
  fold args. assert (Ha : exists first rest, args = first :: rest) by (eexists _, _; reflexivity). destruct Ha as (first & rest & Ha).
  rewrite Ha. cbn [app start_child]. rewrite strtoul_pretty by done. cbn [String.eqb negb orb].
  destruct (Z.leb_spec (sun_path sys) (strlen (fullServerName h))); [lia|]. rewrite S1, S2, S3, S4, Z.eqb_refl. done.
Qed.

(** ** Witnesses *)

Definition idle_round (t : Z) : round := mkRound false t t None false [] false SendAgain Alive.
Definition sample_round (t : Z) (c : option read_result) (log : list (list Z)) : round := mkRound false t t c true log false (Sent 3) Alive.

Lemma output_witness :
  let last := mkRound false 30 30 None true [codes "done"] true SendAgain (Ended (Exited 5)) in
  let r := supervise [sample_round 10 None [codes "Relay "; codes "started"]; sample_round 20 (Some Again) [[10]]; last] [codes "!"] [Sent 100] begin in
  r.2 = Some 5 /\ sent r.1 = codes "Relay started" ++ [10] ++ codes "done!".
Proof.
  intros last r.
  destruct (supervisor_output [sample_round 10 None [codes "Relay "; codes "started"]; sample_round 20 (Some Again) [[10]]] last (Exited 5)
    [codes "!"] [Sent 100] r.1 r.2) as (H1 & _ & _ & _ & H2).
  - repeat constructor.
  - reflexivity.
  - apply surjective_pairing.
  - split; [exact H1|]. rewrite (H2 100%nat []); vm_compute; reflexivity || discriminate.
Defined.

Lemma stop_obeyed_witness : exists k, signals (loop ([sample_round 10 (Some (Read (codes "ST"))) []; sample_round 20 (Some (Read (codes "OP" ++ [10]))) []]
    ++ [idle_round 30] ++ [idle_round 2000] ++ [idle_round 5031]) begin) = SIGINT :: replicate (S k) SIGKILL.
Proof.
  apply (stop_obeyed [sample_round 10 (Some (Read (codes "ST"))) []; sample_round 20 (Some (Read (codes "OP" ++ [10]))) []]
    (idle_round 30) [idle_round 2000] (idle_round 5031)); [vm_compute; reflexivity|repeat constructor; cbn; lia|cbn; lia].
Defined.

Definition sample_system : system := mkSystem 104 true (Some 1000) true true.
Lemma start_reaches_witness :
  exists program words argv,
    out (start (fun l => l) MacOS qt_reads qt_prints codes sample_host sample_preferences sample_adapters RelayController) =
      [StateChanged Authorizing; Message MApprove; Launched program words] /\
    root_words MacOS words = Some argv /\
    start_child sample_system argv = Some ("/opt/grid0-relay"%string :: arguments MacOS (fun s => s) sample_preferences sample_adapters "/home/u/reports/1/packets").
Proof.
  destruct (start_reaches_relay (fun l => l) MacOS qt_reads qt_prints codes sample_host sample_preferences sample_adapters
    "/opt/grid0/grid0-relay-supervisor" "/opt/grid0-relay" Sample.settings sample_system RelayController)
    as (_ & program & words & argv & Ho & Hr & _ & Hc & _);
    [discriminate|reflexivity|vm_compute; reflexivity|reflexivity|reflexivity|reflexivity|reflexivity|reflexivity|discriminate
    |vm_compute; split; discriminate|reflexivity|reflexivity|reflexivity|reflexivity|reflexivity|].
  exists program, words, argv. split; [exact Ho|]. split; [exact Hr|exact Hc].
Defined.
