(* ===== verification/Proxy.v ===== *)
(** * Proxy: the gateway's way to the Internet

    src/src/proxy_common.hpp, proxy_direct.cpp and proxy_socks5.cpp.  A datagram
    of the console that the gateway takes leaves through a socket of the host,
    one per address and port of the console, directly or through a SOCKS5
    server; what comes back on the socket is sent to that address and port.
    [ProxyUdp] is the interface the table of sockets has to them.  Sockets,
    timers and the clock are events and inputs; memory a constructor or the
    stack leaves uninitialised is the function [junk]. *)

From stdpp Require Import gmap.
From S2P Require Import Prelude Bytes Checksum World Sample Pcap Packet Arp Ipv4.

#[local] Open Scope Z_scope.

(** ** Addresses and packed messages *)

(** [sockaddr_in]: the port is kept in host order, in memory it is [net16] *)
Record sockaddr := mkSockaddr { sa_ip : list Z; sa_port : Z }.

Section Messages.
Context (junk : nat -> Z).

Definition new_char (len : Z) : list Z := map (fun i => u8 (junk i)) (seq 0 (Z.to_nat len)).

Record packer := mkPacker { pk_data : list Z; pk_offset : Z }.
Definition ProtocolPacker (len : Z) : packer := mkPacker (new_char len) 0.
(** [writeRaw] and the [writeAny] it shares its body with *)
Definition writeRaw (v : list Z) (p : packer) : bool * packer :=
  if blen (pk_data p) <? pk_offset p + blen v then (false, p)
  else (true, mkPacker (splice (pk_data p) (pk_offset p) v) (pk_offset p + blen v)).
(** [readAny]: the bytes read, or nothing and the variable keeps its value *)
Definition readAny (size : Z) (p : packer) : option (list Z) * packer :=
  if blen (pk_data p) <? pk_offset p + size then (None, p)
  else (Some (field (pk_data p) (pk_offset p) size), mkPacker (pk_data p) (pk_offset p + size)).

(** a sequence of writes whose results are not looked at *)
Definition write_all (vs : list (list Z)) (p : packer) : packer := fold_left (fun p v => (writeRaw v p).2) vs p.

Definition greeting : list Z := pk_data (write_all [[5]; [1]; [0]] (ProtocolPacker 3)).
Inductive command := Connect | Associate.
Definition command_code (c : command) : Z := match c with Connect => 1 | Associate => 3 end.
Definition request (c : command) (a : sockaddr) : list Z :=
  pk_data (write_all [[5]; [command_code c]; [0]; [1]; sa_ip a; net16 (sa_port a)] (ProtocolPacker 10)).

Definition UDPHeaderSize : Z := 10.
Definition udp_datagram (a : sockaddr) (dat : list Z) : list Z :=
  pk_data (write_all [[0; 0]; [0]; [1]; sa_ip a; net16 (sa_port a); dat] (ProtocolPacker (UDPHeaderSize + blen dat))).

(** ** The handshake with a SOCKS5 server *)

Inductive ErrCode := VersionMismatch | UnexpectMethod | UnexpectResponse | UnexpectAddressType | UnexpectLength.

Inductive stage := Dialing | AwaitMethod | AwaitReply | Done | Closed.
Record Socks5Protocol := mkSocks { sp_stage : stage; sp_command : command; sp_target : sockaddr }.

Inductive sact :=
| SRead | SWrite (bytes : list Z) | SStop | SClose | SError (e : ErrCode)
| SReady                        (** [readyCallback] *)
| SUdpReady (a : sockaddr).     (** [udpReadyCallback] *)

(** the first failing [RASSERT] *)
Fixpoint rasserts (l : list (bool * ErrCode)) : option ErrCode :=
  match l with [] => None | (b, e) :: l => if b then rasserts l else Some e end.
Definition socks_fail (e : ErrCode) (s : Socks5Protocol) : Socks5Protocol * list sact :=
  (mkSocks Closed (sp_command s) (sp_target s), [SError e; SClose]).
Definition socks_to (st : stage) (s : Socks5Protocol) : Socks5Protocol := mkSocks st (sp_command s) (sp_target s).

Definition socks_connected (s : Socks5Protocol) : Socks5Protocol * list sact :=
  match sp_stage s with
  | Dialing => (socks_to AwaitMethod s, [SRead; SWrite greeting])
  | _ => (s, [])
  end.

Definition socks_data (data : list Z) (s : Socks5Protocol) : Socks5Protocol * list sact :=
  match sp_stage s with
  | AwaitMethod =>
      match rasserts [(blen data =? 2, UnexpectLength); (getb data 0 =? 5, VersionMismatch); (getb data 1 =? 0, UnexpectMethod)] with
      | Some e => socks_fail e s
      | None => (socks_to AwaitReply s, [SWrite (request (sp_command s) (sp_target s))])
      end
  | AwaitReply =>
      match rasserts [(blen data =? 10, UnexpectLength); (getb data 0 =? 5, VersionMismatch);
                      (getb data 1 =? 0, UnexpectResponse); (getb data 3 =? 1, UnexpectAddressType)] with
      | Some e => socks_fail e s
      | None =>
          (socks_to Done s, match sp_command s with
            | Associate => [SUdpReady (mkSockaddr (field data 4 4) (be16 data 8))]
            | Connect => [SStop; SReady]
            end)
      end
  | _ => (s, [])
  end.

(** ** Datagrams from a SOCKS5 server *)

(** the sender and payload of a datagram; [None]: it is not one for an IPv4
    address.  The reads are not checked, and the payload's length is what
    remains after the header, in 16 bits. *)
Definition unpack_datagram (data : list Z) : outcome (option (sockaddr * list Z)) :=
  let '(_, p) := readAny 2 (mkPacker data 0) in
  let '(_, p) := readAny 1 p in
  let '(atyp, p) := readAny 1 p in
  if negb (getb (default (new_char 1) atyp) 0 =? 1) then Ok None else
  let '(ip, p) := readAny 4 p in
  let '(port, p) := readAny 2 p in
  try payload := rdn (ptr data UDPHeaderSize) 0 (u16 (blen data - UDPHeaderSize)) in
  Ok (Some (mkSockaddr (default (new_char 4) ip) (be16 (default (new_char 2) port) 0), payload)).
End Messages.

(** ** Sockets for datagrams *)

Definition PROXY_UDP_TABLE_TTL : Z := 30.

Inductive uact :=
| UOpened                                             (** a socket was made *)
| USend (to : sockaddr) (bytes : list Z)              (** sent from it *)
| UDeliver (from to : sockaddr) (payload : list Z)    (** [send_udp_ex] to the console *)
| UProto (a : sact).

(** what the table of sockets relies on; [client] is the console's side *)
Class ProxyUdp (U : Type) := {
  Event : Type;
  newUdp : U;
  init : Z -> sockaddr -> Z -> U -> U * list uact;
  isExpire : Z -> U -> bool;
  send : Z -> sockaddr -> list Z -> U -> U * list uact;
  on_event : Z -> Event -> U -> outcome (U * list uact)
}.

Record DirectProxyUdp := mkDirect { d_expire_at : Z; d_client : sockaddr }.
Definition direct_visit (now : Z) (u : DirectProxyUdp) : DirectProxyUdp := mkDirect (now + PROXY_UDP_TABLE_TTL) (d_client u).
Definition direct_isExpire (now : Z) (u : DirectProxyUdp) : bool := d_expire_at u <? now.
Definition direct_init (now : Z) (src : sockaddr) (dstport : Z) (u : DirectProxyUdp) : DirectProxyUdp * list uact :=
  (direct_visit now (mkDirect (d_expire_at u) src), []).
Definition direct_send (now : Z) (addr : sockaddr) (dat : list Z) (u : DirectProxyUdp) : DirectProxyUdp * list uact :=
  (direct_visit now u, [USend addr dat]).
(** a datagram arrived at the socket *)
Definition direct_recv (now : Z) (e : sockaddr * list Z) (u : DirectProxyUdp) : outcome (DirectProxyUdp * list uact) :=
  try payload := rdn e.2 0 (u16 (blen e.2)) in
  Ok (direct_visit now u, [UDeliver e.1 (d_client u) payload]).

Section Socks5Udp.
Context (junk : nat -> Z) (server : sockaddr).

Record Socks5ProxyUdp := mkSocks5Udp {
  s_expire_at : Z; s_client : sockaddr; s_protocol : Socks5Protocol; s_isReady : bool; s_server : sockaddr; s_waiting : option (list Z)
}.
Definition nowhere : sockaddr := mkSockaddr [0; 0; 0; 0] 0.
Definition socks5_new : Socks5ProxyUdp :=
  mkSocks5Udp (junk 0%nat) nowhere (mkSocks Dialing Associate nowhere) false server None.
(** the request is for the port of the destination at any address *)
Definition socks5_init (now : Z) (src : sockaddr) (dstport : Z) (u : Socks5ProxyUdp) : Socks5ProxyUdp * list uact :=
  (mkSocks5Udp (s_expire_at u) src (mkSocks Dialing Associate (mkSockaddr [0; 0; 0; 0] dstport)) (s_isReady u) (s_server u) (s_waiting u), []).
Definition socks5_visit (now : Z) (u : Socks5ProxyUdp) : Socks5ProxyUdp :=
  mkSocks5Udp (now + PROXY_UDP_TABLE_TTL) (s_client u) (s_protocol u) (s_isReady u) (s_server u) (s_waiting u).
Definition socks5_isExpire (now : Z) (u : Socks5ProxyUdp) : bool := s_expire_at u <? now.
Definition socks5_send (now : Z) (addr : sockaddr) (dat : list Z) (u : Socks5ProxyUdp) : Socks5ProxyUdp * list uact :=
  let bytes := udp_datagram junk addr dat in
  if s_isReady u then (socks5_visit now u, [USend (s_server u) bytes])
  else (socks5_visit now (mkSocks5Udp (s_expire_at u) (s_client u) (s_protocol u) (s_isReady u) (s_server u) (Some bytes)), []).

Inductive socks5_event := EConnected | ETcpData (data : list Z) | EUdpData (data : list Z).

(** the callbacks of the handshake; [onUDPReady]: the server's address becomes
    the one it names, and the datagram that waited is sent *)
Definition socks5_protocol (now : Z) (r : Socks5Protocol * list sact) (u : Socks5ProxyUdp) : Socks5ProxyUdp * list uact :=
  let u' := mkSocks5Udp (s_expire_at u) (s_client u) r.1 (s_isReady u) (s_server u) (s_waiting u) in
  match r.2 with
  | [SUdpReady a] =>
      (mkSocks5Udp (now + PROXY_UDP_TABLE_TTL) (s_client u) r.1 true a None,
       UProto (SUdpReady a) :: match s_waiting u with Some d => [USend a d] | None => [] end)
  | acts => (u', map UProto acts)
  end.
Definition socks5_event_handler (now : Z) (e : socks5_event) (u : Socks5ProxyUdp) : outcome (Socks5ProxyUdp * list uact) :=
  match e with
  | EConnected => Ok (socks5_protocol now (socks_connected junk (s_protocol u)) u)
  | ETcpData data => Ok (socks5_protocol now (socks_data junk data (s_protocol u)) u)
  | EUdpData data =>
      try r := unpack_datagram junk data in
      match r with
      | Some (from, payload) => Ok (socks5_visit now u, [UDeliver from (s_client u) payload])
      | None => Ok (u, [])
      end
  end.
End Socks5Udp.

#[export] Instance Direct : ProxyUdp DirectProxyUdp := {|
  Event := sockaddr * list Z;
  newUdp := mkDirect 0 nowhere;
  init := direct_init;
  isExpire := direct_isExpire;
  send := direct_send;
  on_event := direct_recv
|}.
#[export] Instance Socks5 (junk : nat -> Z) (server : sockaddr) : ProxyUdp Socks5ProxyUdp := {|
  Event := socks5_event;
  newUdp := socks5_new junk server;
  init := socks5_init;
  isExpire := socks5_isExpire;
  send := socks5_send junk;
  on_event := socks5_event_handler junk
|}.

(** ** The table of sockets *)

Section Table.
Context {U : Type} `{ProxyUdp U}.

(** [UdpCacheKey] *)
Abbreviation key := (list Z * Z)%type.
Abbreviation cacheTable := (gmap key U).
Definition key_addr (k : key) : sockaddr := mkSockaddr k.1 k.2.

(** [now] is the clock of [isExpire], [later] the one of [init] *)
Definition getUdp (now later : Z) (k : key) (dstport : Z) (t : cacheTable) : U * list uact * cacheTable :=
  let fresh := init later (key_addr k) dstport newUdp in
  match t !! k with
  | Some item =>
      if isExpire now item then (fresh.1, UOpened :: fresh.2, <[k := fresh.1]> t) else (item, [], <[k := item]> t)
  | None => (fresh.1, UOpened :: fresh.2, <[k := fresh.1]> t)
  end.

Definition udpSend (now later visit : Z) (src : list Z) (srcport : Z) (dst : list Z) (dstport : Z) (data : list Z) (t : cacheTable) :
    list uact * cacheTable :=
  let k := (src, srcport) in
  let '(item, acts, t) := getUdp now later k dstport t in
  let r := send visit (mkSockaddr dst dstport) data item in
  (acts ++ r.2, <[k := r.1]> t).

(** the timer that runs every ten seconds *)
Definition gc (now : Z) (t : cacheTable) : cacheTable := filter (fun e => isExpire now e.2 = false) t.

Inductive proxy_event :=
| PSend (now later visit : Z) (src : list Z) (srcport : Z) (dst : list Z) (dstport : Z) (data : list Z)
| PGc (now : Z)
| PEvent (k : key) (now : Z) (e : Event).

(** each action with the socket it belongs to *)
Definition proxy_step (e : proxy_event) (t : cacheTable) : outcome (list (key * uact) * cacheTable) :=
  match e with
  | PSend now later visit src srcport dst dstport data =>
      let r := udpSend now later visit src srcport dst dstport data t in
      Ok (map (pair (src, srcport)) r.1, r.2)
  | PGc now => Ok ([], gc now t)
  | PEvent k now e =>
      match t !! k with
      | Some item => try r := on_event now e item in Ok (map (pair k) r.2, <[k := r.1]> t)
      | None => Ok ([], t)
      end
  end.
Fixpoint proxy_run (evs : list proxy_event) (t : cacheTable) : outcome (list (key * uact) * cacheTable) :=
  match evs with
  | [] => Ok ([], t)
  | e :: evs => try r := proxy_step e t in try r' := proxy_run evs r.2 in Ok (r.1 ++ r'.1, r'.2)
  end.
End Table.

(** ** The contract of a socket *)

Definition delivers_to (a : sockaddr) (x : uact) : Prop :=
  match x with UDeliver _ to _ => to = a | UOpened => False | _ => True end.

Definition is_delivery (x : uact) : bool := match x with UDeliver _ _ _ => true | _ => false end.
Definition delivery_of (to : sockaddr) (r : option (sockaddr * list Z)) : list uact :=
  match r with Some (from, d) => [UDeliver from to d] | None => [] end.

(** a socket remembers the console's side it was made for, delivers there the
    answer an event carries, [reply], and nothing else, and is kept for half a
    minute after each use; [ev_ok] are the events the handler can read *)
Class ProxyUdpLaws (U : Type) `{ProxyUdp U} := {
  client : U -> sockaddr;
  expiry : U -> Z;
  expire_spec now u : isExpire now u = (expiry u <? now);
  init_law now src dstport u : client (init now src dstport u).1 = src /\ Forall (delivers_to src) (init now src dstport u).2;
  send_law now a d u : client (send now a d u).1 = client u /\ expiry (send now a d u).1 = now + PROXY_UDP_TABLE_TTL /\
    Forall (delivers_to (client u)) (send now a d u).2;
  ev_ok : Event -> Prop;
  reply : Event -> option (sockaddr * list Z);
  init_silent now src dstport u : List.filter is_delivery (init now src dstport u).2 = [];
  send_silent now a d u : List.filter is_delivery (send now a d u).2 = [];
  event_reply now e u : ev_ok e -> exists r, on_event now e u = Ok r /\
    List.filter is_delivery r.2 = delivery_of (client u) (reply e);
  event_law now e u r : on_event now e u = Ok r -> client r.1 = client u /\
    (expiry r.1 = expiry u \/ expiry r.1 = now + PROXY_UDP_TABLE_TTL) /\ Forall (delivers_to (client u)) r.2
}.

(** what an answer carries: the sender and the bytes of a datagram, and the
    sender and the bytes a SOCKS5 server put behind its header of ten bytes *)
Definition direct_reply (e : sockaddr * list Z) : option (sockaddr * list Z) := Some e.
Definition socks5_reply (e : socks5_event) : option (sockaddr * list Z) :=
  match e with
  | EUdpData d => if getb d 3 =? 1 then Some (mkSockaddr (field d 4 4) (be16 d 8), drop 10 d) else None
  | _ => None
  end.
Definition socks5_readable (e : socks5_event) : Prop := match e with EUdpData d => 10 <= blen d < 65536 | _ => True end.

Lemma readAny_ok n d off : off + n <= blen d -> readAny n (mkPacker d off) = (Some (field d off n), mkPacker d (off + n)).
Proof. intros H. unfold readAny. cbn. destruct (Z.ltb_spec (blen d) (off + n)); [lia|done]. Qed.

Lemma unpack_datagram_reply junk d : 10 <= blen d < 65536 -> unpack_datagram junk d = Ok (socks5_reply (EUdpData d)).
Proof.
  intros L. unfold unpack_datagram. do 3 rewrite readAny_ok by lia. cbn [default from_option socks5_reply].
  destruct d as [|b0 [|b1 [|b2 [|b3 [|b4 [|b5 [|b6 [|b7 [|b8 [|b9 d]]]]]]]]]]; try (unfold blen in L; cbn in L; lia).
  change (getb (id (field _ (0 + 2 + 1) 1)) 0) with b3. change (getb (b0 :: _) 3) with b3. destruct (b3 =? 1); [|done]. cbn [negb].
  do 2 rewrite readAny_ok by lia. set (data := b0 :: _) in *. assert (Ep : ptr data UDPHeaderSize = d) by done.
  assert (El : blen data - UDPHeaderSize = blen d) by (unfold data, UDPHeaderSize, blen; cbn [length]; lia).
  pose proof (blen_nonneg d). unfold UDPHeaderSize in *. rewrite Ep, El, u16_small by lia. rewrite rdn_ok by lia. cbn [obind]. by rewrite field_all.
Qed.

Lemma filter_proto acts : List.filter is_delivery (map UProto acts) = [].
Proof. by induction acts. Qed.
Lemma socks5_protocol_silent now q u : List.filter is_delivery (socks5_protocol now q u).2 = [].
Proof.
  destruct q as [q acts]. unfold socks5_protocol. cbn [fst snd]. pose proof (filter_proto acts) as G.
  destruct acts as [|[] [|]]; cbn in *; try done. by destruct (s_waiting u).
Qed.

#[export] Instance DirectLaws : ProxyUdpLaws DirectProxyUdp.
Proof.
  refine {| client := d_client; expiry := d_expire_at; ev_ok := fun e : Event => blen e.2 < 65536; reply := direct_reply |};
    [done|by repeat constructor|by repeat constructor|done|done| |].
  - intros now [from d] u L. cbn in *. pose proof (blen_nonneg d). unfold direct_recv. cbn [fst snd].
    rewrite u16_small, rdn_ok, field_all by (done || lia). cbn. by eexists.
  - intros now e u r. cbn. unfold direct_recv. destruct (rdn _ _ _); cbn; [|done]. intros [= <-]. cbn. split_and!; [done|by right|by repeat constructor].
Defined.

#[export] Instance Socks5Laws junk server : ProxyUdpLaws (H := Socks5 junk server) Socks5ProxyUdp.
Proof.
  refine (@Build_ProxyUdpLaws _ (Socks5 junk server) s_client s_expire_at _ _ _ socks5_readable socks5_reply _ _ _ _); [done|by repeat constructor| |done| | |].
  - intros now a d u. cbn. unfold socks5_send. destruct (s_isReady u); cbn; by repeat constructor.
  - intros now a d u. cbn. unfold socks5_send. by destruct (s_isReady u).
  - intros now [|d|d] u He; cbn in *; [eexists; split; [done|]; apply socks5_protocol_silent..|].
    rewrite unpack_datagram_reply by done. cbn. destruct (getb d 3 =? 1); cbn; by eexists.
  - intros now e u r. cbn. assert (P : forall q, let r := socks5_protocol now q u in s_client r.1 = s_client u /\
      (s_expire_at r.1 = s_expire_at u \/ s_expire_at r.1 = now + PROXY_UDP_TABLE_TTL) /\ Forall (delivers_to (s_client u)) r.2).
    { intros [q acts]. unfold socks5_protocol. cbn [fst snd].
      assert (G : Forall (delivers_to (s_client u)) (map UProto acts)) by (induction acts; by constructor).
      destruct acts as [|[] [|]]; cbn; split_and!; try done; auto. destruct (s_waiting u); by repeat constructor. }
    destruct e; cbn; [intros [= <-]; apply P..|]. destruct (unpack_datagram _ _) as [[[from pl]|]|]; cbn; [..|done]; intros [= <-]; cbn; split_and!; auto; by repeat constructor.
Defined.

(** ** The table *)

Section TableProofs.
Context {U : Type} `{L : ProxyUdpLaws U}.
Implicit Types t : gmap (list Z * Z) U.

Definition sockets_ok t : Prop := forall k u, t !! k = Some u -> client u = key_addr k.
Definition tagged (x : (list Z * Z) * uact) : Prop := x.2 = UOpened \/ delivers_to (key_addr x.1) x.2.

Lemma table_insert t k u : sockets_ok t -> client u = key_addr k -> sockets_ok (<[k := u]> t).
Proof. intros T C k' u'. destruct (decide (k' = k)) as [->|]; [rewrite lookup_insert_eq; intros; by simplify_eq|rewrite lookup_insert_ne by done; apply T]. Qed.

Lemma tag_acts k acts : Forall (delivers_to (key_addr k)) acts -> Forall tagged (map (pair k) acts).
Proof. induction 1; constructor; [by right|done]. Qed.

Lemma getUdp_ok now later k dp t : sockets_ok t -> let '(u, acts, t') := getUdp now later k dp t in
  client u = key_addr k /\ Forall tagged (map (pair k) acts) /\ sockets_ok t'.
Proof.
  intros T. unfold getUdp. destruct (init_law later (key_addr k) dp newUdp) as [C F].
  assert (N : Forall tagged (map (pair k) (UOpened :: (init later (key_addr k) dp newUdp).2))) by (constructor; [by left|by apply tag_acts]).
  destruct (t !! k) as [u|] eqn:E; [destruct (isExpire now u)|]; split_and!; try done; try (by apply table_insert); [by apply T|].
  apply table_insert; [done|]. by apply T.
Qed.

Lemma proxy_step_ok e t acts t' : sockets_ok t -> proxy_step e t = Ok (acts, t') -> sockets_ok t' /\ Forall tagged acts.
Proof.
  intros T. destruct e as [now later visit src sp dst dp data|now|k now e]; cbn.
  - intros [= <- <-]. unfold udpSend. pose proof (getUdp_ok now later (src, sp) dp t T) as G.
    destruct (getUdp now later (src, sp) dp t) as [[u acts] t']. destruct G as (C & F & T').
    destruct (send_law visit (mkSockaddr dst dp) data u) as (C' & _ & F'). cbn [fst snd]. split; [apply table_insert; [done|congruence]|].
    rewrite map_app. apply Forall_app. split; [done|]. apply tag_acts. by rewrite <- C.
  - intros [= <- <-]. split; [|done]. intros k u [E _]%map_lookup_filter_Some. by apply T.
  - destruct (t !! k) as [u|] eqn:E; [|intros [= <- <-]; by split].
    destruct (on_event now e u) as [r|] eqn:E'; [|done]. cbn. intros [= <- <-].
    destruct (event_law _ _ _ _ E') as (C & _ & F). rewrite (T _ _ E) in C, F.
    split; [by apply table_insert|by apply tag_acts].
Qed.

(** the deliveries of a run, and the answers its events carry *)
Definition deliveries (acts : list ((list Z * Z) * uact)) : list ((list Z * Z) * uact) := List.filter (fun x => is_delivery x.2) acts.
Definition answer (e : proxy_event) : list ((list Z * Z) * uact) :=
  match e with PEvent k _ e => map (pair k) (delivery_of (key_addr k) (reply e)) | _ => [] end.
Definition answers (evs : list proxy_event) : list ((list Z * Z) * uact) := concat (map answer evs).
Definition ev_readable (e : proxy_event) : Prop := match e with PEvent _ _ e => ev_ok e | _ => True end.

Lemma deliveries_app a b : deliveries (a ++ b) = deliveries a ++ deliveries b.
Proof. apply List.filter_app. Qed.
Lemma answers_app a b : answers (a ++ b) = answers a ++ answers b.
Proof. unfold answers. by rewrite map_app, concat_app. Qed.
Lemma deliveries_tagged (k : list Z * Z) acts : deliveries (map (pair k) acts) = map (pair k) (List.filter is_delivery acts).
Proof. unfold deliveries. induction acts as [|x acts IH]; [done|]. cbn. rewrite IH. by destruct (is_delivery x). Qed.

Lemma getUdp_silent now later k dp t : List.filter is_delivery (getUdp now later k dp t).1.2 = [].
Proof. unfold getUdp. destruct (t !! k) as [u|]; [destruct (isExpire now u)|]; cbn; by rewrite ?init_silent. Qed.

Lemma proxy_step_total e t : sockets_ok t -> ev_readable e ->
  exists acts t', proxy_step e t = Ok (acts, t') /\ sublist (deliveries acts) (answer e).
Proof.
  intros T He. destruct e as [now later visit src sp dst dp data|now|k now e]; cbn.
  - eexists _, _. split; [done|]. unfold udpSend. pose proof (getUdp_silent now later (src, sp) dp t) as G.
    destruct (getUdp now later (src, sp) dp t) as [[u acts] t']. cbn [fst snd] in *.
    rewrite deliveries_tagged, List.filter_app, G, send_silent. done.
  - by eexists _, _.
  - destruct (t !! k) as [u|] eqn:E; [|eexists _, _; split; [done|apply sublist_nil_l]].
    destruct (event_reply now e u He) as (r & Er & D). rewrite Er. eexists _, _. split; [done|].
    by rewrite deliveries_tagged, D, (T _ _ E).
Qed.

Lemma proxy_run_ok evs : forall t acts t', sockets_ok t -> proxy_run evs t = Ok (acts, t') -> sockets_ok t' /\ Forall tagged acts.
Proof.
  induction evs as [|e evs IH]; intros t acts t' T; cbn; [intros [= <- <-]; by split|].
  destruct (proxy_step e t) as [[a1 t1]|] eqn:E1; [|done]. cbn. destruct (proxy_run evs t1) as [[a2 t2]|] eqn:E2; [|done]. cbn.
  intros [= <- <-]. destruct (proxy_step_ok _ _ _ _ T E1) as [T1 F1]. destruct (IH _ _ _ T1 E2) as [T2 F2]. split; [done|by apply Forall_app].
Qed.

Lemma proxy_run_total evs : forall t, sockets_ok t -> Forall ev_readable evs ->
  exists acts t', proxy_run evs t = Ok (acts, t') /\ sockets_ok t' /\ sublist (deliveries acts) (answers evs).
Proof.
  induction evs as [|e evs IH]; intros t T F; [by eexists _, _|]. apply Forall_cons_iff in F as [He F].
  destruct (proxy_step_total e t T He) as (a1 & t1 & E1 & S1). destruct (proxy_step_ok _ _ _ _ T E1) as [T1 _].
  destruct (IH t1 T1 F) as (a2 & t2 & E2 & T2 & S2). exists (a1 ++ a2), t2. cbn. rewrite E1. cbn. rewrite E2. split_and!; [done..|].
  rewrite deliveries_app. by apply sublist_app.
Qed.
Lemma proxy_run_app evs evs' t acts t' : proxy_run evs t = Ok (acts, t') ->
  proxy_run (evs ++ evs') t = obind (proxy_run evs' t') (fun r => Ok (acts ++ r.1, r.2)).
Proof.
  revert t acts. induction evs as [|e evs IH]; intros t acts; cbn; [intros [= <- <-]; by destruct (proxy_run evs' _) as [[]|]|].
  destruct (proxy_step e t) as [[a1 t1]|]; [|done]. cbn. destruct (proxy_run evs t1) as [[a2 t2]|] eqn:E2; [|done]. cbn.
  intros [= <- <-]. rewrite (IH _ _ E2). destruct (proxy_run evs' t2); [|done]. cbn. by rewrite app_assoc.
Qed.

(** the clock is such that the socket of [k], kept until [x], is not given up *)
Fixpoint keeps (k : list Z * Z) (x : Z) (evs : list proxy_event) : Prop :=
  match evs with
  | [] => True
  | PSend now later visit src sp dst dp data :: evs =>
      if bool_decide ((src, sp) = k) then now <= x /\ keeps k (visit + PROXY_UDP_TABLE_TTL) evs else keeps k x evs
  | PGc now :: evs => now <= x /\ keeps k x evs
  | PEvent k' now e :: evs => (k' = k -> x <= now + PROXY_UDP_TABLE_TTL) /\ keeps k x evs
  end.

Lemma tag_other (k k' : list Z * Z) (l : list uact) : k' <> k -> ~ In (k, UOpened) (map (pair k') l).
Proof. intros N (a & [= -> _] & _)%in_map_iff. done. Qed.
Lemma tag_same (k : list Z * Z) a (l : list uact) : Forall (delivers_to a) l -> ~ In (k, UOpened) (map (pair k) l).
Proof. intros F (x & [= ->] & Hin)%in_map_iff. rewrite Forall_forall in F. by apply (F UOpened). Qed.

Lemma proxy_step_kept k x e evs t u acts t' : t !! k = Some u -> x <= expiry u -> keeps k x (e :: evs) -> proxy_step e t = Ok (acts, t') ->
  ~ In (k, UOpened) acts /\ exists x' u', t' !! k = Some u' /\ x' <= expiry u' /\ keeps k x' evs.
Proof.
  intros E Hx Hk. destruct e as [now later visit src sp dst dp data|now|k' now e]; cbn in *.
  - intros [= <- <-]. destruct (bool_decide_reflect ((src, sp) = k)) as [Ek|N].
    + subst k. destruct Hk as [Hn Hk]. unfold udpSend, getUdp. rewrite E, expire_spec. destruct (Z.ltb_spec (expiry u) now); [lia|]. cbn [fst snd app].
      destruct (send_law visit (mkSockaddr dst dp) data u) as (_ & Ev & F). split; [by eapply tag_same|].
      exists (visit + PROXY_UDP_TABLE_TTL), (send visit (mkSockaddr dst dp) data u).1. rewrite lookup_insert_eq, Ev. split_and!; [done|lia|done].
    + split; [by apply tag_other|]. exists x, u. split_and!; [|done..]. unfold udpSend.
      destruct (getUdp now later (src, sp) dp t) as [[v a] t'] eqn:G. cbn [snd]. rewrite lookup_insert_ne by done.
      unfold getUdp in G. destruct (t !! (src, sp)) as [v'|]; [destruct (isExpire now v')|]; simplify_eq; by rewrite lookup_insert_ne.
  - intros [= <- <-]. destruct Hk as [Hn Hk]. split; [by intros []|]. exists x, u. split_and!; [|done..].
    apply map_lookup_filter_Some. split; [done|]. cbn. rewrite expire_spec. apply Z.ltb_ge. lia.
  - destruct Hk as [Hn Hk]. destruct (t !! k') as [v|] eqn:E'; [|intros [= <- <-]; split; [by intros []|by exists x, u]].
    destruct (on_event now e v) as [r|] eqn:Er; [|done]. cbn. intros [= <- <-]. destruct (event_law _ _ _ _ Er) as (C & Ex & F).
    destruct (decide (k' = k)) as [->|N].
    + split; [by eapply tag_same|]. exists x, r.1. rewrite lookup_insert_eq. simplify_eq. specialize (Hn eq_refl). split_and!; [done|destruct Ex; lia|done].
    + split; [by apply tag_other|]. exists x, u. by rewrite lookup_insert_ne.
Qed.
Lemma proxy_run_kept k evs : forall x t u acts t', t !! k = Some u -> x <= expiry u -> keeps k x evs -> proxy_run evs t = Ok (acts, t') ->
  ~ In (k, UOpened) acts /\ exists u', t' !! k = Some u'.
Proof.
  induction evs as [|e evs IH]; intros x t u acts t' E Hx Hk; cbn; [intros [= <- <-]; split; [by intros []|by exists u]|].
  destruct (proxy_step e t) as [[a1 t1]|] eqn:E1; [|done]. cbn. destruct (proxy_run evs t1) as [[a2 t2]|] eqn:E2; [|done]. cbn. intros [= <- <-].
  destruct (proxy_step_kept _ _ _ _ _ _ _ _ E Hx Hk E1) as (N1 & x' & u' & F1 & F2 & F3).
  destruct (IH _ _ _ _ _ F1 F2 F3 E2) as [N2 ?]. split; [|done]. rewrite in_app_iff. intros [?|?]; done.
Qed.

(** after a datagram is sent the socket is there as long as it is kept *)
Lemma socket_stays now later visit src sp dst dp data evs t acts t' :
  keeps (src, sp) (visit + PROXY_UDP_TABLE_TTL) evs ->
  proxy_run (PSend now later visit src sp dst dp data :: evs) t = Ok (acts, t') -> exists u, t' !! (src, sp) = Some u.
Proof.
  intros Hk. cbn. unfold udpSend. destruct (getUdp now later (src, sp) dp t) as [[u a] t1]. cbn [fst snd].
  destruct (send_law visit (mkSockaddr dst dp) data u) as (_ & Ev & _).
  destruct (proxy_run evs _) as [[a2 t2]|] eqn:R; [|done]. cbn. intros [= <- <-].
  eapply proxy_run_kept; [apply lookup_insert_eq| |exact Hk|exact R]. rewrite Ev. lia.
Qed.

(** ** Properties of the table *)


(** A conversation keeps its socket: while the console's port sends, or is
    answered, at least every half minute, no other socket is opened for it,
    whatever happens to the other sockets in between. *)
Theorem socket_kept now later visit src sp dst dp data evs t acts t' :
  keeps (src, sp) (visit + PROXY_UDP_TABLE_TTL) evs ->
  proxy_run evs (udpSend now later visit src sp dst dp data t).2 = Ok (acts, t') ->
  ~ In ((src, sp), UOpened) acts /\ exists u, t' !! (src, sp) = Some u.
Proof.
  intros Hk R. unfold udpSend in R. destruct (getUdp now later (src, sp) dp t) as [[u a] t1]. cbn [snd] in R.
  destruct (send_law visit (mkSockaddr dst dp) data u) as (_ & Ev & _).
  eapply proxy_run_kept; [apply lookup_insert_eq| |exact Hk|exact R]. rewrite Ev. lia.
Qed.
End TableProofs.

(** ** Messages *)

Lemma write_all_spec vs : forall d0 rest, blen (concat vs) <= blen rest ->
  pk_data (write_all vs (mkPacker (d0 ++ rest) (blen d0))) = d0 ++ concat vs ++ drop (length (concat vs)) rest.
Proof.
  induction vs as [|v vs IH]; intros d0 rest H; [done|]. cbn [concat] in *. rewrite blen_app in H. pose proof (blen_nonneg (concat vs)).
  cbn [write_all fold_left]. unfold writeRaw. cbn [pk_data pk_offset]. rewrite blen_app.
  destruct (Z.ltb_spec (blen d0 + blen rest) (blen d0 + blen v)); [lia|]. cbn [snd].
  rewrite splice_app by (done || lia). rewrite <- (blen_app d0 v).
  change (pk_data (write_all vs (mkPacker ((d0 ++ v) ++ drop (length v) rest) (blen (d0 ++ v)))) = d0 ++ (v ++ concat vs) ++ drop (length (v ++ concat vs)) rest).
  rewrite IH; [|unfold blen in *; rewrite length_drop; lia]. by rewrite drop_drop, length_app, <- !app_assoc.
Qed.
Lemma new_char_length junk n : 0 <= n -> blen (new_char junk n) = n.
Proof. intros. unfold blen, new_char. rewrite length_map, length_seq. lia. Qed.
Lemma write_packet junk vs n : n = blen (concat vs) -> pk_data (write_all vs (ProtocolPacker junk n)) = concat vs.
Proof.
  intros ->. pose proof (blen_nonneg (concat vs)). pose proof (new_char_length junk (blen (concat vs)) ltac:(lia)) as L.
  unfold ProtocolPacker. change (mkPacker (new_char junk (blen (concat vs))) 0) with (mkPacker ([] ++ new_char junk (blen (concat vs))) (blen [])).
  rewrite write_all_spec by lia. cbn [app]. rewrite drop_ge; [by rewrite app_nil_r|]. unfold blen in *. lia.
Qed.

Lemma greeting_bytes junk : greeting junk = [5; 1; 0].
Proof. done. Qed.
Lemma request_bytes junk c a : blen (sa_ip a) = 4 -> request junk c a = [5; command_code c; 0; 1] ++ sa_ip a ++ net16 (sa_port a).
Proof. intros L. unfold request. rewrite write_packet; [cbn; by rewrite ?app_nil_r|]. cbn. rewrite !blen_cons, !blen_app. unfold blen in *. cbn. lia. Qed.
Lemma udp_datagram_bytes junk a d : blen (sa_ip a) = 4 -> udp_datagram junk a d = [0; 0; 0; 1] ++ sa_ip a ++ net16 (sa_port a) ++ d.
Proof.
  intros L. unfold udp_datagram, UDPHeaderSize. rewrite write_packet; [cbn; by rewrite ?app_nil_r|].
  cbn. rewrite !blen_cons, !blen_app, !blen_cons, app_nil_r. unfold blen in *. lia.
Qed.

Lemma net16_be16 p l : 0 <= p < 65536 -> be16 (net16 p ++ l) 0 = p.
Proof. intros Hp. change (u8 (p / 256) * 256 + u8 p = p). by rewrite net16_value, u16_small by lia. Qed.

(** ** Properties of the protocol *)

Fixpoint socks_run (junk : nat -> Z) (replies : list (list Z)) (s : Socks5Protocol) : Socks5Protocol * list sact :=
  match replies with
  | [] => (s, [])
  | d :: replies => let r := socks_data junk d s in let r' := socks_run junk replies r.1 in (r'.1, r.2 ++ r'.2)
  end.
Definition is_ready (a : sact) : bool := match a with SReady | SUdpReady _ => true | _ => false end.

(** the two answers that let the handshake go on *)
Definition granted (d : list Z) : Prop := blen d = 10 /\ getb d 0 = 5 /\ getb d 1 = 0 /\ getb d 3 = 1.

Lemma socks_method junk s d : sp_stage s = AwaitMethod ->
  (d = [5; 0] /\ socks_data junk d s = (socks_to AwaitReply s, [SWrite (request junk (sp_command s) (sp_target s))])) \/
  (d <> [5; 0] /\ exists e, socks_data junk d s = socks_fail e s).
Proof.
  intros E. unfold socks_data. rewrite E. destruct (decide (d = [5; 0])) as [->|N]; [left; by split|right]. split; [done|].
  cbn [rasserts]. destruct (Z.eqb_spec (blen d) 2) as [L|]; [|eauto]. destruct (Z.eqb_spec (getb d 0) 5) as [G0|]; [|eauto].
  destruct (Z.eqb_spec (getb d 1) 0) as [G1|]; [|eauto].
  destruct d as [|x [|y [|]]]; try (unfold blen in L; cbn in L; lia). change (x = 5) in G0. change (y = 0) in G1. congruence.
Qed.
Lemma socks_reply junk s d : sp_stage s = AwaitReply ->
  (granted d /\ socks_data junk d s = (socks_to Done s, match sp_command s with
     | Associate => [SUdpReady (mkSockaddr (field d 4 4) (be16 d 8))] | Connect => [SStop; SReady] end)) \/
  (~ granted d /\ exists e, socks_data junk d s = socks_fail e s).
Proof.
  intros E. unfold socks_data, granted. rewrite E. cbn [rasserts].
  destruct (Z.eqb_spec (blen d) 10), (Z.eqb_spec (getb d 0) 5), (Z.eqb_spec (getb d 1) 0), (Z.eqb_spec (getb d 3) 1);
    try (right; split; [by intros (? & ? & ? & ?)|by eauto]). by left.
Qed.

(** The SOCKS5 handshake: a server that accepts no authentication and
    grants the request is sent the greeting and the request for the target of
    RFC 1928, and the proxy is ready, for datagrams with the address the server
    named; no other two answers make it ready, and a wrong first one closes the
    connection. *)
Theorem socks_handshake junk c target a d1 d2 : blen (sa_ip target) = 4 -> blen (sa_ip a) = 4 -> 0 <= sa_port a < 65536 ->
  let '(s, hello) := socks_connected junk (mkSocks Dialing c target) in
  hello = [SRead; SWrite [5; 1; 0]] /\
  socks_run junk [[5; 0]; [5; 0; 0; 1] ++ sa_ip a ++ net16 (sa_port a)] s =
    (mkSocks Done c target,
     SWrite ([5; command_code c; 0; 1] ++ sa_ip target ++ net16 (sa_port target)) ::
     match c with Connect => [SStop; SReady] | Associate => [SUdpReady a] end) /\
  (existsb is_ready (socks_run junk [d1; d2] s).2 = true -> d1 = [5; 0] /\ granted d2) /\
  (d1 <> [5; 0] -> exists e, socks_data junk d1 s = (mkSocks Closed c target, [SError e; SClose])).
Proof.
  intros Lt La Hp. cbn [socks_connected sp_stage]. set (s := socks_to AwaitMethod _).
  assert (Es : sp_stage s = AwaitMethod) by done. split_and!; [done| | |].
  - cbn [socks_run]. destruct (socks_method junk s [5; 0] Es) as [[_ ->]|[? _]]; [|done]. cbn [fst snd].
    destruct (socks_reply junk (socks_to AwaitReply s) ([5; 0; 0; 1] ++ sa_ip a ++ net16 (sa_port a)) eq_refl) as [[_ ->]|[N _]].
    + cbn [fst snd socks_to sp_command sp_target s]. rewrite request_bytes by done. f_equal. cbn [app]. f_equal.
      destruct c; [done|]. rewrite app_nil_r. do 2 f_equal. destruct a as [ia pa]. cbn [sa_ip sa_port] in *.
      destruct ia as [|i0 [|i1 [|i2 [|i3 [|]]]]]; try (unfold blen in La; cbn in La; lia). f_equal. apply (net16_be16 pa [] Hp).
    + destruct N. destruct a as [ia pa]. cbn [sa_ip sa_port] in *.
      destruct ia as [|i0 [|i1 [|i2 [|i3 [|]]]]]; try (unfold blen in La; cbn in La; lia). done.
  - cbn [socks_run]. destruct (socks_method junk s d1 Es) as [[-> ->]|[_ [e ->]]]; cbn [fst snd socks_fail].
    + destruct (socks_reply junk (socks_to AwaitReply s) d2 eq_refl) as [[G _]|[_ [e ->]]]; [done|]. done.
    + done.
  - intros N. destruct (socks_method junk s d1 Es) as [[? _]|[_ [e ->]]]; [done|]. by exists e.
Qed.

(** Datagrams survive the wrapping for a SOCKS5 server: what is sent for an
    address is unwrapped as that address and exactly those bytes. *)
Theorem socks_datagram_round_trip junk a d : blen (sa_ip a) = 4 -> 0 <= sa_port a < 65536 -> blen d < 65536 ->
  unpack_datagram junk (udp_datagram junk a d) = Ok (Some (a, d)).
Proof.
  intros La Hp Hd. rewrite udp_datagram_bytes by done. destruct a as [ia pa]. cbn [sa_ip sa_port] in *.
  destruct ia as [|i0 [|i1 [|i2 [|i3 [|]]]]]; try (unfold blen in La; cbn in La; lia). pose proof (blen_nonneg d).
  set (data := _ ++ _). assert (L : blen data = 10 + blen d) by (unfold data, blen; rewrite !length_app; cbn; lia).
  unfold unpack_datagram. do 3 rewrite readAny_ok by lia. cbn [default from_option].
  change (getb (field data (0 + 2 + 1) 1) 0 =? 1) with true. cbn [negb].
  do 2 rewrite readAny_ok by lia. unfold UDPHeaderSize. rewrite L, u16_small by lia. replace (10 + blen d - 10) with (blen d) by lia.
  assert (Ep : ptr data 10 = d) by done. rewrite Ep, rdn_ok by lia. cbn [obind]. rewrite field_all by done.
  do 3 f_equal. f_equal. apply (net16_be16 pa [] Hp).
Qed.

(** ** Delivery to the console *)

Definition pseudo (src dst : list Z) (n : Z) : list Z := src ++ dst ++ [0; IPV4_PROTOCOL_UDP] ++ net16 n.
Definition udp_hdr (sp dp n c : Z) : list Z := net16 sp ++ net16 dp ++ net16 n ++ net16 c.
Definition udp_sum (src dst : list Z) (sp dp : Z) (d : list Z) : Z :=
  csum (pseudo src dst (8 + blen d) ++ udp_hdr sp dp (8 + blen d) 0 ++ d).

Lemma udp_sum_valid src dst sp dp d : blen src = 4 -> bytes src -> blen dst = 4 -> bytes dst -> bytes d ->
  csum (pseudo src dst (8 + blen d) ++ udp_hdr sp dp (8 + blen d) (udp_sum src dst sp dp d) ++ d) = 0.
Proof.
  intros Ls Bs Ld Bd B. unfold udp_sum. set (n := 8 + blen d). set (q := pseudo src dst n).
  assert (Bn : forall v, bytes (net16 v)) by (intros v; repeat constructor; apply u8_byte).
  assert (Lq : length q = 12%nat) by (unfold q, pseudo, blen in *; rewrite !length_app; cbn; lia).
  assert (Bq : bytes q) by (unfold q, pseudo; rewrite !Forall_app; split_and!; auto; by repeat constructor). clearbody q n.
  set (P := q ++ net16 sp ++ net16 dp ++ net16 n). assert (LP : blen P = 18) by (unfold P, blen; rewrite !length_app, Lq; done).
  assert (Ez : forall c, q ++ udp_hdr sp dp n c ++ d = splice (P ++ net16 0 ++ d) 18 (net16 c)).
  { intros c. rewrite splice_app by (done || (unfold blen; rewrite length_app; cbn; lia)). unfold udp_hdr, P. by rewrite <- !app_assoc. }
  rewrite !Ez. apply csum_splice_valid; [unfold P; rewrite !Forall_app; split_and!; auto|lia|done|].
  rewrite blen_app, LP. unfold blen. rewrite length_app. cbn. lia.
Qed.

(** [send_udp_ex] of one part builds the datagram and resolves its destination *)
Lemma send_udp_ex_spec wm zm pm w t from to d :
  ready w wm zm pm -> stable_clock w t ->
  blen (sa_ip from) = 4 -> bytes (sa_ip from) -> blen (sa_ip to) = 4 -> bytes (sa_ip to) -> bytes d -> 42 + blen d < BUFFER_SIZE ->
  let n := 8 + blen d in
  let c := udp_sum (sa_ip from) (sa_ip to) (sa_port from) (sa_port to) d in
  let id := identification (lp_packet_ctx (lp w)) in
  wp (send_udp_ex WifiCtx (sa_ip from) (sa_port from) (sa_ip to) (sa_port to) [part d]) (fun _ w' =>
    ready w' wm zm pm /\
    trace w' = local_delivery wm pm w t (sa_ip to)
      (ipv4_hdr id (20 + n) IPV4_PROTOCOL_UDP (sa_ip from) (sa_ip to) (ipv4_hdr_sum id (20 + n) IPV4_PROTOCOL_UDP (sa_ip from) (sa_ip to))
       ++ udp_hdr (sa_port from) (sa_port to) n c ++ d) ++ trace w /\
    csum (pseudo (sa_ip from) (sa_ip to) n ++ udp_hdr (sa_port from) (sa_port to) n c ++ d) = 0) w.
Proof.
  intros Hr Hc Lf Bf Lt Bt B Hl n c id. unfold BUFFER_SIZE in Hl. pose proof (blen_nonneg d).
  assert (Hv : csum (pseudo (sa_ip from) (sa_ip to) n ++ udp_hdr (sa_port from) (sa_port to) n c ++ d) = 0) by (by apply udp_sum_valid).
  unfold send_udp_ex. cbv zeta.
  assert (En : u16 (UDP_OFF_END + payload_total_len [part d]) = n).
  { unfold payload_total_len. cbn [foldl part pl_len]. rewrite Z.add_0_l, (u16_small (blen d)) by lia. unfold UDP_OFF_END. rewrite u16_small by lia. done. }
  rewrite En. clear En. unfold WRITE_NET8, WRITE_NET16, UDP_OFF_END, UDP_OFF_SRCPORT, UDP_OFF_DSTPORT, UDP_OFF_LENGTH, UDP_OFF_CHECKSUM,
    IPV4P_OFF_SRC, IPV4P_OFF_DST, IPV4P_OFF_ZERO, IPV4P_OFF_PROTOCOL, IPV4P_OFF_LENGTH, IPV4P_OFF_END.
  apply wp_uninit; [lia|]. intros b _ Lb. do 4 write_step. join_writes b. rewrite splice_all, <- !app_assoc by (blen_simp; lia).
  apply wp_uninit; [lia|]. intros h _ Lh. do 5 write_step. join_writes h. rewrite splice_all, <- !app_assoc by (blen_simp; lia).
  set (b0 := net16 (sa_port from) ++ _). set (h0 := sa_ip from ++ _).
  assert (Eb : b0 = udp_hdr (sa_port from) (sa_port to) n 0) by done.
  assert (Eh : h0 = pseudo (sa_ip from) (sa_ip to) n) by done. clearbody b0 h0. subst b0 h0.
  assert (Lb0 : forall c, blen (udp_hdr (sa_port from) (sa_port to) n c) = 8) by done.
  assert (Lh0 : blen (pseudo (sa_ip from) (sa_ip to) n) = 12) by (unfold pseudo; rewrite !blen_app, blen_net16, Lf, Lt; done).
  assert (Bb0 : forall c, bytes (udp_hdr (sa_port from) (sa_port to) n c)) by (intros; repeat constructor; apply u8_byte).
  assert (Bh0 : bytes (pseudo (sa_ip from) (sa_ip to) n)).
  { unfold pseudo. rewrite !Forall_app. split_and!; auto; [by repeat constructor|repeat constructor; apply u8_byte]. }
  apply wp_bind. eapply wp_lift.
  { pose proof (calc_payload_checksum_ok [pseudo (sa_ip from) (sa_ip to) n; udp_hdr (sa_port from) (sa_port to) n 0; d]) as E.
    cbn [fmap list_fmap concat] in E. rewrite app_nil_r in E. unfold part in E. rewrite Lb0, Lh0 in E. apply E.
    - by repeat (apply Forall_cons_iff; split; [by auto|]).
    - unfold even_parts. rewrite Lb0, Lh0. done.
    - rewrite !blen_app, Lb0, Lh0. lia. }
  change (csum (pseudo (sa_ip from) (sa_ip to) n ++ udp_hdr (sa_port from) (sa_port to) n 0 ++ d)) with c.
  assert (Eb : splice (udp_hdr (sa_port from) (sa_port to) n 0) 6 (net16 c) = udp_hdr (sa_port from) (sa_port to) n c) by done.
  eapply (wp_wrn _); [lia|rewrite blen_net16, Lb0; lia|]. intros b' -> _. rewrite Eb.
  set (parts := [mkPayload (udp_hdr (sa_port from) (sa_port to) n c) 8; part d]).
  assert (Ep : payload_bytes parts = udp_hdr (sa_port from) (sa_port to) n c ++ d).
  { unfold parts, payload_bytes, part_bytes, part. cbn [fmap list_fmap concat pl_ptr pl_len]. rewrite app_nil_r, !field_all by done. done. }
  assert (Lp : blen (payload_bytes parts) = n) by (rewrite Ep, blen_app, Lb0; done).
  eapply wp_mono; [apply (send_ipv4_ex_spec wm zm pm w t); try done|].
  - apply Forall_cons_iff. split; [|by apply valid_one]. unfold valid_part. cbn [pl_ptr pl_len]. rewrite Lb0. lia.
  - rewrite Lp. unfold BUFFER_SIZE, n. lia.
  - cbn beta. rewrite Lp, Ep. intros r w' (_ & Hr' & Ht). split_and!; [done| |done]. exact Ht.
Qed.

(** what the handlers of a socket do to the relay: the deliveries; the other
    actions are on the sockets *)
Fixpoint perform (acts : list ((list Z * Z) * uact)) : M unit :=
  match acts with
  | [] => ret tt
  | (_, UDeliver from to payload) :: acts =>
      send_udp_ex WifiCtx (sa_ip from) (sa_port from) (sa_ip to) (sa_port to) [part payload] ;;; perform acts
  | _ :: acts => perform acts
  end.
Lemma perform_deliveries acts : perform acts = perform (deliveries acts).
Proof. unfold deliveries. induction acts as [|[k []] acts IH]; cbn; [done| | | |]; by rewrite ?IH. Qed.

Section Delivery.
Context {U : Type} `{L : ProxyUdpLaws U}.

(** C33. An answer reaches the console as a datagram.  When a socket of the
    table receives an answer of less than 2006 bytes, the handler of the event
    sends one frame: if the MAC of the console's address is known, an IPv4 packet to that
    MAC, from the sender's address and port to those of the socket's key, with
    the bytes received, whose header checksum and UDP checksum both verify; if
    it is not known, an ARP request for the address, and the answer is lost. *)
Theorem udp_reply_delivered (wm zm pm : list Z) (w : world) (t : Z) (tb : gmap (list Z * Z) U) k u now e from d :
  ready w wm zm pm -> stable_clock w t ->
  sockets_ok tb -> tb !! k = Some u -> ev_ok e -> reply e = Some (from, d) ->
  blen (sa_ip from) = 4 -> bytes (sa_ip from) -> blen k.1 = 4 -> bytes k.1 -> bytes d -> 42 + blen d < BUFFER_SIZE ->
  let n := 8 + blen d in
  let id := identification (lp_packet_ctx (lp w)) in
  let ip := ipv4_hdr id (20 + n) IPV4_PROTOCOL_UDP (sa_ip from) k.1 (ipv4_hdr_sum id (20 + n) IPV4_PROTOCOL_UDP (sa_ip from) k.1) in
  let udp := udp_hdr (sa_port from) k.2 n (udp_sum (sa_ip from) k.1 (sa_port from) k.2 d) in
  csum ip = 0 /\ csum (pseudo (sa_ip from) k.1 n ++ udp ++ d) = 0 /\
  exists acts tb', proxy_step (PEvent k now e) tb = Ok (acts, tb') /\
    wp (perform acts) (fun _ w' => ready w' wm zm pm /\
      (forall mac, arp_find (arp_list (lp_packet_ctx (lp w))) k.1 t = Some mac ->
        trace w' = (Wifi, 0%nat, ether mac wm ETHER_TYPE_IPV4 (ip ++ udp ++ d)) :: trace w) /\
      (arp_find (arp_list (lp_packet_ctx (lp w))) k.1 t = None ->
        trace w' = (Wifi, 0%nat, ether BROADCASE_MAC wm ETHER_TYPE_ARP
          (arp_packet ARP_OPCODE_REQUEST pm (pc_ip (lp_packet_ctx (lp w))) NONE_MAC k.1)) :: trace w)) w.
Proof.
  intros Hr Hc T Hu He Hd Lf Bf Lk Bk B Hl n id ip udp. split; [by apply ipv4_hdr_valid|]. split; [by apply udp_sum_valid|].
  destruct (event_reply now e u He) as (r & Er & D). rewrite Hd, (T _ _ Hu) in D.
  exists (map (pair k) r.2), (<[k := r.1]> tb). split; [cbn; by rewrite Hu, Er|].
  rewrite perform_deliveries, deliveries_tagged, D. cbn [map delivery_of perform]. apply wp_bind.
  eapply wp_mono; [by apply (send_udp_ex_spec wm zm pm w t from (key_addr k) d)|]. intros rc w' (Hr' & Ht & _). apply wp_ret.
  split; [done|]. unfold local_delivery in Ht. cbn [key_addr sa_ip sa_port] in Ht. by split; [intros mac E|intros E]; rewrite E in Ht.
Qed.
End Delivery.

(** ** Witnesses *)

Definition a_peer : sockaddr := mkSockaddr [93; 184; 216; 34] 53.
Definition no_junk (n : nat) : Z := 0.
Definition sample_events : list (proxy_event (U := DirectProxyUdp)) :=
  [PSend 100 100 101 Sample.console_ip 49152 [8; 8; 8; 8] 53 [1; 2; 3]; PGc 110;
   PEvent (Sample.console_ip, 49152) 111 (a_peer, [4; 5]); PSend 120 120 120 Sample.console_ip 49153 [8; 8; 8; 8] 53 [6]; PGc 160].


Lemma socket_kept_witness : exists acts t, proxy_run (skipn 1 sample_events)
    (udpSend 100 100 101 Sample.console_ip 49152 [8; 8; 8; 8] 53 [1; 2; 3] (∅ : gmap (list Z * Z) DirectProxyUdp)).2 = Ok (acts, t) /\
  ~ In ((Sample.console_ip, 49152), UOpened) acts.
Proof.
  eexists _, _. split; [reflexivity|].
  eapply (socket_kept 100 100 101 Sample.console_ip 49152 [8; 8; 8; 8] 53 [1; 2; 3] (firstn 3 (skipn 1 sample_events)) (∅ : gmap (list Z * Z) DirectProxyUdp));
    [vm_compute; repeat split; discriminate|reflexivity].
Defined.

Lemma handshake_witness :
  socks_run no_junk [[5; 0]; [5; 0; 0; 1; 10; 0; 0; 2; 4; 56]] (mkSocks AwaitMethod Associate (mkSockaddr [0; 0; 0; 0] 53)) =
    (mkSocks Done Associate (mkSockaddr [0; 0; 0; 0] 53),
     [SWrite [5; 3; 0; 1; 0; 0; 0; 0; 0; 53]; SUdpReady (mkSockaddr [10; 0; 0; 2] 1080)]).
Proof.
  pose proof (socks_handshake no_junk Associate (mkSockaddr [0; 0; 0; 0] 53) (mkSockaddr [10; 0; 0; 2] 1080) [] []) as H.
  cbn [socks_connected sp_stage] in H. destruct H as (_ & E & _); [reflexivity|reflexivity|cbn; lia|]. exact E.
Defined.

Lemma socks_datagram_witness : unpack_datagram no_junk (udp_datagram no_junk a_peer [1; 2; 3]) = Ok (Some (a_peer, [1; 2; 3])).
Proof. apply (socks_datagram_round_trip no_junk a_peer [1; 2; 3]); [reflexivity|split; [discriminate|reflexivity]|reflexivity]. Defined.

Definition sample_key : list Z * Z := (Sample.console_ip, 49152).
Definition sample_sockets : gmap (list Z * Z) DirectProxyUdp := {[ sample_key := mkDirect 130 (key_addr sample_key) ]}.
Definition sample_answer : list Z :=
  ipv4_hdr 0 31 IPV4_PROTOCOL_UDP (sa_ip a_peer) Sample.console_ip (ipv4_hdr_sum 0 31 IPV4_PROTOCOL_UDP (sa_ip a_peer) Sample.console_ip)
  ++ udp_hdr 53 49152 11 (udp_sum (sa_ip a_peer) Sample.console_ip 53 49152 [1; 2; 3]) ++ [1; 2; 3].

(** the sample relay after a frame of the console was seen *)
Definition known_relay : world :=
  match arp_set WifiCtx Sample.console_mac Sample.console_ip Sample.relay with Ok (_, w) => w | Stop _ => Sample.relay end.
Lemma known_ready : ready known_relay Sample.wifi_mac Sample.zt_mac Sample.wifi_mac.
Proof.
  assert (E : exists b, arp_set WifiCtx Sample.console_mac Sample.console_ip Sample.relay = Ok (b, known_relay)) by (eexists; vm_compute; reflexivity).
  destruct E as [b E]. eapply ready_net; [exact (arp_set_frame _ _ _ _ _ _ E)| |exact sample_ready].
  eapply arp_set_wf; [..|exact E|apply sample_ready]; done.
Qed.

Lemma reply_delivered_witness : exists acts tb', proxy_step (PEvent sample_key 111 (a_peer, [1; 2; 3])) sample_sockets = Ok (acts, tb') /\
  wp (perform acts) (fun _ w' => trace w' =
    (Wifi, 0%nat, ether Sample.console_mac Sample.wifi_mac ETHER_TYPE_IPV4 sample_answer) :: trace known_relay) known_relay.
Proof.
  destruct (udp_reply_delivered (H := Direct) Sample.wifi_mac Sample.zt_mac Sample.wifi_mac known_relay 1000 sample_sockets sample_key
    (mkDirect 130 (key_addr sample_key)) 111 (a_peer, [1; 2; 3]) a_peer [1; 2; 3]) as (_ & _ & acts & tb & E & W);
    [exact known_ready|intros ? ?; reflexivity| |reflexivity|reflexivity|reflexivity|reflexivity|apply sample_bytes; reflexivity|reflexivity
    |apply sample_bytes; reflexivity|apply sample_bytes; reflexivity|reflexivity|].
  - intros k u. unfold sample_sockets. intros [<- <-]%lookup_singleton_Some. reflexivity.
  - exists acts, tb. split; [exact E|]. eapply wp_mono; [exact W|]. intros [] w' (_ & H & _). apply H. reflexivity.
Defined.

(** An answer of a SOCKS5 server that is shorter than its header is read beyond
    its end: the length of the payload wraps around. *)
Theorem short_datagram_overreads junk : unpack_datagram junk [0; 0; 0; 1; 9; 9; 9; 9] = Stop OutOfBounds.
Proof. reflexivity. Qed.

(** A reply of the server that arrives in two pieces is refused, although it is
    right. *)
Theorem split_reply_refused junk target :
  (socks_run junk [[5]; [0]] (mkSocks AwaitMethod Connect target)).2 = [SError UnexpectLength; SClose].
Proof. reflexivity. Qed.
