(* ===== verification/Uvl.v ===== *)
(** * The TCP connections of the stack on the event loop: uv_lwip.c

    A connection ([uvl_tcp_t]) sits between lwIP and the event loop: writes are
    queued and handed to lwIP as its send buffer has room, they complete when
    lwIP reports the bytes as acknowledged, received bytes wait in a buffer of
    the size of the window until the application reads.  lwIP is seen through
    the calls of its raw interface: the state has the free send buffer, the
    bytes it accepted and its answers to the calls to come; [tcp_write] takes
    all bytes or none.  The callbacks of the application are recorded in the
    order of their calls; they do not change the connection before the handler
    that calls them is through, except for closing it. *)

From stdpp Require Import base numbers list gmap.
From S2P Require Import Prelude Bytes Proxy.
Local Open Scope Z_scope.

Definition ERR_OK : Z := 0.
Definition ERR_MEM : Z := -1.
Definition ERR_ABRT : Z := -13.
Definition UV_ECANCELED : Z := -125.
Definition UV_EOF : Z := -4095.
Definition UV_EALREADY : Z := -114.
Definition UV_ENOBUFS : Z := -105.
Definition TCP_MSS : Z := 512.
Definition TCP_WND : Z := 4 * TCP_MSS.
Definition UVL_TCP_RECV_BUF_LEN : Z := TCP_WND.

(** ** Data *)

Record uvl_write_t := mkWrite {
  req_id : nat; send_bufs : list (list Z); sent_bufs : Z; sent : Z; pending : Z; total_sent : Z; total_len : Z }.
#[global] Instance eta_uvl_write : Eta uvl_write_t :=
  fun r => mkWrite (req_id r) (send_bufs r) (sent_bufs r) (sent r) (pending r) (total_sent r) (total_len r).
Definition send_nbufs (r : uvl_write_t) : Z := Z.of_nat (length (send_bufs r)).

(** callbacks of the application *)
Inductive uvl_cb :=
| WriteCb (req : nat) (status : Z)
| ReadCb (nread : Z) (data : list Z)
| CloseCb.

(** [pcb]: the pointer is not null; [writes]: from [cur_write] along [next], so
    that [tail_write] is its last element; [recv_buf]: the first [recv_used]
    bytes; [read_req], [write_req]: the async handle was sent; [handles]: they
    are not closing *)
Record uvl_tcp := mkUvl {
  writes : list uvl_write_t; recv_buf : list Z; read_cb : bool; closed : bool; pcb : bool;
  close_cb : bool; closed_handle : Z; read_req : bool; write_req : bool;
  sent_bytes : Z; recv_bytes : Z; local_addr : sockaddr; remote_addr : sockaddr;
  snd_buf : Z; accepted : list Z; recved : Z; answers : list Z; cbs : list uvl_cb }.
#[global] Instance eta_uvl_tcp : Eta uvl_tcp := fun c =>
  mkUvl (writes c) (recv_buf c) (read_cb c) (closed c) (pcb c) (close_cb c) (closed_handle c) (read_req c) (write_req c)
    (sent_bytes c) (recv_bytes c) (local_addr c) (remote_addr c) (snd_buf c) (accepted c) (recved c) (answers c) (cbs c).

Abbreviation U := (SE uvl_tcp).
Definition call (cb : uvl_cb) : U unit := modify (fun c => c <| cbs := cbs c ++ [cb] |>).
Definition ASSERT (b : bool) : U unit := if b then ret tt else stop AssertFail.
Definition deref_pcb : U unit := let* p := gets pcb in if p : bool then ret tt else stop NullDeref.

(** ** The raw interface of lwIP *)

Definition answer : U Z :=
  let* l := gets answers in
  match l with
  | [] => ret ERR_OK
  | e :: l => modify (fun c => c <| answers := l |>) ;;; ret e
  end.
Definition tcp_sndbuf : U Z := deref_pcb ;;; gets snd_buf.
Definition tcp_write (data : list Z) : U Z :=
  deref_pcb ;;;
  let* e := answer in
  (if e =? ERR_OK then modify (fun c => c <| snd_buf := snd_buf c - blen data |> <| accepted := accepted c ++ data |>) else ret tt) ;;;
  ret e.
Definition tcp_output : U Z := deref_pcb ;;; answer.
Definition tcp_close : U Z := deref_pcb ;;; answer.
Definition tcp_recved (n : Z) : U unit := deref_pcb ;;; modify (fun c => c <| recved := recved c + n |>).

(** ** Closing *)

Definition uvl_client_freed : U unit :=
  modify (fun c => c <| pcb := false |> <| closed := true |>) ;;;
  let* r := gets read_cb in
  if r : bool then call (ReadCb UV_EOF []) ;;; modify (fun c => c <| read_cb := false |>) else ret tt.

Definition uvl_client_abort : U Z :=
  let* p := gets pcb in
  ASSERT p ;;;
  let* cl := gets closed in
  ASSERT (negb cl) ;;;
  deref_pcb ;;;
  uvl_client_freed ;;;
  ret ERR_ABRT.

Definition uvl_client_close_func : U Z :=
  let* cl := gets closed in
  ASSERT (negb cl) ;;;
  deref_pcb ;;;
  let* err := tcp_close in
  if err =? ERR_OK then uvl_client_freed ;;; ret err else uvl_client_abort.

Definition uvl_cancel_reqs : U unit :=
  let* ws := gets writes in
  modify (fun c => c <| cbs := cbs c ++ map (fun r => WriteCb (req_id r) UV_ECANCELED) ws |>) ;;;
  modify (fun c => c <| writes := [] |>) ;;;
  let* r := gets read_cb in
  if r : bool then call (ReadCb UV_ECANCELED []) ;;; modify (fun c => c <| read_cb := false |>) else ret tt.

(** ** Writing *)

Definition req_at (i : nat) : U uvl_write_t :=
  let* ws := gets writes in match ws !! i with Some r => ret r | None => stop NullDeref end.
Definition set_req (i : nat) (f : uvl_write_t -> uvl_write_t) : U unit :=
  modify (fun c => c <| writes := alter f i (writes c) |>).

(** the [do ... while]; [None] leaves it for [may_next] *)
Fixpoint write_loop (fuel : nat) (i : nat) (buf : list Z) : U (option Z) :=
  match fuel with
  | O => stop OutOfFuel
  | S fuel =>
      let* req := req_at i in
      let* room := tcp_sndbuf in
      let to_write := Z.min (blen buf - sent req) room in
      if to_write =? 0 then ret None else
      let? data := rdn buf (sent req) to_write in
      let* err := tcp_write data in
      if negb (err =? ERR_OK) then
        (if err =? ERR_MEM then ret (Some 0) else let* e := uvl_client_close_func in ret (Some e))
      else
      set_req i (fun r => r <| sent := u32 (sent r + to_write) |> <| pending := u32 (pending r + to_write) |>
                            <| total_sent := u32 (total_sent r + to_write) |>) ;;;
      modify (fun c => c <| recv_bytes := u32 (recv_bytes c + to_write) |>) ;;;
      if u32 (sent req + to_write) <? blen buf then write_loop fuel i buf else ret None
  end.

(** two rounds are enough: after the first either the buffer is written or the
    send buffer is full *)
Definition uvl_imp_write_buf_to_tcp (i : nat) : U Z :=
  let* req := req_at i in
  match send_bufs req !! Z.to_nat (sent_bufs req) with
  | None => stop OutOfBounds
  | Some buf =>
      let* r := write_loop 2 i buf in
      match r with
      | Some v => ret v
      | None =>
          let* room := tcp_sndbuf in
          if room =? 0 then ret 0
          else set_req i (fun r => r <| sent := 0 |> <| sent_bufs := u32 (sent_bufs r + 1) |>) ;;; ret 1
      end
  end.

Fixpoint first_unsent (ws : list uvl_write_t) : nat :=
  match ws with
  | [] => 0
  | r :: ws => if sent_bufs r <? send_nbufs r then 0 else S (first_unsent ws)
  end.

Fixpoint write_reqs (fuel : nat) (i : nat) : U bool :=
  let* ws := gets writes in
  if (length ws <=? i)%nat then ret true else
  match fuel with
  | O => stop OutOfFuel
  | S fuel =>
      let* r := uvl_imp_write_buf_to_tcp i in
      if r =? 0 then ret true else
      if r =? -1 then ret false else
      let* req := req_at i in
      write_reqs fuel (if sent_bufs req =? send_nbufs req then S i else i)
  end.

(** as many rounds as there are buffers *)
Definition all_bufs (ws : list uvl_write_t) : nat := foldr (fun r n => length (send_bufs r) + n)%nat 0%nat ws.

Definition uvl_imp_write_to_tcp : U unit :=
  let* ws := gets writes in
  ASSERT (negb (length ws =? 0)%nat) ;;;
  let* p := gets pcb in
  ASSERT p ;;;
  let* go := write_reqs (all_bufs ws) (first_unsent ws) in
  if negb go then ret tt else
  let* err := tcp_output in
  if err =? ERR_OK then ret tt else let* _ := uvl_client_close_func in ret tt.

Fixpoint completed (ws : list uvl_write_t) : nat :=
  match ws with
  | [] => 0
  | r :: ws => if (total_sent r =? total_len r) && (pending r =? 0) then S (completed ws) else 0
  end.

Definition uvl_async_tcp_write_cb : U unit :=
  let* ws := gets writes in
  modify (fun c => c <| cbs := cbs c ++ map (fun r => WriteCb (req_id r) 0) (take (completed ws) ws) |>
                     <| writes := drop (completed ws) ws |>) ;;;
  let* cl := gets closed in
  if cl : bool then uvl_cancel_reqs else
  let* ws := gets writes in
  if (length ws =? 0)%nat then ret tt else uvl_imp_write_to_tcp.

Definition new_req (id : nat) (bufs : list (list Z)) : uvl_write_t :=
  mkWrite id bufs 0 0 0 0 (fold_left (fun n b => u32 (n + blen b)) bufs 0).

Definition uvl_write (id : nat) (bufs : list (list Z)) : U Z :=
  modify (fun c => c <| writes := writes c ++ [new_req id bufs] |>) ;;;
  modify (fun c => c <| write_req := true |>) ;;;
  ret 0.

Fixpoint subtract (len : Z) (ws : list uvl_write_t) : outcome (list uvl_write_t) :=
  if len <=? 0 then Ok ws else
  match ws with
  | [] => Stop NullDeref
  | r :: ws =>
      let to_sub := Z.min (pending r) len in
      try ws := subtract (len - to_sub) ws in
      Ok (r <| pending := pending r - to_sub |> :: ws)
  end.

Definition uvl_client_sent_func (len : Z) : U Z :=
  let* cl := gets closed in
  ASSERT (negb cl) ;;;
  ASSERT (0 <? len) ;;;
  modify (fun c => c <| sent_bytes := u32 (sent_bytes c + len) |>) ;;;
  let* ws := gets writes in
  let? ws := subtract len ws in
  modify (fun c => c <| writes := ws |> <| write_req := true |>) ;;;
  ret ERR_OK.

(** ** Reading *)

(** [allocCallback] allocates what is suggested *)
Definition uvl_async_tcp_read_cb : U unit :=
  let* buf := gets recv_buf in
  ASSERT (blen buf <=? UVL_TCP_RECV_BUF_LEN) ;;;
  let* r := gets read_cb in
  if negb r then ret tt else
  if negb (0 <? blen buf) then ret tt else
  if 65536 <? blen buf then call (ReadCb UV_ENOBUFS []) else
  tcp_recved (blen buf) ;;;
  modify (fun c => c <| recv_buf := [] |>) ;;;
  call (ReadCb (blen buf) buf).

Definition uvl_client_recv_func (p : option (list Z)) : U Z :=
  let* cl := gets closed in
  ASSERT (negb cl) ;;;
  match p with
  | None => uvl_client_close_func
  | Some data =>
      ASSERT (0 <? blen data) ;;;
      let* buf := gets recv_buf in
      if UVL_TCP_RECV_BUF_LEN - blen buf <? blen data then ret ERR_MEM else
      modify (fun c => c <| recv_buf := buf ++ data |>) ;;;
      modify (fun c => c <| read_req := true |>) ;;;
      ret ERR_OK
  end.

Definition uvl_client_err_func : U unit := uvl_client_freed.

Definition uvl_read_start : U Z :=
  let* r := gets read_cb in
  if r : bool then ret UV_EALREADY else
  let* cl := gets closed in
  if cl : bool then call (ReadCb UV_EOF []) ;;; ret 0 else
  modify (fun c => c <| read_req := true |>) ;;;
  modify (fun c => c <| read_cb := true |>) ;;;
  ret 0.

Definition uvl_read_stop : U Z := modify (fun c => c <| read_cb := false |>) ;;; ret 0.

(** ** Setting up and closing *)

Definition uvl_tcp_init (c : uvl_tcp) : uvl_tcp :=
  c <| read_cb := false |> <| close_cb := false |> <| recv_buf := [] |> <| writes := [] |> <| pcb := false |> <| closed := false |>
    <| read_req := false |> <| write_req := false |> <| local_addr := nowhere |> <| remote_addr := nowhere |>.

(** [local], [remote], [room]: of the new connection of lwIP *)
Definition uvl_accept (local remote : sockaddr) (room : Z) : U Z :=
  modify (fun c => c <| pcb := true |> <| snd_buf := room |> <| accepted := [] |> <| recved := 0 |>
                     <| local_addr := local |> <| remote_addr := remote |>
                     <| sent_bytes := 0 |> <| recv_bytes := 0 |> <| closed_handle := 0 |>) ;;;
  ret 0.

(** the handles are closing from here on: their callbacks do not run any more *)
Definition uvl_tcp_close : U Z :=
  let* cl := gets closed in
  (if cl : bool then ret tt else let* _ := uvl_client_close_func in ret tt) ;;;
  uvl_cancel_reqs ;;;
  modify (fun c => c <| read_req := false |> <| write_req := false |> <| close_cb := true |>) ;;;
  ret 0.

Definition uvl_tcp_close_handle_cb : U unit :=
  modify (fun c => c <| closed_handle := closed_handle c + 1 |>) ;;;
  let* n := gets closed_handle in
  if negb (n =? 2) then ret tt else
  modify (fun c => c <| recv_buf := [] |> <| writes := [] |> <| read_cb := false |> <| pcb := false |>
                     <| closed_handle := 0 |> <| close_cb := false |>) ;;;
  call CloseCb.

(** ** Events

    What happens to a connection after [uvl_accept]: calls of the application,
    callbacks of lwIP and of the event loop.  A list of answers is what lwIP
    answers to the calls made by the handler.  The result is what was taken
    over from lwIP. *)

Inductive uvl_event :=
| EvWrite (id : nat) (bufs : list (list Z))
| EvWriteAsync (a : list Z)
| EvSent (n : Z)
| EvRecv (data : list Z)
| EvFin (a : list Z)
| EvErr
| EvReadAsync
| EvReadStart
| EvReadStop
| EvClose (a : list Z)
| EvHandleClosed.

Definition answering {A} (a : list Z) (m : U A) : U A := modify (fun c => c <| answers := a |>) ;;; m.
Definition quietly {A} (m : U A) : U (list Z) := let* _ := m in ret [].

Definition uvl_step (e : uvl_event) : U (list Z) :=
  match e with
  | EvWrite id bufs => quietly (uvl_write id bufs)
  | EvWriteAsync a => quietly (modify (fun c => c <| write_req := false |>) ;;; answering a uvl_async_tcp_write_cb)
  | EvSent n => quietly (modify (fun c => c <| snd_buf := snd_buf c + n |>) ;;; uvl_client_sent_func n)
  | EvRecv data => let* r := uvl_client_recv_func (Some data) in ret (if r =? ERR_OK then data else [])
  | EvFin a => quietly (answering a (uvl_client_recv_func None))
  | EvErr => quietly uvl_client_err_func
  | EvReadAsync => quietly (modify (fun c => c <| read_req := false |>) ;;; uvl_async_tcp_read_cb)
  | EvReadStart => quietly uvl_read_start
  | EvReadStop => quietly uvl_read_stop
  | EvClose a => quietly (answering a uvl_tcp_close)
  | EvHandleClosed => quietly uvl_tcp_close_handle_cb
  end.

Fixpoint uvl_run (evs : list uvl_event) : U (list Z) :=
  match evs with
  | [] => ret []
  | e :: evs => let* t := uvl_step e in let* ts := uvl_run evs in ret (t ++ ts)
  end.

(** ** The invariant *)

Definition cur_len (r : uvl_write_t) : Z := blen (default [] (send_bufs r !! Z.to_nat (sent_bufs r))).
Definition unsent (r : uvl_write_t) : list Z := drop (Z.to_nat (total_sent r)) (concat (send_bufs r)).
Definition pending_sum (ws : list uvl_write_t) : Z := foldr (fun r n => pending r + n) 0 ws.
Definition todo (ws : list uvl_write_t) : list Z := concat (map unsent ws).

Record req_ok (r : uvl_write_t) : Prop := {
  ro_bufs : 0 <= sent_bufs r <= send_nbufs r;
  ro_nbufs : send_bufs r <> [];
  ro_sent : 0 <= sent r <= cur_len r;
  ro_len : total_len r = blen (concat (send_bufs r));
  ro_small : total_len r < 4294967296;
  ro_many : send_nbufs r < 4294967296;
  ro_total : total_sent r = blen (concat (take (Z.to_nat (sent_bufs r)) (send_bufs r))) + sent r;
  ro_pending : 0 <= pending r <= total_sent r }.

Definition writable (bufs : list (list Z)) : Prop :=
  bufs <> [] /\ blen (concat bufs) < 4294967296 /\ Z.of_nat (length bufs) < 4294967296.
Definition fresh (r : uvl_write_t) : Prop := r = new_req (req_id r) (send_bufs r) /\ writable (send_bufs r).
Definition all_sent (r : uvl_write_t) : Prop := req_ok r /\ sent_bufs r = send_nbufs r.

(** the requests that were handed over, the one in work, those to come *)
Fixpoint queue_ok (ws : list uvl_write_t) : Prop :=
  match ws with
  | [] => True
  | r :: ws => req_ok r /\ if sent_bufs r <? send_nbufs r then Forall fresh ws else queue_ok ws
  end.

Definition cb_data (cb : uvl_cb) : list Z := match cb with ReadCb _ d => d | _ => [] end.
Definition cb_req (cb : uvl_cb) : list nat := match cb with WriteCb i _ => [i] | _ => [] end.
Definition delivered (l : list uvl_cb) : list Z := concat (map cb_data l).
Definition answered (l : list uvl_cb) : list nat := concat (map cb_req l).

(** *** A request *)

Lemma foldl_u32 bufs : forall n, 0 <= n -> n + blen (concat bufs) < 4294967296 ->
  fold_left (fun n b => u32 (n + blen b)) bufs n = n + blen (concat bufs).
Proof.
  induction bufs as [|b bufs IH]; intros n Hn H; cbn [fold_left concat] in *; [change (blen []) with 0; lia|]. rewrite blen_app in *.
  pose proof (blen_nonneg b). pose proof (blen_nonneg (concat bufs)).
  rewrite u32_small by lia. rewrite IH by lia. lia.
Qed.

Lemma fresh_ok r : fresh r -> req_ok r /\ sent_bufs r < send_nbufs r /\ unsent r = concat (send_bufs r) /\ pending r = 0.
Proof.
  intros (E & Hne & Hl & Hm). pose proof (blen_nonneg (concat (send_bufs r))) as Hp.
  assert (0 < send_nbufs r) by (unfold send_nbufs; destruct (send_bufs r); [done|cbn; lia]).
  rewrite E. unfold unsent. cbn. split_and!; [split; unfold cur_len; cbn; try done; try (unfold send_nbufs in *; cbn; lia)|done|done|done].
  - split; [done|apply blen_nonneg].
  - rewrite foldl_u32 by (cbn; lia). lia.
  - rewrite foldl_u32 by (cbn; lia). lia.
Qed.

Lemma cur_some r : req_ok r -> sent_bufs r < send_nbufs r -> exists buf, send_bufs r !! Z.to_nat (sent_bufs r) = Some buf /\ blen buf = cur_len r.
Proof.
  intros Hr Hs. destruct (lookup_lt_is_Some_2 (send_bufs r) (Z.to_nat (sent_bufs r))) as [buf Hb].
  { destruct (ro_bufs _ Hr). unfold send_nbufs in Hs. lia. }
  exists buf. split; [done|]. unfold cur_len. by rewrite Hb.
Qed.

Lemma unsent_cur r buf : req_ok r -> send_bufs r !! Z.to_nat (sent_bufs r) = Some buf ->
  unsent r = drop (Z.to_nat (sent r)) buf ++ concat (drop (S (Z.to_nat (sent_bufs r))) (send_bufs r)).
Proof.
  intros Hr Hb. unfold unsent. rewrite (ro_total _ Hr). pose proof (ro_sent _ Hr) as Hs. unfold cur_len in Hs. rewrite Hb in Hs. cbn in Hs.
  rewrite <- (take_drop_middle _ _ _ Hb) at 2. rewrite concat_app. cbn [concat].
  set (pre := concat (take (Z.to_nat (sent_bufs r)) (send_bufs r))). pose proof (blen_nonneg pre). unfold blen in *.
  rewrite Z2Nat.inj_add, Nat2Z.id by lia. rewrite <- drop_drop, drop_app_length.
  rewrite drop_app_le by lia. done.
Qed.

(** [n] more bytes of the request were handed over *)
Definition advance (n : Z) (r : uvl_write_t) : uvl_write_t :=
  r <| sent := sent r + n |> <| pending := pending r + n |> <| total_sent := total_sent r + n |>.
Definition next_buf (r : uvl_write_t) : uvl_write_t := r <| sent := 0 |> <| sent_bufs := sent_bufs r + 1 |>.

Lemma total_bound r : req_ok r -> 0 <= total_sent r /\ total_sent r + (cur_len r - sent r) <= total_len r.
Proof.
  intros Hr. pose proof (ro_sent _ Hr) as Hs. pose proof (ro_total _ Hr) as Ht. rewrite (ro_len _ Hr).
  set (k := Z.to_nat (sent_bufs r)) in *.
  replace (blen (concat (send_bufs r))) with (blen (concat (take k (send_bufs r))) + blen (concat (drop k (send_bufs r))))
    by (by rewrite <- blen_app, <- concat_app, take_drop).
  assert (cur_len r <= blen (concat (drop k (send_bufs r)))).
  { unfold cur_len. fold k. rewrite <- (Nat.add_0_r k), <- lookup_drop, Nat.add_0_r. destruct (drop k (send_bufs r)) as [|b l]; cbn; [done|].
    rewrite blen_app. pose proof (blen_nonneg (concat l)). lia. }
  pose proof (blen_nonneg (concat (take k (send_bufs r)))). lia.
Qed.

Lemma advance_req_ok n r : req_ok r -> 0 <= n <= cur_len r - sent r -> req_ok (advance n r).
Proof.
  intros Hr Hn. destruct Hr. split; try done.
  - unfold cur_len in *. cbn. lia.
  - cbn. lia.
  - cbn. lia.
Qed.

Lemma advance_unsent n r : req_ok r -> 0 <= n <= cur_len r - sent r -> unsent (advance n r) = drop (Z.to_nat n) (unsent r).
Proof.
  intros Hr Hn. destruct (total_bound r Hr). unfold unsent. cbn. rewrite drop_drop. f_equal. lia.
Qed.

Lemma next_buf_ok r : req_ok r -> sent_bufs r < send_nbufs r -> sent r = cur_len r -> req_ok (next_buf r) /\ unsent (next_buf r) = unsent r.
Proof.
  intros Hr Hs He. split; [|done]. destruct (cur_some r Hr Hs) as (buf & Hb & Hl). destruct Hr. split; cbn; try done.
  - unfold send_nbufs in *. cbn. lia.
  - split; [done|apply blen_nonneg].
  - rewrite Z2Nat.inj_add by lia. change (Z.to_nat 1) with 1%nat. rewrite Nat.add_1_r, (take_S_r _ _ _ Hb), concat_app, blen_app. cbn [concat].
    rewrite app_nil_r. lia.
Qed.

Lemma all_sent_unsent r : all_sent r -> unsent r = [].
Proof.
  intros [Hr He]. unfold unsent. rewrite (ro_total _ Hr), He. pose proof (ro_sent _ Hr). unfold send_nbufs. rewrite Nat2Z.id, firstn_all.
  apply drop_ge. unfold blen. lia.
Qed.

Lemma done_todo ws : Forall all_sent ws -> todo ws = [].
Proof. induction 1 as [|r ws Hr _ IH]; [done|]. unfold todo in *. cbn. by rewrite (all_sent_unsent _ Hr). Qed.
Lemma todo_app a b : todo (a ++ b) = todo a ++ todo b.
Proof. unfold todo. by rewrite map_app, concat_app. Qed.
Lemma pending_app a b : pending_sum (a ++ b) = pending_sum a + pending_sum b.
Proof. unfold pending_sum. induction a as [|r a IH]; cbn [app foldr]; [done|]. rewrite IH. lia. Qed.

(** *** The queue *)

Definition rest_ok (ws : list uvl_write_t) : Prop :=
  match ws with [] => True | r :: ws => req_ok r /\ sent_bufs r < send_nbufs r /\ Forall fresh ws end.

Lemma fresh_rest ws : Forall fresh ws -> rest_ok ws.
Proof. destruct 1 as [|r ws Hr Hw]; [done|]. destruct (fresh_ok _ Hr) as (? & ? & _). done. Qed.

Lemma queue_split ws : queue_ok ws -> exists dn rest, ws = dn ++ rest /\ first_unsent ws = length dn /\ Forall all_sent dn /\ rest_ok rest.
Proof.
  induction ws as [|r ws IH]; cbn; [by exists [], []|]. intros [Hr Hq]. destruct (sent_bufs r <? send_nbufs r) eqn:E.
  - exists [], (r :: ws). split_and!; try done. apply Z.ltb_lt in E. done.
  - destruct (IH Hq) as (dn & rest & -> & E' & Hd & Hrest). exists (r :: dn), rest. split_and!; cbn; try done; [by rewrite E'|].
    constructor; [|done]. split; [done|]. apply Z.ltb_ge in E. destruct (ro_bufs _ Hr). lia.
Qed.

Lemma queue_join dn rest : Forall all_sent dn -> rest_ok rest -> queue_ok (dn ++ rest).
Proof.
  induction 1 as [|r dn [Hr He] _ IH]; intros Hrest; cbn.
  - destruct rest as [|r rest]; [done|]. destruct Hrest as (? & ? & ?). split; [done|]. by rewrite (proj2 (Z.ltb_lt _ _)).
  - split; [done|]. rewrite (proj2 (Z.ltb_ge _ _)) by lia. by apply IH.
Qed.

Lemma queue_reqs ws : queue_ok ws -> Forall req_ok ws.
Proof.
  intros Hq. destruct (queue_split ws Hq) as (dn & rest & -> & _ & Hd & Hr). apply Forall_app. split.
  - eapply Forall_impl; [|exact Hd]. by intros ? [? _].
  - destruct rest as [|r rest]; [done|]. destruct Hr as (? & ? & Hf). constructor; [done|].
    eapply Forall_impl; [|exact Hf]. intros ? ?%fresh_ok. tauto.
Qed.

Lemma alter_middle {A} (f : A -> A) l x r : alter f (length l) (l ++ x :: r) = l ++ f x :: r.
Proof. induction l as [|y l IH]; cbn; [done|]. f_equal. apply IH. Qed.
Lemma lookup_middle {A} l (x : A) r : (l ++ x :: r) !! length l = Some x.
Proof. by rewrite lookup_app_r, Nat.sub_diag by done. Qed.

(** *** Handing over *)

(** what writing does not touch *)
Definition kept (c : uvl_tcp) := (closed c, pcb c, cbs c, recv_buf c, read_cb c, close_cb c, (closed_handle c, read_req c, write_req c)).
Definition mild (e : Z) : Prop := e = ERR_OK \/ e = ERR_MEM.

Record pushed (dn rest : list uvl_write_t) (r r' : uvl_write_t) (n : Z) (c c' : uvl_tcp) : Prop := {
  pu_writes : writes c' = dn ++ r' :: rest;
  pu_n : 0 <= n <= cur_len r - sent r;
  pu_accepted : accepted c' = accepted c ++ take (Z.to_nat n) (unsent r);
  pu_room : snd_buf c' = snd_buf c - n /\ 0 <= snd_buf c';
  pu_kept : kept c' = kept c;
  pu_answers : Forall mild (answers c');
  pu_willing : answers c = [] -> answers c' = [] }.

Lemma answer_spec c Q : (forall e, (answers c = [] -> e = ERR_OK) -> (Forall mild (answers c) -> mild e) ->
  Q e (c <| answers := tl (answers c) |>)) -> wp answer Q c.
Proof.
  intros H. unfold answer. apply wp_bind, wp_gets. destruct (answers c) as [|e l] eqn:E.
  - apply wp_ret. replace c with (c <| answers := tl (answers c) |>) by (rewrite E; destruct c; cbn in *; by subst).
    rewrite E. apply H; [done|]. intros _. by left.
  - apply wp_bind, wp_modify, wp_ret. apply H; [done|]. by inversion 1.
Qed.

Lemma write_data_spec r buf n : req_ok r -> send_bufs r !! Z.to_nat (sent_bufs r) = Some buf -> 0 <= n <= cur_len r - sent r ->
  rdn buf (sent r) n = Ok (take (Z.to_nat n) (unsent r)) /\ blen (take (Z.to_nat n) (unsent r)) = n.
Proof.
  intros Hr Hb Hn. pose proof (ro_sent _ Hr) as Hs. assert (Hl : cur_len r = blen buf) by (unfold cur_len; by rewrite Hb).
  rewrite rdn_ok by lia. rewrite (unsent_cur _ _ Hr Hb). unfold field, blen in *. rewrite take_app_le by (rewrite length_drop; lia).
  split; [done|]. rewrite length_take, length_drop. lia.
Qed.

Lemma write_loop_spec dn rest r buf c :
  writes c = dn ++ r :: rest -> pcb c = true -> Forall mild (answers c) -> 0 <= snd_buf c ->
  req_ok r -> send_bufs r !! Z.to_nat (sent_bufs r) = Some buf ->
  wp (write_loop 2 (length dn) buf) (fun res c' => exists n, pushed dn rest r (advance n r) n c c' /\
    match res with
    | Some v => v = 0 /\ answers c <> []
    | None => n = cur_len r - sent r \/ snd_buf c' = 0
    end) c.
Proof.
  intros Hw Hp Ha Hroom Hr Hb. assert (Hl : cur_len r = blen buf) by (unfold cur_len; by rewrite Hb).
  pose proof (ro_sent _ Hr) as Hs. destruct (total_bound r Hr) as [Ht0 Ht1]. pose proof (ro_small _ Hr) as Hsm. pose proof (ro_pending _ Hr) as Hpe.
  assert (sent r <= total_sent r) by (rewrite (ro_total _ Hr); pose proof (blen_nonneg (concat (take (Z.to_nat (sent_bufs r)) (send_bufs r)))); lia).
  assert (E0 : advance 0 r = r) by (destruct r; unfold advance; cbn; rewrite !Z.add_0_r; done).
  cbn [write_loop]. unfold req_at, tcp_sndbuf, deref_pcb. repeat (apply wp_bind; try apply wp_gets). rewrite Hw, lookup_middle. apply wp_ret.
  repeat (apply wp_bind; try apply wp_gets). rewrite Hp. apply wp_ret, wp_gets.
  set (n := Z.min (blen buf - sent r) (snd_buf c)). destruct (n =? 0) eqn:En.
  { apply wp_ret. exists 0. apply Z.eqb_eq in En. split; [|lia]. rewrite E0. split; try done; try lia. by rewrite app_nil_r. }
  apply Z.eqb_neq in En. destruct (write_data_spec r buf n Hr Hb ltac:(lia)) as [Hd Hld].
  apply wp_bind. eapply wp_lift; [exact Hd|]. unfold tcp_write, deref_pcb. repeat (apply wp_bind; try apply wp_gets). rewrite Hp. apply wp_ret, wp_bind.
  apply answer_spec. intros e He1 He2. specialize (He2 Ha).
  assert (Ha' : Forall mild (tl (answers c))) by (destruct Ha; done).
  destruct (e =? ERR_OK) eqn:Ee.
  2: { apply wp_bind, wp_ret, wp_ret. cbn [negb]. destruct He2 as [->| ->]; [done|]. change (ERR_MEM =? ERR_MEM) with true. cbv iota.
    apply wp_ret. exists 0. split; [rewrite E0; split; cbn; try done; try lia; [by rewrite app_nil_r|by intros E; rewrite E]|].
    split; [done|]. intros E. by specialize (He1 E). }
  apply wp_bind, wp_modify, wp_ret. rewrite Ee. cbn [negb]. unfold set_req. apply wp_bind, wp_modify, wp_bind, wp_modify. cbn.
  rewrite (u32_small (sent r + n)) by lia. rewrite Hld, Hw, alter_middle.
  assert (Er : r <| sent := u32 (sent r + n) |> <| pending := u32 (pending r + n) |> <| total_sent := u32 (total_sent r + n) |> = advance n r).
  { unfold advance. by rewrite !u32_small by lia. }
  rewrite Er. clear Er. destruct (sent r + n <? blen buf) eqn:El.
  - apply Z.ltb_lt in El. unfold req_at, tcp_sndbuf, deref_pcb. repeat (apply wp_bind; try apply wp_gets). cbn. rewrite lookup_middle. apply wp_ret.
    repeat (apply wp_bind; try apply wp_gets). cbn. rewrite Hp. apply wp_ret, wp_gets. cbn.
    replace (Z.min _ _ =? 0) with true by (symmetry; apply Z.eqb_eq; lia). apply wp_ret. exists n. split; [|cbn; right; lia].
    split; cbn; try done; try lia. intros E; by rewrite E.
  - apply Z.ltb_ge in El. apply wp_ret. exists n. split; [|left; lia]. split; cbn; try done; try lia. intros E; by rewrite E.
Qed.

Lemma write_buf_spec dn rest r c :
  writes c = dn ++ r :: rest -> pcb c = true -> Forall mild (answers c) -> 0 <= snd_buf c -> req_ok r -> sent_bufs r < send_nbufs r ->
  wp (uvl_imp_write_buf_to_tcp (length dn)) (fun res c' => exists n,
    (res = 0 /\ pushed dn rest r (advance n r) n c c' /\ (answers c = [] -> snd_buf c' = 0)) \/
    (res = 1 /\ pushed dn rest r (next_buf (advance n r)) n c c' /\ n = cur_len r - sent r)) c.
Proof.
  intros Hw Hp Ha Hroom Hr Hs. destruct (cur_some r Hr Hs) as (buf & Hb & _).
  unfold uvl_imp_write_buf_to_tcp, req_at. repeat (apply wp_bind; try apply wp_gets). rewrite Hw, lookup_middle. apply wp_ret. rewrite Hb.
  apply wp_bind. eapply wp_mono; [by apply (write_loop_spec dn rest r buf)|]. intros res c' (n & Hpu & Hres).
  destruct res as [v|].
  - apply wp_ret. exists n. left. destruct Hres as [-> Hne]. by split_and!.
  - unfold tcp_sndbuf, deref_pcb. repeat (apply wp_bind; try apply wp_gets).
    assert (Hp' : pcb c' = true) by (pose proof (pu_kept _ _ _ _ _ _ _ Hpu) as E; unfold kept in E; congruence).
    rewrite Hp'. apply wp_ret, wp_gets. destruct (snd_buf c' =? 0) eqn:E0.
    + apply wp_ret. exists n. left. apply Z.eqb_eq in E0. by split_and!.
    + apply Z.eqb_neq in E0. apply wp_bind, wp_modify, wp_ret. exists n. right.
      assert (En : n = cur_len r - sent r) by (destruct Hres; [done|lia]). split_and!; [done| |done].
      destruct Hpu as [Pw Pn Pa Pr Pk Pan Pwi]. pose proof (ro_bufs _ Hr). pose proof (ro_many _ Hr).
      split; try done. cbn. rewrite Pw, alter_middle. unfold next_buf. cbn. by rewrite u32_small by lia.
Qed.

(** requests handed over as far as the send buffer goes *)
Record handed (c c' : uvl_tcp) : Prop := {
  ha_kept : kept c' = kept c;
  ha_queue : queue_ok (writes c');
  ha_flow : accepted c' ++ todo (writes c') = accepted c ++ todo (writes c);
  ha_pending : blen (accepted c') - pending_sum (writes c') = blen (accepted c) - pending_sum (writes c);
  ha_ids : map req_id (writes c') = map req_id (writes c);
  ha_room : 0 <= snd_buf c' /\ snd_buf c' + blen (accepted c') = snd_buf c + blen (accepted c);
  ha_answers : Forall mild (answers c');
  ha_willing : answers c = [] -> answers c' = [] /\ (snd_buf c' = 0 \/ todo (writes c') = []) }.

(** one step of it: the rest may still be unsent *)
Record moved (c c' : uvl_tcp) : Prop := {
  mo_kept : kept c' = kept c;
  mo_flow : accepted c' ++ todo (writes c') = accepted c ++ todo (writes c);
  mo_pending : blen (accepted c') - pending_sum (writes c') = blen (accepted c) - pending_sum (writes c);
  mo_ids : map req_id (writes c') = map req_id (writes c);
  mo_room : 0 <= snd_buf c' /\ snd_buf c' + blen (accepted c') = snd_buf c + blen (accepted c);
  mo_answers : Forall mild (answers c');
  mo_willing : answers c = [] -> answers c' = [] }.

Lemma moved_handed c c1 c' : moved c c1 -> handed c1 c' -> handed c c'.
Proof.
  intros [K F P I R A W] [K' Q' F' P' I' R' A' W']. split; try done; try congruence; [lia|]. intros E. by apply W', W.
Qed.

Lemma moved_stop c c' : moved c c' -> queue_ok (writes c') -> (answers c = [] -> snd_buf c' = 0 \/ todo (writes c') = []) -> handed c c'.
Proof. intros [K F P I R A W] Q H. split; try done. intros E. split; [by apply W|by apply H]. Qed.

Lemma pushed_moved dn rest r r' n c c' : writes c = dn ++ r :: rest -> Forall all_sent dn -> req_ok r -> pushed dn rest r r' n c c' ->
  unsent r' = drop (Z.to_nat n) (unsent r) -> pending r' = pending r + n -> req_id r' = req_id r -> moved c c'.
Proof.
  intros Hw Hd Hr [Pw Pn Pa Pr Pk Pan Pwi] Hu Hpe Hid.
  assert (Hlen : n <= blen (unsent r)).
  { destruct (total_bound r Hr). pose proof (ro_len _ Hr) as Hl. unfold unsent, blen in *. rewrite length_drop. lia. }
  assert (Ht : blen (take (Z.to_nat n) (unsent r)) = n) by (unfold blen in *; rewrite length_take; lia).
  split; try done.
  - rewrite Pw, Hw, Pa, !todo_app, (done_todo _ Hd). unfold todo. cbn. rewrite Hu, <- app_assoc. f_equal. by rewrite app_assoc, take_drop.
  - rewrite Pw, Hw, Pa, !pending_app, blen_app, Ht. cbn. rewrite Hpe. lia.
  - rewrite Pw, Hw, !map_app. cbn. by rewrite Hid.
  - rewrite Pa, blen_app, Ht. lia.
Qed.

Lemma pushed_pcb dn rest r r' n c c' : pushed dn rest r r' n c c' -> pcb c' = pcb c.
Proof. intros H. pose proof (pu_kept _ _ _ _ _ _ _ H) as E. unfold kept in E. congruence. Qed.

Definition bufs_left (ws : list uvl_write_t) : nat :=
  match ws with [] => 0 | r :: ws => Z.to_nat (send_nbufs r - sent_bufs r) + all_bufs ws end.

Lemma bufs_left_fresh ws : Forall fresh ws -> (bufs_left ws = all_bufs ws)%nat.
Proof.
  destruct 1 as [|r ws [E _] _]; [done|]. cbn. rewrite E. unfold send_nbufs. cbn. unfold all_bufs. lia.
Qed.

Lemma write_reqs_spec fuel : forall dn rest c,
  writes c = dn ++ rest -> Forall all_sent dn -> rest_ok rest -> pcb c = true -> Forall mild (answers c) -> 0 <= snd_buf c ->
  (bufs_left rest <= fuel)%nat ->
  wp (write_reqs fuel (length dn)) (fun go c' => go = true /\ handed c c') c.
Proof.
  induction fuel as [|fuel IH]; intros dn rest c Hw Hd Hrest Hp Ha Hroom Hf; cbn [write_reqs]; apply wp_bind, wp_gets.
  all: destruct rest as [|r rest].
  1, 3: rewrite (proj2 (Nat.leb_le _ _)) by (rewrite Hw, app_nil_r; done); apply wp_ret; split; [done|].
  1, 2: split; try done; [rewrite Hw; by apply queue_join|]; intros E; split; [done|right]; by rewrite Hw, app_nil_r, done_todo.
  all: rewrite (proj2 (Nat.leb_gt _ _)) by (rewrite Hw, length_app; cbn; lia); destruct Hrest as (Hr & Hs & Hfr).
  { exfalso. cbn in Hf. lia. }
  apply wp_bind. eapply wp_mono; [by apply (write_buf_spec dn rest r)|]. intros res c' (n & [(-> & Hpu & Hfull)|(-> & Hpu & En)]).
  - change (0 =? 0) with true. cbv iota. apply wp_ret. split; [done|]. pose proof (pu_n _ _ _ _ _ _ _ Hpu) as Hn. apply moved_stop.
    + by eapply pushed_moved; [..|apply advance_unsent| |].
    + rewrite (pu_writes _ _ _ _ _ _ _ Hpu). apply queue_join; [done|]. split_and!; [by apply advance_req_ok|done|done].
    + intros E. left. by apply Hfull.
  - change (1 =? 0) with false. change (1 =? -1) with false. cbv iota. pose proof (pu_n _ _ _ _ _ _ _ Hpu) as Hn.
    assert (Hok := advance_req_ok n r Hr Hn). assert (Hmid : sent_bufs (advance n r) < send_nbufs (advance n r)) by done.
    destruct (next_buf_ok _ Hok Hmid) as [Hok' Hun]; [unfold cur_len in *; cbn in *; lia|].
    assert (Hm : moved c c') by (eapply pushed_moved; [done..|rewrite Hun; by apply advance_unsent|done|done]).
    pose proof (pushed_pcb _ _ _ _ _ _ _ Hpu) as Hp'. destruct Hpu as [Pw Pn Pa Pr Pk Pan Pwi]. set (r' := next_buf (advance n r)) in *.
    unfold req_at. repeat (apply wp_bind; try apply wp_gets). rewrite Pw, lookup_middle. apply wp_ret.
    assert (El : sent_bufs r' = sent_bufs r + 1 /\ send_nbufs r' = send_nbufs r) by done. destruct El as [El En']. cbn [bufs_left] in Hf.
    assert (Hk : forall dn' rest', dn ++ r' :: rest = dn' ++ rest' -> Forall all_sent dn' -> rest_ok rest' -> (bufs_left rest' <= fuel)%nat ->
      wp (write_reqs fuel (length dn')) (fun go c'0 => go = true /\ handed c c'0) c').
    { intros dn' rest' E Hd' Hr' Hl'. eapply wp_mono; [apply (IH dn' rest'); try done; [by rewrite Pw|by rewrite Hp'|lia]|].
      intros go c2 [-> Hh]. split; [done|]. by eapply moved_handed. }
    destruct (sent_bufs r' =? send_nbufs r') eqn:Ee.
    + apply Z.eqb_eq in Ee. replace (S (length dn)) with (length (dn ++ [r'])) by (rewrite length_app; cbn; lia).
      apply (Hk _ rest); [by rewrite <- app_assoc|apply Forall_app; split; [done|apply Forall_cons; [by split|done]]|by apply fresh_rest|].
      rewrite (bufs_left_fresh _ Hfr). lia.
    + apply Z.eqb_neq in Ee. apply (Hk dn (r' :: rest)); [done|done|split_and!; [done|destruct (ro_bufs _ Hok'); lia|done]|].
      cbn [bufs_left]. rewrite El, En'. destruct (ro_bufs _ Hr). lia.
Qed.

(** *** Closing *)

Record shut (c c' : uvl_tcp) : Prop := {
  sh_closed : closed c' = true /\ pcb c' = false /\ read_cb c' = false;
  sh_cbs : cbs c' = cbs c ++ (if read_cb c then [ReadCb UV_EOF []] else []);
  sh_rest : (writes c', accepted c', recv_buf c', close_cb c', closed_handle c', snd_buf c')
          = (writes c, accepted c, recv_buf c, close_cb c, closed_handle c, snd_buf c);
  sh_reqs : (read_req c', write_req c') = (read_req c, write_req c) }.

Lemma freed_spec c : wp uvl_client_freed (fun _ c' => shut c c') c.
Proof.
  unfold uvl_client_freed, call. apply wp_bind, wp_modify, wp_bind, wp_gets. cbn. destruct (read_cb c) eqn:E.
  - apply wp_bind, wp_modify, wp_modify. split; cbn; try done. by rewrite E.
  - apply wp_ret. split; cbn; try done. by rewrite E, app_nil_r.
Qed.

Lemma close_func_spec c : closed c = false -> pcb c = true -> wp uvl_client_close_func (fun _ c' => shut c c') c.
Proof.
  intros Hc Hp. unfold uvl_client_close_func, tcp_close, uvl_client_abort, deref_pcb. apply wp_bind, wp_gets. rewrite Hc.
  apply wp_bind, wp_ret. repeat (apply wp_bind; try apply wp_gets). rewrite Hp. apply wp_ret. repeat (apply wp_bind; try apply wp_gets).
  rewrite Hp. apply wp_ret. apply answer_spec. intros e _ _. set (c1 := c <| answers := _ |>).
  assert (Hf : wp uvl_client_freed (fun _ c' => shut c c') c1) by (eapply wp_mono; [apply freed_spec|]; intros _ c' [? ? ? ?]; by split).
  destruct (e =? ERR_OK).
  - apply wp_bind. eapply wp_mono; [exact Hf|]. intros ? c' Hs. by apply wp_ret.
  - apply wp_bind, wp_gets. cbn. rewrite Hp. apply wp_bind, wp_ret, wp_bind, wp_gets. cbn. rewrite Hc. apply wp_bind, wp_ret.
    repeat (apply wp_bind; try apply wp_gets). cbn. rewrite Hp. apply wp_ret, wp_bind.
    eapply wp_mono; [exact Hf|]. intros ? c' Hs. by apply wp_ret.
Qed.

Lemma cancel_spec c : wp uvl_cancel_reqs (fun _ c' =>
  writes c' = [] /\ read_cb c' = false /\
  cbs c' = cbs c ++ map (fun r => WriteCb (req_id r) UV_ECANCELED) (writes c) ++ (if read_cb c then [ReadCb UV_ECANCELED []] else []) /\
  (closed c', pcb c', accepted c', recv_buf c', close_cb c', closed_handle c', snd_buf c') =
  (closed c, pcb c, accepted c, recv_buf c, close_cb c, closed_handle c, snd_buf c)) c.
Proof.
  unfold uvl_cancel_reqs, call. apply wp_bind, wp_gets, wp_bind, wp_modify, wp_bind, wp_modify, wp_bind, wp_gets. cbn.
  destruct (read_cb c) eqn:E.
  - apply wp_bind, wp_modify, wp_modify. cbn. by rewrite <- app_assoc.
  - apply wp_ret. cbn. by rewrite E, app_nil_r.
Qed.

Lemma bufs_left_le dn rest : rest_ok rest -> (bufs_left rest <= all_bufs (dn ++ rest))%nat.
Proof.
  intros Hr. induction dn as [|r dn IH]; cbn [app].
  - destruct rest as [|r rest]; [done|]. destruct Hr as (Hr & _ & _). cbn. unfold all_bufs. destruct (ro_bufs _ Hr). unfold send_nbufs in *. lia.
  - cbn. unfold all_bufs in *. lia.
Qed.

Lemma imp_write_spec c :
  closed c = false -> pcb c = true -> queue_ok (writes c) -> writes c <> [] -> Forall mild (answers c) -> 0 <= snd_buf c ->
  wp uvl_imp_write_to_tcp (fun _ c' => exists c1, handed c c1 /\ (c' = c1 <| answers := tl (answers c1) |> \/ answers c <> [] /\ shut c1 c')) c.
Proof.
  intros Hc Hp Hq Hne Ha Hroom. unfold uvl_imp_write_to_tcp. apply wp_bind, wp_gets.
  rewrite (proj2 (Nat.eqb_neq _ _)) by (destruct (writes c); [done|cbn; lia]). apply wp_bind, wp_ret, wp_bind, wp_gets. rewrite Hp.
  apply wp_bind, wp_ret, wp_bind. destruct (queue_split _ Hq) as (dn & rest & Hw & Hi & Hd & Hrest). rewrite Hi.
  eapply wp_mono; [apply (write_reqs_spec _ dn rest); try done; by rewrite Hw; apply bufs_left_le|].
  intros go c1 [-> Hh]. cbn [negb]. pose proof (ha_kept _ _ Hh) as Hk. unfold kept in Hk. simplify_eq/=.
  unfold tcp_output, deref_pcb. repeat (apply wp_bind; try apply wp_gets). replace (pcb c1) with true by congruence. apply wp_ret.
  apply answer_spec. intros e He _. destruct (e =? ERR_OK) eqn:Ee; [apply wp_ret; exists c1; by split; [|left]|].
  apply wp_bind. eapply wp_mono; [apply close_func_spec; cbn; congruence|]. intros v c' Hs. apply wp_ret. exists c1. split; [done|right].
  split; [|by destruct Hs]. intros E. destruct (ha_willing _ _ Hh E) as [E' _]. by rewrite (He E') in Ee.
Qed.

(** *** The connection

    [w]: the bytes the application has written, [ids]: its requests, [t]: the
    bytes taken over from lwIP, [a]: how many bytes lwIP has reported as
    acknowledged. *)

Record uvl_ok (w : list Z) (ids : list nat) (t : list Z) (a : Z) (c : uvl_tcp) : Prop := {
  ok_queue : queue_ok (writes c);
  ok_ids : answered (cbs c) ++ map req_id (writes c) = ids;
  ok_room : 0 <= snd_buf c;
  ok_recv : blen (recv_buf c) <= UVL_TCP_RECV_BUF_LEN;
  ok_open : closed c = false -> pcb c = true /\ close_cb c = false /\ accepted c ++ todo (writes c) = w /\
    delivered (cbs c) ++ recv_buf c = t /\ blen (accepted c) = a + pending_sum (writes c);
  ok_shut : closed c = true -> accepted c `prefix_of` w /\ delivered (cbs c) `prefix_of` t /\ read_cb c = false;
  ok_closing : close_cb c = true -> writes c = [] }.

Definition wrote (e : uvl_event) : list Z := match e with EvWrite _ bufs => concat bufs | _ => [] end.
Definition requested (e : uvl_event) : list nat := match e with EvWrite id _ => [id] | _ => [] end.
Definition acked (e : uvl_event) : Z := match e with EvSent n => n | _ => 0 end.

(** what the application, lwIP and the event loop do: no write after the close,
    no more acknowledged than was handed over, callbacks of lwIP only while the
    connection is open, of the loop only after the handle was sent; a write of
    lwIP fails for lack of memory only *)
Definition allowed (c : uvl_tcp) (e : uvl_event) : Prop :=
  match e with
  | EvWrite _ bufs => close_cb c = false /\ writable bufs
  | EvWriteAsync l => write_req c = true /\ Forall mild l
  | EvSent n => closed c = false /\ 0 < n <= pending_sum (writes c)
  | EvRecv data => closed c = false /\ 0 < blen data
  | EvFin _ | EvErr => closed c = false
  | EvReadAsync => read_req c = true
  | EvReadStart | EvReadStop => True
  | EvClose _ => close_cb c = false
  | EvHandleClosed => close_cb c = true
  end.

Lemma cbs_delivered_app a b : delivered (a ++ b) = delivered a ++ delivered b.
Proof. unfold delivered. by rewrite map_app, concat_app. Qed.
Lemma answered_app a b : answered (a ++ b) = answered a ++ answered b.
Proof. unfold answered. by rewrite map_app, concat_app. Qed.
Lemma delivered_writes f (ws : list uvl_write_t) : delivered (map (fun r => WriteCb (req_id r) f) ws) = [].
Proof. unfold delivered. induction ws; cbn; [done|]. done. Qed.
Lemma answered_writes f (ws : list uvl_write_t) : answered (map (fun r => WriteCb (req_id r) f) ws) = map req_id ws.
Proof. unfold answered. induction ws as [|r ws IH]; cbn; [done|]. by rewrite IH. Qed.
Lemma eof_data (b : bool) s : delivered (if b then [ReadCb s []] else []) = [] /\ answered (if b then [ReadCb s []] else []) = [].
Proof. by destruct b. Qed.

Lemma shut_ok w ids t a c c' : closed c = false -> uvl_ok w ids t a c -> shut c c' -> uvl_ok w ids t a c'.
Proof.
  intros Hc [Q I R V O S C] [(S1 & S2 & S3) Hcb Hr _]. destruct (O Hc) as (_ & Hcl & Hf & Hd & _). injection Hr as Ew Ea Er Ec Eh Es.
  destruct (eof_data (read_cb c) UV_EOF) as [E1 E2].
  split; rewrite ?Ew, ?Ea, ?Er, ?Ec, ?Es, ?Hcb, ?answered_app, ?cbs_delivered_app, ?E1, ?E2, ?app_nil_r; try done; [congruence|].
  intros _. split_and!; [by exists (todo (writes c))|by exists (recv_buf c)|done].
Qed.

Lemma cancelled_ok w ids t a c c' : closed c = true -> uvl_ok w ids t a c ->
  writes c' = [] -> cbs c' = cbs c ++ map (fun r => WriteCb (req_id r) UV_ECANCELED) (writes c) ->
  (closed c', accepted c', recv_buf c', read_cb c', snd_buf c') = (closed c, accepted c, recv_buf c, read_cb c, snd_buf c) ->
  uvl_ok w ids t a c'.
Proof.
  intros Hc [Q I R V O S C] Hw Hcb Hr. injection Hr as Ec Ea Er Erd Es.
  split; rewrite ?Hw, ?Hcb, ?Ec, ?Ea, ?Er, ?Erd, ?Es, ?answered_app, ?cbs_delivered_app, ?delivered_writes, ?answered_writes, ?app_nil_r; try done.
  congruence.
Qed.

Lemma cancel_ok w ids t a c : closed c = true -> uvl_ok w ids t a c ->
  wp uvl_cancel_reqs (fun _ c' => uvl_ok w ids t a c' /\ closed c' = true /\ writes c' = []) c.
Proof.
  intros Hc Hok. eapply wp_mono; [apply cancel_spec|]. intros ? c' (Hw & Hr & Hcb & E).
  destruct (ok_shut _ _ _ _ _ Hok Hc) as (_ & _ & Hrd). rewrite Hrd, app_nil_r in Hcb. injection E as E1 E2 E3 E4 E5 E6 E7.
  split_and!; [|congruence|done]. eapply cancelled_ok; try done. by rewrite E1, E3, E4, E7, Hr, Hrd.
Qed.

(** *** The handlers *)

#[local] Arguments todo : simpl never.
#[local] Arguments pending_sum : simpl never.
#[local] Arguments delivered : simpl never.
#[local] Arguments answered : simpl never.

Lemma fresh_queue ws : Forall fresh ws -> queue_ok ws.
Proof. intros H. apply (queue_join []); [done|by apply fresh_rest]. Qed.
Lemma fresh_pending ws : Forall fresh ws -> pending_sum ws = 0.
Proof. induction 1 as [|r ws Hr _ IH]; [done|]. unfold pending_sum in *. cbn. destruct (fresh_ok _ Hr) as (_ & _ & _ & ->). lia. Qed.

Lemma pending_nonneg ws : queue_ok ws -> 0 <= pending_sum ws.
Proof.
  intros Hq%queue_reqs. induction Hq as [|r ws Hr _ IH]; [done|]. change (0 <= pending r + pending_sum ws). destruct (ro_pending _ Hr). lia.
Qed.

Lemma pop_spec ws : queue_ok ws ->
  queue_ok (drop (completed ws) ws) /\ todo (drop (completed ws) ws) = todo ws /\ pending_sum (drop (completed ws) ws) = pending_sum ws.
Proof.
  induction ws as [|r ws IH]; [done|]. intros [Hr Hq]. cbn [completed]. destruct (_ && _) eqn:E; [|done]. cbn [drop].
  apply andb_prop in E as [Et Ep]. apply Z.eqb_eq in Et, Ep.
  assert (Eu : unsent r = []) by (unfold unsent; rewrite Et, (ro_len _ Hr); apply drop_ge; unfold blen; lia).
  destruct (IH) as (Q & T & P). { destruct (_ <? _); [by apply fresh_queue|done]. }
  split_and!; [done| |].
  - rewrite T. unfold todo. cbn. by rewrite Eu.
  - rewrite P. unfold pending_sum. cbn. lia.
Qed.

Lemma subtract_none n ws : n <= 0 -> subtract n ws = Ok ws.
Proof. intros H. destruct ws; cbn; by rewrite (proj2 (Z.leb_le _ _)). Qed.

Lemma subtract_spec ws : forall n, queue_ok ws -> 0 <= n <= pending_sum ws ->
  exists ws', subtract n ws = Ok ws' /\ queue_ok ws' /\ todo ws' = todo ws /\ pending_sum ws' = pending_sum ws - n /\
    map req_id ws' = map req_id ws.
Proof.
  induction ws as [|r ws IH]; intros n Hq Hn.
  { change (pending_sum []) with 0 in Hn. assert (n = 0) as -> by lia. by exists []. }
  destruct (Z.leb_spec n 0) as [Hz|Hz].
  { rewrite subtract_none by done. assert (n = 0) as -> by lia. eexists. split_and!; [done..|lia|done]. }
  cbn [subtract]. rewrite (proj2 (Z.leb_gt _ _)) by done. destruct Hq as [Hr Hq]. pose proof (ro_pending _ Hr) as Hpe.
  set (k := Z.min (pending r) n). assert (Hr' : req_ok (r <| pending := pending r - k |>)) by (destruct Hr; split; cbn; try done; lia).
  assert (Hsum : pending_sum (r :: ws) = pending r + pending_sum ws) by done.
  assert (Hk : exists ws', subtract (n - k) ws = Ok ws' /\
    (if sent_bufs r <? send_nbufs r then Forall fresh ws' else queue_ok ws') /\ todo ws' = todo ws /\
    pending_sum ws' = pending_sum ws - (n - k) /\ map req_id ws' = map req_id ws).
  { destruct (sent_bufs r <? send_nbufs r).
    - rewrite (fresh_pending _ Hq) in *. rewrite subtract_none by lia. exists ws. split_and!; [done..| |done]. rewrite (fresh_pending _ Hq). lia.
    - pose proof (pending_nonneg ws Hq). apply IH; [done|lia]. }
  destruct Hk as (ws' & -> & Hq' & Ht & Hp & Hi). eexists. split_and!; [done|done| | |].
  - unfold todo in *. cbn. by rewrite Ht.
  - unfold pending_sum in *. cbn. rewrite Hp. lia.
  - cbn. by rewrite Hi.
Qed.

Lemma write_ok w ids t a c id bufs : uvl_ok w ids t a c -> allowed c (EvWrite id bufs) ->
  wp (uvl_step (EvWrite id bufs)) (fun x c' => uvl_ok (w ++ concat bufs) (ids ++ [id]) (t ++ x) a c') c.
Proof.
  intros [Q I R V O S C] [Hcl Hb]. unfold uvl_step, quietly, uvl_write. repeat (apply wp_bind; try apply wp_modify). apply wp_ret, wp_ret.
  rewrite app_nil_r. assert (Hf : fresh (new_req id bufs)) by done. destruct (fresh_ok _ Hf) as (Hr & Hs & Hu & Hp).
  assert (Ht : todo [new_req id bufs] = concat bufs) by (unfold todo; cbn; by rewrite Hu, app_nil_r).
  split; cbn; try done.
  - destruct (queue_split _ Q) as (dn & rest & -> & _ & Hd & Hrest). rewrite <- app_assoc. apply queue_join; [done|].
    destruct rest as [|r rest]; [done|]. destruct Hrest as (? & ? & ?). split_and!; [done|done|]. apply Forall_app. split; [done|by constructor].
  - rewrite map_app, <- I, <- app_assoc. done.
  - intros Hc. destruct (O Hc) as (? & ? & Hfl & ? & Hp'). split_and!; try done.
    + by rewrite todo_app, app_assoc, Hfl, Ht.
    + rewrite pending_app. change (pending_sum [new_req id bufs]) with 0. lia.
  - intros Hc. destruct (S Hc) as (Hpre & ? & ?). split_and!; [|done|done]. by apply prefix_app_r.
  - congruence.
Qed.

Lemma handed_ok w ids t a c c' : closed c = false -> uvl_ok w ids t a c -> handed c c' -> uvl_ok w ids t a c'.
Proof.
  intros Hc [Q I R V O S C] [K Q' F P I' Rm A W]. unfold kept in K. injection K as K1 K2 K3 K4 K5 K6 K7 K8 K9.
  destruct (O Hc) as (? & ? & Hf & ? & Hp).
  split; rewrite ?K1, ?K2, ?K3, ?K4, ?K5, ?K6; try done.
  - by rewrite I'.
  - lia.
  - intros _. split_and!; try done; [by rewrite F|lia].
  - congruence.
  - congruence.
Qed.

Lemma pop_ok w ids t a c : uvl_ok w ids t a c ->
  uvl_ok w ids t a (c <| cbs := cbs c ++ map (fun r => WriteCb (req_id r) 0) (take (completed (writes c)) (writes c)) |>
                      <| writes := drop (completed (writes c)) (writes c) |>).
Proof.
  intros [Q I R V O S C]. destruct (pop_spec _ Q) as (Pq & Pt & Pp). set (k := completed (writes c)) in *.
  split; cbn; rewrite ?cbs_delivered_app, ?delivered_writes, ?app_nil_r, ?Pt, ?Pp; try done.
  - rewrite answered_app, answered_writes, <- app_assoc, <- map_app, take_drop. done.
  - intros E. rewrite (C E). by destruct k.
Qed.

(** the application's requests that are done are answered, then lwIP gets more *)
Lemma write_async_spec w ids t a c : uvl_ok w ids t a c -> Forall mild (answers c) ->
  wp uvl_async_tcp_write_cb (fun _ c' => uvl_ok w ids t a c') c.
Proof.
  intros Hok Ha. unfold uvl_async_tcp_write_cb. apply wp_bind, wp_gets, wp_bind, wp_modify, wp_bind, wp_gets. cbn.
  destruct (pop_spec _ (ok_queue _ _ _ _ _ Hok)) as (Pq & Pt & Pp). set (k := completed (writes c)) in *. set (c1 := _ <| writes := _ |>).
  assert (Hok1 : uvl_ok w ids t a c1).
  { apply (pop_ok w ids t a) in Hok. by destruct Hok; split. }
  destruct (closed c) eqn:Hc; [eapply wp_mono; [by apply (cancel_ok w ids t a)|]; by intros ? ? (? & _)|].
  apply wp_bind, wp_gets. destruct (length (writes c1) =? 0)%nat eqn:El; [by apply wp_ret|]. apply Nat.eqb_neq in El.
  destruct (ok_open _ _ _ _ _ Hok1 Hc) as (Hp & _). eapply wp_mono; [apply imp_write_spec; try done|].
  - intros E. by rewrite E in El.
  - by apply (ok_room _ _ _ _ _ Hok1).
  - intros ? c' (c2 & Hh & Hc'). assert (Hc1 : closed c1 = false) by done. assert (Hok2 := handed_ok _ _ _ _ _ _ Hc1 Hok1 Hh).
    assert (Hc2 : closed c2 = false) by (pose proof (ha_kept _ _ Hh) as K; unfold kept in K; injection K; congruence).
    destruct Hc' as [->|[_ Hs]]; [|by eapply shut_ok]. by destruct Hok2; split.
Qed.

Lemma sent_ok w ids t a c n : uvl_ok w ids t a c -> allowed c (EvSent n) ->
  wp (uvl_step (EvSent n)) (fun x c' => uvl_ok w ids (t ++ x) (a + n) c') c.
Proof.
  intros [Q I R V O S C] [Hc Hn]. destruct (O Hc) as (Hp & Hcl & Hf & Hd & Ha).
  unfold uvl_step, quietly, uvl_client_sent_func. apply wp_bind, wp_bind, wp_modify, wp_bind, wp_gets. cbn. rewrite Hc. apply wp_bind, wp_ret.
  rewrite (proj2 (Z.ltb_lt _ _)) by lia. apply wp_bind, wp_ret, wp_bind, wp_modify, wp_bind, wp_gets. cbn.
  destruct (subtract_spec (writes c) n Q ltac:(lia)) as (ws & Es & Hq & Ht & Hps & Hi).
  apply wp_bind. eapply wp_lift; [exact Es|]. apply wp_bind, wp_modify, wp_ret, wp_ret. rewrite app_nil_r.
  split; cbn; try done; rewrite ?Hi, ?Ht, ?Hps; try done; try congruence; [lia|].
  intros _. split_and!; try done. lia.
Qed.

Lemma recv_ok w ids t a c data : uvl_ok w ids t a c -> allowed c (EvRecv data) ->
  wp (uvl_step (EvRecv data)) (fun x c' => uvl_ok w ids (t ++ x) a c' /\
    (blen (recv_buf c) + blen data <= UVL_TCP_RECV_BUF_LEN -> x = data)) c.
Proof.
  intros Hok [Hc Hn]. unfold uvl_step, uvl_client_recv_func. apply wp_bind, wp_bind, wp_gets. rewrite Hc. apply wp_bind, wp_ret.
  rewrite (proj2 (Z.ltb_lt _ _)) by lia. apply wp_bind, wp_ret, wp_bind, wp_gets.
  destruct (_ <? blen data) eqn:E.
  - apply Z.ltb_lt in E. apply wp_ret, wp_ret. change (ERR_MEM =? ERR_OK) with false. cbv iota. rewrite app_nil_r. split; [done|lia].
  - apply Z.ltb_ge in E. apply wp_bind, wp_modify, wp_bind, wp_modify, wp_ret, wp_ret. change (ERR_OK =? ERR_OK) with true. cbv iota.
    split; [|done]. destruct Hok as [Q I R V O S C]. destruct (O Hc) as (? & ? & ? & Hd & ?).
    split; cbn; try done; try congruence; [rewrite blen_app; lia|]. intros _. split_and!; try done. by rewrite app_assoc, Hd.
Qed.

Lemma read_async_ok w ids t a c : uvl_ok w ids t a c -> wp (uvl_step EvReadAsync) (fun x c' => uvl_ok w ids (t ++ x) a c') c.
Proof.
  intros [Q I R V O S C]. unfold uvl_step, quietly, uvl_async_tcp_read_cb, tcp_recved, deref_pcb, call.
  apply wp_bind, wp_bind, wp_modify, wp_bind, wp_gets. cbn. rewrite (proj2 (Z.leb_le _ _)) by done. apply wp_bind, wp_ret, wp_bind, wp_gets. cbn.
  unfold UVL_TCP_RECV_BUF_LEN, TCP_WND, TCP_MSS in V.
  destruct (read_cb c) eqn:Hr; cbn [negb]; [|apply wp_ret, wp_ret; rewrite app_nil_r; split; cbn; try done; by rewrite Hr].
  assert (Hc : closed c = false) by (destruct (closed c) eqn:E; [destruct (S eq_refl) as (_ & _ & ?); congruence|done]).
  destruct (O Hc) as (Hp & Hcl & Hf & Hd & Ha).
  destruct (0 <? blen (recv_buf c)) eqn:E; cbn [negb]; [|apply wp_ret, wp_ret; rewrite app_nil_r; split; cbn; try done; congruence].
  rewrite (proj2 (Z.ltb_ge _ _)) by lia. repeat (apply wp_bind; try apply wp_gets). cbn. rewrite Hp.
  apply wp_ret, wp_modify, wp_bind, wp_modify, wp_modify, wp_ret. rewrite app_nil_r. split; cbn; try done; try congruence.
  - by rewrite answered_app, app_nil_r.
  - intros _. split_and!; try done. rewrite cbs_delivered_app, app_nil_r. unfold delivered at 2. cbn. by rewrite app_nil_r.
Qed.

Lemma read_start_ok w ids t a c : uvl_ok w ids t a c -> wp (uvl_step EvReadStart) (fun x c' => uvl_ok w ids (t ++ x) a c') c.
Proof.
  intros Hok. unfold uvl_step, quietly, uvl_read_start, call. apply wp_bind, wp_bind, wp_gets.
  destruct (read_cb c) eqn:Hr; [apply wp_ret, wp_ret; by rewrite app_nil_r|]. apply wp_bind, wp_gets. destruct Hok as [Q I R V O S C].
  destruct (closed c) eqn:Hc.
  - apply wp_bind, wp_modify, wp_ret, wp_ret. rewrite app_nil_r. split; cbn; try done; try congruence.
    + by rewrite answered_app, app_nil_r.
    + intros _. destruct (S eq_refl) as (? & ? & ?). rewrite cbs_delivered_app, app_nil_r. done.
  - apply wp_bind, wp_modify, wp_bind, wp_modify, wp_ret, wp_ret. rewrite app_nil_r. split; cbn; try done; rewrite Hc; try done.
Qed.

Lemma close_ok w ids t a c l : uvl_ok w ids t a c -> wp (uvl_step (EvClose l)) (fun x c' => uvl_ok w ids (t ++ x) a c') c.
Proof.
  intros Hok. unfold uvl_step, quietly, answering, uvl_tcp_close. apply wp_bind, wp_bind, wp_modify, wp_bind, wp_gets. cbn.
  set (c0 := c <| answers := l |>). assert (Hok0 : uvl_ok w ids t a c0) by (by destruct Hok; split).
  assert (Hsh : wp (if closed c : bool then ret tt else let* _ := uvl_client_close_func in ret tt)
    (fun _ c' => uvl_ok w ids t a c' /\ closed c' = true) c0).
  { destruct (closed c) eqn:Hc; [by apply wp_ret|]. apply wp_bind. destruct (ok_open _ _ _ _ _ Hok Hc) as (Hp & _).
    eapply wp_mono; [by apply close_func_spec|]. intros v c1 Hs. apply wp_ret. split; [|by destruct Hs as [(? & _)]].
    by eapply shut_ok; [|exact Hok0|exact Hs]. }
  apply wp_bind. eapply wp_mono; [exact Hsh|]. intros ? c1 [Hok1 Hc1]. apply wp_bind. eapply wp_mono; [by apply cancel_ok|].
  intros ? c2 (Hok2 & Hc2 & Hw). apply wp_bind, wp_modify, wp_ret, wp_ret. rewrite app_nil_r.
  destruct Hok2 as [Q I R V O S C]. split; cbn; try done. congruence.
Qed.

Lemma handle_closed_ok w ids t a c : uvl_ok w ids t a c -> close_cb c = true ->
  wp (uvl_step EvHandleClosed) (fun x c' => uvl_ok w ids (t ++ x) a c') c.
Proof.
  intros [Q I R V O S C] Hcl. assert (Hc : closed c = true) by (destruct (closed c) eqn:E; [done|destruct (O eq_refl) as (_ & ? & _); congruence]).
  unfold uvl_step, quietly, uvl_tcp_close_handle_cb, call. apply wp_bind, wp_bind, wp_modify, wp_bind, wp_gets. cbn. rewrite (C Hcl) in *.
  destruct (negb _).
  - apply wp_ret, wp_ret. rewrite app_nil_r. split; cbn; rewrite ?(C Hcl); try done.
  - apply wp_bind, wp_modify, wp_modify, wp_ret. rewrite app_nil_r. split; cbn; rewrite ?answered_app, ?cbs_delivered_app, ?app_nil_r; try done; try congruence.
    + by rewrite <- I, app_nil_r.
    + intros _. by destruct (S Hc) as (? & ? & ?).
Qed.

Lemma uvl_step_ok w ids t a c e : uvl_ok w ids t a c -> allowed c e ->
  wp (uvl_step e) (fun x c' => uvl_ok (w ++ wrote e) (ids ++ requested e) (t ++ x) (a + acked e) c') c.
Proof.
  intros Hok Hall. destruct e; cbn [wrote requested acked]; rewrite ?app_nil_r, ?Z.add_0_r.
  - by apply write_ok.
  - destruct Hall as [_ Ha]. unfold uvl_step, quietly, answering. apply wp_bind, wp_bind, wp_modify, wp_bind, wp_modify.
    eapply wp_mono; [apply (write_async_spec w ids t a); [by destruct Hok; split|done]|]. intros ? c' ?. apply wp_ret. by rewrite app_nil_r.
  - by apply sent_ok.
  - eapply wp_mono; [by apply (recv_ok w ids t a)|]. by intros ? ? [? _].
  - destruct (ok_open _ _ _ _ _ Hok Hall) as (Hp & _). unfold uvl_step, quietly, answering, uvl_client_recv_func.
    apply wp_bind, wp_bind, wp_modify, wp_bind, wp_gets. cbn in Hall |- *. rewrite Hall. apply wp_bind, wp_ret.
    eapply wp_mono; [by apply close_func_spec|]. intros v c' Hs. apply wp_ret. rewrite app_nil_r.
    eapply (shut_ok _ _ _ _ (c <| answers := a0 |>)); [done| |done]. by destruct Hok; split.
  - unfold uvl_step, quietly, uvl_client_err_func. apply wp_bind. eapply wp_mono; [apply freed_spec|]. intros ? c' Hs. apply wp_ret.
    rewrite app_nil_r. by eapply shut_ok.
  - by apply read_async_ok.
  - by apply read_start_ok.
  - unfold uvl_step, quietly, uvl_read_stop. apply wp_bind, wp_bind, wp_modify, wp_ret, wp_ret. rewrite app_nil_r.
    destruct Hok as [Q I R V O S C]. split; cbn; try done. intros Hc. destruct (S Hc) as (? & ? & _). done.
  - by apply close_ok.
  - by apply handle_closed_ok.
Qed.

Fixpoint run_allowed (evs : list uvl_event) (c : uvl_tcp) : Prop :=
  match evs with
  | [] => True
  | e :: evs => allowed c e /\ match uvl_step e c with Ok (_, c') => run_allowed evs c' | Stop _ => True end
  end.

Definition all_written (evs : list uvl_event) : list Z := concat (map wrote evs).
Definition all_requested (evs : list uvl_event) : list nat := concat (map requested evs).
Definition all_acked (evs : list uvl_event) : Z := foldr (fun e n => acked e + n) 0 evs.

Lemma uvl_run_ok evs : forall w ids t a c, uvl_ok w ids t a c -> run_allowed evs c ->
  wp (uvl_run evs) (fun x c' => uvl_ok (w ++ all_written evs) (ids ++ all_requested evs) (t ++ x) (a + all_acked evs) c') c.
Proof.
  induction evs as [|e evs IH]; intros w ids t a c Hok Hall.
  { apply wp_ret. unfold all_written, all_requested, all_acked. cbn. by rewrite !app_nil_r, Z.add_0_r. }
  destruct Hall as [He Hall]. cbn [uvl_run]. apply wp_bind. pose proof (uvl_step_ok _ _ _ _ _ _ Hok He) as Hs.
  unfold wp in Hs |- * at 1. destruct (uvl_step e c) as [[x c1]|]; [|done]. apply wp_bind. eapply wp_mono; [by apply (IH _ _ _ _ _ Hs)|].
  intros xs c' Hok'. apply wp_ret. unfold all_written, all_requested, all_acked in *. cbn. by rewrite !app_assoc, Z.add_assoc.
Qed.

(** ** What a connection promises *)

(** [uvl_tcp_init] and [uvl_accept] on memory with any content *)
Definition accepted_client (junk : uvl_tcp) (local remote : sockaddr) (room : Z) : uvl_tcp :=
  match uvl_accept local remote room (uvl_tcp_init (junk <| cbs := [] |>)) with Ok (_, c) => c | Stop _ => junk end.

Lemma accepted_ok junk local remote room : 0 <= room -> uvl_ok [] [] [] 0 (accepted_client junk local remote room).
Proof. intros H. split; cbn; done. Qed.

(** C24. A connection carries bytes faithfully in both directions.  Whatever the
    application, lwIP and the loop do, no handler fails; lwIP gets the bytes of
    the writes in order, each once, and as long as the connection is open none
    is missing; every write is answered exactly once and in order; the
    application gets what lwIP received in order, the rest waits in a buffer of
    the size of the window; the bytes in flight are those of writes that have
    not been answered. *)
Theorem uvl_stream junk local remote room evs : 0 <= room ->
  run_allowed evs (accepted_client junk local remote room) ->
  exists got c, uvl_run evs (accepted_client junk local remote room) = Ok (got, c) /\
    accepted c `prefix_of` all_written evs /\
    answered (cbs c) ++ map req_id (writes c) = all_requested evs /\
    delivered (cbs c) `prefix_of` got /\ blen (recv_buf c) <= TCP_WND /\
    (closed c = false -> accepted c ++ todo (writes c) = all_written evs /\ delivered (cbs c) ++ recv_buf c = got /\
       blen (accepted c) = all_acked evs + pending_sum (writes c)).
Proof.
  intros Hr Hall. pose proof (uvl_run_ok evs [] [] [] 0 _ (accepted_ok junk local remote room Hr) Hall) as H.
  apply wp_run in H as (got & c & E & [Q I R V O S C]). exists got, c. cbn [app] in *. rewrite Z.add_0_l in O.
  destruct (closed c) eqn:Hc.
  - destruct (S eq_refl) as (? & ? & _). by split_and!.
  - destruct (O eq_refl) as (_ & _ & Hf & Hd & Ha). split_and!; try done; [by rewrite <- Hf; apply prefix_app_r|by rewrite <- Hd; apply prefix_app_r].
Qed.

(** *** Progress *)

Lemma all_completed ws : queue_ok ws -> todo ws = [] -> pending_sum ws = 0 -> completed ws = length ws.
Proof.
  induction ws as [|r ws IH]; [done|]. intros [Hr Hq] Ht Hp. cbn [completed length].
  assert (Hq' : queue_ok ws) by (destruct (_ <? _); [by apply fresh_queue|done]).
  pose proof (pending_nonneg ws Hq'). destruct (ro_pending _ Hr). change (pending r + pending_sum ws = 0) in Hp.
  unfold todo in Ht. cbn in Ht. apply app_eq_nil in Ht as [Hu Ht]. destruct (total_bound r Hr). pose proof (ro_sent _ Hr).
  assert (total_sent r = total_len r).
  { rewrite (ro_len _ Hr) in *. apply (f_equal (@length Z)) in Hu. unfold unsent, blen in *. rewrite length_drop in Hu. cbn in Hu. lia. }
  rewrite !(proj2 (Z.eqb_eq _ _)) by lia. cbn. f_equal. apply IH; [done|done|lia].
Qed.

Lemma write_async_room w ids t a c : uvl_ok w ids t a c -> closed c = false -> blen (todo (writes c)) <= snd_buf c ->
  let k := completed (writes c) in
  wp (uvl_step (EvWriteAsync [])) (fun _ c' => uvl_ok w ids t a c' /\ closed c' = false /\ todo (writes c') = [] /\
    cbs c' = cbs c ++ map (fun r => WriteCb (req_id r) 0) (take k (writes c)) /\
    map req_id (writes c') = map req_id (drop k (writes c)) /\ pending_sum (writes c') = pending_sum (writes c) + blen (todo (writes c))) c.
Proof.
  intros Hok Hc Hroom k. destruct (pop_spec _ (ok_queue _ _ _ _ _ Hok)) as (Pq & Pt & Pp). fold k in Pq, Pt, Pp.
  unfold uvl_step, quietly, answering, uvl_async_tcp_write_cb.
  apply wp_bind, wp_bind, wp_modify, wp_bind, wp_modify, wp_bind, wp_gets, wp_bind, wp_modify, wp_bind, wp_gets. cbn. fold k. rewrite Hc.
  set (c1 := _ <| writes := _ |>). assert (Hok1 : uvl_ok w ids t a c1).
  { apply (pop_ok w ids t a) in Hok. by destruct Hok; split. }
  apply wp_bind, wp_gets. destruct (length (writes c1) =? 0)%nat eqn:El.
  { apply wp_ret, wp_ret. apply Nat.eqb_eq, nil_length_inv in El. cbn in El. rewrite <- Pp, <- Pt.
    split_and!; cbn; rewrite ?El; done. }
  apply Nat.eqb_neq in El. destruct (ok_open _ _ _ _ _ Hok1 Hc) as (Hp & _). eapply wp_mono; [apply imp_write_spec; try done|].
  - intros E. by rewrite E in El.
  - by apply (ok_room _ _ _ _ _ Hok1).
  - intros ? c' (c2 & Hh & [->|[? _]]); [|done]. apply wp_ret. assert (Hc1 : closed c1 = false) by done.
    assert (Hok2 := handed_ok _ _ _ _ _ _ Hc1 Hok1 Hh). destruct Hh as [K Q F P I R A W]. destruct (W eq_refl) as [Wa Wt].
    unfold kept in K. injection K as K1 K2 K3 K4 K5 K6 K7 K8 K9.
    apply (f_equal blen) in F. rewrite !blen_app in F. cbn in F, R, P, I. rewrite Pt in F. rewrite Pp in P.
    pose proof (blen_nonneg (todo (writes c2))).
    assert (Ht : todo (writes c2) = []). { destruct Wt as [E|E]; [|done]. apply nil_length_inv. unfold blen in *. lia. }
    rewrite Ht in F. change (blen []) with 0 in F. split_and!; cbn; try done; try lia; [by destruct Hok2; split|congruence].
Qed.

Lemma sent_exact w ids t a c n : uvl_ok w ids t a c -> closed c = false -> 0 < n <= pending_sum (writes c) ->
  wp (uvl_step (EvSent n)) (fun _ c' => uvl_ok w ids t (a + n) c' /\ closed c' = false /\ todo (writes c') = todo (writes c) /\
    cbs c' = cbs c /\ map req_id (writes c') = map req_id (writes c) /\ pending_sum (writes c') = pending_sum (writes c) - n) c.
Proof.
  intros Hok Hc Hn. pose proof (sent_ok w ids t a c n Hok (conj Hc Hn)) as Hw. apply wp_run in Hw as (x & c' & E & Hok').
  destruct (subtract_spec (writes c) n (ok_queue _ _ _ _ _ Hok) ltac:(lia)) as (ws & Es & _ & Ht & Hps & Hi).
  revert E. unfold uvl_step, quietly, uvl_client_sent_func, wp, bind, modify, gets, ret, lift. cbn. rewrite Hc. cbn.
  rewrite (proj2 (Z.ltb_lt _ _)) by lia. cbn. rewrite Es. intros [= <- <-]. rewrite app_nil_r in Hok'. split_and!; done.
Qed.

Lemma sent_request c n x c' : uvl_step (EvSent n) c = Ok (x, c') -> write_req c' = true.
Proof.
  unfold uvl_step, quietly, uvl_client_sent_func, bind, modify, gets, ret, lift. cbn. destruct (closed c); [done|]. cbn. destruct (0 <? n); [|done]. cbn.
  destruct (subtract n (writes c)); [|done]. by intros [= <- <-].
Qed.

Lemma write_cbs s ws : map (fun r => WriteCb (req_id r) s) ws = map (fun i => WriteCb i s) (map req_id ws).
Proof. by rewrite map_map. Qed.

Lemma quietly_nil {A} (m : U A) c x c' : quietly m c = Ok (x, c') -> x = [].
Proof. unfold quietly, bind, ret. destruct (m c) as [[v c1]|]; [|done]. by intros [= <- <-]. Qed.

(** the application closes a connection it does not read from: the waiting
    writes are cancelled *)
Lemma tcp_close_spec w ids t a c : uvl_ok w ids t a c -> read_cb c = false ->
  wp uvl_tcp_close (fun r c' => r = 0 /\ uvl_ok w ids t a c' /\ closed c' = true /\ writes c' = [] /\ read_cb c' = false /\
    read_req c' = false /\ write_req c' = false /\ cbs c' = cbs c ++ map (fun q => WriteCb (req_id q) UV_ECANCELED) (writes c)) c.
Proof.
  intros Hok Hrd. unfold uvl_tcp_close. apply wp_bind, wp_gets.
  assert (Hsh : wp (if closed c : bool then ret tt else let* _ := uvl_client_close_func in ret tt)
    (fun _ c' => uvl_ok w ids t a c' /\ closed c' = true /\ read_cb c' = false /\ writes c' = writes c /\ cbs c' = cbs c) c).
  { destruct (closed c) eqn:Hc; [by apply wp_ret|]. apply wp_bind. destruct (ok_open _ _ _ _ _ Hok Hc) as (Hp & _).
    eapply wp_mono; [by apply close_func_spec|]. intros v c1 Hs. apply wp_ret. assert (Hok1 := shut_ok _ _ _ _ _ _ Hc Hok Hs).
    destruct Hs as [(S1 & S2 & S3) Hcb Hr _]. rewrite Hrd, app_nil_r in Hcb. injection Hr as Ew _ _ _ _ _. by split_and!. }
  apply wp_bind. eapply wp_mono; [exact Hsh|]. intros ? c1 (Hok1 & Hc1 & Hr1 & Hw1 & Hcb1). apply wp_bind.
  pose proof (cancel_ok _ _ _ _ _ Hc1 Hok1) as H1. pose proof (cancel_spec c1) as H2.
  unfold wp in H1, H2 |- * at 1. destruct (uvl_cancel_reqs c1) as [[u c2]|]; [|done].
  destruct H1 as (Hok2 & Hc2 & Hw2), H2 as (_ & Hr2 & Hcb2 & _). rewrite Hr1, app_nil_r, Hw1, Hcb1 in Hcb2.
  apply wp_bind, wp_modify, wp_ret. split_and!; try done. destruct Hok2 as [Q I R V O S C]. split; cbn; try done. congruence.
Qed.

(** *** The callbacks an event causes *)

Definition is_write_cb (cb : uvl_cb) : Prop := match cb with WriteCb _ _ => True | _ => False end.
(** events of lwIP and of the loop while the connection was not closed by the
    application *)
Definition lwip_side (e : uvl_event) : bool :=
  match e with EvWrite _ _ | EvReadStart | EvReadStop | EvClose _ => false | _ => true end.

(** answers to writes, then at most one callback of the reader: data, with the
    connection open, or its end; [ws] succeed while it is open *)
Record effect (c c' : uvl_tcp) (ws rs : list uvl_cb) : Prop := {
  ef_cbs : cbs c' = cbs c ++ ws ++ rs;
  ef_close : close_cb c' = close_cb c;
  ef_writes : Forall is_write_cb ws;
  ef_done : closed c' = false -> closed c = false /\ Forall (fun cb => exists i, cb = WriteCb i 0) ws;
  ef_reads : match rs with
    | [] => (closed c' = false -> read_cb c' = read_cb c) /\ (closed c' = true -> read_cb c = false)
    | [ReadCb n d] => read_cb c = true /\
        (n = blen d /\ 0 < n /\ read_cb c' = true /\ closed c' = false \/ n = UV_EOF /\ d = [] /\ closed c' = true)
    | _ => False
    end }.

Lemma quiet_effect c c' : cbs c' = cbs c -> close_cb c' = close_cb c -> closed c' = closed c -> read_cb c' = read_cb c ->
  (closed c = true -> read_cb c = false) -> effect c c' [] [].
Proof. intros E1 E2 E3 E4 H. split; cbn; rewrite ?app_nil_r; try done; rewrite ?E3, ?E4; done. Qed.

Lemma shut_effect c0 c c' : closed c = false -> closed c0 = false -> cbs c = cbs c0 -> close_cb c = close_cb c0 -> read_cb c = read_cb c0 -> shut c c' ->
  exists rs, effect c0 c' [] rs.
Proof.
  intros Hc Hc0 E1 E2 E3 [(S1 & S2 & S3) Hcb Hr _]. injection Hr as Ew Ea Er Ec Eh Es. rewrite E1, E3 in Hcb.
  exists (if read_cb c0 then [ReadCb UV_EOF []] else []). split; cbn; try done; try congruence.
  destruct (read_cb c0) eqn:E; [split; [done|]; by right|]. split; congruence.
Qed.

Lemma write_async_effect w ids t a c c' l x : uvl_ok w ids t a c -> Forall mild l -> close_cb c = false ->
  uvl_step (EvWriteAsync l) c = Ok (x, c') -> exists ws rs, effect c c' ws rs.
Proof.
  intros Hok Hm Hcl E. enough (Hw : wp (uvl_step (EvWriteAsync l)) (fun _ c' => exists ws rs, effect c c' ws rs) c) by (unfold wp in Hw; by rewrite E in Hw).
  clear E c' x. unfold uvl_step, quietly, answering, uvl_async_tcp_write_cb.
  apply wp_bind, wp_bind, wp_modify, wp_bind, wp_modify, wp_bind, wp_gets, wp_bind, wp_modify, wp_bind, wp_gets. cbn.
  set (ws := map (fun r => WriteCb (req_id r) 0) (take (completed (writes c)) (writes c))). set (c1 := _ <| writes := _ |>).
  assert (Hok1 : uvl_ok w ids t a c1) by (apply (pop_ok w ids t a) in Hok; by destruct Hok; split).
  assert (Hws : Forall (fun cb => exists i, cb = WriteCb i 0) ws) by (apply Forall_forall; intros cb (r & <- & _)%in_map_iff; by exists (req_id r)).
  assert (Hww : Forall is_write_cb ws) by (eapply Forall_impl; [|exact Hws]; by intros ? [i ->]).
  destruct (closed c) eqn:Hc.
  - destruct (ok_shut _ _ _ _ _ Hok Hc) as (_ & _ & Hrd). eapply wp_mono; [apply cancel_spec|]. intros ? c' (Hw & Hr & Hcb & Hre).
    apply wp_ret. cbn in Hcb. rewrite Hrd, app_nil_r in Hcb. injection Hre as E1 E2 E3 E4 E5 E6 E7.
    exists (ws ++ map (fun r => WriteCb (req_id r) UV_ECANCELED) (writes c1)), []. split; cbn; try done.
    + by rewrite Hcb, app_nil_r, app_assoc.
    + apply Forall_app. split; [done|]. apply Forall_forall. by intros cb (r & <- & _)%in_map_iff.
    + rewrite E1. cbn. congruence.
    + split; [|done]. rewrite E1. cbn. congruence.
  - apply wp_bind, wp_gets. destruct (length (writes c1) =? 0)%nat eqn:El.
    { apply wp_ret, wp_ret. exists ws, []. split; cbn; try done; rewrite ?app_nil_r; try done; rewrite ?Hc; done. }
    apply Nat.eqb_neq in El. destruct (ok_open _ _ _ _ _ Hok1 Hc) as (Hp & _). eapply wp_mono; [apply imp_write_spec; try done|].
    + by apply (ok_queue _ _ _ _ _ Hok1).
    + intros E. by rewrite E in El.
    + by apply (ok_room _ _ _ _ _ Hok1).
    + intros ? c' (c2 & Hh & Hc'). apply wp_ret. pose proof (ha_kept _ _ Hh) as K. unfold kept in K. injection K as K1 K2 K3 K4 K5 K6 K7 K8 K9. cbn in K1, K3, K5, K6.
      destruct Hc' as [->|[_ Hs]].
      * exists ws, []. split; cbn; try done; rewrite ?app_nil_r; try done; try congruence. rewrite K1, Hc. done.
      * destruct (shut_effect c2 c2 c') as [rs [F1 F2 F3 F4 F5]]; try done; try congruence. exists ws, rs.
        destruct Hs as [(S1 & S2 & S3) _ _ _]. split; try done; try congruence; [by rewrite F1, K3, <- app_assoc|].
        destruct rs as [|[] [|]]; cbn in *; try done; rewrite ?K5 in F5; try done.
Qed.

(** every event of lwIP and the loop, before the application closes *)
Lemma lwip_effect w ids t a c c' e x : uvl_ok w ids t a c -> allowed c e -> lwip_side e = true -> close_cb c = false ->
  uvl_step e c = Ok (x, c') -> exists ws rs, effect c c' ws rs.
Proof.
  intros Hok Hall Hside Hcl E.
  assert (Hcr : closed c = true -> read_cb c = false) by (intros Hc; by destruct (ok_shut _ _ _ _ _ Hok Hc) as (_ & _ & ?)).
  destruct e as [| l | n | d | l | | | | | |]; try done.
  - destruct Hall as [_ Hm]. by eapply write_async_effect.
  - destruct Hall as [Hc Hn]. exists [], []. pose proof (sent_exact w ids t a c n Hok Hc Hn) as Hs. unfold wp in Hs. rewrite E in Hs.
    destruct Hs as (_ & Hc' & _ & Hcb & _). apply quiet_effect; try done; try congruence.
    all: revert E; unfold uvl_step, quietly, uvl_client_sent_func, bind, modify, gets, ret, lift; cbn; rewrite Hc; cbn;
      destruct (0 <? n); cbn; [|done]; destruct (subtract n (writes c)); [|done]; by intros [= <- <-].
  - destruct Hall as [Hc Hn]. exists [], []. revert E. unfold uvl_step, uvl_client_recv_func, bind, modify, gets, ret, lift. cbn. rewrite Hc. cbn.
    destruct (0 <? blen d); cbn; [|done]. destruct (_ <? blen d); cbn; intros [= <- <-]; by apply quiet_effect.
  - destruct (ok_open _ _ _ _ _ Hok Hall) as (Hp & _). cbn in Hall. exists [].
    assert (Hs : wp (uvl_step (EvFin l)) (fun _ c' => exists rs, effect c c' [] rs) c).
    { unfold uvl_step, quietly, answering, uvl_client_recv_func. apply wp_bind, wp_bind, wp_modify, wp_bind, wp_gets. cbn. rewrite Hall.
      apply wp_bind, wp_ret. eapply wp_mono; [by apply close_func_spec|]. intros v c1 Hs. apply wp_ret. by eapply shut_effect; [..|exact Hs]. }
    unfold wp in Hs. by rewrite E in Hs.
  - cbn in Hall. exists []. assert (Hs : wp (uvl_step EvErr) (fun _ c' => exists rs, effect c c' [] rs) c).
    { unfold uvl_step, quietly, uvl_client_err_func. apply wp_bind. eapply wp_mono; [apply freed_spec|]. intros v c1 Hs. apply wp_ret.
      by eapply shut_effect; [..|exact Hs]. }
    unfold wp in Hs. by rewrite E in Hs.
  - revert E. unfold uvl_step, quietly, uvl_async_tcp_read_cb, tcp_recved, deref_pcb, call, bind, modify, gets, ret. cbn.
    pose proof (ok_recv _ _ _ _ _ Hok) as V. rewrite (proj2 (Z.leb_le _ _)) by done. cbn. destruct (read_cb c) eqn:Hr; cbn.
    2: { intros [= <- <-]. exists [], []. apply quiet_effect; cbn; congruence. }
    assert (Hc : closed c = false) by (destruct (closed c); [by specialize (Hcr eq_refl)|done]).
    destruct (0 <? blen (recv_buf c)) eqn:E; cbn; [|intros [= <- <-]; exists [], []; apply quiet_effect; cbn; congruence].
    destruct (ok_open _ _ _ _ _ Hok Hc) as (Hp & _). unfold UVL_TCP_RECV_BUF_LEN, TCP_WND, TCP_MSS in V.
    rewrite (proj2 (Z.ltb_ge _ _)) by lia. cbn. rewrite Hp. cbn. intros [= <- <-]. apply Z.ltb_lt in E.
    exists [], [ReadCb (blen (recv_buf c)) (recv_buf c)]. split; cbn; try done; try congruence. split; [done|]. left. by split_and!.
  - cbn in Hall. congruence.
Qed.

(** Writes complete: when lwIP has room for what is waiting and takes it,
    and then reports everything as acknowledged, every waiting write is answered
    with success, in order, and nothing is left. *)
Theorem uvl_writes_complete w ids t a c n : uvl_ok w ids t a c -> closed c = false ->
  blen (todo (writes c)) <= snd_buf c -> n = pending_sum (writes c) + blen (todo (writes c)) -> 0 < n ->
  exists c', uvl_run [EvWriteAsync []; EvSent n; EvWriteAsync []] c = Ok ([], c') /\
    writes c' = [] /\ closed c' = false /\ blen (accepted c') = a + n /\
    cbs c' = cbs c ++ map (fun r => WriteCb (req_id r) 0) (writes c).
Proof.
  intros Hok Hc Hroom En Hn. destruct (proj1 (wp_run _ _ _) (write_async_room w ids t a c Hok Hc Hroom)) as (x1 & c1 & E1 & Hok1 & Hc1 & Ht1 & Hcb1 & Hi1 & Hp1).
  destruct (proj1 (wp_run _ _ _) (sent_exact w ids t a c1 n Hok1 Hc1 ltac:(lia))) as (x2 & c2 & E2 & Hok2 & Hc2 & Ht2 & Hcb2 & Hi2 & Hp2).
  rewrite Ht1 in Ht2. assert (Hp20 : pending_sum (writes c2) = 0) by lia.
  assert (Hroom2 : blen (todo (writes c2)) <= snd_buf c2) by (rewrite Ht2; apply (ok_room _ _ _ _ _ Hok2)).
  assert (Hall := all_completed _ (ok_queue _ _ _ _ _ Hok2) Ht2 Hp20).
  destruct (proj1 (wp_run _ _ _) (write_async_room w ids t (a + n) c2 Hok2 Hc2 Hroom2)) as (x3 & c3 & E3 & Hok3 & Hc3 & Ht3 & Hcb3 & Hi3 & Hp3).
  rewrite Hall, drop_all in Hi3. apply map_eq_nil in Hi3. rewrite Hall, firstn_all in Hcb3.
  exists c3. assert (x1 = [] /\ x2 = [] /\ x3 = []) as (-> & -> & ->) by (split_and!; by eapply quietly_nil).
  split_and!; [by cbn [uvl_run]; unfold bind; rewrite E1, E2, E3|done|done| |].
  - destruct (ok_open _ _ _ _ _ Hok3 Hc3) as (_ & _ & _ & _ & Hb). rewrite Hi3 in Hb. change (pending_sum []) with 0 in Hb. lia.
  - rewrite Hcb3, Hcb2, Hcb1, <- app_assoc. f_equal. by rewrite !write_cbs, Hi2, Hi1, <- map_app, <- map_app, take_drop.
Qed.

(** ** Witnesses *)

Definition blank_client : uvl_tcp :=
  mkUvl [] [] false false false false 0 false false 0 0 nowhere nowhere 0 [] 0 [] [].
Definition sample_client : uvl_tcp := accepted_client blank_client (mkSockaddr [93; 184; 216; 34] 80) (mkSockaddr [10; 13; 0; 2] 50000) 4.
Definition sample_traffic : list uvl_event :=
  [EvReadStart; EvWrite 1 [[1; 2; 3]; [4]]; EvWrite 2 [[5; 6]]; EvWriteAsync []; EvRecv [7; 8]; EvReadAsync; EvSent 3; EvWriteAsync [ERR_MEM];
   EvSent 1; EvWriteAsync []; EvFin []; EvClose []; EvHandleClosed; EvHandleClosed].

Lemma uvl_stream_witness : exists got c, uvl_run sample_traffic sample_client = Ok (got, c) /\
    accepted c `prefix_of` all_written sample_traffic /\
    answered (cbs c) ++ map req_id (writes c) = all_requested sample_traffic /\
    delivered (cbs c) `prefix_of` got /\ blen (recv_buf c) <= TCP_WND /\
    (closed c = false -> accepted c ++ todo (writes c) = all_written sample_traffic /\ delivered (cbs c) ++ recv_buf c = got /\
       blen (accepted c) = all_acked sample_traffic + pending_sum (writes c)).
Proof.
  apply (uvl_stream blank_client (mkSockaddr [93; 184; 216; 34] 80) (mkSockaddr [10; 13; 0; 2] 50000) 4 sample_traffic); [done|].
  vm_compute. repeat match goal with
    | |- _ /\ _ => split
    | |- Forall _ _ => constructor
    | |- _ \/ _ => first [by left|by right]
    | |- _ => done
    end.
Defined.

Lemma writes_complete_witness :
  exists c', uvl_run [EvWriteAsync []; EvSent 3; EvWriteAsync []] (sample_client <| writes := [new_req 1 [[1; 2]; [3]]; new_req 2 [[]]] |>) = Ok ([], c') /\
    writes c' = [] /\ closed c' = false /\ blen (accepted c') = 0 + 3 /\ cbs c' = [WriteCb 1 0; WriteCb 2 0].
Proof.
  apply (uvl_writes_complete [1; 2; 3] [1%nat; 2%nat] [] 0); try done.
  split; try done. cbn. split; [split; try done|]. constructor; [|done]. by split.
Defined.

(** Bytes that arrive together with the end of the stream are lost: the close
    is reported to the application before the bytes that wait for it. *)
Theorem fin_loses_data :
  match uvl_run [EvReadStart; EvReadAsync; EvRecv [1; 2; 3]; EvFin []; EvReadAsync] sample_client with
  | Ok (got, c) => got = [1; 2; 3] /\ cbs c = [ReadCb UV_EOF []] /\ recv_buf c = [1; 2; 3]
  | Stop _ => False
  end.
Proof. by vm_compute. Qed.

(** A failing [tcp_write] that closes the connection is followed by a call of
    lwIP with the null pointer the close has left: the caller tests for -1, which
    the close never returns. *)
Theorem write_failure_stops : uvl_run [EvWrite 1 [[1]]; EvWriteAsync [-11]] sample_client = Stop NullDeref.
Proof. reflexivity. Qed.
