(* ===== verification/Gateway.v ===== *)
(** * The gateway's connections: gateway.cpp, uv_lwip.hpp, the TCP side of the
    proxies

    A connection the console opens through the gateway ends in the TCP/IP stack
    of the relay ([IConnection] over [uvl_tcp]); [TcpConnection] ties it to a
    connection of a proxy ([IProxyTcp]), direct or through a SOCKS5 server, and
    copies bytes both ways, one block at a time.  The socket of the proxy is
    seen through the calls made on it and the events of the event loop; its
    record [handle] keeps what the loop knows of it. *)

From stdpp Require Import base numbers list gmap strings.
From Stdlib Require Import Ascii.
From S2P Require Import Prelude Bytes Text Proxy Uvl.
Local Open Scope Z_scope.

(** ** The interface of a proxy *)

(** calls on the socket *)
Inductive pact := PConnect (a : sockaddr) | PRead | PStop | PWrite (data : list Z) | PClose.
(** its events *)
Inductive hevent := HConnected | HData (data : list Z) | HWritten | HEnd | HError (code : Z).
(** the callbacks of [IProxyTcp] *)
Inductive pcallback := OnConnect | OnData (data : list Z) | OnWrite | OnClose (code : Z).

Class IProxyTcp (P : Type) := {
  pt_connect : sockaddr -> P -> P * list pact;
  pt_stop : P -> outcome (list pact);
  pt_read : P -> outcome (list pact);
  pt_write : list Z -> P -> outcome (list pact);
  pt_close : P -> outcome (list pact);
  pt_event : hevent -> P -> P * list pact * list pcallback
}.

(** *** Direct: everything is passed on *)
Inductive DirectProxyTcp := mkDirectTcp.
Definition direct_connect (a : sockaddr) (p : DirectProxyTcp) : DirectProxyTcp * list pact := (p, [PConnect a]).
Definition direct_event (e : hevent) (p : DirectProxyTcp) : DirectProxyTcp * list pact * list pcallback :=
  (p, [], match e with
    | HConnected => [OnConnect] | HData d => [OnData d] | HWritten => [OnWrite] | HEnd => [OnClose 0] | HError c => [OnClose c]
    end).
#[export] Instance DirectTcp : IProxyTcp DirectProxyTcp := {|
  pt_connect := direct_connect;
  pt_stop _ := Ok [PStop];
  pt_read _ := Ok [PRead];
  pt_write d _ := Ok [PWrite d];
  pt_close _ := Ok [PClose];
  pt_event := direct_event
|}.

(** *** Through a SOCKS5 server: the handshake first; [tcp] is null until it is
    through *)
Record Socks5ProxyTcp := mkSocks5Tcp { st_tcp : bool; st_protocol : Socks5Protocol }.
Section Socks5Tcp.
Context (junk : nat -> Z) (server : sockaddr).

Definition socks5_tcp_new : Socks5ProxyTcp := mkSocks5Tcp false (mkSocks Dialing Connect nowhere).
Definition socks5_connect (a : sockaddr) (p : Socks5ProxyTcp) : Socks5ProxyTcp * list pact :=
  (mkSocks5Tcp (st_tcp p) (mkSocks Dialing Connect a), [PConnect server]).
Definition on_tcp (l : list pact) (p : Socks5ProxyTcp) : outcome (list pact) := if st_tcp p then Ok l else Stop NullDeref.

Definition socks_pact (a : sact) : list pact :=
  match a with SRead => [PRead] | SWrite d => [PWrite d] | SStop => [PStop] | SClose => [PClose] | _ => [] end.
Definition socks_cb (a : sact) : list pcallback := match a with SReady => [OnConnect] | _ => [] end.

Definition socks5_tcp_event (e : hevent) (p : Socks5ProxyTcp) : Socks5ProxyTcp * list pact * list pcallback :=
  if st_tcp p then
    (p, [], match e with
      | HConnected => [] | HData d => [OnData d] | HWritten => [OnWrite] | HEnd => [OnClose 0] | HError c => [OnClose c]
      end)
  else
    let '(sp, acts) := match e with
      | HConnected => socks_connected junk (st_protocol p)
      | HData d => socks_data junk d (st_protocol p)
      | _ => (st_protocol p, [])
      end in
    (mkSocks5Tcp (existsb is_ready acts) sp, concat (map socks_pact acts), concat (map socks_cb acts)).
End Socks5Tcp.
#[export] Instance Socks5Tcp (junk : nat -> Z) (server : sockaddr) : IProxyTcp Socks5ProxyTcp := {|
  pt_connect := socks5_connect server;
  pt_stop := on_tcp [PStop];
  pt_read := on_tcp [PRead];
  pt_write d := on_tcp [PWrite d];
  pt_close := on_tcp [PClose];
  pt_event := socks5_tcp_event junk
|}.

(** ** The socket of a proxy, as the event loop sees it *)

(** [h_writes]: writes not yet reported; [h_twice]: reading was started while
    it was on *)
Record handle := mkHandle { h_reading : bool; h_writes : nat; h_closed : bool; h_twice : bool }.
Definition handle_act (h : handle) (a : pact) : handle :=
  match a with
  | PConnect _ => h
  | PRead => mkHandle true (h_writes h) (h_closed h) (h_twice h || h_reading h)
  | PStop => mkHandle false (h_writes h) (h_closed h) (h_twice h)
  | PWrite _ => mkHandle (h_reading h) (S (h_writes h)) (h_closed h) (h_twice h)
  | PClose => mkHandle false (h_writes h) true (h_twice h)
  end.
Definition handle_event (e : hevent) (h : handle) : handle :=
  match e with HWritten => mkHandle (h_reading h) (pred (h_writes h)) (h_closed h) (h_twice h) | _ => h end.

(** ** A connection *)

(** [seen]: the callbacks of [client] that were made; [linked]: [onConnect] has
    run; [closing] is [TcpConnection]'s, [i_closing] that of [IConnection];
    [plog]: the calls [TcpConnection] made on the socket, [hlog]: those of the
    proxy itself *)
Record conn (P : Type) := mkConn {
  client : uvl_tcp; seen : nat; next_req : nat; i_closing : bool; closing : bool; linked : bool;
  ptcp : P; plog : list pact; hlog : list pact; hstate : handle }.
Arguments mkConn {P}. Arguments client {P}. Arguments seen {P}. Arguments next_req {P}. Arguments i_closing {P}. Arguments closing {P}.
Arguments linked {P}. Arguments ptcp {P}. Arguments plog {P}. Arguments hlog {P}. Arguments hstate {P}.
#[global] Instance eta_conn {P} : Eta (conn P) := fun s =>
  mkConn (client s) (seen s) (next_req s) (i_closing s) (closing s) (linked s) (ptcp s) (plog s) (hlog s) (hstate s).

Section Connection.
Context {P : Type} `{!IProxyTcp P}.
Abbreviation C := (SE (conn P)).

Definition on_uvl {A} (m : U A) : C A :=
  fun s => match m (client s) with Ok (a, c) => Ok (a, s <| client := c |>) | Stop f => Stop f end.
Definition RT_ASSERT (b : bool) : C unit := if b then ret tt else stop Exited.
Definition proxy_op (f : P -> outcome (list pact)) : C unit :=
  let* p := gets ptcp in
  let? l := f p in
  modify (fun s => s <| plog := plog s ++ l |> <| hstate := fold_left handle_act l (hstate s) |>).

(** *** [IConnection] *)

Definition i_write (data : list Z) : C unit :=
  let* id := gets next_req in
  modify (fun s => s <| next_req := S id |>) ;;;
  let* _ := on_uvl (uvl_write id [data]) in ret tt.
Definition i_read : C unit := let* r := on_uvl uvl_read_start in RT_ASSERT (r =? 0).
Definition i_stop : C unit := let* r := on_uvl uvl_read_stop in RT_ASSERT (r =? 0).
Definition i_close : C unit :=
  let* b := gets i_closing in
  if b : bool then ret tt else
  modify (fun s => s <| i_closing := true |>) ;;;
  let* r := on_uvl uvl_tcp_close in RT_ASSERT (r =? 0).

(** *** [TcpConnection] *)

Definition kill : C unit :=
  let* b := gets closing in
  if b : bool then ret tt else
  modify (fun s => s <| closing := true |>) ;;;
  proxy_op pt_stop ;;;
  i_stop ;;;
  proxy_op pt_close ;;;
  i_close.

Definition onConnection : C unit :=
  let* c := gets client in
  modify (fun s => let r := pt_connect (local_addr c) (ptcp s) in
    s <| ptcp := r.1 |> <| hlog := hlog s ++ r.2 |> <| hstate := fold_left handle_act r.2 (hstate s) |>).
Definition onData (data : list Z) : C unit := i_stop ;;; proxy_op (pt_write data).
Definition onWrite : C unit := proxy_op pt_read.
Definition on_ptcp (cb : pcallback) : C unit :=
  match cb with
  | OnData data => proxy_op pt_stop ;;; i_write data
  | OnWrite => i_read
  | OnClose _ => kill
  | OnConnect => modify (fun s => s <| linked := true |>) ;;; proxy_op pt_read ;;; i_read
  end.

(** [writeCallback], [readCallback], [closeCallback] *)
Definition on_client (cb : uvl_cb) : C unit :=
  match cb with
  | WriteCb _ status => if status =? 0 then onWrite else ret tt
  | ReadCb nread data => if 0 <? nread then onData data else let* b := gets i_closing in if b : bool then ret tt else kill
  | CloseCb => kill
  end.

(** the callbacks of the client that were not made yet, and those they cause *)
Fixpoint pump (fuel : nat) : C unit :=
  fun s => match cbs (client s) !! seen s with
  | None => Ok (tt, s)
  | Some cb =>
      match fuel with
      | O => Stop OutOfFuel
      | S fuel => bind (on_client cb) (fun _ => pump fuel) (s <| seen := S (seen s) |>)
      end
  end.

Inductive conn_event := CLwip (e : uvl_event) | CTcp (e : hevent).

(** the callbacks there are, and those of one close *)
Definition pump_fuel (s : conn P) : nat := (length (cbs (client s)) - seen s) + S (length (writes (client s))).
Definition run_pump : C unit := fun s => pump (pump_fuel s) s.

Fixpoint each_ptcp (l : list pcallback) : C unit :=
  match l with [] => ret tt | cb :: l => on_ptcp cb ;;; each_ptcp l end.

Definition conn_step (e : conn_event) : C (list Z) :=
  match e with
  | CLwip e => let* got := on_uvl (uvl_step e) in run_pump ;;; ret got
  | CTcp e =>
      modify (fun s => s <| hstate := handle_event e (hstate s) |>) ;;;
      let* p := gets ptcp in
      let '(p', acts, l) := pt_event e p in
      modify (fun s => s <| ptcp := p' |> <| hlog := hlog s ++ acts |> <| hstate := fold_left handle_act acts (hstate s) |>) ;;;
      each_ptcp l ;;;
      run_pump ;;;
      ret []
  end.

Fixpoint conn_run (evs : list conn_event) : C (list Z) :=
  match evs with
  | [] => ret []
  | e :: evs => let* t := conn_step e in let* ts := conn_run evs in ret (t ++ ts)
  end.
End Connection.

(** ** What the connection relies on *)

(** the callback of an event once the connection is up *)
Definition cb_of (e : hevent) : list pcallback :=
  match e with HConnected => [] | HData d => [OnData d] | HWritten => [OnWrite] | HEnd => [OnClose 0] | HError c => [OnClose c] end.

(** what the loop may report of a socket in that state; while the proxy still
    sets up the connection the other side answers what was sent *)
Definition may_happen (up : bool) (h : handle) (e : hevent) : Prop :=
  (h_closed h = true -> exists c, e = HError c) /\
  match e with
  | HConnected => up = false /\ h_writes h = 0%nat
  | HData d => h_reading h = true /\ blen d < 4294967296 /\ (up = false -> h_writes h = 0%nat)
  | HWritten => (0 < h_writes h)%nat
  | HEnd => h_reading h = true
  | HError _ => True
  end.

Definition new_handle : handle := mkHandle false 0 false false.

(** what a proxy promises to [TcpConnection]: the calls reach the socket as soon
    as there was a callback; before that its own use of the socket is in order;
    when it reports the connection the socket is idle *)
Class ProxyTcpLaws (P : Type) `{!IProxyTcp P} := {
  p_new : P;
  dial_ok : P -> handle -> Prop;
  usable : P -> Prop;
  live : P -> Prop;
  law_usable p : live p -> usable p;
  law_ops p : usable p ->
    pt_stop p = Ok [PStop] /\ pt_read p = Ok [PRead] /\ (forall d, pt_write d p = Ok [PWrite d]) /\ pt_close p = Ok [PClose];
  law_error p c : usable p -> pt_event (HError c) p = (p, [], [OnClose c]);
  law_live p e : live p -> e <> HConnected -> pt_event e p = (p, [], cb_of e);
  law_connect a : let '(p, acts) := pt_connect a p_new in dial_ok p (fold_left handle_act acts new_handle);
  law_twice p h : dial_ok p h -> h_twice h = false;
  law_dial p h e : dial_ok p h -> may_happen false h e ->
    let '(p', acts, l) := pt_event e p in
    let h' := fold_left handle_act acts (handle_event e h) in
    (l = [] /\ dial_ok p' h') \/
    (l = [OnConnect] /\ live p' /\ h' = new_handle) \/
    (exists c, l = [OnClose c] /\ usable p' /\ h_twice h' = false)
}.

#[export] Instance DirectTcpLaws : ProxyTcpLaws DirectProxyTcp.
Proof.
  refine {| p_new := mkDirectTcp; dial_ok p h := h_twice h = false /\ h_reading h = false /\ h_writes h = 0%nat;
            usable _ := True; live _ := True |}; try done.
  - intros p e _ He. by destruct e.
  - by intros p h (? & ? & ?).
  - intros p [r n c t] e (? & ? & ?) [Hc He]. cbn in *. subst. destruct e; cbn in *.
    + right; left. split_and!; [done|done|]. destruct c; [by destruct (Hc eq_refl)|done].
    + by destruct He.
    + by apply Nat.lt_irrefl in He.
    + done.
    + right; right. by exists code.
Defined.

Definition socks_reading (s : Socks5Protocol) : bool := match sp_stage s with AwaitMethod | AwaitReply => true | _ => false end.

#[export] Instance Socks5TcpLaws junk server : ProxyTcpLaws (IProxyTcp0 := Socks5Tcp junk server) Socks5ProxyTcp.
Proof.
  refine {| p_new := socks5_tcp_new;
            dial_ok p h := st_tcp p = false /\ sp_command (st_protocol p) = Connect /\ h_twice h = false /\ h_reading h = socks_reading (st_protocol p);
            usable p := st_tcp p = true; live p := st_tcp p = true |}; try done.
  - intros p Hp. cbn. unfold on_tcp. by rewrite Hp.
  - intros p c Hp. cbn. unfold socks5_tcp_event. by rewrite Hp.
  - intros p e Hp He. cbn. unfold socks5_tcp_event. rewrite Hp. by destruct e.
  - by intros p h (? & ? & ? & ?).
  - intros [tcp sp] [r n c t] e (Hp & Hcmd & Ht & Hr) [Hc He]. cbn in Hp, Hcmd, Ht, Hr, He, Hc. subst. cbn. unfold socks5_tcp_event. cbn [st_tcp st_protocol].
    destruct e as [|d| | |code]; cbn [socks_connected].
    + unfold socks_connected. destruct He as [_ ->]. destruct (sp_stage sp) eqn:Es; cbn; left; split_and!; try done; unfold socks_reading; by rewrite ?Es.
    + destruct He as (Hr & _ & Hn). rewrite (Hn eq_refl). clear Hn. unfold socks_reading in Hr. destruct (sp_stage sp) eqn:Es; try done.
      * destruct (socks_method junk sp d Es) as [[_ ->]|[_ [e ->]]]; cbn; left; split_and!; try done; unfold socks_reading; by rewrite Es.
      * destruct (socks_reply junk sp d Es) as [[_ ->]|[_ [e ->]]]; [rewrite Hcmd; cbn|cbn; left; split_and!; done].
        right; left. split_and!; try done. destruct c; [by destruct (Hc eq_refl)|]. done.
    + by left.
    + by left.
    + by left.
Defined.

(** ** The invariant of a connection *)

Section Invariant.
Context {P : Type} `{!IProxyTcp P, !ProxyTcpLaws P}.
Implicit Types s : conn P.

(** bytes handed to the socket *)
Definition act_bytes (a : pact) : list Z := match a with PWrite d => d | _ => [] end.
Definition sent_out (l : list pact) : list Z := concat (map act_bytes l).
#[local] Arguments sent_out : simpl never.
#[local] Arguments delivered : simpl never.
#[local] Arguments answered : simpl never.
(** callbacks of the client that were not made yet *)
Definition pend s : list uvl_cb := drop (seen s) (cbs (client s)).
#[local] Arguments pend : simpl never.
Definition oks (l : list uvl_cb) : nat := foldr (fun cb n => match cb with WriteCb _ st => if st =? 0 then S n else n | _ => n end) 0%nat l.

(** the proxy sets up the connection *)
Record dialing s : Prop := {
  di_pend : pend s = [];
  di_flags : i_closing s = false /\ close_cb (client s) = false;
  di_idle : read_cb (client s) = false /\ writes (client s) = [];
  di_proxy : dial_ok (ptcp s) (hstate s) }.

(** bytes go both ways: at most one block in each direction, and the side it
    came from is not read from while it is on its way *)
Record relaying s (ws rs : list uvl_cb) : Prop := {
  re_pend : pend s = ws ++ rs;
  re_flags : i_closing s = false /\ close_cb (client s) = false;
  re_live : live (ptcp s);
  re_ws : Forall is_write_cb ws;
  re_one : (length (writes (client s)) + oks ws <= 1)%nat;
  re_stopped : (0 < length (writes (client s)) + oks ws)%nat -> h_reading (hstate s) = false;
  re_reading : closed (client s) = false -> (length (writes (client s)) + oks ws = 0)%nat -> h_reading (hstate s) = true;
  re_rs : match rs with
    | [] => (closed (client s) = false -> h_writes (hstate s) = if read_cb (client s) then 0%nat else 1%nat) /\
            (closed (client s) = true -> h_writes (hstate s) = 1%nat)
    | [ReadCb n d] => h_writes (hstate s) = 0%nat /\
        (n = blen d /\ 0 < n /\ read_cb (client s) = true /\ closed (client s) = false \/ n = UV_EOF /\ d = [] /\ closed (client s) = true)
    | _ => False
    end }.

Definition ignorable (cb : uvl_cb) : Prop :=
  match cb with WriteCb _ st => st <> 0 | ReadCb n d => n <= 0 /\ d = [] | CloseCb => True end.

(** both sides were closed *)
Record dead s : Prop := {
  de_flags : i_closing s = true /\ h_closed (hstate s) = true;
  de_client : closed (client s) = true /\ read_cb (client s) = false /\ writes (client s) = [];
  de_reqs : read_req (client s) = false /\ write_req (client s) = false;
  de_proxy : usable (ptcp s);
  de_pend : Forall ignorable (pend s) }.

Definition phase s : Prop := if closing s then dead s else if linked s then exists ws rs, relaying s ws rs else dialing s.

(** [w]: what came from the socket, [t]: what came from lwIP *)
Record conn_ok (w t : list Z) s : Prop := {
  co_uvl : exists ids a, uvl_ok w ids t a (client s);
  co_seen : (seen s <= length (cbs (client s)))%nat;
  co_twice : h_twice (hstate s) = false;
  co_data : sent_out (plog s) ++ delivered (pend s) = delivered (cbs (client s));
  co_phase : phase s }.

Lemma wp_on_uvl {A} (m : U A) (Q : A -> conn P -> Prop) s :
  wp m (fun a c => Q a (s <| client := c |>)) (client s) -> wp (on_uvl m) Q s.
Proof. unfold wp, on_uvl. by destruct (m (client s)) as [[a c]|]. Qed.

Lemma wp_op (f : P -> outcome (list pact)) l (Q : unit -> conn P -> Prop) s : f (ptcp s) = Ok l ->
  Q tt (s <| plog := plog s ++ l |> <| hstate := fold_left handle_act l (hstate s) |>) -> wp (proxy_op f) Q s.
Proof. intros E HQ. unfold proxy_op. apply wp_bind, wp_gets. rewrite E. by apply wp_bind, wp_ret, wp_modify. Qed.

Lemma wp_stop (Q : unit -> conn P -> Prop) s : Q tt (s <| client := (client s) <| read_cb := false |> |>) -> wp i_stop Q s.
Proof. intros HQ. unfold i_stop. by apply wp_bind, wp_on_uvl, wp_bind, wp_modify, wp_ret, wp_ret. Qed.

Lemma stop_ok w ids t a c : uvl_ok w ids t a c -> uvl_ok w ids t a (c <| read_cb := false |>).
Proof. intros [Q I R V O S C]. split; cbn; try done. intros Hc. by destruct (S Hc) as (? & ? & _). Qed.

Lemma sent_app a b : sent_out (a ++ b) = sent_out a ++ sent_out b.
Proof. unfold sent_out. by rewrite map_app, concat_app. Qed.

Lemma kill_ok w t s : (exists ids a, uvl_ok w ids t a (client s)) -> seen s = length (cbs (client s)) -> h_twice (hstate s) = false ->
  sent_out (plog s) = delivered (cbs (client s)) -> closing s = false -> i_closing s = false -> usable (ptcp s) ->
  wp kill (fun _ s' => conn_ok w t s' /\ closing s' = true /\ (length (pend s') <= length (writes (client s)))%nat) s.
Proof.
  intros (ids & a & Hok) Hseen Htw Hdata Hcl Hi Hu. destruct (law_ops _ Hu) as (O1 & _ & _ & O4).
  unfold kill. apply wp_bind, wp_gets. rewrite Hcl. apply wp_bind, wp_modify, wp_bind. apply (wp_op _ [PStop]); [done|]. apply wp_bind, wp_stop, wp_bind.
  apply (wp_op _ [PClose]); [done|]. unfold i_close. apply wp_bind, wp_gets. cbn. rewrite Hi. apply wp_bind, wp_modify, wp_bind, wp_on_uvl. cbn.
  eapply wp_mono; [apply (tcp_close_spec w ids t a); [by apply stop_ok|done]|].
  intros r c' (-> & Hok' & Hc & Hw & Hrd & Hrr & Hwr & Hcb). apply wp_ret. cbn in Hcb.
  assert (Hp : forall l, drop (seen s) (cbs (client s) ++ l) = l) by (intros l; rewrite Hseen; apply drop_app_length).
  split_and!; [|done|unfold pend; cbn; by rewrite Hcb, Hp, length_map].
  split; cbn; try done; [by exists ids, a|rewrite Hcb, length_app; lia| |].
  - unfold pend. cbn. rewrite Hcb, Hp, cbs_delivered_app, delivered_writes, !sent_app, Hdata. by rewrite !app_nil_r.
  - unfold phase. cbn. split; cbn; try done. unfold pend. cbn. rewrite Hcb, Hp. apply Forall_forall. by intros cb (q & <- & _)%in_map_iff.
Qed.

(** *** Making the callbacks *)

Definition measure s : nat := length (pend s) + (if closing s then 0 else length (writes (client s))).

Lemma pend_cons s cb l : pend s = cb :: l ->
  cbs (client s) !! seen s = Some cb /\ pend (s <| seen := S (seen s) |>) = l /\ (S (seen s) <= length (cbs (client s)))%nat.
Proof.
  unfold pend. intros E. assert (Hl : cbs (client s) !! seen s = Some cb) by (rewrite <- (Nat.add_0_r (seen s)), <- lookup_drop, E; done).
  split_and!; [done| |by apply lookup_lt_Some in Hl]. cbn. rewrite (drop_S _ _ _ Hl) in E. by injection E.
Qed.

Lemma write_cb_ok w t s ws rs i st : conn_ok w t s -> closing s = false -> linked s = true -> relaying s (WriteCb i st :: ws) rs ->
  wp (on_client (WriteCb i st)) (fun _ s' => conn_ok w t s' /\ (S (measure s') <= measure s)%nat) (s <| seen := S (seen s) |>).
Proof.
  intros [Hu Hs Ht Hd _] Hcl Hl [Rp Rf Rl Rw Ro Rst Rr Rrs]. destruct (pend_cons _ _ _ Rp) as (_ & Hp & Hle).
  assert (Hm : measure s = S (length (ws ++ rs) + length (writes (client s)))) by (unfold measure; by rewrite Rp, Hcl).
  assert (Hd' : sent_out (plog s) ++ delivered (ws ++ rs) = delivered (cbs (client s))) by (rewrite <- Hd, Rp; done).
  apply Forall_inv_tail in Rw. unfold on_client. cbn [oks foldr] in *. fold (oks ws) in *. destruct (st =? 0).
  - destruct (law_ops _ (law_usable _ Rl)) as (_ & O2 & _ & _). apply (wp_op _ [PRead]); [done|].
    assert (Hrd := Rst ltac:(lia)). split; [split; cbn; try done|].
    + by rewrite Ht, Hrd.
    + unfold pend in *. cbn in *. by rewrite Hp, sent_app, app_nil_r.
    + unfold phase. cbn. rewrite Hcl, Hl. exists ws, rs. split; cbn; try done; [lia|intros; lia].
    + rewrite Hm. unfold measure. cbn. rewrite Hcl. unfold pend in *. cbn in *. by rewrite Hp.
  - apply wp_ret. split; [split; cbn; try done|].
    + unfold pend in *. cbn in *. by rewrite Hp.
    + unfold phase. cbn. rewrite Hcl, Hl. exists ws, rs. by split.
    + rewrite Hm. unfold measure. cbn. rewrite Hcl. unfold pend in *. cbn in *. by rewrite Hp.
Qed.

Lemma read_cb_ok w t s n d : conn_ok w t s -> closing s = false -> linked s = true -> relaying s [] [ReadCb n d] ->
  wp (on_client (ReadCb n d)) (fun _ s' => conn_ok w t s' /\ (S (measure s') <= measure s)%nat) (s <| seen := S (seen s) |>).
Proof.
  intros [(ids & a & Hok) Hs Ht Hd _] Hcl Hl [Rp Rf Rl Rw Ro Rst Rr Rrs]. destruct (pend_cons _ _ _ Rp) as (_ & Hp & Hle).
  assert (Hm : measure s = S (length (writes (client s)))) by (unfold measure; by rewrite Rp, Hcl).
  assert (Hd' : sent_out (plog s) ++ d = delivered (cbs (client s))) by (rewrite <- Hd, Rp; unfold delivered at 1; cbn; by rewrite !app_nil_r).
  destruct Rrs as [Hw [(-> & Hn & Hrd & Hc)|(-> & -> & Hc)]]; unfold on_client.
  - rewrite (proj2 (Z.ltb_lt _ _)) by done. destruct (law_ops _ (law_usable _ Rl)) as (_ & _ & O3 & _). unfold onData.
    apply wp_bind, wp_stop. apply (wp_op _ [PWrite d]); [apply O3|]. rewrite Hm. unfold measure. unfold pend in *. cbn in *.
    split; [split; cbn; try done; [exists ids, a; by apply stop_ok|unfold pend; cbn; by rewrite Hp, sent_app, app_nil_r; unfold sent_out at 2; cbn; rewrite app_nil_r|]|].
    + unfold phase. cbn. rewrite Hcl, Hl. exists [], []. split; cbn; try done. rewrite Hc.
      split; [intros _; by rewrite Hw|done].
    + rewrite Hp, Hcl. done.
  - change (0 <? UV_EOF) with false. cbv iota. apply wp_bind, wp_gets. cbn. destruct Rf as [Ri Rc]. rewrite Ri. rewrite app_nil_r in Hd'.
    assert (Hs' : S (seen s) = length (cbs (client s))).
    { unfold pend in Rp. apply (f_equal length) in Rp. rewrite length_drop in Rp. cbn in Rp. lia. }
    eapply wp_mono; [apply (kill_ok w t); cbn; try done; [by exists ids, a|by apply law_usable]|].
    intros ? s' (Hok' & Hcl' & Hle'). split; [done|]. cbn in Hle'. rewrite Hm. unfold measure. rewrite Hcl'. lia.
Qed.

Lemma dead_cb_ok w t s cb l : conn_ok w t s -> closing s = true -> pend s = cb :: l ->
  wp (on_client cb) (fun _ s' => conn_ok w t s' /\ (S (measure s') <= measure s)%nat) (s <| seen := S (seen s) |>).
Proof.
  intros [Hu Hs Ht Hd Hph] Hcl Rp. unfold phase in Hph. rewrite Hcl in Hph. destruct Hph as [Df Dc Dr Dp De]. destruct (pend_cons _ _ _ Rp) as (_ & Hp & Hle).
  rewrite Rp in De. pose proof (Forall_inv De) as Hcb. apply Forall_inv_tail in De.
  assert (Hres : conn_ok w t (s <| seen := S (seen s) |>) /\ (S (measure (s <| seen := S (seen s) |>)) <= measure s)%nat).
  { split; [split; cbn; try done|unfold measure; cbn; rewrite Hcl, Rp, Hp; cbn; lia].
    - rewrite Hp, <- Hd, Rp. f_equal. unfold delivered. destruct cb as [| n d |]; cbn; try done. by destruct Hcb as [_ ->].
    - unfold phase. cbn. rewrite Hcl. split; cbn; try done. by rewrite Hp. }
  destruct cb as [i st|n d|]; unfold on_client; cbn in Hcb.
  - rewrite (proj2 (Z.eqb_neq _ _)) by done. by apply wp_ret.
  - rewrite (proj2 (Z.ltb_ge _ _)) by tauto. apply wp_bind, wp_gets. cbn. destruct Df as [-> _]. by apply wp_ret.
  - unfold kill. apply wp_bind, wp_gets. cbn. rewrite Hcl. by apply wp_ret.
Qed.

Lemma pump_ok fuel : forall w t s, conn_ok w t s -> (measure s <= fuel)%nat -> wp (pump fuel) (fun _ s' => conn_ok w t s' /\ pend s' = []) s.
Proof.
  induction fuel as [|fuel IH]; intros w t s Hok Hm; unfold wp; cbn [pump]; fold (@pump P _).
  all: destruct (pend s) as [|cb l] eqn:Ep.
  1, 3: rewrite lookup_ge_None_2 by (unfold pend in Ep; apply (f_equal length) in Ep; rewrite length_drop in Ep; cbn in Ep; lia); by rewrite Ep.
  { unfold measure in Hm. rewrite Ep in Hm. cbn in Hm. lia. }
  destruct (pend_cons _ _ _ Ep) as (-> & _ & _).
  enough (Hw : wp (on_client cb) (fun _ s' => conn_ok w t s' /\ (S (measure s') <= measure s)%nat) (s <| seen := S (seen s) |>)).
  { apply (wp_bind (on_client cb)). eapply wp_mono; [exact Hw|]. intros ? s' [? ?]. apply IH; [done|lia]. }
  pose proof (co_phase _ _ _ Hok) as Hph. unfold phase in Hph. destruct (closing s) eqn:Hcl; [by eapply dead_cb_ok|].
  destruct (linked s) eqn:Hl; [|by destruct Hph as [E _ _ _]; rewrite Ep in E].
  destruct Hph as (ws & rs & Hre). pose proof (re_pend _ _ _ Hre) as Rp. rewrite Ep in Rp. destruct ws as [|cb' ws].
  - destruct rs as [|[] [|]]; try done; try (by destruct (re_rs _ _ _ Hre)). injection Rp as -> ->. by apply read_cb_ok.
  - injection Rp as -> ->. pose proof (Forall_inv (re_ws _ _ _ Hre)) as Hw. destruct cb'; try done. by apply (write_cb_ok w t s ws rs).
Qed.

(** *** Events of lwIP and of the loop *)

Lemma oks_le l : (oks l <= length l)%nat.
Proof. unfold oks. induction l as [|[i st| |] l IH]; cbn [foldr length]; [done| |lia|lia]. destruct (st =? 0); lia. Qed.
Lemma oks_all l : Forall (fun cb => exists i, cb = WriteCb i 0) l -> oks l = length l.
Proof. unfold oks. induction 1 as [|cb l [i ->] _ IH]; [done|]. cbn in *. by rewrite IH. Qed.
Lemma answered_ws l : Forall is_write_cb l -> length (answered l) = length l.
Proof. unfold answered. induction 1 as [|[i st| |] l H _ IH]; try done. cbn. by rewrite IH. Qed.

Lemma all_seen s : pend s = [] -> (seen s <= length (cbs (client s)))%nat -> seen s = length (cbs (client s)).
Proof. unfold pend. intros E ?. apply (f_equal length) in E. rewrite length_drop in E. cbn in E. lia. Qed.

Lemma fuel_enough s : (measure s <= pump_fuel s)%nat.
Proof. unfold measure, pump_fuel, pend. rewrite length_drop. destruct (closing s); lia. Qed.

Lemma run_pump_ok w t s : conn_ok w t s -> wp run_pump (fun _ s' => conn_ok w t s' /\ pend s' = []) s.
Proof. intros Hok. apply (pump_ok (pump_fuel s) w t s Hok), fuel_enough. Qed.

(** the writes that were answered are those that are missing *)
Lemma effect_count w ids t t' a a' c c' ws rs : uvl_ok w ids t a c -> uvl_ok w ids t' a' c' -> effect c c' ws rs ->
  (length (writes c') + length ws = length (writes c))%nat.
Proof.
  intros Hok Hok' [Ec _ Ew _ Er]. pose proof (ok_ids _ _ _ _ _ Hok) as I. pose proof (ok_ids _ _ _ _ _ Hok') as I'.
  rewrite <- I, Ec, !answered_app, <- !app_assoc in I'. apply app_inv_head in I'. apply (f_equal length) in I'.
  rewrite !length_app, !length_map, (answered_ws _ Ew) in I'.
  assert (length (answered rs) = 0%nat) by (destruct rs as [|[] [|]]; done). lia.
Qed.

Lemma client_phase w ids t a t' a' s c' ws rs : uvl_ok w ids t a (client s) -> uvl_ok w ids t' a' c' -> pend s = [] ->
  (seen s <= length (cbs (client s)))%nat -> closing s = false -> effect (client s) c' ws rs -> phase s -> phase (s <| client := c' |>).
Proof.
  intros Hok Hok' Hp Hs Hcl Hef Hph. assert (Hlen := effect_count _ _ _ _ _ _ _ _ _ _ Hok Hok' Hef). destruct Hef as [Ec Ecl Ew Ed Er].
  assert (Hp' : pend (s <| client := c' |>) = ws ++ rs) by (unfold pend; cbn; rewrite Ec, (all_seen _ Hp Hs); apply drop_app_length).
  pose proof (oks_le ws) as Hoks. unfold phase in *. cbn. rewrite Hcl in *. destruct (linked s) eqn:Hl.
  - destruct Hph as (ws0 & rs0 & [Rp Rf Rl Rw Ro Rst Rr Rrs]). rewrite Hp in Rp. symmetry in Rp. apply app_eq_nil in Rp as [-> ->].
    cbn [oks foldr] in *. exists ws, rs. split; cbn; try done; [by rewrite Ecl|lia|intros; apply Rst; lia| |].
    + intros Hc H0. destruct (Ed Hc) as [Hc0 Hws]. rewrite (oks_all _ Hws) in H0. apply Rr; [done|lia].
    + destruct rs as [|[] [|]]; try done.
      * destruct Er as [E1 E2], Rrs as [R1 R2]. split.
        -- intros Hc. rewrite (E1 Hc). by apply R1, Ed.
        -- intros Hc. destruct (closed (client s)) eqn:Hc0; [by apply R2|]. by rewrite (R1 eq_refl), (E2 Hc).
      * destruct Er as [Er1 Er2]. split; [|done]. destruct (closed (client s)) eqn:Hc0; [|destruct Rrs as [R1 _]; by rewrite (R1 eq_refl), Er1].
        destruct (ok_shut _ _ _ _ _ Hok Hc0) as (_ & _ & ?). congruence.
  - destruct Hph as [Dp Df [Dr Dw] Dd]. rewrite Dw in Hlen. assert (ws = []) as -> by (apply nil_length_inv; cbn in Hlen; lia).
    assert (rs = []) as -> by (destruct rs as [|[] [|]]; try done; destruct Er; congruence). destruct Er as [E1 E2].
    split; cbn; try done; [by rewrite Ecl|]. split; [|apply nil_length_inv; cbn in Hlen; lia].
    destruct (closed c') eqn:Hc'; [by destruct (ok_shut _ _ _ _ _ Hok' Hc') as (_ & _ & ?)|by rewrite (E1 eq_refl)].
Qed.

Lemma dead_handle w t s x c' : conn_ok w t s -> pend s = [] -> closing s = true -> uvl_step EvHandleClosed (client s) = Ok (x, c') ->
  x = [] /\ conn_ok w t (s <| client := c' |>).
Proof.
  intros [(ids & a & Hok) Hs Ht Hd Hph] Hp Hcl E. assert (x = []) as -> by (by eapply quietly_nil). split; [done|].
  unfold phase in Hph. rewrite Hcl in Hph. destruct Hph as [Df (Dc1 & Dc2 & Dc3) Dr Dpr De].
  assert (Hex : exists l, cbs c' = cbs (client s) ++ l /\ (l = [] \/ l = [CloseCb]) /\ closed c' = true /\ read_cb c' = false /\ writes c' = [] /\
    read_req c' = read_req (client s) /\ write_req c' = write_req (client s)).
  { revert E. unfold uvl_step, quietly, uvl_tcp_close_handle_cb, call, bind, modify, gets, ret. cbn. destruct (closed_handle (client s) + 1 =? 2); cbn; intros [= <-].
    - exists [CloseCb]. split_and!; try done. by right.
    - exists []. rewrite app_nil_r. split_and!; try done. by left. }
  destruct Hex as (l & Ec & Hl & H1 & H2 & H3 & H4 & H5).
  assert (Hp' : pend (s <| client := c' |>) = l) by (unfold pend; cbn; rewrite Ec, (all_seen _ Hp Hs); apply drop_app_length).
  assert (Hdl : delivered l = []) by (by destruct Hl as [->| ->]).
  split; cbn; try done.
  - exists ids, a. destruct Hok as [Q I R V O S C]. revert E. unfold uvl_step, quietly, uvl_tcp_close_handle_cb, call, bind, modify, gets, ret. cbn.
    destruct (closed_handle (client s) + 1 =? 2); cbn; intros [= <-]; split; cbn; rewrite ?answered_app, ?cbs_delivered_app, ?app_nil_r; try done; try congruence.
    + rewrite <- I, Dc3. by rewrite app_nil_r.
    + intros _. destruct (S Dc1) as (? & ? & _). done.
  - rewrite Ec, length_app. lia.
  - rewrite Hp', Hdl, Ec, cbs_delivered_app, Hdl, <- Hd, Hp. change (delivered []) with (@nil Z). by rewrite !app_nil_r.
  - unfold phase. cbn. rewrite Hcl. split; cbn; try done; [congruence|]. rewrite Hp'. destruct Hl as [->| ->]; [done|]. by repeat constructor.
Qed.

Lemma lwip_step_ok w t s e : conn_ok w t s -> pend s = [] -> lwip_side e = true -> allowed (client s) e ->
  wp (conn_step (CLwip e)) (fun got s' => conn_ok w (t ++ got) s' /\ pend s' = []) s.
Proof.
  intros Hok Hp Hside Hall. unfold conn_step. apply wp_bind, wp_on_uvl. pose proof Hok as [(ids & a & Hu) Hs Ht Hd Hph].
  assert (Hgoal : wp (uvl_step e) (fun x c' => conn_ok w (t ++ x) (s <| client := c' |>)) (client s)).
  { pose proof (uvl_step_ok _ _ _ _ _ _ Hu Hall) as Hw. assert (Ew : wrote e = [] /\ requested e = []) by (by destruct e).
    destruct Ew as [E1 E2]. rewrite E1, E2, !app_nil_r in Hw. unfold wp in Hw |- *. destruct (uvl_step e (client s)) as [[x c']|] eqn:E; [|done].
    destruct (closing s) eqn:Hcl.
    - unfold phase in Hph. rewrite Hcl in Hph. destruct Hph as [Df (Dc1 & Dc2 & Dc3) [Dr1 Dr2] Dpr De].
      destruct e; try done; cbn in Hall; try (destruct Hall; congruence); try congruence.
      destruct (dead_handle w t s x c' Hok Hp Hcl E) as [-> ?]. by rewrite app_nil_r.
    - assert (Hc0 : close_cb (client s) = false) by (unfold phase in Hph; rewrite Hcl in Hph; destruct (linked s);
        [destruct Hph as (? & ? & []); tauto|destruct Hph; tauto]).
      destruct (lwip_effect _ _ _ _ _ _ _ _ Hu Hall Hside Hc0 E) as (ws & rs & Hef).
      assert (Hph' := client_phase _ _ _ _ _ _ _ _ _ _ Hu Hw Hp Hs Hcl Hef Hph). pose proof (ef_cbs _ _ _ _ Hef) as Ec.
      split; cbn; try done; [by exists ids, (a + acked e)|rewrite Ec, length_app; lia|].
      unfold pend. cbn. rewrite Ec, (all_seen _ Hp Hs), drop_app_length, !cbs_delivered_app, <- Hd, Hp. change (delivered []) with (@nil Z). by rewrite app_nil_r. }
  eapply wp_mono; [exact Hgoal|]. intros x c' Hok'. apply wp_bind. eapply wp_mono; [exact (run_pump_ok _ _ _ Hok')|].
  intros ? s' [? ?]. by apply wp_ret.
Qed.

(** *** Events of the socket *)

Lemma wp_read (Q : unit -> conn P -> Prop) s : read_cb (client s) = false ->
  Q tt (s <| client := if closed (client s) then (client s) <| cbs := cbs (client s) ++ [ReadCb UV_EOF []] |>
                       else (client s) <| read_req := true |> <| read_cb := true |> |>) -> wp i_read Q s.
Proof.
  intros Hr HQ. unfold i_read, uvl_read_start, call. apply wp_bind, wp_on_uvl, wp_bind, wp_gets. rewrite Hr. apply wp_bind, wp_gets.
  destruct (closed (client s)).
  - by apply wp_bind, wp_modify, wp_ret, wp_ret.
  - by apply wp_bind, wp_modify, wp_bind, wp_modify, wp_ret, wp_ret.
Qed.

(** reading from the client is started when nothing is under way *)
Lemma start_reading w t s : (exists ids a, uvl_ok w ids t a (client s)) -> pend s = [] -> (seen s <= length (cbs (client s)))%nat ->
  h_twice (hstate s) = false -> sent_out (plog s) = delivered (cbs (client s)) -> closing s = false -> linked s = true ->
  i_closing s = false /\ close_cb (client s) = false -> live (ptcp s) -> read_cb (client s) = false -> h_writes (hstate s) = 0%nat ->
  (length (writes (client s)) <= 1)%nat -> (h_reading (hstate s) = true -> writes (client s) = []) ->
  (closed (client s) = false -> writes (client s) = [] -> h_reading (hstate s) = true) ->
  wp i_read (fun _ s' => conn_ok w t s') s.
Proof.
  intros (ids & a & Hok) Hp Hs Ht Hd Hcl Hl Hf Hlv Hr Hw Hone Hst Hrd. apply wp_read; [done|].
  assert (Hpe : forall l, drop (seen s) (cbs (client s) ++ l) = l) by (intros l; rewrite (all_seen _ Hp Hs); apply drop_app_length).
  pose proof (read_start_ok _ _ _ _ _ Hok) as Hrs. unfold uvl_step, quietly, uvl_read_start, call, wp, bind, gets, modify, ret in Hrs. rewrite Hr in Hrs.
  destruct (closed (client s)) eqn:Hc; rewrite app_nil_r in Hrs.
  - split; cbn; try done; [by exists ids, a|rewrite length_app; lia|unfold pend; cbn; by rewrite Hpe, Hd, cbs_delivered_app|].
    unfold phase. cbn. rewrite Hcl, Hl. exists [], [ReadCb UV_EOF []]. split; cbn; try done; try lia.
    + unfold pend. cbn. by rewrite Hpe.
    + intros Hlt. destruct (h_reading (hstate s)) eqn:E; [|done]. rewrite (Hst eq_refl) in Hlt. cbn in Hlt. lia.
    + rewrite Hc. done.
    + split; [done|]. by right.
  - split; cbn; try done; [by exists ids, a|unfold pend in *; cbn; rewrite Hp, Hd; change (delivered []) with (@nil Z); by rewrite app_nil_r|].
    unfold phase. cbn. rewrite Hcl, Hl. exists [], []. split; cbn; try done; try lia.
    + intros Hlt. destruct (h_reading (hstate s)) eqn:E; [|done]. rewrite (Hst eq_refl) in Hlt. cbn in Hlt. lia.
    + intros _ H0. apply Hrd; [done|]. apply nil_length_inv. lia.
    + rewrite Hc. done.
Qed.

(** a block from the socket is handed to the client *)
Lemma data_ok w t s d : conn_ok w t s -> pend s = [] -> closing s = false -> linked s = true -> h_reading (hstate s) = true ->
  blen d < 4294967296 -> wp (on_ptcp (OnData d)) (fun _ s' => conn_ok (w ++ d) t s') s.
Proof.
  intros [(ids & a & Hok) Hs Ht Hd Hph] Hp Hcl Hl Hrd Hb. unfold phase in Hph. rewrite Hcl, Hl in Hph.
  destruct Hph as (ws & rs & [Rp Rf Rl Rw Ro Rst Rr Rrs]). rewrite Hp in Rp. symmetry in Rp. apply app_eq_nil in Rp as [-> ->]. cbn [oks foldr] in *.
  assert (Hw : writes (client s) = []).
  { destruct (writes (client s)) eqn:E; [done|]. cbn in Rst. rewrite Rst in Hrd by lia. done. }
  destruct (law_ops _ (law_usable _ Rl)) as (O1 & _ & _ & _). unfold on_ptcp. apply wp_bind. apply (wp_op _ [PStop]); [done|].
  unfold i_write. apply wp_bind, wp_gets, wp_bind, wp_modify, wp_bind, wp_on_uvl. cbn.
  assert (Hall : allowed (client s) (EvWrite (next_req s) [d])).
  { split; [tauto|]. split; [done|]. cbn. rewrite app_nil_r. split; [done|lia]. }
  pose proof (write_ok _ _ _ _ _ _ _ Hok Hall) as Hwo. unfold uvl_step, quietly, uvl_write, wp, bind, modify, ret in Hwo. cbn [concat] in Hwo. rewrite !app_nil_r in Hwo.
  rewrite Hw in Hwo |- *.
  split; cbn; try done; [by exists (ids ++ [next_req s]), a|unfold pend in *; cbn; by rewrite sent_app, app_nil_r|].
  unfold phase. cbn. rewrite Hcl, Hl. exists [], []. by split.
Qed.

(** the bytes that arrive from the other side once the connection is up *)
Definition came (up : bool) (e : hevent) : list Z := match e with HData d => if up then d else [] | _ => [] end.

Lemma relaying_tcp_ok w t s e : conn_ok w t s -> pend s = [] -> closing s = false -> linked s = true -> may_happen true (hstate s) e ->
  wp (each_ptcp (cb_of e)) (fun _ s' => conn_ok (w ++ came true e) t s') (s <| hstate := handle_event e (hstate s) |>).
Proof.
  intros Hok Hp Hcl Hl [Hc He]. destruct e as [|d| | |code]; cbn [cb_of each_ptcp came handle_event]; rewrite ?app_nil_r.
  - by destruct He.
  - destruct He as (Hr & Hb & _). replace (s <| hstate := hstate s |>) with s by (by destruct s). apply wp_bind.
    eapply wp_mono; [by apply (data_ok w t s d)|]. intros ? s' ?. by apply wp_ret.
  - destruct Hok as [Hu Hs Ht Hd Hph]. unfold phase in Hph. rewrite Hcl, Hl in Hph. destruct Hph as (ws & rs & [Rp Rf Rl Rw Ro Rst Rr Rrs]).
    rewrite Hp in Rp. symmetry in Rp. apply app_eq_nil in Rp as [-> ->]. cbn [oks foldr] in *. destruct Rrs as [R1 R2].
    rewrite Hp in Hd. change (delivered []) with (@nil Z) in Hd. rewrite app_nil_r in Hd.
    assert (Hrw : read_cb (client s) = false /\ h_writes (hstate s) = 1%nat).
    { destruct (closed (client s)) eqn:E; [|specialize (R1 eq_refl); destruct (read_cb (client s)); [lia|done]].
      destruct Hu as (ids & a & Hu). destruct (ok_shut _ _ _ _ _ Hu E) as (_ & _ & ?). split; [done|by apply R2]. }
    destruct Hrw as [Hrd Hw]. apply wp_bind. eapply wp_mono; [apply (start_reading w t); cbn; try done|intros ? s' ?; by apply wp_ret].
    + by rewrite Hw.
    + lia.
    + intros E. destruct (writes (client s)); [done|]. cbn in Rst. rewrite Rst in E by lia. done.
    + intros E1 E2. apply Rr; [done|]. by rewrite E2.
  - apply wp_bind. destruct Hok as [Hu Hs Ht Hd Hph]. unfold phase in Hph. rewrite Hcl, Hl in Hph. destruct Hph as (ws & rs & [Rp [Rf _] Rl _ _ _ _ _]).
    rewrite Hp in Hd. change (delivered []) with (@nil Z) in Hd. rewrite app_nil_r in Hd.
    eapply wp_mono; [apply (kill_ok w t); cbn; try done; [by apply all_seen|by apply law_usable]|]. intros ? s' (? & _). by apply wp_ret.
  - apply wp_bind. destruct Hok as [Hu Hs Ht Hd Hph]. unfold phase in Hph. rewrite Hcl, Hl in Hph. destruct Hph as (ws & rs & [Rp [Rf _] Rl _ _ _ _ _]).
    rewrite Hp in Hd. change (delivered []) with (@nil Z) in Hd. rewrite app_nil_r in Hd.
    eapply wp_mono; [apply (kill_ok w t); cbn; try done; [by apply all_seen|by apply law_usable]|]. intros ? s' (? & _). by apply wp_ret.
Qed.

Lemma dialing_tcp_ok w t s e : conn_ok w t s -> closing s = false -> linked s = false -> may_happen false (hstate s) e ->
  let '(p', acts, l) := pt_event e (ptcp s) in
  wp (each_ptcp l) (fun _ s' => conn_ok w t s')
    (s <| hstate := handle_event e (hstate s) |> <| ptcp := p' |> <| hlog := hlog s ++ acts |> <| hstate := fold_left handle_act acts (handle_event e (hstate s)) |>).
Proof.
  intros [Hu Hs Ht Hd Hph] Hcl Hl Hm. unfold phase in Hph. rewrite Hcl, Hl in Hph. destruct Hph as [Dp Df [Dr Dw] Dd].
  rewrite Dp in Hd. change (delivered []) with (@nil Z) in Hd. rewrite app_nil_r in Hd.
  pose proof (law_dial _ _ _ Dd Hm) as Hlaw. destruct (pt_event e (ptcp s)) as [[p' acts] l]. set (h' := fold_left _ _ _) in *. cbv zeta in Hlaw.
  destruct Hlaw as [[-> Hdi]|[(-> & Hlv & Hh)|(c & -> & Hus & Htw)]]; cbn [each_ptcp].
  - apply wp_ret. split; cbn; try done; [by eapply law_twice|unfold pend in *; cbn; rewrite Dp, Hd; change (delivered []) with (@nil Z); by rewrite app_nil_r|].
    unfold phase. cbn. rewrite Hcl, Hl. by split.
  - apply wp_bind, wp_bind, wp_modify, wp_bind. destruct (law_ops _ (law_usable _ Hlv)) as (_ & O2 & _ & _). apply (wp_op _ [PRead]); [done|]. cbn. rewrite Hh.
    eapply wp_mono; [apply (start_reading w t); cbn; try done|intros ? s' ?; by apply wp_ret].
    + by rewrite sent_app, app_nil_r.
    + rewrite Dw. cbn. lia.
  - apply wp_bind. eapply wp_mono; [apply (kill_ok w t); cbn; try done; [by apply all_seen|tauto]|]. intros ? s' (? & _). by apply wp_ret.
Qed.

Lemma tcp_step_ok w t s e : conn_ok w t s -> pend s = [] -> may_happen (linked s) (hstate s) e ->
  wp (conn_step (CTcp e)) (fun got s' => got = [] /\ conn_ok (w ++ came (linked s && negb (closing s)) e) t s' /\ pend s' = []) s.
Proof.
  intros Hok Hp Hm. unfold conn_step. apply wp_bind, wp_modify, wp_bind, wp_gets. cbn.
  enough (Hgoal : let '(p', acts, l) := pt_event e (ptcp s) in wp (each_ptcp l) (fun _ s' => conn_ok (w ++ came (linked s && negb (closing s)) e) t s')
    (s <| hstate := handle_event e (hstate s) |> <| ptcp := p' |> <| hlog := hlog s ++ acts |> <| hstate := fold_left handle_act acts (handle_event e (hstate s)) |>)).
  { destruct (pt_event e (ptcp s)) as [[p' acts] l]. apply wp_bind, wp_modify. cbn. apply wp_bind. eapply wp_mono; [exact Hgoal|]. intros ? s' Hok'.
    apply wp_bind. eapply wp_mono; [exact (run_pump_ok _ _ _ Hok')|]. intros ? s2 [? ?]. by apply wp_ret. }
  destruct (closing s) eqn:Hcl.
  - pose proof Hok as [Hu Hs Ht Hd Hph]. unfold phase in Hph. rewrite Hcl in Hph. destruct Hph as [[Df1 Df2] Dc Dr Dpr De].
    destruct Hm as [Hc _]. destruct (Hc Df2) as [c ->]. rewrite (law_error _ _ Dpr). cbn [each_ptcp came on_ptcp]. rewrite app_nil_r.
    apply wp_bind. unfold kill. apply wp_bind, wp_gets. cbn. rewrite Hcl. apply wp_ret, wp_ret. split; cbn; try done. unfold phase. cbn. by rewrite Hcl.
  - destruct (linked s) eqn:Hl; cbn [andb negb].
    + assert (Hlv : live (ptcp s)) by (destruct Hok as [_ _ _ _ Hph]; unfold phase in Hph; rewrite Hcl, Hl in Hph; by destruct Hph as (? & ? & [])).
      rewrite (law_live _ _ Hlv) by (destruct e; try done; by destruct Hm as [_ [? _]]). cbn [fold_left].
      pose proof (relaying_tcp_ok w t s e Hok Hp Hcl Hl Hm) as Hw. rewrite app_nil_r. destruct s. exact Hw.
    + pose proof (dialing_tcp_ok w t s e Hok Hcl Hl Hm) as Hw. assert (came false e = []) as -> by (by destruct e). by rewrite app_nil_r.
Qed.

(** ** Runs *)

(** what lwIP, the loop and the other side do *)
Definition may s (e : conn_event) : Prop :=
  match e with
  | CLwip e => lwip_side e = true /\ allowed (client s) e
  | CTcp e => may_happen (linked s) (hstate s) e
  end.
Fixpoint may_run (evs : list conn_event) s : Prop :=
  match evs with
  | [] => True
  | e :: evs => may s e /\ match conn_step e s with Ok (_, s') => may_run evs s' | Stop _ => True end
  end.

(** what the socket reported while the connection was up *)
Fixpoint arrived (evs : list conn_event) s : list Z :=
  match evs with
  | [] => []
  | e :: evs => match e with CTcp e => came (linked s && negb (closing s)) e | CLwip _ => [] end ++
      match conn_step e s with Ok (_, s') => arrived evs s' | Stop _ => [] end
  end.

Lemma conn_run_ok evs : forall w t s, conn_ok w t s -> pend s = [] -> may_run evs s ->
  wp (conn_run evs) (fun got s' => conn_ok (w ++ arrived evs s) (t ++ got) s' /\ pend s' = []) s.
Proof.
  induction evs as [|e evs IH]; intros w t s Hok Hp Hm; cbn [conn_run arrived].
  { apply wp_ret. by rewrite !app_nil_r. }
  destruct Hm as [He Hm]. apply wp_bind.
  assert (Hstep : wp (conn_step e) (fun got s' => conn_ok (w ++ match e with CTcp e => came (linked s && negb (closing s)) e | CLwip _ => [] end) (t ++ got) s' /\ pend s' = []) s).
  { destruct e as [e|e]; cbn [may] in He.
    - rewrite app_nil_r. destruct He. by apply lwip_step_ok.
    - eapply wp_mono; [by apply tcp_step_ok|]. intros got s' (-> & ? & ?). by rewrite app_nil_r. }
  unfold wp in Hstep |- * at 1. destruct (conn_step e s) as [[got s1]|]; [|done]. destruct Hstep as [Hok1 Hp1].
  apply wp_bind. eapply wp_mono; [by apply (IH _ _ _ Hok1)|]. intros got2 s2 [Hok2 Hp2]. apply wp_ret. by rewrite !app_assoc.
Qed.

(** *** Progress *)

Lemma pump_writes fuel : forall s, usable (ptcp s) -> Forall is_write_cb (pend s) -> (length (pend s) <= fuel)%nat ->
  wp (pump fuel) (fun _ s' => client s' = client s /\ linked s' = linked s /\ closing s' = closing s) s.
Proof.
  induction fuel as [|fuel IH]; intros s Hu Hw Hl; unfold wp; cbn [pump]; fold (@pump P _).
  all: destruct (pend s) as [|cb l] eqn:Ep.
  1, 3: rewrite lookup_ge_None_2 by (unfold pend in Ep; apply (f_equal length) in Ep; rewrite length_drop in Ep; cbn in Ep; lia); done.
  { cbn in Hl. lia. }
  destruct (pend_cons _ _ _ Ep) as (-> & Hp & _). pose proof (Forall_inv Hw) as Hcb. apply Forall_inv_tail in Hw. destruct cb as [i st| |]; try done.
  apply (wp_bind (on_client (WriteCb i st))). destruct (law_ops _ Hu) as (_ & O2 & _). unfold on_client. cbn in Hl. destruct (st =? 0).
  - apply (wp_op _ [PRead]); [done|]. eapply wp_mono; [apply IH; unfold pend in *; cbn in *; rewrite ?Hp; done || lia|]. intros ? s' (-> & -> & ->); done.
  - apply wp_ret. eapply wp_mono; [apply IH; unfold pend in *; cbn in *; rewrite ?Hp; done || lia|]. intros ? s' (-> & -> & ->); done.
Qed.

(** an event of lwIP that only answers writes changes the client alone *)
Lemma lwip_step_client w t s e x c' l : conn_ok w t s -> pend s = [] -> closing s = false -> linked s = true ->
  uvl_step e (client s) = Ok (x, c') -> cbs c' = cbs (client s) ++ l -> Forall is_write_cb l ->
  wp (conn_step (CLwip e)) (fun _ s' => client s' = c' /\ linked s' = true /\ closing s' = false) s.
Proof.
  intros [_ Hs _ _ Hph] Hp Hcl Hl E Ec Hw. unfold phase in Hph. rewrite Hcl, Hl in Hph. destruct Hph as (ws & rs & [_ _ Rl _ _ _ _ _]).
  unfold conn_step. apply wp_bind, wp_on_uvl. unfold wp at 1. rewrite E. apply wp_bind.
  assert (Hpe : pend (s <| client := c' |>) = l) by (unfold pend; cbn; rewrite Ec, (all_seen _ Hp Hs); apply drop_app_length).
  unfold run_pump. eapply (wp_mono (pump _)); [apply pump_writes; [by apply law_usable|by rewrite Hpe|]|intros ? s' (? & ? & ?); apply wp_ret; cbn in *; split_and!; congruence].
  unfold pump_fuel, pend. rewrite length_drop. lia.
Qed.

Lemma write_cbs_ok (f : uvl_write_t -> nat) st ws : Forall is_write_cb (map (fun r => WriteCb (f r) st) ws).
Proof. apply Forall_forall. by intros cb (r & <- & _)%in_map_iff. Qed.

Lemma lwip_exact w t s e x c' l : conn_ok w t s -> pend s = [] -> closing s = false -> linked s = true -> lwip_side e = true -> allowed (client s) e ->
  uvl_step e (client s) = Ok (x, c') -> cbs c' = cbs (client s) ++ l -> Forall is_write_cb l ->
  exists got s', conn_step (CLwip e) s = Ok (got, s') /\ conn_ok w (t ++ got) s' /\ pend s' = [] /\ client s' = c' /\ linked s' = true /\ closing s' = false /\ got = x.
Proof.
  intros Hok Hp Hcl Hl Hside Hall E Ec Hw. pose proof (lwip_step_ok _ _ _ _ Hok Hp Hside Hall) as H1.
  pose proof (lwip_step_client _ _ _ _ _ _ _ Hok Hp Hcl Hl E Ec Hw) as H2. unfold wp in H1, H2. destruct (conn_step (CLwip e) s) as [[got s']|] eqn:Es; [|done].
  exists got, s'. destruct H1, H2 as (? & ? & ?). split_and!; try done.
  unfold conn_step, bind, on_uvl in Es. rewrite E in Es. destruct (run_pump _) as [[u s2]|]; [|done]. by injection Es.
Qed.

(** C29. The block on its way to the console gets there: when lwIP has room for
    it, takes it and reports it as acknowledged, everything that arrived from the
    other side is with lwIP and the socket is read again. *)
Theorem block_passed w t s n : conn_ok w t s -> pend s = [] -> closing s = false -> linked s = true -> closed (client s) = false ->
  write_req (client s) = true -> blen (todo (writes (client s))) <= snd_buf (client s) ->
  n = pending_sum (writes (client s)) + blen (todo (writes (client s))) -> 0 < n ->
  exists s', conn_run [CLwip (EvWriteAsync []); CLwip (EvSent n); CLwip (EvWriteAsync [])] s = Ok ([], s') /\
    conn_ok w t s' /\ accepted (client s') = w /\ h_reading (hstate s') = true.
Proof.
  intros Hok Hp Hcl Hl Hc Hwr Hroom En Hn. pose proof (co_uvl _ _ _ Hok) as (ids & a & Hu).
  destruct (proj1 (wp_run _ _ _) (write_async_room w ids t a _ Hu Hc Hroom)) as (x1 & c1 & E1 & Hok1 & Hc1 & Ht1 & Hcb1 & Hi1 & Hp1).
  destruct (lwip_exact w t s (EvWriteAsync []) x1 c1 _ Hok Hp Hcl Hl eq_refl (conj Hwr (Forall_nil _)) E1 Hcb1 (write_cbs_ok _ _ _)) as (g1 & s1 & F1 & Gok1 & Gp1 & <- & Gl1 & Gcl1 & ->).
  assert (x1 = []) as -> by (by eapply quietly_nil). rewrite app_nil_r in Gok1.
  destruct (proj1 (wp_run _ _ _) (sent_exact w ids t a _ n Hok1 Hc1 ltac:(lia))) as (x2 & c2 & E2 & Hok2 & Hc2 & Ht2 & Hcb2 & Hi2 & Hp2).
  rewrite Ht1 in Ht2. assert (Hp20 : pending_sum (writes c2) = 0) by lia.
  assert (Hw2 : write_req c2 = true) by (by eapply sent_request).
  rewrite <- (app_nil_r (cbs (client s1))) in Hcb2.
  destruct (lwip_exact w t s1 (EvSent n) x2 c2 _ Gok1 Gp1 Gcl1 Gl1 eq_refl ltac:(split; [done|lia]) E2 Hcb2 (Forall_nil _)) as (g2 & s2 & F2 & Gok2 & Gp2 & <- & Gl2 & Gcl2 & ->).
  assert (x2 = []) as -> by (by eapply quietly_nil). rewrite app_nil_r in Gok2.
  assert (Hroom2 : blen (todo (writes (client s2))) <= snd_buf (client s2)) by (rewrite Ht2; apply (ok_room _ _ _ _ _ Hok2)).
  assert (Hall := all_completed _ (ok_queue _ _ _ _ _ Hok2) Ht2 Hp20).
  destruct (proj1 (wp_run _ _ _) (write_async_room w ids t (a + n) _ Hok2 Hc2 Hroom2)) as (x3 & c3 & E3 & Hok3 & Hc3 & Ht3 & Hcb3 & Hi3 & Hp3).
  rewrite Hall, drop_all in Hi3. apply map_eq_nil in Hi3.
  destruct (lwip_exact w t s2 (EvWriteAsync []) x3 c3 _ Gok2 Gp2 Gcl2 Gl2 eq_refl (conj Hw2 (Forall_nil _)) E3 Hcb3 (write_cbs_ok _ _ _)) as (g3 & s3 & F3 & Gok3 & Gp3 & <- & Gl3 & Gcl3 & ->).
  assert (x3 = []) as -> by (by eapply quietly_nil). rewrite app_nil_r in Gok3. exists s3.
  split_and!; [by cbn [conn_run]; unfold bind; rewrite F1, F2, F3|done| |].
  - destruct (ok_open _ _ _ _ _ Hok3 Hc3) as (_ & _ & Hf & _). by rewrite Ht3, app_nil_r in Hf.
  - pose proof (co_phase _ _ _ Gok3) as Hph. unfold phase in Hph. rewrite Gcl3, Gl3 in Hph. destruct Hph as (ws & rs & [Rp _ _ _ _ _ Rr _]).
    rewrite Gp3 in Rp. symmetry in Rp. apply app_eq_nil in Rp as [-> ->]. apply Rr; [done|]. by rewrite Hi3.
Qed.

(** [onConnection] of a connection that was just accepted *)
Definition opened (c : uvl_tcp) : conn P :=
  match onConnection (mkConn c 0 0 false false false p_new [] [] new_handle) with Ok (_, s) => s | Stop _ => mkConn c 0 0 false false false p_new [] [] new_handle end.

Lemma opened_ok junk local remote room : 0 <= room -> conn_ok [] [] (opened (accepted_client junk local remote room)) /\
  pend (opened (accepted_client junk local remote room)) = [].
Proof.
  intros Hr. pose proof (accepted_ok junk local remote room Hr) as Hu. pose proof (law_connect (P := P) local) as Hlaw.
  unfold opened, onConnection, bind, gets, modify. cbn [client ptcp].
  change (local_addr (accepted_client junk local remote room)) with local. destruct (pt_connect local p_new) as [p acts]. cbn [fst snd].
  split; [|done]. split; cbn; try done; [by exists [], 0|by eapply law_twice].
Qed.

End Invariant.

(** ** The answer of the fake internet: [SwitchFakeTcpConnection] *)

Definition fake_body : list Z :=
  text "HTTP/1.1 200 OK" ++ [13; 10] ++ text "Content-Length: 2" ++ [13; 10] ++ text "X-Organization: Nintendo" ++ [13; 10; 13; 10] ++ text "ok".

(** the write when the connection was accepted *)
Definition fake_onConnection : U Z := uvl_write 0 [fake_body].
(** callbacks: the write closes, the others do nothing *)
Definition fake_callback (cb : uvl_cb) : U unit :=
  match cb with WriteCb _ status => if status =? 0 then let* _ := uvl_tcp_close in ret tt else ret tt | _ => ret tt end.
Fixpoint fake_callbacks (l : list uvl_cb) : U unit :=
  match l with [] => ret tt | cb :: l => fake_callback cb ;;; fake_callbacks l end.
Definition fake_step (e : uvl_event) : U unit :=
  let* n := gets (fun c => length (cbs c)) in
  let* _ := uvl_step e in
  let* l := gets (fun c => drop n (cbs c)) in
  fake_callbacks l.
Fixpoint fake_run (evs : list uvl_event) : U unit :=
  match evs with [] => ret tt | e :: evs => fake_step e ;;; fake_run evs end.

(** The console's connection test is answered: the whole answer goes out, and
    when it was acknowledged the connection is closed. *)
Theorem fake_internet_answers junk local remote :
  match (let* _ := fake_onConnection in fake_run [EvWriteAsync []; EvSent 66; EvWriteAsync []]) (accepted_client junk local remote 16384) with
  | Ok (_, c) => accepted c = fake_body /\ closed c = true /\ writes c = [] /\ cbs c = [WriteCb 0 0]
  | Stop _ => False
  end.
Proof. by vm_compute. Qed.

(** ** Witnesses *)

(** a connection that was closed by the other side: a block each way *)
Definition sample_exchange : list conn_event :=
  [CTcp (HData [1; 2; 3]); CLwip (EvWriteAsync []); CLwip (EvRecv [9; 8]); CLwip EvReadAsync; CLwip (EvSent 3); CLwip (EvWriteAsync []); CTcp HWritten;
   CTcp HEnd; CLwip EvHandleClosed; CLwip EvHandleClosed].
Definition direct_events : list conn_event := CTcp HConnected :: sample_exchange.
Definition socks_events : list conn_event :=
  [CTcp HConnected; CTcp HWritten; CTcp (HData [5; 0]); CTcp HWritten; CTcp (HData [5; 0; 0; 1; 1; 2; 3; 4; 0; 80])] ++ sample_exchange.
Definition a_site : sockaddr := mkSockaddr [93; 184; 216; 34] 80.
Definition a_console : sockaddr := mkSockaddr [10; 13; 0; 2] 50000.
Definition direct_conn : conn DirectProxyTcp := opened (accepted_client blank_client a_site a_console 8).
Definition socks_conn : conn Socks5ProxyTcp :=
  opened (IProxyTcp0 := Socks5Tcp no_junk a_peer) (accepted_client blank_client a_site a_console 8).

Ltac check_run := vm_compute; repeat match goal with
  | |- _ /\ _ => split
  | |- Forall _ _ => constructor
  | |- _ \/ _ => first [by left|by right]
  | |- (_ < _)%nat => lia
  | |- (_ <= _)%nat => lia
  | |- _ => done
  end.


(** after a block arrived *)
Definition sample_blocked : conn DirectProxyTcp :=
  match conn_run [CTcp HConnected; CTcp (HData [1; 2; 3])] direct_conn with Ok (_, s) => s | Stop _ => direct_conn end.

Lemma direct_conn_ok : conn_ok [] [] direct_conn /\ pend direct_conn = [].
Proof. by apply (opened_ok blank_client a_site a_console 8). Qed.

Lemma sample_blocked_ok : conn_ok [1; 2; 3] [] sample_blocked /\ pend sample_blocked = [].
Proof.
  destruct direct_conn_ok as [Hok Hp].
  assert (Hm : may_run [CTcp HConnected; CTcp (HData [1; 2; 3])] direct_conn) by check_run.
  pose proof (conn_run_ok _ _ _ _ Hok Hp Hm) as Hw.
  assert (Ea : arrived [CTcp HConnected; CTcp (HData [1; 2; 3])] direct_conn = [1; 2; 3]) by (vm_compute; reflexivity).
  assert (Eg : match conn_run [CTcp HConnected; CTcp (HData [1; 2; 3])] direct_conn with Ok (got, _) => got | Stop _ => [] end = []) by (vm_compute; reflexivity).
  rewrite Ea in Hw. apply wp_run in Hw as (got & s & E & Hw). rewrite E in Eg. rewrite Eg in Hw. unfold sample_blocked. rewrite E. exact Hw.
Qed.

Lemma block_passed_witness :
  exists s', conn_run [CLwip (EvWriteAsync []); CLwip (EvSent 3); CLwip (EvWriteAsync [])] sample_blocked = Ok ([], s') /\
    conn_ok [1; 2; 3] [] s' /\ accepted (client s') = [1; 2; 3] /\ h_reading (hstate s') = true.
Proof.
  apply (block_passed [1; 2; 3] [] sample_blocked 3); [apply sample_blocked_ok|apply sample_blocked_ok|check_run..].
Defined.

(** When the gateway is released while a connection still waits for its SOCKS5
    server, the end of the connection uses the proxy's socket, which is null. *)
Theorem release_while_dialing_stops :
  (let* _ := i_close (P := Socks5ProxyTcp) in
   conn_run (IProxyTcp0 := Socks5Tcp no_junk a_peer) [CLwip EvHandleClosed; CLwip EvHandleClosed]) socks_conn = Stop NullDeref.
Proof. by vm_compute. Qed.

(** A SOCKS5 server that cannot be reached or refuses the connection leaves the
    console's connection open: nothing tells it. *)
Theorem refused_connection_hangs :
  match conn_run (IProxyTcp0 := Socks5Tcp no_junk a_peer) [CTcp HConnected; CTcp HWritten; CTcp (HData [5; 255])] socks_conn with
  | Ok (_, s) => h_closed (hstate s) = true /\ closing s = false /\ closed (client s) = false /\ pcb (client s) = true
  | Stop _ => False
  end.
Proof. by vm_compute. Qed.
