(* ===== verification/Stack.v ===== *)
(** * The stack behind the gateway: the rest of uv_lwip.c, UvLwipBase of
    uv_lwip.hpp and struct gateway of gateway.cpp

    The network interface between lwIP and the relay (packets in and out), the
    timer that drives lwIP, the listener and the acceptance of connections, the
    set of connections and its release.  lwIP's answers are inputs. *)

From stdpp Require Import base numbers list gmap.
From S2P Require Import Prelude Bytes Proxy Uvl.
Local Open Scope Z_scope.

(** ** Packets out *)

Definition UVL_NBUF_LEN : Z := 10.
Definition OUTPUT_SIZE : Z := 8192.

(** the chain of a packet is entered in an array of fixed size, [i] entries so
    far, before its length is checked *)
Fixpoint collect (i : Z) (chain : list (list Z)) : outcome Z :=
  match chain with
  | [] => Ok i
  | p :: chain => if UVL_NBUF_LEN <=? i then Stop OutOfBounds else collect (i + 1) chain
  end.

(** [onUvlOutput]: the parts are copied behind each other *)
Fixpoint flatten (buffer : list Z) (bufs : list (list Z)) : outcome (list Z) :=
  match bufs with
  | [] => Ok buffer
  | b :: bufs => if blen buffer + blen b <? OUTPUT_SIZE then flatten (buffer ++ b) bufs else Stop Exited
  end.

(** [uvlOutput] is the relay's [lan_play_gateway_send_packet] *)
Definition onUvlOutput (uvlOutput : list Z -> Z) (bufs : list (list Z)) : outcome Z :=
  try packet := flatten [] bufs in Ok (uvlOutput packet).

Definition ERR_IF : Z := -12.
Definition uvl_netif_output_func (output : list (list Z) -> outcome Z) (chain : list (list Z)) : outcome Z :=
  try i := collect 0 chain in
  if negb (i <? UVL_NBUF_LEN) then Stop AssertFail else
  try r := output chain in
  Ok (if r =? 0 then ERR_OK else ERR_IF).

(** ** Packets in *)

Inductive input_call := Ip4Input (p : list Z) | Ip6Input (p : list Z) | PbufFree.

Definition uvl_netif_input_func (p : list Z) : list input_call :=
  let ip_version := if 0 <? blen p then Z.shiftr (getb p 0) 4 else 0 in
  if ip_version =? 4 then [Ip4Input p] else if ip_version =? 6 then [Ip6Input p] else [PbufFree].

(** [alloc]: a buffer was allocated; [take], [input]: what lwIP answers *)
Definition uvl_input (alloc : bool) (take input : Z) (buf : list Z) : Z * list input_call :=
  if negb alloc then (-1, [])
  else if negb (take =? ERR_OK) then (-1, [PbufFree])
  else if negb (input =? ERR_OK) then (-1, uvl_netif_input_func buf ++ [PbufFree])
  else (0, uvl_netif_input_func buf).

(** ** The timer *)

Inductive timer_call := TcpTmr | IpReassTmr | Nd6Tmr | Ip6ReassTmr.
Definition uvl_timer (tcp_timer_mod4 : Z) : Z * list timer_call :=
  let m := (tcp_timer_mod4 + 1) mod 4 in
  (m, TcpTmr :: if m =? 0 then [IpReassTmr; Nd6Tmr; Ip6ReassTmr] else []).
Fixpoint timer_run (n : nat) (m : Z) : Z * list timer_call :=
  match n with O => (m, []) | S n => let r := uvl_timer m in let r' := timer_run n r.1 in (r'.1, r.2 ++ r'.2) end.

(** ** The handle *)

Record uvl := mkUvlHandle { listener : bool; the_netif : bool; waiting_pcb : option nat; tcp_timer_mod4 : Z; timer_on : bool }.

(** what lwIP and libuv answer when the handle is set up *)
Record setup := mkSetup { su_timer_init : Z; su_timer_start : Z; su_netif : bool; su_new : bool; su_bind : Z; su_listen : bool }.

Definition uvl_init_lwip (x : setup) (h : uvl) : Z * uvl :=
  let h := mkUvlHandle (listener h) true (waiting_pcb h) (tcp_timer_mod4 h) (timer_on h) in
  (if su_netif x then 0 else -1, h).
Definition uvl_init (x : setup) : Z * uvl :=
  let h := mkUvlHandle false false None 0 false in
  if negb (su_timer_init x =? 0) then (su_timer_init x, h)
  else if negb (su_timer_start x =? 0) then (su_timer_start x, h)
  else uvl_init_lwip x (mkUvlHandle false false None 0 true).
Definition uvl_listen (x : setup) (h : uvl) : Z * uvl :=
  if negb (su_new x) then (-1, h)
  else if negb (su_bind x =? ERR_OK) then (-1, h)
  else if negb (su_listen x) then (-1, h)
  else (0, mkUvlHandle true (the_netif h) (waiting_pcb h) (tcp_timer_mod4 h) (timer_on h)).
Definition uvl_close (h : uvl) : uvl := mkUvlHandle false false (waiting_pcb h) (tcp_timer_mod4 h) false.

(** [connection_cb] takes the waiting connection or leaves it *)
Definition uvl_listener_accept_func (connection_cb : uvl -> outcome uvl) (newpcb : nat) (h : uvl) : outcome (Z * list nat * uvl) :=
  if negb (listener h) then Stop AssertFail else
  try h := connection_cb (mkUvlHandle (listener h) (the_netif h) (Some newpcb) (tcp_timer_mod4 h) (timer_on h)) in
  match waiting_pcb h with
  | Some _ => Ok (ERR_ABRT, [newpcb], mkUvlHandle (listener h) (the_netif h) None (tcp_timer_mod4 h) (timer_on h))
  | None => Ok (ERR_OK, [], h)
  end.

(** ** The set of connections: [UvLwipBase] *)

(** [self]: the reference an object keeps to itself while it is in use *)
Record base := mkBase { b_uvl : uvl; connSet : list nat; b_inited : bool; b_closing : bool; lwipClosed : bool; closingCount : Z; self : bool }.
#[global] Instance eta_base : Eta base := fun b =>
  mkBase (b_uvl b) (connSet b) (b_inited b) (b_closing b) (lwipClosed b) (closingCount b) (self b).

Definition base_init (x : setup) (b : base) : outcome base :=
  if b_inited b then Ok b else
  let b := b <| b_inited := true |> <| self := true |> in
  let r := uvl_init x in
  if negb (r.1 =? 0) then Stop Exited else
  let r' := uvl_listen x r.2 in
  if negb (r'.1 =? 0) then Stop Exited else Ok (b <| b_uvl := r'.2 |>).

(** [conn]: the object made for the connection, [None] when there is no proxy;
    then the code goes on with the null pointer *)
Definition onConnect (conn : option nat) (b : base) : outcome base :=
  match conn with
  | None => Stop NullDeref
  | Some c =>
      let h := b_uvl b in
      match waiting_pcb h with
      | None => Stop AssertFail
      | Some _ => Ok (b <| b_uvl := mkUvlHandle (listener h) (the_netif h) None (tcp_timer_mod4 h) (timer_on h) |> <| connSet := c :: connSet b |>)
      end
  end.

Definition onSelfClose (b : base) : base := if negb (lwipClosed b) then b <| lwipClosed := true |> else b <| self := false |>.
Definition removeConnection (c : nat) (b : base) : base :=
  if b_closing b then
    let b := b <| closingCount := closingCount b - 1 |> in if closingCount b =? 0 then onSelfClose b else b
  else b <| connSet := filter (fun d => d <> c) (connSet b) |>.
(** every connection is closed, which removes it *)
Definition release (b : base) : base :=
  let b := b <| b_closing := true |> <| closingCount := Z.of_nat (length (connSet b)) |> <| b_uvl := uvl_close (b_uvl b) |> in
  fold_left (fun b c => removeConnection c b) (connSet b) b.
(** [uvl_timer_close_cb] calls the callback given to [uvl_close] *)
Definition uvl_timer_close_cb (b : base) : base := onSelfClose b.

(** ** The gateway *)

Inductive proxy_kind := DirectProxy | Socks5Proxy (server : sockaddr).
Inductive lwip_kind := FakeInternetUvLwip | UvLwip (p : proxy_kind).
Record gateway := mkGateway { g_proxy : proxy_kind; g_uvlwip : lwip_kind }.

Definition setProxy (socks5_proxy_addr : option sockaddr) : proxy_kind :=
  match socks5_proxy_addr with Some a => Socks5Proxy a | None => DirectProxy end.
Definition initLwip (fake_internet : bool) (p : proxy_kind) : lwip_kind := if fake_internet then FakeInternetUvLwip else UvLwip p.
Definition gateway_init (fake_internet : bool) (socks5_proxy_addr : option sockaddr) : gateway :=
  let p := setProxy socks5_proxy_addr in mkGateway p (initLwip fake_internet p).
(** what a new connection is tied to; [UvLwip] always has a proxy *)
Inductive new_conn := FakeConn | ProxyConn (p : proxy_kind).
Definition newConnection (l : lwip_kind) : new_conn := match l with FakeInternetUvLwip => FakeConn | UvLwip p => ProxyConn p end.

(** ** Properties *)

Lemma collect_spec chain : forall i, 0 <= i -> collect i chain = if i + Z.of_nat (length chain) <=? Z.max i UVL_NBUF_LEN then Ok (i + Z.of_nat (length chain)) else Stop OutOfBounds.
Proof.
  induction chain as [|p chain IH]; intros i Hi; cbn [collect length].
  { rewrite Z.add_0_r, (proj2 (Z.leb_le _ _)) by lia. done. }
  unfold UVL_NBUF_LEN in *. destruct (Z.leb_spec 10 i).
  - rewrite (proj2 (Z.leb_gt _ _)) by lia. done.
  - rewrite IH by lia. replace (i + 1 + Z.of_nat (length chain)) with (i + Z.of_nat (S (length chain))) by lia.
    replace (Z.max (i + 1) 10) with (Z.max i 10) by lia. done.
Qed.

Lemma flatten_spec bufs : forall buffer, blen buffer < OUTPUT_SIZE ->
  flatten buffer bufs = if blen (buffer ++ concat bufs) <? OUTPUT_SIZE then Ok (buffer ++ concat bufs) else Stop Exited.
Proof.
  induction bufs as [|b bufs IH]; intros buffer Hb; cbn [flatten concat].
  { rewrite app_nil_r, (proj2 (Z.ltb_lt _ _)) by done. done. }
  destruct (Z.ltb_spec (blen buffer + blen b) OUTPUT_SIZE).
  - rewrite IH by (rewrite blen_app; lia). by rewrite <- app_assoc.
  - rewrite !blen_app. pose proof (blen_nonneg (concat bufs)). rewrite (proj2 (Z.ltb_ge _ _)) by lia. done.
Qed.

(** A packet of lwIP leaves as one packet of the relay: its parts behind each
    other, when there are fewer than ten and they fit the buffer; a larger packet
    ends the process before a byte is written beyond the buffer, ten parts fail
    an assertion, and only more than ten are written beyond the array. *)
Theorem output_in_one_piece (out : list Z -> Z) chain :
  uvl_netif_output_func (onUvlOutput out) chain =
    (if 10 <? Z.of_nat (length chain) then Stop OutOfBounds
     else if 10 =? Z.of_nat (length chain) then Stop AssertFail
     else if blen (concat chain) <? 8192 then Ok (if out (concat chain) =? 0 then ERR_OK else ERR_IF)
     else Stop Exited).
Proof.
  unfold uvl_netif_output_func, onUvlOutput. rewrite collect_spec by done. unfold UVL_NBUF_LEN. rewrite Z.add_0_l. change (Z.max 0 10) with 10.
  destruct (Z.leb_spec (Z.of_nat (length chain)) 10), (Z.ltb_spec 10 (Z.of_nat (length chain))); try lia; [|done]. cbn [obind].
  destruct (Z.eqb_spec 10 (Z.of_nat (length chain))), (Z.ltb_spec (Z.of_nat (length chain)) 10); try lia; [done|]. cbn [negb].
  rewrite flatten_spec by done. cbn [app]. unfold OUTPUT_SIZE. by destruct (blen (concat chain) <? 8192).
Qed.

#[global] Instance timer_call_eq : EqDecision timer_call.
Proof. solve_decision. Defined.

(** In every four ticks of the timer lwIP's slow timers run once. *)
Theorem timer_rounds n : (timer_run (4 * n) 0).1 = 0 /\
  length (filter (fun c => c = IpReassTmr) (timer_run (4 * n) 0).2) = n /\
  length (filter (fun c => c = TcpTmr) (timer_run (4 * n) 0).2) = (4 * n)%nat.
Proof.
  induction n as [|n (E & Hi & Ht)]; [done|]. replace (4 * S n)%nat with (4 + 4 * n)%nat by lia. set (k := (4 * n)%nat) in *. clearbody k.
  assert (Er : timer_run (4 + k) 0 = ((timer_run k 0).1, [TcpTmr; TcpTmr; TcpTmr; TcpTmr; IpReassTmr; Nd6Tmr; Ip6ReassTmr] ++ (timer_run k 0).2)) by done.
  rewrite Er. cbn [fst snd]. rewrite !list.filter_app, !length_app, Hi, Ht. by split_and!.
Qed.

(** *** Releasing *)

Lemma remove_all l : forall b, b_closing b = true -> lwipClosed b = false -> closingCount b = Z.of_nat (length l) ->
  let b' := fold_left (fun b c => removeConnection c b) l b in lwipClosed b' = negb (length l =? 0)%nat /\ self b' = self b.
Proof.
  induction l as [|c l IH]; intros b Hc Hl Hn; [done|]. cbn [fold_left length].
  assert (E : removeConnection c b = if (length l =? 0)%nat then (b <| closingCount := 0 |>) <| lwipClosed := true |> else b <| closingCount := Z.of_nat (length l) |>).
  { assert (Ek : closingCount b - 1 = Z.of_nat (length l)) by (cbn [length] in Hn; lia).
    unfold removeConnection, onSelfClose. rewrite Hc. cbn. rewrite Ek, Hl. by destruct l. }
  rewrite E. destruct l as [|d l]; [done|]. change (length (d :: l) =? 0)%nat with false. cbv iota.
  destruct (IH (b <| closingCount := Z.of_nat (length (d :: l)) |>)) as [E1 E2]; [done..|]. by rewrite E1, E2.
Qed.

(** The stack lets go of itself when the gateway is closed while a connection is
    open; without one it is never freed, as the count of the connections does
    not reach zero. *)
Theorem release_frees b : b_closing b = false -> lwipClosed b = false -> self b = true ->
  self (uvl_timer_close_cb (release b)) = (length (connSet b) =? 0)%nat.
Proof.
  intros Hc Hl Hs. unfold release, uvl_timer_close_cb. set (b0 := _ <| b_uvl := _ |>).
  destruct (remove_all (connSet b) b0) as [E1 E2]; [done..|]. cbn [connSet] in *. change (connSet b0) with (connSet b).
  unfold onSelfClose. rewrite E1. destruct (length (connSet b) =? 0)%nat; cbn; [|done]. by rewrite E2.
Qed.
