(* ===== verification/Instance.v ===== *)
(** * One relay at a time: acquire_relay_instance of src/src/main.c

    Before it starts, a relay looks for another one among the processes of the
    host and takes the lock on a file that is never removed.  The process list,
    the file's attributes and the answers of the system calls are inputs; the
    lock of [flock] is shared by the processes: it has one holder, and the
    system releases it when that process ends. *)

From stdpp Require Import base numbers list strings.
From Stdlib Require Import Ascii.
From S2P Require Import Prelude Options Address.
Local Open Scope string_scope.
Local Open Scope Z_scope.

(** ** Looking for a running relay *)

(** [strcspn(name, "\n")] *)
Fixpoint first_line (s : string) : string :=
  match s with
  | EmptyString => EmptyString
  | String c s => if Ascii.eqb c "010"%char then EmptyString else String c (first_line s)
  end.

(** an entry of /proc; [comm]: the line read from its file, if there is one *)
Record proc_entry := mkProc { d_name : string; comm : option string }.

Definition other_pid (self : Z) (name : string) : option Z :=
  let '(pid, rest, _) := strtol name in
  if negb (String.eqb rest "") || (pid <=? 0) || (pid =? self) then None else Some pid.

Definition is_relay (self : Z) (e : proc_entry) : bool :=
  match other_pid self (d_name e), comm e with
  | Some _, Some line => String.eqb (first_line line) "grid0-relay"
  | _, _ => false
  end.

Fixpoint scan (self : Z) (entries : list proc_entry) : bool :=
  match entries with
  | [] => false
  | e :: entries => if is_relay self e then true else scan self entries
  end.

(** [None]: /proc cannot be opened *)
Definition report_running_relay (self : Z) (proc : option (list proc_entry)) : Z :=
  match proc with None => 0 | Some entries => if scan self entries then -1 else 0 end.

(** the same on macOS: [count] and [found] are the answers of the two calls of
    [proc_listallpids], [calloc] whether there was memory, a path is missing when
    it cannot be read *)
Definition INT_MAX : Z := 2147483647.
Record mac_procs := mkMac { count : Z; calloc : bool; found : Z; pids : list (Z * option string) }.

(** [strrchr(path, '/')] *)
Fixpoint after_slash (s : string) (last : option string) : option string :=
  match s with
  | EmptyString => last
  | String c s => after_slash s (if Ascii.eqb c "/"%char then Some s else last)
  end.
Definition mac_relay (self : Z) (p : Z * option string) : bool :=
  if (p.1 <=? 0) || (p.1 =? self) then false else
  match p.2 with
  | Some path => match after_slash path None with Some name => String.eqb name "grid0-relay" | None => false end
  | None => false
  end.
Definition mac_report (self : Z) (m : mac_procs) : Z :=
  if (count m <=? 0) || (INT_MAX / 4 - 256 <? count m) then -1
  else if negb (calloc m) then -1
  else if (found m <=? 0) || (count m + 256 <=? found m) then -1
  else if existsb (mac_relay self) (pids m) then -1 else 0.

(** ** The lock *)

Record lock_file := mkLock { lf_open : bool; lf_stat : bool; lf_regular : bool; lf_uid : Z; lf_nlink : Z }.
Inductive host := Linux (proc : option (list proc_entry)) | Mac (procs : mac_procs).

(** the relay that holds the lock *)
Abbreviation holder := (option Z).

Definition acquire_relay_instance (self : Z) (h : host) (f : lock_file) (l : holder) : Z * holder :=
  let report := match h with Linux proc => report_running_relay self proc | Mac procs => mac_report self procs end in
  if negb (report =? 0) then (-1, l) else
  if negb (lf_open f) then (-1, l) else
  if negb (lf_stat f) || negb (lf_regular f) || negb (lf_uid f =? 0) || negb (lf_nlink f =? 1) then (-1, l) else
  match l with
  | Some _ => (-1, l)
  | None => (0, Some self)
  end.

(** ** Relays that come and go *)

Inductive instance_event := Launch (self : Z) (h : host) (f : lock_file) | End (pid : Z).
Record instances := mkInstances { lock : holder; running : list Z }.

Definition instance_step (e : instance_event) (s : instances) : instances :=
  match e with
  | Launch self h f =>
      let r := acquire_relay_instance self h f (lock s) in
      mkInstances r.2 (if r.1 =? 0 then self :: running s else running s)
  | End pid =>
      mkInstances (if bool_decide (lock s = Some pid) then None else lock s) (filter (fun q => q <> pid) (running s))
  end.
Definition instance_run (evs : list instance_event) (s : instances) : instances := fold_left (fun s e => instance_step e s) evs s.

(** ** Properties *)

Lemma scan_spec self entries : scan self entries = true <->
  exists e, In e entries /\ is_relay self e = true.
Proof.
  induction entries as [|e entries IH]; cbn [scan]; [split; [done|by intros (? & [] & _)]|].
  destruct (is_relay self e) eqn:E.
  - split; [|done]. intros _. exists e. split; [by left|done].
  - rewrite IH. split.
    + intros (x & Hi & Hx). exists x. split; [by right|done].
    + intros (x & [->|Hi] & Hx); [congruence|]. by exists x.
Qed.

Definition exclusive (s : instances) : Prop := running s = match lock s with Some p => [p] | None => [] end.

Lemma acquire_spec self h f l : let r := acquire_relay_instance self h f l in
  (r.1 = 0 /\ l = None /\ r.2 = Some self) \/ (r.1 = -1 /\ r.2 = l).
Proof.
  unfold acquire_relay_instance. cbv zeta. destruct (negb (_ =? 0)); [by right|]. destruct (negb (lf_open f)); [by right|].
  destruct (_ || _); [by right|]. destruct l; [by right|by left].
Qed.

Lemma instance_step_ok e s : exclusive s -> exclusive (instance_step e s).
Proof.
  unfold exclusive. intros Hs. destruct e as [self h f|pid]; cbn [instance_step lock running].
  - destruct (acquire_spec self h f (lock s)) as [(E1 & E2 & E3)|(E1 & E2)]; rewrite E1; cbn.
    + rewrite E3, Hs, E2. done.
    + by rewrite E2.
  - rewrite Hs. destruct (lock s) as [p|]; [|done]. case_bool_decide as E.
    + injection E as ->. by rewrite filter_cons_False by (by intros ?).
    + rewrite filter_cons_True; [done|]. congruence.
Qed.

(** At most one relay runs at a time, however relays are started and end, on
    whatever hosts' answers: the relays that were let through are exactly the
    holder of the lock.  A relay is let through only when the process list shows
    no other, and the lock file is a regular file of root with one name. *)
Theorem one_relay evs : let s := instance_run evs (mkInstances None []) in
  running s = match lock s with Some p => [p] | None => [] end /\ (length (running s) <= 1)%nat.
Proof.
  cbv zeta. assert (H : exclusive (instance_run evs (mkInstances None []))).
  { unfold instance_run. assert (H0 : exclusive (mkInstances None [])) by done. revert H0. generalize (mkInstances None []).
    induction evs as [|e evs IH]; intros s Hs; [done|]. by apply IH, instance_step_ok. }
  split; [done|]. rewrite H. destruct (lock _); cbn; lia.
Qed.

(** A running relay is seen in the process list, also one that holds no lock:
    the start is refused. *)
Theorem listed_relay_refused self e entries f l pid : In e entries -> other_pid self (d_name e) = Some pid ->
  comm e = Some "grid0-relay" -> acquire_relay_instance self (Linux (Some entries)) f l = (-1, l).
Proof.
  intros Hi Hp Hc. unfold acquire_relay_instance, report_running_relay.
  rewrite (proj2 (scan_spec self entries)); [done|]. exists e. split; [done|]. unfold is_relay. by rewrite Hp, Hc.
Qed.
