(* ===== verification/MacApp.v ===== *)
(** * The macOS application: RelayModel.swift and NetworkAdapter.swift

    The model behind the window: adapters as [ifconfig] prints them, the choice
    of adapters, starting and stopping the relay through a command that runs as
    administrator, and the script that waits for the relay's report.  What
    commands print, the file system and the administrator's prompt are inputs. *)

From stdpp Require Import base numbers list strings pretty.
From Stdlib Require Import Ascii.
From S2P Require Import Prelude Bytes Text World Sample Options Address Quoting.
Local Open Scope string_scope.
Local Open Scope list_scope.
Local Open Scope Z_scope.

(** ** Adapters *)

Record NetworkAdapter := mkNetworkAdapter {
  na_name : string; addresses : list string; macAddress : option string; subnetMasks : list (string * string) }.

Fixpoint hasPrefix (p s : string) : bool :=
  match p, s with
  | "", _ => true
  | String c p, String d s => Ascii.eqb c d && hasPrefix p s
  | _, _ => false
  end.

Definition isLikelyWiFi (a : NetworkAdapter) : bool := String.eqb (na_name a) "en0".
Definition isLikelyZeroTier (a : NetworkAdapter) : bool :=
  hasPrefix "zt" (na_name a) || hasPrefix "feth" (na_name a) || existsb (hasPrefix "10.147.") (addresses a).

(** [split(whereSeparator:)]: parts that are not empty; [cur] is the part that is
    being read *)
Fixpoint split_where (p : ascii -> bool) (cur : string) (s : string) : list string :=
  match s with
  | "" => if String.eqb cur "" then [] else [cur]
  | String c s =>
      if p c then (if String.eqb cur "" then [] else [cur]) ++ split_where p "" s
      else split_where p (cur +:+ String c "") s
  end.
Definition isWhitespace (c : ascii) : bool := is_blank c.
Definition isNewline (c : ascii) : bool := Ascii.eqb c "010"%char.

(** [UInt32(text, radix: 16)] *)
Definition hex_digit_value (c : ascii) : option Z :=
  let n := Z.of_nat (nat_of_ascii c) in
  if (48 <=? n) && (n <=? 57) then Some (n - 48)
  else if (97 <=? n) && (n <=? 102) then Some (n - 87)
  else if (65 <=? n) && (n <=? 70) then Some (n - 55) else None.
Fixpoint read_hex (s : string) (acc : Z) : option Z :=
  match s with
  | "" => Some acc
  | String c s => match hex_digit_value c with Some d => read_hex s (16 * acc + d) | None => None end
  end.
Definition UInt32_hex (s : string) : option Z :=
  let (sign, s) := match s with String "-"%char s => (-1, s) | String "+"%char s => (1, s) | _ => (1, s) end in
  if String.eqb s "" then None else
  match read_hex s 0 with
  | Some v => if (0 <=? sign * v) && (sign * v <? 4294967296) then Some (sign * v) else None
  | None => None
  end.

Definition drop2 (s : string) : string := match s with String _ (String _ s) => s | _ => "" end.
(** [[24, 16, 8, 0].map ...joined] *)
Definition mask_text (mask : Z) : string := dotted (map (fun k => Z.land (Z.shiftr mask k) 255) [24; 16; 8; 0]).

(** a line of [ifconfig]: an address and its mask *)
Definition line_mask (line : string) : option (string * string) :=
  match split_where isWhitespace "" line with
  | f0 :: f1 :: f2 :: f3 :: _ =>
      if negb (String.eqb f0 "inet") || negb (String.eqb f2 "netmask") then None else
      match (if hasPrefix "0x" f3 then UInt32_hex (drop2 f3) else None) with
      | Some mask => Some (f1, mask_text mask)
      | None => if (length (split_where (Ascii.eqb "."%char) "" f3) =? 4)%nat then Some (f1, f3) else None
      end
  | _ => None
  end.
(** a later line replaces the mask of an earlier one *)
Definition insert_mask (m : list (string * string)) (e : string * string) : list (string * string) :=
  filter (fun x => x.1 <> e.1) m ++ [e].
Definition masks (output : string) : list (string * string) :=
  fold_left (fun m line => match line_mask line with Some e => insert_mask m e | None => m end) (split_where isNewline "" output) [].

(** [inet], [ether]: the matches of the regular expressions in the output *)
Section Discovery.
Context (command : list string -> string) (inet ether : string -> list string).

Definition adapter_of (name : string) : option NetworkAdapter :=
  let output := command [name] in
  if String.eqb output "" then None else Some (mkNetworkAdapter name (inet output) (head (ether output)) (masks output)).

(** the order of the list: Wi-Fi, then ZeroTier, then by name *)
Definition before (l r : NetworkAdapter) : bool :=
  if negb (eqb (isLikelyWiFi l) (isLikelyWiFi r)) then isLikelyWiFi l
  else if negb (eqb (isLikelyZeroTier l) (isLikelyZeroTier r)) then isLikelyZeroTier l
  else String.ltb (na_name l) (na_name r).
Fixpoint insert_sorted (a : NetworkAdapter) (l : list NetworkAdapter) : list NetworkAdapter :=
  match l with [] => [a] | b :: l => if before b a then b :: insert_sorted a l else a :: b :: l end.
Definition adapters_of : list NetworkAdapter :=
  let names := split_where (fun c => Ascii.eqb c " "%char || Ascii.eqb c "010"%char || Ascii.eqb c "009"%char) "" (command ["-l"]) in
  foldr insert_sorted [] (omap adapter_of names).
End Discovery.

(** ** The model *)

(** what runs as administrator: the script that starts the relay of that line, or
    the signal to that process *)
Inductive mac_command := StartLine (line : string) | KillRelay (pid : Z).
Inductive AdministratorResult := Success (pid : Z) | Failure (message : string).
Record RelayModel := mkRelayModel {
  adapters : list NetworkAdapter; wifiInterface : string; zeroTierInterface : string; mac_subnet : string; mac_gateway : string;
  mac_diagnostics : bool; discoverSwitch : bool; relayPath : string; isStarting : bool; relayPID : option Z;
  commands : list mac_command }.
#[global] Instance eta_RelayModel : Eta RelayModel := fun m =>
  mkRelayModel (adapters m) (wifiInterface m) (zeroTierInterface m) (mac_subnet m) (mac_gateway m) (mac_diagnostics m) (discoverSwitch m)
    (relayPath m) (isStarting m) (relayPID m) (commands m).

Definition is_some {A} (o : option A) : bool := match o with Some _ => true | None => false end.

(** [executable]: [isExecutableFile(atPath:)] *)
Definition canStart (executable : string -> bool) (m : RelayModel) : bool :=
  negb (is_some (relayPID m)) && negb (isStarting m) &&
  negb (String.eqb (wifiInterface m) "") && negb (String.eqb (zeroTierInterface m) "") &&
  negb (String.eqb (wifiInterface m) (zeroTierInterface m)) && negb (String.eqb (mac_subnet m) "") &&
  negb (String.eqb (mac_gateway m) "") && executable (relayPath m).

Definition named (n : string) (a : NetworkAdapter) : bool := String.eqb (na_name a) n.
Definition first_where (p : NetworkAdapter -> bool) (l : list NetworkAdapter) : option NetworkAdapter := head (filter (fun a => p a = true) l).
Definition refreshAdapters (found : list NetworkAdapter) (m : RelayModel) : RelayModel :=
  let m := m <| adapters := found |> in
  let m := if existsb (named (wifiInterface m)) found then m else
    m <| wifiInterface := match first_where isLikelyWiFi found with
      | Some a => na_name a
      | None => match head found with Some a => na_name a | None => "" end
      end |> in
  if existsb (named (zeroTierInterface m)) found then m else
  m <| zeroTierInterface := match first_where isLikelyZeroTier found with Some a => na_name a | None => "" end |>.

Definition relay_words (m : RelayModel) : list string :=
  [relayPath m; "--netif"; wifiInterface m; "--zerotier-if"; zeroTierInterface m; "--subnet"; mac_subnet m; "--gateway"; mac_gateway m]
  ++ (if mac_diagnostics m then ["--diagnostics"] else [])
  ++ (if negb (discoverSwitch m) then ["--no-discover-switch"] else []).
(** the first line of the script, up to the redirection *)
Definition executable_line (m : RelayModel) : string := join_words (map swift_shellQuote (relay_words m)).
Definition command_text (c : mac_command) : string := match c with StartLine l => l | KillRelay pid => "kill -INT " +:+ pretty pid end.

Definition mac_start (executable : string -> bool) (m : RelayModel) : RelayModel :=
  if negb (canStart executable m) then m else m <| isStarting := true |> <| commands := commands m ++ [StartLine (executable_line m)] |>.
Definition start_done (r : AdministratorResult) (m : RelayModel) : RelayModel :=
  let m := m <| isStarting := false |> <| commands := tail (commands m) |> in
  match r with Success pid => m <| relayPID := Some pid |> | Failure _ => m end.
Definition mac_stop (m : RelayModel) : RelayModel :=
  match relayPID m with
  | None => m
  | Some pid => m <| isStarting := true |> <| commands := commands m ++ [KillRelay pid] |>
  end.
Definition stop_done (r : AdministratorResult) (m : RelayModel) : RelayModel :=
  let m := m <| isStarting := false |> <| commands := tail (commands m) |> in
  match r with Success _ => m <| relayPID := None |> | Failure _ => m end.

(** ** The command that runs as administrator *)

(** [Int32(text)] *)
Definition Int32_text (s : string) : option Z :=
  let (sign, s) := match s with String "-"%char s => (-1, s) | String "+"%char s => (1, s) | _ => (1, s) end in
  if String.eqb s "" then None else
  let (v, rest) := read_digits s 0 in
  if String.eqb rest "" && (-2147483648 <=? sign * v) && (sign * v <=? 2147483647) then Some (sign * v) else None.

(** [ran]: the process could be started; the texts are trimmed *)
Definition runAsAdministrator (expectsPID ran : bool) (status : Z) (errorText outputText : string) : AdministratorResult :=
  if negb ran then Failure "Could not open the macOS administrator prompt" else
  if negb (status =? 0) then
    Failure (if String.eqb errorText "" then "Administrator authorization was cancelled or failed." else errorText) else
  if negb expectsPID then Success 0 else
  match Int32_text outputText with Some pid => Success pid | None => Failure "The relay started but did not return a process ID." end.

(** the script: in each of a hundred rounds, whether the relay lives and whether
    its log has the line that reports the start with its number *)
Inductive script_result := Reported | Died | TimedOut.
Fixpoint script (attempts : nat) (rounds : nat -> bool * bool) (i : nat) : script_result :=
  match attempts with
  | O => TimedOut
  | S attempts => let '(alive, reported) := rounds i in
      if negb alive then Died else if reported then Reported else script attempts rounds (S i)
  end.
(** its exit status and what it prints; a relay that took too long is stopped *)
Definition script_output (relay_pid : Z) (log : string) (r : script_result) : Z * string * string :=
  match r with
  | Reported => (0, pretty relay_pid, "")
  | Died => (1, "", log)
  | TimedOut => (1, "", "Relay did not finish initialization. Check the relay log.")
  end.
Definition script_kills (r : script_result) : bool := match r with TimedOut => true | _ => false end.

(** ** The window's events *)

(** the buttons are enabled only when their action makes sense; the answer of a
    command goes to the action that started it *)
Inductive mac_event :=
| ClickStart (executable : string -> bool)
| ClickStop
| CommandDone (r : AdministratorResult)
| Refresh (found : list NetworkAdapter)
| Edit (wifi zerotier subnet gateway path : string) (diagnostics discover : bool).

Definition mac_step (e : mac_event) (m : RelayModel) : RelayModel :=
  match e with
  | ClickStart executable => if negb (canStart executable m) || isStarting m || is_some (relayPID m) then m else mac_start executable m
  | ClickStop => if negb (is_some (relayPID m)) || isStarting m then m else mac_stop m
  | CommandDone r =>
      match commands m with
      | [] => m
      | StartLine _ :: _ => start_done r m
      | KillRelay _ :: _ => stop_done r m
      end
  | Refresh found => refreshAdapters found m
  | Edit w z s g p d ds =>
      m <| wifiInterface := w |> <| zeroTierInterface := z |> <| mac_subnet := s |> <| mac_gateway := g |> <| relayPath := p |>
        <| mac_diagnostics := d |> <| discoverSwitch := ds |>
  end.
Definition mac_run (evs : list mac_event) (m : RelayModel) : RelayModel := fold_left (fun m e => mac_step e m) evs m.

Definition fresh_app (path : string) : RelayModel :=
  mkRelayModel [] "" "" "10.147.17.0/24" "10.147.17.1" true true path false None [].

Definition tracks (m : RelayModel) : Prop :=
  match commands m with
  | [] => isStarting m = false
  | [StartLine _] => isStarting m = true /\ relayPID m = None
  | [KillRelay pid] => isStarting m = true /\ relayPID m = Some pid
  | _ => False
  end.

Lemma refresh_same found m : commands (refreshAdapters found m) = commands m /\ isStarting (refreshAdapters found m) = isStarting m /\
  relayPID (refreshAdapters found m) = relayPID m.
Proof. unfold refreshAdapters. cbv zeta. by destruct (existsb _ found), (existsb _ found). Qed.

Lemma mac_step_ok e m : tracks m -> tracks (mac_step e m).
Proof.
  unfold tracks. intros H. destruct e as [ex| |r|found|w z s g p d ds]; cbn [mac_step]; [| | | |done].
  - unfold mac_start. destruct (canStart ex m), (isStarting m) eqn:Es, (relayPID m) eqn:Ep; cbn; try (by rewrite ?Es, ?Ep).
    destruct (commands m) as [|[|] [|]]; cbn; try done; by destruct H.
  - unfold mac_stop. destruct (relayPID m) eqn:Ep, (isStarting m) eqn:Es; cbn; try (by rewrite ?Es, ?Ep).
    destruct (commands m) as [|[|] [|]]; cbn; try done; by destruct H.
  - destruct (commands m) as [|[line|pid] [|]] eqn:Ec; try done; [by rewrite Ec| |]; unfold start_done, stop_done; cbn; rewrite Ec; by destruct r.
  - destruct (refresh_same found m) as (-> & -> & ->). done.
Qed.

(** The macOS application never loses track of the relay: whatever is clicked,
    chosen and answered, at most one command runs as administrator; a start runs
    only while no relay is known, a stop is sent to the relay that was started,
    and the buttons are blocked until it is answered. *)
Theorem app_tracks_relay path evs : let m := mac_run evs (fresh_app path) in
  match commands m with
  | [] => isStarting m = false
  | [StartLine _] => isStarting m = true /\ relayPID m = None
  | [KillRelay pid] => isStarting m = true /\ relayPID m = Some pid
  | _ => False
  end.
Proof.
  cbv zeta. change (tracks (mac_run evs (fresh_app path))). unfold mac_run.
  assert (H : tracks (fresh_app path)) by done. revert H. generalize (fresh_app path).
  induction evs as [|e evs IH]; intros m H; [done|]. by apply IH, mac_step_ok.
Qed.

(** ** Starting the relay *)

Definition no_quote (s : string) : Prop := ~ In squote (String.list_ascii_of_string s).

Lemma replace_none m s : no_quote s -> replace_all squote m s = s.
Proof.
  unfold no_quote. induction s as [|c s IH]; [done|]. cbn. intros H. destruct (Ascii.eqb_spec c squote) as [->|]; [by destruct H; left|].
  rewrite IH; [done|]. intros Hi. apply H. by right.
Qed.

(** The command the macOS application runs as administrator starts the relay
    with the settings of the window: when no setting has a quote, the shell reads
    the line as the relay's words, and the relay reads these as the adapters, the
    subnet, the gateway and the flags that were chosen. *)
Theorem mac_command_accepted m prev : Forall no_quote (relay_words m) ->
  shell_words Plain None (executable_line m) = Some (relay_words m) /\
  parse_arguments prev (relay_words m) = (0, (defaults prev)
    <| opt_netif := Some (wifiInterface m) |> <| opt_zerotier_name := Some (zeroTierInterface m) |>
    <| opt_subnet := Some (mac_subnet m) |> <| opt_gateway_ip := Some (mac_gateway m) |>
    <| opt_diagnostics := mac_diagnostics m |> <| opt_discover_switch := discoverSwitch m |>).
Proof.
  intros Hq. split.
  - unfold executable_line. rewrite <- words_quoted. do 2 f_equal. apply map_ext_in. intros w Hw. unfold swift_shellQuote, shellQuote.
    rewrite !replace_none; [done| |]; by apply (proj1 (Forall_forall _ _) Hq).
  - unfold relay_words. generalize (wifiInterface m) (zeroTierInterface m) (mac_subnet m) (mac_gateway m) (relayPath m). intros w z s g p.
    destruct (mac_diagnostics m), (discoverSwitch m); vm_compute; reflexivity.
Qed.

Lemma script_spec n rounds : forall i,
  match script n rounds i with
  | Reported => exists j, (j < n)%nat /\ rounds (i + j)%nat = (true, true) /\ forall k, (k < j)%nat -> rounds (i + k)%nat = (true, false)
  | Died => exists j, (j < n)%nat /\ (rounds (i + j)%nat).1 = false /\ forall k, (k < j)%nat -> rounds (i + k)%nat = (true, false)
  | TimedOut => forall k, (k < n)%nat -> rounds (i + k)%nat = (true, false)
  end.
Proof.
  induction n as [|n IH]; intros i; cbn [script]; [intros k Hk; lia|]. destruct (rounds i) as [[] []] eqn:E; cbn [negb].
  - exists 0%nat. rewrite Nat.add_0_r. split_and!; [lia|done|intros k Hk; lia].
  - specialize (IH (S i)). assert (Hs : forall k, (k < S n)%nat -> k = 0%nat \/ exists k', k = S k' /\ (k' < n)%nat) by (intros [|k'] ?; [by left|right; exists k'; lia]).
    assert (H0 : rounds (i + 0)%nat = (true, false)) by (by rewrite Nat.add_0_r).
    destruct (script n rounds (S i)).
    + destruct IH as (j & Hj & Hr & Hk). exists (S j). rewrite Nat.add_succ_r. split_and!; [lia|done|]. intros [|k] Hlt; [done|]. rewrite Nat.add_succ_r. apply Hk. lia.
    + destruct IH as (j & Hj & Hr & Hk). exists (S j). rewrite Nat.add_succ_r. split_and!; [lia|done|]. intros [|k] Hlt; [done|]. rewrite Nat.add_succ_r. apply Hk. lia.
    + intros [|k] Hlt; [done|]. rewrite Nat.add_succ_r. apply IH. lia.
  - exists 0%nat. rewrite Nat.add_0_r, E. split_and!; [lia|done|intros k Hk; lia].
  - exists 0%nat. rewrite Nat.add_0_r, E. split_and!; [lia|done|intros k Hk; lia].
Qed.

Lemma unsigned_digit c s : is_digit c = true ->
  match String c s with String "-"%char s => (-1, s) | String "+"%char s => (1, s) | _ => (1, String c s) end = (1, String c s).
Proof. destruct c as [[] [] [] [] [] [] [] []]; done. Qed.

Lemma Int32_pretty z : 0 <= z <= 2147483647 -> Int32_text (pretty z) = Some z.
Proof.
  intros Hz. destruct (read_pretty z "" ltac:(lia) I) as [Hn Hr]. rewrite string_app_nil_r in Hn, Hr. unfold Int32_text.
  destruct Hn as (c & s & E & Hd). rewrite E in Hr |- *. rewrite unsigned_digit by done. cbn [String.eqb]. rewrite Hr. cbn [String.eqb andb].
  rewrite Z.mul_1_l. rewrite (proj2 (Z.leb_le _ _)), (proj2 (Z.leb_le _ _)) by lia. done.
Qed.

(** The macOS application shows the relay as running only when it reported its
    start: the script ends after at most a hundred rounds, and its answer is the
    relay's process exactly when the relay lived up to a round in which its log
    had the line of that process; a relay that did not report is stopped. *)
Theorem start_was_reported pid log rounds : 0 < pid <= 2147483647 ->
  let r := script 100 rounds 0 in
  let '(status, out, err) := script_output pid log r in
  match runAsAdministrator true true status err out with
  | Success p => p = pid /\ exists j, (j < 100)%nat /\ rounds j = (true, true) /\ forall k, (k < j)%nat -> rounds k = (true, false)
  | Failure _ => (script_kills r = true /\ forall k, (k < 100)%nat -> rounds k = (true, false)) \/ (exists j, (j < 100)%nat /\ (rounds j).1 = false)
  end.
Proof.
  intros Hp. pose proof (script_spec 100 rounds 0) as Hs. cbv zeta. destruct (script 100 rounds 0); cbn [script_output]; unfold runAsAdministrator; cbn [negb Z.eqb].
  - rewrite Int32_pretty by lia. split; [done|]. destruct Hs as (j & ? & ? & ?). by exists j.
  - right. destruct Hs as (j & ? & ? & _). by exists j.
  - left. by split.
Qed.

(** The mask of an address, printed in hexadecimal by [ifconfig], is shown as the
    dotted form of its four bytes. *)
Theorem mask_shown mask : 0 <= mask < 4294967296 ->
  inet_pton (mask_text mask) = Some [mask / 16777216; mask / 65536 mod 256; mask / 256 mod 256; mask mod 256].
Proof.
  intros Hm. unfold mask_text. assert (E : map (fun k => Z.land (Z.shiftr mask k) 255) [24; 16; 8; 0] =
    [mask / 16777216; mask / 65536 mod 256; mask / 256 mod 256; mask mod 256]).
  { cbn [map]. change 255 with (Z.ones 8). rewrite !Z.land_ones, !Z.shiftr_div_pow2 by lia.
    change (2 ^ 24) with 16777216. change (2 ^ 16) with 65536. change (2 ^ 8) with 256. change (2 ^ 0) with 1. rewrite Z.div_1_r.
    rewrite (Z.mod_small (mask / 16777216)); [done|]. split; [apply Z.div_pos; lia|apply Z.div_lt_upper_bound; lia]. }
  rewrite E. apply inet_pton_dotted; [done|]. unfold is_byte. repeat constructor; try (apply Z.mod_pos_bound; lia).
  - apply Z.div_pos; lia.
  - apply Z.div_lt_upper_bound; lia.
Qed.

(** ** Witnesses *)

Definition sample_app : RelayModel :=
  (fresh_app "/opt/grid0 relay/grid0-relay") <| wifiInterface := "en0" |> <| zeroTierInterface := "feth1234" |> <| discoverSwitch := false |>.

Lemma mac_command_witness :
  shell_words Plain None (executable_line sample_app) = Some (relay_words sample_app) /\
  parse_arguments Sample.settings (relay_words sample_app) = (0, (defaults Sample.settings)
    <| opt_netif := Some "en0" |> <| opt_zerotier_name := Some "feth1234" |> <| opt_subnet := Some "10.147.17.0/24" |> <| opt_gateway_ip := Some "10.147.17.1" |>
    <| opt_diagnostics := true |> <| opt_discover_switch := false |>).
Proof.
  apply (mac_command_accepted sample_app Sample.settings). repeat constructor; intros Hi; cbn in Hi; repeat destruct Hi as [Hi|Hi]; done.
Defined.

Lemma start_reported_witness :
  match runAsAdministrator true true 0 "" "4711" with
  | Success p => p = 4711 /\ exists j, (j < 100)%nat /\ (j =? 2)%nat = true
  | Failure _ => False
  end.
Proof.
  pose proof (start_was_reported 4711 "" (fun i => (true, (i =? 2)%nat)) ltac:(lia)) as H. vm_compute in H |- *.
  destruct H as (Hp & j & Hj & Hr & _). split; [done|]. exists j. split; [done|]. by injection Hr.
Defined.
