(* ===== verification/Pbuf.v ===== *)
(** * Packet buffers of the TCP/IP stack: lwip/src/core/pbuf.c

    A packet is a chain of [pbuf] structures with reference counts.  The heap
    has the structures and the blocks of memory their payload pointers point
    into: a buffer of type [PBUF_RAM] or [PBUF_POOL] is one block with its
    structure, which is freed with it, the other types refer to a block of
    someone else.  The stack is built on [malloc] (MEM_LIBC_MALLOC,
    MEMP_MEM_MALLOC), which may fail at any call, and with assertions that abort,
    so that [LWIP_ERROR] aborts as well. *)

From stdpp Require Import base numbers list gmap.
From S2P Require Import Prelude Bytes.
Local Open Scope Z_scope.

(** ** Data *)

Abbreviation loc := positive.

Inductive pbuf_layer := PBUF_TRANSPORT | PBUF_IP | PBUF_LINK | PBUF_RAW_TX | PBUF_RAW.
Inductive pbuf_type := PBUF_RAM | PBUF_ROM | PBUF_REF | PBUF_POOL.

Record pbuf := mkPbuf {
  pb_next : option loc; pb_payload : option (loc * Z); pb_tot_len : Z; pb_len : Z; pb_type : pbuf_type; pb_flags : Z; pb_ref : Z }.
#[global] Instance eta_pbuf : Eta pbuf := fun b =>
  mkPbuf (pb_next b) (pb_payload b) (pb_tot_len b) (pb_len b) (pb_type b) (pb_flags b) (pb_ref b).
#[global] Instance pbuf_type_dec : EqDecision pbuf_type.
Proof. solve_decision. Defined.

(** [fails]: whether the calls of [malloc] to come fail; [garbage]: what fresh
    memory holds *)
Record heap := mkHeap { pbufs : gmap loc pbuf; mem : gmap loc (list Z); fails : list bool; garbage : Z }.
#[global] Instance eta_heap : Eta heap := fun h => mkHeap (pbufs h) (mem h) (fails h) (garbage h).

Abbreviation H := (SE heap).
Definition LWIP_ASSERT (b : bool) : H unit := if b then ret tt else stop AssertFail.
Definition LWIP_ERROR (b : bool) : H unit := if b then ret tt else stop AssertFail.

Definition PBUF_FLAG_IS_CUSTOM : Z := 2.
Definition PBUF_LINK_ENCAPSULATION_HLEN : Z := 0.
Definition PBUF_LINK_HLEN : Z := 14.
Definition PBUF_IP_HLEN : Z := 40.
Definition PBUF_TRANSPORT_HLEN : Z := 20.
Definition LWIP_MEM_ALIGN_SIZE (size : Z) : Z := Z.land (size + 3) (Z.lnot 3).
(** [TCP_MSS] is 512 *)
Definition PBUF_POOL_BUFSIZE : Z := LWIP_MEM_ALIGN_SIZE (512 + 40 + PBUF_LINK_ENCAPSULATION_HLEN + PBUF_LINK_HLEN).

(** ** Memory *)

Definition deref (a : loc) : H pbuf :=
  let* ps := gets pbufs in match ps !! a with Some b => ret b | None => stop NullDeref end.
Definition deref_opt (p : option loc) : H pbuf := match p with Some a => deref a | None => stop NullDeref end.
Definition put (a : loc) (b : pbuf) : H unit := modify (fun h => h <| pbufs := <[a := b]> (pbufs h) |>).
Definition update (a : loc) (f : pbuf -> pbuf) : H unit := let* b := deref a in put a (f b).

(** [n] bytes from [payload + i], and the other way *)
Definition read_payload (b : pbuf) (i n : Z) : H (list Z) :=
  let* m := gets mem in
  match pb_payload b with
  | None => stop NullDeref
  | Some (k, o) => match m !! k with None => stop NullDeref | Some bs => lift (rdn bs (o + i) n) end
  end.
Definition write_payload (b : pbuf) (i : Z) (d : list Z) : H unit :=
  let* m := gets mem in
  match pb_payload b with
  | None => stop NullDeref
  | Some (k, o) =>
      match m !! k with
      | None => stop NullDeref
      | Some bs => let? bs := wrn bs (o + i) d in modify (fun h => h <| mem := <[k := bs]> (mem h) |>)
      end
  end.

(** a block of [size] bytes behind the structure of a buffer *)
Definition mem_malloc (size : Z) : H (option loc) :=
  let* f := gets fails in
  modify (fun h => h <| fails := tail f |>) ;;;
  match f with
  | true :: _ => ret None
  | _ =>
      let* a := gets (fun h => fresh (dom (pbufs h) ∪ dom (mem h))) in
      modify (fun h => h <| mem := <[a := replicate (Z.to_nat size) (garbage h)]> (mem h) |>) ;;;
      ret (Some a)
  end.
(** [mem_free] and [memp_free] *)
Definition mem_free (a : loc) : H unit := modify (fun h => h <| pbufs := delete a (pbufs h) |> <| mem := delete a (mem h) |>).

(** a walk along a chain without cycles visits every buffer once at most *)
Definition steps (h : heap) : nat := S (size (pbufs h)).

Definition is_custom (b : pbuf) : bool := negb (Z.land (pb_flags b) PBUF_FLAG_IS_CUSTOM =? 0).

(** ** Freeing, references *)

(** [custom_free]: the function of a custom buffer *)
Section Custom.
Context (custom_free : loc -> H unit).

Fixpoint free_loop (fuel : nat) (p : option loc) (count : Z) : H Z :=
  match p with
  | None => ret count
  | Some a =>
      match fuel with
      | O => stop OutOfFuel
      | S fuel =>
          let* b := deref a in
          LWIP_ASSERT (0 <? pb_ref b) ;;;
          let ref := u16 (pb_ref b - 1) in
          put a (b <| pb_ref := ref |>) ;;;
          if ref =? 0 then
            (if is_custom b then custom_free a else mem_free a) ;;;
            free_loop fuel (pb_next b) (u8 (count + 1))
          else ret count
      end
  end.
Definition pbuf_free (p : option loc) : H Z :=
  LWIP_ASSERT (bool_decide (p <> None)) ;;;
  let* fuel := gets steps in
  free_loop fuel p 0.

Definition pbuf_ref (p : option loc) : H unit :=
  match p with
  | None => ret tt
  | Some a =>
      let* b := deref a in
      let r := u16 (pb_ref b + 1) in
      put a (b <| pb_ref := r |>) ;;;
      LWIP_ASSERT (0 <? r)
  end.

(** ** Allocation *)

Definition layer_offset (l : pbuf_layer) : Z :=
  match l with
  | PBUF_TRANSPORT => PBUF_LINK_ENCAPSULATION_HLEN + PBUF_LINK_HLEN + PBUF_IP_HLEN + PBUF_TRANSPORT_HLEN
  | PBUF_IP => PBUF_LINK_ENCAPSULATION_HLEN + PBUF_LINK_HLEN + PBUF_IP_HLEN
  | PBUF_LINK => PBUF_LINK_ENCAPSULATION_HLEN + PBUF_LINK_HLEN
  | PBUF_RAW_TX => PBUF_LINK_ENCAPSULATION_HLEN
  | PBUF_RAW => 0
  end.

(** the rest of a chain from the pool: [p] its head, [r] its last buffer so far *)
Fixpoint pool_tail (fuel : nat) (p r : loc) (rem_len : Z) : H (option loc) :=
  if rem_len <=? 0 then ret (Some p) else
  match fuel with
  | O => stop OutOfFuel
  | S fuel =>
      let* q := mem_malloc PBUF_POOL_BUFSIZE in
      match q with
      | None => let* _ := pbuf_free (Some p) in ret None
      | Some q =>
          update r (fun b => b <| pb_next := Some q |>) ;;;
          LWIP_ASSERT (rem_len <? 65535) ;;;
          let len := Z.min (u16 rem_len) PBUF_POOL_BUFSIZE in
          put q (mkPbuf None (Some (q, 0)) (u16 rem_len) len PBUF_POOL 0 1) ;;;
          pool_tail fuel p q (rem_len - len)
      end
  end.

(** the flags of the head are set at the end *)
Definition pbuf_alloc (layer : pbuf_layer) (length : Z) (type : pbuf_type) : H (option loc) :=
  let offset := layer_offset layer in
  let start := LWIP_MEM_ALIGN_SIZE offset in
  let done (p : option loc) : H (option loc) :=
    match p with
    | None => ret None
    | Some a => update a (fun b => b <| pb_ref := 1 |> <| pb_flags := 0 |>) ;;; ret (Some a)
    end in
  match type with
  | PBUF_POOL =>
      let* p := mem_malloc PBUF_POOL_BUFSIZE in
      match p with
      | None => ret None
      | Some a =>
          let* g := gets garbage in
          let len := Z.min length (PBUF_POOL_BUFSIZE - start) in
          put a (mkPbuf None (Some (a, start)) length len PBUF_POOL g 1) ;;;
          LWIP_ASSERT (start + len <=? PBUF_POOL_BUFSIZE) ;;;
          LWIP_ASSERT (0 <? PBUF_POOL_BUFSIZE - start) ;;;
          let* r := pool_tail (Z.to_nat length) a a (length - len) in
          done r
      end
  | PBUF_RAM =>
      let* p := mem_malloc (start + LWIP_MEM_ALIGN_SIZE length) in
      match p with
      | None => ret None
      | Some a =>
          let* g := gets garbage in
          put a (mkPbuf None (Some (a, start)) length length PBUF_RAM g g) ;;;
          done (Some a)
      end
  | _ =>
      let* p := mem_malloc 0 in
      match p with
      | None => ret None
      | Some a =>
          let* g := gets garbage in
          put a (mkPbuf None None length length type g g) ;;;
          done (Some a)
      end
  end.

(** [p]: the structure of the caller *)
Definition pbuf_alloced_custom (l : pbuf_layer) (length : Z) (type : pbuf_type) (p : loc)
    (payload_mem : option (loc * Z)) (payload_mem_len : Z) : H (option loc) :=
  let start := LWIP_MEM_ALIGN_SIZE (layer_offset l) in
  if payload_mem_len <? start + length then ret None else
  put p (mkPbuf None (match payload_mem with Some (k, o) => Some (k, o + start) | None => None end)
           length length type PBUF_FLAG_IS_CUSTOM 1) ;;;
  ret (Some p).

(** ** Chains *)

Fixpoint clen_loop (fuel : nat) (p : option loc) (len : Z) : H Z :=
  match p with
  | None => ret len
  | Some a => match fuel with O => stop OutOfFuel | S fuel => let* b := deref a in clen_loop fuel (pb_next b) (u16 (len + 1)) end
  end.
Definition pbuf_clen (p : option loc) : H Z := let* fuel := gets steps in clen_loop fuel p 0.

(** up to the last buffer of the first chain *)
Fixpoint cat_loop (fuel : nat) (p t : loc) : H loc :=
  match fuel with
  | O => stop OutOfFuel
  | S fuel =>
      let* b := deref p in
      match pb_next b with
      | None => ret p
      | Some n =>
          let* tb := deref t in
          put p (b <| pb_tot_len := u16 (pb_tot_len b + pb_tot_len tb) |>) ;;;
          cat_loop fuel n t
      end
  end.
Definition pbuf_cat (h t : option loc) : H unit :=
  match h, t with
  | Some h, Some t =>
      let* fuel := gets steps in
      let* p := cat_loop fuel h t in
      let* b := deref p in
      LWIP_ASSERT (pb_tot_len b =? pb_len b) ;;;
      LWIP_ASSERT (bool_decide (pb_next b = None)) ;;;
      let* tb := deref t in
      put p (b <| pb_tot_len := u16 (pb_tot_len b + pb_tot_len tb) |> <| pb_next := Some t |>)
  | _, _ => LWIP_ERROR false
  end.
Definition pbuf_chain (h t : option loc) : H unit := pbuf_cat h t ;;; pbuf_ref t.

Definition pbuf_dechain (p : loc) : H (option loc) :=
  let* b := deref p in
  let q := pb_next b in
  let* tail_gone :=
    match q with
    | None => ret 1
    | Some qa =>
        let* qb := deref qa in
        LWIP_ASSERT (pb_tot_len qb =? pb_tot_len b - pb_len b) ;;;
        put qa (qb <| pb_tot_len := u16 (pb_tot_len b - pb_len b) |>) ;;;
        update p (fun b => b <| pb_next := None |>) ;;;
        update p (fun b => b <| pb_tot_len := pb_len b |>) ;;;
        pbuf_free (Some qa)
    end in
  let* b := deref p in
  LWIP_ASSERT (pb_tot_len b =? pb_len b) ;;;
  ret (if 0 <? tail_gone then None else q).

(** ** Lengths *)

Fixpoint realloc_loop (fuel : nat) (q : loc) (rem_len grow : Z) : H (loc * Z) :=
  match fuel with
  | O => stop OutOfFuel
  | S fuel =>
      let* b := deref q in
      if rem_len <=? pb_len b then ret (q, rem_len) else
      LWIP_ASSERT (grow <? 65535) ;;;
      put q (b <| pb_tot_len := u16 (pb_tot_len b + u16 grow) |>) ;;;
      match pb_next b with
      | None => stop AssertFail
      | Some n => realloc_loop fuel n (u16 (rem_len - pb_len b)) grow
      end
  end.
(** [mem_trim] returns its argument *)
Definition pbuf_realloc (p : option loc) (new_len : Z) : H unit :=
  match p with
  | None => stop AssertFail
  | Some a =>
      let* b := deref a in
      if pb_tot_len b <=? new_len then ret tt else
      let* fuel := gets steps in
      let* '(q, rem_len) := realloc_loop fuel a new_len (new_len - pb_tot_len b) in
      let* b := deref q in
      put q (b <| pb_len := rem_len |> <| pb_tot_len := rem_len |>) ;;;
      (match pb_next b with None => ret 0 | Some n => pbuf_free (Some n) end) ;;;
      update q (fun b => b <| pb_next := None |>)
  end.

Definition own_memory (b : pbuf) : bool := match pb_type b with PBUF_RAM | PBUF_POOL => true | _ => false end.
Definition move_payload (n : Z) (b : pbuf) : pbuf :=
  b <| pb_payload := match pb_payload b with Some (k, o) => Some (k, o - n) | None => None end |>.
Definition payload_before_block (b : pbuf) : bool := match pb_payload b with Some (_, o) => o <? 0 | None => false end.

(** a payload that is in front of the buffer's block is put back *)
Definition pbuf_header_impl (p : option loc) (header_size_increment : Z) (force : bool) : H Z :=
  match p with
  | None => stop AssertFail
  | Some a =>
      if header_size_increment =? 0 then ret 0 else
      let* b := deref a in
      (if header_size_increment <? 0 then LWIP_ERROR (u16 (- header_size_increment) <=? pb_len b) else ret tt) ;;;
      let b' := move_payload header_size_increment b in
      let b'' := b' <| pb_len := u16 (pb_len b + header_size_increment) |>
                    <| pb_tot_len := u16 (pb_tot_len b + header_size_increment) |> in
      if own_memory b then
        (if payload_before_block b' then ret 1 else put a b'' ;;; ret 0)
      else if (header_size_increment <? 0) || force then put a b'' ;;; ret 0
      else ret 1
  end.
Definition pbuf_header (p : option loc) (n : Z) : H Z := pbuf_header_impl p n false.
Definition pbuf_header_force (p : option loc) (n : Z) : H Z := pbuf_header_impl p n true.
End Custom.

(** ** Copying *)

Definition ERR_OK : Z := 0.
Definition ERR_MEM : Z := -1.

(** the destination is an array of the caller; [left] bytes are copied so far *)
Fixpoint copy_partial_loop (fuel : nat) (p : option loc) (dataptr : list Z) (left len offset : Z) : H (Z * list Z) :=
  if len =? 0 then ret (left, dataptr) else
  match p with
  | None => ret (left, dataptr)
  | Some a =>
      match fuel with
      | O => stop OutOfFuel
      | S fuel =>
          let* b := deref a in
          if negb (offset =? 0) && (pb_len b <=? offset) then
            copy_partial_loop fuel (pb_next b) dataptr left len (u16 (offset - pb_len b))
          else
            let buf_copy_len := let l := u16 (pb_len b - offset) in if len <? l then len else l in
            let* d := read_payload b offset buf_copy_len in
            let? dataptr := wrn dataptr left d in
            copy_partial_loop fuel (pb_next b) dataptr (u16 (left + buf_copy_len)) (u16 (len - buf_copy_len)) 0
      end
  end.
Definition pbuf_copy_partial (buf : option loc) (dataptr : list Z) (len offset : Z) : H (Z * list Z) :=
  LWIP_ERROR (bool_decide (buf <> None)) ;;;
  let* fuel := gets steps in
  copy_partial_loop fuel buf dataptr 0 len offset.

Fixpoint take_loop (fuel : nat) (p : option loc) (dataptr : list Z) (copied_total total_copy_len : Z) : H Z :=
  if total_copy_len =? 0 then ret copied_total else
  match p with
  | None => stop AssertFail
  | Some a =>
      match fuel with
      | O => stop OutOfFuel
      | S fuel =>
          let* b := deref a in
          let buf_copy_len := if pb_len b <? total_copy_len then pb_len b else total_copy_len in
          let? d := rdn dataptr copied_total buf_copy_len in
          write_payload b 0 d ;;;
          take_loop fuel (pb_next b) dataptr (u16 (copied_total + buf_copy_len)) (u16 (total_copy_len - buf_copy_len))
      end
  end.
Definition pbuf_take (buf : option loc) (dataptr : list Z) (len : Z) : H Z :=
  let* b := match buf with Some a => deref a | None => stop AssertFail end in
  LWIP_ERROR (len <=? pb_tot_len b) ;;;
  let* fuel := gets steps in
  let* copied := take_loop fuel buf dataptr 0 len in
  LWIP_ASSERT (copied =? len) ;;;
  ret ERR_OK.

(** the buffer of an offset, and the offset in it *)
Fixpoint skip_loop (fuel : nat) (q : option loc) (offset_left : Z) : H (option loc * Z) :=
  match q with
  | None => ret (None, offset_left)
  | Some a =>
      match fuel with
      | O => stop OutOfFuel
      | S fuel =>
          let* b := deref a in
          if pb_len b <=? offset_left then skip_loop fuel (pb_next b) (u16 (offset_left - pb_len b)) else ret (Some a, offset_left)
      end
  end.
Definition pbuf_skip_const (p : option loc) (in_offset : Z) : H (option loc * Z) :=
  let* fuel := gets steps in skip_loop fuel p in_offset.
Definition pbuf_skip (p : option loc) (in_offset : Z) : H (option loc * Z) := pbuf_skip_const p in_offset.

Definition pbuf_take_at (buf : option loc) (dataptr : list Z) (len offset : Z) : H Z :=
  let* '(q, target_offset) := pbuf_skip buf offset in
  match q with
  | None => ret ERR_MEM
  | Some a =>
      let* b := deref a in
      if pb_tot_len b <? target_offset + len then ret ERR_MEM else
      let first_copy_len := u16 (Z.min (pb_len b - target_offset) len) in
      let? d := rdn dataptr 0 first_copy_len in
      write_payload b target_offset d ;;;
      let remaining_len := u16 (len - first_copy_len) in
      if 0 <? remaining_len then pbuf_take (pb_next b) (ptr dataptr first_copy_len) remaining_len else ret ERR_OK
  end.

(** one round of the [do ... while] copies up to the end of a buffer *)
Definition moved (off : Z) (a : loc) (b : pbuf) : option loc * Z := if pb_len b <=? off then (pb_next b, 0) else (Some a, off).
Definition no_queue (p : option loc) : H unit :=
  match p with
  | None => ret tt
  | Some a => let* b := deref a in LWIP_ERROR (negb (pb_len b =? pb_tot_len b) || bool_decide (pb_next b = None))
  end.
Fixpoint copy_loop (fuel : nat) (p_to p_from : loc) (offset_to offset_from : Z) : H Z :=
  match fuel with
  | O => stop OutOfFuel
  | S fuel =>
      let* t := deref p_to in
      let* f := deref p_from in
      let len := if pb_len f - offset_from <=? pb_len t - offset_to then u16 (pb_len f - offset_from) else u16 (pb_len t - offset_to) in
      let* d := read_payload f offset_from len in
      write_payload t offset_to d ;;;
      let offset_to := u16 (offset_to + len) in
      let offset_from := u16 (offset_from + len) in
      LWIP_ASSERT (offset_to <=? pb_len t) ;;;
      LWIP_ASSERT (offset_from <=? pb_len f) ;;;
      let '(p_from, offset_from) := moved offset_from p_from f in
      let '(p_to, offset_to) := moved offset_to p_to t in
      LWIP_ERROR (bool_decide (p_to <> None) || bool_decide (p_from = None)) ;;;
      no_queue p_from ;;;
      no_queue p_to ;;;
      match p_from, p_to with
      | None, _ => ret ERR_OK
      | Some f, Some t => copy_loop fuel t f offset_to offset_from
      | Some _, None => stop NullDeref
      end
  end.
Definition pbuf_copy (p_to p_from : option loc) : H Z :=
  match p_to, p_from with
  | Some t, Some f =>
      let* tb := deref t in
      let* fb := deref f in
      LWIP_ERROR (pb_tot_len fb <=? pb_tot_len tb) ;;;
      let* fuel := gets steps in
      copy_loop (fuel + fuel) t f 0 0
  | _, _ => stop AssertFail
  end.

Definition pbuf_coalesce (custom_free : loc -> H unit) (p : loc) (layer : pbuf_layer) : H (option loc) :=
  let* b := deref p in
  match pb_next b with
  | None => ret (Some p)
  | Some _ =>
      let* q := pbuf_alloc custom_free layer (pb_tot_len b) PBUF_RAM in
      match q with
      | None => ret (Some p)
      | Some q =>
          let* err := pbuf_copy (Some q) (Some p) in
          LWIP_ASSERT (err =? ERR_OK) ;;;
          pbuf_free custom_free (Some p) ;;;
          ret (Some q)
      end
  end.

(** ** Single bytes and searching *)

Definition pbuf_try_get_at (p : option loc) (offset : Z) : H Z :=
  let* '(q, q_idx) := pbuf_skip_const p offset in
  match q with
  | None => ret (-1)
  | Some a =>
      let* b := deref a in
      if pb_len b <=? q_idx then ret (-1) else let* d := read_payload b q_idx 1 in ret (getb d 0)
  end.
Definition pbuf_get_at (p : option loc) (offset : Z) : H Z :=
  let* r := pbuf_try_get_at p offset in ret (if 0 <=? r then u8 r else 0).
Definition pbuf_put_at (p : option loc) (offset data : Z) : H unit :=
  let* '(q, q_idx) := pbuf_skip p offset in
  match q with
  | None => ret tt
  | Some a => let* b := deref a in if pb_len b <=? q_idx then ret tt else write_payload b q_idx [data]
  end.

Fixpoint memcmp_loop (fuel : nat) (q : option loc) (start : Z) (s2 : list Z) (n i : Z) : H Z :=
  if n <=? i then ret 0 else
  match fuel with
  | O => stop OutOfFuel
  | S fuel =>
      let* a := pbuf_get_at q (u16 (start + i)) in
      let? b := READ_NET8 s2 i in
      if a =? b then memcmp_loop fuel q start s2 n (u16 (i + 1)) else ret (u16 (i + 1))
  end.
Definition pbuf_memcmp (p : option loc) (offset : Z) (s2 : list Z) (n : Z) : H Z :=
  let* b := deref_opt p in
  if pb_tot_len b <? offset + n then ret 65535 else
  let* '(q, start) := pbuf_skip_const p offset in
  memcmp_loop (Z.to_nat n) q start s2 n 0.

Fixpoint memfind_loop (fuel : nat) (p : option loc) (s : list Z) (mem_len max i : Z) : H Z :=
  if max <? i then ret 65535 else
  match fuel with
  | O => stop OutOfFuel
  | S fuel =>
      let* plus := pbuf_memcmp p i s mem_len in
      if plus =? 0 then ret i else memfind_loop fuel p s mem_len max (u16 (i + 1))
  end.
Definition pbuf_memfind (p : option loc) (s : list Z) (mem_len start_offset : Z) : H Z :=
  let* b := deref_opt p in
  let max := u16 (pb_tot_len b - mem_len) in
  if mem_len + start_offset <=? pb_tot_len b then memfind_loop (Z.to_nat (max - start_offset + 1)) p s mem_len max start_offset
  else ret 65535.

(** [substr]: the characters in front of the terminating zero; [None]: a null pointer *)
Definition pbuf_strstr (p : option loc) (substr : option (list Z)) : H Z :=
  match substr with
  | None | Some [] => ret 65535
  | Some s =>
      let* b := deref_opt p in
      if pb_tot_len b =? 65535 then ret 65535 else
      if 65535 <=? blen s then ret 65535 else pbuf_memfind p s (blen s) 0
  end.

(** * Properties *)

(** ** Chains and what they hold *)

Abbreviation seg := (loc * pbuf)%type.

Fixpoint chain (ps : gmap loc pbuf) (o : option loc) (l : list seg) : Prop :=
  match l with
  | [] => o = None
  | (a, b) :: l => o = Some a /\ ps !! a = Some b /\ chain ps (pb_next b) l
  end.

(** the bytes of one buffer, of a chain *)
Definition data (m : gmap loc (list Z)) (b : pbuf) : list Z :=
  match pb_payload b with Some (k, o) => field (default [] (m !! k)) o (pb_len b) | None => [] end.
Definition content (m : gmap loc (list Z)) (l : list seg) : list Z := flat_map (fun s => data m s.2) l.
Definition block (b : pbuf) : option loc := fst <$> pb_payload b.

Definition fits (m : gmap loc (list Z)) (b : pbuf) : Prop :=
  exists k o bs, pb_payload b = Some (k, o) /\ m !! k = Some bs /\ 0 <= o /\ 0 <= pb_len b < 65536 /\ o + pb_len b <= blen bs.

Definition total (l : list seg) : Z := foldr (fun s n => pb_len s.2 + n) 0 l.
Fixpoint totals (l : list seg) : Prop :=
  match l with [] => True | s :: r => pb_tot_len s.2 = total (s :: r) /\ totals r end.

(** a well-formed packet: the invariant stated in pbuf.h, and memory for every
    buffer *)
Record packet (h : heap) (o : option loc) (l : list seg) : Prop := {
  pk_chain : chain (pbufs h) o l;
  pk_fits : Forall (fun s => fits (mem h) s.2) l;
  pk_totals : totals l;
  pk_bound : total l < 65536 }.

Lemma chain_unique ps l1 : forall o l2, chain ps o l1 -> chain ps o l2 -> l1 = l2.
Proof.
  induction l1 as [|[a b] l1 IH]; intros o [|[a' b'] l2]; cbn; try done; [by intros -> (? & _)|by intros (-> & _) ?|].
  intros (-> & Hb & H1) ([= <-] & Hb' & H2). rewrite Hb in Hb'. injection Hb' as <-. f_equal. eauto.
Qed.
Lemma chain_tail ps l1 : forall o l2, chain ps o (l1 ++ l2) -> exists o', chain ps o' l2.
Proof. induction l1 as [|[a b] l1 IH]; intros o l2; cbn; [eauto|]. intros (_ & _ & Hc). eauto. Qed.
Lemma chain_nodup ps l : forall o, chain ps o l -> NoDup l.*1.
Proof.
  induction l as [|[a b] l IH]; intros o Hc; cbn; constructor; [|by destruct Hc as (_ & _ & Hc); eauto].
  intros Hi. apply list_elem_of_fmap in Hi as ([a' b'] & E & Hi). cbn in E. subst a'. apply list_elem_of_split in Hi as (l1 & l2 & ->).
  pose proof Hc as Hc0. destruct Hc as (_ & _ & Hc). apply chain_tail in Hc as [o' Hc].
  assert (o' = Some a /\ o = Some a) as [-> ->] by (by destruct Hc, Hc0).
  pose proof (chain_unique _ _ _ _ Hc Hc0) as E. apply (f_equal length) in E. cbn in E. rewrite length_app in E. cbn in E. lia.
Qed.
Lemma chain_lookup ps l : forall o s, chain ps o l -> s ∈ l -> ps !! s.1 = Some s.2.
Proof.
  induction l as [|[a b] l IH]; intros o s; [by rewrite elem_of_nil|]. cbn. intros (_ & Hb & Hc) [->|Hi]%elem_of_cons; [done|]. eauto.
Qed.
Lemma chain_length ps o l : chain ps o l -> (length l <= size ps)%nat.
Proof.
  intros Hc. rewrite <- size_dom, <- (length_fmap fst). rewrite <- (size_list_to_set (C := gset loc) (l.*1)) by (by eapply chain_nodup).
  apply subseteq_size. intros x Hx. apply elem_of_list_to_set, list_elem_of_fmap in Hx as (s & -> & Hs).
  apply elem_of_dom. eexists. by eapply chain_lookup.
Qed.
(** buffers outside of the chain do not matter *)
Lemma chain_frame ps ps' l : forall o, (forall s, s ∈ l -> ps' !! s.1 = ps !! s.1) -> chain ps o l -> chain ps' o l.
Proof.
  induction l as [|[a b] l IH]; intros o Hf; [done|]. cbn. intros (-> & Hb & Hc). split_and!; [done| |].
  - rewrite <- Hb. apply (Hf (a, b)). by left.
  - apply IH; [|done]. intros s Hs. apply Hf. by right.
Qed.

Arguments content : simpl never.
Arguments total : simpl never.
Lemma content_cons m s l : content m (s :: l) = data m s.2 ++ content m l.
Proof. done. Qed.
Lemma total_cons s l : total (s :: l) = pb_len s.2 + total l.
Proof. done. Qed.
Lemma total_one s : total [s] = pb_len s.2.
Proof. apply Z.add_0_r. Qed.
Lemma tot_app l1 l2 : total (l1 ++ l2) = total l1 + total l2.
Proof. induction l1 as [|s l1 IH]; [done|]. rewrite <- app_comm_cons, !total_cons. lia. Qed.
Lemma content_app m l1 l2 : content m (l1 ++ l2) = content m l1 ++ content m l2.
Proof. apply flat_map_app. Qed.

Lemma blen_data m b : fits m b -> blen (data m b) = pb_len b.
Proof. intros (k & o & bs & Hp & Hm & Ho & Hl & Hb). unfold data. rewrite Hp, Hm. cbn. apply blen_field; lia. Qed.
Lemma blen_content m l : Forall (fun s => fits m s.2) l -> blen (content m l) = total l.
Proof. induction 1 as [|s l Hs Hl IH]; [done|]. rewrite content_cons, total_cons, blen_app, blen_data, IH by done. done. Qed.
Lemma tot_nonneg m l : Forall (fun s => fits m s.2) l -> 0 <= total l.
Proof. intros Hf. rewrite <- (blen_content m l Hf). apply blen_nonneg. Qed.

Lemma packet_tail h a b l : packet h (Some a) ((a, b) :: l) ->
  pbufs h !! a = Some b /\ fits (mem h) b /\ pb_tot_len b = pb_len b + total l /\ packet h (pb_next b) l.
Proof.
  intros [(_ & Hb & Hc) Hf (Ht & Hts) Hbd]. apply Forall_cons_1 in Hf as [Hf Hfs]. split_and!; [done..|]. constructor; try done.
  pose proof (tot_nonneg _ _ Hfs). destruct Hf as (? & ? & ? & _ & _ & _ & ? & _). rewrite total_cons in Hbd. cbn in *. lia.
Qed.

(** ** Single accesses *)

Lemma deref_run h a b : pbufs h !! a = Some b -> deref a h = Ok (b, h).
Proof. unfold deref, bind, gets. by intros ->. Qed.
Lemma read_payload_run h b i n : fits (mem h) b -> 0 <= i -> 0 <= n -> i + n <= pb_len b ->
  read_payload b i n h = Ok (field (data (mem h) b) i n, h).
Proof.
  intros (k & o & bs & Hp & Hm & Ho & Hl & Hb) Hi Hn Hle. unfold read_payload, bind, gets, data. rewrite Hp, Hm. unfold lift. rewrite rdn_ok by lia. cbn.
  do 2 f_equal. unfold field. rewrite skipn_firstn_comm, firstn_firstn, drop_drop. f_equal; [lia|]. f_equal. lia.
Qed.

(** the memory after a write *)
Definition written (m : gmap loc (list Z)) (b : pbuf) (i : Z) (d : list Z) : gmap loc (list Z) :=
  match pb_payload b with Some (k, o) => <[k := splice (default [] (m !! k)) (o + i) d]> m | None => m end.

Lemma write_payload_run h b i d : fits (mem h) b -> 0 <= i -> i + blen d <= pb_len b ->
  write_payload b i d h = Ok (tt, h <| mem := written (mem h) b i d |>).
Proof.
  intros (k & o & bs & Hp & Hm & Ho & Hl & Hb) Hi Hle. unfold write_payload, bind, gets, written. rewrite Hp, Hm. unfold lift. rewrite wrn_ok by lia. cbn.
  done.
Qed.
Lemma written_fits m b i d c : fits m b -> 0 <= i -> i + blen d <= pb_len b -> fits m c -> fits (written m b i d) c.
Proof.
  intros (k & o & bs & Hp & Hm & Ho & Hl & Hb) Hi Hle (k' & o' & bs' & Hp' & Hm' & Ho' & Hl' & Hb').
  unfold written. rewrite Hp. destruct (decide (k = k')) as [<-|Hk].
  - exists k, o', (splice bs' (o + i) d). rewrite lookup_insert_eq, Hm'. cbn. split_and!; try done; try lia.
    rewrite blen_splice; [lia|lia|]. simplify_eq. lia.
  - exists k', o', bs'. rewrite lookup_insert_ne by done. done.
Qed.
Lemma written_lookup m b i d k : block b <> Some k -> written m b i d !! k = m !! k.
Proof. unfold written, block. destruct (pb_payload b) as [[k' o]|]; [|done]. cbn. intros Hk. rewrite lookup_insert_ne; [done|]. congruence. Qed.
Lemma data_lookup m m' b : (forall k, block b = Some k -> m' !! k = m !! k) -> data m' b = data m b.
Proof. unfold data, block. destruct (pb_payload b) as [[k o]|]; [|done]. cbn. intros Hk. by rewrite (Hk k). Qed.
Lemma written_other m b i d c : block c <> block b -> data (written m b i d) c = data m c.
Proof. intros Hb. apply data_lookup. intros k Hk. apply written_lookup. congruence. Qed.
Lemma written_same m b i d : fits m b -> 0 <= i -> i + blen d <= pb_len b -> data (written m b i d) b = splice (data m b) i d.
Proof.
  intros (k & o & bs & Hp & Hm & Ho & Hl & Hb) Hi Hle. unfold written, data. rewrite Hp, lookup_insert_eq, Hm. cbn.
  rewrite field_splice_shift by lia. f_equal. lia.
Qed.

(** one step of a walk: the buffer at hand is loaded *)
Ltac step := match goal with E : pbufs ?h !! ?a = Some ?b |- context [bind (deref ?a) _ ?h] => rewrite (bind_Ok _ _ _ _ _ (deref_run h a b E)) end.

Lemma fits_len m b : fits m b -> 0 <= pb_len b < 65536.
Proof. by intros (? & ? & ? & _ & _ & _ & ? & _). Qed.

(** ** Reading *)

Lemma copy_partial_run h l : forall fuel o dst left len off,
  packet h o l -> (length l <= fuel)%nat -> 0 <= left -> 0 <= len < 65536 -> 0 <= off < 65536 ->
  let n := Z.min len (Z.max 0 (total l - off)) in left + n <= blen dst -> left + n < 65536 ->
  copy_partial_loop fuel o dst left len off h = Ok ((left + n, splice dst left (field (content (mem h) l) off n)), h).
Proof.
  induction l as [|[a b] l IH]; intros fuel o dst left len off Hp Hf Hl Hlen Hoff n Hd Hb.
  - assert (o = None) as -> by apply (pk_chain _ _ _ Hp). assert (n = 0) as E by (unfold n, total; cbn; lia).
    rewrite E, field_none, splice_nil, Z.add_0_r by lia. destruct fuel; cbn; by destruct (len =? 0).
  - destruct fuel as [|fuel]; [cbn in Hf; lia|]. cbn in Hf. assert (o = Some a) as -> by apply (pk_chain _ _ _ Hp).
    apply packet_tail in Hp as (Hb0 & Hfit & _ & Hp). pose proof (fits_len _ _ Hfit) as Hpl.
    pose proof (blen_data _ _ Hfit) as Hdl. pose proof (tot_nonneg _ _ (pk_fits _ _ _ Hp)) as Htn.
    unfold n in *. clear n. rewrite total_cons, content_cons in *. cbn [fst snd] in *. cbn [copy_partial_loop].
    destruct (Z.eqb_spec len 0) as [->|Hne].
    { rewrite Z.min_l by lia. rewrite field_none, splice_nil, Z.add_0_r by lia. done. }
    step. destruct (negb (off =? 0) && (pb_len b <=? off)) eqn:E.
    + bool_lia. rewrite u16_small by lia. rewrite (IH fuel _ dst left len (off - pb_len b)); [|done|lia..].
      rewrite field_app_past, Hdl by lia. do 3 f_equal; [lia|]. do 2 f_equal. lia.
    + assert (Hlt : off < pb_len b \/ off = 0) by (bool_lia; lia). clear E. rewrite (u16_small (pb_len b - off)) by lia.
      set (k := if len <? pb_len b - off then len else pb_len b - off).
      assert (Hk : k = Z.min len (pb_len b - off)) by (unfold k; destruct (Z.ltb_spec len (pb_len b - off)); lia). clearbody k.
      rewrite (bind_Ok _ _ _ _ _ (read_payload_run h b off k Hfit ltac:(lia) ltac:(lia) ltac:(lia))).
      assert (Hfl : blen (field (data (mem h) b) off k) = k) by (apply blen_field; lia).
      unfold lift at 1, bind at 1. rewrite wrn_ok by lia. rewrite !u16_small by lia.
      rewrite (IH fuel _ _ (left + k) (len - k) 0); [|done|lia..|rewrite blen_splice; lia|lia].
      pose proof (fun e => splice_seq dst left (field (data (mem h) b) off k) e ltac:(lia) ltac:(lia)) as Es. rewrite Hfl in Es.
      rewrite Es. do 3 f_equal; [lia|]. f_equal.
      destruct (Z.eq_dec k len) as [->|].
      * rewrite (field_none (content _ _)) by lia. rewrite app_nil_r, field_app_within by lia. f_equal. lia.
      * rewrite <- field_app_across by lia. f_equal. lia.
Qed.

Lemma steps_enough h o l : packet h o l -> (length l < steps h)%nat.
Proof. intros Hp. pose proof (chain_length _ _ _ (pk_chain _ _ _ Hp)). unfold steps. lia. Qed.

(** ** Writing *)

(** every buffer of the chain has memory of its own *)
Definition separate (l : list seg) : Prop := NoDup (map (fun s => block s.2) l).

Lemma packet_mem h m o l : (forall c, fits (mem h) c -> fits m c) -> packet h o l -> packet (h <| mem := m |>) o l.
Proof. intros Hm [Hc Hf Ht Hb]. constructor; try done. eapply Forall_impl; [|exact Hf]. auto. Qed.
Lemma content_other m b i d l : Forall (fun s => block s.2 <> block b) l -> content (written m b i d) l = content m l.
Proof. induction 1 as [|s l Hs _ IH]; [done|]. by rewrite !content_cons, written_other, IH. Qed.
Lemma content_same m m' l : (forall s, s ∈ l -> data m' s.2 = data m s.2) -> content m' l = content m l.
Proof.
  induction l as [|s l IH]; intros Hs; [done|]. rewrite !content_cons, Hs by (by left). f_equal. apply IH. intros s' ?. apply Hs. by right.
Qed.
Lemma separate_cons s l : separate (s :: l) -> separate l /\ Forall (fun t => block t.2 <> block s.2) l.
Proof.
  unfold separate. cbn. intros [Hn Hl]%list.NoDup_cons. split; [done|]. apply Forall_forall. intros t Ht E. apply Hn.
  apply list_elem_of_In, in_map_iff. eauto.
Qed.

(** writing at the start of a buffer, and on in the next *)
Lemma splice_across p q d e : blen d = blen p \/ e = [] /\ blen d <= blen p ->
  splice p 0 d ++ splice q 0 e = splice (p ++ q) 0 (d ++ e).
Proof.
  unfold splice, blen. change (Z.to_nat 0) with 0%nat. rewrite !take_0. cbn [app Nat.add]. intros [E|[-> E]].
  - rewrite drop_ge, app_nil_r, length_app, (drop_app_ge p), <- app_assoc by lia. do 3 f_equal. lia.
  - cbn [app length]. rewrite drop_0, app_nil_r, (drop_app_le p), <- app_assoc by lia. done.
Qed.

Lemma take_run l : forall fuel o src copied n h,
  packet h o l -> separate l -> (length l <= fuel)%nat -> 0 <= copied -> 0 <= n <= total l -> copied + n <= blen src -> copied + n < 65536 ->
  exists m, take_loop fuel o src copied n h = Ok (copied + n, h <| mem := m |>) /\
    content m l = splice (content (mem h) l) 0 (field src copied n) /\
    (forall k, Forall (fun s => block s.2 <> Some k) l -> m !! k = mem h !! k) /\ (forall c, fits (mem h) c -> fits m c).
Proof.
  induction l as [|[a b] l IH]; intros fuel o src copied n h Hp Hs Hf Hc Hn Hl Hb.
  - assert (n = 0) as -> by (unfold total in Hn; cbn in Hn; lia). exists (mem h). rewrite field_none, splice_nil, Z.add_0_r by lia.
    by destruct fuel, h.
  - destruct fuel as [|fuel]; [cbn in Hf; lia|]. cbn in Hf. assert (o = Some a) as -> by apply (pk_chain _ _ _ Hp).
    apply packet_tail in Hp as (Hb0 & Hfit & _ & Hp). pose proof (fits_len _ _ Hfit) as Hpl. pose proof (blen_data _ _ Hfit) as Hdl.
    pose proof (tot_nonneg _ _ (pk_fits _ _ _ Hp)) as Htn. apply separate_cons in Hs as [Hs Hsep]. rewrite total_cons in Hn. cbn [fst snd] in *. cbn [take_loop].
    destruct (Z.eqb_spec n 0) as [->|Hne].
    { exists (mem h). rewrite field_none, splice_nil, Z.add_0_r by lia. by destruct h. }
    step. set (k := if pb_len b <? n then pb_len b else n).
    assert (Hk : k = Z.min (pb_len b) n) by (unfold k; destruct (Z.ltb_spec (pb_len b) n); lia). clearbody k.
    unfold lift at 1, bind at 1. rewrite rdn_ok by lia. assert (Hfl : blen (field src copied k) = k) by (apply blen_field; lia).
    rewrite (bind_Ok _ _ _ _ _ (write_payload_run h b 0 (field src copied k) Hfit ltac:(lia) ltac:(lia))). rewrite !u16_small by lia.
    set (m1 := written (mem h) b 0 (field src copied k)).
    assert (Hm1 : forall c, fits (mem h) c -> fits m1 c) by (intros c; apply written_fits; [done|lia..]).
    destruct (IH fuel (pb_next b) src (copied + k) (n - k) (h <| mem := m1 |>)) as (m & Hrun & Hco & Hot & Hfi);
      [by apply packet_mem|done|lia..|]. exists m. rewrite Hrun. split_and!.
    + do 2 f_equal. lia.
    + rewrite !content_cons, Hco. cbn [snd].
      rewrite (data_lookup (mem (h <| mem := m1 |>)) m b) by (intros k' Ek; apply Hot; rewrite <- Ek; exact Hsep). unfold m1.
      cbn. rewrite content_other, written_same by (done || lia).
      rewrite splice_across.
      * by rewrite <- field_split by lia.
      * rewrite Hfl, Hdl. destruct (Z.eq_dec k (pb_len b)); [by left|]. right. split; [apply field_none; lia|lia].
    + intros k' Hcs. apply Forall_cons_1 in Hcs as [Hcb Hcs]. rewrite Hot by done. apply written_lookup. exact Hcb.
    + intros c Hcf. apply Hfi. by apply Hm1.
Qed.

(** ** Single bytes *)

Lemma skip_run h l : forall fuel o off, packet h o l -> (length l <= fuel)%nat -> 0 <= off < 65536 ->
  exists r, skip_loop fuel o off h = Ok (r, h) /\
    match r with
    | (Some a, i) => exists l1 b l2, l = l1 ++ (a, b) :: l2 /\ off = total l1 + i /\ 0 <= i < pb_len b /\ packet h (Some a) ((a, b) :: l2)
    | (None, i) => off = total l + i /\ 0 <= i
    end.
Proof.
  induction l as [|[a b] l IH]; intros fuel o off Hp Hf Ho.
  - assert (o = None) as -> by apply (pk_chain _ _ _ Hp). exists (None, off). split; [by destruct fuel|]. unfold total. cbn. lia.
  - destruct fuel as [|fuel]; [cbn in Hf; lia|]. cbn in Hf. assert (o = Some a) as -> by apply (pk_chain _ _ _ Hp).
    pose proof Hp as Hp0. apply packet_tail in Hp as (Hb0 & Hfit & _ & Hp). pose proof (fits_len _ _ Hfit) as Hpl. cbn [skip_loop]. step.
    destruct (Z.leb_spec (pb_len b) off).
    + rewrite u16_small by lia. destruct (IH fuel (pb_next b) (off - pb_len b)) as ([[a'|] i] & Hr & Hi); [done|lia..| |]; rewrite Hr; eexists; (split; [done|]).
      * destruct Hi as (l1 & b' & l2 & -> & Hi & Hi' & Hp'). exists ((a, b) :: l1), b', l2. split_and!; try done; [|lia..]. rewrite total_cons. cbn. lia.
      * rewrite total_cons. cbn. lia.
    + eexists. split; [done|]. exists [], b, l. split_and!; try done; [|lia..]. unfold total. cbn. lia.
Qed.

Lemma content_at h l1 a b l2 i : Forall (fun s => fits (mem h) s.2) (l1 ++ (a, b) :: l2) -> 0 <= i < pb_len b ->
  getb (content (mem h) (l1 ++ (a, b) :: l2)) (total l1 + i) = getb (data (mem h) b) i.
Proof.
  intros [H1 [Hb H2]%Forall_cons_1]%Forall_app Hi. cbn in Hb. rewrite content_app, content_cons. cbn [snd].
  rewrite getb_app_r by (rewrite (blen_content _ _ H1); lia). rewrite (blen_content _ _ H1). rewrite getb_app_l by (rewrite blen_data by done; lia). f_equal. lia.
Qed.

Lemma try_get_at_run h o l off : packet h o l -> 0 <= off < 65536 ->
  pbuf_try_get_at o off h = Ok (if off <? total l then getb (content (mem h) l) off else -1, h).
Proof.
  intros Hp Ho. unfold pbuf_try_get_at, pbuf_skip_const. unfold gets at 1, bind at 1 2.
  destruct (skip_run h l (steps h) o off Hp ltac:(apply Nat.lt_le_incl; by eapply steps_enough) Ho) as ([[a|] i] & -> & Hr).
  - destruct Hr as (l1 & b & l2 & -> & -> & Hi & Hp'). apply packet_tail in Hp' as (Hb0 & Hfit & _ & Hp'). step.
    rewrite (proj2 (Z.leb_gt _ _)) by lia. rewrite (bind_Ok _ _ _ _ _ (read_payload_run h b i 1 Hfit ltac:(lia) ltac:(lia) ltac:(lia))).
    rewrite (content_at h l1 a b l2 i) by (apply (pk_fits _ _ _ Hp) || done). rewrite (proj2 (Z.ltb_lt _ _)).
    + unfold ret. do 2 f_equal. rewrite field_lookup by (rewrite ?blen_data by done; lia). f_equal. lia.
    + rewrite tot_app, total_cons. pose proof (tot_nonneg _ _ (pk_fits _ _ _ Hp')). cbn. lia.
  - rewrite (proj2 (Z.ltb_ge _ _)) by lia. done.
Qed.

Lemma get_at_run h o l off : packet h o l -> bytes (content (mem h) l) -> 0 <= off < 65536 ->
  pbuf_get_at o off h = Ok (if off <? total l then getb (content (mem h) l) off else 0, h).
Proof.
  intros Hp Hb Ho. unfold pbuf_get_at. rewrite (bind_Ok _ _ _ _ _ (try_get_at_run h o l off Hp Ho)). unfold ret. destruct (off <? total l); [|done].
  pose proof (getb_byte _ off Hb) as [? ?]. rewrite (proj2 (Z.leb_le _ _)), u8_small by (unfold is_byte; lia). done.
Qed.

(** ** Comparing and searching *)

(** the [n] bytes of [c] from [off] on are the first [n] of [s] *)
Definition occurs_at (c : list Z) (off : Z) (s : list Z) (n : Z) : Prop := forall j, 0 <= j < n -> getb c (off + j) = getb s j.

Lemma memcmp_run h o l start s n : packet h o l -> bytes (content (mem h) l) -> 0 <= start -> start + n <= total l -> n <= blen s ->
  forall fuel i, 0 <= i -> n - i <= Z.of_nat fuel ->
  exists r, memcmp_loop fuel o start s n i h = Ok (r, h) /\ (r = 0 <-> forall j, i <= j < n -> getb (content (mem h) l) (start + j) = getb s j).
Proof.
  intros Hp Hby Hs Hn Hl. pose proof (pk_bound _ _ _ Hp). induction fuel as [|fuel IH]; intros i Hi Hf; cbn [memcmp_loop].
  - rewrite (proj2 (Z.leb_le _ _)) by lia. exists 0. split; [done|]. split; [intros _ j Hj; lia|done].
  - destruct (Z.leb_spec n i); [exists 0; split; [done|]; split; [intros _ j Hj; lia|done]|].
    rewrite u16_small by lia. rewrite (bind_Ok _ _ _ _ _ (get_at_run h o l (start + i) Hp Hby ltac:(lia))).
    rewrite (proj2 (Z.ltb_lt _ _)) by lia. unfold lift at 1, bind at 1. rewrite READ_NET8_ok by lia. rewrite (u16_small (i + 1)) by lia.
    destruct (Z.eqb_spec (getb (content (mem h) l) (start + i)) (getb s i)) as [E|E].
    + destruct (IH (i + 1)) as (r & Hr & Hrs); [lia..|]. exists r. split; [done|]. rewrite Hrs. split; intros Hj j Hij.
      * destruct (Z.eq_dec j i) as [->|]; [done|]. apply Hj. lia.
      * apply Hj. lia.
    + eexists. split; [done|]. split; [lia|]. intros Hj. by destruct E; apply Hj; lia.
Qed.

Lemma pbuf_memcmp_run h o l off s n : packet h o l -> o <> None -> bytes (content (mem h) l) -> 0 <= off -> 0 <= n < 65536 -> off + n <= total l -> n <= blen s ->
  exists r, pbuf_memcmp o off s n h = Ok (r, h) /\ (r = 0 <-> occurs_at (content (mem h) l) off s n).
Proof.
  intros Hp Hne Hby Ho Hn Hle Hl. pose proof (pk_bound _ _ _ Hp). destruct l as [|[a b] l]; [by destruct Hne; apply (pk_chain _ _ _ Hp)|].
  assert (o = Some a) as -> by apply (pk_chain _ _ _ Hp). pose proof Hp as Hp0. apply packet_tail in Hp0 as (Hb0 & _ & Ht & _).
  unfold pbuf_memcmp, deref_opt. step. rewrite (proj2 (Z.ltb_ge _ _)) by (rewrite Ht; rewrite total_cons in Hle; cbn in Hle; lia).
  unfold pbuf_skip_const. unfold gets at 1, bind at 1 2.
  destruct (skip_run h _ (steps h) _ off Hp ltac:(apply Nat.lt_le_incl; by eapply steps_enough) ltac:(lia)) as ([[q|] i] & -> & Hr).
  - destruct Hr as (l1 & b' & l2 & E & -> & Hi & Hp'). rewrite E in *. rewrite content_app in *. pose proof (pk_fits _ _ _ Hp) as [Hf1 _]%Forall_app.
    apply Forall_app in Hby as [_ Hby]. rewrite tot_app in *.
    destruct (memcmp_run h _ _ i s n Hp' Hby ltac:(lia) ltac:(lia) Hl (Z.to_nat n) 0) as (r & Hrun & Hrs); [lia..|].
    exists r. split; [done|]. rewrite Hrs. unfold occurs_at. pose proof (tot_nonneg _ _ Hf1).
    split; intros Hj j Hij; specialize (Hj j ltac:(lia)); rewrite getb_app_r, (blen_content _ _ Hf1) in * by (rewrite (blen_content _ _ Hf1); lia);
      replace (total l1 + i + j - total l1) with (i + j) in * by lia; done.
  - assert (n = 0) as -> by lia. exists 0. split; [done|]. split; [|done]. intros _ j Hj. lia.
Qed.

Lemma memfind_run h o l s n max : packet h o l -> o <> None -> bytes (content (mem h) l) -> 1 <= n -> max + n = total l -> n <= blen s ->
  forall fuel i, 0 <= i -> max - i < Z.of_nat fuel ->
  exists r, memfind_loop fuel o s n max i h = Ok (r, h) /\
    (r = 65535 /\ (forall k, i <= k <= max -> ~ occurs_at (content (mem h) l) k s n) \/
     i <= r <= max /\ occurs_at (content (mem h) l) r s n /\ (forall k, i <= k < r -> ~ occurs_at (content (mem h) l) k s n)).
Proof.
  intros Hp Hne Hby Hn Hm Hl. pose proof (pk_bound _ _ _ Hp). induction fuel as [|fuel IH]; intros i Hi Hf; cbn [memfind_loop].
  - rewrite (proj2 (Z.ltb_lt _ _)) by lia. exists 65535. split; [done|]. left. split; [done|]. lia.
  - destruct (Z.ltb_spec max i); [exists 65535; split; [done|]; left; split; [done|]; lia|].
    destruct (pbuf_memcmp_run h o l i s n) as (r & Hr & Hrs); [done..|lia|lia|lia|done|]. rewrite (bind_Ok _ _ _ _ _ Hr).
    destruct (Z.eqb_spec r 0) as [->|E].
    + exists i. split; [done|]. right. split_and!; [lia|lia|by apply Hrs|]. lia.
    + rewrite u16_small by lia. assert (Hno : ~ occurs_at (content (mem h) l) i s n) by (by rewrite <- Hrs).
      destruct (IH (i + 1)) as (r' & Hr' & [[-> Hk]|(Hb & Hm' & Hk)]); [lia..| |]; rewrite Hr'; eexists; (split; [done|]).
      * left. split; [done|]. intros k ?. destruct (Z.eq_dec k i) as [->|]; [done|]. apply Hk. lia.
      * right. split_and!; [lia|lia|done|]. intros k ?. destruct (Z.eq_dec k i) as [->|]; [done|]. apply Hk. lia.
Qed.

(** ** Freeing *)

Lemma deref_put_ne ps a b c : a <> c -> (<[a := b]> ps : gmap loc pbuf) !! c = ps !! c.
Proof. intros. by rewrite lookup_insert_ne. Qed.

(** a chain that is freed: the buffers of the head with one reference go, the
    next one loses a reference *)
Definition sole (s : seg) : Prop := pb_ref s.2 = 1 /\ is_custom s.2 = false.
Definition released (ps : gmap loc pbuf) (gone : list seg) (rest : list seg) : gmap loc pbuf :=
  let ps := foldr (fun s ps => delete s.1 ps) ps gone in
  match rest with [] => ps | (a, b) :: _ => <[a := b <| pb_ref := pb_ref b - 1 |>]> ps end.
Definition released_mem (m : gmap loc (list Z)) (gone : list seg) : gmap loc (list Z) := foldr (fun s m => delete s.1 m) m gone.

Lemma foldr_delete_comm {A} a gone (ps : gmap loc A) : foldr (fun (s : seg) ps => delete s.1 ps) (delete a ps) gone = delete a (foldr (fun (s : seg) ps => delete s.1 ps) ps gone).
Proof. induction gone as [|s gone IH]; [done|]. cbn. rewrite IH. apply delete_delete. Qed.

Section Free.
Context (custom_free : loc -> H unit).

Lemma free_run gone : forall rest fuel o count h,
  chain (pbufs h) o (gone ++ rest) -> Forall sole gone -> (forall s, head rest = Some s -> 1 < pb_ref s.2 < 65536) ->
  (length (gone ++ rest) <= fuel)%nat ->
  free_loop custom_free fuel o count h =
  Ok (match gone with [] => count | _ => u8 (count + Z.of_nat (length gone)) end,
      h <| pbufs := released (pbufs h) gone rest |> <| mem := released_mem (mem h) gone |>).
Proof.
  induction gone as [|[a b] gone IH]; intros rest fuel o count h Hc Hs Hr Hf.
  - destruct rest as [|[a b] rest]; cbn [app chain] in Hc.
    + subst o. destruct fuel, h; done.
    + destruct Hc as (-> & Hb & _). destruct fuel as [|fuel]; [cbn in Hf; lia|]. cbn [free_loop]. step.
      specialize (Hr _ eq_refl). cbn in Hr. rewrite (proj2 (Z.ltb_lt _ _)) by lia. unfold LWIP_ASSERT, put. unfold ret at 1, bind at 1. unfold modify at 1, bind at 1.
      rewrite u16_small by lia. rewrite (proj2 (Z.eqb_neq _ _)) by lia. by destruct h.
  - destruct fuel as [|fuel]; [cbn in Hf; lia|]. pose proof (chain_nodup _ _ _ Hc) as Hnd. cbn [app chain] in Hc. destruct Hc as (-> & Hb & Hc).
    apply Forall_cons_1 in Hs as [[Hs1 Hs2] Hs]. cbn [fst snd] in *. cbn [free_loop]. step. rewrite Hs1. unfold LWIP_ASSERT, put. cbn [Z.ltb Z.compare].
    unfold ret at 1, bind at 1. unfold modify at 1, bind at 1. change (u16 (1 - 1) =? 0) with true. rewrite Hs2. unfold mem_free, modify at 1, bind at 1.
    cbn [pbufs mem set]. rewrite (IH rest).
    + cbn. rewrite delete_insert_eq. unfold u8. destruct gone as [|s gone].
      * cbn. destruct rest as [|[a' b'] rest]; done.
      * f_equal. f_equal.
        -- rewrite Zplus_mod_idemp_l. f_equal. cbn [length]. lia.
        -- unfold released, released_mem. cbn [foldr]. rewrite !foldr_delete_comm. cbn. rewrite !(delete_delete _ a s.1). done.
    + cbn. rewrite delete_insert_eq. eapply chain_frame; [|exact Hc]. intros s Hi. rewrite lookup_delete_ne; [done|].
      intros ->. cbn in Hnd. apply list.NoDup_cons in Hnd as [Hnd _]. apply Hnd. apply list_elem_of_fmap. eauto.
    + done.
    + done.
    + cbn in Hf. lia.
Qed.
End Free.

(** ** Allocation *)

Lemma chain_replace ps ps' pre r br br' rest : forall o,
  chain ps o (pre ++ [(r, br)]) -> (forall s, s ∈ pre -> ps' !! s.1 = ps !! s.1) -> ps' !! r = Some br' ->
  chain ps' (pb_next br') rest -> chain ps' o (pre ++ (r, br') :: rest).
Proof.
  induction pre as [|[a b] pre IH]; intros o; cbn [app chain].
  - by intros (-> & _ & _) _ Hr Hc.
  - intros (-> & Hb & Hc) Hf Hr Hrest. split_and!; [done| |].
    + rewrite <- Hb. apply (Hf (a, b)). by left.
    + apply IH; [done| |done|done]. intros s Hs. apply Hf. by right.
Qed.

Lemma chain_more ps o pre r br q bq : chain ps o (pre ++ [(r, br)]) -> ps !! q = None -> pb_next bq = None ->
  chain (<[q := bq]> (<[r := br <| pb_next := Some q |>]> ps)) o (pre ++ [(r, br <| pb_next := Some q |>); (q, bq)]).
Proof.
  intros Hc Hq Hn. pose proof (chain_nodup _ _ _ Hc) as Hnd. pose proof (fun s => chain_lookup _ _ _ s Hc) as Hlk.
  assert (Hr : ps !! r = Some br) by (apply (Hlk (r, br)), elem_of_app; right; by left). assert (q <> r) by congruence.
  eapply chain_replace; [exact Hc|..].
  - intros s Hs. rewrite fmap_app in Hnd. apply list.NoDup_app in Hnd as (_ & Hnd & _).
    assert (s.1 <> r) by (intros E; apply (Hnd s.1); [apply list_elem_of_fmap; eauto|rewrite E; by left]).
    specialize (Hlk s ltac:(apply elem_of_app; by left)). by rewrite !lookup_insert_ne by congruence.
  - by rewrite lookup_insert_ne, lookup_insert_eq by congruence.
  - cbn. by rewrite lookup_insert_eq, Hn.
Qed.

(** the total lengths of a chain that is [k] bytes short *)
Fixpoint totals_plus (k : Z) (l : list seg) : Prop :=
  match l with [] => True | s :: r => pb_tot_len s.2 = total (s :: r) + k /\ totals_plus k r end.
Lemma totals_plus_0 l : totals_plus 0 l <-> totals l.
Proof. induction l as [|s l IH]; [done|]. cbn. rewrite IH, Z.add_0_r. done. Qed.
Lemma totals_plus_app k l1 l2 : totals_plus k (l1 ++ l2) <-> totals_plus (k + total l2) l1 /\ totals_plus k l2.
Proof.
  induction l1 as [|s l1 IH]; cbn; [tauto|]. rewrite IH, !total_cons, tot_app.
  replace (pb_len s.2 + total l1 + (k + total l2)) with (pb_len s.2 + (total l1 + total l2) + k) by lia. tauto.
Qed.

(** buffers that are new in [h'] *)
Record allocated (h h' : heap) (l : list seg) : Prop := {
  al_fresh : Forall (fun s => pbufs h !! s.1 = None /\ mem h !! s.1 = None) l;
  al_rest : forall c, c ∉ l.*1 -> pbufs h' !! c = pbufs h !! c /\ mem h' !! c = mem h !! c;
  al_own : Forall (fun s => block s.2 = Some s.1 /\ fits (mem h') s.2) l;
  al_ref : Forall (fun s => pb_ref s.2 = 1) l;
  al_garbage : garbage h' = garbage h }.

Lemma malloc_run size h :
  (true ∈ fails h /\ exists f, mem_malloc size h = Ok (None, h <| fails := f |>)) \/
  (exists a f, mem_malloc size h = Ok (Some a, h <| fails := f |> <| mem := <[a := replicate (Z.to_nat size) (garbage h)]> (mem h) |>) /\
     pbufs h !! a = None /\ mem h !! a = None /\ (true ∈ f -> true ∈ fails h)).
Proof.
  pose proof (is_fresh (dom (pbufs h) ∪ dom (mem h))) as Hfr. apply not_elem_of_union in Hfr as [H1 H2]. apply not_elem_of_dom in H1, H2.
  unfold mem_malloc, bind, gets, modify. destruct (fails h) as [|[] f].
  - right. by eexists _, _.
  - left. split; [by left|]. by eexists.
  - right. eexists _, _. split_and!; [done|done|done|]. by right.
Qed.

Lemma lookup_gone {A} c gone (ps : gmap loc A) :
  foldr (fun (s : seg) ps => delete s.1 ps) ps gone !! c = if bool_decide (c ∈ gone.*1) then None else ps !! c.
Proof.
  induction gone as [|s gone IH]; [done|]. cbn [foldr]. destruct (decide (c ∈ (s :: gone).*1)) as [E|E];
    [rewrite (bool_decide_true _ E)|rewrite (bool_decide_false _ E)]; rewrite fmap_cons, elem_of_cons in E.
  - destruct (decide (s.1 = c)) as [->|]; [by rewrite lookup_delete_eq|]. rewrite lookup_delete_ne, IH by done. rewrite bool_decide_true; [done|]. by destruct E as [->|].
  - rewrite lookup_delete_ne, IH by (intros He; apply E; by left). rewrite bool_decide_false; [done|]. intros ?. apply E. by right.
Qed.
Lemma fresh_undone {A} (ps ps' : gmap loc A) l : Forall (fun s : seg => ps !! s.1 = None) l -> (forall c, c ∉ l.*1 -> ps' !! c = ps !! c) ->
  foldr (fun (s : seg) ps => delete s.1 ps) ps' l = ps.
Proof.
  intros Hf Hr. apply map_eq. intros c. rewrite lookup_gone. case_bool_decide as E; [|by apply Hr].
  apply list_elem_of_fmap in E as (s & -> & Hs). symmetry. by apply (proj1 (Forall_forall _ _) Hf s), list_elem_of_In.
Qed.
(** freeing what was allocated leaves the heap as it was *)
Lemma alloc_undone h h' l : allocated h h' l -> exists f, h' <| pbufs := released (pbufs h') l [] |> <| mem := released_mem (mem h') l |> = h <| fails := f |>.
Proof.
  intros [Hf Hr _ _ Hg]. exists (fails h'). unfold released, released_mem. rewrite (fresh_undone (pbufs h)), (fresh_undone (mem h)).
  - destruct h, h'. cbn in *. by subst.
  - eapply Forall_impl; [|exact Hf]. by intros ? [_ ?].
  - intros c Hc. by apply Hr.
  - eapply Forall_impl; [|exact Hf]. by intros ? [? _].
  - intros c Hc. by apply Hr.
Qed.

Lemma fits_insert m q x b : m !! q = None -> fits m b -> fits (<[q := x]> m) b.
Proof.
  intros Hq (k & o & bs & Hp & Hm & Hx). exists k, o, bs. split; [done|]. split; [|done]. rewrite lookup_insert_ne; [done|]. congruence.
Qed.
Lemma bind_assert {A} b (k : H A) h : b = true -> bind (LWIP_ASSERT b) (fun _ => k) h = k h.
Proof. by intros ->. Qed.
Lemma bind_error {A} b (k : H A) h : b = true -> bind (LWIP_ERROR b) (fun _ => k) h = k h.
Proof. by intros ->. Qed.
Lemma gets_run {A B} (f : heap -> A) (k : A -> H B) h : bind (gets f) k h = k (f h) h.
Proof. done. Qed.
Lemma put_run {A} a b (k : H A) h : bind (put a b) (fun _ => k) h = k (h <| pbufs := <[a := b]> (pbufs h) |>).
Proof. done. Qed.
Lemma update_run {A} a f b (k : H A) h : pbufs h !! a = Some b -> bind (update a f) (fun _ => k) h = k (h <| pbufs := <[a := f b]> (pbufs h) |>).
Proof. intros Hb. unfold update, bind at 1. rewrite (bind_Ok _ _ _ _ _ (deref_run _ _ _ Hb)). done. Qed.

(** one more buffer behind the last *)
Lemma allocated_more h0 h pre r br q x bq f : let h1 := h <| fails := f |> <| mem := <[q := x]> (mem h) |> in
  let br' := br <| pb_next := Some q |> in let h2 := h1 <| pbufs := <[q := bq]> (<[r := br']> (pbufs h)) |> in
  allocated h0 h (pre ++ [(r, br)]) -> NoDup (pre ++ [(r, br)]).*1 -> pbufs h !! q = None -> mem h !! q = None -> pbufs h !! r = Some br ->
  block bq = Some q -> fits (mem h1) bq -> pb_ref bq = 1 -> allocated h0 h2 ((pre ++ [(r, br')]) ++ [(q, bq)]).
Proof.
  cbv zeta. intros [Hf Hr Ho Hre Hg] Hnd Hq Hqm Hrb Hbk Hfit Hrf.
  assert (Hql : q ∉ (pre ++ [(r, br)]).*1).
  { intros (s & -> & Hs)%list_elem_of_fmap. 
    apply list_elem_of_In in Hs. apply (proj1 (Forall_forall _ _) Ho) in Hs as [Hk (k & o & bs & Hp & Hm & _)].
    unfold block in Hk. rewrite Hp in Hk. cbn in Hk. congruence. }
  rewrite fmap_app in Hql. cbn in Hql. rewrite elem_of_app, elem_of_cons, elem_of_nil in Hql.
  destruct (Hr q ltac:(rewrite fmap_app; cbn; rewrite elem_of_app, elem_of_cons, elem_of_nil; tauto)) as [Hr1 Hr2].
  apply Forall_app in Hf as [Hf [Hfr _]%Forall_cons_1]. apply Forall_app in Ho as [Ho [Hor _]%Forall_cons_1]. apply Forall_app in Hre as [Hre [Hrr _]%Forall_cons_1].
  constructor; cbn [pbufs mem garbage set]; cbn.
  - rewrite !Forall_app. split_and!; repeat constructor; try done; cbn; try apply Hfr; congruence.
  - intros c Hc. rewrite !fmap_app in Hc. cbn in Hc. rewrite !elem_of_app, !elem_of_cons, elem_of_nil in Hc.
    assert (c <> q /\ c <> r) as [? ?] by tauto. rewrite !lookup_insert_ne by done. apply Hr. rewrite fmap_app. cbn. rewrite elem_of_app, elem_of_cons, elem_of_nil. tauto.
  - rewrite !Forall_app. split_and!; [|repeat constructor..]; try done.
    + eapply Forall_impl; [|exact Ho]. intros s [? ?]. split; [done|]. by apply fits_insert.
    + apply Hor.
    + apply fits_insert; [done|]. destruct Hor as [_ Hor]. exact Hor.
  - rewrite !Forall_app. split_and!; [done|repeat constructor..]; done.
  - done.
Qed.

Section Alloc.
Context (custom_free : loc -> H unit).

Definition plain (s : seg) : Prop := is_custom s.2 = false.

Lemma pbuf_free_all h a l : chain (pbufs h) (Some a) l -> Forall sole l ->
  pbuf_free custom_free (Some a) h = Ok (u8 (Z.of_nat (length l)), h <| pbufs := released (pbufs h) l [] |> <| mem := released_mem (mem h) l |>).
Proof.
  intros Hc Hs. unfold pbuf_free. rewrite bind_assert by done. unfold gets, bind. rewrite <- (app_nil_r l) in Hc.
  rewrite (free_run custom_free l []); [|done|done|done|].
  - destruct l; done.
  - pose proof (chain_length _ _ _ Hc). unfold steps. lia.
Qed.

(** a chain of the pool is complete, or nothing of it is left *)
Lemma pool_tail_run h0 p : forall fuel pre r br rem h,
  allocated h0 h (pre ++ [(r, br)]) -> chain (pbufs h) (Some p) (pre ++ [(r, br)]) -> totals_plus rem (pre ++ [(r, br)]) ->
  Forall plain (pre ++ [(r, br)]) -> 0 <= rem < 65535 -> rem <= Z.of_nat fuel ->
  (true ∈ fails h /\ exists f, pool_tail custom_free fuel p r rem h = Ok (None, h0 <| fails := f |>)) \/
  (exists h' l, pool_tail custom_free fuel p r rem h = Ok (Some p, h') /\ allocated h0 h' l /\ chain (pbufs h') (Some p) l /\ totals l /\
     total l = total (pre ++ [(r, br)]) + rem /\ Forall plain l).
Proof.
  induction fuel as [|fuel IH]; intros pre r br rem h Ha Hc Ht Hpl Hrem Hf.
  - right. assert (rem = 0) as -> by lia. exists h, (pre ++ [(r, br)]). rewrite totals_plus_0 in Ht. split_and!; try done. lia.
  - cbn [pool_tail]. destruct (Z.leb_spec rem 0).
    { right. assert (rem = 0) as -> by lia. exists h, (pre ++ [(r, br)]). rewrite totals_plus_0 in Ht. split_and!; try done. lia. }
    pose proof (chain_nodup _ _ _ Hc) as Hnd. assert (Hr : pbufs h !! r = Some br) by (eapply (chain_lookup _ _ _ (r, br)); [exact Hc|]; apply elem_of_app; right; by left).
    destruct (malloc_run PBUF_POOL_BUFSIZE h) as [(Hfl & f & E)|(q & f & E & Hq & Hqm & Hfl)]; rewrite (bind_Ok _ _ _ _ _ E); cbv beta iota.
    + left. split; [done|]. destruct (alloc_undone _ _ _ Ha) as [f' Hu]. 
      assert (Hso : Forall sole (pre ++ [(r, br)])) by (apply Forall_forall; intros s Hs;
        split; [exact (proj1 (Forall_forall _ _) (al_ref _ _ _ Ha) s Hs)|exact (proj1 (Forall_forall _ _) Hpl s Hs)]).
      pose proof (pbuf_free_all (h <| fails := f |>)) as Hfa. exists f. rewrite (bind_Ok _ _ _ _ _ (Hfa p _ Hc Hso)).
      unfold ret. do 2 f_equal. clear -Hu. destruct h, h0. cbn in *. unfold set in *. cbn in *. congruence.
    + rewrite (update_run _ _ br) by done. rewrite bind_assert by (apply Z.ltb_lt; lia). rewrite put_run.
      set (len := Z.min (u16 rem) PBUF_POOL_BUFSIZE). set (bq := mkPbuf None (Some (q, 0)) (u16 rem) len PBUF_POOL 0 1).
      assert (Hlen : 0 < len <= rem /\ len <= 568) by (unfold len; rewrite u16_small by lia; change PBUF_POOL_BUFSIZE with 568; lia). clearbody len.
      set (br' := br <| pb_next := Some q |>).
      pose proof (allocated_more h0 h pre r br q (replicate (Z.to_nat PBUF_POOL_BUFSIZE) (garbage h)) bq f Ha Hnd Hq Hqm Hr eq_refl) as Ha'.
      cbv zeta in Ha'. specialize (Ha' ltac:(exists q, 0, (replicate (Z.to_nat PBUF_POOL_BUFSIZE) (garbage h)); cbn [bq pb_payload pb_len mem set]; cbn;
        rewrite lookup_insert_eq, blen_replicate; change (Z.of_nat (Z.to_nat PBUF_POOL_BUFSIZE)) with 568; split_and!; (done || lia)) eq_refl).
      assert (Hqr : q <> r) by congruence.
      destruct (IH (pre ++ [(r, br')]) q bq (rem - len) (h <| fails := f |> <| mem := <[q := replicate (Z.to_nat PBUF_POOL_BUFSIZE) (garbage h)]> (mem h) |>
        <| pbufs := <[q := bq]> (<[r := br']> (pbufs h)) |>)) as [(Hfl' & f' & Hrun)|(h' & l & Hrun & H1 & H2 & H3 & H4 & H5)].
      * exact Ha'.
      * rewrite <- app_assoc. cbn [app]. by apply chain_more.
      * apply totals_plus_app in Ht as [Ht1 [Ht2 _]]. rewrite !totals_plus_app. cbn [totals_plus]. rewrite !total_one in *. cbn in *.
        rewrite u16_small by lia. replace (rem - len + len) with rem by lia. split_and!; (done || lia).
      * apply Forall_app in Hpl as [Hpl [Hpr _]%Forall_cons_1]. rewrite !Forall_app. split_and!; [done|repeat constructor; exact Hpr|repeat constructor].
      * lia.
      * lia.
      * left. split; [by apply Hfl|]. exists f'. exact Hrun.
      * right. exists h', l. split; [exact Hrun|]. split_and!; try done. rewrite H4, !tot_app, !total_one. cbn. lia.
Qed.

(** the fields that are set last *)
Definition flags_set (b : pbuf) : pbuf := b <| pb_ref := 1 |> <| pb_flags := 0 |>.

Lemma flags_set_packet h h0 a b l : chain (pbufs h) (Some a) ((a, b) :: l) -> totals ((a, b) :: l) -> total ((a, b) :: l) < 65536 ->
  allocated h0 h ((a, b) :: l) -> Forall plain l ->
  let h' := h <| pbufs := <[a := flags_set b]> (pbufs h) |> in
  packet h' (Some a) ((a, flags_set b) :: l) /\ allocated h0 h' ((a, flags_set b) :: l) /\ Forall sole ((a, flags_set b) :: l).
Proof.
  intros Hc Ht Hb [Hf Hr Ho Hre Hg] Hpl. cbv zeta. pose proof (chain_nodup _ _ _ Hc) as Hnd. destruct Hc as (_ & Hab & Hc).
  cbn in Hnd. apply list.NoDup_cons in Hnd as [Hnd _]. apply Forall_cons_1 in Hf as [Hf1 Hf]. apply Forall_cons_1 in Ho as [[Ho1 Ho2] Ho].
  apply Forall_cons_1 in Hre as [_ Hre]. split_and!.
  - constructor; [|constructor; [exact Ho2|]|exact Ht|exact Hb].
    + cbn. split_and!; [done|by rewrite lookup_insert_eq|]. eapply chain_frame; [|exact Hc]. intros s Hs. rewrite lookup_insert_ne; [done|].
      intros ->. apply Hnd, list_elem_of_fmap. eauto.
    + eapply Forall_impl; [|exact Ho]. by intros s [_ ?].
  - constructor; cbn; [by constructor| |by constructor|by constructor|done]. intros c Hcn. rewrite lookup_insert_ne; [by apply Hr|].
    intros ->. apply Hcn. by left.
  - constructor; [done|]. apply Forall_forall. intros s Hs. split; [by apply (proj1 (Forall_forall _ _) Hre)|by apply (proj1 (Forall_forall _ _) Hpl)].
Qed.

Lemma own_separate h0 h l : allocated h0 h l -> NoDup l.*1 -> separate l.
Proof.
  intros Ha Hnd. unfold separate. replace (map (fun s => block s.2) l) with (Some <$> l.*1).
  - by apply (NoDup_fmap_2 Some).
  - pose proof (al_own _ _ _ Ha) as Ho. clear -Ho. induction Ho as [|s l [Hs _] _ IH]; [done|]. cbn in *. by rewrite Hs, IH.
Qed.

Lemma pool_start layer : 0 <= LWIP_MEM_ALIGN_SIZE (layer_offset layer) <= 76.
Proof. by destruct layer; cbn; vm_compute. Qed.

Lemma pool_alloc_run h layer length : 0 <= length < 65536 -> Z.land (garbage h) PBUF_FLAG_IS_CUSTOM = 0 ->
  (true ∈ fails h /\ exists f, pbuf_alloc custom_free layer length PBUF_POOL h = Ok (None, h <| fails := f |>)) \/
  (exists a l h', pbuf_alloc custom_free layer length PBUF_POOL h = Ok (Some a, h') /\ packet h' (Some a) l /\ total l = length /\
     allocated h h' l /\ separate l /\ Forall sole l).
Proof.
  intros Hl Hg. unfold pbuf_alloc. pose proof (pool_start layer) as Hst. set (start := LWIP_MEM_ALIGN_SIZE (layer_offset layer)) in *. clearbody start.
  destruct (malloc_run PBUF_POOL_BUFSIZE h) as [(Hfl & f & E)|(a & f & E & Ha & Ham & Hfl)]; rewrite (bind_Ok _ _ _ _ _ E); cbv beta iota;
    [left; split; [done|]; by eexists|].
  rewrite gets_run, put_run. cbn [garbage set]. change PBUF_POOL_BUFSIZE with 568.
  set (len := Z.min length (568 - start)). assert (Hlen : 0 <= len <= length /\ len <= 568 - start /\ length - len < 65535) by lia. clearbody len.
  rewrite !bind_assert by (apply Z.leb_le || apply Z.ltb_lt; lia). set (b := mkPbuf _ _ _ _ _ _ _). set (h1 := set pbufs _ _).
  destruct (pool_tail_run h a (Z.to_nat length) [] a b (length - len) h1) as [(Hfl' & f' & Hrun)|(h' & l & Hrun & H1 & H2 & H3 & H4 & H5)].
  - constructor; cbn; [by constructor| |constructor; [|done]|by constructor|done].
    + intros c Hc. rewrite !lookup_insert_ne; [done|..]; intros ->; apply Hc; by left.
    + split; [done|]. exists a, start, (replicate (Z.to_nat 568) (garbage h)). rewrite lookup_insert_eq, blen_replicate. change (Z.of_nat (Z.to_nat 568)) with 568. cbn. split_and!; (done || lia).
  - cbn. by rewrite lookup_insert_eq.
  - cbn [app totals_plus]. rewrite total_one. cbn. split; [lia|done].
  - constructor; [|done]. unfold plain, is_custom. cbn. by rewrite Hg.
  - lia.
  - lia.
  - left. split; [by apply Hfl|]. exists f'. rewrite (bind_Ok _ _ _ _ _ Hrun). done.
  - right. rewrite (bind_Ok _ _ _ _ _ Hrun). destruct l as [|[a' b'] l]; [done|]. pose proof H2 as (Eq & Hb' & _). injection Eq as <-. cbv beta iota.
    rewrite (update_run a _ b') by done. fold (flags_set b'). cbn [app] in H4. rewrite total_one in H4. cbn in H4. apply Forall_cons_1 in H5 as [_ H5].
    destruct (flags_set_packet h' h a b' l H2 H3 ltac:(lia) H1 H5) as (Hp & Hal & Hso).
    exists a, ((a, flags_set b') :: l). eexists. split; [done|]. split_and!; [exact Hp|rewrite total_cons in *; cbn in *; lia|exact Hal| |exact Hso].
    eapply own_separate; [exact Hal|]. eapply chain_nodup, pk_chain, Hp.
Qed.
End Alloc.

(** ** Joining *)

(** the structures of a list are written one after the other *)
Definition putall (l : list seg) (ps : gmap loc pbuf) : gmap loc pbuf := foldl (fun ps s => <[s.1 := s.2]> ps) ps l.
Lemma putall_other l : forall ps c, c ∉ l.*1 -> putall l ps !! c = ps !! c.
Proof.
  induction l as [|s l IH]; intros ps c Hc; [done|]. rewrite fmap_cons, not_elem_of_cons in Hc. destruct Hc. cbn. unfold putall in IH.
  rewrite IH by done. by rewrite lookup_insert_ne.
Qed.
Lemma putall_in l : forall ps s, NoDup l.*1 -> s ∈ l -> putall l ps !! s.1 = Some s.2.
Proof.
  induction l as [|s l IH]; intros ps s' Hn Hs; [by apply elem_of_nil in Hs|]. cbn in Hn. apply list.NoDup_cons in Hn as [Hn1 Hn2].
  apply elem_of_cons in Hs as [->|Hs]; cbn; [|by apply IH]. change (putall l (<[s.1 := s.2]> ps) !! s.1 = Some s.2). rewrite putall_other by done. apply lookup_insert_eq.
Qed.

(** the first chain with the second behind it *)
Fixpoint joined (k : Z) (t : loc) (l : list seg) : list seg :=
  match l with
  | [] => []
  | [(a, b)] => [(a, b <| pb_tot_len := u16 (pb_tot_len b + k) |> <| pb_next := Some t |>)]
  | (a, b) :: l => (a, b <| pb_tot_len := u16 (pb_tot_len b + k) |>) :: joined k t l
  end.
Lemma joined_cons k t a b s l : joined k t ((a, b) :: s :: l) = (a, b <| pb_tot_len := u16 (pb_tot_len b + k) |>) :: joined k t (s :: l).
Proof. done. Qed.
Lemma joined_one k t a b : joined k t [(a, b)] = [(a, b <| pb_tot_len := u16 (pb_tot_len b + k) |> <| pb_next := Some t |>)].
Proof. done. Qed.
Arguments joined : simpl never.
Lemma joined_locs k t l : (joined k t l).*1 = l.*1.
Proof. induction l as [|[a b] [|s l] IH]; [done|done|]. rewrite joined_cons. cbn [fmap list_fmap fst]. by rewrite IH. Qed.
Lemma joined_content k t m l : content m (joined k t l) = content m l.
Proof. induction l as [|[a b] [|s l] IH]; [done|done|]. rewrite joined_cons, !content_cons, IH. done. Qed.
Lemma joined_total k t l : total (joined k t l) = total l.
Proof. induction l as [|[a b] [|s l] IH]; [done|done|]. rewrite joined_cons, !total_cons, IH. done. Qed.
Lemma joined_fits k t m l : Forall (fun s => fits m s.2) l -> Forall (fun s => fits m s.2) (joined k t l).
Proof.
  induction l as [|[a b] [|s l] IH]; [done|..]; intros [Hb Hl]%Forall_cons_1; [by constructor|]. rewrite joined_cons. constructor; [exact Hb|by apply IH].
Qed.
Lemma total_pos l : Forall (fun s => 0 <= pb_len s.2) l -> 0 <= total l.
Proof. induction 1 as [|s l Hs _ IH]; [done|]. rewrite total_cons. lia. Qed.
Lemma joined_totals k t l : 0 <= k -> totals l -> Forall (fun s => 0 <= pb_len s.2) l -> total l + k < 65536 -> totals_plus k (joined k t l).
Proof.
  intros Hk. induction l as [|[a b] [|s l] IH]; [done|..].
  - intros [Ht _] [Hl _]%Forall_cons_1 Hb. rewrite joined_one. cbn [totals_plus]. rewrite !total_one in *. cbn in *. split; [|done]. rewrite u16_small; lia.
  - intros [Ht Hts] [Hl Hls]%Forall_cons_1 Hb. rewrite joined_cons. cbn [totals_plus]. rewrite total_cons, joined_total.
    rewrite (total_cons (a, b)) in Ht, Hb. cbn [fst snd] in *. pose proof (total_pos _ Hls).
    split; [|apply IH; (done || lia)]. cbn. rewrite u16_small; lia.
Qed.
Lemma joined_chain k t l2 ps : forall l a, l <> [] -> chain ps (Some a) l -> forall ps', (forall s, s ∈ joined k t l -> ps' !! s.1 = Some s.2) ->
  chain ps' (Some t) l2 -> chain ps' (Some a) (joined k t l ++ l2).
Proof.
  induction l as [|[a b] [|[a2 b2] l] IH]; intros a' Hne Hc ps' Hp H2; [done|..]; destruct Hc as ([= ->] & _ & Hc).
  - rewrite joined_one in *. cbn. split_and!; [done| |done]. apply (Hp (a, _)). by left.
  - rewrite joined_cons. cbn [app chain]. split_and!; [done| |].
    + apply (Hp (a, _)). rewrite joined_cons. by left.
    + cbn. assert (En : pb_next b = Some a2) by apply Hc. rewrite En in *. apply IH; [done..| |done]. intros s Hs. apply Hp. rewrite joined_cons. by right.
Qed.

(** the loop of [pbuf_cat] and what follows it *)
Definition cat_rest (t p : loc) : H unit :=
  let* b := deref p in
  LWIP_ASSERT (pb_tot_len b =? pb_len b) ;;;
  LWIP_ASSERT (bool_decide (pb_next b = None)) ;;;
  let* tb := deref t in
  put p (b <| pb_tot_len := u16 (pb_tot_len b + pb_tot_len tb) |> <| pb_next := Some t |>).
Lemma cat_run t tb : forall l fuel a h, l <> [] -> chain (pbufs h) (Some a) l -> totals l -> pbufs h !! t = Some tb -> t ∉ l.*1 -> (length l <= fuel)%nat ->
  (let* p := cat_loop fuel a t in cat_rest t p) h = Ok (tt, h <| pbufs := putall (joined (pb_tot_len tb) t l) (pbufs h) |>).
Proof.
  induction l as [|[a b] l IH]; intros fuel a' h Hne Hc Ht Htb Hnt Hf; [done|]. pose proof (chain_nodup _ _ _ Hc) as Hnd.
  destruct Hc as ([= ->] & Hab & Hc). destruct fuel as [|fuel]; [cbn in Hf; lia|]. cbn [cat_loop]. unfold bind at 1. step. destruct l as [|[a2 b2] l].
  - cbn in Hc. rewrite Hc. unfold ret, cat_rest. step. cbv beta. destruct Ht as [Ht _]. rewrite total_one in Ht. cbn in Ht. rewrite Ht, Hc.
    rewrite !bind_assert by (done || apply Z.eqb_refl). step. rewrite joined_one, Ht. done.
  - assert (En : pb_next b = Some a2) by apply Hc. rewrite En in *. step. rewrite put_run. destruct Ht as [_ Ht].
    rewrite fmap_cons, not_elem_of_cons in Hnt. destruct Hnt as [Hta Hnt]. cbn in Hta. cbn in Hnd. apply list.NoDup_cons in Hnd as [Hnd _].
    set (b' := b <| pb_tot_len := u16 (pb_tot_len b + pb_tot_len tb) |>).
    specialize (IH fuel a2 (h <| pbufs := <[a := b']> (pbufs h) |>) ltac:(done)).
    unfold bind at 1 in IH. rewrite IH.
    + rewrite joined_cons. done.
    + eapply chain_frame; [|exact Hc]. intros s Hs. cbn. rewrite lookup_insert_ne; [done|]. intros ->. apply Hnd.
      change (s.1 ∈ ((a2, b2) :: l).*1). apply list_elem_of_fmap. eauto.
    + done.
    + cbn. by rewrite lookup_insert_ne.
    + done.
    + cbn in Hf |- *. lia.
Qed.

(** ** Shrinking *)

(** the links of a chain without the heap *)
Fixpoint linked (o : option loc) (l : list seg) : Prop :=
  match l with [] => o = None | (a, b) :: l => o = Some a /\ linked (pb_next b) l end.
Lemma chain_linked ps l : forall o, chain ps o l <-> linked o l /\ forall s, s ∈ l -> ps !! s.1 = Some s.2.
Proof.
  induction l as [|[a b] l IH]; intros o; cbn.
  - split; [intros ->; split; [done|]; by intros s Hs%elem_of_nil|by intros [-> _]].
  - rewrite IH. split.
    + intros (-> & Hb & Hl & Hs). split; [done|]. intros s [->|Hi]%elem_of_cons; [done|by apply Hs].
    + intros ((-> & Hl) & Hs). split_and!; [done|apply (Hs (a, b)); by left|done|]. intros s Hi. apply Hs. by right.
Qed.

(** the kept buffers, [grow] being negative *)
Definition shrunk (grow : Z) (l : list seg) : list seg := map (fun s => (s.1, s.2 <| pb_tot_len := pb_tot_len s.2 + grow |>)) l.
Lemma shrunk_locs g l : (shrunk g l).*1 = l.*1.
Proof. induction l as [|s l IH]; [done|]. cbn. f_equal. exact IH. Qed.
Lemma shrunk_content g m l : content m (shrunk g l) = content m l.
Proof. induction l as [|s l IH]; [done|]. cbn [shrunk map]. rewrite !content_cons. f_equal. exact IH. Qed.
Lemma shrunk_total g l : total (shrunk g l) = total l.
Proof. induction l as [|s l IH]; [done|]. cbn [shrunk map]. rewrite !total_cons. f_equal. exact IH. Qed.
Lemma shrunk_totals g k l : totals_plus k l -> totals_plus (k + g) (shrunk g l).
Proof.
  induction l as [|s l IH]; [done|]. intros [Ht Hl]. cbn [shrunk map totals_plus]. rewrite total_cons. fold (shrunk g l). rewrite shrunk_total. split; [|by apply IH].
  rewrite total_cons in Ht. cbn. lia.
Qed.
Lemma shrunk_linked g pre q b b' post : forall o, linked o (pre ++ (q, b) :: post) -> pb_next b' = None -> linked o (shrunk g pre ++ [(q, b')]).
Proof. induction pre as [|[a c] pre IH]; intros o; cbn; [by intros [-> _] ->|]. intros [-> Hl] Hn. split; [done|by apply IH]. Qed.

Lemma u16_grow x g : 0 <= x + g < 65536 -> -65536 <= g -> 0 <= x < 65536 -> u16 (x + u16 g) = x + g.
Proof. intros. unfold u16. rewrite Zplus_mod_idemp_r. apply Z.mod_small. lia. Qed.

Lemma realloc_run : forall l fuel a rem grow h, chain (pbufs h) (Some a) l -> totals l -> Forall (fun s => 0 <= pb_len s.2 < 65536) l -> total l < 65536 ->
  rem = total l + grow -> 0 <= rem -> grow < 0 -> (length l <= fuel)%nat ->
  exists pre q b post, l = pre ++ (q, b) :: post /\ 0 <= rem - total pre <= pb_len b /\
    realloc_loop fuel a rem grow h = Ok ((q, rem - total pre), h <| pbufs := putall (shrunk grow pre) (pbufs h) |>).
Proof.
  induction l as [|[a b] l IH]; intros fuel a' rem grow h Hc Ht Hl Hb Hr H0 Hg Hf; [done|]. pose proof (chain_nodup _ _ _ Hc) as Hnd.
  destruct Hc as ([= ->] & Hab & Hc). destruct fuel as [|fuel]; [cbn in Hf; lia|]. cbn [realloc_loop]. step. apply Forall_cons_1 in Hl as [Hlb Hl]. cbn in Hlb.
  assert (Hl' : Forall (fun s => 0 <= pb_len s.2) l) by (eapply Forall_impl; [|exact Hl]; cbn; lia). pose proof (total_pos _ Hl') as Hpos.
  destruct Ht as [Ht Hts]. rewrite total_cons in *. cbn [snd] in *. destruct (Z.leb_spec rem (pb_len b)) as [Hle|Hgt].
  - exists [], a, b, l. unfold total. cbn. split_and!; [done|lia|lia|]. rewrite Z.sub_0_r. by destruct h.
  - rewrite bind_assert by (apply Z.ltb_lt; lia). rewrite put_run. rewrite u16_grow, (u16_small (rem - _)) by lia.
    destruct l as [|[a2 b2] l]; [unfold total in *; cbn in *; lia|]. assert (En : pb_next b = Some a2) by apply Hc. rewrite En in *.
    set (b' := b <| pb_tot_len := pb_tot_len b + grow |>).
    destruct (IH fuel a2 (rem - pb_len b) grow (h <| pbufs := <[a := b']> (pbufs h) |>)) as (pre & q & bq & post & E & Hrem & Hrun); [|done|done|lia|lia|lia|lia|cbn in Hf |- *; lia|].
    + eapply chain_frame; [|exact Hc]. intros s Hs. cbn. rewrite lookup_insert_ne; [done|]. intros ->. cbn in Hnd. apply list.NoDup_cons in Hnd as [Hnd _].
      apply Hnd. change (s.1 ∈ ((a2, b2) :: l).*1). apply list_elem_of_fmap. eauto.
    + exists ((a, b) :: pre), q, bq, post. rewrite E. rewrite total_cons. cbn [snd]. split_and!; [done|lia|lia|].
      replace (rem - (pb_len b + total pre)) with (rem - pb_len b - total pre) by lia. exact Hrun.
Qed.

(** a buffer made shorter *)
Lemma data_shorter m b n b' : fits m b -> 0 <= n <= pb_len b -> pb_payload b' = pb_payload b -> pb_len b' = n -> data m b' = field (data m b) 0 n /\ fits m b'.
Proof.
  intros (k & o & bs & Hp & Hm & Ho & Hl & Hb) Hn Hpl Hlen. split.
  - unfold data. rewrite Hpl, Hp, Hm, Hlen. cbn. unfold field. rewrite drop_0, take_take. f_equal. lia.
  - exists k, o, bs. rewrite Hpl, Hlen. split_and!; (done || lia).
Qed.
Lemma data_kept m m' b : (forall k, block b = Some k -> m' !! k = m !! k) -> fits m b -> data m' b = data m b /\ fits m' b.
Proof.
  intros Hk Hf. split; [by apply data_lookup|]. destruct Hf as (k & o & bs & Hp & Hm & Hx). exists k, o, bs. split_and!; [done| |apply Hx..].
  rewrite Hk; [done|]. unfold block. by rewrite Hp.
Qed.
Lemma shrunk_in g l s : s ∈ shrunk g l -> exists b, (s.1, b) ∈ l /\ pb_payload s.2 = pb_payload b /\ pb_len s.2 = pb_len b.
Proof.
  intros Hs%list_elem_of_In. unfold shrunk in Hs. apply in_map_iff in Hs as ([a b] & <- & Hi). exists b. split; [by apply list_elem_of_In|done].
Qed.

(** the kept part of a chain whose rest was freed *)
Lemma kept_packet h a pre q b post n : packet h (Some a) (pre ++ (q, b) :: post) -> Forall (fun s => block s.2 = Some s.1) (pre ++ (q, b) :: post) ->
  0 <= n - total pre <= pb_len b -> n < 65536 ->
  let g := n - total (pre ++ (q, b) :: post) in let b' := b <| pb_len := n - total pre |> <| pb_tot_len := n - total pre |> in
  let h' := h <| pbufs := <[q := b' <| pb_next := None |>]> (released (<[q := b']> (putall (shrunk g pre) (pbufs h))) post []) |>
              <| mem := released_mem (mem h) post |> in let l' := shrunk g pre ++ [(q, b' <| pb_next := None |>)] in
  packet h' (Some a) l' /\ content (mem h') l' = field (content (mem h) (pre ++ (q, b) :: post)) 0 n.
Proof.
  intros Hp Hown Hn Hlt. cbv zeta. set (g := n - total (pre ++ (q, b) :: post)).
  set (b2 := b <| pb_len := n - total pre |> <| pb_tot_len := n - total pre |> <| pb_next := None |>). pose proof (chain_nodup _ _ _ (pk_chain _ _ _ Hp)) as Hnd.
  rewrite fmap_app, fmap_cons in Hnd. apply list.NoDup_app in Hnd as (Hnd1 & Hnd2 & Hnd3). apply list.NoDup_cons in Hnd3 as [Hnd3 Hnd4].
  pose proof (pk_fits _ _ _ Hp) as Hf. apply Forall_app in Hf as [Hf1 [Hfq Hf2]%Forall_cons_1]. apply Forall_app in Hown as [Ho1 [Hoq Ho2]%Forall_cons_1].
  cbn [fst snd] in *. destruct (data_shorter _ b (n - total pre) b2 Hfq Hn eq_refl eq_refl) as [Hdq Hfq'].
  assert (Hlk : forall k, k ∉ post.*1 -> released_mem (mem h) post !! k = mem h !! k) by (intros k Hk; unfold released_mem; rewrite lookup_gone; by rewrite bool_decide_false).
  assert (Hpre : forall s, s ∈ pre -> (s.1 ∉ post.*1) /\ s.1 <> q).
  { intros s Hs. assert (Hi : s.1 ∈ pre.*1) by (apply list_elem_of_fmap; eauto). split; [intros Hx; apply (Hnd2 _ Hi); by right|intros E; apply (Hnd2 _ Hi); rewrite E; by left]. }
  assert (Hkeep : Forall (fun s => data (released_mem (mem h) post) s.2 = data (mem h) s.2 /\ fits (released_mem (mem h) post) s.2) pre).
  { apply Forall_forall. intros s Hs. apply data_kept; [|by apply (proj1 (Forall_forall _ _) Hf1)]. intros k Hk. apply Hlk.
    rewrite (proj1 (Forall_forall _ _) Ho1 s Hs) in Hk. injection Hk as <-. by apply Hpre, list_elem_of_In. }
  destruct (data_kept (mem h) (released_mem (mem h) post) b2) as [Hdq2 Hfq2]; [|done|].
  { intros k Hk. apply Hlk. change (block b2) with (block b) in Hk. rewrite Hoq in Hk. by injection Hk as <-. }
  pose proof (blen_content _ _ Hf1) as Hbl. pose proof (tot_nonneg _ _ Hf1). split; [constructor; cbn|].
  - apply chain_linked. split; [eapply shrunk_linked; [apply (proj1 (chain_linked (pbufs h) _ _) (pk_chain _ _ _ Hp))|done]|].
    intros s [Hs|Hs]%elem_of_app; [|apply elem_of_cons in Hs as [->|Hs%elem_of_nil]; [apply lookup_insert_eq|done]].
    destruct (shrunk_in _ _ _ Hs) as (bs & Hi & _). destruct (Hpre _ Hi) as [Hx Hy]. cbn in Hx, Hy. unfold released. rewrite lookup_insert_ne, lookup_gone by congruence.
    rewrite bool_decide_false, lookup_insert_ne by congruence. apply putall_in; [by rewrite shrunk_locs|done].
  - apply Forall_app. split; [|by constructor]. unfold shrunk. apply Forall_map. eapply Forall_impl; [|exact Hkeep]. by intros s [_ ?].
  - rewrite <- totals_plus_0. apply totals_plus_app. rewrite Z.add_0_l, total_one. cbn [totals_plus]. rewrite total_one. cbn. split; [|by rewrite Z.add_0_r].
    replace (n - total pre) with (total ((q, b) :: post) + g) by (unfold g; rewrite tot_app; lia). apply shrunk_totals.
    pose proof (pk_totals _ _ _ Hp) as Ht. rewrite <- totals_plus_0 in Ht. apply totals_plus_app in Ht as [Ht _]. exact Ht.
  - rewrite tot_app, shrunk_total, total_one. cbn. lia.
  - cbn. rewrite content_app, shrunk_content, content_app, !content_cons. cbn [snd content flat_map]. unfold content at 2. cbn. rewrite app_nil_r, Hdq2, Hdq.
    rewrite (content_same (mem h)) by (intros s Hs; by apply (proj1 (Forall_forall _ _) Hkeep), list_elem_of_In).
    replace n with (total pre + (n - total pre)) at 2 by lia. rewrite field_app_across by lia. rewrite (field_all (content _ pre)) by done.
    f_equal. symmetry. apply field_app_within; [lia..|]. rewrite blen_data by done. lia.
Qed.

(** ** The properties *)

Section Properties.
Context (custom_free : loc -> H unit).

Lemma pbuf_take_run h a b l src n : packet h (Some a) ((a, b) :: l) -> separate ((a, b) :: l) -> 0 <= n <= total ((a, b) :: l) -> n <= blen src ->
  exists m, pbuf_take (Some a) src n h = Ok (ERR_OK, h <| mem := m |>) /\
    content m ((a, b) :: l) = splice (content (mem h) ((a, b) :: l)) 0 (field src 0 n) /\
    (forall k, Forall (fun s => block s.2 <> Some k) ((a, b) :: l) -> m !! k = mem h !! k) /\ (forall c, fits (mem h) c -> fits m c).
Proof.
  intros Hp Hs Hn Hl. pose proof Hp as Hp0. apply packet_tail in Hp0 as (Hb & _ & Ht & _). pose proof (pk_bound _ _ _ Hp) as Hbd. unfold pbuf_take. step.
  rewrite bind_error by (apply Z.leb_le; rewrite Ht; rewrite total_cons in Hn; cbn in Hn; lia). rewrite gets_run.
  destruct (take_run _ (steps h) (Some a) src 0 n h Hp Hs ltac:(apply Nat.lt_le_incl; by eapply steps_enough) ltac:(lia) Hn ltac:(lia) ltac:(lia)) as (m & Hr & Hm).
  exists m. rewrite (bind_Ok _ _ _ _ _ Hr). rewrite bind_assert by (apply Z.eqb_eq; lia). done.
Qed.
Lemma pbuf_copy_partial_run h a l dst n off : packet h (Some a) l -> 0 <= off < 65536 -> 0 <= n -> off + n <= total l -> n <= blen dst ->
  pbuf_copy_partial (Some a) dst n off h = Ok ((n, splice dst 0 (field (content (mem h) l) off n)), h).
Proof.
  intros Hp Ho Hn Hle Hd. pose proof (pk_bound _ _ _ Hp). unfold pbuf_copy_partial. rewrite bind_error by done. rewrite gets_run.
  rewrite (copy_partial_run h l) by (try done; try lia; apply Nat.lt_le_incl; by eapply steps_enough). do 3 f_equal; [lia|]. do 2 f_equal. lia.
Qed.

(** C31. A packet of the pool takes data and gives it back.  When no call of
    [malloc] fails, the allocation succeeds; the chain takes the bytes of a
    packet, every part of them can be copied out again, and freeing the chain
    leaves no memory behind.  When a call of [malloc] fails, the same holds or
    the allocation fails and leaves the heap as it was.  It is assumed that fresh
    memory does not look like the flag of a custom buffer: the flags of a chain
    that could not be completed are read before they are set (see
    [alloc_failure_reads_garbage]). *)
Theorem packet_in_and_out h layer data : blen data < 65536 -> Z.land (garbage h) PBUF_FLAG_IS_CUSTOM = 0 ->
  (true ∈ fails h /\ exists f, pbuf_alloc custom_free layer (blen data) PBUF_POOL h = Ok (None, h <| fails := f |>)) \/
  (exists a h1 h2, pbuf_alloc custom_free layer (blen data) PBUF_POOL h = Ok (Some a, h1) /\
     pbuf_take (Some a) data (blen data) h1 = Ok (ERR_OK, h2) /\
     (forall dst off n, 0 <= off < 65536 -> 0 <= n -> off + n <= blen data -> n <= blen dst ->
        pbuf_copy_partial (Some a) dst n off h2 = Ok ((n, splice dst 0 (field data off n)), h2)) /\
     exists count f, pbuf_free custom_free (Some a) h2 = Ok (count, h <| fails := f |>)).
Proof.
  intros Hl Hg. destruct (pool_alloc_run custom_free h layer (blen data) ltac:(pose proof (blen_nonneg data); lia) Hg)
    as [Hn|(a & l & h1 & Hrun & Hp & Ht & Ha & Hs & Hso)]; [by left|right].
  destruct l as [|[a' b] l]; [by pose proof (pk_chain _ _ _ Hp)|]. assert (a' = a) as -> by (pose proof (pk_chain _ _ _ Hp) as [E _]; congruence).
  destruct (pbuf_take_run h1 a b l data (blen data) Hp Hs ltac:(pose proof (blen_nonneg data); lia) ltac:(lia)) as (m & Htk & Hco & Hot & Hfi).
  pose proof (packet_mem h1 m _ _ Hfi Hp) as Hp2. set (h2 := h1 <| mem := m |>) in *.
  assert (Hc2 : content (mem h2) ((a, b) :: l) = data).
  { cbn. rewrite Hco, field_all by done. unfold splice. change (Z.to_nat 0) with 0%nat. rewrite take_0, drop_ge, app_nil_r; [done|].
    pose proof (blen_content _ _ (pk_fits _ _ _ Hp)) as E. unfold blen in E, Ht |- *. lia. }
  exists a, h1, h2. split_and!; [done|done| |].
  - intros dst off n Ho Hn Hle Hd. rewrite (pbuf_copy_partial_run h2 a _ dst n off Hp2) by (done || lia). by rewrite Hc2.
  - assert (Ha2 : allocated h h2 ((a, b) :: l)).
    { destruct Ha as [H1 H2 H3 H4 H5]. constructor; try done.
      - intros c Hc. split; [by apply H2|]. cbn. rewrite Hot; [by apply H2|]. apply Forall_forall. intros s Hs' E.
        rewrite (proj1 (proj1 (Forall_forall _ _) H3 s Hs')) in E. injection E as <-. apply Hc, list_elem_of_fmap. exists s. split; [done|]. by apply list_elem_of_In.
      - eapply Forall_impl; [|exact H3]. intros s [? ?]. split; [done|]. by apply Hfi. }
    destruct (alloc_undone _ _ _ Ha2) as [f Hu]. eexists _, f. rewrite (pbuf_free_all custom_free h2 a _ (pk_chain _ _ _ Hp2) Hso), Hu. done.
Qed.

(** [pbuf_free] follows the table in its comment: the buffers at the head of the
    chain that have one reference are freed, the next one loses a reference, the
    others are left alone; the number of freed buffers is returned modulo 256. *)
Theorem free_releases h a gone rest : chain (pbufs h) (Some a) (gone ++ rest) -> Forall sole gone ->
  (forall s, head rest = Some s -> 1 < pb_ref s.2 < 65536) ->
  pbuf_free custom_free (Some a) h = Ok (u8 (Z.of_nat (length gone)),
    h <| pbufs := released (pbufs h) gone rest |> <| mem := released_mem (mem h) gone |>).
Proof.
  intros Hc Hs Hr. unfold pbuf_free. rewrite bind_assert, gets_run by done. rewrite (free_run custom_free gone rest) by
    (try done; pose proof (chain_length _ _ _ Hc); unfold steps; lia). by destruct gone.
Qed.

(** [pbuf_cat] joins two packets: the first is followed by the second, its total
    lengths grow by that of the second, and no other buffer changes. *)
Theorem packets_joined h a t l1 l2 : packet h (Some a) l1 -> packet h (Some t) l2 -> (forall c, c ∈ l1.*1 -> c ∉ l2.*1) ->
  total l1 + total l2 < 65536 ->
  exists h' l, pbuf_cat (Some a) (Some t) h = Ok (tt, h') /\ mem h' = mem h /\ packet h' (Some a) (l ++ l2) /\
    content (mem h') (l ++ l2) = content (mem h) l1 ++ content (mem h) l2 /\ (forall c, c ∉ l1.*1 -> pbufs h' !! c = pbufs h !! c).
Proof.
  intros Hp1 Hp2 Hd Hb. pose proof (pk_chain _ _ _ Hp1) as Hc1. pose proof (pk_chain _ _ _ Hp2) as Hc2.
  destruct l2 as [|[t' tb] l2]; [done|]. destruct Hc2 as ([= <-] & Htb & Hc2'). assert (l1 <> []) as Hne by (by intros ->).
  assert (Hnt : t ∉ l1.*1) by (intros Hi; apply (Hd _ Hi); by left).
  assert (Etb : pb_tot_len tb = total ((t, tb) :: l2)) by apply (pk_totals _ _ _ Hp2).
  pose proof (cat_run t tb l1 (steps h) a h Hne Hc1 (pk_totals _ _ _ Hp1) Htb Hnt ltac:(pose proof (chain_length _ _ _ Hc1); unfold steps; lia)) as Hrun.
  exists (h <| pbufs := putall (joined (pb_tot_len tb) t l1) (pbufs h) |>), (joined (pb_tot_len tb) t l1). split_and!; [exact Hrun|done| | |].
  - constructor; cbn.
    + apply (joined_chain _ _ _ (pbufs h) l1 a Hne Hc1).
      * intros s Hs. apply putall_in; [|done]. rewrite joined_locs. by eapply chain_nodup.
      * eapply chain_frame; [|exact (pk_chain _ _ _ Hp2)]. intros s Hs. apply putall_other. rewrite joined_locs. intros Hi. apply (Hd _ Hi).
        apply list_elem_of_fmap. eauto.
    + apply Forall_app. split; [apply joined_fits, (pk_fits _ _ _ Hp1)|apply (pk_fits _ _ _ Hp2)].
    + rewrite <- totals_plus_0. apply totals_plus_app. rewrite Z.add_0_l, <- Etb. split; [|apply totals_plus_0, (pk_totals _ _ _ Hp2)].
      apply joined_totals; [rewrite Etb; eapply tot_nonneg, (pk_fits _ _ _ Hp2)|apply (pk_totals _ _ _ Hp1)| |rewrite Etb; done].
      eapply Forall_impl; [|exact (pk_fits _ _ _ Hp1)]. intros s Hs. apply (fits_len _ _ Hs).
    + by rewrite tot_app, joined_total.
  - cbn. by rewrite content_app, joined_content.
  - intros c Hc. cbn. apply putall_other. by rewrite joined_locs.
Qed.

Lemma free_next h o l : chain (pbufs h) o l -> Forall sole l -> exists c,
  match o with None => ret 0 | Some n => pbuf_free custom_free (Some n) end h =
  Ok (c, h <| pbufs := released (pbufs h) l [] |> <| mem := released_mem (mem h) l |>).
Proof.
  intros Hc Hs. destruct o as [n|].
  - eexists. by apply pbuf_free_all.
  - destruct l as [|[a b] l]; [|by destruct Hc as [? _]]. exists 0. by destruct h.
Qed.
Lemma pbuf_realloc_run h a pre q b post n fuel : packet h (Some a) (pre ++ (q, b) :: post) -> Forall sole post -> steps h = fuel ->
  let g := n - total (pre ++ (q, b) :: post) in let b' := b <| pb_len := n - total pre |> <| pb_tot_len := n - total pre |> in
  0 <= n < total (pre ++ (q, b) :: post) ->
  realloc_loop fuel a n g h = Ok ((q, n - total pre), h <| pbufs := putall (shrunk g pre) (pbufs h) |>) ->
  pbuf_realloc custom_free (Some a) n h = Ok (tt,
    h <| pbufs := <[q := b' <| pb_next := None |>]> (released (<[q := b']> (putall (shrunk g pre) (pbufs h))) post []) |> <| mem := released_mem (mem h) post |>).
Proof.
  intros Hp Hs <- g b' Hn Hrun. pose proof (pk_chain _ _ _ Hp) as Hc. pose proof (chain_nodup _ _ _ Hc) as Hnd. rewrite fmap_app, fmap_cons in Hnd.
  apply list.NoDup_app in Hnd as (_ & Hnd2 & [Hnd3 _]%list.NoDup_cons). cbn in Hnd2, Hnd3.
  assert (Hd : exists b0, pbufs h !! a = Some b0 /\ pb_tot_len b0 = total (pre ++ (q, b) :: post)).
  { destruct (pre ++ (q, b) :: post) as [|[a0 b0] l] eqn:E; [by destruct pre|]. destruct Hc as ([= ->] & Hb & _). exists b0. split; [done|]. apply (pk_totals _ _ _ Hp). }
  destruct Hd as (b0 & Hb0 & Ht). unfold pbuf_realloc. step. rewrite Ht. rewrite (proj2 (Z.leb_gt _ _)) by lia. rewrite gets_run. fold g.
  rewrite (bind_Ok _ _ _ _ _ Hrun). cbv beta iota. set (ps1 := putall (shrunk g pre) (pbufs h)).
  assert (Hq : ps1 !! q = Some b).
  { unfold ps1. rewrite putall_other by (rewrite shrunk_locs; intros Hi; apply (Hnd2 _ Hi); by left). apply (chain_lookup _ _ _ (q, b) Hc), elem_of_app. right. by left. }
  assert (Hq' : pbufs (h <| pbufs := ps1 |>) !! q = Some b) by exact Hq. step. rewrite put_run. fold b'.
  assert (Hpost : chain (<[q := b']> ps1) (pb_next b) post).
  { apply chain_tail in Hc as [o Hc]. destruct Hc as (_ & _ & Hc). eapply chain_frame; [|exact Hc]. intros s Hi.
    assert (s.1 ∈ post.*1) as Hi' by (apply list_elem_of_fmap; eauto). rewrite lookup_insert_ne by (intros ->; done). apply putall_other. rewrite shrunk_locs.
    intros Hx. apply (Hnd2 _ Hx). by right. }
  pose proof (free_next (h <| pbufs := <[q := b']> ps1 |>)) as Hfr. destruct (Hfr _ _ Hpost Hs) as [c Hfr']. clear Hfr. rename Hfr' into Hfr.
  cbn [pbufs set] in Hfr |- *. rewrite (bind_Ok _ _ _ _ _ Hfr). unfold update. cbn. unfold bind at 1, deref, gets. cbn. unfold released. rewrite lookup_gone, bool_decide_false by done.
  rewrite lookup_insert_eq. done.
Qed.

(** [pbuf_realloc] cuts a packet: what is left is a packet with the first
    [n] bytes, and the buffers behind it are freed. *)
Theorem packet_trimmed h a l n : packet h (Some a) l -> Forall sole l -> Forall (fun s => block s.2 = Some s.1) l -> 0 <= n < total l ->
  exists h' l', pbuf_realloc custom_free (Some a) n h = Ok (tt, h') /\ packet h' (Some a) l' /\
    content (mem h') l' = field (content (mem h) l) 0 n.
Proof.
  intros Hp Hs Ho Hn. pose proof (pk_bound _ _ _ Hp). assert (Hlen : Forall (fun s => 0 <= pb_len s.2 < 65536) l).
  { eapply Forall_impl; [|exact (pk_fits _ _ _ Hp)]. intros s. apply fits_len. }
  destruct (realloc_run l (steps h) a n (n - total l) h (pk_chain _ _ _ Hp) (pk_totals _ _ _ Hp) Hlen) as (pre & q & b & post & -> & Hrem & Hrun); [lia..| |].
  { pose proof (chain_length _ _ _ (pk_chain _ _ _ Hp)). unfold steps. lia. }
  apply Forall_app in Hs as [_ [_ Hs]%Forall_cons_1]. destruct (kept_packet h a pre q b post n Hp Ho Hrem ltac:(lia)) as [Hk Hco].
  eexists _, _. split; [exact (pbuf_realloc_run h a pre q b post n _ Hp Hs eq_refl Hn Hrun)|]. exact (conj Hk Hco).
Qed.
End Properties.

(** Hiding a header and revealing it again: the packet loses its first [n] bytes,
    and the heap is as before afterwards. *)
Theorem header_round_trip h a b l n : packet h (Some a) ((a, b) :: l) -> own_memory b = true -> 0 < n <= pb_len b ->
  exists h' b', pbuf_header (Some a) (- n) h = Ok (0, h') /\ packet h' (Some a) ((a, b') :: l) /\
    content (mem h') ((a, b') :: l) = ptr (content (mem h) ((a, b) :: l)) n /\ pbuf_header (Some a) n h' = Ok (0, h).
Proof.
  intros Hp Hown Hn. pose proof (pk_bound _ _ _ Hp) as Hbd. pose proof (chain_nodup _ _ _ (pk_chain _ _ _ Hp)) as Hnd. pose proof (pk_fits _ _ _ Hp) as Hfs.
  apply packet_tail in Hp as (Hb & Hfit & Ht & Hp). destruct Hfit as (k & o & bs & Hpl & Hm & Ho & Hl & Hle). rewrite total_cons in Hbd. cbn in Hbd, Hnd.
  apply list.NoDup_cons in Hnd as [Hnd _]. pose proof (tot_nonneg _ _ (pk_fits _ _ _ Hp)) as Htn. apply Forall_cons_1 in Hfs as [Hfit Hfs]. cbn in Hfit.
  set (b' := b <| pb_payload := Some (k, o + n) |> <| pb_len := pb_len b - n |> <| pb_tot_len := pb_tot_len b - n |>).
  exists (h <| pbufs := <[a := b']> (pbufs h) |>), b'. split_and!.
  - unfold pbuf_header, pbuf_header_impl. rewrite (proj2 (Z.eqb_neq _ _)) by lia. step. rewrite (proj2 (Z.ltb_lt (- n) 0)) by lia. rewrite Z.opp_involutive.
    rewrite bind_error by (apply Z.leb_le; rewrite u16_small; lia). rewrite Hown. unfold payload_before_block, move_payload. rewrite Hpl. cbn.
    rewrite (proj2 (Z.ltb_ge _ _)) by lia. rewrite put_run. unfold b', ret. rewrite !u16_small by lia. replace (o - - n) with (o + n) by lia.
    replace (pb_len b + - n) with (pb_len b - n) by lia. replace (pb_tot_len b + - n) with (pb_tot_len b - n) by lia. done.
  - constructor; cbn.
    + split_and!; [done|by rewrite lookup_insert_eq|]. eapply chain_frame; [|exact (pk_chain _ _ _ Hp)]. intros s Hs. rewrite lookup_insert_ne; [done|].
      intros ->. apply Hnd, list_elem_of_fmap. eauto.
    + constructor; [|done]. exists k, (o + n), bs. cbn. split_and!; (done || lia).
    + split; [|exact (pk_totals _ _ _ Hp)]. rewrite total_cons. cbn. lia.
    + rewrite total_cons. cbn. lia.
  - cbn. rewrite !content_cons. cbn [snd]. pose proof (blen_data _ _ Hfit) as Hd. unfold ptr, blen in Hd |- *. rewrite drop_app_le by lia. f_equal.
    unfold data. cbn. rewrite Hpl, Hm. cbn. unfold field. rewrite skipn_firstn_comm, drop_drop. f_equal; [lia|]. f_equal. lia.
  - unfold pbuf_header, pbuf_header_impl. rewrite (proj2 (Z.eqb_neq _ _)) by lia.
    assert (Hb' : pbufs (h <| pbufs := <[a := b']> (pbufs h) |>) !! a = Some b') by apply lookup_insert_eq. step. rewrite (proj2 (Z.ltb_ge n 0)) by lia.
    unfold ret at 1, bind at 1. change (own_memory b') with (own_memory b). rewrite Hown. unfold payload_before_block, move_payload. cbn.
    rewrite (proj2 (Z.ltb_ge _ _)) by lia. rewrite put_run. cbn. rewrite insert_insert_eq, !u16_small by lia. unfold ret. do 2 f_equal.
    destruct h as [ps m f g]. unfold set. cbn in *. f_equal. apply insert_id. rewrite Hb. f_equal. destruct b. cbn in *. subst. f_equal; [|lia..]. do 2 f_equal. lia.
Qed.

(** [pbuf_memfind] finds the first place: it returns the least offset from the
    given one on at which the bytes occur, also across buffers, or 0xFFFF when
    there is none. *)
Theorem first_occurrence h a l s n start : packet h (Some a) l -> bytes (content (mem h) l) -> 1 <= n < 65536 -> n <= blen s -> 0 <= start ->
  exists r, pbuf_memfind (Some a) s n start h = Ok (r, h) /\
    (r = 65535 /\ (forall k, start <= k -> k + n <= total l -> ~ occurs_at (content (mem h) l) k s n) \/
     start <= r /\ r + n <= total l /\ occurs_at (content (mem h) l) r s n /\ (forall k, start <= k < r -> ~ occurs_at (content (mem h) l) k s n)).
Proof.
  intros Hp Hby Hn Hl Hs. pose proof (pk_bound _ _ _ Hp) as Hbd. destruct l as [|[a' b] l]; [by pose proof (pk_chain _ _ _ Hp)|].
  pose proof (pk_chain _ _ _ Hp) as (E & Hb & _). injection E as <-. assert (Ht : pb_tot_len b = total ((a, b) :: l)) by apply (pk_totals _ _ _ Hp).
  unfold pbuf_memfind, deref_opt. step. rewrite Ht. destruct (Z.leb_spec (n + start) (total ((a, b) :: l))).
  - rewrite u16_small by lia.
    destruct (memfind_run h (Some a) _ s n (total ((a, b) :: l) - n) Hp ltac:(done) Hby ltac:(lia) ltac:(lia) Hl (Z.to_nat (total ((a, b) :: l) - n - start + 1)) start)
      as (r & Hrun & Hr); [lia..|]. exists r. split; [exact Hrun|]. destruct Hr as [[-> Hno]|(Hb1 & Hm & Hno)]; [left|right].
    + split; [done|]. intros k ? ?. apply Hno. lia.
    + split_and!; (done || lia).
  - exists 65535. split; [done|]. left. split; [done|]. intros k ? ?. lia.
Qed.

(** ** Corners *)

(** When the pool runs out within a chain, the chain so far is freed before the
    flags of its head are set: what the fresh memory holds decides whether the
    head is taken for a custom buffer. *)
Theorem alloc_failure_reads_garbage :
  pbuf_alloc (fun _ => stop NullDeref) PBUF_RAW 1000 PBUF_POOL (mkHeap ∅ ∅ [false; true] 255) = Stop NullDeref.
Proof. vm_compute. reflexivity. Qed.

(** A header longer than the first buffer aborts: the error that is documented is
    not returned. *)
Theorem long_header_aborts h a b n : pbufs h !! a = Some b -> pb_len b < n <= 32767 -> 0 <= pb_len b -> pbuf_header (Some a) (- n) h = Stop AssertFail.
Proof.
  intros Hb Hn H0. unfold pbuf_header, pbuf_header_impl. rewrite (proj2 (Z.eqb_neq _ _)) by lia. step. rewrite (proj2 (Z.ltb_lt (- n) 0)), Z.opp_involutive by lia.
  rewrite u16_small by lia. unfold LWIP_ERROR. rewrite (proj2 (Z.leb_gt _ _)) by lia. done.
Qed.

(** The number of freed buffers is a byte: when a chain loses its remaining 256
    buffers, [pbuf_dechain] takes the rest for alive and returns a pointer to
    freed memory. *)
Definition long_chain : heap :=
  mkHeap (foldr (fun i ps => <[Pos.of_nat i := mkPbuf (if (i =? 257)%nat then None else Some (Pos.of_nat (S i))) None 0 0 PBUF_REF 0 1]> ps) ∅ (seq 1 257)) ∅ [] 0.
Theorem dechain_dangles : match pbuf_dechain (fun _ => ret tt) 1%positive long_chain with
  | Ok (Some q, h) => pbufs h !! q = None
  | _ => False
  end.
Proof. vm_compute. reflexivity. Qed.

(** ** Witnesses *)

Definition sample_heap : heap := mkHeap ∅ ∅ [] 0.
Definition sample_data : list Z := map (fun i => u8 (Z.of_nat i)) (seq 0 1000).
Lemma packet_in_and_out_witness : exists a h1 h2,
  pbuf_alloc (fun _ => stop NullDeref) PBUF_RAW 1000 PBUF_POOL sample_heap = Ok (Some a, h1) /\ pbuf_take (Some a) sample_data 1000 h1 = Ok (ERR_OK, h2) /\
  pbuf_copy_partial (Some a) [0; 0; 0; 0] 4 566 h2 = Ok ((4, [54; 55; 56; 57]), h2).
Proof.
  destruct (packet_in_and_out (fun _ => stop NullDeref) sample_heap PBUF_RAW sample_data ltac:(done) ltac:(done)) as [(Hf & f & E)|(a & h1 & h2 & E1 & E2 & E3 & _)].
  - exfalso. vm_compute in E. discriminate E.
  - exists a, h1, h2. split_and!; [exact E1|exact E2|]. rewrite (E3 [0; 0; 0; 0] 566 4) by (vm_compute; done). vm_compute. reflexivity.
Defined.
