(* ===== verification/InetChksum.v ===== *)
(** * The checksums of the TCP/IP stack: lwip/src/core/inet_chksum.c

    The stack adds 16-bit words in the byte order of the (little-endian) host,
    from any address, over chains of buffers whose lengths may be odd, and swaps
    bytes where the alignment asks for it.  The theorems say that what it stores
    is the Internet checksum of the concatenated bytes. *)

From stdpp Require Import base numbers list gmap.
From S2P Require Import Prelude Bytes Checksum Pbuf.
Local Open Scope Z_scope.

(** ** The routines *)

Definition SWAP_BYTES_IN_WORD (w : Z) : Z := Z.lor (Z.shiftl (Z.land w 255) 8) (Z.shiftr (Z.land w 65280) 8).
Definition FOLD_U32T (u : Z) : Z := u32 (Z.shiftr u 16 + Z.land u 65535).
(** [hton16] reverses the bytes *)
Definition lwip_htons (x : Z) : Z := u16 (x mod 256 * 256 + x / 256).

(** the loop over aligned 16-bit words *)
Fixpoint host_words (n : nat) (ps : list Z) (sum : Z) : outcome Z :=
  match n with
  | O => Ok sum
  | S n =>
      try lo := READ_NET8 ps 0 in
      try hi := READ_NET8 ps 1 in
      host_words n (ptr ps 2) (u32 (sum + (lo + 256 * hi)))
  end.

(** [odd]: the address is odd; [t] is made of a first and a last byte *)
Definition lwip_standard_chksum (odd : bool) (dataptr : list Z) (len : Z) : outcome Z :=
  try '(t1, pb, len) :=
    if odd && (0 <? len) then try b := READ_NET8 dataptr 0 in Ok (b, ptr dataptr 1, len - 1) else Ok (0, dataptr, len) in
  let n := Z.to_nat (len / 2) in
  try sum := host_words n pb 0 in
  try t0 := if 0 <? len mod 2 then READ_NET8 (ptr pb (2 * Z.of_nat n)) 0 else Ok 0 in
  let sum := u32 (sum + (t0 + 256 * t1)) in
  let sum := FOLD_U32T (FOLD_U32T sum) in
  Ok (u16 (if odd then SWAP_BYTES_IN_WORD sum else sum)).

(** [inet_chksum]: of a part of memory *)
Definition inet_chksum (odd : bool) (dataptr : list Z) (len : Z) : outcome Z :=
  try sum := lwip_standard_chksum odd dataptr len in Ok (u16 (Z.lnot sum)).

(** [base_odd]: whether a block of memory begins at an odd address *)
Section Chains.
Context (base_odd : loc -> bool).

Definition payload_odd (b : pbuf) : bool := match pb_payload b with Some (k, o) => xorb (base_odd k) (Z.odd o) | None => false end.
Definition LWIP_CHKSUM (b : pbuf) (len : Z) : H Z :=
  let* d := read_payload b 0 len in lift (lwip_standard_chksum (payload_odd b) d len).

(** the accumulator and [swapped] after the chain *)
Fixpoint chain_sum (fuel : nat) (q : option loc) (acc swapped : Z) : H (Z * Z) :=
  match q with
  | None => ret (acc, swapped)
  | Some a =>
      match fuel with
      | O => stop OutOfFuel
      | S fuel =>
          let* b := deref a in
          let* c := LWIP_CHKSUM b (pb_len b) in
          let acc := FOLD_U32T (u32 (acc + c)) in
          if negb (pb_len b mod 2 =? 0) then chain_sum fuel (pb_next b) (SWAP_BYTES_IN_WORD acc) (u8 (1 - swapped))
          else chain_sum fuel (pb_next b) acc swapped
      end
  end.
Definition unswap (acc swapped : Z) : Z := if swapped =? 0 then acc else SWAP_BYTES_IN_WORD acc.

Definition inet_cksum_pseudo_base (p : option loc) (proto proto_len acc : Z) : H Z :=
  let* fuel := gets steps in
  let* '(acc, swapped) := chain_sum fuel p acc 0 in
  let acc := unswap acc swapped in
  let acc := u32 (acc + lwip_htons (u16 proto)) in
  let acc := u32 (acc + lwip_htons proto_len) in
  let acc := FOLD_U32T (FOLD_U32T acc) in
  ret (u16 (Z.lnot (Z.land acc 65535))).

(** an address is four bytes in memory, loaded as a word of the host *)
Definition halves (addr : Z) : Z := Z.land addr 65535 + Z.land (Z.shiftr addr 16) 65535.
Definition inet_chksum_pseudo (p : option loc) (proto proto_len : Z) (src dest : list Z) : H Z :=
  let acc := u32 (halves (load32 src) + halves (load32 dest)) in
  inet_cksum_pseudo_base p proto proto_len (FOLD_U32T (FOLD_U32T acc)).

(** an IPv6 address is four such words *)
Definition part6 (a : list Z) (i : Z) : list Z := field a (4 * i) 4.
Definition ip6_sum (src dest : list Z) : Z :=
  fold_left (fun acc i => u32 (acc + halves (load32 (part6 src i)) + halves (load32 (part6 dest i)))) [0; 1; 2; 3] 0.
Definition ip6_chksum_pseudo (p : option loc) (proto proto_len : Z) (src dest : list Z) : H Z :=
  inet_cksum_pseudo_base p proto proto_len (FOLD_U32T (FOLD_U32T (ip6_sum src dest))).

Inductive ip_addr := V4 (addr : list Z) | V6 (addr : list Z).
Definition addr_bytes (a : ip_addr) : list Z := match a with V4 b | V6 b => b end.
Definition ip_chksum_pseudo (p : option loc) (proto proto_len : Z) (src dest : ip_addr) : H Z :=
  match dest with
  | V6 d => ip6_chksum_pseudo p proto proto_len (addr_bytes src) d
  | V4 d => inet_chksum_pseudo p proto proto_len (addr_bytes src) d
  end.

Definition inet_chksum_pbuf (p : option loc) : H Z :=
  let* fuel := gets steps in
  let* '(acc, swapped) := chain_sum fuel p 0 0 in
  ret (u16 (Z.lnot (Z.land (unswap acc swapped) 65535))).

(** the same over the first [chksum_len] bytes *)
Fixpoint partial_sum (fuel : nat) (q : option loc) (chksum_len acc swapped : Z) : H (Z * Z) :=
  match q with
  | None => ret (acc, swapped)
  | Some a =>
      if chksum_len <=? 0 then ret (acc, swapped) else
      match fuel with
      | O => stop OutOfFuel
      | S fuel =>
          let* b := deref a in
          let chklen := if chksum_len <? pb_len b then chksum_len else pb_len b in
          let* c := LWIP_CHKSUM b chklen in
          let acc := u32 (acc + c) in
          let chksum_len := u16 (chksum_len - chklen) in
          LWIP_ASSERT (chksum_len <? 32767) ;;;
          let acc := FOLD_U32T acc in
          if negb (pb_len b mod 2 =? 0) then partial_sum fuel (pb_next b) chksum_len (SWAP_BYTES_IN_WORD acc) (u8 (1 - swapped))
          else partial_sum fuel (pb_next b) chksum_len acc swapped
      end
  end.
Definition inet_cksum_pseudo_partial_base (p : option loc) (proto proto_len chksum_len acc : Z) : H Z :=
  let* fuel := gets steps in
  let* '(acc, swapped) := partial_sum fuel p chksum_len acc 0 in
  let acc := unswap acc swapped in
  let acc := u32 (acc + lwip_htons (u16 proto)) in
  let acc := u32 (acc + lwip_htons proto_len) in
  let acc := FOLD_U32T (FOLD_U32T acc) in
  ret (u16 (Z.lnot (Z.land acc 65535))).
Definition inet_chksum_pseudo_partial (p : option loc) (proto proto_len chksum_len : Z) (src dest : list Z) : H Z :=
  let acc := u32 (halves (load32 src) + halves (load32 dest)) in
  inet_cksum_pseudo_partial_base p proto proto_len chksum_len (FOLD_U32T (FOLD_U32T acc)).
Definition ip6_chksum_pseudo_partial (p : option loc) (proto proto_len chksum_len : Z) (src dest : list Z) : H Z :=
  inet_cksum_pseudo_partial_base p proto proto_len chksum_len (FOLD_U32T (FOLD_U32T (ip6_sum src dest))).
Definition ip_chksum_pseudo_partial (p : option loc) (proto proto_len chksum_len : Z) (src dest : ip_addr) : H Z :=
  match dest with
  | V6 d => ip6_chksum_pseudo_partial p proto proto_len chksum_len (addr_bytes src) d
  | V4 d => inet_chksum_pseudo_partial p proto proto_len chksum_len (addr_bytes src) d
  end.
End Chains.

(** ** One's complement arithmetic *)

(** sums that agree modulo 65535 and are zero together have one value *)
Lemma ones_eq x y k : 0 <= x -> 0 <= y -> x = y + 65535 * k -> (x = 0 <-> y = 0) -> ones x = ones y.
Proof.
  intros Hx Hy E Hz. destruct (Z.eq_dec y 0) as [->|Hn]; [by rewrite (proj2 Hz eq_refl)|]. rewrite E. apply ones_sub; lia.
Qed.
Lemma ones_value s : 0 <= s -> exists k, ones s = s + 65535 * k /\ (ones s = 0 <-> s = 0).
Proof.
  intros Hs. unfold ones. destruct (Z.eqb_spec s 0) as [->|Hn]; [by exists 0|]. pose proof (Z.div_mod (s - 1) 65535 ltac:(lia)).
  pose proof (Z.mod_pos_bound (s - 1) 65535 ltac:(lia)). exists (- ((s - 1) / 65535)). lia.
Qed.
Lemma ones_add x y : 0 <= x -> 0 <= y -> ones (ones x + y) = ones (x + y).
Proof. intros Hx Hy. destruct (ones_value x Hx) as (k & E & Hz). pose proof (ones_range x Hx). apply (ones_eq _ _ k); lia. Qed.

Definition swap16 (x : Z) : Z := x mod 256 * 256 + x / 256.
Lemma swap16_value x : 0 <= x <= 65535 -> 0 <= swap16 x <= 65535 /\ swap16 x = 256 * x - 65535 * (x / 256) /\ (swap16 x = 0 <-> x = 0).
Proof.
  intros Hx. unfold swap16. pose proof (Z.div_mod x 256 ltac:(lia)). pose proof (Z.mod_pos_bound x 256 ltac:(lia)).
  assert (0 <= x / 256 <= 255) by (split; [apply Z.div_pos; lia|apply Z.lt_succ_r, Z.div_lt_upper_bound; lia]). lia.
Qed.
(** swapping bytes is multiplication by 256 *)
Lemma swap16_ones x : 0 <= x -> swap16 (ones x) = ones (256 * x).
Proof.
  intros Hx. pose proof (ones_range x Hx) as Hr. destruct (swap16_value (ones x) Hr) as (Hb & E & Hz). destruct (ones_value x Hx) as (k & Ek & Hk).
  rewrite <- (ones_small (swap16 (ones x)) Hb). apply (ones_eq _ _ (256 * k - ones x / 256)); lia.
Qed.
Lemma SWAP_swap16 x : 0 <= x <= 65535 -> SWAP_BYTES_IN_WORD x = swap16 x.
Proof.
  intros Hx. unfold SWAP_BYTES_IN_WORD, swap16. pose proof (Z.div_mod x 256 ltac:(lia)). pose proof (Z.mod_pos_bound x 256 ltac:(lia)).
  assert (0 <= x / 256 <= 255) by (split; [apply Z.div_pos; lia|apply Z.lt_succ_r, Z.div_lt_upper_bound; lia]).
  assert (E1 : Z.land x 255 = x mod 256) by (change 255 with (Z.ones 8); by rewrite Z.land_ones by lia).
  assert (E2 : Z.shiftr (Z.land x 65280) 8 = x / 256).
  { rewrite Z.shiftr_land. change (Z.shiftr 65280 8) with (Z.ones 8). rewrite Z.shiftr_div_pow2, Z.land_ones by lia. change (2 ^ 8) with 256. apply Z.mod_small. lia. }
  rewrite E1, E2. apply lor_word. unfold is_byte. lia.
Qed.
Lemma lwip_htons_swap16 x : 0 <= x <= 65535 -> lwip_htons x = swap16 x.
Proof. intros Hx. unfold lwip_htons. fold (swap16 x). apply u16_small. pose proof (swap16_value x Hx). lia. Qed.

Lemma FOLD_value u : 0 <= u < 4294967296 -> FOLD_U32T u = u / 65536 + u mod 65536.
Proof.
  intros Hu. unfold FOLD_U32T. change 65535 with (Z.ones 16). rewrite Z.land_ones, Z.shiftr_div_pow2 by lia. change (2 ^ 16) with 65536.
  pose proof (Z.mod_pos_bound u 65536 ltac:(lia)). assert (0 <= u / 65536 < 65536) by (split; [apply Z.div_pos; lia|apply Z.div_lt_upper_bound; lia]).
  apply u32_small. lia.
Qed.
Lemma FOLD_ones u : 0 <= u <= 131070 -> FOLD_U32T u = ones u.
Proof.
  intros Hu. rewrite FOLD_value by lia. pose proof (Z.div_mod u 65536 ltac:(lia)). pose proof (Z.mod_pos_bound u 65536 ltac:(lia)).
  assert (0 <= u / 65536 <= 1) by (split; [apply Z.div_pos; lia|apply Z.lt_succ_r, Z.div_lt_upper_bound; lia]).
  rewrite <- (ones_small (u / 65536 + u mod 65536)) by lia. apply (ones_eq _ _ (- (u / 65536))); lia.
Qed.
Lemma FOLD_twice u : 0 <= u < 4294967296 -> FOLD_U32T (FOLD_U32T u) = ones u.
Proof.
  intros Hu. pose proof (FOLD_value u Hu) as E. pose proof (Z.div_mod u 65536 ltac:(lia)). pose proof (Z.mod_pos_bound u 65536 ltac:(lia)).
  assert (0 <= u / 65536 < 65536) by (split; [apply Z.div_pos; lia|apply Z.div_lt_upper_bound; lia]).
  rewrite (FOLD_ones (FOLD_U32T u)) by lia. rewrite E. apply (ones_eq _ _ (- (u / 65536))); lia.
Qed.

(** ** Sums of words in the two byte orders *)

Fixpoint hsum (l : list Z) : Z :=
  match l with
  | [] => 0
  | [a] => a
  | a :: b :: l => a + 256 * b + hsum l
  end.

(** induction two elements at a time *)
Lemma pairs_ind (P : list Z -> Prop) : P [] -> (forall a, P [a]) -> (forall a b l, P l -> P (a :: b :: l)) -> forall l, P l.
Proof.
  intros H0 H1 H2 l. enough (P l /\ forall a, P (a :: l)) by tauto. induction l as [|b l [IH1 IH2]]; [by split|]. split; [done|]. intros a. by apply H2.
Qed.
Lemma hsum_wsum l : bytes l -> 0 <= hsum l /\ (exists k, hsum l = 256 * wsum l + 65535 * k) /\ (hsum l = 0 <-> wsum l = 0).
Proof.
  induction l as [|a|a b l IH] using pairs_ind; intros Hb.
  - split; [done|]. split; [by exists 0|done].
  - apply Forall_cons_1 in Hb as [Ha _]. unfold is_byte in Ha. cbn. split; [lia|]. split; [exists (- a); lia|lia].
  - apply Forall_cons_1 in Hb as [Ha Hb]. apply Forall_cons_1 in Hb as [Hb Hl]. unfold is_byte in Ha, Hb. destruct (IH Hl) as (H0 & (k & E) & Hz).
    pose proof (wsum_nonneg _ Hl). cbn. split; [lia|]. split; [exists (k - a); lia|lia].
Qed.
(** one byte in front *)
Lemma wsum_shift x l : bytes (x :: l) -> exists k, wsum (x :: l) = 256 * x + 256 * wsum l + 65535 * k.
Proof.
  intros Hb. apply Forall_cons_1 in Hb as [Hx Hl]. revert x Hx. induction l as [|a|a b l IH] using pairs_ind; intros x Hx.
  - exists 0. cbn. lia.
  - apply Forall_cons_1 in Hl as [Ha _]. exists (- a). cbn. lia.
  - apply Forall_cons_1 in Hl as [Ha Hl]. apply Forall_cons_1 in Hl as [Hb Hl]. destruct (IH Hl b Hb) as [k E].
    exists (k - a). change (wsum (x :: a :: b :: l)) with (x * 256 + a + wsum (b :: l)). change (wsum (a :: b :: l)) with (a * 256 + b + wsum l). lia.
Qed.
Lemma wsum_zero l : bytes l -> (wsum l = 0 <-> Forall (fun x => x = 0) l).
Proof.
  induction l as [|a|a b l IH] using pairs_ind; intros Hb.
  - by split.
  - apply Forall_cons_1 in Hb as [Ha _]. unfold is_byte in Ha. cbn. split; [intros E; constructor; [lia|done]|intros [-> _]%Forall_cons_1; done].
  - apply Forall_cons_1 in Hb as [Ha Hb]. apply Forall_cons_1 in Hb as [Hb Hl]. unfold is_byte in Ha, Hb. pose proof (wsum_nonneg _ Hl).
    change (wsum (a :: b :: l)) with (a * 256 + b + wsum l). split.
    + intros E. constructor; [lia|]. constructor; [lia|]. apply IH; [done|lia].
    + intros [-> Hbl]%Forall_cons_1. apply Forall_cons_1 in Hbl as [-> Hl0]. apply IH in Hl0; [lia|done].
Qed.

(** a list after a list of odd or even length *)
Definition weight (p : list Z) : Z := if Z.even (blen p) then 1 else 256.
Lemma weight_cons x p : weight (x :: p) = if Z.even (blen p) then 256 else 1.
Proof. unfold weight. rewrite blen_cons, Z.add_1_l, Z.even_succ, <- Z.negb_even. by destruct (Z.even _). Qed.
Lemma wsum_append p q : bytes p -> bytes q -> exists k, wsum (p ++ q) = wsum p + weight p * wsum q + 65535 * k.
Proof.
  intros Hp Hq. induction Hp as [|x p Hx Hp [k IH]]; [exists 0; unfold weight; cbn [app wsum]; change (Z.even (blen [])) with true; lia|].
  destruct (wsum_shift x (p ++ q)) as [k1 E1]; [constructor; [done|by apply Forall_app]|]. destruct (wsum_shift x p) as [k2 E2]; [by constructor|].
  cbn [app]. rewrite E1, E2, IH, weight_cons. unfold weight. destruct (Z.even (blen p)).
  - exists (k1 + 256 * k - k2). lia.
  - exists (k1 + 256 * k - k2 + wsum q). lia.
Qed.
Lemma wsum_append_zero p q : bytes p -> bytes q -> (wsum (p ++ q) = 0 <-> wsum p = 0 /\ wsum q = 0).
Proof. intros Hp Hq. rewrite !wsum_zero by (try apply Forall_app; done). apply Forall_app. Qed.

(** ** One block *)

Lemma host_words_ok n : forall ps sum, bytes ps -> 2 * Z.of_nat n <= blen ps ->
  host_words n ps sum = Ok (if (n =? 0)%nat then sum else u32 (sum + hsum (field ps 0 (2 * Z.of_nat n)))).
Proof.
  induction n as [|n IH]; intros ps sum Hb Hl; [done|]. cbn [host_words]. rewrite !READ_NET8_ok by lia. cbn [obind].
  destruct ps as [|a [|b ps]]; [unfold blen in Hl; cbn in Hl; lia..|]. rewrite !blen_cons in Hl. change (ptr (a :: b :: ps) 2) with ps.
  change (getb (a :: b :: ps) 0) with a. change (getb (a :: b :: ps) 1) with b. inversion_clear Hb as [|? ? _ Hb']. inversion_clear Hb' as [|? ? _ Hb].
  rewrite IH by (done || lia). replace (2 * Z.of_nat (S n)) with (2 * Z.of_nat n + 2) by lia.
  unfold field. replace (Z.to_nat (2 * Z.of_nat n + 2)) with (S (S (Z.to_nat (2 * Z.of_nat n)))) by lia. change (Z.to_nat 0) with 0%nat.
  rewrite !drop_0, !firstn_cons. cbn [Nat.eqb hsum]. f_equal. destruct n as [|n]; cbn [Nat.eqb].
  - change (Z.to_nat (2 * Z.of_nat 0)) with 0%nat. rewrite take_0. cbn [hsum]. f_equal. lia.
  - rewrite u32_add_l. f_equal. lia.
Qed.

Lemma hsum_even p q : Z.even (blen p) = true -> hsum (p ++ q) = hsum p + hsum q.
Proof.
  induction p as [|a|a b p IH] using pairs_ind; intros He; [done|done|]. cbn [app hsum]. rewrite IH; [lia|].
  rewrite !blen_cons, Z.add_assoc, Z.even_add in He. by destruct (Z.even (blen p)).
Qed.
Lemma hsum_bound l : bytes l -> hsum l <= 32768 * (blen l + 1).
Proof.
  induction l as [|a|a b l IH] using pairs_ind; intros Hb; rewrite ?blen_cons; [done|..].
  - apply Forall_cons_1 in Hb as [Ha _]. unfold is_byte in Ha. rewrite blen_nil. cbn [hsum]. lia.
  - apply Forall_cons_1 in Hb as [Ha Hb]. apply Forall_cons_1 in Hb as [Hb Hl]. unfold is_byte in *. cbn [hsum]. specialize (IH Hl). lia.
Qed.

(** the bulk and the last byte: the sum of the words in host order *)
Lemma words_and_tail pb len : bytes pb -> 0 <= len <= blen pb ->
  exists sum t0, host_words (Z.to_nat (len / 2)) pb 0 = Ok sum /\
    (if 0 <? len mod 2 then READ_NET8 (ptr pb (2 * Z.of_nat (Z.to_nat (len / 2)))) 0 else Ok 0) = Ok t0 /\
    (32768 * (len + 1) < 4294967296 -> sum + t0 = hsum (field pb 0 len)) /\ 0 <= t0.
Proof.
  intros Hb Hl. set (n := Z.to_nat (len / 2)). pose proof (half_split len ltac:(lia)) as Hs. fold n in Hs. pose proof (Z.mod_pos_bound len 2 ltac:(lia)) as Hm.
  rewrite host_words_ok by (done || lia). set (k := 2 * Z.of_nat n) in *. pose proof (bytes_field pb 0 k Hb) as Hbf.
  assert (Hsum : 32768 * (len + 1) < 4294967296 -> (if (n =? 0)%nat then 0 else u32 (0 + hsum (field pb 0 k))) = hsum (field pb 0 k)).
  { intros Hlt. pose proof (hsum_bound _ Hbf). pose proof (proj1 (hsum_wsum _ Hbf)). rewrite blen_field in * by lia.
    destruct (Nat.eqb_spec n 0) as [E|E]; [unfold k; rewrite E; done|]. rewrite u32_small; lia. }
  destruct (Z.ltb_spec 0 (len mod 2)) as [Hodd|Heven].
  - rewrite READ_NET8_ok by (rewrite blen_ptr; lia). rewrite getb_ptr, Z.add_0_r by lia. eexists _, _. split_and!; [done|done| |apply getb_byte; done].
    intros Hlt. rewrite Hsum by done. replace len with (k + 1) at 1 by lia. rewrite (field_split pb 0 k (k + 1)) by lia. rewrite hsum_even.
    + f_equal. replace (k + 1 - k) with 1 by lia. rewrite Z.add_0_l.
      assert (E : field pb k 1 = [getb pb k]); [|by rewrite E]. apply buffer_ext; [by rewrite blen_field by lia|]. intros i Hi. rewrite blen_field in Hi by lia.
      assert (i = 0) as -> by lia. rewrite field_lookup by lia. by rewrite Z.add_0_r.
    + rewrite blen_field by lia. apply even_twice.
  - eexists _, 0. split_and!; [done|done| |lia]. intros Hlt. rewrite Hsum, Z.add_0_r by done. f_equal. f_equal. lia.
Qed.

(** The routine computes the sum of the words, in the byte order of the host, for
    every alignment, also beyond the longest packet. *)
Lemma standard_chksum_run odd d : bytes d -> blen d < 131071 ->
  lwip_standard_chksum odd d (blen d) = Ok (swap16 (ones (wsum d))).
Proof.
  intros Hb Hl. pose proof (wsum_nonneg _ Hb) as Hw. unfold lwip_standard_chksum. destruct (odd && (0 <? blen d)) eqn:E.
  - bool_lia. subst odd. destruct d as [|x d]; [unfold blen in *; cbn in *; lia|]. rewrite READ_NET8_ok by lia. cbn [obind].
    change (getb (x :: d) 0) with x. change (ptr (x :: d) 1) with d. rewrite blen_cons in *. replace (1 + blen d - 1) with (blen d) by lia.
    pose proof Hb as Hb0. apply Forall_cons_1 in Hb0 as [Hx Hd]. unfold is_byte in Hx. pose proof (blen_nonneg d).
    destruct (words_and_tail d (blen d) Hd ltac:(lia)) as (sum & t0 & -> & Ht & Hs & Ht0). cbn [obind]. rewrite Ht. cbn [obind].
    specialize (Hs ltac:(lia)). rewrite field_all in Hs by done. pose proof (hsum_bound _ Hd). destruct (hsum_wsum _ Hd) as (Hh0 & (k & Hk) & Hz).
    replace (sum + (t0 + 256 * x)) with (hsum d + 256 * x) by lia. rewrite u32_small by lia. rewrite FOLD_twice by lia.
    pose proof (ones_range (hsum d + 256 * x) ltac:(lia)). rewrite SWAP_swap16, !swap16_ones by lia.
    rewrite u16_small by (pose proof (ones_range (256 * (hsum d + 256 * x)) ltac:(lia)); lia). f_equal.
    destruct (wsum_shift x d Hb) as [k' Hk']. pose proof (wsum_nonneg _ Hd). rewrite Hk' in *.
    apply (ones_eq _ _ (256 * k - 256 * k')); [lia..|]. pose proof (wsum_zero _ Hb) as Hz1. pose proof (wsum_zero _ Hd) as Hz2. rewrite <- Hk' in *.
    split; intros E0.
    + assert (x = 0 /\ wsum d = 0) as [-> Ew] by lia. enough (wsum (0 :: d) = 0) by lia. apply Hz1. constructor; [done|]. by apply Hz2.
    + assert (Ew : wsum (x :: d) = 0) by lia. apply Hz1 in Ew. apply Forall_cons_1 in Ew as [-> Ew]. apply Hz2 in Ew. lia.
  - assert (Hok : blen d = 0 \/ odd = false) by (bool_lia; [by right|left; pose proof (blen_nonneg d); lia]). cbn [obind]. pose proof (blen_nonneg d).
    destruct (words_and_tail d (blen d) Hb ltac:(lia)) as (sum & t0 & -> & Ht & Hs & Ht0). cbn [obind]. rewrite Ht. cbn [obind].
    specialize (Hs ltac:(lia)). rewrite field_all in Hs by done. pose proof (hsum_bound _ Hb). destruct (hsum_wsum _ Hb) as (Hh0 & (k & Hk) & Hz).
    replace (sum + (t0 + 256 * 0)) with (hsum d) by lia. rewrite u32_small by lia. rewrite FOLD_twice by lia. rewrite swap16_ones by lia.
    assert (Eo : ones (hsum d) = ones (256 * wsum d)) by (apply (ones_eq _ _ k); lia). rewrite Eo. pose proof (ones_range (256 * wsum d) ltac:(lia)).
    destruct Hok as [Hn| ->]; [|by rewrite u16_small by lia]. assert (d = []) as -> by (destruct d; [done|rewrite blen_cons in Hn; pose proof (blen_nonneg d); lia]). by destruct odd.
Qed.

(** ** Chains *)

(** the sum in host order of what was added to the accumulator so far *)
Definition host_sum (a0 : Z) (d : list Z) : Z := a0 + 256 * wsum d.

Lemma ones_65536 x : 0 <= x -> ones (256 * (256 * x)) = ones x.
Proof. intros Hx. apply (ones_eq _ _ x); lia. Qed.
Lemma weight_cases p : weight p = 1 \/ weight p = 256.
Proof. unfold weight. destruct (Z.even _); auto. Qed.
Lemma weight_app p q : weight (p ++ q) = if Z.even (blen q) then weight p else if Z.even (blen p) then 256 else 1.
Proof. unfold weight. rewrite blen_app, Z.even_add. by destruct (Z.even (blen p)), (Z.even (blen q)). Qed.

Lemma sum_step a0 d q : 0 <= a0 -> bytes d -> bytes q ->
  FOLD_U32T (u32 (ones (weight d * host_sum a0 d) + swap16 (ones (wsum q)))) = ones (weight d * host_sum a0 (d ++ q)).
Proof.
  intros Ha Hd Hq. pose proof (wsum_nonneg _ Hd). pose proof (wsum_nonneg _ Hq). pose proof (weight_cases d) as Hw. unfold host_sum.
  destruct (wsum_append d q Hd Hq) as [k E]. assert (Hdq : bytes (d ++ q)) by (by apply Forall_app). pose proof (wsum_nonneg _ Hdq).
  assert (0 <= weight d * (a0 + 256 * wsum d)) by (destruct Hw as [-> | ->]; lia).
  rewrite swap16_ones by done. pose proof (ones_range (weight d * (a0 + 256 * wsum d)) ltac:(done)). pose proof (ones_range (256 * wsum q) ltac:(lia)).
  rewrite u32_small, FOLD_ones by lia. rewrite ones_add, Z.add_comm, ones_add, Z.add_comm by lia.
  pose proof (wsum_append_zero d q Hd Hq) as Hz. destruct Hw as [Ew|Ew]; rewrite Ew in *.
  - apply (ones_eq _ _ (- (256 * k))); lia.
  - apply (ones_eq _ _ (- (65536 * k) - 256 * wsum q)); lia.
Qed.
(** swapping moves to the other weight *)
Lemma sum_swap a0 d q : 0 <= a0 -> bytes (d ++ q) -> Z.even (blen q) = false ->
  SWAP_BYTES_IN_WORD (ones (weight d * host_sum a0 (d ++ q))) = ones (weight (d ++ q) * host_sum a0 (d ++ q)).
Proof.
  intros Ha Hb He. pose proof (wsum_nonneg _ Hb). assert (0 <= host_sum a0 (d ++ q)) by (unfold host_sum; lia). rewrite weight_app, He. unfold weight.
  destruct (Z.even (blen d)); (rewrite SWAP_swap16 by (apply ones_range; lia); rewrite swap16_ones by lia).
  - by rewrite Z.mul_1_l.
  - by rewrite ones_65536, Z.mul_1_l.
Qed.
Definition swaps (p : list Z) : Z := if Z.even (blen p) then 0 else 1.
Lemma unswap_sum a0 d : 0 <= a0 -> bytes d -> unswap (ones (weight d * host_sum a0 d)) (swaps d) = ones (host_sum a0 d).
Proof.
  intros Ha Hb. pose proof (wsum_nonneg _ Hb). assert (0 <= host_sum a0 d) by (unfold host_sum; lia). unfold unswap, swaps, weight.
  destruct (Z.even (blen d)); cbn [Z.eqb]; [by rewrite Z.mul_1_l|]. rewrite SWAP_swap16 by (apply ones_range; lia). by rewrite swap16_ones, ones_65536 by lia.
Qed.
Lemma mod2_even n : (n mod 2 =? 0) = Z.even n.
Proof. rewrite Zmod_even. by destruct (Z.even n). Qed.

Section Sums.
Context (base_odd : loc -> bool).

Lemma LWIP_CHKSUM_run h b n : fits (mem h) b -> bytes (data (mem h) b) -> 0 <= n <= pb_len b ->
  LWIP_CHKSUM base_odd b n h = Ok (swap16 (ones (wsum (field (data (mem h) b) 0 n))), h).
Proof.
  intros Hf Hb Hn. pose proof (fits_len _ _ Hf). pose proof (blen_data _ _ Hf) as Hl. unfold LWIP_CHKSUM.
  rewrite (bind_Ok _ _ _ _ _ (read_payload_run h b 0 n Hf ltac:(lia) ltac:(lia) ltac:(lia))). unfold lift.
  assert (E : blen (field (data (mem h) b) 0 n) = n) by (apply blen_field; lia). rewrite <- E at 2.
  rewrite standard_chksum_run by (try apply bytes_field; (done || lia)). done.
Qed.

Lemma chain_sum_run h a0 : 0 <= a0 -> forall l fuel o d, packet h o l -> bytes (content (mem h) l) -> bytes d -> (length l <= fuel)%nat ->
  chain_sum base_odd fuel o (ones (weight d * host_sum a0 d)) (swaps d) h =
  Ok ((ones (weight (d ++ content (mem h) l) * host_sum a0 (d ++ content (mem h) l)), swaps (d ++ content (mem h) l)), h).
Proof.
  intros Ha. induction l as [|[a b] l IH]; intros fuel o d Hp Hby Hd Hf.
  - assert (o = None) as -> by apply (pk_chain _ _ _ Hp). change (content (mem h) []) with (@nil Z). rewrite app_nil_r. by destruct fuel.
  - destruct fuel as [|fuel]; [cbn in Hf; lia|]. cbn in Hf. assert (o = Some a) as -> by apply (pk_chain _ _ _ Hp).
    apply packet_tail in Hp as (Hb0 & Hfit & _ & Hp). pose proof (fits_len _ _ Hfit) as Hpl. pose proof (blen_data _ _ Hfit) as Hdl.
    rewrite content_cons in Hby |- *. cbn [snd] in *. apply Forall_app in Hby as [Hbb Hbl]. cbn [chain_sum]. step.
    rewrite (bind_Ok _ _ _ _ _ (LWIP_CHKSUM_run h b (pb_len b) Hfit Hbb ltac:(lia))). rewrite field_all by done. rewrite sum_step by done.
    assert (Hdb : bytes (d ++ data (mem h) b)) by (by apply Forall_app). rewrite app_assoc, mod2_even. rewrite <- (IH fuel (pb_next b)) by (done || lia).
    rewrite <- Hdl. destruct (Z.even (blen (data (mem h) b))) eqn:He; cbn [negb].
    + rewrite weight_app, He. unfold swaps. rewrite blen_app, Z.even_add, He. by destruct (Z.even (blen d)).
    + rewrite sum_swap by done. unfold swaps. rewrite blen_app, Z.even_add, He. by destruct (Z.even (blen d)).
Qed.

(** ** The checksums *)

(** what a 16-bit store of the host leaves in memory *)
Definition store16 (v : Z) : list Z := [u8 v; u8 (v / 256)].
Lemma store_swapped v : 0 <= v <= 65535 -> store16 (swap16 v) = net16 v.
Proof.
  intros Hv. unfold store16, net16, swap16. pose proof (Z.div_mod v 256 ltac:(lia)). pose proof (Z.mod_pos_bound v 256 ltac:(lia)).
  assert (0 <= v / 256 <= 255) by (split; [apply Z.div_pos; lia|apply Z.lt_succ_r, Z.div_lt_upper_bound; lia]).
  rewrite Z.div_add_l, (Z.div_small (v / 256)), Z.add_0_r by lia. unfold u8. rewrite Z.add_comm, Z.mod_add by lia. rewrite Z.mod_mod by lia. done.
Qed.
Lemma swap16_complement x : 0 <= x <= 65535 -> 65535 - swap16 x = swap16 (65535 - x).
Proof.
  intros Hx. unfold swap16. pose proof (Z.div_mod x 256 ltac:(lia)). pose proof (Z.mod_pos_bound x 256 ltac:(lia)).
  assert ((65535 - x) / 256 = 255 - x / 256) as -> by (symmetry; apply (Z.div_unique _ _ _ (255 - x mod 256)); lia).
  assert ((65535 - x) mod 256 = 255 - x mod 256) as -> by (symmetry; apply (Z.mod_unique _ _ (255 - x / 256)); lia). lia.
Qed.
(** the complement of a sum in host order is stored as the checksum *)
Lemma store_complement l s : bytes l -> ones s = ones (256 * wsum l) -> store16 (u16 (Z.lnot (ones s))) = net16 (csum l).
Proof.
  intros Hl Hs. pose proof (wsum_nonneg _ Hl). pose proof (ones_range (wsum l) ltac:(lia)) as Hr. rewrite Hs, <- swap16_ones by lia.
  pose proof (swap16_value _ Hr). rewrite lnot_16, swap16_complement by lia. by rewrite store_swapped by (unfold csum; lia).
Qed.
Lemma land_16 x : 0 <= x <= 65535 -> Z.land x 65535 = x.
Proof. intros Hx. change 65535 with (Z.ones 16). rewrite Z.land_ones by lia. apply Z.mod_small. cbn. lia. Qed.

Lemma ones_add_r x y : 0 <= x -> 0 <= y -> ones (x + ones y) = ones (x + y).
Proof. intros. rewrite Z.add_comm, ones_add by done. by rewrite Z.add_comm. Qed.
Lemma htons_ones x : 0 <= x <= 65535 -> lwip_htons x = ones (256 * x).
Proof. intros Hx. by rewrite lwip_htons_swap16, <- swap16_ones, ones_small by lia. Qed.

(** the pseudo header, then the packet *)
Definition pseudo (addrs : list Z) (proto proto_len : Z) : list Z := addrs ++ [0; proto] ++ net16 proto_len.

Lemma wsum_pseudo addrs proto n c : Z.even (blen addrs) = true -> bytes addrs -> is_byte proto -> 0 <= n < 65536 ->
  wsum (pseudo addrs proto n ++ c) = wsum addrs + proto + n + wsum c.
Proof.
  intros He Ha Hp Hn. unfold pseudo. rewrite <- !app_assoc. rewrite wsum_app by done. cbn [app net16 wsum]. pose proof (net16_value n) as E. rewrite u16_small in E by lia. lia.
Qed.
Lemma bytes_pseudo addrs proto n : bytes addrs -> is_byte proto -> bytes (pseudo addrs proto n).
Proof. intros Ha Hp. unfold pseudo. rewrite !Forall_app. split_and!; [done|repeat constructor; [unfold is_byte; lia|apply Hp..]|apply bytes_net16]. Qed.

(** the end of the two routines with a pseudo header *)
Lemma pseudo_end addrs proto n c s : Z.even (blen addrs) = true -> bytes addrs -> is_byte proto -> 0 <= n < 65536 -> bytes c -> 0 <= s ->
  ones s = ones (256 * wsum addrs) ->
  store16 (u16 (Z.lnot (Z.land (FOLD_U32T (FOLD_U32T (u32 (u32 (ones (host_sum (ones s) c) + lwip_htons (u16 proto)) + lwip_htons n)))) 65535))) =
  net16 (csum (pseudo addrs proto n ++ c)).
Proof.
  intros He Ha Hp Hn Hc Hs E. unfold is_byte in Hp. pose proof (wsum_nonneg _ Ha). pose proof (wsum_nonneg _ Hc). rewrite (u16_small proto) by lia.
  rewrite !htons_ones by lia. pose proof (ones_range s Hs). assert (0 <= host_sum (ones s) c) by (unfold host_sum; lia).
  pose proof (ones_range (host_sum (ones s) c) ltac:(done)). pose proof (ones_range (256 * proto) ltac:(lia)). pose proof (ones_range (256 * n) ltac:(lia)).
  rewrite (u32_small (ones (host_sum _ _) + _)), u32_small by lia. rewrite FOLD_twice by lia. rewrite land_16 by (apply ones_range; lia).
  apply store_complement; [by apply Forall_app; split; [apply bytes_pseudo|]|]. rewrite wsum_pseudo by done.
  rewrite ones_add_r by lia. rewrite <- Z.add_assoc, ones_add by lia. unfold host_sum.
  replace (ones s + 256 * wsum c + (ones (256 * proto) + 256 * n)) with (256 * wsum c + 256 * n + ones s + ones (256 * proto)) by lia.
  rewrite ones_add_r by lia. replace (256 * wsum c + 256 * n + ones s + 256 * proto) with (ones s + (256 * wsum c + 256 * n + 256 * proto)) by lia.
  rewrite E, ones_add by lia. f_equal. lia.
Qed.

Lemma halves_load32 a : length a = 4%nat -> bytes a -> halves (load32 a) = hsum a.
Proof.
  intros Hl Hb. destruct a as [|x0 [|x1 [|x2 [|x3 []]]]]; try done.
  repeat match goal with Hx : Forall _ (_ :: _) |- _ => apply Forall_cons_1 in Hx as [? Hx] end. unfold is_byte in *. unfold halves. cbn [hsum].
  change (load32 [x0; x1; x2; x3]) with (x0 + 256 * (x1 + 256 * (x2 + 256 * x3))).
  change 65535 with (Z.ones 16). rewrite !Z.land_ones, Z.shiftr_div_pow2 by lia. change (2 ^ 16) with 65536.
  replace (x0 + 256 * (x1 + 256 * (x2 + 256 * x3))) with ((x0 + 256 * x1) + (x2 + 256 * x3) * 65536) by lia.
  rewrite Z.mod_add, (Z.mod_small (x0 + _)) by lia. rewrite Z.div_add, (Z.div_small (x0 + _)), Z.add_0_l by lia. rewrite (Z.mod_small (x2 + _)) by lia. lia.
Qed.
Lemma hsum_ones l : bytes l -> ones (hsum l) = ones (256 * wsum l).
Proof. intros Hl. destruct (hsum_wsum l Hl) as (H0 & (k & E) & Hz). pose proof (wsum_nonneg _ Hl). apply (ones_eq _ _ k); lia. Qed.

Lemma pseudo_base_run h a l addrs proto n s : packet h (Some a) l -> bytes (content (mem h) l) ->
  Z.even (blen addrs) = true -> bytes addrs -> is_byte proto -> 0 <= n < 65536 -> 0 <= s < 4294967296 -> ones s = ones (256 * wsum addrs) ->
  exists r, inet_cksum_pseudo_base base_odd (Some a) proto n (FOLD_U32T (FOLD_U32T s)) h = Ok (r, h) /\
    store16 r = net16 (csum (pseudo addrs proto n ++ content (mem h) l)).
Proof.
  intros Hp Hc He Ha Hpr Hn Hs E. rewrite FOLD_twice by done. unfold inet_cksum_pseudo_base. rewrite gets_run. pose proof (ones_range s ltac:(lia)) as Hr.
  pose proof (chain_sum_run h (ones s) ltac:(lia) l (steps h) (Some a) [] Hp Hc ltac:(constructor) ltac:(apply Nat.lt_le_incl; by eapply steps_enough)) as Hrun.
  assert (E0 : ones (weight [] * host_sum (ones s) []) = ones s).
  { unfold host_sum. change (weight []) with 1. change (wsum []) with 0. rewrite Z.mul_0_r, Z.add_0_r, Z.mul_1_l. apply ones_small. lia. }
  rewrite E0 in Hrun. change (swaps []) with 0 in Hrun. rewrite (bind_Ok _ _ _ _ _ Hrun). cbn [app]. cbv beta iota zeta. rewrite unswap_sum by (done || lia).
  eexists. split; [done|]. by apply pseudo_end; [..|lia|].
Qed.

(** C30. The checksum the stack stores in a TCP header is the Internet checksum of
    the pseudo header and the packet, for every way the packet is cut into
    buffers, of odd lengths and at odd addresses too. *)
Theorem inet_chksum_pseudo_correct h a l proto n src dest : packet h (Some a) l -> bytes (content (mem h) l) ->
  length src = 4%nat -> length dest = 4%nat -> bytes src -> bytes dest -> is_byte proto -> 0 <= n < 65536 ->
  exists r, inet_chksum_pseudo base_odd (Some a) proto n src dest h = Ok (r, h) /\
    store16 r = net16 (csum (pseudo (src ++ dest) proto n ++ content (mem h) l)).
Proof.
  intros Hp Hc Hls Hld Hs Hd Hpr Hn. unfold inet_chksum_pseudo. rewrite !halves_load32 by done.
  assert (He : Z.even (blen src) = true) by (unfold blen; by rewrite Hls). assert (Hsd : bytes (src ++ dest)) by (by apply Forall_app).
  pose proof (hsum_bound _ Hsd) as Hb. pose proof (proj1 (hsum_wsum _ Hsd)) as H0. rewrite blen_app in Hb. unfold blen in Hb. rewrite Hls, Hld in Hb.
  rewrite hsum_even in Hb, H0 by done. rewrite u32_small by lia. apply pseudo_base_run; try done.
  - rewrite blen_app, Z.even_add, He. unfold blen. by rewrite Hld.
  - lia.
  - rewrite <- hsum_even by done. by apply hsum_ones.
Qed.

(** The same for IPv6, whose pseudo header has a longer length and protocol field
    with zeros in front. *)
Theorem ip6_chksum_pseudo_correct h a l proto n src dest : packet h (Some a) l -> bytes (content (mem h) l) ->
  length src = 16%nat -> length dest = 16%nat -> bytes src -> bytes dest -> is_byte proto -> 0 <= n < 65536 ->
  exists r, ip6_chksum_pseudo base_odd (Some a) proto n src dest h = Ok (r, h) /\
    store16 r = net16 (csum (pseudo (src ++ dest) proto n ++ content (mem h) l)).
Proof.
  intros Hp Hc Hls Hld Hs Hd Hpr Hn. unfold ip6_chksum_pseudo.
  assert (He : Z.even (blen src) = true) by (unfold blen; by rewrite Hls). assert (Hsd : bytes (src ++ dest)) by (by apply Forall_app).
  pose proof (hsum_bound _ Hsd) as Hb. pose proof (proj1 (hsum_wsum _ Hsd)) as H0. rewrite blen_app in Hb. unfold blen in Hb. rewrite Hls, Hld in Hb.
  assert (Es : ip6_sum src dest = hsum (src ++ dest)).
  { rewrite hsum_even in * by done. do 17 (destruct src as [|? src]; try done). do 17 (destruct dest as [|? dest]; try done).
    unfold ip6_sum, part6, field. cbn [fold_left]. rewrite !halves_load32 by (try done; by apply Forall_take, Forall_drop).
    change (Z.to_nat 4) with 4%nat. change (Z.to_nat (4 * 0)) with 0%nat. change (Z.to_nat (4 * 1)) with 4%nat.
    change (Z.to_nat (4 * 2)) with 8%nat. change (Z.to_nat (4 * 3)) with 12%nat. cbn [firstn skipn hsum] in *.
    repeat match goal with Hx : Forall _ (_ :: _) |- _ => apply Forall_cons_1 in Hx as [? Hx] end. unfold is_byte in *.
    repeat match goal with |- context [u32 ?x] => lazymatch x with context [u32 _] => fail | _ => rewrite (u32_small x) by lia end end. lia. }
  rewrite Es. apply pseudo_base_run; try done.
  - rewrite blen_app, Z.even_add, He. unfold blen. by rewrite Hld.
  - lia.
  - by apply hsum_ones.
Qed.

(** Without a pseudo header, over one block (IP, ICMP) and over a chain. *)
Theorem inet_chksum_correct odd d : bytes d -> blen d < 131071 -> exists r, inet_chksum odd d (blen d) = Ok r /\ store16 r = net16 (csum d).
Proof.
  intros Hb Hl. unfold inet_chksum. rewrite standard_chksum_run by done. cbn [obind]. eexists. split; [done|]. pose proof (wsum_nonneg _ Hb).
  rewrite swap16_ones by done. by apply store_complement.
Qed.
Theorem inet_chksum_pbuf_correct h a l : packet h (Some a) l -> bytes (content (mem h) l) ->
  exists r, inet_chksum_pbuf base_odd (Some a) h = Ok (r, h) /\ store16 r = net16 (csum (content (mem h) l)).
Proof.
  intros Hp Hc. unfold inet_chksum_pbuf. rewrite gets_run.
  pose proof (chain_sum_run h 0 ltac:(lia) l (steps h) (Some a) [] Hp Hc ltac:(constructor) ltac:(apply Nat.lt_le_incl; by eapply steps_enough)) as Hrun.
  change (ones (weight [] * host_sum 0 [])) with 0 in Hrun. change (swaps []) with 0 in Hrun. rewrite (bind_Ok _ _ _ _ _ Hrun). cbn [app]. cbv beta iota zeta.
  rewrite unswap_sum by (done || lia). eexists. split; [done|]. pose proof (wsum_nonneg _ Hc). rewrite land_16 by (apply ones_range; unfold host_sum; lia).
  by apply store_complement.
Qed.

(** ** A part of the packet *)

Lemma unswap_value d x : 0 <= x -> unswap (ones (weight d * x)) (swaps d) = ones x /\
  unswap (SWAP_BYTES_IN_WORD (ones (weight d * x))) (u8 (1 - swaps d)) = ones x.
Proof.
  intros Hx. unfold unswap, swaps, weight. destruct (Z.even (blen d)).
  - change (u8 (1 - 0)) with 1. cbn [Z.eqb]. rewrite Z.mul_1_l. split; [done|]. pose proof (ones_range x Hx). pose proof (ones_range (256 * x) ltac:(lia)).
    rewrite (SWAP_swap16 (ones x)), swap16_ones, SWAP_swap16, swap16_ones by lia. by apply ones_65536.
  - change (u8 (1 - 1)) with 0. cbn [Z.eqb]. pose proof (ones_range (256 * x) ltac:(lia)). rewrite SWAP_swap16, swap16_ones by lia. by rewrite ones_65536.
Qed.
Lemma partial_stops fuel o acc s h : partial_sum base_odd fuel o 0 acc s h = Ok ((acc, s), h).
Proof. by destruct fuel, o. Qed.

Lemma partial_sum_run h a0 : 0 <= a0 -> forall l fuel o d m, packet h o l -> bytes (content (mem h) l) -> bytes d -> (length l <= fuel)%nat ->
  0 <= m <= total l -> m < 32767 ->
  exists acc s, partial_sum base_odd fuel o m (ones (weight d * host_sum a0 d)) (swaps d) h = Ok ((acc, s), h) /\
    unswap acc s = ones (host_sum a0 (d ++ field (content (mem h) l) 0 m)).
Proof.
  intros Ha. induction l as [|[a b] l IH]; intros fuel o d m Hp Hby Hd Hf Hm Hlt.
  - assert (m = 0) as -> by (change (total []) with 0 in Hm; lia). rewrite partial_stops, field_none, app_nil_r by lia. eexists _, _. split; [done|]. by apply unswap_sum.
  - destruct (Z.eq_dec m 0) as [->|Hm0].
    { rewrite partial_stops, field_none, app_nil_r by lia. eexists _, _. split; [done|]. by apply unswap_sum. }
    destruct fuel as [|fuel]; [cbn in Hf; lia|]. cbn in Hf. assert (o = Some a) as -> by apply (pk_chain _ _ _ Hp).
    apply packet_tail in Hp as (Hb0 & Hfit & _ & Hp). pose proof (fits_len _ _ Hfit) as Hpl. pose proof (blen_data _ _ Hfit) as Hdl.
    rewrite total_cons in Hm. rewrite content_cons in Hby |- *. cbn [snd] in *. apply Forall_app in Hby as [Hbb Hbl]. cbn [partial_sum].
    rewrite (proj2 (Z.leb_gt _ _)) by lia. step. destruct (Z.ltb_spec m (pb_len b)) as [Hmb|Hmb].
    + pose proof (bytes_field _ 0 m Hbb) as Hbf. rewrite (bind_Ok _ _ _ _ _ (LWIP_CHKSUM_run h b m Hfit Hbb ltac:(lia))). rewrite Z.sub_diag. change (u16 0) with 0.
      rewrite bind_assert by done. rewrite sum_step by done. rewrite field_app_within by lia.
      assert (0 <= host_sum a0 (d ++ field (data (mem h) b) 0 m)) as Hx
        by (assert (Hdf : bytes (d ++ field (data (mem h) b) 0 m)) by (by apply Forall_app); pose proof (wsum_nonneg _ Hdf); unfold host_sum; lia).
      destruct (unswap_value d _ Hx). destruct (negb _); rewrite partial_stops; eexists _, _; (split; [done|done]).
    + rewrite (bind_Ok _ _ _ _ _ (LWIP_CHKSUM_run h b (pb_len b) Hfit Hbb ltac:(lia))). rewrite field_all by done. rewrite u16_small by lia.
      rewrite bind_assert by (apply Z.ltb_lt; lia). rewrite sum_step by done. assert (Hdb : bytes (d ++ data (mem h) b)) by (by apply Forall_app).
      destruct (IH fuel (pb_next b) (d ++ data (mem h) b) (m - pb_len b) Hp Hbl Hdb ltac:(lia) ltac:(lia) ltac:(lia)) as (acc & s & Hrun & Hu).
      exists acc, s. replace m with (pb_len b + (m - pb_len b)) at 3 by lia. rewrite field_app_across, field_all, app_assoc by lia. split; [|done].
      rewrite <- Hrun, mod2_even, <- Hdl. destruct (Z.even (blen (data (mem h) b))) eqn:He; cbn [negb].
      * rewrite weight_app, He. unfold swaps. rewrite blen_app, Z.even_add, He. by destruct (Z.even (blen d)).
      * rewrite sum_swap by done. unfold swaps. rewrite blen_app, Z.even_add, He. by destruct (Z.even (blen d)).
Qed.

(** The checksum over the first bytes of a packet only, below the limit of the
    assertion in it. *)
Theorem pseudo_partial_correct h a l proto n m src dest : packet h (Some a) l -> bytes (content (mem h) l) ->
  length src = 4%nat -> length dest = 4%nat -> bytes src -> bytes dest -> is_byte proto -> 0 <= n < 65536 -> 0 <= m <= total l -> m < 32767 ->
  exists r, inet_chksum_pseudo_partial base_odd (Some a) proto n m src dest h = Ok (r, h) /\
    store16 r = net16 (csum (pseudo (src ++ dest) proto n ++ field (content (mem h) l) 0 m)).
Proof.
  intros Hp Hc Hls Hld Hs Hd Hpr Hn Hm Hlt. unfold inet_chksum_pseudo_partial, inet_cksum_pseudo_partial_base. rewrite !halves_load32, gets_run by done.
  assert (He : Z.even (blen src) = true) by (unfold blen; by rewrite Hls). assert (Hsd : bytes (src ++ dest)) by (by apply Forall_app).
  pose proof (hsum_bound _ Hsd) as Hb. pose proof (proj1 (hsum_wsum _ Hsd)) as H0. rewrite blen_app in Hb. unfold blen in Hb. rewrite Hls, Hld in Hb.
  rewrite hsum_even in Hb, H0 by done. rewrite u32_small, FOLD_twice by lia. rewrite <- hsum_even in * by done. pose proof (ones_range _ H0).
  destruct (partial_sum_run h (ones (hsum (src ++ dest))) ltac:(lia) l (steps h) (Some a) [] m Hp Hc ltac:(constructor) ltac:(apply Nat.lt_le_incl; by eapply steps_enough) Hm Hlt)
    as (acc & s & Hrun & Hu).
  assert (E0 : ones (weight [] * host_sum (ones (hsum (src ++ dest))) []) = ones (hsum (src ++ dest))).
  { unfold host_sum. change (weight []) with 1. change (wsum []) with 0. rewrite Z.mul_0_r, Z.add_0_r, Z.mul_1_l. apply ones_small. lia. }
  rewrite E0 in Hrun. change (swaps []) with 0 in Hrun. rewrite (bind_Ok _ _ _ _ _ Hrun). cbv beta iota zeta. rewrite Hu. cbn [app].
  eexists. split; [done|]. apply pseudo_end; try done; [|by apply bytes_field|by apply hsum_ones].
  rewrite blen_app, Z.even_add, He. unfold blen. by rewrite Hld.
Qed.
End Sums.

(** ** Witness: two buffers, the first of odd length at an odd address *)

Definition buf1 : pbuf := mkPbuf (Some 2%positive) (Some (3%positive, 1)) 5 3 PBUF_REF 0 1.
Definition buf2 : pbuf := mkPbuf None (Some (4%positive, 0)) 2 2 PBUF_REF 0 1.
Definition two_bufs : heap :=
  mkHeap (<[1%positive := buf1]> (<[2%positive := buf2]> ∅)) (<[3%positive := [9; 1; 2; 3]]> (<[4%positive := [4; 5]]> ∅)) [] 0.
Lemma inet_chksum_pseudo_witness : exists r, inet_chksum_pseudo (fun _ => false) (Some 1%positive) 6 5 [10; 13; 0; 1] [192; 168; 1; 2] two_bufs = Ok (r, two_bufs) /\
  store16 r = net16 (csum (pseudo [10; 13; 0; 1; 192; 168; 1; 2] 6 5 ++ [1; 2; 3; 4; 5])).
Proof.
  destruct (inet_chksum_pseudo_correct (fun _ => false) two_bufs 1%positive [(1%positive, buf1); (2%positive, buf2)] 6 5 [10; 13; 0; 1] [192; 168; 1; 2]) as (r & Hr & Hs).
  - split; [done|repeat constructor|done|done].
    + exists 3%positive, 1, [9; 1; 2; 3]. done.
    + exists 4%positive, 0, [4; 5]. done.
  - apply sample_bytes. reflexivity.
  - done.
  - done.
  - apply sample_bytes. reflexivity.
  - apply sample_bytes. reflexivity.
  - done.
  - lia.
  - exists r. split; [exact Hr|exact Hs].
Defined.
