(* ===== verification/Setup.v ===== *)
(** * Setup: the software the relay needs on the host

    [desktop/dependencies.cpp], what is installed and the installation of what
    is missing on Windows, [src/npcap-loader.c], the functions of the capture
    library, and [src/win-firewall.c], the rule against the hotspot's own DHCP
    server.  Windows is outside: a record holds what it answers to one run of an
    operation, the check of a signature is a parameter, and [files] is the
    folder of installers.  [out] collects, in order, the signals and the
    programs started. *)

From Stdlib Require Import Ascii.
From stdpp Require Import gmap strings pretty.
From S2P Require Import Prelude Bytes Sample Address Desktop.

#[local] Open Scope Z_scope.

Definition MAX_PATH : Z := 260.

(** ** What is installed *)

Record DependencyStatus := mkDependencyStatus { zeroTier : bool; npcap : bool; winPcap : bool }.

(** what the host answers while it is examined: the service manager and the
    services that open, the registry keys that open in a view, the length and
    the text [GetSystemDirectoryW] gives, the files, the interfaces, the files
    of a directory and the programs on the path *)
Inductive view := KEY_WOW64_64KEY | KEY_WOW64_32KEY.
Record machine := mkMachine {
  OpenSCManagerW : bool;
  OpenServiceW : string -> bool;
  RegOpenKeyExW : string -> view -> bool;
  GetSystemDirectoryW : Z * string;
  exists_ : string -> bool;
  allInterfaces : list interface;
  entryList : string -> list string;
  findExecutable : string -> string
}.

Definition serviceExists (m : machine) (name : string) : bool :=
  if negb (OpenSCManagerW m) then false else OpenServiceW m name.
Definition registryKeyExists (m : machine) (path : string) (v : view) : bool := RegOpenKeyExW m path v.

Definition winpcap_key : string := "SOFTWARE\Microsoft\Windows\CurrentVersion\Uninstall\WinPcapInst".
Definition winPcapRegistryPresent (m : machine) : bool :=
  registryKeyExists m winpcap_key KEY_WOW64_64KEY || registryKeyExists m winpcap_key KEY_WOW64_32KEY.

Definition npcap_dll : string := "\Npcap\wpcap.dll".

Definition status_windows (m : machine) : DependencyStatus :=
  let (length, systemDirectory) := GetSystemDirectoryW m in
  let npcap := negb (length =? 0) && (length <? MAX_PATH) && exists_ m (systemDirectory +:+ npcap_dll) in
  mkDependencyStatus (serviceExists m "ZeroTierOneService") npcap
    (negb npcap && (serviceExists m "NPF" || winPcapRegistryPresent m)).

Definition mac_zerotier_paths : list string :=
  ["/Library/Application Support/ZeroTier/One"; "/usr/local/bin/zerotier-cli"; "/Applications/ZeroTier.app";
   "/Applications/ZeroTier One.app"].
Definition status_macos (m : machine) : DependencyStatus :=
  let adapter := existsb (fun i => contains_nocase (i_name i +:+ " " +:+ i_label i) "zerotier" || starts_with "feth" (i_name i))
    (allInterfaces m) in
  mkDependencyStatus (adapter || existsb (exists_ m) mac_zerotier_paths) false false.

Definition libpcap_directories : list string := ["/lib/x86_64-linux-gnu"; "/usr/lib/x86_64-linux-gnu"; "/usr/lib64"; "/usr/lib"].
Definition status_linux (m : machine) : DependencyStatus :=
  let pcap := existsb (fun directory => existsb (starts_with "libpcap.so") (entryList m directory)) libpcap_directories in
  let adapter := existsb (fun i => starts_with "zt" (i_name i)) (allInterfaces m) in
  mkDependencyStatus
    (adapter || exists_ m "/var/lib/zerotier-one" || exists_ m "/usr/sbin/zerotier-one" || nonempty (findExecutable m "zerotier-cli"))
    pcap false.

Definition status (o : os) (m : machine) : DependencyStatus :=
  match o with Windows => status_windows m | MacOS => status_macos m | Linux => status_linux m end.

(** ** Download *)

(** one round of the loop: what [WinHttpQueryDataAvailable] reports, what
    [WinHttpReadData] reads and whether the bytes are written *)
Record round := mkRound { available : option Z; read : option (list Z); written : bool }.

(** what Windows answers to one download: the handles of the session, the
    connection and the request, whether the request is sent and answered, the
    status of the answer, and the rounds of the loop *)
Record http := mkHttp {
  session : bool; connection : bool; request : bool; sent : bool; response : bool; status_code : option Z; rounds : list round
}.

Inductive message :=
| MNoSession | MNotDownloaded | MNotFinished | MNoFolder | MNotSaved | MBadSignature | MWinPcap | MNotStarted | MInstallerFailed
| MAlready | MInstalled | MNoInstaller | MNone.

(** the loop: the bytes written to the file and whether it ended well.  A
    download that gives no further round has no further data *)
Fixpoint download_loop (l : list round) : list Z * bool :=
  match l with
  | [] => ([], true)
  | r :: l =>
      match available r with
      | None => ([], false)
      | Some a =>
          if a =? 0 then ([], true) else
          match read r with
          | None => ([], false)
          | Some bytes =>
              if written r then let (rest, ok) := download_loop l in (bytes ++ rest, ok) else ([], false)
          end
      end
  end.

(** the parts of an address, as Qt encodes them, and a request as it is made of
    WinHTTP, which Windows answers *)
Record qurl := mkQUrl { q_host : string; q_path : string; q_query : string }.
Record http_request := mkRequest { rq_host : string; rq_port : Z; rq_verb : string; rq_object : string; rq_secure : bool }.
Definition INTERNET_DEFAULT_HTTPS_PORT : Z := 443.

Definition download_request (u : qurl) : http_request :=
  let path := q_path u +:+ (if String.eqb (q_query u) "" then "" else "?" +:+ q_query u) in
  mkRequest (q_host u) INTERNET_DEFAULT_HTTPS_PORT "GET" path true.

Definition downloadWithWinHttp (u : qurl) (network : http_request -> http) : (list Z * bool) * message :=
  let h := network (download_request u) in
  if negb (session h) then (([], false), MNoSession) else
  let ok := connection h && request h && sent h && response h in
  let ok := ok && match status_code h with Some s => (200 <=? s) && (s <? 300) | None => false end in
  if negb ok then (([], false), MNotDownloaded) else
  let (body, ok) := download_loop (rounds h) in
  ((body, ok), if ok then MNone else MNotFinished).

(** ** Installation *)

Inductive Package := ZeroTier | Npcap.
#[export] Instance Package_eq_dec : EqDecision Package.
Proof. solve_decision. Defined.

Inductive act :=
| Downloading (p : Package) (url : string)
| Installing (p : Package)
| Completed (m : message)
| Failed (m : message)
| Started (program : string) (args : list string).

Record installer := mkInstaller {
  pending : list Package;
  running : bool;
  files : gmap string (list Z);
  out : list act
}.
#[global] Instance eta_installer : Eta installer := fun r => mkInstaller (pending r) (running r) (files r) (out r).
Definition DependencyInstaller : installer := mkInstaller [] false ∅ [].

Definition emit (a : act) (s : installer) : installer := s <| out ::= (fun l => l ++ [a]) |>.

(** what Windows answers while one package is fetched and started *)
Record answers := mkAnswers { mkpath : bool; opens : bool; answer : http_request -> http; commits : bool; starts : bool }.

Definition url (p : Package) : string :=
  match p with
  | ZeroTier => "https://download.zerotier.com/dist/ZeroTier%20One.msi"
  | Npcap => "https://npcap.com/dist/npcap-1.88.exe"
  end.

Section Installer.
(** [QUrl] of a text, [WinVerifyTrust] on the bytes of a file, the folder of the
    application's data and [QDir::toNativeSeparators] *)
Context (QUrl : string -> qurl) (WinVerifyTrust : list Z -> bool) (data : string) (toNativeSeparators : string -> string).

Definition file (p : Package) : string :=
  data +:+ "/installers" +:+ match p with ZeroTier => "/ZeroTier-One.msi" | Npcap => "/npcap-1.88.exe" end.

Definition verifyPublisherSignature (f : string) (s : installer) : bool :=
  match files s !! f with Some bytes => WinVerifyTrust bytes | None => false end.

(** the state and the error, or no error; the file is replaced only when the
    download is committed *)
Definition downloadAndVerify (p : Package) (a : answers) (s : installer) : installer * option message :=
  let s := emit (Downloading p (url p)) s in
  if negb (mkpath a) then (s, Some MNoFolder) else
  if negb (opens a) then (s, Some MNotSaved) else
  let '((body, ok), error) := downloadWithWinHttp (QUrl (url p)) (answer a) in
  if negb ok then (s, Some error) else
  if negb (commits a) then (s, Some MNotSaved) else
  let s := s <| files ::= <[file p := body]> |> in
  (s, if verifyPublisherSignature (file p) s then None else Some MBadSignature).

Definition command (p : Package) : string * list string :=
  match p with
  | ZeroTier => ("msiexec.exe", ["/i"; toNativeSeparators (file ZeroTier); "/passive"; "/norestart"])
  | Npcap => (file Npcap, [])
  end.

(** [installer.start] does nothing while a process runs, and
    [waitForStarted] then reports it as started *)
Definition start (p : Package) (a : answers) (s : installer) : installer :=
  if running s then s else
  if starts a then emit (Started (command p).1 (command p).2) (s <| running := true |>) else emit (Failed MNotStarted) s.

Definition installNext (a : answers) (s : installer) : installer :=
  match pending s with
  | [] => emit (Completed MInstalled) s
  | p :: rest =>
      let (s, error) := downloadAndVerify p a (s <| pending := rest |>) in
      match error with
      | Some e => emit (Failed e) s
      | None => start p a (emit (Installing p) s)
      end
  end.

(** what is missing, in the order of installation *)
Definition missing (d : DependencyStatus) : list Package :=
  (if zeroTier d then [] else [ZeroTier]) ++ (if npcap d then [] else [Npcap]).

Definition installMissing (o : os) (m : machine) (a : answers) (s : installer) : installer :=
  if is_windows o then
    let current := status o m in
    if winPcap current then emit (Failed MWinPcap) s else
    let s := s <| pending := missing current |> in
    match pending s with [] => emit (Completed MAlready) s | _ => installNext a s end
  else emit (Completed MNoInstaller) s.

(** the signal [finished] of the process *)
Definition finished (exitCode : Z) (normal : bool) (a : answers) (s : installer) : installer :=
  let s := s <| running := false |> in
  if negb normal || negb (exitCode =? 0) then emit (Failed MInstallerFailed) s else installNext a s.

Inductive event := EInstall (m : machine) (a : answers) | EFinished (exitCode : Z) (normal : bool) (a : answers).

Definition handle (e : event) (s : installer) : installer :=
  match e with
  | EInstall m a => installMissing Windows m a s
  | EFinished code normal a => finished code normal a s
  end.
Definition enabled (e : event) (s : installer) : bool :=
  match e with EInstall _ _ => true | EFinished _ _ _ => running s end.
Definition event_answers (e : event) : answers := match e with EInstall _ a => a | EFinished _ _ a => a end.

End Installer.

(** ** The capture library *)

(** the functions the relay resolves, in order *)
Definition npcap_symbols : list string :=
  ["pcap_create"; "pcap_set_timeout"; "pcap_set_snaplen"; "pcap_set_buffer_size"; "pcap_stats"; "pcap_set_promisc";
   "pcap_setmintocopy"; "pcap_activate"; "pcap_datalink"; "pcap_geterr"; "pcap_compile"; "pcap_setfilter"; "pcap_freecode";
   "pcap_close"; "pcap_findalldevs"; "pcap_freealldevs"; "pcap_sendpacket"; "pcap_setnonblock"; "pcap_dispatch";
   "pcap_open_dead"; "pcap_dump_hopen"; "pcap_dump_close"; "pcap_dump"; "pcap_dump_flush"; "pcap_lib_version"; "pcap_init"].

(** the static [module], the pointers by the name of their function (one that
    is null is absent) and the libraries that are loaded *)
Record loader := mkLoader { module : option Z; pointers : gmap string Z; loaded : list Z }.
#[global] Instance eta_loader : Eta loader := fun r => mkLoader (module r) (pointers r) (loaded r).

Inductive load_result := LoadOk | NoSystemDirectory | NotLoaded | Missing (symbol : string) | NotInitialised.

Section Loader.
(** what Windows and the library answer: the system directory with the length
    reported, the library of a path, the function of a name in a library, and
    whether the initialisation at a pointer succeeds *)
Context (systemDirectory : Z * string) (LoadLibraryExW : string -> option Z) (GetProcAddress : Z -> string -> option Z)
  (pcap_init : Z -> bool).

Definition FreeLibrary (h : Z) (l : loader) : loader := l <| loaded ::= List.filter (fun x => negb (x =? h)) |>.

(** [RESOLVE] for each name, up to the first that is missing *)
Fixpoint resolve (h : Z) (names : list string) (l : loader) : loader * option string :=
  match names with
  | [] => (l, None)
  | name :: names =>
      match GetProcAddress h name with
      | Some f => resolve h names (l <| pointers ::= <[name := f]> |>)
      | None => (l <| pointers ::= delete name |>, Some name)
      end
  end.

(** [wcscat] writes the name and its terminator into a buffer of [MAX_PATH] *)
Definition zll_npcap_load (l : loader) : outcome (loader * load_result) :=
  match module l with
  | Some _ => Ok (l, LoadOk)
  | None =>
      let (n, path) := systemDirectory in
      if (n =? 0) || (MAX_PATH <=? n + 17) then Ok (l, NoSystemDirectory) else
      if MAX_PATH <? strlen path + strlen npcap_dll + 1 then Stop OutOfBounds else
      match LoadLibraryExW (path +:+ npcap_dll) with
      | None => Ok (l, NotLoaded)
      | Some candidate =>
          let (l, missing) := resolve candidate npcap_symbols (l <| loaded ::= cons candidate |>) in
          match missing with
          | Some name => Ok (FreeLibrary candidate l, Missing name)
          | None =>
              match pointers l !! "pcap_init" with
              | None => Stop NullDeref
              | Some f =>
                  if pcap_init f then Ok (l <| module := Some candidate |>, LoadOk)
                  else Ok (FreeLibrary candidate l, NotInitialised)
              end
          end
      end
  end.

End Loader.

(** ** The firewall *)

Definition FW_RULE_NAME : string := "GRID0 - block hotspot DHCP".
Definition quote : string := String (ascii_of_nat 34) "".

(** the command line of [CreateProcessA]: [_snprintf] into 512 bytes, the last
    of them a terminator *)
Definition run_netsh (args : string) : string := String.substring 0 511 ("netsh advfirewall firewall " +:+ args).

Definition delete_args : string := "delete rule name=" +:+ quote +:+ FW_RULE_NAME +:+ quote.
Definition add_args : string :=
  "add rule name=" +:+ quote +:+ FW_RULE_NAME +:+ quote +:+ " dir=out protocol=udp localport=67 action=block".

(** the commands run, in order *)
Definition winfw_set_hotspot_dhcp_block (enable : bool) : list string :=
  run_netsh delete_args :: if enable then [run_netsh add_args] else [].

(** ** Verified installers *)

Section Verified.
Context (QUrl : string -> qurl) (WinVerifyTrust : list Z -> bool) (data : string) (toNativeSeparators : string -> string).

#[local] Abbreviation file' := (file data).
#[local] Abbreviation command' := (command data toNativeSeparators).
#[local] Abbreviation fetch := (downloadAndVerify QUrl WinVerifyTrust data).
#[local] Abbreviation next := (installNext QUrl WinVerifyTrust data toNativeSeparators).
#[local] Abbreviation handle' := (handle QUrl WinVerifyTrust data toNativeSeparators).
#[local] Abbreviation finished' := (finished QUrl WinVerifyTrust data toNativeSeparators).

(** the rounds before the one that reports no more data *)
Fixpoint data_rounds (l : list round) : list round :=
  match l with
  | r :: l => if bool_decide (available r = Some 0) then [] else r :: data_rounds l
  | [] => []
  end.

(** [body] is the whole body of an answer with a status of success *)
Definition served (h : http) (body : list Z) : Prop :=
  (exists s, status_code h = Some s /\ 200 <= s < 300) /\
  Forall (fun r => is_Some (read r)) (data_rounds (rounds h)) /\ body = concat (omap read (data_rounds (rounds h))).

Lemma download_loop_all l body : download_loop l = (body, true) ->
  Forall (fun r => is_Some (read r)) (data_rounds l) /\ body = concat (omap read (data_rounds l)).
Proof.
  revert body. induction l as [|r l IH]; cbn; intros body E; [by simplify_eq|].
  destruct (available r) as [a|] eqn:Ea; [|done]. destruct (Z.eqb_spec a 0) as [->|Ha].
  - rewrite bool_decide_true by done. by simplify_eq.
  - rewrite bool_decide_false by congruence. destruct (read r) as [bytes|] eqn:Er; [|done].
    destruct (written r); [|done]. destruct (download_loop l) as [rest ok]. injection E as <- ->.
    destruct (IH rest eq_refl) as [? ->]. cbn. rewrite Er. split; [by constructor|done].
Qed.

Lemma download_served u net body e : downloadWithWinHttp u net = ((body, true), e) -> served (net (download_request u)) body.
Proof.
  unfold downloadWithWinHttp. set (h := net (download_request u)). destruct (session h); cbn; [|done].
  destruct (_ && match status_code h with Some _ => _ | None => _ end) eqn:Eok; cbn; [|done].
  apply andb_prop in Eok as [_ Es]. destruct (status_code h) as [s|] eqn:E; [|done].
  destruct (download_loop (rounds h)) as [b ok] eqn:El. intros [= -> -> _]. split; [exists s; split; [done|lia]|].
  by apply download_loop_all.
Qed.

(** the publisher of a package served [body] at its address, over HTTPS *)
Definition published (a : answers) (p : Package) (body : list Z) : Prop := served (answer a (download_request (QUrl (url p)))) body.

(** a package that is fetched without an error was served and is trusted *)
Lemma fetch_ok p a s s' : fetch p a s = (s', None) ->
  exists body, published a p body /\ files s' !! file' p = Some body /\ WinVerifyTrust body = true /\
    running s' = running s /\ pending s' = pending s /\ out s' = out s ++ [Downloading p (url p)].
Proof.
  unfold downloadAndVerify. intros E. destruct (mkpath a), (opens a); cbn in E; try done.
  destruct (downloadWithWinHttp _ (answer a)) as [[body ok] e] eqn:Ed. destruct ok; cbn in E; [|done].
  destruct (commits a); cbn in E; [|done]. unfold verifyPublisherSignature in E; cbn in E. rewrite lookup_insert_eq in E.
  destruct (WinVerifyTrust body) eqn:Et; [|done]. injection E as <-. exists body.
  split; [by eapply download_served|]. cbn. by rewrite lookup_insert_eq.
Qed.
Lemma fetch_failed p a s s' e : fetch p a s = (s', Some e) ->
  running s' = running s /\ pending s' = pending s /\ out s' = out s ++ [Downloading p (url p)].
Proof.
  unfold downloadAndVerify. intros E. destruct (mkpath a), (opens a); cbn in E; try (by simplify_eq).
  destruct (downloadWithWinHttp _ (answer a)) as [[body ok] e'] eqn:Ed. destruct ok; cbn in E; [|by simplify_eq].
  destruct (commits a); cbn in E; [|by simplify_eq]. unfold verifyPublisherSignature in E; cbn in E. rewrite lookup_insert_eq in E.
  destruct (WinVerifyTrust body); by simplify_eq.
Qed.

(** the outcomes of [installNext] *)
Inductive next_spec (a : answers) (s : installer) : installer -> Prop :=
| next_done s' : pending s = [] -> s' = emit (Completed MInstalled) s -> next_spec a s s'
| next_failed s' p rest l e : pending s = p :: rest -> pending s' = rest -> running s' = running s ->
    out s' = out s ++ Downloading p (url p) :: l ++ [Failed e] -> l ⊆ [Installing p] -> next_spec a s s'
| next_ignored s' p rest : pending s = p :: rest -> pending s' = rest -> running s = true -> running s' = true ->
    out s' = out s ++ [Downloading p (url p); Installing p] -> next_spec a s s'
| next_started s' p rest body : pending s = p :: rest -> pending s' = rest -> running s = false -> running s' = true ->
    published a p body -> files s' !! file' p = Some body -> WinVerifyTrust body = true ->
    out s' = out s ++ [Downloading p (url p); Installing p; Started (command' p).1 (command' p).2] -> next_spec a s s'.

Lemma next_cases a s : next_spec a s (next a s).
Proof.
  unfold installNext. destruct (pending s) as [|p rest] eqn:Ep; [by constructor|].
  destruct (fetch p a (s <| pending := rest |>)) as [s1 [e|]] eqn:Ef.
  - apply fetch_failed in Ef as (Hr & Hp & Ho). eapply next_failed with (l := []) (e := e); [done|done|done| |set_solver].
    cbn. rewrite Ho. by rewrite <- app_assoc.
  - apply fetch_ok in Ef as (body & Hs & Hf & Ht & Hr & Hp & Ho). cbn in *. unfold start. cbn. rewrite Hr.
    destruct (running s) eqn:Er; [|destruct (starts a)].
    + eapply next_ignored; [done|done|done|by cbn; rewrite Hr|]. cbn. rewrite Ho. by rewrite <- app_assoc.
    + eapply next_started; try done. cbn. rewrite Ho. by rewrite <- !app_assoc.
    + eapply next_failed with (l := [Installing p]) (e := MNotStarted); [done|done|by cbn; rewrite Hr| |set_solver].
      cbn. rewrite Ho. by rewrite <- !app_assoc.
Qed.

Lemma next_starts a s program args news : out (next a s) = out s ++ news -> In (Started program args) news ->
  exists p body, (program, args) = command' p /\ running s = false /\ head (pending s) = Some p /\ published a p body /\
    files (next a s) !! file' p = Some body /\ WinVerifyTrust body = true /\ In (Downloading p (url p)) news.
Proof.
  intros Eo Hin. destruct (next_cases a s) as [s' _ ->|s' p rest l e _ _ _ Ho Hl|s' p rest _ _ _ _ Ho|s' p rest body Hp _ Hr _ Hs Hf Ht Ho].
  - cbn in Eo. apply app_inv_head in Eo as <-. by destruct Hin as [|[]].
  - rewrite Ho in Eo. apply app_inv_head in Eo as <-. destruct Hin as [|Hin]; [done|]. apply in_app_or in Hin as [Hin|[|[]]]; [|done].
    apply list_elem_of_In, Hl, list_elem_of_In in Hin. by destruct Hin as [|[]].
  - rewrite Ho in Eo. apply app_inv_head in Eo as <-. by destruct Hin as [|[|[]]].
  - rewrite Ho in Eo. apply app_inv_head in Eo as <-. exists p, body. destruct Hin as [|[|[[= <- <-]|[]]]]; try done.
    rewrite Hp. split_and!; [by destruct p|done..|by left].
Qed.

Lemma handle_starts e s program args news : enabled e s = true -> out (handle' e s) = out s ++ news ->
  In (Started program args) news ->
  exists p body, (program, args) = command' p /\ published (event_answers e) p body /\
    files (handle' e s) !! file' p = Some body /\ WinVerifyTrust body = true /\
    match e with EInstall m _ => running s = false /\ winPcap (status Windows m) = false /\ In p (missing (status Windows m))
               | EFinished code normal _ => code = 0 /\ normal = true /\ In p (pending s) end.
Proof.
  destruct e as [m a|code normal a]; cbn; intros He Eo Hin.
  - unfold installMissing in *; cbn in *. change (status_windows m) with (status Windows m) in *.
    destruct (winPcap (status Windows m)) eqn:Ew.
    { cbn in Eo. apply app_inv_head in Eo as <-. by destruct Hin as [|[]]. }
    destruct (missing (status Windows m)) as [|q ps] eqn:Em.
    { cbn in Eo. apply app_inv_head in Eo as <-. by destruct Hin as [|[]]. }
    destruct (next_starts a (s <| pending := q :: ps |>) program args news) as (p & body & Hc & Hr & Hh & Hs & Hf & Ht & Hd); [done..|].
    cbn in Hh, Hr. injection Hh as ->. exists p, body. split_and!; [done..|by left].
  - unfold finished in *. destruct (negb normal || negb (code =? 0)) eqn:Ec.
    { cbn in Eo. apply app_inv_head in Eo as <-. by destruct Hin as [|[]]. }
    apply orb_false_elim in Ec as [En Ec]. apply negb_false_iff in En, Ec. apply Z.eqb_eq in Ec.
    destruct (next_starts a (s <| running := false |>) program args news) as (p & body & Hc & _ & Hh & Hs & Hf & Ht & Hd); [done..|].
    exists p, body. split_and!; try done. cbn in Hh. destruct (pending s); [done|]. injection Hh as ->. by left.
Qed.

(** what the machine does not have, in terms of what it answers *)
Definition lacks (m : machine) (p : Package) : Prop :=
  match p with
  | ZeroTier => ~ (OpenSCManagerW m = true /\ OpenServiceW m "ZeroTierOneService" = true)
  | Npcap => ~ (0 <> (GetSystemDirectoryW m).1 /\ (GetSystemDirectoryW m).1 < 260 /\
                exists_ m ((GetSystemDirectoryW m).2 +:+ "\Npcap\wpcap.dll") = true)
  end.
Definition has_winpcap (m : machine) : Prop :=
  lacks m Npcap /\ ((OpenSCManagerW m = true /\ OpenServiceW m "NPF" = true) \/
    exists v, RegOpenKeyExW m "SOFTWARE\Microsoft\Windows\CurrentVersion\Uninstall\WinPcapInst" v = true).

Lemma status_spec m : let d := status Windows m in
  (zeroTier d = false <-> lacks m ZeroTier) /\ (npcap d = false <-> lacks m Npcap) /\ (winPcap d = true <-> has_winpcap m).
Proof.
  cbv zeta. unfold status, status_windows. destruct (GetSystemDirectoryW m) as [n dir] eqn:Ed. cbn [zeroTier npcap winPcap].
  assert (S : forall x, serviceExists m x = true <-> OpenSCManagerW m = true /\ OpenServiceW m x = true).
  { intros x. unfold serviceExists. destruct (OpenSCManagerW m); cbn; intuition congruence. }
  assert (N : negb (n =? 0) && (n <? MAX_PATH) && exists_ m (dir +:+ npcap_dll) = false <-> lacks m Npcap).
  { unfold lacks. rewrite Ed. cbn [fst snd]. change "\Npcap\wpcap.dll" with npcap_dll. rewrite <- not_true_iff_false. apply not_iff_compat.
    rewrite !andb_true_iff, negb_true_iff, Z.eqb_neq, Z.ltb_lt. unfold MAX_PATH. intuition congruence. }
  split; [rewrite <- not_true_iff_false, S; reflexivity|]. split; [exact N|].
  unfold has_winpcap. rewrite <- N, andb_true_iff, negb_true_iff, orb_true_iff, S. unfold winPcapRegistryPresent, registryKeyExists.
  rewrite orb_true_iff. apply and_iff_compat_l, or_iff_compat_l. split; [intros [H|H]; by eexists|intros [[|] H]; auto].
Qed.
Lemma missing_lacks m p : In p (missing (status Windows m)) <-> lacks m p.
Proof.
  destruct (status_spec m) as (Hz & Hn & _). unfold missing. rewrite in_app_iff.
  destruct (zeroTier (status Windows m)), (npcap (status Windows m)), p; cbn; intuition (congruence || auto).
Qed.

(** ** A run of the installer *)

(** the ends of installers, one after the other: [None] when none runs *)
Fixpoint finishes (l : list (Z * bool * answers)) (s : installer) : option installer :=
  match l with
  | [] => Some s
  | (code, normal, a) :: l => if running s then finishes l (finished' code normal a s) else None
  end.

Definition started (l : list act) : list (string * list string) :=
  omap (fun x => match x with Started program args => Some (program, args) | _ => None end) l.
Lemma started_app a b : started (a ++ b) = started a ++ started b.
Proof. apply omap_app. Qed.

Lemma finishes_idle l s s' : running s = false -> finishes l s = Some s' -> l = [] /\ s' = s.
Proof. destruct l as [|[[code normal] a] l]; cbn; intros Hr E; [by simplify_eq|]. by rewrite Hr in E. Qed.

Lemma installs_all l : forall a s s', running s = false -> finishes l (next a s) = Some s' ->
  list.last (out s') = Some (Completed MInstalled) ->
  Forall (fun f => f.1 = (0, true)) l /\ length l = length (pending s) /\
  exists news, out s' = out s ++ news /\ started news = map command' (pending s).
Proof.
  induction l as [|[[code normal] b] l IH]; intros a s s' Hr E Hlast.
  - cbn in E. injection E as <-. destruct (next_cases a s) as [s' Hp ->|s' p rest m e _ _ _ Ho _|s' p rest _ _ ? _ _|s' p rest body _ _ _ _ _ _ _ Ho].
    + rewrite Hp. split_and!; [done..|]. by exists [Completed MInstalled].
    + rewrite Ho, app_comm_cons, app_assoc, last_snoc in Hlast. done.
    + congruence.
    + rewrite Ho, last_app in Hlast. done.
  - cbn in E. destruct (running (next a s)) eqn:Er; [|done].
    destruct (next_cases a s) as [s1 Hp ->|s1 p rest m e _ _ Hr1 _ _|s1 p rest _ _ ? _ _|s1 p rest body Hp Hp1 _ Hr1 _ _ _ Ho].
    + cbn in Er. congruence.
    + congruence.
    + congruence.
    + unfold finished in E. destruct (negb normal || negb (code =? 0)) eqn:Ec.
      { apply finishes_idle in E as [-> ->]; [|done]. cbn in Hlast. by rewrite last_snoc in Hlast. }
      apply orb_false_elim in Ec as [En Ec]. apply negb_false_iff in En, Ec. apply Z.eqb_eq in Ec as ->. subst normal.
      destruct (IH b (s1 <| running := false |>) s') as (Hl & Hn & news & Ho' & Hs); [done..|]. cbn in *. rewrite Hp1 in *.
      rewrite Hp. split_and!; [by constructor|cbn; congruence|].
      exists ([Downloading p (url p); Installing p; Started (command' p).1 (command' p).2] ++ news).
      rewrite Ho', Ho, <- app_assoc. split; [done|]. rewrite started_app, Hs. cbn. by destruct (command' p).
Qed.

(** the events of the installer one after the other: [None] when an installer
    ends that does not run *)
Fixpoint run (evs : list event) (s : installer) : option installer :=
  match evs with [] => Some s | e :: evs => if enabled e s then run evs (handle' e s) else None end.
Lemma run_app a b s : run (a ++ b) s = s' ← run a s; run b s'.
Proof. revert s. induction a as [|e a IH]; intros s; cbn; [done|]. by destruct (enabled e s). Qed.

(** the last request of the user that was accepted, on a machine without
    WinPcap, found [p] missing *)
Definition asked_for (evs : list event) (p : Package) : Prop :=
  exists l1 m a l2, evs = l1 ++ EInstall m a :: l2 /\ ~ has_winpcap m /\ lacks m p /\
    Forall (fun e => match e with EInstall m' _ => has_winpcap m' | EFinished _ _ _ => True end) l2.
Lemma asked_for_snoc evs p e : match e with EInstall m' _ => has_winpcap m' | EFinished _ _ _ => True end ->
  asked_for evs p -> asked_for (evs ++ [e]) p.
Proof.
  intros He (l1 & m & a & l2 & -> & Hw & Hl & Hf). exists l1, m, a, (l2 ++ [e]). rewrite <- app_assoc. split_and!; [done..|].
  apply Forall_app. split; [done|]. by constructor.
Qed.

Lemma next_pending a s p : In p (pending (next a s)) -> In p (pending s).
Proof.
  destruct (next_cases a s) as [s' _ ->|s' q rest l e Hp <- _ _ _|s' q rest Hp <- _ _ _|s' q rest body Hp <- _ _ _ _ _ _];
    [done|rewrite Hp; by right..].
Qed.
Lemma run_pending evs : forall s, run evs DependencyInstaller = Some s -> forall p, In p (pending s) -> asked_for evs p.
Proof.
  induction evs as [|e evs IH] using rev_ind; intros s; [by intros [= <-]|]. rewrite run_app.
  destruct (run evs DependencyInstaller) as [s1|] eqn:E; [|done]. cbn. destruct (enabled e s1); [|done]. intros [= <-] p Hin.
  destruct e as [m a|code normal a]; cbn in Hin.
  - unfold installMissing in Hin; cbn in Hin. change (status_windows m) with (status Windows m) in Hin.
    destruct (status_spec m) as (_ & _ & Hw). destruct (winPcap (status Windows m)) eqn:Ew.
    { apply asked_for_snoc; [by apply Hw|]. by eapply IH. }
    exists evs, m, a, []. split_and!; [done|by rewrite <- Hw| |done]. apply missing_lacks.
    destruct (missing (status Windows m)) as [|q ps]; [done|]. by apply next_pending in Hin.
  - apply asked_for_snoc; [done|]. eapply IH; [done|]. unfold finished in Hin. destruct (_ || _); [done|]. by apply next_pending in Hin.
Qed.

(** the request for the installer at the address of its publisher *)
Definition official_request (p : Package) : http_request :=
  let u := QUrl match p with
    | ZeroTier => "https://download.zerotier.com/dist/ZeroTier%20One.msi"
    | Npcap => "https://npcap.com/dist/npcap-1.88.exe"
    end in
  mkRequest (q_host u) 443 "GET" (q_path u +:+ (if String.eqb (q_query u) "" then "" else "?" +:+ q_query u)) true.

(** C38. Over any run of the installer, from its construction, a program is
    started only as the installer of a package the machine lacked when the user
    last asked, with WinPcap absent: at that step the publisher's address served
    a body over HTTPS with a status of success, the file started holds exactly
    that body, Windows accepts the signature of those bytes, and no other
    installer runs, the one before having ended normally with the code 0. *)
Theorem installer_verified evs e s program args news :
  run evs DependencyInstaller = Some s -> enabled e s = true -> out (handle' e s) = out s ++ news -> In (Started program args) news ->
  exists p body, (program, args) = command' p /\ asked_for (evs ++ [e]) p /\
    served (answer (event_answers e) (official_request p)) body /\
    files (handle' e s) !! file' p = Some body /\ WinVerifyTrust body = true /\
    match e with EInstall _ _ => running s = false | EFinished code normal _ => code = 0 /\ normal = true end.
Proof.
  intros R He Eo Hin. destruct (handle_starts e s program args news He Eo Hin) as (p & body & Hc & Hs & Hf & Ht & Hm).
  exists p, body. split; [done|]. split; [|split_and!; [by destruct p|done|done|by destruct e as [m a|code normal a]; destruct Hm as (? & ? & ?)]].
  destruct e as [m a|code normal a]; destruct Hm as (H1 & H2 & H3).
  - exists evs, m, a, []. destruct (status_spec m) as (_ & _ & Hw). split_and!; [done| |by apply missing_lacks|done]. rewrite <- Hw. congruence.
  - apply asked_for_snoc; [done|]. by eapply run_pending.
Qed.

(** When no installer runs and the user asks for what is missing, success is
    reported only after the installer of each missing package has been started,
    in order and once, and each has ended normally with the code 0; nothing
    else was started. *)
Theorem setup_complete m a l s s' : running s = false -> missing (status Windows m) <> [] ->
  finishes l (handle' (EInstall m a) s) = Some s' -> list.last (out s') = Some (Completed MInstalled) ->
  winPcap (status Windows m) = false /\ Forall (fun f => f.1 = (0, true)) l /\ length l = length (missing (status Windows m)) /\
  exists news, out s' = out s ++ news /\ started news = map command' (missing (status Windows m)).
Proof.
  intros Hr Hm E Hlast. cbn in E. unfold installMissing in E; cbn in E. change (status_windows m) with (status Windows m) in E.
  destruct (winPcap (status Windows m)).
  { apply finishes_idle in E as [_ ->]; [|done]. cbn in Hlast. by rewrite last_snoc in Hlast. }
  split; [done|]. destruct (missing (status Windows m)) as [|q ps] eqn:Em; [done|].
  pose proof (installs_all l a (s <| pending := q :: ps |>)) as X. cbn in X. by apply X.
Qed.

End Verified.

(** ** The capture library is loaded whole or not at all *)

Section Loaded.
Context (LoadLibraryExW : string -> option Z) (GetProcAddress : Z -> string -> option Z) (pcap_init : Z -> bool).

Lemma resolve_spec h names : forall l, let (l', missing) := resolve GetProcAddress h names l in
  module l' = module l /\ loaded l' = loaded l /\
  match missing with
  | Some name => In name names /\ GetProcAddress h name = None
  | None => (forall name, In name names -> exists f, GetProcAddress h name = Some f /\ pointers l' !! name = Some f) /\
            (forall name, ~ In name names -> pointers l' !! name = pointers l !! name)
  end.
Proof.
  induction names as [|n names IH]; cbn; intros l; [split_and!; naive_solver|].
  destruct (GetProcAddress h n) as [f|] eqn:E; [|by cbn; auto].
  pose proof (IH (l <| pointers ::= <[n := f]> |>)) as H. clear IH. destruct (resolve _ _ _ _) as [l' [name|]]; cbn in *.
  - destruct H as (? & ? & ? & ?). by auto.
  - destruct H as (Hm & Hl & Hin & Hout). split_and!; [done|done| |].
    + intros name [<-|]; [|by apply Hin]. destruct (in_dec String.string_dec n names); [by apply Hin|].
      exists f. rewrite Hout by done. by rewrite lookup_insert_eq.
    + intros name Hn. rewrite Hout by naive_solver. rewrite lookup_insert_ne; [done|naive_solver].
Qed.

(** [GetSystemDirectoryW] reports the length of its text when the text fits *)
Definition reported (d : Z * string) : Prop := 0 < d.1 < MAX_PATH -> d.1 = strlen d.2.

(** Loading the capture library writes within its path buffer and calls no
    null pointer. It succeeds only with the library of the system directory
    loaded and each of the twenty-six functions pointing into it; on a failure
    nothing stays loaded, so that a later call starts over. *)
Theorem npcap_loaded directory l : reported directory -> 0 <= directory.1 -> module l = None -> loaded l = [] ->
  exists l' r, zll_npcap_load directory LoadLibraryExW GetProcAddress pcap_init l = Ok (l', r) /\
  match r with
  | LoadOk => exists h, LoadLibraryExW (directory.2 +:+ npcap_dll) = Some h /\ module l' = Some h /\ loaded l' = [h] /\
      forall name, In name npcap_symbols -> exists f, GetProcAddress h name = Some f /\ pointers l' !! name = Some f
  | _ => module l' = None /\ loaded l' = []
  end.
Proof.
  intros Hd Hn Hm Hl. unfold zll_npcap_load. rewrite Hm. destruct directory as [n path]. unfold reported, MAX_PATH in *; cbn [fst snd] in *.
  destruct (Z.eqb_spec n 0); cbn [orb]; [by exists l, NoSystemDirectory|].
  destruct (Z.leb_spec 260 (n + 17)); [by exists l, NoSystemDirectory|].
  assert (strlen npcap_dll = 16) as -> by done. rewrite <- Hd by lia. destruct (Z.ltb_spec 260 (n + 16 + 1)); [lia|].
  destruct (LoadLibraryExW (path +:+ npcap_dll)) as [h|]; [|by exists l, NotLoaded].
  pose proof (resolve_spec h npcap_symbols (l <| loaded ::= cons h |>)) as Hr.
  destruct (resolve _ _ _ _) as [l1 [name|]]; cbn [module loaded] in Hr; destruct Hr as (Hm1 & Hl1 & Hr).
  { do 2 eexists; split; [reflexivity|]. cbn in *. rewrite Hm1, Hl1, Hl. cbn. by rewrite Z.eqb_refl. }
  destruct Hr as [Hin _]. destruct (Hin "pcap_init"%string) as (f & _ & ->); [vm_compute; tauto|].
  destruct (pcap_init f).
  - do 2 eexists; split; [reflexivity|]. exists h. cbn in *. rewrite Hl1, Hl. by split_and!.
  - do 2 eexists; split; [reflexivity|]. cbn in *. rewrite Hm1, Hl1, Hl. cbn. by rewrite Z.eqb_refl.
Qed.

(** a library that is loaded stays as it is *)
Lemma npcap_kept directory l h : module l = Some h ->
  zll_npcap_load directory LoadLibraryExW GetProcAddress pcap_init l = Ok (l, LoadOk).
Proof. intros Hm. unfold zll_npcap_load. by rewrite Hm. Qed.

End Loaded.

(** ** The firewall rule *)

Section Firewall.
(** the names of the rules, and what a [netsh] command makes of them: [delete]
    removes every rule of the name, [add] adds one *)
Context (netsh : string -> list string -> list string).
Hypothesis netsh_delete : forall rules,
  netsh ("netsh advfirewall firewall " +:+ delete_args) rules = List.filter (fun n => negb (String.eqb n FW_RULE_NAME)) rules.
Hypothesis netsh_add : forall rules, netsh ("netsh advfirewall firewall " +:+ add_args) rules = rules ++ [FW_RULE_NAME].

(** Whatever rules a crash left behind, there is exactly one rule of the name
    while the server runs and none after it, and the other rules are kept. *)
Theorem firewall_rule enable rules :
  let rules' := fold_left (fun r c => netsh c r) (winfw_set_hotspot_dhcp_block enable) rules in
  count_occ String.string_dec rules' FW_RULE_NAME = (if enable then 1 else 0)%nat /\
  List.filter (fun n => negb (String.eqb n FW_RULE_NAME)) rules' = List.filter (fun n => negb (String.eqb n FW_RULE_NAME)) rules.
Proof.
  assert (Hnone : forall l, count_occ String.string_dec (List.filter (fun n => negb (String.eqb n FW_RULE_NAME)) l) FW_RULE_NAME = 0%nat).
  { intros l. apply count_occ_not_In. intros [_ H]%filter_In. by rewrite String.eqb_refl in H. }
  assert (Hidem : forall l, List.filter (fun n => negb (String.eqb n FW_RULE_NAME)) (List.filter (fun n => negb (String.eqb n FW_RULE_NAME)) l)
    = List.filter (fun n => negb (String.eqb n FW_RULE_NAME)) l).
  { induction l as [|n l IH]; cbn; [done|]. destruct (negb (String.eqb n FW_RULE_NAME)) eqn:E; cbn; [rewrite E|]; by rewrite IH. }
  assert (Ed : run_netsh delete_args = "netsh advfirewall firewall " +:+ delete_args) by reflexivity.
  assert (Ea : run_netsh add_args = "netsh advfirewall firewall " +:+ add_args) by reflexivity.
  unfold winfw_set_hotspot_dhcp_block. destruct enable; cbn [fold_left].
  - rewrite Ed, Ea, netsh_add, netsh_delete. split.
    + rewrite count_occ_app, Hnone. reflexivity.
    + rewrite List.filter_app, Hidem. cbn. apply app_nil_r.
  - rewrite Ed, netsh_delete. by rewrite Hnone, Hidem.
Qed.
End Firewall.

(** ** Samples *)

Definition bare_machine : machine := mkMachine true (fun _ => false) (fun _ _ => false) (19, "C:\Windows\system32"%string) (fun _ => false) []
  (fun _ => []) (fun _ => ""%string).
Definition zerotier_machine : machine :=
  mkMachine true (String.eqb "ZeroTierOneService") (fun _ _ => false) (19, "C:\Windows\system32"%string) (fun _ => false) [] (fun _ => []) (fun _ => ""%string).
(** the parts of the two addresses, and a network that serves one of them *)
Definition sample_url (u : string) : qurl :=
  if String.eqb u "https://npcap.com/dist/npcap-1.88.exe" then mkQUrl "npcap.com" "/dist/npcap-1.88.exe" ""
  else mkQUrl "download.zerotier.com" "/dist/ZeroTier%20One.msi" "".
Definition good_network (r : http_request) : http :=
  if rq_secure r && (String.eqb (rq_host r) "download.zerotier.com" || String.eqb (rq_host r) "npcap.com")
  then mkHttp true true true true true (Some 200) [mkRound (Some 2) (Some [77; 90]) true; mkRound (Some 0) None true]
  else mkHttp true false false false false None [].
Definition good_answers : answers := mkAnswers true true good_network true true.
Definition sample_handle : event -> installer -> installer := handle sample_url (fun b => bool_decide (b = [77; 90])) "C:/data" id.

Lemma installer_verified_witness : exists p body,
  ("msiexec.exe", ["/i"; "C:/data/installers/ZeroTier-One.msi"; "/passive"; "/norestart"])%string = command "C:/data" id p /\
  asked_for [EInstall bare_machine good_answers] p /\ body = [77; 90].
Proof.
  destruct (installer_verified sample_url (fun b => bool_decide (b = [77; 90])) "C:/data" id [] (EInstall bare_machine good_answers) DependencyInstaller
    "msiexec.exe" ["/i"; "C:/data/installers/ZeroTier-One.msi"; "/passive"; "/norestart"]%string
    (out (sample_handle (EInstall bare_machine good_answers) DependencyInstaller)))
    as (p & body & Hc & Ha & _ & _ & Ht & _); [reflexivity|reflexivity|reflexivity|vm_compute; tauto|].
  exists p, body. split; [exact Hc|]. split; [exact Ha|]. by apply bool_decide_eq_true in Ht.
Defined.

Definition sample_ends : list (Z * bool * answers) := [(0, true, good_answers); (0, true, good_answers)].
Definition sample_finishes : installer -> option installer := finishes sample_url (fun b => bool_decide (b = [77; 90])) "C:/data" id sample_ends.
Definition sample_complete : installer :=
  default DependencyInstaller (sample_finishes (sample_handle (EInstall bare_machine good_answers) DependencyInstaller)).

Lemma setup_complete_witness : started (out sample_complete) =
  [("msiexec.exe", ["/i"; "C:/data/installers/ZeroTier-One.msi"; "/passive"; "/norestart"]); ("C:/data/installers/npcap-1.88.exe", [])]%string.
Proof.
  destruct (setup_complete sample_url (fun b => bool_decide (b = [77; 90])) "C:/data" id bare_machine good_answers sample_ends DependencyInstaller sample_complete)
    as (_ & _ & _ & news & Ho & Hs); [reflexivity|discriminate|vm_compute; reflexivity|vm_compute; reflexivity|].
  rewrite Ho. exact Hs.
Defined.

Lemma npcap_loaded_witness : exists l', zll_npcap_load (19, "C:\Windows\system32"%string) (fun _ => Some 1) (fun _ _ => Some 7) (fun _ => true)
  (mkLoader None ∅ []) = Ok (l', LoadOk) /\ loaded l' = [1].
Proof.
  destruct (npcap_loaded (fun _ => Some 1) (fun _ _ => Some 7) (fun _ => true) (19, "C:\Windows\system32"%string) (mkLoader None ∅ []))
    as (l' & r & E & Hr); [done|done|reflexivity|reflexivity|].
  exists l'. assert (r = LoadOk) as -> by (vm_compute in E; by injection E as _ <-). split; [exact E|].
  destruct Hr as (h & Hh & _ & Hl & _). by injection Hh as <-.
Defined.

(** A second request while the first installer runs fetches the next package
    and takes it from the list, but its installer is not started: once the
    first one ends, the setup is reported as complete without it. *)
Theorem second_request_lost :
  let s := sample_handle (EInstall bare_machine good_answers) DependencyInstaller in
  let s := sample_handle (EInstall zerotier_machine good_answers) s in
  let s := sample_handle (EFinished 0 true good_answers) s in
  list.last (out s) = Some (Completed MInstalled) /\ npcap (status Windows zerotier_machine) = false /\
  started (out s) = [("msiexec.exe", ["/i"; "C:/data/installers/ZeroTier-One.msi"; "/passive"; "/norestart"])]%string.
Proof. vm_compute. auto. Qed.
