(* ===== verification/Window.v ===== *)
(** * Window: the window of the desktop application

    [desktop/window.cpp].  A [window] holds what the class holds, what the
    widgets contain and what they show; texts that are fixed are constructors.
    The relay is the controller of [Controller]: its signals are the acts that a
    handler adds to [out], and the window answers them one by one, in order, as
    Qt does for a direct connection.  An edit of a widget, a click, a signal and
    a request to close are the events. *)

From Stdlib Require Import Ascii.
From stdpp Require Import gmap strings pretty.
From S2P Require Import Prelude Bytes Sample Dhcp Options Address Startup Quoting Setup Desktop Controller.

#[local] Open Scope Z_scope.

(** ** Widgets *)

(** a combo box: label and data of each item, and the current index *)
Record combo := mkCombo { items : list (string * string); currentIndex : nat }.
Definition no_combo : combo := mkCombo [] 0.
(** [combo->currentData().toString()] *)
Definition currentData (c : combo) : string := match items c !! currentIndex c with Some (_, d) => d | None => "" end.

(** [findData]: the first item with the data *)
Fixpoint findData (l : list (string * string)) (d : string) : option nat :=
  match l with
  | [] => None
  | (_, e) :: l => if String.eqb e d then Some O else S <$> findData l d
  end.

Definition adapter_label (a : Adapter) : string :=
  (if nonempty (label a) then label a else name a) +:+ " — " +:+ ip a +:+ (if up a then "" else " (offline)").

(** the box filled anew, with [chosen] as its current item *)
Definition fill (adapters : list Adapter) (chosen : string) : combo :=
  let l := ("Choose an adapter"%string, ""%string) :: map (fun a => (adapter_label a, name a)) adapters in
  match findData l chosen with
  | Some i => mkCombo l i
  | None =>
      if nonempty chosen then mkCombo (l ++ [((chosen +:+ " (unavailable)")%string, chosen)]) (length l) else mkCombo l 0
  end.

(** [QString::trimmed], on a text of one code per character *)
Definition text_of (l : list Z) : string := String.string_of_list_ascii (map (fun c => ascii_of_nat (Z.to_nat c)) l).
Definition trim (s : string) : string := text_of (trimmed (codes s)).

Inductive status_text := Ready | FinishSetup | FromRelay (m : Controller.message) | StoppingToClose.
Inductive switch_text :=
| StartToLook | Looking | Detected (t : list Z) | Connected (ip mac : list Z) | Offering (ip : list Z) | OtherServer (ip : list Z).
Inductive hotspot_text := HotspotOff | HotspotOn (ip : string) | BestWithHotspot | HotspotDetected (ip : string).

(** what [updateState] shows; [hotspotStatus] is [None] when it is hidden *)
Record display := mkDisplay {
  address : string; d_mask : string; gatewayValue : string; validation : option problem; switchSettings : bool; dhcpHint : bool;
  hotspotStatus : option hotspot_text; hotspotSetup : bool; d_status : status_text; startEnabled : bool; stopEnabled : bool;
  stopIsCancel : bool; configuration : bool
}.
#[global] Instance eta_display : Eta display := fun r =>
  mkDisplay (address r) (d_mask r) (gatewayValue r) (validation r) (switchSettings r) (dhcpHint r) (hotspotStatus r) (hotspotSetup r)
    (d_status r) (startEnabled r) (stopEnabled r) (stopIsCancel r) (configuration r).

Record window := mkWindow {
  preferences : Preferences;
  adapters : list Adapter;
  relay : controller;
  store : settings;
  local_box : combo;
  overlay_box : combo;
  gateway_edit : string;
  executable_edit : string;
  diagnostics_box : bool;
  capture_box : bool;
  discovery_box : bool;
  autoMode : bool;
  loading : bool;
  closing : bool;
  previewMode : bool;
  shown : display;
  switchStatus : switch_text;
  logged : list (list Z);
  closed : bool
}.
#[global] Instance eta_window : Eta window := fun r =>
  mkWindow (preferences r) (adapters r) (relay r) (store r) (local_box r) (overlay_box r) (gateway_edit r) (executable_edit r)
    (diagnostics_box r) (capture_box r) (discovery_box r) (autoMode r) (loading r) (closing r) (previewMode r) (shown r)
    (switchStatus r) (logged r) (closed r).

Section Window.
(** the host: its system, Qt's reading and writing of addresses and texts, the
    GUID behind a name, the files that can be run, and the relay beside the
    application *)
Context (o : os) (toIPv4Address : string -> option Z) (hostString : Z -> string) (fromUtf8 toUtf8 : list Z -> list Z)
  (encode : string -> list Z) (resolveGuid : string -> string) (isExecutable : string -> bool) (bundled : string).

#[local] Abbreviation validate' := (validate toIPv4Address hostString o resolveGuid isExecutable).

(** ** State shown *)

Definition or_dash (s : string) : string := if nonempty s then s else "—".

Definition hotspotIp (l : list Adapter) : string :=
  match List.find (fun a => hotspot a && up a) l with Some a => ip a | None => "" end.

(** [updateState], while the relay is in the state [s] *)
Definition updateState (s : State) (w : window) : window :=
  let p := preferences w in
  let a := overlay p (adapters w) in
  let error := validate' p (adapters w) in
  let busy := negb (bool_decide (s = Idle)) in
  let hot := hotspotIp (adapters w) in
  w <| shown := mkDisplay (or_dash (ip a)) (or_dash (mask a)) (if nonempty (p_gateway p) then p_gateway p else or_dash (gateway a))
    error (negb (dhcp p)) (dhcp p)
    (if dhcp p then Some
       (if is_windows o then if nonempty hot then HotspotOn hot else HotspotOff
        else if nonempty hot then HotspotDetected hot else BestWithHotspot) else None)
    (is_windows o && dhcp p && negb (nonempty hot))
    (if busy then d_status (shown w) else match error with None => Ready | Some _ => FinishSetup end)
    (negb busy && match error with None => true | Some _ => false end)
    (busy && negb (bool_decide (s = Stopping))) (bool_decide (s = Authorizing)) (negb busy) |>.

(** ** Preferences *)

(** the preferences the widgets hold *)
Definition widget_preferences (w : window) : Preferences :=
  let path := trim (executable_edit w) in
  mkPreferences (currentData (local_box w)) (currentData (overlay_box w)) (trim (gateway_edit w))
    (if nonempty path then path else bundled) (diagnostics_box w) (capture_box w) (discovery_box w) (autoMode w).

(** the path of the bundled relay is not kept in the store *)
Definition stored (p : Preferences) : Preferences := if String.eqb (relayPath p) bundled then p <| relayPath := ""%string |> else p.

Definition save (w : window) : window :=
  if loading w || busy (relay w) then w else
  let p := widget_preferences w in
  let w := w <| preferences := p |> in
  let w := if previewMode w then w else w <| store ::= Desktop.save (stored p) |> in
  updateState (current (relay w)) w.

(** the adapters a choice falls on while there is none *)
Definition choose_default (p : Preferences) (a : Adapter) : Preferences :=
  let p := if negb (nonempty (localInterface p)) && up a && negb (is_overlay a) && (is_wifi a || String.eqb (name a) "en0")
    then p <| localInterface := name a |> else p in
  if negb (nonempty (overlayInterface p)) && up a && is_overlay a then p <| overlayInterface := name a |> else p.

(** in automatic mode the hotspot's adapter is preferred *)
Definition choose_hotspot (l : list Adapter) (p : Preferences) : Preferences :=
  if dhcp p && negb (existsb (fun a => String.eqb (name a) (localInterface p) && hotspot a && up a) l) then
    match List.find (fun a => hotspot a && up a && negb (is_overlay a)) l with
    | Some a => p <| localInterface := name a |>
    | None => p
    end
  else p.

(** [targetIPs] are the addresses of the ZeroTier network, [ifs] the interfaces
    of the host *)
Definition refreshAdapters (targetIPs : list string) (ifs : list interface) (w : window) : window :=
  if busy (relay w) then w else
  let w := w <| loading := true |> in
  let (l, p) := Desktop.refreshAdapters toIPv4Address hostString targetIPs ifs (preferences w) in
  let p := choose_hotspot l (fold_left choose_default l p) in
  let w := w <| adapters := l |> <| preferences := p |> in
  let w := w <| local_box := fill l (localInterface p) |> <| overlay_box := fill l (overlayInterface p) |> in
  save (w <| loading := false |>).

(** ** Signals of the relay *)

(** [line.mid(at).split(' ', Qt::SkipEmptyParts)] *)
Fixpoint split_spaces (l : list Z) (word : list Z) : list (list Z) :=
  match l with
  | [] => match word with [] => [] | _ => [rev word] end
  | c :: l =>
      if c =? 32 then match word with [] => split_spaces l [] | _ => rev word :: split_spaces l [] end
      else split_spaces l (c :: word)
  end.

Definition dhcp_mark : list Z := codes "GRID0_DHCP ".

Definition dhcp_line (line : list Z) (w : window) : window :=
  match after_first dhcp_mark line with
  | None => w
  | Some rest =>
      match split_spaces (dhcp_mark ++ rest) [] with
      | _ :: kind :: ip :: mac :: _ =>
          if bool_decide (kind = codes "assigned") then w <| switchStatus := Connected ip mac |> else
          if bool_decide (kind = codes "offered") then w <| switchStatus := Offering ip |> else
          if bool_decide (kind = codes "lost") then w <| switchStatus := OtherServer ip |> else w
      | _ => w
      end
  end.

(** one signal; [close] is called only when the relay is idle, and is then
    accepted *)
Definition signal (w : window) (a : Controller.act) : window :=
  match a with
  | LineReceived line => dhcp_line line (w <| logged ::= (fun l => l ++ [line]) |>)
  | Message m => w <| shown ::= (fun d => d <| d_status := FromRelay m |>) |>
  | SwitchDetected t => w <| switchStatus := Detected t |>
  | StateChanged s =>
      let w := updateState s w in
      if closing w && bool_decide (s = Idle) then w <| closed := true |> else w
  | _ => w
  end.

(** the signals a handler of the relay emits *)
Definition relayed (c : controller) (w : window) : window :=
  fold_left signal (skipn (length (out (relay w))) (out c)) (w <| relay := c |>).

(** ** Handlers *)

(** [host'] is the rest of what the host answers while the relay is started *)
Definition startClicked (targetIPs : list string) (ifs : list interface) (h : host) (w : window) : window :=
  if previewMode w then w else
  let w := refreshAdapters targetIPs ifs w in
  match validate' (preferences w) (adapters w) with
  | Some _ => w
  | None =>
      let w := w <| logged := [] |> <| switchStatus := Looking |> in
      relayed (start fromUtf8 o toIPv4Address hostString encode h (preferences w) (adapters w) (relay w)) w
  end.

Definition stopClicked (w : window) : window := relayed (stop o (relay w)) w.

Definition closeEvent (w : window) : window :=
  if busy (relay w) then
    let w := w <| closing := true |> <| shown ::= (fun d => d <| d_status := StoppingToClose |>) |> in
    relayed (stop o (relay w)) w
  else w <| closed := true |>.

(** one tick of the timer that waits for the hotspot: whether it goes on *)
Definition hotspotTick (targetIPs : list string) (ifs : list interface) (tries : Z) (w : window) : window * option Z :=
  let w := refreshAdapters targetIPs ifs w in
  if existsb (fun a => hotspot a && up a) (adapters w) || (10 <=? tries + 1) then (w, None) else (w, Some (tries + 1)).

(** ** Construction *)

Definition Window (preview : bool) (s : settings) (loadIPs targetIPs : list string) (loadIfs ifs : list interface) : window :=
  let p := if preview then no_preferences else load toIPv4Address hostString s loadIPs loadIfs in
  let p := if nonempty (relayPath p) then p else p <| relayPath := bundled |> in
  let w := mkWindow p [] RelayController s no_combo no_combo (p_gateway p) (if String.eqb (relayPath p) bundled then "" else relayPath p)
    (diagnostics p) (capture p) (discover p) (dhcp p) true false preview
    (mkDisplay "—" "—" "—" None true true (Some HotspotOff) true Ready true true false true) StartToLook [] false in
  refreshAdapters targetIPs ifs (w <| loading := false |>).

(** ** Events *)

Inductive edit :=
| SetLocal (i : nat) | SetOverlay (i : nat) | SetGateway (s : string) | SetExecutable (s : string)
| SetDiagnostics (b : bool) | SetCapture (b : bool) | SetDiscovery (b : bool) | SetAutomatic (b : bool).

(** a change of a widget, and the slot it calls *)
Definition edited (e : edit) (w : window) : window :=
  save match e with
  | SetLocal i => w <| local_box ::= (fun c => mkCombo (items c) i) |>
  | SetOverlay i => w <| overlay_box ::= (fun c => mkCombo (items c) i) |>
  | SetGateway s => w <| gateway_edit := s |>
  | SetExecutable s => w <| executable_edit := s |>
  | SetDiagnostics b => w <| diagnostics_box := b |>
  | SetCapture b => w <| capture_box := b |>
  | SetDiscovery b => w <| discovery_box := b |>
  | SetAutomatic b => w <| autoMode := b |>
  end.

Inductive wevent :=
| WEdit (e : edit)
| WRefresh (targetIPs : list string) (ifs : list interface)
| WStart (targetIPs : list string) (ifs : list interface) (h : host)
| WStop
| WRelay (e : Controller.event)
| WClose.

(** what the widgets and Qt allow: an edit needs an enabled widget, a click an
    enabled button, and the relay's own start and stop come from the window *)
Definition allowed (e : wevent) (w : window) : bool :=
  negb (closed w) &&
  match e with
  | WEdit _ | WRefresh _ _ => configuration (shown w)
  | WStart _ _ _ => startEnabled (shown w)
  | WStop => stopEnabled (shown w)
  | WRelay (EStart _ _ _) | WRelay EStop => false
  | WRelay e => Controller.enabled o e (relay w)
  | WClose => true
  end.

Definition whandle (e : wevent) (w : window) : window :=
  match e with
  | WEdit e => edited e w
  | WRefresh ips ifs => refreshAdapters ips ifs w
  | WStart ips ifs h => startClicked ips ifs h w
  | WStop => stopClicked w
  | WRelay e => relayed (Controller.handle fromUtf8 o toUtf8 toIPv4Address hostString encode e (relay w)) w
  | WClose => closeEvent w
  end.

Inductive wstep (w : window) : window -> Prop :=
| wstep_event e : allowed e w = true -> wstep w (whandle e w).

End Window.

(** ** Reports *)

Inductive export_result := ExportBusy | NoReport | ExportCancelled | CannotExport | Incomplete (file : string) | Exported (dest : string).

(** [parent] is the folder chosen, empty when none is; [exists_] and [mkdir] are
    asked about the destination, [entries] are the files of the report and
    [copies] tells whether one is copied *)
Definition exportReport (c : controller) (source parent sourceName : string) (exists_ mkdir : string -> bool) (entries : list string)
    (copies : string -> string -> bool) : export_result :=
  if busy c then ExportBusy else
  if negb (nonempty source) then NoReport else
  if negb (nonempty parent) then ExportCancelled else
  let dest := parent +:+ "/Grid0-Relay-report-" +:+ sourceName in
  if exists_ dest || negb (mkdir dest) then CannotExport else
  match List.find (fun name => negb (copies (source +:+ "/" +:+ name) (dest +:+ "/" +:+ name))) entries with
  | Some name => Incomplete name
  | None => Exported dest
  end.

(** ** Required software *)

(** the text and the button of the settings page *)
Inductive requirements_text :=
| RWinPcap | RReady | RMissing (names : list string) | RMacReady | RMacZeroTier | RLinuxReady | RLinuxZeroTier (pcap : bool) | RLinuxPcap.
Definition missing_names (d : DependencyStatus) : list string :=
  (if zeroTier d then [] else ["ZeroTier One"]) ++ (if npcap d then [] else ["Npcap"])%string.

Definition checkDependencies (o : os) (d : DependencyStatus) : requirements_text * bool :=
  match o with
  | Windows =>
      if winPcap d then (RWinPcap, true) else
      match missing_names d with [] => (RReady, false) | l => (RMissing l, true) end
  | MacOS => if zeroTier d then (RMacReady, false) else (RMacZeroTier, true)
  | Linux =>
      if zeroTier d && npcap d then (RLinuxReady, false) else
      if negb (zeroTier d) then (RLinuxZeroTier (npcap d), true) else (RLinuxPcap, false)
  end.

Inductive setup_action := NoAction | OpenAppsFeatures | InstallMissing | OpenDownloadPage.

(** the dialog at the start of the application: [None] when there is none, and
    otherwise what its first button does *)
Definition promptForDependencies (preview : bool) (o : os) (d : DependencyStatus) : option setup_action :=
  if preview then None else
  match o with
  | Windows =>
      if winPcap d then Some OpenAppsFeatures else if zeroTier d && npcap d then None else Some InstallMissing
  | MacOS => if zeroTier d then None else Some OpenDownloadPage
  | Linux => if zeroTier d && npcap d then None else if zeroTier d then Some NoAction else Some OpenDownloadPage
  end.

(** what a click on the button does once the question is answered with yes *)
Definition setupDependencies (o : os) (d : DependencyStatus) : setup_action :=
  match o with
  | Windows => if winPcap d then OpenAppsFeatures else if zeroTier d && npcap d then NoAction else InstallMissing
  | _ => if zeroTier d then NoAction else OpenDownloadPage
  end.

(** ** Events of the DHCP server *)

(** [LLog_log] and [dhcp_event] of the relay, as the line that is read *)
Inductive log_level := ERROR | WARNING | NOTICE | INFO | DEBUG.
Definition llog_level_name (l : log_level) : string :=
  match l with ERROR => "ERROR" | WARNING => "WARNING" | NOTICE => "NOTICE" | INFO => "INFO" | DEBUG => "DEBUG" end.
Definition LLog_log (l : log_level) (text : string) : string := "[" +:+ llog_level_name l +:+ "]: " +:+ text.

Definition kind_name (k : World.dhcp_event_kind) : string :=
  match k with World.DhcpOffered => "offered" | World.DhcpAssigned => "assigned" | World.DhcpLost => "lost" end.
Definition dhcp_event (k : World.dhcp_event_kind) (mac ip : list Z) : string :=
  LLog_log INFO ("GRID0_DHCP " +:+ kind_name k +:+ " " +:+ dotted ip +:+ " " +:+ hex_mac mac).

(** ** The state of the relay as its signals tell it *)

Definition last_state (s : State) (l : list Controller.act) : State :=
  fold_left (fun s a => match a with StateChanged s' => s' | _ => s end) l s.

(** what a handler emits ends with the state it leaves; a [quiet] one does not
    report the end of the relay *)
Definition tracks (quiet : bool) (c c' : controller) : Prop := exists new, out c' = out c ++ new /\ current c' = last_state (current c) new /\
  (quiet = true -> ~ In (StateChanged Idle) new).
#[export] Instance tracks_preorder q : PreOrder (tracks q).
Proof.
  split.
  - intros c. exists []. rewrite app_nil_r. by split_and!; [..|intros _ []].
  - intros a b c (n1 & O1 & S1 & Q1) (n2 & O2 & S2 & Q2). exists (n1 ++ n2). rewrite O2, O1, app_assoc. split_and!; [done|..].
    + unfold last_state in *. by rewrite fold_left_app, <- S1.
    + intros Hq [?|?]%in_app_or; [by apply Q1|by apply Q2].
Qed.
Lemma tracks_same q c d d' : out d' = out d -> current d' = current d -> tracks q c d -> tracks q c d'.
Proof. intros Ho Hc (n & ? & ? & ?). exists n. by rewrite Ho, Hc. Qed.
Lemma tracks_emit q a c d : (forall s, a <> StateChanged s) -> tracks q c d -> tracks q c (Controller.emit a d).
Proof.
  intros Ha H. etrans; [done|]. exists [a]. split_and!; [done| |intros _ [E|[]]; by destruct (Ha Idle)].
  cbn. destruct a; try done. by destruct (Ha s).
Qed.
Lemma tracks_set q s c d : (q = true -> s <> Idle) -> tracks q c d -> tracks q c (setState s d).
Proof. intros Hq H. etrans; [done|]. exists [StateChanged s]. split_and!; [done..|]. intros E [[= ?]|[]]. by apply Hq. Qed.
Lemma last_state_in s l : last_state s l <> s -> In (StateChanged (last_state s l)) l.
Proof.
  unfold last_state. revert s. induction l as [|a l IH]; cbn; intros s H; [done|].
  destruct a as [s'| | | | | | | | | |]; try (right; by apply IH).
  destruct (decide (last_state s' l = s')) as [E|E]; [left; by rewrite <- E at 1|right; by apply IH].
Qed.

(** from the outermost operation inwards *)
Ltac track_step :=
  match goal with
  | |- tracks _ ?c ?d => is_var d; first [constr_eq c d; reflexivity | match goal with H : tracks _ _ ?e |- _ => constr_eq e d; exact H end]
  | |- tracks ?q ?c (let x := ?d in @?b x) =>
      lazymatch type of d with
      | controller =>
          let H := fresh "T" in let y := fresh "y" in
          assert (H : tracks q c d); [|generalize dependent d; intros y H; change (tracks q c (b y)); cbv beta]
      | _ => change (tracks q c (b d)); cbv beta
      end
  | |- tracks _ _ (Controller.emit _ _) => apply tracks_emit; [by intros|]
  | |- tracks _ _ (setState _ _) => apply tracks_set; [by intros|]
  | |- tracks _ _ (set _ _ ?d) => apply (tracks_same _ _ d); [generalize d; reflexivity|generalize d; reflexivity|]
  | |- tracks _ _ (if ?b then _ else _) => destruct b eqn:?
  | |- tracks _ _ (match ?x with _ => _ end) => destruct x eqn:?
  end.
Ltac track := repeat track_step; try done.

Section Tracks.
Context (o : os) (toIPv4Address : string -> option Z) (hostString : Z -> string) (fromUtf8 toUtf8 : list Z -> list Z)
  (encode : string -> list Z).

Lemma receive_line_tracks q raw c : tracks q c (receive_line fromUtf8 raw c).
Proof. unfold receive_line. track. Qed.
Lemma receive_tracks q bytes c d : tracks q c d -> tracks q c (receive fromUtf8 bytes d).
Proof.
  intros H. unfold receive. assert (Hl : tracks q c (write_log bytes d)) by (unfold write_log; track).
  cbv zeta. destruct (split_lines _) as [lines rest]. track_step.
  generalize dependent (write_log bytes d). clear. induction lines as [|l lines IH]; cbn; intros d H; [done|].
  apply IH. etrans; [exact H|apply receive_line_tracks].
Qed.
Lemma stop_tracks q c d : tracks q c d -> tracks q c (stop o d).
Proof. intros H. unfold stop. track. Qed.
Lemma finish_tracks code crashed rest stderr c d : tracks false c d -> tracks false c (finish fromUtf8 o toUtf8 code crashed rest stderr d).
Proof.
  intros H. cbv beta delta [finish]. repeat first [track_step | apply receive_tracks]; try done.
Qed.
Lemma start_windows_tracks q h p l c d : tracks q c d -> tracks q c (start_windows fromUtf8 o encode h p l d).
Proof. intros H. cbv beta delta [start_windows]. repeat first [track_step | apply receive_tracks]; done. Qed.
Lemma start_posix_tracks q h p l helper relay c d : tracks q c d -> tracks q c (start_posix o h p l helper relay d).
Proof. intros H. cbv beta delta [start_posix]. track. Qed.
Lemma start_tracks q h p l c : tracks q c (start fromUtf8 o toIPv4Address hostString encode h p l c).
Proof.
  cbv beta delta [start]. repeat first [apply start_windows_tracks | apply start_posix_tracks | track_step]; try done.
Qed.
Lemma handle_tracks e c : tracks (negb (ends e)) c (Controller.handle fromUtf8 o toUtf8 toIPv4Address hostString encode e c).
Proof.
  destruct e; cbn [Controller.handle]; [apply start_tracks|by apply stop_tracks|apply finish_tracks; track|apply finish_tracks; track| | | | |].
  - cbv beta delta [newConnection]. repeat first [track_step | apply receive_tracks]; done.
  - unfold readyRead. destruct (socket c); [by apply receive_tracks|done].
  - by apply receive_tracks.
  - apply stop_tracks. track.
  - unfold stop_timeout. track.
Qed.
End Tracks.

(** ** The window agrees with its preferences and with the relay *)

Section Consistent.
Context (o : os) (toIPv4Address : string -> option Z) (hostString : Z -> string) (fromUtf8 toUtf8 : list Z -> list Z)
  (encode : string -> list Z) (resolveGuid : string -> string) (isExecutable : string -> bool) (bundled : string).

#[local] Abbreviation validate' := (validate toIPv4Address hostString o resolveGuid isExecutable).
#[local] Abbreviation updateState' := (updateState o toIPv4Address hostString resolveGuid isExecutable).
#[local] Abbreviation save' := (save o toIPv4Address hostString resolveGuid isExecutable bundled).
#[local] Abbreviation refresh' := (refreshAdapters o toIPv4Address hostString resolveGuid isExecutable bundled).
#[local] Abbreviation signal' := (signal o toIPv4Address hostString resolveGuid isExecutable).
#[local] Abbreviation relayed' := (relayed o toIPv4Address hostString resolveGuid isExecutable).
#[local] Abbreviation Window' := (Window o toIPv4Address hostString resolveGuid isExecutable bundled).
#[local] Abbreviation whandle' := (whandle o toIPv4Address hostString fromUtf8 toUtf8 encode resolveGuid isExecutable bundled).
#[local] Abbreviation wstep' := (wstep o toIPv4Address hostString fromUtf8 toUtf8 encode resolveGuid isExecutable bundled).
#[local] Abbreviation handle' := (Controller.handle fromUtf8 o toUtf8 toIPv4Address hostString encode).

(** what is shown apart from the status line *)
Definition chrome (d : display) : display := d <| d_status := Ready |>.
Definition view (s : State) (p : Preferences) (l : list Adapter) : display :=
  let w := mkWindow p l RelayController ∅ no_combo no_combo "" "" false false false false false false false
    (mkDisplay "" "" "" None true true None true Ready true true true true) StartToLook [] false in
  chrome (shown (updateState' s w)).
Lemma update_view s w : chrome (shown (updateState' s w)) = view s (preferences w) (adapters w).
Proof. reflexivity. Qed.

(** the fields that no signal of the relay changes *)
Definition base (w : window) : window :=
  w <| shown := view Idle (preferences w) (adapters w) |> <| switchStatus := StartToLook |> <| logged := [] |> <| closed := false |>.

Record consistent (w : window) : Prop := {
  cs_loading : loading w = false;
  cs_widgets : preferences w = widget_preferences bundled w;
  cs_store : previewMode w = false -> Desktop.save (stored bundled (preferences w)) (store w) = store w;
  cs_shown : chrome (shown w) = view (current (relay w)) (preferences w) (adapters w)
}.

Lemma dhcp_line_kept line w : base (dhcp_line line w) = base w /\ shown (dhcp_line line w) = shown w.
Proof.
  unfold dhcp_line. destruct (after_first dhcp_mark line) as [rest|]; [|done].
  destruct (split_spaces _ _) as [|? [|? [|? [|? ?]]]]; try done. by repeat case_bool_decide.
Qed.
Lemma signal_kept s w a : base (signal' w a) = base w /\
  (chrome (shown w) = view s (preferences w) (adapters w) ->
   chrome (shown (signal' w a)) = view (last_state s [a]) (preferences w) (adapters w)).
Proof.
  destruct a; try done.
  - cbn [signal]. destruct (closing _ && _); cbn; split; done.
  - cbn [signal]. destruct (dhcp_line_kept l (w <| logged ::= (fun x => x ++ [l]) |>)) as [E1 E2]. by rewrite E1, E2.
Qed.
Lemma base_eq w w' : base w = base w' -> preferences w = preferences w' /\ adapters w = adapters w' /\ relay w = relay w' /\
  store w = store w' /\ widget_preferences bundled w = widget_preferences bundled w' /\ loading w = loading w' /\
  previewMode w = previewMode w' /\ closing w = closing w'.
Proof. intros E. destruct w, w'. injection E as; simplify_eq. done. Qed.

Lemma signals_kept l : forall s w, let w' := fold_left signal' l w in
  base w' = base w /\ (chrome (shown w) = view s (preferences w) (adapters w) ->
    chrome (shown w') = view (last_state s l) (preferences w) (adapters w)).
Proof.
  induction l as [|a l IH]; cbn; intros s w; [done|]. destruct (signal_kept s w a) as [E1 E2].
  destruct (IH (last_state s [a]) (signal' w a)) as [E3 E4]. split; [congruence|]. intros E.
  destruct (base_eq _ _ E1) as (Ep & Ea & _). rewrite Ep, Ea in E4. by apply E4, E2.
Qed.

Lemma relayed_base c w : base (relayed' c w) = base (w <| relay := c |>).
Proof. unfold relayed. apply (signals_kept _ Idle). Qed.
Lemma relayed_relay c w : relay (relayed' c w) = c.
Proof. by destruct (base_eq _ _ (relayed_base c w)) as (_ & _ & -> & _). Qed.

Lemma relayed_consistent q c w : tracks q (relay w) c -> consistent w -> consistent (relayed' c w).
Proof.
  intros (new & Ho & Hs & _) [H1 H2 H3 H4]. pose proof (relayed_base c w) as E.
  destruct (base_eq _ _ E) as (Ep & Ea & Er & Es & Ew & El & Ev & _). cbn in Ep, Ea, Er, Es, El, Ev.
  assert (Ew' : widget_preferences bundled (relayed' c w) = widget_preferences bundled w) by exact Ew.
  constructor; [congruence|congruence| |].
  - rewrite Ep, Es, Ev. exact H3.
  - rewrite Ep, Ea, Er, Hs. unfold relayed. rewrite Ho, skipn_app, skipn_all, Nat.sub_diag. cbn [app].
    destruct (signals_kept new (current (relay w)) (w <| relay := c |>)) as [_ X]. by apply X.
Qed.

(** *** The widgets hold the preferences *)

Lemma findData_found l d i : findData l d = Some i -> exists t, l !! i = Some (t, d).
Proof.
  revert i. induction l as [|[t e] l IH]; cbn; intros i E; [done|]. destruct (String.eqb_spec e d) as [->|]; [simplify_eq; by exists t|].
  destruct (findData l d) as [j|]; [|done]. cbn in E. injection E as <-. by apply IH.
Qed.
(** a box filled for a choice holds the choice *)
Lemma fill_data l chosen : currentData (fill l chosen) = chosen.
Proof.
  unfold fill, currentData. destruct (findData _ chosen) as [i|] eqn:E; cbn [items currentIndex].
  - apply findData_found in E as [t ->]. done.
  - destruct (nonempty chosen) eqn:Ec; cbn [items currentIndex].
    + rewrite lookup_app_r by lia. by rewrite Nat.sub_diag.
    + cbn. unfold nonempty in Ec. apply negb_false_iff, String.eqb_eq in Ec. done.
Qed.

Lemma saved_twice p s : Desktop.save p (Desktop.save p s) = Desktop.save p s.
Proof.
  destruct (saved_lookup p s) as (E1 & E2 & E3 & E4 & E5 & E6 & E7 & E8). unfold Desktop.save at 1.
  repeat (rewrite insert_id; [|rewrite ?lookup_insert_ne by done; assumption]). done.
Qed.

Lemma save_consistent w : loading w = false -> busy (relay w) = false -> consistent (save' w).
Proof.
  intros Hl Hb. unfold save. rewrite Hl, Hb. cbn [orb]. constructor.
  - destruct (previewMode w) eqn:E; cbn; rewrite E; done.
  - destruct (previewMode w) eqn:E; cbn; rewrite E; done.
  - destruct (previewMode w) eqn:E; cbn; rewrite E; cbn; [congruence|]. intros _. apply saved_twice.
  - destruct (previewMode w) eqn:E; cbn; rewrite E; done.
Qed.
Lemma save_box w : local_box (save' w) = local_box w.
Proof. unfold save. destruct (loading w || _); [done|]. cbn. by destruct (previewMode w). Qed.
Lemma save_relay w : relay (save' w) = relay w.
Proof. unfold save. destruct (loading w || _); [done|]. cbn. by destruct (previewMode w). Qed.

Lemma refresh_idle ips ifs w : busy (relay w) = false -> consistent (refresh' ips ifs w) /\ relay (refresh' ips ifs w) = relay w.
Proof.
  intros Hb. unfold refreshAdapters. rewrite Hb. destruct (Desktop.refreshAdapters _ _ _ _ _) as [l p]. cbv zeta.
  split; [by apply save_consistent|]. by rewrite save_relay.
Qed.
Lemma refresh_consistent ips ifs w : consistent w -> consistent (refresh' ips ifs w) /\ relay (refresh' ips ifs w) = relay w.
Proof.
  intros H. destruct (busy (relay w)) eqn:Hb; [|by apply refresh_idle]. unfold refreshAdapters. by rewrite Hb.
Qed.

(** an edit is allowed only while the relay is idle *)
Lemma configuration_idle w : consistent w -> configuration (shown w) = true -> busy (relay w) = false.
Proof.
  intros H Hc. pose proof (f_equal configuration (cs_shown w H)) as E. cbn in E. rewrite Hc in E. unfold busy.
  by destruct (current (relay w)).
Qed.

Lemma edited_consistent e w : consistent w -> busy (relay w) = false ->
  consistent (edited o toIPv4Address hostString resolveGuid isExecutable bundled e w) /\
  relay (edited o toIPv4Address hostString resolveGuid isExecutable bundled e w) = relay w.
Proof.
  intros H Hb. unfold edited. rewrite save_relay. split; [|by destruct e]. apply save_consistent; [|by destruct e].
  pose proof (cs_loading w H). by destruct e.
Qed.

(** the controller of a window takes the steps of [Controller] *)
Lemma whandle_relay e w : consistent w -> allowed o e w = true ->
  relay (whandle' e w) = relay w \/ exists e', Controller.enabled o e' (relay w) = true /\ relay (whandle' e w) = handle' e' (relay w).
Proof.
  intros H Ha. apply andb_prop in Ha as [_ Ha]. destruct e as [e|ips ifs|ips ifs h| |e|]; cbn [whandle].
  - left. by apply edited_consistent; [|apply configuration_idle].
  - left. by apply refresh_consistent.
  - unfold startClicked. destruct (previewMode w); [by left|]. destruct (refresh_consistent ips ifs w H) as [_ Er]. cbv zeta.
    set (w1 := refresh' ips ifs w) in *. clearbody w1. destruct (validate' _ _); [by left|]. right.
    exists (EStart h (preferences w1) (adapters w1)). split; [done|]. rewrite relayed_relay. cbn. by rewrite Er.
  - right. exists EStop. split; [done|]. apply relayed_relay.
  - right. exists e. split; [by destruct e|]. apply relayed_relay.
  - unfold closeEvent. destruct (busy (relay w)); [|by left]. right. exists EStop. split; [done|]. apply relayed_relay.
Qed.

Lemma whandle_consistent e w : consistent w -> allowed o e w = true -> consistent (whandle' e w).
Proof.
  intros H Ha. apply andb_prop in Ha as [_ Ha]. destruct e as [e|ips ifs|ips ifs h| |e|]; cbn [whandle].
  - by apply edited_consistent; [|apply configuration_idle].
  - by apply refresh_consistent.
  - unfold startClicked. destruct (previewMode w); [done|]. destruct (refresh_consistent ips ifs w H) as [H1 _]. cbv zeta.
    set (w1 := refresh' ips ifs w) in *. clearbody w1. destruct (validate' _ _); [done|].
    apply (relayed_consistent true); [apply start_tracks|]. by destruct H1; constructor.
  - apply (relayed_consistent true); [by apply stop_tracks|done].
  - apply (relayed_consistent (negb (ends e))); [apply handle_tracks|done].
  - unfold closeEvent. destruct (busy (relay w)); [|by destruct H; constructor].
    apply (relayed_consistent true); [by apply stop_tracks|]. by destruct H; constructor.
Qed.

Lemma window_made preview s loadIPs ips loadIfs ifs : consistent (Window' preview s loadIPs ips loadIfs ifs) /\
  relay (Window' preview s loadIPs ips loadIfs ifs) = RelayController.
Proof. by apply refresh_idle. Qed.

Definition opened (w : window) : Prop := exists preview s loadIPs ips loadIfs ifs, rtc wstep' (Window' preview s loadIPs ips loadIfs ifs) w.

Lemma opened_consistent w : opened w -> consistent w /\ rtc (Controller.step fromUtf8 o toUtf8 toIPv4Address hostString encode) RelayController (relay w).
Proof.
  intros (preview & s & loadIPs & ips & loadIfs & ifs & H). destruct (window_made preview s loadIPs ips loadIfs ifs) as [H0 R0].
  revert H. generalize dependent (Window' preview s loadIPs ips loadIfs ifs). intros w0 H0 R0 H.
  assert (Hr : rtc (Controller.step fromUtf8 o toUtf8 toIPv4Address hostString encode) RelayController (relay w0)) by (by rewrite R0).
  clear R0. induction H as [|a b c [e He] _ IH]; [done|]. apply IH; [by apply whandle_consistent|].
  destruct (whandle_relay e a H0 He) as [-> | (e' & He' & ->)]; [done|]. eapply rtc_r; [done|by constructor].
Qed.

(** In every state the user can reach, the window agrees with itself: the
    preferences are what the widgets hold, the store holds them with the
    bundled relay left out, the start button is enabled exactly when the relay
    is idle and the preferences pass their check, the stop button exactly when
    the relay can still be stopped, and the widgets exactly when it is idle. *)
Theorem window_agrees w : opened w ->
  preferences w = widget_preferences bundled w /\
  (previewMode w = false -> Desktop.save (stored bundled (preferences w)) (store w) = store w) /\
  (startEnabled (shown w) = true <-> current (relay w) = Idle /\ validate' (preferences w) (adapters w) = None) /\
  (stopEnabled (shown w) = true <-> current (relay w) <> Idle /\ current (relay w) <> Stopping) /\
  (configuration (shown w) = true <-> current (relay w) = Idle) /\
  validation (shown w) = validate' (preferences w) (adapters w).
Proof.
  intros [H _]%opened_consistent. split_and!; [apply H|apply H|..];
    [pose proof (f_equal startEnabled (cs_shown w H)) as E|pose proof (f_equal stopEnabled (cs_shown w H)) as E
    |pose proof (f_equal configuration (cs_shown w H)) as E|by pose proof (f_equal validation (cs_shown w H)) as E];
    cbn in E; rewrite E; clear E; repeat case_bool_decide; try congruence; try destruct (validate' _ _); cbn; tauto || (split; intros; destruct_and?; done).
Qed.

(** *** Starting *)

(** what a start that leaves the controller busy has launched *)
Lemma start_launched h p l c : current c = Idle ->
  current (start fromUtf8 o toIPv4Address hostString encode h p l c) <> Idle ->
  let args := arguments o (Controller.resolveGuid h) p l (reportDirectory h +:+ "/packets") in
  exists pre program words, out (start fromUtf8 o toIPv4Address hostString encode h p l c) = out c ++ pre ++ [Launched program words] /\
    if is_windows o then program = relayPath p /\ exists stop, words = args ++ stop
    else exists prefix, root_words o words = Some (prefix ++ args) /\ length prefix = 4%nat.
Proof.
  intros Hc Hs args. revert Hs. cbv beta delta [start]. unfold busy at 1 2. rewrite Hc. cbv zeta.
  destruct (validate _ _ _ _ _ _ _); [cbn; congruence|]. destruct (_ && _); [cbn; congruence|].
  destruct (root_programs _ _ _ _) as [[helper relay]|]; [|cbn; congruence].
  destruct (report_made h), (log_opened h); cbn [negb]; try (cbn; congruence).
  destruct (is_windows o) eqn:W.
  - cbv beta delta [start_windows]. destruct (event_created h); cbn [negb]; [|cbn; congruence]. intros _. cbv zeta. fold args.
    match goal with |- context [receive fromUtf8 ?b ?d] => destruct (receive_spec fromUtf8 b d) as [_ _ _ (new & Ho & _)]; set (r := receive fromUtf8 b d) in * end.
    cbn [out] in Ho. exists (new ++ [StateChanged Starting; Message MStarting]). do 2 eexists. split; [|by split; [|eexists]].
    cbn. rewrite Ho. cbn. by rewrite <- !app_assoc.
  - cbv beta delta [start_posix]. cbv zeta. fold args. destruct (listens h); cbn [negb]; [|cbn; congruence].
    destruct (bool_decide_reflect (o = Linux)) as [El|Hl].
    + assert (Ew : forall ws, root_words o ws = Some ws) by (intros; unfold root_words; by rewrite El).
      destruct (nonempty (pkexec h)); cbn [negb]; [|cbn; congruence]. intros _. exists [StateChanged Authorizing; Message MApprove].
      do 2 eexists. split; [cbn; by rewrite <- !app_assoc|]. exists [helper; fullServerName h; pretty (uid h); relay]. split; [|done]. by rewrite Ew.
    + assert (Em : o = MacOS) by (by destruct o). intros _. exists [StateChanged Authorizing; Message MApprove].
      do 2 eexists. split; [cbn; by rewrite <- !app_assoc|]. exists [helper; fullServerName h; pretty (uid h); relay]. split; [|done]. by rewrite osascript_words.
Qed.

Lemma refreshed_adapters ips ifs w : busy (relay w) = false -> adapters (refresh' ips ifs w) = discoverAdapters toIPv4Address hostString ifs.
Proof.
  intros Hb. unfold refreshAdapters. rewrite Hb. unfold Desktop.refreshAdapters. cbv zeta. unfold save. cbn [loading].
  match goal with |- context [if ?b then _ else _] => destruct b end; [done|]. cbn. by destruct (previewMode _).
Qed.
Lemma discovered_subnet ifs a : In a (discoverAdapters toIPv4Address hostString ifs) ->
  subnet a = subnetFor toIPv4Address hostString (ip a) (mask a).
Proof.
  intros [(i & <- & _)%in_map_iff Hip]%filter_In. unfold adapter_of in *. destruct (first_ipv4 _) as [[v m]|]; [done|]. done.
Qed.

Lemma or_dash_id s : s <> ""%string -> or_dash s = s.
Proof. intros H. unfold or_dash. by rewrite (proj2 (nonempty_spec s) H). Qed.

(** C22. What the window shows is what the relay runs with: when a click on
    start leads to a running process, its command line carries the gateway that
    is shown and the subnet of the address and mask that are shown, for the
    interfaces the widgets hold. *)
Theorem started_as_shown w ips ifs h : opened w -> allowed o (WStart ips ifs h) w = true ->
  Controller.resolveGuid h = resolveGuid -> Controller.isExecutable h = isExecutable -> toIPv4Address "" = None ->
  let w' := whandle' (WStart ips ifs h) w in
  busy (relay w') = true ->
  preferences w' = widget_preferences bundled w' /\
  exists args pre program words, out (relay w') = out (relay w) ++ pre ++ [Launched program words] /\
    (if is_windows o then program = relayPath (preferences w') /\ exists stop, words = args ++ stop
     else exists prefix, root_words o words = Some (prefix ++ args) /\ length prefix = 4%nat) /\
    nth 1 args ""%string = capture_name o resolveGuid (currentData (local_box w')) /\
    nth 3 args ""%string = capture_name o resolveGuid (currentData (overlay_box w')) /\
    nth 5 args ""%string = subnetFor toIPv4Address hostString (address (shown w')) (d_mask (shown w')) /\
    nth 7 args ""%string = gatewayValue (shown w').
Proof.
  intros Hw Ha Hg Hx Hempty w' Hb. pose proof (opened_consistent w Hw) as [H _].
  pose proof (whandle_consistent _ w H Ha : consistent w') as H'. destruct (window_agrees w Hw) as (_ & _ & Hs & _).
  apply andb_prop in Ha as [_ Ha]. cbn in Ha. apply Hs in Ha as [Hi _]. clear Hs.
  assert (Hi' : busy (relay w) = false) by (unfold busy; by rewrite Hi).
  split; [apply H'|]. subst w'. cbn [whandle] in *. unfold startClicked in *. destruct (previewMode w); [congruence|].
  destruct (refresh_consistent ips ifs w H) as [H1 Er]. pose proof (refreshed_adapters ips ifs w Hi') as Ea. cbv zeta in *.
  set (w1 := refresh' ips ifs w) in *. clearbody w1. destruct (validate' _ _) eqn:Ev; [congruence|].
  set (w2 := w1 <| logged := [] |> <| switchStatus := Looking |>) in *.
  change (preferences w2) with (preferences w1) in *. change (adapters w2) with (adapters w1) in *. change (relay w2) with (relay w1) in *.
  set (c := start _ _ _ _ _ _ _ _ _) in *. rewrite relayed_relay in *.
  destruct (base_eq _ _ (relayed_base c w2)) as (Ep & El & _). cbn in Ep, El.
  pose proof (cs_shown _ H') as Es. rewrite relayed_relay in Es. pose proof (cs_widgets _ H') as Ew. set (w' := relayed' c w2) in *. clearbody w'.
  destruct (start_launched h (preferences w1) (adapters w1) (relay w1)) as (pre & program & words & Ho & Hl);
    [by rewrite Er|by unfold busy in Hb; intros E; fold c in E; rewrite E in Hb|].
  exists (arguments o resolveGuid (preferences w1) (adapters w1) (reportDirectory h +:+ "/packets")), pre, program, words.
  rewrite Hg in Hl. fold c in Ho. rewrite Ep, Ho, Er. split_and!; [done|exact Hl|..].
  - cbn. f_equal. by rewrite <- Ep, Ew.
  - cbn. f_equal. by rewrite <- Ep, Ew.
  - pose proof (f_equal address Es) as E1. pose proof (f_equal d_mask Es) as E2. cbn in E1, E2. rewrite E1, E2, Ep, El. cbn.
    apply validate_checked in Ev.
    rewrite !or_dash_id by (apply Ev || by rewrite (ck_mask _ _ _ _ _ _ _ Ev)).
    apply (discovered_subnet ifs). rewrite <- Ea. apply overlay_in, Ev.
  - pose proof (f_equal gatewayValue Es) as E1. cbn in E1. rewrite E1, Ep, El. cbn.
    apply validate_checked in Ev. pose proof (ck_gateway _ _ _ _ _ _ _ Ev) as Hgw. unfold bad_gateway, effective_gateway in *.
    destruct (nonempty (p_gateway (preferences w1))); [done|]. unfold or_dash.
    destruct (nonempty (gateway _)) eqn:En; [done|]. unfold nonempty in En. apply negb_false_iff, String.eqb_eq in En. by rewrite En, Hempty in Hgw.
Qed.

(** *** Closing *)

Lemma relayed_closing c w : closing (relayed' c w) = closing w.
Proof. by destruct (base_eq _ _ (relayed_base c w)) as (_ & _ & _ & _ & _ & _ & _ & ->). Qed.

(** the signals close a window that waits for it when one of them is the end *)
Lemma signals_close l w : closing w = true -> In (StateChanged Idle) l \/ closed w = true -> closed (fold_left signal' l w) = true.
Proof.
  revert w. induction l as [|a l IH]; cbn [fold_left]; intros w Hc [Hin|Hd]; try done.
  - apply IH.
    + rewrite <- Hc. destruct (signal_kept Idle w a) as [E _]. by destruct (base_eq _ _ E) as (_ & _ & _ & _ & _ & _ & _ & ->).
    + destruct Hin as [->|Hin]; [|by left]. right. cbn. rewrite Hc. done.
  - apply IH; [|right].
    + rewrite <- Hc. destruct (signal_kept Idle w a) as [E _]. by destruct (base_eq _ _ E) as (_ & _ & _ & _ & _ & _ & _ & ->).
    + destruct a; cbn; try done.
      * by destruct (closing w && _).
      * unfold dhcp_line. destruct (after_first _ _); [|done]. destruct (split_spaces _ _) as [|? [|? [|? [|? ?]]]]; try done.
        by repeat case_bool_decide.
Qed.

Lemma signal_quiet a w : a <> StateChanged Idle -> closed (signal' w a) = closed w.
Proof.
  intros Ha. destruct a; cbn [signal]; try done.
  - destruct (closing _ && _) eqn:E; [|done]. apply andb_prop in E as [_ E%bool_decide_eq_true]. congruence.
  - unfold dhcp_line. destruct (after_first _ _); [|done]. destruct (split_spaces _ _) as [|? [|? [|? [|? ?]]]]; try done.
    by repeat case_bool_decide.
Qed.
Lemma quiet_signals l w : ~ In (StateChanged Idle) l -> closed (fold_left signal' l w) = closed w.
Proof.
  revert w. induction l as [|a l IH]; cbn; intros w H; [done|]. rewrite IH by tauto. apply signal_quiet. tauto.
Qed.
Lemma relayed_quiet c w : tracks true (relay w) c -> closed (relayed' c w) = closed w.
Proof.
  intros (new & Ho & _ & Q). unfold relayed. rewrite Ho, skipn_app, skipn_all, Nat.sub_diag. cbn [app].
  by rewrite (quiet_signals (skipn 0 new)) by (by apply Q).
Qed.
Lemma relayed_closes q c w : tracks q (relay w) c -> closing w = true -> current (relay w) <> Idle -> current c = Idle -> closed (relayed' c w) = true.
Proof.
  intros (new & Ho & Hs & _) Hc Hr Hi. unfold relayed. rewrite Ho, skipn_app, skipn_all, Nat.sub_diag. cbn [app].
  apply signals_close; [done|left]. pose proof (last_state_in (current (relay w)) new) as X. rewrite <- Hs, Hi in X. apply X. congruence.
Qed.

Lemma save_flags w : closed (save' w) = closed w /\ closing (save' w) = closing w.
Proof. unfold save. destruct (loading w || _); [done|]. cbn. by destruct (previewMode w). Qed.
Lemma edited_flags e w : let w' := edited o toIPv4Address hostString resolveGuid isExecutable bundled e w in
  closed w' = closed w /\ closing w' = closing w.
Proof. cbv zeta. unfold edited. destruct e; by rewrite (proj1 (save_flags _)), (proj2 (save_flags _)). Qed.
Lemma refresh_flags ips ifs w : closed (refresh' ips ifs w) = closed w /\ closing (refresh' ips ifs w) = closing w.
Proof.
  unfold refreshAdapters. destruct (busy (relay w)); [done|]. destruct (Desktop.refreshAdapters _ _ _ _ _) as [l p]. cbv zeta.
  by rewrite (proj1 (save_flags _)), (proj2 (save_flags _)).
Qed.

(** a closed window has no relay, and one that is to close is stopping it *)
Definition closes (w : window) : Prop :=
  (closed w = true -> current (relay w) = Idle) /\ (closing w = true -> closed w = false -> current (relay w) = Stopping).

Lemma whandle_closes e w : opened w -> closes w -> allowed o e w = true -> closes (whandle' e w).
Proof.
  intros Hw [C1 C2] Ha. destruct (opened_consistent w Hw) as [H Hr]. pose proof (reachable_inv _ _ _ _ _ _ _ Hr) as I.
  destruct (window_agrees w Hw) as (_ & _ & Hs & _ & Hc & _). apply andb_prop in Ha as [Hd Ha]. apply negb_true_iff in Hd.
  assert (Hidle : current (relay w) = Idle -> closing w = false).
  { intros Hi. destruct (closing w); [|done]. rewrite C2 in Hi by done. done. }
  destruct e as [e|ips ifs|ips ifs h| |e|]; cbn [whandle] in *.
  - apply Hc in Ha. destruct (edited_flags e w) as [E1 E2]. unfold closes. rewrite E1, E2, Hd, (Hidle Ha). done.
  - apply Hc in Ha. destruct (refresh_flags ips ifs w) as [E1 E2]. unfold closes. rewrite E1, E2, Hd, (Hidle Ha). done.
  - apply Hs in Ha as [Ha _]. unfold startClicked. destruct (previewMode w); [done|]. cbv zeta.
    destruct (refresh_flags ips ifs w) as [E1 E2]. set (w1 := refresh' ips ifs w) in *. clearbody w1.
    unfold closes. destruct (validate' (preferences w1) _); [by rewrite E1, E2, Hd, (Hidle Ha)|].
    rewrite relayed_quiet by apply start_tracks. rewrite relayed_closing. cbn. by rewrite E1, E2, Hd, (Hidle Ha).
  - unfold closes, stopClicked. rewrite relayed_quiet by (by apply stop_tracks). rewrite relayed_closing, relayed_relay, Hd. split; [done|].
    intros Hcl _. destruct (stop_state o (relay w)) as [E|E]; [rewrite E; by apply C2|done].
  - unfold closes. rewrite relayed_closing, relayed_relay. pose proof (handle_tracks o toIPv4Address hostString fromUtf8 toUtf8 encode e (relay w)) as T.
    destruct (ends e) eqn:Ee; cbn [negb] in T.
    + assert (Ei : current (handle' e (relay w)) = Idle) by (by destruct e). split; [done|]. intros Hcl Hn.
      rewrite (relayed_closes false) in Hn; [done|done|done| |done]. by rewrite (C2 Hcl Hd).
    + rewrite relayed_quiet by done. rewrite Hd. split; [done|]. intros Hcl _. apply stopping_stays; [done|by apply C2|by destruct e|done].
  - unfold closes, closeEvent. destruct (busy (relay w)) eqn:Hb.
    + rewrite relayed_quiet by (by apply stop_tracks). rewrite relayed_relay. cbn. rewrite Hd. split; [done|]. intros _ _.
      unfold stop. rewrite Hb. cbn [negb orb]. case_bool_decide; [done|]. destruct (is_windows o); [by destruct (windowsStopEvent _)|by destruct (socket _)].
    + cbn. split; [|done]. intros _. unfold busy in Hb. by destruct (current (relay w)).
Qed.

Lemma opened_step e w : opened w -> allowed o e w = true -> opened (whandle' e w).
Proof.
  intros (preview & s & loadIPs & ips & loadIfs & ifs & H) He. exists preview, s, loadIPs, ips, loadIfs, ifs. eapply rtc_r; [done|by constructor].
Qed.
Lemma window_flags preview s loadIPs ips loadIfs ifs :
  closed (Window' preview s loadIPs ips loadIfs ifs) = false /\ closing (Window' preview s loadIPs ips loadIfs ifs) = false.
Proof. unfold Window. cbv zeta. by rewrite (proj1 (refresh_flags _ _ _)), (proj2 (refresh_flags _ _ _)). Qed.
Lemma opened_closes w : opened w -> closes w.
Proof.
  intros (preview & s & loadIPs & ips & loadIfs & ifs & H).
  assert (H0 : opened (Window' preview s loadIPs ips loadIfs ifs) /\ closes (Window' preview s loadIPs ips loadIfs ifs)).
  { split; [by exists preview, s, loadIPs, ips, loadIfs, ifs|]. destruct (window_flags preview s loadIPs ips loadIfs ifs) as [E1 E2].
    unfold closes. by rewrite E1, E2. }
  revert H0. induction H as [|a b c [e He] _ IH]; intros [Ho Hc]; [done|]. apply IH. split; [by apply opened_step|by apply whandle_closes].
Qed.

(** The window never closes on a running relay, and a request to close is
    carried out: a closed window's relay is idle; a request made while the relay
    is busy leaves it stopping, whatever else happens it stays so, and the end
    of its process closes the window. *)
Theorem close_completes w : opened w ->
  (closed w = true -> current (relay w) = Idle) /\
  (allowed o WClose w = true -> busy (relay w) = true ->
   closing (whandle' WClose w) = true /\ current (relay (whandle' WClose w)) = Stopping) /\
  (closing w = true -> closed w = false -> current (relay w) = Stopping /\
   forall e, Controller.enabled o e (relay w) = true -> ends e = true ->
     closed (whandle' (WRelay e) w) = true /\ current (relay (whandle' (WRelay e) w)) = Idle).
Proof.
  intros Hw. destruct (opened_closes w Hw) as [C1 C2]. split_and!; [done|..].
  - intros Ha Hb. assert (Hcl : closing (whandle' WClose w) = true).
    { cbn [whandle]. unfold closeEvent. rewrite Hb. by rewrite relayed_closing. }
    split; [done|]. destruct (opened_closes _ (opened_step WClose w Hw Ha)) as [_ X]. apply X; [done|].
    cbn [whandle]. unfold closeEvent. rewrite Hb, relayed_quiet by (by apply stop_tracks). cbn. apply andb_prop in Ha as [Hd _]. by apply negb_true_iff in Hd.
  - intros Hcl Hd. pose proof (C2 Hcl Hd) as Es. split; [done|]. intros e He Hn. cbn [whandle].
    assert (Ei : current (handle' e (relay w)) = Idle) by (by destruct e). split; [|by rewrite relayed_relay].
    apply (relayed_closes (negb (ends e))); [apply handle_tracks|done|by rewrite Es|done].
Qed.

(** *** Keeping the settings *)

Lemma trim_front_head l : match trim_front l with [] => True | c :: _ => isSpace c = false end.
Proof. induction l as [|c l IH]; cbn; [done|]. by destruct (isSpace c) eqn:E. Qed.
Lemma trim_front_id l : match l with [] => True | c :: _ => isSpace c = false end -> trim_front l = l.
Proof. destruct l as [|c l]; cbn; [done|]. by intros ->. Qed.
Lemma trim_front_snoc l c : isSpace c = false -> exists m, trim_front (l ++ [c]) = m ++ [c].
Proof.
  intros Hc. induction l as [|d l [m IH]]; cbn; [rewrite Hc; by exists []|]. destruct (isSpace d); [by exists m|]. by exists (d :: l).
Qed.
Lemma trimmed_idem l : trimmed (trimmed l) = trimmed l.
Proof.
  unfold trimmed. pose proof (trim_front_head l) as Hh. destruct (trim_front l) as [|c m]; [done|]. cbn [rev].
  destruct (trim_front_snoc (rev m) c Hh) as [k E]. rewrite E, rev_app_distr. cbn [rev app].
  rewrite (trim_front_id (c :: rev k)) by done. change (c :: rev k) with ([c] ++ rev k). rewrite rev_app_distr, rev_involutive. cbn [rev app].
  rewrite <- E at 1. rewrite (trim_front_id (trim_front _)) by apply trim_front_head. by rewrite E, rev_app_distr.
Qed.
Lemma trim_front_forall P l : Forall P l -> Forall P (trim_front l).
Proof. induction 1 as [|c l Hc Hl IH]; cbn; [done|]. destruct (isSpace c); [done|by constructor]. Qed.
Lemma codes_text l : Forall (fun c => 0 <= c < 256) l -> codes (text_of l) = l.
Proof.
  unfold codes, text_of. rewrite String.list_ascii_of_string_of_list_ascii. induction 1 as [|c l Hc _ IH]; cbn; [done|].
  rewrite nat_ascii_embedding by lia. f_equal; [lia|done].
Qed.
Lemma codes_bytes s : Forall (fun c => 0 <= c < 256) (codes s).
Proof.
  unfold codes. induction (String.list_ascii_of_string s) as [|c l IH]; cbn; constructor; [|done].
  pose proof (nat_ascii_bounded c). lia.
Qed.
Lemma trim_idem s : trim (trim s) = trim s.
Proof.
  unfold trim. rewrite codes_text; [by rewrite trimmed_idem|]. unfold trimmed.
  by apply Forall_rev, trim_front_forall, Forall_rev, trim_front_forall, codes_bytes.
Qed.
Lemma trim_nil : trim "" = ""%string.
Proof. reflexivity. Qed.

(** the widgets that a refresh does not fill *)
Definition entered (w : window) := (gateway_edit w, executable_edit w, diagnostics_box w, capture_box w, discovery_box w, autoMode w).
Lemma save_entered w : entered (save' w) = entered w.
Proof. unfold save. destruct (loading w || _); [done|]. cbn. by destruct (previewMode w). Qed.
Lemma refresh_entered ips ifs w : entered (refresh' ips ifs w) = entered w.
Proof.
  unfold refreshAdapters. destruct (busy (relay w)); [done|]. destruct (Desktop.refreshAdapters _ _ _ _ _) as [l p]. cbv zeta. by rewrite save_entered.
Qed.

(** the part of the preferences that the network does not choose *)
Definition kept_preferences (p : Preferences) := (p_gateway p, diagnostics p, capture p, discover p, dhcp p).
Lemma select_kept ips l p : kept_preferences (autoSelectOverlayAdapter ips l p) = kept_preferences p /\
  relayPath (autoSelectOverlayAdapter ips l p) = relayPath p.
Proof. unfold autoSelectOverlayAdapter. destruct (List.find _ l); [done|]. by destruct (List.find is_overlay l). Qed.

End Consistent.

(** Settings survive a restart and a move of the application: a window that
    is opened on the store of another one, read back from its file, has the same
    gateway, options and mode, and the same relay, unless that was the bundled
    one: then it is the one bundled with the application that is opened. *)
Theorem settings_survive o toIPv4Address hostString fromUtf8 toUtf8 encode resolveGuid isExecutable bundled bundled' w s loadIPs ips loadIfs ifs :
  opened o toIPv4Address hostString fromUtf8 toUtf8 encode resolveGuid isExecutable bundled w -> previewMode w = false ->
  reloaded (store w) s ->
  let p := preferences (Window o toIPv4Address hostString resolveGuid isExecutable bundled' false s loadIPs ips loadIfs ifs) in
  kept_preferences p = kept_preferences (preferences w) /\
  relayPath p = if String.eqb (relayPath (preferences w)) bundled then bundled' else relayPath (preferences w).
Proof.
  intros Hw Hp Hs p. destruct (opened_consistent _ _ _ _ _ _ _ _ _ w Hw) as [[_ Ew Est _] _].
  rewrite <- (Est Hp) in Hs. apply preferences_round_trip with (toIPv4Address := toIPv4Address) (hostString := hostString) (ips := loadIPs) (ifs := loadIfs) in Hs.
  destruct (select_kept loadIPs (discoverAdapters toIPv4Address hostString loadIfs) (stored bundled (preferences w))) as [Ek Er].
  rewrite <- Hs in Ek, Er. subst p.
  pose proof (cs_widgets _ _ _ _ _ _ _ (proj1 (window_made o toIPv4Address hostString resolveGuid isExecutable bundled' false s loadIPs ips loadIfs ifs))) as E.
  rewrite E. clear E. set (P := load _ _ _ _ _) in *. clear Hs Est Hp.
  assert (Hk : kept_preferences P = kept_preferences (preferences w)) by (rewrite Ek; unfold stored; by destruct (String.eqb _ _)).
  clear Ek. set (p := if nonempty (relayPath P) then P else P <| relayPath := bundled' |>).
  match goal with |- context [widget_preferences bundled' ?x] => assert (En : entered x = (p_gateway p, if String.eqb (relayPath p) bundled' then ""%string else relayPath p,
    diagnostics p, capture p, discover p, dhcp p)) by (unfold Window; cbv zeta; by rewrite refresh_entered); generalize dependent x end.
  clearbody P. intros w' En. injection En as E1 E2 E3 E4 E5 E6.
  assert (Hkp : kept_preferences p = kept_preferences (preferences w)) by (rewrite <- Hk; subst p; by destruct (nonempty _)).
  unfold kept_preferences in Hkp. injection Hkp as K1 K2 K3 K4 K5. split.
  - unfold kept_preferences. cbn. rewrite E1, E3, E4, E5, E6, K1, K2, K3, K4, K5. do 4 f_equal. rewrite Ew. cbn. apply trim_idem.
  - cbn. rewrite E2. unfold stored in Er. destruct (String.eqb_spec (relayPath (preferences w)) bundled) as [Eb|Hne]; cbn in Er.
    + subst p. rewrite Er. cbn. rewrite String.eqb_refl. done.
    + assert (Ht : trim (relayPath (preferences w)) = relayPath (preferences w) /\ nonempty (relayPath (preferences w)) = true).
      { rewrite Ew in Hne |- *. cbn in *. destruct (nonempty (trim (executable_edit w))) eqn:Et; [|done]. split; [apply trim_idem|exact Et]. }
      destruct Ht as [Ht Hn]. subst p. rewrite Er, Hn, Er. destruct (String.eqb_spec (relayPath (preferences w)) bundled') as [->|]; [done|]. by rewrite Ht, Hn.
Qed.

(** *** The hotspot *)

Lemma default_dhcp l p : dhcp (fold_left choose_default l p) = dhcp p.
Proof.
  revert p. induction l as [|a l IH]; cbn; intros p; [done|]. rewrite IH. unfold choose_default.
  repeat match goal with |- context [if ?b then _ else _] => destruct b end; done.
Qed.
Lemma choose_hotspot_up l p a : dhcp p = true -> In a l -> hotspot a = true -> up a = true -> is_overlay a = false ->
  exists b, In b l /\ name b = localInterface (choose_hotspot l p) /\ hotspot b = true /\ up b = true.
Proof.
  intros Hd Ha Hh Hu Ho. unfold choose_hotspot. rewrite Hd. cbn [andb].
  destruct (existsb (fun b => String.eqb (name b) (localInterface p) && hotspot b && up b) l) eqn:E; cbn [negb].
  - apply existsb_exists in E as (b & Hb & ((En%String.eqb_eq & ?)%andb_prop & ?)%andb_prop). by exists b.
  - destruct (List.find _ l) as [b|] eqn:F.
    + apply find_some in F as [Hb ((? & ?)%andb_prop & _)%andb_prop]. by exists b.
    + apply find_none with (x := a) in F; [|done]. by rewrite Hh, Hu, Ho in F.
Qed.

(** In automatic mode a refresh chooses the hotspot: when an adapter of the
    host is one, is up and is not the overlay's, the interface for the console is
    a hotspot that is up. *)
Theorem hotspot_preferred o toIPv4Address hostString fromUtf8 toUtf8 encode resolveGuid isExecutable bundled w ips ifs a :
  opened o toIPv4Address hostString fromUtf8 toUtf8 encode resolveGuid isExecutable bundled w -> busy (relay w) = false -> autoMode w = true ->
  In a (discoverAdapters toIPv4Address hostString ifs) -> hotspot a = true -> up a = true -> is_overlay a = false ->
  let w' := refreshAdapters o toIPv4Address hostString resolveGuid isExecutable bundled ips ifs w in
  exists b, In b (adapters w') /\ name b = localInterface (preferences w') /\ hotspot b = true /\ up b = true.
Proof.
  intros Hw Hb Hm Ha Hh Hu Ho w'. destruct (opened_consistent _ _ _ _ _ _ _ _ _ w Hw) as [H _].
  pose proof (cs_widgets _ _ _ _ _ _ _ H) as Ew. assert (Hd : dhcp (preferences w) = true) by (by rewrite Ew).
  assert (Ea : adapters w' = discoverAdapters toIPv4Address hostString ifs) by (by apply refreshed_adapters).
  destruct (refresh_consistent o toIPv4Address hostString resolveGuid isExecutable bundled ips ifs w H) as [H' _]. fold w' in H'.
  rewrite Ea, (cs_widgets _ _ _ _ _ _ _ H'). cbn.
  set (l := discoverAdapters toIPv4Address hostString ifs) in *.
  set (p := fold_left choose_default l (autoSelectOverlayAdapter ips l (preferences w))).
  assert (El : local_box w' = fill l (localInterface (choose_hotspot l p))).
  { subst w'. unfold refreshAdapters. rewrite Hb. unfold Desktop.refreshAdapters. cbv zeta. by rewrite save_box. }
  rewrite El, fill_data. apply (choose_hotspot_up l p a); try done. subst p. rewrite default_dhcp.
  destruct (select_kept ips l (preferences w)) as [Ek _]. unfold kept_preferences in Ek. injection Ek; congruence.
Qed.

(** *** The offers of the setup *)

(** On Windows the window offers an installation exactly when the installer
    would fetch something, and names what it would fetch; on every system the
    button is enabled exactly when it does something. *)
Theorem setup_offers o d :
  (setupDependencies Windows d = InstallMissing <-> winPcap d = false /\ missing d <> []) /\
  (promptForDependencies false Windows d = Some InstallMissing <-> setupDependencies Windows d = InstallMissing) /\
  (winPcap d = false -> missing d <> [] -> (checkDependencies Windows d).1 =
    RMissing (map (fun p => match p with ZeroTier => "ZeroTier One" | Npcap => "Npcap" end)%string (missing d))) /\
  ((checkDependencies o d).2 = true <-> setupDependencies o d <> NoAction).
Proof. destruct d as [[] [] []], o; cbn; repeat split; intros; destruct_and?; done. Qed.

(** *** Addresses given out *)

Lemma codes_app a b : codes (a +:+ b) = codes a ++ codes b.
Proof. unfold codes. induction a as [|c a IH]; [done|]. rewrite string_app_cons. cbn. by rewrite <- IH. Qed.
Lemma codes_free c s : free_of c s -> ~ In (Z.of_nat (nat_of_ascii c)) (codes s).
Proof.
  unfold free_of. induction s as [|d s IH]; cbn; [tauto|]. destruct (Ascii.eqb_spec d c) as [->|Hn]; [by intros|].
  destruct (strchr c s) as [[? ?]|]; [done|]. intros _ [E|E]; [|by apply IH]. apply Hn.
  rewrite <- (ascii_nat_embedding c), <- (ascii_nat_embedding d). f_equal. lia.
Qed.

Lemma split_word u l acc : ~ In 32 u -> rev acc ++ u <> [] -> split_spaces (u ++ 32 :: l) acc = (rev acc ++ u) :: split_spaces l [].
Proof.
  revert acc. induction u as [|c u IH]; cbn; intros acc Hu Hn.
  - rewrite app_nil_r in *. by destruct acc.
  - destruct (Z.eqb_spec c 32) as [->|]; [tauto|]. rewrite IH; [|tauto|]; cbn; rewrite <- app_assoc; done.
Qed.
Lemma split_last u acc : ~ In 32 u -> rev acc ++ u <> [] -> split_spaces u acc = [rev acc ++ u].
Proof.
  revert acc. induction u as [|c u IH]; cbn; intros acc Hu Hn.
  - rewrite app_nil_r in *. by destruct acc.
  - destruct (Z.eqb_spec c 32) as [->|]; [tauto|]. rewrite IH; [|tauto|]; cbn; rewrite <- app_assoc; done.
Qed.

Lemma hex_free mac : bytes mac -> free_of " " (hex_mac mac).
Proof.
  assert (H2 : forall b, is_byte b -> free_of " " (hex2 b)).
  { intros b Hb. assert (Hd : forall v, 0 <= v < 16 -> Ascii.eqb (hex_digit v) " " = false).
    { intros v Hv. assert (Hin : In v (map Z.of_nat (seq 0 16))) by (apply in_map_iff; exists (Z.to_nat v); rewrite in_seq; lia).
      clear Hv. revert v Hin. apply List.Forall_forall. repeat constructor. }
    unfold free_of, hex2. cbn. unfold is_byte in Hb. rewrite !Hd by (Z.to_euclidean_division_equations; lia). done. }
  induction 1 as [|b mac Hb Hm IH]; [done|]. destruct mac as [|c mac]; [by apply H2|].
  change (hex_mac (b :: c :: mac)) with (hex2 b +:+ ":" +:+ hex_mac (c :: mac)).
  apply free_of_app; [by apply H2|]. by apply (free_of_app _ ":").
Qed.

(** An address the DHCP server gives out reaches the user: the line of the
    relay's log, as the application receives it, sets the status of the console
    to the event, with the address and the hardware address in it. *)
Theorem dhcp_event_shown o toIPv4Address hostString resolveGuid isExecutable k mac ip w :
  bytes mac -> bytes ip -> length ip = 4%nat -> length mac = 6%nat ->
  switchStatus (signal o toIPv4Address hostString resolveGuid isExecutable w (LineReceived (codes (dhcp_event k mac ip)))) =
  match k with
  | World.DhcpAssigned => Connected (codes (dotted ip)) (codes (hex_mac mac))
  | World.DhcpOffered => Offering (codes (dotted ip))
  | World.DhcpLost => OtherServer (codes (dotted ip))
  end.
Proof.
  intros Hm Hi Li Lm. cbn [signal]. unfold dhcp_line, dhcp_event, LLog_log.
  assert (Ha : ~ In 32 (codes (dotted ip))) by (apply (codes_free " "); by apply dotted_free).
  assert (Hb : ~ In 32 (codes (hex_mac mac))) by (apply (codes_free " "); by apply hex_free).
  assert (Na : codes (dotted ip) <> []).
  { destruct ip as [|a [|b ip]]; [done..|]. change (dotted (a :: b :: ip)) with (pretty a +:+ String "." (dotted (b :: ip))). rewrite codes_app.
    by destruct (codes (pretty a)). }
  assert (Nb : codes (hex_mac mac) <> []) by (by destruct mac as [|a [|b mac]]).
  set (u := codes (dotted ip)) in *. set (v := codes (hex_mac mac)) in *.
  assert (E : codes ("[" +:+ llog_level_name INFO +:+ "]: " +:+ ("GRID0_DHCP " +:+ kind_name k +:+ " " +:+ dotted ip +:+ " " +:+ hex_mac mac))
    = codes "[INFO]: " ++ dhcp_mark ++ codes (kind_name k) ++ 32 :: u ++ 32 :: v).
  { rewrite !codes_app. by rewrite <- ?app_assoc. }
  rewrite E. clear E. clearbody u v.
  assert (Es : forall l, after_first dhcp_mark (codes "[INFO]: " ++ dhcp_mark ++ l) = Some l) by reflexivity. rewrite Es. clear Es.
  assert (Ew : forall l, split_spaces (dhcp_mark ++ l) [] = codes "GRID0_DHCP" :: split_spaces l []) by reflexivity. rewrite Ew. clear Ew.
  rewrite (split_word (codes (kind_name k))); [|by destruct k; vm_compute; intuition congruence|by destruct k].
  rewrite (split_word u), (split_last v) by done. by destruct k.
Qed.

(** ** Witnesses *)

Definition sample_ifs : list interface := sample_interfaces [10; 42; 9; 123].
Definition sample_window : window :=
  Window Linux qt_reads qt_prints (fun s => s) (fun _ => true) "/opt/grid0-relay" false ∅ [] [] sample_ifs sample_ifs.
Abbreviation sample_whandle := (whandle Linux qt_reads qt_prints (fun l => l) (fun l => l) codes (fun s => s) (fun _ => true) "/opt/grid0-relay").
Abbreviation sample_opened := (opened Linux qt_reads qt_prints (fun l => l) (fun l => l) codes (fun s => s) (fun _ => true) "/opt/grid0-relay").

Lemma sample_opened_window : sample_opened sample_window.
Proof. exists false, ∅, [], [], sample_ifs, sample_ifs. unfold sample_window. apply rtc_refl. Qed.

Lemma started_as_shown_witness : startEnabled (shown sample_window) = true /\
  let w' := sample_whandle (WStart [] sample_ifs sample_host) sample_window in
  current (relay w') = Authorizing /\ gatewayValue (shown w') = "10.42.9.1"%string /\
  exists args pre program words, out (relay w') = out (relay sample_window) ++ pre ++ [Launched program words] /\
    nth 7 args ""%string = "10.42.9.1"%string.
Proof.
  split; [vm_compute; reflexivity|]. cbv zeta.
  assert (Eg : gatewayValue (shown (sample_whandle (WStart [] sample_ifs sample_host) sample_window)) = "10.42.9.1"%string) by (vm_compute; reflexivity).
  split; [vm_compute; reflexivity|]. split; [exact Eg|].
  destruct (started_as_shown Linux qt_reads qt_prints (fun l => l) (fun l => l) codes (fun s => s) (fun _ => true) "/opt/grid0-relay"
    sample_window [] sample_ifs sample_host sample_opened_window) as (_ & args & pre & program & words & Ho & _ & _ & _ & _ & Hg);
    [vm_compute; reflexivity|reflexivity|reflexivity|vm_compute; reflexivity|vm_compute; reflexivity|].
  exists args, pre, program, words. split; [exact Ho|]. rewrite Hg. exact Eg.
Defined.

Definition sample_running : window := sample_whandle (WStart [] sample_ifs sample_host) sample_window.
Lemma close_completes_witness : current (relay (sample_whandle WClose sample_running)) = Stopping.
Proof.
  assert (Ho : sample_opened sample_running) by (apply opened_step; [apply sample_opened_window|vm_compute; reflexivity]).
  destruct (close_completes Linux qt_reads qt_prints (fun l => l) (fun l => l) codes (fun s => s) (fun _ => true) "/opt/grid0-relay" sample_running Ho)
    as (_ & H & _). apply H; vm_compute; reflexivity.
Defined.

Lemma settings_survive_witness :
  relayPath (preferences (Window Linux qt_reads qt_prints (fun s => s) (fun _ => true) "/tmp/grid0-relay" false (store sample_window) [] [] [] [])) = "/tmp/grid0-relay"%string.
Proof.
  destruct (settings_survive Linux qt_reads qt_prints (fun l => l) (fun l => l) codes (fun s => s) (fun _ => true) "/opt/grid0-relay" "/tmp/grid0-relay"
    sample_window (store sample_window) [] [] [] [] sample_opened_window) as [_ E]; [vm_compute; reflexivity|by left|]. exact E.
Defined.
