(* ===== verification/Tcp.v ===== *)
(** * Tcp: the receiving and sending queues of the TCP/IP stack

    The part of lwIP that carries a console's connection: [tcp_receive] and
    [tcp_process] of tcp_in.c, the operations of tcp.c on a protocol control
    block, and the retransmission and output of tcp_out.c, in the configuration
    of the relay (lwip/custom/lwipopts.h: no window scaling, no timestamps, a
    segment size of 512 and a window of four segments).

    A segment is its header fields and the bytes of its packet buffer, as the
    theorems of [Pbuf] allow: [pbuf_realloc] keeps a front of the bytes,
    [pbuf_header] drops one and [pbuf_cat] appends.  The buffer a queued segment
    shares with the incoming one is not used through the latter any more.  A
    linked list of segments is a list.  The static variables that hold the
    incoming segment are the record [input].  A failing [LWIP_ASSERT] stops the
    process. *)

From S2P Require Import Prelude Bytes.

#[local] Open Scope Z_scope.

(** ** Numbers *)

Definition s16 (z : Z) : Z := (z + 32768) mod 65536 - 32768.
Definition s32 (z : Z) : Z := (z + 2147483648) mod 4294967296 - 2147483648.

Definition TCP_SEQ_LT (a b : Z) : bool := s32 (a - b) <? 0.
Definition TCP_SEQ_LEQ (a b : Z) : bool := s32 (a - b) <=? 0.
Definition TCP_SEQ_GT (a b : Z) : bool := 0 <? s32 (a - b).
Definition TCP_SEQ_GEQ (a b : Z) : bool := 0 <=? s32 (a - b).
Definition TCP_SEQ_BETWEEN (a b c : Z) : bool := TCP_SEQ_GEQ a b && TCP_SEQ_LEQ a c.

(** [f & m], as a condition *)
Definition has (f m : Z) : bool := negb (Z.land f m =? 0).
(** [f & ~m] *)
Definition without (f m : Z) : Z := Z.ldiff f m.

Definition TCP_FIN : Z := 1.
Definition TCP_SYN : Z := 2.
Definition TCP_RST : Z := 4.
Definition TCP_PSH : Z := 8.
Definition TCP_ACK : Z := 16.

Definition TF_ACK_DELAY : Z := 1.
Definition TF_ACK_NOW : Z := 2.
Definition TF_INFR : Z := 4.
Definition TF_CLOSEPEND : Z := 8.
Definition TF_RXCLOSED : Z := 16.
Definition TF_FIN : Z := 32.
Definition TF_NODELAY : Z := 64.
Definition TF_NAGLEMEMERR : Z := 128.

Definition TF_RESET : Z := 8.
Definition TF_CLOSED : Z := 16.
Definition TF_GOT_FIN : Z := 32.

Definition TCP_MSS : Z := 512.
Definition TCP_WND : Z := 4 * TCP_MSS.
Definition TCP_SND_BUF : Z := 16384.
Definition TCP_SND_QUEUELEN : Z := 4 * TCP_SND_BUF / TCP_MSS.
Definition TCP_WND_UPDATE_THRESHOLD : Z := Z.min (TCP_WND / 4) (TCP_MSS * 4).
Definition TCP_SYNMAXRTX : Z := 6.

Definition ERR_OK : Z := 0.
Definition ERR_MEM : Z := -1.
Definition ERR_BUF : Z := -2.
Definition ERR_RTE : Z := -4.
Definition ERR_VAL : Z := -6.
Definition ERR_CONN : Z := -11.
Definition ERR_ABRT : Z := -13.
Definition ERR_RST : Z := -14.

(** ** Segments and control blocks *)

(** [s_p] is the data behind the header and its options, [s_flags] the flags of
    the header, [s_clen] the number of packet buffers and [s_optlen] the length
    of the options *)
Record tcp_seg := mkSeg { s_seqno : Z; s_len : Z; s_p : list Z; s_flags : Z; s_clen : Z; s_optlen : Z }.
#[global] Instance eta_tcp_seg : Eta tcp_seg := fun r => mkSeg (s_seqno r) (s_len r) (s_p r) (s_flags r) (s_clen r) (s_optlen r).

Definition TCP_TCPLEN (s : tcp_seg) : Z := s_len s + (if has (s_flags s) (Z.lor TCP_FIN TCP_SYN) then 1 else 0).
Definition fin (s : tcp_seg) : bool := has (s_flags s) TCP_FIN.

(** the length is set and the buffer is cut to it *)
Definition cut (len : Z) (s : tcp_seg) : tcp_seg := s <| s_len := u16 len |> <| s_p ::= firstn (Z.to_nat (u16 len)) |>.

Inductive tcp_state := CLOSED | LISTEN | SYN_SENT | SYN_RCVD | ESTABLISHED | FIN_WAIT_1 | FIN_WAIT_2 | CLOSE_WAIT | CLOSING | LAST_ACK | TIME_WAIT.
#[export] Instance tcp_state_eq_dec : EqDecision tcp_state.
Proof. solve_decision. Defined.
Definition state_num (s : tcp_state) : Z :=
  match s with
  | CLOSED => 0 | LISTEN => 1 | SYN_SENT => 2 | SYN_RCVD => 3 | ESTABLISHED => 4 | FIN_WAIT_1 => 5 | FIN_WAIT_2 => 6
  | CLOSE_WAIT => 7 | CLOSING => 8 | LAST_ACK => 9 | TIME_WAIT => 10
  end.

Record tcp_pcb := mkPcb {
  state : tcp_state;
  pflags : Z;
  polltmr : Z;
  tmr : Z;
  rcv_nxt : Z;
  rcv_wnd : Z;
  rcv_ann_wnd : Z;
  rcv_ann_right_edge : Z;
  rtime : Z;
  mss : Z;
  rttest : Z;
  rtseq : Z;
  sa : Z;
  sv : Z;
  rto : Z;
  nrtx : Z;
  dupacks : Z;
  lastack : Z;
  cwnd : Z;
  ssthresh : Z;
  snd_nxt : Z;
  snd_wl1 : Z;
  snd_wl2 : Z;
  snd_lbb : Z;
  snd_wnd : Z;
  snd_wnd_max : Z;
  snd_buf : Z;
  snd_queuelen : Z;
  unsent_oversize : Z;
  unsent : list tcp_seg;
  unacked : list tcp_seg;
  ooseq : list tcp_seg;
  refused_data : option (list Z);
  persist_cnt : Z;
  persist_backoff : Z;
  keep_cnt_sent : Z
}.
#[global] Instance eta_tcp_pcb : Eta tcp_pcb := fun r =>
  mkPcb (state r) (pflags r) (polltmr r) (tmr r) (rcv_nxt r) (rcv_wnd r) (rcv_ann_wnd r) (rcv_ann_right_edge r) (rtime r) (mss r)
    (rttest r) (rtseq r) (sa r) (sv r) (rto r) (nrtx r) (dupacks r) (lastack r) (cwnd r) (ssthresh r) (snd_nxt r) (snd_wl1 r) (snd_wl2 r)
    (snd_lbb r) (snd_wnd r) (snd_wnd_max r) (snd_buf r) (snd_queuelen r) (unsent_oversize r) (unsent r) (unacked r) (ooseq r)
    (refused_data r) (persist_cnt r) (persist_backoff r) (keep_cnt_sent r).

(** the static variables of tcp_in.c; [held] tells whether [inseg.p] is still
    there, [options] are the options of the header and [behind] the bytes that
    follow them in the buffer, [recv_data] is the data for the application *)
Record input := mkInput {
  inseg : tcp_seg; held : bool; seqno : Z; ackno : Z; tcplen : Z; flags : Z; wnd : Z; options : list Z; behind : list Z;
  recv_acked : Z; recv_flags : Z; recv_data : option (list Z)
}.
#[global] Instance eta_input : Eta input := fun r =>
  mkInput (inseg r) (held r) (seqno r) (ackno r) (tcplen r) (flags r) (wnd r) (options r) (behind r) (recv_acked r) (recv_flags r) (recv_data r).

(** what the stack sends *)
Inductive sent := Ack (seq ack window : Z) | Segment (s : tcp_seg) (ack window : Z) | Rst (seq ack : Z).

Record tcp := mkTcp { pcb : tcp_pcb; inp : input; net : list sent }.
#[global] Instance eta_tcp : Eta tcp := fun r => mkTcp (pcb r) (inp r) (net r).

(** updates of concrete records are computed *)
Ltac fields :=
  cbv beta iota delta [set pcb inp net
    state pflags polltmr tmr rcv_nxt rcv_wnd rcv_ann_wnd rcv_ann_right_edge rtime mss rttest rtseq sa sv rto nrtx dupacks lastack cwnd ssthresh snd_nxt
    snd_wl1 snd_wl2 snd_lbb snd_wnd snd_wnd_max snd_buf snd_queuelen unsent_oversize unsent unacked ooseq refused_data persist_cnt persist_backoff keep_cnt_sent
    inseg held seqno ackno tcplen flags wnd options behind recv_acked recv_flags recv_data].

(** [LWIP_ASSERT] *)
Definition check {A} (b : bool) (k : outcome A) : outcome A := if b then k else Stop AssertFail.

(** ** Control blocks: tcp.c *)

Definition tcp_ack_now (p : tcp_pcb) : tcp_pcb := p <| pflags ::= (fun f => Z.lor f TF_ACK_NOW) |>.
Definition tcp_ack (p : tcp_pcb) : tcp_pcb :=
  if has (pflags p) TF_ACK_DELAY then p <| pflags ::= (fun f => Z.lor (without f TF_ACK_DELAY) TF_ACK_NOW) |>
  else p <| pflags ::= (fun f => Z.lor f TF_ACK_DELAY) |>.

(** the value returned is how much the window would be enlarged *)
Definition tcp_update_rcv_ann_wnd (p : tcp_pcb) : outcome (tcp_pcb * Z) :=
  let new_right_edge := u32 (rcv_nxt p + rcv_wnd p) in
  if TCP_SEQ_GEQ new_right_edge (rcv_ann_right_edge p + Z.min (TCP_WND / 2) (mss p)) then
    Ok (p <| rcv_ann_wnd := rcv_wnd p |>, u32 (new_right_edge - rcv_ann_right_edge p))
  else if TCP_SEQ_GT (rcv_nxt p) (rcv_ann_right_edge p) then Ok (p <| rcv_ann_wnd := 0 |>, 0)
  else
    let new_rcv_ann_wnd := u32 (rcv_ann_right_edge p - rcv_nxt p) in
    check (new_rcv_ann_wnd <=? 65535) (Ok (p <| rcv_ann_wnd := u16 new_rcv_ann_wnd |>, 0)).

Definition tcp_pcb_purge (p : tcp_pcb) : tcp_pcb :=
  match state p with
  | CLOSED | TIME_WAIT | LISTEN => p
  | _ => p <| refused_data := None |> <| ooseq := [] |> <| rtime := -1 |> <| unsent := [] |> <| unacked := [] |> <| unsent_oversize := 0 |>
  end.

(** a new block: [tcp_alloc], without its search for memory *)
Definition new_pcb (ticks : Z) : tcp_pcb :=
  mkPcb CLOSED 0 0 ticks 0 TCP_WND TCP_WND 0 (-1) (Z.min TCP_MSS 536) 0 0 0 6 6 0 0 0 1 TCP_SND_BUF 0 0 0 0 0 0 TCP_SND_BUF 0 0 [] [] [] None 0 0 0.

(** ** Sending: tcp_out.c *)

(** what becomes of a packet: no buffer for it, no route or a failing
    interface, or it is sent *)
Inductive delivery := NoBuffer | NotSent (err : Z) | Delivered.

Definition tcp_send_empty_ack (d : delivery) (t : tcp) : tcp :=
  let retry p := p <| pflags ::= (fun f => Z.lor f (Z.lor TF_ACK_DELAY TF_ACK_NOW)) |> in
  let announced p := p <| rcv_ann_right_edge := u32 (rcv_nxt p + rcv_ann_wnd p) |> in
  match d with
  | NoBuffer => t <| pcb ::= retry |>
  | NotSent _ => t <| pcb ::= (fun p => retry (announced p)) |>
  | Delivered =>
    t <| pcb ::= (fun p => announced p <| pflags ::= (fun f => without f (Z.lor TF_ACK_DELAY TF_ACK_NOW)) |>) |>
      <| net ::= (fun n => n ++ [Ack (snd_nxt (pcb t)) (rcv_nxt (pcb t)) (rcv_ann_wnd (pcb t))]) |>
  end.

(** insertion before the first segment that does not come before [s]: the two
    loops over [cur_seg] *)
Fixpoint insert_sorted (s : tcp_seg) (l : list tcp_seg) : list tcp_seg :=
  match l with
  | [] => [s]
  | c :: l' => if TCP_SEQ_LT (s_seqno c) (s_seqno s) then c :: insert_sorted s l' else s :: c :: l'
  end.

Definition tcp_rexmit (p : tcp_pcb) : tcp_pcb :=
  match unacked p with
  | [] => p
  | seg :: rest =>
    let queue := insert_sorted seg (unsent p) in
    p <| unacked := rest |> <| unsent := queue |>
      <| unsent_oversize := if forallb (fun c => TCP_SEQ_LT (s_seqno c) (s_seqno seg)) (unsent p) then 0 else unsent_oversize p |>
      <| nrtx := if nrtx p <? 255 then nrtx p + 1 else nrtx p |>
      <| rttest := 0 |>
  end.

Definition tcp_rexmit_fast (p : tcp_pcb) : tcp_pcb :=
  match unacked p with
  | [] => p
  | _ =>
    if has (pflags p) TF_INFR then p else
    let p := tcp_rexmit p in
    let half := Z.min (cwnd p) (snd_wnd p) / 2 in
    let thresh := if half <? 2 * mss p then u16 (2 * mss p) else half in
    p <| ssthresh := thresh |> <| cwnd := u16 (thresh + 3 * mss p) |> <| pflags ::= (fun f => Z.lor f TF_INFR) |> <| rtime := 0 |>
  end.

(** ** The incoming segment: tcp_in.c *)

(** the choices of the environment in one run of [tcp_receive]: the timer, the
    memory for a queued segment, the fate of the acknowledgements and of a
    reset, and the transfer unit of the route with the length of its headers *)
Record world := mkWorld {
  tcp_ticks : Z; seg_memory : bool; ack_sent : delivery; ack_sent2 : delivery; rst_sent : delivery; mtu : Z; ip_hlen : Z
}.

(** *** The acknowledgement *)

Definition update_snd_wnd (i : input) (p : tcp_pcb) : tcp_pcb :=
  if TCP_SEQ_LT (snd_wl1 p) (seqno i) || (snd_wl1 p =? seqno i) && TCP_SEQ_LT (snd_wl2 p) (ackno i)
     || (snd_wl2 p =? ackno i) && (snd_wnd p <? wnd i) then
    let p := p <| snd_wnd := wnd i |> <| snd_wnd_max ::= (fun m => if m <? wnd i then wnd i else m) |>
               <| snd_wl1 := seqno i |> <| snd_wl2 := ackno i |> in
    if snd_wnd p =? 0 then
      if persist_backoff p =? 0 then p <| persist_cnt := 0 |> <| persist_backoff := 1 |> else p
    else if 0 <? persist_backoff p then p <| persist_backoff := 0 |> else p
  else p.

Definition count_dupack (right_wnd_edge : Z) (i : input) (p : tcp_pcb) : tcp_pcb :=
  if (tcplen i =? 0) && (u32 (snd_wl2 p + snd_wnd p) =? right_wnd_edge) && (0 <=? rtime p) && (lastack p =? ackno i) then
    let p := if dupacks p <? u8 (dupacks p + 1) then p <| dupacks ::= (fun d => d + 1) |> else p in
    if 3 <? dupacks p then
      if cwnd p <? u16 (cwnd p + mss p) then p <| cwnd ::= (fun c => c + mss p) |> else p
    else if dupacks p =? 3 then tcp_rexmit_fast p
    else p
  else p <| dupacks := 0 |>.

Definition grow_cwnd (p : tcp_pcb) : outcome tcp_pcb :=
  if state_num ESTABLISHED <=? state_num (state p) then
    if cwnd p <? ssthresh p then
      Ok (if cwnd p <? u16 (cwnd p + mss p) then p <| cwnd ::= (fun c => c + mss p) |> else p)
    else if cwnd p =? 0 then Stop DivByZero
    else
      let new_cwnd := u16 (cwnd p + mss p * mss p / cwnd p) in
      Ok (if cwnd p <? new_cwnd then p <| cwnd := new_cwnd |> else p)
  else Ok p.

(** a segment that was acknowledged leaves the queue *)
Definition free_acked_seg (next : tcp_seg) (t : tcp) : outcome tcp :=
  check (s_clen next <=? snd_queuelen (pcb t))
    (let t := t <| pcb ::= (fun p => p <| snd_queuelen ::= (fun q => q - s_clen next) |>) |>
                <| inp ::= (fun i => i <| recv_acked ::= (fun r => u16 (r + s_len next)) |>) |> in
     check ((snd_queuelen (pcb t) =? 0) || negb (bool_decide (unacked (pcb t) = [])) || negb (bool_decide (unsent (pcb t) = []))) (Ok t)).

(** the loops over [pcb->unacked] and [pcb->unsent] *)
Fixpoint free_unacked (l : list tcp_seg) (t : tcp) : outcome tcp :=
  match l with
  | next :: rest =>
    if TCP_SEQ_LEQ (s_seqno next + TCP_TCPLEN next) (ackno (inp t)) then
      try t := free_acked_seg next (t <| pcb ::= (fun p => p <| unacked := rest |>) |>) in free_unacked rest t
    else Ok t
  | [] => Ok t
  end.
Fixpoint free_unsent (l : list tcp_seg) (t : tcp) : outcome tcp :=
  match l with
  | next :: rest =>
    if TCP_SEQ_BETWEEN (ackno (inp t)) (s_seqno next + TCP_TCPLEN next) (snd_nxt (pcb t)) then
      let emptied p := if bool_decide (rest = []) then p <| unsent_oversize := 0 |> else p in
      try t := free_acked_seg next (t <| pcb ::= (fun p => emptied (p <| unsent := rest |>)) |>) in free_unsent rest t
    else Ok t
  | [] => Ok t
  end.

(** the end of a fast retransmission, and the variables of the retransmission *)
Definition note_ack (ack : Z) (p : tcp_pcb) : tcp_pcb :=
  let p := if has (pflags p) TF_INFR then p <| pflags ::= (fun f => without f TF_INFR) |> <| cwnd := ssthresh p |> else p in
  p <| nrtx := 0 |> <| rto := s16 (Z.shiftr (sa p) 3 + sv p) |> <| dupacks := 0 |> <| lastack := ack |>.

(** the acknowledgement is for new data *)
Definition ack_new_data (t : tcp) : outcome tcp :=
  try p := grow_cwnd (note_ack (ackno (inp t)) (pcb t)) in
  try t := free_unacked (unacked p) (t <| pcb := p |>) in
  Ok (t <| pcb ::= (fun p => p <| rtime := if bool_decide (unacked p = []) then -1 else 0 |> <| polltmr := 0 |>) |>).

Definition estimate_rtt (ticks : Z) (i : input) (p : tcp_pcb) : tcp_pcb :=
  if negb (rttest p =? 0) && TCP_SEQ_LT (rtseq p) (ackno i) then
    let m := s16 (s16 (ticks - rttest p) - Z.shiftr (sa p) 3) in
    let sa' := s16 (sa p + m) in
    let m := if m <? 0 then s16 (- m) else m in
    let sv' := s16 (sv p + s16 (m - Z.shiftr (sv p) 2)) in
    p <| sa := sa' |> <| sv := sv' |> <| rto := s16 (Z.shiftr sa' 3 + sv') |> <| rttest := 0 |>
  else p.

Definition receive_ack (w : world) (t : tcp) : outcome tcp :=
  let right_wnd_edge := u32 (snd_wnd (pcb t) + snd_wl2 (pcb t)) in
  let t := t <| pcb ::= update_snd_wnd (inp t) |> in
  try t :=
    if TCP_SEQ_LEQ (ackno (inp t)) (lastack (pcb t)) then Ok (t <| pcb ::= count_dupack right_wnd_edge (inp t) |>)
    else if TCP_SEQ_BETWEEN (ackno (inp t)) (lastack (pcb t) + 1) (snd_nxt (pcb t)) then ack_new_data t
    else Ok (tcp_send_empty_ack (ack_sent w) t) in
  try t := free_unsent (unsent (pcb t)) t in
  let t := t <| pcb ::= (fun p => p <| snd_buf ::= (fun b => u16 (b + recv_acked (inp t))) |>) |> in
  Ok (t <| pcb ::= estimate_rtt (tcp_ticks w) (inp t) |>).

(** *** The data *)

(** the front that was received before is dropped; a segment that was received
    entirely is acknowledged at once *)
Definition trim_front (t : tcp) : outcome tcp :=
  let i := inp t in
  let p := pcb t in
  if TCP_SEQ_BETWEEN (rcv_nxt p) (seqno i + 1) (seqno i + tcplen i - 1) then
    let off := s32 (rcv_nxt p - seqno i) in
    check (held i)
      (check (off <? 32767)
        (check (off <=? blen (s_p (inseg i)))
          (Ok (t <| inp := i <| inseg ::= (fun s => s <| s_p ::= skipn (Z.to_nat off) |> <| s_len ::= (fun n => u16 (n - u16 off)) |>
                                               <| s_seqno := rcv_nxt p |>) |>
                             <| seqno := rcv_nxt p |> |>))))
  else if TCP_SEQ_LT (seqno i) (rcv_nxt p) then Ok (t <| pcb ::= tcp_ack_now |>)
  else Ok t.

(** the end beyond the receive window is dropped *)
Definition trim_to_window (t : tcp) : outcome tcp :=
  let t := t <| inp ::= (fun i => i <| tcplen := u16 (TCP_TCPLEN (inseg i)) |>) |> in
  let p := pcb t in
  if rcv_wnd p <? tcplen (inp t) then
    let s := (inseg (inp t)) <| s_flags ::= (fun f => without f TCP_FIN) |> in
    let s := cut (rcv_wnd p - (if has (s_flags s) TCP_SYN then 1 else 0)) s in
    let t := t <| inp ::= (fun i => i <| inseg := s |> <| tcplen := u16 (TCP_TCPLEN s) |>) |> in
    check (u32 (seqno (inp t) + tcplen (inp t)) =? u32 (rcv_nxt p + rcv_wnd p)) (Ok t)
  else Ok t.

(** the segments of [ooseq] that the incoming one covers are removed *)
Fixpoint drop_covered (i : input) (l : list tcp_seg) : input * list tcp_seg :=
  match l with
  | next :: rest =>
    if TCP_SEQ_GEQ (seqno i + tcplen i) (s_seqno next + s_len next) then
      let i :=
        if fin next && negb (has (s_flags (inseg i)) TCP_SYN) then
          let s := (inseg i) <| s_flags ::= (fun f => Z.lor f TCP_FIN) |> in i <| inseg := s |> <| tcplen := u16 (TCP_TCPLEN s) |>
        else i in
      drop_covered i rest
    else (i, l)
  | [] => (i, [])
  end.

Definition adjust_ooseq (t : tcp) : outcome tcp :=
  match ooseq (pcb t) with
  | [] => Ok t
  | l =>
    if fin (inseg (inp t)) then Ok (t <| pcb ::= (fun p => p <| ooseq := [] |>) |>)
    else
      let '(i, next) := drop_covered (inp t) l in
      try i :=
        match next with
        | n :: _ =>
          if TCP_SEQ_GT (seqno i + tcplen i) (s_seqno n) then
            let len := u16 (s_seqno n - seqno i) in
            let s := cut (len - (if has (s_flags (inseg i)) TCP_SYN then 1 else 0)) (inseg i) in
            let i := i <| inseg := s |> <| tcplen := u16 (TCP_TCPLEN s) |> in
            check (u32 (seqno i + tcplen i) =? s_seqno n) (Ok i)
          else Ok i
        | [] => Ok i
        end in
      Ok (t <| inp := i |> <| pcb ::= (fun p => p <| ooseq := next |>) |>)
  end.

(** [rcv_nxt] moves past [len], within the window *)
Definition advance (len : Z) (p : tcp_pcb) : outcome tcp_pcb :=
  let p := p <| rcv_nxt ::= (fun n => u32 (n + len)) |> in
  check (len <=? rcv_wnd p)
    (try '(p, _) := tcp_update_rcv_ann_wnd (p <| rcv_wnd ::= (fun n => n - len) |>) in Ok p).

(** bytes for the application *)
Definition recv_cat (d : list Z) (i : input) : input :=
  i <| recv_data ::= (fun r => match r with Some q => Some (q ++ d) | None => Some d end) |>.

(** the segments of [ooseq] that are in sequence now *)
Fixpoint dequeue_ooseq (l : list tcp_seg) (t : tcp) : outcome tcp :=
  match l with
  | cseg :: rest =>
    if s_seqno cseg =? rcv_nxt (pcb t) then
      try p := advance (TCP_TCPLEN cseg) (pcb t) in
      let i := (inp t) <| seqno := s_seqno cseg |> in
      let i := if 0 <? blen (s_p cseg) then recv_cat (s_p cseg) i else i in
      let i := if fin cseg then i <| recv_flags ::= (fun f => Z.lor f TF_GOT_FIN) |> else i in
      let p := if fin cseg && bool_decide (state p = ESTABLISHED) then p <| state := CLOSE_WAIT |> else p in
      dequeue_ooseq rest (t <| pcb := p <| ooseq := rest |> |> <| inp := i |>)
    else Ok t
  | [] => Ok t
  end.

(** the segment is the next in sequence *)
Definition receive_in_order (t : tcp) : outcome tcp :=
  try t := trim_to_window t in
  try t := adjust_ooseq t in
  try p := advance (tcplen (inp t)) ((pcb t) <| rcv_nxt := seqno (inp t) |>) in
  let i := inp t in
  let s := inseg i in
  let i := if 0 <? blen (s_p s) then i <| recv_data := Some (s_p s) |> <| held := false |> else i in
  let i := if fin s then i <| recv_flags ::= (fun f => Z.lor f TF_GOT_FIN) |> else i in
  try t := dequeue_ooseq (ooseq p) (t <| pcb := p |> <| inp := i |>) in
  Ok (t <| pcb ::= tcp_ack |>).

(** [cseg] in front of [next], the segments it covers removed *)
Fixpoint drop_behind (sq : Z) (cseg : tcp_seg) (next : list tcp_seg) : tcp_seg * list tcp_seg :=
  match next with
  | n :: rest =>
    if TCP_SEQ_GEQ (sq + s_len cseg) (s_seqno n + s_len n) then
      drop_behind sq (if fin n then cseg <| s_flags ::= (fun f => Z.lor f TCP_FIN) |> else cseg) rest
    else (cseg, next)
  | [] => (cseg, [])
  end.
Definition tcp_oos_insert_segment (sq : Z) (cseg : tcp_seg) (next : list tcp_seg) : list tcp_seg :=
  if fin cseg then [cseg]
  else
    let '(cseg, next) := drop_behind sq cseg next in
    match next with
    | n :: _ => (if TCP_SEQ_GT (sq + s_len cseg) (s_seqno n) then cut (s_seqno n - sq) cseg else cseg) :: next
    | [] => [cseg]
    end.

(** the end of [prev] that lies behind [sq] is dropped *)
Definition trim_prev (sq : Z) (prev : tcp_seg) : tcp_seg :=
  if TCP_SEQ_GT (s_seqno prev + s_len prev) sq then cut (sq - s_seqno prev) prev else prev.

(** [inseg] behind the last segment: the part beyond the window is dropped *)
Definition trim_overrun (p : tcp_pcb) (i : input) : outcome (input * tcp_seg) :=
  let s := inseg i in
  if TCP_SEQ_GT (tcplen i + seqno i) (rcv_nxt p + rcv_wnd p) then
    let s := cut (rcv_nxt p + rcv_wnd p - seqno i) (s <| s_flags ::= (fun f => without f TCP_FIN) |>) in
    let i := i <| tcplen := u16 (TCP_TCPLEN s) |> in
    check (u32 (seqno i + tcplen i) =? u32 (rcv_nxt p + rcv_wnd p)) (Ok (i, s))
  else Ok (i, s).

(** The loop that finds the place of the incoming segment: the queue up to
    [prev], [prev] and [next] on.  [memory] is whether [tcp_seg_copy] succeeds;
    when it fails the queue stays. *)
Fixpoint queue_ooseq (memory : bool) (p : tcp_pcb) (i : input) (prev : option tcp_seg) (l : list tcp_seg) : outcome (input * list tcp_seg) :=
  let pre := match prev with Some q => [q] | None => [] end in
  match l with
  | [] => Ok (i, pre)
  | next :: rest =>
    if seqno i =? s_seqno next then
      if (s_len next <? s_len (inseg i)) && memory then Ok (i, pre ++ tcp_oos_insert_segment (seqno i) (inseg i) l)
      else Ok (i, pre ++ l)
    else
      let here :=
        match prev with
        | None => TCP_SEQ_LT (seqno i) (s_seqno next)
        | Some q => TCP_SEQ_BETWEEN (seqno i) (s_seqno q + 1) (s_seqno next - 1)
        end in
      if here then
        if memory then Ok (i, map (trim_prev (seqno i)) pre ++ tcp_oos_insert_segment (seqno i) (inseg i) l)
        else Ok (i, pre ++ l)
      else
        match rest with
        | [] =>
          if TCP_SEQ_GT (seqno i) (s_seqno next) then
            if fin next || negb memory then Ok (i, pre ++ l)
            else
              try '(i', s) := trim_overrun p i in
              Ok (i', pre ++ [trim_prev (seqno i) next; s])
          else Ok (i, pre ++ l)
        | _ =>
          try '(i', r) := queue_ooseq memory p i (Some next) rest in Ok (i', pre ++ r)
        end
  end.

(** the segment is beyond [rcv_nxt]; an empty queue takes it as it is *)
Definition receive_out_of_order (w : world) (t : tcp) : outcome tcp :=
  let t := tcp_send_empty_ack (ack_sent2 w) t in
  match ooseq (pcb t) with
  | [] => Ok (t <| pcb ::= (fun p => p <| ooseq := if seg_memory w then [inseg (inp t)] else [] |>) |>)
  | l =>
    try '(i, l) := queue_ooseq (seg_memory w) (pcb t) (inp t) None l in
    Ok (t <| inp := i |> <| pcb ::= (fun p => p <| ooseq := l |>) |>)
  end.

Definition receive_data (w : world) (t : tcp) : outcome tcp :=
  try t := trim_front t in
  if TCP_SEQ_BETWEEN (seqno (inp t)) (rcv_nxt (pcb t)) (rcv_nxt (pcb t) + rcv_wnd (pcb t) - 1) then
    if rcv_nxt (pcb t) =? seqno (inp t) then receive_in_order t else receive_out_of_order w t
  else Ok (tcp_send_empty_ack (ack_sent2 w) t).

Definition tcp_receive (w : world) (t : tcp) : outcome tcp :=
  check (state_num ESTABLISHED <=? state_num (state (pcb t)))
    (try t := if has (flags (inp t)) TCP_ACK then receive_ack w t else Ok t in
     if (0 <? tcplen (inp t)) && (state_num (state (pcb t)) <? state_num CLOSE_WAIT) then receive_data w t
     else if TCP_SEQ_BETWEEN (seqno (inp t)) (rcv_nxt (pcb t)) (rcv_nxt (pcb t) + rcv_wnd (pcb t) - 1) then Ok t
     else Ok (t <| pcb ::= tcp_ack_now |>)).

(** ** Output *)

(** what becomes of a segment of the queue: its buffer is still referenced by
    the interface, or [ip_output_if] returns [err] *)
Inductive fate := Busy | Output (err : Z).

(** the choices of the environment in one run of [tcp_output]: the timer,
    whether there is a route with a local address, the fate of each segment in
    turn (sent when the list is over) and of an empty acknowledgement *)
Record link := mkLink { link_ticks : Z; route : bool; fates : list fate; empty_ack : delivery }.

(** the header of the segment is completed and it is sent *)
Definition tcp_output_segment (ticks : Z) (f : fate) (seg : tcp_seg) (t : tcp) : tcp * Z :=
  match f with
  | Busy => (t, ERR_OK)
  | Output err =>
    let p := (pcb t) <| rcv_ann_right_edge := u32 (rcv_nxt (pcb t) + rcv_ann_wnd (pcb t)) |> <| rtime ::= (fun r => if r <? 0 then 0 else r) |> in
    let p := if rttest p =? 0 then p <| rttest := ticks |> <| rtseq := s_seqno seg |> else p in
    (t <| pcb := p |>
       <| net ::= (fun n => if err =? ERR_OK then n ++ [Segment seg (rcv_nxt p) (rcv_ann_wnd p)] else n) |>, err)
  end.

Definition tcp_do_output_nagle (p : tcp_pcb) : bool :=
  bool_decide (unacked p = []) || has (pflags p) (Z.lor TF_NODELAY TF_INFR)
  || match unsent p with [] => false | s :: rest => negb (bool_decide (rest = [])) || (mss p <=? s_len s) end
  || (snd_buf p =? 0) || (TCP_SND_QUEUELEN <=? snd_queuelen p).

(** [seg] on the queue of the unacknowledged segments, which stays sorted *)
Definition unacked_insert (seg : tcp_seg) (l : list tcp_seg) : list tcp_seg :=
  match list.last l with
  | None => [seg]
  | Some useg => if TCP_SEQ_LT (s_seqno seg) (s_seqno useg) then insert_sorted seg l else l ++ [seg]
  end.

(** does the segment lie beyond the window? *)
Definition beyond (w : Z) (p : tcp_pcb) (seg : tcp_seg) : bool := w <? u32 (s_seqno seg - lastack p + s_len seg).

(** the first unsent segment was sent *)
Definition segment_sent (seg : tcp_seg) (rest : list tcp_seg) (p : tcp_pcb) : tcp_pcb :=
  let p := p <| unsent := rest |> in
  let p := if bool_decide (state p = SYN_SENT) then p else p <| pflags ::= (fun f => without f (Z.lor TF_ACK_DELAY TF_ACK_NOW)) |> in
  let next := u32 (s_seqno seg + TCP_TCPLEN seg) in
  let p := if TCP_SEQ_LT (snd_nxt p) next then p <| snd_nxt := next |> else p in
  if 0 <? TCP_TCPLEN seg then p <| unacked ::= unacked_insert seg |> else p.

(** the loop over [pcb->unsent]; the error is the one of the segment that could
    not be sent *)
Fixpoint output_loop (ticks w : Z) (l : list tcp_seg) (fs : list fate) (t : tcp) : outcome (tcp * Z) :=
  match l with
  | [] => Ok (t, ERR_OK)
  | seg :: rest =>
    if beyond w (pcb t) seg then Ok (t, ERR_OK)
    else
      check (negb (has (s_flags seg) TCP_RST))
        (if negb (tcp_do_output_nagle (pcb t)) && negb (has (pflags (pcb t)) (Z.lor TF_NAGLEMEMERR TF_FIN)) then Ok (t, ERR_OK)
         else
           let seg := if bool_decide (state (pcb t) = SYN_SENT) then seg else seg <| s_flags ::= (fun f => Z.lor f TCP_ACK) |> in
           let '(t, err) := tcp_output_segment ticks (hd (Output ERR_OK) fs) seg (t <| pcb ::= (fun p => p <| unsent := seg :: rest |>) |>) in
           if negb (err =? ERR_OK) then Ok (t <| pcb ::= (fun p => p <| pflags ::= (fun f => Z.lor f TF_NAGLEMEMERR) |>) |>, err)
           else output_loop ticks w rest (tl fs) (t <| pcb ::= segment_sent seg rest |>))
  end.

Definition start_persist (p : tcp_pcb) : tcp_pcb :=
  if persist_backoff p =? 0 then p <| persist_cnt := 0 |> <| persist_backoff := 1 |> else p.

(** [processing] is [tcp_input_pcb == pcb] *)
Definition tcp_output (processing : bool) (w : link) (t : tcp) : outcome (tcp * Z) :=
  check (negb (bool_decide (state (pcb t) = LISTEN)))
    (if processing then Ok (t, ERR_OK)
     else
       let p := pcb t in
       let wd := Z.min (snd_wnd p) (cwnd p) in
       let stuck := match unsent p with [] => true | seg :: _ => beyond wd p seg end in
       if has (pflags p) TF_ACK_NOW && stuck then
         Ok (tcp_send_empty_ack (empty_ack w) t,
             match empty_ack w with NoBuffer => ERR_BUF | NotSent e => e | Delivered => ERR_OK end)
       else if negb (route w) then Ok (t, ERR_RTE)
       else
         try '(t, err) :=
           if stuck && negb (bool_decide (unsent p = [])) && (0 <? wd) && (wd =? snd_wnd p) && bool_decide (unacked p = []) then
             Ok (t <| pcb ::= start_persist |>, ERR_OK)
           else output_loop (link_ticks w) wd (unsent p) (fates w) t in
         if negb (err =? ERR_OK) then Ok (t, err)
         else
           Ok (t <| pcb ::= (fun p => p <| unsent_oversize := if bool_decide (unsent p = []) then 0 else unsent_oversize p |>
                                         <| pflags ::= (fun f => without f TF_NAGLEMEMERR) |>) |>, ERR_OK)).

(** all unacknowledged segments are queued again *)
Definition requeue (p : tcp_pcb) : tcp_pcb :=
  p <| unsent := unacked p ++ unsent p |> <| unacked := [] |>
    <| nrtx := if nrtx p <? 255 then nrtx p + 1 else nrtx p |> <| rttest := 0 |>.
Definition tcp_rexmit_rto (processing : bool) (w : link) (t : tcp) : outcome tcp :=
  match unacked (pcb t) with
  | [] => Ok t
  | _ => try '(t, _) := tcp_output processing w (t <| pcb ::= requeue |>) in Ok t
  end.

(** the application has processed [len] bytes *)
Definition tcp_recved (processing : bool) (w : link) (len : Z) (t : tcp) : outcome tcp :=
  check (negb (bool_decide (state (pcb t) = LISTEN)))
    (let p := (pcb t) <| rcv_wnd ::= (fun n => u16 (n + len)) |> in
     try p :=
       if TCP_WND <? rcv_wnd p then Ok (p <| rcv_wnd := TCP_WND |>)
       else if rcv_wnd p =? 0 then
         check (bool_decide (state p = CLOSE_WAIT) || bool_decide (state p = LAST_ACK)) (Ok (p <| rcv_wnd := TCP_WND |>))
       else Ok p in
     try '(p, wnd_inflation) := tcp_update_rcv_ann_wnd p in
     if TCP_WND_UPDATE_THRESHOLD <=? s32 wnd_inflation then
       try '(t, _) := tcp_output processing w (t <| pcb := tcp_ack_now p |>) in Ok t
     else Ok (t <| pcb := p |>)).

(** ** Writing *)

Definition TCP_SNDQUEUELEN_OVERFLOW : Z := 65535 - 3.

(** segments not bigger than half the largest window the peer announced *)
Definition mss_local (p : tcp_pcb) : Z :=
  let m := Z.min (mss p) (snd_wnd_max p / 2) in if m =? 0 then mss p else m.

(** the space behind the data that [tcp_pbuf_prealloc] leaves, for data that is
    copied and written without more to come *)
Definition prealloc_oversize (p : tcp_pcb) (first_seg : bool) (length max_length : Z) : Z :=
  if (length <? max_length) && negb (has (pflags p) TF_NODELAY)
     && (negb first_seg || negb (bool_decide (unsent p = [])) || negb (bool_decide (unacked p = []))) then
    Z.min max_length ((length + TCP_MSS + 3) / 4 * 4) - length
  else 0.

Definition naglememerr (p : tcp_pcb) : tcp_pcb := p <| pflags ::= (fun f => Z.lor f TF_NAGLEMEMERR) |>.

Definition queued (p : tcp_pcb) : bool := negb (bool_decide (unacked p = [])) || negb (bool_decide (unsent p = [])).

Definition tcp_write_checks (len : Z) (p : tcp_pcb) : outcome (tcp_pcb * Z) :=
  match state p with
  | ESTABLISHED | CLOSE_WAIT | SYN_SENT | SYN_RCVD =>
    if len =? 0 then Ok (p, ERR_OK)
    else if snd_buf p <? len then Ok (naglememerr p, ERR_MEM)
    else if (TCP_SND_QUEUELEN <=? snd_queuelen p) || (TCP_SNDQUEUELEN_OVERFLOW <? snd_queuelen p) then Ok (naglememerr p, ERR_MEM)
    else check (if snd_queuelen p =? 0 then negb (queued p) else queued p) (Ok (p, ERR_OK))
  | _ => Ok (p, ERR_CONN)
  end.

(** One allocation.  [budget] is the number of allocations that succeed. *)
Definition alloc (budget : nat) : option nat := match budget with O => None | S b => Some b end.

(** Phase 3: the rest of the data in new segments from position [pos] on.  The
    result is the queue, its length and the space behind the last segment, or
    nothing when the memory or the queue is exhausted. *)
Fixpoint new_segments (fuel : nat) (p : tcp_pcb) (budget : nat) (pos : Z) (data : list Z) (first : bool) (queuelen oversize : Z) : outcome (option (list tcp_seg * Z * Z)) :=
  match data with
  | [] => Ok (Some ([], queuelen, oversize))
  | _ =>
    match fuel with
    | O => Stop OutOfFuel
    | S fuel =>
      let seglen := Z.min (blen data) (mss_local p) in
      match alloc budget with
      | None => Ok None
      | Some budget =>
        let queuelen := u16 (queuelen + 1) in
        if (TCP_SND_QUEUELEN <? queuelen) || (TCP_SNDQUEUELEN_OVERFLOW <? queuelen) then Ok None
        else
          match alloc budget with
          | None => Ok None
          | Some budget =>
            let seg := mkSeg (u32 (snd_lbb p + pos)) seglen (firstn (Z.to_nat seglen) data) 0 1 0 in
            try r := new_segments fuel p budget (pos + seglen) (skipn (Z.to_nat seglen) data) false queuelen (prealloc_oversize p first seglen (mss_local p)) in
            Ok (match r with Some (q, n, o) => Some (seg :: q, n, o) | None => None end)
          end
      end
    end
  end.

(** Phases 1 and 2: the data the last unsent segment takes, into the space it
    has and into another buffer; the allocations left, whether there is another
    buffer and the space behind it. *)
Definition extend_last (p : tcp_pcb) (budget : nat) (len : Z) : outcome (option (Z * nat * bool * Z)) :=
  match list.last (unsent p) with
  | None => check (unsent_oversize p =? 0) (Ok (Some (0, budget, false, 0)))
  | Some last_unsent =>
    check (s_len last_unsent + s_optlen last_unsent <=? mss_local p)
      (let space := mss_local p - (s_len last_unsent + s_optlen last_unsent) in
       let oversize := unsent_oversize p in
       check ((oversize <=? 0) || (oversize <=? space))
         (let used := if 0 <? oversize then Z.min space (Z.min oversize len) else 0 in
          let space := space - used in
          let left := oversize - used in
          check ((left =? 0) || (used =? len))
            (if (used <? len) && (0 <? space) && (0 <? s_len last_unsent) then
               let seglen := Z.min space (len - used) in
               match alloc budget with
               | None => Ok None
               | Some budget => Ok (Some (used + seglen, budget, true, prealloc_oversize p true seglen space))
               end
             else Ok (Some (used, budget, false, left)))))
  end.

Definition append_data (data : list Z) (concat : bool) (s : tcp_seg) : tcp_seg :=
  s <| s_p ::= (fun d => d ++ data) |> <| s_len ::= (fun n => u16 (n + blen data)) |> <| s_clen ::= (fun n => if concat then n + 1 else n) |>.
Definition set_push (s : tcp_seg) : tcp_seg := s <| s_flags ::= (fun f => Z.lor f TCP_PSH) |>.

(** the last element of a list, changed *)
Fixpoint map_last {A} (f : A -> A) (l : list A) : list A :=
  match l with
  | [] => []
  | [a] => [f a]
  | a :: l' => a :: map_last f l'
  end.

Definition write_memerr (p : tcp_pcb) : outcome (tcp_pcb * Z) :=
  check ((snd_queuelen p =? 0) || queued p) (Ok (naglememerr p, ERR_MEM)).

(** [tcp_write] with [TCP_WRITE_FLAG_COPY], as the relay calls it *)
Definition tcp_write (budget : nat) (arg : list Z) (p : tcp_pcb) : outcome (tcp_pcb * Z) :=
  let len := blen arg in
  try '(p, err) := tcp_write_checks len p in
  if negb (err =? ERR_OK) then Ok (p, err)
  else
    try ext := extend_last p budget len in
    match ext with
    | None => write_memerr p
    | Some (pos, budget, concat, oversize) =>
      let front := firstn (Z.to_nat pos) arg in
      let rest := skipn (Z.to_nat pos) arg in
      try r := new_segments (length rest) p budget pos rest true (if concat then u16 (snd_queuelen p + 1) else snd_queuelen p) oversize in
      match r with
      | None => write_memerr p
      | Some (queue, queuelen, oversize) =>
        let seg_changed := (0 <? pos) || (0 <? unsent_oversize p) || negb (bool_decide (queue = [])) in
        let extended := if 0 <? pos then map_last (append_data front concat) (unsent p) else unsent p in
        let p := p <| unsent := if seg_changed then map_last set_push (extended ++ queue) else extended ++ queue |>
                   <| unsent_oversize := oversize |> <| snd_lbb ::= (fun n => u32 (n + len)) |>
                   <| snd_buf ::= (fun n => u16 (n - len)) |> <| snd_queuelen := queuelen |> in
        check ((snd_queuelen p =? 0) || queued p) (Ok (p, ERR_OK))
      end
    end.

(** a segment with SYN or FIN *)
Definition tcp_enqueue_flags (budget : nat) (fl : Z) (p : tcp_pcb) : outcome (tcp_pcb * Z) :=
  check (has fl (Z.lor TCP_SYN TCP_FIN))
    (if ((TCP_SND_QUEUELEN <=? snd_queuelen p) || (TCP_SNDQUEUELEN_OVERFLOW <? snd_queuelen p)) && negb (has fl TCP_FIN) then
       Ok (naglememerr p, ERR_MEM)
     else
       match budget with
       | S (S _) =>
         let seg := mkSeg (snd_lbb p) 0 [] fl 1 (if has fl TCP_SYN then 4 else 0) in
         let p := p <| unsent ::= (fun l => l ++ [seg]) |> <| unsent_oversize := 0 |> <| snd_lbb ::= (fun n => u32 (n + 1)) |>
                    <| pflags ::= (fun f => if has fl TCP_FIN then Z.lor f TF_FIN else f) |> <| snd_queuelen ::= (fun n => u16 (n + 1)) |> in
         check ((snd_queuelen p =? 0) || queued p) (Ok (p, ERR_OK))
       | _ => Ok (naglememerr p, ERR_MEM)
       end).

(** FIN in the last unsent segment, or in one of its own *)
Definition tcp_send_fin (budget : nat) (p : tcp_pcb) : outcome (tcp_pcb * Z) :=
  match list.last (unsent p) with
  | Some last_unsent =>
    if has (s_flags last_unsent) (Z.lor TCP_SYN (Z.lor TCP_FIN TCP_RST)) then tcp_enqueue_flags budget TCP_FIN p
    else Ok (p <| unsent ::= map_last (fun s => s <| s_flags ::= (fun f => Z.lor f TCP_FIN) |>) |>
               <| pflags ::= (fun f => Z.lor f TF_FIN) |>, ERR_OK)
  | None => tcp_enqueue_flags budget TCP_FIN p
  end.

Definition tcp_close_shutdown_fin (processing : bool) (w : link) (budget : nat) (t : tcp) : outcome (tcp * Z) :=
  let closing s :=
    try '(p, err) := tcp_send_fin budget (pcb t) in
    if err =? ERR_OK then
      try '(t, _) := tcp_output processing w (t <| pcb := p <| state := s |> |>) in Ok (t, ERR_OK)
    else if err =? ERR_MEM then Ok (t <| pcb := p <| pflags ::= (fun f => Z.lor f TF_CLOSEPEND) |> |>, ERR_OK)
    else Ok (t <| pcb := p |>, err) in
  match state (pcb t) with
  | SYN_RCVD | ESTABLISHED => closing FIN_WAIT_1
  | CLOSE_WAIT => closing LAST_ACK
  | _ => Ok (t, ERR_OK)
  end.

(** ** The state machine *)

(** the options from [idx] on, all of them in the first buffer; the segment
    size they leave *)
Fixpoint parse_options (fuel : nat) (optlen : Z) (mem : list Z) (idx m : Z) : outcome Z :=
  let tcp_getoptbyte i := match mem !! Z.to_nat i with Some b => Ok b | None => Stop OutOfBounds end in
  if optlen <=? idx then Ok m
  else
    match fuel with
    | O => Stop OutOfFuel
    | S fuel =>
      try opt := tcp_getoptbyte idx in
      if opt =? 0 then Ok m
      else if opt =? 1 then parse_options fuel optlen mem (idx + 1) m
      else if opt =? 2 then
        try l := tcp_getoptbyte (idx + 1) in
        if negb (l =? 4) || (optlen <? idx + 4) then Ok m
        else
          try hi := tcp_getoptbyte (idx + 2) in
          try lo := tcp_getoptbyte (idx + 3) in
          let v := Z.lor (Z.shiftl hi 8) lo in
          parse_options fuel optlen mem (idx + 4) (if (TCP_MSS <? v) || (v =? 0) then TCP_MSS else v)
      else
        try data := tcp_getoptbyte (idx + 1) in
        if data <? 2 then Ok m else parse_options fuel optlen mem (idx + data) m
    end.
Definition tcp_parseopt (i : input) (p : tcp_pcb) : outcome tcp_pcb :=
  try m := parse_options (length (options i)) (blen (options i)) (options i ++ behind i) 0 (mss p) in Ok (p <| mss := m |>).

(** [mtu] is 0 without a route *)
Definition tcp_eff_send_mss (w : world) (sendmss : Z) : Z :=
  if mtu w =? 0 then sendmss else Z.min sendmss (u16 (mtu w - ip_hlen w - 20)).

Definition tcp_rst (d : delivery) (sq ack : Z) (t : tcp) : tcp :=
  match d with Delivered => t <| net ::= (fun n => n ++ [Rst (u32 sq) (u32 ack)]) |> | _ => t end.

(** the control block is freed: the segments are, and a reset is sent *)
Definition tcp_abort (w : world) (t : tcp) : tcp :=
  tcp_rst (rst_sent w) (snd_nxt (pcb t)) (rcv_nxt (pcb t)) (t <| pcb ::= (fun p => p <| unacked := [] |> <| unsent := [] |> <| ooseq := [] |>) |>).

(** the calls into the application; [accept] is absent when the listener was closed *)
Record application := mkApp { accept : option (tcp -> tcp * Z); connected : tcp -> tcp * Z }.

Definition LWIP_TCP_CALC_INITIAL_CWND (m : Z) : Z := Z.min (4 * m) (Z.max (2 * m) 4380).

Definition got_fin (t : tcp) : bool := has (recv_flags (inp t)) TF_GOT_FIN.
(** everything that was sent is acknowledged *)
Definition all_acked (t : tcp) : bool :=
  has (flags (inp t)) TCP_ACK && (ackno (inp t) =? snd_nxt (pcb t)) && bool_decide (unsent (pcb t) = []).
Definition to_state (s : tcp_state) (t : tcp) : tcp := t <| pcb ::= (fun p => p <| state := s |>) |>.
Definition to_time_wait (t : tcp) : tcp := to_state TIME_WAIT (t <| pcb ::= tcp_pcb_purge |>).

Definition process_rst (t : tcp) : outcome (tcp * Z) :=
  let p := pcb t in
  let i := inp t in
  let '(acceptable, t) :=
    if bool_decide (state p = SYN_SENT) then (ackno i =? snd_nxt p, t)
    else if seqno i =? rcv_nxt p then (true, t)
    else (false, if TCP_SEQ_BETWEEN (seqno i) (rcv_nxt p) (rcv_nxt p + rcv_wnd p) then t <| pcb ::= tcp_ack_now |> else t) in
  if acceptable then
    check (negb (bool_decide (state p = CLOSED)))
      (Ok (t <| inp ::= (fun i => i <| recv_flags ::= (fun f => Z.lor f TF_RESET) |>) |>
             <| pcb ::= (fun p => p <| pflags ::= (fun f => without f TF_ACK_DELAY) |>) |>, ERR_RST))
  else Ok (t, ERR_OK).

Definition process_syn_sent (a : application) (w : world) (t : tcp) : outcome (tcp * Z) :=
  let p := pcb t in
  let i := inp t in
  if has (flags i) TCP_ACK && has (flags i) TCP_SYN && (ackno i =? u32 (lastack p + 1)) then
    let p := p <| rcv_nxt := u32 (seqno i + 1) |> <| rcv_ann_right_edge := u32 (seqno i + 1) |> <| lastack := ackno i |>
               <| snd_wnd := wnd i |> <| snd_wnd_max := wnd i |> <| snd_wl1 := u32 (seqno i - 1) |> <| state := ESTABLISHED |> in
    let p := p <| mss ::= tcp_eff_send_mss w |> in
    let p := p <| cwnd := u16 (LWIP_TCP_CALC_INITIAL_CWND (mss p)) |> in
    check (0 <? snd_queuelen p)
      (let p := p <| snd_queuelen ::= (fun q => q - 1) |> in
       try p :=
         match unacked p, unsent p with
         | _ :: rest, _ => Ok (p <| unacked := rest |>)
         | [], _ :: rest => Ok (p <| unsent := rest |>)
         | [], [] => Stop AssertFail
         end in
       let p := if bool_decide (unacked p = []) then p <| rtime := -1 |> else p <| rtime := 0 |> <| nrtx := 0 |> in
       let '(t, err) := connected a (t <| pcb := p |>) in
       if err =? ERR_ABRT then Ok (t, ERR_ABRT) else Ok (t <| pcb ::= tcp_ack_now |>, ERR_OK))
  else if has (flags i) TCP_ACK then
    let t := tcp_rst (rst_sent w) (ackno i) (seqno i + tcplen i) t in
    Ok (if (nrtx p <? TCP_SYNMAXRTX) then
          t <| pcb ::= (fun p => let p := p <| rtime := 0 |> in if bool_decide (unacked p = []) then p else requeue p) |>
        else t, ERR_OK)
  else Ok (t, ERR_OK).

Definition process_syn_rcvd (a : application) (w : world) (t : tcp) : outcome (tcp * Z) :=
  let p := pcb t in
  let i := inp t in
  if has (flags i) TCP_ACK then
    if TCP_SEQ_BETWEEN (ackno i) (lastack p + 1) (snd_nxt p) then
      let t := to_state ESTABLISHED t in
      let '(t, err) := match accept a with None => (t, ERR_VAL) | Some f => f t end in
      if negb (err =? ERR_OK) then Ok (if negb (err =? ERR_ABRT) then tcp_abort w t else t, ERR_ABRT)
      else
        try t := tcp_receive w t in
        let t := t <| inp ::= (fun i => i <| recv_acked ::= (fun r => if r =? 0 then 0 else r - 1) |>) |>
                   <| pcb ::= (fun p => p <| cwnd := u16 (LWIP_TCP_CALC_INITIAL_CWND (mss p)) |>) |> in
        Ok (if got_fin t then to_state CLOSE_WAIT (t <| pcb ::= tcp_ack_now |>) else t, ERR_OK)
    else Ok (tcp_rst (rst_sent w) (ackno i) (seqno i + tcplen i) t, ERR_OK)
  else if has (flags i) TCP_SYN && (seqno i =? u32 (rcv_nxt p - 1)) then Ok (t <| pcb ::= tcp_rexmit |>, ERR_OK)
  else Ok (t, ERR_OK).

Definition tcp_process (a : application) (w : world) (t : tcp) : outcome (tcp * Z) :=
  if has (flags (inp t)) TCP_RST then process_rst t
  else if has (flags (inp t)) TCP_SYN && negb (bool_decide (state (pcb t) = SYN_SENT)) && negb (bool_decide (state (pcb t) = SYN_RCVD)) then
    Ok (t <| pcb ::= tcp_ack_now |>, ERR_OK)
  else
    let alive p := (if has (pflags p) TF_RXCLOSED then p else p <| tmr := tcp_ticks w |>) <| keep_cnt_sent := 0 |> in
    try p := tcp_parseopt (inp t) (alive (pcb t)) in
    let t := t <| pcb := p |> in
    let acked_now t := t <| pcb ::= tcp_ack_now |> in
    match state p with
    | SYN_SENT => process_syn_sent a w t
    | SYN_RCVD => process_syn_rcvd a w t
    | CLOSE_WAIT | ESTABLISHED =>
      try t := tcp_receive w t in
      Ok (if got_fin t then to_state CLOSE_WAIT (acked_now t) else t, ERR_OK)
    | FIN_WAIT_1 =>
      try t := tcp_receive w t in
      Ok (if got_fin t then if all_acked t then to_time_wait (acked_now t) else to_state CLOSING (acked_now t)
          else if all_acked t then to_state FIN_WAIT_2 t else t, ERR_OK)
    | FIN_WAIT_2 =>
      try t := tcp_receive w t in
      Ok (if got_fin t then to_time_wait (acked_now t) else t, ERR_OK)
    | CLOSING =>
      try t := tcp_receive w t in
      Ok (if all_acked t then to_time_wait t else t, ERR_OK)
    | LAST_ACK =>
      try t := tcp_receive w t in
      Ok (if all_acked t then t <| inp ::= (fun i => i <| recv_flags ::= (fun f => Z.lor f TF_CLOSED) |>) |> else t, ERR_OK)
    | _ => Ok (t, ERR_OK)
    end.

(** a segment for a connection in TIME-WAIT *)
Definition tcp_timewait_input (w : world) (l : link) (t : tcp) : outcome tcp :=
  let i := inp t in
  let p := pcb t in
  let answered t :=
    if 0 <? tcplen i then try '(t, _) := tcp_output false l (t <| pcb ::= tcp_ack_now |>) in Ok t else Ok t in
  if has (flags i) TCP_RST then Ok t
  else if has (flags i) TCP_SYN then
    if TCP_SEQ_BETWEEN (seqno i) (rcv_nxt p) (rcv_nxt p + rcv_wnd p) then Ok (tcp_rst (rst_sent w) (ackno i) (seqno i + tcplen i) t)
    else answered t
  else if has (flags i) TCP_FIN then answered (t <| pcb ::= (fun p => p <| tmr := tcp_ticks w |>) |>)
  else answered t.

(** a segment for a listener: the new connection, when there is one.  [iss] is
    the result of [tcp_next_iss] and [budget] as for [tcp_write]. *)
Definition tcp_listen_input (w : world) (l : link) (iss : Z) (budget : nat) (i : input) : outcome (option tcp * list sent) :=
  let nothing := mkTcp (new_pcb 0) i [] in
  if has (flags i) TCP_RST then Ok (None, [])
  else if has (flags i) TCP_ACK then Ok (None, net (tcp_rst (rst_sent w) (ackno i) (seqno i + tcplen i) nothing))
  else if has (flags i) TCP_SYN then
    match alloc budget with
    | None => Ok (None, [])
    | Some budget =>
      let p := (new_pcb (tcp_ticks w)) <| state := SYN_RCVD |> <| rcv_nxt := u32 (seqno i + 1) |> <| rcv_ann_right_edge := u32 (seqno i + 1) |>
                 <| snd_wl2 := iss |> <| snd_nxt := iss |> <| lastack := iss |> <| snd_lbb := iss |> <| snd_wl1 := u32 (seqno i - 1) |> in
      try p := tcp_parseopt i p in
      try '(p, rc) := tcp_enqueue_flags budget (Z.lor TCP_SYN TCP_ACK) (p <| snd_wnd := wnd i |> <| snd_wnd_max := wnd i |> <| mss ::= tcp_eff_send_mss w |>) in
      if negb (rc =? ERR_OK) then Ok (None, [])
      else try '(t, _) := tcp_output false l (mkTcp p i []) in Ok (Some t, net t)
    end
  else Ok (None, []).

(** ** The timers *)

Definition tcp_backoff : list Z := [1; 2; 3; 4; 5; 6; 7; 7; 7; 7; 7; 7; 7].
Definition tcp_persist_backoff : list Z := [3; 6; 12; 24; 48; 96; 120].
Definition TCP_MAXRTX : Z := 12.
Definition TCP_OOSEQ_TIMEOUT : Z := 6.

(** one byte, or FIN, of the first segment that is not acknowledged *)
Definition tcp_zero_window_probe (d : delivery) (t : tcp) : outcome (tcp * Z) :=
  match unacked (pcb t) ++ unsent (pcb t) with
  | [] => Ok (t, ERR_OK)
  | seg :: _ =>
    let is_fin := fin seg && (s_len seg =? 0) in
    match d with
    | NoBuffer => Ok (t, ERR_MEM)
    | _ =>
      let p := (pcb t) <| rcv_ann_right_edge := u32 (rcv_nxt (pcb t) + rcv_ann_wnd (pcb t)) |> in
      let next := u32 (s_seqno seg + 1) in
      let p := if TCP_SEQ_LT (snd_nxt p) next then p <| snd_nxt := next |> else p in
      let probe := mkSeg (s_seqno seg) (if is_fin then 0 else 1) (if is_fin then [] else firstn 1 (s_p seg))
                         (if is_fin then Z.lor TCP_ACK TCP_FIN else TCP_ACK) 1 0 in
      match d with
      | Delivered => Ok (t <| pcb := p |> <| net ::= (fun n => n ++ [Segment probe (rcv_nxt p) (rcv_ann_wnd p)]) |>, ERR_OK)
      | NotSent e => Ok (t <| pcb := p |>, e)
      | NoBuffer => Ok (t, ERR_MEM)
      end
    end
  end.

(** the persist timer *)
Definition slowtmr_persist (d : delivery) (t : tcp) : outcome tcp :=
  match tcp_persist_backoff !! Z.to_nat (persist_backoff (pcb t) - 1) with
  | None => Stop OutOfBounds
  | Some backoff_cnt =>
    let t := t <| pcb ::= (fun p => p <| persist_cnt ::= (fun c => if c <? backoff_cnt then c + 1 else c) |>) |> in
    if backoff_cnt <=? persist_cnt (pcb t) then
      try '(t, err) := tcp_zero_window_probe d t in
      Ok (if err =? ERR_OK then
            t <| pcb ::= (fun p => p <| persist_cnt := 0 |>
                                     <| persist_backoff ::= (fun b => if b <? blen tcp_persist_backoff then b + 1 else b) |>) |>
          else t)
    else Ok t
  end.

(** the retransmission timer *)
Definition slowtmr_rexmit (w : link) (t : tcp) : outcome tcp :=
  let p := pcb t in
  let p := p <| rtime ::= (fun r => if 0 <=? r then s16 (r + 1) else r) |> in
  if negb (bool_decide (unacked p = [])) && (rto p <=? rtime p) then
    let p := if bool_decide (state p = SYN_SENT) then p
             else p <| rto := s16 (Z.shiftl (Z.shiftr (sa p) 3 + sv p) (default 7 (tcp_backoff !! Z.to_nat (Z.min (nrtx p) 12)))) |> in
    let half := Z.shiftr (Z.min (cwnd p) (snd_wnd p)) 1 in
    let p := p <| rtime := 0 |> <| ssthresh := if half <? u16 (2 * mss p) then u16 (2 * mss p) else half |> <| cwnd := mss p |> in
    tcp_rexmit_rto false w (t <| pcb := p |>)
  else Ok (t <| pcb := p |>).

(** one connection in [tcp_slowtmr]: its timers, then the out-of-order queue of
    an inactive connection is dropped; the flag is whether the retransmissions
    are used up *)
Definition slowtmr_pcb (ticks : Z) (d : delivery) (w : link) (t : tcp) : outcome (bool * tcp) :=
  let p := pcb t in
  if bool_decide (state p = SYN_SENT) && (TCP_SYNMAXRTX <=? nrtx p) || (TCP_MAXRTX <=? nrtx p) then Ok (true, t)
  else
    try t := if 0 <? persist_backoff p then slowtmr_persist d t else slowtmr_rexmit w t in
    Ok (false,
        t <| pcb ::= (fun p => if u32 (rto p * TCP_OOSEQ_TIMEOUT) <=? u32 (ticks - tmr p) then p <| ooseq := [] |> else p) |>).
