(* ===== verification/TcpRecv.v ===== *)
(** * TcpRecv: the bytes of a TCP connection arrive once and in order

    The peer's stream is a list of bytes, its FIN the position behind the last
    of them.  Segments cut from the stream arrive in any order, repeated and
    overlapping, and memory and acknowledgements may fail.  [tcp_receive] stops
    on no assertion and hands the application the stream from the front,
    without a gap, a repetition or a byte of its own. *)

From S2P Require Import Prelude Bytes Tcp.

#[local] Open Scope Z_scope.

(** ** Sequence numbers *)

(** the sequence number of position [k] when position 0 has number [b] *)
Definition seq (b k : Z) : Z := u32 (b + k).

Lemma u32_at b k x e : e = seq b k + (x - k) -> u32 e = seq b x.
Proof.
  intros ->. unfold seq, u32. rewrite Zplus_mod_idemp_l. f_equal. lia.
Qed.
Lemma u32_seq b k : u32 (seq b k) = seq b k.
Proof. apply (u32_at b k). lia. Qed.

Ltac seqs :=
  match goal with
  | |- u32 (seq ?b ?x) = seq ?b ?x => apply u32_seq
  | |- u32 ?e = seq ?b ?x => match e with context [seq b ?k] => apply (u32_at b k x); lia end
  end.

Lemma seq_diff b x y a c : u32 a = seq b x -> u32 c = seq b y -> (a - c) mod 4294967296 = (x - y) mod 4294967296.
Proof.
  unfold seq, u32. intros Ha Hc. rewrite Zminus_mod, Ha, Hc, <- Zminus_mod. f_equal. lia.
Qed.
Lemma s32_cong z x : z mod 4294967296 = x mod 4294967296 -> -2147483648 <= x < 2147483648 -> s32 z = x.
Proof.
  intros E B. unfold s32. rewrite <- Zplus_mod_idemp_l, E, Zplus_mod_idemp_l, Z.mod_small; lia.
Qed.

(** positions less than half the number space apart *)
Definition near (x y : Z) : Prop := -2147483648 <= x - y < 2147483648.

Section Compare.
Context (b x y a c : Z) (Ha : u32 a = seq b x) (Hc : u32 c = seq b y) (N : near x y).

Lemma seq_s32 : s32 (a - c) = x - y.
Proof. apply s32_cong; [by apply (seq_diff b)|done]. Qed.
Lemma seq_LT : TCP_SEQ_LT a c = (x <? y).
Proof. unfold TCP_SEQ_LT. rewrite seq_s32. lia. Qed.
Lemma seq_LEQ : TCP_SEQ_LEQ a c = (x <=? y).
Proof. unfold TCP_SEQ_LEQ. rewrite seq_s32. lia. Qed.
Lemma seq_GT : TCP_SEQ_GT a c = (y <? x).
Proof. unfold TCP_SEQ_GT. rewrite seq_s32. lia. Qed.
Lemma seq_GEQ : TCP_SEQ_GEQ a c = (y <=? x).
Proof. unfold TCP_SEQ_GEQ. rewrite seq_s32. lia. Qed.
End Compare.

Lemma seq_BETWEEN b x y z a c d :
  u32 a = seq b x -> u32 c = seq b y -> u32 d = seq b z -> near x y -> near x z -> TCP_SEQ_BETWEEN a c d = (y <=? x) && (x <=? z).
Proof. intros. unfold TCP_SEQ_BETWEEN. by rewrite (seq_GEQ b x y), (seq_LEQ b x z). Qed.

Lemma seq_inj b x y : near x y -> (seq b x =? seq b y) = (x =? y).
Proof.
  intros N. destruct (Z.eqb_spec x y) as [->|Ne]; [apply Z.eqb_refl|]. apply Z.eqb_neq. intros E.
  pose proof (seq_s32 b x y (seq b x) (seq b y) (u32_seq _ _) (u32_seq _ _) N) as X. rewrite E, Z.sub_diag in X.
  change (s32 0) with 0 in X. lia.
Qed.
Lemma seq_u16 b x y a c : u32 a = seq b x -> u32 c = seq b y -> 0 <= x - y < 65536 -> u16 (a - c) = x - y.
Proof.
  intros Ha Hc B. pose proof (seq_diff b x y a c Ha Hc) as E. unfold u16.
  assert ((a - c) mod 65536 = (x - y) mod 65536) as ->; [|apply Z.mod_small; lia].
  change 65536 with (2 ^ 16). change 4294967296 with (2 ^ 32) in E.
  rewrite <- (Z.mod_mod_divide (a - c) (2 ^ 32) (2 ^ 16)), E, Z.mod_mod_divide; [done| |]; by exists (2 ^ 16).
Qed.

(** ** Pieces of the stream *)

Lemma take_field S k n m : 0 <= m <= n -> firstn (Z.to_nat m) (field S k n) = field S k m.
Proof. intros. unfold field. rewrite take_take. f_equal. lia. Qed.
Lemma drop_field S k n m : 0 <= k -> 0 <= m <= n -> skipn (Z.to_nat m) (field S k n) = field S (k + m) (n - m).
Proof.
  intros. unfold field. rewrite skipn_firstn_comm. rewrite skipn_skipn. f_equal; [lia|]. f_equal. lia.
Qed.

(** the fields of the sending side *)
Definition send_part (p : tcp_pcb) :=
  (mss p, (rtime p, rttest p, rtseq p, sa p, sv p, rto p, nrtx p, dupacks p), lastack p, (cwnd p, ssthresh p), (snd_nxt p, snd_lbb p),
   (snd_wl1 p, snd_wl2 p, snd_wnd p, snd_wnd_max p), (snd_buf p, snd_queuelen p, unsent_oversize p), (unsent p, unacked p), (persist_cnt p, persist_backoff p)).
(** those of the receiving side, without the queue *)
Definition recv_part (p : tcp_pcb) :=
  (rcv_nxt p, rcv_wnd p, rcv_ann_wnd p, rcv_ann_right_edge p, mss p).

Section Stream.

(** the stream and the number of its first byte *)
Context (S : list Z) (b : Z).
Abbreviation len := (blen S).

(** [s] carries the stream from [k] on; FIN comes behind the last byte *)
Record seg_at (k : Z) (s : tcp_seg) : Prop := {
  sg_pos : 0 <= k;
  sg_seqno : s_seqno s = seq b k;
  sg_len : 0 <= s_len s < 32767;
  sg_end : k + s_len s <= len;
  sg_data : s_p s = field S k (s_len s);
  sg_syn : has (s_flags s) TCP_SYN = false;
  sg_fin : fin s = true -> k + s_len s = len
}.

(** the positions a segment takes, FIN included *)
Definition span (s : tcp_seg) : Z := s_len s + (if fin s then 1 else 0).

Lemma tcplen_span k s : seg_at k s -> TCP_TCPLEN s = span s.
Proof.
  intros Hsyn%sg_syn. unfold TCP_TCPLEN, span, fin, has in *. do 2 f_equal.
  rewrite Z.land_lor_distr_r. apply negb_false_iff, Z.eqb_eq in Hsyn. rewrite Hsyn, Z.lor_0_r. done.
Qed.

(** A sorted queue of segments at or behind [lo] that do not overlap and end
    within [w]. *)
Fixpoint queue (w lo : Z) (l : list tcp_seg) : Prop :=
  match l with
  | [] => True
  | s :: l' => exists k, lo <= k /\ seg_at k s /\ 0 < span s /\ k + span s <= w /\ queue w (k + span s) l'
  end.

Lemma queue_weaken w lo lo' w' l : lo' <= lo -> w <= w' -> queue w lo l -> queue w' lo' l.
Proof.
  revert lo lo'. induction l as [|s l IH]; intros lo lo' H1 H2; [done|].
  intros (k & Hk & Hs & Hp & He & Hl). exists k. split_and!; [lia|done|done|lia|]. by eapply IH; [| |exact Hl].
Qed.

(** Position [n] is next; position [a] is the right edge that was announced. *)
Record receiver (n a : Z) (p : tcp_pcb) : Prop := {
  rv_nxt : rcv_nxt p = seq b n;
  rv_pos : 0 <= n <= len + 1;
  rv_wnd : 0 <= rcv_wnd p <= TCP_WND;
  rv_edge : rcv_ann_right_edge p = seq b a;
  rv_edge_wnd : a <= n + rcv_wnd p;
  rv_ann : 0 <= rcv_ann_wnd p <= rcv_wnd p;
  rv_ann_edge : a <= n + rcv_ann_wnd p;
  rv_mss : 0 < mss p <= TCP_MSS
}.

(** the application was told of an edge not long ago *)
Definition told (n a : Z) : Prop := n - 1073741824 <= a.

Lemma update_ok n a p :
  rcv_nxt p = seq b n -> 0 <= rcv_wnd p <= TCP_WND -> rcv_ann_right_edge p = seq b a -> a <= n + rcv_wnd p -> 0 < mss p <= TCP_MSS -> told n a ->
  exists x y, tcp_update_rcv_ann_wnd p = Ok (p <| rcv_ann_wnd := x |>, y) /\ 0 <= x <= rcv_wnd p /\ a <= n + x
    /\ (y = 0 \/ y = n + rcv_wnd p - a /\ 0 <= y).
Proof.
  intros Hn Hw Ha Haw Hm Ht. unfold tcp_update_rcv_ann_wnd, told, TCP_WND, TCP_MSS in *. cbv zeta. change (4 * 512 / 2) with 1024.
  rewrite Hn, Ha, (u32_at b n (n + rcv_wnd p)) by lia. rewrite (seq_GEQ b (n + rcv_wnd p) (a + Z.min 1024 (mss p))); [|seqs|seqs|unfold near; lia].
  case_match eqn:E1.
  - do 2 eexists. split_and!; [reflexivity|lia|lia|lia|]. right.
    rewrite <- (u32_small (n + rcv_wnd p - a)) at 1 by lia. split; [|apply u32_bound].
    unfold u32. apply seq_diff with b; seqs.
  - rewrite (seq_GT b n a) by (try seqs; unfold near; lia). case_match eqn:E2.
    + exists 0, 0. split_and!; [done|lia|lia|lia|by left].
    + assert (u32 (seq b a - seq b n) = a - n) as ->.
      { rewrite <- (u32_small (a - n)) by lia. unfold u32. apply seq_diff with b; seqs. }
      unfold check. rewrite (proj2 (Z.leb_le _ _)) by lia. exists (u16 (a - n)), 0. rewrite u16_small by lia.
      split_and!; [done|lia|lia|lia|by left].
Qed.

Lemma advance_window_ok n a l p :
  receiver n a p -> told (n + l) a -> 0 <= l <= rcv_wnd p -> n + l <= len + 1 ->
  exists x, advance l p = Ok (p <| rcv_nxt := seq b (n + l) |> <| rcv_wnd := rcv_wnd p - l |> <| rcv_ann_wnd := x |>)
    /\ receiver (n + l) a (p <| rcv_nxt := seq b (n + l) |> <| rcv_wnd := rcv_wnd p - l |> <| rcv_ann_wnd := x |>).
Proof.
  intros [Hn Hp Hw He Hew Hann Hae Hm] Ht Hl Hlen. unfold advance.
  assert (p <| rcv_nxt ::= (fun n => u32 (n + l)) |> <| rcv_wnd ::= (fun n => n - l) |> = p <| rcv_nxt := seq b (n + l) |> <| rcv_wnd := rcv_wnd p - l |>) as E.
  { clear -Hn. destruct p. cbn in Hn. subst. fields. f_equal. seqs. }
  cbv zeta. rewrite E. cbn [rcv_wnd set]. unfold check. rewrite (proj2 (Z.leb_le _ _)) by apply Hl.
  destruct (update_ok (n + l) a (p <| rcv_nxt := seq b (n + l) |> <| rcv_wnd := rcv_wnd p - l |>)) as (x & y & -> & Hx & Hax & _);
    cbn in *; try done; try lia.
  exists x. split; [done|]. constructor; cbn; try done; lia.
Qed.

(** *** Changes to a segment *)

Lemma has_without f m m' : Z.land m m' = 0 -> has (without f m) m' = has f m'.
Proof.
  intros H. unfold has, without. do 2 f_equal. apply Z.bits_inj'. intros j Hj.
  rewrite !Z.land_spec, Z.ldiff_spec. apply (f_equal (fun z => Z.testbit z j)) in H. rewrite Z.land_spec, Z.bits_0 in H.
  destruct (Z.testbit f j), (Z.testbit m j), (Z.testbit m' j); done.
Qed.
Lemma has_without_same f m : has (without f m) m = false.
Proof.
  unfold has, without. apply negb_false_iff, Z.eqb_eq, Z.bits_inj'. intros j Hj.
  rewrite !Z.land_spec, Z.ldiff_spec, Z.bits_0. by destruct (Z.testbit f j), (Z.testbit m j).
Qed.
Lemma has_lor f m m' : has (Z.lor f m) m' = has f m' || has m m'.
Proof.
  unfold has. rewrite Z.land_lor_distr_l. rewrite <- negb_andb. f_equal.
  destruct (Z.eqb_spec (Z.lor (Z.land f m') (Z.land m m')) 0) as [E|E].
  - apply Z.lor_eq_0_iff in E as [-> ->]. done.
  - symmetry. apply andb_false_iff. destruct (Z.eqb_spec (Z.land f m') 0) as [E1|]; [|by left]. right.
    apply Z.eqb_neq. intros E2. apply E. by rewrite E1, E2.
Qed.

Lemma seg_drop k n s :
  seg_at k s -> k <= n <= k + s_len s ->
  let s' := s <| s_p ::= skipn (Z.to_nat (n - k)) |> <| s_len ::= (fun l => u16 (l - u16 (n - k))) |> <| s_seqno := seq b n |> in
  seg_at n s' /\ n + span s' = k + span s.
Proof.
  intros [Hp Hs Hl He Hd Hsyn Hf] Hn s'. assert (u16 (s_len s - u16 (n - k)) = s_len s - (n - k)) as X by (rewrite (u16_small (n - k)), u16_small; lia).
  unfold s', span, fin. cbn. rewrite X. split; [|case_match; lia]. constructor; cbn; rewrite ?X; try done; try lia.
  - rewrite Hd, drop_field by lia. f_equal; lia.
  - intros E. specialize (Hf E). lia.
Qed.
Lemma seg_cut k m s :
  seg_at k s -> fin s = false -> 0 <= m <= s_len s -> seg_at k (cut m s) /\ span (cut m s) = m /\ s_len (cut m s) = m /\ fin (cut m s) = false.
Proof.
  intros [Hp Hs Hl He Hd Hsyn Hf] Hfin Hm. unfold cut, span, fin in *. cbn. rewrite Hfin, u16_small by lia.
  split; [|lia]. constructor; cbn; rewrite ?(u16_small m) by lia; try done; try lia.
  - rewrite Hd. by apply take_field.
  - unfold fin. cbn. by rewrite Hfin.
Qed.
Lemma seg_no_fin k s :
  seg_at k s -> let s' := s <| s_flags ::= (fun f => without f TCP_FIN) |> in seg_at k s' /\ fin s' = false.
Proof.
  intros [Hp Hs Hl He Hd Hsyn Hf] s'. unfold s', fin. cbn. rewrite has_without_same. split; [|done].
  constructor; cbn; try done.
  - by rewrite has_without.
  - unfold fin. cbn. by rewrite has_without_same.
Qed.
Definition with_fin (s : tcp_seg) : tcp_seg := s <| s_flags ::= (fun f => Z.lor f TCP_FIN) |>.
Lemma seg_set_fin k s :
  seg_at k s -> k + s_len s = len ->
  seg_at k (with_fin s) /\ fin (with_fin s) = true /\ span (with_fin s) = s_len s + 1.
Proof.
  intros [Hp Hs Hl He Hd Hsyn Hf] Hend. unfold with_fin, fin, span. cbn. unfold fin. cbn. rewrite has_lor. change (has TCP_FIN TCP_FIN) with true.
  rewrite orb_true_r. split; [|done]. constructor; cbn; try done. rewrite has_lor, Hsyn. done.
Qed.

Lemma span_len s : s_len s <= span s <= s_len s + 1.
Proof. unfold span. case_match; lia. Qed.
Lemma span_nofin s : fin s = false -> span s = s_len s.
Proof. unfold span. intros ->. lia. Qed.
Lemma seg_span_end k s : seg_at k s -> k + span s <= len + 1.
Proof. intros H. pose proof (sg_end _ _ H). pose proof (span_len s). lia. Qed.
Lemma seg_span_fin k s : seg_at k s -> (k + span s =? len + 1) = fin s.
Proof. intros H. pose proof (sg_end _ _ H). pose proof (sg_fin _ _ H). unfold span. destruct (fin s); [specialize (H1 eq_refl)|]; lia. Qed.
Lemma seg_tcplen k s : seg_at k s -> u16 (TCP_TCPLEN s) = span s.
Proof.
  intros H. rewrite (tcplen_span k) by done. pose proof (sg_len _ _ H). pose proof (span_len s). apply u16_small. lia.
Qed.
Lemma seg_piece k s : seg_at k s -> s_p s = field S k (span s).
Proof.
  intros H. rewrite (sg_data _ _ H). unfold span. destruct (fin s) eqn:E; [|f_equal; lia].
  rewrite (field_split _ _ (s_len s) (s_len s + 1)); [|apply (sg_pos _ _ H)|pose proof (sg_len _ _ H); lia].
  rewrite <- (app_nil_r (field S k (s_len s))) at 1. f_equal. symmetry. unfold field.
  rewrite drop_ge; [apply take_nil|]. pose proof (sg_fin _ _ H E). unfold blen in *. lia.
Qed.
Lemma seg_blen k s : seg_at k s -> blen (s_p s) = s_len s.
Proof.
  intros H. rewrite (sg_data _ _ H). pose proof (sg_pos _ _ H). pose proof (sg_len _ _ H). pose proof (sg_end _ _ H).
  rewrite blen_field; lia.
Qed.
Lemma queue_past w l : queue w (len + 1) l -> l = [].
Proof.
  destruct l as [|s l]; [done|]. intros (k & Hk & Hs & Hp & _). pose proof (sg_end _ _ Hs). pose proof (sg_len _ _ Hs). lia.
Qed.

(** *** The steps of [receive_data] *)

(** the segment is at [k] and its number in [seqno] *)
Definition at_seq (k : Z) (i : input) : Prop := seg_at k (inseg i) /\ seqno i = seq b k /\ 0 < span (inseg i).

(** what the application gets *)
Definition got (i : input) : list Z := default [] (recv_data i).

Lemma check_true {A} c (k : outcome A) : c = true -> check c k = k.
Proof. by intros ->. Qed.

Lemma trim_front_ok n a k t :
  receiver n a (pcb t) -> at_seq k (inp t) -> held (inp t) = true -> tcplen (inp t) = span (inseg (inp t)) -> -1073741824 <= k - n <= 1073741824 ->
  if k + span (inseg (inp t)) <=? n then trim_front t = Ok (t <| pcb ::= tcp_ack_now |>)
  else exists s, trim_front t = Ok (if k <? n then t <| inp ::= (fun i => i <| inseg := s |> <| seqno := seq b n |>) |> else t)
    /\ (k < n -> seg_at n s /\ n + span s = k + span (inseg (inp t))).
Proof.
  intros Hr (Hs & Hq & Hpos) Hh Ht Hk. pose proof (rv_nxt _ _ _ Hr) as Hn. unfold trim_front. cbv zeta. rewrite Hn, Hq, Ht.
  pose proof (sg_len _ _ Hs). pose proof (span_len (inseg (inp t))).
  rewrite (seq_BETWEEN b n (k + 1) (k + span (inseg (inp t)) - 1)); [|seqs|seqs|seqs|unfold near; lia|unfold near; lia].
  rewrite (seq_LT b k n) by (try seqs; unfold near; lia). rewrite (seq_s32 b n k) by (try seqs; unfold near; lia).
  destruct (Z.leb_spec (k + span (inseg (inp t))) n).
  - rewrite (proj2 (Z.leb_gt n _)), andb_false_r, (proj2 (Z.ltb_lt _ _)) by lia. done.
  - destruct (Z.ltb_spec k n).
    + rewrite !(proj2 (Z.leb_le _ _)) by lia. cbn [andb]. rewrite Hh, !check_true; [|rewrite (seg_blen _ _ Hs); lia|lia|done].
      eexists. split; [reflexivity|]. intros _. by apply seg_drop; [|lia].
    + rewrite (proj2 (Z.leb_gt (k + 1) _)) by lia. cbn [andb]. exists (inseg (inp t)). split; [done|lia].
Qed.

Lemma trim_to_window_ok n a t :
  receiver n a (pcb t) -> at_seq n (inp t) -> 0 < rcv_wnd (pcb t) ->
  exists s, trim_to_window t = Ok (t <| inp ::= (fun i => i <| inseg := s |> <| tcplen := span s |>) |>)
    /\ seg_at n s /\ span s = Z.min (span (inseg (inp t))) (rcv_wnd (pcb t)).
Proof.
  intros Hr (Hs & Hq & Hpos) Hw. pose proof (rv_wnd _ _ _ Hr) as Hw'. unfold trim_to_window. cbv zeta. cbn [inp pcb set].
  pose proof (seg_tcplen _ _ Hs) as Htl. pose proof (span_len (inseg (inp t))).
  cbn [tcplen set inseg]. rewrite Htl. destruct (Z.ltb_spec (rcv_wnd (pcb t)) (span (inseg (inp t)))) as [Hlt|Hge].
  - destruct (seg_no_fin _ _ Hs) as [H1 H2]. set (s1 := (inseg (inp t)) <| s_flags ::= _ |>) in *.
    pose proof (sg_syn _ _ H1) as Hsyn. cbn [s_flags set]. change (has (without (s_flags (inseg (inp t))) TCP_FIN) TCP_SYN) with (has (s_flags s1) TCP_SYN).
    rewrite Hsyn, Z.sub_0_r. assert (s_len s1 = s_len (inseg (inp t))) as Hl by done.
    destruct (seg_cut n (rcv_wnd (pcb t)) s1 H1 H2) as (H3 & H4 & _); [lia|].
    exists (cut (rcv_wnd (pcb t)) s1). rewrite (seg_tcplen _ _ H3). rewrite check_true; [split; [|split; [done|lia]]|].
    + destruct t as [? [] ?]. done.
    + cbn. rewrite Hq, H4, (rv_nxt _ _ _ Hr). lia.
  - exists (inseg (inp t)). split; [|split; [done|lia]]. destruct t as [? [] ?]. cbn in Htl. fields. by rewrite Htl.
Qed.

(** a queue behind position [e] whose first segment is not covered up to there *)
Definition uncovered (w lo e : Z) (l : list tcp_seg) : Prop :=
  match l with
  | [] => True
  | s :: l' => exists k, lo <= k /\ seg_at k s /\ 0 < span s /\ k + span s <= w /\ queue w (k + span s) l' /\ e < k + s_len s
  end.

Lemma drop_covered_ok w n i lo l :
  seg_at n (inseg i) -> fin (inseg i) = false -> seqno i = seq b n -> tcplen i = s_len (inseg i) -> n + s_len (inseg i) <= w ->
  w <= n + TCP_WND -> n < lo -> queue w lo l ->
  let '(i', l') := drop_covered i l in
  i' = i /\ uncovered w lo (n + s_len (inseg i)) l'
  \/ l' = [] /\ n + s_len (inseg i) = len /\ len + 1 <= w /\ i' = i <| inseg := with_fin (inseg i) |> <| tcplen := s_len (inseg i) + 1 |>.
Proof.
  intros Hs Hf Hq Ht He Hw. unfold TCP_WND, TCP_MSS in *. revert lo. induction l as [|next rest IH]; intros lo Hlo; [by left|].
  intros (k & Hk & Hn & Hp & Hkw & Hr). pose proof (sg_len _ _ Hn). pose proof (span_len next). cbn [drop_covered].
  rewrite Hq, Ht, (sg_seqno _ _ Hn).
  rewrite (seq_GEQ b (n + s_len (inseg i)) (k + s_len next)); [|seqs|seqs|unfold near; pose proof (sg_len _ _ Hs); lia].
  destruct (Z.leb_spec (k + s_len next) (n + s_len (inseg i))) as [Hc|Hc].
  - rewrite (sg_syn _ _ Hs), andb_true_r. destruct (fin next) eqn:Ef.
    + pose proof (sg_fin _ _ Hn Ef) as Hend. pose proof (sg_end _ _ Hs). assert (span next = s_len next + 1) as Hsp by (unfold span; by rewrite Ef).
      rewrite (queue_past w rest) by (eapply queue_weaken; [| |exact Hr]; lia). right.
      destruct (seg_set_fin _ _ Hs) as (F1 & F2 & F3); [lia|]. cbv zeta. change ((inseg i) <| s_flags ::= (fun f => Z.lor f TCP_FIN) |>) with (with_fin (inseg i)). rewrite (seg_tcplen _ _ F1), F3.
      split_and!; [done|lia|lia|done].
    + specialize (IH (k + span next) ltac:(lia) Hr). cbv zeta. destruct (drop_covered i rest) as [i' l'].
      destruct IH as [[-> IH]|IH]; [left; split; [done|]|by right]. destruct l' as [|s l']; [done|].
      destruct IH as (k' & K1 & K2). exists k'. split; [lia|done].
  - left. split; [done|]. exists k. split_and!; try done; lia.
Qed.

(** how far the data goes on without a gap *)
Fixpoint dq_end (n : Z) (l : list tcp_seg) : Z :=
  match l with
  | s :: l' => if s_seqno s =? seq b n then dq_end (n + span s) l' else n
  | [] => n
  end.
Lemma dq_end_ge n l w lo : queue w lo l -> n <= dq_end n l.
Proof.
  revert n lo. induction l as [|s l IH]; intros n lo; cbn; [lia|]. intros (k & _ & _ & Hp & _ & Hq). case_match; [|lia].
  specialize (IH (n + span s) _ Hq). lia.
Qed.

Lemma adjust_ooseq_ok w n t :
  seg_at n (inseg (inp t)) -> seqno (inp t) = seq b n -> tcplen (inp t) = span (inseg (inp t)) -> 0 < span (inseg (inp t)) ->
  n + span (inseg (inp t)) <= w -> w <= n + TCP_WND -> queue w (n + 1) (ooseq (pcb t)) ->
  exists s l, adjust_ooseq t = Ok (t <| inp ::= (fun i => i <| inseg := s |> <| tcplen := span s |>) |> <| pcb ::= (fun p => p <| ooseq := l |>) |>)
    /\ seg_at n s /\ 0 < span s /\ n + span s <= w /\ queue w (n + span s) l /\ n + span (inseg (inp t)) <= dq_end (n + span s) l.
Proof.
  intros Hs Hq Ht Hp He Hw Hqu. unfold adjust_ooseq. destruct (ooseq (pcb t)) as [|c l0] eqn:El.
  { exists (inseg (inp t)), []. split; [|cbn; split_and!; try done; lia]. destruct t as [[] [] ?]. cbn in *. by subst. }
  destruct (fin (inseg (inp t))) eqn:Ef.
  { exists (inseg (inp t)), []. split; [|cbn; split_and!; try done; lia]. destruct t as [[] [] ?]. cbn in *. by subst. }
  pose proof (span_nofin _ Ef) as Hsp. pose proof Ht as Ht0. rewrite Hsp in Ht, Hp, He.
  pose proof (drop_covered_ok w n (inp t) (n + 1) (c :: l0) Hs Ef Hq Ht He Hw ltac:(lia) Hqu) as D.
  destruct (drop_covered (inp t) (c :: l0)) as [i next]. destruct D as [[-> D]|(-> & H1 & H2 & ->)].
  - destruct next as [|h r].
    + exists (inseg (inp t)), []. split; [|cbn; split_and!; try done; lia]. cbn. clear -Ht0. destruct t as [? [] ?]. cbn in Ht0. by subst.
    + destruct D as (k & Hk & Hh & Hhp & Hhw & Hr & Hun). unfold TCP_WND, TCP_MSS in *. pose proof (sg_len _ _ Hs). pose proof (span_len h).
      rewrite Hq, Ht, (sg_seqno _ _ Hh), (sg_syn _ _ Hs).
      rewrite (seq_GT b (n + s_len (inseg (inp t))) k); [|seqs|seqs|unfold near; lia]. destruct (Z.ltb_spec k (n + s_len (inseg (inp t)))).
      * rewrite (seq_u16 b k n), Z.sub_0_r by (try seqs; lia). destruct (seg_cut n (k - n) (inseg (inp t)) Hs Ef) as (C1 & C2 & C3 & C4); [lia|].
        exists (cut (k - n) (inseg (inp t))), (h :: r). rewrite (seg_tcplen _ _ C1), C2. split.
        { cbn [obind]. rewrite check_true; [by destruct t as [? [] ?]|]. cbn. rewrite Hq. apply Z.eqb_eq. seqs. }
        split_and!; try done; try lia; [by exists k; split_and!; try done; lia|]. cbn [dq_end].
        rewrite (sg_seqno _ _ Hh). replace (n + (k - n)) with k by lia. rewrite Z.eqb_refl. pose proof (dq_end_ge (k + span h) r _ _ Hr). lia.
      * exists (inseg (inp t)), (h :: r). split; [cbn; clear -Ht0; destruct t as [? [] ?]; cbn in Ht0; by subst|].
        assert (queue w (n + span (inseg (inp t))) (h :: r)) as Hqq by (exists k; split_and!; try done; lia).
        split_and!; try done; try lia. by eapply dq_end_ge.
  - destruct (seg_set_fin _ _ Hs H1) as (C1 & C2 & C3). exists (with_fin (inseg (inp t))), []. rewrite C3.
    split; [by destruct t as [? [] ?]|]. split_and!; try done; try lia. cbn. lia.
Qed.

Lemma receiver_recv_part n a p p' : recv_part p' = recv_part p -> receiver n a p -> receiver n a p'.
Proof. unfold recv_part. intros E [? ? ? ? ? ? ? ?]. simplify_eq. constructor; congruence. Qed.

Definition fin_known (n : Z) (i : input) : Prop := has (recv_flags i) TF_GOT_FIN = (n =? len + 1).

(** the positions from [n] to [n'] were handed to the application *)
Record delivered (w a n n' : Z) (t t' : tcp) : Prop := {
  dv_recv : receiver n' a (pcb t');
  dv_wnd : n' + rcv_wnd (pcb t') = w;
  dv_queue : queue w (n' + 1) (ooseq (pcb t'));
  dv_data : got (inp t') = got (inp t) ++ field S n (n' - n);
  dv_fin : fin_known n' (inp t');
  dv_send : send_part (pcb t') = send_part (pcb t);
  dv_net : net t' = net t;
  dv_state : state (pcb t') = state (pcb t) \/ n' = len + 1
}.

(** a segment that is in sequence, as an input *)
Lemma got_recv_cat s k i :
  seg_at k s -> got (if 0 <? blen (s_p s) then recv_cat (s_p s) i else i) = got i ++ field S k (span s).
Proof.
  intros Hs. rewrite <- (seg_piece _ _ Hs). destruct (Z.ltb_spec 0 (blen (s_p s))).
  - unfold got, recv_cat. cbn. by destruct (recv_data i).
  - assert (s_p s = []) as -> by (destruct (s_p s); [done|unfold blen in *; cbn in *; lia]). by rewrite app_nil_r.
Qed.
Lemma fin_known_set k s i :
  seg_at k s -> k <= len -> 0 < span s -> fin_known k i ->
  fin_known (k + span s) (if fin s then i <| recv_flags ::= (fun f => Z.lor f TF_GOT_FIN) |> else i).
Proof.
  intros Hs Hk Hp. unfold fin_known. rewrite (seg_span_fin _ _ Hs). rewrite (proj2 (Z.eqb_neq k (len + 1))) by lia.
  destruct (fin s); [|done]. cbn. rewrite has_lor. change (has TF_GOT_FIN TF_GOT_FIN) with true. by rewrite orb_true_r.
Qed.

Lemma dequeue_ok w a l n t :
  receiver n a (pcb t) -> told w a -> n + rcv_wnd (pcb t) = w -> queue w n l -> ooseq (pcb t) = l -> fin_known n (inp t) ->
  exists t', dequeue_ooseq l t = Ok t' /\ delivered w a n (dq_end n l) t t'.
Proof.
  intros Hr Ht. revert n t Hr. induction l as [|c l IH]; intros n t Hr Hw Hq Ho Hf.
  { exists t. split; [done|]. constructor; try done; cbn; [by rewrite Ho| |by left]. by rewrite field_none, app_nil_r by lia. }
  destruct Hq as (k & Hk & Hc & Hp & Hkw & Hq). cbn [dequeue_ooseq dq_end]. rewrite (rv_nxt _ _ _ Hr), (sg_seqno _ _ Hc).
  pose proof (rv_wnd _ _ _ Hr). pose proof (sg_len _ _ Hc). pose proof (span_len c). unfold TCP_WND, TCP_MSS, told in *.
  rewrite (seq_inj b k n) by (unfold near; lia). destruct (Z.eqb_spec k n) as [->|Ne].
  - rewrite (tcplen_span n c Hc). destruct (advance_window_ok n a (span c) (pcb t) Hr) as (x & -> & Hr'); [unfold told; lia|lia|by apply seg_span_end|].
    cbn [obind]. match goal with |- context [dequeue_ooseq l ?u] => set (t1 := u) end.
    destruct (IH (n + span c) t1) as (t' & -> & [D1 D2 D3 D4 D5 D6 D7 D8]).
    { eapply receiver_recv_part, Hr'. unfold t1. by destruct (fin c && _). }
    { unfold t1. cbn. destruct (fin c && _); cbn; lia. }
    { done. }
    { done. }
    { unfold t1. cbn [inp set]. apply fin_known_set; [done| |done|].
      - pose proof (sg_end _ _ Hc). lia.
      - unfold fin_known. rewrite <- Hf. by destruct (0 <? _). }
    exists t'. split; [done|]. pose proof (dq_end_ge (n + span c) l _ _ Hq). pose proof (sg_pos _ _ Hc). constructor; try done.
    + rewrite D4. unfold t1. rewrite (field_split S n (span c) (dq_end (n + span c) l - n)), app_assoc by lia. f_equal; [|f_equal; lia].
      erewrite <- (got_recv_cat c n (inp t)) by done. destruct (fin c), (0 <? blen (s_p c)); reflexivity.
    + rewrite D6. unfold t1. by destruct (fin c && _).
    + pose proof (seg_span_fin _ _ Hc) as Hsf. pose proof (rv_pos _ _ _ D1). destruct (fin c) eqn:Ef; [right; lia|]. exact D8.
  - exists t. split; [done|]. constructor; try done; [|by rewrite Z.sub_diag, field_none, app_nil_r by lia|by left].
    rewrite Ho. exists k. split_and!; try done; lia.
Qed.

Lemma tcp_ack_parts p :
  recv_part (tcp_ack p) = recv_part p /\ send_part (tcp_ack p) = send_part p /\ ooseq (tcp_ack p) = ooseq p /\ rcv_wnd (tcp_ack p) = rcv_wnd p.
Proof. unfold tcp_ack. by destruct (has _ _). Qed.

(** the segment itself, once it is trimmed on both sides *)
Lemma accept_ok w a n s l t :
  receiver n a (pcb t) -> told w a -> n + rcv_wnd (pcb t) = w -> inseg (inp t) = s -> ooseq (pcb t) = l -> seqno (inp t) = seq b n -> tcplen (inp t) = span s ->
  seg_at n s -> 0 < span s -> n + span s <= w -> queue w (n + span s) l -> recv_data (inp t) = None -> fin_known n (inp t) ->
  exists t',
    (try p := advance (tcplen (inp t)) ((pcb t) <| rcv_nxt := seqno (inp t) |>) in
     let i := inp t in
     let s := inseg i in
     let i := if 0 <? blen (s_p s) then i <| recv_data := Some (s_p s) |> <| held := false |> else i in
     let i := if fin s then i <| recv_flags ::= (fun f => Z.lor f TF_GOT_FIN) |> else i in
     try t := dequeue_ooseq (ooseq p) (t <| pcb := p |> <| inp := i |>) in
     Ok (t <| pcb ::= tcp_ack |>)) = Ok t' /\ delivered w a n (dq_end (n + span s) l) t t'.
Proof.
  intros Hr Ht Hw Es El Hq Htl Hs Hp Hpw Hqu Hd Hf. rewrite Htl, Hq.
  assert ((pcb t) <| rcv_nxt := seq b n |> = pcb t) as ->.
  { pose proof (rv_nxt _ _ _ Hr) as E. clear -E. destruct (pcb t). cbn in E. by subst. }
  pose proof (rv_wnd _ _ _ Hr). pose proof (dq_end_ge (n + span s) l _ _ Hqu) as Hge.
  destruct (advance_window_ok n a (span s) (pcb t) Hr) as (x & -> & Hr'); [unfold told in *; lia|lia|by apply seg_span_end|].
  cbn [obind]. rewrite Es. cbv zeta. match goal with |- context [dequeue_ooseq _ ?u] => set (t1 := u) end.
  destruct (dequeue_ok w a l (n + span s) t1) as (t' & E & [D1 D2 D3 D4 D5 D6 D7 D8]).
  { eapply receiver_recv_part, Hr'. done. }
  { done. }
  { unfold t1. cbn. lia. }
  { done. }
  { done. }
  { unfold t1. cbn [inp set]. apply fin_known_set; [done| |done|].
    - pose proof (sg_end _ _ Hs). pose proof (sg_len _ _ Hs). lia.
    - unfold fin_known. rewrite <- Hf. by destruct (0 <? _). }
  cbn [ooseq set]. rewrite El, E. cbn [obind]. eexists. split; [reflexivity|].
  destruct (tcp_ack_parts (pcb t')) as (A1 & A2 & A3 & A4). pose proof (sg_pos _ _ Hs).
  constructor; cbn [pcb set inp net]; [by eapply receiver_recv_part|by rewrite A4|by rewrite A3| |done|by rewrite A2, D6|done|unfold tcp_ack; by destruct (has _ _)].
  rewrite D4, (field_split S n (span s) (dq_end (n + span s) l - n)), app_assoc by lia. f_equal; [|f_equal; lia].
  rewrite <- (got_recv_cat s n (inp t)) by done. unfold t1, recv_cat, got.
  destruct (fin s), (0 <? blen (s_p s)); cbn; by rewrite ?Hd.
Qed.

Lemma receive_in_order_ok w a n t :
  receiver n a (pcb t) -> told w a -> n + rcv_wnd (pcb t) = w -> 0 < rcv_wnd (pcb t) -> queue w (n + 1) (ooseq (pcb t)) -> at_seq n (inp t) ->
  recv_data (inp t) = None -> fin_known n (inp t) ->
  exists t' n', receive_in_order t = Ok t' /\ delivered w a n n' t t' /\ Z.min (n + span (inseg (inp t))) w <= n'.
Proof.
  intros Hr Ht Hw Hw0 Hq Ha Hd Hf. unfold receive_in_order.
  destruct (trim_to_window_ok n a t Hr Ha Hw0) as (s1 & -> & Hs1 & Hsp1). cbn [obind].
  destruct Ha as (Hs & Hsq & Hpos). pose proof (rv_wnd _ _ _ Hr).
  match goal with |- context [adjust_ooseq ?u] => set (t1 := u) end.
  destruct (adjust_ooseq_ok w n t1) as (s2 & l & -> & Hs2 & Hp2 & Hw2 & Hq2 & Hend); try done; cbn; try lia.
  cbn [obind].
  destruct (accept_ok w a n s2 l (t1 <| inp ::= (fun i => i <| inseg := s2 |> <| tcplen := span s2 |>) |> <| pcb ::= (fun p => p <| ooseq := l |>) |>))
    as (t' & E & [D1 D2 D3 D4 D5 D6 D7 D8]); try done.
  { by eapply receiver_recv_part, Hr. }
  exists t', (dq_end (n + span s2) l). split; [exact E|]. split; [by constructor|]. cbn in Hend. lia.
Qed.

(** *** Out-of-order segments *)

Lemma drop_behind_ok w k s lo l :
  seg_at k s -> fin s = false -> k + s_len s <= w -> w <= k + TCP_WND -> k < lo -> queue w lo l ->
  let '(s', l') := drop_behind (seq b k) s l in
  s' = s /\ uncovered w lo (k + s_len s) l' \/ l' = [] /\ k + s_len s = len /\ len + 1 <= w /\ s' = with_fin s.
Proof.
  intros Hs Hf He Hw. unfold TCP_WND, TCP_MSS in *. revert lo. induction l as [|n rest IH]; intros lo Hlo; [by left|].
  intros (j & Hj & Hn & Hp & Hjw & Hr). pose proof (sg_len _ _ Hn). pose proof (span_len n). pose proof (sg_len _ _ Hs). cbn [drop_behind].
  rewrite (sg_seqno _ _ Hn), (seq_GEQ b (k + s_len s) (j + s_len n)); [|seqs|seqs|unfold near; lia].
  destruct (Z.leb_spec (j + s_len n) (k + s_len s)) as [Hc|Hc].
  - destruct (fin n) eqn:Ef.
    + pose proof (sg_fin _ _ Hn Ef) as Hend. pose proof (sg_end _ _ Hs). assert (span n = s_len n + 1) as Hsp by (unfold span; by rewrite Ef).
      rewrite (queue_past w rest) by (eapply queue_weaken; [| |exact Hr]; lia). right. split_and!; [done|lia|lia|done].
    + specialize (IH (j + span n) ltac:(lia) Hr). destruct (drop_behind _ s rest) as [s' l'].
      destruct IH as [[-> IH]|IH]; [left; split; [done|]|by right]. destruct l' as [|h l']; [done|].
      destruct IH as (j' & K1 & K2). exists j'. split; [lia|done].
  - left. split; [done|]. exists j. split_and!; try done; lia.
Qed.

(** the incoming segment at [k] in front of what comes behind it *)
Lemma insert_ok w k s lo l :
  seg_at k s -> 0 < span s -> k + span s <= w -> w <= k + TCP_WND -> lo <= k -> queue w (k + 1) l ->
  queue w lo (tcp_oos_insert_segment (seq b k) s l).
Proof.
  intros Hs Hp He Hw Hlo Hq. unfold tcp_oos_insert_segment. destruct (fin s) eqn:Ef; [by exists k|].
  pose proof (span_nofin _ Ef) as Hsp. rewrite Hsp in Hp, He.
  pose proof (drop_behind_ok w k s (k + 1) l Hs Ef He Hw ltac:(lia) Hq) as D. destruct (drop_behind (seq b k) s l) as [s' next].
  destruct D as [[-> D]|(-> & H1 & H2 & ->)].
  - destruct next as [|h r]; [exists k; rewrite Hsp; split_and!; done|]. destruct D as (j & Hj & Hh & Hhp & Hhw & Hr & Hun).
    unfold TCP_WND, TCP_MSS in *. pose proof (span_len h).
    rewrite (sg_seqno _ _ Hh), (seq_GT b (k + s_len s) j); [|seqs|seqs|unfold near; lia].
    assert (forall e, e <= j -> queue w e (h :: r)) as Hhr by (intros e Hle; exists j; split_and!; done).
    destruct (Z.ltb_spec j (k + s_len s)).
    + assert (cut (seq b j - seq b k) s = cut (j - k) s) as ->.
      { unfold cut. rewrite (seq_u16 b j k), u16_small by (try seqs; lia). done. }
      destruct (seg_cut k (j - k) s Hs Ef) as (C1 & C2 & _ & _); [lia|]. exists k. rewrite C2. split_and!; try done; try lia.
      apply Hhr. lia.
    + exists k. rewrite Hsp. split_and!; try done. by apply Hhr.
  - destruct (seg_set_fin _ _ Hs H1) as (C1 & C2 & C3). exists k. rewrite C3. split_and!; try done; lia.
Qed.
(** the first of them starts at the same position and is shorter *)
Lemma insert_longer_ok w k s h lo l :
  seg_at k s -> 0 < span s -> k + span s <= w -> w <= k + TCP_WND -> lo <= k -> seg_at k h -> s_len h < s_len s -> 0 < span h -> queue w (k + span h) l ->
  queue w lo (tcp_oos_insert_segment (seq b k) s (h :: l)).
Proof.
  intros Hs Hp He Hw Hlo Hh Hl Hhp Hq. assert (queue w (k + 1) l) as Hq' by (eapply queue_weaken; [| |exact Hq]; lia).
  pose proof (insert_ok w k s lo l Hs Hp He Hw Hlo Hq') as I. unfold tcp_oos_insert_segment in *. destruct (fin s) eqn:Ef; [done|].
  cbn [drop_behind]. rewrite (sg_seqno _ _ Hh), (seq_GEQ b (k + s_len s) (k + s_len h)); [|seqs|seqs|].
  2: { unfold near. pose proof (sg_len _ _ Hs). pose proof (sg_len _ _ Hh). lia. }
  rewrite (proj2 (Z.leb_le _ _)) by lia. destruct (fin h) eqn:Efh; [|exact I].
  pose proof (sg_fin _ _ Hh Efh). pose proof (sg_end _ _ Hs). lia.
Qed.

Lemma trim_prev_ok k j q :
  seg_at j q -> fin q = false -> 0 < span q -> j < k -> k <= j + TCP_WND ->
  seg_at j (trim_prev (seq b k) q) /\ 0 < span (trim_prev (seq b k) q) <= span q /\ j + span (trim_prev (seq b k) q) <= k.
Proof.
  intros Hq Hf Hp Hj Hk. unfold trim_prev, TCP_WND, TCP_MSS in *. pose proof (sg_len _ _ Hq). rewrite (span_nofin _ Hf) in *.
  rewrite (sg_seqno _ _ Hq), (seq_GT b (j + s_len q) k); [|seqs|seqs|unfold near; lia]. destruct (Z.ltb_spec k (j + s_len q)).
  - assert (cut (seq b k - seq b j) q = cut (k - j) q) as ->.
    { unfold cut. rewrite (seq_u16 b k j), u16_small by (try seqs; lia). done. }
    destruct (seg_cut j (k - j) q Hq Hf) as (C1 & C2 & _ & _); [lia|]. rewrite C2. split; [done|]. lia.
  - rewrite (span_nofin _ Hf). split; [done|]. lia.
Qed.

(** the queue while it is walked along: [prev] starts before position [k] *)
Definition walked (w lo k : Z) (prev : option tcp_seg) (l : list tcp_seg) : Prop :=
  match prev with
  | None => queue w lo l
  | Some q => exists j, lo <= j < k /\ seg_at j q /\ 0 < span q /\ j + span q <= w /\ queue w (j + span q) l
  end.
Definition before (prev : option tcp_seg) : list tcp_seg := match prev with Some q => [q] | None => [] end.
(** what comes behind [prev] may be exchanged *)
Lemma walked_base w lo k prev l :
  walked w lo k prev l -> exists e, lo <= e /\ queue w e l /\ forall l', queue w e l' -> queue w lo (before prev ++ l').
Proof.
  destruct prev as [q|]; cbn; [|by exists lo]. intros (j & H0 & H1 & H2 & H3 & H4). exists (j + span q). split_and!; [lia|done|].
  intros l' H'. exists j. split_and!; try done; lia.
Qed.
Lemma queue_nofin w j q s l : seg_at j q -> queue w (j + span q) (s :: l) -> fin q = false.
Proof.
  intros Hq H. destruct (fin q) eqn:Ef; [|done]. rewrite <- (seg_span_fin _ _ Hq) in Ef. apply Z.eqb_eq in Ef. rewrite Ef in H.
  by apply queue_past in H.
Qed.

Section Insert.
Context (w n k : Z) (m : bool) (p : tcp_pcb) (i : input).
Context (Hi : at_seq k i) (Htl : tcplen i = span (inseg i)) (He : k + span (inseg i) <= w).
Context (Hn : rcv_nxt p = seq b n) (Hw : n + rcv_wnd p = w) (Hww : w <= n + TCP_WND) (Hnk : n < k).

(** the place is between [prev] and [next] *)
Lemma insert_here prev next rest lo :
  n <= lo -> lo <= k -> walked w lo k prev (next :: rest) -> queue w (k + 1) (next :: rest) ->
  queue w lo (map (trim_prev (seqno i)) (before prev) ++ tcp_oos_insert_segment (seqno i) (inseg i) (next :: rest)).
Proof.
  destruct Hi as (Hs & Hq & Hp). intros Hlo Hlk Hwk Hnext. rewrite Hq. unfold TCP_WND, TCP_MSS in *. destruct prev as [q|]; cbn.
  - destruct Hwk as (j & Hj & Hsq & Hsp & Hjw & Hqq).
    destruct (trim_prev_ok k j q Hsq (queue_nofin _ _ _ _ _ Hsq Hqq) Hsp) as (T1 & T2 & T3); [lia|unfold TCP_WND, TCP_MSS; lia|].
    exists j. split_and!; try done; try lia. apply insert_ok; try done; unfold TCP_WND, TCP_MSS; lia.
  - apply insert_ok; try done; unfold TCP_WND, TCP_MSS; lia.
Qed.
(** the place is behind the last segment *)
Lemma insert_last next j e :
  e <= j -> j < k -> n <= j -> seg_at j next -> 0 < span next -> fin next = false -> queue w e [trim_prev (seqno i) next; inseg i].
Proof.
  destruct Hi as (Hs & Hq & Hp). intros Hej Hjk Hnj Hx Hxp Hf. rewrite Hq.
  pose proof (sg_len _ _ Hx). destruct (trim_prev_ok k j next Hx Hf Hxp) as (T1 & T2 & T3); [done|lia|].
  exists j. split_and!; try done; [lia|lia|]. exists k. split_and!; done.
Qed.

Lemma queue_ooseq_ok prev l lo :
  n <= lo -> lo <= k -> walked w lo k prev l -> exists l', queue_ooseq m p i prev l = Ok (i, l') /\ queue w lo l'.
Proof.
  pose proof Hi as (Hs & Hq & Hp). revert prev lo. induction l as [|next rest IH]; intros prev lo Hlo Hlk Hwk.
  { destruct (walked_base _ _ _ _ _ Hwk) as (e & _ & _ & Hb). eexists. split; [reflexivity|]. specialize (Hb [] I). by rewrite app_nil_r in Hb. }
  destruct (walked_base _ _ _ _ _ Hwk) as (e & Hle & (j & Hj & Hx & Hxp & Hxw & Hxr) & Hb).
  assert (forall e', e' <= j -> queue w e' (next :: rest)) as Hnx by (intros e' ?; exists j; split_and!; try done; lia).
  cbn [queue_ooseq]. rewrite Hq, (sg_seqno _ _ Hx). unfold TCP_WND, TCP_MSS in *. fold (before prev).
  rewrite (seq_inj b k j) by (unfold near; lia). destruct (Z.eqb_spec k j) as [<-|Hne].
  { destruct ((s_len next <? s_len (inseg i)) && m) eqn:El; (eexists; split; [reflexivity|]); [|by apply Hb, Hnx].
    apply andb_true_iff in El as [El%Z.ltb_lt _]. apply Hb. by apply insert_longer_ok; try done; unfold TCP_WND, TCP_MSS; lia. }
  set (here := match prev with None => _ | Some q => _ end).
  assert (here = (k <? j)) as ->.
  { unfold here. destruct prev as [q|]; [|apply (seq_LT b); try seqs; unfold near; lia]. destruct Hwk as (jq & ? & Hsq & _).
    rewrite (sg_seqno _ _ Hsq), (seq_BETWEEN b k (jq + 1) (j - 1)); [lia|seqs|seqs|seqs|unfold near; lia|unfold near; lia]. }
  destruct (Z.ltb_spec k j).
  { destruct m; (eexists; split; [reflexivity|]); [|by apply Hb, Hnx]. rewrite <- Hq. apply insert_here; try done. apply Hnx. lia. }
  destruct rest as [|r rest'].
  - rewrite (seq_GT b k j), (proj2 (Z.ltb_lt _ _)) by (try seqs; unfold near; lia).
    destruct (fin next || negb m) eqn:Ef; [eexists; split; [reflexivity|]; by apply Hb, Hnx|].
    apply orb_false_iff in Ef as [Ef _]. unfold trim_overrun. rewrite Htl, Hq, Hn.
    rewrite (seq_GT b (k + span (inseg i)) w); [|seqs|seqs|unfold near; pose proof (sg_len _ _ Hs); pose proof (span_len (inseg i)); lia].
    rewrite (proj2 (Z.ltb_ge _ _)) by lia. cbn [obind]. eexists. split; [reflexivity|]. apply Hb. rewrite <- Hq. eapply insert_last; try done; lia.
  - destruct (IH (Some next) e) as (l' & -> & Hl'); [lia|lia|exists j; split_and!; try done; lia|].
    cbn [obind]. eexists. split; [reflexivity|]. by apply Hb.
Qed.
End Insert.

(** *** The data of a segment *)

(** only acknowledgements of position [n] were sent *)
Definition acks (n : Z) (o o' : list sent) : Prop :=
  exists l, o' = o ++ l /\ Forall (fun e => match e with Ack _ r _ => r = seq b n | _ => False end) l.
Lemma acks_none n o : acks n o o.
Proof. exists []. by rewrite app_nil_r. Qed.
Lemma acks_trans n o o' o'' : acks n o o' -> acks n o' o'' -> acks n o o''.
Proof. intros (l & -> & H) (l' & -> & H'). exists (l ++ l'). rewrite app_assoc. split; [done|]. by apply Forall_app. Qed.

Lemma empty_ack_ok n a d t :
  receiver n a (pcb t) ->
  exists a', a <= a' /\ receiver n a' (pcb (tcp_send_empty_ack d t)) /\ inp (tcp_send_empty_ack d t) = inp t
    /\ send_part (pcb (tcp_send_empty_ack d t)) = send_part (pcb t) /\ ooseq (pcb (tcp_send_empty_ack d t)) = ooseq (pcb t)
    /\ rcv_wnd (pcb (tcp_send_empty_ack d t)) = rcv_wnd (pcb t) /\ state (pcb (tcp_send_empty_ack d t)) = state (pcb t)
    /\ acks n (net t) (net (tcp_send_empty_ack d t)).
Proof.
  intros [H1 H2 H3 H4 H5 H6 H7 H8].
  destruct d; cbn; [exists a; split; [lia|]; split; [by constructor|]| |]; try exists (n + rcv_ann_wnd (pcb t)); try (split; [lia|]); try (split;
    [constructor; cbn; try done; try lia; rewrite H1; seqs|]); split_and!; try done; try apply acks_none.
  eexists. split; [reflexivity|]. by constructor.
Qed.

(** The effect of one segment: positions from [n] to [n'] were handed to the
    application, the window's edge stays and the announced one does not go back. *)
Record received (n a n' a' : Z) (t t' : tcp) : Prop := {
  rc_recv : receiver n' a' (pcb t');
  rc_le : n <= n';
  rc_edge : a <= a';
  rc_wnd : n' + rcv_wnd (pcb t') = n + rcv_wnd (pcb t);
  rc_queue : queue (n + rcv_wnd (pcb t)) (n' + 1) (ooseq (pcb t'));
  rc_data : got (inp t') = field S n (n' - n);
  rc_fin : has (recv_flags (inp t')) TF_GOT_FIN = (n <? n') && (n' =? len + 1);
  rc_send : send_part (pcb t') = send_part (pcb t);
  rc_net : acks n (net t) (net t');
  rc_state : state (pcb t') = state (pcb t) \/ n < n' /\ n' = len + 1
}.

(** The conditions on a segment that arrives at position [k]: less than 2^30
    from what is next, and within the window unless the data is next. *)
Record arrives (n k : Z) (t : tcp) : Prop := {
  ar_seq : at_seq k (inp t);
  ar_held : held (inp t) = true;
  ar_len : tcplen (inp t) = span (inseg (inp t));
  ar_data : recv_data (inp t) = None;
  ar_flags : has (recv_flags (inp t)) TF_GOT_FIN = false;
  ar_near : -1073741824 <= k - n <= 1073741824;
  ar_wnd : k <= n \/ k + span (inseg (inp t)) <= n + rcv_wnd (pcb t)
}.

Lemma received_nothing n a a' t t' :
  receiver n a' (pcb t') -> a <= a' -> rcv_wnd (pcb t') = rcv_wnd (pcb t) -> queue (n + rcv_wnd (pcb t)) (n + 1) (ooseq (pcb t')) ->
  got (inp t') = [] -> has (recv_flags (inp t')) TF_GOT_FIN = false -> send_part (pcb t') = send_part (pcb t) -> acks n (net t) (net t') ->
  state (pcb t') = state (pcb t) -> received n a n a' t t'.
Proof.
  intros H1 H2 H3 H4 H5 H6 H7 H8 H9. constructor; try done; try lia.
  - rewrite H5. by rewrite field_none by lia.
  - by rewrite H6, Z.ltb_irrefl.
  - by left.
Qed.

Lemma out_of_order_ok w n a k t :
  receiver n a (pcb t) -> queue (n + rcv_wnd (pcb t)) (n + 1) (ooseq (pcb t)) -> arrives n k t -> n < k ->
  exists t' a', receive_out_of_order w t = Ok t' /\ received n a n a' t t'.
Proof.
  intros Hr Hq [A1 A2 A3 A4 A5 A6 A7] Hk. unfold receive_out_of_order. cbv zeta.
  destruct (empty_ack_ok n a (ack_sent2 w) t Hr) as (a' & Ha & Hr' & Ei & Es & Eo & Ew & Est & En). set (t1 := tcp_send_empty_ack _ t) in *.
  pose proof (rv_wnd _ _ _ Hr') as Hw. destruct A7 as [A7|A7]; [lia|]. pose proof A1 as (Hs & Hsq & Hp).
  rewrite Eo, Ei. destruct (ooseq (pcb t)) as [|c l] eqn:El.
  - eexists _, a'. split; [reflexivity|]. apply received_nothing; cbn; try done.
    + by eapply receiver_recv_part, Hr'.
    + destruct (seg_memory w); [|done]. exists k. split_and!; try done; lia.
    + rewrite Ei. unfold got. by rewrite A4.
    + by rewrite Ei.
  - destruct (queue_ooseq_ok (n + rcv_wnd (pcb t)) n k (seg_memory w) (pcb t1) (inp t)) with (prev := @None tcp_seg) (l := c :: l) (lo := n + 1) as (l' & -> & Hl');
      try done; try lia; [by apply (rv_nxt _ _ _ Hr')|].
    cbn [obind]. eexists _, a'. split; [reflexivity|]. apply received_nothing; cbn; try done.
    + by eapply receiver_recv_part, Hr'.
    + unfold got. by rewrite A4.
Qed.

(** the segment begins at [k], not before [n] *)
Lemma in_window_ok w n a k t :
  receiver n a (pcb t) -> told (n + TCP_WND) a -> queue (n + rcv_wnd (pcb t)) (n + 1) (ooseq (pcb t)) -> at_seq k (inp t) ->
  recv_data (inp t) = None -> has (recv_flags (inp t)) TF_GOT_FIN = false -> n <= k <= n + 1073741824 -> (n < k -> arrives n k t) ->
  exists t' n' a',
    (if TCP_SEQ_BETWEEN (seqno (inp t)) (rcv_nxt (pcb t)) (rcv_nxt (pcb t) + rcv_wnd (pcb t) - 1) then
       if rcv_nxt (pcb t) =? seqno (inp t) then receive_in_order t else receive_out_of_order w t
     else Ok (tcp_send_empty_ack (ack_sent2 w) t)) = Ok t'
    /\ received n a n' a' t t' /\ (k = n -> Z.min (n + span (inseg (inp t))) (n + rcv_wnd (pcb t)) <= n').
Proof.
  intros Hr Ht Hq A1 A4 A5 Hk Ha. pose proof A1 as (Hs & Hsq & Hp). pose proof (rv_wnd _ _ _ Hr) as Hw. pose proof (rv_nxt _ _ _ Hr) as Hn.
  unfold TCP_WND, TCP_MSS in *. rewrite Hsq, Hn, (seq_BETWEEN b k n (n + rcv_wnd (pcb t) - 1)); [|seqs|seqs|seqs|unfold near; lia|unfold near; lia].
  rewrite (seq_inj b n k), (proj2 (Z.leb_le n k)) by (unfold near; lia). cbn [andb].
  destruct (Z.leb_spec k (n + rcv_wnd (pcb t) - 1)) as [Hin|Hout]; [destruct (Z.eqb_spec n k) as [<-|Hne]|].
  - pose proof (sg_end _ _ Hs). pose proof (sg_len _ _ Hs). unfold told in *.
    destruct (receive_in_order_ok (n + rcv_wnd (pcb t)) a n t) as (t' & n' & E & [D1 D2 D3 D4 D5 D6 D7 D8] & Hp'); try done; try (unfold told; lia).
    { unfold fin_known. rewrite A5. lia. }
    exists t', n', a. split; [done|]. split; [|done]. constructor; try done; try lia.
    + rewrite D4. unfold got. by rewrite A4.
    + unfold fin_known in D5. rewrite D5, (proj2 (Z.ltb_lt n n')) by lia. done.
    + rewrite D7. apply acks_none.
    + destruct D8; [by left|right; lia].
  - destruct (out_of_order_ok w n a k t) as (t' & a' & E & R); try done; [apply Ha; lia|lia|]. exists t', n, a'. split; [done|]. split; [done|lia].
  - destruct (empty_ack_ok n a (ack_sent2 w) t Hr) as (a' & Ha' & Hr' & Ei & Es & Eo & Ew & Est & En).
    eexists _, n, a'. split; [reflexivity|]. split; [|lia].
    apply received_nothing; try done; rewrite ?Ei, ?Ew, ?Eo; try done. unfold got. by rewrite A4.
Qed.

Lemma receive_data_ok w n a k t :
  receiver n a (pcb t) -> told (n + TCP_WND) a -> queue (n + rcv_wnd (pcb t)) (n + 1) (ooseq (pcb t)) -> arrives n k t ->
  exists t' n' a', receive_data w t = Ok t' /\ received n a n' a' t t'
    /\ (k <= n -> Z.min (k + span (inseg (inp t))) (n + rcv_wnd (pcb t)) <= n').
Proof.
  intros Hr Ht Hq Ha. pose proof Ha as [A1 A2 A3 A4 A5 A6 A7]. pose proof A1 as (Hs & Hsq & Hp). unfold receive_data.
  pose proof (trim_front_ok n a k t Hr A1 A2 A3 A6) as T. pose proof (rv_wnd _ _ _ Hr) as Hw. pose proof (rv_nxt _ _ _ Hr) as Hn.
  unfold TCP_WND, TCP_MSS in Hw. assert (got (inp t) = []) as Hg by (unfold got; by rewrite A4).
  destruct (Z.leb_spec (k + span (inseg (inp t))) n) as [Hold|Hnew].
  - rewrite T. cbn [obind]. set (t1 := t <| pcb ::= tcp_ack_now |>). assert (recv_part (pcb t1) = recv_part (pcb t)) as E by done.
    change (rcv_nxt (pcb t1)) with (rcv_nxt (pcb t)). change (rcv_wnd (pcb t1)) with (rcv_wnd (pcb t)). change (inp t1) with (inp t).
    rewrite Hsq, Hn, (seq_BETWEEN b k n (n + rcv_wnd (pcb t) - 1)); [|seqs|seqs|seqs|unfold near; lia|unfold near; lia].
    rewrite (proj2 (Z.leb_gt n k)) by lia. cbn [andb].
    destruct (empty_ack_ok n a (ack_sent2 w) t1) as (a' & Ha' & Hr' & Ei & Es & Eo & Ew & Est & En); [by eapply receiver_recv_part|].
    eexists _, n, a'. split; [reflexivity|]. split; [|lia]. apply received_nothing; try done; rewrite ?Ei, ?Ew, ?Eo; done.
  - destruct T as (s & -> & Hdrop). cbn [obind]. destruct (Z.ltb_spec k n) as [Hlt|Hge].
    + destruct (Hdrop Hlt) as [Hs' Hsp']. clear Hdrop. set (t1 := t <| inp ::= _ |>).
      destruct (in_window_ok w n a n t1) as (t' & n' & a' & E & R & P); try done; [|lia|lia|].
      { split_and!; [done|done|]. cbn. lia. }
      exists t', n', a'. split; [exact E|]. split; [by destruct R; constructor|]. intros _. rewrite <- Hsp'. by apply P.
    + destruct (in_window_ok w n a k t) as (t' & n' & a' & E & R & P); try done; [lia|].
      exists t', n', a'. split; [exact E|]. split; [done|]. intros. replace k with n in * by lia. by apply P.
Qed.

End Stream.
