(* ===== verification/TcpSend.v ===== *)
(** * TcpSend: what a TCP connection sends

    The positions of the sending side: 0 is SYN, 1 the first byte the
    application writes, the one behind the last byte is FIN.  The segments that
    are not acknowledged are on two queues, which together are a chain without
    gaps from the first position that is not acknowledged to the last one that
    was written, whatever is acknowledged, sent, sent again or fails to be. *)

From S2P Require Import Prelude Bytes Tcp TcpRecv.

#[local] Open Scope Z_scope.

(** ** Two queues in one *)

Section Merge.
Context {A : Type}.

(** [l] has the elements of [l1] and [l2], each in its order *)
Inductive merge : list A -> list A -> list A -> Prop :=
| merge_nil : merge [] [] []
| merge_l x l1 l2 l : merge l1 l2 l -> merge (x :: l1) l2 (x :: l)
| merge_r x l1 l2 l : merge l1 l2 l -> merge l1 (x :: l2) (x :: l).

Lemma merge_comm l1 l2 l : merge l1 l2 l -> merge l2 l1 l.
Proof. induction 1; by constructor. Qed.
Lemma merge_left l : merge l [] l.
Proof. induction l; by constructor. Qed.
Lemma merge_perm l1 l2 l : merge l1 l2 l -> l ≡ₚ l1 ++ l2.
Proof. induction 1; cbn; [done|by f_equiv|]. by rewrite <- Permutation_middle, <- IHmerge. Qed.
Lemma merge_app l1 l2 l k1 k2 k : merge l1 l2 l -> merge k1 k2 k -> merge (l1 ++ k1) (l2 ++ k2) (l ++ k).
Proof. induction 1; cbn; [done|by constructor; auto|by constructor; auto]. Qed.
Lemma merge_app_inv l k l1 l2 :
  merge l1 l2 (l ++ k) -> exists a1 b1 a2 b2, l1 = a1 ++ b1 /\ l2 = a2 ++ b2 /\ merge a1 a2 l /\ merge b1 b2 k.
Proof.
  revert l1 l2. induction l as [|x l IH]; intros l1 l2 H; cbn in H.
  - exists [], l1, [], l2. split_and!; try done. constructor.
  - inversion H as [|y l1' l2' l' Hm|y l1' l2' l' Hm]; subst; destruct (IH _ _ Hm) as (a1 & b1 & a2 & b2 & -> & -> & H1 & H2).
    + exists (x :: a1), b1, a2, b2. split_and!; try done. by constructor.
    + exists a1, b1, (x :: a2), b2. split_and!; try done. by constructor.
Qed.
(** the first element of one queue: before it come elements of the other only *)
Lemma merge_head x l1 l2 l :
  merge (x :: l1) l2 l -> exists a b c, l = a ++ x :: c /\ l2 = a ++ b /\ merge l1 b c.
Proof.
  revert l2. induction l as [|y l IH]; intros l2 H; inversion H as [|? ? ? ? Hm|? ? l2' ? Hm]; subst.
  - by exists [], l2, l.
  - destruct (IH _ Hm) as (a & b & c & -> & -> & H1). by exists (y :: a), b, c.
Qed.
Lemma merge_Forall (P : A -> Prop) l1 l2 l : merge l1 l2 l -> Forall P l -> Forall P l1 /\ Forall P l2.
Proof. intros H%merge_perm. rewrite H. apply Forall_app. Qed.
End Merge.

(** *** Sums *)

Fixpoint sum (f : tcp_seg -> Z) (l : list tcp_seg) : Z := match l with [] => 0 | s :: l' => f s + sum f l' end.
Lemma sum_app f l k : sum f (l ++ k) = sum f l + sum f k.
Proof. induction l; cbn; lia. Qed.
Lemma sum_perm f l k : l ≡ₚ k -> sum f l = sum f k.
Proof. induction 1; cbn; lia. Qed.
Lemma sum_merge f l1 l2 l : merge l1 l2 l -> sum f l = sum f l1 + sum f l2.
Proof. intros H%merge_perm. rewrite (sum_perm _ _ _ H). apply sum_app. Qed.
Lemma sum_nonneg f l : Forall (fun s => 0 <= f s) l -> 0 <= sum f l.
Proof. induction 1; cbn; lia. Qed.

Section Out.

(** the positions' bytes, and the number of position 0 *)
Context (O : list Z) (b : Z).

Record seg_out (k : Z) (s : tcp_seg) : Prop := {
  so_pos : 0 <= k;
  so_seqno : s_seqno s = seq b k;
  so_len : 0 <= s_len s <= TCP_SND_BUF;
  so_end : k + s_len s <= blen O;
  so_data : s_p s = field O k (s_len s);
  so_span : 0 < TCP_TCPLEN s;
  so_clen : 0 < s_clen s;
  so_rst : has (s_flags s) TCP_RST = false
}.

(** segments one behind the other, from [lo] to [hi] *)
Fixpoint chain (lo hi : Z) (l : list tcp_seg) : Prop :=
  match l with
  | [] => lo = hi
  | s :: l' => seg_out lo s /\ chain (lo + TCP_TCPLEN s) hi l'
  end.

(** the segment is somewhere between two positions *)
Definition within (lo hi : Z) (s : tcp_seg) : Prop := exists k, seg_out k s /\ lo <= k /\ k + TCP_TCPLEN s <= hi.

Lemma chain_le lo hi l : chain lo hi l -> lo <= hi.
Proof. revert lo. induction l as [|s l IH]; intros lo; cbn; [lia|]. intros [H1 H2%IH]. pose proof (so_span _ _ H1). lia. Qed.
Lemma chain_within lo hi l : chain lo hi l -> Forall (within lo hi) l.
Proof.
  revert lo. induction l as [|s l IH]; intros lo; cbn; [done|]. intros [H1 H2]. pose proof (chain_le _ _ _ H2). pose proof (so_span _ _ H1). constructor.
  - exists lo. split_and!; try done; lia.
  - eapply Forall_impl; [|exact (IH _ H2)]. intros s' (k & Hk & ? & ?). exists k. split_and!; try done; lia.
Qed.
Lemma chain_app lo hi l k : chain lo hi (l ++ k) <-> exists m, chain lo m l /\ chain m hi k.
Proof.
  revert lo. induction l as [|s l IH]; intros lo; cbn.
  - split; [by exists lo|]. by intros (m & -> & H).
  - split.
    + intros [H1 (m & H2 & H3)%IH]. by exists m.
    + intros (m & [H1 H2] & H3). split; [done|]. apply IH. by exists m.
Qed.
(** the segments up to [x] and the others *)
Lemma chain_split lo hi x l :
  chain lo hi l -> exists l1 l2 m, l = l1 ++ l2 /\ chain lo m l1 /\ chain m hi l2 /\ (l1 = [] \/ m <= x) /\ match l2 with [] => True | s :: _ => x < m + TCP_TCPLEN s end.
Proof.
  revert lo. induction l as [|s l IH]; intros lo Hc; cbn in Hc.
  - exists [], [], lo. split_and!; try done. by left.
  - destruct Hc as [Hs Hc]. destruct (Z.le_gt_cases (lo + TCP_TCPLEN s) x).
    + destruct (IH _ Hc) as (l1 & l2 & m & -> & H1 & H2 & H3 & H4). exists (s :: l1), l2, m. split_and!; try done.
      right. destruct H3 as [->|]; [|done]. cbn in H1. lia.
    + exists [], (s :: l), lo. split_and!; try done; try (by left); lia.
Qed.
Lemma chain_after lo hi x l :
  chain lo hi l -> match l with [] => True | s :: _ => x < lo + TCP_TCPLEN s end -> Forall (fun s => exists k, seg_out k s /\ lo <= k /\ x < k + TCP_TCPLEN s <= hi) l.
Proof.
  destruct l as [|s l]; [done|]. cbn. intros [H1 H2] Hx. pose proof (so_span _ _ H1). pose proof (chain_le _ _ _ H2). constructor.
  - exists lo. split_and!; try done; lia.
  - eapply Forall_impl; [|exact (chain_within _ _ _ H2)]. intros s' (k & Hk & ? & ?). pose proof (so_span _ _ Hk). exists k. split_and!; try done; lia.
Qed.

Lemma tcplen_len s : s_len s <= TCP_TCPLEN s <= s_len s + 1.
Proof. unfold TCP_TCPLEN. case_match; lia. Qed.
Lemma chain_size lo hi l : chain lo hi l -> hi - lo <= sum s_len l + sum s_clen l.
Proof.
  revert lo. induction l as [|s l IH]; intros lo; cbn; [lia|]. intros [H1 H2%IH]. pose proof (so_clen _ _ H1). pose proof (tcplen_len s). lia.
Qed.
Lemma chain_nonneg lo hi l : chain lo hi l -> Forall (fun s => 0 <= s_len s) l /\ Forall (fun s => 0 <= s_clen s) l.
Proof.
  intros H%chain_within. split; (eapply Forall_impl; [|exact H]); intros s (k & Hs & _); [apply (so_len _ _ Hs)|pose proof (so_clen _ _ Hs); lia].
Qed.

(** Position [una] is the first that is not acknowledged, [nxt] the next to be
    sent for the first time and [hi] the end of what was written. *)
Record sender (una nxt hi : Z) (p : tcp_pcb) : Prop := {
  sn_una : lastack p = seq b una;
  sn_nxt : snd_nxt p = seq b nxt;
  sn_order : una <= nxt <= hi;
  sn_queue : exists lo l, chain lo hi l /\ lo <= una /\ match l with [] => True | s :: _ => una < lo + TCP_TCPLEN s end /\ merge (unacked p) (unsent p) l;
  sn_qlen : snd_queuelen p = sum s_clen (unacked p) + sum s_clen (unsent p);
  sn_qmax : snd_queuelen p <= 65535;
  sn_buf : snd_buf p + sum s_len (unacked p) + sum s_len (unsent p) = TCP_SND_BUF;
  sn_bufmin : 0 <= snd_buf p;
  sn_mss : 0 < mss p <= TCP_MSS;
  sn_cwnd : 0 < cwnd p <= 65535;
  sn_ssthresh : 0 < ssthresh p <= 65535;
  sn_lbb : snd_lbb p = seq b hi
}.

(** *** Acknowledged segments *)

(** [c] buffers and [n] bytes of a queue are freed *)
Definition freed (c n : Z) (t : tcp) : tcp :=
  t <| pcb ::= (fun p => p <| snd_queuelen ::= (fun q => q - c) |>) |> <| inp ::= (fun i => i <| recv_acked ::= (fun r => r + n) |>) |>.
Definition keep_unacked (l : list tcp_seg) (t : tcp) : tcp := t <| pcb ::= (fun p => p <| unacked := l |>) |>.
Definition keep_unsent (l : list tcp_seg) (t : tcp) : tcp :=
  t <| pcb ::= (fun p => p <| unsent := l |> <| unsent_oversize := if bool_decide (l = []) then 0 else unsent_oversize p |>) |>.

Definition acked_by (x : Z) (s : tcp_seg) : Prop := exists k, seg_out k s /\ k + TCP_TCPLEN s <= x < k + TCP_TCPLEN s + 1073741824.
Definition not_acked_by (x : Z) (s : tcp_seg) : Prop := exists k, seg_out k s /\ x < k + TCP_TCPLEN s < x + 2147483648.

Lemma free_acked_ok t s :
  0 <= recv_acked (inp t) -> 0 <= s_len s -> recv_acked (inp t) + s_len s <= 65535 ->
  snd_queuelen (pcb t) = s_clen s + sum s_clen (unacked (pcb t)) + sum s_clen (unsent (pcb t)) ->
  0 <= sum s_clen (unacked (pcb t)) -> 0 <= sum s_clen (unsent (pcb t)) -> free_acked_seg s t = Ok (freed (s_clen s) (s_len s) t).
Proof.
  intros H0 H1 H2 Hq Ha Hu. unfold free_acked_seg. rewrite check_true by lia. cbv zeta. rewrite check_true.
  - unfold freed. destruct t as [? [] ?]. cbn in *. fields. rewrite u16_small by lia. done.
  - cbn. destruct (unacked (pcb t)) as [|u l]; [|by rewrite orb_true_r]. destruct (unsent (pcb t)) as [|u l]; [|by rewrite orb_true_r].
    cbn in Hq. rewrite (proj2 (Z.eqb_eq _ _)) by lia. done.
Qed.

Lemma acked_nonneg x l : Forall (acked_by x) l -> 0 <= sum s_clen l /\ 0 <= sum s_len l.
Proof.
  intros H. split; apply sum_nonneg; (eapply Forall_impl; [|exact H]); intros a (? & Ha & _); [pose proof (so_clen _ _ Ha)|pose proof (so_len _ _ Ha)]; lia.
Qed.

Lemma free_unacked_ok x l1 l2 t :
  ackno (inp t) = seq b x -> unacked (pcb t) = l1 ++ l2 -> Forall (acked_by x) l1 -> match l2 with [] => True | s :: _ => not_acked_by x s end ->
  snd_queuelen (pcb t) = sum s_clen (l1 ++ l2) + sum s_clen (unsent (pcb t)) -> 0 <= sum s_clen l2 -> 0 <= sum s_clen (unsent (pcb t)) ->
  0 <= recv_acked (inp t) -> recv_acked (inp t) + sum s_len l1 <= 65535 ->
  free_unacked (l1 ++ l2) t = Ok (freed (sum s_clen l1) (sum s_len l1) (keep_unacked l2 t)).
Proof.
  intros Hx Hu H1 H2. revert t Hx Hu. induction H1 as [|s l1 (k & Hs & Hk) H1 IH]; intros t Hx Hu Hq Hc2 Hcu Hr Hr2; cbn [app] in *.
  - transitivity (Ok t).
    + destruct l2 as [|s l2]; [done|]. destruct H2 as (k & Hs & Hk). cbn. rewrite Hx, (so_seqno _ _ Hs).
      rewrite (seq_LEQ b (k + TCP_TCPLEN s) x); [|seqs|seqs|unfold near; lia]. by rewrite (proj2 (Z.leb_gt _ _)) by lia.
    + unfold freed, keep_unacked. clear -Hu. destruct t as [[] [] ?]. cbn in *. subst. fields. by rewrite Z.sub_0_r, Z.add_0_r.
  - cbn [free_unacked]. rewrite Hx, (so_seqno _ _ Hs). rewrite (seq_LEQ b (k + TCP_TCPLEN s) x); [|seqs|seqs|unfold near; lia].
    rewrite (proj2 (Z.leb_le _ _)) by lia. cbn [sum] in *. pose proof (so_len _ _ Hs).
    destruct (acked_nonneg x l1 H1) as [? ?].
    rewrite free_acked_ok; cbn [pcb inp set unacked unsent snd_queuelen recv_acked keep_unacked]; rewrite ?sum_app in *; try lia.
    cbn [obind]. rewrite IH; try done; cbn; try lia. f_equal. unfold freed, keep_unacked. destruct t as [[] [] ?]. fields. f_equal; f_equal; lia.
Qed.

Lemma free_unsent_ok x nxt l1 l2 t :
  ackno (inp t) = seq b x -> snd_nxt (pcb t) = seq b nxt -> unsent (pcb t) = l1 ++ l2 -> Forall (acked_by x) l1 -> (l1 = [] \/ nxt - 1073741824 <= x <= nxt) ->
  match l2 with [] => True | s :: _ => TCP_SEQ_BETWEEN (ackno (inp t)) (s_seqno s + TCP_TCPLEN s) (snd_nxt (pcb t)) = false end ->
  snd_queuelen (pcb t) = sum s_clen (unacked (pcb t)) + sum s_clen (l1 ++ l2) -> 0 <= sum s_clen l2 -> 0 <= sum s_clen (unacked (pcb t)) ->
  0 <= recv_acked (inp t) -> recv_acked (inp t) + sum s_len l1 <= 65535 ->
  free_unsent (l1 ++ l2) t = Ok (match l1 with [] => t | _ => freed (sum s_clen l1) (sum s_len l1) (keep_unsent l2 t) end).
Proof.
  intros Hx Hn Hu H1 Hxn H2. revert t Hx Hn Hu H2. induction H1 as [|s l1 (k & Hs & Hk) H1 IH]; intros t Hx Hn Hu H2 Hq Hc2 Hcu Hr Hr2; cbn [app] in *.
  - destruct l2 as [|s l2]; [done|]. cbn. by rewrite H2.
  - destruct Hxn as [|Hxn]; [done|]. cbn [free_unsent]. rewrite Hx, Hn, (so_seqno _ _ Hs).
    rewrite (seq_BETWEEN b x (k + TCP_TCPLEN s) nxt); [|seqs|seqs|seqs|unfold near; lia|unfold near; lia].
    rewrite !(proj2 (Z.leb_le _ _)) by lia. cbn [sum andb] in *. pose proof (so_len _ _ Hs). destruct (acked_nonneg x l1 H1) as [? ?].
    set (t1 := t <| pcb ::= _ |>).
    assert (t1 = keep_unsent (l1 ++ l2) t) as ->.
    { unfold t1, keep_unsent. destruct t as [[] ? ?]. fields. by destruct (bool_decide _). }
    rewrite free_acked_ok; cbn [pcb inp set unacked unsent snd_queuelen recv_acked keep_unsent]; rewrite ?sum_app in *; try lia.
    cbn [obind]. rewrite IH; try done; cbn; rewrite ?sum_app in *; try lia.
    f_equal. destruct l1 as [|s1 l1]; unfold freed, keep_unsent.
    + clear. destruct t as [[] [] ?]. fields. cbn [sum app]. f_equal; f_equal; lia || done.
    + clear. destruct t as [[] [] ?]. fields. cbn [sum app]. destruct (bool_decide (l2 = [])); f_equal; f_equal; lia || done.
Qed.

(** *** The fields the sender depends on *)

Definition snd_core (p : tcp_pcb) :=
  (lastack p, snd_nxt p, (unacked p, unsent p), (snd_queuelen p, snd_buf p), mss p, (cwnd p, ssthresh p), snd_lbb p).
Lemma sender_core una nxt hi p p' : snd_core p' = snd_core p -> sender una nxt hi p -> sender una nxt hi p'.
Proof.
  unfold snd_core. intros E. injection E as E1 E2 E3 E4 E5 E6 E7 E8 E9 E10. intros []. constructor; rewrite ?E1, ?E2, ?E3, ?E4, ?E5, ?E6, ?E7, ?E8, ?E9, ?E10; done.
Qed.

Lemma sender_size una nxt hi p : sender una nxt hi p -> hi - una <= 81919 /\ 0 <= sum s_clen (unacked p) /\ 0 <= sum s_clen (unsent p)
  /\ 0 <= sum s_len (unacked p) /\ 0 <= sum s_len (unsent p).
Proof.
  intros [S1 S2 S3 (lo & l & Hc & Hlo & Hh & Hm) S5 S6 S7 S8 _ _ _]. pose proof (chain_size _ _ _ Hc) as Hs.
  destruct (chain_nonneg _ _ _ Hc) as [[L1 L2]%(merge_Forall _ _ _ _ Hm) [C1 C2]%(merge_Forall _ _ _ _ Hm)].
  apply sum_nonneg in L1, L2, C1, C2. rewrite !(sum_merge _ _ _ _ Hm) in Hs. destruct l as [|s l]; cbn in Hc.
  - unfold TCP_SND_BUF in *. lia.
  - unfold TCP_SND_BUF in *. lia.
Qed.

(** every queued segment ends behind what is acknowledged *)
Lemma sender_queued una nxt hi p :
  sender una nxt hi p -> Forall (fun s => exists k, seg_out k s /\ una < k + TCP_TCPLEN s <= hi) (unacked p) /\ Forall (fun s => exists k, seg_out k s /\ una < k + TCP_TCPLEN s <= hi) (unsent p).
Proof.
  intros [_ _ _ (lo & l & Hc & Hlo & Hh & Hm) _ _ _ _ _ _ _]. eapply merge_Forall; [exact Hm|].
  eapply Forall_impl; [|exact (chain_after _ _ una _ Hc Hh)]. intros s (k & ? & ? & ?). by exists k.
Qed.

(** *** Retransmission keeps the queues *)

Lemma insert_sorted_skip s k a c :
  s_seqno s = seq b k -> Forall (fun u => exists j, s_seqno u = seq b j /\ j < k /\ near j k) a ->
  match c with [] => True | u :: _ => exists j, s_seqno u = seq b j /\ k <= j /\ near j k end -> insert_sorted s (a ++ c) = a ++ s :: c.
Proof.
  intros Hs Ha Hc. induction Ha as [|u a (j & Hu & Hj & Hn) Ha IH]; cbn [app].
  - destruct c as [|u c]; [done|]. destruct Hc as (j & Hu & Hj & Hn). cbn. rewrite Hu, Hs, (seq_LT b j k) by (try seqs; done).
    by rewrite (proj2 (Z.ltb_ge _ _)).
  - cbn. rewrite Hu, Hs, (seq_LT b j k) by (try seqs; done). by rewrite (proj2 (Z.ltb_lt _ _)), IH.
Qed.

(** the first segment of one queue moves to its place in the other *)
Lemma merge_move lo hi s l1 l2 l :
  chain lo hi l -> hi - lo <= 1073741824 -> merge (s :: l1) l2 l -> merge l1 (insert_sorted s l2) l.
Proof.
  intros Hc Hsz Hm. destruct (merge_head _ _ _ _ Hm) as (a & c & d & -> & -> & Hm'). apply chain_app in Hc as (m & H1 & H2 & H3).
  pose proof (chain_le _ _ _ H1). pose proof (chain_le _ _ _ H3). pose proof (so_span _ _ H2).
  rewrite (insert_sorted_skip s m).
  - apply (merge_app [] a a). { apply merge_comm, merge_left. } by apply merge_r.
  - apply (so_seqno _ _ H2).
  - eapply Forall_impl; [|exact (chain_within _ _ _ H1)]. intros u (k & Hk & ? & ?). pose proof (so_span _ _ Hk).
    exists k. split; [apply (so_seqno _ _ Hk)|]. unfold near. lia.
  - destruct (merge_Forall _ _ _ _ Hm' (chain_within _ _ _ H3)) as [_ F]. destruct c as [|u c]; [done|]. inversion F as [|? ? (k & Hk & ? & ?) ?]; subst.
    exists k. split; [apply (so_seqno _ _ Hk)|]. pose proof (so_span _ _ Hk). unfold near. lia.
Qed.

Lemma sum_insert f s l : sum f (insert_sorted s l) = f s + sum f l.
Proof. induction l as [|c l IH]; cbn; [done|]. case_match; cbn; lia. Qed.

Lemma rexmit_ok una nxt hi p : sender una nxt hi p -> sender una nxt hi (tcp_rexmit p).
Proof.
  intros Hp. pose proof (sender_size _ _ _ _ Hp) as (Hz & _). destruct Hp as [S1 S2 S3 (lo & l & Hc & Hlo & Hh & Hm) S5 S6 S7 S8 S9 S10 S11].
  unfold tcp_rexmit. destruct (unacked p) as [|s ua] eqn:Eu.
  { constructor; try done; rewrite ?Eu; try done. by exists lo, l. }
  constructor; cbn in *; try done; rewrite ?sum_insert; try lia.
  exists lo, l. split_and!; try done. eapply merge_move; [exact Hc| |exact Hm].
  pose proof (chain_size _ _ _ Hc). rewrite !(sum_merge _ _ _ _ Hm) in H. cbn in H. unfold TCP_SND_BUF in *. lia.
Qed.

Lemma rexmit_fast_ok una nxt hi p : sender una nxt hi p -> sender una nxt hi (tcp_rexmit_fast p).
Proof.
  intros Hp. unfold tcp_rexmit_fast. destruct (unacked p) as [|s ua] eqn:Eu; [done|]. destruct (has _ _); [done|].
  apply rexmit_ok in Hp. destruct Hp as [S1 S2 S3 S4 S5 S6 S7 S8 S9 S10 S11]. set (q := tcp_rexmit p) in *. unfold TCP_MSS in *.
  constructor; cbn; try done.
  - rewrite (u16_small (2 * mss q)) by lia. set (h := _ / 2). assert (h <= 32767).
    { unfold h. transitivity (65535 / 2); [|done]. apply Z.div_le_mono; lia. }
    destruct (Z.ltb_spec h (2 * mss q)); rewrite u16_small; lia.
  - rewrite (u16_small (2 * mss q)) by lia. set (h := _ / 2). assert (h <= 32767).
    { unfold h. transitivity (65535 / 2); [|done]. apply Z.div_le_mono; lia. }
    destruct (Z.ltb_spec h (2 * mss q)); lia.
Qed.

(** *** An acknowledgement *)

Lemma grown_cwnd c m : 0 < c <= 65535 -> 0 < m <= TCP_MSS -> c < u16 (c + m) -> 0 < c + m <= 65535.
Proof.
  unfold TCP_MSS. intros Hc Hm H. destruct (Z.le_gt_cases (c + m) 65535); [lia|]. assert (u16 (c + m) = c + m - 65536) as E; [|lia].
  unfold u16. symmetry. apply Z.mod_unique with 1; lia.
Qed.
Lemma sender_cwnd una nxt hi c p : sender una nxt hi p -> 0 < c <= 65535 -> sender una nxt hi (p <| cwnd := c |>).
Proof. intros [] ?. by constructor. Qed.

Lemma update_snd_wnd_core i p : snd_core (update_snd_wnd i p) = snd_core p.
Proof. unfold update_snd_wnd. repeat case_match; done. Qed.
Lemma estimate_rtt_core k i p : snd_core (estimate_rtt k i p) = snd_core p.
Proof. unfold estimate_rtt. by case_match. Qed.

Lemma count_dupack_ok una nxt hi e i p : sender una nxt hi p -> sender una nxt hi (count_dupack e i p).
Proof.
  intros Hp. unfold count_dupack. case_match; [|by eapply sender_core, Hp].
  set (q := if dupacks p <? _ then _ else _). assert (sender una nxt hi q) as Hq by (eapply sender_core, Hp; unfold q; by case_match).
  destruct (3 <? dupacks q); [|by destruct (dupacks q =? 3); [apply rexmit_fast_ok|]].
  destruct (Z.ltb_spec (cwnd q) (u16 (cwnd q + mss q))) as [Hlt|]; [|done].
  eapply sender_cwnd in Hq; [exact Hq|]. destruct Hq. by apply grown_cwnd.
Qed.

Lemma grow_cwnd_ok p :
  0 < cwnd p <= 65535 -> 0 < mss p <= TCP_MSS -> exists c, grow_cwnd p = Ok (p <| cwnd := c |>) /\ 0 < c <= 65535.
Proof.
  intros Hc Hm. assert (p <| cwnd := cwnd p |> = p) as Hid by by destruct p.
  unfold grow_cwnd. case_match; [|exists (cwnd p); by rewrite Hid]. destruct (cwnd p <? ssthresh p).
  - destruct (Z.ltb_spec (cwnd p) (u16 (cwnd p + mss p))); [|exists (cwnd p); by rewrite Hid].
    eexists. split; [reflexivity|]. by apply grown_cwnd.
  - rewrite (proj2 (Z.eqb_neq _ _)) by lia. cbv zeta.
    destruct (Z.ltb_spec (cwnd p) (u16 (cwnd p + mss p * mss p / cwnd p))); [|exists (cwnd p); by rewrite Hid].
    eexists. split; [reflexivity|]. pose proof (u16_bound (cwnd p + mss p * mss p / cwnd p)). lia.
Qed.

(** Before the loop over [pcb->unsent]: its segments [a2] are to be freed, and
    [acked] bytes of the other queue were. *)
Record mid (ack una nxt hi : Z) (a2 b2 : list tcp_seg) (acked : Z) (p : tcp_pcb) : Prop := {
  md_unsent : unsent p = a2 ++ b2;
  md_acked : Forall (acked_by una) a2;
  md_ack : a2 = [] \/ ack = seq b una;
  md_stop : match b2 with [] => True | s :: _ => TCP_SEQ_BETWEEN ack (s_seqno s + TCP_TCPLEN s) (snd_nxt p) = false end;
  md_pos : 0 <= acked;
  md_buf : 0 <= snd_buf p;
  md_sender : sender una nxt hi (p <| unsent := b2 |> <| snd_queuelen ::= (fun q => q - sum s_clen a2) |> <| snd_buf ::= (fun f => f + acked + sum s_len a2) |>)
}.

Lemma mid_core ack una nxt hi a2 b2 n p p' : snd_core p' = snd_core p -> mid ack una nxt hi a2 b2 n p -> mid ack una nxt hi a2 b2 n p'.
Proof.
  intros E []. unfold snd_core in E. injection E as E1 E2 E3 E4 E5 E6 E7 E8 E9 E10. constructor; rewrite ?E2, ?E4, ?E6; try done.
  eapply sender_core; [|exact md_sender0]. unfold snd_core. cbn. congruence.
Qed.
(** nothing is freed *)
Lemma mid_none ack una nxt hi p :
  sender una nxt hi p -> Forall (fun s => TCP_SEQ_BETWEEN ack (s_seqno s + TCP_TCPLEN s) (snd_nxt p) = false) (unsent p) -> mid ack una nxt hi [] (unsent p) 0 p.
Proof.
  intros Hp Hf. constructor; try done; [by left| |apply (sn_bufmin _ _ _ _ Hp)|].
  - inversion Hf; done.
  - eapply sender_core, Hp. unfold snd_core. cbn. by rewrite Z.sub_0_r, !Z.add_0_r.
Qed.

Lemma free_rest ack una nxt hi a2 b2 t :
  mid ack una nxt hi a2 b2 (recv_acked (inp t)) (pcb t) -> ackno (inp t) = ack ->
  exists t' n, free_unsent (unsent (pcb t)) t = Ok t' /\ inp t' = (inp t) <| recv_acked := n |> /\ 0 <= n <= TCP_SND_BUF
    /\ sender una nxt hi ((pcb t') <| snd_buf ::= (fun f => f + n) |>) /\ recv_part (pcb t') = recv_part (pcb t) /\ ooseq (pcb t') = ooseq (pcb t)
    /\ state (pcb t') = state (pcb t) /\ net t' = net t /\ snd_buf (pcb t') = snd_buf (pcb t).
Proof.
  intros [M1 M2 M3 M4 M5 MB M6] Ha. pose proof (sender_size _ _ _ _ M6) as (Hz & Hc1 & Hc2 & Hl1 & Hl2).
  pose proof (sn_qlen _ _ _ _ M6) as S5. pose proof (sn_buf _ _ _ _ M6) as S7. pose proof (sn_nxt _ _ _ _ M6) as S2. pose proof (sn_order _ _ _ _ M6) as S3. cbn in *.
  destruct (acked_nonneg _ _ M2) as [? ?]. unfold TCP_SND_BUF in *. rewrite M1. destruct a2 as [|s a2].
  { exists t, (recv_acked (inp t)). split_and!; try done; try lia.
    - destruct b2 as [|s b2]; [done|]. cbn. by rewrite Ha, M4.
    - by destruct (inp t).
    - eapply sender_core, M6. unfold snd_core. cbn. rewrite M1, Z.sub_0_r, Z.add_0_r. done. }
  destruct M3 as [|M3]; [done|]. rewrite (free_unsent_ok una nxt); [|by rewrite Ha|done|done|done|right; lia|by rewrite Ha|rewrite sum_app; lia|done|done|done|lia].
  eexists _, (recv_acked (inp t) + sum s_len (s :: a2)). split; [reflexivity|]. split_and!; try done; try lia.
  eapply sender_core, M6. unfold snd_core. cbn. rewrite !Z.add_assoc. done.
Qed.

(** the queues are cut at [x] *)
Lemma cut_queues una nxt hi x p :
  sender una nxt hi p -> una < x <= nxt ->
  exists a1 b1 a2 b2 m l, unacked p = a1 ++ b1 /\ unsent p = a2 ++ b2 /\ Forall (acked_by x) a1 /\ Forall (acked_by x) a2
    /\ Forall (not_acked_by x) b1 /\ Forall (not_acked_by x) b2
    /\ chain m hi l /\ m <= x /\ match l with [] => True | s :: _ => x < m + TCP_TCPLEN s end /\ merge b1 b2 l.
Proof.
  intros Hp Hx. pose proof (sender_size _ _ _ _ Hp) as (Hz & _). destruct Hp as [_ _ S3 (lo & l & Hc & Hlo & Hh & Hm) S5 S6 S7 S8 _ _ _].
  pose proof (chain_size _ _ _ Hc) as Hsz. rewrite !(sum_merge _ _ _ _ Hm) in Hsz. unfold TCP_SND_BUF in *.
  destruct (chain_split _ _ x _ Hc) as (l1 & l2 & m & -> & H1 & H2 & H3 & H4).
  destruct (merge_app_inv _ _ _ _ Hm) as (a1 & b1 & a2 & b2 & E1 & E2 & Hm1 & Hm2). exists a1, b1, a2, b2, m, l2.
  assert (m <= x) as Hmx by (destruct H3 as [->|]; [cbn in H1; lia|done]).
  assert (Forall (acked_by x) l1) as F1.
  { eapply Forall_impl; [|exact (chain_within _ _ _ H1)]. intros s (k & Hk & ? & ?). exists k. split; [done|]. pose proof (so_span _ _ Hk). lia. }
  assert (Forall (not_acked_by x) l2) as F2.
  { eapply Forall_impl; [|exact (chain_after _ _ x _ H2 H4)]. intros s (k & Hk & ? & ?). exists k. split; [done|]. lia. }
  destruct (merge_Forall _ _ _ _ Hm1 F1), (merge_Forall _ _ _ _ Hm2 F2). split_and!; done.
Qed.

Lemma not_acked_stop x nxt s : not_acked_by x s -> TCP_SEQ_BETWEEN (seq b x) (s_seqno s + TCP_TCPLEN s) nxt = false.
Proof.
  intros (k & Hs & Hk). unfold TCP_SEQ_BETWEEN. rewrite (so_seqno _ _ Hs), (seq_GEQ b x (k + TCP_TCPLEN s)) by (try seqs; unfold near; lia).
  by rewrite (proj2 (Z.leb_gt _ _)) by lia.
Qed.

(** what an acknowledgement does not change *)
Definition recv_same (p p' : tcp_pcb) : Prop := recv_part p' = recv_part p /\ ooseq p' = ooseq p /\ state p' = state p.

Lemma ack_new_data_ok una nxt hi x t :
  sender una nxt hi (pcb t) -> ackno (inp t) = seq b x -> recv_acked (inp t) = 0 -> una < x <= nxt ->
  exists t' n a2 b2, ack_new_data t = Ok t' /\ mid (seq b x) x nxt hi a2 b2 n (pcb t') /\ inp t' = (inp t) <| recv_acked := n |>
    /\ recv_same (pcb t) (pcb t') /\ snd_buf (pcb t') = snd_buf (pcb t) /\ net t' = net t.
Proof.
  intros Hp Ha Hr Hx. destruct (cut_queues _ _ _ _ _ Hp Hx) as (a1 & b1 & a2 & b2 & m & l & E1 & E2 & A1 & A2 & B1 & B2 & Hc & Hmx & Hh & Hm).
  pose proof (sender_size _ _ _ _ Hp) as (Hz & _). pose proof Hp as [S1 S2 S3 _ S5 S6 S7 S8 S9 S10 S11]. unfold ack_new_data.
  rewrite Ha. set (p1 := note_ack _ _). assert (snd_core p1 = snd_core ((pcb t) <| lastack := seq b x |> <| cwnd := cwnd p1 |>) /\ 0 < cwnd p1 <= 65535) as [Hcore Hcw].
  { unfold p1, note_ack. destruct (has (pflags (pcb t)) TF_INFR); by split. }
  assert (recv_part p1 = recv_part (pcb t) /\ ooseq p1 = ooseq (pcb t) /\ state p1 = state (pcb t)) as (R1 & R2 & R3).
  { unfold p1, note_ack. by destruct (has (pflags (pcb t)) TF_INFR). }
  clearbody p1.
  unfold snd_core in Hcore. injection Hcore as C1 C2 C3 C4 C5 C6 C7 C9 C10. cbn in *.
  destruct (grow_cwnd_ok p1 Hcw) as (c & -> & Hc'); [by rewrite C7|]. cbn [obind unacked set].
  destruct (acked_nonneg _ _ A1) as [P1 P2], (acked_nonneg _ _ A2) as [P3 P4].
  assert (0 <= sum s_clen b1 /\ 0 <= sum s_clen b2 /\ 0 <= sum s_len b1 /\ 0 <= sum s_len b2) as (P5 & P6 & P7 & P8).
  { destruct (chain_nonneg _ _ _ Hc) as [[L1 L2]%(merge_Forall _ _ _ _ Hm) [D1 D2]%(merge_Forall _ _ _ _ Hm)]. split_and!; by apply sum_nonneg. }
  rewrite E1, E2, !sum_app in *. unfold TCP_SND_BUF in *.
  rewrite C3, (free_unacked_ok x); cbn; try done; rewrite ?C4, ?C5, ?E2, ?sum_app, ?Hr; try lia.
  2: { destruct b1; [done|]. by inversion B1. }
  eexists _, (sum s_len a1), a2, b2. split; [reflexivity|]. split_and!; [|destruct t as [? [] ?]; cbn in *; by subst|done|by rewrite <- C6|done].
  constructor; cbn; try done; try lia; try (by right).
  { destruct b2 as [|s b2]; [done|]. inversion B2. by apply not_acked_stop. }
  constructor; cbn; try done; try lia; rewrite ?C2, ?C5, ?C6, ?C7, ?C9, ?C10; unfold TCP_SND_BUF; try done; try lia.
  by exists m, l.
Qed.

Lemma rexmit_fast_same p : recv_same p (tcp_rexmit_fast p).
Proof. unfold tcp_rexmit_fast, tcp_rexmit, recv_same. destruct (unacked p); [done|]. by destruct (has _ _). Qed.
Lemma count_dupack_same e i p : recv_same p (count_dupack e i p).
Proof.
  unfold count_dupack. case_match; [|done]. set (q := if dupacks p <? _ then _ else _).
  assert (forall r, recv_same q r -> recv_same p r) as X by (intros r (? & ? & ?); unfold q, recv_same in *; by case_match).
  apply X. clear X. destruct (3 <? dupacks q); [by destruct (cwnd q <? _)|]. destruct (dupacks q =? 3); [apply rexmit_fast_same|done].
Qed.
Lemma count_dupack_buf e i p : snd_buf (count_dupack e i p) = snd_buf p.
Proof.
  assert (forall q, snd_buf (tcp_rexmit_fast q) = snd_buf q) as X.
  { intros q. unfold tcp_rexmit_fast, tcp_rexmit. destruct (unacked q); [done|]. by destruct (has _ _). }
  unfold count_dupack. repeat case_match; rewrite ?X; done.
Qed.
Lemma update_snd_wnd_same i p : recv_same p (update_snd_wnd i p).
Proof. unfold update_snd_wnd. repeat case_match; done. Qed.
Lemma estimate_rtt_same k i p : recv_same p (estimate_rtt k i p).
Proof. unfold estimate_rtt. by case_match. Qed.

(** the position that is acknowledged afterwards *)
Definition next_una (una nxt x : Z) : Z := if (una <? x) && (x <=? nxt) then x else una.

Lemma stop_old x una nxt hi p :
  sender una nxt hi p -> -2146435072 <= x - una <= 0 -> Forall (fun s => TCP_SEQ_BETWEEN (seq b x) (s_seqno s + TCP_TCPLEN s) (snd_nxt p) = false) (unsent p).
Proof.
  intros Hp Hx. pose proof (sender_size _ _ _ _ Hp) as (Hz & _). destruct (sender_queued _ _ _ _ Hp) as [_ Hu].
  eapply Forall_impl; [|exact Hu]. intros s (k & Hs & Hk). apply not_acked_stop. exists k. split; [done|]. lia.
Qed.
Lemma stop_beyond x una nxt hi p :
  sender una nxt hi p -> nxt < x < una + 2147483648 -> Forall (fun s => TCP_SEQ_BETWEEN (seq b x) (s_seqno s + TCP_TCPLEN s) (snd_nxt p) = false) (unsent p).
Proof.
  intros Hp Hx. pose proof (sn_order _ _ _ _ Hp). apply Forall_forall. intros s _. unfold TCP_SEQ_BETWEEN. rewrite (sn_nxt _ _ _ _ Hp), (seq_LEQ b x nxt) by (try seqs; unfold near; lia).
  rewrite (proj2 (Z.leb_gt _ _)) by lia. by rewrite andb_false_r.
Qed.

(** the three cases of an acknowledgement *)
Lemma ack_cases_ok S b' n a w e una nxt hi x t :
  sender una nxt hi (pcb t) -> receiver S b' n a (pcb t) -> ackno (inp t) = seq b x -> recv_acked (inp t) = 0 -> -2146435072 <= x - una < 2147483648 ->
  exists t' a' m a2 b2,
    (if TCP_SEQ_LEQ (ackno (inp t)) (lastack (pcb t)) then Ok (t <| pcb ::= count_dupack e (inp t) |>)
     else if TCP_SEQ_BETWEEN (ackno (inp t)) (lastack (pcb t) + 1) (snd_nxt (pcb t)) then ack_new_data t else Ok (tcp_send_empty_ack (ack_sent w) t)) = Ok t'
    /\ mid (seq b x) (next_una una nxt x) nxt hi a2 b2 m (pcb t') /\ inp t' = (inp t) <| recv_acked := m |>
    /\ a <= a' /\ receiver S b' n a' (pcb t') /\ ooseq (pcb t') = ooseq (pcb t) /\ state (pcb t') = state (pcb t) /\ snd_buf (pcb t') = snd_buf (pcb t)
    /\ rcv_wnd (pcb t') = rcv_wnd (pcb t) /\ acks b' n (net t) (net t').
Proof.
  intros Hp Hrv Ha Hr Hx. pose proof (sn_order _ _ _ _ Hp) as Ho. pose proof (sender_size _ _ _ _ Hp) as (Hz & _). unfold next_una.
  rewrite Ha, (sn_una _ _ _ _ Hp), (sn_nxt _ _ _ _ Hp), (seq_LEQ b x una) by (try seqs; unfold near; lia).
  assert ((inp t) <| recv_acked := 0 |> = inp t) as Hi0 by (rewrite <- Hr; by destruct (inp t)). destruct (Z.leb_spec x una).
  { pose proof (count_dupack_ok una nxt hi e (inp t) _ Hp) as Hd. destruct (count_dupack_same e (inp t) (pcb t)) as (K1 & K2 & K3).
    eexists _, a, 0, [], _. split; [reflexivity|]. rewrite (proj2 (Z.ltb_ge una x)) by lia. cbn [andb pcb set inp].
    split; [apply mid_none; [exact Hd|eapply stop_old; [exact Hd|lia]]|]. split_and!; [by rewrite Hi0|lia|by eapply receiver_recv_part|done|done|apply count_dupack_buf|unfold recv_part in K1; congruence|apply acks_none]. }
  rewrite (seq_BETWEEN b x (una + 1) nxt) by (try seqs; unfold near; lia). rewrite (proj2 (Z.ltb_lt una x)), (proj2 (Z.leb_le (una + 1) x)) by lia. cbn [andb].
  destruct (Z.leb_spec x nxt).
  { destruct (ack_new_data_ok una nxt hi x t) as (t2 & m & a2 & b2 & -> & M & I & (R & O2 & St) & Hb & Hn); try done.
    exists t2, a, m, a2, b2. split_and!; try done; [by eapply receiver_recv_part|unfold recv_part in R; congruence|]. rewrite Hn. apply acks_none. }
  destruct (empty_ack_ok S b' n a (ack_sent w) t Hrv) as (a' & Ha' & Hr' & Ei & Es & Eo & Ew & Est & En).
  assert (snd_core (pcb (tcp_send_empty_ack (ack_sent w) t)) = snd_core (pcb t)) as Ec by (unfold send_part in Es; unfold snd_core; congruence).
  eexists _, a', 0, [], _. split; [reflexivity|]. pose proof (sender_core _ _ _ _ _ Ec Hp) as Hp2.
  split; [apply mid_none; [exact Hp2|eapply stop_beyond; [exact Hp2|lia]]|]. unfold snd_core in Ec. split_and!; try done; [by rewrite Ei, Hi0|congruence].
Qed.

Lemma receive_ack_ok S b' n a w una nxt hi x t :
  sender una nxt hi (pcb t) -> receiver S b' n a (pcb t) -> ackno (inp t) = seq b x -> recv_acked (inp t) = 0 -> -2146435072 <= x - una < 2147483648 ->
  exists t' a' m, receive_ack w t = Ok t' /\ sender (next_una una nxt x) nxt hi (pcb t') /\ inp t' = (inp t) <| recv_acked := m |> /\ 0 <= m
    /\ snd_buf (pcb t') = snd_buf (pcb t) + m /\ a <= a' /\ receiver S b' n a' (pcb t') /\ ooseq (pcb t') = ooseq (pcb t) /\ state (pcb t') = state (pcb t)
    /\ rcv_wnd (pcb t') = rcv_wnd (pcb t) /\ acks b' n (net t) (net t').
Proof.
  intros Hp Hrv Ha Hr Hx. unfold receive_ack. cbv zeta. set (t1 := t <| pcb ::= update_snd_wnd (inp t) |>).
  assert (sender una nxt hi (pcb t1)) as Hp1 by (eapply sender_core, Hp; apply update_snd_wnd_core).
  destruct (update_snd_wnd_same (inp t) (pcb t)) as (U1 & U2 & U3). pose proof (update_snd_wnd_core (inp t) (pcb t)) as Uc.
  assert (receiver S b' n a (pcb t1)) as Hrv1 by (by eapply receiver_recv_part, Hrv).
  destruct (ack_cases_ok S b' n a w (u32 (snd_wnd (pcb t) + snd_wl2 (pcb t))) una nxt hi x t1) as (t2 & a' & m & a2 & b2 & -> & M & I & Haa & Hr2 & O2 & St2 & B2 & W2 & N2);
    try done. cbn [obind].
  destruct (free_rest (seq b x) (next_una una nxt x) nxt hi a2 b2 t2) as (t3 & m' & -> & I3 & Hm' & S3 & R3 & O3 & St3 & N3 & B3); [by rewrite I|by rewrite I|]. cbn [obind].
  set (t4 := t3 <| pcb ::= _ |>). destruct (estimate_rtt_same (tcp_ticks w) (inp t4) (pcb t4)) as (E1 & E2 & E3).
  assert (recv_acked (inp t3) = m') as Hm3 by by rewrite I3.
  assert (pcb t4 = (pcb t3) <| snd_buf ::= (fun f => f + m') |>) as E4.
  { unfold t4. cbn. rewrite Hm3. pose proof (sn_buf _ _ _ _ S3) as X1. pose proof (sender_size _ _ _ _ S3) as (_ & _ & _ & X2 & X3).
    pose proof (sn_bufmin _ _ _ _ S3) as X4. cbn in X1, X2, X3, X4. unfold TCP_SND_BUF in X1. clear -X1 X2 X3 X4. destruct (pcb t3). fields. cbn in *.
    by rewrite u16_small by lia. }
  eexists _, a', m'. split; [reflexivity|]. cbn [pcb inp set]. split; [|split_and!; try done; try lia].
  - eapply sender_core; [apply estimate_rtt_core|]. by rewrite E4.
  - change (inp t4) with (inp t3). rewrite I3, I. change (inp t1) with (inp t). by destruct (inp t).
  - pose proof (estimate_rtt_core (tcp_ticks w) (inp t4) (pcb t4)) as X. unfold snd_core in X, Uc.
    assert (snd_buf (estimate_rtt (tcp_ticks w) (inp t4) (pcb t4)) = snd_buf (pcb t4)) as -> by congruence. rewrite E4. cbn. rewrite B3, B2. cbn. f_equal. congruence.
  - eapply receiver_recv_part, Hr2. rewrite E1, E4. done.
  - rewrite E2, E4. cbn. by rewrite O3, O2.
  - rewrite E3, E4. cbn. by rewrite St3, St2.
  - unfold recv_part in E1, R3, U1. transitivity (rcv_wnd (pcb t2)); [transitivity (rcv_wnd (pcb t4)); [congruence|rewrite E4; cbn; congruence]|rewrite W2; cbn; congruence].
  - cbn. by rewrite N3.
Qed.

(** ** Output *)

(** a segment with other flags, but for SYN, FIN and RST *)
Lemma seg_out_flags k s f :
  seg_out k s -> has f (Z.lor TCP_FIN TCP_SYN) = false -> has f TCP_RST = false ->
  let s' := s <| s_flags ::= (fun g => Z.lor g f) |> in seg_out k s' /\ TCP_TCPLEN s' = TCP_TCPLEN s.
Proof.
  intros [] Hf Hr s'. assert (TCP_TCPLEN s' = TCP_TCPLEN s) as E.
  { unfold s', TCP_TCPLEN. cbn. by rewrite has_lor, Hf, orb_false_r. }
  split; [|done]. constructor; try done; [by rewrite E|]. unfold s'. cbn. by rewrite has_lor, so_rst0.
Qed.

Lemma sender_unsent una nxt hi s us s' p :
  sender una nxt hi p -> unsent p = s :: us -> (forall k, seg_out k s -> seg_out k s') -> TCP_TCPLEN s' = TCP_TCPLEN s -> s_len s' = s_len s -> s_clen s' = s_clen s ->
  sender una nxt hi (p <| unsent := s' :: us |>).
Proof.
  intros [S1 S2 S3 (lo & l & Hc & Hlo & Hh & Hm) S5 S6 S7 S8 S9 S10 S11] Eu Hs Ht Hl Hcl. rewrite Eu in *.
  constructor; cbn in *; rewrite ?Hl, ?Hcl; try done.
  destruct (merge_head _ _ _ _ (merge_comm _ _ _ Hm)) as (a & c & d & -> & -> & Hm'). exists lo, (a ++ s' :: d). split_and!; try done.
  - apply chain_app in Hc as (m & H1 & H2 & H3). apply chain_app. exists m. split; [done|]. cbn. rewrite Ht. split; [by apply Hs|done].
  - destruct a; cbn in *; [by rewrite Ht|done].
  - apply (merge_app a [] a); [apply merge_left|]. by apply merge_r, merge_comm.
Qed.

Lemma unacked_insert_ok lo hi s l1 l2 l :
  chain lo hi l -> hi - lo <= 1073741824 -> merge l1 (s :: l2) l -> merge (unacked_insert s l1) l2 l /\ forall f, sum f (unacked_insert s l1) = f s + sum f l1.
Proof.
  intros Hc Hsz Hm. enough (unacked_insert s l1 = insert_sorted s l1) as ->.
  { split; [|intros f; apply sum_insert]. apply merge_comm. eapply merge_move; [exact Hc|done|]. by apply merge_comm. }
  destruct (merge_head _ _ _ _ (merge_comm _ _ _ Hm)) as (a & c & d & -> & -> & Hm'). apply chain_app in Hc as (m & H1 & H2 & H3).
  pose proof (chain_le _ _ _ H1). pose proof (chain_le _ _ _ H3). pose proof (so_span _ _ H2). unfold unacked_insert.
  destruct (list.last (a ++ c)) as [u|] eqn:El; [|by apply last_None in El as ->]. destruct c as [|c0 c].
  - rewrite app_nil_r in *. apply last_Some in El as (a' & ->). pose proof (chain_within _ _ _ H1) as Hw.
    apply Forall_app in Hw as [_ Hw]. inversion Hw as [|? ? (k & Hk & ? & ?) _]; subst. pose proof (so_span _ _ Hk).
    rewrite (so_seqno _ _ H2), (so_seqno _ _ Hk), (seq_LT b m k), (proj2 (Z.ltb_ge _ _)) by (try seqs; unfold near; lia).
    pose proof (insert_sorted_skip s m (a' ++ [u]) []) as X. rewrite app_nil_r in X. symmetry. apply X; [apply (so_seqno _ _ H2)| |done].
    eapply Forall_impl; [|exact (chain_within _ _ _ H1)]. intros v (j & Hj & ? & ?). pose proof (so_span _ _ Hj).
    exists j. split; [apply (so_seqno _ _ Hj)|]. unfold near. lia.
  - rewrite last_app in El. destruct (list.last (c0 :: c)) as [u'|] eqn:El'; [|by apply last_None in El']. injection El as <-.
    destruct (merge_Forall _ _ _ _ Hm' (chain_within _ _ _ H3)) as [_ F]. apply last_Some in El' as (c' & E). rewrite E in F.
    apply Forall_app in F as [_ F]. inversion F as [|? ? (k & Hk & ? & ?) _]; subst. pose proof (so_span _ _ Hk).
    by rewrite (so_seqno _ _ H2), (so_seqno _ _ Hk), (seq_LT b m k), (proj2 (Z.ltb_lt _ _)) by (try seqs; unfold near; lia).
Qed.

(** the first unsent segment is sent *)
Lemma sender_sent una nxt hi s us p :
  sender una nxt hi p -> unsent p = s :: us ->
  exists nxt', nxt <= nxt' /\
    sender una nxt' hi (p <| unsent := us |> <| snd_nxt := if TCP_SEQ_LT (snd_nxt p) (u32 (s_seqno s + TCP_TCPLEN s)) then u32 (s_seqno s + TCP_TCPLEN s) else snd_nxt p |>
                          <| unacked ::= unacked_insert s |>).
Proof.
  intros Hp Eu. pose proof (sender_size _ _ _ _ Hp) as (Hz & _). destruct (sender_queued _ _ _ _ Hp) as [_ Hq]. rewrite Eu in Hq.
  inversion Hq as [|? ? (k & Hs & Hk) _]; subst. destruct Hp as [S1 S2 S3 (lo & l & Hc & Hlo & Hh & Hm) S5 S6 S7 S8 S9 S10 S11]. rewrite Eu in *.
  pose proof (chain_size _ _ _ Hc) as Hsz. rewrite !(sum_merge _ _ _ _ Hm) in Hsz. unfold TCP_SND_BUF in *.
  destruct (unacked_insert_ok lo hi s (unacked p) us l) as [Hm' Hsum]; [done|lia|done|].
  assert (0 <= k) by apply (so_pos _ _ Hs). rewrite (so_seqno _ _ Hs), (u32_at b k (k + TCP_TCPLEN s)), S2 by lia.
  rewrite (seq_LT b nxt (k + TCP_TCPLEN s)) by (try seqs; unfold near; lia).
  exists (Z.max nxt (k + TCP_TCPLEN s)). split; [lia|]. constructor; cbn in *; rewrite ?Hsum; unfold TCP_SND_BUF; try done; try lia.
  - destruct (Z.ltb_spec nxt (k + TCP_TCPLEN s)); f_equal; lia.
  - by exists lo, l.
Qed.

(** ** What is on the wire *)

(** Data is what was written and at its place; what is acknowledged was
    delivered, up to position [n]. *)
Definition wire (b' n : Z) (e : sent) : Prop :=
  match e with
  | Ack _ r _ => exists n', 0 <= n' <= n /\ r = seq b' n'
  | Segment s r _ => (exists k, seg_out k s) /\ exists n', 0 <= n' <= n /\ r = seq b' n'
  | Rst _ _ => False
  end.
Definition sends (b' n : Z) (o o' : list sent) : Prop := exists l, o' = o ++ l /\ Forall (wire b' n) l.
Lemma sends_none b' n o : sends b' n o o.
Proof. exists []. by rewrite app_nil_r. Qed.
Lemma sends_trans b' n o o' o'' : sends b' n o o' -> sends b' n o' o'' -> sends b' n o o''.
Proof. intros (l & -> & H) (l' & -> & H'). exists (l ++ l'). rewrite app_assoc. split; [done|]. by apply Forall_app. Qed.
Lemma acks_sends b' n o o' : 0 <= n -> acks b' n o o' -> sends b' n o o'.
Proof.
  intros Hn (l & -> & H). exists l. split; [done|]. eapply Forall_impl; [|exact H]. intros [r x w| |] E; try done. exists n. split; [lia|done].
Qed.

Section Output.
Context (S : list Z) (b' n : Z).

(** what output leaves alone *)
Record output_ok (una nxt hi a : Z) (t t' : tcp) : Prop := {
  oo_send : exists nxt', nxt <= nxt' /\ sender una nxt' hi (pcb t');
  oo_recv : exists a', a <= a' /\ receiver S b' n a' (pcb t');
  oo_inp : inp t' = inp t;
  oo_queue : ooseq (pcb t') = ooseq (pcb t);
  oo_state : state (pcb t') = state (pcb t);
  oo_wnd : rcv_wnd (pcb t') = rcv_wnd (pcb t);
  oo_buf : snd_buf (pcb t') = snd_buf (pcb t);
  oo_lbb : snd_lbb (pcb t') = snd_lbb (pcb t);
  oo_net : sends b' n (net t) (net t')
}.
Lemma output_ok_refl una nxt hi a t : sender una nxt hi (pcb t) -> receiver S b' n a (pcb t) -> output_ok una nxt hi a t t.
Proof. intros. constructor; try done; [exists nxt|exists a|apply sends_none]; by split. Qed.
Lemma output_ok_trans una nxt nxt' hi a a' t t' t'' :
  nxt <= nxt' -> a <= a' -> output_ok una nxt hi a t t' -> output_ok una nxt' hi a' t' t'' -> output_ok una nxt hi a t t''.
Proof.
  intros Hn Ha [] [[? []] [? []] ? ? ? ? ? ? ?]. constructor; try congruence; [eexists; split; [|eassumption]; lia|eexists; split; [|eassumption]; lia|].
  by eapply sends_trans.
Qed.

Lemma output_segment_ok una nxt hi a k tk f s us t :
  sender una nxt hi (pcb t) -> receiver S b' n a (pcb t) -> unsent (pcb t) = s :: us -> seg_out k s ->
  output_ok una nxt hi a t (fst (tcp_output_segment tk f s t)) /\ unsent (pcb (fst (tcp_output_segment tk f s t))) = s :: us.
Proof.
  intros Hp Hr Eu Hs. unfold tcp_output_segment. destruct f as [|err]; cbn [fst]; [split; [by apply output_ok_refl|done]|].
  destruct Hr as [H1 H2 H3 H4 H5 H6 H7 H8]. split; [|cbn; by destruct (rttest _ =? 0)].
  constructor; cbn [pcb inp net set]; try done; try by destruct (rttest _ =? 0).
  - exists nxt. split; [done|]. eapply sender_core, Hp. by destruct (rttest _ =? 0).
  - exists (n + rcv_ann_wnd (pcb t)). split; [lia|].
    eapply receiver_recv_part with (p := (pcb t) <| rcv_ann_right_edge := u32 (rcv_nxt (pcb t) + rcv_ann_wnd (pcb t)) |>); [by destruct (rttest _ =? 0)|].
    constructor; cbn; try done; try lia. rewrite H1. seqs.
  - destruct (err =? ERR_OK); [|apply sends_none]. eexists. split; [reflexivity|]. constructor; [|done]. split; [by exists k|].
    exists n. split; [lia|]. rewrite <- H1. by destruct (rttest _ =? 0).
Qed.

(** the pieces of a control block that do not matter here *)
Lemma output_ok_core una nxt hi a t t' p :
  output_ok una nxt hi a t t' -> snd_core p = snd_core (pcb t') -> recv_part p = recv_part (pcb t') -> ooseq p = ooseq (pcb t') -> state p = state (pcb t') ->
  snd_lbb p = snd_lbb (pcb t') -> output_ok una nxt hi a t (t' <| pcb := p |>).
Proof.
  intros [(x & ? & ?) (y & ? & ?) ? ? ? ? ? ? ?] Hc Hr Ho Hs Hl. constructor; cbn; try congruence; try done.
  - exists x. split; [done|]. by eapply sender_core.
  - exists y. split; [done|]. by eapply receiver_recv_part.
  - unfold recv_part in Hr. congruence.
  - unfold snd_core in Hc. congruence.
Qed.

Lemma segment_sent_parts s us p :
  0 < TCP_TCPLEN s ->
  snd_core (segment_sent s us p) = snd_core (p <| unsent := us |>
    <| snd_nxt := if TCP_SEQ_LT (snd_nxt p) (u32 (s_seqno s + TCP_TCPLEN s)) then u32 (s_seqno s + TCP_TCPLEN s) else snd_nxt p |> <| unacked ::= unacked_insert s |>)
  /\ recv_same p (segment_sent s us p) /\ snd_lbb (segment_sent s us p) = snd_lbb p /\ unsent (segment_sent s us p) = us /\ rcv_wnd (segment_sent s us p) = rcv_wnd p.
Proof.
  intros H. unfold segment_sent. cbv zeta. rewrite (proj2 (Z.ltb_lt 0 (TCP_TCPLEN s))) by done. destruct (bool_decide _); cbn; destruct (TCP_SEQ_LT _ _); done.
Qed.

(** the rest of the loop, once the first segment was sent *)
Lemma output_sent_ok una nxt hi a s us t t' :
  output_ok una nxt hi a t t' -> unsent (pcb t') = s :: us -> 0 < TCP_TCPLEN s ->
  exists nxt' a', nxt <= nxt' /\ a <= a' /\ sender una nxt' hi (segment_sent s us (pcb t')) /\ receiver S b' n a' (segment_sent s us (pcb t'))
    /\ output_ok una nxt hi a t (t' <| pcb ::= segment_sent s us |>).
Proof.
  intros Ho Eu Hl. pose proof Ho as [(nx & Hn & Hp) (a' & Ha & Hr) O3 O4 O5 O6 O7 O8 O9].
  destruct (sender_sent una nx hi s us (pcb t') Hp Eu) as (nx' & Hn' & Hp'). destruct (segment_sent_parts s us (pcb t') Hl) as (Ec & (R1 & R2 & R3) & El & _ & Ew).
  assert (sender una nx' hi (segment_sent s us (pcb t'))) as Hp1 by (by eapply sender_core).
  assert (receiver S b' n a' (segment_sent s us (pcb t'))) as Hr1 by (by eapply receiver_recv_part).
  exists nx', a'. split_and!; try done; [lia|]. assert (nxt <= nx') by lia. constructor; cbn; try congruence; try done; [by exists nx'|by exists a'|].
  unfold snd_core in Ec. cbn in Ec. congruence.
Qed.

Lemma output_loop_ok una nxt hi a tk w l fs t :
  sender una nxt hi (pcb t) -> receiver S b' n a (pcb t) -> unsent (pcb t) = l -> exists t' err, output_loop tk w l fs t = Ok (t', err) /\ output_ok una nxt hi a t t'.
Proof.
  revert nxt a fs t. induction l as [|s us IH]; intros nxt a fs t Hp Hr Eu; cbn [output_loop]; [exists t, ERR_OK; split; [done|]; by apply output_ok_refl|].
  destruct (beyond _ _ _); [exists t, ERR_OK; split; [done|]; by apply output_ok_refl|].
  destruct (sender_queued _ _ _ _ Hp) as [_ Hq]. rewrite Eu in Hq. inversion Hq as [|? ? (k & Hs & Hk) _]; subst. clear Hq.
  rewrite check_true by (by rewrite (so_rst _ _ Hs)). destruct (negb (tcp_do_output_nagle _) && _); [exists t, ERR_OK; split; [done|]; by apply output_ok_refl|].
  cbv zeta. set (s' := if bool_decide (state (pcb t) = SYN_SENT) then s else _).
  assert (forall j, seg_out j s -> seg_out j s') as Hs'1 by (intros j Hj; unfold s'; destruct (bool_decide _); [done|by apply seg_out_flags]).
  assert (TCP_TCPLEN s' = TCP_TCPLEN s) as Hs'2 by (unfold s'; destruct (bool_decide _); [done|by eapply seg_out_flags]).
  assert (s_len s' = s_len s /\ s_clen s' = s_clen s) as [Hs'3 Hs'4] by (unfold s'; by destruct (bool_decide _)).
  clearbody s'. set (t1 := t <| pcb ::= _ |>).
  assert (sender una nxt hi (pcb t1)) as Hp1 by (by eapply sender_unsent).
  assert (receiver S b' n a (pcb t1)) as Hr1 by (by eapply receiver_recv_part, Hr).
  destruct (output_segment_ok una nxt hi a k tk (hd (Output ERR_OK) fs) s' us t1 Hp1 Hr1 eq_refl (Hs'1 _ Hs)) as [Ho Eu2].
  assert (output_ok una nxt hi a t t1) as Ho1 by (constructor; try done; [by exists nxt|by exists a|apply sends_none]).
  destruct (tcp_output_segment _ _ _ _) as [t2 err]. cbn [fst] in *. destruct (negb (err =? ERR_OK)).
  { eexists _, err. split; [reflexivity|]. eapply (output_ok_trans una nxt nxt hi a a); [lia|lia|exact Ho1|]. by apply (output_ok_core una nxt hi a t1 t2). }
  assert (0 < TCP_TCPLEN s') as Hl by (rewrite Hs'2; apply (so_span _ _ Hs)).
  destruct (output_sent_ok una nxt hi a s' us t1 t2 Ho Eu2 Hl) as (nx3 & a3 & Hn3 & Ha3 & Hp3 & Hr3 & Ho3).
  destruct (IH nx3 a3 (tl fs) (t2 <| pcb ::= segment_sent s' us |>)) as (t' & e & -> & Ho4); [done|done|by apply segment_sent_parts|].
  exists t', e. split; [done|]. eapply (output_ok_trans una nxt nxt hi a a); [lia|lia|exact Ho1|]. by eapply output_ok_trans.
Qed.

Lemma tcp_output_ok una nxt hi a pr w t :
  sender una nxt hi (pcb t) -> receiver S b' n a (pcb t) -> state (pcb t) <> LISTEN ->
  exists t' err, tcp_output pr w t = Ok (t', err) /\ output_ok una nxt hi a t t'.
Proof.
  intros Hp Hr Hst. unfold tcp_output. rewrite check_true by (by rewrite bool_decide_false). destruct pr; [exists t, ERR_OK; split; [done|]; by apply output_ok_refl|].
  cbv zeta. set (stuck := match unsent (pcb t) with [] => true | _ => _ end). destruct (has (pflags (pcb t)) TF_ACK_NOW && stuck).
  { eexists _, _. split; [reflexivity|]. destruct (empty_ack_ok S b' n a (empty_ack w) t Hr) as (a' & Ha & Hr' & Ei & Es & Eo & Ew & Est & En).
    unfold send_part in Es. constructor; try done; try congruence.
    - exists nxt. split; [done|]. eapply sender_core, Hp. unfold snd_core. congruence.
    - by exists a'.
    - apply acks_sends; [apply (rv_pos _ _ _ _ _ Hr)|done]. }
  destruct (negb (route w)); [exists t, ERR_RTE; split; [done|]; by apply output_ok_refl|].
  assert (exists t1 err, (if stuck && negb (bool_decide (unsent (pcb t) = [])) && (0 <? Z.min (snd_wnd (pcb t)) (cwnd (pcb t))) && (Z.min (snd_wnd (pcb t)) (cwnd (pcb t)) =? snd_wnd (pcb t))
      && bool_decide (unacked (pcb t) = []) then Ok (t <| pcb ::= start_persist |>, ERR_OK)
      else output_loop (link_ticks w) (Z.min (snd_wnd (pcb t)) (cwnd (pcb t))) (unsent (pcb t)) (fates w) t) = Ok (t1, err) /\ output_ok una nxt hi a t t1) as (t1 & err & -> & Ho).
  { case_match; [|by apply output_loop_ok]. eexists _, _. split; [reflexivity|]. apply output_ok_core; [by apply output_ok_refl| | | | |]; unfold start_persist; by case_match. }
  cbn [obind]. destruct (negb (err =? ERR_OK)); [by exists t1, err|]. eexists _, _. split; [reflexivity|]. by apply output_ok_core.
Qed.
End Output.

(** ** Writing *)

Definition fits (m : Z) (s : tcp_seg) : Prop := 0 <= s_len s /\ 0 <= s_optlen s /\ s_len s + s_optlen s <= m /\ (0 < s_len s -> has (s_flags s) (Z.lor TCP_FIN TCP_SYN) = false).

(** the space behind the last unsent segment *)
Definition has_room (p : tcp_pcb) : Prop :=
  match list.last (unsent p) with
  | None => unsent_oversize p = 0
  | Some s => fits (mss_local p) s /\ 0 <= unsent_oversize p <= mss_local p - (s_len s + s_optlen s) /\ (0 < unsent_oversize p -> 0 < s_len s)
  end.

(** Data can be written: the unacknowledged segments come before the others and
    there is room as noted. *)
Record writable (hi : Z) (p : tcp_pcb) : Prop := {
  wr_pos : 0 <= hi;
  wr_order : exists lo, chain lo hi (unacked p ++ unsent p);
  wr_room : has_room p
}.

Lemma mss_local_bound p : 0 < mss p <= TCP_MSS -> 0 < mss_local p <= TCP_MSS \/ snd_wnd_max p < 0.
Proof.
  intros H. unfold mss_local. destruct (Z.lt_ge_cases (snd_wnd_max p) 0); [by right|]. left.
  pose proof (Z.div_pos (snd_wnd_max p) 2). destruct (Z.eqb_spec (Z.min (mss p) (snd_wnd_max p / 2)) 0); lia.
Qed.

Lemma prealloc_bound p f l m : 0 <= l <= m -> 0 <= prealloc_oversize p f l m <= m - l.
Proof.
  intros H. unfold prealloc_oversize. case_match; [|lia]. assert (l <= (l + TCP_MSS + 3) / 4 * 4); [|lia]. unfold TCP_MSS.
  pose proof (Z.div_mod (l + 512 + 3) 4). pose proof (Z.mod_pos_bound (l + 512 + 3) 4). lia.
Qed.

Lemma new_segments_ok fuel p bud hi pos data f ql ov :
  0 < mss_local p <= TCP_MSS -> snd_lbb p = seq b hi -> (length data <= fuel)%nat -> 0 <= hi + pos -> data = field O (hi + pos) (blen data) -> hi + pos + blen data <= blen O ->
  0 <= ql -> ql <= TCP_SND_QUEUELEN ->
  exists r, new_segments fuel p bud pos data f ql ov = Ok r /\
    match r with
    | None => True
    | Some (q, ql', ov') =>
      chain (hi + pos) (hi + pos + blen data) q /\ ql' = ql + sum s_clen q /\ ql' <= TCP_SND_QUEUELEN /\ sum s_len q = blen data /\ Forall (fits (mss_local p)) q
      /\ match list.last q with None => data = [] /\ ov' = ov | Some s => 0 < s_len s /\ s_optlen s = 0 /\ 0 <= ov' <= mss_local p - s_len s end
    end.
Proof.
  intros Hm Hl. revert bud pos data f ql ov. induction fuel as [|fuel IH]; intros bud pos data f ql ov Hf Hp Hd He Hq Hqm.
  { destruct data; [|cbn in Hf; lia]. eexists. split; [reflexivity|]. cbn -[blen TCP_SND_QUEUELEN]. rewrite blen_nil. split_and!; try done; lia. }
  destruct data as [|x data']; [eexists; split; [reflexivity|]; cbn -[blen TCP_SND_QUEUELEN]; rewrite blen_nil; split_and!; try done; lia|]. cbn [new_segments].
  set (data := x :: data') in *. assert (1 <= blen data) as Hb1 by (unfold data; rewrite blen_cons; pose proof (blen_nonneg data'); lia). clearbody data.
  destruct bud as [|bud]; [by exists None|]. cbn [alloc]. unfold TCP_SND_QUEUELEN, TCP_SND_BUF, TCP_MSS, TCP_SNDQUEUELEN_OVERFLOW in *.
  change (4 * 16384 / 512) with 128 in *. change (65535 - 3) with 65532. cbv zeta. rewrite u16_small by lia.
  destruct (_ || _) eqn:Eq; [by exists None|]. apply orb_false_iff in Eq as [Eq _]. apply Z.ltb_ge in Eq. destruct bud as [|bud]; [by exists None|]. cbn [alloc].
  set (n := Z.min (blen data) (mss_local p)).
  assert (0 < n <= mss_local p /\ n <= blen data) as (Hn1 & Hn2) by lia. clearbody n.
  assert (skipn (Z.to_nat n) data = field O (hi + (pos + n)) (blen data - n)) as Hrest.
  { rewrite Hd at 1. rewrite drop_field by lia. f_equal; lia. }
  assert (blen (skipn (Z.to_nat n) data) = blen data - n) as Hbl by (unfold blen in *; rewrite length_skipn; lia).
  destruct (IH bud (pos + n) (skipn (Z.to_nat n) data) false (ql + 1) (prealloc_oversize p f n (mss_local p))) as (r & -> & Hr).
  { rewrite length_skipn. cbn in Hf |- *. lia. }
  { lia. }
  { rewrite Hbl. done. }
  { rewrite Hbl. lia. }
  { lia. }
  { lia. }
  cbn [obind]. destruct r as [[[q ql'] ov']|]; [|by exists None]. eexists. split; [reflexivity|]. cbn beta iota. destruct Hr as (R1 & R2 & R3 & R4 & R5 & R6).
  rewrite Hbl in R1, R4. set (seg := mkSeg _ n _ 0 1 0).
  assert (TCP_TCPLEN seg = n) as Htl by (unfold TCP_TCPLEN; change (has (s_flags seg) (Z.lor TCP_FIN TCP_SYN)) with false; cbn; lia).
  assert (seg_out (hi + pos) seg) as Hseg.
  { constructor; cbn; try done; try lia; [rewrite Hl; seqs|unfold TCP_SND_BUF; lia|rewrite Hd at 1; apply take_field; lia]. }
  split_and!.
  - split; [done|]. rewrite Htl. replace (hi + pos + n) with (hi + (pos + n)) by lia. replace (hi + pos + blen data) with (hi + (pos + n) + (blen data - n)) by lia. done.
  - cbn. lia.
  - lia.
  - cbn. lia.
  - constructor; [|done]. unfold fits. cbn. split_and!; try lia. done.
  - rewrite last_cons. destruct (list.last q) as [s|] eqn:El; [done|]. cbn. destruct R6 as [_ ->]. split_and!; try lia.
    all: apply prealloc_bound; lia.
Qed.

Lemma map_last_snoc {A} (f : A -> A) l x : map_last f (l ++ [x]) = l ++ [f x].
Proof. induction l as [|y l IH]; [done|]. cbn. rewrite IH. by destruct l. Qed.

(** what the last segment takes *)
Lemma extend_last_ok p bud n :
  has_room p -> 0 <= n ->
  exists r, extend_last p bud n = Ok r /\
    match r with
    | None => True
    | Some (pos, _, c, ov) =>
      0 <= pos <= n /\
      match list.last (unsent p) with
      | None => pos = 0 /\ c = false /\ ov = 0
      | Some s => s_len s + s_optlen s + pos <= mss_local p /\ (0 < pos \/ c = true \/ 0 < ov -> 0 < s_len s)
                  /\ 0 <= ov <= mss_local p - (s_len s + s_optlen s + pos) /\ (c = true -> 0 < pos)
      end
    end.
Proof.
  unfold has_room, extend_last. intros Hr Hn. destruct (list.last (unsent p)) as [s|].
  2: { rewrite check_true by lia. eexists. split; [reflexivity|]. cbn. lia. }
  destruct Hr as ((F1 & F2 & F3 & F4) & Ho & Hol). rewrite check_true by lia. cbv zeta. rewrite check_true by lia.
  set (sp := mss_local p - (s_len s + s_optlen s)). set (used := if 0 <? unsent_oversize p then _ else 0).
  assert (0 <= used <= n /\ used <= unsent_oversize p /\ (unsent_oversize p - used = 0 \/ used = n)) as (U1 & U2 & U3).
  { unfold used, sp. destruct (Z.ltb_spec 0 (unsent_oversize p)); lia. }
  clearbody used. rewrite check_true by lia. unfold sp in *. destruct (_ && _) eqn:Ec.
  - apply andb_true_iff in Ec as [Ec1 Ec2]. apply andb_true_iff in Ec1 as [Ec0 Ec1]. destruct bud as [|bud]; [by exists None|]. eexists. split; [reflexivity|].
    cbn beta iota. set (g := Z.min _ _). pose proof (prealloc_bound p true g (mss_local p - (s_len s + s_optlen s) - used) ltac:(lia)). lia.
  - eexists. split; [reflexivity|]. cbn beta iota. lia.
Qed.

Lemma append_ok k n s d c :
  seg_out k s -> has (s_flags s) (Z.lor TCP_FIN TCP_SYN) = false -> 0 < s_len s -> d = field O (k + s_len s) n -> 0 <= n -> k + s_len s + n <= blen O -> s_len s + n <= TCP_MSS ->
  seg_out k (append_data d c s) /\ TCP_TCPLEN (append_data d c s) = TCP_TCPLEN s + n /\ s_len (append_data d c s) = s_len s + n
  /\ s_clen (append_data d c s) = s_clen s + (if c then 1 else 0).
Proof.
  intros Hs Hf Hl Hd Hn He Hm. destruct Hs. unfold TCP_SND_BUF, TCP_MSS in *.
  assert (blen d = n) as Hb by (rewrite Hd, blen_field; lia).
  assert (s_len (append_data d c s) = s_len s + n) as E by (cbn; rewrite Hb; apply u16_small; lia).
  assert (TCP_TCPLEN (append_data d c s) = TCP_TCPLEN s + n) as Et by (unfold TCP_TCPLEN; rewrite E; cbn; rewrite Hf; lia).
  split_and!; try done; [|cbn; destruct c; lia]. constructor; rewrite ?Et, ?E; unfold TCP_SND_BUF; try done; try lia.
  - cbn. rewrite so_data0, Hd. rewrite (field_split O k (s_len s) (s_len s + n)) by lia. do 2 f_equal. lia.
  - cbn. destruct c; lia.
Qed.

Lemma push_chain lo hi l : chain lo hi l -> chain lo hi (map_last set_push l).
Proof.
  destruct l as [|x l _] using rev_ind; [done|]. rewrite map_last_snoc. intros (m & H1 & H2 & H3)%chain_app. apply chain_app. exists m. split; [done|].
  destruct (seg_out_flags m x TCP_PSH H2) as [P1 P2]; [done|done|]. split; [exact P1|]. unfold set_push. by rewrite P2.
Qed.
Lemma push_sum f l : (forall s, f (set_push s) = f s) -> sum f (map_last set_push l) = sum f l.
Proof. intros H. destruct l as [|x l _] using rev_ind; [done|]. rewrite map_last_snoc, !sum_app. cbn. by rewrite H. Qed.

Lemma extended_ok m hi us s pos d (c : bool) :
  chain m hi (us ++ [s]) -> (0 < pos -> 0 < s_len s /\ has (s_flags s) (Z.lor TCP_FIN TCP_SYN) = false) -> 0 <= pos -> (c = true -> 0 < pos) -> d = field O hi pos ->
  hi + pos <= blen O -> s_len s + pos <= TCP_MSS ->
  exists s', (if 0 <? pos then map_last (append_data d c) (us ++ [s]) else us ++ [s]) = us ++ [s'] /\ chain m (hi + pos) (us ++ [s'])
    /\ s_len s' = s_len s + pos /\ s_clen s' = s_clen s + (if c then 1 else 0) /\ s_optlen s' = s_optlen s /\ s_flags s' = s_flags s.
Proof.
  intros Hc Hf Hp Hcc Hd He Hm. destruct (Z.ltb_spec 0 pos) as [Hlt|Hge].
  - destruct (Hf Hlt) as [F1 F2]. apply chain_app in Hc as (k & H1 & H2 & H3). cbn in H3. assert (TCP_TCPLEN s = s_len s) as Et by (unfold TCP_TCPLEN; rewrite F2; lia).
    destruct (append_ok k pos s d c) as (A1 & A2 & A3 & A4); try done; [rewrite Hd; f_equal; lia|lia|].
    exists (append_data d c s). rewrite map_last_snoc. split; [done|]. split; [|done]. apply chain_app. exists k. split; [done|]. split; [done|]. cbn. lia.
  - assert (pos = 0) as -> by lia. destruct c; [by apply Z.lt_irrefl in Hcc|]. exists s. rewrite !Z.add_0_r. done.
Qed.

Definition first_after (una lo : Z) (l : list tcp_seg) : Prop := match l with [] => True | s :: _ => una < lo + TCP_TCPLEN s end.
Lemma chain_sum lo hi l : chain lo hi l -> hi - lo = sum TCP_TCPLEN l.
Proof. revert lo. induction l as [|s l IH]; intros lo; cbn; [lia|]. intros [_ H%IH]. lia. Qed.

(** when the unacknowledged segments come before the others *)
Lemma order_first una nxt hi lo p :
  sender una nxt hi p -> chain lo hi (unacked p ++ unsent p) -> lo <= una /\ first_after una lo (unacked p ++ unsent p).
Proof.
  intros Hp Hc. pose proof (sender_size _ _ _ _ Hp) as (Hz & _). destruct (sender_queued _ _ _ _ Hp) as [Q1 Q2].
  destruct Hp as [_ _ Ho (lo0 & l0 & Hc0 & Hlo & Hh & Hm) S5 S6 S7 S8 _ _ _].
  pose proof (chain_size _ _ _ Hc0) as Hsz. rewrite !(sum_merge _ _ _ _ Hm) in Hsz. assert (lo = lo0) as ->. { pose proof (chain_sum _ _ _ Hc) as X. pose proof (chain_sum _ _ _ Hc0) as X0. rewrite (sum_merge _ _ _ _ Hm) in X0. rewrite sum_app in X. lia. }
  split; [done|]. assert (Forall (fun s => exists k, seg_out k s /\ una < k + TCP_TCPLEN s <= hi) (unacked p ++ unsent p)) as Q by by apply Forall_app.
  destruct (unacked p ++ unsent p) as [|s l]; [done|]. cbn in *. inversion Q as [|? ? (k & Hk & Hu) _]; subst. destruct Hc as [Hs Hc].
  assert (k = lo0) as ->; [|lia]. pose proof (chain_le _ _ _ Hc). pose proof (so_len _ _ Hs). pose proof (tcplen_len s). unfold TCP_SND_BUF in *.
  apply Z.eqb_eq. rewrite <- (seq_inj b k lo0), <- (so_seqno _ _ Hk), <- (so_seqno _ _ Hs) by (unfold near; lia). apply Z.eqb_refl.
Qed.

Lemma push_first una lo l : first_after una lo l -> first_after una lo (map_last set_push l).
Proof.
  destruct l as [|s l]; [done|]. destruct l; [|done]. cbn. unfold TCP_TCPLEN, set_push. cbn. rewrite has_lor. change (has TCP_PSH (Z.lor TCP_FIN TCP_SYN)) with false.
  by rewrite orb_false_r.
Qed.
Lemma map_last_app {A} (f : A -> A) l k : k <> [] -> map_last f (l ++ k) = l ++ map_last f k.
Proof. intros Hk. destruct k as [|x k _] using rev_ind; [done|]. by rewrite app_assoc, !map_last_snoc, app_assoc. Qed.

(** the control block after a write: [f] is the new queue *)
Lemma written_ok una nxt hi (f : list tcp_seg) (push : bool) ql ov n p lo :
  sender una nxt hi p -> chain lo (hi + n) (unacked p ++ f) -> lo <= una -> first_after una lo (unacked p ++ f) ->
  sum s_len f = sum s_len (unsent p) + n -> ql = sum s_clen (unacked p) + sum s_clen f -> ql <= 65535 -> 0 <= n <= snd_buf p -> 0 <= hi ->
  match list.last f with None => ov = 0 | Some s => fits (mss_local p) s /\ 0 <= ov <= mss_local p - (s_len s + s_optlen s) /\ (0 < ov -> 0 < s_len s) end ->
  let p' := p <| unsent := if push then map_last set_push f else f |> <| unsent_oversize := ov |> <| snd_lbb ::= (fun x => u32 (x + n)) |>
             <| snd_buf ::= (fun x => u16 (x - n)) |> <| snd_queuelen := ql |> in
  sender una nxt (hi + n) p' /\ writable (hi + n) p'.
Proof.
  intros Hp Hc Hlo Hf Hl Hq Hqm Hn Hpos Hr. pose proof (sn_lbb _ _ _ _ Hp) as Hb. set (g := if push then map_last set_push f else f).
  assert (chain lo (hi + n) (unacked p ++ g) /\ first_after una lo (unacked p ++ g)) as [Hg1 Hg2].
  { unfold g. destruct push; [|done]. destruct f as [|s f]; [done|]. rewrite <- map_last_app by done. split; [by apply push_chain|by apply push_first]. }
  assert (sum s_len g = sum s_len f /\ sum s_clen g = sum s_clen f) as [Hg3 Hg4] by (unfold g; destruct push; [split; by apply push_sum|done]).
  pose proof (sender_size _ _ _ _ Hp) as (_ & _ & _ & X1 & X2). destruct Hp as [S1 S2 S3 S4 S5 S6 S7 S8 S9 S10 S11]. unfold TCP_SND_BUF in *.
  assert (u16 (snd_buf p - n) = snd_buf p - n) as Hu by (apply u16_small; lia). split.
  - constructor; cbn; rewrite ?Hu; try done; try lia; [|unfold TCP_SND_BUF; lia|rewrite Hb; seqs].
    exists lo, (unacked p ++ g). split_and!; try done. rewrite <- (app_nil_r (unacked p)) at 1. apply (merge_app _ [] _ [] g g); [apply merge_left|apply merge_comm, merge_left].
  - constructor; cbn; [lia|by exists lo|]. unfold has_room. cbn. fold g. change (mss_local _) with (mss_local p).
    unfold g. destruct push; [|done]. destruct f as [|s f _] using rev_ind; [done|]. rewrite map_last_snoc, last_snoc in *. cbn. destruct Hr as ((F1 & F2 & F3 & F4) & R2 & R3).
    split; [|done]. unfold fits, set_push. cbn. split_and!; try done. intros Hx. rewrite has_lor, F4; done.
Qed.

Lemma queued_qlen una nxt hi p : sender una nxt hi p -> (if snd_queuelen p =? 0 then negb (queued p) else queued p) = true.
Proof.
  intros Hp. destruct (sender_queued _ _ _ _ Hp) as [Q1 Q2]. pose proof (sender_size _ _ _ _ Hp) as (_ & C1 & C2 & _). pose proof (sn_qlen _ _ _ _ Hp) as E.
  assert (forall l, Forall (fun s => exists k, seg_out k s /\ una < k + TCP_TCPLEN s <= hi) l -> sum s_clen l = 0 -> l = []) as X.
  { intros l F. induction F as [|s l (k & Hk & _) F IH]; [done|]. pose proof (so_clen _ _ Hk). cbn. intros Hs.
    assert (0 <= sum s_clen l); [|lia]. apply sum_nonneg. eapply Forall_impl; [|exact F]. intros v (? & Hv & _). pose proof (so_clen _ _ Hv). lia. }
  unfold queued. destruct (Z.eqb_spec (snd_queuelen p) 0) as [E0|Hne].
  - rewrite (X (unacked p)), (X (unsent p)) by (done || lia). done.
  - destruct (unacked p); [|done]. destruct (unsent p); [|done]. cbn in E. lia.
Qed.

Lemma write_memerr_ok una nxt hi p : sender una nxt hi p -> write_memerr p = Ok (naglememerr p, ERR_MEM).
Proof.
  intros Hp%queued_qlen. unfold write_memerr. rewrite check_true; [done|]. destruct (snd_queuelen p =? 0); [done|]. by rewrite Hp.
Qed.

Lemma write_checks_ok una nxt hi n p :
  sender una nxt hi p -> 0 < n ->
  tcp_write_checks n p = Ok (naglememerr p, ERR_MEM) \/ tcp_write_checks n p = Ok (p, ERR_CONN)
  \/ tcp_write_checks n p = Ok (p, ERR_OK) /\ n <= snd_buf p /\ snd_queuelen p < TCP_SND_QUEUELEN.
Proof.
  intros Hp Hn. unfold tcp_write_checks. rewrite (proj2 (Z.eqb_neq n 0)) by lia. rewrite (check_true _ _ (queued_qlen _ _ _ _ Hp)).
  destruct (Z.ltb_spec (snd_buf p) n); [destruct (state p); auto|]. destruct (_ || _) eqn:Eo; [destruct (state p); auto|].
  apply orb_false_iff in Eo as [Eo%Z.leb_gt _]. destruct (state p); auto.
Qed.

(** The queue after the three phases: its last segment extended by [pos] bytes,
    the rest of the data in [q]. *)
Lemma phases_ok una nxt hi lo n pos (c : bool) ov ql q front p :
  sender una nxt hi p -> chain lo hi (unacked p ++ unsent p) -> has_room p -> 0 < mss_local p <= TCP_MSS -> 0 <= pos <= n -> front = field O hi pos -> hi + n <= blen O ->
  match list.last (unsent p) with
  | None => pos = 0 /\ c = false /\ (n = pos -> ov = 0)
  | Some s => s_len s + s_optlen s + pos <= mss_local p /\ (0 < pos \/ c = true \/ 0 < ov /\ n = pos -> 0 < s_len s) /\ (n = pos -> 0 <= ov <= mss_local p - (s_len s + s_optlen s + pos))
              /\ (c = true -> 0 < pos)
  end ->
  chain (hi + pos) (hi + n) q -> sum s_len q = n - pos -> ql = snd_queuelen p + (if c then 1 else 0) + sum s_clen q -> Forall (fits (mss_local p)) q ->
  match list.last q with None => n = pos | Some s => 0 < s_len s /\ s_optlen s = 0 /\ 0 <= ov <= mss_local p - s_len s end ->
  let f := (if 0 <? pos then map_last (append_data front c) (unsent p) else unsent p) ++ q in
  chain lo (hi + n) (unacked p ++ f) /\ lo <= una /\ first_after una lo (unacked p ++ f) /\ sum s_len f = sum s_len (unsent p) + n
  /\ ql = sum s_clen (unacked p) + sum s_clen f
  /\ match list.last f with None => ov = 0 | Some s => fits (mss_local p) s /\ 0 <= ov <= mss_local p - (s_len s + s_optlen s) /\ (0 < ov -> 0 < s_len s) end.
Proof.
  intros Hp Hc Hr Hm Hpos Hf He Hx Hq Hql Eql Hfit Hlq. destruct (order_first _ _ _ _ _ Hp Hc) as [Hlo Hfa]. pose proof (sn_qlen _ _ _ _ Hp) as Sq. pose proof (sn_order _ _ _ _ Hp) as So.
  assert (match list.last q with None => True | Some s => fits (mss_local p) s end) as Hfl.
  { destruct (list.last q) as [s|] eqn:El; [|done]. apply last_Some in El as (l & ->). apply Forall_app in Hfit as [_ F]. by inversion F. }
  unfold has_room in Hr. destruct (unsent p) as [|s us _] eqn:Eu using rev_ind.
  - destruct Hx as (-> & -> & Hov). rewrite app_nil_r in Hc, Hfa. rewrite Z.add_0_r in Hq. cbn in *. split_and!; try done; try lia.
    + apply chain_app. by exists hi.
    + destruct (unacked p); [|done]. cbn in *. destruct q as [|s q]; [done|]. cbn in *. destruct Hq as [Hs _]. pose proof (so_span _ _ Hs). lia.
    + destruct (list.last q) as [s|]; [|by apply Hov]. destruct Hlq as (L1 & L2 & L3). split; [done|]. lia.
  - rewrite last_snoc in *. destruct Hr as ((F1 & F2 & F3 & F4) & Ho & Hol). destruct Hx as (X1 & X2 & X3 & X4). apply chain_app in Hc as (m & Hc1 & Hc2).
    destruct (extended_ok m hi us s pos front c) as (s' & E & Hc' & L1 & L2 & L3 & L4); try done; try lia; [intros; split; [apply X2; by left|apply F4, X2; by left]|].
    cbv zeta. rewrite E. assert (TCP_TCPLEN s <= TCP_TCPLEN s') as Ht by (unfold TCP_TCPLEN; rewrite L1, L4; lia). split_and!; try done.
    + apply chain_app. exists m. split; [done|]. apply chain_app. by exists (hi + pos).
    + destruct (unacked p); [|done]. cbn in *. subst m. destruct us; cbn in *; [lia|done].
    + rewrite !sum_app. cbn. lia.
    + rewrite Eql, Sq, !sum_app. cbn. lia.
    + rewrite last_app. destruct (list.last q) as [z|]; [destruct Hlq as (Q1 & Q2 & Q3); split; [done|lia]|]. rewrite last_snoc, L1, L3.
      assert (fits (mss_local p) s') as Hfit' by (unfold fits; rewrite L1, L3, L4; split_and!; try lia; intros; apply F4; destruct (Z.eq_dec pos 0); [lia|apply X2; lia]).
      split; [done|]. specialize (X3 Hlq). split; [lia|]. intros. assert (0 < s_len s); [|lia]. apply X2. by right; right.
Qed.

(** a write fails and nothing is queued, or all of it is *)
Lemma tcp_write_ok una nxt hi bud arg p :
  sender una nxt hi p -> writable hi p -> arg <> [] -> arg = field O hi (blen arg) -> hi + blen arg <= blen O -> 0 <= snd_wnd_max p ->
  exists p' err hi', tcp_write bud arg p = Ok (p', err) /\ sender una nxt hi' p' /\ writable hi' p' /\ recv_same p p' /\ snd_wnd_max p' = snd_wnd_max p
    /\ hi' = (if err =? ERR_OK then hi + blen arg else hi).
Proof.
  intros Hp Hw Hne Hd He Hwm. assert (0 < blen arg) as Hn by (destruct arg; [done|]; rewrite blen_cons; pose proof (blen_nonneg arg); lia).
  assert (writable hi (naglememerr p) /\ sender una nxt hi (naglememerr p)) as [Hw' Hp'] by (split; [destruct Hw; by constructor|by eapply sender_core, Hp]).
  unfold tcp_write. destruct (write_checks_ok una nxt hi (blen arg) p Hp Hn) as [->|[->|(-> & Hbuf & Hql)]]; cbn [obind ERR_MEM ERR_CONN ERR_OK Z.eqb negb].
  { eexists _, _, hi. split; [reflexivity|]. split_and!; done. }
  { eexists _, _, hi. split; [reflexivity|]. split_and!; done. }
  pose proof (sn_lbb _ _ _ _ Hp) as W2. destruct Hw as [W1 (lo & W3) W4]. destruct (mss_local_bound p (sn_mss _ _ _ _ Hp)) as [Hm|]; [|lia].
  destruct (extend_last_ok p bud (blen arg) W4) as (r & -> & Hr); [lia|]. cbn [obind].
  assert (exists p' err hi', Ok (naglememerr p, ERR_MEM) = Ok (p', err) /\ sender una nxt hi' p' /\ writable hi' p' /\ recv_same p p' /\ snd_wnd_max p' = snd_wnd_max p
    /\ hi' = (if err =? ERR_OK then hi + blen arg else hi)) as Hmem by (eexists _, _, hi; split; [reflexivity|]; split_and!; done).
  destruct r as [[[[pos bud'] c] ov]|]; [|by rewrite (write_memerr_ok _ _ _ _ Hp)]. destruct Hr as [Hpos Hx].
  set (rest := skipn (Z.to_nat pos) arg). assert (blen rest = blen arg - pos) as Hbl by (unfold rest, blen in *; rewrite length_skipn; lia).
  assert (firstn (Z.to_nat pos) arg = field O hi pos) as Hfr by (rewrite Hd; apply take_field; lia).
  assert (rest = field O (hi + pos) (blen rest)) as Hrest by (rewrite Hbl; unfold rest; rewrite Hd at 1; apply drop_field; lia).
  set (ql := if c then u16 (snd_queuelen p + 1) else snd_queuelen p). pose proof (sender_size _ _ _ _ Hp) as (_ & C1 & C2 & _). pose proof (sn_qlen _ _ _ _ Hp) as Sq.
  assert (ql = snd_queuelen p + (if c then 1 else 0)) as Eql by (unfold ql, TCP_SND_QUEUELEN, TCP_SND_BUF, TCP_MSS in *; change (4 * 16384 / 512) with 128 in *; destruct c; [apply u16_small|]; lia).
  destruct (new_segments_ok (length rest) p bud' hi pos rest true ql ov) as (r & -> & Hr2); try done; try (destruct c; lia); try lia. cbn [obind].
  destruct r as [[[q ql'] ov']|]; [|by rewrite (write_memerr_ok _ _ _ _ Hp)]. destruct Hr2 as (R1 & R2 & R3 & R4 & R5 & R6).
  rewrite Hbl in R1, R4. replace (hi + pos + (blen arg - pos)) with (hi + blen arg) in R1 by lia. rewrite Hfr.
  assert (blen arg = pos -> q = [] /\ ov' = ov) as Hdone.
  { intros E. rewrite E in R1. destruct q as [|x q]; [by destruct R6|]. destruct R1 as [Hx1 Hx2%chain_le]. pose proof (so_span _ _ Hx1). lia. }
  destruct (phases_ok una nxt hi lo (blen arg) pos c ov' ql' q (field O hi pos) p) as (P1 & P2 & P3 & P4 & P5 & P6); try done; try lia.
  { destruct (list.last (unsent p)) as [s|]; [destruct Hx as (X1 & X2 & X3 & X4)|destruct Hx as (X1 & X2 & X3)].
    - split_and!; try done.
      + intros [|[|[? E]]]; [apply X2; by left|apply X2; by right; left|]. apply X2. right. right. destruct (Hdone E) as [_ <-]. done.
      + intros E. destruct (Hdone E) as [_ ->]. done.
    - split_and!; try done. lia. }
  { destruct (list.last q); [done|]. destruct R6 as [E _]. rewrite E in Hbl. cbn in Hbl. unfold blen in Hbl. cbn in Hbl. unfold blen. lia. }
  set (f := _ ++ q) in *. destruct (written_ok una nxt hi f ((0 <? pos) || (0 <? unsent_oversize p) || negb (bool_decide (q = []))) ql' ov' (blen arg) p lo) as [Hs' Hw''];
    try done; try lia; [change TCP_SND_QUEUELEN with 128 in R3; lia|].
  cbv zeta. rewrite check_true.
  - eexists _, ERR_OK, (hi + blen arg). split; [reflexivity|]. split_and!; done.
  - pose proof (queued_qlen _ _ _ _ Hs') as X. destruct (snd_queuelen _ =? 0); [done|]. exact X.
Qed.

(** ** Retransmission *)

Lemma requeue_ok una nxt hi lo p : sender una nxt hi p -> chain lo hi (unacked p ++ unsent p) -> sender una nxt hi (requeue p).
Proof.
  intros Hp Hc. destruct (order_first _ _ _ _ _ Hp Hc) as [H1 H2]. destruct Hp as [S1 S2 S3 _ S5 S6 S7 S8 S9 S10 S11 S12].
  constructor; cbn; rewrite ?sum_app; try done; try lia. exists lo, (unacked p ++ unsent p). split_and!; try done. apply merge_comm, merge_left.
Qed.

Section Again.
Context (S : list Z) (b' n : Z).

Lemma rexmit_rto_ok una nxt hi lo a pr w t :
  sender una nxt hi (pcb t) -> receiver S b' n a (pcb t) -> state (pcb t) <> LISTEN -> chain lo hi (unacked (pcb t) ++ unsent (pcb t)) ->
  exists t', tcp_rexmit_rto pr w t = Ok t' /\ output_ok S b' n una nxt hi a t t'.
Proof.
  intros Hp Hr Hs Hc. unfold tcp_rexmit_rto. destruct (unacked (pcb t)) as [|s l] eqn:Eu; [exists t; split; [done|by apply output_ok_refl]|].
  rewrite <- Eu in Hc. set (t1 := t <| pcb ::= requeue |>). assert (sender una nxt hi (pcb t1)) as Hp1 by by eapply requeue_ok.
  assert (receiver S b' n a (pcb t1)) as Hr1 by by eapply receiver_recv_part, Hr.
  destruct (tcp_output_ok S b' n una nxt hi a pr w t1) as (t' & e & -> & [O1 O2 O3 O4 O5 O6 O7 O8 O9]); [done|done|done|].
  exists t'. split; [done|]. by constructor.
Qed.

(** the application reads: the window grows *)
Lemma recved_ok una nxt hi a pr w k t :
  sender una nxt hi (pcb t) -> receiver S b' n a (pcb t) -> state (pcb t) <> LISTEN -> told n a -> 0 < k <= 60000 ->
  exists t', tcp_recved pr w k t = Ok t' /\ rcv_wnd (pcb t) <= rcv_wnd (pcb t') /\ inp t' = inp t /\ ooseq (pcb t') = ooseq (pcb t) /\ state (pcb t') = state (pcb t)
    /\ (exists nxt', nxt <= nxt' /\ sender una nxt' hi (pcb t')) /\ (exists a', a <= a' /\ receiver S b' n a' (pcb t')) /\ sends b' n (net t) (net t').
Proof.
  intros Hp Hr Hs Ht Hk. pose proof Hr as [R1 R2 R3 R4 R5 R6 R7 R8]. unfold tcp_recved. rewrite check_true by (by rewrite bool_decide_false). cbv zeta.
  set (w' := Z.min (rcv_wnd (pcb t) + k) TCP_WND). unfold TCP_WND, TCP_MSS in *.
  match goal with |- context [obind ?e _] => assert (e = Ok ((pcb t) <| rcv_wnd := w' |>)) as -> end.
  { cbn [rcv_wnd set]. rewrite u16_small by lia. destruct (Z.ltb_spec (4 * 512) (rcv_wnd (pcb t) + k)).
    - unfold w'. rewrite Z.min_r by lia. by destruct (pcb t).
    - rewrite (proj2 (Z.eqb_neq _ _)) by lia. unfold w'. rewrite Z.min_l by lia. destruct (pcb t). fields. by rewrite u16_small by (cbn in *; lia). }
  cbn [obind]. destruct (update_ok b' n a ((pcb t) <| rcv_wnd := w' |>)) as (x & y & -> & Hx & Hax & Hy); cbn; try done; unfold TCP_WND, TCP_MSS; try lia.
  cbn [obind]. set (p1 := (pcb t) <| rcv_wnd := w' |> <| rcv_ann_wnd := x |>).
  assert (receiver S b' n a p1) as Hr1 by (constructor; cbn; unfold TCP_WND, TCP_MSS; try done; cbn in *; lia).
  assert (sender una nxt hi p1) as Hp1 by by eapply sender_core, Hp.
  destruct (TCP_WND_UPDATE_THRESHOLD <=? s32 y).
  - destruct (tcp_output_ok S b' n una nxt hi a pr w (t <| pcb := tcp_ack_now p1 |>)) as (t' & e & -> & [O1 O2 O3 O4 O5 O6 O7 O8 O9]);
      [by eapply sender_core, Hp1|by eapply receiver_recv_part, Hr1|done|]. cbn [obind]. exists t'. split; [done|]. cbn in *. split_and!; try done. lia.
  - eexists. split; [reflexivity|]. cbn. split_and!; try done; [lia|by exists nxt|by exists a|apply sends_none].
Qed.
End Again.

End Out.
