(* ===== verification/TcpConn.v ===== *)
(** * TcpConn: an open TCP connection

    [tcp_process], [tcp_recved], [tcp_write], [tcp_output] and the
    retransmission of an open connection, in any order: no assertion fails, the
    application gets the peer's stream and the peer gets the application's. *)

From S2P Require Import Prelude Bytes Tcp TcpRecv TcpSend.

#[local] Open Scope Z_scope.

(** ** Options *)

Lemma parse_options_ok fuel n mem idx m :
  0 <= idx -> (Z.to_nat (n - idx) <= fuel)%nat -> n < blen mem -> bytes mem -> 0 < m <= TCP_MSS ->
  exists m', parse_options fuel n mem idx m = Ok m' /\ 0 < m' <= TCP_MSS.
Proof.
  revert idx m. induction fuel as [|fuel IH]; intros idx m Hi Hf Hn Hb Hm.
  { cbn. rewrite (proj2 (Z.leb_le _ _)) by lia. eauto. }
  assert (forall j, 0 <= j <= n -> exists v, mem !! Z.to_nat j = Some v /\ 0 <= v < 256) as Hget.
  { intros j Hj. destruct (lookup_lt_is_Some_2 mem (Z.to_nat j)) as [v Hv]; [unfold blen in Hn; lia|]. exists v. split; [done|].
    by apply (Forall_lookup_1 _ _ _ _ Hb Hv). }
  cbn [parse_options]. destruct (Z.leb_spec n idx); [eauto|].
  destruct (Hget idx) as (opt & -> & Ho); [lia|]. cbn [obind]. destruct (opt =? 0); [eauto|]. destruct (opt =? 1); [apply IH; try done; lia|].
  destruct (Hget (idx + 1)) as (l & -> & Hl); [lia|]. destruct (opt =? 2); cbn [obind].
  - destruct (negb (l =? 4) || (n <? idx + 4)) eqn:E; [eauto|]. apply orb_false_iff in E as [_ E%Z.ltb_ge].
    destruct (Hget (idx + 2)) as (h & -> & Hh); [lia|]. destruct (Hget (idx + 3)) as (g & -> & Hg); [lia|]. cbn [obind]. apply IH; try done; [lia|lia|].
    assert (0 <= Z.lor (Z.shiftl h 8) g) by (apply Z.lor_nonneg; split; [apply Z.shiftl_nonneg|]; lia). unfold TCP_MSS.
    destruct (Z.ltb_spec 512 (Z.lor (Z.shiftl h 8) g)); cbn; [lia|]. destruct (Z.eqb_spec (Z.lor (Z.shiftl h 8) g) 0); lia.
  - destruct (Z.ltb_spec l 2); [eauto|]. apply IH; try done; lia.
Qed.

Lemma parseopt_ok i p :
  options i = [] \/ behind i <> [] -> bytes (options i ++ behind i) -> 0 < mss p <= TCP_MSS -> exists m, tcp_parseopt i p = Ok (p <| mss := m |>) /\ 0 < m <= TCP_MSS.
Proof.
  intros Ho Hb Hm. unfold tcp_parseopt. destruct Ho as [Ho|Ho].
  - rewrite Ho. cbn. exists (mss p). done.
  - destruct (parse_options_ok (length (options i)) (blen (options i)) (options i ++ behind i) 0 (mss p)) as (m & -> & Hm'); try done.
    + unfold blen. lia.
    + rewrite blen_app. destruct (behind i); [done|]. rewrite blen_cons. pose proof (blen_nonneg l). lia.
    + by exists m.
Qed.

Section Connection.

(** the peer's stream and the number of its first byte, this side's positions
    and the number of position 0 *)
Context (S : list Z) (bS : Z) (O : list Z) (bO : Z) (app : application).

(** where the connection is *)
Record place := mkPlace { p_next : Z; p_edge : Z; p_una : Z; p_nxt : Z; p_end : Z }.

Record connected_at (g : place) (p : tcp_pcb) : Prop := {
  ca_recv : receiver S bS (p_next g) (p_edge g) p;
  ca_queue : queue S bS (p_next g + rcv_wnd p) (p_next g + 1) (ooseq p);
  ca_send : sender O bO (p_una g) (p_nxt g) (p_end g) p
}.

(** the state is the one of the position *)
Definition in_state (n : Z) : tcp_state := if n =? blen S + 1 then CLOSE_WAIT else ESTABLISHED.

Record open_at (g : place) (t : tcp) : Prop := {
  oa_state : state (pcb t) = in_state (p_next g);
  oa_connected : connected_at g (pcb t)
}.

(** ** A segment *)

(** A segment may arrive: no RST or SYN; data of the peer's stream, within the
    window unless it is next; an acknowledgement less than half the number space
    away. *)
Record may_arrive (g : place) (t : tcp) (i : input) : Prop := {
  ma_flags : has (flags i) TCP_RST = false /\ has (flags i) TCP_SYN = false;
  ma_fresh : recv_acked i = 0 /\ recv_flags i = 0 /\ recv_data i = None;
  ma_options : (options i = [] \/ behind i <> []) /\ bytes (options i ++ behind i);
  ma_ack : has (flags i) TCP_ACK = true -> exists x, ackno i = seq bO x /\ -2146435072 <= x - p_una g < 2147483648;
  ma_data : 0 < tcplen i -> exists k, arrives S bS (p_next g) k (t <| inp := i |>)
}.

(** from one place to another, with what the application got, whether it was
    told of the end, and what was sent *)
Record moved (g g' : place) (t t' : tcp) (d : list Z) (e : bool) : Prop := {
  mv_next : p_next g <= p_next g' <= p_next g + TCP_WND;
  mv_edge : p_edge g <= p_edge g';
  mv_una : p_una g <= p_una g' <= p_nxt g;
  mv_nxt : p_nxt g <= p_nxt g';
  mv_end : p_end g <= p_end g';
  mv_data : d = field S (p_next g) (p_next g' - p_next g);
  mv_fin : e = (p_next g <? p_next g') && (p_next g' =? blen S + 1);
  mv_net : sends O bO bS (p_next g') (net t) (net t')
}.

Lemma next_una_ge una nxt x : una <= next_una una nxt x /\ (una <= nxt -> next_una una nxt x <= nxt).
Proof. unfold next_una. destruct (Z.ltb_spec una x), (Z.leb_spec x nxt); cbn; lia. Qed.

Lemma wire_le n n' e : n <= n' -> wire O bO bS n e -> wire O bO bS n' e.
Proof. intros Hn. destruct e; cbn; [intros (m & ? & ?); exists m; split; [lia|done]|intros (? & m & ? & ?); split; [done|]; exists m; split; [lia|done]|done]. Qed.
Lemma sends_le n n' o o' : n <= n' -> sends O bO bS n o o' -> sends O bO bS n' o o'.
Proof. intros Hn (l & -> & H). exists l. split; [done|]. eapply Forall_impl; [|exact H]. intros. by eapply wire_le. Qed.

(** the acknowledgement *)
Lemma ack_step w g t :
  connected_at g (pcb t) -> recv_acked (inp t) = 0 ->
  (has (flags (inp t)) TCP_ACK = true -> exists x, ackno (inp t) = seq bO x /\ -2146435072 <= x - p_una g < 2147483648) ->
  exists t' a m una, (if has (flags (inp t)) TCP_ACK then receive_ack w t else Ok t) = Ok t' /\ p_una g <= una
    /\ (forall x, has (flags (inp t)) TCP_ACK = true -> ackno (inp t) = seq bO x -> p_una g <= x <= p_nxt g -> una = x)
    /\ inp t' = (inp t) <| recv_acked := m |> /\ p_edge g <= a /\ connected_at (mkPlace (p_next g) a una (p_nxt g) (p_end g)) (pcb t')
    /\ rcv_wnd (pcb t') = rcv_wnd (pcb t) /\ state (pcb t') = state (pcb t) /\ acks bS (p_next g) (net t) (net t').
Proof.
  intros [C1 C2 C3] Hz Ha. destruct (has (flags (inp t)) TCP_ACK).
  - destruct (Ha eq_refl) as (x & Ex & Hx).
    destruct (receive_ack_ok O bO S bS (p_next g) (p_edge g) w _ _ _ x t C3 C1 Ex Hz Hx) as (t' & a & m & -> & Hs & Hi & Hm & Hb & Hae & Hr & Ho & Hst & Hw & Hn).
    exists t', a, m, (next_una (p_una g) (p_nxt g) x). split_and!; try done; [apply next_una_ge| |constructor; cbn; [done|by rewrite Hw, Ho|done]].
    intros y _ Ey Hy. pose proof (sender_size _ _ _ _ _ _ C3) as (Hz' & _). pose proof (sn_order _ _ _ _ _ _ C3).
    assert (y = x) as -> by (apply Z.eqb_eq; rewrite <- (seq_inj bO) by (unfold near; lia); apply Z.eqb_eq; congruence). unfold next_una.
    destruct (Z.ltb_spec (p_una g) x), (Z.leb_spec x (p_nxt g)); cbn; lia.
  - exists t, (p_edge g), 0, (p_una g). split_and!; try lia; try done; [rewrite <- Hz; by destruct (inp t)|apply acks_none].
Qed.

(** the data; a segment without any may still cause an acknowledgement *)
Definition data_part (w : world) (t : tcp) : outcome tcp :=
  if (0 <? tcplen (inp t)) && (state_num (state (pcb t)) <? state_num CLOSE_WAIT) then receive_data w t
  else if TCP_SEQ_BETWEEN (seqno (inp t)) (rcv_nxt (pcb t)) (rcv_nxt (pcb t) + rcv_wnd (pcb t) - 1) then Ok t
  else Ok (t <| pcb ::= tcp_ack_now |>).

Record data_done (g : place) (n a : Z) (t t' : tcp) : Prop := {
  dd_edge : p_edge g <= a;
  dd_conn : connected_at (mkPlace n a (p_una g) (p_nxt g) (p_end g)) (pcb t');
  dd_next : p_next g <= n <= p_next g + TCP_WND;
  dd_data : got (inp t') = field S (p_next g) (n - p_next g);
  dd_fin : got_fin t' = (p_next g <? n) && (n =? blen S + 1);
  dd_state : state (pcb t') = in_state (p_next g) \/ p_next g < n /\ n = blen S + 1;
  dd_net : acks bS (p_next g) (net t) (net t');
  dd_progress k : arrives S bS (p_next g) k t -> k <= p_next g < blen S + 1 ->
    Z.min (k + span (inseg (inp t))) (p_next g + rcv_wnd (pcb t)) <= n
}.

Lemma data_none g t t' :
  connected_at g (pcb t) -> state (pcb t) = in_state (p_next g) -> recv_flags (inp t) = 0 -> recv_data (inp t) = None ->
  t' = t \/ t' = t <| pcb ::= tcp_ack_now |> -> (forall k, arrives S bS (p_next g) k t -> p_next g < blen S + 1 -> False) ->
  data_done g (p_next g) (p_edge g) t t'.
Proof.
  intros [C1 C2 C3] Hst Hf Hd Ht Hno. pose proof (rv_wnd _ _ _ _ _ C1) as Hwd.
  assert (inp t' = inp t /\ net t' = net t /\ state (pcb t') = state (pcb t)) as (I & N & St) by by destruct Ht as [->| ->].
  constructor; rewrite ?N, ?St; unfold got, got_fin; rewrite ?I, ?Hd, ?Hf, ?Z.ltb_irrefl, ?Z.sub_diag; try done; try lia; [|by left|apply acks_none|intros k Ha Hlt; destruct (Hno k Ha); lia].
  destruct Ht as [->| ->]; constructor; cbn; try done; [by eapply receiver_recv_part, C1|by eapply sender_core, C3].
Qed.

Lemma arrives_inj n k k' t : arrives S bS n k t -> arrives S bS n k' t -> k = k'.
Proof.
  intros [(_ & Q1 & _) _ _ _ _ N1 _] [(_ & Q2 & _) _ _ _ _ N2 _]. rewrite Q1 in Q2. apply Z.eqb_eq in Q2.
  destruct (Z.lt_ge_cases (k - k') 2147483648) as [H|H].
  - rewrite (seq_inj bS) in Q2 by (unfold near; lia). by apply Z.eqb_eq.
  - rewrite Z.eqb_sym, (seq_inj bS) in Q2 by (unfold near; lia). symmetry. by apply Z.eqb_eq.
Qed.

Lemma data_step w g t :
  connected_at g (pcb t) -> state (pcb t) = in_state (p_next g) -> recv_flags (inp t) = 0 -> recv_data (inp t) = None ->
  told (p_next g + TCP_WND) (p_edge g) -> (0 < tcplen (inp t) -> exists k, arrives S bS (p_next g) k t) ->
  exists t' n a, data_part w t = Ok t' /\ data_done g n a t t'.
Proof.
  intros Hc Hst Hf Hd Ht Hk. unfold data_part. rewrite Hst. destruct ((0 <? tcplen (inp t)) && _) eqn:E.
  - apply andb_true_iff in E as [El%Z.ltb_lt Es]. destruct (Hk El) as (k & Ha). destruct Hc as [C1 C2 C3].
    destruct (receive_data_ok S bS w _ _ k t C1 Ht C2 Ha) as (t' & n & a & -> & [R1 R2 R3 R4 R5 R6 R7 R8 R9 R10] & Hp).
    exists t', n, a. split; [done|]. pose proof (rv_wnd _ _ _ _ _ C1). pose proof (rv_wnd _ _ _ _ _ R1). constructor; try done.
    + constructor; cbn; [done|by rewrite R4|]. eapply sender_core, C3. unfold send_part in R8. unfold snd_core. congruence.
    + lia.
    + by rewrite <- Hst.
    + intros k' Ha' Hk'. rewrite (arrives_inj _ _ _ _ Ha' Ha) in *. apply Hp. lia.
  - assert (forall t', t' = t \/ t' = t <| pcb ::= tcp_ack_now |> -> exists t'' n a, Ok t' = Ok t'' /\ data_done g n a t t'') as Hn; [|destruct (TCP_SEQ_BETWEEN _ _ _); apply Hn; [by left|by right]].
    intros t' Ht'. eexists t', (p_next g), (p_edge g). split; [done|]. apply data_none; try done.
    intros k Ha Hlt. pose proof (ar_len _ _ _ _ _ Ha) as L. destruct (ar_seq _ _ _ _ _ Ha) as (_ & _ & Hs). rewrite L, (proj2 (Z.ltb_lt _ _)) in E by lia.
      unfold in_state in E. by rewrite (proj2 (Z.eqb_neq _ _)) in E by lia.
Qed.

Lemma arrives_same m n k t t' : arrives S bS n k t -> inp t' = (inp t) <| recv_acked := m |> -> rcv_wnd (pcb t') = rcv_wnd (pcb t) -> arrives S bS n k t'.
Proof. intros [] I W. constructor; rewrite ?I, ?W; done. Qed.

Lemma connected_mss g p m : connected_at g p -> 0 < m <= TCP_MSS -> connected_at g (p <| mss := m |>).
Proof. intros [[] C2 []] Hm. by constructor; [constructor| |constructor]. Qed.

Definition taken (g g' : place) (t : tcp) (i : input) : Prop :=
  (forall k, arrives S bS (p_next g) k (t <| inp := i |>) -> k <= p_next g < blen S + 1 ->
    Z.min (k + span (inseg i)) (p_next g + rcv_wnd (pcb t)) <= p_next g')
  /\ (forall x, has (flags i) TCP_ACK = true -> ackno i = seq bO x -> p_una g <= x <= p_nxt g -> p_una g' = x).

Lemma receive_step w g t :
  connected_at g (pcb t) -> state (pcb t) = in_state (p_next g) -> may_arrive g t (inp t) -> told (p_next g + TCP_WND) (p_edge g) ->
  exists t' n a una, tcp_receive w t = Ok t' /\ let g' := mkPlace n a una (p_nxt g) (p_end g) in
    moved g g' t t' (got (inp t')) (got_fin t') /\ connected_at g' (pcb t')
    /\ (state (pcb t') = in_state (p_next g) \/ p_next g < n /\ n = blen S + 1) /\ taken g g' t (inp t).
Proof.
  intros Hc Hst [_ (F1 & F2 & F3) _ Ha Hd] Ht. unfold tcp_receive. rewrite check_true by (rewrite Hst; unfold in_state; by destruct (p_next g =? blen S + 1)).
  destruct (ack_step w g t Hc F1 Ha) as (t1 & a & m & una & -> & Hu & Hx & I1 & Hae & Hc1 & Hw1 & Hs1 & Hn1). cbn [obind].
  assert (t <| inp := inp t |> = t) as Et by by destruct t. rewrite Et in Hd.
  assert (forall k, arrives S bS (p_next g) k t -> arrives S bS (p_next g) k t1) as Harr by (intros; by eapply (arrives_same m)).
  destruct (data_step w (mkPlace (p_next g) a una (p_nxt g) (p_end g)) t1) as (t2 & n & a2 & E & [D1 D2 D3 D4 D5 D6 D7 D8]); cbn [p_next p_edge p_una p_nxt p_end] in *.
  - done.
  - by rewrite Hs1.
  - by rewrite I1.
  - by rewrite I1.
  - unfold told in *. lia.
  - rewrite I1. intros Hl. destruct (Hd Hl) as (k & Hk). exists k. by apply Harr.
  - exists t2, n, a2, una. split; [exact E|]. cbv zeta. split_and!; [|done|done|].
    + pose proof (sn_order _ _ _ _ _ _ (ca_send _ _ D2)) as Hord. cbn in Hord. constructor; cbn; try done; try lia. eapply sends_le with (n := p_next g); [lia|].
      apply acks_sends; [apply (rv_pos _ _ _ _ _ (ca_recv _ _ Hc))|by eapply acks_trans].
    + split; cbn; [|done]. rewrite Et. intros k Hk Hle. rewrite I1, Hw1 in D8. by apply D8; [apply Harr|].
Qed.

(** what is left of a segment when its options were read *)
Lemma process_head w g t i :
  connected_at g (pcb t) -> may_arrive g t i ->
  exists t1, inp t1 = i /\ net t1 = net t /\ state (pcb t1) = state (pcb t) /\ rcv_wnd (pcb t1) = rcv_wnd (pcb t)
    /\ connected_at g (pcb t1) /\ may_arrive g t1 (inp t1)
    /\ (forall n, state (pcb t) = in_state n -> tcp_process app w (t <| inp := i |>)
          = try t := tcp_receive w t1 in Ok (if got_fin t then to_state CLOSE_WAIT (t <| pcb ::= tcp_ack_now |>) else t, ERR_OK))
    /\ (state (pcb t) = SYN_RCVD -> tcp_process app w (t <| inp := i |>) = process_syn_rcvd app w t1).
Proof.
  intros Hc Hm. pose proof (ma_flags _ _ _ Hm) as [M1 M2]. pose proof (ma_options _ _ _ Hm) as [M3 M4]. unfold tcp_process.
  cbn [inp pcb set flags]. rewrite M1, M2. cbn [andb]. set (p0 := _ <| keep_cnt_sent := 0 |>).
  assert (connected_at g p0 /\ state p0 = state (pcb t) /\ rcv_wnd p0 = rcv_wnd (pcb t)) as (H0 & Hs0 & Hw0).
  { unfold p0. destruct (has (pflags (pcb t)) TF_RXCLOSED), Hc as [[] C2 []]; split; try done; by constructor; [constructor| |constructor]. }
  clearbody p0. destruct (parseopt_ok i p0 M3 M4 (sn_mss _ _ _ _ _ _ (ca_send _ _ H0))) as (m & -> & Hmss). cbn [obind].
  exists (t <| inp := i |> <| pcb := p0 <| mss := m |> |>). cbn [inp net pcb set]. split_and!; try done.
  - by apply connected_mss.
  - destruct Hm as [K1 K2 K3 K4 K5]. constructor; try done. intros Hl. destruct (K5 Hl) as (k & Hk). exists k.
    eapply (arrives_same (recv_acked i)); [exact Hk|by destruct i|done].
  - intros n Hn. assert (state (p0 <| mss := m |>) = in_state n) as -> by (cbn; congruence). unfold in_state. by destruct (n =? blen S + 1).
  - intros Hs. by assert (state (p0 <| mss := m |>) = SYN_RCVD) as -> by (cbn; congruence).
Qed.

(** FIN closes the peer's side *)
Lemma settle g n a una nxt hi t t2 :
  let g' := mkPlace n a una nxt hi in
  moved g g' t t2 (got (inp t2)) (got_fin t2) -> connected_at g' (pcb t2) -> state (pcb t2) = in_state (p_next g) \/ p_next g < n /\ n = blen S + 1 ->
  let t' := if got_fin t2 then to_state CLOSE_WAIT (t2 <| pcb ::= tcp_ack_now |>) else t2 in
  open_at g' t' /\ moved g g' t t' (got (inp t')) (got_fin t').
Proof.
  intros g' Hmv [R1 R2 R3] Hs2. pose proof (mv_fin _ _ _ _ _ _ Hmv) as Hf. cbn in Hf. split.
  - destruct (got_fin t2).
    + symmetry in Hf. apply andb_true_iff in Hf as [_ Hn]. constructor; [unfold in_state; cbn; by rewrite Hn|]. constructor; cbn; [by eapply receiver_recv_part, R1|done|by eapply sender_core, R3].
    + constructor; [|by constructor]. cbn. destruct Hs2 as [Hs2|[X1 X2]]; [|by rewrite (proj2 (Z.ltb_lt _ _) X1), (proj2 (Z.eqb_eq _ _) X2) in Hf].
      rewrite Hs2. unfold in_state. pose proof (mv_next _ _ _ _ _ _ Hmv) as Hle. pose proof (rv_pos _ _ _ _ _ R1) as Hp. cbn in Hle, Hp.
      destruct (Z.ltb_spec (p_next g) n); cbn in Hf; [rewrite <- Hf|replace n with (p_next g) by lia; done]. by rewrite (proj2 (Z.eqb_neq (p_next g) _)) by lia.
  - destruct Hmv, (got_fin t2) eqn:G; constructor; try done; exact (eq_trans G Hf).
Qed.

Lemma moved_from g g' t t1 t' d e : net t1 = net t -> moved g g' t1 t' d e -> moved g g' t t' d e.
Proof. intros E []. constructor; try done. by rewrite <- E. Qed.

Lemma process_step w g t i :
  open_at g t -> may_arrive g t i -> told (p_next g + TCP_WND) (p_edge g) ->
  exists t' g', tcp_process app w (t <| inp := i |>) = Ok (t', ERR_OK) /\ open_at g' t' /\ moved g g' t t' (got (inp t')) (got_fin t') /\ taken g g' t i.
Proof.
  intros [Ho Hc] Hm Ht. destruct (process_head w g t i Hc Hm) as (t1 & I1 & N1 & S1 & W1 & C1 & M1 & Hp & _). rewrite (Hp _ Ho).
  destruct (receive_step w g t1 C1) as (t2 & n & a & una & -> & Hmv & Hc2 & Hs2 & T1 & T2); [by rewrite S1|done|done|]. cbn [obind].
  destruct (settle g n a una (p_nxt g) (p_end g) t t2) as [H1 H2]; [by eapply moved_from|done|done|].
  eexists _, _. split; [reflexivity|]. split_and!; [done|done|]. rewrite I1, W1 in *. split; [|done].
  intros k Hk. apply T1. eapply (arrives_same (recv_acked i)); [exact Hk|by destruct i|done].
Qed.

(** ** A run *)

(** a segment arrives; the application has processed [len] bytes; it writes;
    the queue is sent as far as it can be; the retransmission timer ticks *)
Inductive event :=
| Arrives (w : world) (i : input)
| Reads (w : link) (len : Z)
| Writes (budget : nat) (data : list Z)
| Sends (w : link)
| Ticks (w : link).

(** the connection afterwards, the data the application gets, and whether it is
    told that the stream is over *)
Definition conn_step (e : event) (t : tcp) : outcome (tcp * list Z * bool) :=
  match e with
  | Arrives w i => try '(t, _) := tcp_process app w (t <| inp := i |>) in Ok (t, got (inp t), got_fin t)
  | Reads w len => try t := tcp_recved false w len t in Ok (t, [], false)
  | Writes budget data => try '(p, _) := tcp_write budget data (pcb t) in Ok (t <| pcb := p |>, [], false)
  | Sends w => try '(t, _) := tcp_output false w t in Ok (t, [], false)
  | Ticks w => try t := slowtmr_rexmit w t in Ok (t, [], false)
  end.

(** Less than 2^30 bytes arrive between two announcements of the window; the
    application writes [O] in order, and the queue is in order when it writes or
    the timer ticks. *)
Definition allowed (g : place) (t : tcp) (e : event) : Prop :=
  told (p_next g + TCP_WND) (p_edge g)
  /\ match e with
     | Arrives _ i => may_arrive g t i
     | Reads _ len => 0 < len <= 60000
     | Writes _ data =>
       writable O bO (p_end g) (pcb t) /\ data <> [] /\ data = field O (p_end g) (blen data) /\ p_end g + blen data <= blen O /\ 0 <= snd_wnd_max (pcb t)
     | Sends _ => True
     | Ticks _ => exists lo, chain O bO lo (p_end g) (unacked (pcb t) ++ unsent (pcb t))
     end.

(** where it is after a step, from how far the numbers went *)
Definition locate (g : place) (p p' : tcp_pcb) : place :=
  mkPlace (p_next g + s32 (rcv_nxt p' - rcv_nxt p)) (p_edge g + s32 (rcv_ann_right_edge p' - rcv_ann_right_edge p))
    (p_una g + s32 (lastack p' - lastack p)) (p_nxt g + s32 (snd_nxt p' - snd_nxt p)) (p_end g + s32 (snd_lbb p' - snd_lbb p)).

Lemma located b x y : near y x -> x + s32 (seq b y - seq b x) = y.
Proof. intros N. rewrite (seq_s32 b y x) by (try done; apply u32_seq). lia. Qed.

Lemma locate_ok g g' t t' d e :
  connected_at g (pcb t) -> connected_at g' (pcb t') -> moved g g' t t' d e -> told (p_next g + TCP_WND) (p_edge g) -> locate g (pcb t) (pcb t') = g'.
Proof.
  intros [R _ Q] [R' _ Q'] [M1 M2 M3 M4 M5 _ _ _] Ht. unfold locate, told in *.
  rewrite (rv_nxt _ _ _ _ _ R), (rv_nxt _ _ _ _ _ R'), (rv_edge _ _ _ _ _ R), (rv_edge _ _ _ _ _ R').
  rewrite (sn_una _ _ _ _ _ _ Q), (sn_una _ _ _ _ _ _ Q'), (sn_nxt _ _ _ _ _ _ Q), (sn_nxt _ _ _ _ _ _ Q'), (sn_lbb _ _ _ _ _ _ Q), (sn_lbb _ _ _ _ _ _ Q').
  pose proof (rv_edge_wnd _ _ _ _ _ R). pose proof (rv_edge_wnd _ _ _ _ _ R'). pose proof (rv_wnd _ _ _ _ _ R). pose proof (rv_wnd _ _ _ _ _ R').
  pose proof (sender_size _ _ _ _ _ _ Q) as (? & _). pose proof (sender_size _ _ _ _ _ _ Q') as (? & _).
  pose proof (sn_order _ _ _ _ _ _ Q). pose proof (sn_order _ _ _ _ _ _ Q'). unfold TCP_WND, TCP_MSS in *.
  rewrite !located by (unfold near; lia). by destruct g'.
Qed.

(** a step in which nothing arrives *)
Lemma quiet_step g t t' a nxt :
  open_at g t -> p_edge g <= a -> p_nxt g <= nxt -> receiver S bS (p_next g) a (pcb t') -> sender O bO (p_una g) nxt (p_end g) (pcb t') ->
  rcv_wnd (pcb t) <= rcv_wnd (pcb t') -> ooseq (pcb t') = ooseq (pcb t) -> state (pcb t') = state (pcb t) -> sends O bO bS (p_next g) (net t) (net t') ->
  let g' := mkPlace (p_next g) a (p_una g) nxt (p_end g) in open_at g' t' /\ moved g g' t t' [] false.
Proof.
  intros [Hs [C1 C2 C3]] Ha Hx Hr Hq Hw Ho Hst Hn. pose proof (sn_order _ _ _ _ _ _ C3). split.
  - constructor; cbn; [congruence|]. constructor; cbn; [done| |done]. rewrite Ho. eapply queue_weaken, C2; lia.
  - constructor; cbn; try done; try (unfold TCP_WND, TCP_MSS; lia); by rewrite ?Z.sub_diag, ?Z.ltb_irrefl.
Qed.

Lemma output_step g t t' :
  open_at g t -> output_ok O bO S bS (p_next g) (p_una g) (p_nxt g) (p_end g) (p_edge g) t t' ->
  exists g', open_at g' t' /\ moved g g' t t' [] false.
Proof.
  intros Hg [(nxt & Hx & Hq) (a & Ha & Hr) O3 O4 O5 O6 O7 O8 O9]. eexists. eapply quiet_step; try done. by rewrite O6.
Qed.

Lemma open_not_listening g t : open_at g t -> state (pcb t) <> LISTEN.
Proof. intros [-> _]. unfold in_state. by destruct (_ =? _). Qed.

Lemma rexmit_timer_ok w lo g t :
  open_at g t -> chain O bO lo (p_end g) (unacked (pcb t) ++ unsent (pcb t)) ->
  exists t', slowtmr_rexmit w t = Ok t' /\ output_ok O bO S bS (p_next g) (p_una g) (p_nxt g) (p_end g) (p_edge g) t t'.
Proof.
  intros Hg Hc. pose proof (open_not_listening _ _ Hg) as Hl. pose proof (oa_connected _ _ Hg) as [C1 C2 C3]. unfold slowtmr_rexmit. cbv zeta.
  set (p1 := (pcb t) <| rtime ::= _ |>). assert (snd_core p1 = snd_core (pcb t) /\ recv_same (pcb t) p1) as [K1 (K2 & K3 & K4)] by done.
  assert (sender O bO (p_una g) (p_nxt g) (p_end g) p1) as Hp1 by by eapply sender_core, C3. clearbody p1.
  destruct (negb (bool_decide (unacked p1 = [])) && (rto p1 <=? rtime p1)).
  - set (p2 := if bool_decide (state p1 = SYN_SENT) then p1 else _).
    assert (snd_core p2 = snd_core p1 /\ recv_same p1 p2) as [J1 (J2 & J3 & J4)] by (unfold p2; by destruct (bool_decide _)).
    assert (sender O bO (p_una g) (p_nxt g) (p_end g) p2) as Hp2 by by eapply sender_core, Hp1. clearbody p2.
    set (p3 := p2 <| rtime := 0 |> <| ssthresh := _ |> <| cwnd := _ |>).
    assert (sender O bO (p_una g) (p_nxt g) (p_end g) p3) as Hp3.
    { destruct Hp2 as [S1 S2 S3 S4 S5 S6 S7 S8 S9 S10 S11 S12]. constructor; try done; cbn; [unfold TCP_MSS in *; lia|]. rewrite u16_small by (unfold TCP_MSS in *; lia).
      rewrite Z.shiftr_div_pow2 by lia. change (2 ^ 1) with 2. destruct (Z.ltb_spec (Z.min (cwnd p2) (snd_wnd p2) / 2) (2 * mss p2)); [unfold TCP_MSS in *; lia|].
      split; [lia|]. pose proof (Z.div_le_upper_bound (Z.min (cwnd p2) (snd_wnd p2)) 2 65535). lia. }
    destruct (rexmit_rto_ok O bO S bS (p_next g) (p_una g) (p_nxt g) (p_end g) lo (p_edge g) false w (t <| pcb := p3 |>)) as (t' & -> & [O1 O2 O3 O4 O5 O6 O7 O8 O9]).
    + done.
    + eapply receiver_recv_part, C1. by transitivity (recv_part p1); [transitivity (recv_part p2)|].
    + cbn. congruence.
    + cbn. unfold snd_core in J1, K1. assert (unacked p2 = unacked (pcb t) /\ unsent p2 = unsent (pcb t)) as [-> ->] by (split; congruence). done.
    + exists t'. split; [done|]. unfold snd_core in J1, K1. unfold recv_part in J2, K2. constructor; try done; cbn in *; congruence.
  - eexists. split; [reflexivity|]. unfold snd_core in K1. constructor; cbn; try done; try congruence.
    + by exists (p_nxt g).
    + exists (p_edge g). split; [done|]. by eapply receiver_recv_part, C1.
    + unfold recv_part in K2. congruence.
    + apply sends_none.
Qed.

Lemma conn_step_ok g t e :
  open_at g t -> allowed g t e -> exists t' d fn g', conn_step e t = Ok (t', d, fn) /\ open_at g' t' /\ moved g g' t t' d fn.
Proof.
  intros Hg [Ht Ha]. pose proof (open_not_listening _ _ Hg) as Hl. pose proof (oa_connected _ _ Hg) as [C1 C2 C3]. destruct e as [w i|w len|bud data|w|w]; cbn.
  - destruct (process_step w g t i Hg Ha Ht) as (t' & g' & -> & Hg' & Hm & _). cbn. by exists t', (got (inp t')), (got_fin t'), g'.
  - destruct (recved_ok O bO S bS (p_next g) (p_una g) (p_nxt g) (p_end g) (p_edge g) false w len t) as (t' & -> & Hw & I & Ho & Hst & (nxt & Hx & Hq) & (a & Hae & Hr) & Hn); try done.
    { unfold told, TCP_WND, TCP_MSS in *. lia. }
    cbn. eexists t', [], false, _. split; [done|]. by eapply quiet_step.
  - destruct Ha as (A1 & A2 & A3 & A4 & A5).
    destruct (tcp_write_ok O bO (p_una g) (p_nxt g) (p_end g) bud data (pcb t)) as (p' & err & hi & -> & Hq & Hw & (W1 & W2 & W3) & _ & Hh); try done. cbn.
    exists (t <| pcb := p' |>), [], false, (mkPlace (p_next g) (p_edge g) (p_una g) (p_nxt g) hi). split; [done|]. pose proof (sn_order _ _ _ _ _ _ C3). pose proof (blen_nonneg data). split.
    + constructor; cbn; [rewrite W3; apply Hg|]. constructor; cbn; [by eapply receiver_recv_part, C1| |done]. rewrite W2. by assert (rcv_wnd p' = rcv_wnd (pcb t)) as -> by (unfold recv_part in W1; congruence).
    + constructor; cbn; try apply sends_none; try (unfold TCP_WND, TCP_MSS; lia); try (destruct (err =? ERR_OK); lia); by rewrite ?Z.sub_diag, ?Z.ltb_irrefl.
  - destruct (tcp_output_ok O bO S bS (p_next g) (p_una g) (p_nxt g) (p_end g) (p_edge g) false w t) as (t' & err & -> & Ho); try done.
    cbn. destruct (output_step _ _ _ Hg Ho) as (g' & H1 & H2). by exists t', [], false, g'.
  - destruct Ha as (lo & Hc). destruct (rexmit_timer_ok w lo g t) as (t' & -> & Ho); try done.
    cbn. destruct (output_step _ _ _ Hg Ho) as (g' & H1 & H2). by exists t', [], false, g'.
Qed.

(** a run, with the place, what the application got and whether it was told of the end *)
Fixpoint conn_run (es : list event) (g : place) (t : tcp) : outcome (place * tcp * list Z * bool) :=
  match es with
  | [] => Ok (g, t, [], false)
  | e :: es =>
    try '(t', d, fn) := conn_step e t in
    try '(g', t'', d', fn') := conn_run es (locate g (pcb t) (pcb t')) t' in
    Ok (g', t'', d ++ d', fn || fn')
  end.

(** every step is allowed where it is taken *)
Fixpoint admissible (es : list event) (g : place) (t : tcp) : Prop :=
  match es with
  | [] => True
  | e :: es =>
    allowed g t e /\ match conn_step e t with Ok (t', _, _) => admissible es (locate g (pcb t) (pcb t')) t' | Stop _ => True end
  end.

(** from one place to a later one *)
Record progress (g g' : place) (t t' : tcp) (d : list Z) (e : bool) : Prop := {
  pr_next : p_next g <= p_next g';
  pr_una : p_una g <= p_una g';
  pr_nxt : p_nxt g <= p_nxt g';
  pr_end : p_end g <= p_end g';
  pr_data : d = field S (p_next g) (p_next g' - p_next g);
  pr_fin : e = (p_next g <? p_next g') && (p_next g' =? blen S + 1);
  pr_net : sends O bO bS (p_next g') (net t) (net t')
}.

Lemma progress_none g t : progress g g t t [] false.
Proof. constructor; try apply sends_none; try lia; by rewrite ?Z.sub_diag, ?Z.ltb_irrefl. Qed.

Lemma progress_step g g1 g2 t t1 t2 d d' e e' :
  0 <= p_next g -> p_next g2 <= blen S + 1 -> moved g g1 t t1 d e -> progress g1 g2 t1 t2 d' e' -> progress g g2 t t2 (d ++ d') (e || e').
Proof.
  intros H0 Hz [M1 M2 M3 M4 M5 M6 M7 M8] [P1 P2 P3 P4 P5 P6 P7]. constructor; try lia.
  - rewrite M6, P5. rewrite (field_split S (p_next g) (p_next g1 - p_next g) (p_next g2 - p_next g)) by lia. f_equal. f_equal; lia.
  - rewrite M7, P6. destruct (Z.ltb_spec (p_next g) (p_next g1)), (Z.ltb_spec (p_next g1) (p_next g2)), (Z.ltb_spec (p_next g) (p_next g2)), (Z.eqb_spec (p_next g1) (blen S + 1)), (Z.eqb_spec (p_next g2) (blen S + 1)); cbn; lia.
  - eapply sends_trans, P7. by eapply sends_le.
Qed.

Lemma run_ok es g t :
  open_at g t -> admissible es g t -> exists g' t' d e, conn_run es g t = Ok (g', t', d, e) /\ open_at g' t' /\ progress g g' t t' d e.
Proof.
  revert g t. induction es as [|e es IH]; intros g t Hg Ha; cbn [conn_run admissible] in *.
  { exists g, t, [], false. split_and!; [done|done|apply progress_none]. }
  destruct Ha as [Ha Hr]. destruct (conn_step_ok g t e Hg Ha) as (t1 & d & fn & g1 & E & Hg1 & Hm). rewrite E in Hr |- *. cbn [obind].
  rewrite (locate_ok g g1 t t1 d fn (oa_connected _ _ Hg) (oa_connected _ _ Hg1) Hm (proj1 Ha)) in Hr |- *.
  destruct (IH g1 t1 Hg1 Hr) as (g2 & t2 & d' & fn' & -> & Hg2 & Hp). cbn [obind]. exists g2, t2, (d ++ d'), (fn || fn').
  split_and!; [done|done|]. eapply progress_step; try done; [apply (rv_pos _ _ _ _ _ (ca_recv _ _ (oa_connected _ _ Hg)))|apply (rv_pos _ _ _ _ _ (ca_recv _ _ (oa_connected _ _ Hg2)))].
Qed.

(** ** Opening *)

(** the connection of a listener before the acknowledgement of its SYN, which
    is position 0 of this side *)
Record accepting (g : place) (t : tcp) : Prop := {
  ac_state : state (pcb t) = SYN_RCVD;
  ac_conn : connected_at g (pcb t);
  ac_start : p_next g = 0 /\ p_una g = 0 /\ p_end g = 1;
  ac_told : told (p_next g + TCP_WND) (p_edge g)
}.

(** a first segment: SYN without ACK and RST, at position -1 *)
Record may_open (w : world) (i : input) : Prop := {
  mo_flags : has (flags i) TCP_RST = false /\ has (flags i) TCP_ACK = false /\ has (flags i) TCP_SYN = true;
  mo_options : (options i = [] \/ behind i <> []) /\ bytes (options i ++ behind i);
  mo_number : u32 (seqno i + 1) = seq bS 0;
  mo_mtu : mtu w = 0 \/ 0 < mtu w - ip_hlen w - 20 < 65536
}.

Lemma eff_mss w m : mtu w = 0 \/ 0 < mtu w - ip_hlen w - 20 < 65536 -> 0 < m <= TCP_MSS -> 0 < tcp_eff_send_mss w m <= TCP_MSS.
Proof.
  intros Hw Hm. unfold tcp_eff_send_mss. destruct (Z.eqb_spec (mtu w) 0); [done|]. rewrite u16_small by lia. lia.
Qed.

(** the answer to a SYN: SYN and ACK at position 0, with an MSS option *)
Definition syn_ack : tcp_seg := mkSeg (seq bO 0) 0 [] (Z.lor TCP_SYN TCP_ACK) 1 4.
(** the link has a route and sends the next segment *)
Definition link_up (l : link) : Prop := route l = true /\ hd (Output ERR_OK) (fates l) = Output ERR_OK.

Lemma segment_sent_nxt seg rest p :
  snd_nxt (segment_sent seg rest p) =
    let next := u32 (s_seqno seg + TCP_TCPLEN seg) in if TCP_SEQ_LT (snd_nxt p) next then next else snd_nxt p.
Proof.
  unfold segment_sent. destruct (bool_decide _); cbn [snd_nxt set eta_tcp_pcb]; (destruct (TCP_SEQ_LT _ _); destruct (0 <? _); done).
Qed.
Lemma segment_output tk seg t : exists p1,
  tcp_output_segment tk (Output ERR_OK) seg t =
    (mkTcp p1 (inp t) (net t ++ [Segment seg (rcv_nxt (pcb t)) (rcv_ann_wnd (pcb t))]), ERR_OK) /\ snd_nxt p1 = snd_nxt (pcb t).
Proof. unfold tcp_output_segment. by destruct (rttest _ =? 0); eexists; (split; [reflexivity|]). Qed.

(** a lone SYN is sent at once *)
Lemma syn_ack_sent l t :
  link_up l -> state (pcb t) = SYN_RCVD -> unsent (pcb t) = [syn_ack] -> unacked (pcb t) = [] -> 0 <= snd_wnd (pcb t) -> sender O bO 0 0 1 (pcb t) ->
  exists t', tcp_output false l t = Ok (t', ERR_OK) /\ net t' = net t ++ [Segment syn_ack (rcv_nxt (pcb t)) (rcv_ann_wnd (pcb t))]
    /\ snd_nxt (pcb t') = seq bO 1.
Proof.
  intros [Hr Hf] Hst Hu Ha Hw Hs. pose proof (sn_una _ _ _ _ _ _ Hs) as E1. pose proof (sn_nxt _ _ _ _ _ _ Hs) as E2.
  pose proof (sn_cwnd _ _ _ _ _ _ Hs) as Hc.
  assert (forall wd p, 0 <= wd -> lastack p = seq bO 0 -> beyond wd p syn_ack = false) as Hb.
  { intros wd p Hwd Hp. unfold beyond. rewrite Hp. cbn [syn_ack s_seqno s_len]. rewrite Z.sub_diag. change (u32 (0 + 0)) with 0. lia. }
  specialize (Hb (Z.min (snd_wnd (pcb t)) (cwnd (pcb t))) (pcb t) ltac:(lia) E1).
  unfold tcp_output, check. rewrite Hst, (bool_decide_eq_false_2 (SYN_RCVD = LISTEN)) by done. cbn [negb]. rewrite Hu, Ha, Hr, Hb, andb_false_r. cbn [negb andb].
  cbn [output_loop]. rewrite Hb. unfold check. change (has (s_flags syn_ack) TCP_RST) with false. cbn [negb].
  unfold tcp_do_output_nagle at 1. rewrite Ha, (bool_decide_eq_true_2 (@nil tcp_seg = [])) by done. cbn [orb negb andb].
  rewrite Hst, Hf, (bool_decide_eq_false_2 (SYN_RCVD = SYN_SENT)) by done.
  replace (syn_ack <| s_flags ::= fun f => Z.lor f TCP_ACK |>) with syn_ack by done.
  destruct (segment_output (link_ticks l) syn_ack (t <| pcb ::= fun p => p <| unsent := [syn_ack] |> |>)) as (p1 & -> & H1).
  cbn [ERR_OK Z.eqb negb output_loop obind]. eexists. split; [reflexivity|]. split; [by destruct t|].
  change (snd_nxt (segment_sent syn_ack [] p1) = seq bO 1). rewrite segment_sent_nxt, H1. change (TCP_TCPLEN syn_ack) with 1.
  change (snd_nxt (pcb (t <| pcb ::= _ |>))) with (snd_nxt (pcb t)). rewrite E2. cbn [syn_ack s_seqno].
  replace (u32 (seq bO 0 + 1)) with (seq bO 1) by (symmetry; seqs). by rewrite (seq_LT bO 0 1); [|seqs|seqs|unfold near; lia].
Qed.

Lemma syn_queued (p : tcp_pcb) :
  lastack p = seq bO 0 -> snd_nxt p = seq bO 0 -> snd_lbb p = seq bO 0 -> unsent p = [] -> unacked p = [] -> snd_queuelen p = 0 -> snd_buf p = TCP_SND_BUF ->
  0 < mss p <= TCP_MSS -> 0 < cwnd p <= 65535 -> 0 < ssthresh p <= 65535 ->
  exists p', (forall budget, tcp_enqueue_flags (Datatypes.S (Datatypes.S budget)) (Z.lor TCP_SYN TCP_ACK) p = Ok (p', ERR_OK))
    /\ sender O bO 0 0 1 p' /\ recv_same p p' /\ unsent p' = [syn_ack] /\ unacked p' = [] /\ snd_wnd p' = snd_wnd p.
Proof.
  intros H1 H2 H3 H4 H5 H6 H7 H8 H9 H10. eexists. split; [intros bud; unfold tcp_enqueue_flags, check; rewrite H6; unfold queued; cbn; rewrite H4, H6, H5; reflexivity|].
  split; [|split; [done|]; split; [cbn; rewrite H4, H3; done|done]]. constructor; cbn; rewrite ?H3, ?H4, ?H5, ?H6, ?H7; cbn; try done; try lia; [|seqs].
  eexists 0, _. split; [|split; [done|split; [|apply merge_comm, merge_left]]]; cbn; [|done]. split; [|done]. constructor; cbn; try done; try lia. apply blen_nonneg.
Qed.

Lemma no_memory budget fl p : (budget < 2)%nat -> has fl TCP_SYN = true -> exists p', tcp_enqueue_flags budget fl p = Ok (p', ERR_MEM).
Proof.
  intros Hb Hf. unfold tcp_enqueue_flags, check. assert (has fl (Z.lor TCP_SYN TCP_FIN) = true) as ->.
  { unfold has in *. apply negb_true_iff, Z.eqb_neq in Hf. apply negb_true_iff, Z.eqb_neq. rewrite Z.land_lor_distr_r. intros E%Z.lor_eq_0_iff. tauto. }
  destruct (_ && _); [by eexists|]. destruct budget as [|[|]]; [by eexists|by eexists|lia].
Qed.

(** a listener answers with SYN and ACK, if there is memory *)
Lemma listen_step w l budget i :
  may_open w i ->
  exists r o, tcp_listen_input w l (seq bO 0) budget i = Ok (r, o)
    /\ match r with Some t => 3 <= Z.of_nat budget /\ inp t = i /\ net t = o /\ sends O bO bS 0 [] o /\
        (exists g, accepting g t /\ (link_up l -> 0 <= wnd i -> p_nxt g = 1)) /\
        (link_up l -> 0 <= wnd i -> o = [Segment syn_ack (seq bS 0) TCP_WND]) | None => Z.of_nat budget < 3 /\ o = [] end.
Proof.
  intros [(F1 & F2 & F3) (M1 & M2) Hn Hw]. unfold tcp_listen_input. rewrite F1, F2, F3. destruct budget as [|budget]; cbn [alloc]; [by eexists _, _|]. cbv zeta.
  set (p0 := (new_pcb (tcp_ticks w)) <| state := SYN_RCVD |> <| rcv_nxt := _ |> <| rcv_ann_right_edge := _ |> <| snd_wl2 := _ |> <| snd_nxt := _ |> <| lastack := _ |> <| snd_lbb := _ |> <| snd_wl1 := _ |>).
  destruct (parseopt_ok i p0 M1 M2) as (m & -> & Hm); [done|]. cbn [obind]. pose proof (eff_mss w m Hw Hm) as He.
  set (p1 := p0 <| mss := m |> <| snd_wnd := wnd i |> <| snd_wnd_max := wnd i |> <| mss ::= tcp_eff_send_mss w |>).
  destruct (decide (budget < 2)%nat) as [Hb|Hb].
  { destruct (no_memory budget (Z.lor TCP_SYN TCP_ACK) p1 Hb eq_refl) as (p' & E). rewrite E. cbn. eexists _, _. split; [reflexivity|]. split; [lia|done]. }
  destruct budget as [|[|budget]]; [lia|lia|].
  destruct (syn_queued p1) as (p2 & E & Hs & (R1 & R2 & R3) & U1 & U2 & U3); try done. rewrite E. cbn [obind negb ERR_OK Z.eqb].
  assert (receiver S bS 0 0 p2) as Hr.
  { pose proof (blen_nonneg S). eapply receiver_recv_part; [exact R1|]. constructor; try done; cbn; unfold TCP_WND, TCP_MSS in *; try done; lia. }
  pose proof (syn_ack_sent l (mkTcp p2 i [])) as Hsent. cbn [pcb net] in Hsent. rewrite R3, U3 in Hsent.
  destruct (tcp_output_ok O bO S bS 0 0 0 1 0 false l (mkTcp p2 i [])) as (t & err & Eo & [(nxt & O1 & O1') (a & O2 & O2') O3 O4 O5 O6 O7 O8 O9]); [done|done|by cbn; rewrite R3|].
  rewrite Eo in Hsent |- *. assert (link_up l -> 0 <= wnd i -> net t = [Segment syn_ack (seq bS 0) TCP_WND] /\ snd_nxt (pcb t) = seq bO 1) as Hsyn.
  { intros Hl Hwi. destruct (Hsent Hl eq_refl U1 U2 Hwi Hs) as (t' & [= <- _] & -> & ->). split; [|done]. rewrite app_nil_l.
    rewrite (rv_nxt _ _ _ _ _ Hr). pose proof (f_equal (fun x => x.1.1.2) R1) as R4. cbn in R4. by rewrite R4. }
  eexists _, _. split; [reflexivity|]. split_and!; try done; [lia| |intros; by apply Hsyn]. exists (mkPlace 0 a 0 nxt 1). split.
  - constructor; [by rewrite O5; cbn; rewrite R3| |done|unfold told, TCP_WND, TCP_MSS; cbn; lia].
    constructor; [done| |done]. rewrite O4. cbn. by rewrite R2.
  - intros Hl Hwi. destruct (Hsyn Hl Hwi) as [_ En]. rewrite (sn_nxt _ _ _ _ _ _ O1') in En. cbn. pose proof (sn_order _ _ _ _ _ _ O1').
    apply Z.eqb_eq. rewrite <- (seq_inj bO) by (unfold near; lia). by apply Z.eqb_eq.
Qed.

(** the acknowledgement of the SYN opens the connection *)
Lemma accept_step w g t i x :
  (exists f, accept app = Some f /\ forall t, f t = (t, ERR_OK)) ->
  accepting g t -> may_arrive g t i -> has (flags i) TCP_ACK = true -> ackno i = seq bO x -> p_una g < x <= p_nxt g ->
  exists t' g', tcp_process app w (t <| inp := i |>) = Ok (t', ERR_OK) /\ open_at g' t' /\ moved g g' t t' (got (inp t')) (got_fin t') /\ p_una g' = x.
Proof.
  intros (f & Hf & Hid) [Ho Hc (G1 & G2 & G3) Ht] Hm Hack Hx Hr. destruct (process_head w g t i Hc Hm) as (t1 & I1 & N1 & S1 & W1 & C1 & M1 & _ & Hp).
  rewrite (Hp Ho). unfold process_syn_rcvd. rewrite I1, Hack, Hx. pose proof (sender_size _ _ _ _ _ _ (ca_send _ _ Hc)) as (Hz & _).
  pose proof (sn_order _ _ _ _ _ _ (ca_send _ _ Hc)) as Hord. rewrite (sn_una _ _ _ _ _ _ (ca_send _ _ C1)), (sn_nxt _ _ _ _ _ _ (ca_send _ _ C1)).
  rewrite (seq_BETWEEN bO x (p_una g + 1) (p_nxt g)); [|seqs|seqs|seqs|unfold near; lia|unfold near; lia].
  rewrite (proj2 (Z.leb_le _ _)), (proj2 (Z.leb_le _ _)) by lia. cbn [andb]. rewrite Hf, Hid. cbn [negb ERR_OK Z.eqb].
  set (t2 := to_state ESTABLISHED t1). assert (connected_at g (pcb t2)) as C2.
  { destruct C1 as [X1 X2 X3]. constructor; cbn; [by eapply receiver_recv_part, X1|done|by eapply sender_core, X3]. }
  pose proof (blen_nonneg S) as HS. assert (in_state (p_next g) = ESTABLISHED) as HE by (unfold in_state; by rewrite (proj2 (Z.eqb_neq _ _)) by lia).
  destruct (receive_step w g t2 C2) as (t3 & n & a & una & -> & Hmv & Hc3 & Hs3 & _ & T2); [done| |done|].
  { destruct M1 as [K1 K2 K3 K4 K5]. constructor; try done. intros Hl. destruct (K5 Hl) as (k & Hk). exists k.
    eapply (arrives_same (recv_acked (inp t1))); [exact Hk|unfold t2; cbn; by destruct (inp t1)|done]. }
  cbn [obind]. set (t4 := t3 <| inp ::= _ |> <| pcb ::= _ |>).
  destruct (settle g n a una (p_nxt g) (p_end g) t t4) as [H1 H2].
  - apply (moved_from _ _ _ t2); [done|]. by destruct Hmv; constructor.
  - destruct Hc3 as [R1 R2 R3]. constructor; cbn; [by eapply receiver_recv_part, R1|done|]. pose proof (sn_mss _ _ _ _ _ _ R3) as Hmm. unfold TCP_MSS in Hmm.
    destruct R3. constructor; try done. cbn. unfold LWIP_TCP_CALC_INITIAL_CWND. rewrite u16_small; lia.
  - done.
  - eexists _, _. split; [reflexivity|]. split_and!; [done|done|]. apply T2; cbn; rewrite ?I1; try done. lia.
Qed.

End Connection.

(** ** Properties *)

(** C25. An open connection serves both streams for as long as it is open.  The
    events are segments of the peer's stream, in any order, repeated, or split
    anew, with FIN at its end; reads and writes of the application, output, and
    ticks of the retransmission timer.  Let each be allowed where it comes
    ([allowed]): a segment that is not next ends within the window (else
    [overrun_aborts]), has no RST or SYN, complete options (else
    [option_read_beyond]) and an acknowledgement less than half the number space
    away (else [far_ack_drops]); the application writes, and the timer ticks, when
    the queue is in order (else [retransmission_grows]) and the segments on it are
    no longer than the peer's window allows (else [small_window_aborts]); and less
    than 2^30 bytes arrive between two announcements of the window.  Then no
    assertion of the stack fails, the application gets exactly the next part of
    the stream, it is told of the end when all of it was delivered and not
    before, and what is sent is this side's stream, each byte at its number,
    with acknowledgements of delivered positions only. *)
Theorem connection_stream S bS O bO app es g t :
  open_at S bS O bO g t -> admissible S bS O bO app es g t ->
  exists g' t' d e, conn_run app es g t = Ok (g', t', d, e) /\ open_at S bS O bO g' t' /\ progress S bS O bO g g' t t' d e.
Proof. apply run_ok. Qed.

(** C27. A listener that has the memory answers a SYN: over a link that is up it
    sends exactly one segment, SYN and ACK without data at its own first number,
    with the acknowledgement of the peer's SYN and the whole window, and counts
    it as sent.  The acknowledgement of that SYN then opens the connection: the
    data that comes with it is delivered, and from there on [connection_stream]
    holds. *)
Theorem connection_opens S bS O bO app w l budget syn f :
  may_open bS w syn -> accept app = Some f -> (forall t, f t = (t, ERR_OK)) -> 3 <= Z.of_nat budget -> link_up l -> 0 <= wnd syn ->
  exists t g, tcp_listen_input w l (seq bO 0) budget syn = Ok (Some t, [Segment (syn_ack bO) (seq bS 0) TCP_WND]) /\
    accepting S bS O bO g t /\ p_nxt g = 1 /\
    forall w' i, may_arrive S bS bO g t i -> has (flags i) TCP_ACK = true -> ackno i = seq bO 1 ->
      exists t' g', tcp_process app w' (t <| inp := i |>) = Ok (t', ERR_OK) /\ open_at S bS O bO g' t' /\ p_una g' = 1
        /\ moved S bS O bO g g' t t' (got (inp t')) (got_fin t').
Proof.
  intros Hs Hf Hid Hb Hl Hw. destruct (listen_step S bS O bO w l budget syn Hs) as ([t|] & o & E & Hr); [|lia].
  destruct Hr as (_ & _ & _ & _ & (g & Hg & Hn) & Ho). specialize (Hn Hl Hw). rewrite (Ho Hl Hw) in E. exists t, g.
  split_and!; try done. intros w' i Hm Hk Hx. pose proof (ac_start _ _ _ _ _ _ Hg) as (_ & Hu & _).
  destruct (accept_step S bS O bO app w' g t i 1 (ex_intro _ f (conj Hf Hid)) Hg Hm Hk Hx) as (t' & g' & H1 & H2 & H3 & H4); [lia|]. by exists t', g'.
Qed.

(** C26. A segment that begins at or before the next position is taken as far as
    the window goes, with what waited behind it, and an acknowledgement of what
    was sent moves the sender to it. *)
Theorem segment_taken S bS O bO app w g t i :
  open_at S bS O bO g t -> may_arrive S bS bO g t i -> told (p_next g + TCP_WND) (p_edge g) ->
  exists t' g', tcp_process app w (t <| inp := i |>) = Ok (t', ERR_OK) /\ open_at S bS O bO g' t'
    /\ moved S bS O bO g g' t t' (got (inp t')) (got_fin t') /\ taken S bS bO g g' t i.
Proof. apply process_step. Qed.

(** ** A connection *)

Module Sample.

Definition S : list Z := [104; 101; 108; 108; 111; 33; 33; 10].
Definition O : list Z := [0; 65; 66; 67].
(** the numbers wrap around within both streams *)
Definition bS : Z := 4294967291.
Definition bO : Z := 4294967295.

Definition app : application := mkApp (Some (fun t => (t, ERR_OK))) (fun t => (t, ERR_OK)).
Definition w : world := mkWorld 7 true Delivered Delivered Delivered 1500 20.
Definition l : link := mkLink 8 true [] Delivered.

(** a segment of the peer: position, data, flags and acknowledged position *)
Definition segment (k : Z) (d : list Z) (fl x : Z) : input :=
  let s := mkSeg (seq bS k) (blen d) d fl 1 0 in
  mkInput s true (seq bS k) (seq bO x) (TCP_TCPLEN s) fl 4096 [] [] 0 0 None.
Definition syn : input :=
  mkInput (mkSeg 4294967290 0 [] TCP_SYN 1 0) true 4294967290 0 1 TCP_SYN 4096 [2; 4; 5; 180] [0] 0 0 None.

Definition accepted : tcp :=
  Eval vm_compute in match tcp_listen_input w l (seq bO 0) 9 syn with Ok (Some t, _) => t | _ => mkTcp (new_pcb 0) syn [] end.
Definition opened : tcp :=
  Eval vm_compute in match tcp_process app w (accepted <| inp := segment 0 [] TCP_ACK 1 |>) with Ok (t, _) => t | Stop _ => accepted end.
Definition start : place := mkPlace 0 2048 1 1 1.

Definition story : list event :=
  [Arrives w (segment 5 [33; 33; 10] TCP_ACK 1); Arrives w (segment 0 [104; 101; 108; 108; 111] TCP_ACK 1); Reads l 8;
   Writes 9 [65; 66; 67]; Sends l; Ticks l; Arrives w (segment 8 [] (Z.lor TCP_ACK TCP_FIN) 4)].

End Sample.

(** a closed fact *)
Ltac closed := vm_compute; repeat split; intros; congruence.

Lemma sample_opened : open_at Sample.S Sample.bS Sample.O Sample.bO Sample.start Sample.opened.
Proof.
  constructor; [done|]. constructor; [constructor; closed|done|]. constructor; try closed. exists 1, []. split_and!; try done. constructor.
Qed.

Lemma sample_segment g t k d fl x :
  let i := Sample.segment k d fl x in
  seg_at Sample.S Sample.bS k (inseg i) \/ tcplen i = 0 -> fin (inseg i) = has fl TCP_FIN -> has fl TCP_RST = false /\ has fl TCP_SYN = false ->
  -2146435072 <= x - p_una g < 2147483648 -> -1073741824 <= k - p_next g <= 1073741824 -> k <= p_next g \/ k + span (inseg i) <= p_next g + rcv_wnd (pcb t) ->
  may_arrive Sample.S Sample.bS Sample.bO g t i.
Proof.
  intros i Hs Hf Hfl Hx Hk Hw. constructor; try done.
  - split; [by left|constructor].
  - intros _. by exists x.
  - intros Hl. exists k. destruct Hs as [Hs|Hs]; [|lia]. pose proof (tcplen_span _ _ _ _ Hs) as E. constructor; try done. split_and!; [done|done|]. change (0 < span (inseg i)). rewrite <- E. exact Hl.
Qed.

(** one step of an admissible run, evaluated *)
Ltac evaluated :=
  match goal with
  | |- context [conn_step ?a ?e ?t] => let r := eval vm_compute in (conn_step a e t) in change (conn_step a e t) with r
  end;
  cbv beta iota;
  match goal with
  | |- context [locate ?g ?p ?p'] => let r := eval vm_compute in (locate g p p') in change (locate g p p') with r
  end.
Ltac sample_arrives := apply sample_segment; [left; constructor; closed|done|done|closed|closed|vm_compute; intuition congruence].

Lemma sample_admissible : admissible Sample.S Sample.bS Sample.O Sample.bO Sample.app Sample.story Sample.start Sample.opened.
Proof.
  unfold Sample.story. cbn [admissible]. split; [split; [closed|sample_arrives]|evaluated].
  split; [split; [closed|sample_arrives]|evaluated]. split; [split; [closed|done]|evaluated].
  split; [split; [closed|split_and!; try closed; constructor; [closed|by exists 1|done]]|evaluated]. split; [split; [closed|done]|evaluated].
  split; [split; [closed|]|evaluated]. { exists 1. repeat split; closed. }
  split; [split; [closed|sample_arrives]|by vm_compute].
Qed.

Lemma connection_stream_witness :
  exists g' t', conn_run Sample.app Sample.story Sample.start Sample.opened = Ok (g', t', Sample.S, true)
    /\ open_at Sample.S Sample.bS Sample.O Sample.bO g' t'.
Proof.
  destruct (connection_stream _ _ _ _ _ _ _ _ sample_opened sample_admissible) as (g & t & d & e & E & Hg & _).
  exists g, t. split; [|exact Hg]. rewrite E. revert E. vm_compute. intros E. injection E as <- <- <- <-. reflexivity.
Defined.

Lemma connection_opens_witness :
  tcp_listen_input Sample.w Sample.l (seq Sample.bO 0) 9 Sample.syn =
    Ok (Some Sample.accepted, [Segment (syn_ack Sample.bO) (seq Sample.bS 0) TCP_WND]).
Proof.
  destruct (connection_opens Sample.S Sample.bS Sample.O Sample.bO Sample.app Sample.w Sample.l 9 Sample.syn (fun t => (t, ERR_OK))) as (t & g & E & _).
  - constructor; try closed; [split; [by right|]|right; closed]. repeat (constructor; [closed|]). constructor.
  - reflexivity.
  - reflexivity.
  - vm_compute. congruence.
  - split; reflexivity.
  - vm_compute. congruence.
  - rewrite E. vm_compute in E. injection E as <-. reflexivity.
Defined.

Lemma segment_taken_witness :
  exists t', tcp_process Sample.app Sample.w (Sample.opened <| inp := Sample.segment 0 [104; 101] TCP_ACK 1 |>) = Ok (t', ERR_OK)
    /\ got (inp t') = [104; 101].
Proof.
  destruct (segment_taken Sample.S Sample.bS Sample.O Sample.bO Sample.app Sample.w Sample.start Sample.opened (Sample.segment 0 [104; 101] TCP_ACK 1)) as (t' & g' & E & _).
  - apply sample_opened.
  - sample_arrives.
  - closed.
  - exists t'. split; [exact E|]. vm_compute in E. injection E as <-. reflexivity.
Defined.


(** ** Outside the conditions *)

Module Outside.

(** a run without a place *)
Fixpoint steps (es : list event) (t : tcp) : outcome tcp :=
  match es with
  | [] => Ok t
  | e :: es => try '(t, _, _) := conn_step Sample.app e t in steps es t
  end.

Definition with_window (n : Z) (i : input) : input := i <| wnd := n |>.
Definition bytes_of (n : nat) : list Z := repeat 7 n.

(** The first segment that is out of order is queued as it is, and the assertion
    that what is dequeued fits the window fails when it does not. *)
Theorem overrun_aborts :
  steps [Arrives Sample.w (Sample.segment 10 (bytes_of 2100) TCP_ACK 1); Arrives Sample.w (Sample.segment 0 (bytes_of 10) TCP_ACK 1)] Sample.opened
  = Stop AssertFail.
Proof. vm_compute. reflexivity. Qed.

(** A peer that first announces no window and then a small one makes the next
    [tcp_write] fail its assertion on the size of the last segment. *)
Definition no_window : tcp :=
  Eval vm_compute in
    match tcp_listen_input Sample.w Sample.l (seq Sample.bO 0) 9 (with_window 0 Sample.syn) with
    | Ok (Some t, _) =>
      match tcp_process Sample.app Sample.w (t <| inp := with_window 0 (Sample.segment 0 [] TCP_ACK 1) |>) with Ok (t, _) => t | Stop _ => t end
    | _ => Sample.opened
    end.
Theorem small_window_aborts :
  steps [Writes 9 (bytes_of 400); Sends Sample.l; Arrives Sample.w (with_window 100 (Sample.segment 0 [] TCP_ACK 1)); Sends Sample.l; Writes 9 [1]] no_window
  = Stop AssertFail.
Proof. vm_compute. reflexivity. Qed.

(** An acknowledgement number 2^31 beyond the last one drops data that was
    never sent. *)
Theorem far_ack_drops :
  exists t, steps [Writes 9 (bytes_of 3); Arrives Sample.w (Sample.segment 0 [] TCP_ACK (1 + 2147483648))] Sample.opened = Ok t
    /\ unsent (pcb t) = [] /\ snd_lbb (pcb t) = seq Sample.bO 4 /\ lastack (pcb t) = seq Sample.bO 1.
Proof. eexists. split; [vm_compute; reflexivity|]. done. Qed.

(** An option whose length is missing is read beyond the options. *)
Theorem option_read_beyond : tcp_parseopt (Sample.syn <| options := [1; 1; 1; 8] |> <| behind := [] |>) (new_pcb 0) = Stop OutOfBounds.
Proof. reflexivity. Qed.

(** While a fast retransmission could not be sent, [tcp_write] appends to it,
    and the peer gets new data at the numbers of data that was sent before. *)
Definition fails : link := mkLink 9 true [Output ERR_MEM] Delivered.
Definition dup : event := Arrives Sample.w (Sample.segment 0 [] TCP_ACK 1).
Theorem retransmission_grows :
  exists t, steps [Writes 9 [1; 2; 3]; Sends Sample.l; Writes 9 (bytes_of 512); Sends Sample.l; dup; dup; dup; Sends fails; Writes 9 [9]; Sends Sample.l] Sample.opened = Ok t
    /\ map (fun e => match e with Segment s _ _ => (s_seqno s, s_len s, take 4 (s_p s)) | _ => (0, 0, []) end) (net t)
       = [(4294967295, 0, []); (0, 3, [1; 2; 3]); (3, 512, [7; 7; 7; 7]); (0, 4, [1; 2; 3; 9])].
Proof. eexists. split; vm_compute; reflexivity. Qed.

End Outside.
