(* ===== verification/Ip4Frag.v ===== *)
(** * Ip4Frag: fragments of IPv4 datagrams in the TCP/IP stack

    lwip/src/core/ipv4/ip4_frag.c: [ip4_reass] collects the fragments of incoming
    datagrams, [ip_reass_tmr] gives up those that stay incomplete, [ip4_frag]
    splits what does not fit the interface.

    A packet is the list of its bytes.  A queued fragment is the interval that
    its [ip_reass_helper] holds, in place of the header, with the bytes behind
    the header and the number of its buffers; the list through [next_pbuf] is a
    list.  [memp_malloc] answers from a list, and packets that are handed to
    [icmp_time_exceeded] are collected. *)

From S2P Require Import Prelude Bytes Checksum Pbuf InetChksum.

#[local] Open Scope Z_scope.

Definition IP_HLEN : Z := 20.
Definition IP_MF : Z := 8192.
Definition IP_OFFMASK : Z := 8191.
Definition IP_REASS_MAXAGE : Z := 3.
Definition IP_REASS_MAX_PBUFS : Z := 10.
Definition IP_REASS_FLAG_LASTFRAG : Z := 1.

Definition IPH_HL (h : list Z) : Z := getb h 0 mod 16.
Definition IPH_LEN (h : list Z) : Z := be16 h 2.
Definition IPH_ID (h : list Z) : Z := be16 h 4.
Definition IPH_OFFSET (h : list Z) : Z := be16 h 6.
Definition iph_src (h : list Z) : list Z := field h 12 4.
Definition iph_dest (h : list Z) : list Z := field h 16 4.

Definition IPH_LEN_SET (h : list Z) (v : Z) : list Z := splice h 2 (net16 v).
Definition IPH_OFFSET_SET (h : list Z) (v : Z) : list Z := splice h 6 (net16 v).

Definition IP_ADDRESSES_AND_ID_MATCH (a b : list Z) : bool :=
  CMP_IPV4 (iph_src a) (iph_src b) && CMP_IPV4 (iph_dest a) (iph_dest b) && (IPH_ID a =? IPH_ID b).

(** ** State *)

Record fragment := mkFrag { start : Z; end_ : Z; clen : Z; data : list Z }.

Record ip_reassdata := mkReass { r_p : list fragment; r_iphdr : list Z; r_datagram_len : Z; r_flags : Z; r_timer : Z }.
#[global] Instance eta_reassdata : Eta ip_reassdata := fun r => mkReass (r_p r) (r_iphdr r) (r_datagram_len r) (r_flags r) (r_timer r).

Record reassembly := mkReassembly { reassdatagrams : list ip_reassdata; ip_reass_pbufcount : Z; mallocs : list bool; exceeded : list (list Z) }.
#[global] Instance eta_reassembly : Eta reassembly := fun r => mkReassembly (reassdatagrams r) (ip_reass_pbufcount r) (mallocs r) (exceeded r).

Definition check {A} (b : bool) (k : outcome A) : outcome A := if b then k else Stop AssertFail.

Definition memp_malloc (s : reassembly) : bool * reassembly :=
  match mallocs s with [] => (true, s) | b :: l => (b, s <| mallocs := l |>) end.

(** ** Giving up *)

Fixpoint sum_clen (l : list fragment) : Z := match l with [] => 0 | f :: l => clen f + sum_clen l end.

(** the buffers of the fragments, each count within 16 bits *)
Fixpoint count_freed (l : list fragment) (pbufs_freed : Z) : outcome Z :=
  match l with
  | [] => Ok pbufs_freed
  | f :: l => check (pbufs_freed + clen f <=? 65535) (count_freed l (pbufs_freed + clen f))
  end.

(** the datagram at place [k] of the list *)
Definition ip_reass_free_complete_datagram (k : nat) (s : reassembly) : outcome (reassembly * Z) :=
  match reassdatagrams s !! k with
  | None => Stop NullDeref
  | Some ipr =>
    match r_p ipr with
    | [] => Stop NullDeref
    | f :: l =>
      let s := if start f =? 0 then s <| exceeded ::= (fun e => e ++ [r_iphdr ipr ++ data f]) |> else s in
      try pbufs_freed := count_freed (f :: l) 0 in
      check (pbufs_freed <=? ip_reass_pbufcount s)
        (Ok (s <| reassdatagrams ::= delete k |> <| ip_reass_pbufcount ::= (fun n => n - pbufs_freed) |>, pbufs_freed))
    end
  end.

(** the timer: entries are visited once each, [k] is the place of the next *)
Fixpoint reass_tmr_loop (n : nat) (k : nat) (s : reassembly) : outcome reassembly :=
  match n with
  | O => Ok s
  | S n =>
    match reassdatagrams s !! k with
    | None => Ok s
    | Some r =>
      if 0 <? r_timer r then reass_tmr_loop n (S k) (s <| reassdatagrams ::= alter (fun r => r <| r_timer ::= Z.pred |>) k |>)
      else try '(s, _) := ip_reass_free_complete_datagram k s in reass_tmr_loop n k s
    end
  end.
Definition ip_reass_tmr (s : reassembly) : outcome reassembly := reass_tmr_loop (length (reassdatagrams s)) 0 s.

(** the place of the oldest datagram that [fraghdr] does not belong to, and how
    many such datagrams there are *)
Fixpoint find_oldest (fraghdr : list Z) (k : nat) (l : list ip_reassdata) (oldest : option (nat * Z)) (other_datagrams : Z) : option nat * Z :=
  match l with
  | [] => (fst <$> oldest, other_datagrams)
  | r :: l =>
    if IP_ADDRESSES_AND_ID_MATCH (r_iphdr r) fraghdr then find_oldest fraghdr (S k) l oldest other_datagrams
    else
      let oldest := match oldest with
                    | None => Some (k, r_timer r)
                    | Some (_, t) => if r_timer r <=? t then Some (k, r_timer r) else oldest
                    end in
      find_oldest fraghdr (S k) l oldest (other_datagrams + 1)
  end.

(** each round but the last frees a datagram, so the list bounds the rounds *)
Fixpoint remove_oldest_loop (fuel : nat) (fraghdr : list Z) (pbufs_needed pbufs_freed : Z) (s : reassembly) : outcome (reassembly * Z) :=
  match fuel with
  | O => Stop OutOfFuel
  | S fuel =>
    let '(oldest, other_datagrams) := find_oldest fraghdr 0 (reassdatagrams s) None 0 in
    try '(s, freed) := match oldest with Some k => ip_reass_free_complete_datagram k s | None => Ok (s, 0) end in
    let pbufs_freed := pbufs_freed + freed in
    if (pbufs_freed <? pbufs_needed) && (1 <? other_datagrams) then remove_oldest_loop fuel fraghdr pbufs_needed pbufs_freed s
    else Ok (s, pbufs_freed)
  end.
Definition ip_reass_remove_oldest_datagram (fraghdr : list Z) (pbufs_needed : Z) (s : reassembly) : outcome (reassembly * Z) :=
  remove_oldest_loop (S (length (reassdatagrams s))) fraghdr pbufs_needed 0 s.

(** a new entry goes to the front; the flag is whether there is one *)
Definition ip_reass_enqueue_new_datagram (fraghdr : list Z) (needed : Z) (s : reassembly) : outcome (reassembly * bool) :=
  let '(ok, s) := memp_malloc s in
  try '(s, ok) :=
    if ok then Ok (s, true)
    else
      try '(s, freed) := ip_reass_remove_oldest_datagram fraghdr needed s in
      if needed <=? freed then let '(ok, s) := memp_malloc s in Ok (s, ok) else Ok (s, false) in
  if ok then Ok (s <| reassdatagrams ::= cons (mkReass [] (field fraghdr 0 IP_HLEN) 0 0 IP_REASS_MAXAGE) |>, true) else Ok (s, false).

(** ** A fragment *)

(** where the fragment goes: the list with it, what follows it, and whether there
    is no hole up to it; or nothing when it overlaps *)
Fixpoint chain_frag (new : fragment) (prev : option fragment) (valid : bool) (l : list fragment) : outcome (option (list fragment * list fragment * bool)) :=
  match l with
  | [] =>
    match prev with
    | Some p => check (end_ p <=? start new) (Ok (Some ([new], [], valid && (end_ p =? start new))))
    | None => Ok (Some ([new], [], valid))
    end
  | q :: rest =>
    if start new <? start q then
      match prev with
      | Some p =>
        if (start new <? end_ p) || (start q <? end_ new) then Ok None else Ok (Some (new :: l, l, valid && (end_ p =? start new)))
      | None => if start q <? end_ new then Ok None else Ok (Some (new :: l, l, valid))
      end
    else if start new =? start q then Ok None
    else if start new <? end_ q then Ok None
    else
      let valid := match prev with Some p => valid && (end_ p =? start q) | None => valid end in
      try r := chain_frag new (Some q) valid rest in
      Ok (match r with Some (l', after, v) => Some (q :: l', after, v) | None => None end)
  end.

(** no hole behind [prev] *)
Fixpoint no_holes (prev : fragment) (l : list fragment) : bool :=
  match l with [] => true | f :: l => (end_ prev =? start f) && no_holes f l end.

Inductive chained := Dropped | Queued (p : list fragment) | Finished (p : list fragment).

Definition ip_reass_chain_frag_into_datagram_and_validate (ipr : ip_reassdata) (new : fragment) (is_last : bool) : outcome chained :=
  try r := chain_frag new None true (r_p ipr) in
  match r with
  | None => Ok Dropped
  | Some (p, after, valid) =>
    if is_last || negb (Z.land (r_flags ipr) IP_REASS_FLAG_LASTFRAG =? 0) then
      let first_there := match p with f :: _ => start f =? 0 | [] => false end in
      if valid && first_there && no_holes new after then check (1 <? Z.of_nat (length p)) (Ok (Finished p)) else Ok (Queued p)
    else Ok (Queued p)
  end.

(** the entry a fragment belongs to *)
Fixpoint find_datagram (fraghdr : list Z) (k : nat) (l : list ip_reassdata) : option (nat * ip_reassdata) :=
  match l with
  | [] => None
  | r :: l => if IP_ADDRESSES_AND_ID_MATCH (r_iphdr r) fraghdr then Some (k, r) else find_datagram fraghdr (S k) l
  end.

(** the header of the whole datagram; [odd]: whether packets lie at odd addresses *)
Definition reass_header (odd : bool) (h : list Z) (datagram_len : Z) : outcome (list Z) :=
  let h := splice (IPH_OFFSET_SET (IPH_LEN_SET h datagram_len) 0) 10 (net16 0) in
  try c := inet_chksum odd h IP_HLEN in
  Ok (splice h 10 (store16 c)).

(** The fragment [p] joins the datagram [ipr] at place [k]; it has [n] buffers and
    lies at [offset].  A fragment that is dropped as an overlap was freed when it
    is freed again. *)
Definition reass_fragment (odd : bool) (p : list Z) (n offset len : Z) (k : nat) (ipr : ip_reassdata) (s : reassembly) : outcome (reassembly * option (list Z)) :=
  let is_last := Z.land (IPH_OFFSET p) IP_MF =? 0 in
  let datagram_len := u16 (offset + len) in
  if is_last && ((datagram_len <? offset) || (65535 - IP_HLEN <? datagram_len)) then Ok (s, None)
  else
    try r := ip_reass_chain_frag_into_datagram_and_validate ipr (mkFrag offset datagram_len n (ptr p IP_HLEN)) is_last in
    let s := s <| ip_reass_pbufcount ::= (fun c => u16 (c + n)) |> in
    let ipr := if is_last then ipr <| r_datagram_len := datagram_len |> <| r_flags ::= (fun f => Z.lor f IP_REASS_FLAG_LASTFRAG) |> else ipr in
    match r with
    | Dropped => Stop OutOfBounds
    | Queued l => Ok (s <| reassdatagrams ::= alter (fun _ => ipr <| r_p := l |>) k |>, None)
    | Finished l =>
      try h := reass_header odd (r_iphdr ipr) (u16 (r_datagram_len ipr + IP_HLEN)) in
      Ok (s <| reassdatagrams ::= delete k |> <| ip_reass_pbufcount ::= (fun c => u16 (c - sum_clen l)) |>, Some (h ++ concat (map data l)))
    end.

(** [p] is a packet of at least [IP_HLEN] bytes in [n] buffers.  The result is the
    whole datagram when the fragment completes one. *)
Definition ip4_reass (odd : bool) (p : list Z) (n : Z) (s : reassembly) : outcome (reassembly * option (list Z)) :=
  if negb (IPH_HL p * 4 =? IP_HLEN) then Ok (s, None)
  else
    let offset := u16 (Z.land (IPH_OFFSET p) IP_OFFMASK * 8) in
    let len := u16 (IPH_LEN p - IPH_HL p * 4) in
    try '(s, room) :=
      if IP_REASS_MAX_PBUFS <? ip_reass_pbufcount s + n then
        try '(s, freed) := ip_reass_remove_oldest_datagram p n s in
        Ok (s, negb (freed =? 0) && negb (IP_REASS_MAX_PBUFS <? ip_reass_pbufcount s + n))
      else Ok (s, true) in
    if negb room then Ok (s, None)
    else
      match find_datagram p 0 (reassdatagrams s) with
      | None =>
        try '(s, there) := ip_reass_enqueue_new_datagram p n s in
        if there then
          match reassdatagrams s with
          | [] => Stop NullDeref
          | ipr :: _ => reass_fragment odd p n offset len 0 ipr s
          end
        else Ok (s, None)
      | Some (k, ipr) =>
        if (Z.land (IPH_OFFSET p) IP_OFFMASK =? 0) && negb (Z.land (IPH_OFFSET (r_iphdr ipr)) IP_OFFMASK =? 0) then
          let ipr := ipr <| r_iphdr := field p 0 IP_HLEN |> in
          reass_fragment odd p n offset len k ipr (s <| reassdatagrams ::= alter (fun _ => ipr) k |>)
        else reass_fragment odd p n offset len k ipr s
      end.

(** ** Output *)

Definition ERR_OK : Z := 0.
Definition ERR_MEM : Z := -1.

(** the packets for the interface, in order; [memory] tells for each fragment
    whether its buffers could be allocated, [rest] is what is left of the data *)
Fixpoint frag_loop (fuel : nat) (odd : bool) (mtu : Z) (original_iphdr rest : list Z) (ofo : Z) (memory : list bool) (out : list (list Z)) : outcome (list (list Z) * Z) :=
  if blen rest =? 0 then Ok (out, ERR_OK)
  else
    match fuel with
    | O => Stop OutOfFuel
    | S fuel =>
      let nfb := (mtu - IP_HLEN) / 8 in
      let fragsize := Z.min (blen rest) (nfb * 8) in
      let '(ok, memory) := match memory with [] => (true, []) | b :: l => (b, l) end in
      if negb ok then Ok (out, ERR_MEM)
      else
        let last := blen rest <=? mtu - IP_HLEN in
        let tmp := if last then Z.land IP_OFFMASK ofo else Z.lor (Z.land IP_OFFMASK ofo) IP_MF in
        let h := splice (IPH_LEN_SET (IPH_OFFSET_SET original_iphdr tmp) (fragsize + IP_HLEN)) 10 (net16 0) in
        try c := inet_chksum odd h IP_HLEN in
        frag_loop fuel odd mtu original_iphdr (ptr rest fragsize) (u16 (ofo + nfb)) memory
          (out ++ [splice h 10 (store16 c) ++ field rest 0 fragsize])
    end.

Definition ip4_frag (odd : bool) (mtu : Z) (memory : list bool) (p : list Z) : outcome (list (list Z) * Z) :=
  let tmp := IPH_OFFSET p in
  check (IPH_HL p * 4 =? IP_HLEN)
    (check (Z.land tmp IP_MF =? 0)
      (frag_loop (length p) odd mtu (field p 0 IP_HLEN) (ptr p IP_HLEN) (Z.land tmp IP_OFFMASK) memory [])).

(** ** Lists of fragments *)

Definition flen (f : fragment) : Z := end_ f - start f.
Fixpoint covered (l : list fragment) : Z := match l with [] => 0 | f :: l => flen f + covered l end.

(** one behind the other from [lo] on *)
Fixpoint ordered (lo : Z) (l : list fragment) : Prop :=
  match l with [] => True | f :: l => lo <= start f < end_ f /\ ordered (end_ f) l end.

Definition apart (f g : fragment) : Prop := end_ f <= start g \/ end_ g <= start f.

Definition linked (l : list fragment) : bool := match l with [] => true | f :: l => no_holes f l end.

Lemma ordered_lower lo lo' l : lo' <= lo -> ordered lo l -> ordered lo' l.
Proof. destruct l; cbn; [done|]. intros ? [? ?]. split; [lia|done]. Qed.

(** a fragment that overlaps none is put in order *)
Lemma chain_frag_ok new l : forall prev valid lo,
  ordered lo l -> match prev with Some p => end_ p = lo | None => True end -> lo <= start new < end_ new -> Forall (apart new) l ->
  exists l' after v, chain_frag new prev valid l = Ok (Some (l', after, v)) /\ ordered lo l' /\ l' ≡ₚ new :: l
    /\ v && no_holes new after = valid && match prev with Some p => no_holes p l' | None => linked l' end.
Proof.
  induction l as [|q l IH]; intros prev valid lo Hl Hp Hn Ha.
  { destruct prev as [p|]; cbn; [unfold check; rewrite (proj2 (Z.leb_le _ _)) by lia|]; eexists _, _, _; (split; [reflexivity|]); split_and!; try done; cbn; try lia.
    by rewrite !andb_true_r. }
  destruct Hl as [Hq Hl]. apply Forall_cons_iff in Ha as [Hq' Ha]. unfold apart in Hq'. cbn [chain_frag]. destruct (Z.ltb_spec (start new) (start q)) as [Hlt|Hge].
  - rewrite (proj2 (Z.ltb_ge (start q) (end_ new))) by lia.
    assert (ordered lo (new :: q :: l)) as Ho by (cbn; split_and!; try lia; done).
    destruct prev as [p|]; [rewrite (proj2 (Z.ltb_ge (start new) (end_ p))) by lia; cbn [orb]|]; eexists _, _, _; (split; [reflexivity|]); split_and!; try done.
    cbn. by rewrite <- andb_assoc.
  - rewrite (proj2 (Z.eqb_neq _ _)), (proj2 (Z.ltb_ge (start new) (end_ q))) by lia. cbv zeta.
    destruct (IH (Some q) (match prev with Some p => valid && (end_ p =? start q) | None => valid end) (end_ q)) as (l' & after & v & -> & Ho & Hpm & Hv); try done; [lia|].
    cbn [obind]. eexists _, _, _. split; [reflexivity|]. split_and!; [cbn; split; [lia|done]|rewrite Hpm; constructor|].
    rewrite Hv. destruct prev; cbn; [by rewrite <- andb_assoc|done].
Qed.

Lemma covered_perm l l' : l ≡ₚ l' -> covered l = covered l'.
Proof. induction 1; cbn; lia. Qed.
Lemma sum_clen_perm l l' : l ≡ₚ l' -> sum_clen l = sum_clen l'.
Proof. induction 1; cbn; lia. Qed.

Lemma covered_le hi l : forall lo, ordered lo l -> Forall (fun f => end_ f <= hi) l -> lo <= hi -> 0 <= covered l <= hi - lo.
Proof.
  induction l as [|f l IH]; intros lo Ho Hh Hlo; cbn; [lia|]. destruct Ho as [Hf Ho]. apply Forall_cons_iff in Hh as [Hf' Hh].
  specialize (IH (end_ f) Ho Hh Hf'). unfold flen. lia.
Qed.

(** no hole from [lo] on and up to [hi]: everything is covered *)
Lemma linked_full hi l : forall lo p,
  ordered lo l -> Forall (fun f => end_ f <= hi) l -> lo <= hi -> end_ p = lo -> Exists (fun f => end_ f = hi) l ->
  no_holes p l = (covered l =? hi - lo).
Proof.
  induction l as [|f l IH]; intros lo p Ho Hh Hlo Hp He; [by inversion He|]. destruct Ho as [Hf Ho]. apply Forall_cons_iff in Hh as [Hf' Hh]. cbn.
  pose proof (covered_le hi l (end_ f) Ho Hh Hf') as Hc. unfold flen. rewrite Hp. destruct (Z.eqb_spec lo (start f)) as [E|E].
  - cbn. destruct l as [|g l'].
    + inversion He as [? ? E'|? ? E']; subst; [|inversion E']. cbn. symmetry. apply Z.eqb_eq. lia.
    + rewrite (IH (end_ f) f); try done.
      * destruct (Z.eqb_spec (covered (g :: l')) (hi - end_ f)), (Z.eqb_spec (end_ f - start f + covered (g :: l')) (hi - lo)); try done; lia.
      * inversion He as [? ? E'|? ? E']; subst; [|done]. destruct Ho as [Hg _]. apply Forall_cons_iff in Hh as [Hg' _]. lia.
  - cbn. symmetry. apply Z.eqb_neq. lia.
Qed.

(** the bytes of fragments without a hole *)
Lemma concat_pieces D l : forall p,
  no_holes p l = true -> ordered (end_ p) l -> 0 <= end_ p -> Forall (fun f => data f = field D (start f) (flen f)) l ->
  concat (map data l) = field D (end_ p) (covered l).
Proof.
  induction l as [|f l IH]; intros p Hn Ho Hp Hd; cbn [map concat covered]; [by rewrite field_none by lia|].
  cbn in Hn. apply andb_true_iff in Hn as [Hf%Z.eqb_eq Hn]. destruct Ho as [Hf' Ho]. apply Forall_cons_iff in Hd as [Hd Hds].
  assert (0 <= covered l) as Hc.
  { clear -Ho. revert Ho. generalize (end_ f). induction l as [|g l IHl]; intros z Ho; cbn; [lia|]. destruct Ho as [Hg Ho]. specialize (IHl _ Ho). unfold flen. lia. }
  rewrite (IH f Hn Ho) by (done || lia). rewrite Hd, Hf, (field_split D (start f) (flen f) (flen f + covered l)) by (unfold flen; lia).
  f_equal. unfold flen. f_equal; lia.
Qed.

(** *** Headers *)

Definition key_of (h : list Z) : list Z * list Z * Z := (iph_src h, iph_dest h, IPH_ID h).

Lemma match_spec a b : IP_ADDRESSES_AND_ID_MATCH a b = true <-> key_of a = key_of b.
Proof.
  unfold IP_ADDRESSES_AND_ID_MATCH, key_of, CMP_IPV4. rewrite !andb_true_iff, !bool_decide_eq_true, Z.eqb_eq. split; [intros [[-> ->] ->]; done|]. intros E. by injection E as -> -> ->.
Qed.

Lemma getb_head p n i : 0 <= i < n -> getb (field p 0 n) i = getb p i.
Proof. intros. unfold getb, field. rewrite !nth_lookup, lookup_take_lt by lia. done. Qed.
Lemma field_head p n i k : 0 <= i -> 0 <= k -> i + k <= n -> field (field p 0 n) i k = field p i k.
Proof. intros. unfold field. cbn [Z.to_nat drop]. rewrite skipn_firstn_comm, take_take. f_equal. lia. Qed.
Lemma key_front p : key_of (field p 0 IP_HLEN) = key_of p.
Proof. unfold key_of, iph_src, iph_dest, IPH_ID, be16, IP_HLEN. rewrite !field_head, !getb_head by lia. done. Qed.
Lemma offset_front p : IPH_OFFSET (field p 0 IP_HLEN) = IPH_OFFSET p.
Proof. unfold IPH_OFFSET, be16, IP_HLEN. rewrite !getb_head by lia. done. Qed.

(** the header of the whole: as the first one, with its own length, no offset and
    a valid checksum *)
Record whole_header (first : list Z) (n : Z) (h : list Z) : Prop := {
  wh_len : blen h = IP_HLEN;
  wh_bytes : bytes h;
  wh_total : IPH_LEN h = n;
  wh_offset : IPH_OFFSET h = 0;
  wh_valid : csum h = 0;
  wh_rest i : 0 <= i < IP_HLEN -> ~ 2 <= i < 4 -> ~ 6 <= i < 8 -> ~ 10 <= i < 12 -> getb h i = getb first i
}.

Lemma checksum_set odd z : bytes z -> blen z = IP_HLEN -> let z0 := splice z 10 (net16 0) in
  exists c, inet_chksum odd z0 IP_HLEN = Ok c /\ let h := splice z0 10 (store16 c) in
    blen h = IP_HLEN /\ bytes h /\ csum h = 0 /\ forall i, 0 <= i -> ~ 10 <= i < 12 -> getb h i = getb z i.
Proof.
  intros Hb Hl z0. unfold IP_HLEN in *. assert (blen z0 = 20) as Hl0 by (unfold z0; rewrite blen_splice; rewrite ?blen_net16; lia).
  assert (bytes z0) as Hb0 by (apply bytes_splice; [done|apply bytes_net16]).
  destruct (inet_chksum_correct odd z0) as (c & Hc & Hs); [done|lia|]. rewrite Hl0 in Hc. exists c. split; [done|]. cbv zeta. rewrite Hs.
  split_and!.
  - rewrite blen_splice; rewrite ?blen_net16; lia.
  - apply bytes_splice; [done|apply bytes_net16].
  - unfold z0. rewrite splice_splice by (rewrite ?blen_net16; lia). apply csum_splice_valid; try done; lia.
  - intros i Hi Hn. rewrite getb_splice_other by (rewrite ?blen_net16; lia). unfold z0. by rewrite getb_splice_other by (rewrite ?blen_net16; lia).
Qed.

Lemma reass_header_ok odd first n : bytes first -> blen first = IP_HLEN -> 0 <= n < 65536 -> exists h, reass_header odd first n = Ok h /\ whole_header first n h.
Proof.
  intros Hb Hl Hn. unfold reass_header, IPH_OFFSET_SET, IPH_LEN_SET. unfold IP_HLEN in Hl. set (y := splice first 2 (net16 n)). set (z := splice y 6 (net16 0)).
  assert (blen y = 20) as Hy by (unfold y; rewrite blen_splice; rewrite ?blen_net16; lia).
  assert (blen z = IP_HLEN) as Hz by (unfold z, IP_HLEN; rewrite blen_splice; rewrite ?blen_net16; lia).
  assert (bytes z) as Hbz by (repeat apply bytes_splice; try apply bytes_net16; done).
  destruct (checksum_set odd z Hbz Hz) as (c & -> & H1 & H2 & H3 & H4). cbn [obind]. eexists. split; [reflexivity|]. constructor; try done.
  - unfold IPH_LEN, be16. rewrite !H4 by lia. change (be16 z 2 = n). unfold z. rewrite be16_splice_other by (rewrite ?blen_net16; lia).
    unfold y. rewrite be16_splice_same by lia. by apply u16_small.
  - unfold IPH_OFFSET, be16. rewrite !H4 by lia. change (be16 z 6 = 0). unfold z. by rewrite be16_splice_same by lia.
  - intros i Hi N1 N2 N3. rewrite H4 by lia. unfold z. rewrite getb_splice_other by (rewrite ?blen_net16; lia). unfold y. by rewrite getb_splice_other by (rewrite ?blen_net16; lia).
Qed.

(** packets one after the other *)
Fixpoint reass_all (odd : bool) (xs : list (list Z * Z)) (s : reassembly) : outcome (reassembly * list (option (list Z))) :=
  match xs with
  | [] => Ok (s, [])
  | x :: xs =>
    try '(s, r) := ip4_reass odd x.1 x.2 s in
    try '(s, rs) := reass_all odd xs s in
    Ok (s, r :: rs)
  end.

(** ** Reassembly *)

Section Datagram.

(** the data of the datagram, its addresses and number, and the header of the
    fragment that begins it *)
Context (odd : bool) (D key first : list Z).
Context (HD : blen D <= 65535 - IP_HLEN) (Hfirst : bytes first /\ blen first = IP_HLEN).

(** the fragment a packet with so many buffers holds *)
Definition frag_of (x : list Z * Z) : fragment :=
  let offset := Z.land (IPH_OFFSET x.1) IP_OFFMASK * 8 in mkFrag offset (offset + (IPH_LEN x.1 - IP_HLEN)) x.2 (ptr x.1 IP_HLEN).

(** a part of the datagram, marked as the last one where it is *)
Record is_fragment (x : list Z * Z) : Prop := {
  if_hlen : IPH_HL x.1 * 4 = IP_HLEN;
  if_key : key_of x.1 = key_of key;
  if_place : 0 <= start (frag_of x) < end_ (frag_of x) /\ end_ (frag_of x) <= blen D;
  if_data : data (frag_of x) = field D (start (frag_of x)) (flen (frag_of x));
  if_part : 0 < start (frag_of x) \/ end_ (frag_of x) < blen D;
  if_last : (Z.land (IPH_OFFSET x.1) IP_MF =? 0) = (end_ (frag_of x) =? blen D);
  if_first : start (frag_of x) = 0 -> field x.1 0 IP_HLEN = first;
  if_clen : 0 <= x.2
}.

(** the entry of a datagram of which the fragments [l] have arrived *)
Record collected (l : list fragment) (ipr : ip_reassdata) : Prop := {
  cl_key : key_of (r_iphdr ipr) = key_of key;
  cl_order : ordered 0 (r_p ipr);
  cl_frags : r_p ipr ≡ₚ l;
  cl_pieces : Forall (fun f => end_ f <= blen D /\ data f = field D (start f) (flen f)) l;
  cl_last : (negb (Z.land (r_flags ipr) IP_REASS_FLAG_LASTFRAG =? 0) = true /\ r_datagram_len ipr = blen D /\ Exists (fun f => end_ f = blen D) l)
            \/ (negb (Z.land (r_flags ipr) IP_REASS_FLAG_LASTFRAG =? 0) = false /\ Forall (fun f => end_ f < blen D) l)
}.

(** its header is the one of the first fragment when that has arrived *)
Definition header_kept (l : list fragment) (ipr : ip_reassdata) : Prop :=
  r_iphdr ipr = first \/ Z.land (IPH_OFFSET (r_iphdr ipr)) IP_OFFMASK <> 0 /\ Forall (fun f => start f <> 0) l.

(** everything has arrived when the list has no hole *)
Lemma complete_iff l p : ordered 0 p -> p ≡ₚ l -> Forall (fun f => end_ f <= blen D) l -> Exists (fun f => end_ f = blen D) l ->
  match p with f :: _ => start f =? 0 | [] => false end && linked p = (covered l =? blen D).
Proof.
  intros Ho Hp Hl He. rewrite <- Hp in Hl, He. rewrite <- (covered_perm _ _ Hp). destruct p as [|f p]; [by inversion He|].
  pose proof (linked_full (blen D) (f :: p) 0 (mkFrag 0 0 0 []) Ho Hl (blen_nonneg D) eq_refl He) as E. cbn [no_holes end_] in E.
  rewrite Z.sub_0_r in E. rewrite <- E. cbn [linked]. by rewrite Z.eqb_sym.
Qed.

Lemma incomplete l p : ordered 0 p -> p ≡ₚ l -> l <> [] -> Forall (fun f => end_ f < blen D) l -> covered l <> blen D.
Proof.
  intros Ho Hp Hne Hl. rewrite <- (covered_perm _ _ Hp). rewrite <- Hp in Hl. pose proof (covered_le (blen D - 1) p 0 Ho) as H.
  destruct p as [|f p]; [by apply Permutation_nil in Hp|]. destruct Ho as [Hf _]. pose proof Hl as Hl'. apply Forall_cons_iff in Hl' as [Hf' _].
  assert (covered (f :: p) <= blen D - 1 - 0); [|lia]. apply H; [|lia]. eapply Forall_impl; [|exact Hl]. cbn. lia.
Qed.

Lemma whole_data l p : ordered 0 p -> p ≡ₚ l -> Forall (fun f => data f = field D (start f) (flen f)) l -> covered l = blen D ->
  match p with f :: _ => start f =? 0 | [] => false end && linked p = true -> concat (map data p) = D.
Proof.
  intros Ho Hp Hd Hc Hl. rewrite <- Hp in Hd. destruct p as [|f p]; [done|]. cbn [linked] in Hl. apply andb_true_iff in Hl as [Hs%Z.eqb_eq Hl].
  rewrite (concat_pieces D (f :: p) (mkFrag 0 0 0 [])); try done; [|cbn; by rewrite Hs].
  cbn [end_]. rewrite (covered_perm _ _ Hp), Hc. by apply field_all.
Qed.

(** what a fragment does to the table: the first entry is the datagram's, [c] is
    the number of buffers of the others *)
Definition after_fragment (l : list fragment) (rest : list ip_reassdata) (c : Z) (s : reassembly) (r : outcome (reassembly * option (list Z))) : Prop :=
  if covered l =? blen D then
    exists h, r = Ok (s <| reassdatagrams := rest |> <| ip_reass_pbufcount := c |>, Some (h ++ D)) /\ whole_header first (blen D + IP_HLEN) h
  else
    exists ipr, r = Ok (s <| reassdatagrams := ipr :: rest |> <| ip_reass_pbufcount := c + sum_clen l |>, None) /\ collected l ipr /\ header_kept l ipr.

Lemma last_bit f : negb (Z.land (Z.lor f IP_REASS_FLAG_LASTFRAG) IP_REASS_FLAG_LASTFRAG =? 0) = true.
Proof.
  apply negb_true_iff, Z.eqb_neq. intros E. apply (f_equal (fun z => Z.testbit z 0)) in E. rewrite Z.land_spec, Z.lor_spec in E. cbn in E.
  by rewrite orb_true_r in E.
Qed.

Lemma table_delete ipr rest (f g : Z -> Z) s : reassdatagrams s = ipr :: rest ->
  s <| ip_reass_pbufcount ::= f |> <| reassdatagrams ::= delete 0%nat |> <| ip_reass_pbufcount ::= g |> = s <| reassdatagrams := rest |> <| ip_reass_pbufcount := g (f (ip_reass_pbufcount s)) |>.
Proof. destruct s. cbn. by intros ->. Qed.
Lemma table_alter ipr rest (f : Z -> Z) h s : reassdatagrams s = ipr :: rest ->
  s <| ip_reass_pbufcount ::= f |> <| reassdatagrams ::= alter h 0%nat |> = s <| reassdatagrams := h ipr :: rest |> <| ip_reass_pbufcount := f (ip_reass_pbufcount s) |>.
Proof. destruct s. cbn. by intros ->. Qed.

Lemma fragment_step x l ipr rest c s :
  is_fragment x -> collected l ipr -> header_kept (frag_of x :: l) ipr -> Forall (apart (frag_of x)) l ->
  reassdatagrams s = ipr :: rest -> ip_reass_pbufcount s = c + sum_clen l -> 0 <= c -> 0 <= sum_clen l -> c + sum_clen l + x.2 <= 65535 ->
  after_fragment (frag_of x :: l) rest c s (reass_fragment odd x.1 x.2 (start (frag_of x)) (IPH_LEN x.1 - IP_HLEN) 0 ipr s).
Proof.
  intros [F1 F2 F3 F4 F5 F6 F7 F8] [C1 C2 C3 C4 C5] Hk Ha Hs Hc Hc0 Hc1 Hcm. unfold reass_fragment, IP_HLEN in *. cbv zeta. rewrite F6.
  assert (u16 (start (frag_of x) + (IPH_LEN x.1 - 20)) = end_ (frag_of x)) as -> by (apply u16_small; cbn in *; lia).
  rewrite (proj2 (Z.ltb_ge (end_ (frag_of x)) (start (frag_of x)))), (proj2 (Z.ltb_ge (65535 - 20) _)) by lia. rewrite andb_false_r.
  change (mkFrag (start (frag_of x)) (end_ (frag_of x)) x.2 (ptr x.1 20)) with (frag_of x). unfold ip_reass_chain_frag_into_datagram_and_validate.
  destruct (chain_frag_ok (frag_of x) (r_p ipr) None true 0 C2 I) as (p & after & v & -> & Ho & Hp & Hv); [lia|by rewrite C3|]. cbn [obind andb] in *.
  rewrite C3 in Hp. set (first_there := match p with f :: _ => start f =? 0 | [] => false end).
  assert (v && first_there && no_holes (frag_of x) after = first_there && linked p) as -> by (rewrite <- Hv; by destruct v, first_there).
  set (has_last := (end_ (frag_of x) =? blen D) || negb (Z.land (r_flags ipr) IP_REASS_FLAG_LASTFRAG =? 0)).
  assert (Forall (fun f => end_ f <= blen D) (frag_of x :: l)) as Hle.
  { constructor; [lia|]. eapply Forall_impl; [|exact C4]. by intros ? [? _]. }
  assert (if has_last then Exists (fun f => end_ f = blen D) (frag_of x :: l) else Forall (fun f => end_ f < blen D) (frag_of x :: l)) as Hlast.
  { unfold has_last. destruct (Z.eqb_spec (end_ (frag_of x)) (blen D)); cbn [orb]; [by left|]. destruct C5 as [(-> & _ & He)|(-> & Hf)]; [by right|constructor; [lia|done]]. }
  set (ipr' := if end_ (frag_of x) =? blen D then _ else _).
  assert (r_iphdr ipr' = r_iphdr ipr /\ (has_last = true -> r_datagram_len ipr' = blen D /\ negb (Z.land (r_flags ipr') IP_REASS_FLAG_LASTFRAG =? 0) = true)
    /\ (has_last = false -> negb (Z.land (r_flags ipr') IP_REASS_FLAG_LASTFRAG =? 0) = false)) as (E1 & E2 & E3).
  { unfold ipr', has_last. destruct (Z.eqb_spec (end_ (frag_of x)) (blen D)) as [E|E]; cbn [orb]; split_and!; try done.
    - intros _. split; [done|apply last_bit].
    - intros H. destruct C5 as [(? & ? & _)|(? & _)]; [done|congruence]. }
  clearbody ipr' has_last. cbn [sum_clen]. change (clen (frag_of x)) with (x.2).
  assert (u16 (ip_reass_pbufcount s + x.2) = c + sum_clen l + x.2) as Hcnt by (rewrite Hc; apply u16_small; lia).
  unfold after_fragment. destruct (Z.eqb_spec (covered (frag_of x :: l)) (blen D)) as [Hcov|Hcov].
  - destruct has_last; [|by destruct (incomplete _ _ Ho Hp)]. pose proof (complete_iff _ _ Ho Hp Hle Hlast) as Hfull.
    rewrite (proj2 (Z.eqb_eq _ _) Hcov) in Hfull. fold first_there in Hfull. rewrite Hfull. unfold check. rewrite (proj2 (Z.ltb_lt _ _)).
    2: { rewrite Hp. destruct l; cbn; [|lia]. cbn in Hcov. unfold flen in Hcov. cbn in *. lia. }
    destruct (E2 eq_refl) as [-> _]. assert (r_iphdr ipr' = first) as ->.
    { destruct Hk as [Hk|[_ Hk]]; [congruence|]. rewrite <- Hp in Hk. destruct p; [done|]. apply andb_true_iff in Hfull as [Hz%Z.eqb_eq _]. by apply Forall_cons_iff in Hk as [? _]. }
    cbn [obind]. rewrite u16_small by (pose proof (blen_nonneg D); lia).
    destruct (reass_header_ok odd first (blen D + 20)) as (h & -> & Hh); [apply Hfirst|apply Hfirst|pose proof (blen_nonneg D); lia|]. cbn [obind].
    exists h. split; [|done]. rewrite (whole_data _ _ Ho Hp); try done; [|constructor; [done|]; eapply Forall_impl; [|exact C4]; by intros ? [_ ?]].
    rewrite (sum_clen_perm _ _ Hp). cbn [sum_clen]. change (clen (frag_of x)) with (x.2).
    rewrite (table_delete ipr rest) by done. rewrite Hcnt. replace (u16 (c + sum_clen l + x.2 - (x.2 + sum_clen l))) with c by (symmetry; rewrite u16_small; lia). done.
  - exists (ipr' <| r_p := p |>). split_and!.
    + assert (exists r, r = (if has_last then if first_there && linked p then check (1 <? Z.of_nat (length p)) (Ok (Finished p)) else Ok (Queued p) else Ok (Queued p)) /\ r = Ok (Queued p)) as (r & <- & ->).
      { eexists. split; [reflexivity|]. destruct has_last; [|done]. pose proof (complete_iff _ _ Ho Hp Hle Hlast) as Hfull. fold first_there in Hfull. by rewrite Hfull, (proj2 (Z.eqb_neq _ _) Hcov). }
      cbn [obind]. rewrite (table_alter ipr rest) by done. rewrite Hcnt. by replace (c + sum_clen l + x.2) with (c + (x.2 + sum_clen l)) by lia.
    + constructor; cbn; [congruence|done|done| |].
      * constructor; [split; [lia|done]|done].
      * destruct has_last; [left; destruct (E2 eq_refl); done|right; split; [by apply E3|done]].
    + destruct Hk as [Hk|[Hk1 Hk2]]; [left; cbn; congruence|right; cbn; by rewrite E1].
Qed.

Lemma sums x : is_fragment x ->
  u16 (Z.land (IPH_OFFSET x.1) IP_OFFMASK * 8) = start (frag_of x) /\ u16 (IPH_LEN x.1 - IPH_HL x.1 * 4) = IPH_LEN x.1 - IP_HLEN.
Proof. intros [F1 _ F3 _ _ _ _ _]. unfold IP_HLEN in *. rewrite F1. cbn in F3. unfold IP_HLEN in F3. split; apply u16_small; cbn; lia. Qed.

(** a fragment of a datagram that is waiting *)
Lemma reass_more x l ipr rest c s :
  is_fragment x -> collected l ipr -> header_kept l ipr -> Forall (apart (frag_of x)) l ->
  reassdatagrams s = ipr :: rest -> ip_reass_pbufcount s = c + sum_clen l -> 0 <= c -> 0 <= sum_clen l -> c + sum_clen l + x.2 <= IP_REASS_MAX_PBUFS ->
  after_fragment (frag_of x :: l) rest c s (ip4_reass odd x.1 x.2 s).
Proof.
  intros Hf Hc Hk Ha Hs Hn Hc0 Hc1 Hcm. unfold IP_REASS_MAX_PBUFS in Hcm. destruct (sums x Hf) as [E1 E2]. unfold ip4_reass. cbv zeta. rewrite E1, E2, (if_hlen _ Hf), Z.eqb_refl. cbn [negb].
  rewrite (proj2 (Z.ltb_ge _ _)) by (unfold IP_REASS_MAX_PBUFS; lia). cbn [obind negb]. rewrite Hs. cbn [find_datagram].
  rewrite (proj2 (match_spec _ _)) by (rewrite (if_key _ Hf); apply Hc).
  destruct ((Z.land (IPH_OFFSET x.1) IP_OFFMASK =? 0) && negb (Z.land (IPH_OFFSET (r_iphdr ipr)) IP_OFFMASK =? 0)) eqn:Eh.
  - apply andb_true_iff in Eh as [Eh%Z.eqb_eq _]. set (ipr' := ipr <| r_iphdr := _ |>). set (s1 := s <| reassdatagrams ::= _ |>).
    assert (after_fragment (frag_of x :: l) rest c s1 (reass_fragment odd x.1 x.2 (start (frag_of x)) (IPH_LEN x.1 - IP_HLEN) 0 ipr' s1)) as H.
    { apply fragment_step; try done; [|left|unfold s1; cbn; by rewrite Hs|lia].
      - destruct Hc as [C1 C2 C3 C4 C5]. constructor; try done. cbn. rewrite key_front. by apply Hf.
      - cbn. apply (if_first _ Hf). cbn. by rewrite Eh. }
    unfold after_fragment in *. destruct (covered _ =? _).
    + destruct H as (h & -> & Hh). exists h. split; [|done]. cbn [length]. rewrite ?Nat.sub_succ, ?Nat.sub_0_r. by destruct s.
    + destruct H as (r & -> & Hr). exists r. split; [|done]. by destruct s.
  - apply fragment_step; try done; [|lia]. destruct Hk as [Hk|[Hk1 Hk2]]; [by left|]. right. split; [done|]. constructor; [|done].
    apply andb_false_iff in Eh as [Eh%Z.eqb_neq|Eh%negb_false_iff%Z.eqb_eq]; [cbn; lia|done].
Qed.

(** the first fragment of a datagram *)
Lemma reass_first x c s :
  is_fragment x -> find_datagram x.1 0 (reassdatagrams s) = None -> ip_reass_pbufcount s = c -> 0 <= c -> c + x.2 <= IP_REASS_MAX_PBUFS ->
  hd true (mallocs s) = true ->
  after_fragment [frag_of x] (reassdatagrams s) c (s <| mallocs := tl (mallocs s) |>) (ip4_reass odd x.1 x.2 s).
Proof.
  intros Hf Hnone Hn Hc0 Hcm Hmem. unfold IP_REASS_MAX_PBUFS in Hcm. destruct (sums x Hf) as [E1 E2]. unfold ip4_reass. cbv zeta. rewrite E1, E2, (if_hlen _ Hf), Z.eqb_refl. cbn [negb].
  rewrite (proj2 (Z.ltb_ge _ _)) by (unfold IP_REASS_MAX_PBUFS; lia). cbn [obind negb]. rewrite Hnone. unfold ip_reass_enqueue_new_datagram.
  assert (memp_malloc s = (true, s <| mallocs := tl (mallocs s) |>)) as ->.
  { unfold memp_malloc. destruct s as [t n [|b m] e]; [done|]. cbn in Hmem. by subst. }
  cbn [obind]. set (ipr := mkReass [] _ 0 0 IP_REASS_MAXAGE). set (s1 := _ <| reassdatagrams ::= _ |>).
  change (reassdatagrams s1) with (ipr :: reassdatagrams s). cbv iota beta.
  assert (after_fragment [frag_of x] (reassdatagrams s) c s1 (reass_fragment odd x.1 x.2 (start (frag_of x)) (IPH_LEN x.1 - IP_HLEN) 0 ipr s1)) as H.
  { apply fragment_step; try done; [| | |cbn [sum_clen]; lia].
    - constructor; cbn; try done; [rewrite key_front; apply Hf|by right].
    - destruct (Z.eq_dec (start (frag_of x)) 0) as [E|E]; [left; by apply (if_first _ Hf)|].
      right. cbn [r_iphdr ipr]. rewrite offset_front. split; [cbn in E; lia|]. by constructor.
    - cbn. lia. }
  unfold after_fragment in *. destruct (covered _ =? _).
  - destruct H as (h & -> & Hh). exists h. split; [|done]. cbn [length]. rewrite ?Nat.sub_succ, ?Nat.sub_0_r. by destruct s.
  - destruct H as (r & -> & Hr). exists r. split; [|done]. by destruct s.
Qed.

Lemma covered_pos xs : Forall is_fragment xs -> xs <> [] -> 0 < covered (map frag_of xs).
Proof.
  intros H Hne. assert (0 <= covered (map frag_of xs) /\ (xs <> [] -> 0 < covered (map frag_of xs))) as [_ Hp]; [|by apply Hp].
  clear Hne. induction H as [|x xs Hx _ IH]; [done|]. pose proof (if_place _ Hx). cbn [map covered]. assert (0 < flen (frag_of x)) by (unfold flen; lia). lia.
Qed.
Lemma sum_clen_nonneg xs : Forall is_fragment xs -> 0 <= sum_clen (map frag_of xs).
Proof. induction 1 as [|x xs Hx _ IH]; [done|]. pose proof (if_clen _ Hx). cbn [map sum_clen]. change (clen (frag_of x)) with (x.2). lia. Qed.

Lemma reass_rest xs : forall l ipr rest c s,
  Forall is_fragment xs -> xs <> [] -> collected l ipr -> header_kept l ipr -> Forall (fun x => Forall (apart (frag_of x)) l) xs ->
  ForallOrdPairs apart (map frag_of xs) -> covered l + covered (map frag_of xs) = blen D ->
  reassdatagrams s = ipr :: rest -> ip_reass_pbufcount s = c + sum_clen l -> 0 <= c -> 0 <= sum_clen l ->
  c + sum_clen l + sum_clen (map frag_of xs) <= IP_REASS_MAX_PBUFS ->
  exists h, reass_all odd xs s = Ok (s <| reassdatagrams := rest |> <| ip_reass_pbufcount := c |>, replicate (length xs - 1) None ++ [Some (h ++ D)])
    /\ whole_header first (blen D + IP_HLEN) h.
Proof.
  induction xs as [|x xs IH]; intros l ipr rest c s Hf Hne Hc Hk Ha Hp Hcov Hs Hn Hc0 Hc1 Hcm; [done|]. clear Hne.
  apply Forall_cons_iff in Hf as [Hx Hf]. apply Forall_cons_iff in Ha as [Hax Ha]. cbn [map] in Hp, Hcov, Hcm. inversion Hp as [|? ? Hpx Hp']; subst.
  cbn [covered sum_clen] in Hcov, Hcm. change (clen (frag_of x)) with (x.2) in Hcm. pose proof (sum_clen_nonneg _ Hf). cbn [reass_all].
  pose proof (reass_more x l ipr rest c s Hx Hc Hk Hax Hs Hn Hc0 Hc1 ltac:(lia)) as H'. unfold after_fragment in H'. cbn [covered] in H'.
  destruct xs as [|y xs].
  - cbn [map covered] in Hcov. rewrite (proj2 (Z.eqb_eq _ _)) in H' by lia. destruct H' as (h & -> & Hh). cbn [obind reass_all]. exists h. done.
  - pose proof (covered_pos _ Hf ltac:(done)). rewrite (proj2 (Z.eqb_neq _ _)) in H' by lia. destruct H' as (ipr' & -> & Hc' & Hk'). cbn [obind].
    destruct (IH (frag_of x :: l) ipr' rest c (s <| reassdatagrams := ipr' :: rest |> <| ip_reass_pbufcount := c + sum_clen (frag_of x :: l) |>)) as (h & -> & Hh); try done.
    + apply Forall_forall. intros z Hz. rewrite Forall_forall in Ha. constructor; [|by apply Ha]. rewrite Forall_forall in Hpx.
      specialize (Hpx (frag_of z) (in_map _ _ _ Hz)). unfold apart in *. tauto.
    + cbn [covered]. lia.
    + cbn [sum_clen]. pose proof (if_clen _ Hx). change (clen (frag_of x)) with (x.2). lia.
    + cbn [sum_clen]. change (clen (frag_of x)) with (x.2). lia.
    + cbn [obind]. exists h. split; [|done]. cbn [length]. rewrite ?Nat.sub_succ, ?Nat.sub_0_r. by destruct s.
Qed.

Lemma reass_any xs c s :
  Forall is_fragment xs -> (2 <= length xs)%nat -> ForallOrdPairs apart (map frag_of xs) -> covered (map frag_of xs) = blen D ->
  Forall (fun r => key_of (r_iphdr r) <> key_of key) (reassdatagrams s) -> ip_reass_pbufcount s = c -> 0 <= c ->
  c + sum_clen (map frag_of xs) <= IP_REASS_MAX_PBUFS -> hd true (mallocs s) = true ->
  exists h, reass_all odd xs s = Ok (s <| mallocs := tl (mallocs s) |>, replicate (length xs - 1) None ++ [Some (h ++ D)])
    /\ whole_header first (blen D + IP_HLEN) h.
Proof.
  intros Hf Hlen Hp Hcov Hkey Hn Hc0 Hcm Hmem. destruct xs as [|x [|y xs]]; [cbn in Hlen; lia|cbn in Hlen; lia|]. clear Hlen.
  apply Forall_cons_iff in Hf as [Hx Hf]. cbn [map] in Hp, Hcov, Hcm. inversion Hp as [|? ? Hpx Hp']; subst.
  set (ys := y :: xs) in *. change (frag_of y :: map frag_of xs) with (map frag_of ys) in *. cbn [covered sum_clen] in Hcov, Hcm. change (clen (frag_of x)) with (x.2) in Hcm. pose proof (sum_clen_nonneg _ Hf). pose proof (covered_pos _ Hf ltac:(done)).
  assert (find_datagram x.1 0 (reassdatagrams s) = None) as Hnone.
  { clear -Hkey Hx. revert Hkey. generalize 0%nat. induction (reassdatagrams s) as [|r l IH]; intros k Hkey; [done|]. apply Forall_cons_iff in Hkey as [Hr Hkey]. cbn.
    destruct (IP_ADDRESSES_AND_ID_MATCH (r_iphdr r) x.1) eqn:E; [|by apply IH]. apply match_spec in E. by rewrite (if_key _ Hx) in E. }
  pose proof (reass_first x _ s Hx Hnone eq_refl Hc0 ltac:(lia) Hmem) as H'. unfold after_fragment in H'. cbn [covered] in H'.
  rewrite (proj2 (Z.eqb_neq _ _)) in H' by lia. destruct H' as (ipr & E & Hc & Hk).
  change (reass_all odd (x :: ys) s) with (try '(s, r) := ip4_reass odd x.1 x.2 s in try '(s, rs) := reass_all odd ys s in Ok (s, r :: rs)). rewrite E. cbn [obind].
  pose proof (if_clen _ Hx).
  destruct (reass_rest ys [frag_of x] ipr (reassdatagrams s) (ip_reass_pbufcount s) (s <| mallocs := tl (mallocs s) |> <| reassdatagrams := ipr :: reassdatagrams s |> <| ip_reass_pbufcount := ip_reass_pbufcount s + sum_clen [frag_of x] |>)) as (h & -> & Hh); try done.
  - apply Forall_forall. intros z Hz. constructor; [|done]. rewrite Forall_forall in Hpx. specialize (Hpx (frag_of z) (in_map _ _ _ Hz)). unfold apart in *. tauto.
  - cbn [covered]. lia.
  - cbn. lia.
  - cbn [sum_clen]. change (clen (frag_of x)) with (x.2). lia.
  - cbn [obind]. exists h. split; [|done]. unfold ys. cbn [length]. rewrite ?Nat.sub_succ, ?Nat.sub_0_r. by destruct s.
Qed.

End Datagram.

(** ** Splitting *)

Lemma pairs_perm {A} (R : A -> A -> Prop) (l l' : list A) : (forall x y, R x y -> R y x) -> l ≡ₚ l' -> ForallOrdPairs R l -> ForallOrdPairs R l'.
Proof.
  intros Hsym Hp. induction Hp as [|x l l' Hp IH|x y l|l l' l'' Hp1 IH1 Hp2 IH2]; intros H; [done| | |by apply IH2, IH1].
  - inversion H; subst. constructor; [by rewrite <- Hp|by apply IH].
  - inversion H as [|? ? Hx Hr]; subst. inversion Hr as [|? ? Hy Hr']; subst. apply Forall_cons_iff in Hx as [Hxy Hx].
    constructor; [constructor; [by apply Hsym|done]|]. by constructor.
Qed.
Lemma ordered_apart l : forall lo, ordered lo l -> Forall (fun f => lo <= start f) l /\ ForallOrdPairs apart l.
Proof.
  induction l as [|f l IH]; intros lo Ho; [split; constructor|]. destruct Ho as [Hf Ho]. destruct (IH _ Ho) as [H1 H2]. split.
  - constructor; [lia|]. eapply Forall_impl; [|exact H1]. cbn. lia.
  - constructor; [|done]. eapply Forall_impl; [|exact H1]. intros g Hg. left. exact Hg.
Qed.

(** offsets with and without the flag *)
Lemma offset_field o : 0 <= o < 8192 ->
  Z.land IP_OFFMASK o = o /\ Z.lor o IP_MF = o + 8192 /\ Z.land (o + 8192) IP_OFFMASK = o /\ Z.land (o + 8192) IP_MF <> 0 /\ Z.land o IP_OFFMASK = o /\ Z.land o IP_MF = 0.
Proof.
  intros Ho. assert (forall z, Z.land z IP_OFFMASK = z mod 8192) as Hm by (intros; change IP_OFFMASK with (Z.ones 13); by rewrite Z.land_ones).
  assert (forall z, Z.testbit (Z.land z IP_MF) 13 = Z.odd (z / 8192)) as Ht.
  { intros z. rewrite Z.land_spec. change (Z.testbit IP_MF 13) with true. rewrite andb_true_r, Z.testbit_odd, Z.shiftr_div_pow2 by lia. done. }
  assert (Z.land o IP_MF = 0) as H0.
  { change IP_MF with (2 ^ 13). apply Z.bits_inj'. intros n Hn. rewrite Z.land_spec, Z.bits_0, Z.pow2_bits_eqb by lia. destruct (Z.eqb_spec 13 n) as [<-|]; [|by rewrite andb_false_r].
    rewrite andb_true_r, Z.testbit_odd, Z.shiftr_div_pow2 by lia. by rewrite Z.div_small by (change (2 ^ 13) with 8192; lia). }
  split_and!; try done.
  - rewrite Z.land_comm, Hm. apply Z.mod_small; lia.
  - rewrite Z.add_nocarry_lxor by done. by rewrite Z.lxor_lor.
  - rewrite Hm. replace (o + 8192) with (o + 1 * 8192) by lia. rewrite Z.mod_add by lia. apply Z.mod_small; lia.
  - intros E. specialize (Ht (o + 8192)). rewrite E in Ht. replace (o + 8192) with (o + 1 * 8192) in Ht by lia. rewrite Z.div_add, Z.div_small in Ht by lia. done.
  - rewrite Hm. apply Z.mod_small; lia.
Qed.

Section Split.
Context (odd : bool) (mtu : Z) (H D : list Z).
Context (HH : bytes H /\ blen H = IP_HLEN) (HHL : IPH_HL H * 4 = IP_HLEN) (HD : blen D <= 65535 - IP_HLEN).
Context (nfb : Z) (Hnfb : 0 < nfb) (Hmtu : mtu = IP_HLEN + nfb * 8) (Hbig : nfb * 8 < blen D).

(** a header that differs from [H] at most in what a fragment changes *)
Definition like_H (h : list Z) : Prop := forall i, 0 <= i < IP_HLEN -> ~ 2 <= i < 4 -> ~ 6 <= i < 8 -> ~ 10 <= i < 12 -> getb h i = getb H i.

(** the packet of the part at position [8 * o] *)
Definition part_packet (o n : Z) (p : list Z) : Prop :=
  exists h, p = h ++ field D (8 * o) n /\ blen h = IP_HLEN /\ bytes h /\ IPH_LEN h = n + IP_HLEN
    /\ IPH_OFFSET h = (if 8 * o + n =? blen D then o else o + 8192)
    /\ like_H h.

Lemma part_header o n tmp : 0 <= o < 8192 -> 0 < n -> n + IP_HLEN < 65536 -> tmp = (if 8 * o + n =? blen D then o else o + 8192) ->
  let z := splice (IPH_LEN_SET (IPH_OFFSET_SET H tmp) (n + IP_HLEN)) 10 (net16 0) in
  exists c, inet_chksum odd z IP_HLEN = Ok c /\ part_packet o n (splice z 10 (store16 c) ++ field D (8 * o) n).
Proof.
  intros Ho Hn Hl Htmp. cbv zeta. unfold IPH_LEN_SET, IPH_OFFSET_SET. destruct HH as [Hb Hlen]. unfold IP_HLEN in *. set (y := splice H 6 (net16 tmp)). set (z := splice y 2 (net16 (n + 20))).
  assert (blen y = 20) as Hy by (unfold y; rewrite blen_splice; rewrite ?blen_net16; lia).
  assert (blen z = IP_HLEN) as Hz by (unfold z, IP_HLEN; rewrite blen_splice; rewrite ?blen_net16; lia).
  assert (bytes z) as Hbz by (repeat apply bytes_splice; try apply bytes_net16; done).
  destruct (checksum_set odd z Hbz Hz) as (c & Hc & H1 & H2 & H3 & H4). exists c. split; [exact Hc|]. eexists. split; [reflexivity|]. unfold IP_HLEN in Hz. split_and!; try done.
  - unfold IPH_LEN, be16. rewrite !H4 by lia. change (be16 z 2 = n + 20). unfold z. rewrite be16_splice_same by lia. apply u16_small. lia.
  - unfold IPH_OFFSET, be16. rewrite !H4 by lia. rewrite <- Htmp. change (be16 z 6 = tmp). unfold z. rewrite be16_splice_other by (rewrite ?blen_net16; lia).
    unfold y. rewrite be16_splice_same by lia. apply u16_small. destruct (8 * o + n =? blen D); lia.
  - intros i Hi N1 N2 N3. rewrite H4 by lia. unfold z. rewrite getb_splice_other by (rewrite ?blen_net16; lia). unfold y. by rewrite getb_splice_other by (rewrite ?blen_net16; lia).
Qed.

(** the parts from position [8 * o] on, one packet each *)
Fixpoint parts (o : Z) (ps : list (list Z)) : Prop :=
  match ps with
  | [] => blen D <= 8 * o
  | p :: ps => 8 * o < blen D /\ part_packet o (Z.min (blen D - 8 * o) (nfb * 8)) p /\ parts (o + nfb) ps
  end.

Lemma frag_loop_ok fuel : forall o memory out, 0 <= o -> (Z.to_nat (blen D - 8 * o) <= fuel)%nat -> Forall (eq true) memory ->
  exists ps, frag_loop fuel odd mtu H (ptr D (8 * o)) o memory out = Ok (out ++ ps, ERR_OK) /\ parts o ps.
Proof.
  assert ((mtu - IP_HLEN) / 8 = nfb) as Hq by (rewrite Hmtu; replace (IP_HLEN + nfb * 8 - IP_HLEN) with (nfb * 8) by lia; by apply Z.div_mul).
  induction fuel as [|fuel IH]; intros o memory out Ho Hf Hm; cbn [frag_loop]; rewrite blen_ptr by lia;
    (destruct (Z.eqb_spec (Z.max 0 (blen D - 8 * o)) 0) as [E|E]; [exists []; rewrite app_nil_r; split; [done|cbn; lia]|]); [lia|].
  rewrite Hq. rewrite Z.max_r by lia. set (n := Z.min (blen D - 8 * o) (nfb * 8)). unfold IP_HLEN in *.
  assert (exists m, (match memory with [] => (true, []) | b :: l => (b, l) end) = (true, m) /\ Forall (eq true) m) as (m & -> & Hm').
  { destruct Hm as [|b l <- Hl]; [by exists []|by exists l]. }
  cbn [negb]. destruct (offset_field o ltac:(lia)) as (-> & -> & _).
  destruct (part_header o n (if blen D - 8 * o <=? mtu - 20 then o else o + 8192)) as (c & Hc & Hp); [lia|lia|unfold IP_HLEN; lia| |].
  { rewrite Hmtu. destruct (Z.leb_spec (blen D - 8 * o) (20 + nfb * 8 - 20)), (Z.eqb_spec (8 * o + n) (blen D)); try done; lia. }
  unfold IP_HLEN in Hc. rewrite Hc. cbn [obind]. rewrite field_ptr, Z.add_0_r by lia.
  rewrite (u16_small (o + nfb)) by lia. rewrite ptr_ptr by lia.
  assert (ptr D (8 * o + n) = ptr D (8 * (o + nfb))) as ->.
  { destruct (Z.le_gt_cases (blen D - 8 * o) (nfb * 8)); [|f_equal; lia]. unfold ptr. rewrite !drop_ge; [done|unfold blen in *; lia|unfold blen in *; lia]. }
  destruct (IH (o + nfb) m (out ++ [splice (splice (IPH_LEN_SET (IPH_OFFSET_SET H (if blen D - 8 * o <=? mtu - 20 then o else o + 8192)) (n + 20)) 10 (net16 0)) 10 (store16 c) ++ field D (8 * o) n]))
    as (ps & Hr & Hps); [lia|lia|done|]. eexists (_ :: ps). split; [|split; [lia|split; [exact Hp|exact Hps]]]. rewrite Hr, <- app_assoc. done.
Qed.

Lemma like_key p : 20 <= blen p -> like_H p -> key_of p = key_of H /\ IPH_HL p = IPH_HL H.
Proof.
  intros Hl Hp. destruct HH as [_ HHl]. unfold IP_HLEN in HHl.
  assert (forall i, 8 <= i -> i + 4 <= 20 -> 12 <= i -> field p i 4 = field H i 4) as Hf.
  { intros i H1 H2 H3. apply buffer_ext; [rewrite !blen_field by lia; done|]. rewrite blen_field by lia. intros j Hj. rewrite !field_lookup by lia. apply Hp; unfold IP_HLEN; lia. }
  unfold key_of, iph_src, iph_dest, IPH_ID, IPH_HL, be16. rewrite !Hf by lia. rewrite !Hp by (unfold IP_HLEN; lia). done.
Qed.

Definition first_of (ps : list (list Z)) : list Z := field (default [] (head ps)) 0 IP_HLEN.

Lemma part_split o n p : part_packet o n p -> 0 <= n ->
  20 <= blen p /\ ptr p IP_HLEN = field D (8 * o) n /\ like_H p /\ IPH_LEN p = n + IP_HLEN /\ IPH_OFFSET p = (if 8 * o + n =? blen D then o else o + 8192)
  /\ bytes (field p 0 IP_HLEN) /\ blen (field p 0 IP_HLEN) = IP_HLEN /\ like_H (field p 0 IP_HLEN).
Proof.
  intros (h & -> & Hl & Hb & H1 & H2 & H3) Hn. unfold IP_HLEN in *. assert (field (h ++ field D (8 * o) n) 0 20 = h) as E by (by apply field_app_l).
  rewrite E. pose proof (blen_nonneg (field D (8 * o) n)). split_and!; try done.
  - rewrite blen_app. lia.
  - unfold ptr. apply drop_app_length'. unfold blen in Hl. lia.
  - intros i Hi N1 N2 N3. unfold IP_HLEN in Hi. rewrite getb_app_l by lia. by apply H3.
  - unfold IPH_LEN, be16. rewrite !getb_app_l by lia. done.
  - unfold IPH_OFFSET, be16. rewrite !getb_app_l by lia. done.
Qed.

Lemma part_fragment first o x : part_packet o (Z.min (blen D - 8 * o) (nfb * 8)) x.1 -> 0 <= o -> 8 * o < blen D -> 0 <= x.2 ->
  (o = 0 -> field x.1 0 IP_HLEN = first) ->
  is_fragment D H first x /\ start (frag_of x) = 8 * o /\ end_ (frag_of x) = 8 * o + Z.min (blen D - 8 * o) (nfb * 8).
Proof.
  set (n := Z.min _ _). intros Hp Ho Hlt Hx Hfirst. destruct (part_split o n x.1 Hp ltac:(lia)) as (P1 & P2 & P3 & P4 & P5 & _). unfold IP_HLEN in HD.
  destruct (like_key _ P1 P3) as [K1 K2]. destruct (offset_field o ltac:(lia)) as (_ & _ & B1 & B2 & B3 & B4).
  assert (Z.land (IPH_OFFSET x.1) IP_OFFMASK = o) as Eo by (rewrite P5; by destruct (8 * o + n =? blen D)).
  assert (start (frag_of x) = 8 * o) as Es by (cbn; lia). assert (end_ (frag_of x) = 8 * o + n) as Ee by (cbn; unfold IP_HLEN in *; lia).
  split; [|done]. constructor; rewrite ?Es, ?Ee; try done; try lia.
  - unfold flen. rewrite Es, Ee. replace (8 * o + n - 8 * o) with n by lia. exact P2.
  - rewrite P5. destruct (8 * o + n =? blen D); [by rewrite B4|by apply Z.eqb_neq].
  - intros E0. apply Hfirst. lia.
Qed.

Lemma parts_fragments first xs : forall o,
  parts o (map fst xs) -> 0 <= o -> (o = 0 -> first_of (map fst xs) = first) -> Forall (fun x => 0 <= x.2) xs ->
  Forall (is_fragment D H first) xs /\ ordered (8 * o) (map frag_of xs) /\ covered (map frag_of xs) = Z.max 0 (blen D - 8 * o).
Proof.
  induction xs as [|x xs IH]; intros o Hp Ho Hfirst Hc; cbn [map parts] in Hp; [cbn; split_and!; [constructor|done|lia]|].
  destruct Hp as (Hlt & Hp & Hps). apply Forall_cons_iff in Hc as [Hx Hc].
  destruct (part_fragment first o x Hp Ho Hlt Hx Hfirst) as (Hf & Es & Ee).
  destruct (IH (o + nfb) Hps ltac:(lia) ltac:(lia) Hc) as (H1 & H2 & H3). cbn [map ordered covered]. split_and!; [by constructor|lia|lia| |].
  - rewrite Ee. eapply ordered_lower, H2. lia.
  - unfold flen. rewrite H3, Es, Ee. lia.
Qed.

(** the parts, in any order, are put together again *)
Lemma parts_reassemble odd' ps xs s :
  parts 0 ps -> map fst xs ≡ₚ ps -> Forall (fun x => 0 <= x.2) xs ->
  Forall (fun r => key_of (r_iphdr r) <> key_of H) (reassdatagrams s) -> 0 <= ip_reass_pbufcount s ->
  ip_reass_pbufcount s + sum_clen (map frag_of xs) <= IP_REASS_MAX_PBUFS -> hd true (mallocs s) = true ->
  exists h, reass_all odd' xs s = Ok (s <| mallocs := tl (mallocs s) |>, replicate (length xs - 1) None ++ [Some (h ++ D)])
    /\ whole_header H (blen D + IP_HLEN) h.
Proof.
  intros Hp Hperm Hc Hk H0 Hn Hm. symmetry in Hperm. apply Permutation_map_inv in Hperm as (ys & -> & Hxy).
  assert (Forall (fun x => 0 <= x.2) ys) as Hc' by by rewrite <- Hxy.
  destruct (parts_fragments _ ys 0 Hp ltac:(lia) (fun _ => eq_refl) Hc') as (F1 & F2 & F3). set (first := first_of (map fst ys)) in *.
  pose proof (blen_nonneg D). assert (bytes first /\ blen first = IP_HLEN /\ like_H first) as (B1 & B2 & B3).
  { destruct ys as [|y ys]; [cbn in Hp; lia|]. destruct Hp as (_ & Hp & _). destruct (part_split _ _ _ Hp ltac:(lia)) as (_ & _ & _ & _ & _ & X). exact X. }
  assert (map frag_of ys ≡ₚ map frag_of xs) as Hfp by by rewrite Hxy.
  destruct (reass_any odd' D H first HD (conj B1 B2) xs (ip_reass_pbufcount s) s) as (h & E & Hh); try done.
  - by rewrite Hxy.
  - rewrite Hxy. destruct ys as [|y1 [|y2 ys]]; cbn in Hp; [lia|lia|cbn; lia].
  - eapply pairs_perm; [|exact Hfp|apply (ordered_apart _ _ F2)]. unfold apart. tauto.
  - rewrite <- (covered_perm _ _ Hfp), F3. lia.
  - exists h. split; [done|]. destruct Hh as [W1 W2 W3 W4 W5 W6]. constructor; try done. intros i Hi N1 N2 N3. rewrite W6 by done. by apply B3.
Qed.

End Split.

(** ** Properties *)

(** C28. A datagram that is too long for the interface is split into packets that,
    in whatever order they arrive and however many buffers each one takes, are
    put together to the same data under a header with the length of the whole, no
    offset and a valid checksum; nothing is handed on before the last of them,
    and the table is left as it was.  The transfer unit holds a multiple of eight
    bytes besides the header, as the one of the relay's interface does. *)
Theorem fragments_whole odd odd' mtu memory H D :
  bytes H -> blen H = IP_HLEN -> IPH_HL H * 4 = IP_HLEN -> IPH_OFFSET H = 0 -> mtu < IP_HLEN + blen D <= 65535 ->
  IP_HLEN < mtu -> (mtu - IP_HLEN) mod 8 = 0 -> Forall (eq true) memory ->
  exists ps, ip4_frag odd mtu memory (H ++ D) = Ok (ps, ERR_OK) /\ Forall (fun p => blen p <= mtu) ps
    /\ forall xs s, map fst xs ≡ₚ ps -> Forall (fun x => 0 <= x.2) xs ->
       Forall (fun r => key_of (r_iphdr r) <> key_of H) (reassdatagrams s) -> 0 <= ip_reass_pbufcount s ->
       ip_reass_pbufcount s + sum_clen (map frag_of xs) <= IP_REASS_MAX_PBUFS -> hd true (mallocs s) = true ->
       exists h, reass_all odd' xs s = Ok (s <| mallocs := tl (mallocs s) |>, replicate (length xs - 1) None ++ [Some (h ++ D)])
         /\ whole_header H (blen D + IP_HLEN) h.
Proof.
  intros Hb Hl Hhl Hoff Hm Hm2 Hmod Hmem. set (nfb := (mtu - IP_HLEN) / 8). assert (mtu = IP_HLEN + nfb * 8) as Hmtu by (unfold nfb; pose proof (Z.div_mod (mtu - IP_HLEN) 8); lia).
  assert (0 < nfb) as Hn by lia. unfold ip4_frag. assert (forall i, 0 <= i < 20 -> getb (H ++ D) i = getb H i) as Hg by (intros; apply getb_app_l; unfold IP_HLEN in Hl; lia).
  assert (IPH_OFFSET (H ++ D) = 0) as -> by (unfold IPH_OFFSET, be16 in *; rewrite !Hg by lia; done).
  assert (IPH_HL (H ++ D) * 4 = IP_HLEN) as -> by (unfold IPH_HL in *; by rewrite Hg by lia). unfold check. cbn [Z.eqb].
  rewrite Z.eqb_refl. change (Z.land 0 IP_MF =? 0) with true. cbv iota. change (Z.land 0 IP_OFFMASK) with 0. rewrite field_app_l by done.
  assert (ptr (H ++ D) IP_HLEN = ptr D (8 * 0)) as -> by (unfold ptr; rewrite drop_app_length' by (unfold blen in Hl; lia); done).
  destruct (frag_loop_ok odd mtu H D (conj Hb Hl) Hhl ltac:(lia) nfb Hn Hmtu ltac:(lia) (length (H ++ D)) 0 memory []) as (ps & -> & Hp); [lia|rewrite length_app; unfold blen; lia|done|].
  exists ps. split; [done|]. split; [|intros; eapply parts_reassemble; try done; lia].
  clear -Hp Hmtu Hn. revert Hp. generalize 0 at 1. induction ps as [|p ps IH]; intros o Hp; [constructor|]. destruct Hp as (Hlt & (h & -> & Hh & _) & Hp). constructor; [|by eapply IH].
  rewrite blen_app, Hh. unfold blen, field. rewrite length_take. lia.
Qed.

Module Fragments.
Definition H : list Z := [69; 0; 0; 44; 18; 52; 0; 0; 64; 6; 0; 0; 10; 13; 0; 1; 10; 13; 37; 2].
Definition D : list Z := [1; 2; 3; 4; 5; 6; 7; 8; 9; 10; 11; 12; 13; 14; 15; 16; 17; 18; 19; 20; 21; 22; 23; 24].
Definition empty : reassembly := mkReassembly [] 0 [] [].
(** a fragment with one buffer: offset field and data *)
Definition packet (o : Z) (d : list Z) : list Z * Z := (IPH_LEN_SET (IPH_OFFSET_SET H o) (blen d + 20) ++ d, 1).
End Fragments.

(** the second part arrives first *)
Lemma fragments_whole_witness :
  exists p q h, ip4_frag false 36 [] (Fragments.H ++ Fragments.D) = Ok ([p; q], ERR_OK)
    /\ reass_all false [(q, 1); (p, 1)] Fragments.empty = Ok (Fragments.empty, [None; Some (h ++ Fragments.D)]) /\ csum h = 0.
Proof.
  destruct (fragments_whole false false 36 [] Fragments.H Fragments.D) as (ps & E & _ & R).
  - apply sample_bytes. reflexivity.
  - reflexivity.
  - reflexivity.
  - reflexivity.
  - vm_compute. split; congruence.
  - vm_compute. reflexivity.
  - reflexivity.
  - constructor.
  - pose proof E as E'. vm_compute in E'. injection E' as <-.
    match type of E with _ = Ok ([?p; ?q], _) => exists p, q; destruct (R [(q, 1); (p, 1)] Fragments.empty) as (h & Hr & Hh) end.
    + apply perm_swap.
    + repeat constructor; vm_compute; congruence.
    + constructor.
    + vm_compute. congruence.
    + vm_compute. congruence.
    + reflexivity.
    + exists h. split; [exact E|]. split; [exact Hr|apply Hh].
Defined.

(** *** Outside the conditions *)

(** A fragment that arrives twice is freed twice. *)
Theorem repeated_fragment_freed_twice :
  reass_all false [Fragments.packet IP_MF [1; 2; 3; 4; 5; 6; 7; 8]; Fragments.packet IP_MF [1; 2; 3; 4; 5; 6; 7; 8]] Fragments.empty = Stop OutOfBounds.
Proof. vm_compute. reflexivity. Qed.

(** A last fragment that ends beyond the longest datagram leaves an entry without
    fragments, whose null pointer the timer follows at its fourth tick. *)
Theorem long_fragment_stops_timer :
  exists s, reass_all false [Fragments.packet 8191 (replicate 100 7)] Fragments.empty = Ok (s, [None]) /\ length (reassdatagrams s) = 1%nat
    /\ obind (ip_reass_tmr s) (fun s => obind (ip_reass_tmr s) (fun s => obind (ip_reass_tmr s) ip_reass_tmr)) = Stop NullDeref.
Proof. eexists. split; [vm_compute; reflexivity|]. split; vm_compute; reflexivity. Qed.
